(* ===== verification/_CoqProject ===== *)
-Q . S2P
Prelude.v
GoStrings.v
ApiTypes.v
ChainDAG.v
ChainRun.v
GoUrl.v
Regex.v
TemporalTypes.v
Workflow.v
WorkflowLogic.v
ApprovalGate.v
SingleAgent.v
RunProps.v
SpecDriven.v
SpecProps.v
Orchestration.v
Sample.v
RunTheorems.v
RunCases.v
Files.v
GoTime.v
Json.v
Sha256.v
Citelock.v
CiteCapture.v
SpecParse.v
SpecGraph.v
SpecCheck.v
SpecRubric.v
Gate.v
GateProps.v
EventBus.v
Kube.v
RunController.v
RunCluster.v
RunClusterProps.v
RunSync.v
RunSample.v
ProjectController.v
ScheduleController.v
Cache.v
RateLimit.v
RegexLang.v
ApiNames.v
ApiProto.v
ApiServer.v
ApiList.v
JsonDecode.v
Bff.v
CIAutofix.v
Webhook.v
OpenSpec.v
VerifyRun.v
VerifyProps.v
JsonRaw.v
PiEvents.v
AgentLaunch.v
SidecarSpans.v
SpanProps.v
SidecarGateway.v
SidecarProps.v
Shell.v
Hydrator.v
GitActivities.v
RunTags.v
AgentLog.v
RestFiles.v
RestChains.v
RestProps.v
RestRuns.v
Brain.v
Knowledge.v
PodActivities.v
CliArgs.v
CliRuns.v
CliProps.v
CliReports.v
CliReportProps.v
CliTools.v
Services.v
