(* ===== verification/Prelude.v ===== *)
(** * UNCWORKS: a verification library

    UNCWORKS runs coding agents on Kubernetes.  A user, a schedule, a chain, a webhook or a failed check
    creates an AgentRun; the controller starts a Temporal workflow for it; the workflow's activities create a
    pod, whose init container prepares the workspace and whose sidecar runs the agent; the workflow plans,
    executes, verifies, asks for approval, pushes and opens a pull request; the controller copies the
    workflow's state into the AgentRun, and the API server shows it.  Beside this, command line tools check
    the documents of a change: its rubric, its task graph, its citations, and the gate of a pull request.

    The library models the Go code under [src/].  A definition names the file and the lines that it translates in
    the comment in front of it and has the name of the source where Rocq allows it.

    ** The parts, and where they are

    - The language.  [GoStrings] ([strings], [strconv], [path/filepath] on strings of bytes), [GoUrl],
      [GoTime], [Regex] and [RegexLang] ([regexp] with leftmost-first matching, and the language of an
      expression), [Json], [JsonDecode] and [JsonRaw] ([encoding/json]), [Sha256], [Files] (a file tree).
      What the source uses of the standard library is executable here, HMAC and SHA-256 included.
    - Effects.  [Workflow] is a monad for Temporal workflow code, whose environment answers activities, timers,
      signals and child workflows; [WorkflowLogic] has its judgements.  [Kube] is a monad for handlers that
      make calls and return early; a handler has a meaning for every list of answers.  [Shell] is a monad for code
      whose commands change a state that later commands see.
    - Resources ([api/v1alpha1]): [ApiTypes], [ChainDAG] (the validation of a chain).
    - Controllers ([internal/controller]): [ChainRun], [RunController], [ProjectController],
      [ScheduleController].  [RunCluster] puts the AgentRun controller into a cluster with users, Temporal, a cache
      that may be behind, and failing calls as a step relation; [RunClusterProps] and [RunSync] have its theorems and [RunSample] a
      run for the examples.
    - Workflows ([internal/temporal]): [TemporalTypes], [ApprovalGate], [SingleAgent],
      [SpecDriven], [Orchestration] (the dispatch is [AgentRunWorkflow]); [RunProps], [SpecProps],
      [RunTheorems] and [RunCases] have the theorems, [Sample] the environments of the examples.
    - Activities ([internal/temporal]): [OpenSpec], [VerifyRun] and [VerifyProps] (planning and
      verifying), [GitActivities] (pushing and pull requests), [RunTags] (the judge and the tags).
    - The pod: [PodActivities] (the activities that create and delete it, find it and read its traces, with the
      client of the model proxy), [Hydrator] ([internal/hydration]); [PiEvents],
      [AgentLaunch], [SidecarSpans], [SpanProps], [SidecarGateway] and [SidecarProps]
      ([internal/sidecar/gateway.go]).
    - The API server ([internal/server]): [ApiNames], [ApiProto], [ApiServer], [ApiList]
      ([grpc.go]), [Webhook], [CIAutofix], [RateLimit], [AgentLog] and [RestFiles]
      ([files.go]), [RestChains] and [RestProps] ([chains.go], [projects.go]), [RestRuns] (the
      smaller handlers); [EventBus] ([internal/eventbus]).
    - In front of it ([internal/bff]): [Bff], the middlewares as programs that others interleave with, and
      [Cache].  Behind it: [Services], files on GitHub ([github.go]), the code search ([cmd/cudgel-shim]) and
      the repositories of projects ([internal/softserve]).
    - What runs leave for later runs: [Brain] ([internal/brain]) and [Knowledge] ([internal/embeddings],
      [knowledge_activities.go]).
    - The command line ([cmd/uncworks]): [CliArgs] (flags and dispatch), [CliRuns] (the commands on runs),
      [CliProps], [CliReports] (what [uncworks runs] counts, orders and shows), [CliReportProps], and [CliTools]
      ([uncworks spec], [gate] and [cite]).
    - The documents of a change: [SpecParse], [SpecGraph], [SpecCheck], [SpecRubric] ([internal/specutil]),
      [Citelock] and [CiteCapture] ([internal/citelock]), [Gate] and [GateProps] ([internal/gate]).

    ** How they interact

    The controllers' theorem on a started run takes the workflow's input from [BuildWorkflowInput], which is the
    input that [AgentRunWorkflow] runs on.  The chains that [RestProps] shows to be stored are those that
    [ChainDAG] accepts and that [ChainRun] executes.  The rubric's verdict ([SpecRubric]) gives [SpecGraph]'s
    scheduler a graph without cycles.  The webhook and the fixes of failed checks create the AgentRun of
    [RunController]; [ApiServer] shows the phases that [RunController] stores.  The reader of the agent's output
    ([PiEvents]) is a step of the gateway ([SidecarGateway]), whose tracing is [SidecarSpans].  [WatchAgentRun]
    relays what [EventBus] sends.  What the command line sends for an approval or a rejection is what the gate of the
    workflow ([ApprovalGate]) takes for one, and its requests are those of [ApiList] and [ApiServer].  [CliTools] runs
    the rubric, the scheduler, the gate and the citation lock on what its arguments name.

    ** What the theorems show

    - A run: once its workflow is recorded, and the cache has no version from before, it is not started again; it is started from the
      spec that the controller reads, and not after it is over or being deleted; before a recorded run is gone, that workflow's
      cancellation is requested; its phases follow its workflow's; an interrupted start is resumed.
    - A workflow: it ends in a final phase without running out of fuel, gives back its key and its pod, which it scales down and then archives, pushes
      nothing that its gates refuse; a spec-driven run is verified before it is pushed, in a bounded number of
      attempts; a verification passes exactly through its checks.
    - The pod: its secrets are in the variables of the init container and the agent, and nowhere else; the activities
      touch the objects of their run only; hydration writes below the workspace and gives the token to github.com
      only; a push is made once and last, from a branch that was checked out before; the sidecar never sends on a closed channel; the lines
      it has read of an agent are the first that were written, and it calls an agent completed only when none of them reported an error and
      the readers have ended, for one of the reasons that end them; the loop detection kills exactly at the repeated calls.
    - The API: a run is created within its limits and read back as it was sent, but for what the stored resource's schema adds and drops; the pages of a listing cover it; a
      webhook acts on signed events only; a generated name is a valid one; the file explorer reads the pod or the volume of its run, below the
      workspace or at a path that its name is a prefix of; stored chains and schedules are valid, and deleting leaves no reference.
    - The web backend: whatever requests run side by side, one that changes something comes through only with a token that
      was drawn earlier for a request with its cookie, and a token is shown to nobody else; what is pushed to GitHub is pulled
      again, or pulling it is an error, where GitHub answers as it documents; the code search indexes allowed directories only.
    - Knowledge: what is stored is of a run whose traces were read, a command's words are read back by the shell as
      they were given, the chunks of a document cover it.
    - The command line: what prunes or cancels many runs touches only runs that were listed and match, and not
      without consent; a wait succeeds only when its runs have, and ends unless the stream of a run goes on for ever without a limit of time; a
      listing shows the runs that match;
      flags are read wherever the IDs of runs stand; an answer reaches the gate as it was meant; the scores of a report,
      which stops early, are those of all the runs that the server has.
    - The documents: validation and rubric accept exactly the well-formed chains and changes, the cycle search is
      correct, a change that passes can be completed, the gate and the citation lock accept exactly what
      their declarative descriptions say, and the command line tools end with status 0 exactly then.
    - Data structures: the cache and the rate limiter refine a log and a token bucket; the event bus keeps its
      invariant in every interleaving of its locked sections, and a publication reaches those that were subscribed when it began while
      nobody unsubscribes; two examples exhibit the races otherwise.

    Examples evaluate the definitions on concrete inputs; where the code does something else than its comments or its
    purpose say, an example or a lemma states what it does.

    ** Fuel and bounds

    A polling loop takes one input of the environment in each round and has one round more than there are inputs; the
    theorems on the end of a run show that it does not run out.  The automatic mode calls the workflow back once.
    Parsers of JSON and expressions have the length of their input.
    The walk of the task graph has the number of its nodes, and [SpecGraph] shows that it suffices.  A
    command that follows the pages of a listing has a number of pages, and ends as [Unfinished] when the server has
    more: its theorems hold for every number.  A wait calls itself, and that call no further, which [CliProps] shows for IDs that
    the command line recognises; a stream of events may stay open for ever, and a command that waits for it ends as [Endless].  Kahn's loop has the
    number of steps, and [ChainDAG] shows that its queue is empty then.  Integers are unbounded where the
    source's cannot reach their width, and [int32] and [int64] wrap where they can ([int32_incr], durations in
    nanoseconds of [RunSync] and [RateLimit]).  Times are integers, in seconds or nanoseconds as the definitions say.

    ** What is not modelled

    - Other programs: Kubernetes' API server and its caches, Temporal, git, devbox, the agent, the model, GitHub and
      soft-serve are parameters: functions of the call, lists of answers, or state transformers under no
      assumption but those that a theorem names.  In [RunCluster] a reconcile may read an older version of the run, whose writes
      are then refused, and is otherwise one step: users act between reconciles.  The other controllers see
      what their calls answer.
    - Of the standard library: folding of case and white space is that of ASCII; errors of JSON have no
      text, its nesting no limit; numbers with a fraction stay text, and how a [float64] is printed is a parameter, as are
      YAML, cron, prices and percentages; [os.Stat] fails only for a file that is not there; file trees have
      no symbolic links.  The orders of maps and of unstable sorts are parameters with the law that
      they permute.  Goroutines are interleaved at their locks and channels; the callback of a timer that has started
      when it is stopped is described in the text only.
    - Of PostgreSQL: the tables are lists of rows and a query is a fold over them; the connection, the syntax of a
      UUID, the search of the nearest vectors and the order of rows of equal time are parameters.
    - Of the command line: tables and JSON are events with the runs that they show; the times in the lines of a log
      are a parameter, and so are the dates of a report and the text of a floating-point number, which itself is
      executable ([GoTime]); the waits for several runs are run one after the other, in any order; [uncworks runs watch],
      [open], [inspect], [verify], [diff], [commits] and [alias], the set-up commands and the terminal interface are left
      out.
    - Of the web backend: the reverse proxy, the relaying of WebSockets and the health check.
    - Not at all: [internal/controller/multi_agent.go], streams that are copied between connections ([chat.go],
      [debug.go], the stream of [exec.go]), metrics, [internal/github/app.go], the desktop application, the code that starts
      the servers, generated code, and the code in other languages.

    ** The plan

    What is left is the other commands of the command line, the search of past work in [grpc.go], and the streams. *)

From stdpp Require Export base tactics option list gmap sets strings pretty sorting.
From Stdlib Require Export ZArith Lia Bool.
From Stdlib Require Ascii String.
Export (notations) Stdlib.Strings.Ascii.
Delimit Scope char_scope with char.
Bind Scope char_scope with Ascii.ascii.
#[global] Arguments String.append !_ _ / : simpl nomatch.
#[global] Arguments String.eqb !_ !_ / : simpl nomatch.

(** Notations of the development live in [unc_scope]. *)
Declare Scope unc_scope.
Delimit Scope unc_scope with unc.
#[export] Set Default Goal Selector "!".

(** ** Shared tactics *)

(** Turn boolean connectives in the context and the goal into logical ones. *)
Ltac breflect :=
  repeat match goal with
  | H : context [_ && _ = true] |- _ => rewrite andb_true_iff in H
  | H : context [_ || _ = true] |- _ => rewrite orb_true_iff in H
  | H : context [negb _ = true] |- _ => rewrite negb_true_iff in H
  | H : context [_ && _ = false] |- _ => rewrite andb_false_iff in H
  | H : context [_ || _ = false] |- _ => rewrite orb_false_iff in H
  | H : context [negb _ = false] |- _ => rewrite negb_false_iff in H
  | H : context [bool_decide _ = true] |- _ => rewrite bool_decide_eq_true in H
  | H : context [bool_decide _ = false] |- _ => rewrite bool_decide_eq_false in H
  | H : context [String.eqb _ _ = true] |- _ => rewrite String.eqb_eq in H
  | H : context [String.eqb _ _ = false] |- _ => rewrite String.eqb_neq in H
  | |- context [_ && _ = true] => rewrite andb_true_iff
  | |- context [_ || _ = true] => rewrite orb_true_iff
  | |- context [negb _ = true] => rewrite negb_true_iff
  | |- context [_ && _ = false] => rewrite andb_false_iff
  | |- context [_ || _ = false] => rewrite orb_false_iff
  | |- context [negb _ = false] => rewrite negb_false_iff
  | |- context [bool_decide _ = true] => rewrite bool_decide_eq_true
  | |- context [bool_decide _ = false] => rewrite bool_decide_eq_false
  | |- context [String.eqb _ _ = true] => rewrite String.eqb_eq
  | |- context [String.eqb _ _ = false] => rewrite String.eqb_neq
  end.

(** Case analysis on every [match]/[if] scrutinee, closing impossible cases. *)
Ltac split_matches := repeat (case_match; simplify_eq/=; try done).

(** Hint databases: [unc] for the lemmas that chain by resolution, [unc_rw]
    for the equations of the shared operations. *)
Create HintDb unc discriminated.
Create Rewrite HintDb unc_rw.

(** ** Lists *)

Section lists.
Context {A : Type}.
Implicit Types (l : list A) (P : A -> bool).

Lemma existsb_elem P l : existsb P l = true <-> exists x, x ∈ l /\ P x = true.
Proof.
  rewrite existsb_exists. split; intros (x & ? & ?); exists x;
    [by rewrite list_elem_of_In | by rewrite <- list_elem_of_In].
Qed.

Lemma existsb_elem_false P l :
  existsb P l = false <-> forall x, x ∈ l -> P x = false.
Proof.
  split.
  - intros H x Hx. destruct (P x) eqn:E; [|done].
    assert (existsb P l = true) by (apply existsb_elem; eauto). congruence.
  - intros H. destruct (existsb P l) eqn:E; [|done].
    apply existsb_elem in E as (x & Hx & HP). by rewrite H in HP.
Qed.

Lemma forallb_elem P l : forallb P l = true <-> forall x, x ∈ l -> P x = true.
Proof.
  rewrite forallb_forall. split; intros H x Hx; apply H; by apply list_elem_of_In.
Qed.

Lemma forallb_elem_false P l :
  forallb P l = false <-> exists x, x ∈ l /\ P x = false.
Proof.
  split.
  - induction l as [|a l IH]; [done|]. cbn. destruct (P a) eqn:E.
    + intros (x & Hx & Hp)%IH. exists x. split; [by constructor|done].
    + intros _. exists a. split; [by constructor|done].
  - intros (x & Hx & Hp). destruct (forallb P l) eqn:E; [|done].
    rewrite forallb_elem in E. rewrite E in Hp; done.
Qed.
End lists.

(** Induction over a loop written as a left fold. *)
Lemma foldl_ind {A B} (P : A -> Prop) (f : A -> B -> A) (a : A) (l : list B) :
  P a -> (forall a b, b ∈ l -> P a -> P (f a b)) -> P (foldl f a l).
Proof.
  revert a. induction l as [|b l IH]; intros a Ha Hf; [done|]. simpl.
  apply IH; [apply Hf; [constructor|done]|]. intros a' b' Hb'. apply Hf. by constructor.
Qed.

(** Induction over a loop [for i := 0; i < n; i++], with the index. *)
Lemma foldl_seq_ind {A} (P : nat -> A -> Prop) (f : A -> nat -> A) (n : nat) (a : A) :
  P 0 a -> (forall i a, i < n -> P i a -> P (S i) (f a i)) ->
  P n (foldl f a (seq 0 n)).
Proof.
  intros H0 Hs.
  cut (forall k, k <= n -> P k (foldl f a (seq 0 k))); [intros H; apply H; lia|].
  induction k as [|k IH]; intros Hk; [done|].
  rewrite seq_S, foldl_app. simpl. apply Hs; [lia|]. apply IH. lia.
Qed.

(** A pointwise relation survives the update of one related element. *)
Lemma Forall2_insert_r {A} (R : relation A) l k i x y :
  Forall2 R l k -> l !! i = Some x -> R x y -> Forall2 R l (<[i:=y]> k).
Proof.
  intros H Hi Hxy. rewrite <- (list_insert_id l i x) by done. by apply Forall2_insert.
Qed.

#[export] Hint Rewrite @existsb_elem @existsb_elem_false @forallb_elem @forallb_elem_false : unc_rw.

(** A Go result: a value or an error, the error carrying its message. *)
Inductive result (A : Type) : Type :=
| Ok (a : A)
| Err (msg : string).
Arguments Ok {A} a.
Arguments Err {A} msg.

Definition result_bind {A B} (m : result A) (k : A -> result B) : result B :=
  match m with Ok a => k a | Err e => Err e end.

Notation "'try' x := m 'in' k" := (result_bind m (fun x => k))
  (at level 10, x name, m at level 100, k at level 200) : unc_scope.

Definition is_ok {A} (m : result A) : bool :=
  match m with Ok _ => true | Err _ => false end.

(** ** Parts of a list *)

Lemma NoDup_sub {A} (l k : list A) : l ⊆+ k -> NoDup k -> NoDup l.
Proof. intros [k' ->]%submseteq_Permutation. by intros [? _]%NoDup_app. Qed.

Lemma Forall_sub {A} (P : A -> Prop) l k : l ⊆+ k -> Forall P k -> Forall P l.
Proof. rewrite !Forall_forall. intros Hs HP x Hx. apply HP. by eapply elem_of_submseteq. Qed.
