(* ===== verification/GoStrings.v ===== *)
(** * Go's [strings], [strconv] and [path] functions, as far as the repository
    uses them.

    A Go string is a byte sequence, so it is a [string] (a list of 8-bit
    [ascii]).  Case folding and white space are the ASCII ones: Go agrees with
    these definitions on every string whose bytes are below 128. *)

From S2P Require Import Prelude.

Local Open Scope string_scope.

(** ** Characters *)

Definition code (c : Ascii.ascii) : N := Ascii.N_of_ascii c.

Definition in_range (lo hi : N) (c : Ascii.ascii) : bool :=
  (lo <=? code c)%N && (code c <=? hi)%N.

Definition is_digit : Ascii.ascii -> bool := in_range 48 57.
Definition is_upper : Ascii.ascii -> bool := in_range 65 90.
Definition is_lower : Ascii.ascii -> bool := in_range 97 122.

(** [\t \n \v \f \r] and the space. *)
Definition is_space (c : Ascii.ascii) : bool :=
  in_range 9 13 c || (code c =? 32)%N.

Definition lower_char (c : Ascii.ascii) : Ascii.ascii :=
  if is_upper c then Ascii.ascii_of_N (code c + 32) else c.
Definition upper_char (c : Ascii.ascii) : Ascii.ascii :=
  if is_lower c then Ascii.ascii_of_N (code c - 32) else c.

(** ** Slices of a string *)

(** [s[n:]] *)
Fixpoint str_drop (n : nat) (s : string) : string :=
  match n, s with
  | S n, String _ s => str_drop n s
  | _, _ => s
  end.

(** [s[:n]] *)
Fixpoint str_take (n : nat) (s : string) : string :=
  match n, s with
  | S n, String c s => String c (str_take n s)
  | _, _ => ""
  end.

(** ** Searching *)

Definition HasPrefix (s p : string) : bool := String.prefix p s.

Fixpoint HasSuffix (s suf : string) : bool :=
  String.eqb s suf ||
  match s with "" => false | String _ s' => HasSuffix s' suf end.

Definition TrimPrefix (s p : string) : string :=
  if HasPrefix s p then str_drop (String.length p) s else s.

Definition TrimSuffix (s suf : string) : string :=
  if HasSuffix s suf then str_take (String.length s - String.length suf) s else s.

(** [strings.Index], with [None] for -1. *)
Fixpoint Index (s sub : string) : option nat :=
  if String.prefix sub s then Some 0
  else match s with "" => None | String _ s' => S <$> Index s' sub end.

Fixpoint LastIndex (s sub : string) : option nat :=
  match s with
  | "" => if String.prefix sub s then Some 0 else None
  | String _ s' =>
      match LastIndex s' sub with
      | Some n => Some (S n)
      | None => if String.prefix sub s then Some 0 else None
      end
  end.

Definition Contains (s sub : string) : bool := bool_decide (is_Some (Index s sub)).

Fixpoint str_exists (P : Ascii.ascii -> bool) (s : string) : bool :=
  match s with "" => false | String c s' => P c || str_exists P s' end.

Definition char_in (chars : string) (c : Ascii.ascii) : bool :=
  str_exists (Ascii.eqb c) chars.

Definition ContainsAny (s chars : string) : bool := str_exists (char_in chars) s.

(** ** Case *)

Fixpoint str_map (f : Ascii.ascii -> Ascii.ascii) (s : string) : string :=
  match s with "" => "" | String c s' => String (f c) (str_map f s') end.

Definition ToLower : string -> string := str_map lower_char.
Definition ToUpper : string -> string := str_map upper_char.
Definition EqualFold (a b : string) : bool := String.eqb (ToLower a) (ToLower b).

(** ** Trimming *)

Fixpoint TrimLeftFunc (P : Ascii.ascii -> bool) (s : string) : string :=
  match s with
  | "" => ""
  | String c s' => if P c then TrimLeftFunc P s' else s
  end.

Fixpoint TrimRightFunc (P : Ascii.ascii -> bool) (s : string) : string :=
  match s with
  | "" => ""
  | String c s' =>
      match TrimRightFunc P s' with
      | "" => if P c then "" else String c ""
      | t => String c t
      end
  end.

Definition TrimFunc (P : Ascii.ascii -> bool) (s : string) : string :=
  TrimRightFunc P (TrimLeftFunc P s).

Definition TrimSpace : string -> string := TrimFunc is_space.
Definition Trim (s cutset : string) : string := TrimFunc (char_in cutset) s.
Definition TrimLeft (s cutset : string) : string := TrimLeftFunc (char_in cutset) s.
Definition TrimRight (s cutset : string) : string := TrimRightFunc (char_in cutset) s.

(** ** Splitting and joining *)

(** [strings.Split(s, sep)] for a one-byte separator: never empty. *)
Fixpoint Split (s : string) (sep : Ascii.ascii) : list string :=
  match s with
  | "" => [""]
  | String c s' =>
      if Ascii.eqb c sep then "" :: Split s' sep
      else match Split s' sep with
           | f :: fs => String c f :: fs
           | [] => [String c ""]
           end
  end.

(** [strings.SplitN(s, sep, n)] for a one-byte separator and [n > 0]. *)
Fixpoint SplitN (s : string) (sep : Ascii.ascii) (n : nat) : list string :=
  match n with
  | 0 => []
  | 1 => [s]
  | S (S _ as n') =>
      match Index s (String sep "") with
      | None => [s]
      | Some i => str_take i s :: SplitN (str_drop (S i) s) sep n'
      end
  end.

(** [strings.Cut] *)
Definition Cut (s sep : string) : string * string * bool :=
  match Index s sep with
  | Some i => (str_take i s, str_drop (i + String.length sep) s, true)
  | None => (s, "", false)
  end.

(** [strings.FieldsFunc]: the maximal runs of bytes that do not satisfy [P]. *)
Definition FieldsFunc (P : Ascii.ascii -> bool) (s : string) : list string :=
  let fix go (cur s : string) {struct s} : list string :=
    let flush := match cur with "" => [] | _ => [cur] end in
    match s with
    | "" => flush
    | String c s' =>
        if P c then (flush ++ go "" s')%list else go (cur +:+ String c "") s'
    end in
  go "" s.

Definition Fields : string -> list string := FieldsFunc is_space.

Fixpoint Join (l : list string) (sep : string) : string :=
  match l with
  | [] => ""
  | [x] => x
  | x :: xs => x +:+ sep +:+ Join xs sep
  end.

(** [sort.Strings] *)
Definition sort_strings : list string -> list string := merge_sort strings.String.le.

(** ** [strconv] *)

Definition digit_val (c : Ascii.ascii) : Z := Z.of_N (code c) - 48.

Fixpoint digits_val (acc : Z) (s : string) : option Z :=
  match s with
  | "" => Some acc
  | String c s' => if is_digit c then digits_val (acc * 10 + digit_val c) s' else None
  end.

Definition int64_min : Z := - 2 ^ 63.
Definition int64_max : Z := 2 ^ 63 - 1.

Definition in_int64 (z : Z) : bool := (int64_min <=? z)%Z && (z <=? int64_max)%Z.

(** [strconv.Atoi] on a 64-bit platform: [None] for every error.  The sign is
    optional; an empty digit string, a stray byte or an overflow is an error. *)
Definition Atoi (s : string) : option Z :=
  let body neg t :=
    match t with
    | "" => None
    | _ => v ← digits_val 0 t;
           let v := if neg : bool then (- v)%Z else v in
           if in_int64 v then Some v else None
    end in
  match s with
  | String c t =>
      if Ascii.eqb c "-"%char then body true t
      else if Ascii.eqb c "+"%char then body false t
      else body false s
  | "" => None
  end.

Definition Itoa (z : Z) : string := pretty z.

(** [strconv.Quote] (the [%q] verb): the bytes below 128; a byte of a multi-byte
    rune is kept, as Go keeps a printable rune. *)
Definition hex_digit (n : N) : Ascii.ascii :=
  Ascii.ascii_of_N (if (n <? 10)%N then n + 48 else n + 87).

Definition quote_char (c : Ascii.ascii) : string :=
  match code c with
  | 7 => "\a" | 8 => "\b" | 9 => "\t" | 10 => "\n"
  | 11 => "\v" | 12 => "\f" | 13 => "\r"
  | 34 => String "\"%char (String c "")
  | 92 => "\"
  | n => if (n <? 32)%N || (n =? 127)%N
         then "\x" +:+ String (hex_digit (n / 16)) (String (hex_digit (n mod 16)) "")
         else String c ""
  end%N.

Fixpoint quote_body (s : string) : string :=
  match s with "" => "" | String c s' => quote_char c +:+ quote_body s' end.

Definition newline : string := String "010"%char "".
Definition dquote : string := String "034"%char "".
Definition Quote (s : string) : string := dquote +:+ quote_body s +:+ dquote.

(** ** [path] on forward-slash paths *)

(** [filepath.Clean]: the segments, with [.] and empty ones dropped and a [..]
    removing the segment before it.  A leading [..] of a rooted path is dropped
    and of a relative path is kept. *)
Fixpoint clean_segs (rooted : bool) (out : list string) (segs : list string) : list string :=
  match segs with
  | [] => out
  | seg :: rest =>
      if String.eqb seg "" || String.eqb seg "." then clean_segs rooted out rest
      else if String.eqb seg ".." then
        match out with
        | [] => clean_segs rooted (if rooted then [] else [".."]) rest
        | top :: below =>
            if String.eqb top ".." then clean_segs rooted (".." :: out) rest
            else clean_segs rooted below rest
        end
      else clean_segs rooted (seg :: out) rest
  end.

Definition IsAbs (p : string) : bool := HasPrefix p "/".

Definition Clean (p : string) : string :=
  let rooted := IsAbs p in
  let body := Join (rev (clean_segs rooted [] (Split p "/"))) "/" in
  if rooted then "/" +:+ body
  else match body with "" => "." | _ => body end.

(** [filepath.Join] of two elements: empty elements are ignored. *)
Definition PathJoin (a b : string) : string :=
  match a, b with
  | "", "" => ""
  | "", _ => Clean b
  | _, "" => Clean a
  | _, _ => Clean (a +:+ "/" +:+ b)
  end.

(** [filepath.Base] *)
Definition Base (p : string) : string :=
  match p with
  | "" => "."
  | _ =>
      match TrimRight p "/" with
      | "" => "/"
      | t => match LastIndex t "/" with Some i => str_drop (S i) t | None => t end
      end
  end.

(** [path.Dir] *)
Definition Dir (p : string) : string :=
  match LastIndex p "/" with
  | Some i => Clean (str_take (S i) p)
  | None => "."
  end.

(** ** Facts *)

Lemma str_app_nil_r s : s +:+ "" = s.
Proof. induction s; simpl; congruence. Qed.

Lemma str_app_assoc a b c : (a +:+ b) +:+ c = a +:+ (b +:+ c).
Proof. induction a; simpl; congruence. Qed.

Lemma str_app_inj_l a b c : a +:+ b = a +:+ c -> b = c.
Proof. induction a; simpl; [done|]. intros [=]; auto. Qed.

Lemma str_length_app a b :
  String.length (a +:+ b) = String.length a + String.length b.
Proof. induction a; simpl; congruence. Qed.

Lemma str_drop_app a b : str_drop (String.length a) (a +:+ b) = b.
Proof. induction a; simpl; [by destruct b | done]. Qed.

Lemma str_take_app a b : str_take (String.length a) (a +:+ b) = a.
Proof. induction a; simpl; [by destruct b | congruence]. Qed.

Lemma str_take_drop n s : str_take n s +:+ str_drop n s = s.
Proof.
  revert s. induction n as [|n IH]; intros [|c s]; simpl; try done. by rewrite IH.
Qed.

Lemma HasPrefix_spec s p : HasPrefix s p = true <-> exists t, s = p +:+ t.
Proof.
  unfold HasPrefix. revert s. induction p as [|c p IH]; intros s; simpl.
  - destruct s; split; eauto.
  - destruct s as [|d s]; [split; [done|by intros [??]]|]. simpl.
    destruct (Ascii.ascii_dec c d) as [->|Hne].
    + rewrite IH. split; intros [t H]; exists t; congruence.
    + split; [done|]. intros [t [=]]. congruence.
Qed.

Lemma HasPrefix_app p t : HasPrefix (p +:+ t) p = true.
Proof. apply HasPrefix_spec; eauto. Qed.

Lemma HasPrefix_refl s : HasPrefix s s = true.
Proof. apply HasPrefix_spec. exists "". by rewrite str_app_nil_r. Qed.

Lemma HasPrefix_empty s : HasPrefix s "" = true.
Proof. by destruct s. Qed.

Lemma HasPrefix_trans s p q :
  HasPrefix s p = true -> HasPrefix p q = true -> HasPrefix s q = true.
Proof.
  rewrite !HasPrefix_spec. intros [t ->] [u ->]. exists (u +:+ t).
  by rewrite str_app_assoc.
Qed.

Lemma HasSuffix_spec s suf : HasSuffix s suf = true <-> exists t, s = t +:+ suf.
Proof.
  revert suf. induction s as [|c s IH]; intros suf; simpl; breflect.
  - split.
    + intros [<-|]; [by exists ""|done].
    + intros [[|] Ht]; [by left|done].
  - rewrite IH. split.
    + intros [<-|[t ->]]; [by exists ""|by exists (String c t)].
    + intros [[|d t] Ht]; [by left|]. injection Ht as -> ->. right; eauto.
Qed.

Lemma HasSuffix_app t suf : HasSuffix (t +:+ suf) suf = true.
Proof. apply HasSuffix_spec; eauto. Qed.

Lemma TrimPrefix_app p t : TrimPrefix (p +:+ t) p = t.
Proof. unfold TrimPrefix. by rewrite HasPrefix_app, str_drop_app. Qed.

Lemma TrimSuffix_app t suf : TrimSuffix (t +:+ suf) suf = t.
Proof.
  unfold TrimSuffix. rewrite HasSuffix_app, str_length_app.
  replace (String.length t + String.length suf - String.length suf)
    with (String.length t) by lia.
  apply str_take_app.
Qed.

Lemma TrimSuffix_id s suf : HasSuffix s suf = false -> TrimSuffix s suf = s.
Proof. unfold TrimSuffix. by intros ->. Qed.

Lemma Index_Some s sub i :
  Index s sub = Some i -> exists a b, s = a +:+ sub +:+ b /\ String.length a = i.
Proof.
  revert i. induction s as [|c s IH]; intros i; simpl.
  - destruct sub; [|done]. intros [= <-]. by exists "", "".
  - case_match eqn:E.
    + intros [= <-]. apply (HasPrefix_spec (String c s)) in E as [t ->]. by exists "", t.
    + destruct (Index s sub) as [j|]; [|done]. intros [= <-].
      destruct (IH j eq_refl) as (a & b & -> & <-). by exists (String c a), b.
Qed.

Lemma Index_app a sub b : is_Some (Index (a +:+ sub +:+ b) sub).
Proof.
  induction a as [|c a IH]; simpl.
  - destruct (sub +:+ b) as [|c s] eqn:E.
    + destruct sub; [|done]. simpl. eauto.
    + assert (HasPrefix (String c s) sub = true) as H
        by (rewrite <- E; apply HasPrefix_app).
      unfold HasPrefix in H. simpl in *. rewrite H. eauto.
  - case_match; [eauto|]. destruct IH as [j ->]. eauto.
Qed.

Lemma Contains_spec s sub : Contains s sub = true <-> exists a b, s = a +:+ sub +:+ b.
Proof.
  unfold Contains. rewrite bool_decide_eq_true. split.
  - intros [i Hi]. apply Index_Some in Hi as (a & b & -> & _). eauto.
  - intros (a & b & ->). apply Index_app.
Qed.

Lemma ToLower_idemp s : ToLower (ToLower s) = ToLower s.
Proof.
  induction s as [|[[] [] [] [] [] [] [] []] s IH]; cbn; try done;
    unfold ToLower in *; by rewrite IH.
Qed.

Lemma EqualFold_refl s : EqualFold s s = true.
Proof. apply String.eqb_refl. Qed.

Lemma EqualFold_sym a b : EqualFold a b = EqualFold b a.
Proof. apply String.eqb_sym. Qed.

Lemma TrimLeftFunc_idemp P s : TrimLeftFunc P (TrimLeftFunc P s) = TrimLeftFunc P s.
Proof.
  induction s as [|c s IH]; [done|]. simpl. destruct (P c) eqn:E; [done|].
  simpl. by rewrite E.
Qed.

(** A trimmed string starts and ends with a byte that is kept. *)
Lemma TrimRightFunc_nonempty P s c t :
  TrimRightFunc P s = String c t -> exists u, s = String c u.
Proof. destruct s as [|d s]; simpl; [done|]. repeat case_match; naive_solver. Qed.

Lemma TrimLeftFunc_head P s c t : TrimLeftFunc P s = String c t -> P c = false.
Proof.
  induction s as [|d s IH]; simpl; [done|]. destruct (P d) eqn:E; [done|].
  by intros [= -> ->].
Qed.

Lemma TrimFunc_head P s c t : TrimFunc P s = String c t -> P c = false.
Proof.
  unfold TrimFunc. intros H. apply TrimRightFunc_nonempty in H as [u Hu].
  by eapply TrimLeftFunc_head.
Qed.

Lemma Split_nonempty s sep : Split s sep <> [].
Proof. destruct s; simpl; [done|]. repeat case_match; done. Qed.

(** Joining the fields of a split gives the string back. *)
Lemma Join_Split s sep : Join (Split s sep) (String sep "") = s.
Proof.
  induction s as [|c s IH]; [done|]. simpl.
  destruct (Ascii.eqb_spec c sep) as [->|Hne].
  - simpl. destruct (Split s sep) eqn:E; [by apply Split_nonempty in E|].
    by rewrite IH.
  - destruct (Split s sep) as [|f fs] eqn:E; [by apply Split_nonempty in E|].
    destruct fs; simpl in *; by rewrite IH.
Qed.

Lemma sort_strings_perm l : sort_strings l ≡ₚ l.
Proof. apply merge_sort_Permutation. Qed.

Lemma elem_of_sort_strings x l : x ∈ sort_strings l <-> x ∈ l.
Proof. by rewrite sort_strings_perm. Qed.

Lemma sort_strings_sorted l : Sorted strings.String.le (sort_strings l).
Proof. apply Sorted_merge_sort. apply _. Qed.

Lemma sort_strings_unique l k : l ≡ₚ k -> sort_strings l = sort_strings k.
Proof.
  intros H. apply (Sorted_unique strings.String.le); [apply sort_strings_sorted..|].
  by rewrite !sort_strings_perm.
Qed.

#[export] Hint Resolve HasPrefix_app HasPrefix_refl HasPrefix_empty HasSuffix_app
  EqualFold_refl Split_nonempty : unc.
Lemma str_drop_past x c y : str_drop (S (String.length x)) (x +:+ String c y) = y.
Proof. induction x; [done|exact IHx]. Qed.

Lemma SplitN_two s c a b : SplitN s c 2 = [a; b] -> s = a +:+ String c b.
Proof.
  unfold SplitN. destruct (Index s (String c "")) as [i|] eqn:E; [|done]. intros H.
  apply Index_Some in E as (x & y & -> & <-). rewrite str_take_app in H.
  change (String c "" +:+ y) with (String c y) in *. rewrite str_drop_past in H. by simplify_eq.
Qed.

#[export] Hint Rewrite str_app_nil_r str_app_assoc str_length_app str_drop_app
  str_take_app TrimPrefix_app TrimSuffix_app Join_Split : unc_rw.

(** ** Examples *)

Example clean_ex : Clean "/a/./b//../../c/" = "/c".
Proof. reflexivity. Qed.
Example clean_rel_ex : Clean "../a/../../b" = "../../b".
Proof. reflexivity. Qed.
Example split_ex : Split "a,b,,c" "," = ["a"; "b"; ""; "c"].
Proof. reflexivity. Qed.
Example splitn_ex : SplitN "git@h:o/r" ":" 2 = ["git@h"; "o/r"].
Proof. reflexivity. Qed.
Example fields_ex : Fields "  ab  c d " = ["ab"; "c"; "d"].
Proof. reflexivity. Qed.
Example trim_ex : TrimSpace "  a b  " = "a b".
Proof. reflexivity. Qed.
Example base_ex : Base "/org/repo.git/" = "repo.git".
Proof. reflexivity. Qed.
Example dir_ex : Dir "web/src/x.ts" = "web/src".
Proof. reflexivity. Qed.
Example atoi_ex : Atoi "-42" = Some (-42)%Z /\ Atoi "4x" = None /\ Atoi "" = None.
Proof. repeat split. Qed.
