(* ===== verification/ApiTypes.v ===== *)
(** * The custom resources of [api/v1alpha1].

    One record per Go struct, with the source's field names behind a short
    prefix.  A [metav1.Time] is its Unix second; an absent pointer is [None]; a
    [float64] that is only passed along is its 64-bit pattern as a [Z]. *)

From S2P Require Import Prelude.

Definition time := Z.
Definition float64 := Z.

(** What a [Get] of the Kubernetes client returns. *)
Inductive get_result (A : Type) :=
| Found (a : A)
| NotFound
| GetError (msg : string).
Arguments Found {A} a.
Arguments NotFound {A}.
Arguments GetError {A} msg.

(** ** Phases *)

(** [api/v1alpha1/phases.go:4-10] ChainRunPhase *)
Definition ChainRunPhasePending : string := "pending".
(** [api/v1alpha1/phases.go:4-10] ChainRunPhase *)
Definition ChainRunPhaseRunning : string := "running".
(** [api/v1alpha1/phases.go:4-10] ChainRunPhase *)
Definition ChainRunPhaseSucceeded : string := "succeeded".
(** [api/v1alpha1/phases.go:4-10] ChainRunPhase *)
Definition ChainRunPhaseFailed : string := "failed".
(** [api/v1alpha1/phases.go:4-10] ChainRunPhase *)
Definition ChainRunPhaseCancelled : string := "cancelled".

(** [api/v1alpha1/phases.go:13-19] ChainRunStepPhase *)
Definition ChainRunStepPhasePending : string := "pending".
(** [api/v1alpha1/phases.go:13-19] ChainRunStepPhase *)
Definition ChainRunStepPhaseRunning : string := "running".
(** [api/v1alpha1/phases.go:13-19] ChainRunStepPhase *)
Definition ChainRunStepPhaseSucceeded : string := "succeeded".
(** [api/v1alpha1/phases.go:13-19] ChainRunStepPhase *)
Definition ChainRunStepPhaseFailed : string := "failed".
(** [api/v1alpha1/phases.go:13-19] ChainRunStepPhase *)
Definition ChainRunStepPhaseSkipped : string := "skipped".

(** [api/v1alpha1/phases.go:22-26] ScheduleLastResultRunning *)
Definition ScheduleLastResultRunning : string := "running".

(** [api/v1alpha1/types.go:46-55] AgentRunPhase *)
Inductive AgentRunPhase :=
| AgentRunPhasePending | AgentRunPhaseRunning | AgentRunPhaseWaitingForInput
| AgentRunPhaseSucceeded | AgentRunPhaseFailed | AgentRunPhaseCancelled
| AgentRunPhaseOther (s : string).

#[export] Instance AgentRunPhase_eq_dec : EqDecision AgentRunPhase.
Proof. solve_decision. Defined.

(** [api/v1alpha1/types.go:40-42] BackendPod *)
Definition BackendPod : string := "Pod".

(** ** AgentRun *)

(** [api/v1alpha1/types.go:58-67] Repository *)
Record Repository := { repo_URL : string; repo_Branch : string; repo_Path : string }.

(** [api/v1alpha1/types.go:20-28] OrchestrationTask *)
Record OrchestrationTask :=
  { ot_Name : string; ot_Prompt : string; ot_RepoURLs : list string }.

(** [api/v1alpha1/types.go:220-233] StageConfig *)
Record StageConfig :=
  { sc_Model : string; sc_TimeoutSeconds : Z; sc_MaxRetries : Z; sc_OnFailure : string }.

(** [api/v1alpha1/types.go:207-217] PipelineConfig *)
Record PipelineConfig :=
  { pc_Plan : StageConfig; pc_Execute : StageConfig; pc_Verify : StageConfig }.

(** [api/v1alpha1/types.go:70-204] AgentRunSpec.  [Orchestration] is the task
    list behind the optional pointer. *)
Record AgentRunSpec := {
  rs_Backend : string; rs_Repos : list Repository; rs_Prompt : string;
  rs_DevboxConfig : string; rs_TTLSeconds : Z; rs_EnvVars : list (string * string);
  rs_Image : string; rs_ModelTier : string; rs_ManageModelTier : string;
  rs_ImplementModelTier : string; rs_SpecContent : string; rs_SpecSource : string;
  rs_ProjectRef : string; rs_SpecRef : string; rs_WorkspaceName : string;
  rs_ParentRunID : string; rs_OrchestrationMode : string;
  rs_Orchestration : option (list OrchestrationTask); rs_SpecRunID : string;
  rs_DisplayName : string; rs_PipelineConfig : option PipelineConfig;
  rs_MaxBudget : float64; rs_AutoPush : bool; rs_AutoPR : bool;
  rs_PRBaseBranch : string; rs_Project : string; rs_Feature : string;
  rs_Tags : list string; rs_ApprovalMode : string; rs_OpenspecChange : string;
}.

(** The part of an AgentRun's status the controllers read. *)
Record AgentRunStatus := {
  as_Phase : AgentRunPhase; as_Message : string; as_LogOutput : string;
}.

(** A stored AgentRun, as a [Get] returns it. *)
Record AgentRun := {
  ar_Name : string; ar_Spec : AgentRunSpec; ar_Status : AgentRunStatus;
}.

(** An AgentRun as a controller submits it: the API server picks the name. *)
Record NewAgentRun := {
  nr_GenerateName : string; nr_Namespace : string; nr_Spec : AgentRunSpec;
  nr_Labels : list (string * string); nr_Owner : option string;
}.

(** ** RunTemplate *)

(** [api/v1alpha1/runtemplate_types.go:8-63] RunTemplateSpec *)
Record RunTemplateSpec := {
  ts_DisplayName : string; ts_Description : string; ts_ProjectRef : string;
  ts_Repos : list Repository; ts_Prompt : string; ts_ModelTier : string;
  ts_ManageModelTier : string; ts_ImplementModelTier : string;
  ts_OrchestrationMode : string; ts_TTLSeconds : Z; ts_AutoPush : bool;
  ts_AutoPR : bool; ts_PRBaseBranch : string; ts_SpecRef : string;
}.

(** [api/v1alpha1/runtemplate_types.go:66-73] RunTemplateStatus *)
Record RunTemplateStatus := { tt_LastTriggeredAt : option time; tt_RunCount : Z }.

(** [api/v1alpha1/runtemplate_types.go:83-88] RunTemplate *)
Record RunTemplate := {
  tmpl_Name : string; tmpl_Spec : RunTemplateSpec; tmpl_Status : RunTemplateStatus;
}.

(** [RunCount++] on an [int32]. *)
Definition int32_incr (z : Z) : Z := ((z + 1 + 2 ^ 31) mod 2 ^ 32 - 2 ^ 31)%Z.

Lemma int32_incr_range z : (- 2 ^ 31 <= int32_incr z < 2 ^ 31)%Z.
Proof.
  unfold int32_incr. pose proof (Z.mod_pos_bound (z + 1 + 2 ^ 31) (2 ^ 32)). lia.
Qed.

Lemma int32_incr_small z : (- 2 ^ 31 <= z < 2 ^ 31 - 1)%Z -> int32_incr z = (z + 1)%Z.
Proof. intros H. unfold int32_incr. rewrite Z.mod_small; lia. Qed.

(** ** ChainRun *)

(** [api/v1alpha1/chain_types.go:73-95] ChainRunStepStatus *)
Record ChainRunStepStatus := {
  ss_Name : string; ss_Phase : string; ss_RunID : string;
  ss_StartedAt : option time; ss_CompletedAt : option time; ss_Message : string;
}.

(** [api/v1alpha1/chain_types.go:108-127] ChainRunStatus *)
Record ChainRunStatus := {
  crs_Phase : string; crs_Steps : list ChainRunStepStatus;
  crs_StartedAt : option time; crs_CompletedAt : option time; crs_Message : string;
}.

(** [api/v1alpha1/chain_types.go:136-141] ChainRun, with the metadata the
    controller uses. *)
Record ChainRun := {
  cr_Name : string; cr_Namespace : string; cr_Deleted : bool;
  cr_Finalizers : list string; cr_ChainRef : string; cr_TriggeredBy : string;
  cr_Status : ChainRunStatus;
}.
