(* ===== verification/ChainDAG.v ===== *)
(** * Chains of run steps: [api/v1alpha1/chain_types.go] and
    [api/v1alpha1/chain_validation.go].

    [ValidateChainDAG] is translated with Go's maps as [gmap]s.  Go ranges over
    a map in an unspecified order, so the order is a parameter [range] of the
    model; every theorem holds for every order. *)

From S2P Require Import Prelude GoStrings.

(** [api/v1alpha1/chain_types.go:8-31] ChainStep *)
Record ChainStep := {
  Name : string;
  TemplateRef : string;
  DependsOn : list string;
  ContextFrom : string;
  BranchFrom : string;
  Condition : string;
}.

Implicit Types (steps : list ChainStep) (s : ChainStep) (n d : string).

(** Go's read of a map of integers: a missing key reads as zero. *)
Definition geti (m : gmap string Z) (k : string) : Z := default 0%Z (m !! k).
(** Go's read of a map of slices: a missing key reads as [nil]. *)
Definition getl (m : gmap string (list string)) (k : string) : list string :=
  default [] (m !! k).

Section validate.
(** [for name, deg := range inDegree]: the entries, in some order. *)
Context (range : gmap string Z -> list (string * Z)).

(** [api/v1alpha1/chain_validation.go:19-26] ValidateChainDAG: the name set *)
Fixpoint check_names (names : gset string) (steps : list ChainStep)
  : result (gset string) :=
  match steps with
  | [] => Ok names
  | s :: rest =>
      if bool_decide (Name s ∈ names)
      then Err ("failed: duplicate step name " +:+ Quote (Name s))
      else check_names ({[Name s]} ∪ names) rest
  end.

(** [api/v1alpha1/chain_validation.go:30-44] ValidateChainDAG: one step's references *)
Definition check_step_refs (names : gset string) (s : ChainStep) : result unit :=
  let undefined d := negb (bool_decide (d ∈ names)) in
  match List.find undefined (DependsOn s) with
  | Some dep => Err ("failed: step " +:+ Quote (Name s) +:+
                     " depends on undefined step " +:+ Quote dep)
  | None =>
      if negb (String.eqb (ContextFrom s) "") && undefined (ContextFrom s)
      then Err ("failed: step " +:+ Quote (Name s) +:+
                " contextFrom references undefined step " +:+ Quote (ContextFrom s))
      else if negb (String.eqb (BranchFrom s) "") && undefined (BranchFrom s)
      then Err ("failed: step " +:+ Quote (Name s) +:+
                " branchFrom references undefined step " +:+ Quote (BranchFrom s))
      else Ok tt
  end.

(** [api/v1alpha1/chain_validation.go:28-45] ValidateChainDAG: the reference loop *)
Fixpoint check_refs (names : gset string) (steps : list ChainStep) : result unit :=
  match steps with
  | [] => Ok tt
  | s :: rest => result_bind (check_step_refs names s) (fun _ => check_refs names rest)
  end.

(** [api/v1alpha1/chain_validation.go:54-57] ValidateChainDAG: one dependency edge *)
Definition add_edge (name : string)
    (acc : gmap string Z * gmap string (list string)) (dep : string) :=
  let '(inDegree, adj) := acc in
  (<[name := (geti inDegree name + 1)%Z]> inDegree,
   <[dep := getl adj dep ++ [name]]> adj).

(** [api/v1alpha1/chain_validation.go:50-57] ValidateChainDAG: the graph of one step *)
Definition add_step (acc : gmap string Z * gmap string (list string)) (s : ChainStep) :=
  let '(inDegree, adj) := acc in
  let inDegree :=
    match inDegree !! Name s with
    | Some _ => inDegree
    | None => <[Name s := 0%Z]> inDegree
    end in
  foldl (add_edge (Name s)) (inDegree, adj) (DependsOn s).

(** [api/v1alpha1/chain_validation.go:48-58] ValidateChainDAG: degrees and adjacency *)
Definition build_graph (steps : list ChainStep) :=
  foldl add_step (∅, ∅) steps.

(** [api/v1alpha1/chain_validation.go:72-77] ValidateChainDAG: one neighbour *)
Definition relax (acc : gmap string Z * list string) (neighbor : string) :=
  let '(inDegree, queue) := acc in
  let deg := (geti inDegree neighbor - 1)%Z in
  (<[neighbor := deg]> inDegree,
   if (deg =? 0)%Z then queue ++ [neighbor] else queue).

(** [api/v1alpha1/chain_validation.go:67-78] ValidateChainDAG: the queue loop.
    Returns the number of visited nodes and the queue it stopped with; a
    theorem shows that the queue is empty for the fuel the caller gives. *)
Fixpoint kahn (fuel : nat) (adj : gmap string (list string))
    (inDegree : gmap string Z) (queue : list string) (visited : nat)
  : nat * list string :=
  match fuel, queue with
  | S fuel, node :: queue =>
      let '(inDegree, queue) := foldl relax (inDegree, queue) (getl adj node) in
      kahn fuel adj inDegree queue (S visited)
  | _, _ => (visited, queue)
  end.

(** [api/v1alpha1/chain_validation.go:60-65] ValidateChainDAG: the initial queue *)
Definition initial_queue (inDegree : gmap string Z) : list string :=
  (filter (fun nd => nd.2 = 0%Z) (range inDegree)).*1.

(** [api/v1alpha1/chain_validation.go:47-78] ValidateChainDAG: Kahn's algorithm *)
Definition run_kahn (steps : list ChainStep) : nat * list string :=
  let '(inDegree, adj) := build_graph steps in
  kahn (length steps) adj inDegree (initial_queue inDegree) 0.

(** [api/v1alpha1/chain_validation.go:18-84] ValidateChainDAG *)
Definition ValidateChainDAG (steps : list ChainStep) : result unit :=
  match check_names ∅ steps with
  | Err e => Err e
  | Ok names =>
      match check_refs names steps with
      | Err e => Err e
      | Ok _ =>
          if Nat.eqb (run_kahn steps).1 (length steps) then Ok tt
          else Err "failed: chain contains a cycle"
      end
  end.
End validate.

(** ** Specification *)

Definition step_names steps : list string := Name <$> steps.

(** [s] depends on [d]: the edge relation of the chain, from a step to the
    step it waits for. *)
Definition depends steps (n d : string) : Prop :=
  exists s, s ∈ steps /\ Name s = n /\ d ∈ DependsOn s.

(** No step waits for itself, directly or through others. *)
Definition acyclic steps : Prop := forall n, ~ tc (depends steps) n n.

Definition refs_defined steps : Prop :=
  forall s, s ∈ steps ->
    (forall d, d ∈ DependsOn s -> d ∈ step_names steps) /\
    (ContextFrom s <> "" -> ContextFrom s ∈ step_names steps) /\
    (BranchFrom s <> "" -> BranchFrom s ∈ step_names steps).

(** A chain the controller may execute. *)
Record valid_chain steps : Prop := {
  valid_names : NoDup (step_names steps);
  valid_refs : refs_defined steps;
  valid_acyclic : acyclic steps;
}.

(** ** Names and references *)

Lemma check_names_Ok names steps names' :
  check_names names steps = Ok names' <->
  NoDup (step_names steps) /\ (forall n, n ∈ step_names steps -> n ∉ names) /\
  names' = names ∪ list_to_set (step_names steps).
Proof.
  revert names. induction steps as [|s steps IH]; intros names; cbn.
  - split.
    + intros [= <-]. split_and!; [constructor|set_solver|set_solver].
    + intros (_ & _ & ->). f_equal. set_solver.
  - case_bool_decide as Hin.
    + split; [done|]. intros (_ & H & _). destruct (H (Name s)); [set_solver|done].
    + rewrite IH, NoDup_cons. split.
      * intros (Hnd & Hfresh & ->). split_and!; [|done|set_solver|set_solver].
        intros Hs. by destruct (Hfresh _ Hs); set_solver.
      * intros ((Hs & Hnd) & Hfresh & ->). split_and!; [done| |set_solver].
        intros n Hn. rewrite elem_of_union, elem_of_singleton.
        intros [->|?]; [done|]. by eapply Hfresh; [right|].
Qed.

Lemma check_step_refs_Ok names s :
  check_step_refs names s = Ok tt <->
  (forall d, d ∈ DependsOn s -> d ∈ names) /\
  (ContextFrom s <> "" -> ContextFrom s ∈ names) /\
  (BranchFrom s <> "" -> BranchFrom s ∈ names).
Proof.
  unfold check_step_refs. destruct (List.find _ _) as [dep|] eqn:E.
  - apply List.find_some in E as [Hin Hd]. breflect. split; [done|].
    intros [H _]. destruct Hd. apply H. by apply list_elem_of_In.
  - assert (forall d, d ∈ DependsOn s -> d ∈ names) as Hdeps.
    { intros d Hd%list_elem_of_In. eapply List.find_none in E; [|done]. by breflect. }
    repeat case_match; breflect; naive_solver.
Qed.

Lemma check_refs_Ok names steps :
  check_refs names steps = Ok tt <->
  forall s, s ∈ steps -> check_step_refs names s = Ok tt.
Proof.
  induction steps as [|s steps IH]; cbn.
  - split; [set_solver|done].
  - destruct (check_step_refs names s) as [[]|e] eqn:E; cbn.
    + rewrite IH. split; [|set_solver].
      intros H s' [->|?]%elem_of_cons; auto.
    + split; [done|]. intros H. rewrite <- E. apply H. constructor.
Qed.

Lemma check_refs_result names steps : check_refs names steps = Ok tt \/
  exists e, check_refs names steps = Err e.
Proof. destruct (check_refs names steps) as [[]|]; eauto. Qed.

(** ** The graph *)

(** The dependency edges of a chain, with repetition: [(n, d)] for a step [n]
    that lists [d]. *)
Definition edges steps : list (string * string) :=
  s ← steps; (Name s,.) <$> DependsOn s.

(** The edges into [n] whose source is not in [done]. *)
Definition pending (E : list (string * string)) (done : list string) (n : string) : nat :=
  length (filter (fun e => e.1 = n /\ e.2 ∉ done) E).

(** The names waiting for [d], with repetition. *)
Definition waiting (E : list (string * string)) (d : string) : list string :=
  (filter (fun e => e.2 = d) E).*1.

Definition count (n : string) (l : list string) : nat := length (filter (n =.) l).

Lemma elem_of_edges steps n d : (n, d) ∈ edges steps <-> depends steps n d.
Proof.
  unfold edges, depends. rewrite list_elem_of_bind. split.
  - intros (s & Hn%list_elem_of_fmap & Hs). destruct Hn as (d' & [= -> ->] & ?). eauto.
  - intros (s & Hs & <- & Hd). exists s. split; [|done].
    apply list_elem_of_fmap. eauto.
Qed.

Lemma geti_insert m k k' v : geti (<[k:=v]> m) k' = if decide (k = k') then v else geti m k'.
Proof. unfold geti. rewrite lookup_insert. by case_decide. Qed.

Lemma getl_insert m k k' v : getl (<[k:=v]> m) k' = if decide (k = k') then v else getl m k'.
Proof. unfold getl. rewrite lookup_insert. by case_decide. Qed.

(** A map of degrees and adjacency lists that represents the edge list [E]. *)
Definition represents (acc : gmap string Z * gmap string (list string)) E : Prop :=
  (forall n, geti acc.1 n = Z.of_nat (pending E [] n)) /\
  (forall d, getl acc.2 d = waiting E d).

Lemma pending_app E1 E2 P n : pending (E1 ++ E2) P n = pending E1 P n + pending E2 P n.
Proof. unfold pending. by rewrite filter_app, length_app. Qed.

Lemma pending_cons e E P n :
  pending (e :: E) P n =
  (if decide (e.1 = n /\ e.2 ∉ P) then 1 else 0) + pending E P n.
Proof. unfold pending. rewrite filter_cons. by case_decide. Qed.

Lemma waiting_app E1 E2 d : waiting (E1 ++ E2) d = waiting E1 d ++ waiting E2 d.
Proof. unfold waiting. by rewrite filter_app, fmap_app. Qed.

Lemma count_cons n m l : count n (m :: l) = (if decide (n = m) then 1 else 0) + count n l.
Proof. unfold count. rewrite filter_cons. by case_decide. Qed.

Lemma pending_mono E P Q n : P ⊆ Q -> pending E Q n <= pending E P n.
Proof.
  intros HPQ. induction E as [|e E IH]; [done|]. rewrite !pending_cons.
  repeat case_decide; set_solver by lia.
Qed.

(** Finishing [d] releases exactly the edges its adjacency list names. *)
Lemma pending_snoc E P d n :
  d ∉ P -> pending E P n = pending E (P ++ [d]) n + count n (waiting E d).
Proof.
  intros Hd. unfold waiting. induction E as [|[m e] E IH]; [done|].
  rewrite filter_cons, !pending_cons, IH. simpl.
  destruct (decide (e = d)) as [->|]; rewrite ?fmap_cons, ?count_cons; simpl;
    repeat case_decide; set_solver by lia.
Qed.

Lemma pending_zero E P n : pending E P n = 0 <-> forall d, (n, d) ∈ E -> d ∈ P.
Proof.
  unfold pending. rewrite length_zero_iff_nil. split.
  - intros H d Hd. destruct (decide (d ∈ P)); [done|].
    assert ((n, d) ∈ filter (fun e => e.1 = n /\ e.2 ∉ P) E) as Hin
      by (apply list_elem_of_filter; done).
    rewrite H in Hin. set_solver.
  - intros H. destruct (filter _ _) as [|[m d] l] eqn:F; [done|].
    assert ((m, d) ∈ filter (fun e => e.1 = n /\ e.2 ∉ P) E) as Hin
      by (rewrite F; constructor).
    apply list_elem_of_filter in Hin as [[Hm Hd] Hin]. simpl in *. subst.
    by destruct Hd; apply H.
Qed.

Lemma add_edge_represents acc E n d :
  represents acc E -> represents (add_edge n acc d) (E ++ [(n, d)]).
Proof.
  destruct acc as [deg adj]. intros [Hdeg Hadj]. split.
  - intros m. cbn [add_edge fst]. rewrite geti_insert, pending_app, pending_cons.
    rewrite !Hdeg. cbn -[pending]. change (pending [] [] m) with 0.
    destruct (decide (n = m)) as [->|]; repeat case_decide; set_solver by lia.
  - intros e. cbn [add_edge snd]. rewrite getl_insert, waiting_app, !Hadj.
    unfold waiting. rewrite filter_cons. simpl.
    destruct (decide (d = e)) as [->|]; simpl; [done|by rewrite app_nil_r].
Qed.

Lemma add_edges_represents n ds acc E :
  represents acc E ->
  represents (foldl (add_edge n) acc ds) (E ++ ((n,.) <$> ds)).
Proof.
  revert acc E. induction ds as [|d ds IH]; intros acc E H; simpl.
  - by rewrite app_nil_r.
  - rewrite cons_middle, assoc_L by apply _. by apply IH, add_edge_represents.
Qed.

Lemma add_step_represents acc E s :
  represents acc E -> represents (add_step acc s) (E ++ ((Name s,.) <$> DependsOn s)).
Proof.
  destruct acc as [deg adj]. intros H. unfold add_step. apply add_edges_represents.
  destruct (deg !! Name s) eqn:L; [done|]. destruct H as [Hdeg Hadj].
  split; [|done]. intros n. cbn. rewrite geti_insert, <- Hdeg.
  case_decide as Hn; [|done]. rewrite <- Hn. unfold geti. cbn. by rewrite L.
Qed.

Lemma build_graph_represents steps : represents (build_graph steps) (edges steps).
Proof.
  unfold build_graph. cut (forall acc E, represents acc E ->
    represents (foldl add_step acc steps) (E ++ edges steps)).
  { intros H. apply (H _ []). split; intros; unfold geti, getl; simpl; by rewrite lookup_empty. }
  induction steps as [|s steps IH]; intros acc E H; simpl.
  - by rewrite app_nil_r.
  - rewrite assoc_L by apply _. by apply IH, add_step_represents.
Qed.

(** ** Kahn's loop *)

Lemma count_zero n l : count n l = 0 <-> n ∉ l.
Proof.
  induction l as [|m l IH]; [split; [set_solver|done]|].
  rewrite count_cons, elem_of_cons. case_decide; naive_solver lia.
Qed.

Lemma relax_spec L D Q :
  (forall n, (Z.of_nat (count n L) <= geti D n)%Z) ->
  exists X D', foldl relax (D, Q) L = (D', Q ++ X) /\
    (forall n, geti D' n = geti D n - Z.of_nat (count n L))%Z /\
    NoDup X /\ (forall n, n ∈ X <-> n ∈ L /\ geti D n = Z.of_nat (count n L)).
Proof.
  revert D Q. induction L as [|m L IH]; intros D Q Hle.
  - exists [], D. rewrite app_nil_r. split_and!; [done| |constructor|set_solver].
    intros n. cbn. lia.
  - cbn [foldl relax]. set (D1 := <[m := (geti D m - 1)%Z]> D).
    assert (forall n, geti D1 n = geti D n - (if decide (n = m) then 1 else 0))%Z as HD1.
    { intros n. unfold D1. rewrite geti_insert. repeat case_decide; naive_solver lia. }
    assert (forall n, Z.of_nat (count n L) <= geti D1 n)%Z as Hle1.
    { intros n. specialize (Hle n). rewrite HD1. rewrite count_cons in Hle.
      case_decide; lia. }
    pose proof (Hle1 m) as Hm. rewrite HD1, decide_True in Hm by done.
    destruct (geti D m - 1 =? 0)%Z eqn:Ez;
      [destruct (IH D1 (Q ++ [m]) Hle1) as (X & D' & -> & HD' & Hnd & HX)
      |destruct (IH D1 Q Hle1) as (X & D' & -> & HD' & Hnd & HX)].
    + exists (m :: X), D'. assert (m ∉ L) as HmL by (apply count_zero; lia).
      split_and!; [by rewrite <- assoc_L by apply _| | |].
      * intros n. rewrite HD', HD1, count_cons. case_decide; lia.
      * constructor; [|done]. rewrite HX. naive_solver.
      * intros n. rewrite !elem_of_cons, HX, HD1, count_cons.
        destruct (decide (n = m)) as [->|]; [|naive_solver lia].
        split; [|by left]. intros _. split; [by left|].
        apply count_zero in HmL. lia.
    + exists X, D'. split_and!; [done| |done|].
      * intros n. rewrite HD', HD1, count_cons. case_decide; lia.
      * intros n. rewrite elem_of_cons, HX, HD1, count_cons.
        destruct (decide (n = m)) as [->|]; [|naive_solver lia].
        split; [naive_solver lia|]. intros [_ Hc]. split; [|lia].
        destruct (decide (m ∈ L)) as [|Hn%count_zero]; [done|].
        rewrite Z.eqb_neq in Ez. lia.
Qed.

(** The state of the loop: [P] has been dequeued, [Q] is the queue, [D] the
    degrees. *)
Record kahn_inv E (names : list string) (P Q : list string) (D : gmap string Z) : Prop := {
  ki_deg : forall n, geti D n = Z.of_nat (pending E P n);
  ki_nodup : NoDup (P ++ Q);
  ki_ready : forall n, n ∈ P ++ Q <-> n ∈ names /\ pending E P n = 0;
  ki_topo : forall A n B, P = A ++ n :: B -> forall d, (n, d) ∈ E -> d ∈ A;
}.

Section kahn.
Context (E : list (string * string)) (names : list string)
        (adj : gmap string (list string)).
Hypothesis Hadj : forall d, getl adj d = waiting E d.
Hypothesis HE : forall n d, (n, d) ∈ E -> n ∈ names.

Lemma elem_of_waiting n d : n ∈ waiting E d <-> (n, d) ∈ E.
Proof.
  unfold waiting. rewrite list_elem_of_fmap. split.
  - intros ([m e] & -> & [He Hin]%list_elem_of_filter). simpl in *. by subst.
  - intros Hin. exists (n, d). split; [done|]. by apply list_elem_of_filter.
Qed.

Lemma kahn_inv_step P node Q D :
  kahn_inv E names P (node :: Q) D ->
  exists X D', foldl relax (D, Q) (getl adj node) = (D', Q ++ X) /\
    kahn_inv E names (P ++ [node]) (Q ++ X) D'.
Proof.
  intros [Hdeg Hnd Hready Htopo].
  assert (node ∉ P) as HnP.
  { apply NoDup_app in Hnd as (_ & H & _). intros Hin. apply (H _ Hin). constructor. }
  assert (forall n, pending E P n =
    pending E (P ++ [node]) n + count n (getl adj node)) as Hstep.
  { intros n. rewrite Hadj. by apply pending_snoc. }
  destruct (relax_spec (getl adj node) D Q) as (X & D' & Heq & HD' & HndX & HX).
  { intros n. rewrite Hdeg, (Hstep n). lia. }
  exists X, D'. split; [done|].
  assert ((P ++ [node]) ++ Q ++ X = (P ++ node :: Q) ++ X) as HPQX
    by (by rewrite <- !app_assoc).
  assert (forall n, n ∈ X <-> n ∈ names /\ pending E P n <> 0 /\
                      pending E (P ++ [node]) n = 0) as HX'.
  { intros n. rewrite HX, Hdeg. pose proof (Hstep n) as Hs.
    pose proof (count_zero n (getl adj node)) as Hc. split.
    - intros [Hin Hp]. split; [|split; [|lia]].
      + rewrite Hadj in Hin. apply elem_of_waiting in Hin. eauto.
      + intros Hz. apply Hc; [lia|done].
    - intros (_ & Hp & Hz). split; [|lia].
      destruct (decide (n ∈ getl adj node)) as [|?%Hc]; [done|lia]. }
  split.
  - intros n. rewrite HD', Hdeg, (Hstep n). lia.
  - rewrite HPQX. apply NoDup_app. split_and!; [done| |done].
    intros n Hn Hx. apply HX' in Hx as (_ & Hp & _). apply Hp.
    apply (Hready n). set_solver.
  - intros n. split.
    + rewrite HPQX. intros [Hin|Hx]%elem_of_app; [|apply HX' in Hx; naive_solver].
      apply Hready in Hin as [? Hz]. split; [done|].
      pose proof (Hstep n). lia.
    + intros [Hn Hz]. destruct (decide (pending E P n = 0)) as [H0|H0].
      * assert (n ∈ P ++ node :: Q) by (by apply Hready). set_solver.
      * assert (n ∈ X) by (by apply HX'). set_solver.
  - intros A n B HP d Hd.
    destruct B as [|b B _] using rev_ind.
    + apply List.app_inj_tail in HP as [<- <-].
      assert (node ∈ P ++ node :: Q) as [_ Hz]%Hready by set_solver.
      by eapply pending_zero.
    + rewrite app_comm_cons, assoc_L in HP by apply _.
      apply List.app_inj_tail in HP as [HP ->]. eapply Htopo; eauto.
Qed.

(** With fuel for every name the loop empties its queue. *)
Lemma kahn_run fuel P Q D :
  kahn_inv E names P Q D -> length names <= fuel + length P ->
  exists P' D', kahn fuel adj D Q (length P) = (length P', []) /\
    kahn_inv E names P' [] D'.
Proof.
  revert P Q D. induction fuel as [|fuel IH]; intros P Q D Hinv Hlen.
  - destruct Q as [|node Q]; [by exists P, D|]. exfalso.
    assert (P ++ node :: Q ⊆+ names) as Hc%submseteq_length.
    { apply NoDup_submseteq; [apply Hinv|]. intros n Hn.
      by apply (ki_ready _ _ _ _ _ Hinv) in Hn as [? _]. }
    rewrite length_app in Hc. simpl in Hc. lia.
  - destruct Q as [|node Q]; [by exists P, D|]. cbn [kahn].
    destruct (kahn_inv_step _ _ _ _ Hinv) as (X & D' & -> & Hinv').
    destruct (IH _ _ _ Hinv') as (P' & D'' & Hk & Hi).
    { rewrite length_app. simpl. lia. }
    exists P', D''. rewrite length_app, Nat.add_comm in Hk. done.
Qed.
End kahn.

(** ** The initial queue *)

Lemma add_edge_dom n acc d m :
  is_Some (acc.1 !! n) ->
  is_Some ((add_edge n acc d).1 !! m) <-> is_Some (acc.1 !! m).
Proof.
  destruct acc as [deg adj]. cbn. intros Hn. rewrite lookup_insert.
  case_decide; [subst; naive_solver|done].
Qed.

Lemma add_edges_dom n ds acc m :
  is_Some (acc.1 !! n) ->
  is_Some ((foldl (add_edge n) acc ds).1 !! m) <-> is_Some (acc.1 !! m).
Proof.
  revert acc. induction ds as [|d ds IH]; intros acc Hn; [done|]. simpl.
  rewrite IH; by rewrite add_edge_dom.
Qed.

Lemma add_step_dom acc s m :
  is_Some ((add_step acc s).1 !! m) <-> m = Name s \/ is_Some (acc.1 !! m).
Proof.
  destruct acc as [deg adj]. unfold add_step. rewrite add_edges_dom.
  - destruct (deg !! Name s) eqn:L; cbn; [naive_solver|].
    rewrite lookup_insert. case_decide; naive_solver.
  - destruct (deg !! Name s) eqn:L; cbn; [by rewrite L|]. by rewrite lookup_insert_eq.
Qed.

Lemma build_graph_dom steps m :
  is_Some ((build_graph steps).1 !! m) <-> m ∈ step_names steps.
Proof.
  unfold build_graph. cut (forall acc, is_Some ((foldl add_step acc steps).1 !! m) <->
    m ∈ step_names steps \/ is_Some (acc.1 !! m)).
  { intros H. rewrite H. cbn. rewrite lookup_empty. pose proof (@is_Some_None Z). tauto. }
  induction steps as [|s steps IH]; intros acc; cbn; [set_solver|].
  rewrite IH, add_step_dom, elem_of_cons. naive_solver.
Qed.

Section spec.
Context (range : gmap string Z -> list (string * Z)).
(** Go visits every entry of the map once, in an order of its own. *)
Hypothesis range_perm : forall m, range m ≡ₚ map_to_list m.

Lemma initial_queue_NoDup D : NoDup (initial_queue range D).
Proof.
  unfold initial_queue. eapply (sublist_NoDup _ ((range D).*1)).
  - rewrite range_perm. apply NoDup_fst_map_to_list.
  - apply (fmap_sublist fst), sublist_filter.
Qed.

Lemma elem_of_initial_queue D n : n ∈ initial_queue range D <-> D !! n = Some 0%Z.
Proof.
  unfold initial_queue. rewrite list_elem_of_fmap. split.
  - intros ([m z] & -> & [Hz Hin]%list_elem_of_filter). simpl in *. subst.
    by rewrite range_perm, elem_of_map_to_list in Hin.
  - intros Hn. exists (n, 0%Z). split; [done|]. apply list_elem_of_filter.
    split; [done|]. by rewrite range_perm, elem_of_map_to_list.
Qed.

Lemma kahn_inv_init steps :
  kahn_inv (edges steps) (step_names steps) []
    (initial_queue range (build_graph steps).1) (build_graph steps).1.
Proof.
  destruct (build_graph_represents steps) as [Hdeg _].
  split; [done|apply initial_queue_NoDup| |by intros [|]].
  intros n. simpl. rewrite elem_of_initial_queue. split.
  - intros Hn. split; [apply build_graph_dom; by rewrite Hn|].
    specialize (Hdeg n). unfold geti in Hdeg. rewrite Hn in Hdeg. simpl in Hdeg. lia.
  - intros [[z Hz]%build_graph_dom Hp]. rewrite Hz. f_equal.
    specialize (Hdeg n). unfold geti in Hdeg. rewrite Hz in Hdeg. simpl in Hdeg. lia.
Qed.

Lemma run_kahn_spec steps :
  refs_defined steps ->
  exists P D, run_kahn range steps = (length P, []) /\
    kahn_inv (edges steps) (step_names steps) P [] D.
Proof.
  intros Hrefs. unfold run_kahn.
  pose proof (kahn_inv_init steps) as Hinit.
  destruct (build_graph_represents steps) as [_ Hadj].
  destruct (build_graph steps) as [D adj]. cbn [fst snd] in *.
  assert (forall n d, (n, d) ∈ edges steps -> n ∈ step_names steps) as HE.
  { intros n d (s & Hs & <- & _)%elem_of_edges. by apply list_elem_of_fmap_2. }
  destruct (kahn_run _ _ adj Hadj HE (length steps) [] _ _ Hinit)
    as (P & D' & Hk & Hinv); [|eauto].
  unfold step_names. rewrite length_fmap. simpl. lia.
Qed.

(** In the dequeued sequence a step comes after everything it waits for. *)
Lemma kahn_index steps P D n m i :
  kahn_inv (edges steps) (step_names steps) P [] D ->
  tc (depends steps) n m -> P !! i = Some n ->
  exists j, j < i /\ P !! j = Some m.
Proof.
  intros Hinv Htc. revert i.
  assert (forall n d i, depends steps n d -> P !! i = Some n ->
    exists j, j < i /\ P !! j = Some d) as Hone.
  { intros n' d i Hd Hi. apply elem_of_edges in Hd.
    apply take_drop_middle in Hi as HP.
    apply (ki_topo _ _ _ _ _ Hinv _ _ _ (eq_sym HP)) in Hd.
    apply list_elem_of_lookup in Hd as [j Hj].
    apply lookup_take_Some in Hj as [? ?]. eauto. }
  induction Htc as [n d Hd|n d m Hd _ IH]; intros i Hi; [eauto|].
  destruct (Hone _ _ _ Hd Hi) as (j & Hj & HP).
  destruct (IH _ HP) as (k & Hk & ?). exists k. split; [lia|done].
Qed.

Lemma kahn_all_acyclic steps P D :
  refs_defined steps -> (forall n, n ∈ step_names steps -> n ∈ P) ->
  kahn_inv (edges steps) (step_names steps) P [] D -> acyclic steps.
Proof.
  intros Hrefs Hall Hinv n Htc.
  assert (n ∈ step_names steps) as Hn.
  { assert (exists d, depends steps n d) as (d & s & Hs & <- & _)
      by (inversion Htc; eauto).
    by apply list_elem_of_fmap_2. }
  apply Hall, list_elem_of_lookup in Hn as [i Hi].
  destruct (kahn_index _ _ _ _ _ _ Hinv Htc Hi) as (j & Hlt & Hj).
  pose proof (ki_nodup _ _ _ _ _ Hinv) as Hnd. rewrite app_nil_r in Hnd.
  assert (i = j) by (by eapply NoDup_lookup). lia.
Qed.

Lemma acyclic_kahn_all steps P D :
  refs_defined steps -> acyclic steps ->
  kahn_inv (edges steps) (step_names steps) P [] D ->
  forall n, n ∈ step_names steps -> n ∈ P.
Proof.
  intros Hrefs Hac Hinv n.
  assert (forall n d, depends steps n d -> d ∈ step_names steps) as Hdep.
  { intros m d (s & Hs & _ & Hd). by apply (Hrefs s Hs). }
  assert (sn (depends steps) n) as Hsn.
  { apply tc_finite_sn; [exact Hac|]. exists (step_names steps).
    intros y Hy. induction Hy; eauto. }
  induction Hsn as [n _ IH]. intros Hn.
  pose proof (ki_ready _ _ _ _ _ Hinv n) as Hr. rewrite app_nil_r in Hr.
  apply Hr. split; [done|]. apply pending_zero. intros d Hd%elem_of_edges.
  apply IH; [done|eauto].
Qed.


(** With the references checked, the count is right exactly when the chain
    has no cycle. *)
Lemma run_kahn_count steps :
  NoDup (step_names steps) -> refs_defined steps ->
  ((run_kahn range steps).1 = length steps <-> acyclic steps).
Proof.
  intros Hnd Hrefs. destruct (run_kahn_spec steps Hrefs) as (P & D & -> & Hinv). cbn.
  pose proof (ki_nodup _ _ _ _ _ Hinv) as HndP. rewrite app_nil_r in HndP.
  assert (length (step_names steps) = length steps) as Hl by apply length_fmap.
  assert (P ⊆+ step_names steps) as Hsub.
  { apply NoDup_submseteq; [done|]. intros n Hn.
    apply (ki_ready _ _ _ _ _ Hinv). by rewrite app_nil_r. }
  split.
  - intros Hlen. eapply kahn_all_acyclic; [done| |done]. intros n.
    apply submseteq_length_Permutation in Hsub as ->; [done|]. lia.
  - intros Hac. rewrite <- Hl. apply Nat.le_antisymm; [by apply submseteq_length|].
    apply submseteq_length, NoDup_submseteq; [done|]. by eapply acyclic_kahn_all.
Qed.

Lemma check_refs_defined steps :
  check_refs (list_to_set (step_names steps)) steps = Ok tt <-> refs_defined steps.
Proof.
  rewrite check_refs_Ok. unfold refs_defined. split; intros H s Hs;
    specialize (H s Hs); rewrite check_step_refs_Ok in *; set_solver.
Qed.

Lemma ValidateChainDAG_valid steps :
  ValidateChainDAG range steps = Ok tt <-> valid_chain steps.
Proof.
  unfold ValidateChainDAG. destruct (check_names ∅ steps) as [names|e] eqn:En.
  2:{ split; [done|]. intros [Hnd _ _].
      assert (exists ns, check_names ∅ steps = Ok ns) as [ns ?]; [|congruence].
      eexists. apply check_names_Ok. split_and!; [done|set_solver|done]. }
  apply check_names_Ok in En as (Hnd & _ & ->). rewrite (left_id_L ∅ (∪)).
  pose proof (check_refs_defined steps) as Hrefs.
  destruct (check_refs_result (list_to_set (step_names steps)) steps) as [Hok|[e He]].
  - rewrite Hok in *. assert (refs_defined steps) as Hr by (by apply Hrefs).
    pose proof (run_kahn_count steps Hnd Hr) as Hc.
    destruct (Nat.eqb_spec (run_kahn range steps).1 (length steps)) as [Hlen|Hlen].
    + split; [|done]. intros _. split; [done|done|by apply Hc].
    + split; [done|]. intros [_ _ Hac]. by apply Hc in Hac.
  - rewrite He in *. split; [done|]. intros [_ H _]. by apply Hrefs in H.
Qed.

Lemma ValidateChainDAG_NoDup steps :
  ValidateChainDAG range steps = Ok tt -> NoDup (step_names steps).
Proof. by intros [? _ _]%ValidateChainDAG_valid. Qed.
End spec.

(** C1. [ValidateChainDAG] accepts exactly the valid chains: distinct step
    names, every reference to a step of the chain, and no step that waits for
    itself through its dependencies.  It does so for every order in which Go
    ranges over the in-degree map, and once the references are checked the queue
    loop always runs until its queue is empty. *)
Theorem ValidateChainDAG_accepts (range : gmap string Z -> list (string * Z))
    (range_perm : forall m, range m ≡ₚ map_to_list m) steps :
  (ValidateChainDAG range steps = Ok tt <-> valid_chain steps) /\
  (refs_defined steps -> (run_kahn range steps).2 = []).
Proof.
  split; [by apply ValidateChainDAG_valid|]. intros Hrefs.
  by destruct (run_kahn_spec range range_perm steps Hrefs) as (P & D & -> & _).
Qed.

Definition mk_step (name : string) (deps : list string) : ChainStep :=
  {| Name := name; TemplateRef := "t"; DependsOn := deps; ContextFrom := "";
     BranchFrom := ""; Condition := "" |}.

Definition diamond : list ChainStep :=
  [mk_step "d" ["b"; "c"]; mk_step "b" ["a"]; mk_step "c" ["a"]; mk_step "a" []].

Example diamond_ok : ValidateChainDAG map_to_list diamond = Ok tt.
Proof. vm_compute. reflexivity. Qed.

Example cycle_rejected :
  ValidateChainDAG map_to_list [mk_step "a" ["b"]; mk_step "b" ["a"]] =
  Err "failed: chain contains a cycle".
Proof. vm_compute. reflexivity. Qed.

Lemma ValidateChainDAG_accepts_witness :
  valid_chain diamond /\ (run_kahn map_to_list diamond).2 = [].
Proof.
  destruct (ValidateChainDAG_accepts map_to_list (fun m => reflexivity _) diamond)
    as [Hv Hq].
  assert (valid_chain diamond) as Hd by (apply Hv; vm_compute; reflexivity).
  split; [exact Hd|]. apply Hq. apply Hd.
Defined.
