(* ===== verification/ChainRun.v ===== *)
(** * The ChainRun reconciler: [internal/controller/chain_controller.go].

    One reconcile is a function of the stored ChainRun and of an [api] record
    that answers the Kubernetes calls it makes.  All reads of one reconcile
    come from one snapshot of the informer cache; every call may fail.  The
    result is the ChainRun as stored afterwards, the calls that were made, and
    what the reconciler returns.

    [stepStatus] and [stepDef] of the source are maps of pointers into the
    status and definition slices.  Here a lookup searches the current list, so
    it sees every earlier write through the pointers; as in a Go map built in
    order, the last entry with a name wins. *)

From S2P Require Import Prelude GoStrings ApiTypes ChainDAG.

Record api := {
  api_chain : string -> get_result (list ChainStep);
  api_run : string -> get_result AgentRun;
  api_template : string -> get_result RunTemplate;
  api_create : NewAgentRun -> result string;
  api_set_owner : bool;
  api_update : result unit;
  api_now : time;
}.

(** A call that changes the cluster, other than the write of the ChainRun. *)
Inductive effect :=
| EDelete (run : string)
| ECreate (step : string) (run : NewAgentRun) (res : result string)
| ETemplateStatus (template : string) (status : RunTemplateStatus).

Definition chainFinalizerName : string := "aot.uncworks.io/chainrun-cleanup".

(** [internal/controller/chain_controller.go:20-20] chainReconcileInterval: seconds *)
Definition chainReconcileInterval : Z := 10.

Implicit Types (ss : list ChainRunStepStatus) (s : ChainRunStepStatus)
  (defs : list ChainStep) (def : ChainStep).

(** The last element of a list with a property, as in a map filled in order. *)
Definition find_last {A} (P : A -> bool) (l : list A) : option A :=
  foldl (fun acc a => if P a then Some a else acc) None l.

(** [internal/controller/chain_controller.go:125-129] stepStatus *)
Definition stepStatus ss (n : string) : option ChainRunStepStatus :=
  find_last (fun s => String.eqb (ss_Name s) n) ss.

(** [internal/controller/chain_controller.go:131-135] stepDef *)
Definition stepDef defs (n : string) : option ChainStep :=
  find_last (fun d => String.eqb (Name d) n) defs.

Definition has_phase (p : string) s : bool := String.eqb (ss_Phase s) p.

(** ** Syncing running steps *)

Definition complete (phase msg : string) (now : time) s : ChainRunStepStatus :=
  {| ss_Name := ss_Name s; ss_Phase := phase; ss_RunID := ss_RunID s;
     ss_StartedAt := ss_StartedAt s; ss_CompletedAt := Some now; ss_Message := msg |}.

Definition fail_step (msg : string) s : ChainRunStepStatus :=
  {| ss_Name := ss_Name s; ss_Phase := ChainRunStepPhaseFailed; ss_RunID := ss_RunID s;
     ss_StartedAt := ss_StartedAt s; ss_CompletedAt := ss_CompletedAt s;
     ss_Message := msg |}.

(** [internal/controller/chain_controller.go:140-168] Reconcile: sync one running step
    from its AgentRun.  Returns the step and whether it was updated. *)
Definition sync_step (a : api) s : ChainRunStepStatus * bool :=
  if negb (has_phase ChainRunStepPhaseRunning s) || String.eqb (ss_RunID s) "" then (s, false)
  else match api_run a (ss_RunID s) with
  | Found run =>
      match as_Phase (ar_Status run) with
      | AgentRunPhaseSucceeded =>
          (complete ChainRunStepPhaseSucceeded "completed" (api_now a) s, true)
      | AgentRunPhaseFailed =>
          (complete ChainRunStepPhaseFailed (as_Message (ar_Status run)) (api_now a) s, true)
      | AgentRunPhaseCancelled =>
          (complete ChainRunStepPhaseFailed "cancelled" (api_now a) s, true)
      | _ => (s, false)
      end
  | _ => (s, false)
  end.

(** [internal/controller/chain_controller.go:137-168] Reconcile: the sync loop *)
Definition sync_steps (a : api) ss : list ChainRunStepStatus * bool :=
  ((fun s => (sync_step a s).1) <$> ss, existsb (fun s => (sync_step a s).2) ss).

(** ** Starting pending steps *)

(** [internal/controller/chain_controller.go:181-189] Reconcile: allDepsOK *)
Definition deps_succeeded ss def : bool :=
  forallb (fun dep =>
    match stepStatus ss dep with
    | Some d => has_phase ChainRunStepPhaseSucceeded d
    | None => false
    end) (DependsOn def).

(** [internal/controller/chain_controller.go:207-227] Reconcile: context injection *)
Definition inject_context (a : api) ss def (prompt : string) : string :=
  if String.eqb (ContextFrom def) "" then prompt
  else match stepStatus ss (ContextFrom def) with
  | None => prompt
  | Some d =>
      if String.eqb (ss_RunID d) "" then prompt
      else match api_run a (ss_RunID d) with
      | Found depRun =>
          let log := as_LogOutput (ar_Status depRun) in
          let contextText :=
            if String.eqb log "" then as_Message (ar_Status depRun)
            else if 8000 <? String.length log
                 then str_drop (String.length log - 8000) log
                 else log in
          "Context from previous step '" +:+ ContextFrom def +:+ "' (agent output):" +:+
          newline +:+ newline +:+ contextText +:+ newline +:+ newline +:+ prompt
      | _ => prompt
      end
  end.

(** [internal/controller/chain_controller.go:229-235] Reconcile: branch *)
Definition step_branch ss def : string :=
  if String.eqb (BranchFrom def) "" then ""
  else match stepStatus ss (BranchFrom def) with
  | Some d => "aot/" +:+ ss_RunID d
  | None => ""
  end.

(** [internal/controller/chain_controller.go:237-243] Reconcile: repos *)
Definition step_repos (branch : string) (repos : list Repository) : list Repository :=
  match repos with
  | r :: rest =>
      if String.eqb branch "" then repos
      else {| repo_URL := repo_URL r; repo_Branch := branch; repo_Path := repo_Path r |} :: rest
  | [] => []
  end.

(** [internal/controller/chain_controller.go:203-268] Reconcile: the AgentRun of a step *)
Definition step_run (a : api) (cr : ChainRun) ss def (t : RunTemplateSpec) : NewAgentRun :=
  {| nr_GenerateName := "ar-";
     nr_Namespace := cr_Namespace cr;
     nr_Spec :=
       {| rs_Backend := BackendPod;
          rs_Repos := step_repos (step_branch ss def) (ts_Repos t);
          rs_Prompt := inject_context a ss def (ts_Prompt t);
          rs_DevboxConfig := ""; rs_TTLSeconds := ts_TTLSeconds t; rs_EnvVars := [];
          rs_Image := ""; rs_ModelTier := ts_ModelTier t;
          rs_ManageModelTier := ts_ManageModelTier t;
          rs_ImplementModelTier := ts_ImplementModelTier t;
          rs_SpecContent := ""; rs_SpecSource := ""; rs_ProjectRef := ts_ProjectRef t;
          rs_SpecRef := ""; rs_WorkspaceName := ""; rs_ParentRunID := "";
          rs_OrchestrationMode := ts_OrchestrationMode t; rs_Orchestration := None;
          rs_SpecRunID := ""; rs_DisplayName := ""; rs_PipelineConfig := None;
          rs_MaxBudget := 0%Z; rs_AutoPush := ts_AutoPush t; rs_AutoPR := ts_AutoPR t;
          rs_PRBaseBranch := ts_PRBaseBranch t; rs_Project := ""; rs_Feature := "";
          rs_Tags := []; rs_ApprovalMode := ""; rs_OpenspecChange := "" |};
     nr_Labels := [("aot.uncworks.io/chain-run", cr_Name cr);
                   ("aot.uncworks.io/chain", cr_ChainRef cr);
                   ("aot.uncworks.io/step", Name def)];
     nr_Owner := if api_set_owner a then Some (cr_Name cr) else None |}.

(** [internal/controller/chain_controller.go:276-281] Reconcile: a started step *)
Definition started (runID : string) (now : time) s : ChainRunStepStatus :=
  {| ss_Name := ss_Name s; ss_Phase := ChainRunStepPhaseRunning; ss_RunID := runID;
     ss_StartedAt := Some now; ss_CompletedAt := ss_CompletedAt s; ss_Message := "started" |}.

(** The loop state: the status slice, the calls made so far, [updated]. *)
Record loop := { lp_steps : list ChainRunStepStatus; lp_effects : list effect; lp_updated : bool }.

(** [internal/controller/chain_controller.go:172-290] Reconcile: the start loop, one index *)
Definition start_at (a : api) (cr : ChainRun) defs (l : loop) (i : nat) : loop :=
  let ss := lp_steps l in
  match ss !! i with
  | None => l
  | Some s =>
      if negb (has_phase ChainRunStepPhasePending s) then l
      else match stepDef defs (ss_Name s) with
      | None => l
      | Some def =>
          if negb (deps_succeeded ss def) then l
          else match api_template a (TemplateRef def) with
          | Found tmpl =>
              let run := step_run a cr ss def (tmpl_Spec tmpl) in
              let res := api_create a run in
              match res with
              | Err e =>
                  {| lp_steps := <[i := fail_step ("create run: " +:+ e) s]> ss;
                     lp_effects := lp_effects l ++ [ECreate (ss_Name s) run res];
                     lp_updated := true |}
              | Ok runID =>
                  {| lp_steps := <[i := started runID (api_now a) s]> ss;
                     lp_effects := lp_effects l ++
                       [ECreate (ss_Name s) run res;
                        ETemplateStatus (TemplateRef def)
                          {| tt_LastTriggeredAt := Some (api_now a);
                             tt_RunCount := int32_incr (tt_RunCount (tmpl_Status tmpl)) |}];
                     lp_updated := true |}
              end
          | _ =>
              {| lp_steps := <[i := fail_step ("template " +:+ Quote (TemplateRef def)
                                               +:+ " not found") s]> ss;
                 lp_effects := lp_effects l; lp_updated := true |}
          end
      end
  end.

(** [internal/controller/chain_controller.go:170-290] Reconcile: the start loop *)
Definition start_steps (a : api) (cr : ChainRun) defs (l : loop) : loop :=
  foldl (start_at a cr defs) l (seq 0 (length (lp_steps l))).

(** ** Propagating failures *)

Definition skip_step (dep phase : string) s : ChainRunStepStatus :=
  {| ss_Name := ss_Name s; ss_Phase := ChainRunStepPhaseSkipped; ss_RunID := ss_RunID s;
     ss_StartedAt := ss_StartedAt s; ss_CompletedAt := ss_CompletedAt s;
     ss_Message := "skipped because dependency " +:+ Quote dep +:+ " " +:+ phase |}.

Definition is_blocking s : bool :=
  has_phase ChainRunStepPhaseFailed s || has_phase ChainRunStepPhaseSkipped s.

(** [internal/controller/chain_controller.go:305-314] Reconcile: the dependency that
    failed or was skipped, with its phase *)
Fixpoint blocking_dep ss (deps : list string) : option (string * string) :=
  match deps with
  | [] => None
  | dep :: rest =>
      match stepStatus ss dep with
      | Some d => if is_blocking d then Some (dep, ss_Phase d) else blocking_dep ss rest
      | None => blocking_dep ss rest
      end
  end.

(** [internal/controller/chain_controller.go:296-315] Reconcile: one index of a pass *)
Definition propagate_at defs (acc : list ChainRunStepStatus * bool) (i : nat) :=
  let '(ss, changed) := acc in
  match ss !! i with
  | None => acc
  | Some s =>
      if negb (has_phase ChainRunStepPhasePending s) then acc
      else match stepDef defs (ss_Name s) with
      | None => acc
      | Some def =>
          match blocking_dep ss (DependsOn def) with
          | Some (dep, phase) => (<[i := skip_step dep phase s]> ss, true)
          | None => acc
          end
      end
  end.

Definition propagate_pass defs ss : list ChainRunStepStatus * bool :=
  foldl (propagate_at defs) (ss, false) (seq 0 (length ss)).

(** [internal/controller/chain_controller.go:292-316] Reconcile: propagate until stable.
    Each pass that changes something turns a pending step, so one pass more
    than there are steps is enough. *)
Fixpoint propagate (fuel : nat) defs ss (updated : bool) : list ChainRunStepStatus * bool :=
  match fuel with
  | 0 => (ss, updated)
  | S fuel =>
      let '(ss', changed) := propagate_pass defs ss in
      if changed then propagate fuel defs ss' true else (ss', updated)
  end.

(** ** Completion *)

Definition is_active s : bool :=
  has_phase ChainRunStepPhasePending s || has_phase ChainRunStepPhaseRunning s.

(** [internal/controller/chain_controller.go:318-341] Reconcile: overall completion *)
Definition finish (now : time) (st : ChainRunStatus) ss (updated : bool)
  : ChainRunStatus * bool :=
  if existsb is_active ss
  then ({| crs_Phase := crs_Phase st; crs_Steps := ss; crs_StartedAt := crs_StartedAt st;
           crs_CompletedAt := crs_CompletedAt st; crs_Message := crs_Message st |}, updated)
  else
    let failed := existsb (has_phase ChainRunStepPhaseFailed) ss in
    ({| crs_Phase := if failed then ChainRunPhaseFailed else ChainRunPhaseSucceeded;
        crs_Steps := ss; crs_StartedAt := crs_StartedAt st; crs_CompletedAt := Some now;
        crs_Message := if failed then "one or more steps failed" else "all steps completed" |},
     true).

(** ** The reconciler *)

(** What one reconcile leaves: the stored ChainRun, the calls it made, and its
    result, [Ok (Some n)] for a requeue after [n] seconds. *)
Record outcome := {
  out_cr : ChainRun; out_effects : list effect; out_result : result (option Z);
}.

Definition with_status (cr : ChainRun) (st : ChainRunStatus) : ChainRun :=
  {| cr_Name := cr_Name cr; cr_Namespace := cr_Namespace cr; cr_Deleted := cr_Deleted cr;
     cr_Finalizers := cr_Finalizers cr; cr_ChainRef := cr_ChainRef cr;
     cr_TriggeredBy := cr_TriggeredBy cr; cr_Status := st |}.

Definition with_finalizers (cr : ChainRun) (fs : list string) : ChainRun :=
  {| cr_Name := cr_Name cr; cr_Namespace := cr_Namespace cr; cr_Deleted := cr_Deleted cr;
     cr_Finalizers := fs; cr_ChainRef := cr_ChainRef cr;
     cr_TriggeredBy := cr_TriggeredBy cr; cr_Status := cr_Status cr |}.

(** A write of the ChainRun: stored when the API server accepts it. *)
Definition store (a : api) (old new : ChainRun) (effs : list effect) (requeue : option Z)
  : outcome :=
  match api_update a with
  | Ok _ => {| out_cr := new; out_effects := effs; out_result := Ok requeue |}
  | Err e => {| out_cr := old; out_effects := effs; out_result := Err ("reconcile: " +:+ e) |}
  end.

(** [internal/controller/chain_controller.go:46-62] Reconcile: the child runs that
    are deleted with the ChainRun *)
Definition deletions (a : api) ss : list effect :=
  omap (fun s =>
    if String.eqb (ss_RunID s) "" then None
    else match api_run a (ss_RunID s) with
         | Found _ => Some (EDelete (ss_RunID s))
         | _ => None
         end) ss.

(** [internal/controller/chain_controller.go:44-69] Reconcile: deletion *)
Definition reconcile_deleted (a : api) (cr : ChainRun) : outcome :=
  if bool_decide (chainFinalizerName ∈ cr_Finalizers cr) then
    store a cr
      (with_finalizers cr (filter (fun f => f <> chainFinalizerName) (cr_Finalizers cr)))
      (deletions a (crs_Steps (cr_Status cr))) None
  else {| out_cr := cr; out_effects := []; out_result := Ok None |}.

(** The status of a ChainRun that fails before it starts. *)
Definition fail_status (st : ChainRunStatus) (msg : string) : ChainRunStatus :=
  {| crs_Phase := ChainRunPhaseFailed; crs_Steps := crs_Steps st;
     crs_StartedAt := crs_StartedAt st; crs_CompletedAt := crs_CompletedAt st;
     crs_Message := msg |}.

(** [internal/controller/chain_controller.go:108-123] Reconcile: first reconcile *)
Definition init_status (now : time) (st : ChainRunStatus) defs : ChainRunStatus :=
  {| crs_Phase := ChainRunPhaseRunning;
     crs_Steps := (fun def =>
       {| ss_Name := Name def; ss_Phase := ChainRunStepPhasePending; ss_RunID := "";
          ss_StartedAt := None; ss_CompletedAt := None; ss_Message := "" |}) <$> defs;
     crs_StartedAt := Some now; crs_CompletedAt := crs_CompletedAt st;
     crs_Message := crs_Message st |}.

(** [internal/controller/chain_controller.go:125-341] Reconcile: an initialised ChainRun *)
Definition advance (a : api) (cr : ChainRun) defs : ChainRunStatus * list effect * bool :=
  let st := cr_Status cr in
  let '(ss1, u1) := sync_steps a (crs_Steps st) in
  let l := start_steps a cr defs {| lp_steps := ss1; lp_effects := []; lp_updated := u1 |} in
  let '(ss3, u3) := propagate (S (length (lp_steps l))) defs (lp_steps l) (lp_updated l) in
  let '(st', u) := finish (api_now a) st ss3 u3 in
  (st', lp_effects l, u).

Definition terminal_phase (p : string) : bool :=
  String.eqb p ChainRunPhaseSucceeded || String.eqb p ChainRunPhaseFailed ||
  String.eqb p ChainRunPhaseCancelled.

(** [internal/controller/chain_controller.go:71-353] Reconcile: a ChainRun that is
    not being deleted *)
Definition reconcile_live (range : gmap string Z -> list (string * Z)) (a : api)
    (cr : ChainRun) : outcome :=
  let st := cr_Status cr in
  if negb (bool_decide (chainFinalizerName ∈ cr_Finalizers cr)) then
    store a cr (with_finalizers cr (cr_Finalizers cr ++ [chainFinalizerName])) [] None
  else if terminal_phase (crs_Phase st) then
    {| out_cr := cr; out_effects := []; out_result := Ok None |}
  else
    let fail msg := store a cr (with_status cr (fail_status st msg)) [] None in
    let not_found e :=
      fail ("chain " +:+ Quote (cr_ChainRef cr) +:+ " not found: " +:+ e) in
    match api_chain a (cr_ChainRef cr) with
    | NotFound => not_found "not found"
    | GetError e => not_found e
    | Found defs =>
        match ValidateChainDAG range defs with
        | Err e => fail ("invalid chain DAG: " +:+ e)
        | Ok _ =>
            match crs_Steps st with
            | [] => store a cr (with_status cr (init_status (api_now a) st defs)) [] (Some 1%Z)
            | _ =>
                let '(st', effs, updated) := advance a cr defs in
                let requeue :=
                  if String.eqb (crs_Phase st') ChainRunPhaseRunning
                  then Some chainReconcileInterval else None in
                if updated then store a cr (with_status cr st') effs requeue
                else {| out_cr := cr; out_effects := effs; out_result := Ok requeue |}
            end
        end
    end.

(** [internal/controller/chain_controller.go:29-70] Reconcile *)
Definition Reconcile (range : gmap string Z -> list (string * Z)) (a : api)
    (cr : ChainRun) : outcome :=
  if cr_Deleted cr then reconcile_deleted a cr else reconcile_live range a cr.

(** * Theorems *)

(** ** Looking steps up by name *)

Lemma find_last_snoc {A} (P : A -> bool) l a :
  find_last P (l ++ [a]) = if P a then Some a else find_last P l.
Proof. unfold find_last. by rewrite foldl_app. Qed.

Lemma find_last_Some {A} (P : A -> bool) l a :
  find_last P l = Some a -> a ∈ l /\ P a = true.
Proof.
  induction l as [|b l IH] using rev_ind; [done|]. rewrite find_last_snoc.
  destruct (P b) eqn:E; [intros [= <-]; set_solver|]. intros [??]%IH. set_solver.
Qed.

Lemma find_last_None {A} (P : A -> bool) l :
  find_last P l = None <-> forall a, a ∈ l -> P a = false.
Proof.
  induction l as [|b l IH] using rev_ind; [split; [set_solver|done]|].
  rewrite find_last_snoc. destruct (P b) eqn:E.
  - split; [done|]. intros H. rewrite H in E; [done|set_solver].
  - rewrite IH. set_solver.
Qed.

Lemma find_last_is_Some {A} (P : A -> bool) l a :
  a ∈ l -> P a = true -> is_Some (find_last P l).
Proof.
  intros Hin HP. destruct (find_last P l) eqn:E; [eauto|].
  rewrite find_last_None in E. by rewrite E in HP.
Qed.

Lemma find_last_Forall2 {A} (R : relation A) (P : A -> bool) l k :
  Forall2 R l k -> (forall a b, R a b -> P a = P b) ->
  option_Forall2 R (find_last P l) (find_last P k).
Proof.
  intros H HP. revert k H. induction l as [|a l IH] using rev_ind; intros k H.
  - apply Forall2_nil_inv_l in H as ->. constructor.
  - apply Forall2_app_inv_l in H as (k1 & k2 & H1 & H2 & ->).
    apply Forall2_cons_inv_l in H2 as (b & k3 & Hab & ->%Forall2_nil_inv_l & ->).
    rewrite !find_last_snoc, <- (HP a b) by done. destruct (P a); [by constructor|auto].
Qed.

Definition status_names ss : list string := ss_Name <$> ss.

Lemma stepStatus_Some ss n s : stepStatus ss n = Some s -> s ∈ ss /\ ss_Name s = n.
Proof. intros [? ?]%find_last_Some. breflect. done. Qed.

Lemma stepStatus_None ss n : stepStatus ss n = None <-> n ∉ status_names ss.
Proof.
  unfold stepStatus. rewrite find_last_None. unfold status_names.
  rewrite list_elem_of_fmap. setoid_rewrite String.eqb_neq. naive_solver.
Qed.

Lemma stepStatus_unique ss s :
  NoDup (status_names ss) -> s ∈ ss -> stepStatus ss (ss_Name s) = Some s.
Proof.
  intros Hnd Hs. destruct (stepStatus ss (ss_Name s)) as [t|] eqn:E.
  - apply stepStatus_Some in E as [Ht Hn]. f_equal.
    apply list_elem_of_lookup in Hs as [i Hi], Ht as [j Hj].
    assert (i = j) as ->; [|congruence].
    eapply (NoDup_lookup (status_names ss)); [done| |];
      unfold status_names; rewrite list_lookup_fmap; [by rewrite Hi|rewrite Hj; simpl; congruence].
  - apply stepStatus_None in E. destruct E. by apply list_elem_of_fmap_2.
Qed.

Lemma stepDef_Some defs n def : stepDef defs n = Some def -> def ∈ defs /\ Name def = n.
Proof. intros [? ?]%find_last_Some. breflect. done. Qed.

Lemma stepDef_is_Some defs n : n ∈ step_names defs -> is_Some (stepDef defs n).
Proof.
  intros (d & -> & Hd)%list_elem_of_fmap. eapply find_last_is_Some; [done|].
  apply String.eqb_refl.
Qed.

(** ** How a step evolves *)

Definition pending_phase s : Prop := ss_Phase s = ChainRunStepPhasePending.

(** Starting and skipping: only a pending step changes, and never to succeeded. *)
Definition evolves s s' : Prop :=
  ss_Name s' = ss_Name s /\
  (s' = s \/ pending_phase s /\
     ss_Phase s' ∈ [ChainRunStepPhaseRunning; ChainRunStepPhaseFailed;
                    ChainRunStepPhaseSkipped]).

(** Syncing: only a running step changes, and it succeeds or fails. *)
Definition synced s s' : Prop :=
  ss_Name s' = ss_Name s /\
  (s' = s \/ ss_Phase s = ChainRunStepPhaseRunning /\
     ss_Phase s' ∈ [ChainRunStepPhaseSucceeded; ChainRunStepPhaseFailed]).

#[export] Instance evolves_preorder : PreOrder evolves.
Proof.
  split; [by split; [|left]|].
  intros s1 s2 s3 [Hn1 H1] [Hn2 H2]. split; [congruence|].
  destruct H1 as [->|[Hp H1]]; [done|]. destruct H2 as [->|[Hp2 _]]; [by right|].
  unfold pending_phase in *. rewrite Hp2 in H1. set_solver.
Qed.

Lemma evolves_names ss ss' : Forall2 evolves ss ss' -> status_names ss' = status_names ss.
Proof. unfold status_names. induction 1 as [|s s' ss ss' [Hn _] _ IH]; csimpl; congruence. Qed.

Lemma evolves_stepStatus ss ss' n :
  Forall2 evolves ss ss' -> option_Forall2 evolves (stepStatus ss n) (stepStatus ss' n).
Proof. intros H. eapply find_last_Forall2; [done|]. intros s s' [Hn _]. simpl. by rewrite Hn. Qed.

Lemma Forall2_stepStatus ss ss' n s' :
  Forall2 evolves ss ss' -> stepStatus ss' n = Some s' ->
  exists s, stepStatus ss n = Some s /\ evolves s s'.
Proof.
  intros H Hs. pose proof (evolves_stepStatus _ _ n H) as Ho. rewrite Hs in Ho.
  inversion Ho; subst. eauto.
Qed.

(** Whether a named step has succeeded does not change while steps are started
    and skipped. *)
Lemma evolves_succeeded s s' :
  evolves s s' ->
  has_phase ChainRunStepPhaseSucceeded s' = has_phase ChainRunStepPhaseSucceeded s.
Proof.
  unfold has_phase. intros [_ [->|[Hp H]]]; [done|]. unfold pending_phase in Hp.
  rewrite Hp. set_unfold. destruct H as [->|[->|[->|[]]]]; done.
Qed.

Lemma evolves_deps_succeeded ss ss' def :
  Forall2 evolves ss ss' -> deps_succeeded ss' def = deps_succeeded ss def.
Proof.
  intros H. unfold deps_succeeded. induction (DependsOn def) as [|d ds IH]; [done|].
  simpl. rewrite IH. f_equal. destruct (evolves_stepStatus _ _ d H) as [s s' Hs|]; [|done].
  by apply evolves_succeeded.
Qed.

Lemma evolves_insert ss0 ss i s s' :
  Forall2 evolves ss0 ss -> ss !! i = Some s -> evolves s s' ->
  Forall2 evolves ss0 (<[i:=s']> ss).
Proof.
  intros H Hi Hs. destruct (Forall2_lookup_r _ _ _ _ _ H Hi) as (s0 & H0 & He).
  eapply Forall2_insert_r; [done..|]. by etrans.
Qed.

Ltac phase_solver := unfold pending_phase, has_phase in *; breflect;
  split; [done|right; split; [done|simpl; set_solver]].

Lemma fail_step_evolves msg s :
  has_phase ChainRunStepPhasePending s = true -> evolves s (fail_step msg s).
Proof. intros H. phase_solver. Qed.

Lemma started_evolves id now s :
  has_phase ChainRunStepPhasePending s = true -> evolves s (started id now s).
Proof. intros H. phase_solver. Qed.

Lemma skip_step_evolves d p s :
  has_phase ChainRunStepPhasePending s = true -> evolves s (skip_step d p s).
Proof. intros H. phase_solver. Qed.

#[export] Hint Resolve fail_step_evolves started_evolves skip_step_evolves : unc.

(** ** The start loop *)

(** What the start loop has done so far: a step that has a created run was
    pending before, is not pending now, and its dependencies have succeeded. *)
Definition created_by defs ss0 (l : loop) (n : string) : Prop :=
  exists def, stepDef defs n = Some def /\ deps_succeeded ss0 def = true /\
    (exists s0, stepStatus ss0 n = Some s0 /\ pending_phase s0) /\
    (exists s, stepStatus (lp_steps l) n = Some s /\ ~ pending_phase s).

Definition created (effs : list effect) : list string :=
  omap (fun e => match e with ECreate n _ _ => Some n | _ => None end) effs.

Record start_inv defs ss0 (l : loop) : Prop := {
  si_evolves : Forall2 evolves ss0 (lp_steps l);
  si_created : forall n, n ∈ created (lp_effects l) -> created_by defs ss0 l n;
  si_once : NoDup (created (lp_effects l));
}.

Lemma stepStatus_insert ss i s s' :
  NoDup (status_names ss) -> ss !! i = Some s -> ss_Name s' = ss_Name s ->
  forall n, stepStatus (<[i:=s']> ss) n =
    if decide (n = ss_Name s) then Some s' else stepStatus ss n.
Proof.
  intros Hnd Hi Hn n.
  assert (status_names (<[i:=s']> ss) = status_names ss) as Hnames.
  { unfold status_names. rewrite list_fmap_insert, Hn. apply list_insert_id.
    by rewrite list_lookup_fmap, Hi. }
  assert (i < length ss) as Hlen by (by eapply lookup_lt_Some).
  case_decide as Hd.
  - subst n. rewrite <- Hn. apply stepStatus_unique; [by rewrite Hnames|].
    by apply list_elem_of_insert.
  - destruct (stepStatus ss n) as [t|] eqn:E.
    + apply stepStatus_Some in E as [Ht Hnt]. rewrite <- Hnt.
      apply stepStatus_unique; [by rewrite Hnames|].
      apply list_elem_of_lookup in Ht as [j Hj]. apply list_elem_of_lookup. exists j.
      rewrite list_lookup_insert_ne; [done|]. intros <-. congruence.
    + apply stepStatus_None. apply stepStatus_None in E. by rewrite Hnames.
Qed.

(** A step of the loop that replaces a pending step [s] at index [i] by [s'],
    having created at most a run for it. *)
Lemma start_inv_insert defs ss0 l i s s' effs u def :
  NoDup (status_names ss0) -> start_inv defs ss0 l -> lp_steps l !! i = Some s ->
  pending_phase s -> evolves s s' -> ~ pending_phase s' ->
  stepDef defs (ss_Name s) = Some def -> deps_succeeded (lp_steps l) def = true ->
  created effs = [] \/ created effs = [ss_Name s] ->
  start_inv defs ss0 {| lp_steps := <[i:=s']> (lp_steps l);
                        lp_effects := lp_effects l ++ effs; lp_updated := u |}.
Proof.
  intros Hnd0 [Hev Hcr Honce] Hi Hp Hss' Hp' Hdef Hdeps Heffs.
  assert (NoDup (status_names (lp_steps l))) as Hnd by (by rewrite (evolves_names _ _ Hev)).
  pose proof (stepStatus_insert _ _ _ s' Hnd Hi (proj1 Hss')) as Hlook.
  assert (s ∈ lp_steps l) as Hin by (by eapply list_elem_of_lookup_2).
  pose proof (stepStatus_unique _ _ Hnd Hin) as Hs.
  assert (ss_Name s ∉ created (lp_effects l)) as Hfresh.
  { intros (? & _ & _ & _ & t & Ht & Hpt)%Hcr. congruence. }
  assert (forall n, n ∈ created (lp_effects l ++ effs) ->
    n ∈ created (lp_effects l) \/ n = ss_Name s) as Hsplit.
  { intros n. unfold created in *. rewrite omap_app, elem_of_app.
    destruct Heffs as [-> | ->]; set_solver. }
  split; simpl.
  - by eapply evolves_insert.
  - intros n [Hn| ->]%Hsplit.
    + destruct (Hcr _ Hn) as (d & ? & ? & ? & t & Ht & ?). exists d.
      split_and!; [done..|]. exists t. cbn [lp_steps]. rewrite Hlook, decide_False; [done|].
      intros ->. by apply Hfresh.
    + exists def. split_and!; [done| | |].
      * by rewrite <- (evolves_deps_succeeded _ _ def Hev).
      * pose proof (evolves_stepStatus _ _ (ss_Name s) Hev) as He.
        rewrite Hs in He. inversion He as [s0 ? [_ [<-|[Hp0 Hph]]] Heq|]; subst;
          [by exists s|by exists s0].
      * exists s'. cbn [lp_steps]. by rewrite Hlook, decide_True.
  - unfold created. rewrite omap_app. fold (created (lp_effects l)) (created effs).
    destruct Heffs as [-> | ->]; [by rewrite app_nil_r|].
    apply NoDup_app. split_and!; [done|set_solver|apply NoDup_singleton].
Qed.

Lemma start_at_inv a cr defs ss0 l i :
  NoDup (status_names ss0) -> start_inv defs ss0 l -> start_inv defs ss0 (start_at a cr defs l i).
Proof.
  intros Hnd Hinv. unfold start_at.
  destruct (lp_steps l !! i) as [s|] eqn:Hi; [|done].
  destruct (has_phase ChainRunStepPhasePending s) eqn:Hp; [|done]. cbn.
  destruct (stepDef defs (ss_Name s)) as [def|] eqn:Hdef; [|done].
  destruct (deps_succeeded (lp_steps l) def) eqn:Hdeps; [|done]. cbn.
  assert (pending_phase s) as Hps by (unfold has_phase in Hp; by breflect).
  destruct (api_template a (TemplateRef def)) as [tmpl| |e].
  - destruct (api_create a _) as [id|e];
      (eapply start_inv_insert; [done..|eauto with unc|done|done|done|by right]).
  - rewrite <- (app_nil_r (lp_effects l)).
    eapply start_inv_insert; [done..|eauto with unc|done|done|done|by left].
  - rewrite <- (app_nil_r (lp_effects l)).
    eapply start_inv_insert; [done..|eauto with unc|done|done|done|by left].
Qed.

Lemma start_steps_inv a cr defs ss u :
  NoDup (status_names ss) ->
  start_inv defs ss (start_steps a cr defs
    {| lp_steps := ss; lp_effects := []; lp_updated := u |}).
Proof.
  intros Hnd. unfold start_steps. apply foldl_ind.
  - split; simpl; [reflexivity|set_solver|constructor].
  - intros l i _ Hl. by apply start_at_inv.
Qed.

Lemma start_at_same a cr defs l i s def :
  lp_steps (start_at a cr defs l i) !! i = Some s -> pending_phase s ->
  stepDef defs (ss_Name s) = Some def -> deps_succeeded (lp_steps l) def = false.
Proof.
  unfold start_at. destruct (lp_steps l !! i) as [s0|] eqn:Hi; [|congruence].
  assert (i < length (lp_steps l)) as Hlen by (by eapply lookup_lt_Some).
  destruct (has_phase ChainRunStepPhasePending s0) eqn:Hp; cbn [negb].
  2:{ rewrite Hi. intros [= <-] Hps. unfold has_phase, pending_phase in *. by breflect. }
  destruct (stepDef defs (ss_Name s0)) as [d|] eqn:Hdef; [|congruence].
  destruct (deps_succeeded (lp_steps l) d) eqn:Hd; cbn [negb].
  2:{ intros Hs _ Hds. congruence. }
  destruct (api_template a (TemplateRef d)) as [tmpl| |e];
    [destruct (api_create a _)|..]; cbn [lp_steps];
    rewrite list_lookup_insert_eq by done; by intros [= <-].
Qed.

Lemma start_at_other a cr defs l i j :
  j <> i -> lp_steps (start_at a cr defs l i) !! j = lp_steps l !! j.
Proof.
  intros Hne. unfold start_at. repeat case_match; cbn [lp_steps];
    rewrite ?list_lookup_insert_ne; done.
Qed.

(** The start loop leaves a defined step pending only while it has to wait. *)
Lemma start_steps_waiting a cr defs ss u :
  NoDup (status_names ss) ->
  forall s def,
  s ∈ lp_steps (start_steps a cr defs {| lp_steps := ss; lp_effects := []; lp_updated := u |}) ->
  pending_phase s -> stepDef defs (ss_Name s) = Some def -> deps_succeeded ss def = false.
Proof.
  intros Hnd. unfold start_steps. cbn [lp_steps].
  set (P := fun k (l : loop) => start_inv defs ss l /\
    forall i s def, i < k -> lp_steps l !! i = Some s -> pending_phase s ->
      stepDef defs (ss_Name s) = Some def -> deps_succeeded ss def = false).
  assert (P (length ss) (foldl (start_at a cr defs)
    {| lp_steps := ss; lp_effects := []; lp_updated := u |} (seq 0 (length ss)))) as [Hinv H].
  { apply foldl_seq_ind.
    - split; [|lia]. split; simpl; [reflexivity|set_solver|constructor].
    - intros i l _ [Hinv Hw]. split; [by apply start_at_inv|].
      intros j s def Hj Hs Hp Hdef. destruct (decide (j = i)) as [->|Hne].
      + rewrite <- (evolves_deps_succeeded _ _ def (si_evolves _ _ _ Hinv)).
        by eapply start_at_same.
      + rewrite start_at_other in Hs by done. eapply (Hw j); eauto. lia. }
  intros s def [i Hi]%list_elem_of_lookup Hp Hdef. eapply H; [|done..].
  rewrite (Forall2_length _ _ _ (si_evolves _ _ _ Hinv)). by eapply lookup_lt_Some.
Qed.

(** ** The propagation loop *)

Definition is_pending s : bool := has_phase ChainRunStepPhasePending s.
Definition pending_count ss : nat := length (filter (fun s => is_pending s = true) ss).

Lemma blocking_dep_Some ss deps d p :
  blocking_dep ss deps = Some (d, p) ->
  d ∈ deps /\ exists s, stepStatus ss d = Some s /\ is_blocking s = true /\ p = ss_Phase s.
Proof.
  induction deps as [|e deps IH]; simpl; [done|].
  destruct (stepStatus ss e) as [t|] eqn:E.
  - destruct (is_blocking t) eqn:Hb.
    + intros [= -> <-]. split; [by left|eauto].
    + intros [??]%IH. split; [by right|done].
  - intros [??]%IH. split; [by right|done].
Qed.

Lemma blocking_dep_None ss deps :
  blocking_dep ss deps = None ->
  forall d s, d ∈ deps -> stepStatus ss d = Some s -> is_blocking s = false.
Proof.
  induction deps as [|e deps IH]; simpl; [set_solver|].
  intros H d s [->|Hd]%elem_of_cons Hs.
  - rewrite Hs in H. by destruct (is_blocking s).
  - eapply IH; [|done..]. repeat case_match; done.
Qed.

Lemma pending_count_insert ss i s s' :
  ss !! i = Some s -> is_pending s = true -> is_pending s' = false ->
  S (pending_count (<[i:=s']> ss)) = pending_count ss.
Proof.
  unfold pending_count. revert i. induction ss as [|t ss IH]; intros [|i]; simpl;
    intros Hi Hp Hp'; [done..| |].
  - injection Hi as ->. rewrite !filter_cons, Hp, Hp'. by rewrite decide_False, decide_True.
  - rewrite !filter_cons. specialize (IH i Hi Hp Hp'). case_decide; simpl; lia.
Qed.

(** What a pass guarantees about the list it started from. *)
Record pass_inv ss0 (acc : list ChainRunStepStatus * bool) : Prop := {
  pv_evolves : Forall2 evolves ss0 acc.1;
  pv_false : acc.2 = false -> acc.1 = ss0;
  pv_true : acc.2 = true -> pending_count acc.1 < pending_count ss0;
}.

Lemma propagate_at_inv defs ss0 acc i :
  pass_inv ss0 acc -> pass_inv ss0 (propagate_at defs acc i).
Proof.
  destruct acc as [ss ch]. intros Hinv. unfold propagate_at.
  destruct (ss !! i) as [s|] eqn:Hi; [|done].
  destruct (has_phase ChainRunStepPhasePending s) eqn:Hp; [|done]. cbn.
  destruct (stepDef defs (ss_Name s)) as [def|]; [|done].
  destruct (blocking_dep ss (DependsOn def)) as [[d p]|]; [|done].
  destruct Hinv as [Hev Hf Ht]. simpl in *.
  pose proof (pending_count_insert ss i s (skip_step d p s) Hi Hp eq_refl) as Hc.
  split; simpl; [|done|].
  - eapply evolves_insert; eauto with unc.
  - intros _. destruct ch; [specialize (Ht eq_refl); lia|].
    rewrite Hf in Hc by done. rewrite Hf by done. lia.
Qed.

Lemma propagate_pass_inv defs ss : pass_inv ss (propagate_pass defs ss).
Proof.
  unfold propagate_pass. apply foldl_ind; [split; simpl; [reflexivity|done|done]|].
  intros acc i _. apply propagate_at_inv.
Qed.

(** A pass that changes nothing found no pending step with a blocked dependency. *)
Lemma propagate_pass_stable defs ss :
  (propagate_pass defs ss).2 = false ->
  forall s def, s ∈ ss -> pending_phase s -> stepDef defs (ss_Name s) = Some def ->
    blocking_dep ss (DependsOn def) = None.
Proof.
  unfold propagate_pass.
  set (P := fun k (acc : list ChainRunStepStatus * bool) => acc.2 = false ->
    acc.1 = ss /\ forall i s def, i < k -> ss !! i = Some s -> pending_phase s ->
      stepDef defs (ss_Name s) = Some def -> blocking_dep ss (DependsOn def) = None).
  assert (P (length ss) (foldl (propagate_at defs) (ss, false) (seq 0 (length ss)))) as H.
  { apply foldl_seq_ind; [split; [done|lia]|].
    intros i [ss' ch] Hi HP. unfold P in *. unfold propagate_at.
    destruct (ss' !! i) as [s|] eqn:Hs.
    - destruct (has_phase ChainRunStepPhasePending s) eqn:Hp; cbn.
      + destruct (stepDef defs (ss_Name s)) as [def|] eqn:Hdef.
        * destruct (blocking_dep ss' (DependsOn def)) as [[d p]|] eqn:Hb; [done|].
          intros Hch. destruct (HP Hch) as [Heq Hw]. simpl in *. subst ss'.
          split; [done|]. intros j t def' Hj Ht Hpt Hdef'.
          destruct (decide (j = i)) as [->|]; [congruence|]. eapply (Hw j); eauto. lia.
        * intros Hch. destruct (HP Hch) as [Heq Hw]. simpl in *. subst ss'.
          split; [done|]. intros j t def' Hj Ht Hpt Hdef'.
          destruct (decide (j = i)) as [->|]; [congruence|]. eapply (Hw j); eauto. lia.
      + intros Hch. destruct (HP Hch) as [Heq Hw]. simpl in *. subst ss'.
        split; [done|]. intros j t def' Hj Ht Hpt Hdef'.
        destruct (decide (j = i)) as [->|]; [|eapply (Hw j); eauto; lia].
        unfold has_phase, pending_phase in *. breflect. congruence.
    - intros Hch. destruct (HP Hch) as [Heq Hw]. simpl in *. subst ss'.
      apply lookup_ge_None in Hs. lia. }
  intros Hch. destruct (H Hch) as [_ Hw]. intros s def [i Hi]%list_elem_of_lookup Hp Hdef.
  eapply Hw; [by eapply lookup_lt_Some|done..].
Qed.

(** The loop stops within its fuel, in a state that one more pass leaves alone. *)
Lemma propagate_spec fuel defs ss u :
  pending_count ss < fuel ->
  exists ss' u', propagate fuel defs ss u = (ss', u') /\
    Forall2 evolves ss ss' /\ (propagate_pass defs ss').2 = false.
Proof.
  revert ss u. induction fuel as [|fuel IH]; intros ss u Hf; [lia|]. cbn [propagate].
  destruct (propagate_pass_inv defs ss) as [Hev Hfalse Htrue].
  destruct (propagate_pass defs ss) as [ss1 ch] eqn:E. simpl in *. destruct ch.
  - specialize (Htrue eq_refl).
    destruct (IH ss1 true) as (ss' & u' & -> & He & Hs); [lia|].
    exists ss', u'. split_and!; [done|by etrans|done].
  - rewrite Hfalse by done. exists ss, u. split_and!; [done|done|by rewrite E].
Qed.

Lemma pending_count_le ss : pending_count ss <= length ss.
Proof. apply length_filter. Qed.

(** ** Syncing *)

Lemma sync_step_synced a s : synced s (sync_step a s).1.
Proof.
  unfold sync_step. destruct (has_phase ChainRunStepPhaseRunning s) eqn:Hp; cbn;
    [|by split; [|left]].
  unfold has_phase in Hp. breflect.
  repeat case_match; (split; [done|]); simpl; (by left) || (right; split; [done|set_solver]).
Qed.

Lemma sync_step_unchanged a s : (sync_step a s).2 = false -> (sync_step a s).1 = s.
Proof. unfold sync_step. repeat case_match; done. Qed.

Lemma sync_steps_synced a ss : Forall2 synced ss (sync_steps a ss).1.
Proof.
  simpl. induction ss as [|s ss IH]; csimpl; constructor; [apply sync_step_synced|done].
Qed.

Lemma synced_names ss ss' : Forall2 synced ss ss' -> status_names ss' = status_names ss.
Proof. unfold status_names. induction 1 as [|s s' ss ss' [Hn _] _ IH]; csimpl; congruence. Qed.

(** What a succeeded dependency means for the stored status: it is recorded as
    succeeded, or it runs and its AgentRun is observed to have succeeded. *)
Definition dep_done (a : api) ss (d : string) : Prop :=
  exists s, stepStatus ss d = Some s /\
    (ss_Phase s = ChainRunStepPhaseSucceeded \/
     ss_Phase s = ChainRunStepPhaseRunning /\ exists run,
       api_run a (ss_RunID s) = Found run /\
       as_Phase (ar_Status run) = AgentRunPhaseSucceeded).

Lemma sync_step_succeeded a s :
  has_phase ChainRunStepPhaseSucceeded (sync_step a s).1 = true ->
  ss_Phase s = ChainRunStepPhaseSucceeded \/
  ss_Phase s = ChainRunStepPhaseRunning /\ exists run,
    api_run a (ss_RunID s) = Found run /\
    as_Phase (ar_Status run) = AgentRunPhaseSucceeded.
Proof.
  unfold sync_step, has_phase.
  destruct (String.eqb_spec (ss_Phase s) ChainRunStepPhaseRunning) as [Hr|]; simpl;
    [|intros; breflect; by left].
  repeat case_match; simpl; intros; breflect; try done; try (by left).
  right. eauto.
Qed.

Lemma stepStatus_sync a ss n :
  stepStatus (sync_steps a ss).1 n = (fun s => (sync_step a s).1) <$> stepStatus ss n.
Proof.
  unfold stepStatus. simpl. induction ss as [|s ss IH] using rev_ind; [done|].
  rewrite fmap_app. csimpl. rewrite !find_last_snoc, IH.
  destruct (sync_step_synced a s) as [-> _]. by case_match.
Qed.

Lemma sync_deps_done a ss def :
  deps_succeeded (sync_steps a ss).1 def = true ->
  forall d, d ∈ DependsOn def -> dep_done a ss d.
Proof.
  unfold deps_succeeded. rewrite forallb_elem. intros H d Hd. specialize (H d Hd).
  rewrite stepStatus_sync in H. unfold dep_done.
  destruct (stepStatus ss d) as [s|]; [|done].
  exists s. split; [done|]. by apply sync_step_succeeded.
Qed.

(** ** One advance of an initialised ChainRun *)

(** The three lists an advance goes through. *)
Record advance_facts (a : api) (cr : ChainRun) defs (st' : ChainRunStatus)
    (effs : list effect) (ss2 : list ChainRunStepStatus) : Prop := {
  af_start : exists u, start_inv defs (sync_steps a (crs_Steps (cr_Status cr))).1
    {| lp_steps := ss2; lp_effects := effs; lp_updated := u |};
  af_waiting : forall s def, s ∈ ss2 -> pending_phase s ->
    stepDef defs (ss_Name s) = Some def ->
    deps_succeeded (sync_steps a (crs_Steps (cr_Status cr))).1 def = false;
  af_skip : Forall2 evolves ss2 (crs_Steps st');
  af_stable : (propagate_pass defs (crs_Steps st')).2 = false;
  af_finish : exists u, (finish (api_now a) (cr_Status cr) (crs_Steps st') u).1 = st';
}.

Lemma finish_steps now st ss u : crs_Steps (finish now st ss u).1 = ss.
Proof. unfold finish. by case_match. Qed.

Lemma advance_spec a cr defs st' effs u :
  NoDup (status_names (crs_Steps (cr_Status cr))) ->
  advance a cr defs = (st', effs, u) ->
  exists ss2, advance_facts a cr defs st' effs ss2.
Proof.
  intros Hnd. unfold advance.
  pose proof (sync_steps_synced a (crs_Steps (cr_Status cr))) as Hsync.
  destruct (sync_steps a (crs_Steps (cr_Status cr))) as [ss1 u1] eqn:Es. simpl in Hsync.
  assert (NoDup (status_names ss1)) as Hnd1 by (by rewrite (synced_names _ _ Hsync)).
  pose proof (start_steps_inv a cr defs ss1 u1 Hnd1) as Hstart.
  pose proof (start_steps_waiting a cr defs ss1 u1 Hnd1) as Hwait.
  destruct (start_steps a cr defs _) as [ss2 e2 u2]. cbn [lp_steps lp_effects lp_updated] in *.
  destruct (propagate_spec (S (length ss2)) defs ss2 u2) as (ss3 & u3 & -> & Hev & Hst).
  { pose proof (pending_count_le ss2). lia. }
  destruct (finish (api_now a) (cr_Status cr) ss3 u3) as [st u0] eqn:Ef.
  intros [= <- <- <-]. exists ss2.
  assert (crs_Steps st = ss3) as Hss3
    by (rewrite <- (finish_steps (api_now a) (cr_Status cr) ss3 u3); by rewrite Ef).
  split; rewrite ?Hss3, ?Es; [by eexists|done|done|done|].
  exists u3. by rewrite Ef.
Qed.

Lemma advance_names a cr defs st' effs u :
  NoDup (status_names (crs_Steps (cr_Status cr))) ->
  advance a cr defs = (st', effs, u) ->
  status_names (crs_Steps st') = status_names (crs_Steps (cr_Status cr)).
Proof.
  intros Hnd Ha. destruct (advance_spec _ _ _ _ _ _ Hnd Ha) as (ss2 & [[u' Hs] _ Hk _ _]).
  pose proof (evolves_names _ _ (si_evolves _ _ _ Hs)) as Hn. cbn [lp_steps] in Hn.
  rewrite (evolves_names _ _ Hk), Hn.
  apply (synced_names _ _ (sync_steps_synced a _)).
Qed.

(** ** An advance that reports no update changed nothing *)

Lemma start_at_updated a cr defs l i :
  lp_updated (start_at a cr defs l i) = false -> start_at a cr defs l i = l.
Proof. unfold start_at. repeat case_match; done. Qed.

Lemma start_steps_unchanged a cr defs l :
  lp_updated (start_steps a cr defs l) = false -> start_steps a cr defs l = l.
Proof.
  unfold start_steps. generalize (seq 0 (length (lp_steps l))). intros idxs.
  induction idxs as [|i idxs IH] using rev_ind; [done|]. rewrite foldl_app. simpl.
  intros H. pose proof H as H'. apply start_at_updated in H as Heq.
  rewrite Heq in *. by apply IH.
Qed.

Lemma propagate_unchanged fuel defs ss u ss' :
  propagate fuel defs ss u = (ss', false) -> ss' = ss /\ u = false.
Proof.
  revert ss u. induction fuel as [|fuel IH]; simpl; intros ss u; [by intros [= -> ->]|].
  destruct (propagate_pass_inv defs ss) as [_ Hf _].
  destruct (propagate_pass defs ss) as [ss1 [|]]; simpl in *; [by intros [? ?]%IH|].
  intros [= <- ->]. split; [by apply Hf|done].
Qed.

Lemma sync_steps_unchanged a ss : (sync_steps a ss).2 = false -> (sync_steps a ss).1 = ss.
Proof.
  simpl. rewrite existsb_elem_false. intros H. induction ss as [|s ss IH]; [done|].
  csimpl. rewrite sync_step_unchanged by (apply H; by left). f_equal. apply IH. set_solver.
Qed.

Lemma advance_unchanged a cr defs st' effs :
  advance a cr defs = (st', effs, false) -> st' = cr_Status cr /\ effs = [].
Proof.
  unfold advance. pose proof (sync_steps_unchanged a (crs_Steps (cr_Status cr))) as Hsync.
  destruct (sync_steps a _) as [ss1 u1] eqn:Es.
  set (l0 := {| lp_steps := ss1; lp_effects := []; lp_updated := u1 |}).
  pose proof (start_steps_unchanged a cr defs l0) as Hstart.
  destruct (propagate _ defs _ _) as [ss3 u3] eqn:Ep.
  destruct (finish _ _ _ _) as [st u] eqn:Ef. intros [= <- <- ->].
  unfold finish in Ef. destruct (existsb is_active ss3); [|done]. injection Ef as <- ->.
  apply propagate_unchanged in Ep as [-> Hu]. rewrite Hstart in * by done.
  subst l0. simpl in *. subst u1. rewrite Hsync by done. by destruct cr as [????? ? []].
Qed.

(** ** Safety, progress and outcome of the reconciler *)

Lemma created_deletions a ss : created (deletions a ss) = [].
Proof.
  unfold created, deletions. induction ss as [|s ss IH]; [done|]. csimpl.
  destruct (String.eqb _ _); [done|]. by destruct (api_run a (ss_RunID s)).
Qed.

(** The failed dependencies of a final list reach every pending step that
    does not wait for an active one. *)
Lemma advance_no_stuck a cr defs st' effs u :
  valid_chain defs -> status_names (crs_Steps (cr_Status cr)) = step_names defs ->
  Forall (fun s => ss_Phase s ∈ [ChainRunStepPhasePending; ChainRunStepPhaseRunning;
    ChainRunStepPhaseSucceeded; ChainRunStepPhaseFailed; ChainRunStepPhaseSkipped])
    (crs_Steps st') ->
  advance a cr defs = (st', effs, u) ->
  (forall s, s ∈ crs_Steps st' -> has_phase ChainRunStepPhaseRunning s = false) ->
  forall s, s ∈ crs_Steps st' -> ~ pending_phase s.
Proof.
  intros Hv Hn Hph Ha Hrun.
  assert (NoDup (status_names (crs_Steps (cr_Status cr)))) as Hnd
    by (rewrite Hn; apply Hv).
  pose proof (advance_names _ _ _ _ _ _ Hnd Ha) as Hn'.
  assert (NoDup (status_names (crs_Steps st'))) as Hnd' by (by rewrite Hn').
  destruct (advance_spec _ _ _ _ _ _ Hnd Ha) as (ss2 & [[u' Hst] Hw Hsk Hstab _]).
  assert (forall n d, depends defs n d -> d ∈ step_names defs) as Hdep.
  { intros n d (def & Hdef & _ & Hd). by apply (valid_refs _ Hv def Hdef). }
  assert (forall n, sn (depends defs) n) as Hsn.
  { intros n. apply tc_finite_sn; [apply Hv|]. exists (step_names defs).
    intros y Hy. induction Hy; eauto. }
  cut (forall n s, stepStatus (crs_Steps st') n = Some s -> ~ pending_phase s).
  { intros H s Hs. eapply H. by apply stepStatus_unique. }
  intros n. induction (Hsn n) as [n _ IH]. intros s Hs Hp.
  apply stepStatus_Some in Hs as Hs'. destruct Hs' as [Hin <-].
  assert (ss_Name s ∈ step_names defs) as Hname.
  { rewrite <- Hn, <- Hn'. by apply list_elem_of_fmap_2. }
  destruct (stepDef_is_Some _ _ Hname) as [def Hdef].
  pose proof (propagate_pass_stable _ _ Hstab s def Hin Hp Hdef) as Hb.
  destruct (Forall2_stepStatus _ _ _ _ Hsk Hs) as (s2 & Hs2 & Hev2).
  assert (pending_phase s2) as Hp2.
  { destruct Hev2 as [_ [<-|[? _]]]; done. }
  apply stepStatus_Some in Hs2 as [Hin2 Hn2].
  assert (deps_succeeded ss2 def = true) as Hok.
  { unfold deps_succeeded. apply forallb_elem. intros d Hd.
    assert (depends defs (ss_Name s) d) as Hdd.
    { apply stepDef_Some in Hdef as [? ?]. by exists def. }
    destruct (stepStatus (crs_Steps st') d) as [t|] eqn:Et.
    2:{ apply stepStatus_None in Et. destruct Et. rewrite Hn', Hn. eauto. }
    destruct (Forall2_stepStatus _ _ _ _ Hsk Et) as (t2 & Ht2 & Hevt).
    rewrite Ht2, <- (evolves_succeeded _ _ Hevt).
    pose proof (IH d Hdd t Et) as Hnp.
    pose proof (blocking_dep_None _ _ Hb d t Hd Et) as Hnb.
    apply stepStatus_Some in Et as [Hti _]. specialize (Hrun t Hti).
    rewrite Forall_forall in Hph. specialize (Hph t Hti).
    unfold is_blocking, has_phase, pending_phase in *. breflect. set_solver. }
  specialize (Hw s2 def Hin2 Hp2). rewrite Hn2 in Hw.
  rewrite <- (evolves_deps_succeeded _ _ def (si_evolves _ _ _ Hst)) in Hw.
  cbn [lp_steps] in Hw. rewrite Hok in Hw. by specialize (Hw Hdef).
Qed.

Section reconciler.
Context (range : gmap string Z -> list (string * Z)).
Hypothesis range_perm : forall m, range m ≡ₚ map_to_list m.

(** A reconcile that creates runs advances a ChainRun over a valid chain. *)
Lemma reconcile_creates a cr :
  created (out_effects (Reconcile range a cr)) <> [] ->
  exists defs st' effs u, api_chain a (cr_ChainRef cr) = Found defs /\
    valid_chain defs /\ advance a cr defs = (st', effs, u) /\
    out_effects (Reconcile range a cr) = effs.
Proof.
  unfold Reconcile, reconcile_deleted, reconcile_live, store.
  destruct (cr_Deleted cr).
  { case_bool_decide; [|done]. intros []. destruct (api_update a); apply created_deletions. }
  destruct (negb _); [by destruct (api_update a)|].
  destruct (terminal_phase _); [done|].
  destruct (api_chain a (cr_ChainRef cr)) as [defs| |e] eqn:Ec;
    [|by destruct (api_update a)..].
  destruct (ValidateChainDAG range defs) as [[]|e] eqn:Ev; [|by destruct (api_update a)].
  destruct (crs_Steps (cr_Status cr)) as [|s ss] eqn:Es; [by destruct (api_update a)|].
  destruct (advance a cr defs) as [[st' effs] u] eqn:Ea. intros _.
  exists defs, st', effs, u. split_and!; [done|by eapply ValidateChainDAG_valid|done|].
  destruct u, (api_update a); done.
Qed.

(** The outcome of advancing a live ChainRun when the write is accepted. *)
Lemma reconcile_advances a cr defs st' effs u :
  cr_Deleted cr = false -> chainFinalizerName ∈ cr_Finalizers cr ->
  terminal_phase (crs_Phase (cr_Status cr)) = false ->
  api_chain a (cr_ChainRef cr) = Found defs -> valid_chain defs ->
  crs_Steps (cr_Status cr) <> [] -> api_update a = Ok tt ->
  advance a cr defs = (st', effs, u) ->
  out_cr (Reconcile range a cr) = with_status cr st'.
Proof.
  intros Hd Hf Ht Hc Hv Hs Hu Ha. unfold Reconcile, reconcile_live.
  rewrite Hd, bool_decide_eq_true_2, Ht, Hc by done. cbn [negb].
  rewrite (proj2 (ValidateChainDAG_valid range range_perm defs) Hv).
  destruct (crs_Steps (cr_Status cr)) as [|s ss] eqn:Es; [done|].
  rewrite Ha. unfold store. rewrite Hu. destruct u; [done|]. cbn.
  apply advance_unchanged in Ha as [-> _]. by destruct cr.
Qed.

End reconciler.

(** C2. A reconcile creates a run only for a step that is recorded as pending,
    at most once per step, and only when every dependency of the step has
    finished: it is recorded as succeeded, or its AgentRun is observed to have
    succeeded.  The chain it executes is a valid one. *)
Theorem chain_step_starts_after_deps (range : gmap string Z -> list (string * Z))
    (range_perm : forall m, range m ≡ₚ map_to_list m) (a : api) (cr : ChainRun)
    (Hnames : NoDup (status_names (crs_Steps (cr_Status cr)))) (n : string) :
  let effs := out_effects (Reconcile range a cr) in
  n ∈ created effs ->
  NoDup (created effs) /\
  exists defs def, api_chain a (cr_ChainRef cr) = Found defs /\ valid_chain defs /\
    stepDef defs n = Some def /\
    (exists s, stepStatus (crs_Steps (cr_Status cr)) n = Some s /\ pending_phase s) /\
    (forall d, d ∈ DependsOn def -> dep_done a (crs_Steps (cr_Status cr)) d).
Proof.
  intros effs Hn. subst effs.
  destruct (reconcile_creates range range_perm a cr) as (defs & st' & effs & u & Hc & Hv & Ha & He).
  { intros H. rewrite H in Hn. set_solver. }
  rewrite He in *. destruct (advance_spec _ _ _ _ _ _ Hnames Ha) as (ss2 & [[u' Hs] _ _ _ _]).
  split; [apply Hs|]. destruct (si_created _ _ _ Hs n Hn) as (def & Hdef & Hdeps & (s0 & H0 & Hp) & _).
  exists defs, def. split_and!; [done..| |by apply sync_deps_done].
  rewrite stepStatus_sync in H0.
  destruct (stepStatus (crs_Steps (cr_Status cr)) n) as [s|] eqn:Es; [|done].
  exists s. split; [done|]. injection H0 as <-.
  destruct (sync_step_synced a s) as [_ [Heq|[_ Hph]]]; [by rewrite Heq in Hp|].
  unfold pending_phase in *. rewrite Hp in Hph. set_solver.
Qed.

Definition known_phase (p : string) : Prop :=
  p ∈ [ChainRunStepPhasePending; ChainRunStepPhaseRunning; ChainRunStepPhaseSucceeded;
       ChainRunStepPhaseFailed; ChainRunStepPhaseSkipped].

Lemma synced_known ss ss' :
  Forall2 synced ss ss' -> Forall (fun s => known_phase (ss_Phase s)) ss ->
  Forall (fun s => known_phase (ss_Phase s)) ss'.
Proof.
  induction 1 as [|s s' ss ss' [_ H] _ IH]; [done|]. intros [??]%Forall_cons.
  constructor; [|auto]. destruct H as [->|[_ H]]; [done|]. unfold known_phase. set_solver.
Qed.

Lemma evolves_known ss ss' :
  Forall2 evolves ss ss' -> Forall (fun s => known_phase (ss_Phase s)) ss ->
  Forall (fun s => known_phase (ss_Phase s)) ss'.
Proof.
  induction 1 as [|s s' ss ss' [_ H] _ IH]; [done|]. intros [??]%Forall_cons.
  constructor; [|auto]. destruct H as [->|[_ H]]; [done|]. unfold known_phase. set_solver.
Qed.

Lemma advance_known a cr defs st' effs u :
  NoDup (status_names (crs_Steps (cr_Status cr))) ->
  Forall (fun s => known_phase (ss_Phase s)) (crs_Steps (cr_Status cr)) ->
  advance a cr defs = (st', effs, u) ->
  Forall (fun s => known_phase (ss_Phase s)) (crs_Steps st').
Proof.
  intros Hnd Hk Ha. destruct (advance_spec _ _ _ _ _ _ Hnd Ha) as (ss2 & [[u' Hs] _ Hsk _ _]).
  eapply evolves_known; [done|]. eapply evolves_known; [apply Hs|].
  eapply synced_known; [apply sync_steps_synced|done].
Qed.

(** C17. The reconciler does not get stuck: after a reconcile of a live ChainRun
    whose status was initialised from a valid chain, either a step is running or
    the whole run has reached a terminal phase.  In particular the loop that
    propagates failures ends, with every consequence of a failure recorded. *)
Theorem chain_run_progress (range : gmap string Z -> list (string * Z))
    (range_perm : forall m, range m ≡ₚ map_to_list m) (a : api) (cr : ChainRun) defs
    (Hlive : cr_Deleted cr = false /\ chainFinalizerName ∈ cr_Finalizers cr /\
             terminal_phase (crs_Phase (cr_Status cr)) = false)
    (Hchain : api_chain a (cr_ChainRef cr) = Found defs) (Hvalid : valid_chain defs)
    (Hinit : crs_Steps (cr_Status cr) <> [] /\
             status_names (crs_Steps (cr_Status cr)) = step_names defs /\
             Forall (fun s => known_phase (ss_Phase s)) (crs_Steps (cr_Status cr)))
    (Hupdate : api_update a = Ok tt) :
  let st := cr_Status (out_cr (Reconcile range a cr)) in
  existsb (has_phase ChainRunStepPhaseRunning) (crs_Steps st) = true \/
  (existsb is_active (crs_Steps st) = false /\ terminal_phase (crs_Phase st) = true).
Proof.
  destruct Hlive as (Hd & Hf & Ht), Hinit as (Hne & Hnames & Hknown). cbn zeta.
  destruct (advance a cr defs) as [[st' effs] u] eqn:Ea.
  rewrite (reconcile_advances range range_perm a cr defs st' effs u) by done. cbn [cr_Status with_status].
  assert (NoDup (status_names (crs_Steps (cr_Status cr)))) as Hnd
    by (rewrite Hnames; apply Hvalid).
  destruct (existsb (has_phase ChainRunStepPhaseRunning) (crs_Steps st')) eqn:Er; [by left|right].
  rewrite existsb_elem_false in Er.
  pose proof (advance_known _ _ _ _ _ _ Hnd Hknown Ea) as Hk.
  pose proof (advance_no_stuck a cr defs st' effs u Hvalid Hnames Hk Ea Er) as Hnp.
  assert (existsb is_active (crs_Steps st') = false) as Hact.
  { apply existsb_elem_false. intros s Hs. unfold is_active. rewrite Er by done.
    specialize (Hnp s Hs). unfold has_phase, pending_phase in *. breflect. done. }
  split; [done|]. destruct (advance_spec _ _ _ _ _ _ Hnd Ea) as (ss2 & [_ _ _ _ [u' Hfin]]).
  rewrite <- Hfin. unfold finish. rewrite Hact. simpl. by case_match.
Qed.

(** ** The life of a ChainRun *)

(** A ChainRun is submitted with an empty status, reconciled any number of
    times, against any sequence of API answers (so the Chain may be edited
    between two reconciles), and may be marked for deletion. *)
Inductive reachable (range : gmap string Z -> list (string * Z)) : ChainRun -> Prop :=
| reach_new cr :
    cr_Status cr = {| crs_Phase := ""; crs_Steps := []; crs_StartedAt := None;
                      crs_CompletedAt := None; crs_Message := "" |} ->
    reachable range cr
| reach_reconcile a cr :
    reachable range cr -> reachable range (out_cr (Reconcile range a cr))
| reach_delete cr :
    reachable range cr ->
    reachable range {| cr_Name := cr_Name cr; cr_Namespace := cr_Namespace cr;
      cr_Deleted := true; cr_Finalizers := cr_Finalizers cr; cr_ChainRef := cr_ChainRef cr;
      cr_TriggeredBy := cr_TriggeredBy cr; cr_Status := cr_Status cr |}.

(** A step is skipped only if some step failed. *)
Definition skip_explained ss : Prop :=
  existsb (has_phase ChainRunStepPhaseSkipped) ss = true ->
  existsb (has_phase ChainRunStepPhaseFailed) ss = true.

Record status_ok (st : ChainRunStatus) : Prop := {
  so_names : NoDup (status_names (crs_Steps st));
  so_known : Forall (fun s => known_phase (ss_Phase s)) (crs_Steps st);
  so_skip : skip_explained (crs_Steps st);
  so_success : crs_Phase st = ChainRunPhaseSucceeded ->
    crs_Steps st <> [] /\
    Forall (fun s => ss_Phase s = ChainRunStepPhaseSucceeded) (crs_Steps st);
}.

(** Replacing a pending step by a failed one, or by one that is not skipped,
    keeps the list explained; so does skipping when a step failed already. *)
Lemma existsb_insert (P : ChainRunStepStatus -> bool) ss i s s' :
  ss !! i = Some s -> P s = false ->
  existsb P (<[i:=s']> ss) = P s' || existsb P ss.
Proof.
  revert i. induction ss as [|t ss IH]; intros [|i]; simpl; intros Hi Hs; [done..| |].
  - injection Hi as ->. by rewrite Hs.
  - rewrite (IH i Hi Hs). by destruct (P t), (P s').
Qed.

Lemma skip_explained_insert ss i s s' :
  ss !! i = Some s -> pending_phase s -> skip_explained ss ->
  (has_phase ChainRunStepPhaseSkipped s' = true ->
   existsb (has_phase ChainRunStepPhaseFailed) ss = true) ->
  skip_explained (<[i:=s']> ss).
Proof.
  unfold skip_explained. intros Hi Hp Hss Hs'.
  assert (has_phase ChainRunStepPhaseSkipped s = false /\
          has_phase ChainRunStepPhaseFailed s = false) as [H1 H2]
    by (unfold has_phase, pending_phase in *; by rewrite Hp).
  rewrite !(existsb_insert _ _ _ s) by done. intros [H|H]%orb_true_iff; apply orb_true_iff; auto.
Qed.

Lemma start_at_skip a cr defs l i :
  skip_explained (lp_steps l) -> skip_explained (lp_steps (start_at a cr defs l i)).
Proof.
  intros H. unfold start_at. destruct (lp_steps l !! i) as [s|] eqn:Hi; [|done].
  destruct (has_phase ChainRunStepPhasePending s) eqn:Hp; [|done]. cbn [negb].
  assert (pending_phase s) by (unfold has_phase in Hp; by breflect).
  repeat case_match; try done; cbn [lp_steps]; by eapply skip_explained_insert.
Qed.

Lemma propagate_at_skip defs acc i :
  skip_explained acc.1 -> skip_explained (propagate_at defs acc i).1.
Proof.
  destruct acc as [ss ch]. intros H. unfold propagate_at.
  destruct (ss !! i) as [s|] eqn:Hi; [|done].
  destruct (has_phase ChainRunStepPhasePending s) eqn:Hp; [|done]. cbn [negb].
  assert (pending_phase s) by (unfold has_phase in Hp; by breflect).
  destruct (stepDef defs (ss_Name s)) as [def|]; [|done].
  destruct (blocking_dep ss (DependsOn def)) as [[d p]|] eqn:Hb; [|done].
  apply blocking_dep_Some in Hb as (_ & t & [Ht _]%stepStatus_Some & Hbt & _).
  cbn [fst]. eapply skip_explained_insert; [done..|]. intros _.
  unfold is_blocking in Hbt. apply orb_true_iff in Hbt as [Hf|Hs];
    [|apply H]; apply existsb_elem; eauto.
Qed.

Lemma propagate_skip fuel defs ss u :
  skip_explained ss -> skip_explained (propagate fuel defs ss u).1.
Proof.
  revert ss u. induction fuel as [|fuel IH]; intros ss u H; [done|]. simpl.
  assert (skip_explained (propagate_pass defs ss).1) as Hp.
  { unfold propagate_pass. apply foldl_ind; [done|]. intros acc i _. apply propagate_at_skip. }
  destruct (propagate_pass defs ss) as [ss' [|]]; [by apply IH|done].
Qed.

Lemma synced_skip ss ss' : Forall2 synced ss ss' -> skip_explained ss -> skip_explained ss'.
Proof.
  unfold skip_explained. intros H.
  assert (existsb (has_phase ChainRunStepPhaseSkipped) ss' =
          existsb (has_phase ChainRunStepPhaseSkipped) ss) as ->.
  { induction H as [|s s' ss ss' [_ Hs] _ IH]; [done|]. simpl. rewrite IH. f_equal.
    destruct Hs as [->|[Hr Hs]]; [done|]. unfold has_phase. rewrite Hr.
    set_unfold. by destruct Hs as [->|[->|[]]]. }
  intros Hss Hsk. specialize (Hss Hsk). clear Hsk.
  induction H as [|s s' ss ss' [_ Hs] _ IH]; [done|]. simpl in *.
  apply orb_true_iff. apply orb_true_iff in Hss as [Hf|Hf]; [left|by right; apply IH].
  destruct Hs as [->|[Hr _]]; [done|]. unfold has_phase in Hf. by rewrite Hr in Hf.
Qed.

Lemma advance_skip a cr defs :
  skip_explained (crs_Steps (cr_Status cr)) ->
  skip_explained (crs_Steps (advance a cr defs).1.1).
Proof.
  intros H. unfold advance.
  pose proof (synced_skip _ _ (sync_steps_synced a _) H) as Hs.
  destruct (sync_steps a (crs_Steps (cr_Status cr))) as [ss1 u1]. simpl in Hs.
  set (l := start_steps a cr defs _).
  assert (skip_explained (lp_steps l)) as Hl.
  { unfold l, start_steps. apply foldl_ind; [done|]. intros l' i _. apply start_at_skip. }
  pose proof (propagate_skip (S (length (lp_steps l))) defs _ (lp_updated l) Hl) as Hp.
  destruct (propagate _ defs _ _) as [ss3 u3]. simpl in Hp.
  rewrite (surjective_pairing (finish _ _ ss3 u3)). simpl. by rewrite finish_steps.
Qed.

Lemma finish_success now st ss u :
  crs_Phase st <> ChainRunPhaseSucceeded ->
  Forall (fun s => known_phase (ss_Phase s)) ss -> skip_explained ss ->
  crs_Phase (finish now st ss u).1 = ChainRunPhaseSucceeded ->
  Forall (fun s => ss_Phase s = ChainRunStepPhaseSucceeded) ss.
Proof.
  intros Hst Hk Hsk. unfold finish.
  destruct (existsb is_active ss) eqn:Ha; [done|]. simpl.
  destruct (existsb (has_phase ChainRunStepPhaseFailed) ss) eqn:Hf; [done|]. intros _.
  assert (existsb (has_phase ChainRunStepPhaseSkipped) ss = false) as Hs.
  { destruct (existsb (has_phase ChainRunStepPhaseSkipped) ss) eqn:E; [|done].
    apply Hsk in E. congruence. }
  rewrite existsb_elem_false in Ha, Hf, Hs. rewrite Forall_forall in *.
  intros s Hin. specialize (Ha s Hin). specialize (Hf s Hin). specialize (Hs s Hin).
  specialize (Hk s Hin). unfold known_phase, is_active, has_phase in *. breflect. set_solver.
Qed.

Section life.
Context (range : gmap string Z -> list (string * Z)).
Hypothesis range_perm : forall m, range m ≡ₚ map_to_list m.

Lemma store_status_ok a cr new effs r :
  status_ok (cr_Status cr) -> status_ok (cr_Status new) ->
  status_ok (cr_Status (out_cr (store a cr new effs r))).
Proof. unfold store. by destruct (api_update a). Qed.

Lemma advance_status_ok a cr defs st' effs u :
  terminal_phase (crs_Phase (cr_Status cr)) = false ->
  crs_Steps (cr_Status cr) <> [] ->
  status_ok (cr_Status cr) -> advance a cr defs = (st', effs, u) -> status_ok st'.
Proof.
  intros Ht Hne [Hn Hk Hsk _] Ha.
  pose proof (advance_names _ _ _ _ _ _ Hn Ha) as Hn'.
  pose proof (advance_known _ _ _ _ _ _ Hn Hk Ha) as Hk'.
  pose proof (advance_skip a cr defs Hsk) as Hsk'. rewrite Ha in Hsk'. simpl in Hsk'.
  destruct (advance_spec _ _ _ _ _ _ Hn Ha) as (ss2 & [_ _ _ _ [u' Hfin]]).
  split; [by rewrite Hn'|done|done|]. intros Hph. split.
  - intros He. rewrite He in Hn'. destruct (crs_Steps (cr_Status cr)); done.
  - eapply finish_success; [|done..|by rewrite Hfin].
    intros Heq. rewrite Heq in Ht. done.
Qed.

Lemma reconcile_status_ok a cr :
  status_ok (cr_Status cr) -> status_ok (cr_Status (out_cr (Reconcile range a cr))).
Proof.
  intros Hok. unfold Reconcile, reconcile_deleted, reconcile_live.
  destruct (cr_Deleted cr).
  { case_bool_decide; [by apply store_status_ok|done]. }
  destruct (negb (bool_decide _)).
  { by apply store_status_ok. }
  destruct (terminal_phase _) eqn:Ht; [done|].
  assert (forall msg, status_ok (fail_status (cr_Status cr) msg)) as Hfail.
  { intros msg. destruct Hok. by split. }
  destruct (api_chain a (cr_ChainRef cr)) as [defs| |e].
  2-3: apply store_status_ok; [done|]; apply Hfail.
  destruct (ValidateChainDAG range defs) as [[]|e] eqn:Ev.
  2: { apply store_status_ok; [done|]. apply Hfail. }
  destruct (crs_Steps (cr_Status cr)) as [|s0 ss0] eqn:Es.
  - apply store_status_ok; [done|]. cbn [cr_Status with_status].
    split; cbn [init_status crs_Steps crs_Phase]; [| | |done].
    + unfold status_names. rewrite <- list_fmap_compose.
      by apply (ValidateChainDAG_NoDup range range_perm).
    + apply Forall_fmap, Forall_true. intros d. unfold known_phase; simpl. set_solver.
    + unfold skip_explained. intros H. apply existsb_elem in H as (x & Hx & Hp).
      apply list_elem_of_fmap in Hx as (d & -> & _). done.
  - destruct (advance a cr defs) as [[st' effs] u] eqn:Ea.
    destruct u; [|done]. apply store_status_ok; [done|].
    eapply advance_status_ok; [done| |done..]. by rewrite Es.
Qed.

Lemma reachable_status_ok cr : reachable range cr -> status_ok (cr_Status cr).
Proof.
  induction 1 as [cr H|a cr _ IH|cr _ IH]; [|by apply reconcile_status_ok|done].
  rewrite H. split; simpl; [constructor|constructor| |done]. done.
Qed.
End life.

(** A ChainRun that was submitted and then reconciled any number of times,
    whatever the API server answered (failed calls, and edits of the Chain, too)
    keeps one status per step name and only the documented step phases; a step is
    skipped only if some step failed; and the run is reported as succeeded only
    when it has steps and every one of them succeeded. *)
Theorem chain_run_invariant (range : gmap string Z -> list (string * Z))
    (range_perm : forall m, range m ≡ₚ map_to_list m) (cr : ChainRun)
    (Hreach : reachable range cr) :
  let ss := crs_Steps (cr_Status cr) in
  NoDup (status_names ss) /\
  Forall (fun s => known_phase (ss_Phase s)) ss /\
  (existsb (has_phase ChainRunStepPhaseSkipped) ss = true ->
   existsb (has_phase ChainRunStepPhaseFailed) ss = true) /\
  (crs_Phase (cr_Status cr) = ChainRunPhaseSucceeded ->
   ss <> [] /\ Forall (fun s => ss_Phase s = ChainRunStepPhaseSucceeded) ss).
Proof.
  destruct (reachable_status_ok range range_perm cr Hreach). by split_and!.
Qed.

(** [n] reconciles in a row against the same API answers. *)
Fixpoint reconciles (range : gmap string Z -> list (string * Z)) (a : api) (n : nat)
    (cr : ChainRun) : ChainRun :=
  match n with
  | 0 => cr
  | S n => reconciles range a n (out_cr (Reconcile range a cr))
  end.

(** A live ChainRun with the finalizer that has not got any step yet. *)
Definition uninitialised (cr : ChainRun) : Prop :=
  cr_Deleted cr = false /\ chainFinalizerName ∈ cr_Finalizers cr /\
  terminal_phase (crs_Phase (cr_Status cr)) = false /\ crs_Steps (cr_Status cr) = [].

Lemma reconcile_empty range a cr :
  api_chain a (cr_ChainRef cr) = Found [] -> uninitialised cr ->
  ValidateChainDAG range [] = Ok tt ->
  let out := Reconcile range a cr in
  uninitialised (out_cr out) /\ cr_ChainRef (out_cr out) = cr_ChainRef cr /\
  out_effects out = [].
Proof.
  intros Hc (Hd & Hf & Ht & Hs) Hv. unfold Reconcile, reconcile_live.
  rewrite Hd, bool_decide_eq_true_2 by done. simpl. rewrite Ht, Hc, Hv, Hs.
  unfold store. destruct (api_update a); by split_and!.
Qed.

(** A ChainRun of a chain with no steps is never finished: [len(Steps) == 0]
    stands for "not initialised", so every reconcile initialises it again, and no
    number of reconciles gives it a terminal phase or starts anything. *)
Theorem empty_chain_never_finishes (range : gmap string Z -> list (string * Z))
    (range_perm : forall m, range m ≡ₚ map_to_list m) (a : api) (cr : ChainRun)
    (Hchain : api_chain a (cr_ChainRef cr) = Found []) (Hnew : uninitialised cr) (n : nat) :
  terminal_phase (crs_Phase (cr_Status (reconciles range a n cr))) = false /\
  out_effects (Reconcile range a (reconciles range a n cr)) = [].
Proof.
  assert (ValidateChainDAG range [] = Ok tt) as Hv.
  { apply ValidateChainDAG_valid; [done|]. split; [apply NoDup_nil_2|intros ? ?; set_solver|].
    intros m Hm. assert (exists k, depends [] m k) as (k & def & Hdef & _)
      by (inversion Hm; eauto). set_solver. }
  revert cr Hchain Hnew. induction n as [|n IH]; intros cr Hc Hn; simpl.
  - split; [apply Hn|]. by apply reconcile_empty.
  - destruct (reconcile_empty range a cr Hc Hn Hv) as (Hn' & Hr & _).
    apply IH; [by rewrite Hr|done].
Qed.

Definition with_update (a : api) (r : result unit) : api :=
  {| api_chain := api_chain a; api_run := api_run a; api_template := api_template a;
     api_create := api_create a; api_set_owner := api_set_owner a;
     api_update := r; api_now := api_now a |}.

(** Child runs are created before the status that records them is written,
    and under generated names.  When that write fails the error is returned, the
    stored status is the old one, and the next reconcile creates the same runs
    again. *)
Theorem failed_status_write_repeats_runs (range : gmap string Z -> list (string * Z))
    (a : api) (cr : ChainRun) (e : string) :
  let out := Reconcile range (with_update a (Err e)) cr in
  let again := Reconcile range (with_update a (Ok tt)) (out_cr out) in
  out_cr out = cr /\ created (out_effects again) = created (out_effects out).
Proof.
  cbn zeta.
  assert (forall old new effs r, out_cr (store (with_update a (Err e)) old new effs r) = old)
    as Hold by done.
  assert (out_cr (Reconcile range (with_update a (Err e)) cr) = cr) as ->.
  { unfold Reconcile, reconcile_deleted, reconcile_live.
    repeat case_match; rewrite ?Hold; done. }
  split; [done|]. f_equal. unfold Reconcile, reconcile_deleted, reconcile_live.
  cbn [with_update api_chain api_run api_now].
  change (advance (with_update a (Ok tt)) cr) with (advance (with_update a (Err e)) cr).
  change (deletions (with_update a (Ok tt))) with (deletions (with_update a (Err e))).
  repeat case_match; done.
Qed.

(** ** Witnesses: a diamond-shaped chain whose first step has been started *)

Definition template_of (n : string) : RunTemplate :=
  {| tmpl_Name := n;
     tmpl_Spec := {| ts_DisplayName := ""; ts_Description := ""; ts_ProjectRef := "p";
       ts_Repos := [{| repo_URL := "u"; repo_Branch := "main"; repo_Path := "" |}];
       ts_Prompt := "do"; ts_ModelTier := ""; ts_ManageModelTier := "";
       ts_ImplementModelTier := ""; ts_OrchestrationMode := "single"; ts_TTLSeconds := 60%Z;
       ts_AutoPush := false; ts_AutoPR := false; ts_PRBaseBranch := ""; ts_SpecRef := "" |};
     tmpl_Status := {| tt_LastTriggeredAt := None; tt_RunCount := 0%Z |} |}.

(** The Chain is [defs], every AgentRun that is asked for is in [phase], and
    every write is accepted. *)
Definition api_example (defs : list ChainStep) (phase : AgentRunPhase) : api :=
  {| api_chain := fun _ => Found defs;
     api_run := fun n => Found {| ar_Name := n; ar_Spec := nr_Spec (step_run
         {| api_chain := fun _ => NotFound; api_run := fun _ => NotFound;
            api_template := fun _ => NotFound; api_create := fun _ => Ok "";
            api_set_owner := true; api_update := Ok tt; api_now := 0%Z |}
         {| cr_Name := ""; cr_Namespace := ""; cr_Deleted := false; cr_Finalizers := [];
            cr_ChainRef := ""; cr_TriggeredBy := "";
            cr_Status := {| crs_Phase := ""; crs_Steps := []; crs_StartedAt := None;
                            crs_CompletedAt := None; crs_Message := "" |} |}
         [] (mk_step "x" []) (tmpl_Spec (template_of "t")));
       ar_Status := {| as_Phase := phase; as_Message := "m"; as_LogOutput := "" |} |};
     api_template := fun n => Found (template_of n);
     api_create := fun _ => Ok "ar-1";
     api_set_owner := true; api_update := Ok tt; api_now := 7%Z |}.

Definition new_chain_run : ChainRun :=
  {| cr_Name := "cr"; cr_Namespace := "ns"; cr_Deleted := false;
     cr_Finalizers := [chainFinalizerName]; cr_ChainRef := "c"; cr_TriggeredBy := "";
     cr_Status := {| crs_Phase := ""; crs_Steps := []; crs_StartedAt := None;
                     crs_CompletedAt := None; crs_Message := "" |} |}.

Definition with_diamond : api := api_example diamond AgentRunPhaseSucceeded.

(** The diamond run after [n] reconciles. *)
Definition diamond_run (n : nat) : ChainRun :=
  reconciles map_to_list with_diamond n new_chain_run.

Example diamond_run_succeeds :
  (crs_Phase (cr_Status (diamond_run 5)),
   ss_Phase <$> crs_Steps (cr_Status (diamond_run 5))) =
  (ChainRunPhaseSucceeded, replicate 4 ChainRunStepPhaseSucceeded).
Proof. vm_compute. reflexivity. Qed.

Example diamond_run_fails :
  ss_Phase <$> crs_Steps (cr_Status (reconciles map_to_list
    (api_example diamond AgentRunPhaseFailed) 3 new_chain_run)) =
  [ChainRunStepPhaseSkipped; ChainRunStepPhaseSkipped; ChainRunStepPhaseSkipped;
   ChainRunStepPhaseFailed].
Proof. vm_compute. reflexivity. Qed.

Lemma diamond_valid : valid_chain diamond.
Proof. by apply (ValidateChainDAG_valid map_to_list); [|vm_compute]. Qed.

Lemma chain_step_starts_after_deps_witness :
  let effs := out_effects (Reconcile map_to_list with_diamond (diamond_run 2)) in
  "b" ∈ created effs /\ NoDup (created effs).
Proof.
  assert ("b" ∈ created (out_effects (Reconcile map_to_list with_diamond (diamond_run 2))))
    as Hb by (apply (bool_decide_unpack _); vm_compute; exact I).
  split; [exact Hb|].
  apply (chain_step_starts_after_deps map_to_list (fun m => reflexivity _)
    with_diamond (diamond_run 2)) with (n := "b"); [|exact Hb].
  apply (bool_decide_unpack _). vm_compute. exact I.
Defined.

Lemma chain_run_progress_witness :
  let st := cr_Status (out_cr (Reconcile map_to_list with_diamond (diamond_run 3))) in
  existsb (has_phase ChainRunStepPhaseRunning) (crs_Steps st) = true \/
  (existsb is_active (crs_Steps st) = false /\ terminal_phase (crs_Phase st) = true).
Proof.
  apply (chain_run_progress map_to_list (fun m => reflexivity _) with_diamond
    (diamond_run 3) diamond); [|reflexivity|exact diamond_valid| |reflexivity].
  - apply (bool_decide_unpack _). vm_compute. exact I.
  - split; [vm_compute; discriminate|].
    split; [vm_compute; reflexivity|]. unfold known_phase.
    apply (bool_decide_unpack _). vm_compute. exact I.
Defined.

Lemma chain_run_invariant_witness :
  Forall (fun s => ss_Phase s = ChainRunStepPhaseSucceeded)
    (crs_Steps (cr_Status (diamond_run 5))).
Proof.
  assert (reachable map_to_list (diamond_run 5)) as Hr.
  { unfold diamond_run. simpl. do 5 apply reach_reconcile. by apply reach_new. }
  apply (chain_run_invariant map_to_list (fun m => reflexivity _) (diamond_run 5) Hr).
  vm_compute. reflexivity.
Defined.

Lemma empty_chain_never_finishes_witness :
  terminal_phase (crs_Phase (cr_Status (reconciles map_to_list
    (api_example [] AgentRunPhaseSucceeded) 3 new_chain_run))) = false.
Proof.
  apply (empty_chain_never_finishes map_to_list (fun m => reflexivity _)
    (api_example [] AgentRunPhaseSucceeded) new_chain_run); [reflexivity|].
  split; [reflexivity|]. split; [|split; reflexivity].
  apply (bool_decide_unpack _). vm_compute. exact I.
Defined.
