(* ===== verification/GoUrl.v ===== *)
(** * Go's IP addresses and URLs: [net/netip.ParseAddr], [net.ParseIP], the classes of [net.IP] and [net/url].

    [url_Parse] follows [url.Parse] of Go's standard library for the parts of a
    URL the repository reads: scheme, opaque part, host and path.  It is the parser of
    Go 1.26, which refuses colons and brackets in odd places of a host. *)

From S2P Require Import Prelude GoStrings.
Local Open Scope Z_scope.

(** A decimal field of an IPv4 address: no sign, no leading zero, at most 255. *)
Definition octet (s : string) : option Z :=
  match s with
  | "" => None
  | String "0"%char (String _ _) => None
  | _ => v ← digits_val 0 s; if v <=? 255 then Some v else None
  end.

Definition parseIPv4 (s : string) : option (list Z) :=
  match Split s "."%char with
  | [a; b; c; d] => a ← octet a; b ← octet b; c ← octet c; d ← octet d; Some [a; b; c; d]
  | _ => None
  end.

Definition hex_digit_val (c : Ascii.ascii) : option Z :=
  if is_digit c then Some (Z.of_N (code c) - 48)
  else if in_range 97 102 c then Some (Z.of_N (code c) - 87)
  else if in_range 65 70 c then Some (Z.of_N (code c) - 55)
  else None.

(** A field of hexadecimal digits at the front: its value, the number of digits, the rest. *)
Fixpoint hex_field (acc : Z) (n : nat) (s : string) : Z * nat * string :=
  match s with
  | "" => (acc, n, "")
  | String c t => match hex_digit_val c with
                  | Some v => hex_field (acc * 16 + v) (S n) t
                  | None => (acc, n, s)
                  end
  end.

(** The fields of an IPv6 address: the bytes so far, and how many of them come before the
    double colon. *)
Fixpoint v6_fields (fuel : nat) (bytes : list Z) (ellipsis : option nat) (s : string)
  : option (list Z * option nat) :=
  match fuel with
  | 0%nat => None
  | S fuel =>
      if (16 <=? length bytes)%nat then (if String.eqb s "" then Some (bytes, ellipsis) else None)
      else
      let '(v, n, rest) := hex_field 0 0 s in
      if (n =? 0)%nat || (4 <? n)%nat then None
      else match rest with
      | String "."%char _ =>
          if (match ellipsis with None => negb (length bytes =? 12)%nat | Some _ => false end)
             || (16 <? length bytes + 4)%nat then None
          else v4 ← parseIPv4 s; Some (bytes ++ v4, ellipsis)
      | _ =>
          let bytes := bytes ++ [Z.shiftr v 8; Z.land v 255] in
          match rest with
          | "" => Some (bytes, ellipsis)
          | String ":"%char "" => None
          | String ":"%char (String ":"%char t) =>
              match ellipsis with
              | Some _ => None
              | None => if String.eqb t "" then Some (bytes, Some (length bytes))
                        else v6_fields fuel bytes (Some (length bytes)) t
              end
          | String ":"%char t => v6_fields fuel bytes ellipsis t
          | _ => None
          end
      end
  end.

(** An IPv6 address without its zone. *)
Definition v6_body (s : string) : option (list Z) :=
  '(bytes, ellipsis) ←
    (if String.eqb s "::" then Some ([], Some 0%nat)
     else if HasPrefix s "::" then v6_fields 9 [] (Some 0%nat) (str_drop 2 s)
     else v6_fields 9 [] None s);
  match ellipsis with
  | None => if (length bytes =? 16)%nat then Some bytes else None
  | Some i => if (length bytes <? 16)%nat
              then Some (take i bytes ++ replicate (16 - length bytes) 0 ++ drop i bytes) else None
  end.

(** An address: 4 or 16 bytes, and a zone. *)
Record addr := { ip_bytes : list Z; ip_zone : string }.

Definition is4 (a : addr) : bool := (length (ip_bytes a) =? 4)%nat.

(** The first of [.], [:] and [%]. *)
Definition kind_of (s : string) : option Ascii.ascii :=
  List.find (char_in ".:%") (String.list_ascii_of_string s).

(** [netip.ParseAddr] *)
Definition ParseAddr (s : string) : option addr :=
  match kind_of s with
  | Some "."%char => b ← parseIPv4 s; Some {| ip_bytes := b; ip_zone := "" |}
  | Some ":"%char =>
      let '(body, zone, found) := Cut s "%" in
      if found && String.eqb zone "" then None
      else b ← v6_body body; Some {| ip_bytes := b; ip_zone := zone |}
  | _ => None
  end.

(** [net.ParseIP]: no zone. *)
Definition ParseIP (s : string) : option (list Z) :=
  a ← ParseAddr s; if String.eqb (ip_zone a) "" then Some (ip_bytes a) else None.

(** ** Classes of addresses *)

(** [To4]: the IPv4 address, also of an IPv4-mapped one. *)
Definition To4 (ip : list Z) : option (list Z) :=
  match ip with
  | [_; _; _; _] => Some ip
  | [0; 0; 0; 0; 0; 0; 0; 0; 0; 0; 255; 255; a; b; c; d] => Some [a; b; c; d]
  | _ => None
  end.

Definition byte_at (ip : list Z) (i : nat) : Z := nth i ip 0.

Definition by_family (v4 v6 : list Z -> bool) (ip : list Z) : bool :=
  match To4 ip with
  | Some b => v4 b
  | None => (length ip =? 16)%nat && v6 ip
  end.

Definition IsLoopback : list Z -> bool :=
  by_family (fun b => byte_at b 0 =? 127) (fun b => bool_decide (b = replicate 15 0 ++ [1])).
Definition IsUnspecified : list Z -> bool :=
  by_family (fun b => bool_decide (b = [0; 0; 0; 0])) (fun b => bool_decide (b = replicate 16 0)).
Definition IsPrivate : list Z -> bool :=
  by_family
    (fun b => (byte_at b 0 =? 10) || (byte_at b 0 =? 172) && (Z.land (byte_at b 1) 240 =? 16)
              || (byte_at b 0 =? 192) && (byte_at b 1 =? 168))
    (fun b => Z.land (byte_at b 0) 254 =? 252).
Definition IsLinkLocalUnicast : list Z -> bool :=
  by_family (fun b => (byte_at b 0 =? 169) && (byte_at b 1 =? 254))
    (fun b => (byte_at b 0 =? 254) && (Z.land (byte_at b 1) 192 =? 128)).
Definition IsMulticast : list Z -> bool :=
  by_family (fun b => Z.land (byte_at b 0) 240 =? 224) (fun b => byte_at b 0 =? 255).
Definition IsLinkLocalMulticast : list Z -> bool :=
  by_family (fun b => (byte_at b 0 =? 224) && (byte_at b 1 =? 0) && (byte_at b 2 =? 0))
    (fun b => (byte_at b 0 =? 255) && (Z.land (byte_at b 1) 15 =? 2)).

Example ip_ex :
  ParseIP "127.0.0.1" = Some [127; 0; 0; 1] /\ ParseIP "1.2.3" = None /\ ParseIP "01.2.3.4" = None /\
  ParseIP "::1" = Some (replicate 15 0 ++ [1]) /\ ParseIP "::" = Some (replicate 16 0) /\
  ParseIP "2001:db8::8:800:200c:417a" =
    Some [32; 1; 13; 184; 0; 0; 0; 0; 0; 8; 8; 0; 32; 12; 65; 122] /\
  ParseIP "::ffff:10.0.0.1" = Some [0; 0; 0; 0; 0; 0; 0; 0; 0; 0; 255; 255; 10; 0; 0; 1] /\
  ParseIP "1::2::3" = None /\ ParseIP "1:2:3:4:5:6:7:8:9" = None /\ ParseIP "fe80::1%eth0" = None /\
  ParseIP "example.com" = None /\ ParseIP "1:2:3:4:5:6:7::" = Some [0;1;0;2;0;3;0;4;0;5;0;6;0;7;0;0].
Proof. vm_compute. repeat split. Qed.

(** * URLs *)

Local Close Scope Z_scope.

Record URL := { u_Scheme : string; u_Opaque : string; u_Host : string; u_Path : string }.

Inductive encoding := EncodePath | EncodeHost | EncodeZone | EncodeUser | EncodeFragment.

Definition hex_value (c : Ascii.ascii) : option N :=
  if is_digit c then Some (code c - 48)%N
  else if in_range 97 102 c then Some (code c - 87)%N
  else if in_range 65 70 c then Some (code c - 55)%N
  else None.

Definition is_alnum (c : Ascii.ascii) : bool := is_digit c || is_upper c || is_lower c.

(** A byte a host may hold unescaped. *)
Definition host_char (c : Ascii.ascii) : bool :=
  is_alnum c || char_in "-_.~!$&'()*+,;=:[]<>" c || (code c =? 34)%N.

(** Whether the escape of value [v] is refused in a host or a zone. *)
Definition bad_escape (m : encoding) (hi : N) (v : N) : bool :=
  match m with
  | EncodeHost => (hi <? 8)%N && negb (v =? 37)%N
  | EncodeZone => negb (v =? 37)%N && negb (v =? 32)%N && negb (host_char (Ascii.ascii_of_N v))
  | _ => false
  end.

Definition escape_error (s : string) : string := "invalid URL escape " +:+ Quote (str_take 3 s).

Fixpoint unescape (m : encoding) (s : string) : result string :=
  match s with
  | EmptyString => Ok ""
  | String "%" rest =>
      match rest with
      | String a (String b rest) =>
          match hex_value a, hex_value b with
          | Some hi, Some lo =>
              let v := (hi * 16 + lo)%N in
              if bad_escape m hi v then Err (escape_error s)
              else match unescape m rest with
                   | Ok t => Ok (String (Ascii.ascii_of_N v) t)
                   | Err e => Err e
                   end
          | _, _ => Err (escape_error s)
          end
      | _ => Err (escape_error s)
      end
  | String c rest =>
      if match m with EncodeHost | EncodeZone => true | _ => false end
         && (code c <? 128)%N && negb (host_char c)
      then Err ("invalid character " +:+ Quote (String c "") +:+ " in host name")
      else match unescape m rest with
           | Ok t => Ok (String c t)
           | Err e => Err e
           end
  end.

(** A colon followed by digits, or nothing. *)
Definition validOptionalPort (p : string) : bool :=
  match p with
  | EmptyString => true
  | String ":" ds => negb (str_exists (fun c => negb (is_digit c)) ds)
  | _ => false
  end.

Definition port_error (p : string) : string := "invalid port " +:+ Quote p +:+ " after host".

(** The host between brackets has to be an IPv6 address. *)
Definition bracketHost (hostname : string) : result string :=
  let unescaped :=
    match Index hostname "%25" with
    | Some z =>
        match unescape EncodeHost (str_take z hostname), unescape EncodeZone (str_drop z hostname) with
        | Ok a, Ok b => Ok (a +:+ b)
        | Err e, _ | _, Err e => Err e
        end
    | None => unescape EncodeHost hostname
    end in
  match unescaped with
  | Err e => Err e
  | Ok h => match ParseAddr h with
            | None => Err "invalid host"
            | Some a => if is4 a then Err "invalid IP-literal" else Ok h
            end
  end.

Definition parseHost (host : string) : result string :=
  match LastIndex host "[" with
  | Some (S _) => Err "invalid IP-literal"
  | Some 0 =>
    match LastIndex host "]" with
    | None => Err "missing ']' in host"
    | Some i =>
        let colonPort := str_drop (S i) host in
        if negb (validOptionalPort colonPort) then Err (port_error colonPort)
        else match unescape EncodeHost colonPort, bracketHost (str_drop 1 (str_take i host)) with
             | Ok port, Ok h => Ok ("[" +:+ h +:+ "]" +:+ port)
             | Err e, _ | _, Err e => Err e
             end
    end
  | None =>
    match Index host ":" with
    | Some i =>
        if negb (validOptionalPort (str_drop i host)) then Err (port_error (str_drop i host))
        else unescape EncodeHost host
    | None => unescape EncodeHost host
    end
  end.

Definition user_char (c : Ascii.ascii) : bool := is_alnum c || char_in "-._:~!$&'()*+,;=%@" c.

Definition parseAuthority (authority : string) : result string :=
  match LastIndex authority "@" with
  | None => parseHost authority
  | Some i =>
      match parseHost (str_drop (S i) authority) with
      | Err e => Err e
      | Ok host =>
          let userinfo := str_take i authority in
          let '(username, password, _) := Cut userinfo ":" in
          if str_exists (fun c => negb (user_char c)) userinfo then Err "net/url: invalid userinfo"
          else match unescape EncodeUser username, unescape EncodeUser password with
          | Ok _, Ok _ => Ok host
          | Err e, _ | _, Err e => Err e
          end
      end
  end.

(** The scheme before the first colon, and the rest. *)
Fixpoint getScheme (i : nat) (s : string) : result (string * string) :=
  match s with
  | EmptyString => Ok ("", "")
  | String c rest =>
      if is_upper c || is_lower c || (negb (i =? 0) && (is_digit c || char_in "+-." c)) then
        match getScheme (S i) rest with
        | Ok (sch, "") => Ok (String c sch, "")
        | Ok (sch, r) => Ok (String c sch, r)
        | Err e => Err e
        end
      else if (code c =? 58)%N then
        if i =? 0 then Err "missing protocol scheme" else Ok ("", String c rest)
      else Ok ("", s)
  end.

(** [getScheme]: no scheme unless a colon ends it. *)
Definition split_scheme (s : string) : result (string * string) :=
  match getScheme 0 s with
  | Err e => Err e
  | Ok (sch, String ":" rest) => Ok (sch, rest)
  | Ok _ => Ok ("", s)
  end.

Definition count_char (a : Ascii.ascii) (s : string) : nat :=
  length (List.filter (Ascii.eqb a) (String.list_ascii_of_string s)).

(** [parse]: a URL without its fragment. *)
Definition parse_url (raw : string) : result URL :=
  if str_exists (fun c => (code c <? 32)%N || (code c =? 127)%N) raw
  then Err "net/url: invalid control character in URL"
  else if String.eqb raw "*" then Ok {| u_Scheme := ""; u_Opaque := ""; u_Host := ""; u_Path := "*" |}
  else match split_scheme raw with
  | Err e => Err e
  | Ok (sch, rest) =>
      let sch := ToLower sch in
      let rest := if HasSuffix rest "?" && (count_char "?" rest =? 1)
                  then str_take (String.length rest - 1) rest
                  else (Cut rest "?").1.1 in
      let with_path host p :=
        match unescape EncodePath p with
        | Ok path => Ok {| u_Scheme := sch; u_Opaque := ""; u_Host := host; u_Path := path |}
        | Err e => Err e
        end in
      if negb (HasPrefix rest "/") && negb (String.eqb sch "") then
        Ok {| u_Scheme := sch; u_Opaque := rest; u_Host := ""; u_Path := "" |}
      else if negb (HasPrefix rest "/") && Contains (Cut rest "/").1.1 ":" then
        Err "first path segment in URL cannot contain colon"
      else if (negb (String.eqb sch "") || negb (HasPrefix rest "///")) && HasPrefix rest "//" then
        let authority := str_drop 2 rest in
        let '(authority, rest) :=
          match Index authority "/" with
          | Some i => (str_take i authority, str_drop i authority)
          | None => (authority, "")
          end in
        match parseAuthority authority with
        | Ok host => with_path host rest
        | Err e => Err e
        end
      else with_path "" rest
  end.

Definition url_Parse (raw : string) : result URL :=
  let fail e := Err ("parse " +:+ Quote raw +:+ ": " +:+ e) in
  let '(u, frag, _) := Cut raw "#" in
  match parse_url u with
  | Err e => Err ("parse " +:+ Quote u +:+ ": " +:+ e)
  | Ok url =>
      match unescape EncodeFragment frag with
      | Ok _ => Ok url
      | Err e => fail e
      end
  end.

Definition url_path (raw : string) : option string :=
  match url_Parse raw with Ok u => Some (u_Path u) | Err _ => None end.

(** [u.Hostname()]: the host without its port and its brackets. *)
Definition Hostname (u : URL) : string :=
  let host := u_Host u in
  let host := match LastIndex host ":" with
              | Some i => if validOptionalPort (str_drop i host) then str_take i host else host
              | None => host
              end in
  if HasPrefix host "[" && HasSuffix host "]"
  then str_drop 1 (str_take (String.length host - 1) host) else host.

Example https_url : url_path "https://github.com/o/r.git?x=1#f" = Some "/o/r.git".
Proof. vm_compute. reflexivity. Qed.
Example ssh_url : url_path "git@github.com:o/r.git" = None.
Proof. vm_compute. reflexivity. Qed.
Example plain_path : url_path "a/b%20c" = Some "a/b c".
Proof. vm_compute. reflexivity. Qed.
Example opaque_url : url_path "mailto:x" = Some "".
Proof. vm_compute. reflexivity. Qed.
Example user_port : url_path "ssh://git@h:22/o/r" = Some "/o/r".
Proof. vm_compute. reflexivity. Qed.
Example bad_port : url_path "ssh://git@h:o/r" = None.
Proof. vm_compute. reflexivity. Qed.
Example bad_escape_url : url_path "http://h/%zz" = None.
Proof. vm_compute. reflexivity. Qed.
Example hostnames :
  (fun r => match url_Parse r with Ok u => Some (Hostname u) | Err _ => None end) <$>
    ["https://a.b:8/x"; "https://[::1]:8/"; "https://[fe80::1%25eth0]/"; "https://::1/"] =
  [Some "a.b"; Some "::1"; Some "fe80::1%eth0"; None].
Proof. vm_compute. reflexivity. Qed.
