(* ===== verification/Regex.v ===== *)
(** * Regular expressions of Go's [regexp] package.

    Expressions are given as syntax trees over runes; [find] is the leftmost
    match that a backtracking search finds first, which is the match Go reports,
    with the submatches of its groups.  A string is decoded into runes the way Go
    does: an invalid byte is the rune U+FFFD of width one. *)

From S2P Require Import Prelude.

(** ** Runes *)

(** A decoded rune and the bytes it was read from. *)
Definition rune : Type := Z * string.

Definition byte_of (c : Ascii.ascii) : Z := Z.of_N (Ascii.N_of_ascii c).

(** A continuation byte of a UTF-8 sequence, within bounds. *)
Definition cont (lo hi : Z) (c : Ascii.ascii) : bool :=
  ((lo <=? byte_of c) && (byte_of c <=? hi))%Z.

Definition low6 (c : Ascii.ascii) : Z := Z.land (byte_of c) 63.

(** The first rune of a string, as [utf8.DecodeRuneInString]. *)
Definition decode_rune (s : string) : option (rune * string) :=
  match s with
  | EmptyString => None
  | String c s1 =>
      let b := byte_of c in
      let bad := Some ((65533%Z, String c ""), s1) in
      if (b <? 128)%Z then Some ((b, String c ""), s1)
      else match s1 with
      | EmptyString => bad
      | String c1 s2 =>
          if ((194 <=? b) && (b <=? 223))%Z then
            if cont 128 191 c1
            then Some ((Z.lor (Z.shiftl (Z.land b 31) 6) (low6 c1), String c (String c1 "")), s2)
            else bad
          else match s2 with
          | EmptyString => bad
          | String c2 s3 =>
              if ((224 <=? b) && (b <=? 239))%Z then
                if cont (if (b =? 224)%Z then 160 else 128) (if (b =? 237)%Z then 159 else 191) c1
                   && cont 128 191 c2
                then Some ((Z.lor (Z.shiftl (Z.land b 15) 12)
                              (Z.lor (Z.shiftl (low6 c1) 6) (low6 c2)),
                            String c (String c1 (String c2 ""))), s3)
                else bad
              else match s3 with
              | EmptyString => bad
              | String c3 s4 =>
                  if ((240 <=? b) && (b <=? 244))%Z &&
                     cont (if (b =? 240)%Z then 144 else 128) (if (b =? 244)%Z then 143 else 191) c1
                     && cont 128 191 c2 && cont 128 191 c3
                  then Some ((Z.lor (Z.shiftl (Z.land b 7) 18)
                                (Z.lor (Z.shiftl (low6 c1) 12)
                                   (Z.lor (Z.shiftl (low6 c2) 6) (low6 c3))),
                              String c (String c1 (String c2 (String c3 "")))), s4)
                  else bad
              end
          end
      end
  end.

Fixpoint runes_fuel (n : nat) (s : string) : list rune :=
  match n with
  | 0 => []
  | S n => match decode_rune s with
           | None => []
           | Some (r, s') => r :: runes_fuel n s'
           end
  end.

(** The runes of a string: each takes at least a byte. *)
Definition runes (s : string) : list rune := runes_fuel (String.length s) s.

(** [%-ns] of [fmt]: padding counts runes. *)
Definition pad (n : nat) (s : string) : string := s +:+ Nat.iter (n - length (runes s)) (String " ") "".

Definition unrunes (l : list rune) : string := foldr (fun r acc => r.2 +:+ acc) "" l.

(** ** Expressions *)

Inductive regex :=
| Eps
| Cls (p : Z -> bool)
| Cat (r s : regex)
| Alt (r s : regex)
| Star (greedy : bool) (r : regex)
| Group (i : nat) (r : regex)
| Bot
| Eot
| Bol
| Eol
| Wb.

(** The state of a match: the rune before the position, the runes after it, and
    the groups closed so far, the latest first. *)
Record mstate := {
  ms_prev : option Z; ms_rest : list rune; ms_groups : list (nat * string);
}.

Definition step (r : rune) (rest : list rune) (st : mstate) : mstate :=
  {| ms_prev := Some r.1; ms_rest := rest; ms_groups := ms_groups st |}.

Definition close (i : nat) (from : list rune) (st : mstate) : mstate :=
  {| ms_prev := ms_prev st; ms_rest := ms_rest st;
     ms_groups := (i, unrunes (take (length from - length (ms_rest st)) from)) :: ms_groups st |}.

Definition is_nl (o : option Z) : bool := match o with Some c => (c =? 10)%Z | None => true end.
Definition next_rune (st : mstate) : option Z := fst <$> head (ms_rest st).

(** An ASCII word character, as [\b] has it. *)
Definition is_word (o : option Z) : bool :=
  match o with
  | Some c => ((48 <=? c) && (c <=? 57) || (65 <=? c) && (c <=? 90) || (97 <=? c) && (c <=? 122)
               || (c =? 95))%Z
  | None => false
  end.

(** The empty-width assertions. *)
Definition assertion (r : regex) (st : mstate) : bool :=
  match r with
  | Bot => match ms_prev st with None => true | _ => false end
  | Eot => match ms_rest st with [] => true | _ => false end
  | Bol => is_nl (ms_prev st)
  | Eol => is_nl (next_rune st)
  | Wb => xorb (is_word (ms_prev st)) (is_word (next_rune st))
  | _ => false
  end.

Definition orelse {A} (a b : option A) : option A := match a with Some _ => a | None => b end.

(** Backtracking search in the order of preference of Perl and Go: left branch
    first, another iteration first for a greedy star.  Every iteration of a star
    consumes something. *)
Fixpoint rmatch {A} (r : regex) (st : mstate) (k : mstate -> option A) : option A :=
  match r with
  | Eps => k st
  | Cls p => match ms_rest st with
             | [] => None
             | c :: rest => if p c.1 then k (step c rest st) else None
             end
  | Cat r s => rmatch r st (fun st' => rmatch s st' k)
  | Alt r s => orelse (rmatch r st k) (rmatch s st k)
  | Star greedy r =>
      (fix star (n : nat) (st : mstate) : option A :=
         match n with
         | 0 => k st
         | S n =>
             let again := rmatch r st (fun st' =>
               if length (ms_rest st') <? length (ms_rest st) then star n st' else None) in
             if greedy then orelse again (k st) else orelse (k st) again
         end) (length (ms_rest st)) st
  | Group i r => rmatch r st (fun st' => k (close i (ms_rest st) st'))
  | Bot | Eot | Bol | Eol | Wb => if assertion r st then k st else None
  end.

(** A match at a position: the text matched and its groups. *)
Record found := { f_text : string; f_groups : list (nat * string); f_rest : list rune; f_prev : option Z }.

Definition match_at (r : regex) (prev : option Z) (rest : list rune) : option found :=
  rmatch r {| ms_prev := prev; ms_rest := rest; ms_groups := [] |} (fun st =>
    Some {| f_text := unrunes (take (length rest - length (ms_rest st)) rest);
            f_groups := ms_groups st; f_rest := ms_rest st; f_prev := ms_prev st |}).

Fixpoint search (r : regex) (prev : option Z) (rest : list rune) : option found :=
  match match_at r prev rest with
  | Some f => Some f
  | None => match rest with
            | [] => None
            | c :: rest => search r (Some c.1) rest
            end
  end.

(** [re.FindStringSubmatch] *)
Definition find (r : regex) (s : string) : option found := search r None (runes s).

(** [re.MatchString] *)
Definition MatchString (r : regex) (s : string) : bool :=
  match find r s with Some _ => true | None => false end.

(** Group [i] of a match, empty when the group did not take part. *)
Definition group (i : nat) (f : found) : string :=
  match List.find (fun g => Nat.eqb g.1 i) (f_groups f) with Some g => g.2 | None => "" end.

Fixpoint find_all_fuel (n : nat) (r : regex) (prev : option Z) (rest : list rune) : list found :=
  match n with
  | 0 => []
  | S n =>
      match search r prev rest with
      | None => []
      | Some f =>
          f :: (if String.eqb (f_text f) "" then
                  match f_rest f with
                  | [] => []
                  | c :: rest' => find_all_fuel n r (Some c.1) rest'
                  end
                else find_all_fuel n r (f_prev f) (f_rest f))
      end
  end.

(** [re.FindAllStringSubmatch(s, -1)]: matches that do not overlap. *)
Definition find_all (r : regex) (s : string) : list found :=
  find_all_fuel (S (length (runes s))) r None (runes s).

(** The leftmost match, with the runes before it. *)
Fixpoint search_skip (r : regex) (prev : option Z) (rest : list rune)
  : option (list rune * found) :=
  match match_at r prev rest with
  | Some f => Some ([], f)
  | None => match rest with
            | [] => None
            | c :: rest => '(skipped, f) ← search_skip r (Some c.1) rest; Some (c :: skipped, f)
            end
  end.

Fixpoint delete_fuel (n : nat) (r : regex) (prev : option Z) (rest : list rune) : string :=
  match n with
  | 0 => unrunes rest
  | S n =>
      match search_skip r prev rest with
      | None => unrunes rest
      | Some (skipped, f) => unrunes skipped +:+ delete_fuel n r (f_prev f) (f_rest f)
      end
  end.

(** [re.ReplaceAllString] with an empty replacement, for an expression with no empty match. *)
Definition delete_all (r : regex) (s : string) : string :=
  delete_fuel (length (runes s)) r None (runes s).

(** ** Building expressions *)

Definition range (lo hi : Ascii.ascii) (c : Z) : bool :=
  ((byte_of lo <=? c) && (c <=? byte_of hi))%Z.
Definition is_char (a : Ascii.ascii) (c : Z) : bool := (c =? byte_of a)%Z.
(** [(?i)] on a letter: both cases, and the rune beyond ASCII that folds to it. *)
Definition is_letter_fold (a : Ascii.ascii) (c : Z) : bool :=
  let b := byte_of a in
  ((c =? b) || (97 <=? b) && (b <=? 122) && (c =? b - 32)
   || (b =? 115) && (c =? 383) || (b =? 107) && (c =? 8490))%Z.
Definition not_nl (c : Z) : bool := negb (c =? 10)%Z.
Definition digit_class : Z -> bool := range "0" "9".
Definition space_class (c : Z) : bool :=
  ((c =? 9) || (c =? 10) || (c =? 12) || (c =? 13) || (c =? 32))%Z.
Definition one_of (s : string) (c : Z) : bool :=
  existsb (fun a => is_char a c) (String.list_ascii_of_string s).

Definition chr (a : Ascii.ascii) : regex := Cls (is_char a).
Definition Any : regex := Cls not_nl.
Fixpoint lit (s : string) : regex :=
  match s with
  | EmptyString => Eps
  | String a "" => chr a
  | String a s => Cat (chr a) (lit s)
  end.
(** A literal in lower case under [(?i)]. *)
Fixpoint lit_fold (s : string) : regex :=
  match s with
  | EmptyString => Eps
  | String a s => Cat (Cls (is_letter_fold a)) (lit_fold s)
  end.
Definition star : regex -> regex := Star true.
Definition plus (r : regex) : regex := Cat r (Star true r).
Definition opt (r : regex) : regex := Alt r Eps.
Fixpoint alts (l : list regex) : regex :=
  match l with [] => Cls (fun _ => false) | [r] => r | r :: l => Alt r (alts l) end.
Fixpoint cats (l : list regex) : regex :=
  match l with [] => Eps | [r] => r | r :: l => Cat r (cats l) end.
(** At most [n] times, as many as possible. *)
Fixpoint upto (n : nat) (r : regex) : regex :=
  match n with 0 => Eps | S n => opt (Cat r (upto n r)) end.
Definition repeat_range (lo hi : nat) (r : regex) : regex :=
  cats (replicate lo r ++ [upto (hi - lo) r]).

(** ** What the search finds *)

(** The matches of an expression, as steps from state to state. *)
Inductive den : regex -> mstate -> mstate -> Prop :=
| den_eps st : den Eps st st
| den_cls p st c rest :
    ms_rest st = c :: rest -> p c.1 = true -> den (Cls p) st (step c rest st)
| den_cat r s st1 st2 st3 : den r st1 st2 -> den s st2 st3 -> den (Cat r s) st1 st3
| den_alt_l r s st st' : den r st st' -> den (Alt r s) st st'
| den_alt_r r s st st' : den s st st' -> den (Alt r s) st st'
| den_star_stop g r st : den (Star g r) st st
| den_star_step g r st1 st2 st3 :
    den r st1 st2 -> length (ms_rest st2) < length (ms_rest st1) ->
    den (Star g r) st2 st3 -> den (Star g r) st1 st3
| den_group i r st st' : den r st st' -> den (Group i r) st (close i (ms_rest st) st')
| den_bot st : assertion Bot st = true -> den Bot st st
| den_eot st : assertion Eot st = true -> den Eot st st
| den_bol st : assertion Bol st = true -> den Bol st st
| den_eol st : assertion Eol st = true -> den Eol st st
| den_wb st : assertion Wb st = true -> den Wb st st.

Definition starf {A} (g : bool) (r : regex) (k : mstate -> option A) :=
  fix star (n : nat) (st : mstate) : option A :=
    match n with
    | 0 => k st
    | S n =>
        let again := rmatch r st (fun st' =>
          if length (ms_rest st') <? length (ms_rest st) then star n st' else None) in
        if g then orelse again (k st) else orelse (k st) again
    end.

Lemma orelse_Some {A} (a b : option A) x :
  orelse a b = Some x -> a = Some x \/ b = Some x.
Proof. destruct a; simpl; auto. Qed.

Lemma orelse_is_Some {A} (a b : option A) : is_Some a \/ is_Some b -> is_Some (orelse a b).
Proof. intros [[x ->]|[x Hx]]; [by eexists|]. destruct a; [by eexists|by exists x]. Qed.

(** The search only reports matches. *)
Lemma rmatch_sound {A} r st (k : mstate -> option A) x :
  rmatch r st k = Some x -> exists st', den r st st' /\ k st' = Some x.
Proof.
  revert st k x. induction r as [|p|r IHr s IHs|r IHr s IHs|g r IH|i r IH| | | | |];
    intros st k x; cbn [rmatch].
  - intros H. exists st. by split; [constructor|].
  - destruct (ms_rest st) as [|c rest] eqn:E; [done|]. destruct (p c.1) eqn:Ep; [|done].
    intros H. exists (step c rest st). split; [by eapply den_cls|done].
  - intros (st1 & H1 & (st2 & H2 & H3)%IHs)%IHr. exists st2. by split; [econstructor|].
  - intros [(st1 & ? & ?)%IHr|(st1 & ? & ?)%IHs]%orelse_Some; exists st1;
      (split; [|done]); by constructor.
  - change (starf g r k (length (ms_rest st)) st = Some x -> exists st', den (Star g r) st st' /\ k st' = Some x).
    generalize (length (ms_rest st)) at 1. intros n. revert st.
    induction n as [|n IHn]; intros st; simpl.
    { intros H. exists st. by split; [constructor|]. }
    assert (forall again, again = Some x \/ k st = Some x ->
      (again = Some x -> exists st', den (Star g r) st st' /\ k st' = Some x) ->
      exists st', den (Star g r) st st' /\ k st' = Some x) as Hcase.
    { intros again [Ha|Hk] Hag; [by apply Hag|]. exists st. by split; [constructor|]. }
    intros H. eapply Hcase.
    { destruct g; apply orelse_Some in H as [H|H]; eauto. }
    intros (st1 & H1 & H2)%IH. destruct (_ <? _) eqn:El; [|done]. apply Nat.ltb_lt in El.
    apply IHn in H2 as (st2 & H2 & H3). exists st2. by split; [econstructor|].
  - intros (st1 & H1 & H2)%IH. exists (close i (ms_rest st) st1). by split; [constructor|].
  - destruct (assertion Bot st) eqn:E; [|done]. intros H. exists st. by split; [constructor|].
  - destruct (assertion Eot st) eqn:E; [|done]. intros H. exists st. by split; [constructor|].
  - destruct (assertion Bol st) eqn:E; [|done]. intros H. exists st. by split; [constructor|].
  - destruct (assertion Eol st) eqn:E; [|done]. intros H. exists st. by split; [constructor|].
  - destruct (assertion Wb st) eqn:E; [|done]. intros H. exists st. by split; [constructor|].
Qed.

Lemma rmatch_ext {A} r st (k k' : mstate -> option A) :
  (forall st', k st' = k' st') -> rmatch r st k = rmatch r st k'.
Proof.
  revert st k k'. induction r as [|p|r IHr s IHs|r IHr s IHs|g r IH|i r IH| | | | |];
    intros st k k' Hk; cbn [rmatch]; try (by rewrite Hk).
  - destruct (ms_rest st) as [|c rest]; [done|]. by destruct (p c.1).
  - apply IHr. intros st'. by apply IHs.
  - by rewrite (IHr st k k'), (IHs st k k').
  - change (starf g r k (length (ms_rest st)) st = starf g r k' (length (ms_rest st)) st).
    generalize (length (ms_rest st)) at 1 2. intros n. revert st.
    induction n as [|n IHn]; intros st; simpl; [done|].
    rewrite Hk. erewrite IH; [done|]. intros st'. simpl. by rewrite IHn.
  - apply IH. intros st'. apply Hk.
Qed.

Lemma starf_step {A} g r (k : mstate -> option A) n st :
  length (ms_rest st) <= n ->
  starf g r k n st =
  let again := rmatch r st (fun st' =>
    if length (ms_rest st') <? length (ms_rest st)
    then starf g r k (length (ms_rest st')) st' else None) in
  if g then orelse again (k st) else orelse (k st) again.
Proof.
  revert st. induction n as [n IHn] using lt_wf_ind. intros st Hn. destruct n as [|n].
  - simpl. assert (forall x, rmatch r st (fun st' =>
      if length (ms_rest st') <? length (ms_rest st)
      then starf g r k (length (ms_rest st')) st' else None) <> Some x) as Hx.
    { intros x (st' & _ & H)%rmatch_sound. destruct (_ <? _) eqn:El; [|done].
      apply Nat.ltb_lt in El. lia. }
    destruct (rmatch r st _) as [x|]; [by destruct (Hx x)|]. destruct g, (k st); done.
  - unfold starf at 1; fold (starf g r k). cbv zeta.
    rewrite (rmatch_ext r st _ (fun st' =>
      if length (ms_rest st') <? length (ms_rest st)
      then starf g r k (length (ms_rest st')) st' else None)); [done|]. intros st'.
    destruct (_ <? _) eqn:El; [|done]. apply Nat.ltb_lt in El.
    transitivity (starf g r k (length (ms_rest st')) st'); [|done].
    rewrite (IHn n), (IHn (length (ms_rest st'))) by lia. done.
Qed.

(** It reports one whenever there is one. *)
Lemma rmatch_complete {A} r st st' (k : mstate -> option A) :
  den r st st' -> is_Some (k st') -> is_Some (rmatch r st k).
Proof.
  intros H. revert k. induction H as
    [st|p st c rest Hr Hp|r s st1 st2 st3 _ IH1 _ IH2|r s st st' _ IH|r s st st' _ IH
    |g r st|g r st1 st2 st3 _ IH1 Hl _ IH2|i r st st' _ IH|st Ha|st Ha|st Ha|st Ha|st Ha];
    intros k Hk; cbn [rmatch]; try (rewrite Ha; exact Hk).
  - done.
  - by rewrite Hr, Hp.
  - apply IH1. by apply IH2.
  - apply orelse_is_Some. left. by apply IH.
  - apply orelse_is_Some. right. by apply IH.
  - change (is_Some (starf g r k (length (ms_rest st)) st)). destruct (length (ms_rest st)); [done|].
    cbn. destruct g; apply orelse_is_Some; auto.
  - change (is_Some (starf g r k (length (ms_rest st1)) st1)).
    rewrite starf_step by done. cbv zeta.
    assert (is_Some (rmatch r st1 (fun st' =>
      if length (ms_rest st') <? length (ms_rest st1)
      then starf g r k (length (ms_rest st')) st' else None))) as Hs.
    { apply IH1. apply Nat.ltb_lt in Hl. rewrite Hl. by apply (IH2 k). }
    destruct g; apply orelse_is_Some; auto.
  - by apply IH.
Qed.

(** [match_at] finds a match exactly where the expression has one. *)
Lemma match_at_spec r prev rest :
  is_Some (match_at r prev rest) <->
  exists st', den r {| ms_prev := prev; ms_rest := rest; ms_groups := [] |} st'.
Proof.
  split.
  - intros [f (st' & H & _)%rmatch_sound]. eauto.
  - intros [st' H]. eapply rmatch_complete; [done|]. by eexists.
Qed.

#[export] Hint Constructors den : unc.
