(* ===== verification/TemporalTypes.v ===== *)
(** * The data of the Temporal workflows: [internal/temporal].

    The workflow's input, its queryable state, its signals, and the inputs and
    outputs of the activities it calls.  Field names are the source's behind a
    short prefix per struct.  A map that is only passed along is its list of
    entries; a [float64] that is only passed along is its bit pattern. *)

From S2P Require Import Prelude GoStrings GoUrl Regex.
(** ** Errors *)

(** A Go error as the workflows look at it: its message, and whether
    [temporal.IsCanceledError] finds a cancellation in its chain. *)
Record error := { e_canceled : bool; e_msg : string }.

(** An [error] result: [None] is [nil]. *)
Definition goerr := option error.

(** [fmt.Errorf] of a prefix, a colon and the wrapped error: the chain keeps the
    cancellation. *)
Definition wrap (prefix : string) (e : error) : goerr :=
  Some {| e_canceled := e_canceled e; e_msg := prefix +:+ ": " +:+ e_msg e |}.

(** [internal/temporal/activities.go:41-41] errFailed *)
Definition errFailed : error := {| e_canceled := false; e_msg := "failed" |}.
(** [internal/temporal/activities.go:43-43] errInvalidInput *)
Definition errInvalidInput : error := {| e_canceled := false; e_msg := "invalid input" |}.

(** [fmt.Errorf] of a wrapped sentinel error, a colon and a message. *)
Definition errorf (sentinel : error) (msg : string) : goerr :=
  Some {| e_canceled := e_canceled sentinel; e_msg := e_msg sentinel +:+ ": " +:+ msg |}.

(** ** Workflow input *)

(** [internal/temporal/workflow.go:58-62] Repository *)
Record Repository := { r_URL : string; r_Branch : string; r_Path : string }.

(** [internal/temporal/workflow.go:69-69] OrchestrationModeSingle *)
Definition OrchestrationModeSingle : string := "single".
(** [internal/temporal/workflow.go:71-71] OrchestrationModeAuto *)
Definition OrchestrationModeAuto : string := "auto".
(** [internal/temporal/workflow.go:73-73] OrchestrationModeManual *)
Definition OrchestrationModeManual : string := "manual".
(** [internal/temporal/workflow.go:75-75] OrchestrationModeSpecDriven *)
Definition OrchestrationModeSpecDriven : string := "spec-driven".

(** [internal/temporal/workflow.go:79-83] OrchestrationTask *)
Record OrchestrationTask :=
  { t_Name : string; t_Prompt : string; t_RepoURLs : list string }.

(** [internal/temporal/workflow.go:140-145] StageConfigInput *)
Record StageConfigInput := {
  sci_Model : string; sci_TimeoutSeconds : Z; sci_MaxRetries : Z; sci_OnFailure : string;
}.

(** [internal/temporal/workflow.go:133-137] PipelineConfigInput *)
Record PipelineConfigInput := {
  pci_Plan : StageConfigInput; pci_Execute : StageConfigInput; pci_Verify : StageConfigInput;
}.

(** [internal/temporal/workflow.go:99-130] WorkflowInput *)
Record WorkflowInput := {
  wi_AgentRunName : string; wi_Namespace : string; wi_Repos : list Repository;
  wi_Prompt : string; wi_DevboxConfig : string; wi_TTLSeconds : Z; wi_Image : string;
  wi_EnvVars : list (string * string); wi_ModelTier : string;
  wi_ManageModelTier : string; wi_ImplementModelTier : string; wi_MaxBudget : Z;
  wi_LiteLLMBaseURL : string; wi_SpecContent : string; wi_WorkspaceName : string;
  wi_OrchestrationMode : string; wi_Orchestration : list OrchestrationTask;
  wi_ParentRunID : string; wi_SpecRunID : string;
  wi_PipelineConfig : option PipelineConfigInput; wi_AutoPush : bool; wi_AutoPR : bool;
  wi_GitHubTokenSecretName : string; wi_PRBaseBranch : string; wi_Project : string;
  wi_Feature : string; wi_Tags : list string; wi_Backend : string;
  wi_SpecSource : string; wi_ApprovalMode : string;
}.

(** An assignment to [input.Prompt]. *)
Definition with_prompt (input : WorkflowInput) (prompt : string) : WorkflowInput :=
  {| wi_AgentRunName := wi_AgentRunName input; wi_Namespace := wi_Namespace input;
     wi_Repos := wi_Repos input; wi_Prompt := prompt;
     wi_DevboxConfig := wi_DevboxConfig input; wi_TTLSeconds := wi_TTLSeconds input;
     wi_Image := wi_Image input; wi_EnvVars := wi_EnvVars input;
     wi_ModelTier := wi_ModelTier input; wi_ManageModelTier := wi_ManageModelTier input;
     wi_ImplementModelTier := wi_ImplementModelTier input;
     wi_MaxBudget := wi_MaxBudget input; wi_LiteLLMBaseURL := wi_LiteLLMBaseURL input;
     wi_SpecContent := wi_SpecContent input; wi_WorkspaceName := wi_WorkspaceName input;
     wi_OrchestrationMode := wi_OrchestrationMode input;
     wi_Orchestration := wi_Orchestration input; wi_ParentRunID := wi_ParentRunID input;
     wi_SpecRunID := wi_SpecRunID input; wi_PipelineConfig := wi_PipelineConfig input;
     wi_AutoPush := wi_AutoPush input; wi_AutoPR := wi_AutoPR input;
     wi_GitHubTokenSecretName := wi_GitHubTokenSecretName input;
     wi_PRBaseBranch := wi_PRBaseBranch input; wi_Project := wi_Project input;
     wi_Feature := wi_Feature input; wi_Tags := wi_Tags input; wi_Backend := wi_Backend input;
     wi_SpecSource := wi_SpecSource input; wi_ApprovalMode := wi_ApprovalMode input |}.

(** An assignment to [input.OrchestrationMode]. *)
Definition with_mode (input : WorkflowInput) (mode : string) : WorkflowInput :=
  {| wi_AgentRunName := wi_AgentRunName input; wi_Namespace := wi_Namespace input;
     wi_Repos := wi_Repos input; wi_Prompt := wi_Prompt input;
     wi_DevboxConfig := wi_DevboxConfig input; wi_TTLSeconds := wi_TTLSeconds input;
     wi_Image := wi_Image input; wi_EnvVars := wi_EnvVars input;
     wi_ModelTier := wi_ModelTier input; wi_ManageModelTier := wi_ManageModelTier input;
     wi_ImplementModelTier := wi_ImplementModelTier input;
     wi_MaxBudget := wi_MaxBudget input; wi_LiteLLMBaseURL := wi_LiteLLMBaseURL input;
     wi_SpecContent := wi_SpecContent input; wi_WorkspaceName := wi_WorkspaceName input;
     wi_OrchestrationMode := mode;
     wi_Orchestration := wi_Orchestration input; wi_ParentRunID := wi_ParentRunID input;
     wi_SpecRunID := wi_SpecRunID input; wi_PipelineConfig := wi_PipelineConfig input;
     wi_AutoPush := wi_AutoPush input; wi_AutoPR := wi_AutoPR input;
     wi_GitHubTokenSecretName := wi_GitHubTokenSecretName input;
     wi_PRBaseBranch := wi_PRBaseBranch input; wi_Project := wi_Project input;
     wi_Feature := wi_Feature input; wi_Tags := wi_Tags input; wi_Backend := wi_Backend input;
     wi_SpecSource := wi_SpecSource input; wi_ApprovalMode := wi_ApprovalMode input |}.

(** [internal/temporal/workflow.go:148-155] WorkflowState *)
Record WorkflowState := {
  ws_Phase : string; ws_Message : string; ws_PodName : string;
  ws_DeploymentName : string; ws_PRUrl : string; ws_VerificationResult : string;
}.

(** [internal/temporal/workflow.go:164-167] ApprovalDecisionSignal *)
Record ApprovalDecisionSignal := { ad_Approved : bool; ad_Reason : string }.

(** [internal/temporal/workflow.go:836-855] SpawnJuniorInput *)
Record SpawnJuniorInput := {
  sj_ParentRunName : string; sj_Namespace : string; sj_Task : string; sj_TaskName : string;
  sj_Repos : list Repository; sj_DevboxConfig : string; sj_TTLSeconds : Z;
  sj_Image : string; sj_EnvVars : list (string * string); sj_Blocking : bool;
  sj_ModelTier : string; sj_MaxBudget : Z; sj_LiteLLMBaseURL : string;
  sj_SpecRunID : string; sj_GitHubTokenSecretName : string; sj_ApprovalMode : string;
}.

(** ** Activities: inputs and outputs *)

(** [internal/temporal/activities.go:541-546] ProvisionLLMKeyInput *)
Record ProvisionLLMKeyInput := {
  pk_AgentRunName : string; pk_Namespace : string; pk_ModelTier : string; pk_MaxBudget : Z;
}.
(** [internal/temporal/activities.go:549-551] ProvisionLLMKeyOutput *)
Record ProvisionLLMKeyOutput := { pk_Key : string }.
(** [internal/temporal/activities.go:614-616] RevokeLLMKeyInput *)
Record RevokeLLMKeyInput := { rk_Key : string }.

(** [internal/temporal/activities.go:675-689] CreateAgentDeploymentInput *)
Record CreateAgentDeploymentInput := {
  cd_Name : string; cd_Namespace : string; cd_AgentRunName : string;
  cd_Repos : list Repository; cd_Prompt : string; cd_DevboxConfig : string;
  cd_Image : string; cd_EnvVars : list (string * string); cd_LLMKey : string;
  cd_LiteLLMBaseURL : string; cd_ModelID : string; cd_SpecContent : string;
  cd_GitHubTokenSecretName : string;
}.
(** [internal/temporal/activities.go:692-695] CreateAgentDeploymentOutput *)
Record CreateAgentDeploymentOutput := { cd_DeploymentName : string; cd_PVCName : string }.

(** [internal/temporal/activities.go:283-286] CheckPodStatusInput *)
Record CheckPodStatusInput := { cp_PodName : string; cp_Namespace : string }.
(** [internal/temporal/activities.go:289-293] CheckPodStatusOutput *)
Record CheckPodStatusOutput := { cp_Phase : string; cp_Reason : string; cp_Message : string }.

(** [internal/temporal/activities.go:93-97] WaitForHydrationInput *)
Record WaitForHydrationInput :=
  { wh_PodName : string; wh_Namespace : string; wh_AgentRunName : string }.
(** [internal/temporal/activities.go:100-104] WaitForHydrationOutput *)
Record WaitForHydrationOutput :=
  { wh_PodIP : string; wh_OutPodName : string; wh_WorkspacePath : string }.

(** [internal/temporal/knowledge_activities.go:252-259] HydrateContextInput *)
Record HydrateContextInput := {
  hc_AgentRunID : string; hc_WorkspacePath : string; hc_Prompt : string;
  hc_RepoURL : string; hc_AgentType : string; hc_PodIP : string;
}.
(** [internal/temporal/knowledge_activities.go:262-264] HydrateContextOutput *)
Record HydrateContextOutput := { hc_ContextWritten : bool }.

(** [internal/temporal/activities.go:197-207] StartAgentInput *)
Record StartAgentInput := {
  sa_PodName : string; sa_Namespace : string; sa_PodIP : string; sa_Prompt : string;
  sa_RepoPath : string; sa_Model : string; sa_Stage : string; sa_ParentSpanID : string;
  sa_TraceID : string;
}.
(** [internal/temporal/activities.go:253-257] GetAgentStatusInput *)
Record GetAgentStatusInput :=
  { gs_PodName : string; gs_Namespace : string; gs_PodIP : string }.
(** [internal/temporal/activities.go:260-263] GetAgentStatusOutput *)
Record GetAgentStatusOutput := { gs_State : string; gs_Error : string }.
(** [internal/temporal/activities.go:310-316] ForwardHumanInputInput *)
Record ForwardHumanInputInput := {
  fh_AgentRunID : string; fh_PodName : string; fh_Namespace : string; fh_PodIP : string;
  fh_Input : string;
}.
(** [internal/temporal/activities.go:333-338] StopAgentInput *)
Record StopAgentInput :=
  { st_PodName : string; st_Namespace : string; st_PodIP : string; st_Force : bool }.

(** [internal/temporal/activities_tags.go:27-32] EnrichRunTagsInput *)
Record EnrichRunTagsInput := {
  et_AgentRunName : string; et_Namespace : string; et_PodIP : string; et_RepoPath : string;
}.
(** [internal/temporal/activities_git.go:24-33] PushChangesInput *)
Record PushChangesInput := {
  pc_AgentRunName : string; pc_PodIP : string; pc_RepoPath : string; pc_BranchName : string;
  pc_BaseBranch : string; pc_CommitMessage : string; pc_RepoURL : string;
  pc_ChangeName : string;
}.
(** [internal/temporal/activities_git.go:36-43] PushChangesOutput *)
Record PushChangesOutput := {
  po_BranchName : string; po_CommitSHA : string; po_CommitMessage : string;
  po_DiffStat : string; po_ProposalContent : string; po_HasChanges : bool;
}.
(** [internal/temporal/activities_git.go:214-222] CreatePRInput *)
Record CreatePRInput := {
  cr_RepoOwner : string; cr_RepoName : string; cr_BranchName : string;
  cr_BaseBranch : string; cr_Title : string; cr_Body : string; cr_AgentRunName : string;
}.
(** [internal/temporal/activities_git.go:225-228] CreatePROutput *)
Record CreatePROutput := { co_PRUrl : string; co_PRNumber : Z }.

(** [internal/temporal/activities_llm_judge.go:18-26] LLMJudgeInput *)
Record LLMJudgeInput := {
  lj_AgentRunName : string; lj_PodIP : string; lj_RepoPath : string; lj_Prompt : string;
  lj_LiteLLMBaseURL : string; lj_LLMKey : string; lj_ModelTier : string;
}.
(** [internal/temporal/activities_llm_judge.go:29-33] LLMJudgeOutput *)
Record LLMJudgeOutput := { lj_Approved : bool; lj_Reason : string; lj_GitDiff : string }.

(** [internal/temporal/knowledge_activities.go:28-33] PersistRunDataInput *)
Record PersistRunDataInput := {
  pr_AgentRunID : string; pr_WorkspacePath : string; pr_RepoURL : string; pr_PodIP : string;
}.
(** [internal/temporal/knowledge_activities.go:162-165] EmbedRunDataInput *)
Record EmbedRunDataInput := { er_AgentRunID : string; er_RepoURL : string }.
(** [internal/temporal/activities.go:838-842] CollectAgentLogsInput *)
Record CollectAgentLogsInput :=
  { cl_AgentRunName : string; cl_Namespace : string; cl_PodIP : string }.
(** [internal/temporal/activities.go:804-807] ScaleDownDeploymentInput *)
Record ScaleDownDeploymentInput := { sd_DeploymentName : string; sd_Namespace : string }.
(** [internal/temporal/activities.go:925-929] ArchiveAndCleanupInput *)
Record ArchiveAndCleanupInput :=
  { ac_DeploymentName : string; ac_PVCName : string; ac_Namespace : string }.

(** A value of the span metadata, a [map[string]interface{}]. *)
Inductive metavalue := MString (s : string) | MInt (z : Z) | MBool (b : bool).

(** [internal/temporal/activities_trace.go:24-35] TraceSpanData *)
Record TraceSpanData := {
  sp_ID : string; sp_TraceID : string; sp_ParentID : string; sp_Name : string;
  sp_Type : string; sp_StartTime : string; sp_EndTime : string; sp_Status : string;
  sp_Metadata : list (string * metavalue); sp_HasDiff : bool;
}.
(** [internal/temporal/activities_trace.go:17-21] WriteTraceSpanInput *)
Record WriteTraceSpanInput :=
  { ts_AgentRunName : string; ts_PodIP : string; ts_Span : TraceSpanData }.

(** [internal/temporal/workflow_spec_driven.go:69-80] PlanRunInput *)
Record PlanRunInput := {
  pl_AgentRunName : string; pl_Namespace : string; pl_PodName : string; pl_PodIP : string;
  pl_Prompt : string; pl_SpecContent : string; pl_RepoPath : string; pl_Model : string;
  pl_ParentSpanID : string; pl_TraceID : string;
}.
(** [internal/temporal/workflow_spec_driven.go:83-88] PlanRunOutput *)
Record PlanRunOutput := {
  pl_ChangeName : string; pl_TaskCount : Z; pl_SpecsValid : bool;
  pl_ValidationErrors : list string;
}.
(** [internal/temporal/workflow_spec_driven.go:91-102] VerifyRunInput *)
Record VerifyRunInput := {
  vr_AgentRunName : string; vr_Namespace : string; vr_PodName : string; vr_PodIP : string;
  vr_ChangeName : string; vr_RepoPath : string; vr_ParentSpanID : string;
  vr_TraceID : string; vr_ManageModel : string; vr_PreviousReviewFeedback : string;
}.
(** [internal/temporal/workflow_spec_driven.go:27-41] VerificationResult: the fields the
    workflow reads *)
Record VerificationResult := {
  vr_Pass : bool; vr_TasksCompleted : Z; vr_TasksTotal : Z; vr_FailureReport : string;
  vr_ReviewFeedback : string; vr_Salvageable : bool; vr_SalvageGuidance : string;
}.
(** [internal/temporal/workflow_spec_driven.go:105-107] VerifyRunOutput *)
Record VerifyRunOutput := { vr_Result : VerificationResult }.

(** [internal/temporal/workflow.go:172-203] Activity: a call of an activity, by its
    registered name, indexed by the type of its output *)
Inductive activity : Type -> Type :=
| ProvisionLLMKey (i : ProvisionLLMKeyInput) : activity ProvisionLLMKeyOutput
| RevokeLLMKey (i : RevokeLLMKeyInput) : activity unit
| WaitForHydration (i : WaitForHydrationInput) : activity WaitForHydrationOutput
| StartAgent (i : StartAgentInput) : activity unit
| GetAgentStatus (i : GetAgentStatusInput) : activity GetAgentStatusOutput
| ForwardHumanInput (i : ForwardHumanInputInput) : activity unit
| StopAgent (i : StopAgentInput) : activity unit
| CreateAgentDeployment (i : CreateAgentDeploymentInput) : activity CreateAgentDeploymentOutput
| ScaleDownDeployment (i : ScaleDownDeploymentInput) : activity unit
| ArchiveAndCleanup (i : ArchiveAndCleanupInput) : activity unit
| CollectAgentLogs (i : CollectAgentLogsInput) : activity unit
| CheckPodStatus (i : CheckPodStatusInput) : activity CheckPodStatusOutput
| PersistRunData (i : PersistRunDataInput) : activity unit
| EmbedRunData (i : EmbedRunDataInput) : activity unit
| HydrateContext (i : HydrateContextInput) : activity HydrateContextOutput
| PushChanges (i : PushChangesInput) : activity PushChangesOutput
| CreatePR (i : CreatePRInput) : activity CreatePROutput
| EnrichRunTags (i : EnrichRunTagsInput) : activity unit
| WriteTraceSpan (i : WriteTraceSpanInput) : activity unit
| LLMJudgeChanges (i : LLMJudgeInput) : activity LLMJudgeOutput
| PlanRun (i : PlanRunInput) : activity PlanRunOutput
| VerifyRun (i : VerifyRunInput) : activity VerifyRunOutput.

(** [temporal.RetryPolicy]; durations in seconds, the backoff in tenths, and
    [MaximumAttempts = 0] for no limit. *)
Record RetryPolicy := {
  rp_InitialInterval : Z; rp_BackoffTenths : Z; rp_MaximumInterval : Z;
  rp_MaximumAttempts : Z; rp_NonRetryable : list string;
}.

(** [workflow.ActivityOptions]; durations in seconds, [0] where unset. *)
Record ActivityOptions := {
  ao_StartToCloseTimeout : Z; ao_HeartbeatTimeout : Z; ao_RetryPolicy : RetryPolicy;
}.

(** A retry policy that only sets [MaximumAttempts]. *)
Definition attempts (n : Z) : RetryPolicy :=
  {| rp_InitialInterval := 0; rp_BackoffTenths := 0; rp_MaximumInterval := 0;
     rp_MaximumAttempts := n; rp_NonRetryable := [] |}.

(** A retry policy of initial interval, backoff, maximum interval and attempts. *)
Definition backoff (initial tenths maximum n : Z) : RetryPolicy :=
  {| rp_InitialInterval := initial; rp_BackoffTenths := tenths;
     rp_MaximumInterval := maximum; rp_MaximumAttempts := n; rp_NonRetryable := [] |}.

Definition options (timeout heartbeat : Z) (p : RetryPolicy) : ActivityOptions :=
  {| ao_StartToCloseTimeout := timeout; ao_HeartbeatTimeout := heartbeat;
     ao_RetryPolicy := p |}.

(** [internal/temporal/workflow.go:40-40] statusPollInterval: seconds *)
Definition statusPollInterval : Z := 5.
(** [internal/temporal/workflow.go:43-43] activityTimeout: seconds *)
Definition activityTimeout : Z := 300.
(** [internal/temporal/workflow.go:47-47] heartbeatInterval: seconds *)
Definition heartbeatInterval : Z := 10.
(** [internal/temporal/workflow.go:51-51] workerRestartHeartbeatTimeout: seconds *)
Definition workerRestartHeartbeatTimeout : Z := 90.
(** [internal/temporal/workflow.go:54-54] maxConsecutiveStatusErrors *)
Definition maxConsecutiveStatusErrors : nat := 5.
(** [internal/temporal/workflow.go:911-911] maxOrchestrationTasks *)
Definition maxOrchestrationTasks : nat := 7.

(** * Repository names and titles of pull requests: [internal/temporal] *)

(** [internal/temporal/workflow.go:16-23] repoNameFromURL *)
Definition repoNameFromURL (repoURL : string) : string :=
  match url_path repoURL with
  | Some p => if String.eqb p "" then TrimSuffix (Base repoURL) ".git"
              else TrimSuffix (Base p) ".git"
  | None => TrimSuffix (Base repoURL) ".git"
  end.

(** [internal/temporal/workflow_spec_driven.go:1043-1071] parseGitHubOwnerRepo *)
Definition parseGitHubOwnerRepo (repoURL : string) : result (string * string) :=
  if HasPrefix repoURL "git@" then
    match SplitN repoURL ":"%char 2 with
    | [_; p] =>
        match SplitN (TrimSuffix p ".git") "/"%char 2 with
        | [owner; repo] => Ok (owner, repo)
        | _ => Err ("failed: cannot parse owner/repo from SSH URL: " +:+ repoURL)
        end
    | _ => Err ("invalid input: invalid SSH URL: " +:+ repoURL)
    end
  else match url_Parse repoURL with
  | Err e => Err ("parse URL: " +:+ e)
  | Ok u =>
      match SplitN (TrimPrefix (TrimSuffix (u_Path u) ".git") "/") "/"%char 3 with
      | owner :: repo :: _ => Ok (owner, repo)
      | _ => Err ("failed: cannot parse owner/repo from URL path: " +:+ u_Path u)
      end
  end.

(** [internal/temporal/workflow_spec_driven.go:1074-1084] truncateForTitle *)
Definition truncateForTitle (s : string) (max : nat) : string :=
  if String.length s <=? max then s
  else
    let truncated := str_take max s in
    let truncated := match LastIndex truncated " " with
                     | Some idx => if 0 <? idx then str_take idx truncated else truncated
                     | None => truncated
                     end in
    truncated +:+ "...".

(** [internal/temporal/activities_git.go:47-47] conventionalCommitRE *)
Definition conventionalCommitRE : regex :=
  cats [Bot;
        alts (lit <$> ["feat"; "fix"; "refactor"; "docs"; "test"; "chore"; "perf"; "ci"; "build";
                       "revert"]);
        opt (cats [chr "("; plus (Cls (fun c => negb (is_char ")" c))); chr ")"]);
        lit ": "; repeat_range 1 72 Any; Eot].

(** [internal/temporal/workflow_spec_driven.go:1088-1093] prTitleFrom *)
Definition prTitleFrom (commitMessage prompt : string) : string :=
  if MatchString conventionalCommitRE commitMessage then commitMessage
  else "feat: " +:+ truncateForTitle prompt 60.

(** [internal/temporal/workflow.go:828-833] JuniorApprovalMode *)
Definition JuniorApprovalMode (parent : string) : string :=
  let mode := ToLower (TrimSpace parent) in
  if String.eqb mode "" then "none" else mode.

(** [internal/temporal/workflow.go:1101-1106] modelIDFromTier *)
Definition modelIDFromTier (tier : string) : string :=
  if String.eqb tier "" then "litellm/default" else "litellm/" +:+ tier.

(** ** Facts *)

Example owner_https : parseGitHubOwnerRepo "https://github.com/o/r.git" = Ok ("o", "r").
Proof. vm_compute. reflexivity. Qed.
Example owner_ssh : parseGitHubOwnerRepo "git@github.com:o/r.git" = Ok ("o", "r").
Proof. vm_compute. reflexivity. Qed.
Example repo_name_ssh : repoNameFromURL "git@github.com:o/r.git" = "r".
Proof. vm_compute. reflexivity. Qed.
Example title_kept : prTitleFrom "fix(core): a thing" "p" = "fix(core): a thing".
Proof. vm_compute. reflexivity. Qed.
Example title_replaced : prTitleFrom "fix a thing" "do it" = "feat: do it".
Proof. vm_compute. reflexivity. Qed.
