(* ===== verification/Workflow.v ===== *)
(** * Temporal workflow code as state passing.

    A workflow is sequential code that calls activities, sleeps, waits on
    selectors and writes its state.  [W A] is a function on a [World]: the
    variables of the workflow, the inputs that have arrived and those still to
    come, and the history of what the workflow did.

    - An activity call is answered by an environment, which may answer each call
      by its position in the history in any way; the retries of Temporal happen
      inside one call.
    - Inputs (signals, timers that fire) arrive in batches: one batch while the
      workflow waits for an activity, a timer or a selector.  Every distribution
      of the inputs over the waits is a list of batches.
    - A selector takes its ready cases in the order they were added; with none
      ready it waits for the first input that makes one ready, and when no input
      is left to come the workflow stays open ([Waiting]).  Cancelling the workflow's context shows
      as activities that fail with a cancellation and timers that fire.
    - Loops carry fuel; running out of it is an outcome of its own, which the
      theorems exclude. *)

From S2P Require Import Prelude TemporalTypes.

(** ** The environment *)

Inductive answer (A : Type) :=
| Success (a : A)
| Failure (e : error).
Arguments Success {A} a.
Arguments Failure {A} e.

Record env := {
  env_act : forall B, nat -> activity B -> answer B;
  env_uuid : nat -> string;
  (** [workflow.Now] formatted as RFC3339Nano, and in milliseconds *)
  env_now : nat -> string;
  env_millis : nat -> Z;
  env_set_query : goerr;
  (** the result of a child workflow, and of waiting for its start *)
  env_child : nat -> string -> goerr;
  env_child_started : nat -> string -> goerr;
}.

(** ** Inputs and history *)

Inductive input :=
| InCancel
| InHuman (text : string)
| InApproval (d : ApprovalDecisionSignal)
| InTTL
| InTick.

Inductive event :=
| EvActivity {B} (o : ActivityOptions) (a : activity B) (r : answer B)
| EvReceive (i : input)
| EvSleep (seconds : Z)
| EvTimer (seconds : Z)
| EvUUID (id : string)
| EvChildStart (id : string) (i : WorkflowInput)
| EvChildWait (id : string) (r : goerr).

(** ** The world *)

(** The variables the workflow's deferred cleanup captures. *)
Record vars := { v_podName : string; v_deploymentName : string; v_llmKey : string; v_podIP : string }.

Record World := {
  w_state : WorkflowState;
  w_vars : vars;
  w_cancel : nat;
  w_human : list string;
  w_approval : list ApprovalDecisionSignal;
  w_ttl : bool;
  w_tick : bool;
  w_future : list (list input);
  w_trace : list event;
}.

Definition set_state (f : WorkflowState -> WorkflowState) (w : World) : World :=
  {| w_state := f (w_state w); w_vars := w_vars w; w_cancel := w_cancel w;
     w_human := w_human w; w_approval := w_approval w; w_ttl := w_ttl w;
     w_tick := w_tick w; w_future := w_future w; w_trace := w_trace w |}.
Definition set_vars (f : vars -> vars) (w : World) : World :=
  {| w_state := w_state w; w_vars := f (w_vars w); w_cancel := w_cancel w;
     w_human := w_human w; w_approval := w_approval w; w_ttl := w_ttl w;
     w_tick := w_tick w; w_future := w_future w; w_trace := w_trace w |}.
Definition set_queues (c : nat) (h : list string) (a : list ApprovalDecisionSignal)
    (w : World) : World :=
  {| w_state := w_state w; w_vars := w_vars w; w_cancel := c;
     w_human := h; w_approval := a; w_ttl := w_ttl w;
     w_tick := w_tick w; w_future := w_future w; w_trace := w_trace w |}.
Definition set_timers (ttl tick : bool) (w : World) : World :=
  {| w_state := w_state w; w_vars := w_vars w; w_cancel := w_cancel w;
     w_human := w_human w; w_approval := w_approval w; w_ttl := ttl;
     w_tick := tick; w_future := w_future w; w_trace := w_trace w |}.
Definition set_future (bs : list (list input)) (w : World) : World :=
  {| w_state := w_state w; w_vars := w_vars w; w_cancel := w_cancel w;
     w_human := w_human w; w_approval := w_approval w; w_ttl := w_ttl w;
     w_tick := w_tick w; w_future := bs; w_trace := w_trace w |}.
Definition log (e : event) (w : World) : World :=
  {| w_state := w_state w; w_vars := w_vars w; w_cancel := w_cancel w;
     w_human := w_human w; w_approval := w_approval w; w_ttl := w_ttl w;
     w_tick := w_tick w; w_future := w_future w; w_trace := w_trace w ++ [e] |}.

(** An input that arrives is queued on its channel, or its timer has fired. *)
Definition absorb1 (w : World) (i : input) : World :=
  match i with
  | InCancel => set_queues (S (w_cancel w)) (w_human w) (w_approval w) w
  | InHuman s => set_queues (w_cancel w) (w_human w ++ [s]) (w_approval w) w
  | InApproval d => set_queues (w_cancel w) (w_human w) (w_approval w ++ [d]) w
  | InTTL => set_timers true (w_tick w) w
  | InTick => set_timers (w_ttl w) true w
  end.

Definition absorb (b : list input) (w : World) : World := foldl absorb1 w b.

(** One wait: the next batch of inputs arrives. *)
Definition arrive (w : World) : World :=
  match w_future w with
  | [] => w
  | b :: bs => absorb b (set_future bs w)
  end.

(** ** The monad *)

Inductive outcome (A : Type) :=
| Done (a : A)
| Waiting
| OutOfFuel.
Arguments Done {A} a.
Arguments Waiting {A}.
Arguments OutOfFuel {A}.

Definition W (A : Type) : Type := World -> World * outcome A.

#[export] Instance W_ret : MRet W := fun A a w => (w, Done a).
#[export] Instance W_bind : MBind W := fun A B k m w =>
  match m w with
  | (w', Done a) => k a w'
  | (w', Waiting) => (w', Waiting)
  | (w', OutOfFuel) => (w', OutOfFuel)
  end.

Definition modify (f : World -> World) : W unit := fun w => (f w, Done ()).
Definition gets {A} (f : World -> A) : W A := fun w => (w, Done (f w)).
Definition out_of_fuel {A} : W A := fun w => (w, OutOfFuel).

(** [defer]: [cleanup] runs when [m] returns, whatever it returns. *)
Definition with_defer {A} (cleanup : W unit) (m : W A) : W A :=
  r ← m; cleanup;; mret r.

(** ** Assignments to the workflow state and to the captured variables *)

Definition setPhase (p : string) : W unit := modify (set_state (fun s =>
  {| ws_Phase := p; ws_Message := ws_Message s; ws_PodName := ws_PodName s;
     ws_DeploymentName := ws_DeploymentName s; ws_PRUrl := ws_PRUrl s;
     ws_VerificationResult := ws_VerificationResult s |})).
Definition setMessage (m : string) : W unit := modify (set_state (fun s =>
  {| ws_Phase := ws_Phase s; ws_Message := m; ws_PodName := ws_PodName s;
     ws_DeploymentName := ws_DeploymentName s; ws_PRUrl := ws_PRUrl s;
     ws_VerificationResult := ws_VerificationResult s |})).
Definition setDeployment (name : string) : W unit := modify (set_state (fun s =>
  {| ws_Phase := ws_Phase s; ws_Message := ws_Message s; ws_PodName := name;
     ws_DeploymentName := name; ws_PRUrl := ws_PRUrl s;
     ws_VerificationResult := ws_VerificationResult s |})).
Definition setPRUrl (u : string) : W unit := modify (set_state (fun s =>
  {| ws_Phase := ws_Phase s; ws_Message := ws_Message s; ws_PodName := ws_PodName s;
     ws_DeploymentName := ws_DeploymentName s; ws_PRUrl := u;
     ws_VerificationResult := ws_VerificationResult s |})).
Definition setVerificationResult (v : string) : W unit := modify (set_state (fun s =>
  {| ws_Phase := ws_Phase s; ws_Message := ws_Message s; ws_PodName := ws_PodName s;
     ws_DeploymentName := ws_DeploymentName s; ws_PRUrl := ws_PRUrl s;
     ws_VerificationResult := v |})).
(** A fresh state object. *)
Definition newState (phase message : string) : W unit := modify (set_state (fun _ =>
  {| ws_Phase := phase; ws_Message := message; ws_PodName := ""; ws_DeploymentName := "";
     ws_PRUrl := ""; ws_VerificationResult := "" |})).

Definition getPhase : W string := gets (fun w => ws_Phase (w_state w)).
Definition getVars : W vars := gets w_vars.

Definition noVars : vars :=
  {| v_podName := ""; v_deploymentName := ""; v_llmKey := ""; v_podIP := "" |}.
Definition setKey (k : string) : W unit := modify (set_vars (fun v =>
  {| v_podName := v_podName v; v_deploymentName := v_deploymentName v; v_llmKey := k;
     v_podIP := v_podIP v |})).
Definition setPod (name : string) : W unit := modify (set_vars (fun v =>
  {| v_podName := name; v_deploymentName := name; v_llmKey := v_llmKey v;
     v_podIP := v_podIP v |})).
Definition setPodIP (ip : string) : W unit := modify (set_vars (fun v =>
  {| v_podName := v_podName v; v_deploymentName := v_deploymentName v;
     v_llmKey := v_llmKey v; v_podIP := ip |})).

(** ** Selectors *)

Inductive kind := KCancel | KHuman | KApproval | KTTL | KTick.

(** The case of a selector that is ready, and the world once it has received. *)
Definition receive (k : kind) (w : World) : option (input * World) :=
  match k with
  | KCancel => match w_cancel w with
               | 0 => None
               | S n => Some (InCancel, set_queues n (w_human w) (w_approval w) w)
               end
  | KHuman => match w_human w with
              | [] => None
              | s :: q => Some (InHuman s, set_queues (w_cancel w) q (w_approval w) w)
              end
  | KApproval => match w_approval w with
                 | [] => None
                 | d :: q => Some (InApproval d, set_queues (w_cancel w) (w_human w) q w)
                 end
  | KTTL => if w_ttl w then Some (InTTL, w) else None
  | KTick => if w_tick w then Some (InTick, w) else None
  end.

Fixpoint first_ready (ks : list kind) (w : World) : option (input * World) :=
  match ks with
  | [] => None
  | k :: ks => match receive k w with Some r => Some r | None => first_ready ks w end
  end.

(** While the selector waits, inputs arrive one by one; the first that makes a
    case ready is taken, and the rest of its batch is queued. *)
Fixpoint offer (ks : list kind) (b : list input) (w : World) : World * option input :=
  match b with
  | [] => (w, None)
  | i :: b =>
      let w1 := absorb1 w i in
      match first_ready ks w1 with
      | Some (s, w2) => (absorb b (log (EvReceive s) w2), Some s)
      | None => offer ks b w1
      end
  end.

Fixpoint drain (ks : list kind) (bs : list (list input)) (w : World) : World * outcome input :=
  match bs with
  | [] => (w, Waiting)
  | b :: bs =>
      match offer ks b (set_future bs w) with
      | (w', Some i) => (w', Done i)
      | (w', None) => drain ks bs w'
      end
  end.

(** [selector.Select] over cases added in the order [ks]. *)
Definition select (ks : list kind) : W input := fun w =>
  match first_ready ks w with
  | Some (i, w') => (log (EvReceive i) w', Done i)
  | None => drain ks (w_future w) w
  end.

(** The inputs that can still make the selector of a polling loop ready. *)
Definition pending (w : World) : nat :=
  w_cancel w + length (w_human w) + (if w_tick w then 1 else 0) + sum_list (length <$> w_future w).

(** [cancelCh.ReceiveAsync(nil)] *)
Definition receiveAsyncCancel : W bool := fun w =>
  match receive KCancel w with
  | Some (i, w') => (log (EvReceive i) w', Done true)
  | None => (w, Done false)
  end.

Definition newTTLTimer (d : Z) : W unit :=
  modify (fun w => log (EvTimer d) (set_timers false (w_tick w) w)).
Definition newPollTimer (d : Z) : W unit :=
  modify (fun w => log (EvTimer d) (set_timers (w_ttl w) false w)).

(** ** Activities, timers and child workflows *)

Section calls.
Context (E : env).

(** [workflow.ExecuteActivity(...).Get(...)] *)
Definition execute {B} (o : ActivityOptions) (a : activity B) : W (answer B) := fun w =>
  let w' := arrive w in
  let r := env_act E B (length (w_trace w')) a in
  (log (EvActivity o a r) w', Done r).

(** A call whose error is only logged, or dropped. *)
Definition execute_ {B} (o : ActivityOptions) (a : activity B) : W unit :=
  execute o a;; mret ().

Definition sleep (seconds : Z) : W unit := fun w => (log (EvSleep seconds) (arrive w), Done ()).

(** [internal/temporal/workflow_spec_driven.go:1096-1102] newWorkflowUUID *)
Definition newWorkflowUUID : W string := fun w =>
  let id := env_uuid E (length (w_trace w)) in (log (EvUUID id) w, Done id).

Definition now : W string := gets (fun w => env_now E (length (w_trace w))).
Definition unixMilli : W Z := gets (fun w => env_millis E (length (w_trace w))).

(** [workflow.SetQueryHandler] *)
Definition setQueryHandler : W goerr := mret (env_set_query E).

Definition startChild (id : string) (i : WorkflowInput) : W unit := modify (log (EvChildStart id i)).
Definition waitChild (id : string) : W goerr := fun w =>
  let w' := arrive w in
  let r := env_child E (length (w_trace w')) id in (log (EvChildWait id r) w', Done r).
Definition waitChildStarted (id : string) : W goerr := fun w =>
  let w' := arrive w in
  let r := env_child_started E (length (w_trace w')) id in (log (EvChildWait id r) w', Done r).
End calls.
