(* ===== verification/WorkflowLogic.v ===== *)
(** * Reasoning about workflow code.

    Three judgements on [W] programs, each with its rules and closed by the
    tactic [wf]:
    - [emits A m]: the history only grows, by events that satisfy [A];
    - [keeps f m]: the observation [f] of the world is unchanged;
    - [yields Q m]: whatever [m] ends with satisfies [Q], when it returns.
    [no_fuel m] says that [m] never runs out of fuel. *)

From S2P Require Import Prelude TemporalTypes Workflow.

Definition emits {A} (P : event -> Prop) (m : W A) : Prop :=
  forall w, exists t, w_trace (m w).1 = w_trace w ++ t /\ Forall P t.

Definition keeps {A B} (f : World -> B) (m : W A) : Prop := forall w, f (m w).1 = f w.

Definition yields {A} (Q : A -> World -> Prop) (m : W A) : Prop :=
  forall w w' a, m w = (w', Done a) -> Q a w'.

(** ** Arrivals *)

Lemma absorb1_obs {B} (f : World -> B) w i :
  (forall w c h a, f (set_queues c h a w) = f w) -> (forall w t k, f (set_timers t k w) = f w) ->
  f (absorb1 w i) = f w.
Proof. intros Hq Ht. destruct i; simpl; rewrite ?Hq, ?Ht; done. Qed.

Lemma absorb_obs {B} (f : World -> B) b w :
  (forall w c h a, f (set_queues c h a w) = f w) -> (forall w t k, f (set_timers t k w) = f w) ->
  f (absorb b w) = f w.
Proof.
  intros Hq Ht. unfold absorb. apply (foldl_ind (fun w' => f w' = f w)); [done|].
  intros w' i _ <-. by apply absorb1_obs.
Qed.

Lemma arrive_obs {B} (f : World -> B) w :
  (forall w c h a, f (set_queues c h a w) = f w) -> (forall w t k, f (set_timers t k w) = f w) ->
  (forall w bs, f (set_future bs w) = f w) -> f (arrive w) = f w.
Proof.
  intros Hq Ht Hf. unfold arrive. destruct (w_future w); [done|].
  by rewrite absorb_obs, Hf.
Qed.

Lemma receive_obs {B} (f : World -> B) k w i w' :
  (forall w c h a, f (set_queues c h a w) = f w) -> receive k w = Some (i, w') -> f w' = f w.
Proof.
  intros Hq. destruct k; simpl; intros H; repeat case_match; simplify_eq; rewrite ?Hq; done.
Qed.

Lemma first_ready_obs {B} (f : World -> B) ks w i w' :
  (forall w c h a, f (set_queues c h a w) = f w) -> first_ready ks w = Some (i, w') -> f w' = f w.
Proof.
  intros Hq. induction ks as [|k ks IH]; simpl; [done|].
  destruct (receive k w) as [[j wj]|] eqn:E; [|done]. intros [= -> ->]. by eapply receive_obs.
Qed.

(** The effect of a selector on an observation that inputs do not touch: either
    nothing is taken, or one input is received. *)
Lemma offer_obs {B} (f : World -> B) ks b w :
  (forall w c h a, f (set_queues c h a w) = f w) -> (forall w t k, f (set_timers t k w) = f w) ->
  (forall w w' e, f w = f w' -> f (log e w) = f (log e w')) ->
  match (offer ks b w).2 with
  | Some i => f (offer ks b w).1 = f (log (EvReceive i) w)
  | None => f (offer ks b w).1 = f w
  end.
Proof.
  intros Hq Ht Hl. revert w. induction b as [|i b IH]; intros w; simpl; [done|].
  destruct (first_ready ks (absorb1 w i)) as [[s w2]|] eqn:E; simpl.
  - rewrite absorb_obs by done. apply Hl.
    erewrite first_ready_obs by done. by apply absorb1_obs.
  - specialize (IH (absorb1 w i)). destruct (offer ks b (absorb1 w i)) as [w' [s|]]; simpl in *.
    + rewrite IH. apply Hl. by apply absorb1_obs.
    + rewrite IH. by apply absorb1_obs.
Qed.

Lemma drain_obs {B} (f : World -> B) ks bs w :
  (forall w c h a, f (set_queues c h a w) = f w) -> (forall w t k, f (set_timers t k w) = f w) ->
  (forall w bs, f (set_future bs w) = f w) ->
  (forall w w' e, f w = f w' -> f (log e w) = f (log e w')) ->
  match (drain ks bs w).2 with
  | Done i => f (drain ks bs w).1 = f (log (EvReceive i) w)
  | Waiting => f (drain ks bs w).1 = f w
  | OutOfFuel => False
  end.
Proof.
  intros Hq Ht Hf Hl. revert w. induction bs as [|b bs IH]; intros w; simpl; [done|].
  pose proof (offer_obs f ks b (set_future bs w) Hq Ht Hl) as Ho.
  destruct (offer ks b (set_future bs w)) as [w' [i|]]; simpl in *.
  - rewrite Ho. apply Hl. apply Hf.
  - specialize (IH w'). destruct (drain ks bs w') as [w'' [i| |]]; simpl in *; try done.
    + rewrite IH. apply Hl. by rewrite Ho, Hf.
    + by rewrite IH, Ho, Hf.
Qed.

Lemma select_obs {B} (f : World -> B) ks w :
  (forall w c h a, f (set_queues c h a w) = f w) -> (forall w t k, f (set_timers t k w) = f w) ->
  (forall w bs, f (set_future bs w) = f w) ->
  (forall w w' e, f w = f w' -> f (log e w) = f (log e w')) ->
  match (select ks w).2 with
  | Done i => f (select ks w).1 = f (log (EvReceive i) w)
  | Waiting => f (select ks w).1 = f w
  | OutOfFuel => False
  end.
Proof.
  intros Hq Ht Hf Hl. unfold select. destruct (first_ready ks w) as [[i w']|] eqn:E; simpl.
  - apply Hl. by eapply first_ready_obs.
  - by apply drain_obs.
Qed.

(** ** The history *)

Section emits.
Context {P : event -> Prop}.

Lemma emits_silent {A} (m : W A) : keeps w_trace m -> emits P m.
Proof. intros H w. exists []. rewrite app_nil_r. by split; [apply H|]. Qed.

Lemma emits_ret {A} (a : A) : emits P (mret a : W A).
Proof. by apply emits_silent. Qed.

Lemma emits_fuel {A} : emits P (out_of_fuel : W A).
Proof. by apply emits_silent. Qed.

Lemma emits_gets {A} (f : World -> A) : emits P (gets f).
Proof. by apply emits_silent. Qed.

Lemma emits_bind {A B} (m : W A) (k : A -> W B) :
  emits P m -> (forall a, emits P (k a)) -> emits P (m ≫= k).
Proof.
  intros Hm Hk w. unfold mbind, W_bind. destruct (Hm w) as (t & Ht & Hp).
  destruct (m w) as [w' [a| |]]; simpl in *; [|by exists t..].
  destruct (Hk a w') as (t' & Ht' & Hp'). exists (t ++ t').
  rewrite Ht', Ht, app_assoc. split; [done|]. by apply Forall_app.
Qed.

Lemma emits_state (f : WorkflowState -> WorkflowState) : emits P (modify (set_state f)).
Proof. by apply emits_silent. Qed.

Lemma emits_vars (f : vars -> vars) : emits P (modify (set_vars f)).
Proof. by apply emits_silent. Qed.

Lemma emits_execute {B} E o (a : activity B) :
  (forall r, P (EvActivity o a r)) -> emits P (execute E o a).
Proof.
  intros Hp w. eexists [_]. simpl. split; [|by constructor].
  by rewrite (arrive_obs w_trace).
Qed.

Lemma emits_sleep n : P (EvSleep n) -> emits P (sleep n).
Proof.
  intros Hp w. eexists [_]. simpl. split; [|by constructor]. by rewrite (arrive_obs w_trace).
Qed.

Lemma emits_timer ttl n : P (EvTimer n) ->
  emits P (if ttl : bool then newTTLTimer n else newPollTimer n).
Proof. intros Hp w. exists [EvTimer n]. destruct ttl; (split; [done|by constructor]). Qed.

Lemma emits_ttl n : P (EvTimer n) -> emits P (newTTLTimer n).
Proof. intros. by apply (emits_timer true). Qed.
Lemma emits_poll n : P (EvTimer n) -> emits P (newPollTimer n).
Proof. intros. by apply (emits_timer false). Qed.

Lemma emits_uuid E : (forall id, P (EvUUID id)) -> emits P (newWorkflowUUID E).
Proof. intros Hp w. eexists [_]. by split; [|constructor]. Qed.

Lemma emits_select ks : (forall i, P (EvReceive i)) -> emits P (select ks).
Proof.
  intros Hp w. pose proof (select_obs w_trace ks w) as H.
  destruct (select ks w) as [w' [i| |]]; simpl in *.
  - exists [EvReceive i]. split; [|by constructor]. apply H; try done. intros ??? E. simpl. by rewrite E.
  - exists []. rewrite app_nil_r. split; [|done]. apply H; try done. intros ??? E. simpl. by rewrite E.
  - destruct H; try done. intros ??? E. simpl. by rewrite E.
Qed.

Lemma emits_receiveAsync : (forall i, P (EvReceive i)) -> emits P receiveAsyncCancel.
Proof.
  intros Hp w. unfold receiveAsyncCancel. destruct (receive KCancel w) as [[i w']|] eqn:E.
  - exists [EvReceive i]. split; [|by constructor]. simpl. f_equal. by eapply (receive_obs w_trace).
  - exists []. by rewrite app_nil_r.
Qed.

Lemma emits_log e : P e -> emits P (modify (log e)).
Proof. intros Hp w. exists [e]. by split; [|constructor]. Qed.

Lemma emits_waitChild E id : (forall r, P (EvChildWait id r)) -> emits P (waitChild E id).
Proof.
  intros Hp w. eexists [_]. simpl. split; [|by constructor]. by rewrite (arrive_obs w_trace).
Qed.

Lemma emits_waitChildStarted E id :
  (forall r, P (EvChildWait id r)) -> emits P (waitChildStarted E id).
Proof.
  intros Hp w. eexists [_]. simpl. split; [|by constructor]. by rewrite (arrive_obs w_trace).
Qed.

Lemma emits_with_defer {A} (c : W unit) (m : W A) : emits P c -> emits P m -> emits P (with_defer c m).
Proof.
  intros Hc Hm. unfold with_defer. apply emits_bind; [done|]. intros a.
  apply emits_bind; [done|]. intros _. apply emits_ret.
Qed.
End emits.

Lemma emits_mono {A} (P Q : event -> Prop) (m : W A) :
  (forall e, P e -> Q e) -> emits P m -> emits Q m.
Proof. intros H Hm w. destruct (Hm w) as (t & ? & ?). exists t. split; [done|]. by eapply Forall_impl. Qed.

(** At most [n] of the events [m] adds satisfy [P]. *)
Definition counts {A} (P : event -> bool) (n : nat) (m : W A) : Prop :=
  forall w, exists t, w_trace (m w).1 = w_trace w ++ t /\ length (List.filter P t) <= n.

Section counts.
Context {P : event -> bool}.

Lemma filter_none (t : list event) : Forall (fun e => P e = false) t -> List.filter P t = [].
Proof. induction 1 as [|e t He _ IH]; simpl; [done|]. by rewrite He. Qed.

Lemma counts_emits {A} (m : W A) n : emits (fun e => P e = false) m -> counts P n m.
Proof.
  intros H w. destruct (H w) as (t & Ht & Hp). exists t. split; [done|].
  rewrite filter_none by done. simpl. lia.
Qed.

Lemma counts_bind {A B} n1 n2 (m : W A) (k : A -> W B) :
  counts P n1 m -> (forall a, counts P n2 (k a)) -> counts P (n1 + n2) (m ≫= k).
Proof.
  intros Hm Hk w. unfold mbind, W_bind. destruct (Hm w) as (t & Ht & Hp).
  destruct (m w) as [w' [a| |]]; simpl in *; [|exists t; split; [done|lia]..].
  destruct (Hk a w') as (t' & Ht' & Hp'). exists (t ++ t').
  rewrite Ht', Ht, app_assoc, List.filter_app, length_app. split; [done|lia].
Qed.

Lemma counts_execute {B} E o (a : activity B) : counts P 1 (execute E o a).
Proof.
  intros w. eexists [_]. simpl. split; [by rewrite (arrive_obs w_trace)|]. by destruct (P _); simpl; lia.
Qed.

Lemma counts_mono {A} n n' (m : W A) : n <= n' -> counts P n m -> counts P n' m.
Proof. intros Hn Hm w. destruct (Hm w) as (t & ? & ?). exists t. split; [done|lia]. Qed.
End counts.

(** ** Observations that are kept *)

(** An observation of the variables, which neither inputs nor events touch. *)
Class Passive {C} (f : World -> C) : Prop := {
  passive_queues w c h a : f (set_queues c h a w) = f w;
  passive_timers w t k : f (set_timers t k w) = f w;
  passive_future w bs : f (set_future bs w) = f w;
  passive_log w e : f (log e w) = f w;
}.

#[export] Instance passive_state : Passive w_state.
Proof. by split. Qed.
#[export] Instance passive_vars : Passive w_vars.
Proof. by split. Qed.
#[export] Instance passive_compose {C D} (f : World -> C) (g : C -> D) :
  Passive f -> Passive (fun w => g (f w)).
Proof. intros [Hq Ht Hf Hl]. split; intros; by rewrite ?Hq, ?Ht, ?Hf, ?Hl. Qed.

Definition phase (w : World) : string := ws_Phase (w_state w).

#[export] Instance passive_phase : Passive phase.
Proof. by split. Qed.

Section keeps.
Context {C : Type} {f : World -> C}.

Lemma keeps_ret {A} (a : A) : keeps f (mret a : W A).
Proof. done. Qed.
Lemma keeps_fuel {A} : keeps f (out_of_fuel : W A).
Proof. done. Qed.
Lemma keeps_gets {A} (g : World -> A) : keeps f (gets g).
Proof. done. Qed.

Lemma keeps_bind {A B} (m : W A) (k : A -> W B) :
  keeps f m -> (forall a, keeps f (k a)) -> keeps f (m ≫= k).
Proof.
  intros Hm Hk w. unfold mbind, W_bind. specialize (Hm w).
  destruct (m w) as [w' [a| |]]; simpl in *; [|done..]. by rewrite Hk.
Qed.

Context `{!Passive f}.

Lemma keeps_arrive w : f (arrive w) = f w.
Proof. apply arrive_obs; apply _ || intros; [apply passive_queues|apply passive_timers|apply passive_future]. Qed.

Lemma keeps_execute {B} E o (a : activity B) : keeps f (execute E o a).
Proof. intros w. simpl. by rewrite passive_log, keeps_arrive. Qed.
Lemma keeps_sleep n : keeps f (sleep n).
Proof. intros w. simpl. by rewrite passive_log, keeps_arrive. Qed.
Lemma keeps_ttl n : keeps f (newTTLTimer n).
Proof. intros w. simpl. by rewrite passive_log, passive_timers. Qed.
Lemma keeps_poll n : keeps f (newPollTimer n).
Proof. intros w. simpl. by rewrite passive_log, passive_timers. Qed.
Lemma keeps_uuid E : keeps f (newWorkflowUUID E).
Proof. intros w. simpl. by rewrite passive_log. Qed.
Lemma keeps_log e : keeps f (modify (log e)).
Proof. intros w. simpl. by rewrite passive_log. Qed.
Lemma keeps_waitChild E id : keeps f (waitChild E id).
Proof. intros w. simpl. by rewrite passive_log, keeps_arrive. Qed.
Lemma keeps_select ks : keeps f (select ks).
Proof.
  intros w. pose proof (select_obs f ks w) as H.
  destruct (select ks w) as [w' [i| |]]; simpl in *.
  - rewrite H; [apply passive_log|apply passive_queues|apply passive_timers
      |apply passive_future|intros ??? E; by rewrite !passive_log].
  - apply H; [apply passive_queues|apply passive_timers
      |apply passive_future|intros ??? E; by rewrite !passive_log].
  - destruct H; [apply passive_queues|apply passive_timers
      |apply passive_future|intros ??? E; by rewrite !passive_log].
Qed.
Lemma keeps_receiveAsync : keeps f receiveAsyncCancel.
Proof.
  intros w. unfold receiveAsyncCancel. destruct (receive KCancel w) as [[i w']|] eqn:E; [|done].
  simpl. rewrite passive_log. eapply receive_obs; [apply passive_queues|done].
Qed.
End keeps.

Lemma keeps_state {C} (g : WorkflowState -> C) F :
  (forall s, g (F s) = g s) -> keeps (fun w => g (w_state w)) (modify (set_state F)).
Proof. intros H w. apply H. Qed.
Lemma keeps_vars_state F : keeps w_vars (modify (set_state F)).
Proof. done. Qed.
Lemma keeps_state_vars F : keeps w_state (modify (set_vars F)).
Proof. done. Qed.
Lemma keeps_phase_vars F : keeps phase (modify (set_vars F)).
Proof. done. Qed.
Lemma keeps_phase_state F : (forall s, ws_Phase (F s) = ws_Phase s) -> keeps phase (modify (set_state F)).
Proof. intros H w. apply H. Qed.

(** The resources a run has to give back. *)
Definition resources (w : World) : string * string :=
  (v_llmKey (w_vars w), v_deploymentName (w_vars w)).

#[export] Instance passive_resources : Passive resources.
Proof. by split. Qed.

Lemma keeps_resources_state F : keeps resources (modify (set_state F)).
Proof. done. Qed.
Lemma keeps_resources_vars F :
  (forall v, v_llmKey (F v) = v_llmKey v /\ v_deploymentName (F v) = v_deploymentName v) ->
  keeps resources (modify (set_vars F)).
Proof. intros H w. unfold resources. simpl. by destruct (H (w_vars w)) as [-> ->]. Qed.

(** ** Partial correctness *)

(** From a world that satisfies [P]: if [m] returns [a], then [Q a] holds; if it is
    still open, [J] holds. *)
Definition hoare {A} (P : World -> Prop) (m : W A) (Q : A -> World -> Prop) (J : World -> Prop) : Prop :=
  forall w, P w -> match (m w).2 with Done a => Q a (m w).1 | _ => J (m w).1 end.

Section hoare.
Implicit Types (P J : World -> Prop).

Lemma hoare_ret {A} P (a : A) Q J : (forall w, P w -> Q a w) -> hoare P (mret a) Q J.
Proof. intros H w Hw. by apply H. Qed.

Lemma hoare_bind {A B} P R (m : W A) (k : A -> W B) Q J :
  hoare P m R J -> (forall a, hoare (R a) (k a) Q J) -> hoare P (m ≫= k) Q J.
Proof.
  intros Hm Hk w Hw. specialize (Hm w Hw). unfold mbind, W_bind.
  destruct (m w) as [w' [a| |]]; simpl in *; [|done..]. by apply Hk.
Qed.

Lemma hoare_conseq {A} P P' (m : W A) Q Q' J J' :
  hoare P' m Q' J' -> (forall w, P w -> P' w) -> (forall a w, Q' a w -> Q a w) ->
  (forall w, J' w -> J w) -> hoare P m Q J.
Proof. intros H HP HQ HJ w Hw. specialize (H w (HP w Hw)). destruct (m w).2; eauto. Qed.

Lemma hoare_pre {A} P P' (m : W A) Q J :
  (forall w, P w -> P' w) -> hoare P' m Q J -> hoare P m Q J.
Proof. intros HP H w Hw. by apply H, HP. Qed.

Lemma hoare_modify P f Q J : (forall w, P w -> Q tt (f w)) -> hoare P (modify f) Q J.
Proof. intros H w Hw. by apply H. Qed.

Lemma hoare_gets {A} P (f : World -> A) Q J : (forall w, P w -> Q (f w) w) -> hoare P (gets f) Q J.
Proof. intros H w Hw. by apply H. Qed.

(** What a program keeps stays true of it. *)
Lemma hoare_kept {A C} (f : World -> C) (R : C -> Prop) (m : W A) :
  keeps f m -> hoare (fun w => R (f w)) m (fun _ w => R (f w)) (fun w => R (f w)).
Proof. intros H w Hw. destruct (m w).2; by rewrite H. Qed.

Definition any (w : World) : Prop := True.

Lemma hoare_any {A} P (m : W A) : hoare P m (fun _ => any) any.
Proof. intros w _. by destruct (m w).2. Qed.

(** A program that keeps the phase, in the middle of one that relies on it. *)
Lemma hoare_phase p {A} (m : W A) :
  keeps phase m -> hoare (fun w => phase w = p) m (fun _ w => phase w = p) any.
Proof. intros H w Hw. destruct (m w).2; [by rewrite H|done..]. Qed.

(** What a program adds to the history satisfies what it emits. *)
Lemma hoare_emits {A} (E : event -> Prop) (m : W A) t0 :
  emits E m ->
  hoare (fun w => w_trace w = t0) m
    (fun _ w => exists t, w_trace w = t0 ++ t /\ Forall E t)
    (fun w => exists t, w_trace w = t0 ++ t /\ Forall E t).
Proof. intros H w Hw. destruct (H w) as (t & Ht & He). subst t0. destruct (m w).2; by exists t. Qed.

(** The history after one call. *)
Definition history (t : list event) (w : World) : Prop := w_trace w = t.

Lemma hoare_execute {B} E o (a : activity B) t J :
  hoare (history t) (execute E o a) (fun r => history (t ++ [EvActivity o a r])) J.
Proof. intros w <-. unfold history. simpl. by rewrite (arrive_obs w_trace). Qed.

Lemma hoare_select ks t :
  hoare (history t) (select ks) (fun i => history (t ++ [EvReceive i])) (history t).
Proof.
  intros w <-. pose proof (select_obs w_trace ks w) as H. unfold history.
  destruct (select ks w) as [w' [i| |]]; simpl in *; [apply H; try done..|destruct H; try done];
    intros ??? E; simpl; by rewrite E.
Qed.

Lemma hoare_state t F J : hoare (history t) (modify (set_state F)) (fun _ => history t) J.
Proof. intros w <-. done. Qed.

(** The history together with the phase. *)
Definition phased (p : string) (t : list event) (w : World) : Prop := history t w /\ phase w = p.

Lemma hoare_phased_state p t F J :
  (forall s, ws_Phase (F s) = ws_Phase s) ->
  hoare (phased p t) (modify (set_state F)) (fun _ => phased p t) J.
Proof. intros HF w [Hh Hp]. split; [done|]. by rewrite <- Hp; apply HF. Qed.

Lemma hoare_phased_set p q t F J :
  (forall s, ws_Phase (F s) = q) ->
  hoare (phased p t) (modify (set_state F)) (fun _ => phased q t) J.
Proof. intros HF w [Hh Hp]. split; [done|]. apply HF. Qed.

Lemma hoare_phased_execute {B} E o (a : activity B) p t J :
  hoare (phased p t) (execute E o a) (fun r => phased p (t ++ [EvActivity o a r])) J.
Proof.
  intros w [<- Hp]. split; [unfold history; simpl; by rewrite (arrive_obs w_trace)|].
  by rewrite <- Hp, (keeps_execute (f := phase)).
Qed.

(** The history grows from [t]. *)
Definition grown (t : list event) (w : World) : Prop := exists t', history (t ++ t') w.

Lemma hoare_grows {A} t (m : W A) :
  emits (fun _ => True) m -> hoare (grown t) m (fun _ => grown t) any.
Proof.
  intros H w (t' & Ht'). destruct (H w) as (t2 & Ht2 & _). unfold grown, history in *.
  destruct (m w).2; [|done..]. exists (t' ++ t2). by rewrite Ht2, Ht', app_assoc.
Qed.

Lemma hoare_and {A} P P' (m : W A) Q Q' J J' :
  hoare P m Q J -> hoare P' m Q' J' ->
  hoare (fun w => P w /\ P' w) m (fun a w => Q a w /\ Q' a w) (fun w => J w /\ J' w).
Proof. intros H H' w [HP HP']. specialize (H w HP). specialize (H' w HP'). by destruct (m w).2. Qed.

Lemma hoare_with_defer {A} P (c : W unit) (m : W A) Q J :
  hoare P m Q J -> (forall a, hoare (Q a) c (fun _ => Q a) J) -> hoare P (with_defer c m) Q J.
Proof.
  intros Hm Hc. unfold with_defer. eapply hoare_bind; [done|]. intros a.
  eapply hoare_bind; [apply Hc|]. intros ?. by apply hoare_ret.
Qed.
End hoare.

(** Past the steps whose outcome does not matter. *)
Ltac skip1 := eapply hoare_bind; [apply hoare_any|]; intros ?; cbv beta.
Ltac skip_any := repeat lazymatch goal with |- hoare _ (_ ≫= _) _ any => skip1 end.

(** ** Steps that certainly happen *)

(** [m] returns. *)
Definition completes {A} (m : W A) : Prop := forall w, exists a, (m w).2 = Done a.

(** [m] adds an event that satisfies [P], however it ends. *)
Definition performs {A} (P : event -> bool) (m : W A) : Prop :=
  forall w, exists t, w_trace (m w).1 = w_trace w ++ t /\ existsb P t = true.

Lemma completes_ret {A} (a : A) : completes (mret a).
Proof. intros w. by eexists. Qed.
Lemma completes_execute {B} E o (a : activity B) : completes (execute E o a).
Proof. intros w. by eexists. Qed.
Lemma completes_sleep n : completes (sleep n).
Proof. intros w. by eexists. Qed.
Lemma completes_gets {A} (f : World -> A) : completes (gets f).
Proof. intros w. by eexists. Qed.
Lemma completes_bind {A B} (m : W A) (k : A -> W B) :
  completes m -> (forall a, completes (k a)) -> completes (m ≫= k).
Proof.
  intros Hm Hk w. destruct (Hm w) as [a Ha]. unfold mbind, W_bind.
  destruct (m w) as [w' r]. simpl in Ha. subst r. apply Hk.
Qed.

Lemma performs_execute {B} E o (a : activity B) P :
  (forall r, P (EvActivity o a r) = true) -> performs P (execute E o a).
Proof.
  intros Hp w. eexists [_]. simpl. split; [by rewrite (arrive_obs w_trace)|]. by rewrite Hp.
Qed.

Lemma performs_first {A B} P (m : W A) (k : A -> W B) :
  performs P m -> (forall a, emits (fun _ => True) (k a)) -> performs P (m ≫= k).
Proof.
  intros Hm Hk w. destruct (Hm w) as (t & Ht & Hp). unfold mbind, W_bind.
  destruct (m w) as [w' [a| |]]; simpl in *; [|by exists t..].
  destruct (Hk a w') as (t' & Ht' & _). exists (t ++ t').
  rewrite Ht', Ht, app_assoc, existsb_app, Hp. done.
Qed.

Lemma performs_then {A B} P (m : W A) (k : A -> W B) :
  completes m -> emits (fun _ => True) m -> (forall a, performs P (k a)) -> performs P (m ≫= k).
Proof.
  intros Hc Hm Hk w. destruct (Hc w) as [a Ha]. destruct (Hm w) as (t & Ht & _).
  unfold mbind, W_bind. destruct (m w) as [w' r]. simpl in *. subst r.
  destruct (Hk a w') as (t' & Ht' & Hp). exists (t ++ t').
  rewrite Ht', Ht, app_assoc, existsb_app, Hp. split; [done|]. apply orb_true_r.
Qed.

(** Somewhere in a history an event satisfies [P], and a later one [Q]. *)
Fixpoint followed (P Q : event -> bool) (t : list event) : bool :=
  match t with [] => false | e :: t => (P e && existsb Q t) || followed P Q t end.

Lemma followed_split P Q t1 t2 :
  existsb P t1 = true -> existsb Q t2 = true -> followed P Q (t1 ++ t2) = true.
Proof.
  intros Hp Hq. induction t1 as [|e t1 IH]; [done|]. simpl in *.
  apply orb_true_iff in Hp as [->|Hp]; [by rewrite existsb_app, Hq, orb_true_r|].
  by rewrite IH, orb_true_r.
Qed.

Lemma followed_after P Q t1 t2 : followed P Q t2 = true -> followed P Q (t1 ++ t2) = true.
Proof. intros H. induction t1 as [|e t1 IH]; [done|]. simpl. by rewrite IH, orb_true_r. Qed.

(** [m] adds an event that satisfies [P] and then one that satisfies [Q], however it ends. *)
Definition performs_both {A} (P Q : event -> bool) (m : W A) : Prop :=
  forall w, exists t, w_trace (m w).1 = w_trace w ++ t /\ followed P Q t = true.

Lemma performs_in_turn {A B} P Q (m : W A) (k : A -> W B) :
  completes m -> performs P m -> (forall a, performs Q (k a)) -> performs_both P Q (m ≫= k).
Proof.
  intros Hc Hm Hk w. destruct (Hc w) as [a Ha]. destruct (Hm w) as (t & Ht & Hp).
  unfold mbind, W_bind. destruct (m w) as [w' r]. simpl in *. subst r.
  destruct (Hk a w') as (t' & Ht' & Hq). exists (t ++ t').
  rewrite Ht', Ht, app_assoc. split; [done|]. by apply followed_split.
Qed.

Lemma performs_both_then {A B} P Q (m : W A) (k : A -> W B) :
  completes m -> emits (fun _ => True) m -> (forall a, performs_both P Q (k a)) ->
  performs_both P Q (m ≫= k).
Proof.
  intros Hc Hm Hk w. destruct (Hc w) as [a Ha]. destruct (Hm w) as (t & Ht & _).
  unfold mbind, W_bind. destruct (m w) as [w' r]. simpl in *. subst r.
  destruct (Hk a w') as (t' & Ht' & Hp). exists (t ++ t').
  rewrite Ht', Ht, app_assoc. split; [done|]. by apply followed_after.
Qed.

(** ** Fuel *)

Definition no_fuel {A} (m : W A) : Prop := forall w, (m w).2 <> OutOfFuel.

Lemma no_fuel_ret {A} (a : A) : no_fuel (mret a).
Proof. done. Qed.
Lemma no_fuel_gets {A} (f : World -> A) : no_fuel (gets f).
Proof. done. Qed.
Lemma no_fuel_modify f : no_fuel (modify f).
Proof. done. Qed.
Lemma no_fuel_execute {B} E o (a : activity B) : no_fuel (execute E o a).
Proof. done. Qed.
Lemma no_fuel_sleep n : no_fuel (sleep n).
Proof. done. Qed.
Lemma no_fuel_uuid E : no_fuel (newWorkflowUUID E).
Proof. done. Qed.
Lemma no_fuel_waitChild E id : no_fuel (waitChild E id).
Proof. done. Qed.
Lemma no_fuel_waitChildStarted E id : no_fuel (waitChildStarted E id).
Proof. done. Qed.
Lemma no_fuel_receiveAsync : no_fuel receiveAsyncCancel.
Proof. intros w. unfold receiveAsyncCancel. by destruct (receive KCancel w) as [[]|]. Qed.
Lemma no_fuel_select ks : no_fuel (select ks).
Proof.
  intros w H. pose proof (select_obs (fun _ => ()) ks w) as Hs. rewrite H in Hs. by apply Hs.
Qed.
Lemma no_fuel_bind {A B} (m : W A) (k : A -> W B) :
  no_fuel m -> (forall a, no_fuel (k a)) -> no_fuel (m ≫= k).
Proof.
  intros Hm Hk w. unfold mbind, W_bind. specialize (Hm w).
  destruct (m w) as [w' [a| |]]; simpl in *; [apply Hk|done|done].
Qed.
Lemma no_fuel_with_defer {A} (c : W unit) (m : W A) : no_fuel c -> no_fuel m -> no_fuel (with_defer c m).
Proof. intros Hc Hm. apply no_fuel_bind; [done|]. intros a. by apply no_fuel_bind. Qed.

(** ** Inputs are used up *)

Lemma pending_absorb1 w i : pending (absorb1 w i) <= pending w + 1.
Proof.
  destruct i; unfold pending; simpl; rewrite ?length_app; simpl; try lia; destruct (w_tick w); lia.
Qed.

Lemma pending_absorb b w : pending (absorb b w) <= pending w + length b.
Proof.
  revert w. induction b as [|i b IH]; intros w; simpl; [lia|]. fold (absorb b (absorb1 w i)).
  specialize (IH (absorb1 w i)). pose proof (pending_absorb1 w i). lia.
Qed.

Lemma pending_future b bs w :
  w_future w = b :: bs -> pending (set_future bs w) + length b = pending w.
Proof.
  intros E. unfold pending. rewrite E, fmap_cons.
  change (sum_list (length b :: (length <$> bs))) with (length b + sum_list (length <$> bs)).
  cbn [set_future w_cancel w_human w_tick w_future]. lia.
Qed.

Lemma pending_arrive w : pending (arrive w) <= pending w.
Proof.
  unfold arrive. destruct (w_future w) as [|b bs] eqn:E; [done|].
  pose proof (pending_absorb b (set_future bs w)). pose proof (pending_future b bs w E). lia.
Qed.

(** The cost of an input a polling loop receives: it leaves the queue at once, or
    its timer stays fired until it is started again. *)
Definition taken (w : World) (i : input) (w' : World) : Prop :=
  match i with
  | InCancel | InHuman _ => pending w' < pending w
  | InTick => w_tick w' = true /\ pending w' <= pending w
  | InTTL => pending w' <= pending w
  | InApproval _ => False
  end.

Definition poll_kinds : list kind := [KCancel; KHuman; KTTL; KTick].

Lemma first_ready_taken w i w' :
  first_ready poll_kinds w = Some (i, w') -> taken w i w' /\ w_future w' = w_future w.
Proof.
  unfold poll_kinds, first_ready, receive.
  destruct (w_cancel w) as [|n] eqn:Ec; [|intros [= <- <-]].
  2: { split; [|done]. unfold taken, pending. simpl. lia. }
  destruct (w_human w) as [|t q] eqn:Eh; [|intros [= <- <-]].
  2: { split; [|done]. unfold taken, pending. rewrite Eh. simpl. lia. }
  unfold taken. destruct (w_ttl w); [intros [= <- <-]; by split; [lia|]|].
  destruct (w_tick w) eqn:Et; [intros [= <- <-]|done]. by split; [split; [|lia]|].
Qed.

Lemma absorb_tick b w : w_tick w = true -> w_tick (absorb b w) = true.
Proof.
  intros H. unfold absorb. apply (foldl_ind (fun w => w_tick w = true)); [done|].
  intros w' i _ Hw. by destruct i.
Qed.

Lemma absorb_future b w : w_future (absorb b w) = w_future w.
Proof.
  unfold absorb. apply (foldl_ind (fun w' => w_future w' = w_future w)); [done|].
  intros w' i _ Hw. by destruct i.
Qed.

Lemma offer_taken b w :
  match offer poll_kinds b w with
  | (w', Some i) =>
      w_future w' = w_future w /\
      match i with
      | InCancel | InHuman _ => pending w' < pending w + length b
      | InTick => w_tick w' = true /\ pending w' <= pending w + length b
      | InTTL => pending w' <= pending w + length b
      | InApproval _ => False
      end
  | (w', None) => w_future w' = w_future w /\ pending w' <= pending w + length b
  end.
Proof.
  revert w. induction b as [|i b IH]; intros w; cbn [offer]; [split; [done|simpl; lia]|].
  pose proof (pending_absorb1 w i) as H1.
  assert (w_future (absorb1 w i) = w_future w) as Hf by (by destruct i).
  destruct (first_ready poll_kinds (absorb1 w i)) as [[s w2]|] eqn:E.
  - apply first_ready_taken in E as [E Ef]. rewrite absorb_future. cbn [log w_future].
    split; [congruence|].
    pose proof (pending_absorb b (log (EvReceive s) w2)) as H2.
    change (pending (log (EvReceive s) w2)) with (pending w2) in H2.
    destruct s; unfold taken in E; simpl length; try lia.
    destruct E as [Et E]. split; [by apply absorb_tick|lia].
  - specialize (IH (absorb1 w i)). simpl length.
    destruct (offer poll_kinds b (absorb1 w i)) as [w' [[]|]]; rewrite Hf in IH;
      (destruct IH as [IHf IH]; split; [done|]); try lia.
    destruct IH. split; [done|lia].
Qed.

Lemma drain_taken bs w i w' :
  w_future w = bs -> drain poll_kinds bs w = (w', Done i) -> taken w i w'.
Proof.
  revert w. induction bs as [|b bs IH]; intros w Hf; cbn [drain]; [done|].
  pose proof (pending_future b bs w Hf) as Hp.
  pose proof (offer_taken b (set_future bs w)) as Ho.
  destruct (offer poll_kinds b (set_future bs w)) as [w1 [j|]].
  - intros [= -> ->]. destruct Ho as [_ Ho]. unfold taken. destruct i; try lia.
    destruct Ho. split; [done|lia].
  - intros H. destruct Ho as [Hf1 Ho]. apply IH in H; [|done]. unfold taken in *.
    destruct i; try lia. destruct H. split; [done|lia].
Qed.

Lemma select_taken w i w' : select poll_kinds w = (w', Done i) -> taken w i w'.
Proof.
  unfold select. destruct (first_ready poll_kinds w) as [[j w1]|] eqn:E.
  - intros [= <- ->]. apply first_ready_taken in E as [E _]. done.
  - by apply drain_taken.
Qed.

(** Programs that use inputs up, but never make any. *)
Definition frugal {A} (m : W A) : Prop := forall w, pending (m w).1 <= pending w.

Lemma frugal_ret {A} (a : A) : frugal (mret a : W A).
Proof. intros w. exact (le_n _). Qed.
Lemma frugal_gets {A} (f : World -> A) : frugal (gets f).
Proof. intros w. exact (le_n _). Qed.
Lemma frugal_state F : frugal (modify (set_state F)).
Proof. intros w. exact (le_n _). Qed.
Lemma frugal_execute {B} E o (a : activity B) : frugal (execute E o a).
Proof. intros w. apply pending_arrive. Qed.
Lemma frugal_bind {A B} (m : W A) (k : A -> W B) :
  frugal m -> (forall a, frugal (k a)) -> frugal (m ≫= k).
Proof.
  intros Hm Hk w. unfold mbind, W_bind. specialize (Hm w).
  destruct (m w) as [w' [a| |]]; simpl in *; [|lia..]. specialize (Hk a w'). lia.
Qed.

(** Whether the poll timer has fired only changes when it is started again. *)
Definition tick_stays {A} (m : W A) : Prop := forall w, w_tick w = true -> w_tick (m w).1 = true.

Lemma tick_execute {B} E o (a : activity B) : tick_stays (execute E o a).
Proof.
  intros w H. simpl. unfold arrive. destruct (w_future w); [done|]. by apply absorb_tick.
Qed.

(** One poll: the answer is handled by changing the state, and the poll timer is
    started again, which takes the fired timer back. *)
Lemma poll_uses {B} E o (a : activity B) (h : answer B -> W nat) s w :
  (forall r, keeps pending (h r)) -> (forall r, keeps w_tick (h r)) -> w_tick w = true ->
  pending ((r ← execute E o a; n ← h r; newPollTimer s;; mret n) w).1 < pending w \/
  forall n, ((r ← execute E o a; n ← h r; newPollTimer s;; mret n) w).2 <> Done n.
Proof.
  intros Hp Ht Hw. unfold mbind, W_bind.
  pose proof (frugal_execute E o a w) as Hf. pose proof (tick_execute E o a w Hw) as Hk.
  destruct (execute E o a w) as [w1 [r| |]] eqn:E1; [|right; done..]. simpl in Hf, Hk.
  specialize (Hp r w1). specialize (Ht r w1).
  destruct (h r w1) as [w2 [n| |]]; [|right; done..]. left. simpl in *.
  rewrite Hk in Ht. unfold pending in *. simpl. rewrite Ht in Hp. lia.
Qed.

(** ** Automation *)

Ltac head_of t := lazymatch t with ?f _ => head_of f | _ => t end.
Ltac unfold_head m := let h := head_of m in unfold h; cbv beta.

(** [wf] walks through a program and applies the rule of each construct; calls of
    definitions are closed by a lemma of the [unc] database, or unfolded. *)
Ltac wf :=
  intros; cbv beta;
  lazymatch goal with
  | |- emits _ (mret _) => apply emits_ret
  | |- emits _ (_ ≫= _) => apply emits_bind; [wf | intros ?; wf]
  | |- emits _ (with_defer _ _) => apply emits_with_defer; wf
  | |- emits _ (modify (set_state _)) => apply emits_state
  | |- emits _ (modify (set_vars _)) => apply emits_vars
  | |- emits _ (modify (log _)) => apply emits_log; try done
  | |- emits _ (gets _) => apply emits_gets
  | |- emits _ out_of_fuel => apply emits_fuel
  | |- emits _ (execute _ _ _) => apply emits_execute; intros ?; try done
  | |- emits _ (sleep _) => apply emits_sleep; try done
  | |- emits _ (newTTLTimer _) => apply emits_ttl; try done
  | |- emits _ (newPollTimer _) => apply emits_poll; try done
  | |- emits _ (newWorkflowUUID _) => apply emits_uuid; intros ?; try done
  | |- emits _ (select _) => apply emits_select; intros ?; try done
  | |- emits _ receiveAsyncCancel => apply emits_receiveAsync; intros ?; try done
  | |- emits _ (waitChild _ _) => apply emits_waitChild; intros ?; try done
  | |- emits _ (waitChildStarted _ _) => apply emits_waitChildStarted; intros ?; try done
  | |- emits _ (match ?x with _ => _ end) => destruct x; wf
  | |- emits _ ?m => first [solve [eauto with unc nocore] | unfold_head m; wf]
  | |- keeps _ (mret _) => apply keeps_ret
  | |- keeps _ (_ ≫= _) => apply keeps_bind; [wf | intros ?; wf]
  | |- keeps w_vars (modify (set_state _)) => apply keeps_vars_state
  | |- keeps w_state (modify (set_vars _)) => apply keeps_state_vars
  | |- keeps phase (modify (set_vars _)) => apply keeps_phase_vars
  | |- keeps phase (modify (set_state _)) => apply keeps_phase_state; intros ?; try done
  | |- keeps resources (modify (set_state _)) => apply keeps_resources_state
  | |- keeps resources (modify (set_vars _)) => apply keeps_resources_vars; try done
  | |- keeps _ (modify (set_state _)) => intros ?; reflexivity
  | |- keeps _ (modify (log _)) => apply keeps_log
  | |- keeps _ (gets _) => apply keeps_gets
  | |- keeps _ out_of_fuel => apply keeps_fuel
  | |- keeps _ (execute _ _ _) => apply keeps_execute
  | |- keeps _ (sleep _) => apply keeps_sleep
  | |- keeps _ (newTTLTimer _) => apply keeps_ttl
  | |- keeps _ (newPollTimer _) => apply keeps_poll
  | |- keeps _ (newWorkflowUUID _) => apply keeps_uuid
  | |- keeps _ (select _) => apply keeps_select
  | |- keeps _ receiveAsyncCancel => apply keeps_receiveAsync
  | |- keeps _ (match ?x with _ => _ end) => destruct x; wf
  | |- keeps _ ?m => first [solve [eauto with unc nocore] | unfold_head m; wf]
  | |- no_fuel (mret _) => apply no_fuel_ret
  | |- no_fuel (_ ≫= _) => apply no_fuel_bind; [wf | intros ?; wf]
  | |- no_fuel (with_defer _ _) => apply no_fuel_with_defer; wf
  | |- no_fuel (modify _) => apply no_fuel_modify
  | |- no_fuel (gets _) => apply no_fuel_gets
  | |- no_fuel (execute _ _ _) => apply no_fuel_execute
  | |- no_fuel (sleep _) => apply no_fuel_sleep
  | |- no_fuel (newWorkflowUUID _) => apply no_fuel_uuid
  | |- no_fuel (select _) => apply no_fuel_select
  | |- no_fuel receiveAsyncCancel => apply no_fuel_receiveAsync
  | |- no_fuel (waitChild _ _) => apply no_fuel_waitChild
  | |- no_fuel (waitChildStarted _ _) => apply no_fuel_waitChildStarted
  | |- no_fuel (match ?x with _ => _ end) => destruct x; wf
  | |- no_fuel ?m => first [solve [eauto with unc nocore] | unfold_head m; wf]
  | |- completes (mret _) => apply completes_ret
  | |- completes (_ ≫= _) => apply completes_bind; [wf | intros ?; wf]
  | |- completes (gets _) => apply completes_gets
  | |- completes (execute _ _ _) => apply completes_execute
  | |- completes (sleep _) => apply completes_sleep
  | |- completes (match ?x with _ => _ end) => destruct x; wf
  | |- completes ?m => first [solve [eauto with unc nocore] | unfold_head m; wf]
  | |- frugal (mret _) => apply frugal_ret
  | |- frugal (_ ≫= _) => apply frugal_bind; [wf | intros ?; wf]
  | |- frugal (modify (set_state _)) => apply frugal_state
  | |- frugal (gets _) => apply frugal_gets
  | |- frugal (execute _ _ _) => apply frugal_execute
  | |- frugal (match ?x with _ => _ end) => destruct x; wf
  | |- frugal ?m => first [solve [eauto with unc nocore] | unfold_head m; wf]
  end.
