(* ===== verification/ApprovalGate.v ===== *)
(** * The approval gate: [runApprovalGate] of [internal/temporal/workflow.go].

    The gate is called at the end of a run, by the single-agent workflow and by
    the spec-driven pipeline.  [nil] lets the run through; an error stops it. *)

From S2P Require Import Prelude GoStrings TemporalTypes Workflow WorkflowLogic.

(** [internal/temporal/workflow.go:1123-1129] runApprovalGate: the effective mode *)
Definition gate_mode (input : WorkflowInput) : string :=
  let mode := ToLower (TrimSpace (wi_ApprovalMode input)) in
  if String.eqb mode "" then "hybrid" else mode.

Definition has_judge (mode : string) : bool := String.eqb mode "llm-judge" || String.eqb mode "hybrid".
Definition has_human (mode : string) : bool := String.eqb mode "hitl" || String.eqb mode "hybrid".

(** [%v] of a bool *)
Definition show_bool (b : bool) : string := if b then "true" else "false".

(** [internal/temporal/workflow.go:1157-1157] runApprovalGate: verdictJSON *)
Definition verdictJSON (out : LLMJudgeOutput) : string :=
  "{" +:+ dquote +:+ "pass" +:+ dquote +:+ ":" +:+ show_bool (lj_Approved out) +:+ "," +:+
  dquote +:+ "failureReport" +:+ dquote +:+ ":" +:+ Quote (lj_Reason out) +:+ "}".

(** [internal/temporal/workflow.go:1186-1192] runApprovalGate: a human input that rejects *)
Definition input_rejects (text : string) : bool :=
  let lower := ToLower (TrimSpace text) in
  HasPrefix lower "reject" || HasPrefix lower "deny" || HasPrefix lower "no".

(** [internal/temporal/workflow.go:1177-1193] runApprovalGate: what a signal decides, as
    [approved] and [rejectionReason] *)
Definition decision (i : Workflow.input) : bool * string :=
  match i with
  | InApproval d => (ad_Approved d, ad_Reason d)
  | InHuman text => if input_rejects text then (false, text) else (true, "")
  | _ => (false, "")
  end.

Section gate.
Context (E : env) (input : WorkflowInput).

Definition judgeOpts : ActivityOptions := options 180 30 (attempts 2).

Definition judgeInput (podIP repoPath llmKey : string) : LLMJudgeInput :=
  {| lj_AgentRunName := wi_AgentRunName input; lj_PodIP := podIP; lj_RepoPath := repoPath;
     lj_Prompt := wi_Prompt input; lj_LiteLLMBaseURL := wi_LiteLLMBaseURL input;
     lj_LLMKey := llmKey; lj_ModelTier := "deepseek-v3.1" |}.

(** [internal/temporal/workflow.go:1131-1166] runApprovalGate: the LLM judge *)
Definition runJudge (podIP repoPath llmKey : string) (next : W goerr) : W goerr :=
  setMessage "Agent completed — running LLM judge review";;
  r ← execute E judgeOpts (LLMJudgeChanges (judgeInput podIP repoPath llmKey));
  match r with
  | Failure e => setMessage ("LLM judge error (skipped): " +:+ e_msg e);; next
  | Success out =>
      setVerificationResult (verdictJSON out);;
      if lj_Approved out then
        setMessage ("LLM judge approved: " +:+ lj_Reason out);; next
      else
        setPhase "Failed";;
        setMessage ("Rejected by LLM judge: " +:+ lj_Reason out);;
        mret (errorf errInvalidInput ("run rejected by LLM judge: " +:+ lj_Reason out))
  end.

(** [internal/temporal/workflow.go:1168-1207] runApprovalGate: the human *)
Definition runHuman : W goerr :=
  setPhase "WaitingForInput";;
  setMessage "Agent completed — awaiting human approval. Use: uncworks input <id> <approve|reject>";;
  i ← select [KApproval; KHuman];
  let '(approved, rejectionReason) := decision i in
  if negb approved then
    let reason := if String.eqb rejectionReason "" then "rejected by human reviewer"
                  else rejectionReason in
    setPhase "Failed";;
    setMessage ("Rejected: " +:+ reason);;
    mret (errorf errInvalidInput ("run rejected by human reviewer: " +:+ reason))
  else
    setPhase "Succeeded";;
    setMessage "Approved by human reviewer";;
    mret None.

(** [internal/temporal/workflow.go:1116-1210] runApprovalGate *)
Definition runApprovalGate (podIP repoPath llmKey : string) : W goerr :=
  let mode := gate_mode input in
  if String.eqb mode "none" then mret None
  else
    let human := if has_human mode then runHuman else mret None in
    if has_judge mode then runJudge podIP repoPath llmKey human else human.
End gate.

(** * What the gate decides *)

(** The judge did not reject: it approved, or it could not be asked. *)
Definition judge_let_through (e : event) : bool :=
  match e with
  | EvActivity _ (LLMJudgeChanges _) (Success out) => lj_Approved out
  | EvActivity _ (LLMJudgeChanges _) (Failure _) => true
  | _ => false
  end.

Definition judge_rejected (e : event) : bool :=
  match e with
  | EvActivity _ (LLMJudgeChanges _) (Success out) => negb (lj_Approved out)
  | _ => false
  end.

(** A signal that approves, or that rejects. *)
Definition human_approved (e : event) : bool :=
  match e with EvReceive i => (decision i).1 | _ => false end.

Definition human_rejected (e : event) : bool :=
  match e with EvReceive i => negb (decision i).1 | _ => false end.

(** The history of a gate that was passed. *)
Definition gate_passed (input : WorkflowInput) (t : list event) : Prop :=
  (has_judge (gate_mode input) = true -> existsb judge_let_through t = true) /\
  (has_human (gate_mode input) = true -> existsb human_approved t = true).

(** The history of a gate that was not. *)
Definition gate_refused (input : WorkflowInput) (t : list event) : Prop :=
  (has_judge (gate_mode input) = true /\ existsb judge_rejected t = true) \/
  (has_human (gate_mode input) = true /\ existsb human_rejected t = true).

(** The gate touches nothing but its judge and its signals. *)
Definition gate_event (e : event) : Prop :=
  match e with
  | EvActivity _ (LLMJudgeChanges _) _ | EvReceive _ => True
  | _ => False
  end.

Lemma runApprovalGate_emits E input podIP path key :
  emits gate_event (runApprovalGate E input podIP path key).
Proof. wf. Qed.

Lemma runApprovalGate_no_fuel E input podIP path key :
  no_fuel (runApprovalGate E input podIP path key).
Proof. wf. Qed.

Lemma runApprovalGate_vars E input podIP path key :
  keeps w_vars (runApprovalGate E input podIP path key).
Proof. wf. Qed.

#[export] Hint Resolve runApprovalGate_no_fuel runApprovalGate_vars : unc.

Lemma runHuman_spec t J :
  (forall w, history t w -> J w) ->
  hoare (history t) runHuman
    (fun e w => exists i, history (t ++ [EvReceive i]) w /\
       match e with
       | None => (decision i).1 = true /\ phase w = "Succeeded"
       | Some _ => (decision i).1 = false /\ phase w = "Failed"
       end) J.
Proof.
  intros HJ. unfold runHuman.
  eapply hoare_bind; [apply (hoare_state t)|]. intros ?.
  eapply hoare_bind; [apply (hoare_state t)|]. intros ?.
  eapply hoare_bind; [eapply hoare_conseq; [apply hoare_select|done..]|]. intros i. cbv beta.
  destruct (decision i) as [[] reason] eqn:Ed; simpl; intros w Hw; exists i; by rewrite Ed.
Qed.

(** What a run of the gate leaves: its part of the history, and the phase. *)
Definition gate_result (input : WorkflowInput) (p : string) (e : goerr) (t : list event)
    (w : World) : Prop :=
  match e with
  | None => gate_passed input t /\ phase w = (if has_human (gate_mode input) then "Succeeded" else p)
  | Some _ => gate_refused input t /\ phase w = "Failed"
  end.

Lemma runHuman_mode input t tj p J :
  (forall w, history (t ++ tj) w -> J w) ->
  (has_judge (gate_mode input) = true -> existsb judge_let_through tj = true) ->
  hoare (phased p (t ++ tj)) (if has_human (gate_mode input) then runHuman else mret None)
    (fun e w => exists t', history (t ++ t') w /\ gate_result input p e t' w) J.
Proof.
  intros HJ Hj. destruct (has_human (gate_mode input)) eqn:Eh.
  - eapply hoare_conseq; [apply (runHuman_spec (t ++ tj) J HJ)|by intros w []| |done].
    intros e w (i & Hh & He). exists (tj ++ [EvReceive i]). rewrite app_assoc. split; [done|].
    unfold gate_result, gate_passed, gate_refused. rewrite Eh, !existsb_app. simpl.
    destruct e as [e|]; destruct He as [-> ->].
    + split; [|done]. right. split; [done|]. by rewrite orb_true_r.
    + split; [|done]. split; intros H; [apply orb_true_iff; auto|by rewrite orb_true_r].
  - intros w [Hh Hp]. exists tj. split; [done|]. unfold gate_result, gate_passed. rewrite Eh.
    by split.
Qed.

(** From phase [p], the gate either passes or refuses, for a reason its history
    shows. *)
Lemma runApprovalGate_spec E input podIP path key t p J :
  (forall w t', history (t ++ t') w -> J w) ->
  hoare (phased p t) (runApprovalGate E input podIP path key)
    (fun e w => exists t', history (t ++ t') w /\ gate_result input p e t' w) J.
Proof.
  intros HJ. unfold runApprovalGate. destruct (String.eqb (gate_mode input) "none") eqn:En.
  { apply String.eqb_eq in En. intros w [Hh Hp]. exists []. rewrite app_nil_r. split; [done|].
    unfold gate_result, gate_passed. by rewrite En. }
  destruct (has_judge (gate_mode input)) eqn:Ej.
  2: { eapply hoare_conseq; [apply (runHuman_mode input t [] p J)|..]; try done.
       - intros w Hw. by apply (HJ w []).
       - by rewrite Ej.
       - intros w Hw. by rewrite app_nil_r. }
  eapply hoare_bind; [by apply (hoare_phased_state p t)|]. intros ?.
  eapply hoare_bind; [by apply hoare_phased_execute|]. intros [out|e]; cbv beta.
  - eapply hoare_bind; [by apply hoare_phased_state|]. intros ?.
    destruct (lj_Approved out) eqn:Ea.
    + eapply hoare_bind; [by apply hoare_phased_state|]. intros ?.
      apply runHuman_mode; [intros w; apply HJ|]. intros _. simpl. by rewrite Ea.
    + intros w [Hh Hp]. eexists. split; [exact Hh|]. split; [|done]. left. simpl. by rewrite Ea.
  - eapply hoare_bind; [by apply hoare_phased_state|]. intros ?.
    apply runHuman_mode; [intros w; apply HJ|]. done.
Qed.
