(* ===== verification/SingleAgent.v ===== *)
(** * The single-agent run: [AgentRunWorkflow] of [internal/temporal/workflow.go].

    One definition per step of the function, in the order of the source, each
    calling the next; the deferred compensation; the polling loop with one
    definition per case of its selector; the gate, the push and the pull
    request once the agent has succeeded. *)

From S2P Require Import Prelude GoStrings TemporalTypes Workflow WorkflowLogic ApprovalGate.

(** The phase is [p], the message [m]. *)
Definition settle (phase message : string) : W unit := setPhase phase;; setMessage message.

(** [internal/temporal/workflow.go:380-401] AgentRunWorkflow: a required activity.  A cancellation or a failure settles the run and
    returns the error, wrapped. *)
Definition must {B} (E : env) (where_ : string) (o : ActivityOptions) (a : activity B)
    (cancelled failed : string) (k : B -> W goerr) : W goerr :=
  r ← execute E o a;
  match r with
  | Success b => k b
  | Failure e =>
      if e_canceled e then settle "Cancelled" cancelled;; mret (wrap where_ e)
      else settle "Failed" (failed +:+ ": " +:+ e_msg e);; mret (wrap where_ e)
  end.

(** [internal/temporal/workflow.go:738-741] AgentRunWorkflow: repoURL *)
Definition firstURL (input : WorkflowInput) : string :=
  match wi_Repos input with r :: _ => r_URL r | [] => "" end.

(** [internal/temporal/workflow.go:687-695] AgentRunWorkflow: repoPath *)
Definition repoPath (input : WorkflowInput) : string :=
  match wi_Repos input with
  | [] => "/workspace"
  | r :: _ => "/workspace/" +:+ (if String.eqb (r_Path r) "" then repoNameFromURL (r_URL r)
                                 else r_Path r)
  end.

(** [internal/temporal/workflow.go:351-357] AgentRunWorkflow: retainDuration.  The retention window of a finished run: at most [max] seconds, less when the
    run's TTL is set and shorter. *)
Definition retain (max : Z) (input : WorkflowInput) : Z :=
  if ((0 <? wi_TTLSeconds input) && (wi_TTLSeconds input <? max))%Z
  then wi_TTLSeconds input else max.

(** [internal/temporal/workflow.go:574-581] AgentRunWorkflow: ttlDuration.  The TTL of a run, an hour by default. *)
Definition ttlDuration (seconds : Z) : Z := if (0 <? seconds)%Z then seconds else 3600.

(** [internal/temporal/workflow.go:270-276] AgentRunWorkflow: cleanupCtx *)
Definition cleanupOpts : ActivityOptions := options 30 0 (attempts 5).

Section single.
Context (E : env) (input : WorkflowInput).

(** [internal/temporal/workflow.go:250-262] AgentRunWorkflow: activityOpts *)
Definition activityOpts : ActivityOptions :=
  options activityTimeout workerRestartHeartbeatTimeout (backoff 1 20 30 6).

(** [internal/temporal/workflow.go:320-326] AgentRunWorkflow: revoke the key *)
Definition revokeKey (key : string) : W unit :=
  if String.eqb key "" then mret ()
  else execute_ E cleanupOpts (RevokeLLMKey {| rk_Key := key |}).

(** [internal/temporal/workflow.go:327-373] AgentRunWorkflow: collect logs, scale down,
    wait for the retention window, delete *)
Definition retire (max : Z) (v : vars) : W unit :=
  execute_ E (options 60 0 (attempts 2)) (CollectAgentLogs
    {| cl_AgentRunName := wi_AgentRunName input; cl_Namespace := wi_Namespace input;
       cl_PodIP := v_podIP v |});;
  execute_ E cleanupOpts (ScaleDownDeployment
    {| sd_DeploymentName := v_deploymentName v; sd_Namespace := wi_Namespace input |});;
  sleep (retain max input);;
  execute_ E (options 120 0 (attempts 3)) (ArchiveAndCleanup
    {| ac_DeploymentName := v_deploymentName v;
       ac_PVCName := "aot-ws-" +:+ wi_AgentRunName input;
       ac_Namespace := wi_Namespace input |}).

(** [internal/temporal/workflow.go:278-318] AgentRunWorkflow: persist and embed *)
Definition persist (v : vars) : W unit :=
  execute_ E (options 120 0 (backoff 5 20 30 3)) (PersistRunData
    {| pr_AgentRunID := wi_AgentRunName input; pr_WorkspacePath := "/workspace";
       pr_RepoURL := firstURL input; pr_PodIP := v_podIP v |});;
  execute_ E (options 300 0 (backoff 5 20 60 2)) (EmbedRunData
    {| er_AgentRunID := wi_AgentRunName input; er_RepoURL := firstURL input |}).

(** [internal/temporal/workflow.go:269-374] AgentRunWorkflow: the deferred compensation *)
Definition cleanup : W unit :=
  v ← getVars;
  (if String.eqb (v_deploymentName v) "" then mret () else persist v);;
  revokeKey (v_llmKey v);;
  (if String.eqb (v_deploymentName v) "" then mret () else retire 7200 v).

(** ** The polling loop *)

Definition stopAgent : W unit :=
  v ← getVars;
  execute_ E activityOpts (StopAgent
    {| st_PodName := v_podName v; st_Namespace := wi_Namespace input;
       st_PodIP := v_podIP v; st_Force := false |}).

(** [internal/temporal/workflow.go:592-607] AgentRunWorkflow: a cancel signal *)
Definition onCancel : W unit :=
  settle "Cancelling" "Cancel signal received";; stopAgent;;
  settle "Cancelled" "Cancelled by user".

(** [internal/temporal/workflow.go:610-626] AgentRunWorkflow: a human input *)
Definition onHumanInput (text : string) : W unit :=
  v ← getVars;
  execute_ E activityOpts (ForwardHumanInput
    {| fh_AgentRunID := wi_AgentRunName input; fh_PodName := v_podName v;
       fh_Namespace := wi_Namespace input; fh_PodIP := v_podIP v; fh_Input := text |});;
  settle "Running" "Human input forwarded".

(** [internal/temporal/workflow.go:629-640] AgentRunWorkflow: the TTL has expired *)
Definition onTTL : W unit := settle "Failed" "Exceeded TTL";; stopAgent.

(** [internal/temporal/workflow.go:651-679] AgentRunWorkflow: what a status answer does;
    returns [consecutiveErrors] *)
Definition onStatus (errs : nat) (r : answer GetAgentStatusOutput) : W nat :=
  match r with
  | Failure e =>
      (if maxConsecutiveStatusErrors <=? S errs
       then settle "Failed" ("Sidecar unreachable after " +:+ Itoa (Z.of_nat (S errs))
                             +:+ " consecutive errors: " +:+ e_msg e)
       else mret ());;
      mret (S errs)
  | Success out =>
      (if String.eqb (gs_State out) "AGENT_PROCESS_STATE_COMPLETED" then
         settle "Succeeded" "Agent completed successfully"
       else if String.eqb (gs_State out) "AGENT_PROCESS_STATE_FAILED" then
         settle "Failed" ("Agent failed: " +:+ gs_Error out)
       else if String.eqb (gs_State out) "AGENT_PROCESS_STATE_WAITING_FOR_INPUT" then
         settle "WaitingForInput" (if String.eqb (gs_Error out) ""
                                   then "Agent waiting for human input" else gs_Error out)
       else mret ());;
      mret 0
  end.

(** [internal/temporal/workflow.go:643-683] AgentRunWorkflow: the poll timer *)
Definition onPoll (errs : nat) : W nat :=
  v ← getVars;
  r ← execute E activityOpts (GetAgentStatus
    {| gs_PodName := v_podName v; gs_Namespace := wi_Namespace input; gs_PodIP := v_podIP v |});
  n ← onStatus errs r;
  newPollTimer statusPollInterval;;
  mret n.

(** The case the selector took. *)
Definition onInput (errs : nat) (i : Workflow.input) : W nat :=
  match i with
  | InCancel => onCancel;; mret errs
  | InHuman text => onHumanInput text;; mret errs
  | InTTL => onTTL;; mret errs
  | InTick => onPoll errs
  | InApproval _ => mret errs
  end.
(** ** After the agent has finished *)

(** [internal/temporal/workflow.go:779-796] AgentRunWorkflow: the pull request's body *)
Definition prBody (out : PushChangesOutput) : string :=
  let nl2 := newline +:+ newline in
  let summary :=
    if String.eqb (po_ProposalContent out) "" then
      if 300 <? String.length (wi_Prompt input)
      then str_take 300 (wi_Prompt input) +:+ "..." else wi_Prompt input
    else po_ProposalContent out in
  let runURL := "https://uncworks.stork-eel.ts.net/run/" +:+ wi_AgentRunName input in
  "## Summary" +:+ nl2 +:+ summary +:+ nl2 +:+ "## Changes" +:+ nl2 +:+ po_DiffStat out +:+
  nl2 +:+ "## Pipeline" +:+ nl2 +:+ "- **Run:** " +:+ wi_AgentRunName input +:+ newline +:+
  "- **Model:** " +:+ wi_ModelTier input +:+ nl2 +:+ "## Run" +:+ nl2 +:+
  "View the full agent run: " +:+ runURL +:+ nl2 +:+ "---" +:+ newline +:+
  "*This PR was automatically created by UNCWORKS.*".

(** [internal/temporal/workflow.go:736-736] AgentRunWorkflow: branchName *)
Definition branchName : string := "aot/" +:+ wi_AgentRunName input.

(** [internal/temporal/workflow.go:765-812] AgentRunWorkflow: create the pull request *)
Definition createPR (out : PushChangesOutput) : W unit :=
  match parseGitHubOwnerRepo (firstURL input) with
  | Err _ => mret ()
  | Ok (owner, repo) =>
      r ← execute E (options 30 0 (attempts 2)) (CreatePR
        {| cr_RepoOwner := owner; cr_RepoName := repo; cr_BranchName := branchName;
           cr_BaseBranch := if String.eqb (wi_PRBaseBranch input) "" then "main"
                            else wi_PRBaseBranch input;
           cr_Title := prTitleFrom (po_CommitMessage out) (wi_Prompt input);
           cr_Body := prBody out; cr_AgentRunName := wi_AgentRunName input |});
      match r with
      | Failure _ => mret ()
      | Success pr =>
          setPRUrl (co_PRUrl pr);;
          setMessage ("Agent completed: PR created at " +:+ co_PRUrl pr)
      end
  end.

(** [internal/temporal/workflow.go:724-734] AgentRunWorkflow: gitOpts *)
Definition gitOpts : ActivityOptions := options 120 30 (backoff 5 20 30 3).

(** [internal/temporal/workflow.go:737-757] AgentRunWorkflow: PushChangesInput *)
Definition pushInput (podIP : string) : PushChangesInput :=
  {| pc_AgentRunName := wi_AgentRunName input; pc_PodIP := podIP;
     pc_RepoPath := repoPath input; pc_BranchName := branchName;
     pc_BaseBranch :=
       match wi_Repos input with
       | r :: _ => if String.eqb (wi_PRBaseBranch input) "" then r_Branch r
                   else wi_PRBaseBranch input
       | [] => wi_PRBaseBranch input
       end;
     pc_CommitMessage := "feat: " +:+ truncateForTitle (wi_Prompt input) 72 +:+ newline +:+
                         newline +:+ "AgentRun: " +:+ wi_AgentRunName input;
     pc_RepoURL := firstURL input; pc_ChangeName := "" |}.

(** [internal/temporal/workflow.go:722-817] AgentRunWorkflow: push, and open a pull request *)
Definition pushAndPR (podIP : string) : W unit :=
  if negb (wi_AutoPush input || wi_AutoPR input) then mret ()
  else
    r ← execute E gitOpts (PushChanges (pushInput podIP));
    match r with
    | Failure _ => mret ()
    | Success out =>
        if negb (po_HasChanges out) then
          setMessage "Agent completed: no changes committed"
        else if wi_AutoPR input && (0 <? length (wi_Repos input)) then createPR out
        else setMessage ("Agent completed: changes pushed to " +:+ po_BranchName out)
    end.

(** [internal/temporal/workflow.go:706-818] AgentRunWorkflow: the run is accepted *)
Definition enrichAndPush (podIP : string) : W goerr :=
  execute_ E (options 60 0 (attempts 2)) (EnrichRunTags
    {| et_AgentRunName := wi_AgentRunName input; et_Namespace := wi_Namespace input;
       et_PodIP := podIP; et_RepoPath := repoPath input |});;
  pushAndPR podIP;;
  mret None.

(** [internal/temporal/workflow.go:699-818] AgentRunWorkflow: the agent has succeeded *)
Definition onSucceeded : W goerr :=
  v ← getVars;
  err ← runApprovalGate E input (v_podIP v) (repoPath input) (v_llmKey v);
  match err with
  | Some e => mret (Some e)
  | None => enrichAndPush (v_podIP v)
  end.

(** [internal/temporal/workflow.go:588-823] AgentRunWorkflow: the polling loop.  Every
    round takes one of the [pending] inputs. *)
Fixpoint pollLoop (fuel : nat) (errs : nat) : W goerr :=
  match fuel with
  | 0 => out_of_fuel
  | S fuel =>
      i ← select [KCancel; KHuman; KTTL; KTick];
      n ← onInput errs i;
      phase ← getPhase;
      if String.eqb phase "Succeeded" then onSucceeded
      else if String.eqb phase "Failed" || String.eqb phase "Cancelled" then mret None
      else pollLoop fuel n
  end.

(** ** The run *)

Definition where_ : string := "agent run workflow".

(** [internal/temporal/workflow.go:574-823] AgentRunWorkflow: step 5 *)
Definition pollUntilDone : W goerr :=
  setMessage "Agent running";;
  newTTLTimer (ttlDuration (wi_TTLSeconds input));;
  newPollTimer statusPollInterval;;
  n ← gets pending;
  pollLoop (S n) 0.

(** [internal/temporal/workflow.go:545-572] AgentRunWorkflow: step 4 *)
Definition startAgent : W goerr :=
  settle "Running" "Starting agent";;
  v ← getVars;
  must E where_ activityOpts (StartAgent
    {| sa_PodName := v_podName v; sa_Namespace := wi_Namespace input; sa_PodIP := v_podIP v;
       sa_Prompt := wi_Prompt input; sa_RepoPath := "/workspace"; sa_Model := "";
       sa_Stage := ""; sa_ParentSpanID := ""; sa_TraceID := "" |})
    "Cancelled during agent start" "Failed to start agent" (fun _ => pollUntilDone).

(** [internal/temporal/workflow.go:512-543] AgentRunWorkflow: step 3b *)
Definition hydrateContext : W goerr :=
  v ← getVars;
  execute_ E (options 30 0 (attempts 2)) (HydrateContext
    {| hc_AgentRunID := wi_AgentRunName input; hc_WorkspacePath := "/workspace";
       hc_Prompt := wi_Prompt input; hc_RepoURL := firstURL input;
       hc_AgentType := if String.eqb (wi_OrchestrationMode input) OrchestrationModeAuto
                       then "senior" else "";
       hc_PodIP := v_podIP v |});;
  startAgent.

(** [internal/temporal/workflow.go:470-484] AgentRunWorkflow: hydrationOpts *)
Definition hydrationOpts : ActivityOptions :=
  options 1200 90 {| rp_InitialInterval := 5; rp_BackoffTenths := 15; rp_MaximumInterval := 30;
                     rp_MaximumAttempts := 6; rp_NonRetryable := ["eviction"] |}.

(** [internal/temporal/workflow.go:462-507] AgentRunWorkflow: step 3 *)
Definition waitForHydration : W goerr :=
  settle "Hydrating" "Waiting for workspace hydration";;
  v ← getVars;
  must E where_ hydrationOpts (WaitForHydration
    {| wh_PodName := v_podName v; wh_Namespace := wi_Namespace input;
       wh_AgentRunName := wi_AgentRunName input |})
    "Cancelled during hydration" "Hydration failed"
    (fun out => setPodIP (wh_PodIP out);; hydrateContext).

(** [internal/temporal/workflow.go:445-460] AgentRunWorkflow: step 2.5 *)
Definition checkPodStatus : W goerr :=
  setMessage "Checking pod status";;
  v ← getVars;
  r ← execute E activityOpts (CheckPodStatus
    {| cp_PodName := v_podName v; cp_Namespace := wi_Namespace input |});
  let evicted := match r with
    | Success out => if String.eqb (cp_Reason out) "Evicted" then Some (cp_Message out) else None
    | Failure _ => None
    end in
  match evicted with
  | Some m =>
      settle "Failed" ("Pod was evicted immediately after creation: " +:+ m);;
      mret (errorf errFailed ("pod evicted: " +:+ m))
  | None => waitForHydration
  end.

(** [internal/temporal/workflow.go:407-421] AgentRunWorkflow: deployInput *)
Definition deployInput (llmKey : string) : CreateAgentDeploymentInput :=
  {| cd_Name := "agentrun-" +:+ wi_AgentRunName input; cd_Namespace := wi_Namespace input;
     cd_AgentRunName := wi_AgentRunName input; cd_Repos := wi_Repos input;
     cd_Prompt := wi_Prompt input; cd_DevboxConfig := wi_DevboxConfig input;
     cd_Image := wi_Image input; cd_EnvVars := wi_EnvVars input; cd_LLMKey := llmKey;
     cd_LiteLLMBaseURL := wi_LiteLLMBaseURL input;
     cd_ModelID := modelIDFromTier (wi_ModelTier input);
     cd_SpecContent := wi_SpecContent input;
     cd_GitHubTokenSecretName := wi_GitHubTokenSecretName input |}.

(** [internal/temporal/workflow.go:404-443] AgentRunWorkflow: step 2 *)
Definition createDeployment : W goerr :=
  setMessage "Creating agent deployment";;
  v ← getVars;
  must E where_ activityOpts (CreateAgentDeployment (deployInput (v_llmKey v)))
    "Cancelled during deployment creation" "Failed to create deployment"
    (fun out =>
       setPod (cd_DeploymentName out);; setDeployment (cd_DeploymentName out);;
       checkPodStatus).

(** [internal/temporal/workflow.go:376-402] AgentRunWorkflow: step 1 *)
Definition provisionKey : W goerr :=
  settle "Creating" "Provisioning LLM key";;
  must E where_ activityOpts (ProvisionLLMKey
    {| pk_AgentRunName := wi_AgentRunName input; pk_Namespace := wi_Namespace input;
       pk_ModelTier := wi_ModelTier input; pk_MaxBudget := wi_MaxBudget input |})
    "Cancelled during LLM key provisioning" "Failed to provision LLM key"
    (fun out => setKey (pk_Key out);; createDeployment).

(** [internal/temporal/workflow.go:235-824] AgentRunWorkflow: the single-agent run *)
Definition singleAgent : W goerr :=
  newState "Pending" "Workflow started";;
  err ← setQueryHandler E;
  match err with
  | Some e => mret (wrap "set query handler" e)
  | None =>
      modify (set_vars (fun _ => noVars));;
      with_defer cleanup provisionKey
  end.
End single.
