(* ===== verification/RunProps.v ===== *)
(** * Properties of the single-agent run.

    The run ends in a terminal phase, never runs out of fuel, gives back what it
    was given, and pushes only what has passed the gate. *)

From S2P Require Import Prelude GoStrings TemporalTypes Workflow WorkflowLogic ApprovalGate SingleAgent.

(** ** Terminal phases *)

Definition terminal (p : string) : bool :=
  String.eqb p "Succeeded" || String.eqb p "Failed" || String.eqb p "Cancelled".

(** How a run ends: in a terminal phase, and an error never means success. *)
Definition settled (e : goerr) (w : World) : Prop :=
  terminal (phase w) = true /\ (phase w = "Succeeded" -> e = None).

Lemma must_settled {B} P E wh o (a : activity B) c f (k : B -> W goerr) :
  (forall b, hoare any (k b) settled any) -> hoare P (must E wh o a c f k) settled any.
Proof.
  intros Hk. unfold must. eapply hoare_bind; [apply hoare_any|]. intros [b|e]; [apply Hk|].
  intros w _. by destruct (e_canceled e).
Qed.

Lemma settle_phase P p m : hoare P (settle p m) (fun _ w => phase w = p) any.
Proof. by intros w _. Qed.

Section run.
Context (E : env) (input : WorkflowInput).

Lemma cleanup_state : keeps w_state (cleanup E input).
Proof. wf. Qed.

Lemma pushAndPR_phase ip : keeps phase (pushAndPR E input ip).
Proof. wf. Qed.

Lemma gate_settled path key ip :
  hoare (fun w => phase w = "Succeeded") (runApprovalGate E input ip path key)
    (fun e w => phase w = match e with None => "Succeeded" | Some _ => "Failed" end) any.
Proof.
  intros w Hw. pose proof (runApprovalGate_spec E input ip path key
    (w_trace w) "Succeeded" any ltac:(done) w (conj eq_refl Hw)) as H.
  destruct (runApprovalGate _ _ _ _ _ w).2 as [[e|]| |]; [..|done|done];
    destruct H as (t & _ & _ & H); [done|]. rewrite H. by case_match.
Qed.

Lemma onSucceeded_settled :
  hoare (fun w => phase w = "Succeeded") (onSucceeded E input) settled any.
Proof.
  unfold onSucceeded.
  eapply hoare_bind; [apply (hoare_phase "Succeeded"); wf|]. intros v.
  eapply hoare_bind; [apply gate_settled|]. intros [e|].
  { apply hoare_ret. intros w Hw. split; by rewrite Hw. }
  unfold enrichAndPush. eapply hoare_bind; [apply (hoare_phase "Succeeded"); wf|]. intros ?.
  eapply hoare_bind; [apply (hoare_phase "Succeeded"), pushAndPR_phase|]. intros ?.
  apply hoare_ret. intros w Hw. split; [by rewrite Hw|done].
Qed.

Lemma hoare_getPhase P : hoare P getPhase (fun p w => P w /\ phase w = p) any.
Proof. by apply hoare_gets. Qed.

Lemma pollLoop_settled fuel errs : hoare any (pollLoop E input fuel errs) settled any.
Proof.
  revert errs. induction fuel as [|fuel IH]; intros errs; [done|]. simpl.
  do 2 (eapply hoare_bind; [apply hoare_any|]; intros ?).
  eapply hoare_bind; [apply hoare_getPhase|]. intros p.
  destruct (String.eqb p "Succeeded") eqn:Es.
  { apply String.eqb_eq in Es as ->. eapply hoare_conseq; [apply onSucceeded_settled|..]; [|done..].
    by intros w [_ H]. }
  destruct (String.eqb p "Failed" || String.eqb p "Cancelled") eqn:Et.
  { apply hoare_ret. intros w [_ <-]. split; [|intros H; by rewrite H in Es].
    unfold terminal. rewrite <- orb_assoc, Et. apply orb_true_r. }
  by eapply hoare_conseq; [apply IH|..].
Qed.

Lemma provisionKey_settled : hoare any (provisionKey E input) settled any.
Proof.
  unfold provisionKey. skip_any. apply must_settled. intros out.
  unfold createDeployment. skip_any. apply must_settled. intros dep.
  unfold checkPodStatus. skip_any. cbv zeta.
  destruct (match _ with Success _ => _ | Failure _ => _ end); [by intros w _|].
  unfold waitForHydration. skip_any. apply must_settled. intros hyd.
  unfold hydrateContext. skip_any. unfold startAgent. skip_any. apply must_settled. intros ?.
  unfold pollUntilDone. skip_any. apply pollLoop_settled.
Qed.

Lemma with_defer_settled (c : W unit) (m : W goerr) :
  keeps w_state c -> hoare any m settled any -> hoare any (with_defer c m) settled any.
Proof.
  intros Hc Hm. apply hoare_with_defer; [done|]. intros e w Hw.
  destruct (c w).2; [|done..]. unfold settled, phase in *. by rewrite Hc.
Qed.
(** ** Fuel *)

Lemma onTTL_phase : hoare any (onTTL E input) (fun _ w => phase w = "Failed") any.
Proof.
  unfold onTTL, settle.
  eapply hoare_bind; [|intros ?; apply (hoare_phase "Failed"); wf]. by intros w _.
Qed.

Lemma onInput_uses errs i w w1 n w2 :
  taken w i w1 -> onInput E input errs i w1 = (w2, Done n) ->
  phase w2 = "Failed" \/ pending w2 < pending w.
Proof.
  intros Ht Ho. destruct i as [|s|d| |]; simpl in Ht; [|..|]; try done.
  - right. assert (frugal (onInput E input errs InCancel)) as H by wf.
    specialize (H w1). rewrite Ho in H. simpl in H. lia.
  - right. assert (frugal (onInput E input errs (InHuman s))) as H by wf.
    specialize (H w1). rewrite Ho in H. simpl in H. lia.
  - left. pose proof (onTTL_phase w1 ltac:(done)) as H.
    unfold onInput, mbind, W_bind in Ho. destruct (onTTL E input w1) as [w' [a| |]]; [|done..].
    by injection Ho as <- <-.
  - right. destruct Ht as [Ht Hp]. unfold onInput, onPoll in Ho.
    pose proof (poll_uses E activityOpts (GetAgentStatus
      {| gs_PodName := v_podName (w_vars w1); gs_Namespace := wi_Namespace input;
         gs_PodIP := v_podIP (w_vars w1) |}) (onStatus errs) statusPollInterval w1) as H.
    destruct H as [H|H]; [wf..|done| |].
    + unfold getVars, gets, mbind, W_bind in *. rewrite Ho in H. simpl in H. lia.
    + destruct (H n). unfold getVars, gets, mbind, W_bind in *. by rewrite Ho.
Qed.

Lemma onSucceeded_no_fuel : no_fuel (onSucceeded E input).
Proof. wf. Qed.

Lemma onInput_no_fuel errs i : no_fuel (onInput E input errs i).
Proof. wf. Qed.

Lemma pollLoop_no_fuel fuel errs w :
  pending w < fuel -> (pollLoop E input fuel errs w).2 <> OutOfFuel.
Proof.
  revert errs w. induction fuel as [|fuel IH]; intros errs w Hf; [lia|]. cbn [pollLoop].
  unfold mbind, W_bind. pose proof (no_fuel_select poll_kinds w) as Hs.
  pose proof (select_taken w) as Ht. unfold poll_kinds in Hs, Ht.
  destruct (select _ w) as [w1 [i| |]]; [|done..]. specialize (Ht i w1 eq_refl).
  pose proof (onInput_no_fuel errs i w1) as Hi.
  destruct (onInput E input errs i w1) as [w2 [n| |]] eqn:Eo; [|done..].
  pose proof (onInput_uses errs i w w1 n w2 Ht Eo) as Hu.
  unfold getPhase, gets. fold (phase w2).
  destruct (String.eqb (phase w2) "Succeeded"); [apply onSucceeded_no_fuel|].
  destruct (String.eqb (phase w2) "Failed" || String.eqb (phase w2) "Cancelled") eqn:Et; [done|].
  apply IH. destruct Hu as [Hu|Hu]; [by rewrite Hu in Et|lia].
Qed.

Lemma pollUntilDone_no_fuel : no_fuel (pollUntilDone E input).
Proof.
  unfold pollUntilDone. apply no_fuel_bind; [wf|]. intros ?.
  do 2 (apply no_fuel_bind; [wf|]; intros ?). intros w. unfold gets, mbind, W_bind.
  apply pollLoop_no_fuel. lia.
Qed.

#[local] Hint Resolve pollUntilDone_no_fuel : unc.

Lemma singleAgent_no_fuel : no_fuel (singleAgent E input).
Proof. wf. Qed.
End run.

#[export] Hint Resolve singleAgent_no_fuel : unc.

(** ** Compensation *)

(** The key an event provisions, and the deployment it creates. *)
Definition provisioned (e : event) : option string :=
  match e with
  | EvActivity _ (ProvisionLLMKey _) (Success out) => Some (pk_Key out)
  | _ => None
  end.

Definition deployed (e : event) : option string :=
  match e with
  | EvActivity _ (CreateAgentDeployment _) (Success out) => Some (cd_DeploymentName out)
  | _ => None
  end.

Definition revokes (k : string) (e : event) : bool :=
  match e with
  | EvActivity _ (RevokeLLMKey i) _ => String.eqb (rk_Key i) k
  | _ => false
  end.

Definition scales_down (d : string) (e : event) : bool :=
  match e with
  | EvActivity _ (ScaleDownDeployment i) _ => String.eqb (sd_DeploymentName i) d
  | _ => false
  end.

Definition archives (d : string) (e : event) : bool :=
  match e with
  | EvActivity _ (ArchiveAndCleanup i) _ => String.eqb (ac_DeploymentName i) d
  | _ => false
  end.

(** Every key that the history obtains it revokes later; every deployment that it obtains it
    scales down later, and archives after that. *)
Definition compensated (t : list event) : Prop :=
  forall i e, t !! i = Some e ->
    (forall k, provisioned e = Some k -> k <> "" -> existsb (revokes k) (drop (S i) t) = true) /\
    (forall d, deployed e = Some d -> d <> "" ->
       followed (scales_down d) (archives d) (drop (S i) t) = true).

(** What an event has obtained is what the variables hold. *)
Definition tracked (r : string * string) (e : event) : Prop :=
  (forall k, provisioned e = Some k -> r.1 = k) /\ (forall d, deployed e = Some d -> r.2 = d).

(** An event that obtains nothing. *)
Definition idle (e : event) : Prop := provisioned e = None /\ deployed e = None.

Definition holds (t0 : list event) (w : World) : Prop :=
  exists t, history (t0 ++ t) w /\ Forall (tracked (resources w)) t.

(** What a cleanup gives back. *)
Definition released (r : string * string) (t : list event) : Prop :=
  (r.1 <> "" -> existsb (revokes r.1) t = true) /\
  (r.2 <> "" -> followed (scales_down r.2) (archives r.2) t = true) /\
  Forall idle t.

Lemma released_compensated r t1 t2 :
  Forall (tracked r) t1 -> released r t2 -> compensated (t1 ++ t2).
Proof.
  intros H1 (Hk & Hd & H2) i e Hi. apply lookup_app_Some in Hi as [Hi|[Hl Hi]].
  - pose proof (lookup_lt_Some _ _ _ Hi). rewrite drop_app_le by lia.
    rewrite Forall_lookup in H1. destruct (H1 _ _ Hi) as [Hpk Hpd]. split.
    + intros k <-%Hpk Hne. rewrite existsb_app, Hk by done. apply orb_true_r.
    + intros d <-%Hpd Hne. apply followed_after, Hd, Hne.
  - rewrite Forall_lookup in H2. destruct (H2 _ _ Hi) as [Hpk Hpd]. by rewrite Hpk, Hpd.
Qed.

Lemma hoare_idle {A} t0 (m : W A) :
  emits idle m -> keeps resources m -> hoare (holds t0) m (fun _ => holds t0) any.
Proof.
  intros He Hr w (t & Ht & Hf). destruct (m w).2 as [a| |]; [|done..].
  destruct (He w) as (t' & Ht' & Hi). exists (t ++ t'). unfold history in *.
  rewrite Ht', Ht, app_assoc, Hr. split; [done|]. apply Forall_app. split; [done|].
  eapply Forall_impl; [done|]. intros e [E1 E2]. unfold tracked. by rewrite E1, E2.
Qed.

(** The cleanup of a run whose variables hold what was obtained. *)
Lemma cleanup_compensates (c : W unit) (m : W goerr) t0 :
  (forall w, exists t, w_trace (c w).1 = w_trace w ++ t /\ released (resources w) t) ->
  hoare (history t0) m (fun _ => holds t0) any ->
  hoare (history t0) (with_defer c m)
    (fun _ w => exists t, history (t0 ++ t) w /\ compensated t) any.
Proof.
  intros Hc Hm. unfold with_defer. eapply hoare_bind; [apply Hm|]. intros e.
  apply hoare_bind with (fun _ w => exists t, history (t0 ++ t) w /\ compensated t);
    [|intros ?; by apply hoare_ret]. intros w (t & Ht & Hf).
  destruct (Hc w) as (t' & Ht' & Hr). destruct (c w).2; [|done..]. exists (t ++ t').
  unfold history in *. rewrite Ht', Ht, app_assoc. split; [done|]. by eapply released_compensated.
Qed.

Section compensation.
Context (E : env) (input : WorkflowInput).

Lemma revokeKey_performs k : k <> "" -> performs (revokes k) (revokeKey E k).
Proof.
  intros Hk. unfold revokeKey. destruct (String.eqb k "") eqn:Ek; [by apply String.eqb_eq in Ek|].
  unfold execute_. apply performs_first; [|intros; wf]. apply performs_execute. intros r.
  apply String.eqb_refl.
Qed.

Lemma retire_performs max v :
  performs_both (scales_down (v_deploymentName v)) (archives (v_deploymentName v))
    (retire E input max v).
Proof.
  unfold retire. apply performs_both_then; [wf..|]. intros ?. apply performs_in_turn; [wf|..].
  - apply performs_first; [|intros; wf]. apply performs_execute. intros r. apply String.eqb_refl.
  - intros ?. apply performs_then; [wf..|]. intros ?. apply performs_first; [|intros; wf].
    apply performs_execute. intros r. apply String.eqb_refl.
Qed.

(** A cleanup made of a revocation, then a retirement of the deployment. *)
Lemma releases_intro (c : W unit) (rest : vars -> W unit) :
  c = (v ← getVars; rest v) ->
  (forall v, emits idle (rest v)) ->
  (forall v, v_llmKey v <> "" -> performs (revokes (v_llmKey v)) (rest v)) ->
  (forall v, v_deploymentName v <> "" ->
     performs_both (scales_down (v_deploymentName v)) (archives (v_deploymentName v)) (rest v)) ->
  forall w, exists t, w_trace (c w).1 = w_trace w ++ t /\ released (resources w) t.
Proof.
  intros -> Hi Hk Hd w. unfold getVars, gets, mbind, W_bind. set (v := w_vars w).
  destruct (Hi v w) as (t & Ht & Hf). exists t. split; [done|].
  assert (forall P, performs P (rest v) -> existsb P t = true) as Hp.
  { intros P HP. destruct (HP w) as (t' & Ht' & H). rewrite Ht in Ht'.
    by apply app_inv_head in Ht' as ->. }
  unfold released, resources. simpl. split_and!; [auto| |done].
  intros Hne. destruct (Hd v Hne w) as (t' & Ht' & H). rewrite Ht in Ht'.
  by apply app_inv_head in Ht' as ->.
Qed.

Lemma cleanup_releases w :
  exists t, w_trace (cleanup E input w).1 = w_trace w ++ t /\ released (resources w) t.
Proof.
  eapply releases_intro; [reflexivity|..]; intros v; cbv beta.
  - wf.
  - intros Hk. apply performs_then; [wf..|]. intros ?. apply performs_first; [|intros; wf].
    by apply revokeKey_performs.
  - intros Hd. destruct (String.eqb (v_deploymentName v) "") eqn:Ed; [by apply String.eqb_eq in Ed|].
    do 2 (apply performs_both_then; [wf..|]; intros ?). apply retire_performs.
Qed.
End compensation.

(** Before there is a deployment: the key is tracked. *)
Definition holds_key (t0 : list event) (w : World) : Prop :=
  exists t, history (t0 ++ t) w /\
    Forall (fun e => (forall k, provisioned e = Some k -> v_llmKey (w_vars w) = k) /\
                     deployed e = None) t.

Lemma holds_key_holds t0 w : holds_key t0 w -> holds t0 w.
Proof.
  intros (t & Ht & Hf). exists t. split; [done|]. eapply Forall_impl; [done|].
  intros e [Hk Hd]. split; [done|]. by rewrite Hd.
Qed.

Lemma must_provision t0 E wh o i c f (rest : W goerr) :
  hoare (holds_key t0) rest (fun _ => holds t0) any ->
  hoare (history t0)
    (must E wh o (ProvisionLLMKey i) c f (fun out => setKey (pk_Key out);; rest))
    (fun _ => holds t0) any.
Proof.
  intros Hrest. unfold must. eapply hoare_bind; [apply hoare_execute|]. intros [out|e]; cbv beta.
  - eapply hoare_bind; [|intros ?; apply Hrest]. intros w Hw.
    exists [EvActivity o (ProvisionLLMKey i) (Success out)]. split; [done|].
    constructor; [|done]. split; [|done]. by intros k [= <-].
  - intros w Hw. assert (forall F : WorkflowState -> WorkflowState,
      holds t0 (set_state F w)) as Hs.
    { intros F. eexists. split; [exact Hw|]. by repeat constructor. }
    by destruct (e_canceled e); apply Hs.
Qed.

Lemma must_deploy t0 E wh o i c f (rest : W goerr) :
  hoare (holds t0) rest (fun _ => holds t0) any ->
  hoare (holds_key t0)
    (must E wh o (CreateAgentDeployment i) c f
      (fun out => setPod (cd_DeploymentName out);; setDeployment (cd_DeploymentName out);; rest))
    (fun _ => holds t0) any.
Proof.
  intros Hrest. unfold must.
  eapply hoare_bind.
  { instantiate (1 := fun r w => exists t, history (t0 ++ t ++ [EvActivity o
      (CreateAgentDeployment i) r]) w /\ Forall (fun e => (forall k, provisioned e = Some k ->
        v_llmKey (w_vars w) = k) /\ deployed e = None) t).
    intros w (t & Ht & Hf). exists t. unfold history in *. simpl.
    rewrite (arrive_obs w_trace), Ht, app_assoc by done. split; [done|].
    by rewrite (arrive_obs w_vars). }
  intros [out|e]; cbv beta.
  - eapply hoare_bind; [|intros ?; eapply hoare_bind; [|intros ?; apply Hrest]].
    + instantiate (1 := fun _ => holds t0). intros w (t & Ht & Hf).
      eexists (t ++ [_]). split; [exact Ht|]. apply Forall_app. split.
      * eapply Forall_impl; [done|]. intros e [Hk Hd]. split; [exact Hk|]. by rewrite Hd.
      * constructor; [|done]. split; [done|]. by intros d [= <-].
    + by intros w Hw.
  - intros w (t & Ht & Hf). assert (forall F : WorkflowState -> WorkflowState,
      holds t0 (set_state F w)) as Hs.
    { intros F. eexists (t ++ [_]). split; [exact Ht|]. apply Forall_app. split.
      - eapply Forall_impl; [done|]. intros ev [Hk Hd]. split; [exact Hk|]. by rewrite Hd.
      - by repeat constructor. }
    by destruct (e_canceled e); apply Hs.
Qed.

Lemma hoare_key_step {A} t0 (m : W A) :
  keeps w_trace m -> keeps w_vars m -> hoare (holds_key t0) m (fun _ => holds_key t0) any.
Proof.
  intros Ht Hv w (t & Hh & Hf). destruct (m w).2; [|done..]. exists t. unfold history in *.
  by rewrite Ht, Hv.
Qed.

Section compensation2.
Context (E : env) (input : WorkflowInput).

Lemma pollLoop_idle fuel errs :
  emits idle (pollLoop E input fuel errs) /\ keeps resources (pollLoop E input fuel errs).
Proof.
  revert errs. induction fuel as [|fuel IH]; intros errs; [split; wf|]. cbn [pollLoop].
  split; (apply emits_bind || apply keeps_bind; [wf|]; intros ?;
          apply emits_bind || apply keeps_bind; [wf|]; intros ?;
          apply emits_bind || apply keeps_bind; [wf|]; intros ?;
          destruct (String.eqb _ _); [wf|]; destruct (_ || _); [wf|]; apply IH).
Qed.

#[local] Hint Extern 1 (emits idle (pollLoop _ _ _ _)) => apply pollLoop_idle : unc.
#[local] Hint Extern 1 (keeps resources (pollLoop _ _ _ _)) => apply pollLoop_idle : unc.

Lemma checkPodStatus_idle :
  emits idle (checkPodStatus E input) /\ keeps resources (checkPodStatus E input).
Proof. split; wf. Qed.

Lemma provisionKey_holds t0 :
  hoare (history t0) (provisionKey E input) (fun _ => holds t0) any.
Proof.
  unfold provisionKey, settle.
  eapply hoare_bind; [eapply hoare_bind; [|intros ?]; apply hoare_state|]. intros ?.
  apply must_provision. unfold createDeployment.
  eapply hoare_bind; [by apply hoare_key_step|]. intros ?.
  eapply hoare_bind; [by apply hoare_key_step|]. intros v. apply must_deploy.
  apply hoare_idle; apply checkPodStatus_idle.
Qed.
End compensation2.

(** ** What is pushed, and what succeeds, has been cleared for it *)

Definition is_push (e : event) : bool :=
  match e with
  | EvActivity _ (PushChanges _) _ | EvActivity _ (CreatePR _) _ => true
  | _ => false
  end.

(** Every push comes after a history that satisfies [K]. *)
Definition guarded (K : list event -> Prop) (t : list event) : Prop :=
  forall t1 e t2, t = t1 ++ e :: t2 -> is_push e = true -> K t1.

Definition no_push (t : list event) : Prop := Forall (fun e => is_push e = false) t.

(** A condition on histories that stays true once it is. *)
Class Lasting (K : list event -> Prop) : Prop := lasting t t' : K t -> K (t ++ t').

Lemma no_push_guarded K t : no_push t -> guarded K t.
Proof.
  intros Hn t1 e t2 -> He. apply Forall_app in Hn as [_ [Hn _]%Forall_cons]. congruence.
Qed.

(** Once [K] holds, anything may be pushed. *)
Lemma guarded_extend K `{!Lasting K} t t' : no_push t -> K t -> guarded K (t ++ t').
Proof.
  intros Hn HK t1 e t2 Heq He. apply app_eq_inv in Heq as [(k & -> & Ht)|(k & -> & ->)].
  - destruct k as [|e' k]; simpl in *; [by rewrite app_nil_r in HK|].
    injection Ht as <- _. apply Forall_app in Hn as [_ [Hn _]%Forall_cons]. congruence.
  - by apply lasting.
Qed.

(** What comes later and does not push keeps a history guarded. *)
Lemma guarded_quiet K t t' : guarded K t -> no_push t' -> guarded K (t ++ t').
Proof.
  intros Hg Hn t1 e t2 Heq He. apply app_eq_inv in Heq as [(k & -> & Heq)|(k & -> & ->)].
  - destruct k as [|e' k]; simpl in *.
    + subst t'. apply Forall_cons in Hn as [Hn _]. congruence.
    + injection Heq as <- ->. by apply (Hg t1 e k).
  - apply Forall_app in Hn as [_ [Hn _]%Forall_cons]. congruence.
Qed.

Section guarded.
Context (t0 : list event) (Kp Ks : list event -> Prop) `{!Lasting Kp, !Lasting Ks}.

(** Nothing pushed so far; the pushes of an unfinished run are guarded by [Kp]; so
    are those of a finished one, and it succeeded only where [Ks] holds. *)
Definition so_far (w : World) : Prop := exists t, history (t0 ++ t) w /\ no_push t.
Definition pushing (w : World) : Prop := exists t, history (t0 ++ t) w /\ guarded Kp t.
Definition cleared (w : World) : Prop :=
  exists t, history (t0 ++ t) w /\ guarded Kp t /\ (phase w = "Succeeded" -> Ks t).

Lemma so_far_pushing w : so_far w -> pushing w.
Proof. intros (t & ? & ?). exists t. split; [done|]. by apply no_push_guarded. Qed.

Lemma so_far_cleared w : so_far w -> phase w <> "Succeeded" -> cleared w.
Proof. intros (t & ? & ?) Hp. exists t. split_and!; [done|by apply no_push_guarded|done]. Qed.

Lemma cleared_pushing w : cleared w -> pushing w.
Proof. intros (t & ? & ? & _). by exists t. Qed.

Lemma so_far_emits {A} (m : W A) w :
  emits (fun e => is_push e = false) m -> so_far w -> so_far (m w).1.
Proof.
  intros Hm (t & Ht & Hn). destruct (Hm w) as (t' & Ht' & Hn'). exists (t ++ t').
  unfold history in *. rewrite Ht', Ht, app_assoc. split; [done|]. by apply Forall_app.
Qed.

Lemma hoare_quiet {A} (m : W A) :
  emits (fun e => is_push e = false) m -> hoare so_far m (fun _ => so_far) pushing.
Proof.
  intros Hm w Hw. pose proof (so_far_emits m w Hm Hw) as H.
  destruct (m w).2; [done|by apply so_far_pushing..].
Qed.

Lemma quiet_then {A B} (m : W A) (k : A -> W B) Q :
  emits (fun e => is_push e = false) m -> (forall a, hoare so_far (k a) Q pushing) ->
  hoare so_far (m ≫= k) Q pushing.
Proof. intros Hm Hk. eapply hoare_bind; [by apply hoare_quiet|]. apply Hk. Qed.

(** Steps that push nothing and keep the phase. *)
Definition in_phase (p : string) (w : World) : Prop := so_far w /\ phase w = p.

Lemma hoare_in_phase p {A} (m : W A) :
  emits (fun e => is_push e = false) m -> keeps phase m ->
  hoare (in_phase p) m (fun _ => in_phase p) pushing.
Proof.
  intros Hm Hk w [Hw Hp]. pose proof (hoare_quiet m Hm w Hw) as Hs. specialize (Hk w).
  unfold in_phase. rewrite <- Hk in Hp. by destruct (m w).2.
Qed.

(** The last steps of a run that failed, or was cancelled. *)
Lemma settle_cleared {A} p m (a : A) :
  p <> "Succeeded" -> hoare so_far (settle p m;; mret a) (fun _ => cleared) pushing.
Proof. intros Hp w (t & Ht & Hn). apply so_far_cleared; [by exists t|done]. Qed.

Lemma must_cleared {B} E wh o (a : activity B) c f (k : B -> W goerr) :
  (forall r, is_push (EvActivity o a r) = false) ->
  (forall b, hoare so_far (k b) (fun _ => cleared) pushing) ->
  hoare so_far (must E wh o a c f k) (fun _ => cleared) pushing.
Proof.
  intros Ha Hk. unfold must. apply quiet_then; [wf; apply Ha|]. intros [b|e]; [apply Hk|].
  destruct (e_canceled e); by apply settle_cleared.
Qed.

(** Once [Kp] holds the rest may push; [Ks] has to hold if it succeeds. *)
Lemma hoare_unguarded {A} (m : W A) t Q :
  no_push t -> Kp t -> emits (fun _ => True) m ->
  hoare (history (t0 ++ t)) m Q any ->
  hoare (history (t0 ++ t)) m (fun a w => Q a w /\ pushing w) pushing.
Proof.
  intros Hn HK Hm HQ w Hw. specialize (HQ w Hw). destruct (Hm w) as (t' & Ht' & _).
  assert (pushing (m w).1) as Hp.
  { exists (t ++ t'). unfold history in *. rewrite Ht', Hw, app_assoc. split; [done|].
    by apply guarded_extend. }
  by destruct (m w).2.
Qed.

Lemma cleanup_cleared (c : W unit) (m : W goerr) P :
  emits (fun e => is_push e = false) c -> keeps w_state c ->
  hoare P m (fun _ => cleared) pushing -> hoare P (with_defer c m) (fun _ => cleared) pushing.
Proof.
  intros Hc Hk Hm. apply hoare_with_defer; [done|]. intros e w (t & Ht & Hg & Hs).
  destruct (Hc w) as (t' & Ht' & Hn'). specialize (Hk w).
  assert (cleared (c w).1) as Hw.
  { exists (t ++ t'). unfold history in *. rewrite Ht', Ht, app_assoc.
    split_and!; [done|by apply guarded_quiet|]. unfold phase in *. rewrite Hk.
    intros Hp. apply lasting; auto. }
  destruct (c w).2; [done|by apply cleared_pushing..].
Qed.
End guarded.

(** ** The single-agent run: the gate *)

(** The sidecar reports that the agent has finished. *)
Definition completed (e : event) : bool :=
  match e with
  | EvActivity _ (GetAgentStatus _) (Success out) =>
      String.eqb (gs_State out) "AGENT_PROCESS_STATE_COMPLETED"
  | _ => false
  end.

(** The agent has finished, and the gate was passed since. *)
Definition gate_since (input : WorkflowInput) (t : list event) : Prop :=
  exists ta c tb, t = ta ++ c :: tb /\ completed c = true /\ gate_passed input tb.

Lemma gate_passed_app input t1 t2 : gate_passed input t1 -> gate_passed input (t1 ++ t2).
Proof.
  intros [Hj Hh]. split; intros H; rewrite existsb_app; [rewrite Hj by done|rewrite Hh by done]; done.
Qed.

Lemma gate_passed_app_r input t1 t2 : gate_passed input t2 -> gate_passed input (t1 ++ t2).
Proof.
  intros [Hj Hh]. split; intros H; rewrite existsb_app;
    [rewrite Hj by done|rewrite Hh by done]; apply orb_true_r.
Qed.

#[export] Instance gate_since_lasting input : Lasting (gate_since input).
Proof.
  intros t t' (ta & c & tb & -> & Hc & Hg). exists ta, c, (tb ++ t').
  rewrite <- app_assoc, <- app_comm_cons. split; [done|]. split; [done|]. by apply gate_passed_app.
Qed.

Lemma gate_event_no_push e : gate_event e -> is_push e = false.
Proof. destruct e as [B o a r| | | | | |]; try done. by destruct a. Qed.

Lemma gate_no_push E input ip path key :
  emits (fun e => is_push e = false) (runApprovalGate E input ip path key).
Proof. eapply emits_mono; [apply gate_event_no_push|apply runApprovalGate_emits]. Qed.

(** The gate in a run that has pushed nothing: what it adds, and what it decides. *)
Lemma gate_adds E input ip path key t p J :
  (forall w t', history (t ++ t') w -> J w) ->
  hoare (phased p t) (runApprovalGate E input ip path key)
    (fun e w => exists t', history (t ++ t') w /\ no_push t' /\ gate_result input p e t' w) J.
Proof.
  intros HJ w Hw. pose proof (runApprovalGate_spec E input ip path key t p J HJ w Hw) as Hs.
  destruct (gate_no_push E input ip path key w) as (tg & Htg & Hn). destruct Hw as [Hh _].
  unfold history in *. rewrite Hh in Htg.
  destruct (runApprovalGate E input ip path key w).2 as [e| |]; [|done..].
  destruct Hs as (t' & Ht' & Hg). rewrite Htg in Ht'. apply app_inv_head in Ht' as <-. by exists tg.
Qed.

Section gated.
Context (E : env) (input : WorkflowInput) (t0 : list event).
Notation K := (gate_since input).
Notation so_far := (so_far t0).
Notation pushing := (pushing t0 K).
Notation cleared := (cleared t0 K K).

(** The agent has finished, and nothing was pushed yet. *)
Definition finished (w : World) : Prop :=
  exists ta c tb, history (t0 ++ ta ++ c :: tb) w /\ no_push (ta ++ c :: tb) /\ completed c = true.

(** The same, and the gate was passed since. *)
Definition accepted (w : World) : Prop :=
  exists t, history (t0 ++ t) w /\ no_push t /\ K t.

Lemma gate_cleared ip path key :
  hoare (fun w => finished w /\ phase w = "Succeeded") (runApprovalGate E input ip path key)
    (fun e => match e with None => accepted | Some _ => cleared end) pushing.
Proof.
  intros w [(ta & c & tb & Hh & Hn & Hc) Hp].
  pose proof (gate_adds E input ip path key (t0 ++ ta ++ c :: tb) "Succeeded" any ltac:(done) w
    (conj Hh Hp)) as Hg.
  pose proof (hoare_quiet t0 K _ (gate_no_push E input ip path key) w
    ltac:(by exists (ta ++ c :: tb))) as Hq.
  destruct (runApprovalGate E input ip path key w).2 as [[e|]| |]; [..|done|done].
  - destruct Hg as (tg & _ & _ & _ & Hf). apply so_far_cleared; [done|]. by rewrite Hf.
  - destruct Hg as (tg & Hg & Hng & Hpass & _). exists ((ta ++ c :: tb) ++ tg).
    split; [by unfold history in *; rewrite Hg, !app_assoc|].
    split; [by apply Forall_app|].
    exists ta, c, (tb ++ tg). split; [by rewrite <- app_assoc, <- app_comm_cons|]. split; [done|].
    by apply gate_passed_app_r.
Qed.

Lemma onSucceeded_cleared :
  hoare (fun w => finished w /\ phase w = "Succeeded") (onSucceeded E input)
    (fun _ => cleared) pushing.
Proof.
  unfold onSucceeded. eapply hoare_bind; [by apply hoare_gets with (Q := fun _ w =>
    finished w /\ phase w = "Succeeded")|]. intros v.
  eapply hoare_bind; [apply gate_cleared|]. intros [e|]; [by apply hoare_ret|].
  intros w (t & Hh & Hn & HK).
  assert (emits (fun _ => True) (enrichAndPush E input (v_podIP v))) as Hr by wf.
  destruct (Hr w) as (tr & Htr & _).
  assert (cleared (enrichAndPush E input (v_podIP v) w).1) as Hend.
  { exists (t ++ tr). unfold history in *. rewrite Htr, Hh, app_assoc.
    split_and!; [done|by apply guarded_extend; [apply _|..]|]. intros _. by apply lasting. }
  destruct (enrichAndPush E input (v_podIP v) w).2; [done|by apply (cleared_pushing _ _ K)..].
Qed.

(** The phase becomes "Succeeded" only on the report that the agent has finished. *)
Lemma onPoll_finished errs :
  hoare (fun w => so_far w /\ phase w <> "Succeeded") (onPoll E input errs)
    (fun _ w => phase w = "Succeeded" -> finished w) any.
Proof.
  unfold onPoll. eapply hoare_bind; [by apply hoare_gets with (Q := fun _ w =>
    so_far w /\ phase w <> "Succeeded")|]. intros v.
  set (a := GetAgentStatus _). eapply hoare_bind.
  { instantiate (1 := fun r w => (exists t, history (t0 ++ t ++ [EvActivity activityOpts a r]) w /\
      no_push t) /\ phase w <> "Succeeded").
    intros w [(t & Ht & Hn) Hp]. split.
    - exists t. unfold history in *. simpl. by rewrite (arrive_obs w_trace), Ht, app_assoc.
    - by rewrite (keeps_execute (f := phase) E activityOpts a w). }
  intros r. eapply hoare_bind.
  { instantiate (1 := fun _ w => phase w = "Succeeded" -> exists t c,
      history (t0 ++ t ++ [c]) w /\ no_push t /\ is_push c = false /\ completed c = true).
    intros w [(t & Ht & Hn) Hp]. destruct r as [out|e]; simpl.
    - destruct (String.eqb (gs_State out) "AGENT_PROCESS_STATE_COMPLETED") eqn:Ec; simpl.
      + intros _. by exists t, (EvActivity activityOpts a (Success out)).
      + repeat (destruct (String.eqb _ _); simpl; [done|]). done.
    - destruct errs as [|[|[|[|errs]]]]; simpl; done. }
  intros n. intros w Hw Hp. specialize (Hw Hp) as (t & c & Ht & Hn & Hpc & Hc).
  exists t, c, [EvTimer statusPollInterval]. unfold history in *. simpl. rewrite Ht.
  split; [by rewrite <- !app_assoc|]. split; [|done]. apply Forall_app. split; [done|].
  by repeat constructor.
Qed.

Lemma onInput_finished errs i :
  hoare (fun w => so_far w /\ phase w <> "Succeeded") (onInput E input errs i)
    (fun _ w => so_far w /\ (phase w = "Succeeded" -> finished w)) pushing.
Proof.
  assert (hoare (fun w => so_far w /\ phase w <> "Succeeded") (onInput E input errs i)
    (fun _ w => phase w = "Succeeded" -> finished w) any) as Hf.
  { assert (forall (m : W nat) q, q <> "Succeeded" -> hoare any m (fun _ w => phase w = q) any ->
      hoare (fun w => so_far w /\ phase w <> "Succeeded") m
        (fun _ w => phase w = "Succeeded" -> finished w) any) as Hq.
    { intros m q Hq Hm. eapply hoare_conseq; [exact Hm|done| |done].
      intros ? w Hw Hs. by rewrite Hw in Hs. }
    destruct i; cbn [onInput].
    - apply (Hq _ "Cancelled"); [done|]. unfold onCancel.
      apply hoare_bind with (fun _ w => phase w = "Cancelled"); [|intros ?; by apply hoare_ret].
      skip_any. apply settle_phase.
    - apply (Hq _ "Running"); [done|]. unfold onHumanInput.
      apply hoare_bind with (fun _ w => phase w = "Running"); [|intros ?; by apply hoare_ret].
      skip_any. apply settle_phase.
    - intros w [_ Hp] Hs. done.
    - apply (Hq _ "Failed"); [done|].
      eapply hoare_bind; [apply onTTL_phase|]. intros ?. by apply hoare_ret.
    - apply onPoll_finished. }
  intros w Hw. specialize (Hf w Hw).
  pose proof (hoare_quiet t0 K (onInput E input errs i) ltac:(wf) w (proj1 Hw)) as Hs.
  by destruct (onInput E input errs i w).2.
Qed.

Lemma pollLoop_cleared fuel errs :
  hoare (fun w => so_far w /\ phase w <> "Succeeded") (pollLoop E input fuel errs)
    (fun _ => cleared) pushing.
Proof.
  revert errs. induction fuel as [|fuel IH]; intros errs; cbn [pollLoop].
  { intros w [Hw _]. by apply so_far_pushing. }
  eapply hoare_bind.
  { instantiate (1 := fun _ w => so_far w /\ phase w <> "Succeeded"). intros w [Hw Hp].
    pose proof (hoare_quiet t0 K (select poll_kinds) ltac:(wf) w Hw) as Hs. fold poll_kinds.
    pose proof (keeps_select (f := phase) poll_kinds w) as Hk.
    destruct (select poll_kinds w).2; [|done..]. by rewrite Hk. }
  intros i. eapply hoare_bind; [apply onInput_finished|]. intros n.
  eapply hoare_bind; [apply hoare_gets with (Q := fun p w => (so_far w /\
    (phase w = "Succeeded" -> finished w)) /\ phase w = p); by intros|]. intros p.
  destruct (String.eqb p "Succeeded") eqn:Es.
  { apply String.eqb_eq in Es as ->. eapply hoare_conseq; [apply onSucceeded_cleared|..]; [|done..].
    intros w [[_ H] Hp]. auto. }
  apply String.eqb_neq in Es.
  destruct (String.eqb p "Failed" || String.eqb p "Cancelled").
  - apply hoare_ret. intros w [[Hs _] Hp]. apply so_far_cleared; [done|by rewrite Hp].
  - eapply hoare_conseq; [apply IH|..]; [|done..]. intros w [[Hs _] Hp]. by subst p.
Qed.

Lemma startAgent_cleared : hoare so_far (startAgent E input) (fun _ => cleared) pushing.
Proof.
  unfold startAgent. eapply hoare_bind.
  { instantiate (1 := fun _ => in_phase t0 "Running"). intros w (t & Ht & Hn).
    split; [|done]. by exists t. }
  intros ?. eapply hoare_bind; [apply hoare_in_phase; wf|]. intros v. unfold must.
  eapply hoare_bind; [apply hoare_in_phase; wf|]. intros [b|e].
  - unfold pollUntilDone. do 4 (eapply hoare_bind; [apply hoare_in_phase; wf|]; intros ?).
    eapply hoare_conseq; [apply pollLoop_cleared| |done..]. intros w [Hs Hp]. by rewrite Hp.
  - apply hoare_pre with so_far; [by intros w []|].
    destruct (e_canceled e); by apply settle_cleared.
Qed.

Lemma provisionKey_cleared : hoare so_far (provisionKey E input) (fun _ => cleared) pushing.
Proof.
  unfold provisionKey. apply quiet_then; [wf|]. intros ?. apply must_cleared; [done|]. intros out.
  apply quiet_then; [wf|]. intros ?. unfold createDeployment.
  do 2 (apply quiet_then; [wf|]; intros ?). apply must_cleared; [done|]. intros dep.
  do 2 (apply quiet_then; [wf|]; intros ?). unfold checkPodStatus.
  do 3 (apply quiet_then; [wf|]; intros ?). cbv zeta.
  destruct (match _ with Success _ => _ | Failure _ => _ end); [by apply settle_cleared|].
  unfold waitForHydration. do 2 (apply quiet_then; [wf|]; intros ?).
  apply must_cleared; [done|]. intros hyd. apply quiet_then; [wf|]. intros ?.
  unfold hydrateContext. do 2 (apply quiet_then; [wf|]; intros ?). apply startAgent_cleared.
Qed.

Lemma singleAgent_cleared : hoare (history t0) (singleAgent E input) (fun _ => cleared) pushing.
Proof.
  unfold singleAgent. eapply hoare_bind.
  { instantiate (1 := fun _ => in_phase t0 "Pending"). intros w Hw. split; [|done].
    exists []. split; [by rewrite app_nil_r|by constructor]. }
  intros ?. eapply hoare_bind; [apply hoare_in_phase; wf|]. intros [e|].
  { apply hoare_ret. intros w [Hs Hp]. apply so_far_cleared; [done|by rewrite Hp]. }
  eapply hoare_bind; [apply hoare_in_phase; wf|]. intros ?.
  apply cleanup_cleared; [apply _|wf|wf|].
  apply hoare_pre with so_far; [by intros w []|apply provisionKey_cleared].
Qed.
End gated.
