(* ===== verification/SpecDriven.v ===== *)
(** * The spec-driven pipeline: [internal/temporal/workflow_spec_driven.go].

    Plan, then execute and verify with retries, then push, open a pull request
    and pass the approval gate. *)

From S2P Require Import Prelude GoStrings TemporalTypes Workflow WorkflowLogic ApprovalGate SingleAgent.

(** ** Stage configuration *)

Definition noStage : StageConfigInput :=
  {| sci_Model := ""; sci_TimeoutSeconds := 0; sci_MaxRetries := 0; sci_OnFailure := "" |}.

(** [internal/temporal/workflow_spec_driven.go:118-123] resolveStageConfig: defaults *)
Definition stageDefaults (stage : string) : StageConfigInput :=
  if String.eqb stage "plan" then
    {| sci_Model := "default-cloud"; sci_TimeoutSeconds := 300; sci_MaxRetries := 2;
       sci_OnFailure := "fail" |}
  else if String.eqb stage "execute" then
    {| sci_Model := "default-cloud"; sci_TimeoutSeconds := 900; sci_MaxRetries := 3;
       sci_OnFailure := "retry" |}
  else if String.eqb stage "verify" then
    {| sci_Model := "default-cloud"; sci_TimeoutSeconds := 180; sci_MaxRetries := 1;
       sci_OnFailure := "fail" |}
  else noStage.

(** [internal/temporal/workflow_spec_driven.go:117-150] resolveStageConfig *)
Definition resolveStageConfig (cfg : option PipelineConfigInput) (stage : string)
  : StageConfigInput :=
  let def := stageDefaults stage in
  let sc := match cfg with
    | None => noStage
    | Some c => if String.eqb stage "plan" then pci_Plan c
                else if String.eqb stage "execute" then pci_Execute c
                else if String.eqb stage "verify" then pci_Verify c
                else noStage
    end in
  {| sci_Model := if String.eqb (sci_Model sc) "" then sci_Model def else sci_Model sc;
     sci_TimeoutSeconds := if (sci_TimeoutSeconds sc =? 0)%Z then sci_TimeoutSeconds def
                           else sci_TimeoutSeconds sc;
     sci_MaxRetries := if (sci_MaxRetries sc =? 0)%Z then sci_MaxRetries def
                       else sci_MaxRetries sc;
     sci_OnFailure := if String.eqb (sci_OnFailure sc) "" then sci_OnFailure def
                      else sci_OnFailure sc |}.

Definition with_model (m : string) (sc : StageConfigInput) : StageConfigInput :=
  if String.eqb m "" then sc
  else {| sci_Model := m; sci_TimeoutSeconds := sci_TimeoutSeconds sc;
          sci_MaxRetries := sci_MaxRetries sc; sci_OnFailure := sci_OnFailure sc |}.

(** [internal/temporal/workflow_spec_driven.go:161-164] runSpecDrivenPipeline: manageModel *)
Definition manageModel (input : WorkflowInput) : string :=
  if String.eqb (wi_ManageModelTier input) "" then wi_ModelTier input
  else wi_ManageModelTier input.

(** [internal/temporal/workflow_spec_driven.go:169-172] runSpecDrivenPipeline: implModel *)
Definition implModel (input : WorkflowInput) : string :=
  if String.eqb (wi_ImplementModelTier input) "" then manageModel input
  else wi_ImplementModelTier input.

(** [internal/temporal/workflow_spec_driven.go:155-168] runSpecDrivenPipeline: planCfg *)
Definition planCfg (input : WorkflowInput) : StageConfigInput :=
  with_model (manageModel input) (resolveStageConfig (wi_PipelineConfig input) "plan").
(** [internal/temporal/workflow_spec_driven.go:155-175] runSpecDrivenPipeline: execCfg *)
Definition execCfg (input : WorkflowInput) : StageConfigInput :=
  with_model (implModel input) (resolveStageConfig (wi_PipelineConfig input) "execute").
(** [internal/temporal/workflow_spec_driven.go:155-168] runSpecDrivenPipeline: verifyCfg *)
Definition verifyCfg (input : WorkflowInput) : StageConfigInput :=
  with_model (manageModel input) (resolveStageConfig (wi_PipelineConfig input) "verify").

(** ** Retry prompts *)

Definition nl2 : string := newline +:+ newline.

(** The end of the prompts that ask for a fix. *)
Definition complete_change (changeName originalPrompt : string) : string :=
  "omplete the OpenSpec change '" +:+ changeName +:+ "'." +:+ newline +:+
  "Read specs at /workspace/openspec/changes/" +:+ changeName +:+ "/" +:+ newline +:+
  "Mark ALL tasks [x] in tasks.md when complete." +:+ nl2 +:+
  "Original task: " +:+ originalPrompt.

(** [internal/temporal/workflow_spec_driven.go:866-889] buildRetryPrompt *)
Definition buildRetryPrompt (attempt : Z)
    (changeName originalPrompt salvageGuidance reviewFeedback failureReport : string) : string :=
  if negb (String.eqb salvageGuidance "") then
    "SALVAGE RETRY (attempt " +:+ Itoa attempt +:+
    ") — The previous attempt was partially correct but needs targeted fixes:" +:+ nl2 +:+
    salvageGuidance +:+ nl2 +:+ "C" +:+ complete_change changeName originalPrompt
  else if negb (String.eqb reviewFeedback "") then
    "MANAGE AGENT REVIEW FAILED (attempt " +:+ Itoa (attempt - 1) +:+ "):" +:+ nl2 +:+
    reviewFeedback +:+ nl2 +:+ "Fix the issues identified above and c" +:+
    complete_change changeName originalPrompt
  else if negb (String.eqb failureReport "") then
    "PREVIOUS ATTEMPT FAILED (structural checks):" +:+ newline +:+ failureReport +:+ nl2 +:+
    "Fix the issues and c" +:+ complete_change changeName originalPrompt
  else
    "Implement the OpenSpec change '" +:+ changeName +:+ "'." +:+ nl2 +:+
    "Read specs at /workspace/openspec/changes/" +:+ changeName +:+ "/ for requirements." +:+
    newline +:+ "Read tasks.md for your checklist. Mark each task [x] as you complete it." +:+
    nl2 +:+ "Original task: " +:+ originalPrompt.

(** What a failed attempt leaves for the next one. *)
Record retry := {
  rt_FailureReport : string; rt_ReviewFeedback : string; rt_SalvageGuidance : string;
}.

Definition noRetry : retry :=
  {| rt_FailureReport := ""; rt_ReviewFeedback := ""; rt_SalvageGuidance := "" |}.

(** [internal/temporal/workflow_spec_driven.go:824-832] runSpecDrivenPipeline: the retry
    context after a verification that did not pass *)
Definition nextRetry (rt : retry) (v : VerificationResult) : retry :=
  if negb (String.eqb (vr_SalvageGuidance v) "") then
    {| rt_FailureReport := vr_FailureReport v; rt_ReviewFeedback := rt_ReviewFeedback rt;
       rt_SalvageGuidance := vr_SalvageGuidance v |}
  else if negb (String.eqb (vr_ReviewFeedback v) "") then
    {| rt_FailureReport := vr_FailureReport v; rt_ReviewFeedback := vr_ReviewFeedback v;
       rt_SalvageGuidance := "" |}
  else
    {| rt_FailureReport := vr_FailureReport v; rt_ReviewFeedback := rt_ReviewFeedback rt;
       rt_SalvageGuidance := rt_SalvageGuidance rt |}.

Definition retryPrompt (input : WorkflowInput) (attempt : Z) (changeName : string) (rt : retry)
  : string :=
  buildRetryPrompt attempt changeName (wi_Prompt input) (rt_SalvageGuidance rt)
    (rt_ReviewFeedback rt) (rt_FailureReport rt).

Section pipeline.
Context (E : env) (input : WorkflowInput).

(** ** Trace spans *)

(** [internal/temporal/workflow_spec_driven.go:1104-1110] traceSpanOpts *)
Definition traceSpanOpts : ActivityOptions := options 10 0 (attempts 2).

(** [internal/temporal/workflow_spec_driven.go:1114-1123] writeStageSpan *)
Definition writeStageSpan (podIP : string) (span : TraceSpanData) : W unit :=
  execute_ E traceSpanOpts (WriteTraceSpan
    {| ts_AgentRunName := wi_AgentRunName input; ts_PodIP := podIP; ts_Span := span |}).

(** An open span of a stage: its identifiers, its name and its start time. *)
Record span := {
  s_ID : string; s_TraceID : string; s_ParentID : string; s_Name : string; s_Start : string;
}.

Definition span_data (s : span) (endTime status : string) (meta : list (string * metavalue))
  : TraceSpanData :=
  {| sp_ID := s_ID s; sp_TraceID := s_TraceID s; sp_ParentID := s_ParentID s;
     sp_Name := s_Name s; sp_Type := "stage"; sp_StartTime := s_Start s;
     sp_EndTime := endTime; sp_Status := status; sp_Metadata := meta; sp_HasDiff := false |}.

Definition openSpan (traceID parentID name : string) (meta : list (string * metavalue)) : W span :=
  id ← newWorkflowUUID E;
  start ← now E;
  v ← getVars;
  let s := {| s_ID := id; s_TraceID := traceID; s_ParentID := parentID; s_Name := name;
              s_Start := start |} in
  writeStageSpan (v_podIP v) (span_data s "" "" meta);;
  mret s.

Definition closeSpan (s : span) (status : string) (meta : list (string * metavalue)) : W unit :=
  endTime ← now E;
  v ← getVars;
  writeStageSpan (v_podIP v) (span_data s endTime status meta).

(** ** Polling *)

(** [internal/temporal/workflow_spec_driven.go:1129-1138] pollAgentStatus: activityOpts *)
Definition pollOpts : ActivityOptions :=
  options activityTimeout (heartbeatInterval * 3) (backoff 1 20 30 3).

Definition stopAgent : W unit :=
  v ← getVars;
  execute_ E pollOpts (StopAgent
    {| st_PodName := v_podName v; st_Namespace := wi_Namespace input;
       st_PodIP := v_podIP v; st_Force := false |}).

Definition forwardInput (text : string) : W unit :=
  v ← getVars;
  execute_ E pollOpts (ForwardHumanInput
    {| fh_AgentRunID := wi_AgentRunName input; fh_PodName := v_podName v;
       fh_Namespace := wi_Namespace input; fh_PodIP := v_podIP v; fh_Input := text |});;
  settle "Running" "Human input forwarded".

(** [internal/temporal/workflow_spec_driven.go:1197-1223] pollAgentStatus: what a status
    answer does; returns [consecutiveErrors] *)
Definition onAgentStatus (errs : nat) (r : answer GetAgentStatusOutput) : W nat :=
  match r with
  | Failure e =>
      (if maxConsecutiveStatusErrors <=? S errs
       then settle "Failed" ("Sidecar unreachable after " +:+ Itoa (Z.of_nat (S errs))
                             +:+ " errors: " +:+ e_msg e)
       else mret ());;
      mret (S errs)
  | Success out =>
      (if String.eqb (gs_State out) "AGENT_PROCESS_STATE_COMPLETED" then
         settle "AgentCompleted" "Agent completed, proceeding to verification"
       else if String.eqb (gs_State out) "AGENT_PROCESS_STATE_FAILED" then
         settle "Failed" ("Agent failed: " +:+ gs_Error out)
       else if String.eqb (gs_State out) "AGENT_PROCESS_STATE_WAITING_FOR_INPUT" then
         settle "WaitingForInput" "Agent waiting for human input"
       else mret ());;
      mret 0
  end.

(** [internal/temporal/workflow_spec_driven.go:1153-1229] pollAgentStatus: the selector's
    cases *)
Definition onPollInput (errs : nat) (i : Workflow.input) : W nat :=
  match i with
  | InCancel => settle "Cancelled" "Cancel signal received";; stopAgent;; mret errs
  | InHuman text => forwardInput text;; mret errs
  | InTTL => settle "Failed" "Exceeded TTL";; stopAgent;; mret errs
  | InTick =>
      v ← getVars;
      r ← execute E pollOpts (GetAgentStatus
        {| gs_PodName := v_podName v; gs_Namespace := wi_Namespace input;
           gs_PodIP := v_podIP v |});
      n ← onAgentStatus errs r;
      newPollTimer statusPollInterval;;
      mret n
  | InApproval _ => mret errs
  end.

(** [internal/temporal/workflow_spec_driven.go:1150-1242] pollAgentStatus: the loop.
    Every round takes one of the [pending] inputs. *)
Fixpoint pollAgentLoop (fuel : nat) (errs : nat) : W goerr :=
  match fuel with
  | 0 => out_of_fuel
  | S fuel =>
      i ← select [KCancel; KHuman; KTTL; KTick];
      n ← onPollInput errs i;
      phase ← getPhase;
      if String.eqb phase "AgentCompleted" then setPhase "Running";; mret None
      else if String.eqb phase "Failed" || String.eqb phase "Cancelled" then mret None
      else pollAgentLoop fuel n
  end.

(** [internal/temporal/workflow_spec_driven.go:1129-1243] pollAgentStatus: with a channel for
    human input, as its only caller passes one *)
Definition pollAgentStatus : W goerr :=
  newTTLTimer (ttlDuration (wi_TTLSeconds input));;
  newPollTimer statusPollInterval;;
  n ← gets pending;
  pollAgentLoop (S n) 0.
(** ** After verification *)

(** [internal/temporal/workflow_spec_driven.go:982-1020] postVerifyPushAndPR: the pull
    request's body *)
Definition specPRBody (out : PushChangesOutput) (changeName : string) (attempt : Z) : string :=
  let summary :=
    if String.eqb (po_ProposalContent out) "" then
      if 300 <? String.length (wi_Prompt input)
      then str_take 300 (wi_Prompt input) +:+ "..." else wi_Prompt input
    else po_ProposalContent out in
  let runURL := "https://uncworks.stork-eel.ts.net/run/" +:+ wi_AgentRunName input in
  "## Summary" +:+ nl2 +:+ summary +:+ nl2 +:+ "## Changes" +:+ nl2 +:+ po_DiffStat out +:+
  nl2 +:+ "## Pipeline" +:+ nl2 +:+ "- **Run:** " +:+ wi_AgentRunName input +:+ newline +:+
  "- **Change:** " +:+ changeName +:+ newline +:+
  "- **Model:** " +:+ wi_ModelTier input +:+ newline +:+
  "- **Attempt:** " +:+ Itoa attempt +:+ nl2 +:+ "## Run" +:+ nl2 +:+
  "View the full agent run: " +:+ runURL +:+ nl2 +:+ "---" +:+ newline +:+
  "*This PR was automatically created by the UNCWORKS spec-driven pipeline.*".

(** [internal/temporal/workflow_spec_driven.go:910-944] postVerifyPushAndPR: PushChangesInput *)
Definition specPushInput (podIP changeName : string) (attempt : Z) : PushChangesInput :=
  {| pc_AgentRunName := wi_AgentRunName input; pc_PodIP := podIP;
     pc_RepoPath := repoPath input; pc_BranchName := branchName input;
     pc_BaseBranch := match wi_Repos input with r :: _ => r_Branch r | [] => "" end;
     pc_CommitMessage := "feat(" +:+ changeName +:+ "): implement spec-driven change" +:+ nl2 +:+
                         "AgentRun: " +:+ wi_AgentRunName input +:+ newline +:+
                         "Change: " +:+ changeName +:+ newline +:+ "Attempt: " +:+ Itoa attempt;
     pc_RepoURL := firstURL input; pc_ChangeName := changeName |}.

(** [internal/temporal/workflow_spec_driven.go:893-1037] postVerifyPushAndPR *)
Definition postVerifyPushAndPR (podIP changeName : string) (attempt : Z) : W goerr :=
  if negb (wi_AutoPush input) && negb (wi_AutoPR input) then mret None
  else
    setMessage "Pushing changes to feature branch";;
    r ← execute E gitOpts (PushChanges (specPushInput podIP changeName attempt));
    match r with
    | Failure e => mret (wrap "push changes" e)
    | Success out =>
        if negb (po_HasChanges out) then mret None
        else if negb (wi_AutoPR input) then mret None
        else if length (wi_Repos input) =? 0 then
          mret (errorf errFailed "no repos configured, cannot create PR")
        else match parseGitHubOwnerRepo (firstURL input) with
        | Err e => mret (Some {| e_canceled := false; e_msg := "parse repo URL for PR: " +:+ e |})
        | Ok (owner, repo) =>
            setMessage "Creating GitHub PR";;
            p ← execute E (options 30 0 (attempts 2)) (CreatePR
              {| cr_RepoOwner := owner; cr_RepoName := repo; cr_BranchName := branchName input;
                 cr_BaseBranch := if String.eqb (wi_PRBaseBranch input) "" then "main"
                                  else wi_PRBaseBranch input;
                 cr_Title := prTitleFrom (po_CommitMessage out) (wi_Prompt input);
                 cr_Body := specPRBody out changeName attempt;
                 cr_AgentRunName := wi_AgentRunName input |});
            match p with
            | Failure e => mret (wrap "create PR" e)
            | Success pr => setPRUrl (co_PRUrl pr);; mret None
            end
        end
    end.

(** ** The stages *)

Definition specWhere : string := "spec driven pipeline".

(** [internal/temporal/workflow_spec_driven.go:192-201] runSpecDrivenPipeline: planOpts *)
Definition planOpts : ActivityOptions :=
  options (sci_TimeoutSeconds (planCfg input)) 30 (backoff 5 20 60 3).
(** [internal/temporal/workflow_spec_driven.go:202-211] runSpecDrivenPipeline: executeOpts *)
Definition executeOpts : ActivityOptions :=
  options (sci_TimeoutSeconds (execCfg input)) (heartbeatInterval * 3) (backoff 1 20 30 3).
(** [internal/temporal/workflow_spec_driven.go:212-221] runSpecDrivenPipeline: verifyOpts *)
Definition verifyOpts : ActivityOptions :=
  options (sci_TimeoutSeconds (verifyCfg input)) 30 (backoff 5 20 60 3).

(** [internal/temporal/workflow_spec_driven.go:228-281] runSpecDrivenPipeline: the deferred
    compensation *)
Definition specCleanup : W unit :=
  v ← getVars;
  revokeKey E (v_llmKey v);;
  (if String.eqb (v_deploymentName v) "" then mret () else retire E input 86400 v).

(** [internal/temporal/workflow_spec_driven.go:416-423] runSpecDrivenPipeline: checkCancel *)
Definition checkCancel : W bool :=
  c ← receiveAsyncCancel;
  (if (c : bool) then settle "Cancelled" "Cancelled by user" else mret ());;
  mret c.

Definition stageMeta (stage : string) (attempt : Z) : list (string * metavalue) :=
  [("stage", MString stage); ("attempt", MInt attempt)].

Definition attemptName (stage : string) (attempt : Z) : string :=
  stage +:+ " (attempt " +:+ Itoa attempt +:+ ")".

(** What an attempt ends with: the pipeline returns, or tries again. *)
Inductive attempt_result := Return (e : goerr) | Retry (rt : retry).

(** The attempts made, as an [int]. *)
Definition maxRetries : Z := sci_MaxRetries (execCfg input).

(** [internal/temporal/workflow_spec_driven.go:726-803] runSpecDrivenPipeline: the
    verification has passed *)
Definition onVerified (root vspan : span) (changeName : string) (attempt : Z)
    (r : VerificationResult) : W goerr :=
  closeSpan vspan "ok"
    (stageMeta "verify" attempt ++
     [("result", MString "passed");
      ("task.completion", MString (Itoa (vr_TasksCompleted r) +:+ "/" +:+ Itoa (vr_TasksTotal r)))]);;
  v ← getVars;
  execute_ E (options 60 0 (attempts 2)) (EnrichRunTags
    {| et_AgentRunName := wi_AgentRunName input; et_Namespace := wi_Namespace input;
       et_PodIP := v_podIP v; et_RepoPath := repoPath input |});;
  postVerifyPushAndPR (v_podIP v) changeName attempt;;
  closeSpan root "ok" [("pipeline.result", MString "succeeded"); ("pipeline.attempts", MInt attempt)];;
  gateErr ← runApprovalGate E input (v_podIP v) (repoPath input) (v_llmKey v);
  match gateErr with
  | Some e => mret (Some e)
  | None =>
      s ← gets w_state;
      settle "Succeeded"
        ("Spec-driven pipeline: verified and archived (attempt " +:+ Itoa attempt +:+ ")" +:+
         (if String.eqb (ws_PRUrl s) "" then "" else ", PR: " +:+ ws_PRUrl s));;
      mret None
  end.

(** [internal/temporal/workflow_spec_driven.go:666-840] runSpecDrivenPipeline: verify *)
Definition verifyAttempt (root : span) (changeName : string) (attempt : Z) (rt : retry)
  : W attempt_result :=
  setMessage ("manage: verifying against spec (attempt " +:+ Itoa attempt +:+ "/" +:+
              Itoa maxRetries +:+ ")");;
  vspan ← openSpan (s_TraceID root) (s_ID root) (attemptName "VERIFY" attempt)
            (stageMeta "verify" attempt);
  v ← getVars;
  r ← execute E verifyOpts (VerifyRun
    {| vr_AgentRunName := wi_AgentRunName input; vr_Namespace := wi_Namespace input;
       vr_PodName := v_podName v; vr_PodIP := v_podIP v; vr_ChangeName := changeName;
       vr_RepoPath := "/workspace"; vr_ParentSpanID := s_ID vspan;
       vr_TraceID := s_TraceID root; vr_ManageModel := sci_Model (verifyCfg input);
       vr_PreviousReviewFeedback := rt_ReviewFeedback rt |});
  match r with
  | Failure e =>
      closeSpan vspan "error" (stageMeta "verify" attempt ++ [("error", MString (e_msg e))]);;
      if e_canceled e then
        settle "Cancelled" "Cancelled during verification";; mret (Return (wrap specWhere e))
      else
        mret (Retry {| rt_FailureReport := "Verification activity error: " +:+ e_msg e;
                       rt_ReviewFeedback := rt_ReviewFeedback rt;
                       rt_SalvageGuidance := rt_SalvageGuidance rt |})
  | Success out =>
      if vr_Pass (vr_Result out) then
        e ← onVerified root vspan changeName attempt (vr_Result out); mret (Return e)
      else
        closeSpan vspan "error"
          (stageMeta "verify" attempt ++
           [("result", MString "failed");
            ("task.completion", MString (Itoa (vr_TasksCompleted (vr_Result out)) +:+ "/" +:+
                                         Itoa (vr_TasksTotal (vr_Result out))))]);;
        mret (Retry (nextRetry rt (vr_Result out)))
  end.

Definition cancelledByUser : goerr := errorf errFailed "cancelled by user".

(** [internal/temporal/workflow_spec_driven.go:576-840] runSpecDrivenPipeline: one attempt *)
Definition runAttempt (root : span) (changeName : string) (attempt : Z) (rt : retry)
  : W attempt_result :=
  c ← checkCancel;
  phase ← getPhase;
  if (c : bool) || String.eqb phase "Cancelled" then mret (Return cancelledByUser)
  else
    setMessage ("Executing: attempt " +:+ Itoa attempt +:+ "/" +:+ Itoa maxRetries);;
    espan ← openSpan (s_TraceID root) (s_ID root) (attemptName "EXECUTE" attempt)
              (stageMeta "execute" attempt);
    v ← getVars;
    r ← execute E executeOpts (StartAgent
      {| sa_PodName := v_podName v; sa_Namespace := wi_Namespace input; sa_PodIP := v_podIP v;
         sa_Prompt := retryPrompt input attempt changeName rt; sa_RepoPath := "/workspace";
         sa_Model := sci_Model (execCfg input); sa_Stage := "execute";
         sa_ParentSpanID := s_ID espan; sa_TraceID := s_TraceID root |});
    match r with
    | Failure e =>
        closeSpan espan "error" (stageMeta "execute" attempt ++ [("error", MString (e_msg e))]);;
        (if e_canceled e then settle "Cancelled" "Cancelled during execution"
         else settle "Failed" ("Execution failed: " +:+ e_msg e));;
        mret (Return (wrap specWhere e))
    | Success _ =>
        err ← pollAgentStatus;
        match err with
        | Some e => mret (Return (Some e))
        | None =>
            phase ← getPhase;
            closeSpan espan
              (if String.eqb phase "Failed" || String.eqb phase "Cancelled" then "error" else "ok")
              (stageMeta "execute" attempt);;
            if String.eqb phase "Cancelled" then mret (Return cancelledByUser)
            else verifyAttempt root changeName attempt rt
        end
    end.

(** [internal/temporal/workflow_spec_driven.go:842-861] runSpecDrivenPipeline: all retries
    exhausted *)
Definition exhausted (root : span) (rt : retry) : W goerr :=
  closeSpan root "error" [("pipeline.result", MString "failed"); ("pipeline.attempts", MInt maxRetries)];;
  settle "Failed" ("Spec-driven pipeline: failed verification after " +:+ Itoa maxRetries +:+
                   " attempts. " +:+ rt_FailureReport rt);;
  mret None.

(** [internal/temporal/workflow_spec_driven.go:568-861] runSpecDrivenPipeline: the attempts *)
Fixpoint runAttempts (n : nat) (root : span) (changeName : string) (attempt : Z) (rt : retry)
  : W goerr :=
  match n with
  | 0 => exhausted root rt
  | S n =>
      r ← runAttempt root changeName attempt rt;
      match r with
      | Return e => mret e
      | Retry rt' => runAttempts n root changeName (attempt + 1) rt'
      end
  end.

(** [internal/temporal/workflow_spec_driven.go:479-483] runSpecDrivenPipeline: the plan of a
    CI autofix run *)
Definition autofixPlan : PlanRunOutput :=
  {| pl_ChangeName := "ci-autofix"; pl_TaskCount := 1; pl_SpecsValid := true;
     pl_ValidationErrors := [] |}.

(** [internal/temporal/workflow_spec_driven.go:464-475] runSpecDrivenPipeline: planInput *)
Definition planInput (v : vars) (pspan : span) : PlanRunInput :=
  {| pl_AgentRunName := wi_AgentRunName input; pl_Namespace := wi_Namespace input;
     pl_PodName := v_podName v; pl_PodIP := v_podIP v; pl_Prompt := wi_Prompt input;
     pl_SpecContent := wi_SpecContent input; pl_RepoPath := "/workspace";
     pl_Model := sci_Model (planCfg input); pl_ParentSpanID := s_ID pspan;
     pl_TraceID := s_TraceID pspan |}.

(** [internal/temporal/workflow_spec_driven.go:529-574] runSpecDrivenPipeline: the plan is
    checked, then executed *)
Definition onPlanned (root pspan : span) (out : PlanRunOutput) : W goerr :=
  if negb (pl_SpecsValid out) then
    let errMsg := "Planning produced invalid OpenSpec change" +:+
      (match pl_ValidationErrors out with [] => "" | l => ": " +:+ Join l "; " end) in
    closeSpan pspan "error" [("stage", MString "plan"); ("error", MString errMsg)];;
    settle "Failed" errMsg;;
    mret (errorf errFailed errMsg)
  else
    closeSpan pspan "ok" [("stage", MString "plan"); ("taskCount", MInt (pl_TaskCount out))];;
    runAttempts (Z.to_nat maxRetries) root (pl_ChangeName out) 1 noRetry.

(** [internal/temporal/workflow_spec_driven.go:439-527] runSpecDrivenPipeline: stage 1 *)
Definition plan (root : span) : W goerr :=
  c ← checkCancel;
  if (c : bool) then mret None
  else
    setMessage "Planning: generating spec from prompt";;
    pspan ← openSpan (s_TraceID root) (s_ID root) "PLAN" [("stage", MString "plan")];
    v ← getVars;
    if HasPrefix (wi_SpecSource input) "ci-autofix:" then
      closeSpan pspan "ok" [("stage", MString "plan"); ("skipped", MBool true);
                            ("reason", MString "ci-autofix")];;
      onPlanned root pspan autofixPlan
    else
      r ← execute E planOpts (PlanRun (planInput v pspan));
      match r with
      | Success out => onPlanned root pspan out
      | Failure e =>
          closeSpan pspan "error" [("stage", MString "plan"); ("error", MString (e_msg e))];;
          (if e_canceled e then settle "Cancelled" "Cancelled during planning"
           else settle "Failed" ("Planning failed: " +:+ e_msg e));;
          mret (wrap specWhere e)
      end.

(** [internal/temporal/workflow_spec_driven.go:425-437] runSpecDrivenPipeline: the root span *)
Definition rootSpan : W goerr :=
  traceID ← newWorkflowUUID E;
  root ← openSpan traceID "" "pipeline" [("pipeline.result", MString "running")];
  plan root.

(** [internal/temporal/workflow_spec_driven.go:376-412] runSpecDrivenPipeline: hydration *)
Definition specHydration : W goerr :=
  setMessage "Waiting for workspace hydration";;
  v ← getVars;
  must E specWhere
    (options 1200 30 {| rp_InitialInterval := 5; rp_BackoffTenths := 10; rp_MaximumInterval := 0;
                        rp_MaximumAttempts := 3; rp_NonRetryable := ["eviction"] |})
    (WaitForHydration
      {| wh_PodName := v_podName v; wh_Namespace := wi_Namespace input;
         wh_AgentRunName := wi_AgentRunName input |})
    "Cancelled during hydration" "Hydration failed"
    (fun out => setPodIP (wh_PodIP out);; rootSpan).

(** [internal/temporal/workflow_spec_driven.go:356-374] runSpecDrivenPipeline: the pod's status *)
Definition specCheckPod : W goerr :=
  setMessage "Checking pod status";;
  v ← getVars;
  r ← execute E executeOpts (CheckPodStatus
    {| cp_PodName := v_podName v; cp_Namespace := wi_Namespace input |});
  let evicted := match r with
    | Success out => if String.eqb (cp_Reason out) "Evicted" then Some (cp_Message out) else None
    | Failure _ => None
    end in
  match evicted with
  | Some m =>
      settle "Failed" ("Pod was evicted immediately after creation: " +:+ m);;
      mret (errorf errFailed ("pod evicted: " +:+ m))
  | None => specHydration
  end.

(** [internal/temporal/workflow_spec_driven.go:314-354] runSpecDrivenPipeline: the deployment *)
Definition specDeployment : W goerr :=
  setMessage "Creating agent deployment";;
  v ← getVars;
  must E specWhere executeOpts (CreateAgentDeployment (deployInput input (v_llmKey v)))
    "Cancelled during deployment creation" "Failed to create deployment"
    (fun out =>
       setPod (cd_DeploymentName out);; setDeployment (cd_DeploymentName out);;
       specCheckPod).

(** [internal/temporal/workflow_spec_driven.go:283-312] runSpecDrivenPipeline: the key *)
Definition specProvision : W goerr :=
  settle "Running" "Provisioning LLM key";;
  must E specWhere executeOpts (ProvisionLLMKey
    {| pk_AgentRunName := wi_AgentRunName input; pk_Namespace := wi_Namespace input;
       pk_ModelTier := wi_ModelTier input; pk_MaxBudget := wi_MaxBudget input |})
    "Cancelled during LLM key provisioning" "Failed to provision LLM key"
    (fun out => setKey (pk_Key out);; specDeployment).

(** [internal/temporal/workflow_spec_driven.go:154-862] runSpecDrivenPipeline *)
Definition runSpecDrivenPipeline : W goerr :=
  newState "Running" "Spec-driven pipeline: starting";;
  err ← setQueryHandler E;
  match err with
  | Some e => mret (wrap "set query handler" e)
  | None =>
      modify (set_vars (fun _ => noVars));;
      with_defer specCleanup specProvision
  end.
End pipeline.
