(* ===== verification/SpecProps.v ===== *)
(** * Properties of the spec-driven pipeline.

    It ends in a terminal phase and never runs out of fuel, gives back what it was
    given, starts the agent at most as often as configured, pushes only what was
    verified, and succeeds only when the gate was passed after the verification. *)

From S2P Require Import Prelude GoStrings TemporalTypes Workflow WorkflowLogic ApprovalGate SingleAgent RunProps SpecDriven.

Section spec.
Context (E : env) (input : WorkflowInput).

(** ** Fuel *)

Lemma onPollInput_uses errs i w w1 n w2 :
  taken w i w1 -> onPollInput E input errs i w1 = (w2, Done n) ->
  phase w2 = "Failed" \/ pending w2 < pending w.
Proof.
  intros Ht Ho. destruct i as [|s|d| |]; simpl in Ht; [|..|]; try done.
  - right. assert (frugal (onPollInput E input errs InCancel)) as H by wf.
    specialize (H w1). rewrite Ho in H. simpl in H. lia.
  - right. assert (frugal (onPollInput E input errs (InHuman s))) as H by wf.
    specialize (H w1). rewrite Ho in H. simpl in H. lia.
  - left. assert (hoare any (onPollInput E input errs InTTL) (fun _ w => phase w = "Failed") any) as H.
    { unfold onPollInput. eapply hoare_bind; [apply settle_phase|]. intros ?.
      eapply hoare_bind; [apply (hoare_phase "Failed"); wf|]. intros ?. by apply hoare_ret. }
    specialize (H w1 ltac:(done)). by rewrite Ho in H.
  - right. destruct Ht as [Ht Hp]. unfold onPollInput in Ho.
    pose proof (poll_uses E pollOpts (GetAgentStatus
      {| gs_PodName := v_podName (w_vars w1); gs_Namespace := wi_Namespace input;
         gs_PodIP := v_podIP (w_vars w1) |}) (onAgentStatus errs) statusPollInterval w1) as H.
    destruct H as [H|H]; [wf..|done| |].
    + unfold getVars, gets, mbind, W_bind in *. rewrite Ho in H. simpl in H. lia.
    + destruct (H n). unfold getVars, gets, mbind, W_bind in *. by rewrite Ho.
Qed.

Lemma onPollInput_no_fuel errs i : no_fuel (onPollInput E input errs i).
Proof. wf. Qed.

Lemma pollAgentLoop_no_fuel fuel errs w :
  pending w < fuel -> (pollAgentLoop E input fuel errs w).2 <> OutOfFuel.
Proof.
  revert errs w. induction fuel as [|fuel IH]; intros errs w Hf; [lia|]. cbn [pollAgentLoop].
  unfold mbind, W_bind. pose proof (no_fuel_select poll_kinds w) as Hs.
  pose proof (select_taken w) as Ht. unfold poll_kinds in Hs, Ht.
  destruct (select _ w) as [w1 [i| |]]; [|done..]. specialize (Ht i w1 eq_refl).
  pose proof (onPollInput_no_fuel errs i w1) as Hi.
  destruct (onPollInput E input errs i w1) as [w2 [n| |]] eqn:Eo; [|done..].
  pose proof (onPollInput_uses errs i w w1 n w2 Ht Eo) as Hu.
  unfold getPhase, gets. fold (phase w2).
  destruct (String.eqb (phase w2) "AgentCompleted"); [done|].
  destruct (String.eqb (phase w2) "Failed" || String.eqb (phase w2) "Cancelled") eqn:Et; [done|].
  apply IH. destruct Hu as [Hu|Hu]; [by rewrite Hu in Et|lia].
Qed.

Lemma pollAgentStatus_no_fuel : no_fuel (pollAgentStatus E input).
Proof.
  unfold pollAgentStatus. do 2 (apply no_fuel_bind; [wf|]; intros ?).
  intros w. unfold gets, mbind, W_bind. apply pollAgentLoop_no_fuel. lia.
Qed.

Lemma runAttempts_no_fuel n root name attempt rt :
  no_fuel (runAttempts E input n root name attempt rt).
Proof.
  pose proof pollAgentStatus_no_fuel. revert attempt rt.
  induction n as [|n IH]; intros attempt rt; cbn [runAttempts]; [wf|].
  apply no_fuel_bind; [wf|]. intros [e|rt']; [wf|apply IH].
Qed.

#[local] Hint Resolve runAttempts_no_fuel : unc.

Lemma runSpecDrivenPipeline_no_fuel : no_fuel (runSpecDrivenPipeline E input).
Proof. wf. Qed.

(** ** What the pipeline does not touch *)

Lemma pollAgentLoop_idle fuel errs :
  emits idle (pollAgentLoop E input fuel errs) /\ keeps resources (pollAgentLoop E input fuel errs).
Proof.
  revert errs. induction fuel as [|fuel IH]; intros errs; [split; wf|]. cbn [pollAgentLoop].
  split; (apply emits_bind || apply keeps_bind; [wf|]; intros ?;
          apply emits_bind || apply keeps_bind; [wf|]; intros ?;
          apply emits_bind || apply keeps_bind; [wf|]; intros ?;
          destruct (String.eqb _ _); [wf|]; destruct (_ || _); [wf|]; apply IH).
Qed.

#[local] Hint Extern 1 (emits idle (pollAgentLoop _ _ _ _)) => apply pollAgentLoop_idle : unc.
#[local] Hint Extern 1 (keeps resources (pollAgentLoop _ _ _ _)) => apply pollAgentLoop_idle : unc.

Lemma runAttempts_idle n root name attempt rt :
  emits idle (runAttempts E input n root name attempt rt) /\
  keeps resources (runAttempts E input n root name attempt rt).
Proof.
  revert attempt rt. induction n as [|n IH]; intros attempt rt; cbn [runAttempts]; [split; wf|].
  split; (apply emits_bind || apply keeps_bind; [wf|]; intros [e|rt']; [wf|apply IH]).
Qed.

#[local] Hint Extern 1 (emits idle (runAttempts _ _ _ _ _ _ _)) => apply runAttempts_idle : unc.
#[local] Hint Extern 1 (keeps resources (runAttempts _ _ _ _ _ _ _)) => apply runAttempts_idle : unc.

Lemma specCheckPod_idle : emits idle (specCheckPod E input) /\ keeps resources (specCheckPod E input).
Proof. split; wf. Qed.

Lemma specProvision_holds t0 :
  hoare (history t0) (specProvision E input) (fun _ => holds t0) any.
Proof.
  unfold specProvision, settle.
  eapply hoare_bind; [eapply hoare_bind; [|intros ?]; apply hoare_state|]. intros ?.
  apply must_provision. unfold specDeployment.
  eapply hoare_bind; [by apply hoare_key_step|]. intros ?.
  eapply hoare_bind; [by apply hoare_key_step|]. intros v. apply must_deploy.
  apply hoare_idle; apply specCheckPod_idle.
Qed.

Lemma specCleanup_releases w :
  exists t, w_trace (specCleanup E input w).1 = w_trace w ++ t /\ released (resources w) t.
Proof.
  eapply releases_intro; [reflexivity|..]; intros v; cbv beta.
  - wf.
  - intros Hk. apply performs_first; [by apply revokeKey_performs|intros; wf].
  - intros Hd. destruct (String.eqb (v_deploymentName v) "") eqn:Ed; [by apply String.eqb_eq in Ed|].
    apply performs_both_then; [wf..|]. intros ?. apply retire_performs.
Qed.

Lemma specCleanup_state : keeps w_state (specCleanup E input).
Proof. wf. Qed.
(** ** How the pipeline ends *)

Lemma checkCancel_phase P :
  hoare P (checkCancel) (fun c w => c = true -> phase w = "Cancelled") any.
Proof.
  unfold checkCancel. eapply hoare_bind; [apply hoare_any|]. intros [].
  - eapply hoare_bind; [apply settle_phase|]. intros ?. by apply hoare_ret.
  - eapply hoare_bind; [apply hoare_any|]. intros ?. by apply hoare_ret.
Qed.

Lemma pollAgentStatus_nil P : hoare P (pollAgentStatus E input) (fun e _ => e = None) any.
Proof.
  unfold pollAgentStatus. do 2 skip1. eapply hoare_bind; [apply hoare_any|]. intros n.
  generalize 0 as errs. generalize (S n) as fuel.
  induction fuel as [|fuel IH]; intros errs; [done|]. cbn [pollAgentLoop]. skip_any.
  destruct (String.eqb _ _); [by skip_any; apply hoare_ret|].
  destruct (_ || _); [by apply hoare_ret|]. eapply hoare_pre; [|apply IH]. done.
Qed.

Definition attempt_settled (r : attempt_result) (w : World) : Prop :=
  match r with Return e => settled e w | Retry _ => True end.

Lemma gate_failed P ip path key :
  hoare P (runApprovalGate E input ip path key)
    (fun e w => match e with Some _ => phase w = "Failed" | None => True end) any.
Proof.
  intros w _. pose proof (runApprovalGate_spec E input ip path key (w_trace w) (phase w) any
    ltac:(done) w (conj eq_refl eq_refl)) as H.
  destruct (runApprovalGate E input ip path key w).2 as [[e|]| |]; [|done..].
  by destruct H as (t & _ & _ & H).
Qed.

Lemma onVerified_settled root vspan name attempt r :
  hoare any (onVerified E input root vspan name attempt r) settled any.
Proof.
  unfold onVerified. do 5 skip1.
  eapply hoare_bind; [apply gate_failed|]. intros [e|].
  - apply hoare_ret. intros w Hw. split; by rewrite Hw.
  - skip1. eapply hoare_bind; [apply settle_phase|]. intros ?.
    apply hoare_ret. intros w Hw. by split; [rewrite Hw|].
Qed.

Lemma verifyAttempt_settled root name attempt rt :
  hoare any (verifyAttempt E input root name attempt rt) attempt_settled any.
Proof.
  unfold verifyAttempt. do 3 skip1. eapply hoare_bind; [apply hoare_any|]. intros [out|e]; cbv beta.
  - destruct (vr_Pass (vr_Result out)).
    + eapply hoare_bind; [apply onVerified_settled|]. intros e. by apply hoare_ret.
    + skip_any. by apply hoare_ret.
  - skip1. destruct (e_canceled e); [|by apply hoare_ret]. by intros w _.
Qed.

Lemma runAttempt_settled root name attempt rt :
  hoare any (runAttempt E input root name attempt rt) attempt_settled any.
Proof.
  unfold runAttempt. eapply hoare_bind; [apply checkCancel_phase|]. intros c.
  eapply hoare_bind; [apply hoare_gets with (Q := fun p w => (c = true -> phase w = "Cancelled") /\
    phase w = p); by intros|]. intros p.
  destruct (c || String.eqb p "Cancelled") eqn:Ec.
  { apply hoare_ret. intros w [Hc Hp]. assert (phase w = "Cancelled") as H.
    { apply orb_true_iff in Ec as [Ec|Ec]; [auto|]. apply String.eqb_eq in Ec. congruence. }
    split; by rewrite H. }
  do 3 skip1. eapply hoare_bind; [apply hoare_any|]. intros [u|e]; cbv beta.
  - eapply hoare_bind; [apply pollAgentStatus_nil|]. intros [e|]; [by apply hoare_ret|].
    eapply hoare_bind; [apply hoare_gets with (Q := fun p w => phase w = p); by intros|].
    intros p'. eapply hoare_bind; [apply (hoare_phase p'); wf|]. intros ?.
    destruct (String.eqb p' "Cancelled") eqn:Ep.
    + apply String.eqb_eq in Ep as ->. apply hoare_ret. intros w Hw. split; by rewrite Hw.
    + eapply hoare_pre; [|apply verifyAttempt_settled]. done.
  - skip1.
    destruct (e_canceled e); (eapply hoare_bind; [apply settle_phase|]; intros ?;
      apply hoare_ret; intros w Hw; split; by rewrite Hw).
Qed.

Lemma runAttempts_settled n root name attempt rt :
  hoare any (runAttempts E input n root name attempt rt) settled any.
Proof.
  revert attempt rt. induction n as [|n IH]; intros attempt rt; cbn [runAttempts].
  - unfold exhausted. skip1.
    eapply hoare_bind; [apply settle_phase|]. intros ?. apply hoare_ret. intros w Hw.
    split; by rewrite Hw.
  - eapply hoare_bind; [apply runAttempt_settled|]. intros [e|rt'].
    + by apply hoare_ret.
    + eapply hoare_pre; [|apply IH]. done.
Qed.

Lemma onPlanned_settled root pspan out : hoare any (onPlanned E input root pspan out) settled any.
Proof.
  unfold onPlanned. destruct (negb (pl_SpecsValid out)).
  - cbv zeta. skip1.
    eapply hoare_bind; [apply settle_phase|]. intros ?. apply hoare_ret. intros w Hw.
    split; by rewrite Hw.
  - skip_any. apply runAttempts_settled.
Qed.

Lemma plan_settled root : hoare any (plan E input root) settled any.
Proof.
  unfold plan. eapply hoare_bind; [apply checkCancel_phase|]. intros [].
  { apply hoare_ret. intros w Hw. split; by rewrite Hw. }
  do 3 skip1.
  destruct (HasPrefix _ _).
  { skip_any. apply onPlanned_settled. }
  eapply hoare_bind; [apply hoare_any|]. intros [out|e]; [apply onPlanned_settled|].
  skip1.
  destruct (e_canceled e); (eapply hoare_bind; [apply settle_phase|]; intros ?;
    apply hoare_ret; intros w Hw; split; by rewrite Hw).
Qed.

Lemma specProvision_settled : hoare any (specProvision E input) settled any.
Proof.
  unfold specProvision. skip_any. apply must_settled. intros out.
  unfold specDeployment. skip_any. apply must_settled. intros dep.
  unfold specCheckPod. skip_any. cbv zeta.
  destruct (match _ with Success _ => _ | Failure _ => _ end); [by intros w _|].
  unfold specHydration. skip_any. apply must_settled. intros hyd.
  skip_any. unfold rootSpan. skip_any. apply plan_settled.
Qed.

(** ** The agent is started once per attempt *)

Definition starts_agent (e : event) : bool :=
  match e with EvActivity _ (StartAgent _) _ => true | _ => false end.

Lemma counts_quiet {A B} n (m : W A) (k : A -> W B) :
  emits (fun e => starts_agent e = false) m -> (forall a, counts starts_agent n (k a)) ->
  counts starts_agent n (m ≫= k).
Proof. intros Hm Hk. apply (counts_bind 0 n); [by apply counts_emits|done]. Qed.

Lemma pollAgentLoop_starts fuel errs :
  emits (fun e => starts_agent e = false) (pollAgentLoop E input fuel errs).
Proof.
  revert errs. induction fuel as [|fuel IH]; intros errs; cbn [pollAgentLoop]; [wf|].
  do 3 (apply emits_bind; [wf|]; intros ?). destruct (String.eqb _ _); [wf|].
  destruct (_ || _); [wf|apply IH].
Qed.

#[local] Hint Resolve pollAgentLoop_starts : unc.

Lemma runAttempt_starts root name attempt rt :
  counts starts_agent 1 (runAttempt E input root name attempt rt).
Proof.
  unfold runAttempt. do 2 (apply counts_quiet; [wf|]; intros ?).
  destruct (_ || _); [apply counts_emits; wf|].
  do 3 (apply counts_quiet; [wf|]; intros ?).
  apply (counts_bind 1 0); [apply counts_execute|]. intros r. apply counts_emits. wf.
Qed.

Lemma runAttempts_starts n root name attempt rt :
  counts starts_agent n (runAttempts E input n root name attempt rt).
Proof.
  revert attempt rt. induction n as [|n IH]; intros attempt rt; cbn [runAttempts].
  - apply counts_emits. wf.
  - apply (counts_bind 1 n); [apply runAttempt_starts|]. intros [e|rt'].
    + apply counts_emits. wf.
    + apply IH.
Qed.
End spec.

(** ** What is pushed was verified, what succeeds was accepted since *)

(** A verification that passed. *)
Definition verified (e : event) : bool :=
  match e with EvActivity _ (VerifyRun _) (Success out) => vr_Pass (vr_Result out) | _ => false end.

Definition verified_before (t : list event) : Prop := existsb verified t = true.

(** The verification passed, and the gate was passed since. *)
Definition verified_and_accepted (input : WorkflowInput) (t : list event) : Prop :=
  exists ta v tb, t = ta ++ v :: tb /\ verified v = true /\ gate_passed input tb.

#[export] Instance verified_before_lasting : Lasting verified_before.
Proof. intros t t' H. unfold verified_before. by rewrite existsb_app, H. Qed.

#[export] Instance verified_and_accepted_lasting input : Lasting (verified_and_accepted input).
Proof.
  intros t t' (ta & v & tb & -> & Hv & Hg). exists ta, v, (tb ++ t').
  rewrite <- app_assoc, <- app_comm_cons. split; [done|]. split; [done|]. by apply gate_passed_app.
Qed.

Section cleared.
Context (E : env) (input : WorkflowInput) (t0 : list event).
Notation so_far := (so_far t0).
Notation pushing := (pushing t0 verified_before).
Notation cleared := (cleared t0 verified_before (verified_and_accepted input)).
Notation in_phase := (in_phase t0).

Lemma pollAgentLoop_quiet fuel errs :
  emits (fun e => is_push e = false) (pollAgentLoop E input fuel errs).
Proof.
  revert errs. induction fuel as [|fuel IH]; intros errs; cbn [pollAgentLoop]; [wf|].
  do 3 (apply emits_bind; [wf|]; intros ?). destruct (String.eqb _ _); [wf|].
  destruct (_ || _); [wf|apply IH].
Qed.

#[local] Hint Resolve pollAgentLoop_quiet : unc.

(** The gate, after any history that starts with [t]. *)
Lemma gate_grown ip path key t :
  hoare (grown t) (runApprovalGate E input ip path key)
    (fun e w => match e with
       | Some _ => phase w = "Failed"
       | None => exists t', history (t ++ t') w /\ gate_passed input t'
       end) any.
Proof.
  intros w [t1 Ht1].
  pose proof (runApprovalGate_spec E input ip path key (t ++ t1) (phase w) any
    ltac:(done) w (conj Ht1 eq_refl)) as H.
  destruct (runApprovalGate E input ip path key w).2 as [[e|]| |]; [..|done|done].
  - by destruct H as (t' & _ & _ & H).
  - destruct H as (t' & Ht' & Hg & _). exists (t1 ++ t'). rewrite app_assoc.
    split; [done|]. by apply gate_passed_app_r.
Qed.

(** A verified attempt: success means that the gate was passed after it. *)
Lemma onVerified_gate root vspan name attempt r t :
  hoare (history t) (onVerified E input root vspan name attempt r)
    (fun _ w => phase w = "Succeeded" -> exists t', history (t ++ t') w /\ gate_passed input t') any.
Proof.
  unfold onVerified.
  apply hoare_pre with (grown t).
  { intros w Hw. exists []. by rewrite app_nil_r. }
  do 5 (eapply hoare_bind; [apply hoare_grows; wf|]; intros ?).
  eapply hoare_bind; [apply gate_grown|].
  intros [e|].
  - apply hoare_ret. intros w Hw Hs. by rewrite Hw in Hs.
  - intros w Hw _. exact Hw.
Qed.

Lemma onVerified_cleared root vspan name attempt r t :
  no_push t -> verified_before t ->
  (forall t', gate_passed input t' -> verified_and_accepted input (t ++ t')) ->
  hoare (history (t0 ++ t)) (onVerified E input root vspan name attempt r)
    (fun _ => cleared) pushing.
Proof.
  intros Hn Hv Ha.
  eapply hoare_conseq; [apply (hoare_unguarded t0 verified_before _ t); [done|done|wf|];
    apply onVerified_gate|done| |done].
  intros ? w [Hs (t' & Ht' & Hg)]. exists t'. split_and!; [done|done|]. intros Hp.
  destruct (Hs Hp) as (t2 & Ht2 & Hgp). unfold history in *. rewrite Ht' in Ht2.
  rewrite <- app_assoc in Ht2. apply app_inv_head in Ht2 as ->. by apply Ha.
Qed.

Definition attempt_cleared (r : attempt_result) (w : World) : Prop :=
  match r with Return _ => cleared w | Retry _ => so_far w end.

Lemma verifyAttempt_cleared root name attempt rt :
  hoare so_far (verifyAttempt E input root name attempt rt) attempt_cleared pushing.
Proof.
  unfold verifyAttempt. do 3 (apply quiet_then; [wf|]; intros ?).
  set (ver := VerifyRun _). eapply hoare_bind.
  { instantiate (1 := fun r w => exists t, history (t0 ++ t ++ [EvActivity (verifyOpts input) ver r]) w
      /\ no_push t).
    intros w (t & Ht & Hn). exists t. unfold history in *. simpl.
    by rewrite (arrive_obs w_trace), Ht, app_assoc. }
  intros [out|e]; cbv beta.
  - destruct (vr_Pass (vr_Result out)) eqn:Ep.
    + apply hoare_bind with (fun _ => cleared); [|intros ?; by apply hoare_ret]. intros w (t & Ht & Hn).
      refine (onVerified_cleared _ _ _ _ _ _ _ _ _ w Ht).
      * apply Forall_app. split; [done|by repeat constructor].
      * unfold verified_before. rewrite existsb_app. simpl. rewrite Ep. apply orb_true_r.
      * intros t' Hg. exists t, (EvActivity (verifyOpts input) ver (Success out)), t'.
        by rewrite <- app_assoc.
    + apply hoare_pre with so_far.
      { intros w (t & Ht & Hn). eexists. split; [exact Ht|]. apply Forall_app.
        split; [done|by repeat constructor]. }
      apply quiet_then; [wf|]. intros ?. by apply hoare_ret.
  - apply hoare_pre with so_far.
    { intros w (t & Ht & Hn). eexists. split; [exact Ht|]. apply Forall_app.
      split; [done|by repeat constructor]. }
    apply quiet_then; [wf|]. intros ?. destruct (e_canceled e); [|by apply hoare_ret].
    by apply settle_cleared.
Qed.

Lemma checkCancel_cleared :
  hoare so_far checkCancel (fun c w => so_far w /\ (c = true -> phase w = "Cancelled")) pushing.
Proof.
  intros w Hw. pose proof (hoare_quiet t0 verified_before checkCancel ltac:(wf) w Hw) as Hq.
  pose proof (checkCancel_phase any w I) as Hc. by destruct (checkCancel w).2.
Qed.

Lemma pollAgentStatus_cleared :
  hoare so_far (pollAgentStatus E input) (fun e w => so_far w /\ e = None) pushing.
Proof.
  eapply hoare_conseq; [apply (hoare_and so_far any); [apply hoare_quiet; wf|
    apply pollAgentStatus_nil]|done|by intros ? w []|by intros w []].
Qed.

Lemma runAttempt_cleared root name attempt rt :
  hoare so_far (runAttempt E input root name attempt rt) attempt_cleared pushing.
Proof.
  unfold runAttempt. eapply hoare_bind; [apply checkCancel_cleared|]. intros c.
  eapply hoare_bind; [apply hoare_gets with (Q := fun p w =>
    (so_far w /\ (c = true -> phase w = "Cancelled")) /\ phase w = p); by intros|]. intros p.
  destruct (c || String.eqb p "Cancelled") eqn:Ec.
  { apply hoare_ret. intros w [[Hs Hc] Hp]. apply so_far_cleared; [done|].
    assert (phase w = "Cancelled") as ->; [|done].
    apply orb_true_iff in Ec as [Ec|Ec]; [auto|]. apply String.eqb_eq in Ec. congruence. }
  apply hoare_pre with so_far; [by intros w [[]]|].
  do 3 (apply quiet_then; [wf|]; intros ?). apply quiet_then; [wf|]. intros [u|e].
  - eapply hoare_bind.
    { apply pollAgentStatus_cleared. }
    intros [e|]; [by intros w []|].
    eapply hoare_bind; [apply hoare_gets with (Q := fun p w => in_phase p w);
      intros w [Hw _]; by split|]. intros p'.
    eapply hoare_bind; [apply hoare_in_phase; wf|]. intros ?.
    destruct (String.eqb p' "Cancelled") eqn:Ep.
    + apply String.eqb_eq in Ep as ->. apply hoare_ret. intros w [Hs Hp].
      apply so_far_cleared; [done|by rewrite Hp].
    + apply hoare_pre with so_far; [by intros w []|apply verifyAttempt_cleared].
  - apply quiet_then; [wf|]. intros ?. by destruct (e_canceled e); apply settle_cleared.
Qed.

Lemma runAttempts_cleared n root name attempt rt :
  hoare so_far (runAttempts E input n root name attempt rt) (fun _ => cleared) pushing.
Proof.
  revert attempt rt. induction n as [|n IH]; intros attempt rt; cbn [runAttempts].
  - unfold exhausted. apply quiet_then; [wf|]. intros ?. by apply settle_cleared.
  - eapply hoare_bind; [apply runAttempt_cleared|]. intros [e|rt']; [by apply hoare_ret|apply IH].
Qed.

Lemma onPlanned_cleared root pspan out :
  hoare so_far (onPlanned E input root pspan out) (fun _ => cleared) pushing.
Proof.
  unfold onPlanned. destruct (negb _); (apply quiet_then; [wf|]; intros ?).
  - by apply settle_cleared.
  - apply runAttempts_cleared.
Qed.

Lemma plan_cleared root : hoare so_far (plan E input root) (fun _ => cleared) pushing.
Proof.
  unfold plan. eapply hoare_bind; [apply checkCancel_cleared|]. intros [].
  { apply hoare_ret. intros w [Hs Hp]. apply so_far_cleared; [done|by rewrite Hp]. }
  apply hoare_pre with so_far; [by intros w []|].
  do 3 (apply quiet_then; [wf|]; intros ?). destruct (HasPrefix _ _).
  { apply quiet_then; [wf|]. intros ?. apply onPlanned_cleared. }
  apply quiet_then; [wf|]. intros [out|e]; [apply onPlanned_cleared|].
  apply quiet_then; [wf|]. intros ?. by destruct (e_canceled e); apply settle_cleared.
Qed.

Lemma specProvision_cleared :
  hoare so_far (specProvision E input) (fun _ => cleared) pushing.
Proof.
  unfold specProvision. apply quiet_then; [wf|]. intros ?. apply must_cleared; [done|]. intros out.
  apply quiet_then; [wf|]. intros ?. unfold specDeployment.
  do 2 (apply quiet_then; [wf|]; intros ?). apply must_cleared; [done|]. intros dep.
  do 2 (apply quiet_then; [wf|]; intros ?). unfold specCheckPod.
  do 3 (apply quiet_then; [wf|]; intros ?). cbv zeta.
  destruct (match _ with Success _ => _ | Failure _ => _ end); [by apply settle_cleared|].
  unfold specHydration. do 2 (apply quiet_then; [wf|]; intros ?).
  apply must_cleared; [done|]. intros hyd. apply quiet_then; [wf|]. intros ?.
  unfold rootSpan. do 2 (apply quiet_then; [wf|]; intros ?). apply plan_cleared.
Qed.

Lemma pipeline_cleared :
  hoare (history t0) (runSpecDrivenPipeline E input) (fun _ => cleared) pushing.
Proof.
  unfold runSpecDrivenPipeline. eapply hoare_bind.
  { instantiate (1 := fun _ => in_phase "Running"). intros w Hw. split; [|done].
    exists []. split; [by rewrite app_nil_r|by constructor]. }
  intros ?. eapply hoare_bind; [apply hoare_in_phase; wf|]. intros [e|].
  { apply hoare_ret. intros w [Hs Hp]. apply so_far_cleared; [done|by rewrite Hp]. }
  eapply hoare_bind; [apply hoare_in_phase; wf|]. intros ?.
  apply cleanup_cleared; [apply _|wf|wf|].
  apply hoare_pre with so_far; [by intros w []|apply specProvision_cleared].
Qed.
End cleared.
