(* ===== verification/Orchestration.v ===== *)
(** * Orchestration and dispatch: [internal/temporal/workflow.go].

    The juniors of a manual orchestration, the automatic mode, and
    [AgentRunWorkflow], which chooses between the single-agent run, the two
    orchestrations and the spec-driven pipeline. *)

From S2P Require Import Prelude GoStrings TemporalTypes Workflow WorkflowLogic ApprovalGate SingleAgent SpecDriven.

(** [internal/temporal/workflow.go:214-214] AgentRunWorkflow: the prompt of a spec run *)
Definition specPrompt : string :=
  "Run `codespeak build` in the workspace directory. The spec file has been placed at " +:+
  "spec/main.cs.md with a codespeak.json config. Execute the build and verify the output " +:+
  "compiles/passes tests.".

(** [internal/temporal/workflow.go:212-223] AgentRunWorkflow: the preamble *)
Definition preamble (input : WorkflowInput) : WorkflowInput :=
  let input := if negb (String.eqb (wi_SpecContent input) "") && String.eqb (wi_Prompt input) ""
               then with_prompt input specPrompt else input in
  if negb (String.eqb (wi_SpecContent input) "")
     && negb (String.eqb (wi_OrchestrationMode input) OrchestrationModeSingle)
  then if String.eqb (wi_OrchestrationMode input) ""
          || String.eqb (wi_OrchestrationMode input) OrchestrationModeSingle
       then with_mode input OrchestrationModeSpecDriven else input
  else input.

(** The input of a child run: the fields that are not set are zero. *)
Definition childInput (name namespace : string) (repos : list Repository) (prompt devbox : string)
    (ttl : Z) (image : string) (envVars : list (string * string)) (tier : string) (budget : Z)
    (baseURL parent specRunID secret approval : string) : WorkflowInput :=
  {| wi_AgentRunName := name; wi_Namespace := namespace; wi_Repos := repos;
     wi_Prompt := prompt; wi_DevboxConfig := devbox; wi_TTLSeconds := ttl; wi_Image := image;
     wi_EnvVars := envVars; wi_ModelTier := tier; wi_ManageModelTier := "";
     wi_ImplementModelTier := ""; wi_MaxBudget := budget; wi_LiteLLMBaseURL := baseURL;
     wi_SpecContent := ""; wi_WorkspaceName := "";
     wi_OrchestrationMode := OrchestrationModeSingle; wi_Orchestration := [];
     wi_ParentRunID := parent; wi_SpecRunID := specRunID; wi_PipelineConfig := None;
     wi_AutoPush := false; wi_AutoPR := false; wi_GitHubTokenSecretName := secret;
     wi_PRBaseBranch := ""; wi_Project := ""; wi_Feature := ""; wi_Tags := [];
     wi_Backend := ""; wi_SpecSource := ""; wi_ApprovalMode := approval |}.

Section orchestration.
Context (E : env).

(** [internal/temporal/workflow.go:949-953] runManualOrchestration: juniorName *)
Definition juniorName (parent task : string) : W string :=
  ms ← unixMilli E;
  mret (parent +:+ "-junior-" +:+ (if String.eqb task "" then Itoa (Z.rem ms 100000) else task)).

(** [internal/temporal/workflow.go:871-893] SpawnJuniorWorkflow: childInput *)
Definition spawnInput (input : SpawnJuniorInput) (name : string) : WorkflowInput :=
  childInput name (sj_Namespace input) (sj_Repos input) (sj_Task input) (sj_DevboxConfig input)
    (sj_TTLSeconds input) (sj_Image input) (sj_EnvVars input) (sj_ModelTier input)
    (sj_MaxBudget input) (sj_LiteLLMBaseURL input) (sj_ParentRunName input)
    (sj_SpecRunID input) (sj_GitHubTokenSecretName input)
    (JuniorApprovalMode (sj_ApprovalMode input)).

(** [internal/temporal/workflow.go:858-909] SpawnJuniorWorkflow *)
Definition SpawnJuniorWorkflow (input : SpawnJuniorInput) : W goerr :=
  name ← juniorName (sj_ParentRunName input) (sj_TaskName input);
  startChild name (spawnInput input name);;
  if sj_Blocking input then
    err ← waitChild E name;
    mret (match err with Some e => wrap "spawn junior workflow" e | None => None end)
  else
    err ← waitChildStarted E name;
    mret (match err with
          | Some e => wrap "waiting for the child workflow to start" e
          | None => None
          end).

Section manual.
Context (input : WorkflowInput).

(** [internal/temporal/workflow.go:941-947] runManualOrchestration: repos *)
Definition taskRepos (task : OrchestrationTask) : list Repository :=
  match t_RepoURLs task with
  | [] => wi_Repos input
  | urls => (fun u => {| r_URL := u; r_Branch := ""; r_Path := "" |}) <$> urls
  end.

(** [internal/temporal/workflow.go:933-936] runManualOrchestration: specRunID *)
Definition specRunID : string :=
  if String.eqb (wi_SpecRunID input) "" then wi_AgentRunName input else wi_SpecRunID input.

(** [internal/temporal/workflow.go:961-977] runManualOrchestration: childInput *)
Definition taskInput (task : OrchestrationTask) (name : string) : WorkflowInput :=
  childInput name (wi_Namespace input) (taskRepos task) (t_Prompt task) (wi_DevboxConfig input)
    (wi_TTLSeconds input) (wi_Image input) (wi_EnvVars input) (wi_ModelTier input)
    (wi_MaxBudget input) (wi_LiteLLMBaseURL input) (wi_AgentRunName input) specRunID
    (wi_GitHubTokenSecretName input) "".

(** [internal/temporal/workflow.go:938-981] runManualOrchestration: start the juniors *)
Fixpoint startJuniors (tasks : list OrchestrationTask) : W (list string) :=
  match tasks with
  | [] => mret []
  | task :: rest =>
      name ← juniorName (wi_AgentRunName input) (t_Name task);
      startChild name (taskInput task name);;
      names ← startJuniors rest;
      mret (name :: names)
  end.

(** [internal/temporal/workflow.go:983-994] runManualOrchestration: wait for the juniors *)
Fixpoint waitJuniors (i : nat) (tasks : list OrchestrationTask) (names : list string)
  : W (list string) :=
  match tasks, names with
  | task :: tasks, name :: names =>
      err ← waitChild E name;
      failed ← waitJuniors (S i) tasks names;
      mret (match err with
            | Some _ => (if String.eqb (t_Name task) "" then "task-" +:+ Itoa (Z.of_nat i)
                         else t_Name task) :: failed
            | None => failed
            end)
  | _, _ => mret []
  end.

(** [internal/temporal/workflow.go:915-1006] runManualOrchestration *)
Definition runManualOrchestration : W goerr :=
  newState "Running" "Manual orchestration: spawning junior tasks";;
  err ← setQueryHandler E;
  match err with
  | Some e => mret (wrap "set query handler" e)
  | None =>
      let tasks := take maxOrchestrationTasks (wi_Orchestration input) in
      names ← startJuniors tasks;
      failed ← waitJuniors 0 tasks names;
      match failed with
      | [] =>
          settle "Succeeded" ("Manual orchestration: all " +:+ Itoa (Z.of_nat (length tasks)) +:+
                              " tasks completed");;
          mret None
      | _ =>
          settle "Failed" ("Manual orchestration: " +:+ Itoa (Z.of_nat (length failed)) +:+ "/" +:+
                           Itoa (Z.of_nat (length tasks)) +:+ " tasks failed: " +:+
                           Join failed ", ");;
          mret (errorf errFailed ("orchestration failed: " +:+ Join failed ", "))
      end
  end.
End manual.

(** [internal/temporal/workflow.go:1010-1036] runAutoOrchestration: with the function it delegates to *)
Definition runAutoOrchestration (self : WorkflowInput -> W goerr) (input : WorkflowInput) : W goerr :=
  newState "Running" "Auto orchestration: decomposing spec";;
  err ← setQueryHandler E;
  match err with
  | Some e => mret (wrap "set query handler" e)
  | None =>
      settle "Running" "Auto orchestration: executing as single run (decomposition pending)";;
      self (with_mode input OrchestrationModeSingle)
  end.

(** The body of [AgentRunWorkflow], with the function the automatic mode calls. *)
Definition dispatch (self : WorkflowInput -> W goerr) (input : WorkflowInput) : W goerr :=
  let input := preamble input in
  if String.eqb (wi_OrchestrationMode input) OrchestrationModeManual then
    runManualOrchestration input
  else if String.eqb (wi_OrchestrationMode input) OrchestrationModeAuto then
    runAutoOrchestration self input
  else if String.eqb (wi_OrchestrationMode input) OrchestrationModeSpecDriven then
    runSpecDrivenPipeline E input
  else singleAgent E input.

(** [internal/temporal/workflow.go:211-824] AgentRunWorkflow: [depth] bounds the calls of
    the automatic mode back into the function; there is at most one *)
Fixpoint AgentRunWorkflow_depth (depth : nat) (input : WorkflowInput) : W goerr :=
  match depth with
  | 0 => out_of_fuel
  | S depth => dispatch (AgentRunWorkflow_depth depth) input
  end.

(** [internal/temporal/workflow.go:211-248] AgentRunWorkflow *)
Definition AgentRunWorkflow : WorkflowInput -> W goerr := AgentRunWorkflow_depth 2.
End orchestration.
