(* ===== verification/Sample.v ===== *)
(** * Sample worlds, environments and inputs, for the examples.

    An environment in which every activity succeeds, with the answers of the status
    poll, the judge and the verification left open, and a world in which inputs arrive
    in given batches. *)

From S2P Require Import Prelude TemporalTypes Workflow.

Definition verdict (pass : bool) : VerificationResult :=
  {| vr_Pass := pass; vr_TasksCompleted := 1; vr_TasksTotal := 1;
     vr_FailureReport := if pass then "" else "tests fail"; vr_ReviewFeedback := "";
     vr_Salvageable := false; vr_SalvageGuidance := "" |}.

Section env.
Context (status : nat -> string) (judge : answer LLMJudgeOutput) (passes : nat -> bool).

Definition sampleAnswer {B} (n : nat) (a : activity B) : answer B :=
  match a in activity B return answer B with
  | ProvisionLLMKey _ => Success {| pk_Key := "key" |}
  | WaitForHydration _ =>
      Success {| wh_PodIP := "10.0.0.1"; wh_OutPodName := "pod"; wh_WorkspacePath := "/workspace" |}
  | GetAgentStatus _ => Success {| gs_State := status n; gs_Error := "" |}
  | CreateAgentDeployment i => Success {| cd_DeploymentName := cd_Name i; cd_PVCName := "" |}
  | CheckPodStatus _ => Success {| cp_Phase := "Running"; cp_Reason := ""; cp_Message := "" |}
  | HydrateContext _ => Success {| hc_ContextWritten := true |}
  | PushChanges i =>
      Success {| po_BranchName := pc_BranchName i; po_CommitSHA := "abc"; po_CommitMessage := "";
                 po_DiffStat := ""; po_ProposalContent := ""; po_HasChanges := true |}
  | CreatePR _ => Success {| co_PRUrl := "https://github.com/o/r/pull/1"; co_PRNumber := 1 |}
  | LLMJudgeChanges _ => judge
  | PlanRun _ =>
      Success {| pl_ChangeName := "change"; pl_TaskCount := 1; pl_SpecsValid := true;
                 pl_ValidationErrors := [] |}
  | VerifyRun _ => Success {| vr_Result := verdict (passes n) |}
  | _ => Success ()
  end.

Definition sampleEnv : env :=
  {| env_act := @sampleAnswer; env_uuid := fun n => "uuid"; env_now := fun _ => "now";
     env_millis := fun _ => 1234567%Z; env_set_query := None;
     env_child := fun _ _ => None; env_child_started := fun _ _ => None |}.
End env.

Definition agentDone (n : nat) : string := "AGENT_PROCESS_STATE_COMPLETED".
Definition approves : answer LLMJudgeOutput :=
  Success {| lj_Approved := true; lj_Reason := "fine"; lj_GitDiff := "" |}.
Definition unreachable : answer LLMJudgeOutput :=
  Failure {| e_canceled := false; e_msg := "timeout" |}.
Definition happyEnv : env := sampleEnv agentDone approves (fun _ => true).

(** A world at the start of a run, with the inputs to come. *)
Definition startWorld (future : list (list input)) : World :=
  {| w_state := {| ws_Phase := ""; ws_Message := ""; ws_PodName := ""; ws_DeploymentName := "";
                   ws_PRUrl := ""; ws_VerificationResult := "" |};
     w_vars := noVars; w_cancel := 0; w_human := []; w_approval := []; w_ttl := false;
     w_tick := false; w_future := future; w_trace := [] |}.

(** A run of [mode] under [approval], with one repository and automatic pushes. *)
Definition sampleInput (mode approval : string) : WorkflowInput :=
  {| wi_AgentRunName := "run"; wi_Namespace := "ns";
     wi_Repos := [{| r_URL := "https://github.com/o/r"; r_Branch := "main"; r_Path := "" |}];
     wi_Prompt := "fix it"; wi_DevboxConfig := ""; wi_TTLSeconds := 60; wi_Image := "";
     wi_EnvVars := []; wi_ModelTier := ""; wi_ManageModelTier := ""; wi_ImplementModelTier := "";
     wi_MaxBudget := 0; wi_LiteLLMBaseURL := ""; wi_SpecContent := ""; wi_WorkspaceName := "";
     wi_OrchestrationMode := mode; wi_Orchestration := []; wi_ParentRunID := "";
     wi_SpecRunID := ""; wi_PipelineConfig := None; wi_AutoPush := true; wi_AutoPR := false;
     wi_GitHubTokenSecretName := ""; wi_PRBaseBranch := ""; wi_Project := ""; wi_Feature := "";
     wi_Tags := []; wi_Backend := ""; wi_SpecSource := ""; wi_ApprovalMode := approval |}.

(** [n] waits without an input, then [b]. *)
Definition after (n : nat) (b : list input) : list (list input) := replicate n [] ++ [b].
