(* ===== verification/RunTheorems.v ===== *)
(** * The theorems about runs: [AgentRunWorkflow] in every mode.

    The lemmas of [RunProps] and [SpecProps], put together over the dispatch of
    [Orchestration], and the behaviours of the orchestrations themselves. *)

From S2P Require Import Prelude GoStrings TemporalTypes Workflow WorkflowLogic ApprovalGate SingleAgent RunProps SpecDriven SpecProps Orchestration Sample.

(** ** The paths a run can take *)

Section paths.
Context (E : env).

Lemma startJuniors_idle input tasks :
  emits (fun e => idle e /\ is_push e = false) (startJuniors E input tasks).
Proof.
  induction tasks as [|task tasks IH]; cbn [startJuniors]; [wf|].
  do 2 (apply emits_bind; [wf|]; intros ?). apply emits_bind; [done|]. intros ?. wf.
Qed.

Lemma waitJuniors_idle i tasks names :
  emits (fun e => idle e /\ is_push e = false) (waitJuniors E i tasks names).
Proof.
  revert i names. induction tasks as [|task tasks IH]; intros i [|name names]; cbn [waitJuniors];
    [wf..|]. apply emits_bind; [wf|]. intros ?. apply emits_bind; [done|]. intros ?. wf.
Qed.

#[local] Hint Resolve startJuniors_idle waitJuniors_idle : unc.

Lemma manual_idle input :
  emits (fun e => idle e /\ is_push e = false) (runManualOrchestration E input).
Proof. wf. Qed.

Lemma startJuniors_no_fuel input tasks : no_fuel (startJuniors E input tasks).
Proof.
  induction tasks as [|task tasks IH]; cbn [startJuniors]; [wf|].
  do 2 (apply no_fuel_bind; [wf|]; intros ?). apply no_fuel_bind; [done|]. intros ?. wf.
Qed.

Lemma waitJuniors_no_fuel i tasks names : no_fuel (waitJuniors E i tasks names).
Proof.
  revert i names. induction tasks as [|task tasks IH]; intros i [|name names]; cbn [waitJuniors];
    [wf..|]. apply no_fuel_bind; [wf|]. intros ?. apply no_fuel_bind; [done|]. intros ?. wf.
Qed.

#[local] Hint Resolve startJuniors_no_fuel waitJuniors_no_fuel : unc.

Lemma manual_no_fuel input : no_fuel (runManualOrchestration E input).
Proof. wf. Qed.

Lemma manual_settled input :
  env_set_query E = None -> hoare any (runManualOrchestration E input) settled any.
Proof.
  intros Hq. unfold runManualOrchestration, setQueryHandler. skip1. rewrite Hq.
  eapply hoare_bind; [by apply hoare_ret with (Q := fun e _ => e = None)|].
  intros [e|]; [by intros w ?|]. cbv zeta. apply hoare_pre with any; [done|].
  do 2 skip1. destruct a1 as [|f fs].
  - eapply hoare_bind; [apply settle_phase|]. intros ?. apply hoare_ret. intros w Hw.
    split; by rewrite Hw.
  - eapply hoare_bind; [apply settle_phase|]. intros ?. apply hoare_ret. intros w Hw.
    split; by rewrite Hw.
Qed.

Lemma single_settled input :
  env_set_query E = None -> hoare any (singleAgent E input) settled any.
Proof.
  intros Hq. unfold singleAgent, setQueryHandler. skip1. rewrite Hq.
  eapply hoare_bind; [by apply hoare_ret with (Q := fun e _ => e = None)|].
  intros [e|]; [by intros w ?|]. apply hoare_pre with any; [done|]. skip1.
  apply with_defer_settled; [apply cleanup_state|apply provisionKey_settled].
Qed.

Lemma spec_settled input :
  env_set_query E = None -> hoare any (runSpecDrivenPipeline E input) settled any.
Proof.
  intros Hq. unfold runSpecDrivenPipeline, setQueryHandler. skip1. rewrite Hq.
  eapply hoare_bind; [by apply hoare_ret with (Q := fun e _ => e = None)|].
  intros [e|]; [by intros w ?|]. apply hoare_pre with any; [done|]. skip1.
  apply with_defer_settled; [apply specCleanup_state|apply specProvision_settled].
Qed.

(** [preamble] only looks at, and only changes, the mode and the prompt. *)
Lemma preamble_single i :
  wi_OrchestrationMode i = OrchestrationModeSingle ->
  wi_OrchestrationMode (preamble i) = OrchestrationModeSingle.
Proof.
  intros H. unfold preamble.
  destruct (negb (String.eqb (wi_SpecContent i) "") && String.eqb (wi_Prompt i) "");
    cbn [with_prompt wi_OrchestrationMode wi_SpecContent]; rewrite H, andb_false_r; done.
Qed.

Lemma preamble_approval i : wi_ApprovalMode (preamble i) = wi_ApprovalMode i.
Proof. unfold preamble. by repeat case_match. Qed.

Lemma preamble_pipeline i : wi_PipelineConfig (preamble i) = wi_PipelineConfig i.
Proof. unfold preamble. by repeat case_match. Qed.

Lemma dispatch_single self i :
  wi_OrchestrationMode i = OrchestrationModeSingle ->
  dispatch E self i = singleAgent E (preamble i).
Proof. intros H. unfold dispatch. by rewrite (preamble_single i H). Qed.

(** The automatic mode: a new state, then a single-agent run. *)
Definition autoRun (input : WorkflowInput) : W goerr :=
  runAutoOrchestration E (fun i => singleAgent E (preamble i)) input.

(** What the workflow runs, by mode. *)
Lemma AgentRunWorkflow_eq input :
  let i := preamble input in
  AgentRunWorkflow E input =
    if String.eqb (wi_OrchestrationMode i) OrchestrationModeManual then runManualOrchestration E i
    else if String.eqb (wi_OrchestrationMode i) OrchestrationModeAuto then autoRun i
    else if String.eqb (wi_OrchestrationMode i) OrchestrationModeSpecDriven then
      runSpecDrivenPipeline E i
    else singleAgent E i.
Proof.
  cbv zeta. unfold AgentRunWorkflow, AgentRunWorkflow_depth, dispatch at 1. cbv zeta.
  destruct (String.eqb _ OrchestrationModeManual); [done|].
  destruct (String.eqb _ OrchestrationModeAuto); [|done].
  unfold autoRun, runAutoOrchestration. by rewrite dispatch_single.
Qed.

(** ** Every mode *)

Lemma run_no_fuel input : no_fuel (AgentRunWorkflow E input).
Proof.
  rewrite AgentRunWorkflow_eq. cbv zeta.
  destruct (String.eqb _ _); [apply manual_no_fuel|].
  destruct (String.eqb _ _); [unfold autoRun; wf|].
  destruct (String.eqb _ _); [apply runSpecDrivenPipeline_no_fuel|apply singleAgent_no_fuel].
Qed.

Lemma run_settled input :
  env_set_query E = None -> hoare any (AgentRunWorkflow E input) settled any.
Proof.
  intros Hq. rewrite AgentRunWorkflow_eq. cbv zeta.
  destruct (String.eqb _ _); [by apply manual_settled|].
  destruct (String.eqb _ _).
  { unfold autoRun, runAutoOrchestration, setQueryHandler. skip1. rewrite Hq.
    eapply hoare_bind; [by apply hoare_ret with (Q := fun e _ => e = None)|].
    intros [e|]; [by intros w ?|]. skip1. by apply single_settled. }
  destruct (String.eqb _ _); [by apply spec_settled|by apply single_settled].
Qed.

(** The runs that compensate: the history they add does. *)
Definition compensates (m : W goerr) : Prop :=
  forall t0, hoare (history t0) m (fun _ w => exists t, history (t0 ++ t) w /\ compensated t) any.

Lemma idle_compensated t : Forall idle t -> compensated t.
Proof.
  intros Hf i e Hi. rewrite Forall_lookup in Hf. destruct (Hf _ _ Hi) as [Hk Hd].
  by rewrite Hk, Hd.
Qed.

Lemma silent_compensates {A} (m : W A) (k : A -> W goerr) :
  keeps w_trace m -> (forall a, compensates (k a)) -> compensates (m ≫= k).
Proof.
  intros Hm Hk t0. apply hoare_bind with (fun _ => history t0); [|intros a; apply Hk].
  intros w Hw. destruct (m w).2; [|done..]. unfold history in *. by rewrite Hm.
Qed.

Lemma idle_compensates (m : W goerr) : emits idle m -> compensates m.
Proof.
  intros Hm t0 w Hw. destruct (Hm w) as (t & Ht & Hf). destruct (m w).2; [|done..].
  exists t. unfold history in *. rewrite Ht, Hw. split; [done|]. by apply idle_compensated.
Qed.

Lemma single_compensates input : compensates (singleAgent E input).
Proof.
  unfold singleAgent. do 2 (apply silent_compensates; [done|]; intros ?).
  case_match; [by apply idle_compensates, emits_ret|].
  apply silent_compensates; [done|]. intros ? t0. apply cleanup_compensates.
  - apply cleanup_releases.
  - apply provisionKey_holds.
Qed.

Lemma spec_compensates input : compensates (runSpecDrivenPipeline E input).
Proof.
  unfold runSpecDrivenPipeline. do 2 (apply silent_compensates; [done|]; intros ?).
  case_match; [by apply idle_compensates, emits_ret|].
  apply silent_compensates; [done|]. intros ? t0. apply cleanup_compensates.
  - apply specCleanup_releases.
  - apply specProvision_holds.
Qed.

Lemma run_compensates input : compensates (AgentRunWorkflow E input).
Proof.
  rewrite AgentRunWorkflow_eq. cbv zeta. destruct (String.eqb _ _).
  { apply idle_compensates. eapply emits_mono; [|apply manual_idle]. by intros e []. }
  destruct (String.eqb _ _).
  { unfold autoRun, runAutoOrchestration. do 2 (apply silent_compensates; [done|]; intros ?).
    case_match; [by apply idle_compensates, emits_ret|].
    apply silent_compensates; [done|]. intros ?. apply single_compensates. }
  destruct (String.eqb _ _); [apply spec_compensates|apply single_compensates].
Qed.
End paths.

(** ** Theorems *)

(** C7. A run never gets stuck in its own loops: it returns, or it is open because it
    waits for a signal or a timer that has not come.  When it returns, its phase is
    Succeeded, Failed or Cancelled, and a run that returns an error has not succeeded.
    This holds in every mode, for every answer of the activities and every arrival of
    signals and timers. *)
Theorem run_ends_settled (E : env) (Hquery : env_set_query E = None) (input : WorkflowInput)
    (w : World) :
  match AgentRunWorkflow E input w with
  | (w', Done e) =>
      (phase w' = "Succeeded" \/ phase w' = "Failed" \/ phase w' = "Cancelled") /\
      (phase w' = "Succeeded" -> e = None)
  | (_, Waiting) => True
  | (_, OutOfFuel) => False
  end.
Proof.
  pose proof (run_settled E input Hquery w I) as H. pose proof (run_no_fuel E input w) as Hf.
  destruct (AgentRunWorkflow E input w) as [w' [e| |]]; simpl in *; [|done|done].
  destruct H as [Ht Hs]. split; [|done]. unfold terminal in Ht. breflect. tauto.
Qed.

(** C6. Compensation.  However a run returns (success, failure, cancellation, error, in
    any mode), every LLM key it was given is revoked later in its history, and every
    deployment it created is scaled down later in its history, and archived after that. *)
Theorem run_gives_back (E : env) (input : WorkflowInput) (w w' : World) (e : goerr)
    (Hreturns : AgentRunWorkflow E input w = (w', Done e)) :
  exists t, w_trace w' = w_trace w ++ t /\ compensated t.
Proof.
  pose proof (run_compensates E input (w_trace w) w eq_refl) as H.
  rewrite Hreturns in H. exact H.
Qed.

(** A mode that leads to a single-agent run: neither a manual orchestration nor the
    spec-driven pipeline. *)
Definition runs_single (input : WorkflowInput) : bool :=
  let m := wi_OrchestrationMode (preamble input) in
  negb (String.eqb m OrchestrationModeManual) && negb (String.eqb m OrchestrationModeSpecDriven).

Definition runs_spec (input : WorkflowInput) : bool :=
  String.eqb (wi_OrchestrationMode (preamble input)) OrchestrationModeSpecDriven.

(** ** The gate decides *)

Section gate.
Context (E : env).

Lemma gate_since_ext i j t :
  wi_ApprovalMode i = wi_ApprovalMode j -> gate_since i t -> gate_since j t.
Proof. unfold gate_since, gate_passed, gate_mode. by intros ->. Qed.

Lemma verified_and_accepted_ext i j t :
  wi_ApprovalMode i = wi_ApprovalMode j -> verified_and_accepted i t -> verified_and_accepted j t.
Proof. unfold verified_and_accepted, gate_passed, gate_mode. by intros ->. Qed.

(** What a run has added to the history: pushes guarded by [Kp], success by [Ks]. *)
Definition clears (Kp Ks : list event -> Prop) (m : W goerr) : Prop :=
  forall t0, hoare (history t0) m (fun _ => cleared t0 Kp Ks) (pushing t0 Kp).

Lemma clears_mono Kp Ks Kp' Ks' m :
  (forall t, Kp t -> Kp' t) -> (forall t, Ks t -> Ks' t) -> clears Kp Ks m -> clears Kp' Ks' m.
Proof.
  intros Hp Hs Hm t0. eapply hoare_conseq; [apply (Hm t0)|done|..].
  - intros ? w (t & ? & Hg & ?). exists t. split_and!; [done| |auto].
    intros t1 e t2 -> He. by eapply Hp, Hg.
  - intros w (t & ? & Hg). exists t. split; [done|]. intros t1 e t2 -> He. by eapply Hp, Hg.
Qed.

Lemma single_clears i : clears (gate_since i) (gate_since i) (singleAgent E (preamble i)).
Proof.
  eapply clears_mono; [..|intros t0; apply singleAgent_cleared];
    intros t; apply gate_since_ext, preamble_approval.
Qed.

Lemma autoRun_clears i : clears (gate_since i) (gate_since i) (autoRun E i).
Proof.
  intros t0. unfold autoRun, runAutoOrchestration.
  eapply hoare_bind.
  { instantiate (1 := fun _ => phased "Running" t0). by intros w Hw. }
  intros ?. eapply hoare_bind; [by apply hoare_ret with (Q := fun _ => phased "Running" t0)|].
  intros [e|].
  { apply hoare_ret. intros w [Hw Hp]. exists []. rewrite app_nil_r.
    split_and!; [done|by apply no_push_guarded, Forall_nil|]. by rewrite Hp. }
  eapply hoare_bind.
  { instantiate (1 := fun _ => history t0). by intros w [Hw _]. }
  intros ?. eapply hoare_conseq; [apply (single_clears (with_mode i OrchestrationModeSingle))|done|..].
  - intros ? w (t & Ht & Hg & Hs). by exists t.
  - intros w (t & Ht & Hg). by exists t.
Qed.

Lemma runs_single_clears i :
  runs_single i = true -> clears (gate_since i) (gate_since i) (AgentRunWorkflow E i).
Proof.
  unfold runs_single. intros [Hm Hs]%andb_true_iff. rewrite AgentRunWorkflow_eq. cbv zeta.
  apply negb_true_iff in Hm as ->. apply negb_true_iff in Hs as ->.
  destruct (String.eqb _ _); [|apply single_clears].
  eapply clears_mono; [..|apply autoRun_clears]; intros t; apply gate_since_ext, preamble_approval.
Qed.

Lemma runs_spec_mode i :
  runs_spec i = true -> AgentRunWorkflow E i = runSpecDrivenPipeline E (preamble i).
Proof.
  unfold runs_spec. intros Hs%String.eqb_eq. rewrite AgentRunWorkflow_eq. cbv zeta.
  by rewrite Hs.
Qed.

Lemma runs_spec_clears i :
  runs_spec i = true -> clears verified_before (verified_and_accepted i) (AgentRunWorkflow E i).
Proof.
  intros H. rewrite (runs_spec_mode i H).
  eapply clears_mono; [..|intros t0; apply pipeline_cleared]; [done|].
  intros t. apply verified_and_accepted_ext, preamble_approval.
Qed.

Lemma clears_run Kp Ks m w w' o :
  clears Kp Ks m -> no_fuel m -> m w = (w', o) ->
  exists t, w_trace w' = w_trace w ++ t /\ guarded Kp t /\
    ((exists e, o = Done e) -> phase w' = "Succeeded" -> Ks t).
Proof.
  intros Hm Hf Hr. specialize (Hm (w_trace w) w eq_refl). specialize (Hf w). rewrite Hr in Hm, Hf.
  destruct o as [e| |]; [|destruct Hm as (t & Ht & Hg)..].
  - destruct Hm as (t & Ht & Hg & Hs). exists t. by split_and!.
  - exists t. split_and!; [done..|]. by intros [].
  - done.
Qed.
End gate.

(** C3. The approval gate holds in the single-agent mode (and in the automatic mode, which
    runs it).  Whatever the activities answer and whenever signals come, nothing is pushed
    and no pull request is opened before the agent has reported completion and, after
    that, every review that the approval mode asks for has let the run through; and a run
    that returns with phase Succeeded went through them. *)
Theorem single_run_gated (E : env) (input : WorkflowInput) (Hmode : runs_single input = true)
    (w w' : World) (o : outcome goerr) (Hrun : AgentRunWorkflow E input w = (w', o)) :
  exists t, w_trace w' = w_trace w ++ t /\ guarded (gate_since input) t /\
    ((exists e, o = Done e) -> phase w' = "Succeeded" -> gate_since input t).
Proof.
  by eapply clears_run; [apply runs_single_clears|apply run_no_fuel|].
Qed.

(** C8. In the spec-driven mode nothing is pushed before a verification has passed, and
    a run that returns with phase Succeeded has a passed verification in its history, and
    after it every review that the approval mode asks for let the run through. *)
Theorem spec_run_verified (E : env) (input : WorkflowInput) (Hmode : runs_spec input = true)
    (w w' : World) (o : outcome goerr) (Hrun : AgentRunWorkflow E input w = (w', o)) :
  exists t, w_trace w' = w_trace w ++ t /\ guarded verified_before t /\
    ((exists e, o = Done e) -> phase w' = "Succeeded" -> verified_and_accepted input t).
Proof.
  by eapply clears_run; [apply runs_spec_clears|apply run_no_fuel|].
Qed.

Lemma run_ends_settled_witness :
  let r := AgentRunWorkflow happyEnv (sampleInput "single" "none")
             (startWorld (replicate 20 [InTick])) in
  r.2 = Done None /\ (phase r.1 = "Succeeded" \/ phase r.1 = "Failed" \/ phase r.1 = "Cancelled").
Proof.
  pose proof (run_ends_settled happyEnv eq_refl (sampleInput "single" "none")
    (startWorld (replicate 20 [InTick]))) as H.
  split; [vm_compute; reflexivity|].
  destruct (AgentRunWorkflow _ _ _) as [w' o] eqn:Hr.
  assert (o = Done None) as -> by (vm_compute in Hr; congruence). apply H.
Defined.

Lemma run_gives_back_witness :
  let r := AgentRunWorkflow happyEnv (sampleInput "spec-driven" "none")
             (startWorld (replicate 30 [InTick])) in
  existsb (fun e => bool_decide (provisioned e = Some "key")) (w_trace r.1) = true /\
  exists t, w_trace r.1 = [] ++ t /\ compensated t.
Proof.
  split; [vm_compute; reflexivity|].
  eapply (run_gives_back happyEnv (sampleInput "spec-driven" "none")
    (startWorld (replicate 30 [InTick])) _ None). vm_compute. reflexivity.
Defined.

Lemma single_run_gated_witness :
  let input := sampleInput "single" "hybrid" in
  let r := AgentRunWorkflow happyEnv input
             (startWorld (replicate 11 [InTick] ++ [[InHuman "approve"]])) in
  phase r.1 = "Succeeded" /\ existsb is_push (w_trace r.1) = true /\
  exists t, w_trace r.1 = [] ++ t /\ guarded (gate_since input) t /\
    ((exists e : goerr, Done None = Done e) -> phase r.1 = "Succeeded" -> gate_since input t).
Proof.
  split; [vm_compute; reflexivity|]. split; [vm_compute; reflexivity|].
  apply (single_run_gated happyEnv (sampleInput "single" "hybrid") eq_refl
    (startWorld (replicate 11 [InTick] ++ [[InHuman "approve"]])) _ (Done None)).
  vm_compute. reflexivity.
Defined.

Lemma spec_run_verified_witness :
  let input := sampleInput "spec-driven" "llm-judge" in
  let r := AgentRunWorkflow happyEnv input (startWorld (replicate 30 [InTick])) in
  phase r.1 = "Succeeded" /\ existsb is_push (w_trace r.1) = true /\
  exists t, w_trace r.1 = [] ++ t /\ guarded verified_before t /\
    ((exists e : goerr, Done None = Done e) -> phase r.1 = "Succeeded" -> verified_and_accepted input t).
Proof.
  split; [vm_compute; reflexivity|]. split; [vm_compute; reflexivity|].
  apply (spec_run_verified happyEnv (sampleInput "spec-driven" "llm-judge") eq_refl
    (startWorld (replicate 30 [InTick])) _ (Done None)).
  vm_compute. reflexivity.
Defined.

(** ** Bounded attempts *)

Section starts.
Context (E : env) (input : WorkflowInput).

Lemma execRetries :
  maxRetries input = sci_MaxRetries (resolveStageConfig (wi_PipelineConfig input) "execute").
Proof. unfold maxRetries, execCfg, with_model. by case_match. Qed.

Lemma plan_starts root : counts starts_agent (Z.to_nat (maxRetries input)) (plan E input root).
Proof.
  unfold plan. apply counts_quiet; [wf|]. intros [|]; [apply counts_emits; wf|].
  assert (forall root span out, counts starts_agent (Z.to_nat (maxRetries input))
    (onPlanned E input root span out)) as Hp.
  { intros. unfold onPlanned. destruct (negb _); [apply counts_emits; wf|].
    apply counts_quiet; [wf|]. intros ?. apply runAttempts_starts. }
  do 3 (apply counts_quiet; [wf|]; intros ?). destruct (HasPrefix _ _).
  - apply counts_quiet; [wf|]. intros ?. apply Hp.
  - apply counts_quiet; [wf|]. intros [out|e]; [apply Hp|]. apply counts_emits. wf.
Qed.

Lemma must_starts {B} n wh o (a : activity B) c f (k : B -> W goerr) :
  (forall r, starts_agent (EvActivity o a r) = false) ->
  (forall b, counts starts_agent n (k b)) -> counts starts_agent n (must E wh o a c f k).
Proof.
  intros Ha Hk. unfold must. apply counts_quiet; [wf; apply Ha|].
  intros [b|e]; [apply Hk|]. apply counts_emits. wf.
Qed.

Lemma specProvision_starts :
  counts starts_agent (Z.to_nat (maxRetries input)) (specProvision E input).
Proof.
  unfold specProvision. apply counts_quiet; [wf|]. intros ?. apply must_starts; [done|]. intros ?.
  apply counts_quiet; [wf|]. intros ?. unfold specDeployment.
  do 2 (apply counts_quiet; [wf|]; intros ?). apply must_starts; [done|]. intros ?.
  do 2 (apply counts_quiet; [wf|]; intros ?). unfold specCheckPod.
  do 3 (apply counts_quiet; [wf|]; intros ?). cbv zeta.
  destruct (match _ with Success _ => _ | Failure _ => _ end); [apply counts_emits; wf|].
  unfold specHydration. do 2 (apply counts_quiet; [wf|]; intros ?).
  apply must_starts; [done|]. intros ?. apply counts_quiet; [wf|]. intros ?.
  unfold rootSpan. do 2 (apply counts_quiet; [wf|]; intros ?). apply plan_starts.
Qed.

Lemma pipeline_starts :
  counts starts_agent (Z.to_nat (maxRetries input)) (runSpecDrivenPipeline E input).
Proof.
  unfold runSpecDrivenPipeline. do 2 (apply counts_quiet; [wf|]; intros ?).
  case_match; [apply counts_emits; wf|]. apply counts_quiet; [wf|]. intros ?.
  unfold with_defer. rewrite <- (Nat.add_0_r (Z.to_nat _)).
  apply counts_bind; [apply specProvision_starts|]. intros ?. apply counts_emits. wf.
Qed.
End starts.

(** A spec-driven run starts the agent at most as often as the execute stage's
    MaxRetries says (three times when nothing is configured, never when it is negative). *)
Theorem spec_attempts_bounded (E : env) (input : WorkflowInput) (Hmode : runs_spec input = true)
    (w : World) :
  exists t, w_trace (AgentRunWorkflow E input w).1 = w_trace w ++ t /\
    length (List.filter starts_agent t) <=
      Z.to_nat (sci_MaxRetries (resolveStageConfig (wi_PipelineConfig input) "execute")).
Proof.
  rewrite (runs_spec_mode E input Hmode).
  destruct (pipeline_starts E (preamble input) w) as (t & Ht & Hn). exists t. split; [done|].
  by rewrite execRetries, preamble_pipeline in Hn.
Qed.

Lemma spec_attempts_bounded_witness :
  let input := sampleInput "spec-driven" "none" in
  let E := sampleEnv agentDone approves (fun _ => false) in
  let w' := (AgentRunWorkflow E input (startWorld (replicate 60 [InTick]))).1 in
  length (List.filter starts_agent (w_trace w')) = 3 /\
  exists t, w_trace w' = [] ++ t /\ length (List.filter starts_agent t) <= Z.to_nat 3.
Proof.
  split; [vm_compute; reflexivity|].
  apply (spec_attempts_bounded (sampleEnv agentDone approves (fun _ => false))
    (sampleInput "spec-driven" "none") eq_refl (startWorld (replicate 60 [InTick]))).
Defined.
