(* ===== verification/RunCases.v ===== *)
(** * Behaviours of the gate, the retries and the orchestrations.

    What the approval gate decides on its own and where it fails open; what a retry is
    told; the order of the steps of the spec-driven pipeline; the juniors of a manual
    orchestration; and that a polling loop ends with the TTL. *)

From S2P Require Import Prelude GoStrings TemporalTypes Workflow WorkflowLogic ApprovalGate SingleAgent RunProps SpecDriven SpecProps Orchestration Sample.

(** ** The gate on its own *)

(** The gate answers for its reviews.  When it returns nil, every review of the mode
    has let the run through (the judge approved or could not be asked, the human
    approved), and the phase is Succeeded after a human review and unchanged otherwise;
    when it returns an error, a review of the mode has rejected the run and the phase is
    Failed. *)
Theorem approval_gate_decides (E : env) (input : WorkflowInput) (podIP path key : string)
    (w w' : World) (e : goerr)
    (Hreturns : runApprovalGate E input podIP path key w = (w', Done e)) :
  exists t, w_trace w' = w_trace w ++ t /\ gate_result input (phase w) e t w'.
Proof.
  pose proof (runApprovalGate_spec E input podIP path key (w_trace w) (phase w) any
    ltac:(done) w (conj eq_refl eq_refl)) as H.
  by rewrite Hreturns in H.
Qed.

Lemma approval_gate_decides_witness :
  let input := sampleInput "single" "hybrid" in
  let r := runApprovalGate happyEnv input "ip" "/workspace/r" "key"
             (startWorld [[]; [InHuman " No, not yet"]]) in
  exists t, w_trace r.1 = [] ++ t /\ gate_refused input t /\ phase r.1 = "Failed".
Proof.
  eapply (approval_gate_decides happyEnv (sampleInput "single" "hybrid") "ip" "/workspace/r" "key"
    (startWorld [[]; [InHuman " No, not yet"]]) _ (Some _)). vm_compute. reflexivity.
Defined.

(** The judge cannot be asked. *)
Definition judge_down (E : env) : Prop :=
  forall n i, exists e, env_act E _ n (LLMJudgeChanges i) = Failure e.

(** The gate fails open.  A mode that is neither "none" nor one of the three reviews
    (a typing error, say) asks nobody and lets the run through without an event; and in
    the mode "llm-judge" a judge that cannot be asked lets the run through, in the phase
    it was in. *)
Theorem approval_gate_fails_open (E : env) (input : WorkflowInput) (podIP path key : string)
    (w : World) :
  (gate_mode input ∉ ["hybrid"; "llm-judge"; "hitl"] ->
     runApprovalGate E input podIP path key w = (w, Done None)) /\
  (gate_mode input = "llm-judge" -> judge_down E ->
     (runApprovalGate E input podIP path key w).2 = Done None /\
     phase (runApprovalGate E input podIP path key w).1 = phase w).
Proof.
  unfold runApprovalGate, has_human, has_judge. split.
  - rewrite !not_elem_of_cons. intros (Hh & Hj & Hi & _).
    apply String.eqb_neq in Hh as ->, Hj as ->, Hi as ->. by destruct (String.eqb _ _).
  - intros -> Hdown. cbn [String.eqb orb]. unfold runJudge, setMessage, mbind, W_bind. simpl.
    set (w1 := set_state _ w). unfold execute.
    destruct (Hdown (length (w_trace (arrive w1))) (judgeInput input podIP path key)) as [e ->].
    split; [done|]. apply (keeps_arrive (f := phase) w1).
Qed.

Lemma approval_gate_fails_open_witness :
  (let input := sampleInput "single" "hitle" in
   runApprovalGate happyEnv input "ip" "/workspace/r" "key" (startWorld []) =
     (startWorld [], Done None)) /\
  (let input := sampleInput "single" "llm-judge" in
   let E := sampleEnv agentDone unreachable (fun _ => true) in
   (runApprovalGate E input "ip" "/workspace/r" "key" (startWorld [])).2 = Done None).
Proof.
  split.
  - apply approval_gate_fails_open. apply (bool_decide_unpack _). vm_compute. exact I.
  - apply approval_gate_fails_open; [reflexivity|]. intros n i. by eexists.
Defined.

(** ** What a retry is told *)

(** The prompt of the attempt after a verification that failed with [v]. *)
Definition promptAfter (input : WorkflowInput) (attempt : Z) (change : string) (rt : retry)
    (v : VerificationResult) : string :=
  retryPrompt input attempt change (nextRetry rt v).

(** The retry after a failed verification is told the salvage guidance of that
    verification when it gives one, else its review feedback when it gives one.  When it
    gives neither (a structural failure), the prompt is about its failure report only if
    no earlier attempt left guidance or feedback: otherwise the prompt repeats the
    earlier attempt's and does not depend on the new report at all. *)
Theorem retry_prompt_source (input : WorkflowInput) (attempt : Z) (change : string) (rt : retry)
    (v : VerificationResult) :
  let p := promptAfter input attempt change rt v in
  let about g f r := buildRetryPrompt attempt change (wi_Prompt input) g f r in
  if negb (String.eqb (vr_SalvageGuidance v) "") then p = about (vr_SalvageGuidance v) "" ""
  else if negb (String.eqb (vr_ReviewFeedback v) "") then p = about "" (vr_ReviewFeedback v) ""
  else if negb (String.eqb (rt_SalvageGuidance rt) "") then p = about (rt_SalvageGuidance rt) "" ""
  else if negb (String.eqb (rt_ReviewFeedback rt) "") then p = about "" (rt_ReviewFeedback rt) ""
  else p = about "" "" (vr_FailureReport v).
Proof.
  unfold promptAfter, retryPrompt, nextRetry.
  destruct (String.eqb (vr_SalvageGuidance v) "") eqn:Eg; cbn [negb].
  2: { unfold buildRetryPrompt. cbn. by rewrite Eg. }
  destruct (String.eqb (vr_ReviewFeedback v) "") eqn:Ef; cbn [negb].
  2: { unfold buildRetryPrompt. cbn. by rewrite Ef. }
  unfold buildRetryPrompt. cbn.
  destruct (String.eqb (rt_SalvageGuidance rt) ""); cbn [negb]; [|done].
  by destruct (String.eqb (rt_ReviewFeedback rt) "").
Qed.

(** ** The order of the pipeline *)

(** The states the sidecar has reported, in order. *)
Definition reported (t : list event) : list string :=
  omap (fun e => match e with
                 | EvActivity _ (GetAgentStatus _) (Success out) => Some (gs_State out)
                 | _ => None
                 end) t.

(** The spec-driven pipeline pushes before it asks for approval: there is a run in the
    mode "hitl" that a human rejects and that fails, after its changes were pushed. *)
Theorem spec_pushes_before_approval :
  let r := AgentRunWorkflow happyEnv (sampleInput "spec-driven" "hitl")
             (startWorld (replicate 30 [InTick] ++ [[InHuman "reject"]])) in
  (exists e, r.2 = Done (Some e)) /\ phase r.1 = "Failed" /\
  existsb is_push (w_trace r.1) = true /\ existsb human_rejected (w_trace r.1) = true.
Proof. split_and!; [eexists|..]; vm_compute; reflexivity. Qed.

(** An agent that fails in the first attempt and is still running when asked again; the
    second verification passes. *)
Definition failsOnceEnv : env :=
  sampleEnv (fun n => if n <? 20 then "AGENT_PROCESS_STATE_FAILED" else "AGENT_PROCESS_STATE_RUNNING")
    approves (fun n => negb (n <? 25)).

(** The phase "Failed" of an attempt whose agent failed is still set when the next
    attempt polls, so the poll returns on the first report, whatever it is: there is a
    run whose second attempt is verified, pushed and succeeds while its agent is still
    running, and whose agent never completed. *)
Theorem failed_attempt_cuts_next_poll :
  let r := AgentRunWorkflow failsOnceEnv (sampleInput "spec-driven" "none")
             (startWorld (replicate 40 [InTick])) in
  r.2 = Done None /\ phase r.1 = "Succeeded" /\ existsb is_push (w_trace r.1) = true /\
  reported (w_trace r.1) = ["AGENT_PROCESS_STATE_FAILED"; "AGENT_PROCESS_STATE_RUNNING"].
Proof. vm_compute. done. Qed.

(** ** The juniors of a manual orchestration *)

Section juniors.
Context (E : env) (input : WorkflowInput).

(** The names the juniors of [tasks] get, from the position [n] of the history. *)
Fixpoint names_from (n : nat) (tasks : list OrchestrationTask) : list string :=
  match tasks with
  | [] => []
  | task :: rest =>
      (wi_AgentRunName input +:+ "-junior-" +:+
       (if String.eqb (t_Name task) "" then Itoa (Z.rem (env_millis E n) 100000)
        else t_Name task)) :: names_from (S n) rest
  end.

Definition started (tasks : list OrchestrationTask) (names : list string) : list event :=
  zip_with (fun task name => EvChildStart name (taskInput input task name)) tasks names.

Definition log_all (t : list event) (w : World) : World := foldl (fun w e => log e w) w t.

Lemma startJuniors_run tasks w :
  let names := names_from (length (w_trace w)) tasks in
  startJuniors E input tasks w = (log_all (started tasks names) w, Done names).
Proof.
  revert w. induction tasks as [|task tasks IH]; intros w; [done|]. cbv zeta.
  cbn [startJuniors names_from started zip_with log_all foldl].
  unfold mbind, W_bind, juniorName, unixMilli, gets, mbind, W_bind, mret, W_ret, startChild, modify.
  rewrite IH. cbn [w_trace log]. rewrite length_app, Nat.add_1_r. done.
Qed.

(** The answers of the children, from the position [n] of the history. *)
Fixpoint answers_from (n : nat) (names : list string) : list goerr :=
  match names with
  | [] => []
  | name :: rest => env_child E n name :: answers_from (S n) rest
  end.

Definition waited (names : list string) (answers : list goerr) : list event :=
  zip_with EvChildWait names answers.

(** The tasks that failed, under the names the run reports them by. *)
Fixpoint failedTasks (i : nat) (tasks : list OrchestrationTask) (answers : list goerr) : list string :=
  match tasks, answers with
  | task :: tasks, r :: answers =>
      match r with
      | Some _ => (if String.eqb (t_Name task) "" then "task-" +:+ Itoa (Z.of_nat i)
                   else t_Name task) :: failedTasks (S i) tasks answers
      | None => failedTasks (S i) tasks answers
      end
  | _, _ => []
  end.

Lemma failedTasks_nil i tasks answers :
  length tasks = length answers -> failedTasks i tasks answers = [] <-> Forall (.= None) answers.
Proof.
  revert i answers. induction tasks as [|task tasks IH]; intros i [|r answers]; try done.
  intros [= Hl]. cbn [failedTasks]. rewrite Forall_cons. destruct r; [naive_solver|].
  rewrite IH by done. naive_solver.
Qed.

Lemma waitJuniors_run i tasks names w :
  length tasks = length names ->
  let answers := answers_from (length (w_trace w)) names in
  (waitJuniors E i tasks names w).2 = Done (failedTasks i tasks answers) /\
  w_trace (waitJuniors E i tasks names w).1 = w_trace w ++ waited names answers.
Proof.
  revert i names w. induction tasks as [|task tasks IH]; intros i [|name names] w; try done.
  { intros _. split; [done|]. simpl. by rewrite app_nil_r. }
  intros [= Hl]. cbv zeta. cbn [waitJuniors answers_from waited zip_with failedTasks].
  unfold mbind at 1 3, W_bind at 1 3, waitChild.
  set (w1 := log _ _). assert (w_trace w1 = w_trace w ++
    [EvChildWait name (env_child E (length (w_trace w)) name)]) as Hw1.
  { unfold w1. cbn [w_trace log]. by rewrite (arrive_obs w_trace). }
  rewrite (arrive_obs w_trace) by done.
  destruct (IH (S i) names w1 Hl) as [Ho Ht]. rewrite Hw1, length_app, Nat.add_1_r in Ho, Ht.
  unfold mbind, W_bind. destruct (waitJuniors E (S i) tasks names w1) as [w2 o].
  simpl in Ho, Ht. subst o. split; [by destruct (env_child _ _ _)|].
  simpl. by rewrite Ht, <- app_assoc.
Qed.

Lemma length_names_from n tasks : length (names_from n tasks) = length tasks.
Proof. revert n. induction tasks as [|task tasks IH]; intros n; simpl; by rewrite ?IH. Qed.

Lemma length_answers_from n names : length (answers_from n names) = length names.
Proof. revert n. induction names as [|name names IH]; intros n; simpl; by rewrite ?IH. Qed.
End juniors.

(** What a manual orchestration of [input] adds to a history of length [n], and its result. *)
Definition juniorTasks (input : WorkflowInput) : list OrchestrationTask :=
  take maxOrchestrationTasks (wi_Orchestration input).

(** A manual orchestration starts one child per task, at most seven and in order,
    then waits for every one of them, whatever the earlier ones answered; it succeeds when
    all of them did and fails, with an error, when one failed.  Nothing else happens. *)
Theorem manual_orchestration_outcome (E : env) (input : WorkflowInput)
    (Hquery : env_set_query E = None) (w : World) :
  let tasks := juniorTasks input in
  let n := length (w_trace w) in
  let names := names_from E input n tasks in
  let answers := answers_from E (n + length tasks) names in
  let r := runManualOrchestration E input w in
  w_trace r.1 = w_trace w ++ started input tasks names ++ waited names answers /\
  (Forall (.= None) answers -> r.2 = Done None /\ phase r.1 = "Succeeded") /\
  (~ Forall (.= None) answers -> (exists e, r.2 = Done (Some e)) /\ phase r.1 = "Failed").
Proof.
  cbv zeta. destruct (runManualOrchestration E input w) as [w' e] eqn:Hr.
  unfold runManualOrchestration, setQueryHandler in Hr. rewrite Hquery in Hr.
  unfold newState, modify in Hr. unfold mbind at 1 2, W_bind at 1 2, mret at 1, W_ret at 1 in Hr.
  revert Hr. set (w0 := set_state _ w). fold (juniorTasks input).
  unfold mbind at 1, W_bind at 1. rewrite startJuniors_run. change (w_trace w0) with (w_trace w).
  set (names := names_from E input _ _).
  assert (length names = length (juniorTasks input)) as Hn by apply length_names_from.
  assert (forall t w, w_trace (log_all t w) = w_trace w ++ t) as Hlog.
  { induction t as [|ev t IH]; intros w''; simpl; [by rewrite app_nil_r|].
    rewrite IH. simpl. by rewrite <- app_assoc. }
  set (w1 := log_all _ w0). assert (w_trace w1 = w_trace w ++ started input (juniorTasks input) names) as Hw1.
  { unfold w1. rewrite Hlog. done. }
  destruct (waitJuniors_run E 0 (juniorTasks input) names w1) as [Ho Ht].
  { done. }
  assert (length (w_trace w1) = length (w_trace w) + length (juniorTasks input)) as Hlen.
  { rewrite Hw1, length_app. unfold started. rewrite length_zip_with, Hn. lia. }
  rewrite Hlen in Ho, Ht. set (answers := answers_from E _ names) in *.
  unfold mbind at 1, W_bind at 1.
  destruct (waitJuniors E 0 _ names w1) as [w2 o]. simpl in Ho, Ht. subst o.
  assert (failedTasks 0 (juniorTasks input) answers = [] <-> Forall (.= None) answers) as Hf.
  { apply failedTasks_nil. unfold answers. by rewrite length_answers_from, Hn. }
  destruct (failedTasks _ _ _) as [|f fs]; cbn; intros [= <- <-]; cbn;
    (split; [by rewrite Ht, Hw1, <- app_assoc|]).
  - split; [done|]. intros H. by destruct H; apply Hf.
  - split; [intros H; by apply Hf in H|]. intros _. split; [by eexists|done].
Qed.

(** A manual orchestration of two tasks, one without a name. *)
Definition twoTasks : WorkflowInput :=
  let i := sampleInput "manual" "hitl" in
  {| wi_AgentRunName := "run"; wi_Namespace := "ns"; wi_Repos := wi_Repos i;
     wi_Prompt := ""; wi_DevboxConfig := ""; wi_TTLSeconds := 60; wi_Image := "";
     wi_EnvVars := []; wi_ModelTier := ""; wi_ManageModelTier := ""; wi_ImplementModelTier := "";
     wi_MaxBudget := 0; wi_LiteLLMBaseURL := ""; wi_SpecContent := ""; wi_WorkspaceName := "";
     wi_OrchestrationMode := OrchestrationModeManual;
     wi_Orchestration :=
       [{| t_Name := "api"; t_Prompt := "do the api"; t_RepoURLs := [] |};
        {| t_Name := ""; t_Prompt := "do the rest"; t_RepoURLs := [] |}];
     wi_ParentRunID := "";
     wi_SpecRunID := ""; wi_PipelineConfig := None; wi_AutoPush := true; wi_AutoPR := false;
     wi_GitHubTokenSecretName := ""; wi_PRBaseBranch := ""; wi_Project := ""; wi_Feature := "";
     wi_Tags := []; wi_Backend := ""; wi_SpecSource := ""; wi_ApprovalMode := "hitl" |}.

Lemma manual_orchestration_outcome_witness :
  let r := runManualOrchestration happyEnv twoTasks (startWorld []) in
  let names := ["run-junior-api"; "run-junior-34567"] in
  w_trace r.1 = [] ++ started twoTasks (juniorTasks twoTasks) names ++ waited names [None; None] /\
  r.2 = Done None.
Proof.
  pose proof (manual_orchestration_outcome happyEnv twoTasks eq_refl (startWorld [])) as (Ht & Hs & _).
  split; [exact Ht|]. apply Hs. vm_compute. repeat constructor.
Defined.

(** The gates of the juniors.  The child of a manual orchestration carries no
    approval mode, so its gate is "hybrid" (it waits for a human) whatever the mode of the
    parent, while a junior spawned through SpawnJuniorWorkflow has the mode of its parent,
    and "none" when the parent has none: it is not gated. *)
Theorem junior_gate_modes (input : WorkflowInput) (task : OrchestrationTask)
    (sj : SpawnJuniorInput) (name : string) :
  gate_mode (taskInput input task name) = "hybrid" /\
  wi_ApprovalMode (spawnInput sj name) =
    (if String.eqb (ToLower (TrimSpace (sj_ApprovalMode sj))) "" then "none"
     else ToLower (TrimSpace (sj_ApprovalMode sj))) /\
  (TrimSpace (sj_ApprovalMode sj) = "" -> gate_mode (spawnInput sj name) = "none").
Proof.
  split; [reflexivity|]. split; [reflexivity|]. intros H.
  unfold gate_mode. cbn [spawnInput childInput wi_ApprovalMode]. unfold JuniorApprovalMode.
  by rewrite H.
Qed.

Lemma junior_gate_modes_witness :
  let sj := {| sj_ParentRunName := "p"; sj_TaskName := "t"; sj_Namespace := "ns"; sj_Repos := [];
    sj_Task := "do"; sj_DevboxConfig := ""; sj_TTLSeconds := 0; sj_Image := ""; sj_EnvVars := [];
    sj_ModelTier := ""; sj_MaxBudget := 0; sj_LiteLLMBaseURL := ""; sj_SpecRunID := "";
    sj_GitHubTokenSecretName := ""; sj_ApprovalMode := " "; sj_Blocking := false |} in
  gate_mode (spawnInput sj "p-junior-t") = "none".
Proof.
  refine (proj2 (proj2 (junior_gate_modes twoTasks _ _ _)) _);
    [exact {| t_Name := ""; t_Prompt := ""; t_RepoURLs := [] |}|reflexivity].
Defined.

(** The workflow's clock stands still between two waits, and a manual orchestration
    starts all its children without waiting.  So two of its children have the same
    workflow ID when their tasks have the same name, in particular when neither has one;
    and two named tasks share an ID only if they share their name. *)
Theorem junior_ids (E : env) (Hclock : forall n m, env_millis E n = env_millis E m)
    (input : WorkflowInput) (n i j : nat) (tasks : list OrchestrationTask)
    (a b : OrchestrationTask) (Ha : tasks !! i = Some a) (Hb : tasks !! j = Some b) :
  let names := names_from E input n tasks in
  (t_Name a = t_Name b -> names !! i = names !! j) /\
  (t_Name a <> "" -> t_Name b <> "" -> names !! i = names !! j -> t_Name a = t_Name b).
Proof.
  cbv zeta.
  assert (forall k c, tasks !! k = Some c -> names_from E input n tasks !! k =
    Some (wi_AgentRunName input +:+ "-junior-" +:+
      (if String.eqb (t_Name c) "" then Itoa (Z.rem (env_millis E 0) 100000) else t_Name c))) as Hk.
  { clear -Hclock. revert n. induction tasks as [|t tasks IH]; intros n [|k] c; simpl; try done.
    - intros [= ->]. by rewrite (Hclock n 0).
    - apply IH. }
  rewrite (Hk i a Ha), (Hk j b Hb). split; [by intros ->|].
  intros Hna Hnb Heq. apply String.eqb_neq in Hna, Hnb. rewrite Hna, Hnb in Heq.
  apply (inj Some), (inj (String.append _)) in Heq. cbn in Heq. congruence.
Qed.

Lemma junior_ids_witness :
  let task := {| t_Name := ""; t_Prompt := ""; t_RepoURLs := [] |} in
  names_from happyEnv twoTasks 0 [task; task] !! 0 = names_from happyEnv twoTasks 0 [task; task] !! 1.
Proof. by eapply (junior_ids happyEnv (fun _ _ => eq_refl) twoTasks 0 0 1 _). Defined.

(** ** Polling ends with the TTL *)

(** The TTL timer has fired, or will. *)
Definition ttl_coming (w : World) : Prop :=
  w_ttl w = true \/ Exists (fun b => InTTL ∈ b) (w_future w).

Lemma ttl_absorb b w :
  w_ttl w = true \/ InTTL ∈ b -> w_ttl (absorb b w) = true.
Proof.
  revert w. induction b as [|i b IH]; intros w; simpl.
  - intros [H|H]; [done|]. by apply elem_of_nil in H.
  - intros H. apply IH. destruct i; simpl; try (rewrite elem_of_cons in H; naive_solver).
Qed.

Lemma future_absorb b w : w_future (absorb b w) = w_future w.
Proof. revert w. induction b as [|i b IH]; intros w; simpl; [done|]. rewrite IH. by destruct i. Qed.

Lemma ttl_arrive w : ttl_coming w -> ttl_coming (arrive w).
Proof.
  unfold ttl_coming, arrive. destruct (w_future w) as [|b bs] eqn:Hf; [by rewrite Hf|].
  rewrite future_absorb. cbn [w_future set_future]. rewrite Exists_cons.
  intros [H|[H|H]]; [left; apply ttl_absorb; by left|left; apply ttl_absorb; by right|by right].
Qed.

(** From a world where the TTL is coming: the program does not stay open, and the TTL is
    still coming after it. *)
Definition lives {A} (m : W A) : Prop :=
  forall w, ttl_coming w -> (m w).2 <> Waiting /\ ttl_coming (m w).1.

Lemma lives_bind {A B} (m : W A) (k : A -> W B) :
  lives m -> (forall a, lives (k a)) -> lives (m ≫= k).
Proof.
  intros Hm Hk w Hw. unfold mbind, W_bind. destruct (Hm w Hw) as [Ho Hc].
  destruct (m w) as [w' [a| |]]; [by apply Hk|done..].
Qed.

Lemma lives_ret {A} (a : A) : lives (mret a : W A).
Proof. by intros w Hw. Qed.
Lemma lives_gets {A} (f : World -> A) : lives (gets f).
Proof. by intros w Hw. Qed.
Lemma lives_state F : lives (modify (set_state F)).
Proof. by intros w Hw. Qed.
Lemma lives_poll d : lives (newPollTimer d).
Proof. by intros w Hw. Qed.
Lemma lives_execute {B} E o (a : activity B) : lives (execute E o a).
Proof. intros w Hw. split; [done|]. by apply ttl_arrive in Hw. Qed.

Lemma lives_execute_ {B} E o (a : activity B) : lives (execute_ E o a).
Proof. apply lives_bind; [apply lives_execute|]. intros ?. apply lives_ret. Qed.

#[export] Hint Resolve lives_bind lives_ret lives_gets lives_state lives_poll lives_execute
  lives_execute_ : unc.

Ltac lives :=
  intros;
  lazymatch goal with
  | |- lives (_ ≫= _) => apply lives_bind; [lives | intros ?; lives]
  | |- lives (match ?x with _ => _ end) => destruct x; lives
  | |- lives ?m => first [solve [eauto with unc nocore] | unfold_head m; lives]
  end.

Lemma ttl_receive k w i w' : ttl_coming w -> receive k w = Some (i, w') -> ttl_coming w'.
Proof.
  intros Hw. destruct k; simpl; split_matches; intros; simplify_eq; done.
Qed.

Lemma ttl_first_ready ks w i w' : ttl_coming w -> first_ready ks w = Some (i, w') -> ttl_coming w'.
Proof.
  intros Hw. induction ks as [|k ks IH]; simpl; [done|].
  destruct (receive k w) as [[j w1]|] eqn:E; [|done]. intros [= <- <-]. by eapply ttl_receive.
Qed.

Lemma ttl_ready w : w_ttl w = true -> exists r, first_ready poll_kinds w = Some r.
Proof.
  intros H. unfold poll_kinds. simpl. rewrite H. repeat case_match; by eexists.
Qed.

Lemma future_receive k w i w' : receive k w = Some (i, w') -> w_future w' = w_future w /\ w_ttl w' = w_ttl w.
Proof. destruct k; simpl; intros; split_matches; by simplify_eq/=. Qed.

Lemma future_first_ready ks w i w' :
  first_ready ks w = Some (i, w') -> w_future w' = w_future w /\ w_ttl w' = w_ttl w.
Proof.
  induction ks as [|k ks IH]; simpl; [done|]. destruct (receive k w) as [[j w1]|] eqn:E; [|done].
  intros [= <- <-]. by eapply future_receive.
Qed.

(** A batch that holds the TTL, or comes before it, keeps it coming. *)
Lemma offer_ttl b w :
  match offer poll_kinds b w with
  | (w', Some _) => (w_ttl w = true \/ InTTL ∈ b) \/ Exists (fun b => InTTL ∈ b) (w_future w) ->
      ttl_coming w'
  | (w', None) => InTTL ∉ b /\ w_future w' = w_future w
  end.
Proof.
  revert w. induction b as [|i b IH]; intros w; cbn [offer].
  { split; [by intros ?%elem_of_nil|done]. }
  destruct (first_ready poll_kinds (absorb1 w i)) as [[s w2]|] eqn:Hr.
  - apply future_first_ready in Hr as [Hf Ht]. intros H. unfold ttl_coming.
    assert (w_future w2 = w_future w) as Hf' by (rewrite Hf; by destruct i).
    rewrite future_absorb. cbn [w_future log]. rewrite Hf'.
    destruct H as [H|H]; [|by right]. left. apply ttl_absorb. cbn [w_ttl log]. rewrite Ht.
    rewrite elem_of_cons in H. destruct i; simpl; naive_solver.
  - specialize (IH (absorb1 w i)).
    assert (w_future (absorb1 w i) = w_future w) as Hf by by destruct i.
    destruct (offer poll_kinds b (absorb1 w i)) as [w' [s|]]; rewrite Hf in IH.
    + intros H. apply IH. rewrite elem_of_cons in H. destruct i; simpl; naive_solver.
    + destruct IH as [Hb Hw]. split; [|done]. rewrite elem_of_cons. intros [<-|H]; [|done].
      by destruct (ttl_ready (absorb1 w InTTL) eq_refl) as [r Er]; rewrite Er in Hr.
Qed.

Lemma drain_ttl bs w :
  Exists (fun b => InTTL ∈ b) bs ->
  exists i, (drain poll_kinds bs w).2 = Done i /\ ttl_coming (drain poll_kinds bs w).1.
Proof.
  revert w. induction bs as [|b bs IH]; intros w; [by intros ?%Exists_nil|].
  rewrite Exists_cons. intros H. cbn [drain].
  pose proof (offer_ttl b (set_future bs w)) as Ho.
  destruct (offer poll_kinds b (set_future bs w)) as [w' [s|]].
  - exists s. split; [done|]. apply Ho. cbn [w_future set_future]. naive_solver.
  - destruct Ho as [Hb _]. apply IH. naive_solver.
Qed.

Lemma lives_select : lives (select poll_kinds).
Proof.
  intros w Hw. unfold select. destruct (first_ready poll_kinds w) as [[i w']|] eqn:Hr.
  - split; [done|]. apply (ttl_first_ready _ _ _ _ Hw Hr).
  - destruct Hw as [Hw|Hw]; [by destruct (ttl_ready w Hw) as [r Er]; rewrite Er in Hr|].
    destruct (drain_ttl (w_future w) w Hw) as (i & Hi & Hc). by rewrite Hi.
Qed.

#[export] Hint Resolve lives_select : unc.

Section ttl.
Context (E : env) (input : WorkflowInput).

Lemma onPollInput_lives errs i : lives (onPollInput E input errs i).
Proof. lives. Qed.

Lemma pollAgentLoop_lives fuel errs : lives (pollAgentLoop E input fuel errs).
Proof.
  revert errs. induction fuel as [|fuel IH]; intros errs; cbn [pollAgentLoop]; [by intros w Hw|].
  apply lives_bind; [apply lives_select|]. intros i.
  apply lives_bind; [apply onPollInput_lives|]. intros n. apply lives_bind; [lives|]. intros p.
  destruct (String.eqb _ _); [lives|]. destruct (_ || _); [lives|]. apply IH.
Qed.

Lemma runApprovalGate_lives ip path key :
  has_human (gate_mode input) = false -> lives (runApprovalGate E input ip path key).
Proof. intros H. unfold runApprovalGate. rewrite H. lives. Qed.

Lemma pollLoop_lives fuel errs :
  has_human (gate_mode input) = false -> lives (pollLoop E input fuel errs).
Proof.
  intros Hh. revert errs. induction fuel as [|fuel IH]; intros errs; cbn [pollLoop];
    [by intros w Hw|].
  apply lives_bind; [apply lives_select|]. intros i. apply lives_bind; [lives|]. intros n.
  apply lives_bind; [lives|]. intros p.
  destruct (String.eqb _ _).
  - unfold onSucceeded. apply lives_bind; [lives|]. intros v.
    apply lives_bind; [by apply runApprovalGate_lives|]. intros e. lives.
  - destruct (_ || _); [lives|]. apply IH.
Qed.
End ttl.

(** Polling ends with the TTL.  In both pipelines a polling loop that is entered in a
    world where the TTL timer will fire returns, whatever the sidecar answers and
    whatever other signals come; in the single-agent run this includes the gate, the
    push and the pull request, if the approval mode asks no human. *)
Theorem polling_returns (E : env) (input : WorkflowInput) (w : World)
    (Httl : Exists (fun b => InTTL ∈ b) (w_future w)) :
  (exists e, (pollAgentStatus E input w).2 = Done e) /\
  (has_human (gate_mode input) = false -> exists e, (pollUntilDone E input w).2 = Done e).
Proof.
  pose proof (pollAgentStatus_no_fuel E input w) as Hf1.
  pose proof (pollUntilDone_no_fuel E input w) as Hf2. split.
  - assert ((pollAgentStatus E input w).2 <> Waiting) as Hw.
    { unfold pollAgentStatus. refine (proj1 (lives_bind (newPollTimer statusPollInterval) _
        _ _ (log _ (set_timers false (w_tick w) w)) _)); [lives| |by right].
      intros ?. apply lives_bind; [lives|]. intros n. apply pollAgentLoop_lives. }
    destruct (pollAgentStatus E input w).2; [by eexists|done..].
  - intros Hh. assert ((pollUntilDone E input w).2 <> Waiting) as Hw.
    { unfold pollUntilDone. refine (proj1 (lives_bind (newPollTimer statusPollInterval) _
        _ _ (log _ (set_timers false (w_tick _) (set_state _ w))) _)); [lives| |by right].
      intros ?. apply lives_bind; [lives|]. intros n. by apply pollLoop_lives. }
    destruct (pollUntilDone E input w).2; [by eexists|done..].
Qed.

Lemma polling_returns_witness :
  let E := sampleEnv (fun _ => "AGENT_PROCESS_STATE_RUNNING") approves (fun _ => true) in
  exists e, (pollUntilDone E (sampleInput "single" "none")
               (startWorld (replicate 5 [InTick] ++ [[InHuman "hi"; InTTL]]))).2 = Done e.
Proof.
  apply (polling_returns (sampleEnv (fun _ => "AGENT_PROCESS_STATE_RUNNING") approves
    (fun _ => true)) (sampleInput "single" "none")
    (startWorld (replicate 5 [InTick] ++ [[InHuman "hi"; InTTL]])));
    [|reflexivity].
  cbn. do 5 apply Exists_cons_tl. apply Exists_cons_hd. set_solver.
Defined.
