(* ===== verification/Files.v ===== *)
(** * A file tree, as the tools that read and write a checkout see it.

    [os.Stat], [os.ReadFile], [os.ReadDir], [os.MkdirAll] and [os.WriteFile] over a map
    from absolute cleaned paths to nodes, with the working directory that relative paths
    start from.  There are no symbolic links. *)

From S2P Require Import Prelude GoStrings.

Inductive node := Directory | File (data : string).

#[export] Instance node_eq_dec : EqDecision node.
Proof. solve_decision. Defined.

Record tree := { tr_nodes : gmap string node; tr_cwd : string }.

(** [filepath.Abs] *)
Definition Abs (t : tree) (path : string) : string :=
  if IsAbs path then Clean path else PathJoin (tr_cwd t) path.

Section tree.
Context (t : tree).

Definition Stat (path : string) : option node :=
  if String.eqb path "" then None else tr_nodes t !! Abs t path.
Definition exists_ (path : string) : bool := bool_decide (is_Some (Stat path)).
Definition IsDir (path : string) : bool := bool_decide (Stat path = Some Directory).

Definition ReadFile (path : string) : option string :=
  match Stat path with Some (File data) => Some data | _ => None end.

(** The names of the children of a directory, sorted. *)
Definition children (path : string) : list string :=
  sort_strings
    (omap (fun e : string * node =>
             if String.eqb (Dir e.1) (Abs t path) && negb (String.eqb e.1 (Abs t path))
             then Some (Base e.1) else None) (map_to_list (tr_nodes t))).

(** [os.ReadDir]: [None] when the path is not a directory. *)
Definition ReadDir (path : string) : option (list string) :=
  match Stat path with Some Directory => Some (children path) | _ => None end.

Definition with_node (path : string) (n : node) : tree :=
  {| tr_nodes := <[Abs t path := n]> (tr_nodes t); tr_cwd := tr_cwd t |}.

(** [os.WriteFile]: in a directory that exists, over nothing or over a file. *)
Definition WriteFile (path data : string) : result tree :=
  if String.eqb path "" then Err "no such file or directory"
  else match tr_nodes t !! Dir (Abs t path), Stat path with
  | Some Directory, Some Directory => Err "is a directory"
  | Some Directory, _ => Ok (with_node path (File data))
  | Some (File _), _ => Err "not a directory"
  | None, _ => Err "no such file or directory"
  end.
End tree.

(** The path and every directory above it, the path first. *)
Fixpoint ancestors (fuel : nat) (path : string) : list string :=
  match fuel with
  | 0 => [path]
  | S fuel => let d := Dir path in if String.eqb d path then [path] else path :: ancestors fuel d
  end.

Definition is_file (n : option node) : bool := match n with Some (File _) => true | _ => false end.

(** [os.MkdirAll]: an error when the path or a directory above it is a file. *)
Definition MkdirAll (t : tree) (path : string) : result tree :=
  let paths := ancestors (String.length (Abs t path)) (Abs t path) in
  if existsb (fun p => is_file (tr_nodes t !! p)) paths then Err "not a directory"
  else Ok {| tr_nodes := foldr (fun p m => <[p := Directory]> m) (tr_nodes t) paths;
             tr_cwd := tr_cwd t |}.

(** A tree from its files, with every directory above them. *)
Definition tree_of (cwd : string) (files : list (string * string)) : tree :=
  let t0 := {| tr_nodes := {[ "/" := Directory ]}; tr_cwd := cwd |} in
  foldl (fun t f => match MkdirAll t (Dir (Abs t0 f.1)) with
                    | Ok t' => with_node t' f.1 (File f.2)
                    | Err _ => t
                    end)
    (match MkdirAll t0 cwd with Ok t => t | Err _ => t0 end) files.

Example tree_ex :
  let t := tree_of "/repo" [("a/b.md", "x"); ("a/c/d.md", "y")] in
  ReadDir t "a/" = Some ["b.md"; "c"] /\ ReadFile t "/repo/a/./b.md" = Some "x" /\
  IsDir t "a/c" = true /\ ReadFile t "a" = None /\ ReadDir t "/" = Some ["repo"] /\
  WriteFile t "z/f" "x" = Err "no such file or directory".
Proof. vm_compute. repeat split. Qed.

(** ** Absolute paths *)

Lemma Clean_rooted p : IsAbs p = true -> exists s, Clean p = String "/" s.
Proof. unfold Clean. intros ->. by eexists. Qed.

Lemma clean_segs_rooted out segs :
  Forall (.≠ "..") out -> Forall (.≠ "..") (clean_segs true out segs).
Proof.
  revert out. induction segs as [|seg segs IH]; intros out Ho; cbn [clean_segs]; [done|].
  destruct (_ || _); [by apply IH|]. destruct (String.eqb_spec seg "..") as [->|Hne].
  - destruct out as [|top below]; [by apply IH|]. apply Forall_cons in Ho as [Ht Hb].
    apply String.eqb_neq in Ht as ->. by apply IH.
  - apply IH. by constructor.
Qed.

(** A rooted path that has been cleaned has no segment [..]. *)
Lemma Clean_segs q : exists segs, Clean (String "/" q) = "/" +:+ Join segs "/" /\ Forall (.≠ "..") segs.
Proof.
  unfold Clean, IsAbs. cbn [HasPrefix].
  rewrite (HasPrefix_app "/" q : HasPrefix (String "/" q) "/" = true). eexists. split; [done|].
  apply Forall_rev. by apply clean_segs_rooted.
Qed.

(** A relative path stays relative. *)
Lemma Split_no_sep s sep x t : x ∈ Split s sep -> x <> String sep t.
Proof.
  revert x. induction s as [|c s IH]; intros x; simpl.
  - intros ->%list_elem_of_singleton. done.
  - destruct (Ascii.eqb_spec c sep) as [->|Hc].
    + rewrite elem_of_cons. intros [->|Hx]; [done|by apply IH].
    + destruct (Split s sep) as [|y l] eqn:E; [by intros ->%list_elem_of_singleton; intros [= ? _]|].
      rewrite elem_of_cons. intros [->|Hx]; [by intros [= ? _]|]. apply IH. by constructor.
Qed.

Lemma clean_segs_from rooted out segs x :
  x ∈ clean_segs rooted out segs -> x ∈ out \/ x = ".." \/ (x ∈ segs /\ x <> "").
Proof.
  revert out. induction segs as [|seg segs IH]; intros out; cbn [clean_segs]; [tauto|].
  destruct (String.eqb_spec seg "") as [->|Hne]; simpl; [intros H%IH; set_solver|].
  destruct (String.eqb seg "."); [intros H%IH; set_solver|].
  destruct (String.eqb_spec seg "..") as [->|Hd].
  - destruct out as [|top below]; [destruct rooted; intros H%IH; set_solver|].
    destruct (String.eqb top ".."); intros H%IH; set_solver.
  - intros H%IH. set_solver.
Qed.

Lemma Clean_relative p : IsAbs p = false -> exists c rest, Clean p = String c rest /\ c <> "/"%char.
Proof.
  intros Hp. unfold Clean. rewrite Hp.
  destruct (rev _) as [|x l] eqn:E; [by exists "."%char, ""|].
  assert (x ∈ clean_segs false [] (Split p "/")) as Hx.
  { apply list_elem_of_In, in_rev. rewrite E. by left. }
  assert (forall t, x <> "" /\ x <> String "/" t) as Hs.
  { intros t. apply clean_segs_from in Hx as [Hx|[->|[Hx Hn]]]; [by apply elem_of_nil in Hx|done|].
    split; [done|]. by apply (Split_no_sep p). }
  destruct x as [|c x]; [by destruct (Hs "")|]. exists c.
  assert (c <> "/"%char) as Hc by (intros ->; by destruct (Hs x)).
  destruct l; simpl; eauto.
Qed.

Lemma Abs_rooted t path : IsAbs (tr_cwd t) = true -> exists s, Abs t path = String "/" s.
Proof.
  intros Hcwd. unfold Abs. destruct (IsAbs path) eqn:Hp; [by apply Clean_rooted|].
  unfold PathJoin. destruct (tr_cwd t) as [|c cwd] eqn:E; [done|].
  destruct path as [|d path]; apply Clean_rooted; [done|].
  unfold IsAbs in *. apply HasPrefix_spec in Hcwd as [r Hr]. rewrite Hr.
  rewrite !str_app_assoc. apply HasPrefix_app.
Qed.

(** ** What a write changes *)

Lemma Stat_with_node_eq t path n : path <> "" -> Stat (with_node t path n) path = Some n.
Proof.
  intros H. unfold Stat. apply String.eqb_neq in H as ->. unfold with_node, Abs at 1. simpl.
  apply lookup_insert_eq.
Qed.

Lemma Stat_with_node_ne t path n q : Abs t q <> Abs t path -> Stat (with_node t path n) q = Stat t q.
Proof.
  intros H. unfold Stat. destruct (String.eqb q ""); [done|]. unfold with_node, Abs at 1. simpl.
  by apply lookup_insert_ne.
Qed.

Lemma WriteFile_Ok t path data t' :
  WriteFile t path data = Ok t' -> path <> "" /\ t' = with_node t path (File data).
Proof.
  unfold WriteFile. destruct (String.eqb_spec path "") as [->|Hne]; [done|].
  repeat case_match; intros; simplify_eq; done.
Qed.

Lemma ReadFile_written t path data t' :
  WriteFile t path data = Ok t' -> ReadFile t' path = Some data.
Proof. intros [? ->]%WriteFile_Ok. unfold ReadFile. by rewrite Stat_with_node_eq. Qed.

(** [os.Remove] of a node that has no children. *)
Definition Remove (t : tree) (path : string) : tree :=
  {| tr_nodes := delete (Abs t path) (tr_nodes t); tr_cwd := tr_cwd t |}.

(** ** Paths below a base *)

Lemma Split_app s t sep : Split (s +:+ String sep t) sep = Split s sep ++ Split t sep.
Proof.
  induction s as [|c s IH]; cbn [String.append Split].
  - by rewrite Ascii.eqb_refl.
  - rewrite IH. destruct (Ascii.eqb c sep); [done|]. destruct (Split s sep) eqn:E; [by destruct (Split_nonempty s sep)|done].
Qed.

Lemma Split_part x s sep : x ∈ Split s sep -> exists a b, s = a +:+ x +:+ b.
Proof.
  revert x. induction s as [|c s IH]; intros x; cbn [Split].
  - intros ->%list_elem_of_singleton. by exists "", "".
  - destruct (Ascii.eqb c sep).
    + rewrite elem_of_cons. intros [->|Hx]; [by exists "", (String c s)|].
      destruct (IH x Hx) as (a & b & ->). by exists (String c a), b.
    + destruct (Split s sep) as [|f fs] eqn:E; [by destruct (Split_nonempty s sep)|].
      rewrite elem_of_cons. intros [->|Hx].
      * assert (exists b, s = f +:+ b) as [b ->].
        { clear IH. revert f fs E. induction s as [|d s IH]; intros f fs; cbn [Split]; [intros [= <- <-]; by exists ""|].
          destruct (Ascii.eqb d sep); [intros [= <- <-]; by eexists|].
          destruct (Split s sep) as [|g gs] eqn:E; [by destruct (Split_nonempty s sep)|].
          intros [= <- <-]. destruct (IH g gs eq_refl) as [b ->]. by exists b. }
        by exists "", b.
      * destruct (IH x) as (a & b & ->); [by right|]. by exists (String c a), b.
Qed.

(** The segments of a path that count. *)
Definition kept (segs : list string) : list string := filter (fun s => s <> "" /\ s <> ".") segs.

Lemma clean_segs_app rooted out l k : clean_segs rooted out (l ++ k) = clean_segs rooted (clean_segs rooted out l) k.
Proof.
  revert out. induction l as [|s l IH]; intros out; [done|]. cbn [app clean_segs].
  destruct (_ || _); [apply IH|]. destruct (String.eqb s ".."); [|apply IH].
  destruct out as [|top out]; [apply IH|]. destruct (String.eqb top ".."); apply IH.
Qed.

Lemma clean_segs_plain rooted out l : ".." ∉ l -> clean_segs rooted out l = rev (kept l) ++ out.
Proof.
  revert out. induction l as [|s l IH]; intros out Hl; [done|]. apply not_elem_of_cons in Hl as [Hs Hl].
  cbn [clean_segs]. unfold kept.
  destruct (String.eqb_spec s "") as [->|H1]; [rewrite filter_cons_False by naive_solver; by apply IH|].
  destruct (String.eqb_spec s ".") as [->|H2]; [rewrite filter_cons_False by naive_solver; by apply IH|].
  rewrite filter_cons_True by done. destruct (String.eqb_spec s "..") as [->|_]; [done|].
  cbn [orb]. rewrite IH by done. simpl. by rewrite <- app_assoc.
Qed.

(** The segments of a rooted path. *)
Definition segments (p : string) : list string := rev (clean_segs true [] (Split p "/")).

Lemma Clean_segments p : IsAbs p = true -> Clean p = "/" +:+ Join (segments p) "/".
Proof. intros H. unfold Clean. by rewrite H. Qed.

(** A relative path without two dots in a row is joined behind the base. *)
Lemma PathJoin_below base p :
  IsAbs base = true -> p <> "" -> Contains p ".." = false ->
  PathJoin base p = "/" +:+ Join (segments base ++ kept (Split p "/")) "/".
Proof.
  intros Hb Hp Hd.
  assert (PathJoin base p = Clean (base +:+ "/" +:+ p)) as ->.
  { unfold PathJoin. destruct base; [done|]. by destruct p. }
  rewrite Clean_segments.
  - unfold segments. change ("/" +:+ p) with (String "/" p). rewrite Split_app, clean_segs_app.
    rewrite (clean_segs_plain _ _ (Split p "/")); [by rewrite rev_app_distr, rev_involutive|].
    intros (a & b & Hab)%Split_part. assert (Contains p ".." = true) as H by (apply Contains_spec; eauto). congruence.
  - unfold IsAbs in *. apply HasPrefix_spec in Hb as [t ->]. rewrite str_app_assoc. apply HasPrefix_app.
Qed.

Lemma PathJoin_abs base p : IsAbs base = true -> p <> "" -> IsAbs (PathJoin base p) = true.
Proof.
  intros Hb Hp. unfold PathJoin. destruct base as [|c base]; [done|]. destruct p as [|d p]; [done|].
  rewrite Clean_segments; [apply HasPrefix_app|].
  unfold IsAbs in *. apply HasPrefix_spec in Hb as [t ->]. rewrite str_app_assoc. apply HasPrefix_app.
Qed.
