(* ===== verification/GoTime.v ===== *)
(** * Dates ([time.ParseInLocation] with the layout [2006-01-02]), ages in days, and floating-point numbers: the standard library's executable
    binary64. *)

From Stdlib Require Import SpecFloat.
From S2P Require Import Prelude GoStrings.

Local Open Scope Z_scope.

(** The number of the day, counted from 1970-01-01, in the Gregorian calendar. *)
Definition days_from_civil (y m d : Z) : Z :=
  let y := if m <=? 2 then y - 1 else y in
  let era := y / 400 in
  let yoe := y - era * 400 in
  let doy := (153 * (if 2 <? m then m - 3 else m + 9) + 2) / 5 + d - 1 in
  era * 146097 + (yoe * 365 + yoe / 4 - yoe / 100 + doy) - 719468.

Definition is_leap (y : Z) : bool :=
  (y mod 4 =? 0) && (negb (y mod 100 =? 0) || (y mod 400 =? 0)).

Definition days_in (y m : Z) : Z :=
  if m =? 2 then (if is_leap y then 29 else 28)
  else if (m =? 4) || (m =? 6) || (m =? 9) || (m =? 11) then 30 else 31.

(** [n] digits at the front. *)
Fixpoint fixed_digits (n : nat) (acc : Z) (s : string) : option (Z * string) :=
  match n, s with
  | O, _ => Some (acc, s)
  | S n, String c t => if is_digit c then fixed_digits n (acc * 10 + digit_val c) t else None
  | S _, "" => None
  end.

(** A date as [YYYY-MM-DD], as the number of its day. *)
Definition parse_date (s : string) : option Z :=
  '(y, s) ← fixed_digits 4 0 s;
  match s with
  | String "-"%char s =>
      '(m, s) ← fixed_digits 2 0 s;
      match s with
      | String "-"%char s =>
          '(d, s) ← fixed_digits 2 0 s;
          if String.eqb s "" && (1 <=? m) && (m <=? 12) && (1 <=? d) && (d <=? days_in y m)
          then Some (days_from_civil y m d) else None
      | _ => None
      end
  | _ => None
  end.

Definition ns_per_day : Z := 86400000000000.

(** The clock of the process: the time in nanoseconds since the epoch, the time of local
    midnight of a day, and the day it is locally. *)
Record clock := { ck_now : Z; ck_midnight : Z -> Z; ck_today : Z }.

(** [int(now.Sub(accessed).Hours() / 24)]: whole days, towards zero.  (Go computes the hours as a
    float64, which can round up to a day less than a microsecond before it is over.) *)
Definition age_days (ck : clock) (day : Z) : Z := Z.quot (ck_now ck - ck_midnight ck day) ns_per_day.

(** [Format("2006-01-02")] of a day. *)
Definition civil_from_days (z : Z) : Z * Z * Z :=
  let z := z + 719468 in
  let era := z / 146097 in
  let doe := z - era * 146097 in
  let yoe := (doe - doe / 1460 + doe / 36524 - doe / 146096) / 365 in
  let doy := doe - (365 * yoe + yoe / 4 - yoe / 100) in
  let mp := (5 * doy + 2) / 153 in
  let d := doy - (153 * mp + 2) / 5 + 1 in
  let m := if mp <? 10 then mp + 3 else mp - 9 in
  (if m <=? 2 then yoe + era * 400 + 1 else yoe + era * 400, m, d).

Fixpoint zero_padded (n : nat) (z : Z) : string :=
  match n with
  | O => ""
  | S n => zero_padded n (z / 10) +:+ String (Ascii.ascii_of_N (Z.to_N (z mod 10 + 48))) ""
  end.

Definition format_date (day : Z) : string :=
  let '(y, m, d) := civil_from_days day in
  zero_padded 4 y +:+ "-" +:+ zero_padded 2 m +:+ "-" +:+ zero_padded 2 d.

Example date_ex :
  parse_date "1970-01-01" = Some 0 /\ parse_date "2024-02-29" = Some 19782 /\
  parse_date "2023-02-29" = None /\ parse_date "2024-2-29" = None /\
  parse_date "2024-02-29x" = None /\ format_date 19782 = "2024-02-29" /\ format_date (-1) = "1969-12-31".
Proof. vm_compute. repeat split. Qed.

(** ** Floating point *)

Abbreviation float := spec_float.

Definition fadd : float -> float -> float := SFadd 53 1024.
Definition fsub : float -> float -> float := SFsub 53 1024.
Definition fmul : float -> float -> float := SFmul 53 1024.
Definition fdiv : float -> float -> float := SFdiv 53 1024.
Definition fltb : float -> float -> bool := SFltb.

(** A conversion of an integer to [float64]. *)
Definition float_of_Z (z : Z) : float := binary_normalize 53 1024 z 0 false.

(** [time.Duration.Seconds], of nanoseconds *)
Definition Seconds (d : Z) : float :=
  fadd (float_of_Z (Z.quot d 1000000000)) (fdiv (float_of_Z (Z.rem d 1000000000)) (float_of_Z 1000000000)).

(** A conversion to an integer that is in range: towards zero. *)
Definition float_to_Z (f : float) : Z :=
  match f with
  | S754_finite s m e =>
      let z := if 0 <=? e then Zpos m * 2 ^ e else Zpos m / 2 ^ (- e) in if s then - z else z
  | _ => 0
  end.

Example floats :
  float_to_Z (fmul (float_of_Z 10) (fdiv (float_of_Z 9) (float_of_Z 10))) = 9 /\
  float_to_Z (fmul (fdiv (float_of_Z 29) (float_of_Z 100)) (float_of_Z 100)) = 28 /\
  float_to_Z (Seconds (-1500000000)) = -1.
Proof. by vm_compute. Qed.
