(* ===== verification/Json.v ===== *)
(** * Go's [encoding/json], as far as the repository uses it.

    A document is parsed into a tree whose strings and numbers keep the text they were
    written as, as a [json.RawMessage] does.  [Unmarshal] into a struct follows Go: keys
    match exactly or up to case, [null] leaves a field alone, a value of another type is
    an error that does not stop the rest from being decoded. *)

From S2P Require Import Prelude GoStrings Regex.

(** ** Trees *)

(** The text of a string literal is kept without its quotes, that of a number as it is. *)
Inductive json :=
| JNull
| JBool (b : bool)
| JNum (lit : string)
| JStr (raw : string)
| JArr (l : list json)
| JObj (l : list (string * json)).

(** ** Parsing *)

Definition json_space (c : Ascii.ascii) : bool := char_in (" " +:+ String "009" (String "010" (String "013" ""))) c.
Definition skip_ws : string -> string := TrimLeftFunc json_space.

Definition is_hex (c : Ascii.ascii) : bool :=
  is_digit c || in_range 65 70 c || in_range 97 102 c.

(** The rest of a string literal, after its opening quote: its text and what follows the
    closing quote.  A control character, a bad escape or a missing quote is an error. *)
Fixpoint scan_string (s : string) : option (string * string) :=
  match s with
  | "" => None
  | String c s =>
      if Ascii.eqb c "034"%char then Some ("", s)
      else if (code c <? 32)%N then None
      else if Ascii.eqb c "\"%char then
        match s with
        | String e s =>
            if char_in ("\/bfnrt" +:+ dquote) e then
              '(t, rest) ← scan_string s; Some (String c (String e t), rest)
            else if Ascii.eqb e "u"%char then
              match s with
              | String a (String b (String d (String f s))) =>
                  if forallb is_hex [a; b; d; f] then
                    '(t, rest) ← scan_string s;
                    Some (String c (String e (String a (String b (String d (String f t))))), rest)
                  else None
              | _ => None
              end
            else None
        | "" => None
        end
      else '(t, rest) ← scan_string s; Some (String c t, rest)
  end.

(** The digits at the front of a string. *)
Fixpoint take_digits (s : string) : string * string :=
  match s with
  | String c s' => if is_digit c then let '(d, r) := take_digits s' in (String c d, r) else ("", s)
  | "" => ("", "")
  end.

(** A number: an optional sign, an integer without leading zeros, an optional fraction
    and an optional exponent. *)
Definition scan_number (s : string) : option (string * string) :=
  let '(sign, s1) := match s with String "-"%char t => ("-", t) | _ => ("", s) end in
  '(int, s2) ← match s1 with
               | String "0"%char t => Some ("0", t)
               | _ => let '(d, r) := take_digits s1 in if String.eqb d "" then None else Some (d, r)
               end;
  '(frac, s3) ← match s2 with
                | String "."%char t =>
                    let '(d, r) := take_digits t in
                    if String.eqb d "" then None else Some ("." +:+ d, r)
                | _ => Some ("", s2)
                end;
  '(exp, s4) ← match s3 with
               | String e t =>
                   if Ascii.eqb e "e"%char || Ascii.eqb e "E"%char then
                     let '(sg, t) := match t with
                                     | String "+"%char r => ("+", r)
                                     | String "-"%char r => ("-", r)
                                     | _ => ("", t)
                                     end in
                     let '(d, r) := take_digits t in
                     if String.eqb d "" then None else Some (String e sg +:+ d, r)
                   else Some ("", s3)
               | "" => Some ("", "")
               end;
  Some (sign +:+ int +:+ frac +:+ exp, s4).

(** A value, the elements of an array after [\[], or the members of an object after [{].
    Every call reads at least a byte or is the last, so the length of the text is fuel
    enough. *)
Fixpoint parse_value (fuel : nat) (s : string) : option (json * string) :=
  match fuel with
  | 0 => None
  | S fuel =>
      match skip_ws s with
      | "" => None
      | String c t as s =>
          if Ascii.eqb c "034"%char then '(raw, rest) ← scan_string t; Some (JStr raw, rest)
          else if Ascii.eqb c "["%char then
            match skip_ws t with
            | String "]"%char rest => Some (JArr [], rest)
            | _ => '(l, rest) ← parse_elems fuel t; Some (JArr l, rest)
            end
          else if Ascii.eqb c "{"%char then
            match skip_ws t with
            | String "}"%char rest => Some (JObj [], rest)
            | _ => '(l, rest) ← parse_members fuel t; Some (JObj l, rest)
            end
          else if HasPrefix s "true" then Some (JBool true, str_drop 4 s)
          else if HasPrefix s "false" then Some (JBool false, str_drop 5 s)
          else if HasPrefix s "null" then Some (JNull, str_drop 4 s)
          else '(lit, rest) ← scan_number s; Some (JNum lit, rest)
      end
  end
with parse_elems (fuel : nat) (s : string) : option (list json * string) :=
  match fuel with
  | 0 => None
  | S fuel =>
      '(v, rest) ← parse_value fuel s;
      match skip_ws rest with
      | String "]"%char rest => Some ([v], rest)
      | String ","%char rest => '(l, rest) ← parse_elems fuel rest; Some (v :: l, rest)
      | _ => None
      end
  end
with parse_members (fuel : nat) (s : string) : option (list (string * json) * string) :=
  match fuel with
  | 0 => None
  | S fuel =>
      match skip_ws s with
      | String "034"%char t =>
          '(k, rest) ← scan_string t;
          match skip_ws rest with
          | String ":"%char rest =>
              '(v, rest) ← parse_value fuel rest;
              match skip_ws rest with
              | String "}"%char rest => Some ([(k, v)], rest)
              | String ","%char rest => '(l, rest) ← parse_members fuel rest; Some ((k, v) :: l, rest)
              | _ => None
              end
          | _ => None
          end
      | _ => None
      end
  end.

(** A whole document: one value and white space. *)
Definition parse_json (s : string) : option json :=
  match parse_value (S (2 * String.length s)) s with
  | Some (v, rest) => if String.eqb (skip_ws rest) "" then Some v else None
  | None => None
  end.

(** ** Strings *)

(** [utf8.AppendRune] *)
Definition chr_of (z : Z) : string := String (Ascii.ascii_of_N (Z.to_N z)) "".
Definition encode_rune (r : Z) : string :=
  (if r <? 128 then chr_of r
   else if r <? 2048 then
     chr_of (Z.lor 192 (Z.shiftr r 6)) +:+ chr_of (Z.lor 128 (Z.land r 63))
   else if r <? 65536 then
     chr_of (Z.lor 224 (Z.shiftr r 12)) +:+ chr_of (Z.lor 128 (Z.land (Z.shiftr r 6) 63)) +:+
     chr_of (Z.lor 128 (Z.land r 63))
   else
     chr_of (Z.lor 240 (Z.shiftr r 18)) +:+ chr_of (Z.lor 128 (Z.land (Z.shiftr r 12) 63)) +:+
     chr_of (Z.lor 128 (Z.land (Z.shiftr r 6) 63)) +:+ chr_of (Z.lor 128 (Z.land r 63)))%Z.

Definition hex_val (c : Ascii.ascii) : Z :=
  (if is_digit c then byte_of c - 48
   else if in_range 65 70 c then byte_of c - 55 else byte_of c - 87)%Z.

(** The code unit of [\uXXXX] at the front of a string. *)
Definition get_u4 (s : string) : option (Z * string) :=
  match s with
  | String "\"%char (String "u"%char (String a (String b (String c (String d rest))))) =>
      if forallb is_hex [a; b; c; d] then
        Some (((hex_val a * 16 + hex_val b) * 16 + hex_val c) * 16 + hex_val d, rest)%Z
      else None
  | _ => None
  end.

Definition is_high (z : Z) : bool := ((55296 <=? z) && (z <? 56320))%Z.
Definition is_low (z : Z) : bool := ((56320 <=? z) && (z <? 57344))%Z.

Definition simple_escape (e : Ascii.ascii) : string :=
  match e with
  | "b"%char => String "008" ""
  | "f"%char => String "012" ""
  | "n"%char => String "010" ""
  | "r"%char => String "013" ""
  | "t"%char => String "009" ""
  | c => String c ""
  end.

(** The value of a string literal.  Half a surrogate pair and a byte that is not UTF-8
    become U+FFFD. *)
Fixpoint unquote_fuel (fuel : nat) (s : string) : string :=
  match fuel with
  | 0 => ""
  | S fuel =>
      match get_u4 s with
      | Some (u, rest) =>
          if is_high u then
            match get_u4 rest with
            | Some (v, rest') =>
                if is_low v
                then encode_rune (65536 + (u - 55296) * 1024 + (v - 56320))%Z +:+ unquote_fuel fuel rest'
                else encode_rune 65533 +:+ unquote_fuel fuel rest
            | None => encode_rune 65533 +:+ unquote_fuel fuel rest
            end
          else if is_low u then encode_rune 65533 +:+ unquote_fuel fuel rest
          else encode_rune u +:+ unquote_fuel fuel rest
      | None =>
          match s with
          | "" => ""
          | String "\"%char (String e rest) => simple_escape e +:+ unquote_fuel fuel rest
          | _ => match decode_rune s with
                 | Some (r, rest) => encode_rune r.1 +:+ unquote_fuel fuel rest
                 | None => ""
                 end
          end
      end
  end.

Definition unquote (raw : string) : string := unquote_fuel (String.length raw) raw.

(** How [Marshal] writes a byte of a string; HTML characters are escaped. *)
Definition escape_ascii (c : Ascii.ascii) : string :=
  if char_in (dquote +:+ "\") c then String "\" (String c "")
  else match c with
  | "008"%char => "\b"
  | "012"%char => "\f"
  | "010"%char => "\n"
  | "013"%char => "\r"
  | "009"%char => "\t"
  | c => if (code c <? 32)%N || char_in "<>&" c
         then "\u00" +:+ String (hex_digit (code c / 16)) (String (hex_digit (code c mod 16)) "")
         else String c ""
  end.

(** A rune of a string: an invalid byte and the line separators are escaped. *)
Definition escape_rune (r : rune) : string :=
  match r with
  | (z, String c "") => if (z <? 128)%Z then escape_ascii c else "\ufffd"
  | (z, bytes) => if (z =? 8232)%Z then "\u2028" else if (z =? 8233)%Z then "\u2029" else bytes
  end.

(** The text of the literal of a string, without its quotes. *)
Definition quote_json (s : string) : string := foldr (fun r acc => escape_rune r +:+ acc) "" (runes s).

(** ** Unmarshalling *)

(** The values of a field, in the order of the document. *)
Definition field (name : string) (members : list (string * json)) : list json :=
  omap (fun m => if EqualFold (unquote m.1) name then Some m.2 else None) members.

(** One value decoded into a string field: the field, and whether the type was right. *)
Definition decode_into (cur : string * bool) (v : json) : string * bool :=
  match v with
  | JStr raw => (unquote raw, cur.2)
  | JNull => cur
  | _ => (cur.1, false)
  end.

Definition string_field (name : string) (members : list (string * json)) : string * bool :=
  foldl decode_into ("", true) (field name members).

(** The members of a document decoded into a struct: [null] has none. *)
Definition members_of (v : json) : option (list (string * json)) :=
  match v with JObj l => Some l | JNull => Some [] | _ => None end.

(** ** Marshalling with an indent of two spaces *)

(** [compact] with HTML escapes, on the text of a literal. *)
Fixpoint html_escape (s : string) : string :=
  match s with
  | "" => ""
  | String "226"%char (String "128"%char (String "168"%char t)) => "\u2028" +:+ html_escape t
  | String "226"%char (String "128"%char (String "169"%char t)) => "\u2029" +:+ html_escape t
  | String c t => (if char_in "<>&" c then escape_ascii c else String c "") +:+ html_escape t
  end.

Definition json_string (raw : string) : string := dquote +:+ html_escape raw +:+ dquote.

Definition indent_at (n : nat) : string := newline +:+ Join (replicate n "  ") "".

Fixpoint print_json (depth : nat) (v : json) : string :=
  match v with
  | JNull => "null"
  | JBool b => if b then "true" else "false"
  | JNum lit => lit
  | JStr raw => json_string raw
  | JArr [] => "[]"
  | JArr l =>
      "[" +:+ Join (map (fun v => indent_at (S depth) +:+ print_json (S depth) v) l) "," +:+
      indent_at depth +:+ "]"
  | JObj [] => "{}"
  | JObj l =>
      "{" +:+ Join (map (fun m => indent_at (S depth) +:+ json_string m.1 +:+ ": " +:+
                                  print_json (S depth) m.2) l) "," +:+ indent_at depth +:+ "}"
  end.

Example json_ex :
  parse_json (" {" +:+ dquote +:+ "a\u0041" +:+ dquote +:+ " : [1, -2.5e3, null, {} ] } ") =
    Some (JObj [("a\u0041", JArr [JNum "1"; JNum "-2.5e3"; JNull; JObj []])]) /\
  unquote "a\u0041\n\ud83d\ude00" = "aA" +:+ newline +:+ "😀" /\
  quote_json ("<a>" +:+ newline +:+ "é") = "\u003ca\u003e\né" /\
  parse_json "[1,]" = None /\ parse_json "01" = None.
Proof. vm_compute. done. Qed.
