(* ===== verification/Sha256.v ===== *)
(** * SHA-256 and its hexadecimal form: Go's [crypto/sha256] and [encoding/hex].

    Words are 32-bit integers; additions wrap. *)

From S2P Require Import Prelude GoStrings Regex.

Local Open Scope Z_scope.

Definition mask32 (x : Z) : Z := Z.land x 4294967295.
Definition add32 (x y : Z) : Z := mask32 (x + y).
Definition rotr (n x : Z) : Z := Z.lor (Z.shiftr x n) (mask32 (Z.shiftl x (32 - n))).
Definition xor3 (x y z : Z) : Z := Z.lxor x (Z.lxor y z).
Definition not32 (x : Z) : Z := Z.lxor x 4294967295.

(** The largest [r] below [2^36] with [r ^ e <= n]. *)
Definition int_root (e n : Z) : Z :=
  foldl (fun r i => let r' := r + 2 ^ Z.of_nat i in if r' ^ e <=? n then r' else r) 0 (rev (seq 0 36)).

Definition is_prime (n : nat) : bool :=
  forallb (fun d => negb (n mod d =? 0)%nat) (seq 2 (n - 2)).

(** The primes below 312: the first 64. *)
Definition primes : list Z := Z.of_nat <$> List.filter is_prime (seq 2 310).

(** The first 32 bits of the fractional parts of the cube roots of the primes, and of the
    square roots of the first eight. *)
Definition round_constants : list Z :=
  Eval vm_compute in (fun p => mask32 (int_root 3 (p * 2 ^ 96))) <$> primes.
Definition initial_hash : list Z :=
  Eval vm_compute in (fun p => mask32 (int_root 2 (p * 2 ^ 64))) <$> take 8 primes.

(** The message as bytes, with a one bit, zeros to 56 modulo 64, and its length in bits
    as eight bytes. *)
Definition pad (msg : list Z) : list Z :=
  let n := Z.of_nat (length msg) in
  msg ++ 128 :: replicate (Z.to_nat ((55 - n) mod 64)) 0 ++
  map (fun i => Z.land (Z.shiftr (n * 8) (8 * Z.of_nat i)) 255) [7; 6; 5; 4; 3; 2; 1; 0]%nat.

(** Big-endian words. *)
Fixpoint words (bytes : list Z) : list Z :=
  match bytes with
  | a :: b :: c :: d :: rest => (((a * 256 + b) * 256 + c) * 256 + d) :: words rest
  | _ => []
  end.

(** The message schedule, the latest word first. *)
Fixpoint schedule (n : nat) (ws : list Z) : list Z :=
  match n with
  | 0%nat => ws
  | S n =>
      let w2 := nth 1 ws 0 in let w7 := nth 6 ws 0 in
      let w15 := nth 14 ws 0 in let w16 := nth 15 ws 0 in
      let s0 := xor3 (rotr 7 w15) (rotr 18 w15) (Z.shiftr w15 3) in
      let s1 := xor3 (rotr 17 w2) (rotr 19 w2) (Z.shiftr w2 10) in
      schedule n (add32 (add32 w16 s0) (add32 w7 s1) :: ws)
  end.

Definition sha_round (h : list Z) (kw : Z * Z) : list Z :=
  match h with
  | [a; b; c; d; e; f; g; hh] =>
      let s1 := xor3 (rotr 6 e) (rotr 11 e) (rotr 25 e) in
      let ch := Z.lxor (Z.land e f) (Z.land (not32 e) g) in
      let t1 := add32 (add32 hh s1) (add32 ch (add32 kw.1 kw.2)) in
      let s0 := xor3 (rotr 2 a) (rotr 13 a) (rotr 22 a) in
      let maj := xor3 (Z.land a b) (Z.land a c) (Z.land b c) in
      [add32 t1 (add32 s0 maj); a; b; c; add32 d t1; e; f; g]
  | _ => h
  end.

Definition sha_block (h : list Z) (block : list Z) : list Z :=
  zip_with add32 h (foldl sha_round h (zip round_constants (rev (schedule 48 (rev block))))).

Fixpoint blocks (fuel : nat) (ws : list Z) : list (list Z) :=
  match fuel, ws with
  | 0%nat, _ | _, [] => []
  | S fuel, _ => take 16 ws :: blocks fuel (drop 16 ws)
  end.

Definition sha256 (msg : list Z) : list Z :=
  let ws := words (pad msg) in foldl sha_block initial_hash (blocks (length ws) ws).

(** The eight hexadecimal digits of a word. *)
Definition hex_word (w : Z) : string :=
  foldr (fun i acc => String (hex_digit (Z.to_N (Z.land (Z.shiftr w (4 * i)) 15))) acc) ""
    [7; 6; 5; 4; 3; 2; 1; 0].

(** [hex.EncodeToString] of the digest of a string. *)
Definition sha256_hex (s : string) : string :=
  Join (hex_word <$> sha256 (byte_of <$> String.list_ascii_of_string s)) "".

Example sha256_abc :
  sha256_hex "abc" = "ba7816bf8f01cfea414140de5dae2223b00361a396177a9cb410ff61f20015ad".
Proof. vm_compute. reflexivity. Qed.

Example sha256_two_blocks :
  sha256_hex "abcdbcdecdefdefgefghfghighijhijkijkljklmklmnlmnomnopnopq" =
  "248d6a61d20638b8e5c026930c3e6039a33ce45964ff2167f6ecedd419db06c1".
Proof. vm_compute. reflexivity. Qed.
