(* ===== verification/Citelock.v ===== *)
(** * The citation gate: [internal/citelock/citelock.go].

    [Verify] reads a lock file and the snapshots it pins; [Capture] fetches a source, pins
    it and records it.  The network is a record of answers; the file tree, the clock and
    the messages reported are explicit. *)

From S2P Require Import Prelude GoStrings GoUrl GoTime Regex Json Sha256 Files.

(** ** Records *)

(** [internal/citelock/citelock.go:73-82] Record *)
Record CiteRecord := {
  rec_ID : string; rec_Source : string; rec_Accessed : string; rec_ClaimClass : string;
  rec_Quote : string; rec_Snapshot : string; rec_SHA256 : string; rec_DOI : string;
}.

(** [internal/citelock/citelock.go:43-43] lockfileName *)
Definition lockfileName : string := "citations.lock".
(** [internal/citelock/citelock.go:44-44] snapDirName *)
Definition snapDirName : string := "citations".
(** [internal/citelock/citelock.go:48-48] fetchLimit: bytes *)
Definition fetchLimit : N := 8388608.

(** [internal/citelock/citelock.go:119-119] lockPath *)
Definition lockPath (dir : string) : string := PathJoin dir lockfileName.

(** [internal/citelock/citelock.go:123-134] freshnessDays *)
Definition freshnessDays (class : string) : Z :=
  if String.eqb class "pricing" || String.eqb class "availability" then 30
  else if String.eqb class "api" then 90
  else if String.eqb class "paper" then 0
  else 180.

(** [internal/citelock/citelock.go:204-208] verifyRecord: [json.Unmarshal] into a [Record];
    [None] for an error *)
Definition decode_record (raw : json) : option CiteRecord :=
  ms ← members_of raw;
  let f name := string_field name ms in
  if forallb (fun name => (f name).2)
       ["id"; "source"; "accessed"; "claim_class"; "quote"; "snapshot"; "sha256"; "doi"]
  then Some {| rec_ID := (f "id").1; rec_Source := (f "source").1; rec_Accessed := (f "accessed").1;
               rec_ClaimClass := (f "claim_class").1; rec_Quote := (f "quote").1;
               rec_Snapshot := (f "snapshot").1; rec_SHA256 := (f "sha256").1;
               rec_DOI := (f "doi").1 |}
  else None.

(** [internal/citelock/citelock.go:694-697] RecordIDs: the [id] of a record, decoded on its own *)
Definition decode_id (raw : json) : option string :=
  ms ← members_of raw; let '(id, ok) := string_field "id" ms in if ok : bool then Some id else None.

(** [internal/citelock/citelock.go:161-164] readLock: [json.Unmarshal] into a [lockfile]; the
    last array of a [records] member *)
Definition decode_lockfile (doc : json) : option (list json) :=
  ms ← members_of doc;
  let vs := field "records" ms in
  if forallb (fun v => match v with JArr _ | JNull => true | _ => false end) vs
  then Some (match last vs with Some (JArr l) => l | _ => [] end) else None.

(** [internal/citelock/citelock.go:156-166] readLock *)
Definition readLock (t : tree) (path : string) : result (list json) :=
  match ReadFile t path with
  | None => Err "reading lockfile"
  | Some data =>
      match parse_json data with
      | Some doc => match decode_lockfile doc with
                    | Some records => Ok records
                    | None => Err "parsing lockfile"
                    end
      | None => Err "parsing lockfile"
      end
  end.

(** ** The offline gate *)

(** [internal/citelock/citelock.go:136-143] sha256File *)
Definition sha256File (t : tree) (path : string) : result string :=
  match ReadFile t path with
  | None => Err "reading snapshot"
  | Some data => Ok (sha256_hex data)
  end.

(** [internal/citelock/citelock.go:148-154] anchored *)
Definition anchored (t : tree) (path quote : string) : result bool :=
  match ReadFile t path with
  | None => Err "reading snapshot"
  | Some data => Ok (Contains data quote)
  end.

(** [internal/citelock/citelock.go:290-303] resolveInside *)
Definition resolveInside (t : tree) (base rel : string) : result string :=
  if IsAbs rel then Err ("invalid citation record: absolute snapshot path: " +:+ rel)
  else
    let absBase := Abs t base in
    let joined := PathJoin absBase rel in
    if negb (String.eqb joined absBase) && negb (HasPrefix joined (absBase +:+ "/"))
    then Err ("invalid citation record: snapshot path escapes " +:+ base +:+ ": " +:+ rel)
    else Ok joined.

(** [internal/citelock/citelock.go:251-254] verifyRecord: the digest that the provenance file
    records; empty when there is none to read *)
Definition provenance_sha (t : tree) (prov : string) : string :=
  match ReadFile t prov with
  | Some data => match parse_json data with
                 | Some doc => match members_of doc with
                               | Some ms => (string_field "sha256" ms).1
                               | None => ""
                               end
                 | None => ""
                 end
  | None => ""
  end.

Section gate.
Context (t : tree) (ck : clock).

(** [internal/citelock/citelock.go:271-286] verifyRecord: freshness *)
Definition check_fresh (id : string) (rec : CiteRecord) : bool * list string :=
  let maxDays := freshnessDays (rec_ClaimClass rec) in
  if (maxDays <=? 0)%Z then (true, [])
  else match parse_date (rec_Accessed rec) with
  | None => (false, ["[" +:+ id +:+ "] freshness: unparseable accessed date " +:+
                     Quote (rec_Accessed rec)])
  | Some day =>
      let ageDays := age_days ck day in
      if (maxDays <? ageDays)%Z then
        (false, ["[" +:+ id +:+ "] stale: " +:+ rec_ClaimClass rec +:+ " claim accessed " +:+
                 Itoa ageDays +:+ " days ago, limit is " +:+ Itoa maxDays +:+
                 ". Run `uncworks cite recheck`"])
      else (true, [])
  end.

(** [internal/citelock/citelock.go:228-286] verifyRecord: the snapshot at [snapFile] *)
Definition check_snapshot (id : string) (rec : CiteRecord) (snapFile : string) : bool * list string :=
  let prov := snapFile +:+ ".prov.json" in
  if negb (exists_ t snapFile) then (false, ["[" +:+ id +:+ "] snapshot missing: " +:+ snapFile])
  else if negb (exists_ t prov) then
    (false, ["[" +:+ id +:+ "] no capture provenance beside the snapshot. A hand-written " +:+
             "snapshot is rejected: re-run `uncworks cite capture`"])
  else match sha256File t snapFile with
  | Err _ => (false, ["[" +:+ id +:+ "] integrity: could not hash " +:+ snapFile])
  | Ok actual =>
      if negb (String.eqb actual (rec_SHA256 rec)) then
        (false, ["[" +:+ id +:+ "] integrity: snapshot sha256 mismatch. Recorded " +:+
                 rec_SHA256 rec +:+ ", actual " +:+ actual])
      else if negb (String.eqb (provenance_sha t prov) (rec_SHA256 rec)) then
        (false, ["[" +:+ id +:+ "] integrity: provenance sha256 does not match the record"])
      else match anchored t snapFile (rec_Quote rec) with
      | Err e => (false, ["[" +:+ id +:+ "] unanchored: could not read the snapshot: " +:+ e])
      | Ok false =>
          (false, ["[" +:+ id +:+ "] unanchored: the verbatim quote is not in the snapshot. " +:+
                   "Either the quote was paraphrased or the wrong page was cited"])
      | Ok true => check_fresh id rec
      end
  end.

(** [internal/citelock/citelock.go:214-219] verifyRecord: a required field is missing *)
Definition missing_field (rec : CiteRecord) : bool :=
  String.eqb (rec_Source rec) "" || String.eqb (rec_Quote rec) "" ||
  String.eqb (rec_Snapshot rec) "" || String.eqb (rec_SHA256 rec) "" ||
  String.eqb (rec_Accessed rec) "" || String.eqb (rec_ClaimClass rec) "".

(** [internal/citelock/citelock.go:203-287] verifyRecord: the verdict and the lines reported *)
Definition verifyRecord (raw : json) (lockdir : string) : bool * list string :=
  match decode_record raw with
  | None => (false, ["[?] format: record is not an object"])
  | Some rec =>
      let id := if String.eqb (rec_ID rec) "" then "?" else rec_ID rec in
      if missing_field rec then
        (false, ["[" +:+ id +:+ "] format: missing a required field. Every record needs " +:+
                 "id, source, accessed, claim_class, quote, snapshot, and sha256"])
      else match resolveInside t lockdir (rec_Snapshot rec) with
      | Err _ => (false, ["[" +:+ id +:+ "] snapshot path escapes the lock directory: " +:+
                          rec_Snapshot rec])
      | Ok snapFile => check_snapshot id rec snapFile
      end
  end.

(** [internal/citelock/citelock.go:173-201] Verify *)
Definition Verify (lockdir : string) : result unit * list string :=
  let lock := lockPath lockdir in
  if negb (exists_ t lock) then
    (Ok tt, ["no " +:+ lockfileName +:+ " in " +:+ lockdir +:+ ", nothing to verify"])
  else match readLock t lock with
  | Err e => (Err ("could not read " +:+ lock +:+ ": " +:+ e), [])
  | Ok records =>
      let verdicts := (fun raw => verifyRecord raw lockdir) <$> records in
      let failed := length (List.filter (fun v => negb v.1) verdicts) in
      let reports := verdicts ≫= snd in
      if 0 <? failed then
        (Err ("citation gate failed: " +:+ Itoa (Z.of_nat failed) +:+ " of " +:+
              Itoa (Z.of_nat (length records)) +:+ " records failed in " +:+ lock), reports)
      else (Ok tt, reports ++ ["offline gate passed: " +:+ lock +:+ " (" +:+
                               Itoa (Z.of_nat (length records)) +:+ " records)"])
  end.
End gate.

(** [internal/citelock/citelock.go:683-702] RecordIDs *)
Definition RecordIDs (t : tree) (lockdir : string) : result (list string) :=
  let lock := lockPath lockdir in
  if negb (exists_ t lock) then Ok []
  else match readLock t lock with
  | Err e => Err e
  | Ok records =>
      Ok (omap (fun raw => match decode_id raw with
                           | Some id => if String.eqb id "" then None else Some id
                           | None => None
                           end) records)
  end.

(** [internal/citelock/citelock.go:661-680] CitedIDs: the search from a position; every round
    moves past an opening *)
Fixpoint cited_fuel (fuel : nat) (text : string) : list string :=
  match fuel with
  | 0 => []
  | S fuel =>
      match Index text "[cite: " with
      | None => []
      | Some start =>
          let text := str_drop (start + 7) text in
          match Index text "]" with
          | None => []
          | Some end_ =>
              let id := TrimSpace (str_take end_ text) in
              (if String.eqb id "" then [] else [id]) ++ cited_fuel fuel (str_drop end_ text)
          end
      end
  end.

(** [internal/citelock/citelock.go:661-680] CitedIDs *)
Definition CitedIDs (text : string) : list string := cited_fuel (S (String.length text)) text.

(** ** What the gate accepts *)

(** A record that passes: a complete record, whose snapshot is inside the lock directory,
    is the file that was hashed at capture, has a provenance file with the same digest,
    contains the quote verbatim, and is not older than its class allows. *)
Definition record_ok (t : tree) (ck : clock) (lockdir : string) (raw : json) : Prop :=
  exists rec snapFile data,
    decode_record raw = Some rec /\
    (rec_Source rec <> "" /\ rec_Quote rec <> "" /\ rec_Snapshot rec <> "" /\
     rec_SHA256 rec <> "" /\ rec_Accessed rec <> "" /\ rec_ClaimClass rec <> "") /\
    resolveInside t lockdir (rec_Snapshot rec) = Ok snapFile /\
    ReadFile t snapFile = Some data /\
    sha256_hex data = rec_SHA256 rec /\
    provenance_sha t (snapFile +:+ ".prov.json") = rec_SHA256 rec /\
    (exists a b, data = a +:+ rec_Quote rec +:+ b) /\
    ((freshnessDays (rec_ClaimClass rec) <= 0)%Z \/
     exists day, parse_date (rec_Accessed rec) = Some day /\
                 (age_days ck day <= freshnessDays (rec_ClaimClass rec))%Z).

Lemma missing_field_false rec :
  missing_field rec = false <->
  rec_Source rec <> "" /\ rec_Quote rec <> "" /\ rec_Snapshot rec <> "" /\
  rec_SHA256 rec <> "" /\ rec_Accessed rec <> "" /\ rec_ClaimClass rec <> "".
Proof. unfold missing_field. rewrite !orb_false_iff, !String.eqb_neq. tauto. Qed.

Lemma check_fresh_true ck id rec :
  (check_fresh ck id rec).1 = true <->
  (freshnessDays (rec_ClaimClass rec) <= 0)%Z \/
  exists day, parse_date (rec_Accessed rec) = Some day /\
              (age_days ck day <= freshnessDays (rec_ClaimClass rec))%Z.
Proof.
  unfold check_fresh. cbv zeta. destruct (Z.leb_spec (freshnessDays (rec_ClaimClass rec)) 0).
  { split; [by left|done]. }
  destruct (parse_date (rec_Accessed rec)) as [day|]; [|split; [done|intros [?|(? & ? & ?)]; [lia|done]]].
  destruct (Z.ltb_spec (freshnessDays (rec_ClaimClass rec)) (age_days ck day)); simpl.
  - split; [done|]. intros [?|(d & [= <-] & ?)]; lia.
  - split; [|done]. intros _. right. by exists day.
Qed.

(** Without a provenance file there is no digest to match a record's. *)
Lemma provenance_exists t prov : provenance_sha t prov <> "" -> exists_ t prov = true.
Proof.
  unfold provenance_sha, ReadFile, exists_. intros H. apply bool_decide_eq_true.
  destruct (Stat t prov); [by eexists|done].
Qed.

Lemma check_snapshot_true t ck id rec snapFile :
  rec_SHA256 rec <> "" ->
  (check_snapshot t ck id rec snapFile).1 = true <->
  exists data, ReadFile t snapFile = Some data /\ sha256_hex data = rec_SHA256 rec /\
    provenance_sha t (snapFile +:+ ".prov.json") = rec_SHA256 rec /\
    (exists a b, data = a +:+ rec_Quote rec +:+ b) /\ (check_fresh ck id rec).1 = true.
Proof.
  intros Hsum. unfold check_snapshot, sha256File, anchored. set (prov := snapFile +:+ ".prov.json").
  assert (forall data, ReadFile t snapFile = Some data -> exists_ t snapFile = true) as Hex.
  { unfold ReadFile, exists_. intros data Hd. apply bool_decide_eq_true.
    destruct (Stat t snapFile); [by eexists|done]. }
  destruct (ReadFile t snapFile) as [data|]; cycle 1.
  { split; [|by intros (? & ? & _)]. by repeat case_match. }
  rewrite (Hex data eq_refl). cbn [negb]. split.
  - destruct (exists_ t prov); [|done]. cbn [negb].
    destruct (String.eqb_spec (sha256_hex data) (rec_SHA256 rec)) as [Hs|]; [|done]. cbn [negb].
    destruct (String.eqb_spec (provenance_sha t prov) (rec_SHA256 rec)) as [Hp|]; [|done]. cbn [negb].
    destruct (Contains data (rec_Quote rec)) eqn:Hc; [|done]. apply Contains_spec in Hc.
    intros Hf. by exists data.
  - intros (d & [= <-] & Hs & Hp & Hc & Hf). apply Contains_spec in Hc.
    rewrite provenance_exists by congruence. rewrite Hs, Hp, Hc, !String.eqb_refl. done.
Qed.

Lemma verifyRecord_true t ck lockdir raw :
  (verifyRecord t ck raw lockdir).1 = true <-> record_ok t ck lockdir raw.
Proof.
  unfold verifyRecord, record_ok. destruct (decode_record raw) as [rec|].
  2: { split; [done|]. by intros (? & ? & ? & ? & _). }
  pose proof (missing_field_false rec) as Hm. destruct (missing_field rec) eqn:Em.
  { split; [done|]. intros (r & f & d & [= <-] & H & _). by apply Hm in H. }
  assert (rec_SHA256 rec <> "") as Hsum by (apply Hm; done).
  destruct (resolveInside t lockdir (rec_Snapshot rec)) as [snapFile|e] eqn:Er.
  - rewrite check_snapshot_true by done. setoid_rewrite check_fresh_true. split.
    + intros (data & ? & ? & ? & ? & ?). exists rec, snapFile, data.
      split; [done|]. split; [by apply Hm|]. by split_and!.
    + intros (r & f & d & [= <-] & _ & Hr & ? & ? & ? & ? & ?).
      rewrite Er in Hr. injection Hr as <-. by exists d.
  - split; [done|]. intros (r & f & d & [= <-] & _ & Hr & _). by rewrite Er in Hr.
Qed.

(** The offline gate accepts a lock directory exactly when there is no lock file, or the
    lock file can be read and every record in it passes: complete, pinned to a file inside
    the lock directory whose digest and provenance match, anchored by a verbatim quote, and
    fresh. *)
Theorem Verify_accepts (t : tree) (ck : clock) (lockdir : string) :
  (Verify t ck lockdir).1 = Ok tt <->
  exists_ t (lockPath lockdir) = false \/
  exists records, readLock t (lockPath lockdir) = Ok records /\
                  Forall (record_ok t ck lockdir) records.
Proof.
  unfold Verify. destruct (exists_ t (lockPath lockdir)) eqn:Hex; cbn [negb].
  2: { split; [by left|done]. }
  destruct (readLock t (lockPath lockdir)) as [records|e]; cycle 1.
  { split; [done|]. by intros [?|(? & ? & _)]. }
  set (vs := (fun raw => verifyRecord t ck raw lockdir) <$> records).
  assert (length (List.filter (fun v => negb v.1) vs) = 0 <-> Forall (record_ok t ck lockdir) records) as Hf.
  { unfold vs. clear. induction records as [|raw rest IH]; [by split|].
    rewrite Forall_cons, <- IH, <- verifyRecord_true. simpl.
    destruct (verifyRecord t ck raw lockdir).1; simpl; naive_solver lia. }
  destruct (Nat.ltb_spec 0 (length (List.filter (fun v => negb v.1) vs))); simpl.
  - split; [done|]. intros [?|(r & [= <-] & H')]; [done|]. apply Hf in H'. lia.
  - split; [|done]. intros _. right. exists records. split; [done|]. apply Hf. lia.
Qed.

(** ** Confinement *)

(** A snapshot path never leaves the lock directory, however the record spells it: what
    [resolveInside] returns is the absolute lock directory or a path below it, as a list of
    segments none of which is [..]. *)
Theorem resolveInside_confined (t : tree) (base rel path : string)
    (Hcwd : IsAbs (tr_cwd t) = true) (Hpath : resolveInside t base rel = Ok path) :
  (path = Abs t base \/ exists below, path = Abs t base +:+ "/" +:+ below) /\
  exists segs, path = "/" +:+ Join segs "/" /\ Forall (.≠ "..") segs.
Proof.
  unfold resolveInside in Hpath. destruct (IsAbs rel); [done|]. cbv zeta in Hpath.
  destruct (_ && _) eqn:Hc; [done|]. injection Hpath as <-. split.
  - apply andb_false_iff in Hc as [Hc|Hc]; apply negb_false_iff in Hc.
    + left. by apply String.eqb_eq.
    + right. apply HasPrefix_spec in Hc as [below Hb]. exists below. by rewrite Hb, str_app_assoc.
  - destruct (Abs_rooted t base Hcwd) as [s Hs]. rewrite Hs. unfold PathJoin.
    destruct rel as [|c rel]; apply (Clean_segs _).
Qed.

Lemma resolveInside_confined_witness :
  let t := tree_of "/repo" [("docs/citations.lock", "{}")] in
  resolveInside t "docs" "./a/../citations/x.snapshot" = Ok "/repo/docs/citations/x.snapshot" /\
  (("/repo/docs/citations/x.snapshot" = Abs t "docs" \/
    exists below, "/repo/docs/citations/x.snapshot" = Abs t "docs" +:+ "/" +:+ below) /\
   exists segs, "/repo/docs/citations/x.snapshot" = "/" +:+ Join segs "/" /\ Forall (.≠ "..") segs).
Proof.
  split; [by vm_compute|].
  apply (resolveInside_confined (tree_of "/repo" [("docs/citations.lock", "{}")]) "docs"
           "./a/../citations/x.snapshot"); by vm_compute.
Defined.
