(* ===== verification/CiteCapture.v ===== *)
(** * Capturing a citation, and the store of the records:
    [internal/citelock/citelock.go] and [internal/citelock/store.go].

    The network answers DNS queries and HTTP requests; two queries for the same name may
    be answered differently. *)

From S2P Require Import Prelude GoStrings GoUrl GoTime Regex Json Sha256 Files Citelock.

(** ** Sources that are refused *)

(** [internal/citelock/citelock.go:310-333] assertSafeURL *)
Definition assertSafeURL (raw : string) : result unit :=
  match url_Parse raw with
  | Err e => Err ("could not parse URL " +:+ Quote raw +:+ ": " +:+ e)
  | Ok parsed =>
      if negb (String.eqb (u_Scheme parsed) "https") then
        Err ("unsafe citation source: refusing non-https source: " +:+ raw)
      else
        let host := Hostname parsed in
        if String.eqb host "" then
          Err ("unsafe citation source: could not parse a host from " +:+ raw)
        else if String.eqb host "localhost" || HasSuffix host ".localhost" then
          Err ("unsafe citation source: refusing loopback host: " +:+ host)
        else if String.eqb host "metadata.google.internal" || HasSuffix host ".internal" then
          Err ("unsafe citation source: refusing internal metadata host: " +:+ host)
        else match ParseIP host with
        | Some _ => Err ("unsafe citation source: refusing literal-IP host, cite a DNS name: " +:+ host)
        | None => Ok tt
        end
  end.

(** [internal/citelock/citelock.go:346-349] unsafeAddr *)
Definition unsafeAddr (ip : list Z) : bool :=
  IsLoopback ip || IsPrivate ip || IsLinkLocalUnicast ip || IsLinkLocalMulticast ip ||
  IsUnspecified ip || IsMulticast ip.

(** ** Fetching *)

Inductive reply :=
| Answer (status : Z) (body : string)
| Redirect (url : string)
| NoReply.

(** What the network answers: the [n]-th DNS query, whether an address accepts a
    connection, and the request at an address. *)
Record network := {
  nw_lookup : nat -> string -> option (list (list Z));
  nw_accepts : list Z -> bool;
  nw_reply : list Z -> string -> reply;
}.

(** The first [n] bytes. *)
Fixpoint str_take_N (n : N) (s : string) : string :=
  match s with
  | String c s => if (n =? 0)%N then "" else String c (str_take_N (N.pred n) s)
  | "" => ""
  end.

Section network.
Context (nw : network).

(** [internal/citelock/citelock.go:356-376] safeClient: DialContext.  The name is resolved, and
    the addresses checked; [dialer.DialContext] then resolves the name on its own.  [n] is
    the number of DNS queries made before. *)
Definition dial (n : nat) (host : string) : result (list Z) :=
  match nw_lookup nw n host with
  | None => Err ("resolving " +:+ host)
  | Some ips =>
      if existsb unsafeAddr ips then
        Err ("unsafe citation source: refusing to connect to " +:+ host)
      else match nw_lookup nw (S n) host with
      | None => Err ("dialing " +:+ host)
      | Some ips' => match List.find (nw_accepts nw) ips' with
                     | Some ip => Ok ip
                     | None => Err ("dialing " +:+ host)
                     end
      end
  end.

(** [internal/citelock/citelock.go:390-413] fetch: the body and the status *)
Definition fetch (n : nat) (rawURL : string) : result (string * Z) :=
  match url_Parse rawURL with
  | Err _ => Err "building request"
  | Ok u =>
      match dial n (Hostname u) with
      | Err e => Err ("fetching " +:+ rawURL +:+ ": " +:+ e)
      | Ok ip =>
          match nw_reply nw ip rawURL with
          | NoReply => Err ("fetching " +:+ rawURL)
          | Redirect to_ => Err ("fetching " +:+ rawURL +:+
              ": unsafe citation source: refusing redirect to " +:+ to_ +:+ ", cite the final URL")
          | Answer status body =>
              if negb (status =? 200)%Z then
                Err ("could not fetch the source: " +:+ rawURL +:+ " returned status " +:+ Itoa status)
              else Ok (str_take_N fetchLimit body, status)
          end
      end
  end.
End network.

(** ** The store *)

(** [internal/citelock/citelock.go:608-615] upsert: the store's validator *)
Definition valid_store (data : string) : bool :=
  match parse_json data with
  | Some doc =>
      match members_of doc with
      | Some ms =>
          let vs := field "records" ms in
          forallb (fun v => match v with JArr _ | JNull => true | _ => false end) vs &&
          match last vs with Some (JArr _) => true | _ => false end
      | None => false
      end
  | None => false
  end.

(** [internal/citelock/citelock.go:616-618] upsert: the initial document *)
Definition initial_store : string :=
  "{" +:+ dquote +:+ "records" +:+ dquote +:+ ":[]}" +:+ newline.

(** [internal/citelock/store.go:37-37] lockPath: of the store *)
Definition storeLock (path : string) : string := path +:+ ".lock".

(** [internal/citelock/store.go:66-81] read *)
Definition store_read (t : tree) (path : string) : result string :=
  match Stat t path with
  | Some Directory => Err "reading store"
  | None | Some (File "") => Ok initial_store
  | Some (File data) => if valid_store data then Ok data
                        else Err ("store is not valid: " +:+ path)
  end.

(** [internal/citelock/store.go:84-116] publish: the new document replaces the old one in
    one step *)
Definition store_publish (t : tree) (path data : string) : tree * result unit :=
  if negb (valid_store data) then (t, Err "refusing to publish a malformed store")
  else match MkdirAll t (Dir path) with
  | Err e => (t, Err ("creating store directory: " +:+ e))
  | Ok t => match WriteFile t path data with
            | Ok t => (t, Ok tt)
            | Err e => (t, Err ("renaming temp file into place: " +:+ e))
            end
  end.

Definition string_member (name value : string) : string * json := (name, JStr (quote_json value)).

(** [internal/citelock/citelock.go:646-649] upsert: [json.Marshal] of a record; the DOI only
    when there is one *)
Definition record_json (rec : CiteRecord) : json :=
  JObj ([string_member "id" (rec_ID rec); string_member "source" (rec_Source rec);
         string_member "accessed" (rec_Accessed rec); string_member "claim_class" (rec_ClaimClass rec);
         string_member "quote" (rec_Quote rec); string_member "snapshot" (rec_Snapshot rec);
         string_member "sha256" (rec_SHA256 rec)] ++
        (if String.eqb (rec_DOI rec) "" then [] else [string_member "doi" (rec_DOI rec)])).

(** [internal/citelock/citelock.go:636-650] upsert: the records kept, and the new one *)
Definition upsert_records (records : list json) (rec : CiteRecord) : list json :=
  List.filter (fun raw => negb (bool_decide (decode_id raw = Some (rec_ID rec)))) records
  ++ [record_json rec].

(** [internal/citelock/citelock.go:631-657] upsert: the new document *)
Definition upsert_doc (data : string) (rec : CiteRecord) : option string :=
  doc ← parse_json data;
  records ← decode_lockfile doc;
  Some (print_json 0 (JObj [("records", JArr (upsert_records records rec))]) +:+ newline).

(** [internal/citelock/citelock.go:605-658] upsert: with the lock free or held by another
    process for as long as it is waited for *)
Definition upsert (t : tree) (lockdir : string) (rec : CiteRecord) : tree * result unit :=
  let path := lockPath lockdir in
  match MkdirAll t (Dir path) with
  | Err e => (t, Err ("creating store directory: " +:+ e))
  | Ok t =>
      if exists_ t (storeLock path) then
        (t, Err ("another process holds the store lock: " +:+ storeLock path))
      else
        let t := with_node t (storeLock path) Directory in
        let '(t, r) :=
          match store_read t path with
          | Err e => (t, Err e)
          | Ok data => match upsert_doc data rec with
                       | None => (t, Err "parsing lockfile")
                       | Some out => store_publish t path out
                       end
          end in
        (Remove t (storeLock path), r)
  end.

(** ** Capture *)

(** [internal/citelock/citelock.go:419-426] CaptureOptions *)
Record CaptureOptions := {
  co_URL : string; co_ID : string; co_Quote : string; co_ClaimClass : string;
  co_DOI : string; co_LockDir : string;
}.

(** [internal/citelock/citelock.go:86-91] provenance: as [json.Marshal] writes it *)
Definition provenance_json (url : string) (status : Z) (fetchedAt sum : string) : string :=
  let str s := dquote +:+ quote_json s +:+ dquote in
  "{" +:+ str "url" +:+ ":" +:+ str url +:+ "," +:+ str "http_status" +:+ ":" +:+ Itoa status +:+ "," +:+
  str "fetched_at" +:+ ":" +:+ str fetchedAt +:+ "," +:+ str "sha256" +:+ ":" +:+ str sum +:+ "}".

(** [path escape] of a DOI is part of the query to Crossref; what the service answers about
    it: nothing that can be read, or whether it lists a retraction. *)
Inductive crossref := CrossrefUnreachable | CrossrefUnparseable | CrossrefUpdates (types : list string).

Record environment := {
  ev_network : network;
  ev_clock : clock;
  ev_rfc3339 : string;
  ev_offline : bool;
  ev_crossref : string -> crossref;
}.

Section capture.
Context (ev : environment).

(** [internal/citelock/citelock.go:512-551] liveChecks: the verdict and the lines reported *)
Definition liveChecks (doi : string) : result unit * list string :=
  if ev_offline ev then (Ok tt, ["CITELOCK_OFFLINE=1, skipping the live checks"])
  else if String.eqb doi "" then (Ok tt, [])
  else if ContainsAny doi (" " +:+ String "009" newline +:+ dquote +:+ "'`;&|$") then
    (Err ("invalid citation record: refusing DOI with unexpected characters: " +:+ Quote doi), [])
  else match ev_crossref ev doi with
  | CrossrefUnreachable =>
      (Ok tt, ["live: could not reach Crossref for DOI " +:+ doi +:+ ", skipping the retraction check"])
  | CrossrefUnparseable => (Ok tt, ["live: Crossref returned an unparseable body for DOI " +:+ doi])
  | CrossrefUpdates types =>
      if existsb (String.eqb "retraction") types
      then (Err ("cited DOI is retracted: " +:+ doi), []) else (Ok tt, [])
  end.

Definition snapshotPath (id : string) : string := PathJoin snapDirName (id +:+ ".snapshot").

(** [internal/citelock/citelock.go:492-501] Capture: the record *)
Definition captured_record (o : CaptureOptions) (sum : string) : CiteRecord :=
  {| rec_ID := co_ID o; rec_Source := co_URL o; rec_Accessed := format_date (ck_today (ev_clock ev));
     rec_ClaimClass := co_ClaimClass o; rec_Quote := co_Quote o;
     rec_Snapshot := snapshotPath (co_ID o); rec_SHA256 := sum; rec_DOI := co_DOI o |}.

(** [internal/citelock/citelock.go:462-486] Capture: the snapshot and its provenance; the digest *)
Definition pin (t : tree) (o : CaptureOptions) (lockdir body : string) (status : Z)
  : tree * result string :=
  let snapFile := PathJoin lockdir (snapshotPath (co_ID o)) in
  match MkdirAll t (Dir snapFile) with
  | Err e => (t, Err ("creating snapshot directory: " +:+ e))
  | Ok t =>
      match WriteFile t snapFile body with
      | Err e => (t, Err ("writing snapshot: " +:+ e))
      | Ok t =>
          match sha256File t snapFile with
          | Err e => (t, Err e)
          | Ok sum =>
              match WriteFile t (snapFile +:+ ".prov.json")
                      (provenance_json (co_URL o) status (ev_rfc3339 ev) sum +:+ newline) with
              | Err e => (t, Err ("writing provenance: " +:+ e))
              | Ok t => (t, Ok sum)
              end
          end
      end
  end.

(** [internal/citelock/citelock.go:438-446] Capture: the options that are refused before anything
    is fetched *)
Definition check_options (o : CaptureOptions) : result unit :=
  if String.eqb (co_ID o) "" || String.eqb (co_Quote o) "" || String.eqb (co_ClaimClass o) "" then
    Err "invalid citation record: capture needs --id, --quote, and --class"
  else if ContainsAny (co_ID o) "/\" || String.eqb (co_ID o) "." || String.eqb (co_ID o) ".." then
    Err ("invalid citation record: invalid claim id " +:+ Quote (co_ID o) +:+
         ", because it becomes a filename")
  else assertSafeURL (co_URL o).

(** [internal/citelock/citelock.go:434-506] Capture *)
Definition Capture (t : tree) (o : CaptureOptions) : tree * result unit :=
  match check_options o with
  | Err e => (t, Err e)
  | Ok _ =>
      let lockdir := if String.eqb (co_LockDir o) "" then "." else co_LockDir o in
      match fetch (ev_network ev) 0 (co_URL o) with
      | Err e => (t, Err ("capture: " +:+ e))
      | Ok (body, status) =>
          if negb (Contains body (co_Quote o)) then
            (t, Err ("quote does not anchor in the source: the quote for [" +:+ co_ID o +:+
                     "] is not in the fetched bytes"))
          else match pin t o lockdir body status with
          | (t, Err e) => (t, Err e)
          | (t, Ok sum) =>
              match (liveChecks (co_DOI o)).1 with
              | Err e => (t, Err ("capture: live check failed for [" +:+ co_ID o +:+ "]: " +:+ e))
              | Ok _ => upsert t lockdir (captured_record o sum)
              end
          end
      end
  end.

(** [internal/citelock/citelock.go:572-595] Recheck: one record; whether it failed, the lines
    reported, and whether the loop ends there *)
Definition recheck_record (n : nat) (raw : json) : bool * list string * bool :=
  match decode_record raw with
  | None => (true, ["[?] recheck: record is not an object"], false)
  | Some rec =>
      match assertSafeURL (rec_Source rec) with
      | Err e => (true, ["[" +:+ rec_ID rec +:+ "] recheck: " +:+ e], false)
      | Ok _ =>
          if ev_offline ev then (false, ["CITELOCK_OFFLINE=1, skipping the live checks"], true)
          else match fetch (ev_network ev) n (rec_Source rec) with
          | Err e => (true, ["[" +:+ rec_ID rec +:+ "] recheck: source no longer resolves: " +:+ e], false)
          | Ok _ =>
              match liveChecks (rec_DOI rec) with
              | (Err e, lines) => (true, lines ++ ["[" +:+ rec_ID rec +:+ "] recheck: " +:+ e], false)
              | (Ok _, lines) => (false, lines, false)
              end
          end
      end
  end.

(** [internal/citelock/citelock.go:570-601] Recheck: the loop, with the number of DNS queries made *)
Fixpoint recheck_all (n failed : nat) (lock : string) (records : list json)
  : result unit * list string :=
  match records with
  | [] =>
      if 0 <? failed then
        (Err ("citation gate failed: " +:+ Itoa (Z.of_nat failed) +:+
              " records no longer check out in " +:+ lock), [])
      else (Ok tt, ["recheck passed: " +:+ lock])
  | raw :: rest =>
      let '(bad, lines, stop) := recheck_record n raw in
      if stop then (Ok tt, lines)
      else let '(r, more) := recheck_all (n + 2) (failed + if bad then 1 else 0) lock rest in
           (r, lines ++ more)
  end.

(** [internal/citelock/citelock.go:556-602] Recheck *)
Definition Recheck (t : tree) (lockdir : string) : result unit * list string :=
  let lock := lockPath lockdir in
  if negb (exists_ t lock) then
    (Ok tt, ["no " +:+ lockfileName +:+ " in " +:+ lockdir +:+ ", nothing to recheck"])
  else match readLock t lock with
  | Err e => (Err ("could not read " +:+ lock +:+ ": " +:+ e), [])
  | Ok records => recheck_all 0 0 lock records
  end.
End capture.
