(* ===== verification/SpecParse.v ===== *)
(** * Reading a change directory: [internal/specutil/parse.go].

    The markdown of a change's artifacts is split into lines and read line by line;
    fenced code blocks are opaque.  One definition per function, the loops as folds
    over the numbered lines, with the state of the loop as a record. *)

From S2P Require Import Prelude GoStrings Regex Files.

(** ** Data *)

(** [internal/specutil/parse.go:39-44] Section *)
Record MDSection := {
  sec_Heading : string; sec_Level : nat; sec_Line : nat; sec_Body : list string;
}.

(** [internal/specutil/parse.go:28-35] Artifact *)
Record Artifact := {
  art_ID : string; art_Path : string; art_Text : string; art_Sections : list MDSection;
}.

(** [internal/specutil/parse.go:56-65] Task: less [Artifact], which nothing sets *)
Record Task := {
  tk_ID : string; tk_Text : string; tk_Done : bool; tk_Line : nat;
  tk_Deps : list string; tk_Writes : list string;
}.

(** [internal/specutil/parse.go:47-53] Phase *)
Record Phase := {
  ph_Number : Z; ph_Name : string; ph_Line : nat;
  ph_Markers : gmap string string; ph_Tasks : list Task;
}.

(** [internal/specutil/parse.go:20-25] Change *)
Record Change := {
  ch_Name : string; ch_Dir : string; ch_Artifacts : gmap string Artifact;
  ch_Phases : list Phase;
}.

(** [internal/specutil/parse.go:76-87] Scenario *)
Record Scenario := { sc_Name : string; sc_Line : nat; sc_Polarity : string }.

(** [internal/specutil/parse.go:69-73] Requirement *)
Record Requirement := { rq_Name : string; rq_Line : nat; rq_Scenarios : list Scenario }.

(** [phase.Markers[k]]: the empty string when the marker is absent. *)
Definition marker (p : Phase) (k : string) : string := default "" (ph_Markers p !! k).

(** ** Expressions *)

Definition ws : regex := star (Cls space_class).
Definition ws1 : regex := plus (Cls space_class).
Definition digits1 : regex := plus (Cls digit_class).
Definition rest_of_line : regex := star Any.

(** [internal/specutil/parse.go:90-90] headingRE *)
Definition headingRE : regex :=
  cats [Bot; Group 1 (repeat_range 1 6 (chr "#")); ws1; Group 2 rest_of_line; Eot].
(** [internal/specutil/parse.go:91-91] phaseRE *)
Definition phaseRE : regex :=
  cats [Bot; lit "##"; ws1; Group 1 digits1; chr "."; ws; Group 2 rest_of_line; Eot].
(** [internal/specutil/parse.go:92-92] taskRE *)
Definition taskRE : regex :=
  cats [Bot; ws; chr "-"; ws1; chr "["; Group 1 (Cls (one_of " xX")); chr "]"; ws1;
        Group 2 rest_of_line; Eot].
(** [internal/specutil/parse.go:93-93] taskIDRE *)
Definition taskIDRE : regex :=
  cats [Bot; Group 1 (cats [digits1; chr "."; digits1]); ws1; Group 2 rest_of_line; Eot].
(** [internal/specutil/parse.go:94-94] markerRE *)
Definition markerRE : regex :=
  cats [Bot; ws; chr "-"; ws1; lit "**";
        Group 1 (Cat (Cls (range "A" "Z")) (star (Cls (fun c => range "A" "Z" c || is_char "-" c))));
        lit "**"; ws; Group 2 rest_of_line; Eot].
(** [internal/specutil/parse.go:97-97] fieldRE *)
Definition fieldRE : regex :=
  cats [chr "`"; Group 1 (alts [lit "deps"; lit "writes"]); lit ":`"; ws;
        Group 2 (star (Cls (fun c => negb (is_char "`" c))))].
(** [internal/specutil/parse.go:98-98] fenceRE *)
Definition fenceRE : regex := cats [Bot; ws; lit "```"].

(** The lines of a text with their numbers, from 1. *)
Definition numbered (text : string) : list (nat * string) :=
  imap (fun i line => (S i, line)) (Split text "010"%char).

(** ** Sections *)

(** The state of the loop: the sections so far, the last one first. *)
Record sections_state := { ss_sections : list MDSection; ss_inFence : bool }.

(** [internal/specutil/parse.go:185-187] parseSections: a line of the current section's body *)
Definition add_line (line : string) (sections : list MDSection) : list MDSection :=
  match sections with
  | [] => []
  | s :: rest => {| sec_Heading := sec_Heading s; sec_Level := sec_Level s;
                    sec_Line := sec_Line s; sec_Body := sec_Body s ++ [line] |} :: rest
  end.

(** [internal/specutil/parse.go:171-187] parseSections: one line *)
Definition section_line (st : sections_state) (l : nat * string) : sections_state :=
  let '(i, line) := l in
  let inFence := xorb (ss_inFence st) (MatchString fenceRE line) in
  match (if inFence then None else find headingRE line) with
  | Some m =>
      {| ss_sections := {| sec_Heading := TrimSpace line; sec_Level := String.length (group 1 m);
                           sec_Line := i; sec_Body := [] |} :: ss_sections st;
         ss_inFence := inFence |}
  | None => {| ss_sections := add_line line (ss_sections st); ss_inFence := inFence |}
  end.

(** [internal/specutil/parse.go:165-190] parseSections *)
Definition parseSections (text : string) : list MDSection :=
  rev (ss_sections (foldl section_line {| ss_sections := []; ss_inFence := false |} (numbered text))).

(** ** Tasks *)

(** [internal/specutil/parse.go:266-281] splitList *)
Definition splitList (raw : string) : list string :=
  let raw := TrimSpace raw in
  if String.eqb raw "" || EqualFold raw "none" then []
  else omap (fun field => let field := Trim field "`" in
                          if String.eqb field "" then None else Some field)
         (FieldsFunc (char_in (", " +:+ String "009" "")) raw).

(** The value of the first field of a line with this label. *)
Definition field_value (label : string) (ms : list found) : list string :=
  match List.find (fun m => String.eqb (group 1 m) label) ms with
  | Some m => splitList (group 2 m)
  | None => []
  end.

(** [internal/specutil/parse.go:236-261] parseTask *)
Definition parseTask (text : string) (done : bool) (line : nat) : Task :=
  let text := TrimSpace text in
  let fields := find_all fieldRE text in
  let body := TrimSpace (delete_all fieldRE text) in
  let '(id, body) := match find taskIDRE body with
                     | Some m => (group 1 m, TrimSpace (group 2 m))
                     | None => ("", body)
                     end in
  {| tk_ID := id; tk_Text := body; tk_Done := done; tk_Line := line;
     tk_Deps := field_value "deps" fields; tk_Writes := field_value "writes" fields |}.

(** ** Phases *)

Record phases_state := { ps_phases : list Phase; ps_inFence : bool }.

Definition with_tasks (p : Phase) (tasks : list Task) : Phase :=
  {| ph_Number := ph_Number p; ph_Name := ph_Name p; ph_Line := ph_Line p;
     ph_Markers := ph_Markers p; ph_Tasks := tasks |}.

Definition with_marker (p : Phase) (k v : string) : Phase :=
  {| ph_Number := ph_Number p; ph_Name := ph_Name p; ph_Line := ph_Line p;
     ph_Markers := <[k := v]> (ph_Markers p); ph_Tasks := ph_Tasks p |}.

(** The value [strconv.Atoi] returns for a string of digits, its error dropped: the
    largest [int] when the number is out of range. *)
Definition digits_value (s : string) : Z :=
  match digits_val 0 s with
  | Some v => if (v <=? int64_max)%Z then v else int64_max
  | None => 0
  end.

(** [internal/specutil/parse.go:223-231] parsePhases: a task or a marker of the current phase *)
Definition phase_item (i : nat) (line : string) (p : Phase) : Phase :=
  match find taskRE line with
  | Some m =>
      with_tasks p (ph_Tasks p ++ [parseTask (group 2 m) (negb (String.eqb (group 1 m) " ")) i])
  | None =>
      match find markerRE line with
      | Some m => with_marker p (ToLower (group 1 m)) (TrimSpace (group 2 m))
      | None => p
      end
  end.

(** [internal/specutil/parse.go:200-231] parsePhases: one line *)
Definition phase_line (st : phases_state) (l : nat * string) : phases_state :=
  let '(i, line) := l in
  if MatchString fenceRE line then
    {| ps_phases := ps_phases st; ps_inFence := negb (ps_inFence st) |}
  else if ps_inFence st then st
  else
    {| ps_phases :=
         match find phaseRE line with
         | Some m =>
             {| ph_Number := digits_value (group 1 m); ph_Name := TrimSpace (group 2 m);
                ph_Line := i; ph_Markers := ∅; ph_Tasks := [] |} :: ps_phases st
         | None =>
             match ps_phases st with
             | [] => []
             | p :: rest => phase_item i line p :: rest
             end
         end;
       ps_inFence := ps_inFence st |}.

(** [internal/specutil/parse.go:194-234] parsePhases *)
Definition parsePhases (text : string) : list Phase :=
  rev (ps_phases (foldl phase_line {| ps_phases := []; ps_inFence := false |} (numbered text))).

(** ** Requirements *)

(** The requirements so far, the last first and its scenarios the last first;
    whether the last scenario is still the current one. *)
Record reqs_state := {
  rs_reqs : list Requirement; rs_scenario : bool; rs_inFence : bool;
}.

Definition with_scenarios (r : Requirement) (l : list Scenario) : Requirement :=
  {| rq_Name := rq_Name r; rq_Line := rq_Line r; rq_Scenarios := l |}.

(** [internal/specutil/parse.go:314-316] ParseRequirements: the polarity of the last
    scenario *)
Definition set_polarity (v : string) (rs : list Requirement) : list Requirement :=
  match rs with
  | r :: rest =>
      match rq_Scenarios r with
      | s :: ss => with_scenarios r
                     ({| sc_Name := sc_Name s; sc_Line := sc_Line s; sc_Polarity := v |} :: ss) :: rest
      | [] => rs
      end
  | [] => []
  end.

(** [internal/specutil/parse.go:290-317] ParseRequirements: one line *)
Definition req_line (st : reqs_state) (l : nat * string) : reqs_state :=
  let '(i, line) := l in
  if MatchString fenceRE line then
    {| rs_reqs := rs_reqs st; rs_scenario := rs_scenario st; rs_inFence := negb (rs_inFence st) |}
  else if rs_inFence st then st
  else
    let trimmed := TrimSpace line in
    if HasPrefix trimmed "### Requirement:" then
      {| rs_reqs := {| rq_Name := TrimSpace (TrimPrefix trimmed "### Requirement:");
                       rq_Line := i; rq_Scenarios := [] |} :: rs_reqs st;
         rs_scenario := false; rs_inFence := rs_inFence st |}
    else match HasPrefix trimmed "#### Scenario:", rs_reqs st with
    | true, r :: rest =>
        {| rs_reqs := with_scenarios r
             ({| sc_Name := TrimSpace (TrimPrefix trimmed "#### Scenario:");
                 sc_Line := i; sc_Polarity := "" |} :: rq_Scenarios r) :: rest;
           rs_scenario := true; rs_inFence := rs_inFence st |}
    | _, _ =>
        if rs_scenario st then
          match find markerRE line with
          | Some m =>
              if String.eqb (group 1 m) "POLARITY" then
                {| rs_reqs := set_polarity (ToLower (TrimSpace (group 2 m))) (rs_reqs st);
                   rs_scenario := true; rs_inFence := rs_inFence st |}
              else st
          | None => st
          end
        else st
    end.

(** [internal/specutil/parse.go:284-320] ParseRequirements *)
Definition ParseRequirements (text : string) : list Requirement :=
  (fun r => with_scenarios r (rev (rq_Scenarios r))) <$>
  rev (rs_reqs (foldl req_line {| rs_reqs := []; rs_scenario := false; rs_inFence := false |}
                  (numbered text))).

(** ** Lookups *)

(** [internal/specutil/parse.go:323-333] Section *)
Definition Section_of (a : option Artifact) (heading : string) : option MDSection :=
  match a with
  | None => None
  | Some a => List.find (fun s => EqualFold (sec_Heading s) heading) (art_Sections a)
  end.

(** [internal/specutil/parse.go:343-357] Bullets: one line *)
Definition bullet_line (st : list string * bool) (line : string) : list string * bool :=
  let '(bullets, inFence) := st in
  if MatchString fenceRE line then (bullets, negb inFence)
  else if inFence then st
  else
    let trimmed := TrimLeft line (" " +:+ String "009" "") in
    if 1 <? String.length line - String.length trimmed then st
    else if HasPrefix trimmed "- " || HasPrefix trimmed "* "
    then (bullets ++ [TrimSpace (str_drop 2 trimmed)], inFence) else st.

(** [internal/specutil/parse.go:336-360] Bullets *)
Definition Bullets (s : option MDSection) : list string :=
  match s with
  | None => []
  | Some s => (foldl bullet_line ([], false) (sec_Body s)).1
  end.

(** [internal/specutil/parse.go:363-369] AllTasks *)
Definition AllTasks (c : Change) : list Task := ch_Phases c ≫= ph_Tasks.

(** ** Loading *)

(** [internal/specutil/parse.go:103-103] artifactNames: less the lockfile, which Load skips *)
Definition artifactNames : list string := ["proposal"; "design"; "tasks"; "review"].

(** [internal/specutil/parse.go:121-136] Load: one artifact *)
Definition load_artifact (t : tree) (dir name : string) : option Artifact :=
  let path := PathJoin dir (name +:+ ".md") in
  text ← ReadFile t path;
  Some {| art_ID := name; art_Path := path; art_Text := text; art_Sections := parseSections text |}.

(** [internal/specutil/parse.go:106-141] Load *)
Definition Load (t : tree) (dir : string) : result Change :=
  match Stat t dir with
  | None => Err ("reading change directory: stat " +:+ dir +:+ ": no such file or directory")
  | Some (File _) => Err ("not a change directory: " +:+ dir +:+ " is not a directory")
  | Some Directory =>
      let artifacts : gmap string Artifact :=
        list_to_map (omap (fun name => pair name <$> load_artifact t dir name) artifactNames) in
      Ok {| ch_Name := Base dir; ch_Dir := dir; ch_Artifacts := artifacts;
            ch_Phases := match artifacts !! "tasks" with
                         | Some tasks => parsePhases (art_Text tasks)
                         | None => []
                         end |}
  end.

(** [internal/specutil/parse.go:144-161] LoadAll *)
Definition LoadAll (t : tree) (changesDir : string) : result (list Change) :=
  match ReadDir t changesDir with
  | None => Err ("reading changes directory: " +:+ changesDir)
  | Some entries =>
      foldr (fun name (rest : result (list Change)) =>
        if negb (IsDir t (PathJoin changesDir name)) || String.eqb name "archive" then rest
        else match Load t (PathJoin changesDir name) with
             | Err e => Err e
             | Ok c => match rest with Ok cs => Ok (c :: cs) | Err e => Err e end
             end) (Ok []) entries
  end.

(** ** Sections tile the text *)

(** Consecutive sections cover the lines from the first heading to the end: each heading
    is a line, its body is the lines after it, and the next section begins right there. *)
Fixpoint tiles (lines : list string) (secs : list MDSection) : Prop :=
  match secs with
  | [] => True
  | s :: rest =>
      (exists line, lines !! (sec_Line s - 1) = Some line /\ sec_Heading s = TrimSpace line /\
                    is_Some (find headingRE line)) /\
      1 <= sec_Line s /\
      sec_Body s = take (length (sec_Body s)) (drop (sec_Line s) lines) /\
      sec_Line s + length (sec_Body s) =
        match rest with [] => length lines | s' :: _ => sec_Line s' - 1 end /\
      tiles lines rest
  end.

(** The same, for the sections read so far, the last first, after the lines [lines]. *)
Fixpoint tiled (lines : list string) (n : nat) (secs : list MDSection) : Prop :=
  match secs with
  | [] => True
  | s :: rest =>
      (exists line, lines !! (sec_Line s - 1) = Some line /\ sec_Heading s = TrimSpace line /\
                    is_Some (find headingRE line)) /\
      1 <= sec_Line s /\
      sec_Body s = take (length (sec_Body s)) (drop (sec_Line s) lines) /\
      sec_Line s + length (sec_Body s) = n /\
      tiled lines (sec_Line s - 1) rest
  end.

Lemma tiled_bound lines n secs : tiled lines n secs -> n <= length lines ->
  tiled lines n secs /\ forall s, s ∈ secs -> sec_Line s + length (sec_Body s) <= n.
Proof.
  intros H Hn. split; [done|]. revert n H Hn. induction secs as [|s rest IH]; intros n H Hn.
  - by intros s ?%elem_of_nil.
  - destruct H as (_ & H1 & _ & H2 & H3). intros s' [->|Hs]%elem_of_cons; [lia|].
    specialize (IH _ H3 ltac:(lia) s' Hs). lia.
Qed.

Lemma tiled_app lines more n secs : n <= length lines -> tiled lines n secs -> tiled (lines ++ more) n secs.
Proof.
  revert n. induction secs as [|s rest IH]; intros n Hn; [done|].
  intros ((line & Hl & Hh) & H1 & Hb & H2 & H3). split_and!.
  - exists line. split; [|done]. by apply lookup_app_l_Some.
  - done.
  - rewrite Hb at 1. rewrite drop_app_le by lia. rewrite take_app_le; [done|].
    rewrite length_drop. lia.
  - done.
  - apply IH; [lia|done].
Qed.

Lemma tiled_rev lines secs acc :
  tiled lines (match acc with [] => length lines | s :: _ => sec_Line s - 1 end) secs ->
  tiles lines acc -> tiles lines (rev_append secs acc).
Proof.
  revert acc. induction secs as [|s rest IH]; intros acc; [done|].
  intros (Hl & H1 & Hb & H2 & H3) Ha. simpl. apply IH; [done|]. by split_and!.
Qed.

Lemma section_line_tiled lines line st :
  tiled lines (length lines) (ss_sections st) ->
  tiled (lines ++ [line]) (S (length lines))
    (ss_sections (section_line st (S (length lines), line))).
Proof.
  intros H. unfold section_line. set (fence := xorb _ _).
  destruct (if fence then None else find headingRE line) as [m|] eqn:Em; cbn [ss_sections].
  - assert (is_Some (find headingRE line)) as Hm by (destruct fence; [done|]; by eexists).
    cbn [tiled sec_Line sec_Body sec_Heading length]. rewrite Nat.sub_succ, Nat.sub_0_r. split_and!.
    + exists line. rewrite lookup_app_r, Nat.sub_diag by lia. done.
    + lia.
    + done.
    + lia.
    + by apply tiled_app.
  - destruct (ss_sections st) as [|s rest]; [done|].
    destruct H as ((l & Hl & Hh) & H1 & Hb & H2 & H3). cbn [add_line tiled sec_Line sec_Body sec_Heading].
    rewrite length_app. cbn [length]. split_and!.
    + exists l. split; [|done]. by apply lookup_app_l_Some.
    + done.
    + rewrite Hb at 1. rewrite drop_app_le by lia.
      rewrite <- (firstn_all (drop (sec_Line s) lines)) at 1.
      rewrite length_drop. replace (length lines - sec_Line s) with (length (sec_Body s)) by lia.
      rewrite firstn_firstn, Nat.min_id.
      rewrite take_app_ge; rewrite length_drop; [|lia].
      replace (length (sec_Body s) + 1 - (length lines - sec_Line s)) with 1 by lia.
      simpl. f_equal. rewrite take_ge; [done|]. rewrite length_drop. lia.
    + lia.
    + apply tiled_app; [lia|done].
Qed.

Lemma numbered_snoc lines line :
  imap (fun i (l : string) => (S i, l)) (lines ++ [line]) =
  imap (fun i l => (S i, l)) lines ++ [(S (length lines), line)].
Proof. rewrite imap_app. simpl. by rewrite Nat.add_0_r. Qed.

(** [parseSections] loses nothing after the first heading: the sections it returns
    tile the lines of the text.  Each is a line that matches the heading expression,
    followed by the lines of its body, and the next section begins on the line after
    them; the last one ends with the text. *)
Theorem parseSections_tiles (text : string) :
  tiles (Split text "010"%char) (parseSections text).
Proof.
  unfold parseSections, numbered. rewrite rev_alt. apply tiled_rev; [|done].
  induction (Split text "010"%char) as [|line lines IH] using rev_ind; [done|].
  rewrite numbered_snoc, foldl_app, length_app, Nat.add_1_r. simpl.
  by apply section_line_tiled.
Qed.

(** A criterion under a subheading is not in the section's body. *)
Example subsection_ends_section :
  let text := Join ["## Behavior"; "### API"; "- it answers"] newline in
  let art := Some {| art_ID := "proposal"; art_Path := ""; art_Text := text;
                     art_Sections := parseSections text |} in
  Bullets (Section_of art "## Behavior") = [] /\
  Bullets (Section_of art "### API") = ["it answers"].
Proof. vm_compute. done. Qed.
