(* ===== verification/SpecGraph.v ===== *)
(** * What is runnable now: [internal/specutil/next.go], with the cycle search of
    [internal/specutil/check.go].

    The tasks of a phase declare a dependency graph.  [findCycle] searches it depth
    first; [Next] reports the tasks that can start. *)

From S2P Require Import Prelude GoStrings Regex Files SpecParse.

(** ** The cycle search *)

(** [internal/specutil/check.go:349-353] findCycle: unvisited, active and done *)
Inductive color := Unvisited | Active | Finished.

#[export] Instance color_eq_dec : EqDecision color.
Proof. solve_decision. Defined.

Record search_state := {
  fs_state : gmap string color; fs_path : list string; fs_cycle : list string;
}.

(** [state[id]]: unvisited when the map has no entry. *)
Definition color_of (st : search_state) (id : string) : color := default Unvisited (fs_state st !! id).

(** The index of an element. *)
Fixpoint index_of (x : string) (l : list string) : option nat :=
  match l with
  | [] => None
  | y :: l => if String.eqb y x then Some 0 else S <$> index_of x l
  end.

Section search.
Context (deps : gmap string (list string)).

(** [internal/specutil/check.go:359-360] findCycle: a node is entered *)
Definition enter (id : string) (st : search_state) : search_state :=
  {| fs_state := <[id := Active]> (fs_state st); fs_path := fs_path st ++ [id];
     fs_cycle := fs_cycle st |}.

(** [internal/specutil/check.go:380-381] findCycle: a node is left *)
Definition leave (id : string) (st : search_state) : search_state :=
  {| fs_state := <[id := Finished]> (fs_state st); fs_path := removelast (fs_path st);
     fs_cycle := fs_cycle st |}.

(** [internal/specutil/check.go:366-373] findCycle: a dependency that is active *)
Definition close_cycle (dep : string) (st : search_state) : search_state :=
  match index_of dep (fs_path st) with
  | Some i => {| fs_state := fs_state st; fs_path := fs_path st;
                 fs_cycle := drop i (fs_path st) ++ [dep] |}
  | None => st
  end.

(** [internal/specutil/check.go:361-382] findCycle: the dependencies of a node, with the
    function that walks an unvisited one *)
Fixpoint visit (rec : string -> search_state -> option (bool * search_state)) (id : string)
    (ds : list string) (st : search_state) : option (bool * search_state) :=
  match ds with
  | [] => Some (false, leave id st)
  | dep :: ds =>
      if bool_decide (is_Some (deps !! dep)) then
        match color_of st dep with
        | Active => Some (true, close_cycle dep st)
        | Unvisited =>
            match rec dep st with
            | Some (false, st') => visit rec id ds st'
            | r => r
            end
        | Finished => visit rec id ds st
        end
      else visit rec id ds st
  end.

(** [internal/specutil/check.go:357-383] findCycle: walk.  [None] when the fuel is out;
    the recursion never goes deeper than there are nodes. *)
Fixpoint walk (fuel : nat) (id : string) (st : search_state) : option (bool * search_state) :=
  match fuel with
  | 0 => None
  | S fuel => visit (walk fuel) id (default [] (deps !! id)) (enter id st)
  end.

(** [internal/specutil/check.go:390-395] findCycle: the loop over the nodes *)
Fixpoint walk_all (fuel : nat) (ids : list string) (st : search_state) : option (list string) :=
  match ids with
  | [] => Some []
  | id :: ids =>
      match color_of st id with
      | Unvisited =>
          match walk fuel id st with
          | Some (true, st') => Some (fs_cycle st')
          | Some (false, st') => walk_all fuel ids st'
          | None => None
          end
      | _ => walk_all fuel ids st
      end
  end.
End search.

(** [internal/specutil/check.go:343-348] findCycle: the graph of the tasks with an ID.  A
    later task with the same ID replaces an earlier one. *)
Definition graph_of (tasks : list Task) : gmap string (list string) :=
  foldl (fun g task => if String.eqb (tk_ID task) "" then g else <[tk_ID task := tk_Deps task]> g)
    ∅ tasks.

(** [internal/specutil/check.go:385-389] findCycle: the nodes, sorted *)
Definition nodes (g : gmap string (list string)) : list string := sort_strings (map_to_list g).*1.

Definition no_search : search_state := {| fs_state := ∅; fs_path := []; fs_cycle := [] |}.

(** [internal/specutil/check.go:342-396] findCycle: [None] stands for fuel that ran out *)
Definition findCycle_opt (tasks : list Task) : option (list string) :=
  let g := graph_of tasks in walk_all g (S (size g)) (nodes g) no_search.

(** [internal/specutil/check.go:342-396] findCycle *)
Definition findCycle (tasks : list Task) : list string := default [] (findCycle_opt tasks).

(** ** The runnable set *)

(** [internal/specutil/next.go:39-42] Blocked *)
Record Blocked := { bl_ID : string; bl_Waiting : list string }.

(** [internal/specutil/next.go:20-36] Ready *)
Record Ready := {
  rd_Change : string; rd_Phase : Z; rd_Name : string; rd_Shape : string; rd_Stop : string;
  rd_Merge : string; rd_Tasks : list Task; rd_Blocked : list Blocked;
  rd_Concurrent : bool; rd_Done : bool;
}.

(** [internal/specutil/check.go:108-108] reviewRE *)
Definition reviewRE : regex := cats [lit_fold "adversarial"; ws1; lit_fold "review"].

(** [internal/specutil/next.go:119-122] isGate *)
Definition isGate (text : string) : bool :=
  let lowered := ToLower (TrimSpace text) in
  HasPrefix lowered "apply:" || HasPrefix lowered "confirm:".

(** [internal/specutil/next.go:70-77] Next: [done], with an entry for the tasks that have
    an ID; its keys are [known] *)
Definition done_map (tasks : list Task) : gmap string bool :=
  foldl (fun m task => if String.eqb (tk_ID task) "" then m else <[tk_ID task := tk_Done task]> m)
    ∅ tasks.

(** [internal/specutil/next.go:87-92] Next: the dependencies a task waits on *)
Definition waiting_on (done : gmap string bool) (task : Task) : list string :=
  List.filter (fun dep => match done !! dep with Some d => negb d | None => false end) (tk_Deps task).

(** [internal/specutil/next.go:83-98] Next: the tasks that are ready, and those that wait *)
Definition split_ready (done : gmap string bool) (tasks : list Task)
  : list Task * list Blocked :=
  foldl (fun acc task =>
    if tk_Done task then acc
    else match waiting_on done task with
         | [] => (acc.1 ++ [task], acc.2)
         | waiting => (acc.1, acc.2 ++ [{| bl_ID := tk_ID task; bl_Waiting := waiting |}])
         end) ([], []) tasks.

(** [internal/specutil/next.go:102-110] Next: whether the ready tasks may run at once *)
Definition concurrent (shape : string) (ready : list Task) : bool :=
  String.eqb shape "graph" && (1 <? length ready) &&
  negb (existsb (fun task => isGate (tk_Text task) || MatchString reviewRE (tk_Text task)) ready).

(** [internal/specutil/next.go:53-62] Next: a phase with unfinished work *)
Definition open_phase (p : Phase) : bool := existsb (fun task => negb (tk_Done task)) (ph_Tasks p).

(** [internal/specutil/next.go:49-114] Next: with the error for a cycle, which comes with the
    part of the answer filled in so far *)
Definition Next (change : Change) : Ready * option string :=
  match List.find open_phase (ch_Phases change) with
  | None =>
      ({| rd_Change := ch_Name change; rd_Phase := 0; rd_Name := ""; rd_Shape := ""; rd_Stop := "";
          rd_Merge := ""; rd_Tasks := []; rd_Blocked := []; rd_Concurrent := false;
          rd_Done := true |}, None)
  | Some phase =>
      let answer ready blocked conc :=
        {| rd_Change := ch_Name change; rd_Phase := ph_Number phase; rd_Name := ph_Name phase;
           rd_Shape := marker phase "shape"; rd_Stop := marker phase "stop";
           rd_Merge := marker phase "merge"; rd_Tasks := ready; rd_Blocked := blocked;
           rd_Concurrent := conc; rd_Done := false |} in
      match findCycle (ph_Tasks phase) with
      | [] =>
          let '(ready, blocked) := split_ready (done_map (ph_Tasks phase)) (ph_Tasks phase) in
          (answer ready blocked (concurrent (marker phase "shape") ready), None)
      | cycle =>
          (answer [] [] false,
           Some ("task dependencies form a cycle in phase " +:+ Itoa (ph_Number phase) +:+ ": " +:+
                 Join cycle " -> "))
      end
  end.

(** [internal/specutil/next.go:130-135] WriteConflicts: the tasks that write each path *)
Definition owners (ready : Ready) : gmap string (list string) :=
  foldl (fun m (e : string * string) => <[e.1 := default [] (m !! e.1) ++ [e.2]]> m) ∅
    (rd_Tasks ready ≫= fun task => (fun path => (path, tk_ID task)) <$> tk_Writes task).

(** [internal/specutil/next.go:129-143] WriteConflicts *)
Definition WriteConflicts (ready : Ready) : gmap string (list string) :=
  filter (fun e => 1 < length e.2) (owners ready).

(** [internal/specutil/next.go:146-150] Progress *)
Record Progress := { pg_Change : string; pg_Done : nat; pg_Total : nat }.

(** [internal/specutil/next.go:153-162] Status *)
Definition Status (change : Change) : Progress :=
  {| pg_Change := ch_Name change;
     pg_Done := length (List.filter tk_Done (AllTasks change));
     pg_Total := length (AllTasks change) |}.

(** ** The flowchart *)

(** [internal/specutil/check.go:509-515] truncate *)
Definition truncate (s : string) (n : nat) : string :=
  let s := TrimSpace s in
  if String.length s <=? n then s else str_take n s +:+ "...".

(** [internal/specutil/next.go:197-201] sanitize: every replaced string is one byte *)
Definition sanitize : string -> string :=
  str_map (fun c =>
    match c with
    | "."%char => "_"%char
    | "034"%char => "'"%char
    | "["%char => "("%char
    | "]"%char => ")"%char
    | "{"%char => "("%char
    | "}"%char => ")"%char
    | "|"%char => "/"%char
    | c => c
    end).

(** [internal/specutil/next.go:175-182] Mermaid: the node of a task *)
Definition task_node (task : Task) : string :=
  "        t" +:+ sanitize (tk_ID task) +:+ "[" +:+ dquote +:+ "[" +:+
  (if tk_Done task then "x" else " ") +:+ "] " +:+ tk_ID task +:+ " " +:+
  sanitize (truncate (tk_Text task) 48) +:+ dquote +:+ "]" +:+ newline.

(** [internal/specutil/next.go:184-188] Mermaid: the edges of a task *)
Definition task_edges (task : Task) : string :=
  Join ((fun dep => "    t" +:+ sanitize dep +:+ " --> t" +:+ sanitize (tk_ID task) +:+ newline)
          <$> tk_Deps task) "".

(** [internal/specutil/next.go:169-189] Mermaid: a phase *)
Definition phase_graph (p : Phase) : string :=
  let shape := if String.eqb (marker p "shape") "" then "rollout" else marker p "shape" in
  "    subgraph p" +:+ Itoa (ph_Number p) +:+ "[" +:+ dquote +:+ Itoa (ph_Number p) +:+ ". " +:+
  ph_Name p +:+ " (" +:+ shape +:+ ")" +:+ dquote +:+ "]" +:+ newline +:+
  Join (task_node <$> ph_Tasks p) "" +:+ "    end" +:+ newline +:+
  Join (task_edges <$> ph_Tasks p) "".

(** [internal/specutil/next.go:190-192] Mermaid: the edges between the phases *)
Fixpoint phase_edges (phases : list Phase) : string :=
  match phases with
  | p :: ((q :: _) as rest) =>
      "    p" +:+ Itoa (ph_Number p) +:+ " --> p" +:+ Itoa (ph_Number q) +:+ newline +:+
      phase_edges rest
  | _ => ""
  end.

(** [internal/specutil/next.go:166-194] Mermaid *)
Definition Mermaid (change : Change) : string :=
  "flowchart TD" +:+ newline +:+ Join (phase_graph <$> ch_Phases change) "" +:+
  phase_edges (ch_Phases change).

(** ** The search is correct *)

(** A dependency on a task of the phase: the edges the search follows. *)
Definition edge (g : gmap string (list string)) (u v : string) : Prop :=
  exists ds, g !! u = Some ds /\ v ∈ ds /\ is_Some (g !! v).

(** Consecutive elements are joined by an edge. *)
Definition linked (g : gmap string (list string)) (l : list string) : Prop :=
  forall i u v, l !! i = Some u -> l !! S i = Some v -> edge g u v.

(** A closed walk: it ends where it begins. *)
Definition closed_walk (g : gmap string (list string)) (c : list string) : Prop :=
  exists x mid, c = x :: mid ++ [x] /\ linked g c.

(** No task waits for itself, through any number of dependencies. *)
Definition acyclic (g : gmap string (list string)) : Prop := forall x, ~ tc (edge g) x x.

(** In [l], latest first, every node comes after the nodes it depends on. *)
Definition ordered (g : gmap string (list string)) (l : list string) : Prop :=
  forall pre u rest, l = pre ++ u :: rest -> forall v, edge g u v -> v ∈ rest.

Section dfs.
Context (g : gmap string (list string)).

Record dfs_inv (st : search_state) (F : list string) : Prop := {
  inv_active id : color_of st id = Active <-> id ∈ fs_path st;
  inv_nodup : NoDup (fs_path st);
  inv_linked : linked g (fs_path st);
  inv_known id : id ∈ fs_path st -> is_Some (g !! id);
  inv_finished id : color_of st id = Finished <-> id ∈ F;
  inv_ordered : ordered g F;
}.

(** The nodes not visited yet. *)
Definition unvisited (st : search_state) : nat :=
  length (List.filter (fun id => bool_decide (color_of st id = Unvisited)) (map_to_list g).*1).

Lemma color_enter id x st : color_of (enter id st) x = if String.eqb x id then Active else color_of st x.
Proof.
  unfold color_of, enter. simpl. destruct (String.eqb_spec x id) as [->|Hne].
  - by rewrite lookup_insert_eq.
  - by rewrite lookup_insert_ne.
Qed.

Lemma color_leave id x st : color_of (leave id st) x = if String.eqb x id then Finished else color_of st x.
Proof.
  unfold color_of, leave. simpl. destruct (String.eqb_spec x id) as [->|Hne].
  - by rewrite lookup_insert_eq.
  - by rewrite lookup_insert_ne.
Qed.

Lemma elem_of_keys id : is_Some (g !! id) -> id ∈ (map_to_list g).*1.
Proof. intros [ds H]. apply list_elem_of_fmap. exists (id, ds). by rewrite elem_of_map_to_list. Qed.

Lemma filter_length_mono (P Q : string -> bool) l :
  (forall x, Q x = true -> P x = true) -> length (List.filter Q l) <= length (List.filter P l).
Proof.
  intros H. induction l as [|x l IH]; simpl; [done|].
  destruct (Q x) eqn:EQ; [rewrite (H x EQ)|destruct (P x)]; simpl; lia.
Qed.

Lemma filter_length_lt (P Q : string -> bool) l x :
  (forall x, Q x = true -> P x = true) -> x ∈ l -> P x = true -> Q x = false ->
  length (List.filter Q l) < length (List.filter P l).
Proof.
  intros H Hx HP HQ. induction l as [|y l IH]; [by apply elem_of_nil in Hx|].
  apply elem_of_cons in Hx as [<-|Hx]; simpl.
  - rewrite HP, HQ. simpl. pose proof (filter_length_mono P Q l H). lia.
  - specialize (IH Hx). destruct (Q y) eqn:EQ; [rewrite (H y EQ)|destruct (P y)]; simpl; lia.
Qed.

Lemma unvisited_enter id st :
  is_Some (g !! id) -> color_of st id = Unvisited -> unvisited (enter id st) < unvisited st.
Proof.
  intros Hk Hc. apply (filter_length_lt _ _ _ id).
  - intros x. rewrite !bool_decide_eq_true, color_enter. by destruct (String.eqb x id).
  - by apply elem_of_keys.
  - by apply bool_decide_eq_true.
  - apply bool_decide_eq_false. by rewrite color_enter, String.eqb_refl.
Qed.

Lemma index_of_Some x l : x ∈ l -> exists i, index_of x l = Some i /\ l !! i = Some x.
Proof.
  induction l as [|y l IH]; [by intros ?%elem_of_nil|]. rewrite elem_of_cons. simpl.
  destruct (String.eqb_spec y x) as [->|Hne]; [by exists 0|].
  intros [<-|Hx]; [done|]. destruct (IH Hx) as (i & -> & Hi). by exists (S i).
Qed.

Lemma linked_snoc l u v : linked g (l ++ [u]) -> edge g u v -> linked g ((l ++ [u]) ++ [v]).
Proof.
  intros Hl He i a b Ha Hb. destruct (decide (S i < length (l ++ [u]))) as [Hlt|Hge].
  - rewrite lookup_app_l in Ha by lia. rewrite lookup_app_l in Hb by lia. by apply (Hl i).
  - assert (S i = length (l ++ [u])) as Hi.
    { apply lookup_lt_Some in Hb. rewrite length_app in Hb. simpl in Hb. lia. }
    rewrite length_app in Hi. simpl in Hi.
    rewrite lookup_app_l in Ha by (rewrite length_app; simpl; lia).
    rewrite lookup_app_r in Hb by (rewrite length_app; simpl; lia).
    replace i with (length l) in * by lia. rewrite lookup_app_r, Nat.sub_diag in Ha by lia.
    rewrite length_app in Hb. simpl in Hb. replace (S (length l) - (length l + 1)) with 0 in Hb by lia.
    simpl in Ha, Hb. by simplify_eq.
Qed.

Lemma linked_drop l i : linked g l -> linked g (drop i l).
Proof.
  intros Hl j a b Ha Hb. rewrite lookup_drop in Ha, Hb. rewrite Nat.add_succ_r in Hb.
  by apply (Hl (i + j)).
Qed.

(** A node may be entered from the node that was entered last. *)
Definition reaches (st : search_state) (id : string) : Prop :=
  fs_path st = [] \/ exists p u, fs_path st = p ++ [u] /\ edge g u id.

Lemma enter_inv st F id :
  dfs_inv st F -> is_Some (g !! id) -> color_of st id = Unvisited -> reaches st id ->
  dfs_inv (enter id st) F.
Proof.
  intros H Hk Hc Hr.
  assert (id ∉ fs_path st) as Hn by (intros Hp; apply (inv_active _ _ H) in Hp; congruence).
  split; intros; rewrite ?color_enter in *; cbn [fs_path enter].
  - rewrite elem_of_app, list_elem_of_singleton, <- (inv_active _ _ H).
    destruct (String.eqb_spec id0 id) as [->|Hne]; naive_solver.
  - apply NoDup_app. split; [apply H|]. split; [|apply NoDup_singleton].
    intros x Hx ->%list_elem_of_singleton. done.
  - destruct Hr as [->|(p & u & Hp & He)].
    + intros i a b Ha Hb. by destruct i.
    + pose proof (inv_linked _ _ H) as Hl. rewrite Hp in *. by apply linked_snoc.
  - apply elem_of_app in H0 as [Hp| ->%list_elem_of_singleton]; [by apply (inv_known _ _ H)|done].
  - rewrite <- (inv_finished _ _ H).
    destruct (String.eqb_spec id0 id) as [->|Hne]; [|done]. rewrite Hc. done.
  - apply H.
Qed.

Lemma leave_inv st F id p :
  dfs_inv st F -> fs_path st = p ++ [id] -> (forall v, edge g id v -> v ∈ F) ->
  dfs_inv (leave id st) (id :: F) /\ fs_path (leave id st) = p.
Proof.
  intros H Hp He. pose proof (inv_nodup _ _ H) as Hnd. rewrite Hp in Hnd.
  apply NoDup_app in Hnd as (Hnd & Hni & _).
  assert (fs_path (leave id st) = p) as Hp'.
  { simpl. rewrite Hp. apply removelast_last. }
  split; [|done]. split; rewrite ?Hp'; intros; rewrite ?color_leave.
  - destruct (String.eqb_spec id0 id) as [->|Hne].
    + split; [done|]. intros Hx. destruct (Hni _ Hx). by apply list_elem_of_singleton.
    + rewrite (inv_active _ _ H), Hp, elem_of_app, list_elem_of_singleton. naive_solver.
  - done.
  - intros i a b Ha Hb. apply (inv_linked _ _ H i); rewrite Hp; by apply lookup_app_l_Some.
  - apply (inv_known _ _ H). rewrite Hp. apply elem_of_app. by left.
  - rewrite elem_of_cons, <- (inv_finished _ _ H).
    destruct (String.eqb_spec id0 id) as [->|Hne]; naive_solver.
  - intros [|x pre] u rest Heq v Hv; simplify_eq/=; [by apply He|].
    by eapply (inv_ordered _ _ H).
Qed.

Lemma close_cycle_walk st F id dep p :
  dfs_inv st F -> fs_path st = p ++ [id] -> edge g id dep -> color_of st dep = Active ->
  closed_walk g (fs_cycle (close_cycle dep st)).
Proof.
  intros H Hp He Hc. apply (inv_active _ _ H) in Hc. unfold close_cycle.
  destruct (index_of_Some dep _ Hc) as (i & -> & Hi). simpl.
  assert (exists mid, drop i (fs_path st) = dep :: mid) as [mid Hmid].
  { eexists. by apply drop_S. }
  exists dep, mid. split; [by rewrite Hmid|].
  pose proof (linked_drop _ i (inv_linked _ _ H)) as Hl.
  assert (i < length (fs_path st)) as Hlt by by eapply lookup_lt_Some.
  rewrite Hp, length_app in Hlt. simpl in Hlt. rewrite Hp, drop_app_le in Hl |- * by lia.
  by apply linked_snoc.
Qed.

(** What a call of [walk] on an unvisited node does, or of [visit] in the middle of one. *)
Definition walked (st : search_state) (p : list string) (F : list string) (id : string)
    (r : option (bool * search_state)) : Prop :=
  match r with
  | None => False
  | Some (true, st') => closed_walk g (fs_cycle st')
  | Some (false, st') =>
      fs_path st' = p /\ unvisited st' <= unvisited st /\
      exists F', dfs_inv st' F' /\ F ⊆ F' /\ id ∈ F'
  end.

Lemma unvisited_leave id st : color_of st id <> Unvisited -> unvisited (leave id st) <= unvisited st.
Proof.
  intros Hc. apply filter_length_mono. intros x. rewrite !bool_decide_eq_true, color_leave.
  by destruct (String.eqb x id).
Qed.

Lemma visit_spec rec id ds st F p :
  (forall dep st' F', is_Some (g !! dep) -> color_of st' dep = Unvisited -> dfs_inv st' F' ->
     reaches st' dep -> unvisited st' <= unvisited st ->
     walked st' (fs_path st') F' dep (rec dep st')) ->
  is_Some (g !! id) -> dfs_inv st F -> fs_path st = p ++ [id] ->
  ds ⊆ default [] (g !! id) ->
  (forall v, edge g id v -> v ∈ ds \/ v ∈ F) ->
  walked st p F id (visit g rec id ds st).
Proof.
  intros Hrec Hk. revert st F Hrec. induction ds as [|dep ds IH]; intros st F Hrec Hinv Hp Hds He;
    cbn [visit].
  - destruct (leave_inv st F id p Hinv Hp) as [Hi Hp'].
    { intros v Hv. by destruct (He v Hv) as [?%elem_of_nil|]. }
    split; [done|]. split.
    + apply unvisited_leave. assert (color_of st id = Active) as ->; [|done].
      apply (inv_active _ _ Hinv). rewrite Hp. apply elem_of_app. right. by apply list_elem_of_singleton.
    + exists (id :: F). split; [done|]. set_solver.
  - assert (ds ⊆ default [] (g !! id)) as Hds' by set_solver.
    destruct (bool_decide_reflect (is_Some (g !! dep))) as [Hdep|Hdep].
    2: { apply IH; try done. intros v Hv. destruct (He v Hv) as [Hin|Hin]; [|by right].
         apply elem_of_cons in Hin as [->|Hin]; [|by left]. by destruct Hv as (? & _ & _ & ?). }
    assert (edge g id dep) as Hedge.
    { destruct Hk as [l Hl]. exists l. split; [done|]. split; [|done]. rewrite Hl in Hds.
      apply Hds. by left. }
    destruct (color_of st dep) eqn:Hc.
    + pose proof (Hrec dep st F Hdep Hc Hinv
        ltac:(right; by exists p, id) (le_n _)) as Hw.
      destruct (rec dep st) as [[[] st']|]; [done| |done].
      destruct Hw as (Hp' & Hu & F' & Hi' & HF & Hd).
      assert (walked st' p F' id (visit g rec id ds st')) as Hw.
      { apply IH; try done.
        - intros. apply Hrec; try done. lia.
        - congruence.
        - intros v Hv. destruct (He v Hv) as [Hin|Hin]; [|right; by apply HF].
          apply elem_of_cons in Hin as [->|Hin]; [by right|by left]. }
      destruct (visit g rec id ds st') as [[[] st'']|]; [done| |done].
      destruct Hw as (? & ? & F'' & ? & ? & ?). split; [done|]. split; [lia|].
      exists F''. split_and!; [done|by etrans|done].
    + by eapply close_cycle_walk.
    + apply IH; try done. intros v Hv. destruct (He v Hv) as [Hin|Hin]; [|by right].
      apply elem_of_cons in Hin as [->|Hin]; [|by left]. right. by apply (inv_finished _ _ Hinv).
Qed.

Lemma walk_spec fuel id st F :
  is_Some (g !! id) -> color_of st id = Unvisited -> dfs_inv st F -> reaches st id ->
  unvisited st <= fuel -> walked st (fs_path st) F id (walk g fuel id st).
Proof.
  revert id st F. induction fuel as [|fuel IH]; intros id st F Hk Hc Hinv Hr Hf.
  { pose proof (unvisited_enter id st Hk Hc). lia. }
  pose proof (unvisited_enter id st Hk Hc) as Hlt. cbn [walk].
  assert (walked (enter id st) (fs_path st) F id
    (visit g (walk g fuel) id (default [] (g !! id)) (enter id st))) as Hw.
  { apply visit_spec; try done.
    - intros dep st' F' ? ? ? ? Hu. apply IH; try done. lia.
    - by apply enter_inv.
    - intros v (ds & Hd & Hv & _). left. by rewrite Hd. }
  destruct (visit _ _ _ _ _) as [[[] st']|]; [done| |done].
  destruct Hw as (? & ? & ?). split; [done|]. split; [lia|done].
Qed.

Lemma walk_all_spec fuel ids st F :
  (forall id, id ∈ ids -> is_Some (g !! id)) -> dfs_inv st F -> fs_path st = [] ->
  unvisited st <= fuel ->
  match walk_all g fuel ids st with
  | None => False
  | Some [] => exists F', ordered g F' /\ F ⊆ F' /\ ids ⊆ F'
  | Some c => closed_walk g c
  end.
Proof.
  revert st F. induction ids as [|id ids IH]; intros st F Hk Hinv Hp Hf; cbn [walk_all].
  { exists F. split; [apply Hinv|]. set_solver. }
  assert (forall id, id ∈ ids -> is_Some (g !! id)) as Hk' by (intros; apply Hk; by right).
  destruct (color_of st id) eqn:Hc.
  - pose proof (walk_spec fuel id st F (Hk id ltac:(by left)) Hc Hinv (or_introl Hp) Hf) as Hw.
    destruct (walk g fuel id st) as [[[] st']|]; [|..|done].
    + destruct Hw as (x & mid & -> & Hl). simpl. by exists x, mid.
    + destruct Hw as (Hp' & Hu & F' & Hi & HF & Hid).
      specialize (IH st' F' Hk' Hi ltac:(congruence) ltac:(lia)).
      destruct (walk_all g fuel ids st') as [[|c cs]|]; [|done..].
      destruct IH as (F'' & ? & ? & ?). exists F''. split; [done|]. set_solver.
  - apply (inv_active _ _ Hinv) in Hc. rewrite Hp in Hc. by apply elem_of_nil in Hc.
  - specialize (IH st F Hk' Hinv Hp Hf). apply (inv_finished _ _ Hinv) in Hc.
    destruct (walk_all g fuel ids st) as [[|c cs]|]; [|done..].
    destruct IH as (F'' & ? & ? & ?). exists F''. split; [done|]. set_solver.
Qed.

(** An order of all the nodes rules cycles out. *)
Lemma ordered_acyclic F : ordered g F -> (forall id, is_Some (g !! id) -> id ∈ F) -> acyclic g.
Proof.
  intros Ho Hall.
  assert (forall x y, tc (edge g) x y -> forall pre rest, F = pre ++ x :: rest -> y ∈ rest) as Htc.
  { induction 1 as [x y He|x y z He _ IH]; intros pre rest Hf; [by eapply Ho|].
    pose proof (Ho _ _ _ Hf _ He) as Hy. apply list_elem_of_split in Hy as (r1 & r2 & ->).
    specialize (IH (pre ++ x :: r1) r2). rewrite elem_of_app, elem_of_cons. right. right.
    apply IH. rewrite Hf. by rewrite <- app_assoc. }
  intros x Hx.
  assert (exists pre rest, F = pre ++ x :: rest /\ x ∉ pre) as (pre & rest & Hf & Hn).
  { apply list_elem_of_split_l. apply Hall. inversion Hx as [? ? He|? ? ? He];
      destruct He as (ds & Hd & _); by eexists. }
  (* the last occurrence of x has no x after it *)
  assert (forall k pre rest, length rest <= k -> F = pre ++ x :: rest -> False) as Hno.
  { induction k as [|k IH]; intros pre' rest' Hk Hf';
      pose proof (Htc x x Hx _ _ Hf') as Hin;
      apply list_elem_of_split in Hin as (r1 & r2 & ->); rewrite length_app in Hk; simpl in Hk; [lia|].
    apply (IH (pre' ++ x :: r1) r2); [lia|]. rewrite Hf'. by rewrite <- app_assoc. }
  by eapply (Hno (length rest)).
Qed.

Lemma closed_walk_cyclic c : closed_walk g c -> ~ acyclic g.
Proof.
  intros (x & mid & -> & Hl) Ha. apply (Ha x).
  assert (forall l y, linked g (y :: l ++ [x]) -> tc (edge g) y x) as H; [|by apply (H mid)].
  clear. induction l as [|z l IH]; intros y Hl.
  - apply tc_once. by apply (Hl 0).
  - eapply tc_l; [by apply (Hl 0)|]. apply IH. intros i a b Ha Hb. by apply (Hl (S i)).
Qed.
End dfs.

(** ** The search on the tasks of a phase *)

Lemma no_search_inv g : dfs_inv g no_search [].
Proof.
  split; intros; cbn [fs_path no_search] in *.
  - split; [done|by intros ?%elem_of_nil].
  - constructor.
  - by intros i.
  - by apply elem_of_nil in H.
  - split; [done|by intros ?%elem_of_nil].
  - by intros [|??].
Qed.

Lemma unvisited_no_search g : unvisited g no_search <= size g.
Proof.
  unfold unvisited. etrans; [apply List.filter_length_le|]. by rewrite length_fmap, length_map_to_list.
Qed.

Lemma elem_of_nodes g id : id ∈ nodes g <-> is_Some (g !! id).
Proof.
  unfold nodes. rewrite elem_of_sort_strings, list_elem_of_fmap. split.
  - intros ([k ds] & -> & H%elem_of_map_to_list). by exists ds.
  - intros [ds H]. exists (id, ds). by rewrite elem_of_map_to_list.
Qed.

Lemma findCycle_spec tasks :
  match findCycle_opt tasks with
  | None => False
  | Some [] => exists F, ordered (graph_of tasks) F /\ forall id, is_Some (graph_of tasks !! id) -> id ∈ F
  | Some c => closed_walk (graph_of tasks) c
  end.
Proof.
  unfold findCycle_opt. cbv zeta. set (g := graph_of tasks).
  pose proof (walk_all_spec g (S (size g)) (nodes g) no_search []) as H.
  pose proof (unvisited_no_search g).
  specialize (H ltac:(intros id; apply elem_of_nodes) (no_search_inv g) eq_refl ltac:(lia)).
  destruct (walk_all _ _ _ _) as [[|c cs]|]; [|done..].
  destruct H as (F & Ho & _ & Hn). exists F. split; [done|]. intros id Hid. apply Hn.
  by apply elem_of_nodes.
Qed.

Lemma findCycle_acyclic tasks : findCycle tasks = [] <-> acyclic (graph_of tasks).
Proof.
  unfold findCycle. pose proof (findCycle_spec tasks) as H.
  destruct (findCycle_opt tasks) as [[|c cs]|]; [|..|done]; simpl.
  - split; [|done]. intros _. destruct H as (F & Ho & Hall). by eapply ordered_acyclic.
  - split; [done|]. intros Ha. by destruct (closed_walk_cyclic _ _ H).
Qed.

(** What the maps of a phase say of its tasks. *)
Lemma graph_of_snoc tasks t :
  graph_of (tasks ++ [t]) =
    if String.eqb (tk_ID t) "" then graph_of tasks else <[tk_ID t := tk_Deps t]> (graph_of tasks).
Proof. unfold graph_of. by rewrite foldl_app. Qed.

Lemma done_map_snoc tasks t :
  done_map (tasks ++ [t]) =
    if String.eqb (tk_ID t) "" then done_map tasks else <[tk_ID t := tk_Done t]> (done_map tasks).
Proof. unfold done_map. by rewrite foldl_app. Qed.

Lemma done_map_graph tasks id :
  is_Some (done_map tasks !! id) <-> is_Some (graph_of tasks !! id).
Proof.
  induction tasks as [|t tasks IH] using rev_ind; [by split; intros [? ?]|].
  rewrite graph_of_snoc, done_map_snoc. destruct (String.eqb (tk_ID t) ""); [done|].
  rewrite !lookup_insert_is_Some. naive_solver.
Qed.

(** Both maps hold the data of one task of the phase: the last with that ID. *)
Lemma graph_of_task tasks id ds :
  graph_of tasks !! id = Some ds ->
  exists t, t ∈ tasks /\ tk_ID t = id /\ tk_Deps t = ds /\ done_map tasks !! id = Some (tk_Done t).
Proof.
  induction tasks as [|t tasks IH] using rev_ind; [done|].
  rewrite graph_of_snoc, done_map_snoc. destruct (String.eqb (tk_ID t) "").
  - intros (u & Hu & H)%IH. exists u. split; [set_solver|done].
  - destruct (decide (tk_ID t = id)) as [<-|Hne].
    + rewrite !lookup_insert_eq. intros [= <-]. exists t. split; [set_solver|done].
    + rewrite !lookup_insert_ne by done. intros (u & Hu & H)%IH. exists u. split; [set_solver|done].
Qed.

Lemma done_map_unique tasks t :
  NoDup (List.filter (fun id => negb (String.eqb id "")) (tk_ID <$> tasks)) ->
  t ∈ tasks -> tk_ID t <> "" -> done_map tasks !! tk_ID t = Some (tk_Done t).
Proof.
  induction tasks as [|u tasks IH] using rev_ind; [by intros _ ?%elem_of_nil|].
  rewrite fmap_app, List.filter_app, done_map_snoc. cbn [List.filter fmap list_fmap].
  intros Hnd Hin Hid. apply elem_of_app in Hin as [Hin| ->%list_elem_of_singleton].
  - destruct (String.eqb_spec (tk_ID u) "") as [E|E]; cbn in Hnd.
    + rewrite app_nil_r in Hnd. by apply IH.
    + apply NoDup_app in Hnd as (Hnd & Hni & _). rewrite lookup_insert_ne; [by apply IH|].
      intros Heq. apply (Hni (tk_ID t)); [|rewrite Heq; by left].
      apply list_elem_of_In, filter_In. split; [|by apply negb_true_iff, String.eqb_neq].
      apply list_elem_of_In, list_elem_of_fmap. by exists t.
  - apply String.eqb_neq in Hid as ->. by rewrite lookup_insert_eq.
Qed.

(** The open tasks are split into those that wait on nothing and the rest. *)
Lemma split_ready_spec done tasks :
  split_ready done tasks =
    (List.filter (fun t => negb (tk_Done t) && bool_decide (waiting_on done t = [])) tasks,
     (fun t => {| bl_ID := tk_ID t; bl_Waiting := waiting_on done t |}) <$>
       List.filter (fun t => negb (tk_Done t) && negb (bool_decide (waiting_on done t = []))) tasks).
Proof.
  unfold split_ready. induction tasks as [|t tasks IH] using rev_ind; [done|].
  rewrite foldl_app, IH, !List.filter_app, fmap_app. simpl.
  destruct (tk_Done t); simpl; [by rewrite !app_nil_r|].
  destruct (waiting_on done t) as [|w ws] eqn:E.
  - rewrite bool_decide_eq_true_2 by done. simpl. by rewrite !app_nil_r.
  - rewrite bool_decide_eq_false_2 by done. simpl. by rewrite E, app_nil_r.
Qed.

Lemma elem_of_waiting_on done t dep :
  dep ∈ waiting_on done t <-> dep ∈ tk_Deps t /\ done !! dep = Some false.
Proof.
  unfold waiting_on. rewrite list_elem_of_In, filter_In, <- list_elem_of_In.
  destruct (done !! dep) as [[]|]; naive_solver.
Qed.

(** The last element of a list that satisfies a property. *)
Lemma last_satisfying {A} (P : A -> Prop) (dec : forall x, Decision (P x)) l x :
  x ∈ l -> P x -> exists pre y rest, l = pre ++ y :: rest /\ P y /\ forall v, v ∈ rest -> ~ P v.
Proof.
  intros Hin HP. assert (Exists P l) as H by (apply Exists_exists; eauto). clear x Hin HP.
  induction l as [|x l IH]; [by apply Exists_nil in H|].
  destruct (decide (Exists P l)) as [HE|HE].
  - destruct (IH HE) as (pre & y & rest & -> & ? & ?). by exists (x :: pre), y, rest.
  - apply Exists_cons in H as [H|H]; [|done]. exists [], x, l. split_and!; [done..|].
    intros v Hv HP. apply HE, Exists_exists. eauto.
Qed.

Lemma elem_of_ready done tasks t :
  t ∈ List.filter (fun t => negb (tk_Done t) && bool_decide (waiting_on done t = [])) tasks <->
  t ∈ tasks /\ tk_Done t = false /\ waiting_on done t = [].
Proof.
  rewrite list_elem_of_In, filter_In, <- list_elem_of_In.
  rewrite andb_true_iff, negb_true_iff, bool_decide_eq_true. done.
Qed.

Lemma elem_of_blocked done tasks b :
  b ∈ (fun t => {| bl_ID := tk_ID t; bl_Waiting := waiting_on done t |}) <$>
    List.filter (fun t => negb (tk_Done t) && negb (bool_decide (waiting_on done t = []))) tasks <->
  exists t, t ∈ tasks /\ tk_Done t = false /\
    b = {| bl_ID := tk_ID t; bl_Waiting := waiting_on done t |} /\ bl_Waiting b <> [].
Proof.
  rewrite list_elem_of_fmap. split.
  - intros (t & -> & H). rewrite list_elem_of_In, filter_In, <- list_elem_of_In in H.
    rewrite andb_true_iff, !negb_true_iff, bool_decide_eq_false in H.
    exists t. by destruct H as (? & ? & ?).
  - intros (t & Ht & Hd & -> & Hw). exists t. split; [done|].
    rewrite list_elem_of_In, filter_In, <- list_elem_of_In.
    by rewrite andb_true_iff, !negb_true_iff, bool_decide_eq_false.
Qed.

(** The first open phase, with the closed ones before it. *)
Lemma find_open ps :
  match List.find open_phase ps with
  | Some p => exists before after, ps = before ++ p :: after /\ open_phase p = true /\
      forall q, q ∈ before -> open_phase q = false
  | None => forall q, q ∈ ps -> open_phase q = false
  end.
Proof.
  induction ps as [|p ps IH]; simpl; [by intros q ?%elem_of_nil|].
  destruct (open_phase p) eqn:Hp.
  - exists [], ps. split_and!; [done..|]. by intros q ?%elem_of_nil.
  - destruct (List.find open_phase ps).
    + destruct IH as (before & after & -> & Ho & Hb). exists (p :: before), after.
      split_and!; [done..|]. intros q [->|Hq]%elem_of_cons; auto.
    + intros q [->|Hq]%elem_of_cons; auto.
Qed.

Lemma closed_phase p t : open_phase p = false -> t ∈ ph_Tasks p -> tk_Done t = true.
Proof.
  unfold open_phase. intros H Ht. rewrite existsb_elem_false in H. specialize (H t Ht).
  by apply negb_false_iff in H.
Qed.

(** An open phase without a cycle has a task that can start. *)
Lemma some_task_ready tasks :
  existsb (fun t => negb (tk_Done t)) tasks = true -> findCycle tasks = [] ->
  (split_ready (done_map tasks) tasks).1 <> [].
Proof.
  intros Hopen Hc. rewrite split_ready_spec. simpl.
  assert (exists t, t ∈ tasks /\ tk_Done t = false /\ waiting_on (done_map tasks) t = []) as (t & Ht & Hd & Hw).
  2: { intros Hnil. assert (t ∈ @nil Task) as Hin; [|by apply elem_of_nil in Hin]. rewrite <- Hnil.
       apply list_elem_of_In, filter_In. split; [by apply list_elem_of_In|].
       rewrite Hd, Hw. done. }
  apply existsb_elem in Hopen as (t & Ht & Hd). apply negb_true_iff in Hd.
  set (P id := done_map tasks !! id = Some false).
  assert (forall u, ~ (exists dep, dep ∈ tk_Deps u /\ P dep) -> waiting_on (done_map tasks) u = []) as Hnw.
  { intros u Hu. destruct (waiting_on _ u) as [|w ws] eqn:E; [done|]. destruct Hu. exists w.
    apply elem_of_waiting_on. rewrite E. by left. }
  destruct (decide (waiting_on (done_map tasks) t = [])) as [He|He]; [by exists t|].
  assert (exists dep, P dep) as [dep Hdep].
  { destruct (waiting_on (done_map tasks) t) as [|w ws] eqn:E; [done|]. exists w.
    apply (elem_of_waiting_on _ t). rewrite E. by left. }
  pose proof (findCycle_spec tasks) as Hs. unfold findCycle in Hc.
  destruct (findCycle_opt tasks) as [[|]|]; [|done..]. destruct Hs as (F & Ho & Hall).
  destruct (last_satisfying P _ F dep) as (pre & id & rest & HF & Hid & Hrest); [|done|].
  { by apply Hall, done_map_graph; eexists. }
  assert (is_Some (graph_of tasks !! id)) as [ds Hds] by by apply done_map_graph; eexists.
  destruct (graph_of_task tasks id ds Hds) as (u & Hu & Hid' & Hdeps & Hdone).
  exists u. split; [done|]. split; [unfold P in Hid; congruence|].
  apply Hnw. intros (v & Hv & HP). apply (Hrest v); [|done].
  apply (Ho pre id rest HF). exists ds. split; [done|]. rewrite <- Hdeps. split; [done|].
  apply done_map_graph. by eexists.
Qed.

(** ** Theorems *)

(** C32. [findCycle] decides whether the dependencies among the tasks of a phase form a
    cycle.  It returns nothing exactly when they do not; what it returns otherwise is a
    cycle: a path along declared dependencies that ends where it begins.  The recursion
    always ends. *)
Theorem findCycle_correct (tasks : list Task) :
  is_Some (findCycle_opt tasks) /\
  (findCycle tasks = [] <-> acyclic (graph_of tasks)) /\
  (findCycle tasks <> [] -> closed_walk (graph_of tasks) (findCycle tasks)).
Proof.
  pose proof (findCycle_spec tasks) as H. split; [|split].
  - destruct (findCycle_opt tasks); [by eexists|done].
  - apply findCycle_acyclic.
  - unfold findCycle. destruct (findCycle_opt tasks) as [[|]|]; done.
Qed.

Definition sampleTask (id : string) (done : bool) (deps : list string) : Task :=
  {| tk_ID := id; tk_Text := id; tk_Done := done; tk_Line := 1; tk_Deps := deps; tk_Writes := [] |}.

Lemma findCycle_correct_witness :
  closed_walk (graph_of [sampleTask "1.1" false ["1.2"]; sampleTask "1.2" false ["1.1"; "9.9"]])
    ["1.1"; "1.2"; "1.1"].
Proof.
  apply (findCycle_correct [sampleTask "1.1" false ["1.2"]; sampleTask "1.2" false ["1.1"; "9.9"]]).
  vm_compute. discriminate.
Defined.

(** [Next] does not get stuck and does not skip ahead.  It says "done" exactly when
    every task is; otherwise it reports the first phase with unfinished work, and either
    an error, exactly when the dependencies of that phase form a cycle, or at least one
    task that can start.  The ready tasks are unfinished tasks of the phase that wait on
    nothing, and every other unfinished task is reported as blocked with what it waits
    on. *)
Theorem Next_progress (change : Change) :
  let r := (Next change).1 in
  (rd_Done r = true <-> forall t, t ∈ AllTasks change -> tk_Done t = true) /\
  (rd_Done r = false ->
     exists before p after, ch_Phases change = before ++ p :: after /\
       rd_Phase r = ph_Number p /\ open_phase p = true /\
       (forall q, q ∈ before -> open_phase q = false) /\
       ((Next change).2 <> None <-> ~ acyclic (graph_of (ph_Tasks p))) /\
       ((Next change).2 = None ->
          rd_Tasks r <> [] /\
          (forall t, t ∈ rd_Tasks r <->
             t ∈ ph_Tasks p /\ tk_Done t = false /\ waiting_on (done_map (ph_Tasks p)) t = []) /\
          (forall b, b ∈ rd_Blocked r <-> exists t, t ∈ ph_Tasks p /\ tk_Done t = false /\
             b = {| bl_ID := tk_ID t; bl_Waiting := waiting_on (done_map (ph_Tasks p)) t |} /\
             bl_Waiting b <> []))).
Proof.
  cbv zeta. pose proof (find_open (ch_Phases change)) as Hf. unfold Next.
  destruct (List.find open_phase (ch_Phases change)) as [p|].
  2: { split; [|done]. split; [|done]. intros _ t (q & Hq & Ht)%list_elem_of_bind.
       eapply closed_phase; [by apply Hf|done]. }
  destruct Hf as (before & after & Heq & Hp & Hb).
  assert (forall r, rd_Done r = false -> (rd_Done r = true <->
    forall t, t ∈ AllTasks change -> tk_Done t = true)) as Hdone.
  { intros r He. rewrite He. split; [done|]. intros Hall.
    apply existsb_elem in Hp as (t & Ht & Hd). rewrite (Hall t) in Hd; [done|].
    apply list_elem_of_bind. exists p. split; [done|]. rewrite Heq. set_solver. }
  pose proof (findCycle_acyclic (ph_Tasks p)) as Hc.
  pose proof (some_task_ready (ph_Tasks p) Hp) as Hr.
  destruct (findCycle (ph_Tasks p)) as [|c cs].
  - rewrite split_ready_spec in *. split; [by apply Hdone|]. intros _.
    exists before, p, after. split_and!; try done.
    + split; [done|]. intros H. by destruct H; apply Hc.
    + intros _. split_and!; [by apply Hr|intros t; apply elem_of_ready|intros b; apply elem_of_blocked].
  - split; [by apply Hdone|]. intros _. exists before, p, after. split_and!; try done.
    split; [|done]. intros _ H. by apply Hc in H.
Qed.

(** The identifiers of the tasks that have one. *)
Definition ids (tasks : list Task) : list string :=
  List.filter (fun id => negb (String.eqb id "")) (tk_ID <$> tasks).

(** When the identifiers of a phase are distinct, a task that [Next] reports as ready
    has its dependencies behind it: every task of the phase that it depends on is done.
    So no ready task depends on another, and when the answer claims concurrency the phase
    is a graph phase, at least two tasks are ready, and none of them is an owner gate or a
    review. *)
Theorem Next_ready_independent (change : Change) (t : Task) (Ht : t ∈ rd_Tasks (Next change).1)
    (Hids : forall p, p ∈ ch_Phases change -> NoDup (ids (ph_Tasks p))) :
  exists p, p ∈ ch_Phases change /\ t ∈ ph_Tasks p /\
    (forall u, u ∈ ph_Tasks p -> tk_ID u <> "" -> tk_ID u ∈ tk_Deps t -> tk_Done u = true) /\
    (forall u, u ∈ rd_Tasks (Next change).1 -> tk_ID u <> "" -> tk_ID u ∉ tk_Deps t) /\
    (rd_Concurrent (Next change).1 = true ->
       marker p "shape" = "graph" /\ 2 <= length (rd_Tasks (Next change).1) /\
       isGate (tk_Text t) = false /\ MatchString reviewRE (tk_Text t) = false).
Proof.
  revert Ht. unfold Next. pose proof (find_open (ch_Phases change)) as Hf.
  destruct (List.find open_phase (ch_Phases change)) as [p|]; [|by intros ?%elem_of_nil].
  destruct Hf as (before & after & Heq & Hp & _).
  assert (p ∈ ch_Phases change) as Hin by (rewrite Heq; set_solver).
  destruct (findCycle (ph_Tasks p)) as [|c cs]; [|by intros ?%elem_of_nil].
  rewrite split_ready_spec. cbn [fst rd_Tasks rd_Concurrent]. intros Ht.
  pose proof (proj1 (elem_of_ready _ _ _) Ht) as (Htp & _ & Hw).
  assert (forall u, u ∈ ph_Tasks p -> tk_ID u <> "" -> tk_ID u ∈ tk_Deps t -> tk_Done u = true) as Hd.
  { intros u Hu Hne Hdep. destruct (tk_Done u) eqn:Eu; [done|].
    pose proof (done_map_unique (ph_Tasks p) u (Hids p Hin) Hu Hne) as Hdone. rewrite Eu in Hdone.
    assert (tk_ID u ∈ waiting_on (done_map (ph_Tasks p)) t) as H by by apply elem_of_waiting_on.
    rewrite Hw in H. by apply elem_of_nil in H. }
  exists p. split_and!; [done..| |].
  - intros u (Hu & Hnd & _)%elem_of_ready Hne Hdep. rewrite (Hd u) in Hnd; done.
  - unfold concurrent. intros [[Hs Hl]%andb_true_iff Hg]%andb_true_iff.
    apply String.eqb_eq in Hs. apply Nat.ltb_lt in Hl.
    apply negb_true_iff in Hg. rewrite existsb_elem_false in Hg.
    specialize (Hg t Ht). apply orb_false_iff in Hg. tauto.
Qed.

Definition samplePhase : Phase :=
  {| ph_Number := 1; ph_Name := "Build"; ph_Line := 1; ph_Markers := {[ "shape" := "graph" ]};
     ph_Tasks := [sampleTask "1.1" true []; sampleTask "1.2" false ["1.1"];
                  sampleTask "1.3" false ["1.1"; "9.9"]; sampleTask "1.4" false ["1.2"]] |}.

Definition sampleChange : Change :=
  {| ch_Name := "c"; ch_Dir := "c"; ch_Artifacts := ∅; ch_Phases := [samplePhase] |}.

Example sample_next :
  tk_ID <$> rd_Tasks (Next sampleChange).1 = ["1.2"; "1.3"] /\
  rd_Blocked (Next sampleChange).1 = [{| bl_ID := "1.4"; bl_Waiting := ["1.2"] |}] /\
  rd_Concurrent (Next sampleChange).1 = true.
Proof. vm_compute. done. Qed.

Lemma Next_progress_witness :
  rd_Tasks (Next sampleChange).1 <> [].
Proof.
  destruct (proj2 (Next_progress sampleChange) eq_refl) as (? & ? & ? & _ & _ & _ & _ & _ & H).
  by apply H.
Defined.

Lemma Next_ready_independent_witness :
  exists p, p ∈ ch_Phases sampleChange /\ sampleTask "1.2" false ["1.1"] ∈ ph_Tasks p.
Proof.
  destruct (Next_ready_independent sampleChange (sampleTask "1.2" false ["1.1"])) as (p & Hp & Ht & _).
  - replace (rd_Tasks (Next sampleChange).1)
      with [sampleTask "1.2" false ["1.1"]; sampleTask "1.3" false ["1.1"; "9.9"]]
      by (vm_compute; reflexivity). by left.
  - intros p ->%list_elem_of_singleton. apply (bool_decide_unpack _). vm_compute. exact I.
  - by exists p.
Defined.

(** ** Conflicts *)

(** The writes of the ready tasks, as pairs of a path and the task. *)
Definition writes (ready : Ready) : list (string * string) :=
  rd_Tasks ready ≫= fun task => (fun path => (path, tk_ID task)) <$> tk_Writes task.

Lemma owners_lookup ready path :
  default [] (owners ready !! path) = (List.filter (fun e => String.eqb e.1 path) (writes ready)).*2.
Proof.
  unfold owners. fold (writes ready). induction (writes ready) as [|[q id] l IH] using rev_ind; [done|].
  rewrite foldl_app, List.filter_app, fmap_app, <- IH. simpl.
  destruct (String.eqb_spec q path) as [->|Hne].
  - rewrite lookup_insert_eq. done.
  - rewrite lookup_insert_ne by done. by rewrite app_nil_r.
Qed.

(** [WriteConflicts] maps a path to the tasks that write it exactly when the ready
    tasks declare it at least twice: in particular it finds every file that two ready
    tasks would write. *)
Theorem WriteConflicts_correct (ready : Ready) (path : string) (tasks : list string) :
  WriteConflicts ready !! path = Some tasks <->
  tasks = (List.filter (fun e => String.eqb e.1 path) (writes ready)).*2 /\ 2 <= length tasks.
Proof.
  unfold WriteConflicts. rewrite map_lookup_filter_Some, <- owners_lookup. simpl. split.
  - intros [-> H]. simpl. split; [done|lia].
  - intros [-> H]. destruct (owners ready !! path); simpl in *; [|lia]. split; [done|lia].
Qed.

(** Two ready tasks that declare the same path conflict; so does a task that declares
    one twice. *)
Example conflicts_ex :
  let two := {| tk_ID := "1.1"; tk_Text := ""; tk_Done := false; tk_Line := 1; tk_Deps := [];
                tk_Writes := ["a"; "a"; "b"] |} in
  let r := (Next {| ch_Name := "c"; ch_Dir := ""; ch_Artifacts := ∅; ch_Phases :=
     [{| ph_Number := 1; ph_Name := ""; ph_Line := 1; ph_Markers := ∅; ph_Tasks := [two] |}] |}).1 in
  map_to_list (WriteConflicts r) = [("a", ["1.1"; "1.1"])].
Proof. vm_compute. reflexivity. Qed.
