(* ===== verification/SpecCheck.v ===== *)
(** * The rubric: [internal/specutil/check.go].

    Every rule is a function from the change, and the file tree it was loaded from, to the
    findings it adds, in the order the program adds them.  Ranging over the map of
    artifacts is a parameter.  [None] stands for a panic. *)

From S2P Require Import Prelude GoStrings Regex Files Json Citelock SpecParse SpecGraph.

(** ** Findings *)

(** [internal/specutil/check.go:25-32] Severity *)
Inductive Severity := SeverityError | SeverityWarn.

#[export] Instance severity_eq_dec : EqDecision Severity.
Proof. solve_decision. Defined.

(** [internal/specutil/check.go:35-41] Finding *)
Record Finding := {
  fi_Rule : string; fi_Severity : Severity; fi_File : string; fi_Line : nat; fi_Message : string;
}.

(** [internal/specutil/check.go:44-47] Report *)
Record Report := { rp_Change : string; rp_Findings : list Finding }.

(** [internal/specutil/check.go:50-57] Failed *)
Definition Failed (r : Report) : bool :=
  existsb (fun f => bool_decide (fi_Severity f = SeverityError)) (rp_Findings r).

(** [internal/specutil/check.go:62-89] Rules: the identifiers *)
Definition Rules : list string :=
  ["proposal-sections"; "proposal-non-goals"; "behavior-has-criteria"; "design-sections";
   "decision-has-alternative"; "review-exists"; "review-decision-current"; "phase-shape-declared";
   "loop-markers"; "stop-is-a-command"; "graph-merge-declared"; "phase-has-review";
   "task-id-required"; "task-id-matches-phase"; "task-deps-resolve"; "task-deps-acyclic";
   "spec-negative-scenario"; "scenario-polarity"; "citations-lock-present"; "citation-uncited";
   "citation-dangling"; "no-em-dash"; "bolded-bullet-lead"].

(** [internal/specutil/check.go:117-122] Check: [add], at error severity *)
Definition add (rule file : string) (line : nat) (message : string) : Finding :=
  {| fi_Rule := rule; fi_Severity := SeverityError; fi_File := file; fi_Line := line;
     fi_Message := message |}.

(** A finding when a condition holds. *)
Definition when (b : bool) (f : Finding) : list Finding := if b then [f] else [].

Definition present {A} (o : option A) : bool := bool_decide (is_Some o).

(** ** Expressions *)

(** [internal/specutil/check.go:107-107] rolloutRE *)
Definition rolloutRE : regex := lit_fold "rollout".

(** [internal/specutil/check.go:94-96] stopCommandRE *)
Definition stopCommandRE : regex :=
  cats [chr "`";
        Group 1 (alts ((lit <$> ["task"; "go"; "golangci-lint"; "gofmt"; "buf"; "npm"; "npx"; "kubectl";
                                 "helm"; "docker"; "openspec"; "uncworks"; "git"; "jq"; "bash"; "sh";
                                 "make"])
                       ++ [cats [lit "python"; opt (chr "3")]; lit "devbox"]));
        Wb; star (Cls (fun c => negb (is_char "`" c))); chr "`"].

(** [internal/specutil/check.go:100-104] allowedBoldLeads *)
Definition allowedBoldLeads : list string :=
  ["WHEN"; "THEN"; "AND"; "POLARITY"; "SHAPE"; "STOP"; "MAX-ITERS"; "TERMINAL"; "MERGE"; "BREAKING"].

(** [internal/specutil/check.go:109-109] boldLeadRE *)
Definition boldLeadRE : regex :=
  cats [Bot; ws; Cls (one_of "-*"); ws1; lit "**"; Group 1 (plus (Cls (fun c => negb (is_char "*" c))));
        lit "**"].

(** [internal/specutil/check.go:110-110] citeRE *)
Definition citeRE : regex :=
  cats [lit "[cite:"; ws; Group 1 (plus (Cls (fun c => negb (is_char "]" c)))); chr "]"].

(** ** The artifacts *)

(** [change.Artifacts[name].Section(heading)], on a [nil] artifact too. *)
Definition section (change : Change) (name heading : string) : option MDSection :=
  Section_of (ch_Artifacts change !! name) heading.

(** A finding for every required heading that an artifact lacks. *)
Definition missing_headings (change : Change) (rule name path : string) (headings : list string)
  : list Finding :=
  headings ≫= fun h => when (negb (present (section change name h)))
                         (add rule path 0 (name +:+ ".md has no " +:+ Quote h +:+ " section")).

(** [internal/specutil/check.go:429-441] specDirs *)
Definition specDirs (t : tree) (change : Change) : list string :=
  match ReadDir t (PathJoin (ch_Dir change) "specs") with
  | None => []
  | Some entries =>
      List.filter (IsDir t) ((fun name => PathJoin (ch_Dir change) ("specs/" +:+ name)) <$> entries)
  end.

(** [internal/specutil/check.go:137-164] checkProposal *)
Definition checkProposal (t : tree) (change : Change) : list Finding :=
  match ch_Artifacts change !! "proposal" with
  | None => [add "proposal-sections" "proposal.md" 0 "the change has no proposal.md"]
  | Some proposal =>
      missing_headings change "proposal-sections" "proposal" (art_Path proposal)
        ["## Why"; "## What Changes"; "## Behavior"; "## Impact"] ++
      match section change "proposal" "## Behavior" with
      | Some b => when (bool_decide (Bullets (Some b) = []))
                    (add "behavior-has-criteria" (art_Path proposal) (sec_Line b)
                       ("the Behavior section states no criterion. It is the rubric every later " +:+
                        "artifact is reviewed against, so an empty one leaves the review nothing to bind to"))
      | None => []
      end ++
      when ((1 <? length (specDirs t change)) && negb (present (section change "proposal" "### Non-goals")))
        (add "proposal-non-goals" (art_Path proposal) 0
           ("the change touches " +:+ Itoa (Z.of_nat (length (specDirs t change))) +:+
            " capabilities and declares no Non-goals"))
  end.

Definition no_alternative (path : string) (line : nat) (pending : string) : list Finding :=
  when (negb (String.eqb pending ""))
    (add "decision-has-alternative" path line
       ("the decision " +:+ Quote (truncate pending 60) +:+ " records no rejected alternative")).

(** [internal/specutil/check.go:186-202] checkDesign: the loop over the lines of the section, with
    the line number of the next one *)
Fixpoint check_decisions (path : string) (line : nat) (pending : string) (body : list string)
  : list Finding :=
  match body with
  | [] => no_alternative path line pending
  | l :: body =>
      let trimmed := TrimSpace l in
      if HasPrefix trimmed "- Decision:" then
        no_alternative path line pending ++
        check_decisions path (S line) (TrimSpace (TrimPrefix trimmed "- Decision:")) body
      else if HasPrefix trimmed "- Alternative rejected:" then check_decisions path (S line) "" body
      else check_decisions path (S line) pending body
  end.

(** [internal/specutil/check.go:166-203] checkDesign *)
Definition checkDesign (change : Change) : list Finding :=
  match ch_Artifacts change !! "design" with
  | None => [add "design-sections" "design.md" 0 "the change has no design.md"]
  | Some design =>
      missing_headings change "design-sections" "design" (art_Path design)
        ["## Context"; "## Decisions"; "## Rollout & Gating"; "## Risks / Trade-offs"] ++
      match section change "design" "## Decisions" with
      | Some d => check_decisions (art_Path design) (sec_Line d) "" (sec_Body d)
      | None => []
      end
  end.

(** [internal/specutil/check.go:223-225] checkReview: the decision is not made.  The tier verdict of
    the gate asks the same. *)
Definition undecided (decision : MDSection) : bool :=
  let body := ToLower (Join (sec_Body decision) " ") in
  Contains body "pending" || String.eqb (TrimSpace body) "".

(** [internal/specutil/check.go:205-230] checkReview *)
Definition checkReview (change : Change) : list Finding :=
  match ch_Artifacts change !! "review" with
  | None =>
      [add "review-exists" "review.md" 0
         ("the change has no review.md. Findings recorded as prose inside the design " +:+
          "cannot be read as a set, which is why they live in their own artifact")]
  | Some review =>
      missing_headings change "review-exists" "review" (art_Path review)
        ["## Rubric"; "## Recommendation"; "## Owner decision"] ++
      match section change "review" "## Owner decision" with
      | Some d => when (undecided d)
                    (add "review-decision-current" (art_Path review) (sec_Line d)
                       ("the owner decision is still pending. Model critique is evidence, never approval, " +:+
                        "so a phase whose review is pending is not done"))
      | None => []
      end
  end.

(** ** The phases *)

Definition phase_ref (p : Phase) : string := Itoa (ph_Number p) +:+ " " +:+ Quote (ph_Name p).

(** [internal/specutil/check.go:296-302] checkLoopPhase: the MAX-ITERS; [strings.Fields(iters)[0]]
    panics when there is no field *)
Definition check_iters (p : Phase) (path : string) : option (list Finding) :=
  let iters := marker p "max-iters" in
  if String.eqb iters "" then Some []
  else
    first ← head (Fields iters);
    Some (when (bool_decide (Atoi first = None))
            (add "loop-markers" path (ph_Line p)
               ("the MAX-ITERS for phase " +:+ phase_ref p +:+ " is " +:+ Quote iters +:+
                ", which is not a number"))).

(** [internal/specutil/check.go:279-303] checkLoopPhase *)
Definition checkLoopPhase (p : Phase) (path : string) : option (list Finding) :=
  iters ← check_iters p path;
  Some ((["stop"; "max-iters"; "terminal"] ≫= fun m =>
           when (String.eqb (marker p m) "")
             (add "loop-markers" path (ph_Line p)
                ("loop phase " +:+ phase_ref p +:+ " declares no " +:+ ToUpper m))) ++
        when (negb (String.eqb (marker p "stop") "") && negb (MatchString stopCommandRE (marker p "stop")))
          (add "stop-is-a-command" path (ph_Line p)
             ("the STOP for phase " +:+ phase_ref p +:+ " names no command, so nothing can evaluate it " +:+
              "and the loop ends when the model decides it is done. Write a command in backticks")) ++
        iters).

Definition has_review (p : Phase) : bool :=
  existsb (fun task => MatchString reviewRE (tk_Text task)) (ph_Tasks p).

(** [internal/specutil/check.go:238-276] checkPhases: one phase *)
Definition checkPhase (path : string) (p : Phase) : option (list Finding) :=
  if MatchString rolloutRE (ph_Name p) then Some []
  else
    let shape := marker p "shape" in
    let isLoop := String.eqb shape "loop" in
    let isGraph := String.eqb shape "graph" in
    if String.eqb shape "" then
      Some [add "phase-shape-declared" path (ph_Line p)
              ("phase " +:+ phase_ref p +:+ " declares no SHAPE. Use loop or graph")]
    else if negb isLoop && negb isGraph then
      Some [add "phase-shape-declared" path (ph_Line p)
              ("phase " +:+ phase_ref p +:+ " declares SHAPE " +:+ Quote shape +:+
               ". Only loop and graph are valid")]
    else
      loop ← if isLoop then checkLoopPhase p path else Some [];
      Some (loop ++
            when (isGraph && (1 <? length (ph_Tasks p)) && String.eqb (marker p "merge") "")
              (add "graph-merge-declared" path (ph_Line p)
                 ("graph phase " +:+ phase_ref p +:+ " declares no MERGE. Without it the merge is read " +:+
                  "out of file order, which is what the declared graph exists to stop")) ++
            when (negb (has_review p))
              (add "phase-has-review" path (ph_Line p)
                 ("phase " +:+ phase_ref p +:+ " has no adversarial-review task"))).

(** [internal/specutil/check.go:232-277] checkPhases *)
Definition checkPhases (change : Change) : option (list Finding) :=
  match ch_Artifacts change !! "tasks" with
  | None => Some [add "phase-shape-declared" "tasks.md" 0 "the change has no tasks.md"]
  | Some tasks => @concat _ <$> mapM (checkPhase (art_Path tasks)) (ch_Phases change)
  end.

(** [internal/specutil/check.go:312-323] checkTaskGraph: the identifier of a task *)
Definition check_id (path : string) (p : Phase) (task : Task) : list Finding :=
  if String.eqb (tk_ID task) "" then
    [add "task-id-required" path (tk_Line task)
       ("the task " +:+ Quote (truncate (tk_Text task) 60) +:+ " carries no N.M identifier")]
  else when (negb (String.eqb (Cut (tk_ID task) ".").1.1 (Itoa (ph_Number p))))
         (add "task-id-matches-phase" path (tk_Line task)
            ("task " +:+ tk_ID task +:+ " sits in phase " +:+ Itoa (ph_Number p))).

(** [internal/specutil/check.go:324-333] checkTaskGraph: the dependencies of a task *)
Definition check_deps (path : string) (p : Phase) (task : Task) : list Finding :=
  tk_Deps task ≫= fun dep =>
    when (negb (existsb (String.eqb dep) (ids (ph_Tasks p))))
      (add "task-deps-resolve" path (tk_Line task)
         ("task " +:+ tk_ID task +:+ " depends on " +:+ dep +:+ ", which is not a task in phase " +:+
          Itoa (ph_Number p) +:+ ". A cross-phase edge means the phase boundary is in the wrong place")).

(** [internal/specutil/check.go:310-338] checkTaskGraph: one phase *)
Definition check_graph (path : string) (p : Phase) : list Finding :=
  (ph_Tasks p ≫= check_id path p) ++ (ph_Tasks p ≫= check_deps path p) ++
  when (negb (bool_decide (findCycle (ph_Tasks p) = [])))
    (add "task-deps-acyclic" path (ph_Line p)
       ("phase " +:+ Itoa (ph_Number p) +:+ " has a dependency cycle: " +:+
        Join (findCycle (ph_Tasks p)) " -> ")).

(** [internal/specutil/check.go:305-339] checkTaskGraph *)
Definition checkTaskGraph (change : Change) : list Finding :=
  match ch_Artifacts change !! "tasks" with
  | None => []
  | Some tasks => ch_Phases change ≫= check_graph (art_Path tasks)
  end.

(** ** The specs *)

(** [internal/specutil/check.go:407-418] checkSpecs: one scenario *)
Definition check_scenario (path : string) (s : Scenario) : list Finding :=
  when (negb (String.eqb (sc_Polarity s) "negative") && negb (String.eqb (sc_Polarity s) "positive"))
    (add "scenario-polarity" path (sc_Line s)
       ("the scenario " +:+ Quote (truncate (sc_Name s) 50) +:+ " declares no POLARITY. The lint reads " +:+
        "the declared marker rather than guessing from prose, so the verdict does not depend on wording")).

(** [internal/specutil/check.go:405-424] checkSpecs: one requirement *)
Definition check_requirement (path : string) (r : Requirement) : list Finding :=
  (rq_Scenarios r ≫= check_scenario path) ++
  when (negb (existsb (fun s => String.eqb (sc_Polarity s) "negative") (rq_Scenarios r)))
    (add "spec-negative-scenario" path (rq_Line r)
       ("the requirement " +:+ Quote (truncate (rq_Name r) 50) +:+ " has no declared-negative scenario. " +:+
        "A requirement nothing can fail is not testable")).

(** [internal/specutil/check.go:398-426] checkSpecs *)
Definition checkSpecs (t : tree) (change : Change) : list Finding :=
  specDirs t change ≫= fun dir =>
    let path := PathJoin dir "spec.md" in
    match ReadFile t path with
    | None => []
    | Some data => ParseRequirements data ≫= check_requirement path
    end.

(** ** The citations *)

(** The identifiers cited in a text. *)
Definition cites (text : string) : list string :=
  (fun m => TrimSpace (group 1 m)) <$> find_all citeRE text.

(** [internal/specutil/check.go:517-524] contains *)
Definition contains (haystack : list string) (needle : string) : bool :=
  existsb (fun item => String.eqb item needle) haystack.

(** [internal/specutil/check.go:458-468] checkCitations: one artifact *)
Definition check_cites (recorded : list string) (a : Artifact) : list Finding :=
  cites (art_Text a) ≫= fun id =>
    when (negb (contains recorded id))
      (add "citation-dangling" (art_Path a) 0
         ("[cite: " +:+ id +:+ "] names no record in citations.lock. A dangling reference is a " +:+
          "claim pretending to be pinned, which is worse than an unpinned one")).

(** [internal/specutil/check.go:443-476] checkCitations: [range_] is the order in which the artifacts
    are ranged over *)
Definition checkCitations (range_ : gmap string Artifact -> list Artifact) (t : tree) (change : Change)
  : list Finding :=
  let lock := PathJoin (ch_Dir change) "citations.lock" in
  if negb (exists_ t lock) then
    [add "citations-lock-present" lock 0
       ("the change carries no citations.lock. An absent lock cannot distinguish " +:+
        "'there was nothing to cite' from 'nobody looked'. Write {" +:+ dquote +:+ "records" +:+ dquote +:+
        ":[]} to say the first")]
  else match RecordIDs t (ch_Dir change) with
  | Err e => [add "citations-lock-present" lock 0
                ("could not read citations.lock: reading citation records: " +:+ e)]
  | Ok recorded =>
      let artifacts := range_ (ch_Artifacts change) in
      let cited := artifacts ≫= fun a => cites (art_Text a) in
      (artifacts ≫= check_cites recorded) ++
      (recorded ≫= fun id =>
         when (negb (contains cited id))
           (add "citation-uncited" lock 0
              ("the record " +:+ Quote id +:+ " is cited nowhere. Either the claim was edited out, in which " +:+
               "case delete the record, or the prose forgot to anchor it with [cite: " +:+ id +:+ "]")))
  end.

(** ** The prose *)

(** [internal/specutil/check.go:493-504] checkProse: one line outside the fences *)
Definition check_line (path : string) (i : nat) (line : string) : list Finding :=
  when (Contains line "—")
    (add "no-em-dash" path i "the line uses an em-dash. Write so, because, or a full stop instead") ++
  match find boldLeadRE line with
  | Some m =>
      let label := TrimRight (TrimSpace (group 1 m)) ":." in
      when (negb (existsb (String.eqb (ToUpper label)) allowedBoldLeads))
        (add "bolded-bullet-lead" path i
           ("the list item opens with the bolded label " +:+ Quote label +:+ ". Delete the label and " +:+
            "write the sentence, or carry the force with MUST or SHOULD"))
  | None => []
  end.

(** [internal/specutil/check.go:484-505] checkProse: the lines of an artifact *)
Fixpoint check_lines (path : string) (inFence : bool) (lines : list (nat * string)) : list Finding :=
  match lines with
  | [] => []
  | (i, line) :: lines =>
      if MatchString fenceRE line then check_lines path (negb inFence) lines
      else (if inFence then [] else check_line path i line) ++ check_lines path inFence lines
  end.

(** [internal/specutil/check.go:478-507] checkProse *)
Definition checkProse (change : Change) : list Finding :=
  ["proposal"; "design"; "tasks"; "review"] ≫= fun name =>
    match ch_Artifacts change !! name with
    | None => []
    | Some a => check_lines (art_Path a) false (numbered (art_Text a))
    end.

(** [internal/specutil/check.go:115-133] Check *)
Definition Check_ (range_ : gmap string Artifact -> list Artifact) (t : tree) (change : Change)
  : option Report :=
  phases ← checkPhases change;
  Some {| rp_Change := ch_Name change;
          rp_Findings := checkProposal t change ++ checkDesign change ++ checkReview change ++
                         phases ++ checkTaskGraph change ++ checkSpecs t change ++
                         checkCitations range_ t change ++ checkProse change |}.
