(* ===== verification/SpecRubric.v ===== *)
(** * What a change that passes the rubric is.

    [clean] states in declarative terms what the rules of [internal/specutil/check.go] ask
    of a change.  The check passes exactly the clean changes, does not panic on a change
    that was loaded from a tree, and a clean change can be worked through. *)

From S2P Require Import Prelude GoStrings Regex Files Json Citelock SpecParse SpecGraph SpecCheck.

(** ** Findings *)

(** Findings of a listed rule, at error severity. *)
Definition listed (fs : list Finding) : Prop :=
  Forall (fun f => fi_Severity f = SeverityError /\ fi_Rule f ∈ Rules) fs.

Lemma listed_nil : listed [].
Proof. constructor. Qed.
Lemma listed_cons rule file line msg fs :
  bool_decide (rule ∈ Rules) = true -> listed fs -> listed (add rule file line msg :: fs).
Proof. intros H%bool_decide_eq_true ?. by constructor. Qed.
Lemma listed_app fs gs : listed fs -> listed gs -> listed (fs ++ gs).
Proof. apply Forall_app_2. Qed.
Lemma listed_when b rule file line msg :
  bool_decide (rule ∈ Rules) = true -> listed (when b (add rule file line msg)).
Proof. destruct b; [|intros; apply listed_nil]. intros. by apply listed_cons; [|apply listed_nil]. Qed.
Lemma listed_bind {A} (l : list A) f : (forall x, listed (f x)) -> listed (l ≫= f).
Proof. intros H. induction l; [apply listed_nil|]. by apply listed_app. Qed.

#[export] Hint Resolve listed_nil listed_app listed_bind : unc.
#[export] Hint Extern 1 (listed (when _ _)) => by apply listed_when : unc.
#[export] Hint Extern 1 (listed (add _ _ _ _ :: _)) => apply listed_cons; [done|] : unc.

Lemma when_nil b f : when b f = [] <-> b = false.
Proof. by destruct b. Qed.

Lemma bind_nil {A B} (f : A -> list B) l : l ≫= f = [] <-> forall x, x ∈ l -> f x = [].
Proof.
  induction l as [|a l IH]; simpl.
  - split; [|done]. by intros _ x ?%elem_of_nil.
  - rewrite app_nil, IH. setoid_rewrite elem_of_cons. naive_solver.
Qed.

Lemma present_true {A} (o : option A) : present o = true <-> is_Some o.
Proof. apply bool_decide_eq_true. Qed.

(** ** A clean change *)

Section clean.
Context (t : tree) (c : Change).

(** An artifact is there and has the headings. *)
Definition has_headings (name : string) (headings : list string) : Prop :=
  is_Some (ch_Artifacts c !! name) /\ forall h, h ∈ headings -> is_Some (section c name h).

Definition is_decision (line : string) : Prop := HasPrefix (TrimSpace line) "- Decision:" = true.
Definition is_alternative (line : string) : Prop :=
  HasPrefix (TrimSpace line) "- Alternative rejected:" = true.
Definition decision_text (line : string) : string :=
  TrimSpace (TrimPrefix (TrimSpace line) "- Decision:").

(** A decision that says something is followed by a rejected alternative, before the next
    decision. *)
Definition alternatives_recorded (body : list string) : Prop :=
  forall pre d rest, body = pre ++ d :: rest -> is_decision d -> decision_text d <> "" ->
    exists mid alt post, rest = mid ++ alt :: post /\ is_alternative alt /\
                         Forall (fun l => ~ is_decision l) mid.

(** A loop can be run to an end: its exit is a command, its bound a number. *)
Definition bounded_loop (p : Phase) : Prop :=
  MatchString stopCommandRE (marker p "stop") = true /\ marker p "stop" <> "" /\
  (exists first n, head (Fields (marker p "max-iters")) = Some first /\ Atoi first = Some n) /\
  marker p "terminal" <> "".

(** A phase of the rollout declares nothing.  Another one has a shape, with what the shape asks for,
    and among its tasks, at whichever place, an adversarial review. *)
Definition sound_phase (p : Phase) : Prop :=
  MatchString rolloutRE (ph_Name p) = true \/
  (marker p "shape" = "loop" /\ bounded_loop p \/
   marker p "shape" = "graph" /\ (length (ph_Tasks p) <= 1 \/ marker p "merge" <> "")) /\
  exists task, task ∈ ph_Tasks p /\ MatchString reviewRE (tk_Text task) = true.

(** The tasks of a phase are named after it, depend on tasks of the phase only, and form no
    cycle. *)
Definition sound_graph (p : Phase) : Prop :=
  (forall task, task ∈ ph_Tasks p ->
     tk_ID task <> "" /\ (Cut (tk_ID task) ".").1.1 = Itoa (ph_Number p) /\
     forall dep, dep ∈ tk_Deps task -> exists other, other ∈ ph_Tasks p /\ tk_ID other = dep) /\
  acyclic (graph_of (ph_Tasks p)).

Definition testable (r : Requirement) : Prop :=
  (forall s, s ∈ rq_Scenarios r -> sc_Polarity s = "negative" \/ sc_Polarity s = "positive") /\
  exists s, s ∈ rq_Scenarios r /\ sc_Polarity s = "negative".

(** A line that opens no fence, outside the fences. *)
Definition prose_line (text line : string) : Prop :=
  exists pre post, Split text "010"%char = pre ++ line :: post /\
    MatchString fenceRE line = false /\
    Nat.even (length (List.filter (MatchString fenceRE) pre)) = true.

Definition plain (line : string) : Prop :=
  ~ (exists a b, line = a +:+ "—" +:+ b) /\
  forall m, find boldLeadRE line = Some m ->
    ToUpper (TrimRight (TrimSpace (group 1 m)) ":.") ∈ allowedBoldLeads.

(** The identifiers the artifacts cite are those of the records. *)
Definition citations_match : Prop :=
  exists_ t (PathJoin (ch_Dir c) "citations.lock") = true /\
  exists recorded, RecordIDs t (ch_Dir c) = Ok recorded /\
    forall id, id ∈ recorded <->
      exists name a, ch_Artifacts c !! name = Some a /\ id ∈ cites (art_Text a).

Record clean : Prop := {
  cl_proposal : has_headings "proposal" ["## Why"; "## What Changes"; "## Behavior"; "## Impact"];
  cl_criteria : forall b, section c "proposal" "## Behavior" = Some b -> Bullets (Some b) <> [];
  cl_non_goals : 1 < length (specDirs t c) -> is_Some (section c "proposal" "### Non-goals");
  cl_design : has_headings "design"
                ["## Context"; "## Decisions"; "## Rollout & Gating"; "## Risks / Trade-offs"];
  cl_decisions : forall d, section c "design" "## Decisions" = Some d -> alternatives_recorded (sec_Body d);
  cl_review : has_headings "review" ["## Rubric"; "## Recommendation"; "## Owner decision"];
  cl_decided : forall d, section c "review" "## Owner decision" = Some d -> undecided d = false;
  cl_tasks : is_Some (ch_Artifacts c !! "tasks");
  cl_phases : forall p, p ∈ ch_Phases c -> sound_phase p;
  cl_graphs : forall p, p ∈ ch_Phases c -> sound_graph p;
  cl_specs : forall dir data r, dir ∈ specDirs t c -> ReadFile t (PathJoin dir "spec.md") = Some data ->
               r ∈ ParseRequirements data -> testable r;
  cl_citations : citations_match;
  cl_prose : forall name a line, name ∈ ["proposal"; "design"; "tasks"; "review"] ->
               ch_Artifacts c !! name = Some a -> prose_line (art_Text a) line -> plain line;
}.
End clean.

(** ** The rules, one by one *)

Section rules.
Context (t : tree) (c : Change).

Lemma missing_headings_nil rule name path hs :
  missing_headings c rule name path hs = [] <-> forall h, h ∈ hs -> is_Some (section c name h).
Proof.
  unfold missing_headings. rewrite bind_nil. setoid_rewrite when_nil.
  setoid_rewrite negb_false_iff. setoid_rewrite present_true. done.
Qed.

Lemma checkProposal_nil :
  checkProposal t c = [] <->
  has_headings c "proposal" ["## Why"; "## What Changes"; "## Behavior"; "## Impact"] /\
  (forall b, section c "proposal" "## Behavior" = Some b -> Bullets (Some b) <> []) /\
  (1 < length (specDirs t c) -> is_Some (section c "proposal" "### Non-goals")).
Proof.
  unfold checkProposal, has_headings. destruct (ch_Artifacts c !! "proposal") as [a|]; cycle 1.
  { split; [done|]. by intros [[[? ?] _] _]. }
  rewrite !app_nil, missing_headings_nil, when_nil.
  rewrite andb_false_iff, negb_false_iff, present_true, Nat.ltb_ge, Nat.le_ngt.
  destruct (decide (1 < length (specDirs t c)));
    destruct (section c "proposal" "## Behavior") as [b|];
    [rewrite when_nil, bool_decide_eq_false| |rewrite when_nil, bool_decide_eq_false|]; naive_solver.
Qed.

Lemma no_alternative_nil path line pending : no_alternative path line pending = [] <-> pending = "".
Proof. unfold no_alternative. by rewrite when_nil, negb_false_iff, String.eqb_eq. Qed.

(** The alternative of the pending decision comes before the next decision. *)
Definition answered (body : list string) : Prop :=
  exists mid alt post, body = mid ++ alt :: post /\ is_alternative alt /\
                       Forall (fun l => ~ is_decision l) mid.

Lemma answered_cons l body :
  answered (l :: body) <-> is_alternative l \/ ~ is_decision l /\ answered body.
Proof.
  split.
  - intros (mid & alt & post & Heq & Ha & Hm). destruct mid as [|m mid]; simplify_eq/=; [by left|].
    apply Forall_cons in Hm as [? ?]. right. split; [done|]. by exists mid, alt, post.
  - intros [Ha|(Hn & mid & alt & post & -> & Ha & Hm)]; [by exists [], l, body|].
    exists (l :: mid), alt, post. split; [done|]. split; [done|]. by constructor.
Qed.

Lemma alternatives_cons l body :
  alternatives_recorded (l :: body) <->
  (is_decision l -> decision_text l <> "" -> answered body) /\ alternatives_recorded body.
Proof.
  unfold alternatives_recorded, answered. split.
  - intros H. split; [by apply (H [])|]. intros pre d rest ->. apply (H (l :: pre)); done.
  - intros [H1 H2] pre d rest Heq. destruct pre as [|x pre]; simplify_eq/=; eauto.
Qed.

Lemma check_decisions_nil path body : forall line pending,
  check_decisions path line pending body = [] <->
  (pending <> "" -> answered body) /\ alternatives_recorded body.
Proof.
  induction body as [|l body IH]; intros line pending; cbn [check_decisions].
  - rewrite no_alternative_nil. split.
    + intros ->. split; [done|]. intros pre d rest Heq. by destruct pre.
    + intros [H _]. destruct (decide (pending = "")) as [?|Hne]; [done|].
      destruct (H Hne) as ([] & ? & ? & ? & _); done.
  - rewrite answered_cons, alternatives_cons. unfold is_decision at 1 2, is_alternative.
    destruct (HasPrefix (TrimSpace l) "- Decision:") eqn:Hd.
    + rewrite app_nil, no_alternative_nil, IH. fold (decision_text l).
      assert (HasPrefix (TrimSpace l) "- Alternative rejected:" = false) as ->.
      { apply HasPrefix_spec in Hd as [r ->]. done. }
      split; [intros (-> & ? & ?); naive_solver|]. intros (Hp & Hl & Hr).
      destruct (decide (pending = "")) as [?|Hne]; [naive_solver|].
      destruct (Hp Hne) as [|[? _]]; done.
    + destruct (HasPrefix (TrimSpace l) "- Alternative rejected:"); rewrite IH; naive_solver.
Qed.

Lemma checkDesign_nil :
  checkDesign c = [] <->
  has_headings c "design"
    ["## Context"; "## Decisions"; "## Rollout & Gating"; "## Risks / Trade-offs"] /\
  (forall d, section c "design" "## Decisions" = Some d -> alternatives_recorded (sec_Body d)).
Proof.
  unfold checkDesign, has_headings. destruct (ch_Artifacts c !! "design") as [a|]; cycle 1.
  { split; [done|]. by intros [[[? ?] _] _]. }
  rewrite app_nil, missing_headings_nil.
  destruct (section c "design" "## Decisions") as [d|]; [rewrite check_decisions_nil|]; naive_solver.
Qed.

Lemma checkReview_nil :
  checkReview c = [] <->
  has_headings c "review" ["## Rubric"; "## Recommendation"; "## Owner decision"] /\
  (forall d, section c "review" "## Owner decision" = Some d -> undecided d = false).
Proof.
  unfold checkReview, has_headings. destruct (ch_Artifacts c !! "review") as [a|]; cycle 1.
  { split; [done|]. by intros [[[? ?] _] _]. }
  rewrite app_nil, missing_headings_nil.
  destruct (section c "review" "## Owner decision") as [d|]; [rewrite when_nil|]; naive_solver.
Qed.

Lemma check_iters_nil p path :
  check_iters p path = Some [] /\ marker p "max-iters" <> "" <->
  exists first n, head (Fields (marker p "max-iters")) = Some first /\ Atoi first = Some n.
Proof.
  unfold check_iters. destruct (String.eqb_spec (marker p "max-iters") "") as [->|Hne].
  { split; [by intros [_ ?]|]. by intros (? & ? & [=] & _). }
  destruct (head _) as [first|]; simpl; [|split; [by intros [? _]|naive_solver]].
  destruct (Atoi first) as [n|] eqn:Ha.
  - rewrite bool_decide_eq_false_2 by congruence. split; [|done]. by eauto.
  - rewrite bool_decide_eq_true_2 by done. split; [by intros [? _]|]. intros (? & ? & ? & ?). congruence.
Qed.

Lemma checkLoopPhase_nil p path : checkLoopPhase p path = Some [] <-> bounded_loop p.
Proof.
  unfold checkLoopPhase, bounded_loop. rewrite <- (check_iters_nil p path).
  destruct (check_iters p path) as [iters|]; cbn [mbind option_bind]; [|naive_solver].
  cbn [list_bind mbind]. destruct (String.eqb_spec (marker p "stop") ""),
    (String.eqb_spec (marker p "max-iters") ""), (String.eqb_spec (marker p "terminal") "");
    destruct (MatchString stopCommandRE (marker p "stop")); simpl; naive_solver.
Qed.

Lemma has_review_spec p :
  has_review p = true <-> exists task, task ∈ ph_Tasks p /\ MatchString reviewRE (tk_Text task) = true.
Proof. apply existsb_elem. Qed.

Lemma checkPhase_nil path p : checkPhase path p = Some [] <-> sound_phase p.
Proof.
  unfold checkPhase, sound_phase. rewrite <- has_review_spec, <- (checkLoopPhase_nil p path).
  destruct (MatchString rolloutRE (ph_Name p)); [naive_solver|].
  destruct (String.eqb_spec (marker p "shape") "") as [->|_]; [naive_solver|].
  destruct (String.eqb_spec (marker p "shape") "loop") as [->|Hl]; cbn [negb andb].
  { destruct (checkLoopPhase p path) as [loop|]; cbn [mbind option_bind]; [|naive_solver].
    destruct loop, (has_review p); simpl; naive_solver. }
  destruct (String.eqb_spec (marker p "shape") "graph") as [->|Hg]; cbn [negb andb]; [|naive_solver].
  cbn [mbind option_bind]. destruct (Nat.ltb_spec 1 (length (ph_Tasks p)));
    destruct (String.eqb_spec (marker p "merge") ""), (has_review p); simpl; naive_solver lia.
Qed.

Lemma mapM_concat_nil {A B} (f : A -> option (list B)) l :
  @concat _ <$> mapM f l = Some [] <-> forall x, x ∈ l -> f x = Some [].
Proof.
  induction l as [|x l IH]; simpl.
  { split; [|done]. by intros _ x ?%elem_of_nil. }
  setoid_rewrite elem_of_cons. destruct (f x) as [y|] eqn:Hx; simpl; [|naive_solver].
  destruct (mapM f l) as [ys|]; simpl in *; [|naive_solver].
  rewrite (inj_iff Some), app_nil. rewrite (inj_iff Some) in IH. naive_solver.
Qed.

Lemma checkPhases_nil :
  checkPhases c = Some [] <->
  is_Some (ch_Artifacts c !! "tasks") /\ forall p, p ∈ ch_Phases c -> sound_phase p.
Proof.
  unfold checkPhases. destruct (ch_Artifacts c !! "tasks") as [a|]; cycle 1.
  { split; [done|]. by intros [[? ?] _]. }
  rewrite mapM_concat_nil. setoid_rewrite checkPhase_nil. naive_solver.
Qed.

Lemma elem_of_ids id tasks : id ∈ ids tasks <-> id <> "" /\ exists task, task ∈ tasks /\ tk_ID task = id.
Proof.
  unfold ids. rewrite list_elem_of_In, filter_In, <- list_elem_of_In, list_elem_of_fmap.
  rewrite negb_true_iff, String.eqb_neq. naive_solver.
Qed.

Lemma check_id_nil path p task :
  check_id path p task = [] <-> tk_ID task <> "" /\ (Cut (tk_ID task) ".").1.1 = Itoa (ph_Number p).
Proof.
  unfold check_id. destruct (String.eqb_spec (tk_ID task) ""); [naive_solver|].
  rewrite when_nil, negb_false_iff, String.eqb_eq. naive_solver.
Qed.

Lemma check_graph_nil path p : check_graph path p = [] <-> sound_graph p.
Proof.
  unfold check_graph, sound_graph, check_deps. rewrite !app_nil, !bind_nil, when_nil, negb_false_iff,
    bool_decide_eq_true, findCycle_acyclic.
  setoid_rewrite check_id_nil. setoid_rewrite bind_nil. setoid_rewrite when_nil.
  setoid_rewrite negb_false_iff. setoid_rewrite existsb_elem. setoid_rewrite String.eqb_eq.
  setoid_rewrite elem_of_ids. split.
  - intros (Hid & Hdep & Ha). split; [|done]. intros task Ht. destruct (Hid task Ht).
    split_and!; [done..|]. intros dep Hd. destruct (Hdep task Ht dep Hd) as (? & (_ & ?) & ->). done.
  - intros (H & Ha). split_and!; [naive_solver| |done]. intros task Ht dep Hd.
    destruct (H task Ht) as (_ & _ & Hdep). destruct (Hdep dep Hd) as (u & Hu & Heq).
    exists dep. split; [|done]. split; [|by exists u]. subst dep. by apply H.
Qed.

Lemma checkTaskGraph_nil :
  is_Some (ch_Artifacts c !! "tasks") ->
  checkTaskGraph c = [] <-> forall p, p ∈ ch_Phases c -> sound_graph p.
Proof.
  intros [a Ha]. unfold checkTaskGraph. rewrite Ha, bind_nil. by setoid_rewrite check_graph_nil.
Qed.

Lemma check_requirement_nil path r : check_requirement path r = [] <-> testable r.
Proof.
  unfold check_requirement, testable, check_scenario. rewrite app_nil, bind_nil, when_nil.
  rewrite negb_false_iff, existsb_elem. setoid_rewrite when_nil. setoid_rewrite andb_false_iff.
  setoid_rewrite negb_false_iff. by setoid_rewrite String.eqb_eq.
Qed.

Lemma checkSpecs_nil :
  checkSpecs t c = [] <->
  forall dir data r, dir ∈ specDirs t c -> ReadFile t (PathJoin dir "spec.md") = Some data ->
    r ∈ ParseRequirements data -> testable r.
Proof.
  unfold checkSpecs. rewrite bind_nil. split.
  - intros H dir data r Hd Hr. specialize (H dir Hd). cbv zeta in H. rewrite Hr, bind_nil in H.
    intros Hin. by eapply check_requirement_nil, H.
  - intros H dir Hd. cbv zeta. destruct (ReadFile _ _) as [data|] eqn:Hr; [|done]. apply bind_nil.
    intros r Hin. apply check_requirement_nil. eauto.
Qed.

Lemma contains_true l x : contains l x = true <-> x ∈ l.
Proof. unfold contains. rewrite existsb_elem. setoid_rewrite String.eqb_eq. naive_solver. Qed.

Lemma checkCitations_nil range_ :
  (forall m, range_ m ≡ₚ (map_to_list m).*2) -> checkCitations range_ t c = [] <-> citations_match t c.
Proof.
  intros Hrange. unfold checkCitations, citations_match, check_cites.
  destruct (exists_ t _); cbn [negb]; [|naive_solver].
  destruct (RecordIDs t (ch_Dir c)) as [recorded|e]; [|naive_solver].
  rewrite app_nil, !bind_nil. setoid_rewrite bind_nil. setoid_rewrite when_nil.
  setoid_rewrite negb_false_iff. setoid_rewrite contains_true. setoid_rewrite list_elem_of_bind.
  assert (forall a, a ∈ range_ (ch_Artifacts c) <-> exists name, ch_Artifacts c !! name = Some a) as Hin.
  { intros a. rewrite Hrange, list_elem_of_fmap. setoid_rewrite <- elem_of_map_to_list.
    split; [intros ([n ?] & -> & ?); eauto|intros [n ?]; by exists (n, a)]. }
  setoid_rewrite Hin. split.
  - intros [H1 H2]. split; [done|]. exists recorded. split; [done|]. intros id. split.
    + intros Hid. destruct (H2 id Hid) as (a & ? & [n ?]). eauto.
    + intros (n & a & ? & ?). eapply H1; eauto.
  - intros (_ & r & [= <-] & H). split.
    + intros a [n Hn] id Hid. apply H. eauto.
    + intros id Hid. apply H in Hid as (n & a & ? & ?). eauto.
Qed.
End rules.

(** ** Prose *)

Lemma check_line_nil path i line : check_line path i line = [] <-> plain line.
Proof.
  unfold check_line, plain. rewrite app_nil, when_nil, <- Contains_spec, <- not_true_iff_false.
  destruct (find boldLeadRE line) as [m|]; [|naive_solver].
  rewrite when_nil, negb_false_iff, existsb_elem. setoid_rewrite String.eqb_eq. naive_solver.
Qed.

Lemma fence_parity P inFence (l : string) pre :
  xorb (xorb inFence (P l)) (Nat.even (length (List.filter P pre))) =
  xorb inFence (Nat.even (length (List.filter P (l :: pre)))).
Proof.
  cbn [List.filter]. destruct (P l); cbn [length]; [|by rewrite xorb_false_r].
  rewrite xorb_true_r, Nat.even_succ, <- Nat.negb_even. by destruct inFence, (Nat.even _).
Qed.

Lemma check_lines_nil path lines : forall inFence,
  check_lines path inFence lines = [] <->
  forall pre line post, lines.*2 = pre ++ line :: post -> MatchString fenceRE line = false ->
    xorb inFence (Nat.even (length (List.filter (MatchString fenceRE) pre))) = true -> plain line.
Proof.
  induction lines as [|[i l] lines IH]; intros inFence.
  { split; [|done]. intros _ pre line post Heq. by destruct pre. }
  cbn [check_lines]. transitivity
    ((MatchString fenceRE l = false -> inFence = false -> plain l) /\
     check_lines path (xorb inFence (MatchString fenceRE l)) lines = []).
  - destruct (MatchString fenceRE l); [rewrite xorb_true_r; naive_solver|]. rewrite xorb_false_r.
    rewrite app_nil. destruct inFence; [naive_solver|]. rewrite check_line_nil. naive_solver.
  - rewrite IH. split.
    + intros [Hl Hr] pre line post Heq. destruct pre as [|x pre]; simplify_eq/=.
      { intros Hf. rewrite xorb_true_r, negb_true_iff. auto. }
      intros Hf He. apply (Hr pre line post); [done..|]. by rewrite fence_parity.
    + intros H. split.
      * intros Hf ->. by apply (H [] l lines.*2).
      * intros pre line post Heq Hf He. apply (H (l :: pre) line post); [by simpl; f_equal|done|].
        by rewrite <- fence_parity.
Qed.

Lemma numbered_lines text : (numbered text).*2 = Split text "010"%char.
Proof.
  unfold numbered. generalize S. induction (Split text "010"%char) as [|l ls IH]; intros f; [done|].
  simpl. f_equal. apply (IH (f ∘ S)).
Qed.

Lemma checkProse_nil c :
  checkProse c = [] <->
  forall name a line, name ∈ ["proposal"; "design"; "tasks"; "review"] ->
    ch_Artifacts c !! name = Some a -> prose_line (art_Text a) line -> plain line.
Proof.
  unfold checkProse, prose_line. rewrite bind_nil. split.
  - intros H name a line Hn Ha (pre & post & Heq & Hf & He). specialize (H name Hn). rewrite Ha in H.
    pose proof (proj1 (check_lines_nil _ _ _) H pre line post) as Hp.
    rewrite numbered_lines in Hp. by apply Hp.
  - intros H name Hn. destruct (ch_Artifacts c !! name) as [a|] eqn:Ha; [|done].
    apply check_lines_nil. intros pre line post Heq Hf He. rewrite numbered_lines in Heq.
    apply (H name a line Hn Ha). exists pre, post. by destruct (Nat.even _).
Qed.

(** ** Every finding is an error of a listed rule *)

Section listed.
Context (range_ : gmap string Artifact -> list Artifact) (t : tree) (c : Change).

Lemma listed_no_alternative path line pending : listed (no_alternative path line pending).
Proof. unfold no_alternative. eauto with unc. Qed.

Lemma listed_decisions path body : forall line pending, listed (check_decisions path line pending body).
Proof.
  induction body as [|l body IH]; intros line pending; cbn [check_decisions].
  - apply listed_no_alternative.
  - repeat case_match; [apply listed_app; [apply listed_no_alternative|]|..]; apply IH.
Qed.

Lemma listed_headings rule name path hs :
  bool_decide (rule ∈ Rules) = true -> listed (missing_headings c rule name path hs).
Proof. intros H. apply listed_bind. intros h. by apply listed_when. Qed.

Hint Resolve listed_no_alternative listed_decisions : unc.
Hint Extern 1 (listed (missing_headings _ _ _ _ _)) => by apply listed_headings : unc.

Lemma listed_lines path lines : forall inFence, listed (check_lines path inFence lines).
Proof.
  induction lines as [|[i l] lines IH]; intros inFence; cbn [check_lines]; [eauto with unc|].
  destruct (MatchString fenceRE l); [apply IH|]. apply listed_app; [|apply IH].
  destruct inFence; [eauto with unc|]. unfold check_line.
  destruct (find boldLeadRE l); eauto with unc.
Qed.
Hint Resolve listed_lines : unc.

Lemma listed_phase path p fs : checkPhase path p = Some fs -> listed fs.
Proof.
  unfold checkPhase, checkLoopPhase, check_iters. intros H.
  repeat (case_match; simplify_option_eq; eauto with unc).
  all: repeat first [apply listed_app | apply listed_bind; intros]; eauto with unc.
Qed.

Lemma listed_phases fs : checkPhases c = Some fs -> listed fs.
Proof.
  unfold checkPhases. destruct (ch_Artifacts c !! "tasks") as [a|].
  2: { intros [= <-]. eauto with unc. }
  intros (ls & Hm & ->)%fmap_Some. apply mapM_Some in Hm. clear -Hm.
  induction Hm as [|p fs ps ls Hp Hm IH]; [apply listed_nil|].
  simpl. apply listed_app; [by eapply listed_phase|done].
Qed.

Lemma Check_listed r : Check_ range_ t c = Some r -> listed (rp_Findings r).
Proof.
  unfold Check_. destruct (checkPhases c) as [ph|] eqn:Hph; [|done]. intros [= <-]. simpl.
  apply listed_phases in Hph.
  repeat apply listed_app; try done;
    unfold checkProposal, checkDesign, checkReview, checkTaskGraph, check_graph, check_id, check_deps,
      checkSpecs, check_requirement, check_scenario, checkCitations, check_cites, checkProse;
    cbv zeta; repeat case_match; repeat first [apply listed_app | apply listed_bind; intros];
    repeat case_match; eauto with unc.
  all: repeat first [apply listed_app | apply listed_bind; intros]; repeat case_match; eauto with unc.
Qed.

Lemma Failed_false r : listed (rp_Findings r) -> Failed r = false <-> rp_Findings r = [].
Proof.
  unfold Failed. destruct (rp_Findings r) as [|f fs]; [done|]. intros [[Hs _] _]%Forall_cons. simpl.
  rewrite bool_decide_eq_true_2 by done. done.
Qed.
End listed.

(** ** Loaded changes *)

Lemma FieldsFunc_head P c s : P c = false -> is_Some (head (FieldsFunc P (String c s))).
Proof.
  intros Hc. unfold FieldsFunc. simpl. rewrite Hc.
  match goal with |- is_Some (head (?g _ _)) => set (go := g) end.
  assert (forall s cur, cur <> "" -> is_Some (head (go cur s))) as H; [|by apply H].
  clear. induction s as [|d s IH]; intros cur Hne; simpl.
  - destruct cur; [done|by eexists].
  - destruct (P d); [destruct cur; [done|by eexists]|]. apply IH. by destruct cur.
Qed.

Definition trimmed_markers (p : Phase) : Prop :=
  forall k v, ph_Markers p !! k = Some v -> exists x, v = TrimSpace x.

Lemma phase_line_trimmed st l :
  Forall trimmed_markers (ps_phases st) -> Forall trimmed_markers (ps_phases (phase_line st l)).
Proof.
  destruct l as [i line]. intros H. unfold phase_line.
  destruct (MatchString fenceRE line); [done|]. destruct (ps_inFence st); [done|]. simpl.
  destruct (find phaseRE line).
  { constructor; [|done]. intros k v Hk. simpl in Hk. by rewrite lookup_empty in Hk. }
  destruct (ps_phases st) as [|p rest]; [done|]. apply Forall_cons in H as [Hp Hr].
  constructor; [|done]. unfold phase_item.
  destruct (find taskRE line); [done|]. destruct (find markerRE line) as [m|]; [|done].
  intros k v. simpl. rewrite lookup_insert_Some. intros [[_ <-]|[_ Hk]]; eauto.
Qed.

Lemma parsePhases_trimmed text : Forall trimmed_markers (parsePhases text).
Proof.
  unfold parsePhases. apply Forall_rev.
  apply (foldl_ind (fun st => Forall trimmed_markers (ps_phases st))); [constructor|].
  intros st l _. apply phase_line_trimmed.
Qed.

Lemma checkPhase_total path p : trimmed_markers p -> is_Some (checkPhase path p).
Proof.
  intros Hp. unfold checkPhase. repeat case_match; cbn [mbind option_bind]; try by eexists.
  unfold checkLoopPhase, check_iters. unfold marker in *. set (v := default "" (ph_Markers p !! "max-iters")).
  destruct (String.eqb_spec v "") as [|Hne]; [by eexists|].
  assert (exists x, v = TrimSpace x) as [x Hx].
  { unfold v in *. destruct (ph_Markers p !! "max-iters") eqn:Hk; [by eapply Hp|done]. }
  assert (is_Some (head (Fields v))) as [first ->]; [|by eexists].
  destruct v as [|a v]; [done|]. apply FieldsFunc_head. symmetry in Hx. by apply TrimFunc_head in Hx.
Qed.

Lemma checkPhases_total c : Forall trimmed_markers (ch_Phases c) -> is_Some (checkPhases c).
Proof.
  intros H. unfold checkPhases. destruct (_ !! _) as [a|]; [|by eexists]. apply fmap_is_Some, mapM_is_Some_2.
  eapply Forall_impl; [done|]. intros p. apply checkPhase_total.
Qed.

(** ** Working through a change *)

(** Checking off a task. *)
Definition check_off (t u : Task) : Task :=
  if bool_decide (tk_ID u = tk_ID t /\ tk_Line u = tk_Line t) then
    {| tk_ID := tk_ID u; tk_Text := tk_Text u; tk_Done := true; tk_Line := tk_Line u;
       tk_Deps := tk_Deps u; tk_Writes := tk_Writes u |}
  else u.

Definition finish (t : Task) (c : Change) : Change :=
  {| ch_Name := ch_Name c; ch_Dir := ch_Dir c; ch_Artifacts := ch_Artifacts c;
     ch_Phases := (fun p => with_tasks p (check_off t <$> ph_Tasks p)) <$> ch_Phases c |}.

(** One of the tasks that [Next] offers is done and checked off. *)
Inductive work (c : Change) : Change -> Prop :=
| work_on t : t ∈ rd_Tasks (Next c).1 -> work c (finish t c).

Definition acyclic_phases (c : Change) : Prop :=
  forall p, p ∈ ch_Phases c -> acyclic (graph_of (ph_Tasks p)).

Definition open_tasks (c : Change) : nat := length (List.filter (fun t => negb (tk_Done t)) (AllTasks c)).

Lemma check_off_fields t u : tk_ID (check_off t u) = tk_ID u /\ tk_Deps (check_off t u) = tk_Deps u.
Proof. unfold check_off. by case_match. Qed.

Lemma check_off_done t u :
  tk_Done (check_off t u) = bool_decide (tk_ID u = tk_ID t /\ tk_Line u = tk_Line t) || tk_Done u.
Proof. unfold check_off. by case_match. Qed.

Lemma graph_of_check_off t tasks : graph_of (check_off t <$> tasks) = graph_of tasks.
Proof.
  unfold graph_of. generalize (∅ : gmap string (list string)).
  induction tasks as [|u tasks IH]; intros g; [done|]. simpl.
  destruct (check_off_fields t u) as [-> ->]. apply IH.
Qed.

Lemma acyclic_finish t c : acyclic_phases c -> acyclic_phases (finish t c).
Proof.
  intros H p (q & -> & Hq)%list_elem_of_fmap. simpl. rewrite graph_of_check_off. by apply H.
Qed.

Lemma AllTasks_finish t c : AllTasks (finish t c) = check_off t <$> AllTasks c.
Proof.
  unfold AllTasks, finish. cbn [ch_Phases]. induction (ch_Phases c) as [|p ps IH]; [done|].
  by rewrite fmap_cons, !bind_cons, fmap_app, IH.
Qed.

Lemma open_check_off t l :
  length (List.filter (fun u => negb (tk_Done u)) (check_off t <$> l)) <=
  length (List.filter (fun u => negb (tk_Done u)) l) /\
  (t ∈ l -> tk_Done t = false ->
   length (List.filter (fun u => negb (tk_Done u)) (check_off t <$> l)) <
   length (List.filter (fun u => negb (tk_Done u)) l)).
Proof.
  induction l as [|u l [IH1 IH2]]; [by split; [|intros ?%elem_of_nil]|].
  rewrite fmap_cons, elem_of_cons. cbn [List.filter]. rewrite check_off_done.
  destruct (bool_decide (tk_ID u = tk_ID t /\ tk_Line u = tk_Line t)) eqn:Hu, (tk_Done u) eqn:Hd;
    cbn [orb negb length]; (split; [lia|]); intros [->|Hin] Ht; try specialize (IH2 Hin Ht); try lia;
    try congruence.
  by apply bool_decide_eq_false in Hu as [].
Qed.

Lemma ready_open c t : t ∈ rd_Tasks (Next c).1 -> t ∈ AllTasks c /\ tk_Done t = false.
Proof.
  unfold Next. pose proof (find_open (ch_Phases c)) as Hf.
  destruct (List.find open_phase (ch_Phases c)) as [p|]; [|by intros ?%elem_of_nil].
  destruct Hf as (before & after & Heq & _). destruct (findCycle _); [|by intros ?%elem_of_nil].
  rewrite split_ready_spec. simpl. intros (Ht & Hd & _)%elem_of_ready. split; [|done].
  apply list_elem_of_bind. exists p. split; [done|]. rewrite Heq. set_solver.
Qed.

Lemma work_open c c' : work c c' -> open_tasks c' < open_tasks c.
Proof.
  intros [t Ht]. apply ready_open in Ht as [Ht Hd]. unfold open_tasks. rewrite AllTasks_finish.
  by apply open_check_off.
Qed.

Lemma Next_acyclic c :
  acyclic_phases c -> (Next c).2 = None /\ (rd_Done (Next c).1 = true \/ rd_Tasks (Next c).1 <> []).
Proof.
  intros Ha. unfold Next. pose proof (find_open (ch_Phases c)) as Hf.
  destruct (List.find open_phase (ch_Phases c)) as [p|]; [|by auto].
  destruct Hf as (before & after & Heq & Hp & _).
  assert (findCycle (ph_Tasks p) = []) as Hc by (apply findCycle_acyclic, Ha; rewrite Heq; set_solver).
  pose proof (some_task_ready _ Hp Hc) as Hr. rewrite Hc.
  destruct (split_ready _ _) as [ready blocked]. simpl in *. auto.
Qed.

Lemma acyclic_rtc c c' : rtc work c c' -> acyclic_phases c -> acyclic_phases c'.
Proof. induction 1 as [|x y z [t Ht] _ IH]; [done|]. intros H. by apply IH, acyclic_finish. Qed.

Lemma work_completes c : acyclic_phases c -> exists c', rtc work c c' /\ rd_Done (Next c').1 = true.
Proof.
  remember (open_tasks c) as n eqn:Hn. revert c Hn.
  induction n as [n IH] using lt_wf_ind. intros c -> Ha.
  destruct (Next_acyclic c Ha) as [_ [Hd|Hr]]; [by exists c|].
  destruct (rd_Tasks (Next c).1) as [|t l] eqn:Heq; [done|].
  assert (work c (finish t c)) as Hw by (constructor; rewrite Heq; by left).
  destruct (IH _ (work_open _ _ Hw) (finish t c) eq_refl (acyclic_finish t c Ha)) as (c' & Hc & Hd).
  exists c'. split; [by eapply rtc_l|done].
Qed.

(** A change the rubric passes has no cycle. *)
Lemma Check_acyclic range_ t c r :
  Check_ range_ t c = Some r -> Failed r = false -> acyclic_phases c.
Proof.
  intros Hr Hf. rewrite Failed_false in Hf by by eapply Check_listed.
  unfold Check_ in Hr. destruct (checkPhases c) as [ph|] eqn:Hph; [|done]. injection Hr as <-.
  simpl in Hf. rewrite !app_nil in Hf. destruct Hf as (_ & _ & _ & -> & Hg & _).
  apply checkPhases_nil in Hph as [Ht _]. pose proof (proj1 (checkTaskGraph_nil c Ht) Hg) as Hg'.
  intros p Hp. by apply Hg'.
Qed.

(** ** Theorems *)

(** The rubric passes exactly the clean changes. *)
Lemma Check_clean (range_ : gmap string Artifact -> list Artifact) (t : tree) (c : Change)
    (Hrange : forall m, range_ m ≡ₚ (map_to_list m).*2) :
  (exists r, Check_ range_ t c = Some r /\ Failed r = false) <-> clean t c.
Proof.
  transitivity (checkPhases c = Some [] /\ checkProposal t c = [] /\ checkDesign c = [] /\
    checkReview c = [] /\ checkTaskGraph c = [] /\ checkSpecs t c = [] /\
    checkCitations range_ t c = [] /\ checkProse c = []).
  - split.
    + intros (r & Hr & Hf). rewrite Failed_false in Hf by by eapply Check_listed.
      unfold Check_ in Hr. destruct (checkPhases c) as [ph|]; [|done]. injection Hr as <-.
      simpl in Hf. rewrite !app_nil in Hf. by destruct Hf as (? & ? & ? & -> & ? & ? & ? & ?).
    + unfold Check_. intros (-> & -> & -> & -> & -> & -> & -> & ->). by eexists.
  - rewrite checkPhases_nil, checkProposal_nil, checkDesign_nil, checkReview_nil, checkSpecs_nil,
      checkCitations_nil, checkProse_nil by done.
    split.
    + intros ([Ht ?] & (? & ? & ?) & (? & ?) & (? & ?) & Hg & ? & ? & ?).
      pose proof (proj1 (checkTaskGraph_nil c Ht) Hg). by constructor.
    + intros []. split_and!; try done. by apply checkTaskGraph_nil.
Qed.

(** C33. The rubric passes exactly the clean changes, whatever order the artifacts are ranged
    over in: the artifacts have their sections, every decision its rejected alternative, every
    phase that is not of the rollout a shape and a review among its tasks, loops a command to stop
    on and a number to stop at, tasks names of their phase, dependencies within it and no cycle,
    requirements a negative scenario, and the citations are exactly the records.  The review may
    stand at any place of its phase: the text of the rule and the schema ask for it at the end,
    and the code does not (Example [review_may_come_first]). *)
Theorem Check_accepts (range_ : gmap string Artifact -> list Artifact) (t : tree) (c : Change)
    (Hrange : forall m, range_ m ≡ₚ (map_to_list m).*2) :
  (exists r, Check_ range_ t c = Some r /\ Failed r = false) <-> clean t c.
Proof. by apply Check_clean. Qed.

(** Checking a change that was loaded from a tree never panics.  Every finding is of a
    listed rule and at error severity, so the report fails exactly when there is one. *)
Theorem Check_total (range_ : gmap string Artifact -> list Artifact) (t : tree) (dir : string) (c : Change)
    (Hload : Load t dir = Ok c) :
  exists r, Check_ range_ t c = Some r /\
    (forall f, f ∈ rp_Findings r -> fi_Rule f ∈ Rules /\ fi_Severity f = SeverityError) /\
    (Failed r = true <-> rp_Findings r <> []).
Proof.
  assert (Forall trimmed_markers (ch_Phases c)) as Ht.
  { unfold Load in Hload. destruct (Stat t dir) as [[]|]; [|done..]. injection Hload as <-. simpl.
    case_match; [apply parsePhases_trimmed|constructor]. }
  destruct (checkPhases_total c Ht) as [ph Hph]. unfold Check_. rewrite Hph. eexists. split; [done|].
  assert (Check_ range_ t c = Some {| rp_Change := ch_Name c; rp_Findings :=
    checkProposal t c ++ checkDesign c ++ checkReview c ++ ph ++ checkTaskGraph c ++ checkSpecs t c ++
    checkCitations range_ t c ++ checkProse c |}) as Hl%Check_listed by by unfold Check_; rewrite Hph.
  split.
  - intros f Hf. by destruct (proj1 (Forall_forall _ _) Hl f Hf).
  - rewrite <- (Failed_false _ Hl). by rewrite not_false_iff_true.
Qed.

(** A change that passes the rubric can be worked through.  However its ready tasks are
    chosen and checked off, [Next] never reports an error and always offers a task until all
    are done; there are at most as many steps as open tasks; and some sequence of them
    finishes the change. *)
Theorem passing_change_completes (range_ : gmap string Artifact -> list Artifact) (t : tree) (c : Change)
    (r : Report) (Hr : Check_ range_ t c = Some r) (Hok : Failed r = false) :
  (forall c', rtc work c c' ->
     (Next c').2 = None /\ (rd_Done (Next c').1 = true \/ rd_Tasks (Next c').1 <> [])) /\
  (forall n c', nsteps work n c c' -> n <= open_tasks c) /\
  exists c', rtc work c c' /\ rd_Done (Next c').1 = true.
Proof.
  pose proof (Check_acyclic _ _ _ _ Hr Hok) as Ha. split_and!.
  - intros c' Hc. by apply Next_acyclic, (acyclic_rtc c).
  - clear. intros n c' H. induction H as [|n x y z Hw _ IH]; [lia|]. apply work_open in Hw. lia.
  - by apply work_completes.
Qed.

(** ** A change on disk *)

Definition text_of (lines : list string) : string := Join lines newline.

Definition sampleTree : tree :=
  tree_of "/repo"
    [("openspec/changes/demo/proposal.md",
      text_of ["## Why"; "Because."; "## What Changes"; "A thing."; "## Behavior"; "- It works."; "## Impact";
               "- internal/x, cmd/y"]);
     ("openspec/changes/demo/design.md",
      text_of ["## Context"; "See [cite: one]."; "## Decisions"; "- Decision: do it"; "  because";
               "- Alternative rejected: do not"; "## Rollout & Gating"; "## Risks / Trade-offs"]);
     ("openspec/changes/demo/review.md",
      text_of ["## Rubric"; "## Recommendation"; "## Owner decision"; "Approved."]);
     ("openspec/changes/demo/tasks.md",
      text_of ["## 1. Build"; "- **SHAPE** loop"; "- **STOP** `go test ./...`"; "- **MAX-ITERS** 5 rounds";
               "- **TERMINAL** give up"; "- [x] 1.1 Write it";
               "- [ ] 1.2 Fix it `deps: 1.1` "; "- [ ] 1.3 Adversarial review `deps:` 1.2"; "## 2. Rollout"]);
     ("openspec/changes/demo/specs/x/spec.md",
      text_of ["### Requirement: R"; "#### Scenario: S"; "- **POLARITY** negative"]);
     ("openspec/changes/demo/citations.lock",
      "{" +:+ dquote +:+ "records" +:+ dquote +:+ ": [{" +:+ dquote +:+ "id" +:+ dquote +:+ ": " +:+
      dquote +:+ "one" +:+ dquote +:+ "}]}")].

Definition in_order (m : gmap string Artifact) : list Artifact := (map_to_list m).*2.

Definition sampleLoaded : Change :=
  match Load sampleTree "openspec/changes/demo" with
  | Ok c => c
  | Err _ => {| ch_Name := ""; ch_Dir := ""; ch_Artifacts := ∅; ch_Phases := [] |}
  end.

Lemma Check_accepts_witness : clean sampleTree sampleLoaded.
Proof.
  apply (Check_accepts in_order); [done|]. eexists. split; [by vm_compute|]. by vm_compute.
Defined.

(** What the rule [phase-has-review] and the schema say: a phase that is not of the rollout ends
    with the review. *)
Definition ends_with_review (p : Phase) : bool :=
  MatchString rolloutRE (ph_Name p) ||
  match last (ph_Tasks p) with Some task => MatchString reviewRE (tk_Text task) | None => false end.

(** The tasks of the change, with the review in front of the work. *)
Definition review_first : Change :=
  {| ch_Name := ch_Name sampleLoaded; ch_Dir := ch_Dir sampleLoaded; ch_Artifacts := ch_Artifacts sampleLoaded;
     ch_Phases := parsePhases (text_of
       ["## 1. Build"; "- **SHAPE** loop"; "- **STOP** `go test ./...`"; "- **MAX-ITERS** 5 rounds";
        "- **TERMINAL** give up"; "- [ ] 1.1 Adversarial review"; "- [ ] 1.2 Write it"; "## 2. Rollout"]) |}.

(** A change whose reviews end their phases passes, and so does one whose review comes before the
    work: the documented rule is not the one that is checked. *)
Example review_may_come_first :
  forallb ends_with_review (ch_Phases sampleLoaded) = true /\ Check_ in_order sampleTree sampleLoaded = Some {| rp_Change := "demo"; rp_Findings := [] |} /\
  forallb ends_with_review (ch_Phases review_first) = false /\ Check_ in_order sampleTree review_first = Some {| rp_Change := "demo"; rp_Findings := [] |}.
Proof. split_and!; by vm_compute. Qed.

Lemma Check_total_witness :
  Load sampleTree "openspec/changes/demo" = Ok sampleLoaded /\
  exists r, Check_ in_order sampleTree sampleLoaded = Some r /\
    (forall f, f ∈ rp_Findings r -> fi_Rule f ∈ Rules /\ fi_Severity f = SeverityError) /\
    (Failed r = true <-> rp_Findings r <> []).
Proof.
  split; [by vm_compute|]. apply (Check_total in_order sampleTree "openspec/changes/demo").
  by vm_compute.
Defined.

Lemma passing_change_completes_witness :
  open_tasks sampleLoaded = 2 /\ exists c', rtc work sampleLoaded c' /\ rd_Done (Next c').1 = true.
Proof.
  split; [by vm_compute|].
  apply (passing_change_completes in_order sampleTree sampleLoaded
           {| rp_Change := "demo"; rp_Findings := [] |}); by vm_compute.
Defined.
