(* ===== verification/Gate.v ===== *)
(** * The factory gate: [internal/gate/gate.go], [verdicts.go] and [git.go].

    The verdicts for a pull request, from the paths that differ between two refs, what is
    present at the base, and the tree of the checkout.  Git is a record of what its two
    commands answer. *)

From S2P Require Import Prelude GoStrings Files GoTime Citelock SpecParse SpecCheck.

(** ** Data *)

(** [internal/gate/gate.go:28-44] Tier *)
Inductive Tier := TierAmendment | TierExperiment | TierT1 | TierT2 | TierT3.

#[export] Instance tier_eq_dec : EqDecision Tier.
Proof. solve_decision. Defined.

(** [internal/gate/gate.go:33-43] Tier: as a string *)
Definition tier_string (tier : Tier) : string :=
  match tier with
  | TierAmendment => "amendment"
  | TierExperiment => "experiment"
  | TierT1 => "T1"
  | TierT2 => "T2"
  | TierT3 => "T3"
  end.

(** [internal/gate/gate.go:47-53] Verdict *)
Record Verdict := {
  vd_Name : string; vd_Required : bool; vd_Pass : bool; vd_Summary : string; vd_Detail : list string;
}.

(** [internal/gate/gate.go:56-61] Result *)
Record GateResult := {
  gr_Change : string; gr_Tier : string; gr_Reason : string; gr_Verdicts : list Verdict;
}.

(** [internal/gate/gate.go:65-73] Only *)
Definition Only (r : GateResult) (name : string) : GateResult :=
  {| gr_Change := gr_Change r; gr_Tier := gr_Tier r; gr_Reason := gr_Reason r;
     gr_Verdicts := List.filter (fun v => String.eqb (vd_Name v) name) (gr_Verdicts r) |}.

(** [internal/gate/gate.go:76-83] Failed *)
Definition GateFailed (r : GateResult) : bool :=
  existsb (fun v => vd_Required v && negb (vd_Pass v)) (gr_Verdicts r).

(** [internal/gate/gate.go:87-92] Repo *)
Record Repo := {
  ChangedPaths : string -> string -> result (list string);
  Exists_ : string -> string -> result bool;
}.

(** [internal/gate/gate.go:95-105] Options *)
Record Options := { op_ChangeID : string; op_Base : string; op_Head : string; op_Root : string }.

(** ** Classifying paths *)

(** [internal/gate/gate.go:136-136] docPrefixes *)
Definition docPrefixes : list string := ["docs/"; ".github/ISSUE_TEMPLATE/"].
(** [internal/gate/gate.go:137-137] testSuffixes *)
Definition testSuffixes : list string := ["_test.go"; ".test.ts"; ".spec.ts"].
(** [internal/gate/gate.go:138-138] testPrefixes *)
Definition testPrefixes : list string := ["test/"; "e2e/"; "web/e2e/"].
(** [internal/gate/gate.go:147-149] publicSurfaces *)
Definition publicSurfaces : list string :=
  ["proto/"; "api/"; "deploy/"; "docker/"; "gen/"; "internal/server/"].
(** [internal/gate/gate.go:153-153] specPrefix *)
Definition specPrefix : string := "openspec/specs/".
(** [internal/gate/gate.go:157-157] changePrefix *)
Definition changePrefix : string := "openspec/changes/".

(** [internal/gate/gate.go:226-233] isDoc *)
Definition isDoc (p : string) : bool := existsb (HasPrefix p) docPrefixes || HasSuffix p ".md".

(** [internal/gate/gate.go:235-247] isTest *)
Definition isTest (p : string) : bool :=
  existsb (HasPrefix p) testPrefixes || existsb (HasSuffix p) testSuffixes.

(** [internal/gate/gate.go:249-256] publicSurface *)
Definition publicSurface (p : string) : string :=
  match List.find (HasPrefix p) publicSurfaces with
  | Some prefix => TrimSuffix prefix "/"
  | None => ""
  end.

(** The first two segments of a path. *)
Definition two_segments (p : string) : option string :=
  match Split p "/" with a :: b :: _ => Some (a +:+ "/" +:+ b) | _ => None end.

(** [internal/gate/gate.go:260-276] capabilityOf *)
Definition capabilityOf (p : string) : string :=
  if HasPrefix p "internal/" || HasPrefix p "cmd/" then default (Dir p) (two_segments p)
  else if HasPrefix p "web/src/" then "web"
  else if HasPrefix p "packages/" then default (Dir p) (two_segments p)
  else Dir p.

(** [internal/gate/gate.go:278-288] dedupe: [seen] is the set of the items already kept *)
Fixpoint dedupe_from (seen items : list string) : list string :=
  match items with
  | [] => []
  | item :: items =>
      if existsb (String.eqb item) seen then dedupe_from seen items
      else item :: dedupe_from (item :: seen) items
  end.

(** [internal/gate/gate.go:278-288] dedupe *)
Definition dedupe : list string -> list string := dedupe_from [].

(** [internal/gate/gate.go:189-194] ClassifyTier: a path that counts as code *)
Definition is_code (p : string) : bool := negb (isDoc p || isTest p || HasPrefix p changePrefix).

(** [internal/gate/gate.go:166-224] ClassifyTier *)
Definition ClassifyTier (changed : list string) : Tier * string :=
  match changed with
  | [] => (TierT1, "the diff is empty")
  | _ =>
      match List.filter (fun p => HasPrefix p specPrefix) changed with
      | [] =>
          let code := List.filter is_code changed in
          let surfaces := List.filter (fun s => negb (String.eqb s "")) (publicSurface <$> code) in
          let names := sort_strings (dedupe (List.filter (fun s => negb (String.eqb s "")) (capabilityOf <$> code))) in
          match code with
          | [] => (TierT1, "the diff touches only documentation and tests")
          | _ =>
              match surfaces, names with
              | _ :: _, _ => (TierT3, "the diff alters a public surface: " +:+
                                      Join (dedupe (sort_strings surfaces)) ", ")
              | [], _ :: _ :: _ =>
                  (TierT3, "the diff spans " +:+ Itoa (Z.of_nat (length names)) +:+ " capabilities: " +:+
                           Join names ", ")
              | [], [name] => (TierT2, "the diff changes the capability " +:+ name)
              | [], [] => (TierT2, "the diff changes implementation code")
              end
          end
      | amended => (TierAmendment, "the diff amends the spec corpus: " +:+ Join amended ", ")
      end
  end.

(** ** Paths that a change declares *)

(** [internal/gate/verdicts.go:309-309] looksLikePath: the known extensions *)
Definition source_extensions : list string :=
  [".go"; ".ts"; ".tsx"; ".yml"; ".yaml"; ".json"; ".proto"; ".md"].

(** [internal/gate/verdicts.go:297-315] looksLikePath *)
Definition looksLikePath (token : string) : bool :=
  if String.eqb token "" || ContainsAny token (" " +:+ String "009" "") then false
  else if negb (Contains token "/") && negb (Contains token ".") then false
  else if Contains token "/" then true
  else existsb (HasSuffix token) source_extensions.

(** [internal/gate/verdicts.go:281-290] declaredPaths: the paths in a bullet *)
Definition bullet_paths (bullet : string) : list string :=
  List.filter looksLikePath
    ((fun field => Trim field ".:;()") <$> FieldsFunc (char_in (", " +:+ String "009" "`")) bullet).

(** [internal/gate/verdicts.go:271-293] declaredPaths *)
Definition declaredPaths (change : Change) : list string :=
  match section change "proposal" "## Impact" with
  | None => []
  | Some impact => dedupe (sort_strings (Bullets (Some impact) ≫= bullet_paths))
  end.

(** [internal/gate/verdicts.go:320-325] coveredBy: one entry *)
Definition covers (d p : string) : bool :=
  let d := TrimSuffix d "/" in String.eqb p d || HasPrefix p (d +:+ "/").

(** [internal/gate/verdicts.go:319-327] coveredBy *)
Definition coveredBy (declared : list string) (p : string) : bool := existsb (fun d => covers d p) declared.

(** [internal/gate/verdicts.go:329-337] touches *)
Definition touches (changed : list string) (declared : string) : bool := existsb (covers declared) changed.

(** [internal/gate/verdicts.go:341-349] isGenerated *)
Definition isGenerated (p : string) : bool :=
  HasPrefix p "gen/" || HasPrefix p "cmd/uncworks-app/frontend/wailsjs/" ||
  HasSuffix p "zz_generated.deepcopy.go" || HasSuffix p "package-lock.json".

(** [internal/gate/verdicts.go:353-355] isChangeArtifact *)
Definition isChangeArtifact (p : string) : bool := HasPrefix p "openspec/".

(** [internal/gate/verdicts.go:121-123] unclaimedPaths: a path the change has to claim *)
Definition claimable (p : string) : bool :=
  negb (isGenerated p || isChangeArtifact p || isDoc p || isTest p).

(** [internal/gate/verdicts.go:117-133] unclaimedPaths *)
Definition unclaimedPaths (change : Change) (changed : list string) : list string :=
  let declared := declaredPaths change in
  let code := List.filter claimable changed in
  let unclaimed := List.filter (fun p => negb (coveredBy declared p)) code in
  if (length code =? 0) || (length unclaimed <? length code) then [] else unclaimed.

(** [internal/gate/verdicts.go:135-140] truncateList *)
Definition truncateList (items : list string) (n : nat) : list string :=
  if length items <=? n then items
  else take n items ++ ["and " +:+ Itoa (Z.of_nat (length items - n)) +:+ " more"].

(** ** Verdicts *)

(** [internal/gate/verdicts.go:16-18] changeDir *)
Definition changeDir (root id : string) : string := PathJoin root ("openspec/changes/" +:+ id).

(** [internal/gate/verdicts.go:21-23] changePath *)
Definition changePath (id : string) : string := "openspec/changes/" +:+ id.

Section verdicts.
Context (repo : Repo) (t : tree) (ck : clock) (opts : Options).

Definition proposalPath : string := changePath (op_ChangeID opts) +:+ "/proposal.md".
Definition load : result Change := Load t (changeDir (op_Root opts) (op_ChangeID opts)).

(** [internal/gate/verdicts.go:85-107] tierVerdict: the owner decision of a T3 change; [None] when
    there is one, otherwise what is missing *)
Definition owner_decision : option string :=
  match load with
  | Err e => Some ("could not read the change: " +:+ e)
  | Ok change =>
      match ch_Artifacts change !! "review" with
      | None => Some "tier T3 needs a review.md, and the change has none"
      | Some _ =>
          match section change "review" "## Owner decision" with
          | None => Some "review.md records no owner decision"
          | Some decision =>
              if undecided decision
              then Some "the owner decision is still pending, so a tier T3 change cannot merge"
              else None
          end
      end
  end.

(** [internal/gate/verdicts.go:30-111] tierVerdict: what the tier demands and the change lacks *)
Definition tier_problem (tier : Tier) (changed : list string) : option string :=
  match tier with
  | TierExperiment | TierT1 => None
  | TierAmendment =>
      Some ("this diff amends openspec/specs/, so it is an escalation rather than an " +:+
            "implementation. Merge the amendment on its own, then reopen the code " +:+
            "against the amended spec")
  | _ =>
      if String.eqb (op_ChangeID opts) "" then
        Some ("tier " +:+ tier_string tier +:+ " needs a merged spec, and the pull request names no " +:+
              "change. Name it with --change, or in a branch of the form change/<id>")
      else match Exists_ repo (op_Base opts) proposalPath with
      | Err e => Some ("could not read the base ref: " +:+ e)
      | Ok false => Some ("tier " +:+ tier_string tier +:+ " needs a merged spec, and " +:+ proposalPath +:+
                          " is absent from " +:+ op_Base opts)
      | Ok true =>
          match load with
          | Err e => Some ("could not read the change: " +:+ e)
          | Ok change =>
              match unclaimedPaths change changed with
              | [] => match tier with TierT3 => owner_decision | _ => None end
              | unclaimed =>
                  Some ("the change " +:+ Quote (op_ChangeID opts) +:+ " does not claim this work: its " +:+
                        "Impact covers none of " +:+ Join (truncateList unclaimed 5) ", ")
              end
          end
      end
  end.

(** [internal/gate/verdicts.go:30-111] tierVerdict *)
Definition tierVerdict (tier : Tier) (reason : string) (changed : list string) : Verdict :=
  let problem := tier_problem tier changed in
  {| vd_Name := "factory/tier"; vd_Required := true;
     vd_Pass := match problem with None => true | Some _ => false end;
     vd_Summary := tier_string tier +:+ ": " +:+ reason;
     vd_Detail := match problem with None => [] | Some p => [p] end |}.

Definition citations (pass : bool) (summary : string) (detail : list string) : Verdict :=
  {| vd_Name := "factory/citations"; vd_Required := true; vd_Pass := pass; vd_Summary := summary;
     vd_Detail := detail |}.

(** [internal/gate/verdicts.go:146-181] citationsVerdict *)
Definition citationsVerdict : Verdict :=
  let dir := changeDir (op_Root opts) (op_ChangeID opts) in
  if String.eqb (op_ChangeID opts) "" then
    citations true "no change named, so there is no lock to gate" []
  else if negb (exists_ t dir) then citations true "the change directory is not in this tree" []
  else if negb (exists_ t (PathJoin dir "citations.lock")) then
    citations false ("the change carries no citations.lock. Write {" +:+ dquote +:+ "records" +:+ dquote +:+
                     ":[]} to state that it cites nothing") []
  else match Verify t ck dir with
  | (Err e, findings) => citations false e findings
  | (Ok _, _) => citations true "the offline citation gate passed" []
  end.

Definition conformance (pass : bool) (summary : string) (detail : list string) : Verdict :=
  {| vd_Name := "factory/spec-conformance"; vd_Required := false; vd_Pass := pass;
     vd_Summary := summary; vd_Detail := detail |}.

(** [internal/gate/verdicts.go:185-229] conformanceVerdict *)
Definition conformanceVerdict (changed : list string) : Verdict :=
  if String.eqb (op_ChangeID opts) "" then
    conformance true "no change named, so there is nothing to compare against" []
  else match load with
  | Err e => conformance false ("could not read the change: " +:+ e) []
  | Ok change =>
      let declared := declaredPaths change in
      match declared with
      | [] => conformance false "the proposal's Impact section declares no path" []
      | _ =>
          let undeclared := List.filter (fun p => negb (isGenerated p || isChangeArtifact p) &&
                                                  negb (coveredBy declared p)) changed in
          let untouched := List.filter (fun d => negb (touches changed d)) declared in
          conformance (length undeclared =? 0)
            (Itoa (Z.of_nat (length undeclared)) +:+ " undeclared paths, " +:+
             Itoa (Z.of_nat (length untouched)) +:+ " declared paths untouched")
            (((fun p => "undeclared: " +:+ p) <$> undeclared) ++
             ((fun d => "declared but untouched: " +:+ d) <$> untouched))
      end
  end.

Definition order (pass : bool) (summary : string) : Verdict :=
  {| vd_Name := "factory/order"; vd_Required := false; vd_Pass := pass; vd_Summary := summary;
     vd_Detail := [] |}.

(** [internal/gate/verdicts.go:232-267] orderVerdict *)
Definition orderVerdict (changed : list string) : Verdict :=
  if String.eqb (op_ChangeID opts) "" then order true "no change named"
  else if negb (existsb (fun p => negb (isDoc p) && negb (isChangeArtifact p)) changed) then
    order true "the diff changes no code, so nothing can precede its spec"
  else match Exists_ repo (op_Base opts) proposalPath with
  | Err e => order false ("could not read the base ref: " +:+ e)
  | Ok false => order false ("the code changes but " +:+ proposalPath +:+ " is absent from " +:+
                             op_Base opts +:+ ", so the spec did not merge first")
  | Ok true => order true ("the spec is present in " +:+ op_Base opts)
  end.

(** [internal/gate/gate.go:108-128] Check: the result and the error *)
Definition CheckGate : GateResult * option string :=
  match ChangedPaths repo (op_Base opts) (op_Head opts) with
  | Err e => ({| gr_Change := ""; gr_Tier := ""; gr_Reason := ""; gr_Verdicts := [] |},
              Some ("reading the diff between " +:+ op_Base opts +:+ " and " +:+ op_Head opts +:+ ": " +:+ e))
  | Ok changed =>
      let changed := sort_strings changed in
      let '(tier, reason) := ClassifyTier changed in
      let result := {| gr_Change := op_ChangeID opts; gr_Tier := tier_string tier; gr_Reason := reason;
                       gr_Verdicts := [tierVerdict tier reason changed; citationsVerdict;
                                       conformanceVerdict changed; orderVerdict changed] |} in
      (result, if GateFailed result then Some "required gate verdict failed" else None)
  end.
End verdicts.

(** ** Git *)

(** What running git gives: its output, an exit status that is not zero with what it wrote
    to stderr, or a failure to run. *)
Inductive git_outcome := GitOut (stdout : string) | GitExit (stderr : string) | GitError (e : string).

Record git := {
  git_diff_names : string -> git_outcome;
  git_cat_file : string -> git_outcome;
}.

(** [internal/gate/git.go:52-63] run: less the text of an exit status *)
Definition git_run (o : git_outcome) (args : string) : result string :=
  match o with
  | GitOut out => Ok out
  | GitExit stderr => Err ("running git " +:+ args +:+ ": exit status: " +:+ TrimSpace stderr)
  | GitError e => Err ("running git " +:+ args +:+ ": " +:+ e +:+ ": ")
  end.

(** [internal/gate/git.go:27-33] ChangedPaths: the lines of the output *)
Definition diff_lines (out : string) : list string :=
  List.filter (fun line => negb (String.eqb line "")) (TrimSpace <$> Split out "010"%char).

(** [internal/gate/git.go:22-50] GitRepo *)
Definition GitRepo (g : git) : Repo :=
  {| ChangedPaths base head_ :=
       match git_run (git_diff_names g (base +:+ "..." +:+ head_))
               ("diff --name-only " +:+ base +:+ "..." +:+ head_) with
       | Ok out => Ok (diff_lines out)
       | Err e => Err e
       end;
     Exists_ ref path :=
       match git_cat_file g (ref +:+ ":" +:+ path) with
       | GitOut _ => Ok true
       | GitExit _ => Ok false
       | GitError e => Err ("running git cat-file: " +:+ e)
       end |}.

Example classify_ex :
  (ClassifyTier ["docs/a.md"; "internal/x/y_test.go"]).1 = TierT1 /\
  ClassifyTier ["internal/x/y.go"; "README.md"] = (TierT2, "the diff changes the capability internal/x") /\
  ClassifyTier ["internal/x/y.go"; "cmd/z/main.go"] =
    (TierT3, "the diff spans 2 capabilities: cmd/z, internal/x") /\
  ClassifyTier ["gen/a.go"; "api/b.go"; "api/c.go"] = (TierT3, "the diff alters a public surface: api, gen") /\
  (ClassifyTier ["openspec/specs/a.md"; "gen/a.go"]).1 = TierAmendment /\
  bullet_paths "`internal/x/`, and cmd/y. See revertible." = ["internal/x/"; "cmd/y"].
Proof. vm_compute. repeat split. Qed.
