(* ===== verification/GateProps.v ===== *)
(** * What the gate lets through.

    The tier of a diff in declarative terms, the conditions under which the gate passes,
    and two consequences of how it reads paths. *)

From S2P Require Import Prelude GoStrings Files GoTime Citelock SpecParse SpecCheck Gate.

(** ** Lists of strings *)

Lemma elem_of_filter_b {A} (P : A -> bool) l x : x ∈ List.filter P l <-> x ∈ l /\ P x = true.
Proof. by rewrite !list_elem_of_In, filter_In. Qed.

Lemma filter_b_nil {A} (P : A -> bool) l : List.filter P l = [] <-> forall x, x ∈ l -> P x = false.
Proof.
  induction l as [|a l IH]; simpl; [split; [by intros _ x ?%elem_of_nil|done]|].
  setoid_rewrite elem_of_cons. destruct (P a) eqn:Ha; [|rewrite IH; naive_solver].
  split; [done|]. intros H. rewrite H in Ha by auto. done.
Qed.

Lemma dedupe_from_spec seen l :
  (forall x, x ∈ dedupe_from seen l <-> x ∈ l /\ x ∉ seen) /\ NoDup (dedupe_from seen l).
Proof.
  revert seen. induction l as [|a l IH]; intros seen; simpl.
  { split; [|constructor]. intros x. set_solver. }
  destruct (existsb (String.eqb a) seen) eqn:Hs.
  - apply existsb_elem in Hs as (y & Hy & ->%String.eqb_eq). destruct (IH seen) as [H1 H2].
    split; [|done]. intros x. rewrite H1. set_solver.
  - rewrite existsb_elem_false in Hs. destruct (IH (a :: seen)) as [H1 H2].
    assert (a ∉ seen) as Ha by (intros Hin; apply Hs in Hin; by rewrite String.eqb_refl in Hin).
    split; [|constructor; [rewrite H1; set_solver|done]].
    intros x. rewrite elem_of_cons, H1. destruct (decide (x = a)); set_solver.
Qed.

Lemma elem_of_dedupe x l : x ∈ dedupe l <-> x ∈ l.
Proof. unfold dedupe. rewrite (proj1 (dedupe_from_spec [] l)). set_solver. Qed.

Lemma NoDup_dedupe l : NoDup (dedupe l).
Proof. apply dedupe_from_spec. Qed.

(** A list without duplicates that has two elements has different ones. *)
Lemma NoDup_two {A} (l : list A) :
  NoDup l -> (exists x y, x ∈ l /\ y ∈ l /\ x <> y) <-> exists a b rest, l = a :: b :: rest.
Proof.
  intros Hd. split.
  - intros (x & y & Hx & Hy & Hne). destruct l as [|a [|b rest]]; [set_solver..|by eauto].
  - intros (a & b & rest & ->). exists a, b. apply NoDup_cons in Hd. set_solver.
Qed.

(** ** Paths are never cleaned to nothing *)

Lemma Clean_nonempty p : Clean p <> "".
Proof. unfold Clean. by destruct (IsAbs p); [|destruct (Join _ _)]. Qed.

Lemma Dir_nonempty p : Dir p <> "".
Proof. unfold Dir. destruct (LastIndex p "/"); [apply Clean_nonempty|done]. Qed.

Lemma two_segments_nonempty p s : two_segments p = Some s -> s <> "".
Proof.
  unfold two_segments. destruct (Split p "/") as [|a [|b l]]; [done..|]. intros [= <-]. by destruct a.
Qed.

Lemma capabilityOf_nonempty p : capabilityOf p <> "".
Proof.
  assert (default (Dir p) (two_segments p) <> "") as H.
  { destruct (two_segments p) eqn:E; simpl; [by eapply two_segments_nonempty|apply Dir_nonempty]. }
  unfold capabilityOf. repeat case_match; try done. apply Dir_nonempty.
Qed.

(** ** The tier of a diff *)

(** A path that a client outside the repository can observe. *)
Definition public (p : string) : Prop := exists prefix, prefix ∈ publicSurfaces /\ HasPrefix p prefix = true.

Lemma publicSurface_spec p : publicSurface p <> "" <-> public p.
Proof.
  unfold publicSurface, public. destruct (List.find (HasPrefix p) publicSurfaces) as [pre|] eqn:Hf.
  - apply find_some in Hf as [Hin Hp]. apply list_elem_of_In in Hin. split; [by eauto|]. intros _.
    revert Hin. unfold publicSurfaces. clear Hp. intros Hin.
    repeat (apply elem_of_cons in Hin as [->|Hin]; [by vm_compute|]). by apply elem_of_nil in Hin.
  - split; [done|]. intros (pre & Hin & Hp). apply list_elem_of_In in Hin.
    pose proof (find_none _ _ Hf pre Hin). congruence.
Qed.

Section tier.
Context (changed : list string).

Definition amends : Prop := exists p, p ∈ changed /\ HasPrefix p specPrefix = true.
Definition code_path (p : string) : Prop := p ∈ changed /\ is_code p = true.

(** What each tier says of the paths of a diff. *)
Definition tier_means (tier : Tier) : Prop :=
  match tier with
  | TierAmendment => amends
  | TierExperiment => False
  | TierT1 => ~ amends /\ forall p, ~ code_path p
  | TierT3 => ~ amends /\ ((exists p, code_path p /\ public p) \/
                           exists p q, code_path p /\ code_path q /\ capabilityOf p <> capabilityOf q)
  | TierT2 => ~ amends /\ (exists p, code_path p) /\ (forall p, code_path p -> ~ public p) /\
              forall p q, code_path p -> code_path q -> capabilityOf p = capabilityOf q
  end.

Definition code_list : list string := List.filter is_code changed.
Definition surface_list : list string := List.filter (fun s => negb (String.eqb s "")) (publicSurface <$> code_list).
Definition name_list : list string :=
  sort_strings (dedupe (List.filter (fun s => negb (String.eqb s "")) (capabilityOf <$> code_list))).

Lemma elem_of_code_list p : p ∈ code_list <-> code_path p.
Proof. apply elem_of_filter_b. Qed.

Lemma surface_list_nil : surface_list = [] <-> forall p, code_path p -> ~ public p.
Proof.
  unfold surface_list. rewrite filter_b_nil. setoid_rewrite negb_false_iff. setoid_rewrite String.eqb_eq.
  setoid_rewrite list_elem_of_fmap. setoid_rewrite <- publicSurface_spec.
  setoid_rewrite <- elem_of_code_list. split.
  - intros H p Hp Hne. apply Hne, H. eauto.
  - intros H x (p & -> & Hp). destruct (decide (publicSurface p = "")); [done|]. by destruct (H p Hp).
Qed.

Lemma elem_of_name_list x : x ∈ name_list <-> exists p, code_path p /\ x = capabilityOf p.
Proof.
  unfold name_list. rewrite elem_of_sort_strings, elem_of_dedupe, elem_of_filter_b, list_elem_of_fmap.
  rewrite negb_true_iff, String.eqb_neq. setoid_rewrite elem_of_code_list.
  pose proof capabilityOf_nonempty. naive_solver.
Qed.

Lemma name_list_two :
  (exists a b rest, name_list = a :: b :: rest) <->
  exists p q, code_path p /\ code_path q /\ capabilityOf p <> capabilityOf q.
Proof.
  rewrite <- NoDup_two.
  - setoid_rewrite elem_of_name_list. split.
    + intros (? & ? & (p & ? & ->) & (q & ? & ->) & ?). eauto.
    + intros (p & q & ? & ? & ?). exists (capabilityOf p), (capabilityOf q). eauto 10.
  - unfold name_list. rewrite sort_strings_perm. apply NoDup_dedupe.
Qed.

Lemma tier_means_exclusive a b : tier_means a -> tier_means b -> a = b.
Proof.
  destruct a, b; simpl; try done; intros; exfalso;
    repeat match goal with
    | H : ex _ |- _ => destruct H
    | H : _ /\ _ |- _ => destruct H
    | H : _ \/ _ |- _ => destruct H
    end; unfold not in *; eauto.
Qed.

Lemma ClassifyTier_means : tier_means (ClassifyTier changed).1.
Proof.
  unfold ClassifyTier. destruct changed as [|c0 cs] eqn:Hc.
  { simpl. split; [intros (p & Hp & _)|intros p [Hp _]]; rewrite Hc in Hp; by apply elem_of_nil in Hp. }
  rewrite <- Hc. fold code_list surface_list name_list.
  destruct (List.filter _ changed) as [|a amended] eqn:Ha; cycle 1.
  { exists a. rewrite <- (elem_of_filter_b (fun p => HasPrefix p specPrefix)), Ha. by left. }
  assert (~ amends) as Hna.
  { intros (p & Hp & Hpre). rewrite filter_b_nil in Ha. rewrite Ha in Hpre by done. done. }
  pose proof surface_list_nil as Hs. pose proof name_list_two as Hn.
  destruct code_list as [|c1 code] eqn:Hcode.
  { simpl. split; [done|]. intros p Hp%elem_of_code_list. rewrite Hcode in Hp. by apply elem_of_nil in Hp. }
  assert (code_path c1) as Hc1 by (apply elem_of_code_list; rewrite Hcode; by left).
  destruct surface_list as [|s surfaces].
  2: { simpl. split; [done|]. left.
       destruct (decide (Exists (fun p => publicSurface p <> "") code_list)) as [H|H].
       - apply Exists_exists in H as (p & Hp & Hpub). exists p.
         by rewrite <- elem_of_code_list, <- publicSurface_spec.
       - assert (forall p, code_path p -> ~ public p) as Hnp; [|by apply Hs in Hnp].
         intros p Hp Hpub. apply H, Exists_exists. exists p.
         by rewrite elem_of_code_list, publicSurface_spec. }
  assert (forall p q, code_path p -> code_path q ->
    (forall a b rest, name_list <> a :: b :: rest) -> capabilityOf p = capabilityOf q) as Heq.
  { intros p q Hp Hq Hl. destruct (decide (capabilityOf p = capabilityOf q)) as [|Hne]; [done|].
    destruct (proj2 Hn) as (a & b & rest & ?); [by exists p, q|]. by destruct (Hl a b rest). }
  pose proof (proj1 Hs eq_refl).
  destruct name_list as [|a [|b rest]]; simpl; (split; [done|]).
  - split_and!; [by exists c1|done|]. intros p q Hp Hq. by apply Heq.
  - split_and!; [by exists c1|done|]. intros p q Hp Hq. by apply Heq.
  - right. apply Hn. eauto.
Qed.
End tier.

Definition rank (tier : Tier) : nat :=
  match tier with TierT1 => 0 | TierExperiment => 1 | TierT2 => 2 | TierT3 => 3 | TierAmendment => 4 end.

Lemma ClassifyTier_iff changed tier : (ClassifyTier changed).1 = tier <-> tier_means changed tier.
Proof.
  split; [intros <-; apply ClassifyTier_means|].
  intros H. eapply tier_means_exclusive; [apply ClassifyTier_means|done].
Qed.

Lemma tier_means_perm l k tier : l ≡ₚ k -> tier_means l tier -> tier_means k tier.
Proof.
  intros Hp. destruct tier; unfold tier_means, amends, code_path; try done; by setoid_rewrite Hp.
Qed.

Lemma ClassifyTier_sort l : (ClassifyTier (sort_strings l)).1 = (ClassifyTier l).1.
Proof.
  apply ClassifyTier_iff. eapply tier_means_perm; [symmetry; apply sort_strings_perm|].
  apply ClassifyTier_means.
Qed.

(** ** Claims *)

Section claims.
Context (change : Change).

(** The diff has a path the change declares, or none it has to. *)
Definition claims (changed : list string) : Prop :=
  (exists p, p ∈ changed /\ claimable p = true /\ coveredBy (declaredPaths change) p = true) \/
  forall p, p ∈ changed -> claimable p = false.

Lemma filter_split (P : string -> bool) l :
  length (List.filter P l) + length (List.filter (fun x => negb (P x)) l) = length l.
Proof. induction l as [|a l IH]; [done|]. simpl. destruct (P a); simpl; lia. Qed.

Lemma unclaimedPaths_nil changed : unclaimedPaths change changed = [] <-> claims changed.
Proof.
  unfold unclaimedPaths, claims. cbv zeta. set (code := List.filter claimable changed).
  set (cov := coveredBy (declaredPaths change)).
  pose proof (filter_split cov code) as Hlen.
  assert (forall p, p ∈ List.filter cov code <-> p ∈ changed /\ claimable p = true /\ cov p = true) as Hin.
  { intros p. unfold code. rewrite !elem_of_filter_b. tauto. }
  destruct (Nat.eqb_spec (length code) 0) as [H0|H0]; simpl.
  { split; [|done]. intros _. right. apply filter_b_nil. by apply nil_length_inv. }
  destruct (Nat.ltb_spec (length (List.filter (fun p => negb (cov p)) code)) (length code)) as [Hlt|Hge].
  - split; [|done]. intros _. left. destruct (List.filter cov code) as [|p l]; [simpl in Hlen; lia|].
    exists p. apply Hin. by left.
  - split.
    + intros Hn. rewrite Hn in Hge. simpl in Hge. lia.
    + intros [(p & Hp)|Hall].
      * apply Hin in Hp. destruct (List.filter cov code); [by apply elem_of_nil in Hp|].
        simpl in Hlen. lia.
      * apply filter_b_nil in Hall. fold code in Hall. by rewrite Hall in H0.
Qed.

Lemma claims_perm l k : l ≡ₚ k -> claims l -> claims k.
Proof. intros Hp. unfold claims. by setoid_rewrite Hp. Qed.
End claims.

(** ** What passes *)

Section passes.
Context (repo : Repo) (t : tree) (ck : clock) (opts : Options).

(** The change has an owner decision that is not pending. *)
Definition decided (change : Change) : Prop :=
  is_Some (ch_Artifacts change !! "review") /\
  exists d, section change "review" "## Owner decision" = Some d /\ undecided d = false.

(** The pull request names a change whose spec is merged and which claims the diff. *)
Definition has_spec (changed : list string) (change : Change) : Prop :=
  op_ChangeID opts <> "" /\
  Exists_ repo (op_Base opts) (proposalPath opts) = Ok true /\
  load t opts = Ok change /\ claims change changed.

Definition tier_met (changed : list string) (tier : Tier) : Prop :=
  match tier with
  | TierT1 => True
  | TierT2 => exists change, has_spec changed change
  | TierT3 => exists change, has_spec changed change /\ decided change
  | TierAmendment | TierExperiment => False
  end.

Definition citations_met : Prop :=
  let dir := changeDir (op_Root opts) (op_ChangeID opts) in
  op_ChangeID opts = "" \/ exists_ t dir = false \/
  exists_ t (PathJoin dir "citations.lock") = true /\ (Verify t ck dir).1 = Ok tt.

Lemma owner_decision_None :
  owner_decision t opts = None <-> exists change, load t opts = Ok change /\ decided change.
Proof.
  unfold owner_decision, decided. destruct (load t opts) as [change|e]; [|naive_solver].
  destruct (ch_Artifacts change !! "review") as [a|] eqn:Ha.
  2: { split; [done|]. intros (? & [= <-] & [? ?] & _). congruence. }
  destruct (section change "review" "## Owner decision") as [d|] eqn:Hd; [destruct (undecided d) eqn:Hu|].
  - split; [done|]. intros (? & [= <-] & _ & ? & ? & ?). congruence.
  - split; [|done]. intros _. exists change. split; [done|]. split; [by eexists|by exists d].
  - split; [done|]. intros (? & [= <-] & _ & ? & ? & ?). congruence.
Qed.

Lemma spec_problem changed tier :
  tier = TierT2 \/ tier = TierT3 ->
  tier_problem repo t opts tier changed = None <->
  exists change, has_spec changed change /\ (tier = TierT3 -> owner_decision t opts = None).
Proof.
  intros Htier. unfold has_spec. transitivity
    (op_ChangeID opts <> "" /\ Exists_ repo (op_Base opts) (proposalPath opts) = Ok true /\
     match load t opts with
     | Ok change => unclaimedPaths change changed = [] /\ (tier = TierT3 -> owner_decision t opts = None)
     | Err _ => False
     end).
  - assert (tier_problem repo t opts tier changed = None <->
      op_ChangeID opts <> "" /\ Exists_ repo (op_Base opts) (proposalPath opts) = Ok true /\
      match load t opts with
      | Ok change => unclaimedPaths change changed = [] /\
                     match tier with TierT3 => owner_decision t opts | _ => None end = None
      | Err _ => False
      end) as ->.
    { destruct Htier as [-> | ->]; unfold tier_problem;
        (destruct (String.eqb_spec (op_ChangeID opts) ""); [by split; [|intros [? _]]|]);
        (destruct (Exists_ repo _ _) as [[]|]; [|by split; [|intros (_ & ? & _)]..]);
        (destruct (load t opts) as [change|]; [|by split; [|intros (_ & _ & [])]]);
        destruct (unclaimedPaths change changed); intuition done. }
    by destruct (load t opts), Htier as [-> | ->]; intuition auto.
  - destruct (load t opts) as [change|e]; [rewrite unclaimedPaths_nil|]; split.
    + intros (? & ? & ? & ?). eauto 10.
    + intros (? & (? & ? & [= <-] & ?) & ?). done.
    + by intros (_ & _ & []).
    + by intros (? & (_ & _ & ? & _) & _).
Qed.

Lemma tier_problem_None changed tier :
  tier_means changed tier -> tier_problem repo t opts tier changed = None <-> tier_met changed tier.
Proof.
  intros Hm. destruct tier; [by split|by destruct Hm|by split|..];
    rewrite spec_problem by auto; unfold tier_met.
  - split; [intros (c & ? & _); by exists c|intros (c & ?); by exists c].
  - setoid_rewrite owner_decision_None. unfold has_spec. split.
    + intros (c & (? & ? & Hl & ?) & Hod). destruct (Hod eq_refl) as (c' & Hl' & Hd).
      assert (c' = c) as -> by congruence. eauto 10.
    + intros (c & (? & ? & ? & ?) & ?). exists c. split; [done|]. eauto.
Qed.

Lemma citationsVerdict_pass : vd_Pass (citationsVerdict t ck opts) = true <-> citations_met.
Proof.
  unfold citationsVerdict, citations_met. cbv zeta.
  destruct (String.eqb_spec (op_ChangeID opts) ""); [by split; auto|].
  destruct (exists_ t _); cbn [negb]; [|by split; auto].
  destruct (exists_ t _); cbn [negb]; [|by split; [|intros [?|[?|[? _]]]]].
  destruct (Verify t ck _) as [[[]|e] fs]; simpl; [by split; auto|]. split; [done|].
  by intros [?|[?|[_ ?]]].
Qed.

Lemma tier_met_perm l k tier : l ≡ₚ k -> tier_met l tier <-> tier_met k tier.
Proof.
  intros Hp. assert (forall change, claims change l <-> claims change k) as Hc.
  { intros change. split; apply claims_perm; [done|by symmetry]. }
  destruct tier; unfold tier_met, has_spec; try done; by setoid_rewrite Hc.
Qed.

(** The required verdicts alone decide. *)
Lemma CheckGate_None :
  (CheckGate repo t ck opts).2 = None <->
  exists changed, ChangedPaths repo (op_Base opts) (op_Head opts) = Ok changed /\
    tier_met changed (ClassifyTier changed).1 /\ citations_met.
Proof.
  unfold CheckGate. destruct (ChangedPaths repo (op_Base opts) (op_Head opts)) as [changed|e];
    [|split; [done|by intros (? & ? & _)]].
  transitivity (tier_met changed (ClassifyTier changed).1 /\ citations_met).
  2: { split; [by exists changed|]. by intros (? & [= <-] & ?). }
  rewrite <- (tier_met_perm _ _ _ (sort_strings_perm changed)), <- ClassifyTier_sort, <- citationsVerdict_pass.
  pose proof (ClassifyTier_means (sort_strings changed)) as Hm.
  destruct (ClassifyTier (sort_strings changed)) as [tier reason] eqn:Ht. cbn [fst] in Hm.
  assert (forall b : bool, (if b then Some "required gate verdict failed" else None) = None <-> b = false) as Hif
    by by intros [].
  cbn [snd]. rewrite Hif. unfold GateFailed. cbn [gr_Verdicts existsb].
  assert (vd_Required (conformanceVerdict t opts (sort_strings changed)) = false) as ->
    by (unfold conformanceVerdict; cbv zeta; repeat (case_match; try done)).
  assert (vd_Required (orderVerdict repo opts (sort_strings changed)) = false) as ->
    by (unfold orderVerdict; repeat (case_match; try done)).
  assert (vd_Required (citationsVerdict t ck opts) = true) as ->
    by (unfold citationsVerdict; cbv zeta; repeat (case_match; try done)).
  cbn [andb orb vd_Required tierVerdict vd_Pass]. rewrite !orb_false_r, orb_false_iff, !negb_false_iff.
  rewrite <- (tier_problem_None _ _ Hm). destruct (tier_problem _ _ _ _ _); intuition done.
Qed.
End passes.

(** ** Declared paths *)

Lemma declared_head change d :
  d ∈ declaredPaths change -> exists c s, d = String c s /\ char_in ".:;()" c = false.
Proof.
  unfold declaredPaths. destruct (section change "proposal" "## Impact") as [impact|];
    [|by intros ?%elem_of_nil].
  rewrite elem_of_dedupe, elem_of_sort_strings, list_elem_of_bind. intros (bullet & Hd & _).
  unfold bullet_paths in Hd. apply elem_of_filter_b in Hd as [(f & -> & _)%list_elem_of_fmap Hl].
  destruct (Trim f ".:;()") as [|c s] eqn:Ht; [done|]. exists c, s. split; [done|].
  by eapply TrimFunc_head.
Qed.

Lemma TrimSuffix_head c s suf : TrimSuffix (String c s) suf = "" \/ exists s', TrimSuffix (String c s) suf = String c s'.
Proof.
  unfold TrimSuffix. case_match; [|by right; eexists].
  destruct (String.length (String c s) - String.length suf); simpl; eauto.
Qed.

(** No declaration covers a path that begins with a dot: the dot is trimmed off with the
    punctuation of the sentence. *)
Lemma dot_uncovered change p : HasPrefix p "." = true -> coveredBy (declaredPaths change) p = false.
Proof.
  intros [s ->]%HasPrefix_spec. apply existsb_elem_false. intros d Hd.
  apply declared_head in Hd as (c & r & -> & Hc). unfold covers. cbv zeta.
  destruct (TrimSuffix_head c r "/") as [-> | [r' ->]]; [done|]. cbn [String.append].
  assert (c <> "."%char) as Hne by by intros ->.
  apply orb_false_iff. split; [apply String.eqb_neq; congruence|].
  destruct (HasPrefix _ _) eqn:Hp; [|done]. apply HasPrefix_spec in Hp as [? Heq]. simplify_eq/=.
Qed.

(** ** Theorems *)

(** The tier of a diff is decided by its paths alone, in any order: an amendment touches
    the spec corpus; otherwise T1 has no code, T3 a public surface or code of two capabilities,
    and T2 the rest.  No diff is an experiment. *)
Theorem ClassifyTier_correct (changed : list string) (tier : Tier) :
  (ClassifyTier changed).1 = tier <-> tier_means changed tier.
Proof. apply ClassifyTier_iff. Qed.

(** A pull request cannot lower its bar by touching more files: the tier of a diff is at
    least that of any part of it. *)
Theorem ClassifyTier_monotone (part whole : list string) (Hsub : part ⊆ whole) :
  rank (ClassifyTier part).1 <= rank (ClassifyTier whole).1.
Proof.
  assert (forall p, code_path part p -> code_path whole p) as Hcode.
  { intros p [Hp ?]. split; [by apply Hsub|done]. }
  assert (amends part -> amends whole) as Ham.
  { intros (p & Hp & ?). exists p. split; [by apply Hsub|done]. }
  pose proof (ClassifyTier_means part) as Hp. pose proof (ClassifyTier_means whole) as Hw.
  destruct (ClassifyTier part).1, (ClassifyTier whole).1; simpl in *; try lia; exfalso; try tauto.
  - destruct Hp as (_ & (p & Hp) & _). destruct Hw as [_ Hw]. by eapply Hw, Hcode.
  - destruct Hp as (_ & [(p & Hp & _)|(p & q & Hp & _)]); destruct Hw as [_ Hw]; by eapply Hw, Hcode.
  - destruct Hw as (_ & _ & Hpub & Hcap).
    destruct Hp as (_ & [(p & Hp & Hp')|(p & q & Hp & Hq & Hne)]); [by eapply Hpub; eauto|].
    apply Hne. by apply Hcap; apply Hcode.
Qed.

(** When the gate passes.  The diff can be read, the citations are in order, and the tier
    has what it demands: T1 nothing; T2 a named change whose proposal is at the base, which
    can be loaded and claims a path of the diff that has to be claimed, if there is one; T3
    that and an owner decision that is not pending; an amendment never passes.  The advisory
    verdicts and the order of the paths play no part. *)
Theorem gate_passes (repo : Repo) (t : tree) (ck : clock) (opts : Options) :
  (CheckGate repo t ck opts).2 = None <->
  exists changed, ChangedPaths repo (op_Base opts) (op_Head opts) = Ok changed /\
    tier_met repo t opts changed (ClassifyTier changed).1 /\ citations_met t ck opts.
Proof. apply CheckGate_None. Qed.

(** A diff whose code is all below directories that begin with a dot, such as the
    workflows of [.github], never passes, whatever the change declares: the dot is trimmed
    from the declared paths, so that none covers it. *)
Theorem dot_diff_never_passes (repo : Repo) (t : tree) (ck : clock) (opts : Options) (changed : list string)
    (Hdiff : ChangedPaths repo (op_Base opts) (op_Head opts) = Ok changed)
    (Hcode : exists p, p ∈ changed /\ claimable p = true)
    (Hdot : forall p, p ∈ changed -> claimable p = true -> HasPrefix p "." = true) :
  (CheckGate repo t ck opts).2 <> None.
Proof.
  rewrite CheckGate_None. intros (changed' & Heq & Hmet & _). assert (changed' = changed) as -> by congruence.
  assert (forall change, ~ claims change changed) as Hno.
  { intros change [(p & Hp & Hcl & Hcov)|Hall].
    - rewrite dot_uncovered in Hcov by auto. done.
    - destruct Hcode as (p & Hp & Hcl). rewrite Hall in Hcl; done. }
  pose proof (ClassifyTier_means changed) as Hm.
  destruct (ClassifyTier changed).1; simpl in Hmet; try done.
  - destruct Hcode as (p & Hp & Hcl). destruct Hm as [_ Hm]. apply (Hm p). split; [done|].
    unfold claimable in Hcl. unfold is_code. rewrite negb_true_iff, !orb_false_iff in *.
    destruct Hcl as (((_ & Hart) & ?) & ?). split_and!; [done..|].
    destruct (HasPrefix p changePrefix) eqn:He; [|done]. rewrite <- Hart. symmetry.
    apply HasPrefix_spec in He as [r ->]. apply (HasPrefix_app "openspec/" ("changes/" +:+ r)).
  - destruct Hmet as (c & _ & _ & _ & Hc). by apply (Hno c).
  - destruct Hmet as (c & (_ & _ & _ & Hc) & _). by apply (Hno c).
Qed.

(** A diff of generated files only is of the highest tier, and still no change has to
    claim it: any change with a decided review lets it pass. *)
Theorem generated_diff_needs_no_claim (change : Change) (changed : list string) (p : string)
    (Hp : p ∈ changed) (Hcode : is_code p = true)
    (Hgen : forall q, q ∈ changed -> HasPrefix q "gen/" = true) :
  (ClassifyTier changed).1 = TierT3 /\ unclaimedPaths change changed = [].
Proof.
  split.
  - apply ClassifyTier_iff. split.
    + intros (q & Hq & Ha). apply Hgen in Hq. apply HasPrefix_spec in Hq as [r ->]. done.
    + left. exists p. split; [by split|]. exists "gen/". split; [|by apply Hgen].
      unfold publicSurfaces. set_solver.
  - apply unclaimedPaths_nil. right. intros q Hq%Hgen. unfold claimable, isGenerated. by rewrite Hq.
Qed.

(** Git puts a path with unusual characters in quotes, so that an amendment of the spec
    corpus under such a name is classified as the change of one capability. *)
Example quoted_amendment :
  (ClassifyTier (diff_lines (dquote +:+ "openspec/specs/caf\303\251/spec.md" +:+ dquote +:+ newline))).1
    = TierT2 /\
  (ClassifyTier ["openspec/specs/cafe/spec.md"]).1 = TierAmendment.
Proof. vm_compute. done. Qed.

Lemma ClassifyTier_monotone_witness :
  rank (ClassifyTier ["docs/a.md"; "internal/x/y.go"]).1
    <= rank (ClassifyTier ["cmd/z/main.go"; "internal/x/y.go"; "docs/a.md"]).1.
Proof. apply (ClassifyTier_monotone _ _). intros x. set_solver. Defined.

(** A repository at a base that has the proposal, and a diff. *)
Definition sampleRepo (changed : list string) : Repo :=
  {| ChangedPaths _ _ := Ok changed; Exists_ _ _ := Ok true |}.

Definition sampleOptions : Options :=
  {| op_ChangeID := "demo"; op_Base := "main"; op_Head := "HEAD"; op_Root := "." |}.

Definition sampleFiles (impact : string) : tree :=
  tree_of "/repo"
    [("openspec/changes/demo/proposal.md", Join ["## Impact"; impact] newline);
     ("openspec/changes/demo/review.md", Join ["## Owner decision"; "Approved."] newline);
     ("openspec/changes/demo/citations.lock", "{}")].

Definition noon : clock := {| ck_now := 0%Z; ck_midnight _ := 0%Z; ck_today := 0%Z |}.

Example gate_ex :
  let t := sampleFiles "- internal/x/, cmd/y" in
  let error changed := (CheckGate (sampleRepo changed) t noon sampleOptions).2 in
  error ["internal/x/a.go"] = None /\ error ["internal/x/a.go"; "api/b.go"] = None /\
  error ["internal/z/a.go"] = Some "required gate verdict failed" /\
  error ["openspec/specs/a.md"] = Some "required gate verdict failed" /\ error ["gen/a.go"] = None.
Proof. vm_compute. repeat split. Qed.

Lemma dot_diff_never_passes_witness :
  (CheckGate (sampleRepo [".github/workflows/ci.yml"]) (sampleFiles "- .github/workflows/ci.yml") noon
     sampleOptions).2 <> None.
Proof.
  apply (dot_diff_never_passes _ _ _ _ [".github/workflows/ci.yml"]); [done| |].
  - exists ".github/workflows/ci.yml". split; [by left|by vm_compute].
  - intros p Hp _. apply elem_of_cons in Hp as [-> |Hp]; [by vm_compute|by apply elem_of_nil in Hp].
Defined.

Lemma generated_diff_needs_no_claim_witness :
  let c := {| ch_Name := "demo"; ch_Dir := "demo"; ch_Artifacts := ∅; ch_Phases := [] |} in
  (ClassifyTier ["gen/a.go"]).1 = TierT3 /\ unclaimedPaths c ["gen/a.go"] = [].
Proof.
  apply (generated_diff_needs_no_claim _ ["gen/a.go"] "gen/a.go"); [by left|by vm_compute|].
  intros q Hq. apply elem_of_cons in Hq as [-> |Hq]; [by vm_compute|by apply elem_of_nil in Hq].
Defined.
