(* ===== verification/EventBus.v ===== *)
(** * The event bus: [internal/eventbus/eventbus.go].

    The state has the slices of the map of topics and the arrays behind them, since
    [Publish] reads its slice after it released the lock, and [Unsubscribe] moves the
    elements of the same array.  The operations are functions; a step relation interleaves
    them at the granularity of the lock, and of one send. *)

From S2P Require Import Prelude.

Section bus.
Context {event : Type}.

(** [internal/eventbus/eventbus.go:12-12] subscriberBufferSize *)
Definition subscriberBufferSize : nat := 64.

(** [internal/eventbus/eventbus.go:40-43] subscriber: with a reference to its channel *)
Record subscriber := { sb_id : nat; sb_ch : nat }.

(** A channel: its buffer, and whether it is closed. *)
Record channel := { cn_buffer : list event; cn_closed : bool }.

(** An array: the cells written so far and its capacity.  A slice of it from its start. *)
Record array := { ar_cells : list subscriber; ar_cap : nat }.
Record slice := { sl_arr : nat; sl_len : nat }.

(** [internal/eventbus/eventbus.go:46-50] ChannelBus: with the arrays and the channels it made *)
Record bus := {
  topics : gmap string slice;
  nextID : nat;
  arrays : list array;
  channels : list channel;
}.

(** [internal/eventbus/eventbus.go:53-57] NewChannelBus *)
Definition NewChannelBus : bus := {| topics := ∅; nextID := 0; arrays := []; channels := [] |}.

Definition cells (b : bus) (a : nat) : list subscriber :=
  match arrays b !! a with Some ar => ar_cells ar | None => [] end.

(** The elements of a slice; a missing topic is the [nil] slice. *)
Definition elements (b : bus) (s : slice) : list subscriber := take (sl_len s) (cells b (sl_arr s)).
Definition subscribers (b : bus) (run : string) : list subscriber :=
  match topics b !! run with Some s => elements b s | None => [] end.

Definition with_cells (b : bus) (a : nat) (l : list subscriber) : bus :=
  {| topics := topics b; nextID := nextID b;
     arrays := alter (fun ar => {| ar_cells := l; ar_cap := ar_cap ar |}) a (arrays b);
     channels := channels b |}.
Definition with_topic (b : bus) (run : string) (s : slice) : bus :=
  {| topics := <[run := s]> (topics b); nextID := nextID b; arrays := arrays b; channels := channels b |}.
Definition with_channel (b : bus) (ch : nat) (c : channel) : bus :=
  {| topics := topics b; nextID := nextID b; arrays := arrays b; channels := <[ch := c]> (channels b) |}.

(** ** Subscribing *)

(** How [append] grows an array of this capacity. *)
Context (grow : nat -> nat).

Definition capacity (b : bus) (a : nat) : nat :=
  match arrays b !! a with Some ar => ar_cap ar | None => 0 end.

(** The slice of a topic; one without elements when the topic is missing. *)
Definition topic (b : bus) (run : string) : slice :=
  default {| sl_arr := length (arrays b); sl_len := 0 |} (topics b !! run).

Definition append_in_place (b : bus) (run : string) (s : slice) (sub : subscriber) : bus :=
  let cs := cells b (sl_arr s) in
  with_topic (with_cells b (sl_arr s) (take (sl_len s) cs ++ sub :: drop (S (sl_len s)) cs)) run
    {| sl_arr := sl_arr s; sl_len := S (sl_len s) |}.

Definition append_grown (b : bus) (run : string) (s : slice) (sub : subscriber) : bus :=
  with_topic
    {| topics := topics b; nextID := nextID b;
       arrays := arrays b ++ [{| ar_cells := elements b s ++ [sub]; ar_cap := grow (capacity b (sl_arr s)) |}];
       channels := channels b |} run
    {| sl_arr := length (arrays b); sl_len := S (sl_len s) |}.

(** [append(topics[run], sub)]: in place while there is room, otherwise in a new array. *)
Definition append_sub (b : bus) (run : string) (sub : subscriber) : bus :=
  let s := topic b run in
  if sl_len s <? capacity b (sl_arr s) then append_in_place b run s sub else append_grown b run s sub.

(** [internal/eventbus/eventbus.go:75-85] Subscribe: the channel and the identifier *)
Definition Subscribe (b : bus) (run : string) : bus * (nat * nat) :=
  let ch := length (channels b) in
  let id := nextID b in
  (append_sub {| topics := topics b; nextID := S id; arrays := arrays b;
                 channels := channels b ++ [{| cn_buffer := []; cn_closed := false |}] |}
     run {| sb_id := id; sb_ch := ch |}, (ch, id)).

(** ** Unsubscribing *)

(** The position of a subscriber. *)
Fixpoint index_of_id (id : nat) (l : list subscriber) : option nat :=
  match l with
  | [] => None
  | s :: l => if sb_id s =? id then Some 0 else S <$> index_of_id id l
  end.

(** [close]: a panic on a closed channel. *)
Definition close_channel (b : bus) (ch : nat) : option bus :=
  match channels b !! ch with
  | Some c => if cn_closed c then None
              else Some (with_channel b ch {| cn_buffer := cn_buffer c; cn_closed := true |})
  | None => None
  end.

(** [append(subs[:i], subs[i+1:]...)]: the elements after [i] move one cell down; the last
    cell keeps what it had. *)
Definition remove_at (b : bus) (run : string) (s : slice) (i : nat) : bus :=
  let cs := cells b (sl_arr s) in
  with_topic
    (with_cells b (sl_arr s)
       (take i cs ++ drop (S i) (take (sl_len s) cs) ++ drop (Nat.pred (sl_len s)) cs)) run
    {| sl_arr := sl_arr s; sl_len := Nat.pred (sl_len s) |}.

(** [internal/eventbus/eventbus.go:101-104] Unsubscribe: an empty topic is removed *)
Definition drop_empty (b : bus) (run : string) : bus :=
  match topics b !! run with
  | Some {| sl_len := 0 |} =>
      {| topics := delete run (topics b); nextID := nextID b; arrays := arrays b; channels := channels b |}
  | _ => b
  end.

(** [internal/eventbus/eventbus.go:88-105] Unsubscribe: [None] is a panic *)
Definition Unsubscribe (b : bus) (run : string) (id : nat) : option bus :=
  match topics b !! run with
  | None => Some b
  | Some s =>
      match index_of_id id (elements b s) with
      | None => Some (drop_empty b run)
      | Some i =>
          sub ← elements b s !! i;
          b ← close_channel b (sb_ch sub);
          Some (drop_empty (remove_at b run s i) run)
      end
  end.

(** ** Publishing *)

(** [internal/eventbus/eventbus.go:66-70] Publish: one send that does not block; [None] is the panic
    of a send on a closed channel *)
Definition send (b : bus) (ch : nat) (e : event) : option bus :=
  match channels b !! ch with
  | Some c =>
      if cn_closed c then None
      else if length (cn_buffer c) <? subscriberBufferSize
      then Some (with_channel b ch {| cn_buffer := cn_buffer c ++ [e]; cn_closed := false |})
      else Some b
  | None => None
  end.

(** [internal/eventbus/eventbus.go:60-72] Publish: when nothing runs at the same time *)
Definition Publish (b : bus) (run : string) (e : event) : option bus :=
  foldl (fun b sub => b ← b; send b (sb_ch sub) e) (Some b) (subscribers b run).

(** ** Interleavings *)

(** A call of [Publish] after it read the topic: its event, the slice it read, the next
    index, and, for the statements only, the elements that the slice had. *)
Record publisher := { pb_event : event; pb_slice : slice; pb_next : nat; pb_seen : list subscriber }.

Record world := { w_bus : bus; w_publishers : list publisher }.

Inductive label :=
| LSubscribe (run : string) | LUnsubscribe (run : string) (id : nat) | LRead (run : string)
| LSend (sub : subscriber) | LReturn | LReceive (ch : nat).

(** The steps: an operation under the lock, the start of a publication, one of its sends, with the
    reading of the element that it sends to, its return, and a subscriber that takes an event. *)
Inductive bstep (w : world) : label -> world -> Prop :=
| bstep_subscribe run :
    bstep w (LSubscribe run)
      {| w_bus := (Subscribe (w_bus w) run).1; w_publishers := w_publishers w |}
| bstep_unsubscribe run id b :
    Unsubscribe (w_bus w) run id = Some b ->
    bstep w (LUnsubscribe run id) {| w_bus := b; w_publishers := w_publishers w |}
| bstep_read run e :
    let s := default {| sl_arr := 0; sl_len := 0 |} (topics (w_bus w) !! run) in
    bstep w (LRead run)
      {| w_bus := w_bus w;
         w_publishers := {| pb_event := e; pb_slice := s; pb_next := 0;
                            pb_seen := elements (w_bus w) s |} :: w_publishers w |}
| bstep_send before p after sub b :
    w_publishers w = before ++ p :: after ->
    elements (w_bus w) (pb_slice p) !! pb_next p = Some sub ->
    send (w_bus w) (sb_ch sub) (pb_event p) = Some b ->
    bstep w (LSend sub)
      {| w_bus := b;
         w_publishers := before ++ {| pb_event := pb_event p; pb_slice := pb_slice p;
                                      pb_next := S (pb_next p); pb_seen := pb_seen p |} :: after |}
| bstep_return before p after :
    w_publishers w = before ++ p :: after -> sl_len (pb_slice p) <= pb_next p ->
    bstep w LReturn {| w_bus := w_bus w; w_publishers := before ++ after |}
| bstep_receive ch c e rest :
    channels (w_bus w) !! ch = Some c -> cn_buffer c = e :: rest ->
    bstep w (LReceive ch)
      {| w_bus := with_channel (w_bus w) ch {| cn_buffer := rest; cn_closed := cn_closed c |};
         w_publishers := w_publishers w |}.

(** Several steps, with their labels. *)
Inductive trace : world -> list label -> world -> Prop :=
| trace_nil w : trace w [] w
| trace_cons w l w' ls w'' : bstep w l w' -> trace w' ls w'' -> trace w (l :: ls) w''.

(** A publication is about to send on a closed channel. *)
Definition panics (w : world) : Prop :=
  exists p sub, p ∈ w_publishers w /\ elements (w_bus w) (pb_slice p) !! pb_next p = Some sub /\
                send (w_bus w) (sb_ch sub) (pb_event p) = None.

Definition start : world := {| w_bus := NewChannelBus; w_publishers := [] |}.

Definition any_step (w w' : world) : Prop := exists l, bstep w l w'.

(** No one unsubscribes while an event is being published. *)
Definition quiet_step (w w' : world) : Prop :=
  exists l, bstep w l w' /\ ((exists run id, l = LUnsubscribe run id) -> w_publishers w = []).

(** ** The bus is well formed *)

Hypothesis grow_grows : forall n, n < grow n.

Record wf (b : bus) : Prop := {
  wf_slice : forall run s, topics b !! run = Some s ->
    exists ar, arrays b !! sl_arr s = Some ar /\ 0 < sl_len s <= length (ar_cells ar);
  wf_cap : forall a ar, arrays b !! a = Some ar -> length (ar_cells ar) <= ar_cap ar;
  wf_array : forall r1 r2 s1 s2, topics b !! r1 = Some s1 -> topics b !! r2 = Some s2 ->
    sl_arr s1 = sl_arr s2 -> r1 = r2;
  wf_sub : forall run i sub, subscribers b run !! i = Some sub ->
    sb_id sub < nextID b /\ exists c, channels b !! sb_ch sub = Some c /\ cn_closed c = false;
  wf_distinct : forall r1 r2 i1 i2 x y, subscribers b r1 !! i1 = Some x -> subscribers b r2 !! i2 = Some y ->
    sb_id x = sb_id y \/ sb_ch x = sb_ch y -> r1 = r2 /\ i1 = i2;
  wf_buffer : forall ch c, channels b !! ch = Some c -> length (cn_buffer c) <= subscriberBufferSize;
}.

Lemma elements_length b run s : wf b -> topics b !! run = Some s -> length (elements b s) = sl_len s.
Proof.
  intros Hwf Hs. destruct (wf_slice b Hwf run s Hs) as (ar & Ha & ?).
  unfold elements, cells. rewrite Ha, length_take. lia.
Qed.

Lemma subscribers_slice b run s : topics b !! run = Some s -> subscribers b run = elements b s.
Proof. unfold subscribers. by intros ->. Qed.

(** *** What subscribing does *)

Lemma cells_with_cells b a l a' :
  cells (with_cells b a l) a' = if decide (a = a' /\ is_Some (arrays b !! a)) then l else cells b a'.
Proof.
  unfold cells, with_cells. simpl. destruct (decide (a = a')) as [->|Hne].
  - rewrite list_lookup_alter_eq. destruct (arrays b !! a') as [ar|]; simpl.
    + by rewrite decide_True by done.
    + rewrite decide_False; [done|]. by intros [_ [? ?]].
  - rewrite list_lookup_alter_ne by done. by rewrite decide_False by tauto.
Qed.

(** How an append changes the topics and the arrays. *)
Record appended (b : bus) (run : string) (sub : subscriber) (b' : bus) (s' : slice) : Prop := {
  ap_channels : channels b' = channels b;
  ap_next : nextID b' = nextID b;
  ap_topics : topics b' = <[run := s']> (topics b);
  ap_new : elements b' s' = subscribers b run ++ [sub];
  ap_len : sl_len s' = S (length (subscribers b run));
  ap_alloc : exists ar, arrays b' !! sl_arr s' = Some ar /\ sl_len s' <= length (ar_cells ar);
  ap_slice : sl_arr s' = length (arrays b) \/
    exists s, topics b !! run = Some s /\ sl_arr s' = sl_arr s /\ sl_len s <= sl_len s';
  ap_own : forall r s, topics b !! r = Some s -> sl_arr s = sl_arr s' -> r = run;
  ap_cap : forall a ar, arrays b' !! a = Some ar -> length (ar_cells ar) <= ar_cap ar;
  ap_arrays : length (arrays b) <= length (arrays b');
  ap_same : forall s, sl_len s = 0 \/ sl_arr s < length (arrays b) ->
    (forall s0, topics b !! run = Some s0 -> sl_arr s = sl_arr s0 -> sl_len s <= sl_len s0) ->
    elements b' s = elements b s;
}.

Lemma topic_facts b run (Hwf : wf b) :
  let s := topic b run in
  subscribers b run = elements b s /\ length (elements b s) = sl_len s /\
  sl_len s <= capacity b (sl_arr s) /\
  (sl_len s < capacity b (sl_arr s) -> topics b !! run = Some s).
Proof.
  cbv zeta. unfold topic, subscribers. destruct (topics b !! run) as [s|] eqn:Hs; simpl.
  - destruct (wf_slice b Hwf run s Hs) as (ar & Ha & ?). pose proof (wf_cap b Hwf _ _ Ha).
    rewrite (elements_length b run s) by done. unfold capacity. rewrite Ha. split_and!; try done; lia.
  - unfold elements, cells, capacity. simpl. rewrite lookup_ge_None_2 by lia. split_and!; try done; lia.
Qed.

Lemma append_in_place_spec b run sub (Hwf : wf b) :
  sl_len (topic b run) < capacity b (sl_arr (topic b run)) ->
  appended b run sub (append_in_place b run (topic b run) sub)
    {| sl_arr := sl_arr (topic b run); sl_len := S (sl_len (topic b run)) |}.
Proof.
  destruct (topic_facts b run Hwf) as (Hsub & Hls & _ & Htop). intros Hlt. specialize (Htop Hlt).
  set (s := topic b run) in *. destruct (wf_slice b Hwf run s Htop) as (ar & Har & Hlen).
  unfold append_in_place. cbv zeta.
  assert (cells b (sl_arr s) = ar_cells ar) as Hcs by (unfold cells; by rewrite Har).
  rewrite Hcs. set (l := take (sl_len s) (ar_cells ar) ++ sub :: drop (S (sl_len s)) (ar_cells ar)).
  assert (length l = Nat.max (length (ar_cells ar)) (S (sl_len s))) as Hll.
  { unfold l. rewrite length_app, length_take. simpl. rewrite length_drop. lia. }
  assert (length l <= ar_cap ar) as Hcap.
  { pose proof (wf_cap b Hwf _ _ Har). unfold capacity in Hlt. rewrite Har in Hlt. lia. }
  constructor; simpl; try done.
  - unfold elements. simpl. change (cells (with_topic ?x _ _) ?a) with (cells x a).
    rewrite cells_with_cells, decide_True by (split; [done|by eexists]).
    rewrite Hsub. unfold elements. rewrite Hcs. unfold l.
    rewrite take_app_ge by (rewrite length_take; lia). rewrite length_take.
    by replace (S (sl_len s) - sl_len s `min` length (ar_cells ar)) with 1 by lia.
  - by rewrite Hsub, Hls.
  - rewrite list_lookup_alter_eq, Har. eexists. split; [done|]. simpl. lia.
  - right. exists s. split_and!; [done..|]. lia.
  - intros r s0 Hr Heq. by eapply (wf_array b Hwf r run).
  - intros a ar' Ha'. destruct (decide (sl_arr s = a)) as [<-|Hne].
    + rewrite list_lookup_alter_eq, Har in Ha'. by injection Ha' as <-.
    + rewrite list_lookup_alter_ne in Ha' by done. by eapply wf_cap.
  - by rewrite length_alter.
  - intros s0 _ Hs0. unfold elements. change (cells (with_topic ?x _ _) ?a) with (cells x a).
    rewrite cells_with_cells. case_decide as Heq; [|done]. destruct Heq as [Heq _].
    specialize (Hs0 s Htop (eq_sym Heq)). rewrite <- Heq, Hcs. unfold l.
    rewrite take_app_le by (rewrite length_take; lia). rewrite take_take. f_equal. lia.
Qed.

Lemma append_grown_spec b run sub (Hwf : wf b) :
  sl_len (topic b run) = capacity b (sl_arr (topic b run)) ->
  appended b run sub (append_grown b run (topic b run) sub)
    {| sl_arr := length (arrays b); sl_len := S (sl_len (topic b run)) |}.
Proof.
  destruct (topic_facts b run Hwf) as (Hsub & Hls & _ & _). intros Hcap.
  set (s := topic b run) in *. unfold append_grown.
  set (new := {| ar_cells := _; ar_cap := _ |}).
  constructor; simpl; try done.
  - unfold elements, cells. simpl. rewrite list_lookup_middle by done. simpl.
    rewrite Hsub. apply take_ge. rewrite length_app. simpl. lia.
  - by rewrite Hsub, Hls.
  - exists new. rewrite list_lookup_middle by done. split; [done|]. simpl. rewrite length_app. simpl. lia.
  - by left.
  - intros r s0 Hr Heq. destruct (wf_slice b Hwf r s0 Hr) as (ar & Ha & _). apply lookup_lt_Some in Ha. lia.
  - intros a ar' Ha'. apply lookup_app_Some in Ha' as [Ha'|[_ Ha']]; [by eapply wf_cap|].
    apply list_lookup_singleton_Some in Ha' as [_ <-]. simpl. rewrite length_app. simpl.
    pose proof (grow_grows (capacity b (sl_arr s))). lia.
  - rewrite length_app. lia.
  - intros s0 [H0|H0] _; unfold elements, cells; simpl; [by rewrite H0|]. by rewrite lookup_app_l.
Qed.

Lemma append_sub_spec b run sub (Hwf : wf b) : exists s', appended b run sub (append_sub b run sub) s'.
Proof.
  destruct (topic_facts b run Hwf) as (_ & _ & Hle & _). unfold append_sub. cbv zeta.
  destruct (Nat.ltb_spec (sl_len (topic b run)) (capacity b (sl_arr (topic b run)))).
  - eexists. by apply append_in_place_spec.
  - eexists. apply append_grown_spec; [done|lia].
Qed.

Lemma wf_slice_bound b run s : wf b -> topics b !! run = Some s -> sl_arr s < length (arrays b).
Proof. intros Hwf Hs. destruct (wf_slice b Hwf run s Hs) as (ar & Ha & _). by eapply lookup_lt_Some. Qed.

Lemma subscribers_append b run sub r (Hwf : wf b) :
  subscribers (append_sub b run sub) r =
    if decide (r = run) then subscribers b run ++ [sub] else subscribers b r.
Proof.
  destruct (append_sub_spec b run sub Hwf) as [s' Ha]. unfold subscribers at 1.
  rewrite (ap_topics _ _ _ _ _ Ha). case_decide as Hr; [subst; rewrite lookup_insert_eq|].
  - apply Ha.
  - rewrite lookup_insert_ne by done. unfold subscribers. destruct (topics b !! r) as [s|] eqn:Hs; [|done].
    apply (ap_same _ _ _ _ _ Ha); [right; by eapply wf_slice_bound|].
    intros s0 Hs0 Heq. destruct Hr. by eapply (wf_array b Hwf).
Qed.

(** The identifier and the channel of a new subscriber are its own. *)
Lemma wf_append b run sub (Hwf : wf b) :
  sb_id sub < nextID b -> (exists c, channels b !! sb_ch sub = Some c /\ cn_closed c = false) ->
  (forall r i x, subscribers b r !! i = Some x -> sb_id x <> sb_id sub /\ sb_ch x <> sb_ch sub) ->
  wf (append_sub b run sub).
Proof.
  intros Hid Hch Hnew. destruct (append_sub_spec b run sub Hwf) as [s' Ha].
  assert (forall r i x, subscribers (append_sub b run sub) r !! i = Some x ->
    subscribers b r !! i = Some x \/ r = run /\ i = length (subscribers b run) /\ x = sub) as Hold.
  { intros r i x. rewrite (subscribers_append _ _ _ _ Hwf). case_decide as Hr; [|by left]. subst.
    intros [?|[? Hx]]%lookup_app_Some; [by left|]. apply list_lookup_singleton_Some in Hx as [? <-].
    right. split_and!; [done|lia|done]. }
  constructor.
  - intros r s. rewrite (ap_topics _ _ _ _ _ Ha). intros [[<- <-]|[Hne Hs]]%lookup_insert_Some.
    + destruct (ap_alloc _ _ _ _ _ Ha) as (ar & ? & ?). exists ar. rewrite (ap_len _ _ _ _ _ Ha) in *. split; [done|lia].
    + assert (elements (append_sub b run sub) s = elements b s) as He.
      { apply (ap_same _ _ _ _ _ Ha); [right; by eapply wf_slice_bound|].
        intros s0 Hs0 Heq. destruct Hne. by eapply (wf_array b Hwf). }
      apply (f_equal length) in He. rewrite (elements_length b r s Hwf Hs) in He.
      destruct (wf_slice b Hwf r s Hs) as (_ & _ & [Hpos _]). unfold elements, cells in He.
      destruct (arrays (append_sub b run sub) !! sl_arr s) as [ar|] eqn:Har.
      * exists ar. split; [done|]. rewrite length_take in He. lia.
      * rewrite length_take in He. simpl in He. lia.
  - apply Ha.
  - intros r1 r2 s1 s2. rewrite (ap_topics _ _ _ _ _ Ha).
    intros [[<- <-]|[H1 Hs1]]%lookup_insert_Some [[<- <-]|[H2 Hs2]]%lookup_insert_Some Heq.
    + done.
    + symmetry. by eapply (ap_own _ _ _ _ _ Ha).
    + by eapply (ap_own _ _ _ _ _ Ha).
    + by eapply (wf_array b Hwf).
  - intros r i x Hx. rewrite (ap_channels _ _ _ _ _ Ha), (ap_next _ _ _ _ _ Ha).
    destruct (Hold _ _ _ Hx) as [Hx'|(-> & -> & ->)]; [by eapply wf_sub|done].
  - intros r1 r2 i1 i2 x y Hx Hy Heq.
    destruct (Hold _ _ _ Hx) as [Hx'|(-> & -> & ->)], (Hold _ _ _ Hy) as [Hy'|(-> & -> & ->)].
    + by eapply (wf_distinct b Hwf).
    + destruct (Hnew _ _ _ Hx'). tauto.
    + destruct (Hnew _ _ _ Hy'). destruct Heq; congruence.
    + done.
  - rewrite (ap_channels _ _ _ _ _ Ha). apply Hwf.
Qed.

(** A new channel and identifier, before they are used. *)
Definition prepared (b : bus) : bus :=
  {| topics := topics b; nextID := S (nextID b); arrays := arrays b;
     channels := channels b ++ [{| cn_buffer := []; cn_closed := false |}] |}.

Lemma wf_prepared b : wf b -> wf (prepared b).
Proof.
  intros Hwf. constructor; try apply Hwf; simpl.
  - intros run i sub Hs. destruct (wf_sub b Hwf run i sub Hs) as (? & c & Hc & ?).
    split; [lia|]. exists c. split; [by apply lookup_app_l_Some|done].
  - intros ch c [Hc|[_ Hc]]%lookup_app_Some; [by eapply wf_buffer|].
    apply list_lookup_singleton_Some in Hc as [_ <-]. simpl. unfold subscriberBufferSize. lia.
Qed.

Lemma wf_Subscribe b run : wf b -> wf (Subscribe b run).1.
Proof.
  intros Hwf. apply (wf_append (prepared b)); simpl; [by apply wf_prepared|lia| |].
  - eexists. by rewrite list_lookup_middle.
  - intros r i x Hx. destruct (wf_sub b Hwf r i x Hx) as (? & c & Hc & _).
    apply lookup_lt_Some in Hc. lia.
Qed.

Lemma subscribers_Subscribe b run r (Hwf : wf b) :
  subscribers (Subscribe b run).1 r =
    if decide (r = run)
    then subscribers b run ++ [{| sb_id := nextID b; sb_ch := length (channels b) |}]
    else subscribers b r.
Proof. apply (subscribers_append (prepared b) run). by apply wf_prepared. Qed.

(** *** What sending and receiving do *)

Lemma send_spec b ch e c :
  channels b !! ch = Some c -> cn_closed c = false ->
  exists c', send b ch e = Some (with_channel b ch c') /\ cn_closed c' = false /\
    cn_buffer c' = if length (cn_buffer c) <? subscriberBufferSize then cn_buffer c ++ [e] else cn_buffer c.
Proof.
  intros Hc Ho. unfold send. rewrite Hc, Ho. destruct (_ <? _); [by eexists|].
  exists c. split; [|done]. unfold with_channel. rewrite list_insert_id by done. by destruct b.
Qed.

Lemma wf_with_channel b ch c c' :
  wf b -> channels b !! ch = Some c -> (cn_closed c = false -> cn_closed c' = false) ->
  length (cn_buffer c') <= subscriberBufferSize -> wf (with_channel b ch c').
Proof.
  intros Hwf Hc Ho Hl. constructor; try apply Hwf; simpl.
  - intros run i sub Hs. destruct (wf_sub b Hwf run i sub Hs) as (? & d & Hd & Hdo). split; [done|].
    destruct (decide (ch = sb_ch sub)) as [->|Hne].
    + rewrite list_lookup_insert_eq by by eapply lookup_lt_Some. exists c'. split; [done|]. apply Ho. congruence.
    + rewrite list_lookup_insert_ne by done. by exists d.
  - intros ch' d. destruct (decide (ch = ch')) as [->|Hne].
    + rewrite list_lookup_insert_eq by by eapply lookup_lt_Some. by intros [= <-].
    + rewrite list_lookup_insert_ne by done. apply Hwf.
Qed.

Lemma wf_send b ch e b' : wf b -> send b ch e = Some b' -> wf b'.
Proof.
  intros Hwf Hs. destruct (channels b !! ch) as [c|] eqn:Hc; [|by unfold send in Hs; rewrite Hc in Hs].
  destruct (cn_closed c) eqn:Ho; [unfold send in Hs; by rewrite Hc, Ho in Hs|].
  destruct (send_spec b ch e c Hc Ho) as (c' & Hs' & Ho' & Hb'). assert (b' = with_channel b ch c') as -> by congruence.
  apply (wf_with_channel b ch c); [done..|]. rewrite Hb'. pose proof (wf_buffer b Hwf ch c Hc).
  destruct (Nat.ltb_spec (length (cn_buffer c)) subscriberBufferSize); [|done].
  rewrite length_app. simpl. lia.
Qed.

(** *** What unsubscribing does *)

Lemma index_of_id_spec id l :
  match index_of_id id l with
  | Some i => exists s, l !! i = Some s /\ sb_id s = id
  | None => forall s, s ∈ l -> sb_id s <> id
  end.
Proof.
  induction l as [|s l IH]; simpl; [by intros s ?%elem_of_nil|].
  destruct (Nat.eqb_spec (sb_id s) id) as [He|Hne]; [by exists s|].
  destruct (index_of_id id l); simpl; [done|]. intros x [->|Hx]%elem_of_cons; auto.
Qed.

Lemma drop_empty_wf b run : wf b -> drop_empty b run = b.
Proof.
  intros Hwf. unfold drop_empty. destruct (topics b !! run) as [[a [|n]]|] eqn:Hs; try done.
  destruct (wf_slice b Hwf _ _ Hs) as (? & _ & ? & _). simpl in *. lia.
Qed.

Lemma subscribers_drop_empty b run r : subscribers (drop_empty b run) r = subscribers b r.
Proof.
  unfold drop_empty. destruct (topics b !! run) as [[a [|n]]|] eqn:Hs; try done.
  unfold subscribers at 1. simpl. destruct (decide (r = run)) as [->|Hne].
  - rewrite lookup_delete_eq. by rewrite (subscribers_slice b run _ Hs).
  - by rewrite lookup_delete_ne.
Qed.

Section removal.
Context (b : bus) (run : string) (s : slice) (i : nat).
Context (Hwf : wf b) (Hs : topics b !! run = Some s) (Hi : i < sl_len s).

(** The elements of the topic after a removal: the array has moved under the new slice. *)
Lemma cells_remove_at a :
  cells (remove_at b run s i) a =
    if decide (sl_arr s = a) then delete i (elements b s) ++ drop (Nat.pred (sl_len s)) (cells b a)
    else cells b a.
Proof using Hwf Hs Hi.
  destruct (wf_slice b Hwf run s Hs) as (ar & Ha & _). unfold remove_at. cbv zeta.
  change (cells (with_topic ?x _ _) ?a) with (cells x a). rewrite cells_with_cells.
  destruct (decide (sl_arr s = a)) as [<-|]; [|by rewrite decide_False by tauto].
  rewrite decide_True by (split; [done|by eexists]). rewrite delete_take_drop, <- app_assoc.
  unfold elements. rewrite take_take. by replace (i `min` sl_len s) with i by lia.
Qed.

Lemma length_removed : length (delete i (elements b s)) = Nat.pred (sl_len s).
Proof using Hwf Hs Hi.
  pose proof (elements_length b run s Hwf Hs) as Hl. rewrite length_delete, Hl; [lia|].
  apply lookup_lt_is_Some. lia.
Qed.

Lemma subscribers_remove_at r :
  subscribers (remove_at b run s i) r =
    if decide (r = run) then delete i (subscribers b run) else subscribers b r.
Proof using Hwf Hs Hi.
  rewrite (subscribers_slice b run s Hs). pose proof length_removed as Hl.
  unfold subscribers, remove_at. cbv zeta. cbn [topics with_topic with_cells].
  destruct (decide (r = run)) as [->|Hne].
  - rewrite lookup_insert_eq. unfold elements at 1. cbn [sl_arr sl_len].
    fold (remove_at b run s i). rewrite cells_remove_at, decide_True by done.
    rewrite take_app_le by lia. apply take_ge. lia.
  - rewrite lookup_insert_ne by done. destruct (topics b !! r) as [s'|] eqn:Hr; [|done].
    unfold elements. fold (remove_at b run s i). rewrite cells_remove_at. case_decide as He; [|done].
    destruct Hne. by eapply (wf_array b Hwf).
Qed.

Lemma length_cells_remove_at a : length (cells (remove_at b run s i) a) = length (cells b a).
Proof using Hwf Hs Hi.
  rewrite cells_remove_at. case_decide as He; [|done]. rewrite length_app, length_removed, length_drop, <- He.
  destruct (wf_slice b Hwf run s Hs) as (ar & Ha & Hl). unfold cells. rewrite Ha. lia.
Qed.

Lemma arrays_remove_at a ar' :
  arrays (remove_at b run s i) !! a = Some ar' ->
  exists ar, arrays b !! a = Some ar /\ ar_cap ar' = ar_cap ar /\ length (ar_cells ar') = length (ar_cells ar).
Proof using Hwf Hs Hi.
  intros Ha. pose proof (length_cells_remove_at a) as Hl. unfold cells in Hl. rewrite Ha in Hl.
  unfold remove_at in Ha. cbv zeta in Ha. cbn [arrays with_topic with_cells] in Ha.
  destruct (decide (sl_arr s = a)) as [<-|Hne].
  - rewrite list_lookup_alter_eq in Ha. destruct (arrays b !! sl_arr s) as [ar|]; [|done].
    exists ar. simpl in Ha. injection Ha as <-. done.
  - rewrite list_lookup_alter_ne in Ha by done. rewrite Ha in Hl. by exists ar'.
Qed.
End removal.

Lemma topics_remove_at b run s i r s' :
  topics (drop_empty (remove_at b run s i) run) !! r = Some s' ->
  r <> run /\ topics b !! r = Some s' \/
  r = run /\ s' = {| sl_arr := sl_arr s; sl_len := Nat.pred (sl_len s) |} /\ 0 < sl_len s'.
Proof.
  unfold drop_empty, remove_at. cbv zeta. cbn [topics with_topic]. rewrite lookup_insert_eq.
  destruct (Nat.pred (sl_len s)) as [|n] eqn:Hn; cbn [topics with_topic].
  - intros [Hne Hr]%lookup_delete_Some. rewrite lookup_insert_ne in Hr by done. by left.
  - intros [[<- <-]|[Hne Hr]]%lookup_insert_Some; [|by left]. right. split_and!; try done. simpl. lia.
Qed.

(** Removing the subscriber whose channel was closed. *)
Lemma wf_removed b run s i sub :
  wf b -> topics b !! run = Some s -> elements b s !! i = Some sub ->
  forall c, channels b !! sb_ch sub = Some c ->
  wf (drop_empty (remove_at (with_channel b (sb_ch sub) {| cn_buffer := cn_buffer c; cn_closed := true |})
        run s i) run).
Proof.
  intros Hwf Hs Hx c Hc.
  assert (i < sl_len s) as Hi.
  { apply lookup_lt_Some in Hx. by rewrite (elements_length b run s) in Hx. }
  assert (subscribers b run !! i = Some sub) as Hxs by by rewrite (subscribers_slice b run s Hs).
  set (b1 := with_channel _ _ _).
  assert (forall r, subscribers (drop_empty (remove_at b1 run s i) run) r =
    if decide (r = run) then delete i (subscribers b run) else subscribers b r) as Hsub.
  { intros r. rewrite subscribers_drop_empty. by apply (subscribers_remove_at b run s i). }
  assert (forall r j x, subscribers (drop_empty (remove_at b1 run s i) run) r !! j = Some x ->
    exists k, subscribers b r !! k = Some x /\ ~ (r = run /\ k = i) /\
      k = if decide (r = run) then if decide (j < i) then j else S j else j) as Hold.
  { intros r j x. rewrite Hsub. case_decide as Hr; [|intros; exists j; tauto]. subst r.
    rewrite list_lookup_delete. intros Hj. eexists. split; [done|]. split; [case_decide; lia|done]. }
  assert (forall r, channels (drop_empty r run) = channels r) as Hch.
  { intros r. unfold drop_empty. by repeat case_match. }
  assert (forall r, nextID (drop_empty r run) = nextID r /\ arrays (drop_empty r run) = arrays r) as Hrest.
  { intros r. unfold drop_empty. by repeat case_match. }
  constructor.
  - intros r s' Hr. destruct (Hrest (remove_at b1 run s i)) as [_ ->].
    apply topics_remove_at in Hr as [[Hne Hr]|(-> & -> & Hpos)]; simpl in *.
    + destruct (wf_slice b Hwf r s' Hr) as (ar & Ha & Hl). exists ar. split; [|done].
      rewrite list_lookup_alter_ne; [done|]. intros Heq. destruct Hne. by eapply (wf_array b Hwf).
    + destruct (wf_slice b Hwf run s Hs) as (ar & Ha & Hl).
      pose proof (length_cells_remove_at b run s i Hwf Hs Hi (sl_arr s)) as Hc'.
      unfold cells in Hc'. cbn [remove_at with_topic with_cells arrays] in Hc'. cbv zeta in Hc'.
      rewrite list_lookup_alter_eq, Ha in Hc' |- *. eexists. split; [done|]. simpl in Hc' |- *. split; [lia|].
      etrans; [|apply Nat.eq_le_incl; symmetry; exact Hc']. lia.
  - intros a ar Ha. destruct (Hrest (remove_at b1 run s i)) as [_ Hr]. rewrite Hr in Ha.
    destruct (arrays_remove_at b run s i Hwf Hs Hi a ar Ha) as (ar0 & Ha0 & -> & ->). by eapply wf_cap.
  - intros r1 r2 s1 s2 H1 H2 Heq.
    apply topics_remove_at in H1 as [[? H1]|(-> & -> & _)], H2 as [[? H2]|(-> & -> & _)]; simpl in *;
      try done; by eapply (wf_array b Hwf).
  - intros r j x Hj. destruct (Hrest (remove_at b1 run s i)) as [-> _]. rewrite Hch. simpl.
    destruct (Hold r j x Hj) as (k & Hk & Hne & _). destruct (wf_sub b Hwf r k x Hk) as (? & d & Hd & Hdo).
    split; [done|]. exists d. split; [|done]. rewrite list_lookup_insert_ne; [done|]. intros Heq. apply Hne.
    eapply (wf_distinct b Hwf); [done..|]. auto.
  - intros r1 r2 j1 j2 x y Hx1 Hy1 Heq.
    destruct (Hold r1 j1 x Hx1) as (k1 & Hk1 & _ & E1), (Hold r2 j2 y Hy1) as (k2 & Hk2 & _ & E2).
    destruct (wf_distinct b Hwf r1 r2 k1 k2 x y Hk1 Hk2 Heq) as [-> Hk]. split; [done|].
    repeat case_decide; lia.
  - rewrite Hch. simpl. intros ch d. destruct (decide (sb_ch sub = ch)) as [<-|Hne].
    + rewrite list_lookup_insert_eq by by eapply lookup_lt_Some. intros [= <-]. apply (wf_buffer b Hwf (sb_ch sub) c Hc).
    + rewrite list_lookup_insert_ne by done. apply Hwf.
Qed.

Lemma Unsubscribe_spec b run id (Hwf : wf b) :
  ((forall sub, sub ∈ subscribers b run -> sb_id sub <> id) /\ Unsubscribe b run id = Some b) \/
  (exists s i sub c, topics b !! run = Some s /\ elements b s !! i = Some sub /\ sb_id sub = id /\
     channels b !! sb_ch sub = Some c /\
     Unsubscribe b run id = Some (drop_empty (remove_at
       (with_channel b (sb_ch sub) {| cn_buffer := cn_buffer c; cn_closed := true |}) run s i) run)).
Proof.
  unfold Unsubscribe. destruct (topics b !! run) as [s|] eqn:Hs.
  2: { left. split; [|done]. unfold subscribers. rewrite Hs. by intros sub ?%elem_of_nil. }
  pose proof (index_of_id_spec id (elements b s)) as Hi. destruct (index_of_id id (elements b s)) as [i|].
  - right. destruct Hi as (sub & Hsub & Hid). exists s, i, sub.
    destruct (wf_sub b Hwf run i sub) as (_ & c & Hc & Ho); [by rewrite (subscribers_slice b run s Hs)|].
    exists c. rewrite Hsub. cbn [mbind option_bind]. unfold close_channel. by rewrite Hc, Ho.
  - left. rewrite (subscribers_slice b run s Hs), drop_empty_wf by done. done.
Qed.

Lemma wf_Unsubscribe b run id b' : wf b -> Unsubscribe b run id = Some b' -> wf b'.
Proof.
  intros Hwf Hu. destruct (Unsubscribe_spec b run id Hwf) as [[_ Heq]|(s & i & sub & c & Hs & Hx & _ & Hc & Heq)];
    rewrite Heq in Hu; injection Hu as <-; [done|]. by apply wf_removed.
Qed.

(** ** Reachable states *)

Lemma wf_start : wf NewChannelBus.
Proof.
  constructor; unfold subscribers; simpl; try by intros; try by rewrite lookup_empty in *.
  all: intros *; rewrite ?lookup_nil, ?lookup_empty; done.
Qed.

Lemma wf_bstep w l w' : bstep w l w' -> wf (w_bus w) -> wf (w_bus w').
Proof.
  intros [run|run id b Hu|run e s|before p after sub b Hw He Hs|before p after Hw Hl|ch c e rest Hc Hb] Hwf; simpl.
  - by apply wf_Subscribe.
  - by eapply wf_Unsubscribe.
  - done.
  - by eapply wf_send.
  - done.
  - apply (wf_with_channel _ _ c); [done..|]. simpl. pose proof (wf_buffer _ Hwf ch c Hc) as Hl.
    rewrite Hb in Hl. simpl in Hl. lia.
Qed.

Lemma wf_reachable w : rtc any_step start w -> wf (w_bus w).
Proof.
  cut (forall w0, wf (w_bus w0) -> rtc any_step w0 w -> wf (w_bus w)).
  { intros H. apply H, wf_start. }
  intros w0 H0 H. induction H as [|x y z [l Hs] _ IH]; [done|]. apply IH. by eapply wf_bstep.
Qed.

Lemma quiet_any w w' : rtc quiet_step w w' -> rtc any_step w w'.
Proof. apply rtc_subrel. intros x y (l & Hs & _). by exists l. Qed.

(** A publication whose slice still holds what it read, all of it open. *)
Record undisturbed (b : bus) (p : publisher) : Prop := {
  un_elements : elements b (pb_slice p) = pb_seen p;
  un_length : length (pb_seen p) = sl_len (pb_slice p);
  un_bound : sl_len (pb_slice p) = 0 \/ sl_arr (pb_slice p) < length (arrays b);
  un_topic : forall run s, topics b !! run = Some s -> sl_arr (pb_slice p) = sl_arr s ->
    sl_len (pb_slice p) <= sl_len s;
  un_open : forall sub, sub ∈ pb_seen p ->
    exists c, channels b !! sb_ch sub = Some c /\ cn_closed c = false;
}.

Lemma undisturbed_read b run e :
  wf b ->
  let s := default {| sl_arr := 0; sl_len := 0 |} (topics b !! run) in
  undisturbed b {| pb_event := e; pb_slice := s; pb_next := 0; pb_seen := elements b s |}.
Proof.
  intros Hwf. cbv zeta. destruct (topics b !! run) as [s|] eqn:Hs; simpl; constructor; simpl; try done.
  - by eapply elements_length.
  - right. by eapply wf_slice_bound.
  - intros r s' Hr Heq. assert (r = run) as -> by (eapply (wf_array b Hwf); eauto). simplify_eq. lia.
  - intros sub [i Hi]%list_elem_of_lookup. rewrite <- (subscribers_slice b run s Hs) in Hi.
    by destruct (wf_sub b Hwf run i sub Hi).
  - by left.
  - lia.
  - intros sub Hin. by apply elem_of_nil in Hin.
Qed.

Lemma undisturbed_Subscribe b run p : wf b -> undisturbed b p -> undisturbed (Subscribe b run).1 p.
Proof.
  intros Hwf Hp. pose proof (wf_prepared b Hwf) as Hwf0. unfold Subscribe. simpl. fold (prepared b).
  set (sub := {| sb_id := nextID b; sb_ch := length (channels b) |}).
  destruct (append_sub_spec (prepared b) run sub Hwf0) as [s' Ha]. constructor.
  - rewrite (ap_same _ _ _ _ _ Ha); [apply Hp|apply Hp|]. intros s0 Hs0. by apply (un_topic b p Hp run).
  - apply Hp.
  - destruct (un_bound b p Hp) as [?|?]; [by left|right]. pose proof (ap_arrays _ _ _ _ _ Ha). simpl in *. lia.
  - intros r s. rewrite (ap_topics _ _ _ _ _ Ha). intros [[<- <-]|[Hne Hr]]%lookup_insert_Some Heq.
    + destruct (ap_slice _ _ _ _ _ Ha) as [Hs'|(s & Hs & Hs' & Hl)]; simpl in *.
      * destruct (un_bound b p Hp) as [-> |?]; [lia|]. lia.
      * etrans; [|exact Hl]. apply (un_topic b p Hp run s Hs). congruence.
    + by apply (un_topic b p Hp r s Hr).
  - intros x Hx. destruct (un_open b p Hp x Hx) as (c & Hc & Ho). rewrite (ap_channels _ _ _ _ _ Ha).
    exists c. split; [by apply lookup_app_l_Some|done].
Qed.

Lemma undisturbed_channel b ch c c' p :
  channels b !! ch = Some c -> (cn_closed c = false -> cn_closed c' = false) ->
  undisturbed b p -> undisturbed (with_channel b ch c') p.
Proof.
  intros Hc Ho Hp. constructor; try apply Hp. intros x Hx. destruct (un_open b p Hp x Hx) as (d & Hd & Hdo). simpl.
  destruct (decide (ch = sb_ch x)) as [->|Hne].
  - rewrite list_lookup_insert_eq by by eapply lookup_lt_Some. exists c'. split; [done|]. apply Ho. congruence.
  - rewrite list_lookup_insert_ne by done. by exists d.
Qed.

Lemma undisturbed_send b ch e b' p : send b ch e = Some b' -> undisturbed b p -> undisturbed b' p.
Proof.
  unfold send. destruct (channels b !! ch) as [c|] eqn:Hc; [|done]. destruct (cn_closed c) eqn:Ho; [done|].
  case_match; intros [= <-]; [|done]. by apply (undisturbed_channel b ch c).
Qed.

Lemma undisturbed_next b p n :
  undisturbed b p -> undisturbed b {| pb_event := pb_event p; pb_slice := pb_slice p; pb_next := n; pb_seen := pb_seen p |}.
Proof. intros []. by constructor. Qed.

Lemma undisturbed_step w w' :
  wf (w_bus w) -> quiet_step w w' -> (forall p, p ∈ w_publishers w -> undisturbed (w_bus w) p) ->
  forall p, p ∈ w_publishers w' -> undisturbed (w_bus w') p.
Proof.
  intros Hwf (l & Hs & Hq) Hall.
  destruct Hs as [run|run id b Hu|run e s|before p after sub b Hw He Hs|before p after Hw Hl|ch c e rest Hc Hb];
    simpl; intros q Hq'.
  - apply undisturbed_Subscribe; auto.
  - rewrite Hq in Hq' by eauto. by apply elem_of_nil in Hq'.
  - apply elem_of_cons in Hq' as [->|Hq']; [by apply undisturbed_read|auto].
  - rewrite Hw in Hall. apply elem_of_app in Hq' as [Hq'|[->|Hq']%elem_of_cons].
    + eapply undisturbed_send; [done|]. apply Hall. set_solver.
    + apply undisturbed_next. eapply undisturbed_send; [done|]. apply Hall. set_solver.
    + eapply undisturbed_send; [done|]. apply Hall. set_solver.
  - apply Hall. rewrite Hw. set_solver.
  - apply (undisturbed_channel _ _ c); auto.
Qed.

Lemma quiet_undisturbed w :
  rtc quiet_step start w -> forall p, p ∈ w_publishers w -> undisturbed (w_bus w) p.
Proof.
  intros H. cut (forall w0, wf (w_bus w0) -> (forall p, p ∈ w_publishers w0 -> undisturbed (w_bus w0) p) ->
    rtc quiet_step w0 w -> forall p, p ∈ w_publishers w -> undisturbed (w_bus w) p).
  { intros Hc. apply (Hc start); [apply wf_start| |done]. intros p Hp. by apply elem_of_nil in Hp. }
  clear H. intros w0 Hwf H0 H. induction H as [|x y z Hs _ IH]; [done|]. apply IH.
  - destruct Hs as (l & Hs & _). by eapply wf_bstep.
  - by apply (undisturbed_step x).
Qed.

(** ** A publication at once *)

(** The channel with the event, when it has room. *)
Definition push (e : event) (c : channel) : channel :=
  if length (cn_buffer c) <? subscriberBufferSize
  then {| cn_buffer := cn_buffer c ++ [e]; cn_closed := cn_closed c |} else c.

Lemma send_push b ch e c :
  channels b !! ch = Some c -> cn_closed c = false ->
  send b ch e = Some {| topics := topics b; nextID := nextID b; arrays := arrays b;
                        channels := alter (push e) ch (channels b) |}.
Proof.
  intros Hc Ho. unfold send, push. rewrite Hc, Ho. case_match eqn:Hl.
  - f_equal. unfold with_channel. f_equal. apply list_eq. intros k. destruct (decide (ch = k)) as [<-|Hne].
    + rewrite list_lookup_insert_eq, list_lookup_alter_eq, Hc by by eapply lookup_lt_Some. simpl. by rewrite Hl, Ho.
    + by rewrite list_lookup_insert_ne, list_lookup_alter_ne.
  - destruct b as [ts n ars chs]. simpl in *. f_equal. f_equal. apply list_eq. intros k.
    destruct (decide (ch = k)) as [<-|Hne]; [|by rewrite list_lookup_alter_ne].
    rewrite list_lookup_alter_eq, Hc. simpl. by rewrite Hl.
Qed.

Lemma push_open e c : cn_closed (push e c) = cn_closed c.
Proof. unfold push. by case_match. Qed.

Lemma publish_all e subs : forall b,
  NoDup (sb_ch <$> subs) ->
  (forall sub, sub ∈ subs -> exists c, channels b !! sb_ch sub = Some c /\ cn_closed c = false) ->
  exists b', foldl (fun b sub => b ← b; send b (sb_ch sub) e) (Some b) subs = Some b' /\
    topics b' = topics b /\ nextID b' = nextID b /\ arrays b' = arrays b /\
    forall ch, channels b' !! ch =
      if bool_decide (ch ∈ sb_ch <$> subs) then push e <$> (channels b !! ch) else channels b !! ch.
Proof.
  induction subs as [|sub subs IH]; intros b Hd Ho; [by exists b|].
  apply NoDup_cons in Hd as [Hnin Hd]. destruct (Ho sub) as (c & Hc & Hco); [by left|].
  cbn [foldl]. cbn [mbind option_bind]. rewrite (send_push b _ e c Hc Hco).
  destruct (IH {| topics := topics b; nextID := nextID b; arrays := arrays b;
                  channels := alter (push e) (sb_ch sub) (channels b) |} Hd) as (b' & Hb' & H1 & H2 & H3 & H4).
  { intros x Hx. destruct (Ho x) as (d & Hd' & Hdo); [by right|]. simpl. exists d.
    rewrite list_lookup_alter_ne; [done|]. intros Heq. apply Hnin. rewrite Heq. by apply list_elem_of_fmap_2. }
  exists b'. split_and!; [done..|]. intros ch. rewrite H4. simpl.
  destruct (decide (ch = sb_ch sub)) as [->|Hne].
  - rewrite bool_decide_eq_false_2 by done. rewrite list_lookup_alter_eq.
    by rewrite bool_decide_eq_true_2 by by left.
  - rewrite list_lookup_alter_ne by done. rewrite (bool_decide_ext (ch ∈ sb_ch <$> subs)
      (ch ∈ sb_ch sub :: (sb_ch <$> subs))); [done|]. rewrite elem_of_cons. tauto.
Qed.

Lemma NoDup_channels b run : wf b -> NoDup (sb_ch <$> subscribers b run).
Proof.
  intros Hwf. apply NoDup_alt. intros i j ch Hi Hj. rewrite list_lookup_fmap in Hi, Hj.
  destruct (subscribers b run !! i) as [x|] eqn:Hx; [|done]. destruct (subscribers b run !! j) as [y|] eqn:Hy; [|done].
  simplify_eq/=. by destruct (wf_distinct b Hwf run run i j x y Hx Hy) as [_ ?]; [auto|].
Qed.

(** ** Theorems *)

(** C36. In every state the bus can get into, whatever calls ran at the same time: the
    subscribers have identifiers below the next one and open channels, no two of them share
    an identifier or a channel, even for different runs, and no buffer is over its limit. *)
Theorem bus_invariant (w : world) (Hreach : rtc any_step start w) :
  (forall run sub, sub ∈ subscribers (w_bus w) run ->
     sb_id sub < nextID (w_bus w) /\ exists c, channels (w_bus w) !! sb_ch sub = Some c /\ cn_closed c = false) /\
  (forall r1 r2 i1 i2 x y, subscribers (w_bus w) r1 !! i1 = Some x -> subscribers (w_bus w) r2 !! i2 = Some y ->
     sb_id x = sb_id y \/ sb_ch x = sb_ch y -> r1 = r2 /\ i1 = i2) /\
  (forall ch c, channels (w_bus w) !! ch = Some c -> length (cn_buffer c) <= subscriberBufferSize).
Proof.
  pose proof (wf_reachable w Hreach) as Hwf. split_and!; [|by apply Hwf..].
  intros run sub [i Hi]%list_elem_of_lookup. by eapply wf_sub.
Qed.

(** [Publish] with nothing running beside it: it does not panic, every subscriber of the run
    whose buffer has room gets the event, once and last; a full buffer, and every other
    channel, stays as it was, and so do the subscriptions. *)
Theorem publish_delivers (w : world) (run : string) (e : event) (Hreach : rtc any_step start w) :
  let b := w_bus w in
  exists b', Publish b run e = Some b' /\
    topics b' = topics b /\ nextID b' = nextID b /\ arrays b' = arrays b /\
    forall ch, channels b' !! ch =
      if bool_decide (ch ∈ sb_ch <$> subscribers b run) then push e <$> (channels b !! ch) else channels b !! ch.
Proof.
  pose proof (wf_reachable w Hreach) as Hwf. cbv zeta. apply publish_all; [by apply NoDup_channels|].
  intros sub [i Hi]%list_elem_of_lookup. by destruct (wf_sub _ Hwf run i sub Hi).
Qed.

(** C37. As long as no one unsubscribes while an event is being published, however the calls
    interleave otherwise (subscriptions to the same run included, which may write the array that the
    publication reads), no publication panics, and each one works through exactly the
    subscribers that the run had when it started.  Without that condition both fail (Examples
    [unsubscribe_race_panics] and [unsubscribe_race_skips]). *)
Theorem quiet_publications (w : world) (Hreach : rtc quiet_step start w) :
  ~ panics w /\
  forall p, p ∈ w_publishers w ->
    elements (w_bus w) (pb_slice p) = pb_seen p /\ sl_len (pb_slice p) = length (pb_seen p).
Proof.
  pose proof (quiet_undisturbed w Hreach) as Hall. split.
  - intros (p & sub & Hp & Hsub & Hs). destruct (Hall p Hp). rewrite un_elements0 in Hsub.
    destruct (un_open0 sub) as (c & Hc & Ho); [by eapply list_elem_of_lookup_2|].
    rewrite (send_push _ _ _ c Hc Ho) in Hs. done.
  - intros p Hp. destruct (Hall p Hp). done.
Qed.
End bus.

(** ** Publications that are disturbed *)

(** Capacities double, as they do in Go up to 256. *)
Definition doubling (n : nat) : nat := match n with 0 => 1 | S _ => 2 * n end.

Lemma doubling_grows n : n < doubling n.
Proof. destruct n; simpl; lia. Qed.

Section races.
Context {event : Type} (e : event).

Definition run_ : string := "run".
Definition joined (n : nat) : bus := Nat.iter n (fun b => (Subscribe (event := event) doubling b run_).1) NewChannelBus.
Definition nth_sub (i : nat) : subscriber := {| sb_id := i; sb_ch := i |}.

(** A publication that read its topic, with the next index. *)
Definition reading (n next : nat) : publisher :=
  {| pb_event := e; pb_slice := default {| sl_arr := 0; sl_len := 0 |} (topics (joined n) !! run_);
     pb_next := next; pb_seen := nth_sub <$> seq 0 n |}.

Lemma trace_any grow (w w' : world (event := event)) ls : trace (event := event) grow w ls w' -> rtc (any_step grow) w w'.
Proof. induction 1; [done|]. eapply rtc_l; [by eexists|done]. Qed.

Lemma trace_subscribe (w w' : world (event := event)) ls :
  trace doubling {| w_bus := (Subscribe doubling (w_bus w) run_).1; w_publishers := w_publishers w |} ls w' ->
  trace doubling w (LSubscribe run_ :: ls) w'.
Proof. apply trace_cons, bstep_subscribe. Qed.

(** The panic that [quiet_publications] excludes does happen: a publication reads the
    topic, its subscriber unsubscribes, and the publication goes on to send on the channel
    that is closed by then. *)
Example unsubscribe_race_panics :
  exists w : world (event := event),
    trace doubling start [LSubscribe run_; LRead run_; LUnsubscribe run_ 0] w /\ panics w.
Proof.
  eexists. split.
  - apply trace_subscribe. eapply trace_cons; [apply (bstep_read _ _ run_ e)|].
    eapply trace_cons; [by apply bstep_unsubscribe|]. apply trace_nil.
  - exists (reading 1 0), (nth_sub 0). split; [by left|]. done.
Qed.

(** Nor is the delivery exact under such a race: three subscribe, and while an event is
    published the first one leaves; the second, which was there all along, misses the event,
    and the third gets it twice, since leaving moves the elements of the array that the
    publication is going through. *)
Example unsubscribe_race_skips :
  exists w : world (event := event), trace doubling start
      [LSubscribe run_; LSubscribe run_; LSubscribe run_; LRead run_; LSend (nth_sub 0); LUnsubscribe run_ 0;
       LSend (nth_sub 2); LSend (nth_sub 2); LReturn] w /\
    subscribers (w_bus w) run_ = [nth_sub 1; nth_sub 2] /\
    cn_buffer <$> channels (w_bus w) = [[e]; []; [e; e]].
Proof.
  eexists. split; [|split].
  - do 3 apply trace_subscribe. eapply trace_cons; [apply (bstep_read _ _ run_ e)|].
    eapply trace_cons; [by eapply (bstep_send _ _ [] _ [])|].
    eapply trace_cons; [by apply bstep_unsubscribe|].
    eapply trace_cons; [by eapply (bstep_send _ _ [] _ [])|].
    eapply trace_cons; [by eapply (bstep_send _ _ [] _ [])|].
    eapply trace_cons; [eapply (bstep_return _ _ [] _ []); [done|by vm_compute]|]. apply trace_nil.
  - by vm_compute.
  - by vm_compute.
Qed.
End races.

(** ** Witnesses *)

Lemma sampleReach : rtc (any_step doubling) start {| w_bus := joined (event := nat) 2; w_publishers := [] |}.
Proof. eapply trace_any. do 2 apply trace_subscribe. apply trace_nil. Qed.

Lemma bus_invariant_witness :
  sb_id (nth_sub 1) < 2 /\ exists c, channels (joined (event := nat) 2) !! 1 = Some c /\ cn_closed c = false.
Proof.
  apply (proj1 (bus_invariant doubling doubling_grows _ sampleReach) run_ (nth_sub 1)).
  vm_compute. set_solver.
Defined.

Lemma publish_delivers_witness :
  exists b', Publish (joined 2) run_ 7 = Some b' /\
    channels b' !! 1 = Some {| cn_buffer := [7]; cn_closed := false |}.
Proof.
  destruct (publish_delivers doubling doubling_grows _ run_ 7 sampleReach) as (b' & Hb & _ & _ & _ & H).
  exists b'. split; [exact Hb|]. rewrite H. by vm_compute.
Defined.

Lemma quiet_publications_witness :
  let w := {| w_bus := joined 2; w_publishers := [reading 7 2 0] |} in
  ~ panics w /\ sl_len (pb_slice (reading 7 2 0)) = 2.
Proof.
  assert (rtc (quiet_step doubling) start {| w_bus := joined 2; w_publishers := [reading 7 2 0] |}) as H.
  { do 2 (eapply rtc_l; [exists (LSubscribe run_); split; [apply bstep_subscribe|done]|]).
    eapply rtc_l; [exists (LRead run_); split; [apply (bstep_read _ _ run_ 7)|by intros (? & ? & ?)]|]. done. }
  destruct (quiet_publications doubling doubling_grows _ H) as [Hp Hall].
  split; [exact Hp|]. destruct (Hall (reading 7 2 0)) as [_ Hl]; [by left|exact Hl].
Defined.
