(* ===== verification/Kube.v ===== *)
(** * What the controllers and the request handlers share.

    A handler is written as code that makes calls and may return early.  Its meaning is
    the list of the calls it made, in order, with what they returned, and the value it
    goes on with, or the result it returned.  The objects it changes in memory are
    rebound.  The metadata of an object is that of [metav1.ObjectMeta], as far as it is
    read. *)

From S2P Require Import Prelude GoStrings ApiTypes.

(** ** Handlers *)

Section handler.
Context {E R : Type}.

(** The calls [E] that were made, and the value [A], or the result [R] that the handler
    returned with. *)
Definition handler (A : Type) : Type := (list E * (A + R))%type.

#[export] Instance handler_ret : MRet handler := fun A a => ([], inl a).
#[export] Instance handler_bind : MBind handler := fun A B k m =>
  match m.2 with
  | inl a => (m.1 ++ (k a).1, (k a).2)
  | inr r => (m.1, inr r)
  end.

Definition emit (e : E) : handler unit := ([e], inl tt).
Definition return_ {A} (r : R) : handler A := ([], inr r).

(** The handler's result: the code ends with a value of the result type. *)
Definition outcome (m : handler R) : R := match m.2 with inl r => r | inr r => r end.

(** Every call satisfies [P]. *)
Definition calls (P : E -> Prop) {A} (m : handler A) : Prop := Forall P m.1.

(** Whatever the handler goes on with satisfies [Q], and whatever it returns [QR]. *)
Definition ends (QR : R -> Prop) {A} (Q : A -> Prop) (m : handler A) : Prop :=
  match m.2 with inl a => Q a | inr r => QR r end.

Lemma calls_ret P {A} (a : A) : calls P (mret a).
Proof. apply Forall_nil_2. Qed.

Lemma calls_return P {A} (r : R) : calls P (return_ (A := A) r).
Proof. apply Forall_nil_2. Qed.

Lemma calls_emit (P : E -> Prop) e : P e -> calls P (emit e).
Proof. intros He. by apply Forall_singleton. Qed.

Lemma calls_bind P {A B} (m : handler A) (k : A -> handler B) :
  calls P m -> (forall a, calls P (k a)) -> calls P (m ≫= k).
Proof.
  intros Hm Hk. unfold calls, mbind, handler_bind. destruct m as [es [a|r]]; simpl in *.
  - apply Forall_app. split; [done|apply Hk].
  - done.
Qed.

(** The rest of the code, knowing what the first part has returned. *)
Lemma calls_bind_known P {A B} (m : handler A) (k : A -> handler B) :
  calls P m -> (forall a, m.2 = inl a -> calls P (k a)) -> calls P (m ≫= k).
Proof.
  intros Hm Hk. unfold calls, mbind, handler_bind. destruct m as [es [a|r]]; simpl in *.
  - apply Forall_app. split; [done|by apply Hk].
  - done.
Qed.

Lemma bind_emit e {B} (k : unit -> handler B) :
  emit e ≫= k = (e :: (k tt).1, (k tt).2).
Proof. done. Qed.

Lemma bind_ret {A B} (a : A) (k : A -> handler B) : mret a ≫= k = k a.
Proof. unfold mbind, handler_bind, mret, handler_ret. simpl. by destruct (k a). Qed.

Lemma bind_return {A B} r (k : A -> handler B) : return_ r ≫= k = return_ r.
Proof. done. Qed.

Lemma bind_assoc {A B C} (m : handler A) (k : A -> handler B) (l : B -> handler C) :
  (m ≫= k) ≫= l = m ≫= (fun a => k a ≫= l).
Proof.
  unfold mbind, handler_bind. destruct m as [es [a|r]]; simpl; [|done].
  destruct (k a) as [es' [b|r]]; simpl; [|done]. by rewrite <- app_assoc.
Qed.
End handler.
Arguments handler : clear implicits.

#[export] Hint Resolve calls_ret calls_return calls_emit : unc.
#[export] Hint Rewrite @bind_emit @bind_return : unc_rw.

(** Push a claim about the calls of a handler through its code. *)
Ltac walk_calls :=
  repeat first
    [ apply calls_ret | apply calls_return
    | apply calls_bind; [|intros ?]
    | match goal with
      | |- calls _ (match ?x with _ => _ end) => destruct x eqn:?
      | |- calls _ (if ?x then _ else _) => destruct x eqn:?
      | |- calls _ (let '(_, _) := ?x in _) => destruct x eqn:?
      end
    | apply calls_emit ].

(** ** Object metadata *)

Record ObjectMeta := {
  m_Name : string; m_Namespace : string;
  m_Labels : gmap string string; m_Annotations : gmap string string;
  m_Finalizers : list string;
  (** [DeletionTimestamp] is set *)
  m_Deleted : bool;
  m_Created : time;
}.

(** An entry of a [map[string]string], the empty string when there is none. *)
Definition entry (m : gmap string string) (k : string) : string := default "" (m !! k).

Definition with_labels (m : ObjectMeta) (l : gmap string string) : ObjectMeta :=
  {| m_Name := m_Name m; m_Namespace := m_Namespace m; m_Labels := l;
     m_Annotations := m_Annotations m; m_Finalizers := m_Finalizers m;
     m_Deleted := m_Deleted m; m_Created := m_Created m |}.

Definition with_annotations (m : ObjectMeta) (a : gmap string string) : ObjectMeta :=
  {| m_Name := m_Name m; m_Namespace := m_Namespace m; m_Labels := m_Labels m;
     m_Annotations := a; m_Finalizers := m_Finalizers m;
     m_Deleted := m_Deleted m; m_Created := m_Created m |}.

Definition with_finalizers (m : ObjectMeta) (fs : list string) : ObjectMeta :=
  {| m_Name := m_Name m; m_Namespace := m_Namespace m; m_Labels := m_Labels m;
     m_Annotations := m_Annotations m; m_Finalizers := fs;
     m_Deleted := m_Deleted m; m_Created := m_Created m |}.

(** A condition of a status; [true] stands for [ConditionTrue]. *)
Record Condition := {
  cd_Type : string; cd_Status : bool; cd_Reason : string; cd_Message : string;
  cd_LastTransitionTime : time;
}.

(** ** The controller runtime

    [controllerutil] and [apimachinery] are libraries; what the controllers use of them is
    an interface, with the behaviour its documentation states as laws. *)

Class ControllerUtil := {
  ContainsFinalizer : ObjectMeta -> string -> bool;
  AddFinalizer : ObjectMeta -> string -> ObjectMeta;
  RemoveFinalizer : ObjectMeta -> string -> ObjectMeta;
  SetStatusCondition : list Condition -> Condition -> list Condition;
}.

Class ControllerUtilLaws (U : ControllerUtil) : Prop := {
  contains_spec m f : ContainsFinalizer m f = true <-> f ∈ m_Finalizers m;
  add_contains m f : f ∈ m_Finalizers (AddFinalizer m f);
  add_keeps m f g : g ∈ m_Finalizers m -> g ∈ m_Finalizers (AddFinalizer m f);
  add_only m f : AddFinalizer m f = with_finalizers m (m_Finalizers (AddFinalizer m f));
  remove_spec m f g : g ∈ m_Finalizers (RemoveFinalizer m f) <-> g ∈ m_Finalizers m /\ g <> f;
  remove_only m f : RemoveFinalizer m f = with_finalizers m (m_Finalizers (RemoveFinalizer m f));
}.

(** An implementation, for the examples. *)
#[export] Instance plain_util : ControllerUtil := {
  ContainsFinalizer m f := bool_decide (f ∈ m_Finalizers m);
  AddFinalizer m f :=
    if bool_decide (f ∈ m_Finalizers m) then m else with_finalizers m (m_Finalizers m ++ [f]);
  RemoveFinalizer m f := with_finalizers m (filter (fun g => g <> f) (m_Finalizers m));
  SetStatusCondition cs c :=
    filter (fun c' => cd_Type c' <> cd_Type c) cs ++ [c];
}.

#[export] Instance plain_util_laws : ControllerUtilLaws plain_util.
Proof.
  split; unfold ContainsFinalizer, AddFinalizer, RemoveFinalizer, plain_util.
  - intros m f. by rewrite bool_decide_eq_true.
  - intros m f. case_bool_decide; [done|]. simpl. set_solver.
  - intros m f g Hg. case_bool_decide; [done|]. simpl. set_solver.
  - intros m f. by destruct m; case_bool_decide.
  - intros m f g. simpl. rewrite list_elem_of_filter. tauto.
  - done.
Qed.
