(* ===== verification/RunController.v ===== *)
(** * The AgentRun controller: [internal/controller/agentrun_controller.go],
    [mapping.go] and [project_resolve.go].

    The controller bridges a stored AgentRun and a Temporal workflow.  One reconcile is a
    handler over the answers of the API server, Temporal and soft-serve; what it did is the
    list of its calls.  A call to the API server answers with the object as the server
    stored it, which replaces the one in memory. *)

From S2P Require Import Prelude GoStrings ApiTypes Kube TemporalTypes.

Local Open Scope Z_scope.

(** ** The stored objects *)

(** The part of an AgentRun's status that this controller never writes. *)
Record RunReports := {
  rp_TraceID : string; rp_WorktreePath : string; rp_LogOutput : string;
  rp_AgentJSONL : string; rp_RetainUntil : option time; rp_DebugActive : bool;
  rp_Stage : string; rp_RetryCount : Z; rp_TotalCost : string; rp_TotalAdditions : Z;
  rp_TotalDeletions : Z; rp_CIFixAttempts : Z; rp_LastCIStatus : string;
  rp_ParentPRUrl : string;
}.

(** [api/v1alpha1/types.go:236-333] AgentRunStatus *)
Record RunStatus := {
  st_Phase : AgentRunPhase; st_Message : string; st_PodName : string;
  st_StartedAt : option time; st_CompletedAt : option time;
  st_Conditions : list Condition; st_DeploymentName : string;
  st_VerificationResult : string; st_PRUrl : string; st_Archived : bool;
  st_Reports : RunReports;
}.

(** [api/v1alpha1/types.go:342-348] AgentRun *)
Record Run := { run_Meta : ObjectMeta; run_Spec : AgentRunSpec; run_Status : RunStatus }.

(** [api/v1alpha1/project_types.go:44-76] ProjectDefaults *)
Record ProjectDefaults := {
  pd_ModelTier : string; pd_ManageModelTier : string; pd_ImplementModelTier : string;
  pd_TTLSeconds : Z; pd_OrchestrationMode : string; pd_AutoPush : bool; pd_AutoPR : bool;
  pd_PRBaseBranch : string;
}.

(** [api/v1alpha1/project_types.go:8-129] Project: the part of the spec and the status that
    the controllers read and write *)
Record Project := {
  pj_Meta : ObjectMeta; pj_DisplayName : string; pj_Repos : list ApiTypes.Repository;
  pj_Packages : option (list string); pj_Defaults : option ProjectDefaults;
  pj_ConfigRepoReady : bool; pj_ConfigRepoURL : string; pj_Conditions : list Condition;
}.

Definition run_name (r : Run) : string := m_Name (run_Meta r).

Definition with_meta (r : Run) (m : ObjectMeta) : Run :=
  {| run_Meta := m; run_Spec := run_Spec r; run_Status := run_Status r |}.
Definition with_spec (r : Run) (s : AgentRunSpec) : Run :=
  {| run_Meta := run_Meta r; run_Spec := s; run_Status := run_Status r |}.
Definition with_status (r : Run) (s : RunStatus) : Run :=
  {| run_Meta := run_Meta r; run_Spec := run_Spec r; run_Status := s |}.

(** An assignment to an entry of [Annotations] or [Labels]. *)
Definition annotate (r : Run) (k v : string) : Run :=
  with_meta r (with_annotations (run_Meta r) (<[k := v]> (m_Annotations (run_Meta r)))).
Definition label (r : Run) (k v : string) : Run :=
  with_meta r (with_labels (run_Meta r) (<[k := v]> (m_Labels (run_Meta r)))).

(** Assignments to fields of the status. *)
Definition set_Phase (p : AgentRunPhase) (s : RunStatus) : RunStatus :=
  {| st_Phase := p; st_Message := st_Message s; st_PodName := st_PodName s;
     st_StartedAt := st_StartedAt s; st_CompletedAt := st_CompletedAt s;
     st_Conditions := st_Conditions s; st_DeploymentName := st_DeploymentName s;
     st_VerificationResult := st_VerificationResult s; st_PRUrl := st_PRUrl s;
     st_Archived := st_Archived s; st_Reports := st_Reports s |}.
Definition set_Message (m : string) (s : RunStatus) : RunStatus :=
  {| st_Phase := st_Phase s; st_Message := m; st_PodName := st_PodName s;
     st_StartedAt := st_StartedAt s; st_CompletedAt := st_CompletedAt s;
     st_Conditions := st_Conditions s; st_DeploymentName := st_DeploymentName s;
     st_VerificationResult := st_VerificationResult s; st_PRUrl := st_PRUrl s;
     st_Archived := st_Archived s; st_Reports := st_Reports s |}.
Definition set_PodName (n : string) (s : RunStatus) : RunStatus :=
  {| st_Phase := st_Phase s; st_Message := st_Message s; st_PodName := n;
     st_StartedAt := st_StartedAt s; st_CompletedAt := st_CompletedAt s;
     st_Conditions := st_Conditions s; st_DeploymentName := st_DeploymentName s;
     st_VerificationResult := st_VerificationResult s; st_PRUrl := st_PRUrl s;
     st_Archived := st_Archived s; st_Reports := st_Reports s |}.
Definition set_StartedAt (t : option time) (s : RunStatus) : RunStatus :=
  {| st_Phase := st_Phase s; st_Message := st_Message s; st_PodName := st_PodName s;
     st_StartedAt := t; st_CompletedAt := st_CompletedAt s;
     st_Conditions := st_Conditions s; st_DeploymentName := st_DeploymentName s;
     st_VerificationResult := st_VerificationResult s; st_PRUrl := st_PRUrl s;
     st_Archived := st_Archived s; st_Reports := st_Reports s |}.
Definition set_CompletedAt (t : option time) (s : RunStatus) : RunStatus :=
  {| st_Phase := st_Phase s; st_Message := st_Message s; st_PodName := st_PodName s;
     st_StartedAt := st_StartedAt s; st_CompletedAt := t;
     st_Conditions := st_Conditions s; st_DeploymentName := st_DeploymentName s;
     st_VerificationResult := st_VerificationResult s; st_PRUrl := st_PRUrl s;
     st_Archived := st_Archived s; st_Reports := st_Reports s |}.
Definition set_Conditions (cs : list Condition) (s : RunStatus) : RunStatus :=
  {| st_Phase := st_Phase s; st_Message := st_Message s; st_PodName := st_PodName s;
     st_StartedAt := st_StartedAt s; st_CompletedAt := st_CompletedAt s;
     st_Conditions := cs; st_DeploymentName := st_DeploymentName s;
     st_VerificationResult := st_VerificationResult s; st_PRUrl := st_PRUrl s;
     st_Archived := st_Archived s; st_Reports := st_Reports s |}.
Definition set_Deployment (n : string) (s : RunStatus) : RunStatus :=
  {| st_Phase := st_Phase s; st_Message := st_Message s; st_PodName := st_PodName s;
     st_StartedAt := st_StartedAt s; st_CompletedAt := st_CompletedAt s;
     st_Conditions := st_Conditions s; st_DeploymentName := n;
     st_VerificationResult := st_VerificationResult s; st_PRUrl := st_PRUrl s;
     st_Archived := st_Archived s; st_Reports := st_Reports s |}.
Definition set_PRUrl (u : string) (s : RunStatus) : RunStatus :=
  {| st_Phase := st_Phase s; st_Message := st_Message s; st_PodName := st_PodName s;
     st_StartedAt := st_StartedAt s; st_CompletedAt := st_CompletedAt s;
     st_Conditions := st_Conditions s; st_DeploymentName := st_DeploymentName s;
     st_VerificationResult := st_VerificationResult s; st_PRUrl := u;
     st_Archived := st_Archived s; st_Reports := st_Reports s |}.
Definition set_Verification (v : string) (s : RunStatus) : RunStatus :=
  {| st_Phase := st_Phase s; st_Message := st_Message s; st_PodName := st_PodName s;
     st_StartedAt := st_StartedAt s; st_CompletedAt := st_CompletedAt s;
     st_Conditions := st_Conditions s; st_DeploymentName := st_DeploymentName s;
     st_VerificationResult := v; st_PRUrl := st_PRUrl s;
     st_Archived := st_Archived s; st_Reports := st_Reports s |}.

(** The text of a phase. *)
Definition phase_string (p : AgentRunPhase) : string :=
  match p with
  | AgentRunPhasePending => "Pending"
  | AgentRunPhaseRunning => "Running"
  | AgentRunPhaseWaitingForInput => "WaitingForInput"
  | AgentRunPhaseSucceeded => "Succeeded"
  | AgentRunPhaseFailed => "Failed"
  | AgentRunPhaseCancelled => "Cancelled"
  | AgentRunPhaseOther s => s
  end.

(** [internal/controller/agentrun_controller.go:535-539] isTerminal *)
Definition isTerminal (phase : AgentRunPhase) : bool :=
  bool_decide (phase = AgentRunPhaseSucceeded) || bool_decide (phase = AgentRunPhaseFailed) ||
  bool_decide (phase = AgentRunPhaseCancelled).

(** [internal/controller/agentrun_controller.go:516-533] mapPhase *)
Definition mapPhase (workflowPhase : string) : AgentRunPhase :=
  if String.eqb workflowPhase "Pending" || String.eqb workflowPhase "Creating" ||
     String.eqb workflowPhase "Hydrating" then AgentRunPhasePending
  else if String.eqb workflowPhase "Running" then AgentRunPhaseRunning
  else if String.eqb workflowPhase "WaitingForInput" then AgentRunPhaseWaitingForInput
  else if String.eqb workflowPhase "Succeeded" then AgentRunPhaseSucceeded
  else if String.eqb workflowPhase "Failed" then AgentRunPhaseFailed
  else if String.eqb workflowPhase "Cancelled" || String.eqb workflowPhase "Cancelling"
  then AgentRunPhaseCancelled
  else AgentRunPhasePending.

(** ** The workflow's input: [mapping.go] *)

(** [internal/controller/mapping.go:68-86] BuildWorkflowInput: one stage *)
Definition stageInput (s : StageConfig) : StageConfigInput :=
  {| sci_Model := sc_Model s; sci_TimeoutSeconds := sc_TimeoutSeconds s;
     sci_MaxRetries := sc_MaxRetries s; sci_OnFailure := sc_OnFailure s |}.

(** [internal/controller/mapping.go:12-89] BuildWorkflowInput *)
Definition BuildWorkflowInput (agentRun : Run) (liteLLMBaseURL gitHubTokenSecretName : string)
  : WorkflowInput :=
  let spec := run_Spec agentRun in
  {| wi_AgentRunName := run_name agentRun;
     wi_Namespace := m_Namespace (run_Meta agentRun);
     wi_Repos := (fun repo => {| r_URL := repo_URL repo; r_Branch := repo_Branch repo;
                                 r_Path := repo_Path repo |}) <$> rs_Repos spec;
     wi_Prompt := rs_Prompt spec; wi_DevboxConfig := rs_DevboxConfig spec;
     wi_TTLSeconds := rs_TTLSeconds spec; wi_Image := rs_Image spec;
     wi_EnvVars := rs_EnvVars spec; wi_ModelTier := rs_ModelTier spec;
     wi_ManageModelTier := rs_ManageModelTier spec;
     wi_ImplementModelTier := rs_ImplementModelTier spec; wi_MaxBudget := rs_MaxBudget spec;
     wi_LiteLLMBaseURL := liteLLMBaseURL; wi_SpecContent := rs_SpecContent spec;
     wi_WorkspaceName := rs_WorkspaceName spec;
     wi_OrchestrationMode := rs_OrchestrationMode spec;
     wi_Orchestration :=
       (fun t => {| t_Name := ot_Name t; t_Prompt := ot_Prompt t; t_RepoURLs := ot_RepoURLs t |})
         <$> default [] (rs_Orchestration spec);
     wi_ParentRunID := rs_ParentRunID spec; wi_SpecRunID := rs_SpecRunID spec;
     wi_PipelineConfig :=
       (fun c => {| pci_Plan := stageInput (pc_Plan c); pci_Execute := stageInput (pc_Execute c);
                    pci_Verify := stageInput (pc_Verify c) |}) <$> rs_PipelineConfig spec;
     wi_AutoPush := rs_AutoPush spec; wi_AutoPR := rs_AutoPR spec;
     wi_GitHubTokenSecretName := gitHubTokenSecretName;
     wi_PRBaseBranch := rs_PRBaseBranch spec; wi_Project := rs_Project spec;
     wi_Feature := rs_Feature spec; wi_Tags := rs_Tags spec; wi_Backend := rs_Backend spec;
     wi_SpecSource := rs_SpecSource spec; wi_ApprovalMode := rs_ApprovalMode spec |}.

(** ** Project defaults: [project_resolve.go] *)

(** A string field of the run, or the project's when the run has none. *)
Definition inherit (own inherited : string) : string :=
  if String.eqb own "" && negb (String.eqb inherited "") then inherited else own.

Definition no_defaults : ProjectDefaults :=
  {| pd_ModelTier := ""; pd_ManageModelTier := ""; pd_ImplementModelTier := "";
     pd_TTLSeconds := 0; pd_OrchestrationMode := ""; pd_AutoPush := false; pd_AutoPR := false;
     pd_PRBaseBranch := "" |}.

(** [internal/controller/project_resolve.go:37-68] ResolveProjectDefaults: the repositories
    and the defaults *)
Definition inherit_defaults (p : Project) (s : AgentRunSpec) : AgentRunSpec :=
  let d := default no_defaults (pj_Defaults p) in
  {| rs_Backend := rs_Backend s;
     rs_Repos := if Nat.eqb (length (rs_Repos s)) 0 && (0 <? length (pj_Repos p))%nat
                 then pj_Repos p else rs_Repos s;
     rs_Prompt := rs_Prompt s; rs_DevboxConfig := rs_DevboxConfig s;
     rs_TTLSeconds := if (rs_TTLSeconds s =? 0) && (0 <? pd_TTLSeconds d)
                      then pd_TTLSeconds d else rs_TTLSeconds s;
     rs_EnvVars := rs_EnvVars s; rs_Image := rs_Image s;
     rs_ModelTier := inherit (rs_ModelTier s) (pd_ModelTier d);
     rs_ManageModelTier := inherit (rs_ManageModelTier s) (pd_ManageModelTier d);
     rs_ImplementModelTier := inherit (rs_ImplementModelTier s) (pd_ImplementModelTier d);
     rs_SpecContent := rs_SpecContent s; rs_SpecSource := rs_SpecSource s;
     rs_ProjectRef := rs_ProjectRef s; rs_SpecRef := rs_SpecRef s;
     rs_WorkspaceName := rs_WorkspaceName s; rs_ParentRunID := rs_ParentRunID s;
     rs_OrchestrationMode := inherit (rs_OrchestrationMode s) (pd_OrchestrationMode d);
     rs_Orchestration := rs_Orchestration s; rs_SpecRunID := rs_SpecRunID s;
     rs_DisplayName := rs_DisplayName s; rs_PipelineConfig := rs_PipelineConfig s;
     rs_MaxBudget := rs_MaxBudget s;
     rs_AutoPush := rs_AutoPush s || pd_AutoPush d;
     rs_AutoPR := rs_AutoPR s || pd_AutoPR d;
     rs_PRBaseBranch := inherit (rs_PRBaseBranch s) (pd_PRBaseBranch d);
     rs_Project := rs_Project s; rs_Feature := rs_Feature s; rs_Tags := rs_Tags s;
     rs_ApprovalMode := rs_ApprovalMode s; rs_OpenspecChange := rs_OpenspecChange s |}.

(** [internal/controller/project_resolve.go:71-79] ResolveProjectDefaults: the spec that was
    read *)
Definition with_spec_content (content : string) (s : AgentRunSpec) : AgentRunSpec :=
  {| rs_Backend := rs_Backend s; rs_Repos := rs_Repos s; rs_Prompt := rs_Prompt s;
     rs_DevboxConfig := rs_DevboxConfig s; rs_TTLSeconds := rs_TTLSeconds s;
     rs_EnvVars := rs_EnvVars s; rs_Image := rs_Image s; rs_ModelTier := rs_ModelTier s;
     rs_ManageModelTier := rs_ManageModelTier s;
     rs_ImplementModelTier := rs_ImplementModelTier s; rs_SpecContent := content;
     rs_SpecSource := "project:" +:+ rs_ProjectRef s +:+ "/spec:" +:+ rs_SpecRef s;
     rs_ProjectRef := rs_ProjectRef s; rs_SpecRef := rs_SpecRef s;
     rs_WorkspaceName := rs_WorkspaceName s; rs_ParentRunID := rs_ParentRunID s;
     rs_OrchestrationMode := rs_OrchestrationMode s; rs_Orchestration := rs_Orchestration s;
     rs_SpecRunID := rs_SpecRunID s; rs_DisplayName := rs_DisplayName s;
     rs_PipelineConfig := rs_PipelineConfig s; rs_MaxBudget := rs_MaxBudget s;
     rs_AutoPush := rs_AutoPush s; rs_AutoPR := rs_AutoPR s;
     rs_PRBaseBranch := rs_PRBaseBranch s; rs_Project := rs_Project s;
     rs_Feature := rs_Feature s; rs_Tags := rs_Tags s; rs_ApprovalMode := rs_ApprovalMode s;
     rs_OpenspecChange := rs_OpenspecChange s |}.

(** [internal/controller/project_resolve.go:81-87] ResolveProjectDefaults: the project label *)
Definition with_project (p : Project) (s : AgentRunSpec) : AgentRunSpec :=
  {| rs_Backend := rs_Backend s; rs_Repos := rs_Repos s; rs_Prompt := rs_Prompt s;
     rs_DevboxConfig := rs_DevboxConfig s; rs_TTLSeconds := rs_TTLSeconds s;
     rs_EnvVars := rs_EnvVars s; rs_Image := rs_Image s; rs_ModelTier := rs_ModelTier s;
     rs_ManageModelTier := rs_ManageModelTier s;
     rs_ImplementModelTier := rs_ImplementModelTier s; rs_SpecContent := rs_SpecContent s;
     rs_SpecSource := rs_SpecSource s; rs_ProjectRef := rs_ProjectRef s;
     rs_SpecRef := rs_SpecRef s; rs_WorkspaceName := rs_WorkspaceName s;
     rs_ParentRunID := rs_ParentRunID s; rs_OrchestrationMode := rs_OrchestrationMode s;
     rs_Orchestration := rs_Orchestration s; rs_SpecRunID := rs_SpecRunID s;
     rs_DisplayName := rs_DisplayName s; rs_PipelineConfig := rs_PipelineConfig s;
     rs_MaxBudget := rs_MaxBudget s; rs_AutoPush := rs_AutoPush s; rs_AutoPR := rs_AutoPR s;
     rs_PRBaseBranch := rs_PRBaseBranch s;
     rs_Project :=
       if String.eqb (rs_Project s) "" then
         if String.eqb (pj_DisplayName p) "" then m_Name (pj_Meta p) else pj_DisplayName p
       else rs_Project s;
     rs_Feature := rs_Feature s; rs_Tags := rs_Tags s; rs_ApprovalMode := rs_ApprovalMode s;
     rs_OpenspecChange := rs_OpenspecChange s |}.

(** The reads [ResolveProjectDefaults] makes: the project, and a file of its config
    repository; without soft-serve there is none. *)
Record project_reads := {
  pr_get : string -> get_result Project;
  pr_file : option (string -> string -> result string);
}.

(** [internal/controller/project_resolve.go:16-88] ResolveProjectDefaults: the spec as it is
    left behind, and the URL of the config repository or the error *)
Definition ResolveProjectDefaults (reads : project_reads) (s : AgentRunSpec)
  : AgentRunSpec * result string :=
  if String.eqb (rs_ProjectRef s) "" then (s, Ok "")
  else match pr_get reads (rs_ProjectRef s) with
  | NotFound => (s, Err ("get project " +:+ Quote (rs_ProjectRef s) +:+ ": not found"))
  | GetError e => (s, Err ("get project " +:+ Quote (rs_ProjectRef s) +:+ ": " +:+ e))
  | Found p =>
      let s := inherit_defaults p s in
      match pr_file reads with
      | Some readFile =>
          if negb (String.eqb (rs_SpecRef s) "") && String.eqb (rs_SpecContent s) "" then
            match readFile (rs_ProjectRef s) ("openspec/specs/" +:+ rs_SpecRef s +:+ "/spec.md") with
            | Err e => (s, Err ("read spec " +:+ Quote (rs_SpecRef s) +:+ " from project " +:+
                                Quote (rs_ProjectRef s) +:+ ": " +:+ e))
            | Ok content => (with_project p (with_spec_content content s), Ok (pj_ConfigRepoURL p))
            end
          else (with_project p s, Ok (pj_ConfigRepoURL p))
      | None => (with_project p s, Ok (pj_ConfigRepoURL p))
      end
  end.

(** ** The services and the calls *)

Inductive start_answer := Started | AlreadyStarted | StartFails (msg : string).

(** What Temporal answers to the state query: an error, a value that is not a
    [WorkflowState], or the state. *)
Inductive query_answer := QueryFails | Undecodable | Answers (s : WorkflowState).

(** [enums.WorkflowExecutionStatus], as far as it is looked at. *)
Inductive execution_status := ExCompleted | ExFailed | ExCanceled | ExTerminated | ExTimedOut | ExOther.

Inductive event_type := PhaseChanged | RunCompleted.
Inductive counter := RunsSucceededTotal | RunsFailedTotal | RunsCancelledTotal.

(** The calls of the handlers: those that may change something outside the controller, and
    the second read of the run. *)
Inductive call :=
| CUpdate (r : Run) (a : result Run)
| CStatus (r : Run) (a : result Run)
| CRefetch (a : result Run)
| CDelete (kind name : string)
| CStart (id queue : string) (input : WorkflowInput) (a : start_answer)
| CCancel (id : string)
| CPublish (run : string) (ty : event_type) (payload : string)
| CCount (c : counter).

(** The fields of the reconciler. *)
Record config := {
  cf_TaskQueue : string; cf_LiteLLMBaseURL : string; cf_GitHubTokenSecretName : string;
  cf_RetentionDays : Z; cf_EventBus : bool;
}.

(** The answers of one reconcile.  A write is answered by its position among the calls. *)
Record services := {
  sv_now : time;
  sv_update : nat -> Run -> result Run;
  sv_status : nat -> Run -> result Run;
  sv_refetch : result Run;
  sv_delete : string -> string -> get_result unit;
  sv_project : project_reads;
  sv_execute : string -> WorkflowInput -> start_answer;
  sv_query : string -> query_answer;
  sv_describe : string -> result (execution_status * option time);
}.

(** [internal/controller/agentrun_controller.go:46-46] annotationWorkflowID *)
Definition annotationWorkflowID : string := "aot.uncworks.io/workflow-id".
(** [internal/controller/agentrun_controller.go:49-49] annotationArchived *)
Definition annotationArchived : string := "aot.uncworks.io/archived".
(** [internal/controller/agentrun_controller.go:52-52] finalizerName *)
Definition finalizerName : string := "aot.uncworks.io/workflow-cleanup".
(** [internal/controller/agentrun_controller.go:55-55] reconcileInterval: seconds *)
Definition reconcileInterval : Z := 30.
(** [internal/controller/agentrun_controller.go:62-62] DefaultRetentionDays *)
Definition DefaultRetentionDays : Z := 7.
(** [internal/controller/agentrun_controller.go:65-65] labelSpecRunID *)
Definition labelSpecRunID : string := "aot.uncworks.io/spec-run-id".
(** [internal/controller/agentrun_controller.go:66-66] labelRunRole *)
Definition labelRunRole : string := "aot.uncworks.io/run-role".
(** [internal/controller/agentrun_controller.go:67-67] annotationParent *)
Definition annotationParent : string := "aot.uncworks.io/parent-run".
Definition labelFeature : string := "aot.uncworks.io/feature".
(** [internal/temporal/workflow.go:27-27] TaskQueue *)
Definition TaskQueue : string := "aot-agent-runs".

(** What a reconcile returns: the delay after which it wants to run again, or an error. *)
Definition ctrl_result := result (option Z).

Definition no_requeue : ctrl_result := Ok None.
Definition requeue_after (seconds : Z) : ctrl_result := Ok (Some seconds).

Section reconcile.
Context {U : ControllerUtil}.
Variables (cf : config) (sv : services).

Notation H := (handler call ctrl_result).

(** The writes: the call and the object the server answered with. *)
Definition Update (i : nat) (r : Run) : H (result Run) :=
  emit (CUpdate r (sv_update sv i r));; mret (sv_update sv i r).
Definition UpdateStatus (i : nat) (r : Run) : H (result Run) :=
  emit (CStatus r (sv_status sv i r));; mret (sv_status sv i r).

(** A write whose error ends the handler. *)
Definition or_return (prefix : string) (a : result Run) : H Run :=
  match a with
  | Ok r => mret r
  | Err e => return_ (Err (prefix +:+ ": " +:+ e))
  end.

(** A condition of the run, set now. *)
Definition condition (type_ : string) (status : bool) (reason message : string) (s : RunStatus)
  : RunStatus :=
  set_Conditions (SetStatusCondition (st_Conditions s)
    {| cd_Type := type_; cd_Status := status; cd_Reason := reason; cd_Message := message;
       cd_LastTransitionTime := sv_now sv |}) s.

(** [internal/controller/agentrun_controller.go:542-554] emitPhaseEvent *)
Definition emitPhaseEvent (r : Run) (ty : event_type) : H unit :=
  if cf_EventBus cf then
    emit (CPublish (run_name r) ty (phase_string (st_Phase (run_Status r))))
  else mret tt.

(** [internal/controller/agentrun_controller.go:500-513] cancelWorkflow *)
Definition cancelWorkflow (r : Run) : H unit :=
  let workflowID := entry (m_Annotations (run_Meta r)) annotationWorkflowID in
  if String.eqb workflowID "" then mret tt else emit (CCancel workflowID).

(** [internal/controller/agentrun_controller.go:102-113] Reconcile: deletion *)
Definition reconcile_deletion (r : Run) : H ctrl_result :=
  if ContainsFinalizer (run_Meta r) finalizerName then
    cancelWorkflow r;;
    a ← Update 0 (with_meta r (RemoveFinalizer (run_Meta r) finalizerName));
    _ ← or_return "reconcile" a;
    mret no_requeue
  else mret no_requeue.

(** [internal/controller/agentrun_controller.go:118-124] Reconcile: the finalizer is added *)
Definition reconcile_finalizer (r : Run) : H ctrl_result :=
  a ← Update 0 (with_meta r (AddFinalizer (run_Meta r) finalizerName));
  _ ← or_return "reconcile" a;
  mret no_requeue.

(** The name of the run's volume. *)
Definition pvcName (r : Run) : string := "aot-ws-" +:+ run_name r.

(** [internal/controller/agentrun_controller.go:129-168] Reconcile: archival *)
Definition reconcile_archived (r : Run) : H ctrl_result :=
  if String.eqb (entry (m_Annotations (run_Meta r)) annotationArchived) "true" then
    mret no_requeue
  else
    (if String.eqb (st_DeploymentName (run_Status r)) "" then mret tt
     else emit (CDelete "Deployment" (st_DeploymentName (run_Status r))));;
    emit (CDelete "PersistentVolumeClaim" (pvcName r));;
    a ← Update 0 (annotate r annotationArchived "true");
    _ ← or_return "reconcile" a;
    mret no_requeue.

(** [internal/controller/agentrun_controller.go:193-211] startWorkflow: the project's defaults *)
Definition resolve_project (r : Run) : H Run :=
  if String.eqb (rs_ProjectRef (run_Spec r)) "" then mret r
  else
    let '(spec, res) := ResolveProjectDefaults (sv_project sv) (run_Spec r) in
    let r := with_spec r spec in
    match res with
    | Err e =>
        _ ← UpdateStatus 0 (with_status r (set_Message
              ("Waiting for project " +:+ Quote (rs_ProjectRef spec) +:+ " to become ready: " +:+ e)
              (run_Status r)));
        return_ (requeue_after 5)
    | Ok _ => a ← Update 0 r; or_return "start workflow" a
    end.

(** [internal/controller/agentrun_controller.go:216-249] startWorkflow: labels and annotations *)
Definition orchestration_labels (r : Run) : Run :=
  let mode := rs_OrchestrationMode (run_Spec r) in
  let r1 :=
    if String.eqb mode OrchestrationModeAuto || String.eqb mode OrchestrationModeManual then
      label (label r labelSpecRunID (run_name r)) labelRunRole "senior"
    else if negb (String.eqb (rs_ParentRunID (run_Spec r)) "") then
      let specRunID := if String.eqb (rs_SpecRunID (run_Spec r)) ""
                       then rs_ParentRunID (run_Spec r) else rs_SpecRunID (run_Spec r) in
      annotate (label (label r labelSpecRunID specRunID) labelRunRole "junior")
        annotationParent (rs_ParentRunID (run_Spec r))
    else r in
  if String.eqb mode OrchestrationModeSpecDriven &&
     negb (bool_decide (is_Some (m_Labels (run_Meta r1) !! labelFeature)))
  then label r1 labelFeature
         (if String.eqb (rs_DisplayName (run_Spec r)) "" then run_name r
          else rs_DisplayName (run_Spec r))
  else r1.

(** The workflow's identifier, which the run's name determines. *)
Definition workflow_id (r : Run) : string := "agentrun-" +:+ run_name r.

(** [internal/controller/agentrun_controller.go:251-260] startWorkflow: the workflow is started *)
Definition start (r : Run) (input : WorkflowInput) : H start_answer :=
  let queue := if String.eqb (cf_TaskQueue cf) "" then TaskQueue else cf_TaskQueue cf in
  let a := sv_execute sv (workflow_id r) input in
  emit (CStart (workflow_id r) queue input a);; mret a.

(** [internal/controller/agentrun_controller.go:266-281] startWorkflow: the start has failed *)
Definition start_failed (r : Run) (e : string) : H ctrl_result :=
  _ ← UpdateStatus 1 (with_status r
        (condition "WorkflowStarted" false "WorkflowStartFailed" e
           (set_Message ("Retrying workflow start: " +:+ e) (run_Status r))));
  mret (requeue_after 5).

(** [internal/controller/agentrun_controller.go:300-313] startWorkflow: the new status *)
Definition started_status (id : string) (r : Run) : RunStatus :=
  condition "WorkflowStarted" true "WorkflowStarted" ("Temporal workflow " +:+ id +:+ " started")
    (set_Message "Temporal workflow started"
      (set_StartedAt (Some (sv_now sv))
        (set_PodName ("agentrun-" +:+ run_name r)
          (set_Phase AgentRunPhaseRunning (run_Status r))))).

(** [internal/controller/agentrun_controller.go:288-316] startWorkflow: the run is annotated
    and its status set *)
Definition record_start (r : Run) : H ctrl_result :=
  let id := workflow_id r in
  a ← Update 2 (annotate r annotationWorkflowID id);
  _ ← or_return "start workflow" a;
  emit (CRefetch (sv_refetch sv));;
  r ← or_return "start workflow" (sv_refetch sv);
  a ← UpdateStatus 3 (with_status r (started_status id r));
  r ← or_return "start workflow" a;
  emitPhaseEvent r PhaseChanged;;
  mret (requeue_after reconcileInterval).

(** [internal/controller/agentrun_controller.go:187-317] startWorkflow *)
Definition startWorkflow (r : Run) : H ctrl_result :=
  r ← resolve_project r;
  let input := BuildWorkflowInput r (cf_LiteLLMBaseURL cf) (cf_GitHubTokenSecretName cf) in
  let r := orchestration_labels r in
  a ← start r input;
  match a with
  | StartFails e => start_failed r e
  | Started | AlreadyStarted => record_start r
  end.

(** A field of the status that follows the workflow's state unless the state has none. *)
Definition follow (new old : string) (set : string -> RunStatus -> RunStatus) (s : RunStatus)
  : RunStatus * bool :=
  if negb (String.eqb new "") && negb (String.eqb old new) then (set new s, true) else (s, false).

(** A field of the status that always follows it. *)
Definition track {A} `{EqDecision A} (new old : A) (set : A -> RunStatus -> RunStatus)
    (s : RunStatus) : RunStatus * bool :=
  if bool_decide (old = new) then (s, false) else (set new s, true).

(** The assignments of one sync, one after the other, with the [updated] flag. *)
Definition steps (l : list (RunStatus -> RunStatus * bool)) (s : RunStatus) : RunStatus * bool :=
  foldl (fun acc step => let '(s', u) := step acc.1 in (s', acc.2 || u)) (s, false) l.

(** [internal/controller/agentrun_controller.go:393-411] syncWorkflowState: the condition of a
    run that has ended *)
Definition completed_condition (s : RunStatus) : RunStatus :=
  match st_Phase s with
  | AgentRunPhaseFailed => condition "Completed" false "Failed" (st_Message s) s
  | AgentRunPhaseCancelled => condition "Completed" false "Cancelled" (st_Message s) s
  | _ => condition "Completed" true "Succeeded" (st_Message s) s
  end.

(** [internal/controller/agentrun_controller.go:350-411] syncWorkflowState: the status that
    the workflow's state asks for, and whether it differs *)
Definition sync_status (state : WorkflowState) (s : RunStatus) : RunStatus * bool :=
  let newPhase := mapPhase (ws_Phase state) in
  steps
    [ (fun s => track newPhase (st_Phase s) set_Phase s);
      (fun s => track (ws_Message state) (st_Message s) set_Message s);
      (fun s => follow (ws_PodName state) (st_PodName s) set_PodName s);
      (fun s => follow (ws_DeploymentName state) (st_DeploymentName s) set_Deployment s);
      (fun s => follow (ws_PRUrl state) (st_PRUrl s) set_PRUrl s);
      (fun s => follow (ws_VerificationResult state) (st_VerificationResult s) set_Verification s);
      (fun s => if negb (bool_decide (is_Some (st_StartedAt s))) &&
                   (bool_decide (newPhase = AgentRunPhaseRunning) || isTerminal newPhase)
                then (set_StartedAt (Some (sv_now sv)) s, true) else (s, false));
      (fun s => if isTerminal newPhase && negb (bool_decide (is_Some (st_CompletedAt s)))
                then (set_CompletedAt (Some (sv_now sv)) s, true) else (s, false));
      (fun s => if isTerminal newPhase then (completed_condition s, true) else (s, false)) ] s.

(** [internal/controller/agentrun_controller.go:413-429] syncWorkflowState: the update *)
Definition sync_state (r : Run) (state : WorkflowState) : H ctrl_result :=
  let newPhase := mapPhase (ws_Phase state) in
  let '(s, updated) := sync_status state (run_Status r) in
  (if (updated : bool) then
     a ← UpdateStatus 0 (with_status r s);
     r ← or_return "sync workflow state" a;
     emitPhaseEvent r (if isTerminal newPhase then RunCompleted else PhaseChanged)
   else mret tt);;
  mret (if isTerminal newPhase then no_requeue else requeue_after reconcileInterval).

(** [internal/controller/agentrun_controller.go:437-461] syncFromDescription: the phase, the
    message and the counter of an execution that has ended *)
Definition ending (st : execution_status) : option (AgentRunPhase * string * counter) :=
  match st with
  | ExCompleted => Some (AgentRunPhaseSucceeded, "Workflow completed", RunsSucceededTotal)
  | ExFailed => Some (AgentRunPhaseFailed, "Workflow failed", RunsFailedTotal)
  | ExCanceled => Some (AgentRunPhaseCancelled, "Workflow cancelled", RunsCancelledTotal)
  | ExTerminated => Some (AgentRunPhaseFailed, "Workflow terminated", RunsFailedTotal)
  | ExTimedOut => Some (AgentRunPhaseFailed, "Workflow timed out", RunsFailedTotal)
  | ExOther => None
  end.

(** [internal/controller/agentrun_controller.go:434-497] syncFromDescription *)
Definition syncFromDescription (r : Run) (desc : execution_status * option time) : H ctrl_result :=
  match ending desc.1 with
  | None => mret (requeue_after reconcileInterval)
  | Some (phase, message, c) =>
      emit (CCount c);;
      let s := set_Message message (set_Phase phase (run_Status r)) in
      let s := match st_CompletedAt s with
               | None => set_CompletedAt (Some (default (sv_now sv) desc.2)) s
               | Some _ => s
               end in
      a ← UpdateStatus 0 (with_status r (completed_condition s));
      r ← or_return "sync from description" a;
      emitPhaseEvent r RunCompleted;;
      mret no_requeue
  end.

(** [internal/controller/agentrun_controller.go:320-430] syncWorkflowState *)
Definition syncWorkflowState (r : Run) (workflowID : string) : H ctrl_result :=
  match sv_query sv workflowID with
  | QueryFails =>
      match sv_describe sv workflowID with
      | Err e =>
          if isTerminal (st_Phase (run_Status r)) then mret no_requeue
          else
            _ ← UpdateStatus 0 (with_status r
                  (set_Message ("Temporal unreachable: " +:+ e) (run_Status r)));
            mret (requeue_after reconcileInterval)
      | Ok desc => syncFromDescription r desc
      end
  | Undecodable => mret (requeue_after reconcileInterval)
  | Answers state => sync_state r state
  end.

(** [internal/controller/agentrun_controller.go:100-184] Reconcile: the run that was read *)
Definition reconcile_run (r : Run) : H ctrl_result :=
  if m_Deleted (run_Meta r) then reconcile_deletion r
  else if negb (ContainsFinalizer (run_Meta r) finalizerName) then reconcile_finalizer r
  else if st_Archived (run_Status r) then reconcile_archived r
  else
    let workflowID := entry (m_Annotations (run_Meta r)) annotationWorkflowID in
    if String.eqb workflowID "" then startWorkflow r
    else if isTerminal (st_Phase (run_Status r)) then mret no_requeue
    else syncWorkflowState r workflowID.

(** [internal/controller/agentrun_controller.go:87-184] Reconcile *)
Definition Reconcile (got : get_result Run) : H ctrl_result :=
  match got with
  | NotFound => mret no_requeue
  | GetError e => mret (Err ("reconcile: " +:+ e))
  | Found r => reconcile_run r
  end.

(** ** The archive cleanup *)

(** A [time.Duration]: nanoseconds in 64 bits. *)
Definition wrap64 (z : Z) : Z := (z + 2 ^ 63) mod 2 ^ 64 - 2 ^ 63.

Definition nanosecond_of_day : Z := 24 * 3600 * 1000000000.

(** [internal/controller/agentrun_controller.go:557-563] retentionPeriod: nanoseconds *)
Definition retentionPeriod : Z :=
  let days := if cf_RetentionDays cf <=? 0 then DefaultRetentionDays else cf_RetentionDays cf in
  wrap64 (wrap64 (days * 24) * (3600 * 1000000000)).

(** [now.Sub(t)]: nanoseconds, saturated. *)
Definition since (t : time) : Z :=
  Z.max (- 2 ^ 63) (Z.min (2 ^ 63 - 1) ((sv_now sv - t) * 1000000000)).

(** [internal/controller/agentrun_controller.go:583-601] cleanupExpiredRuns: the runs that are
    not skipped *)
Definition expired (r : Run) : bool :=
  isTerminal (st_Phase (run_Status r)) &&
  negb (st_Archived (run_Status r) ||
        String.eqb (entry (m_Annotations (run_Meta r)) annotationArchived) "true") &&
  match st_CompletedAt (run_Status r) with
  | None => false
  | Some t => negb (since t <? retentionPeriod)
  end.

(** A deletion that finds its object gone has succeeded. *)
Definition deleted (kind name : string) : bool :=
  match sv_delete sv kind name with GetError _ => false | _ => true end.

(** [internal/controller/agentrun_controller.go:580-646] cleanupExpiredRuns: one run *)
Definition cleanup_run (i : nat) (r : Run) : list call :=
  if negb (expired r) then []
  else
    let dep := st_DeploymentName (run_Status r) in
    let dep_calls := if String.eqb dep "" then [] else [CDelete "Deployment" dep] in
    if negb (String.eqb dep "") && negb (deleted "Deployment" dep) then dep_calls
    else
      dep_calls ++ [CDelete "PersistentVolumeClaim" (pvcName r)] ++
      if negb (deleted "PersistentVolumeClaim" (pvcName r)) then []
      else let r' := annotate r annotationArchived "true" in [CUpdate r' (sv_update sv i r')].

(** [internal/controller/agentrun_controller.go:568-653] cleanupExpiredRuns *)
Definition cleanupExpiredRuns (listed : result (list Run)) : list call * result unit :=
  match listed with
  | Err e => ([], Err ("list AgentRuns: " +:+ e))
  | Ok items => (concat (imap cleanup_run items), Ok tt)
  end.
End reconcile.
