(* ===== verification/RunCluster.v ===== *)
(** * The AgentRun controller in a cluster.

    The stored run, and the executions of its workflow, change by the controller's calls
    and on their own: users edit, archive and delete the run, the executions end.  The API
    server and Temporal answer as they document: an update replaces what it is meant to
    replace, or fails and changes nothing; one execution at a time is open under one
    identifier; a start that reports an error may have taken effect.  Every call may fail.
    The controller reads a run from a cache, which may be behind: then the API server
    refuses what it writes, since another version is stored. *)

From S2P Require Import Prelude GoStrings ApiTypes Kube TemporalTypes RunController.

(** ** The cluster *)

Record cluster := {
  (** the stored run *)
  c_run : option Run;
  (** an execution is open under the workflow's identifier *)
  c_open : bool;
  (** the executions that Temporal has accepted *)
  c_starts : nat;
  (** the cancellations that were requested *)
  c_cancels : list string;
  (** the versions that were stored before, from the one on that the controller's cache has *)
  c_behind : list Run;
  (** the version that the controller has read is the one that is stored *)
  c_fresh : bool;
}.

(** A write leaves a version behind that the cache has yet to drop. *)
Definition with_run (c : cluster) (r : option Run) : cluster :=
  {| c_run := r; c_open := c_open c; c_starts := c_starts c; c_cancels := c_cancels c;
     c_behind := c_behind c ++ option_list (c_run c); c_fresh := c_fresh c |}.
Definition opened (c : cluster) : cluster :=
  {| c_run := c_run c; c_open := true; c_starts := S (c_starts c); c_cancels := c_cancels c;
     c_behind := c_behind c; c_fresh := c_fresh c |}.
Definition closed (c : cluster) : cluster :=
  {| c_run := c_run c; c_open := false; c_starts := c_starts c; c_cancels := c_cancels c;
     c_behind := c_behind c; c_fresh := c_fresh c |}.
Definition cancelled (c : cluster) (id : string) : cluster :=
  {| c_run := c_run c; c_open := c_open c; c_starts := c_starts c; c_cancels := id :: c_cancels c;
     c_behind := c_behind c; c_fresh := c_fresh c |}.

(** The cache learns of the next version. *)
Definition watched (c : cluster) : cluster :=
  {| c_run := c_run c; c_open := c_open c; c_starts := c_starts c; c_cancels := c_cancels c;
     c_behind := tail (c_behind c); c_fresh := c_fresh c |}.

Definition reading (c : cluster) (fresh : bool) : cluster :=
  {| c_run := c_run c; c_open := c_open c; c_starts := c_starts c; c_cancels := c_cancels c;
     c_behind := c_behind c; c_fresh := fresh |}.

(** What the cache has, and whether that is what is stored. *)
Definition cached (c : cluster) : option Run := match c_behind c with [] => c_run c | r :: _ => Some r end.
Definition current (c : cluster) : bool := bool_decide (c_behind c = []).

(** An object marked for deletion is gone once it has no finalizer left. *)
Definition stored (r : Run) : option Run :=
  if m_Deleted (run_Meta r) && bool_decide (m_Finalizers (run_Meta r) = []) then None else Some r.

(** The cluster's part of a call.  What is written goes by the version that was read. *)
Inductive serve : cluster -> call -> cluster -> Prop :=
| serve_update c cur r :
    c_fresh c = true -> c_run c = Some cur ->
    serve c (CUpdate r (Ok (with_status r (run_Status cur))))
      (with_run c (stored (with_status r (run_Status cur))))
| serve_update_fails c r e : serve c (CUpdate r (Err e)) c
| serve_status c cur r :
    c_fresh c = true -> c_run c = Some cur ->
    serve c (CStatus r (Ok (with_status cur (run_Status r))))
      (with_run c (Some (with_status cur (run_Status r))))
| serve_status_fails c r e : serve c (CStatus r (Err e)) c
| serve_refetch c r : c_fresh c = true -> c_run c = Some r -> serve c (CRefetch (Ok r)) c
| serve_refetch_stale c r : r ∈ c_behind c -> serve c (CRefetch (Ok r)) (reading c false)
| serve_refetch_fails c e : serve c (CRefetch (Err e)) c
| serve_start c id q i : c_open c = false -> serve c (CStart id q i Started) (opened c)
| serve_started c id q i : c_open c = true -> serve c (CStart id q i AlreadyStarted) c
| serve_start_fails c id q i e : serve c (CStart id q i (StartFails e)) c
| serve_start_lost c id q i e :
    c_open c = false -> serve c (CStart id q i (StartFails e)) (opened c)
| serve_cancel c id : serve c (CCancel id) (cancelled c id)
| serve_delete c k n : serve c (CDelete k n) c
| serve_publish c n ty p : serve c (CPublish n ty p) c
| serve_count c x : serve c (CCount x) c.

Inductive serves : cluster -> list call -> cluster -> Prop :=
| serves_nil c : serves c [] c
| serves_cons c1 e c2 es c3 : serve c1 e c2 -> serves c2 es c3 -> serves c1 (e :: es) c3.

Section cluster.
Context {U : ControllerUtil}.
Variable cf : config.

(** Users and the run's own activities write the rest of the status. *)
Definition same_course (s s' : RunStatus) : Prop :=
  st_Phase s' = st_Phase s /\ st_StartedAt s' = st_StartedAt s /\
  st_CompletedAt s' = st_CompletedAt s /\ st_Message s' = st_Message s.

Definition marked_deleted (m : ObjectMeta) : ObjectMeta :=
  {| m_Name := m_Name m; m_Namespace := m_Namespace m; m_Labels := m_Labels m;
     m_Annotations := m_Annotations m; m_Finalizers := m_Finalizers m; m_Deleted := true;
     m_Created := m_Created m |}.

(** The workflow's identifier is recorded in the annotations. *)
Definition workflow_of (r : Run) : string := entry (m_Annotations (run_Meta r)) annotationWorkflowID.
Definition recorded (r : Run) : Prop := workflow_of r <> "".

Definition held (r : Run) : Prop := finalizerName ∈ m_Finalizers (run_Meta r).

(** What users may edit: the specification, the labels, the annotations but for the workflow's identifier, the finalizers but for the
    controller's. *)
Definition edited (r r' : Run) : Prop :=
  run_name r' = run_name r /\ m_Namespace (run_Meta r') = m_Namespace (run_Meta r) /\
  m_Deleted (run_Meta r') = m_Deleted (run_Meta r) /\ m_Created (run_Meta r') = m_Created (run_Meta r) /\
  workflow_of r' = workflow_of r /\ (held r' <-> held r) /\ run_Status r' = run_Status r.

(** One step of the cluster. *)
Inductive step : cluster -> cluster -> Prop :=
| step_reconcile c c' r sv :
    cached c = Some r -> serves (reading c (current c)) (Reconcile cf sv (Found r)).1 c' -> step c c'
| step_watch c : step c (watched c)
| step_edit c r r' :
    c_run c = Some r -> edited r r' -> step c (with_run c (stored r'))
| step_report c r s :
    c_run c = Some r -> same_course (run_Status r) s ->
    step c (with_run c (Some (with_status r s)))
| step_delete c r :
    c_run c = Some r ->
    step c (with_run c (stored (with_meta r (marked_deleted (run_Meta r)))))
| step_close c : step c (closed c).

(** ** The cluster after a handler's calls *)

Definition wp {A} (m : handler call ctrl_result A) (QR : ctrl_result -> cluster -> Prop)
    (Q : A -> cluster -> Prop) (c : cluster) : Prop :=
  forall c', serves c m.1 c' -> match m.2 with inl a => Q a c' | inr r => QR r c' end.

Implicit Types (c : cluster) (QR : ctrl_result -> cluster -> Prop).

Lemma serves_app c es1 es2 c' :
  serves c (es1 ++ es2) c' -> exists c1, serves c es1 c1 /\ serves c1 es2 c'.
Proof.
  revert c. induction es1 as [|e es1 IH]; intros c H; simpl in *.
  - exists c. split; [constructor|done].
  - inversion H; subst. destruct (IH _ H5) as (c1 & ? & ?). exists c1. split; [|done].
    by econstructor.
Qed.

Lemma wp_ret {A} (a : A) QR (Q : A -> cluster -> Prop) c : Q a c -> wp (mret a) QR Q c.
Proof. intros HQ c' H. by inversion H; subst. Qed.

Lemma wp_return {A} r QR (Q : A -> cluster -> Prop) c :
  QR r c -> wp (return_ r) QR Q c.
Proof. intros HQ c' H. by inversion H; subst. Qed.

Lemma wp_bind {A B} (m : handler call ctrl_result A) (k : A -> handler call ctrl_result B) QR
    (Q : B -> cluster -> Prop) c :
  wp m QR (fun a => wp (k a) QR Q) c -> wp (m ≫= k) QR Q c.
Proof.
  unfold wp, mbind, handler_bind. intros H c' Hs. destruct m as [es [a|r]]; simpl in *.
  - apply serves_app in Hs as (c1 & Hs1 & Hs2). by apply (H c1 Hs1).
  - by apply H.
Qed.

Lemma wp_emit e QR (Q : unit -> cluster -> Prop) c :
  (forall c', serve c e c' -> Q tt c') -> wp (emit e) QR Q c.
Proof.
  intros HQ c' H. inversion H as [|? ? ? ? ? Hs Hn]; subst. inversion Hn; subst. by apply HQ.
Qed.

(** An update of the run. *)
Lemma wp_Update sv i r QR (Q : result Run -> cluster -> Prop) c :
  (forall e, Q (Err e) c) ->
  (forall cur, c_fresh c = true -> c_run c = Some cur ->
     Q (Ok (with_status r (run_Status cur))) (with_run c (stored (with_status r (run_Status cur))))) ->
  wp (Update sv i r) QR Q c.
Proof.
  intros He Hok. unfold Update. apply wp_bind, wp_emit. intros c' Hs. apply wp_ret.
  inversion Hs as [? cur ? Hf Hc Hr|? ? e Hr| | | | | | | | | | | | |]; subst; [by apply Hok|by apply He].
Qed.

Lemma wp_UpdateStatus sv i r QR (Q : result Run -> cluster -> Prop) c :
  (forall e, Q (Err e) c) ->
  (forall cur, c_fresh c = true -> c_run c = Some cur ->
     Q (Ok (with_status cur (run_Status r))) (with_run c (Some (with_status cur (run_Status r))))) ->
  wp (UpdateStatus sv i r) QR Q c.
Proof.
  intros He Hok. unfold UpdateStatus. apply wp_bind, wp_emit. intros c' Hs. apply wp_ret.
  inversion Hs as [| |? cur ? Hf Hc Hr|? ? e Hr| | | | | | | | | | |]; subst; [by apply Hok|by apply He].
Qed.

Lemma wp_or_return prefix a QR (Q : Run -> cluster -> Prop) c :
  (forall e, QR (Err e) c) -> (forall r, a = Ok r -> Q r c) -> wp (or_return prefix a) QR Q c.
Proof.
  intros He Hok. destruct a as [r|e]; simpl; [by apply wp_ret, Hok|by apply wp_return, He].
Qed.

Lemma wp_refetch a QR (Q : unit -> cluster -> Prop) c :
  (forall r, a = Ok r -> c_run c = Some r -> Q tt c) -> (forall r, a = Ok r -> Q tt (reading c false)) ->
  (forall e, a = Err e -> Q tt c) ->
  wp (emit (CRefetch a)) QR Q c.
Proof.
  intros Hok Hst He. apply wp_emit. intros c' Hs. inversion Hs; subst; [by eapply Hok|by eapply Hst|by eapply He].
Qed.

Lemma wp_mono {A} (m : handler call ctrl_result A) QR QR' (Q Q' : A -> cluster -> Prop) c :
  wp m QR Q c -> (forall r c', QR r c' -> QR' r c') -> (forall a c', Q a c' -> Q' a c') ->
  wp m QR' Q' c.
Proof. intros H H1 H2 c' Hs. specialize (H c' Hs). destruct (m.2); auto. Qed.

Lemma wp_emitPhaseEvent r ty QR (Q : unit -> cluster -> Prop) c :
  Q tt c -> wp (emitPhaseEvent cf r ty) QR Q c.
Proof.
  intros H. unfold emitPhaseEvent. destruct (cf_EventBus cf); [|by apply wp_ret].
  apply wp_emit. intros c' Hs. by inversion Hs; subst.
Qed.

Lemma wp_unseen e QR (Q : unit -> cluster -> Prop) c :
  (match e with CDelete _ _ | CPublish _ _ _ | CCount _ => True | _ => False end) ->
  Q tt c -> wp (emit e) QR Q c.
Proof. intros He H. apply wp_emit. intros c' Hs. by inversion Hs; subst. Qed.

(** ** What one reconcile may do to the cluster *)

(** A run may be started: its finalizer is stored, and it is neither being deleted nor
    archived nor started already. *)
Definition startable (r : Run) : Prop :=
  held r /\ m_Deleted (run_Meta r) = false /\ st_Archived (run_Status r) = false /\ ~ recorded r.

Definition terminal (r : Run) : Prop := isTerminal (st_Phase (run_Status r)) = true.

(** A run has a completion time exactly when it has ended, and only a started run ends. *)
Definition settled (r : Run) : Prop :=
  (terminal r -> recorded r /\ is_Some (st_CompletedAt (run_Status r))) /\
  (is_Some (st_CompletedAt (run_Status r)) -> terminal r).

(** A cancellation that was requested on the way. *)
Definition asked_since (c c' : cluster) (id : string) : Prop :=
  exists l, c_cancels c' = l ++ c_cancels c /\ id ∈ l.

(** What becomes of the stored run [r]. *)
Record follows (c : cluster) (r : Run) (c' : cluster) (r' : Run) : Prop := {
  fo_name : run_name r' = run_name r;
  fo_deleted : m_Deleted (run_Meta r') = m_Deleted (run_Meta r);
  fo_recorded : recorded r -> workflow_of r' = workflow_of r;
  fo_started : recorded r' -> recorded r \/ c_open c = true \/ c_starts c' = S (c_starts c);
  fo_held : held r -> held r' \/ (recorded r -> asked_since c c' (workflow_of r));
  fo_course : recorded r -> terminal r -> same_course (run_Status r) (run_Status r');
  fo_settled : settled r -> settled r';
}.

Record advances (c : cluster) (r : Run) (c' : cluster) : Prop := {
  ad_starts : c_starts c' = c_starts c \/ (c_starts c' = S (c_starts c) /\ startable r /\ c_open c = false);
  ad_open : c_open c' = true -> c_open c = true \/ c_starts c' = S (c_starts c);
  ad_cancels : c_cancels c `suffix_of` c_cancels c';
  ad_run : forall r', c_run c' = Some r' -> follows c r c' r';
  ad_gone : c_run c' = None -> held r -> recorded r -> asked_since c c' (workflow_of r);
  ad_behind : recorded r -> forall r0, r0 ∈ c_behind c' -> r0 ∈ c_behind c \/ r0 = r;
}.

Lemma follows_refl c r c' : follows c r c' r.
Proof. split; try done; [by left|by left]. Qed.

Lemma advances_refl c r : c_run c = Some r -> advances c r c.
Proof.
  intros Hc. split; [by left|by left|done| | |by left].
  - intros r' H. replace r' with r by congruence. apply follows_refl.
  - congruence.
Qed.

(** Which version was read does not matter. *)
Lemma advances_then_reading c r c' b : advances c r c' -> advances c r (reading c' b).
Proof.
  intros [H1 H2 H3 H4 H5 H6]. split; [exact H1|exact H2|exact H3| |exact H5|exact H6].
  intros r' Hr'. destruct (H4 r' Hr'). by split.
Qed.

Lemma reading_then_advances c r c' b : advances (reading c b) r c' -> advances c r c'.
Proof.
  intros [H1 H2 H3 H4 H5 H6]. split; [exact H1|exact H2|exact H3| |exact H5|exact H6].
  intros r' Hr'. destruct (H4 r' Hr'). by split.
Qed.

(** A write that leaves the executions and the cancellations alone. *)
Lemma advances_write c r r' :
  c_run c = Some r -> follows c r c r' -> advances c r (with_run c (Some r')).
Proof.
  intros Hc Hf. split; simpl; [by left|by left|done| |done|].
  - intros r'' [= <-]. destruct Hf. by split.
  - rewrite Hc. intros _ r0 [?| ->%list_elem_of_singleton]%elem_of_app; [by left|by right].
Qed.

Lemma entry_insert_ne (m : gmap string string) k k' v :
  k <> k' -> entry (<[k := v]> m) k' = entry m k'.
Proof. intros Hk. unfold entry. by rewrite lookup_insert_ne. Qed.

Lemma entry_insert (m : gmap string string) k v : entry (<[k := v]> m) k = v.
Proof. unfold entry. by rewrite lookup_insert_eq. Qed.

Lemma live_stored r : m_Deleted (run_Meta r) = false -> stored r = Some r.
Proof. intros H. unfold stored. by rewrite H. Qed.

Lemma follows_same c r c' r' :
  run_name r' = run_name r -> m_Deleted (run_Meta r') = m_Deleted (run_Meta r) ->
  workflow_of r' = workflow_of r -> run_Status r' = run_Status r ->
  (held r -> held r' \/ (recorded r -> asked_since c c' (workflow_of r))) ->
  follows c r c' r'.
Proof.
  intros Hn Hd He Hs Hh. split; try done.
  - unfold recorded. rewrite He. by left.
  - unfold terminal. by rewrite Hs.
  - unfold settled, terminal, recorded. by rewrite Hs, He.
Qed.

(** A write of a status that keeps the course of the run. *)
Lemma follows_status c r c' r' :
  run_Meta r' = run_Meta r -> (recorded r -> terminal r -> same_course (run_Status r) (run_Status r')) ->
  (settled r -> settled r') -> follows c r c' r'.
Proof.
  intros Hm Hc Hs. split; try done; unfold run_name, recorded, workflow_of, held; rewrite Hm; try done; by left.
Qed.

(** The status is written with another message, for a run that has not been started. *)
Lemma follows_message c r c' s :
  ~ recorded r \/ ~ terminal r ->
  st_Phase s = st_Phase (run_Status r) -> st_CompletedAt s = st_CompletedAt (run_Status r) ->
  follows c r c' (with_status r s).
Proof.
  intros Hr Hp Hc. apply follows_status; [done|by destruct Hr|].
  unfold settled, terminal. simpl. by rewrite Hp, Hc.
Qed.

Context {L : ControllerUtilLaws U}.

Lemma contains_held r : ContainsFinalizer (run_Meta r) finalizerName = true <-> held r.
Proof. apply contains_spec. Qed.

(** *** Deletion, finalizer, archival *)

Notation advancing c r := (fun _ c' => advances c r c').

(** An update whose only trace is what is stored. *)
Lemma wp_store_update sv i prefix r0 c c1 r :
  c_run c1 = Some r0 -> m_Deleted (run_Meta r) = m_Deleted (run_Meta r0) ->
  advances c r0 c1 -> advances c r0 (with_run c1 (stored (with_status r (run_Status r0)))) ->
  wp (a ← Update sv i r; _ ← or_return prefix a; mret no_requeue)
    (advancing c r0) (advancing c r0) c1.
Proof.
  intros Hc Hd Ha Hst. apply wp_bind, wp_Update.
  - intros e. by apply wp_bind, wp_return.
  - intros cur _ Hcur. replace cur with r0 by congruence. apply wp_bind, wp_ret. by apply wp_ret.
Qed.

Lemma with_run_advances c c1 r r' :
  advances c r c1 -> c_run c1 = Some r -> stored r' = Some r' -> follows c r c1 r' ->
  advances c r (with_run c1 (stored r')).
Proof.
  intros [Hs Ho Hcc _ _ Hb] Hc Hst Hf. rewrite Hst. split; simpl; try done.
  - intros r'' [= <-]. destruct Hf. by split.
  - rewrite Hc. intros Hr r0 [?| ->%list_elem_of_singleton]%elem_of_app; [by apply Hb|by right].
Qed.

Lemma deletion_advances sv c r :
  c_run c = Some r -> m_Deleted (run_Meta r) = true ->
  wp (reconcile_deletion sv r) (advancing c r) (advancing c r) c.
Proof.
  intros Hc Hdel. unfold reconcile_deletion.
  case_match; [|apply wp_ret; by apply advances_refl]. apply wp_bind.
  assert (forall c1, c_run c1 = Some r -> advances c r c1 -> (recorded r -> asked_since c c1 (workflow_of r)) ->
    wp (a ← Update sv 0 (with_meta r (RemoveFinalizer (run_Meta r) finalizerName));
        _ ← or_return "reconcile" a; mret no_requeue) (advancing c r) (advancing c r) c1) as Hgo.
  { intros c1 Hc1 Had Hcan. apply wp_store_update; [done| |done|].
    - simpl. by rewrite remove_only.
    - unfold stored. simpl. destruct Had as [H1 H2 H3 _ _ H6]. split; simpl; try done.
      + intros r' Hr'. case_match; [done|]. injection Hr' as <-.
        apply follows_same; unfold run_name, workflow_of; simpl; try (by rewrite remove_only); [done|by right].
      + rewrite Hc1. intros Hr r0 [?| ->%list_elem_of_singleton]%elem_of_app; [by apply H6|by right]. }
  unfold cancelWorkflow. case_match.
  - apply wp_ret, Hgo; [done|by apply advances_refl|]. unfold recorded, workflow_of. breflect. done.
  - apply wp_emit. intros c' Hs. inversion Hs; subst.
    apply Hgo; [done| |intros _; eexists [_]; by split; [|left]].
    split; simpl; [by left|by left|by eexists [_]| |congruence|by left].
    intros r' Hr'. replace r' with r by congruence. apply follows_refl.
Qed.

Lemma finalizer_advances sv c r :
  c_run c = Some r -> m_Deleted (run_Meta r) = false -> ~ held r ->
  wp (reconcile_finalizer sv r) (advancing c r) (advancing c r) c.
Proof.
  intros Hc Hd Hn. unfold reconcile_finalizer. apply wp_store_update; [done| |by apply advances_refl|].
  - simpl. by rewrite add_only.
  - apply with_run_advances; [by apply advances_refl|done| |].
    + apply live_stored. simpl. by rewrite add_only.
    + apply follows_same; unfold run_name, workflow_of; simpl; try (by rewrite add_only); done.
Qed.

Lemma archived_advances sv c r :
  c_run c = Some r -> m_Deleted (run_Meta r) = false ->
  wp (reconcile_archived sv r) (advancing c r) (advancing c r) c.
Proof.
  intros Hc Hd. unfold reconcile_archived.
  case_match; [apply wp_ret; by apply advances_refl|]. apply wp_bind.
  assert (wp (emit (CDelete "PersistentVolumeClaim" (pvcName r));;
    a ← Update sv 0 (annotate r annotationArchived "true"); _ ← or_return "reconcile" a;
    mret no_requeue) (advancing c r) (advancing c r) c) as Hgo.
  { apply wp_bind, wp_unseen; [done|]. apply wp_store_update; [done|done|by apply advances_refl|].
    apply with_run_advances; [by apply advances_refl|done|by apply live_stored|].
    apply follows_same; unfold workflow_of; simpl; try done; [by apply entry_insert_ne|by left]. }
  case_match; [by apply wp_ret|by apply wp_unseen].
Qed.

(** *** The start of the workflow *)

(** The stored run [r1], after the project's defaults were written. *)
Definition prepared (c : cluster) (r : Run) (c1 : cluster) (r1 : Run) : Prop :=
  c_run c1 = Some r1 /\ run_Meta r1 = run_Meta r /\ run_Status r1 = run_Status r /\
  c_open c1 = c_open c /\ c_starts c1 = c_starts c /\ c_cancels c1 = c_cancels c.

(** The cluster once Temporal was asked to start the workflow. *)
Definition begun (c : cluster) (c2 : cluster) : Prop :=
  c_cancels c2 = c_cancels c /\
  (c_starts c2 = c_starts c /\ c_open c2 = c_open c \/
   c_starts c2 = S (c_starts c) /\ c_open c = false).

Lemma begun_advances c r c2 r2 :
  startable r -> begun c c2 -> c_run c2 = Some r2 -> follows c r c2 r2 -> advances c r c2.
Proof.
  intros Hst (Hcan & Hs) Hc Hf. split.
  - destruct Hs as [[-> _]|[-> ?]]; [by left|by right].
  - destruct Hs as [[_ ->]|[-> ?]]; [by left|by right].
  - by rewrite Hcan.
  - intros r' Hr'. by replace r' with r2 by congruence.
  - congruence.
  - by destruct Hst as (_ & _ & _ & ?).
Qed.

Lemma resolve_project_prepares sv c r :
  c_run c = Some r -> startable r ->
  wp (resolve_project sv r) (advancing c r) (fun r1 c1 => prepared c r c1 r1) c.
Proof.
  intros Hc (_ & Hd & _ & Hn). unfold resolve_project.
  case_match; [apply wp_ret; by split_and!|].
  destruct (ResolveProjectDefaults _ _) as [spec res]. destruct res as [u|e].
  - apply wp_bind, wp_Update.
    + intros e. apply wp_return. by apply advances_refl.
    + intros cur _ Hcur. replace cur with r by congruence. apply wp_ret.
      rewrite live_stored by done. by split_and!.
  - apply wp_bind, wp_UpdateStatus.
    + intros e'. apply wp_return. by apply advances_refl.
    + intros cur _ Hcur. replace cur with r by congruence. apply wp_return, advances_write; [done|].
      apply follows_message; simpl; [by left|done|done].
Qed.

Lemma labels_keep r :
  run_name (orchestration_labels r) = run_name r /\
  m_Deleted (run_Meta (orchestration_labels r)) = m_Deleted (run_Meta r) /\
  m_Finalizers (run_Meta (orchestration_labels r)) = m_Finalizers (run_Meta r) /\
  run_Status (orchestration_labels r) = run_Status r /\
  workflow_of (orchestration_labels r) = workflow_of r.
Proof.
  unfold orchestration_labels, workflow_of.
  repeat case_match; simpl; split_and!; try done; by apply entry_insert_ne.
Qed.

Lemma start_begins sv c r c1 r1 r2 input :
  prepared c r c1 r1 ->
  wp (start cf sv r2 input) (advancing c r)
    (fun a c2 => c_run c2 = Some r1 /\ begun c c2 /\
       match a with StartFails _ => True | _ => c_open c = true \/ c_starts c2 = S (c_starts c) end) c1.
Proof.
  intros (Hc & _ & _ & Ho & Hs & Hcan). unfold start. apply wp_bind, wp_emit. intros c2 Hsv.
  apply wp_ret. unfold begun.
  remember (sv_execute sv (workflow_id r2) input) as a eqn:Ha. clear Ha.
  inversion Hsv; subst; simpl; rewrite ?Ho, ?Hs, ?Hcan, ?Hc; split_and!;
    try done; try (right; congruence); try (left; congruence);
    try (by left); try (by right; split; congruence).
Qed.

Lemma record_start_advances sv c r c2 r1 r2 :
  startable r -> c_run c2 = Some r1 -> begun c c2 ->
  run_Meta r1 = run_Meta r -> run_Status r1 = run_Status r ->
  (c_open c = true \/ c_starts c2 = S (c_starts c)) ->
  run_name r2 = run_name r -> m_Deleted (run_Meta r2) = m_Deleted (run_Meta r) ->
  m_Finalizers (run_Meta r2) = m_Finalizers (run_Meta r) ->
  wp (record_start cf sv r2) (advancing c r) (advancing c r) c2.
Proof.
  intros Hst Hc Hb Hm1 Hs1 Ho Hn Hd Hf. pose proof Hst as (Hh & Hdel & _ & Hnr).
  unfold record_start.
  set (r3 := with_status (annotate r2 annotationWorkflowID (workflow_id r2)) (run_Status r1)).
  assert (forall s, (settled r -> isTerminal (st_Phase s) = false /\ st_CompletedAt s = None) ->
    forall c', c_starts c' = c_starts c2 -> follows c r c' (with_status r3 s)) as Hfo.
  { intros s Hs c' Hc'. split; simpl; try done.
    - intros _. right. by rewrite Hc'.
    - left. unfold held. simpl. by rewrite Hf.
    - intros Hset. unfold settled, terminal. simpl.
      destruct (Hs Hset) as [-> ->]. split; [done|]. intros [? [=]]. }
  assert (settled r -> isTerminal (st_Phase (run_Status r1)) = false /\
                       st_CompletedAt (run_Status r1) = None) as Hfresh.
  { intros [Ht Hcm]. rewrite Hs1. destruct (isTerminal _) eqn:E; [by destruct (Ht E)|].
    split; [done|]. destruct (st_CompletedAt _) eqn:E'; [|done].
    unfold terminal in Hcm. rewrite E in Hcm. by discriminate Hcm. }
  apply wp_bind, wp_Update.
  { intros e. apply wp_bind, wp_return. apply (begun_advances _ _ _ r1); try done.
    apply follows_same; unfold run_name, workflow_of; rewrite ?Hm1; try done. left. unfold held. by rewrite Hm1. }
  intros cur _ Hcur. replace cur with r1 by congruence. fold r3.
  rewrite live_stored by (simpl; congruence). apply wp_bind, wp_ret.
  assert (forall s, (settled r -> isTerminal (st_Phase s) = false /\ st_CompletedAt s = None) ->
    forall c', begun c c' -> c_starts c' = c_starts c2 ->
    advances c r (with_run c' (Some (with_status r3 s)))) as Had.
  { intros s Hs c' Hb' Hc'. apply (begun_advances _ _ _ (with_status r3 s)); try done.
    by apply Hfo. }
  apply wp_bind, wp_refetch.
  - intros r4 -> Hr4. simpl in Hr4. injection Hr4 as <-. apply wp_bind, wp_ret.
    apply wp_bind, wp_UpdateStatus; simpl.
    + intros e. apply wp_bind, wp_return. by apply (Had (run_Status r1)).
    + intros ? _ [= <-]. apply wp_bind, wp_ret. apply wp_bind, wp_emitPhaseEvent, wp_ret.
      apply (Had (started_status sv (workflow_id r2) r3)); [|exact Hb|done]. intros Hset. simpl. split; [done|].
      by destruct (Hfresh Hset).
  - intros r4 ->. apply wp_bind, wp_ret. apply wp_bind, wp_UpdateStatus; [|done].
    intros e. apply wp_bind, wp_return. apply (advances_then_reading _ _ (with_run c2 (Some r3))).
    by apply (Had (run_Status r1)).
  - intros e ->. apply wp_bind, wp_return. by apply (Had (run_Status r1)).
Qed.

Lemma start_advances sv c r :
  c_run c = Some r -> startable r ->
  wp (startWorkflow cf sv r) (advancing c r) (advancing c r) c.
Proof.
  intros Hc Hst. unfold startWorkflow. apply wp_bind.
  eapply wp_mono; [by apply resolve_project_prepares|intros ? ? H; exact H|]. intros r1 c1 Hp.
  pose proof Hp as (Hc1 & Hm & Hs & _). apply wp_bind.
  eapply wp_mono; [by apply (start_begins sv c r c1 r1)|intros ? ? H; exact H|]. intros a c2 (Hc2 & Hb & Ha).
  destruct (labels_keep r1) as (Hln & Hld & Hlf & Hls & _).
  assert (forall c', c_run c' = Some r1 -> begun c c' -> advances c r c') as Hplain.
  { intros c' Hc' Hb'. apply (begun_advances _ _ _ r1); try done.
    apply follows_same; unfold run_name, workflow_of; rewrite ?Hm; try done. left. unfold held. by rewrite Hm. }
  destruct a as [| |e].
  1,2: apply (record_start_advances _ _ _ _ r1); try done;
       rewrite ?Hln, ?Hld, ?Hlf; unfold run_name; by rewrite Hm.
  unfold start_failed. apply wp_bind, wp_UpdateStatus.
  - intros e'. apply wp_ret. by apply Hplain.
  - intros cur _ Hcur. replace cur with r1 by congruence. apply wp_ret.
    pose proof Hst as (Hh & Hd & Har & Hnr).
    eapply begun_advances; [done|exact Hb|reflexivity|].
    apply follows_status; simpl; [done|by intros|].
    unfold settled, terminal, recorded, workflow_of. simpl. by rewrite Hls, Hs, Hm.
Qed.

(** *** The sync with the workflow *)

Lemma steps_from l s u :
  foldl (fun acc step => let '(s', u) := step acc.1 in (s', acc.2 || u)) (s, u) l =
  ((steps l s).1, u || (steps l s).2).
Proof.
  unfold steps. revert s u. induction l as [|g l IH]; intros s u; simpl; [by rewrite orb_false_r|].
  destruct (g s) as [s2 u2]. rewrite (IH s2 (u || u2)), (IH s2 u2). simpl. by rewrite <- orb_assoc.
Qed.

Lemma steps_cons f l s :
  steps (f :: l) s = ((steps l (f s).1).1, (f s).2 || (steps l (f s).1).2).
Proof.
  unfold steps at 1. simpl. destruct (f s) as [s' u]. apply steps_from.
Qed.

Lemma follow_keeps {A} (f : RunStatus -> A) new old set s :
  (forall x s, f (set x s) = f s) -> f (follow new old set s).1 = f s.
Proof. intros H. unfold follow. case_match; [apply H|done]. Qed.

Lemma track_keeps {A B} `{EqDecision B} (f : RunStatus -> A) (new old : B) set s :
  (forall x s, f (set x s) = f s) -> f (track new old set s).1 = f s.
Proof. intros H. unfold track. case_match; [done|apply H]. Qed.

Lemma completed_keeps sv s :
  st_Phase (completed_condition sv s) = st_Phase s /\
  st_CompletedAt (completed_condition sv s) = st_CompletedAt s.
Proof. unfold completed_condition. case_match; simpl; split; congruence. Qed.

(** The phase and the completion time after a sync. *)
Lemma sync_status_course sv state s :
  st_Phase (sync_status sv state s).1 = mapPhase (ws_Phase state) /\
  st_CompletedAt (sync_status sv state s).1 =
    (if isTerminal (mapPhase (ws_Phase state))
     then Some (default (sv_now sv) (st_CompletedAt s)) else st_CompletedAt s).
Proof.
  unfold sync_status. rewrite steps_cons. simpl. set (p := mapPhase (ws_Phase state)).
  assert (st_Phase (track p (st_Phase s) set_Phase s).1 = p /\
          st_CompletedAt (track p (st_Phase s) set_Phase s).1 = st_CompletedAt s) as [Hp Hc].
  { unfold track. case_bool_decide; by split. }
  generalize dependent (track p (st_Phase s) set_Phase s).1. intros s1 Hp <-.
  do 6 (rewrite steps_cons; simpl;
    match goal with |- context [steps _ ?s2.1] =>
      assert (st_Phase s2.1 = p /\ st_CompletedAt s2.1 = st_CompletedAt s1) as [Hp' Hc'];
      [first [ by split; [rewrite follow_keeps|rewrite follow_keeps]
             | by split; [rewrite track_keeps|rewrite track_keeps]
             | by case_match ]|];
      rewrite <- Hc'; clear Hp Hc'; revert Hp'; generalize s2.1; clear s1; intros s1 Hp
    end).
  rewrite steps_cons. simpl. destruct (isTerminal p) eqn:Ht; simpl; [|done].
  destruct (st_CompletedAt s1) eqn:E; simpl;
    match goal with |- context [completed_condition sv ?s2] =>
      destruct (completed_keeps sv s2) as [-> ->] end; by rewrite ?Hp, ?E.
Qed.

Lemma sync_settled sv state r :
  settled r -> recorded r -> isTerminal (st_Phase (run_Status r)) = false ->
  settled (with_status r (sync_status sv state (run_Status r)).1).
Proof.
  intros [_ Hc] Hr Ht. destruct (sync_status_course sv state (run_Status r)) as [Hp Hd].
  unfold settled, terminal. simpl. rewrite Hp, Hd. destruct (isTerminal (mapPhase _)).
  - split; [by split; [|eexists]|done].
  - split; [done|]. intros Hs. apply Hc in Hs. unfold terminal in Hs. congruence.
Qed.

Lemma sync_advances sv c r id :
  c_run c = Some r -> recorded r -> isTerminal (st_Phase (run_Status r)) = false ->
  wp (syncWorkflowState cf sv r id) (advancing c r) (advancing c r) c.
Proof.
  intros Hc Hr Ht. unfold syncWorkflowState.
  assert (forall s, (settled r -> settled (with_status r s)) ->
    advances c r (with_run c (Some (with_status r s)))) as Hw.
  { intros s Hs. apply advances_write, follows_status; [done..| |done].
    unfold terminal. by rewrite Ht. }
  destruct (sv_query sv id) as [| |state]; [|apply wp_ret; by apply advances_refl|].
  - destruct (sv_describe sv id) as [desc|e].
    + unfold syncFromDescription.
      destruct (ending desc.1) as [[[phase message] k]|] eqn:He; [|apply wp_ret; by apply advances_refl].
      apply wp_bind, wp_unseen; [done|]. apply wp_bind, wp_UpdateStatus.
      * intros e. apply wp_bind, wp_return. by apply advances_refl.
      * intros cur _ Hcur. replace cur with r by congruence. apply wp_bind, wp_ret, wp_bind.
        apply wp_emitPhaseEvent, wp_ret, Hw. intros [_ Hset].
        assert (isTerminal phase = true) as Hph.
        { unfold ending in He. destruct desc.1; by simplify_eq/=. }
        assert (forall s, st_Phase s = phase -> is_Some (st_CompletedAt s) ->
          settled (with_status r (completed_condition sv s))) as Hfin.
        { intros s Hs Hd. unfold settled, terminal. simpl.
          destruct (completed_keeps sv s) as [-> ->]. rewrite Hs, Hph. by split. }
        simpl. case_match; apply Hfin; simpl; try done; by eexists.
    + rewrite Ht. apply wp_bind, wp_UpdateStatus.
      * intros e'. apply wp_ret. by apply advances_refl.
      * intros cur _ Hcur. replace cur with r by congruence. apply wp_ret, Hw.
        unfold settled, terminal, recorded. simpl. done.
  - unfold sync_state. destruct (sync_status sv state (run_Status r)) as [s updated] eqn:Es.
    apply wp_bind. destruct updated.
    + apply wp_bind, wp_UpdateStatus.
      * intros e. apply wp_bind, wp_return. by apply advances_refl.
      * intros cur _ Hcur. replace cur with r by congruence. apply wp_bind, wp_ret.
        apply wp_emitPhaseEvent, wp_ret, Hw. intros Hset. simpl.
        replace s with (sync_status sv state (run_Status r)).1 by by rewrite Es.
        by apply sync_settled.
    + apply wp_ret, wp_ret. by apply advances_refl.
Qed.

(** One reconcile of the stored run. *)
Lemma run_reconcile_advances sv c r c' :
  c_run c = Some r -> serves c (Reconcile cf sv (Found r)).1 c' -> advances c r c'.
Proof.
  intros Hc Hs. cut (wp (reconcile_run cf sv r) (advancing c r) (advancing c r) c).
  { intros Hw. specialize (Hw c' Hs). by destruct (_.2). }
  unfold reconcile_run.
  destruct (m_Deleted (run_Meta r)) eqn:Hd; [by apply deletion_advances|].
  destruct (ContainsFinalizer (run_Meta r) finalizerName) eqn:Hf; simpl.
  2: { apply finalizer_advances; try done. intros Hh%contains_held. congruence. }
  destruct (st_Archived (run_Status r)) eqn:Ha; [by apply archived_advances|].
  apply contains_held in Hf. case_match.
  - breflect. apply start_advances; [done|]. split_and!; try done. unfold recorded. by intros [].
  - breflect. destruct (isTerminal _) eqn:Ht; [apply wp_ret; by apply advances_refl|].
    by apply sync_advances.
Qed.

(** ** A reconcile of an older version *)

(** What a reconcile that has read the older version [r] may do: nothing to what is stored, but to the executions. *)
Record delayed (c : cluster) (r : Run) (c' : cluster) : Prop := {
  de_run : c_run c' = c_run c;
  de_behind : c_behind c' = c_behind c;
  de_fresh : c_fresh c' = false;
  de_starts : c_starts c' = c_starts c \/ (c_starts c' = S (c_starts c) /\ startable r /\ c_open c = false);
  de_open : c_open c' = true -> c_open c = true \/ c_starts c' = S (c_starts c);
  de_cancels : c_cancels c `suffix_of` c_cancels c';
}.

Notation delaying c r := (fun _ c' => delayed c r c').

Lemma delayed_refl c r : c_fresh c = false -> delayed c r c.
Proof. intros Hf. split; try done; by left. Qed.

Lemma wp_Update_refused sv i r' QR (Q : result Run -> cluster -> Prop) c :
  c_fresh c = false -> (forall e, Q (Err e) c) -> wp (Update sv i r') QR Q c.
Proof. intros Hf He. apply wp_Update; [done|]. congruence. Qed.

Lemma wp_UpdateStatus_refused sv i r' QR (Q : result Run -> cluster -> Prop) c :
  c_fresh c = false -> (forall e, Q (Err e) c) -> wp (UpdateStatus sv i r') QR Q c.
Proof. intros Hf He. apply wp_UpdateStatus; [done|]. congruence. Qed.

(** An update that the handler ends with. *)
Lemma delayed_store {A} sv i r' prefix (k : Run -> handler call ctrl_result A) QR (Q : A -> cluster -> Prop) c :
  c_fresh c = false -> (forall e, QR (Err e) c) ->
  wp (a ← Update sv i r'; r2 ← or_return prefix a; k r2) QR Q c.
Proof. intros Hf HQ. apply wp_bind, wp_Update_refused; [done|]. intros e. by apply wp_bind, wp_return. Qed.

Lemma deletion_delayed sv c r :
  c_fresh c = false -> wp (reconcile_deletion sv r) (delaying c r) (delaying c r) c.
Proof.
  intros Hf. unfold reconcile_deletion. case_match; [|by apply wp_ret, delayed_refl]. apply wp_bind.
  unfold cancelWorkflow. case_match.
  - apply wp_ret, delayed_store; [done|]. intros e. by apply delayed_refl.
  - apply wp_emit. intros c' Hs. inversion Hs; subst. apply delayed_store; [done|]. intros e.
    split; simpl; try done; [by left|by left|by eexists [_]].
Qed.

Lemma archived_delayed sv c r :
  c_fresh c = false -> wp (reconcile_archived sv r) (delaying c r) (delaying c r) c.
Proof.
  intros Hf. unfold reconcile_archived. case_match; [by apply wp_ret, delayed_refl|]. apply wp_bind.
  assert (wp (emit (CDelete "PersistentVolumeClaim" (pvcName r));;
    a ← Update sv 0 (annotate r annotationArchived "true"); _ ← or_return "reconcile" a;
    mret no_requeue) (delaying c r) (delaying c r) c) as Hgo.
  { apply wp_bind, wp_unseen; [done|]. apply delayed_store; [done|]. intros e. by apply delayed_refl. }
  case_match; [by apply wp_ret|by apply wp_unseen].
Qed.

Lemma start_delayed sv c r :
  c_fresh c = false -> startable r -> wp (startWorkflow cf sv r) (delaying c r) (delaying c r) c.
Proof.
  intros Hf Hst. unfold startWorkflow. apply wp_bind.
  apply (wp_mono _ (delaying c r) _ (fun _ c1 => c1 = c)); [|done|].
  { unfold resolve_project. case_match; [by apply wp_ret|]. destruct (ResolveProjectDefaults _ _) as [spec [u|e]].
    - apply wp_bind, wp_Update_refused; [done|]. intros e. by apply wp_return, delayed_refl.
    - apply wp_bind, wp_UpdateStatus_refused; [done|]. intros e'. by apply wp_return, delayed_refl. }
  intros r1 ? ->. apply wp_bind. unfold start. apply wp_bind, wp_emit. intros c2 Hsv. apply wp_ret.
  assert (delayed c r c2) as Hd.
  { remember (sv_execute sv _ _) as a eqn:Ha. clear Ha. inversion Hsv; subst; try (by apply delayed_refl);
      (split; simpl; [done..|by right|by right|done]). }
  pose proof (de_fresh _ _ _ Hd) as Hf2. destruct (sv_execute sv _ _).
  - by apply delayed_store.
  - by apply delayed_store.
  - unfold start_failed. apply wp_bind, wp_UpdateStatus_refused; [done|]. intros e'. by apply wp_ret.
Qed.

Lemma sync_delayed sv c r id :
  c_fresh c = false -> wp (syncWorkflowState cf sv r id) (delaying c r) (delaying c r) c.
Proof.
  intros Hf. pose proof (delayed_refl c r Hf) as Hr. unfold syncWorkflowState.
  destruct (sv_query sv id) as [| |state]; [|by apply wp_ret|].
  - destruct (sv_describe sv id) as [desc|e].
    + unfold syncFromDescription. destruct (ending desc.1) as [[[phase message] k]|]; [|by apply wp_ret].
      apply wp_bind, wp_unseen; [done|]. apply wp_bind, wp_UpdateStatus_refused; [done|].
      intros e. by apply wp_bind, wp_return.
    + destruct (isTerminal _); [by apply wp_ret|]. apply wp_bind, wp_UpdateStatus_refused; [done|].
      intros e'. by apply wp_ret.
  - unfold sync_state. destruct (sync_status _ _ _) as [st updated]. apply wp_bind. destruct updated.
    + apply wp_bind, wp_UpdateStatus_refused; [done|]. intros e. by apply wp_bind, wp_return.
    + by apply wp_ret, wp_ret.
Qed.

Lemma run_reconcile_delayed sv c r c' :
  c_fresh c = false -> serves c (Reconcile cf sv (Found r)).1 c' -> delayed c r c'.
Proof.
  intros Hc Hs. cut (wp (reconcile_run cf sv r) (delaying c r) (delaying c r) c).
  { intros Hw. specialize (Hw c' Hs). by destruct (_.2). }
  unfold reconcile_run.
  destruct (m_Deleted (run_Meta r)) eqn:Hd; [by apply deletion_delayed|].
  destruct (ContainsFinalizer (run_Meta r) finalizerName) eqn:Hf; simpl.
  2: { apply delayed_store; [done|]. intros e. by apply delayed_refl. }
  destruct (st_Archived (run_Status r)) eqn:Ha; [by apply archived_delayed|].
  apply contains_held in Hf. case_match.
  - breflect. apply start_delayed; [done|]. split_and!; try done. unfold recorded. by intros [].
  - destruct (isTerminal _); [by apply wp_ret, delayed_refl|]. by apply sync_delayed.
Qed.
End cluster.
