(* ===== verification/RunClusterProps.v ===== *)
(** * What the AgentRun controller guarantees.

    Over every sequence of reconciles, of versions that may be old, with every pattern of failing calls, interleaved
    with what users and executions do: when a workflow is started and that it is not
    started again, how a run ends, that a recorded workflow is cancelled before its run
    disappears; and how a start that was interrupted is recovered. *)

From S2P Require Import Prelude GoStrings ApiTypes Kube TemporalTypes RunController RunCluster.

Section theorems.
Context {U : ControllerUtil} {L : ControllerUtilLaws U}.
Variable cf : config.

Notation step := (step cf).

(** ** Reachability *)

(** A run as it is created. *)
Definition fresh (r : Run) : Prop :=
  ~ recorded r /\ ~ terminal r /\ st_CompletedAt (run_Status r) = None.

Definition created (r : Run) : cluster :=
  {| c_run := Some r; c_open := false; c_starts := 0; c_cancels := []; c_behind := []; c_fresh := true |}.

(** What a step that is no reconcile of the stored version does: it keeps the metadata that the controller writes. *)
Definition around (c c' : cluster) : Prop :=
  c_starts c' = c_starts c /\ c_cancels c' = c_cancels c /\ (c_open c' = true -> c_open c = true) /\
  (forall r, r ∈ c_behind c' -> r ∈ c_behind c \/ c_run c = Some r) /\
  match c_run c' with
  | Some r' => exists r, c_run c = Some r /\ run_name r' = run_name r /\ workflow_of r' = workflow_of r /\
                 (held r -> held r') /\ same_course (run_Status r) (run_Status r')
  | None => forall r, c_run c = Some r -> ~ held r
  end.

Lemma around_write c r r' :
  c_run c = Some r -> run_name r' = run_name r -> workflow_of r' = workflow_of r -> (held r <-> held r') ->
  same_course (run_Status r) (run_Status r') -> around c (with_run c (stored r')).
Proof.
  intros Hc Hn Hw Hh Hs. unfold around. simpl. split_and!; try done.
  - intros r0 [?|Hr0]%elem_of_app; [by left|]. right. rewrite Hc in Hr0 |- *. by apply list_elem_of_singleton in Hr0 as ->.
  - unfold stored. destruct (m_Deleted _); simpl; [case_bool_decide as Hf|].
    + intros r0 Hr0. replace r0 with r by congruence. rewrite Hh. unfold held. rewrite Hf. by apply not_elem_of_nil.
    + exists r. split_and!; try done. by apply Hh.
    + exists r. split_and!; try done. by apply Hh.
Qed.

(** A step is a reconcile of what is stored, a reconcile of an older version, or none. *)
Lemma step_cases c c' :
  step c c' ->
  (exists r, c_run c = Some r /\ c_behind c = [] /\ advances c r c') \/
  (exists r, r ∈ c_behind c /\ delayed c r c') \/
  around c c'.
Proof.
  intros Hs. inversion Hs as [? ? r sv Hc Hsv|?|? r r' Hc He|? r s Hc Hco|? r Hc|?]; subst.
  - unfold cached, current in *. destruct (c_behind c) as [|r0 rs] eqn:Eb.
    + left. exists r. split; [done|]. split; [done|].
      eapply reading_then_advances. by refine (run_reconcile_advances cf sv _ r c' _ Hsv).
    + right. left. injection Hc as ->. exists r. split; [by left|].
      rewrite bool_decide_false in Hsv by done.
      destruct (run_reconcile_delayed cf sv (reading c false) r c' eq_refl Hsv) as [H1 H2 H3 H4 H5 H6].
      by split.
  - right. right. split_and!; try done; simpl.
    + intros r Hr. left. destruct (c_behind c); [done|]. by right.
    + destruct (c_run c) as [r|]; [by exists r|done].
  - right. right. destruct He as (Hn & _ & _ & _ & Hw & Hh & Hst). apply around_write with r; try done. by rewrite Hst.
  - right. right. split_and!; try done; simpl; [|by exists r].
    intros r0 [?|Hr0]%elem_of_app; [by left|]. right. rewrite Hc in Hr0 |- *. by apply list_elem_of_singleton in Hr0 as ->.
  - right. right. by apply around_write with r.
  - right. right. split_and!; try done; simpl; [by left|]. destruct (c_run c) as [r|]; [by exists r|done].
Qed.

Lemma same_course_terminal s s' : same_course s s' -> isTerminal (st_Phase s') = isTerminal (st_Phase s).
Proof. by intros (-> & _). Qed.

Lemma same_course_trans s s' s'' : same_course s s' -> same_course s' s'' -> same_course s s''.
Proof. intros (? & ? & ? & ?) (? & ? & ? & ?). split_and!; congruence. Qed.

Lemma same_course_refl s : same_course s s.
Proof. done. Qed.

(** An invariant of the cluster, from what a reconcile and the other steps do. *)
Record good (c : cluster) : Prop := {
  go_settled r : c_run c = Some r -> settled r;
  go_recorded r : c_run c = Some r -> recorded r -> 0 < c_starts c;
  go_open : c_open c = true -> 0 < c_starts c;
}.

Lemma good_step c c' : good c -> step c c' -> good c'.
Proof.
  intros [Hs Hr Ho] [(r & Hc & _ & Ha)|[(r & _ & Hd)|(Hst & _ & Hop & _ & Hrun)]]%step_cases.
  - destruct Ha as [Has Hao _ Har _ _].
    assert (c_starts c <= c_starts c') by (destruct Has as [->|[-> _]]; lia).
    split.
    + intros r' Hr'. apply (fo_settled _ _ _ _ (Har _ Hr')). by apply Hs.
    + intros r' Hr' Hrec. destruct (fo_started _ _ _ _ (Har _ Hr') Hrec) as [?|[?|?]].
      * specialize (Hr r Hc H0). lia.
      * specialize (Ho H0). lia.
      * lia.
    + intros H'. destruct (Hao H') as [?|?]; [specialize (Ho H0); lia|lia].
  - destruct Hd as [Hrun _ _ Hst Hop _].
    assert (c_starts c <= c_starts c') by (destruct Hst as [->|[-> _]]; lia).
    split; rewrite ?Hrun; [done| |].
    + intros r' Hr' Hrec. specialize (Hr r' Hr' Hrec). lia.
    + intros H'. destruct (Hop H') as [?|?]; [specialize (Ho H0); lia|lia].
  - rewrite <- Hst in *. split.
    + intros r' Hr'. rewrite Hr' in Hrun. destruct Hrun as (r & Hc & _ & Hm & _ & Hco).
      specialize (Hs r Hc). destruct Hco as (Hp & _ & Hd & _).
      unfold settled, terminal, recorded in *. by rewrite Hp, Hd, Hm.
    + intros r' Hr' Hrec. rewrite Hr' in Hrun. destruct Hrun as (r & Hc & _ & Hm & _).
      apply (Hr r Hc). unfold recorded in *. by rewrite <- Hm.
    + intros H. by apply Ho, Hop.
Qed.

Lemma good_reach c c' : rtc step c c' -> good c -> good c'.
Proof. induction 1; eauto using good_step. Qed.

Lemma good_created r : fresh r -> good (created r).
Proof.
  intros (Hr & Ht & Hc). split; simpl; [|by intros ? [= <-]|done].
  intros ? [= <-]. split; [done|]. rewrite Hc. by intros [? [=]].
Qed.

(** ** What cannot happen twice *)

(** The stored run keeps its record, and the number of executions; the versions that the cache may have are recorded. *)
Definition kept (id : string) (n : nat) (c : cluster) : Prop :=
  c_starts c = n /\ (forall r, c_run c = Some r -> workflow_of r = id) /\ Forall recorded (c_behind c).

Lemma kept_step id n c c' : id <> "" -> kept id n c -> step c c' -> kept id n c'.
Proof.
  intros Hid (Hn & Hr & Hb) [(r & Hc & _ & Ha)|[(r & Hin & Hd)|(Hst & _ & _ & Hbe & Hrun)]]%step_cases.
  - specialize (Hr r Hc). assert (recorded r) as Hrec by (unfold recorded; congruence).
    destruct Ha as [Has _ _ Har _ Hab]. split_and!.
    + destruct Has as [?|(_ & (_ & _ & _ & Hno) & _)]; [congruence|done].
    + intros r' Hr'. by rewrite (fo_recorded _ _ _ _ (Har r' Hr') Hrec).
    + rewrite Forall_forall in Hb |- *. intros r0 Hr0. destruct (Hab Hrec r0 Hr0) as [?| ->]; [by apply Hb|done].
  - destruct Hd as [Hrun Hbe _ Hst _ _]. split_and!.
    + rewrite Forall_forall in Hb. destruct Hst as [?|(_ & (_ & _ & _ & Hno) & _)]; [congruence|]. by destruct (Hno (Hb r Hin)).
    + by rewrite Hrun.
    + by rewrite Hbe.
  - split_and!; [congruence| |].
    + intros r' Hr'. rewrite Hr' in Hrun. destruct Hrun as (r & Hc & _ & Hm & _). rewrite Hm. by apply Hr.
    + rewrite Forall_forall in Hb |- *. intros r0 Hr0. destruct (Hbe r0 Hr0) as [?|Hc]; [by apply Hb|].
      unfold recorded. by rewrite (Hr r0 Hc).
Qed.

(** C4. A recorded workflow is never started again.  Once the workflow's identifier is
    stored in the run's annotations, and no version without one is left for the controller's cache to have, no reconcile starts an
    execution, whatever fails and whatever users do short of editing that annotation or the controller's finalizer, also when the
    controller reads versions that are no longer stored; and the annotation stays as it is. *)
Theorem run_started_once (c c' : cluster) (r : Run)
    (Hrun : c_run c = Some r) (Hrec : recorded r) (Hcache : Forall recorded (c_behind c)) (Hsteps : rtc step c c') :
  c_starts c' = c_starts c /\ forall r', c_run c' = Some r' -> workflow_of r' = workflow_of r.
Proof.
  assert (kept (workflow_of r) (c_starts c) c) as Hk.
  { split; [done|]. split; [|done]. intros r' Hr'. by replace r' with r by congruence. }
  revert Hk. generalize (c_starts c). clear Hrun Hcache. intros n Hk.
  induction Hsteps as [c|c c1 c' Hs _ IH]; [by destruct Hk as (? & ? & _)|]. by eapply IH, kept_step.
Qed.

(** When an execution starts.  One step adds at most one execution, and the step is
    a reconcile of a version, the stored one unless the cache is behind, with the finalizer and the run neither
    being deleted, nor archived, nor recorded, while no execution was open. *)
Theorem run_starts_guarded (c c' : cluster)
    (Hstep : step c c') (Hnew : c_starts c' <> c_starts c) :
  exists r, (r ∈ c_behind c \/ c_behind c = [] /\ c_run c = Some r) /\ startable r /\ c_open c = false /\ c_starts c' = S (c_starts c).
Proof.
  apply step_cases in Hstep as [(r & Hc & Hb & Ha)|[(r & Hin & Hd)|(Hst & _)]]; [| |done].
  - destruct (ad_starts _ _ _ Ha) as [?|(? & ? & ?)]; [done|]. exists r. split; [by right|done].
  - destruct (de_starts _ _ _ Hd) as [?|(? & ? & ?)]; [done|]. exists r. split; [by left|done].
Qed.

(** C11. The course of a run.  Whatever happens to a new run, the stored run has a
    completion time exactly when its phase is terminal, and only a run whose workflow is
    recorded has ended; a recorded workflow has been accepted by Temporal. *)
Theorem run_course_invariant (r0 r : Run) (c : cluster) (Hfresh : fresh r0)
    (Hreach : rtc step (created r0) c) (Hrun : c_run c = Some r) :
  (terminal r <-> is_Some (st_CompletedAt (run_Status r))) /\
  (terminal r -> recorded r) /\ (recorded r -> 0 < c_starts c).
Proof.
  assert (good c) as [Hs Hr _] by (eapply good_reach; [done|by apply good_created]).
  destruct (Hs r Hrun) as [Ht Hd]. split_and!; [|by intros [? _]%Ht|by apply Hr].
  split; [by intros [_ ?]%Ht|done].
Qed.

(** C5. A run that has ended stays as it ended: its phase, message, start and completion
    time never change again. *)
Theorem terminal_absorbing (r0 r : Run) (c c' : cluster) (Hfresh : fresh r0)
    (Hreach : rtc step (created r0) c) (Hrun : c_run c = Some r) (Hend : terminal r)
    (Hsteps : rtc step c c') (r' : Run) (Hrun' : c_run c' = Some r') :
  same_course (run_Status r) (run_Status r').
Proof.
  assert (good c) as Hg by (eapply good_reach; [done|by apply good_created]). clear Hreach.
  revert r Hrun Hend. induction Hsteps as [c|c c1 c' Hs Hrest IH]; intros r Hrun Hend.
  - by replace r' with r by congruence.
  - assert (good c1) as Hg1 by eauto using good_step.
    destruct (go_settled _ Hg r Hrun) as [Ht _]. destruct (Ht Hend) as [Hrec _].
    assert (match c_run c1 with
            | Some r1 => same_course (run_Status r) (run_Status r1) | None => True end) as H1.
    { apply step_cases in Hs as [(r1 & Hc & _ & Ha)|[(r1 & _ & Hd)|(_ & _ & _ & _ & H1)]].
      - replace r1 with r in * by congruence. destruct (c_run c1) as [r2|] eqn:E; [|done].
        by apply (fo_course _ _ _ _ (ad_run _ _ _ Ha r2 E)).
      - by rewrite (de_run _ _ _ Hd), Hrun.
      - destruct (c_run c1) as [r2|]; [|done]. destruct H1 as (r3 & Hc & _ & _ & _ & Hco).
        by replace r with r3 by congruence. }
    destruct (c_run c1) as [r1|] eqn:E.
    + eapply same_course_trans; [done|]. apply IH; try done.
      unfold terminal. by rewrite (same_course_terminal _ _ H1).
    + exfalso. clear - E Hrest Hrun' L. induction Hrest as [|c1 c2 c' Hs _ IH]; [congruence|].
      apply IH; [done|]. apply step_cases in Hs as [(r & Hc & _)|[(r & _ & Hd)|(_ & _ & _ & _ & H)]]; [congruence| |].
      { by rewrite (de_run _ _ _ Hd). }
      destruct (c_run c2) as [r2|]; [|done]. destruct H as (r & Hc & _). congruence.
Qed.

(** The run is held by the finalizer, or its cancellation was requested since. *)
Definition guarded (c0 : cluster) (id : string) (c : cluster) : Prop :=
  c_cancels c0 `suffix_of` c_cancels c /\
  (asked_since c0 c id \/ exists r, c_run c = Some r /\ workflow_of r = id /\ held r).

Lemma asked_more c0 c c' id : c_cancels c `suffix_of` c_cancels c' -> asked_since c0 c id -> asked_since c0 c' id.
Proof.
  intros [k Hk] (l & Hl & Hin). exists (k ++ l). split; [by rewrite Hk, Hl, app_assoc|]. apply elem_of_app. by right.
Qed.

Lemma asked_earlier c0 c c' id : c_cancels c0 `suffix_of` c_cancels c -> asked_since c c' id -> asked_since c0 c' id.
Proof.
  intros [k Hk] (l & Hl & Hin). exists (l ++ k). split; [by rewrite Hl, Hk, app_assoc|]. apply elem_of_app. by left.
Qed.

Lemma guarded_step c0 id c c' : id <> "" -> guarded c0 id c -> step c c' -> guarded c0 id c'.
Proof.
  intros Hid [Hsuf Hg] Hs.
  apply step_cases in Hs as [(r1 & Hc1 & _ & Ha)|[(r1 & _ & Hd)|(_ & Hcc & _ & _ & Hrun)]].
  - pose proof (ad_cancels _ _ _ Ha) as Hmore. split; [by trans (c_cancels c)|].
    destruct Hg as [Hcan|(r & Hc & Hw & Hh)]; [left; by eapply asked_more|].
    replace r1 with r in * by congruence. assert (recorded r) as Hrec by (unfold recorded; congruence).
    destruct (c_run c') as [r'|] eqn:E.
    + pose proof (ad_run _ _ _ Ha r' E) as Hf.
      destruct (fo_held _ _ _ _ Hf Hh) as [Hh'|Hcan]; [right|left].
      * exists r'. split_and!; [done| |done]. by rewrite (fo_recorded _ _ _ _ Hf Hrec).
      * eapply asked_earlier; [done|]. rewrite <- Hw. by apply Hcan.
    + left. eapply asked_earlier; [done|]. rewrite <- Hw. by apply (ad_gone _ _ _ Ha).
  - pose proof (de_cancels _ _ _ Hd) as Hmore. split; [by trans (c_cancels c)|].
    destruct Hg as [Hcan|(r & Hc & Hw & Hh)]; [left; by eapply asked_more|right]. exists r. by rewrite (de_run _ _ _ Hd).
  - split; [by rewrite Hcc|]. destruct Hg as [Hcan|(r & Hc & Hw & Hh)].
    { left. eapply asked_more; [|done]. by rewrite Hcc. }
    destruct (c_run c') as [r'|] eqn:E; [|by destruct (Hrun r Hc)].
    destruct Hrun as (r2 & Hc2 & _ & Hm & Hk & _). replace r2 with r in * by congruence.
    right. exists r'. split_and!; [done|congruence|by apply Hk].
Qed.

(** C10. No recorded workflow is orphaned.  When a run whose workflow is recorded, and which
    holds the finalizer, is gone from the cluster, a cancellation of that workflow, by the identifier that is recorded, has been
    requested since, whatever failed and whatever users did short of editing that annotation or the finalizer, and also when the controller
    has read versions that were no longer stored. *)
Theorem recorded_cancelled (c c' : cluster) (r : Run) (Hrun : c_run c = Some r)
    (Hrec : recorded r) (Hheld : held r) (Hsteps : rtc step c c') (Hgone : c_run c' = None) :
  asked_since c c' (workflow_of r).
Proof.
  assert (guarded c (workflow_of r) c) as Hg by (split; [done|right; by exists r]).
  assert (guarded c (workflow_of r) c') as [_ [?|(r' & Hr' & _)]]; [|done|congruence].
  clear Hrun Hheld Hgone. revert Hg. generalize c at 1 3 as c0. intros c0 Hg. induction Hsteps; eauto using guarded_step.
Qed.

(** ** Interrupted starts *)

Definition succeeded (e : call) : Prop :=
  match e with
  | CUpdate _ (Err _) | CStatus _ (Err _) | CRefetch (Err _) | CStart _ _ _ (StartFails _) => False
  | _ => True
  end.

(** A weakest precondition for the calls that succeed. *)
Definition wps {A} (m : handler call ctrl_result A) (Q : A -> cluster -> Prop) (c : cluster) : Prop :=
  forall c', Forall succeeded m.1 -> serves c m.1 c' ->
    match m.2 with inl a => Q a c' | inr _ => False end.

Lemma wps_bind {A B} (m : handler call ctrl_result A) (k : A -> handler call ctrl_result B)
    (Q : B -> cluster -> Prop) c :
  wps m (fun a => wps (k a) Q) c -> wps (m ≫= k) Q c.
Proof.
  unfold wps, mbind, handler_bind. intros H c' Hok Hs. destruct m as [es [a|r]]; simpl in *.
  - apply serves_app in Hs as (c1 & Hs1 & Hs2). apply Forall_app in Hok as [Hok1 Hok2].
    by apply (H c1 Hok1 Hs1).
  - by eapply H.
Qed.

Lemma wps_ret {A} (a : A) (Q : A -> cluster -> Prop) c : Q a c -> wps (mret a) Q c.
Proof. intros HQ c' _ H. by inversion H; subst. Qed.

Lemma wps_emit e (Q : unit -> cluster -> Prop) c :
  (forall c', succeeded e -> serve c e c' -> Q tt c') -> wps (emit e) Q c.
Proof.
  intros HQ c' [Hok _]%Forall_cons H. inversion H as [|? ? ? ? ? Hs Hn]; subst.
  inversion Hn; subst. by apply HQ.
Qed.

Lemma wps_Update sv i r (Q : result Run -> cluster -> Prop) c :
  (forall cur, c_fresh c = true -> c_run c = Some cur ->
     Q (Ok (with_status r (run_Status cur))) (with_run c (stored (with_status r (run_Status cur))))) ->
  wps (Update sv i r) Q c.
Proof.
  intros Hok. unfold Update. apply wps_bind, wps_emit. intros c' Hsu Hs. apply wps_ret.
  destruct (sv_update sv i r) as [r'|e]; [|done]. inversion Hs; subst. by apply Hok.
Qed.

Lemma wps_UpdateStatus sv i r (Q : result Run -> cluster -> Prop) c :
  (forall cur, c_fresh c = true -> c_run c = Some cur ->
     Q (Ok (with_status cur (run_Status r))) (with_run c (Some (with_status cur (run_Status r))))) ->
  wps (UpdateStatus sv i r) Q c.
Proof.
  intros Hok. unfold UpdateStatus. apply wps_bind, wps_emit. intros c' Hsu Hs. apply wps_ret.
  destruct (sv_status sv i r) as [r'|e]; [|done]. inversion Hs; subst. by apply Hok.
Qed.

Lemma wps_event r ty (Q : unit -> cluster -> Prop) c :
  Q tt c -> wps (emitPhaseEvent cf r ty) Q c.
Proof.
  intros H. unfold emitPhaseEvent. case_match; [|by apply wps_ret].
  apply wps_emit. intros c' _ Hs. by inversion Hs; subst.
Qed.

Definition running_as (r r' : Run) : Prop :=
  entry (m_Annotations (run_Meta r')) annotationWorkflowID = workflow_id r /\
  st_Phase (run_Status r') = AgentRunPhaseRunning /\
  is_Some (st_StartedAt (run_Status r')).

Lemma record_start_runs sv c r r1 r2 :
  c_run c = Some r1 -> run_name r2 = run_name r -> m_Deleted (run_Meta r2) = false ->
  wps (record_start cf sv r2) (fun res c' => res = requeue_after reconcileInterval /\
    c_open c' = c_open c /\ exists r', c_run c' = Some r' /\ running_as r r') c.
Proof.
  intros Hc Hn Hd. unfold record_start. apply wps_bind, wps_Update. intros cur _ Hcur.
  replace cur with r1 by congruence. apply wps_bind, wps_ret. rewrite live_stored by done.
  apply wps_bind, wps_emit. intros c' Hsu Hs. destruct (sv_refetch sv) as [r4|e]; [|done].
  inversion Hs as [| | | |? ? Hf4 Hc4|? ? Hc4| | | | | | | | |]; subst; cycle 1.
  { apply wps_bind, wps_ret, wps_bind, wps_UpdateStatus. done. }
  simpl in Hc4. injection Hc4 as <-.
  apply wps_bind, wps_ret, wps_bind, wps_UpdateStatus. simpl. intros ? _ [= <-].
  apply wps_bind, wps_ret, wps_bind, wps_event, wps_ret. simpl. split_and!; try done.
  eexists. split; [done|]. unfold running_as, workflow_id. simpl. rewrite entry_insert, Hn.
  by split_and!.
Qed.

(** An interrupted start is recovered.  When a startable run is reconciled, its project
    resolves and no call fails, then the run is recorded and running, and an execution is
    open, whether this reconcile started it or an earlier one did and could not record it. *)
Theorem interrupted_start_recovers (sv : services) (c c' : cluster) (r : Run)
    (Hrun : c_run c = Some r) (Hst : startable r)
    (Hproj : is_ok (ResolveProjectDefaults (sv_project sv) (run_Spec r)).2 = true)
    (Hok : Forall succeeded (Reconcile cf sv (Found r)).1)
    (Hserves : serves c (Reconcile cf sv (Found r)).1 c') :
  outcome (Reconcile cf sv (Found r)) = requeue_after reconcileInterval /\
  c_open c' = true /\
  exists r', c_run c' = Some r' /\ running_as r r'.
Proof.
  cut (wps (Reconcile cf sv (Found r)) (fun res c' => res = requeue_after reconcileInterval /\
    c_open c' = true /\ exists r', c_run c' = Some r' /\ running_as r r') c).
  { intros Hw. specialize (Hw c' Hok Hserves). unfold outcome.
    by destruct (Reconcile cf sv (Found r)).2. }
  clear Hok Hserves c'. pose proof Hst as (Hh & Hd & Har & Hnr).
  simpl. unfold reconcile_run. rewrite Hd, Har. apply contains_held in Hh as ->. simpl.
  replace (String.eqb _ "") with true
    by (symmetry; unfold recorded in Hnr; apply String.eqb_eq; by apply dec_stable).
  unfold startWorkflow. apply wps_bind.
  assert (wps (resolve_project sv r) (fun r1 c1 => c_run c1 = Some r1 /\
    run_name r1 = run_name r /\ m_Deleted (run_Meta r1) = false /\ c_open c1 = c_open c) c) as Hres.
  { unfold resolve_project. case_match; [apply wps_ret; by split_and!|].
    destruct (ResolveProjectDefaults _ _) as [spec [u|e]]; [|done].
    apply wps_bind, wps_Update. intros cur _ Hcur. replace cur with r by congruence.
    apply wps_ret. rewrite live_stored by done. by split_and!. }
  intros c' Hok Hs. specialize (Hres c' Hok Hs). destruct (resolve_project sv r).2 as [r1|]; [|done].
  destruct Hres as (Hc1 & Hn1 & Hd1 & Ho1). destruct (labels_keep r1) as (Hln & Hld & _).
  apply wps_bind. unfold start. apply wps_bind, wps_emit. intros c2 Hsu Hs2. apply wps_ret.
  assert (c_run c2 = Some r1 /\ c_open c2 = true) as [Hc2 Ho2].
  { destruct (sv_execute _ _ _); [| |done]; by inversion Hs2; subst. }
  assert (wps (record_start cf sv (orchestration_labels r1)) (fun res c' =>
    res = requeue_after reconcileInterval /\ c_open c' = true /\
    exists r', c_run c' = Some r' /\ running_as r r') c2) as Hrec.
  { rewrite <- Ho2. by apply (record_start_runs _ _ _ r1); [|congruence|congruence]. }
  destruct (sv_execute _ _ _); [done|done|by destruct Hsu].
Qed.
End theorems.
