(* ===== verification/RunSync.v ===== *)
(** * The AgentRun controller: one reconcile at a time.

    What a start hands to the workflow, what a sync writes and when it writes nothing, what
    a run inherits from its project, and which runs the archive cleanup touches. *)

From S2P Require Import Prelude GoStrings ApiTypes Kube TemporalTypes RunController RunCluster RunClusterProps.

Local Open Scope Z_scope.

(** ** Syncing *)

(** The workflow's value of a field, unless it has none. *)
Definition pick (new old : string) : string := if String.eqb new "" then old else new.

Lemma track_eq {A} `{EqDecision A} (new old : A) set s :
  set old s = s -> track new old set s = (set new s, negb (bool_decide (old = new))).
Proof. intros Hs. unfold track. case_bool_decide; [subst; by rewrite Hs|done]. Qed.

Lemma follow_eq new old set s :
  set old s = s ->
  follow new old set s = (set (pick new old) s, negb (String.eqb new "") && negb (String.eqb old new)).
Proof.
  intros Hs. unfold follow, pick. destruct (String.eqb new "") eqn:E1; simpl; [by rewrite Hs|].
  destruct (String.eqb old new) eqn:E2; simpl; [|done].
  apply String.eqb_eq in E2 as <-. by rewrite Hs.
Qed.

Lemma pick_pick new old : pick new (pick new old) = pick new old.
Proof. unfold pick. by destruct (String.eqb new ""). Qed.

Section sync.
Context {U : ControllerUtil}.
Variable cf : config.

(** The status of a run whose workflow goes on, as the workflow's state has it. *)
Definition mirrored (sv : services) (state : WorkflowState) (s : RunStatus) : RunStatus :=
  {| st_Phase := mapPhase (ws_Phase state); st_Message := ws_Message state;
     st_PodName := pick (ws_PodName state) (st_PodName s);
     st_StartedAt :=
       match st_StartedAt s with
       | Some t => Some t
       | None => if bool_decide (mapPhase (ws_Phase state) = AgentRunPhaseRunning)
                 then Some (sv_now sv) else None
       end;
     st_CompletedAt := st_CompletedAt s; st_Conditions := st_Conditions s;
     st_DeploymentName := pick (ws_DeploymentName state) (st_DeploymentName s);
     st_VerificationResult := pick (ws_VerificationResult state) (st_VerificationResult s);
     st_PRUrl := pick (ws_PRUrl state) (st_PRUrl s);
     st_Archived := st_Archived s; st_Reports := st_Reports s |}.

(** The fields in which the stored status is behind. *)
Definition behind (state : WorkflowState) (s : RunStatus) : bool :=
  let new x old := negb (String.eqb x "") && negb (String.eqb old x) in
  negb (bool_decide (st_Phase s = mapPhase (ws_Phase state))) ||
  negb (bool_decide (st_Message s = ws_Message state)) ||
  new (ws_PodName state) (st_PodName s) || new (ws_DeploymentName state) (st_DeploymentName s) ||
  new (ws_PRUrl state) (st_PRUrl s) || new (ws_VerificationResult state) (st_VerificationResult s) ||
  negb (bool_decide (is_Some (st_StartedAt s))) &&
  bool_decide (mapPhase (ws_Phase state) = AgentRunPhaseRunning).

Lemma sync_status_eq sv state s :
  isTerminal (mapPhase (ws_Phase state)) = false ->
  sync_status sv state s = (mirrored sv state s, behind state s).
Proof.
  intros Ht. unfold sync_status. rewrite Ht.
  do 6 (rewrite steps_cons; first [rewrite track_eq by (by destruct s) | rewrite follow_eq by (by destruct s)]; cbn [fst snd]).
  unfold mirrored, behind, steps. destruct s as [? ? ? [|] ? ? ? ? ? ? ?]; simpl.
  all: case_bool_decide; simpl; rewrite ?orb_false_r, ?orb_true_r, <- ?orb_assoc; done.
Qed.

(** The stored status is what the workflow's state asks for. *)
Lemma mirrored_behind sv state s : behind state (mirrored sv state s) = false.
Proof.
  assert (forall x old, negb (String.eqb x "") && negb (String.eqb (pick x old) x) = false) as Hp.
  { intros x old. unfold pick. destruct (String.eqb x "") eqn:E; [done|]. simpl.
    by rewrite String.eqb_refl. }
  unfold behind, mirrored. simpl. rewrite !Hp, !bool_decide_eq_true_2 by done. simpl.
  destruct (bool_decide (mapPhase (ws_Phase state) = AgentRunPhaseRunning));
    [|by rewrite andb_false_r].
  by destruct (st_StartedAt s).
Qed.

(** A status that is not behind is left as it is. *)
Lemma mirrored_same sv state s : behind state s = false -> mirrored sv state s = s.
Proof.
  assert (forall x old, negb (String.eqb x "") && negb (String.eqb old x) = false -> pick x old = old)
    as Hp.
  { intros x old H. unfold pick. destruct (String.eqb x ""); [done|]. simpl in H.
    apply negb_false_iff, String.eqb_eq in H. by subst. }
  unfold behind. intros H. repeat (apply orb_false_iff in H as [H ?]).
  apply negb_false_iff, bool_decide_eq_true in H.
  match goal with H : negb (bool_decide (_ = ws_Message _)) = false |- _ =>
    apply negb_false_iff, bool_decide_eq_true in H end.
  unfold mirrored. rewrite !Hp by done.
  destruct s as [ph msg ? st ? ? ? ? ? ? ?]; simpl in *. subst. f_equal.
  destruct st as [|]; [done|]. simpl in *. by match goal with H : _ = false |- _ => rewrite H end.
Qed.

(** A stored run whose workflow is followed. *)
Definition followed (r : Run) : Prop :=
  held r /\ m_Deleted (run_Meta r) = false /\ st_Archived (run_Status r) = false /\
  recorded r /\ isTerminal (st_Phase (run_Status r)) = false.

Context {L : ControllerUtilLaws U}.

Lemma reconcile_followed sv r :
  followed r ->
  Reconcile cf sv (Found r) =
  syncWorkflowState cf sv r (entry (m_Annotations (run_Meta r)) annotationWorkflowID).
Proof.
  intros (Hh & Hd & Ha & Hr & Ht). simpl. unfold reconcile_run. rewrite Hd, Ha, Ht.
  apply contains_spec in Hh. rewrite Hh. simpl. case_match; [|done]. by breflect.
Qed.

(** The run follows its workflow.  When the state query of a followed run answers a
    state that is not terminal, the reconcile stores the state's phase and message, and
    each other field that the state has a value for, and runs again after the interval; a
    following reconcile to which the same state is answered makes no call at all. *)
Theorem sync_follows_workflow (sv sv' : services) (state : WorkflowState) (c c' : cluster)
    (r : Run) (Hrun : c_run c = Some r) (Hf : followed r)
    (Hq : sv_query sv (entry (m_Annotations (run_Meta r)) annotationWorkflowID) = Answers state)
    (Hq' : sv_query sv' (entry (m_Annotations (run_Meta r)) annotationWorkflowID) = Answers state)
    (Hlive : isTerminal (mapPhase (ws_Phase state)) = false)
    (Hok : Forall succeeded (Reconcile cf sv (Found r)).1)
    (Hserves : serves c (Reconcile cf sv (Found r)).1 c') :
  let r' := with_status r (mirrored sv state (run_Status r)) in
  c_run c' = Some r' /\
  outcome (Reconcile cf sv (Found r)) = requeue_after reconcileInterval /\
  Reconcile cf sv' (Found r') = mret (requeue_after reconcileInterval).
Proof.
  cbn zeta. set (s' := mirrored sv state (run_Status r)).
  assert (Reconcile cf sv' (Found (with_status r s')) = mret (requeue_after reconcileInterval)) as Hnext.
  { rewrite reconcile_followed; [|destruct Hf as (? & ? & ? & ? & ?); by split_and!].
    unfold syncWorkflowState. cbn [with_status run_Meta]. rewrite Hq'. unfold sync_state.
    rewrite sync_status_eq by done. cbn [with_status run_Status]. unfold s'.
    by rewrite mirrored_behind, Hlive. }
  cut (wps (Reconcile cf sv (Found r))
    (fun res c' => c_run c' = Some (with_status r s') /\ res = requeue_after reconcileInterval) c).
  { intros Hw. specialize (Hw c' Hok Hserves). unfold outcome.
    destruct (Reconcile cf sv (Found r)).2; [|done]. by destruct Hw. }
  rewrite reconcile_followed by done. unfold syncWorkflowState. rewrite Hq. unfold sync_state.
  rewrite sync_status_eq by done. fold s'. rewrite Hlive. apply wps_bind.
  destruct (behind state (run_Status r)) eqn:Hb.
  - apply wps_bind, wps_UpdateStatus. intros cur _ Hcur. replace cur with r by congruence.
    apply wps_bind, wps_ret, wps_event, wps_ret. by split.
  - apply wps_ret, wps_ret. split; [|done]. unfold s'. rewrite mirrored_same by done.
    rewrite Hrun. by destruct r.
Qed.
End sync.

(** ** What a run inherits from its project *)

Lemma inherit_inherit own d : inherit (inherit own d) d = inherit own d.
Proof.
  unfold inherit. destruct (String.eqb own "") eqn:E, (String.eqb d "") eqn:E'; simpl;
    rewrite ?E, ?E'; done.
Qed.

Lemma inherit_own own d : own <> "" -> inherit own d = own.
Proof. intros H. unfold inherit. by apply String.eqb_neq in H as ->. Qed.

Lemma inherit_defaults_idem p s : inherit_defaults p (inherit_defaults p s) = inherit_defaults p s.
Proof.
  unfold inherit_defaults. simpl. rewrite !inherit_inherit, <- !orb_assoc, !orb_diag. f_equal.
  - destruct (rs_Repos s); simpl; [|done]. destruct (pj_Repos p); done.
  - destruct (rs_TTLSeconds s =? 0) eqn:E; simpl; [|by rewrite E].
    destruct (0 <? pd_TTLSeconds _) eqn:E'; simpl; [|by rewrite E].
    case_match; [|done]. done.
Qed.

Lemma with_project_idem p s : with_project p (with_project p s) = with_project p s.
Proof.
  unfold with_project. simpl. f_equal. destruct (String.eqb (rs_Project s) "") eqn:E.
  - destruct (String.eqb (pj_DisplayName p) "") eqn:E'; [|by rewrite E'].
    destruct (String.eqb (m_Name (pj_Meta p)) "") eqn:E''; [|done]. done.
  - by rewrite E.
Qed.

(** The fields that a run states itself, in [s], are those of [s']. *)
Definition own_fields_kept (s s' : AgentRunSpec) : Prop :=
  (rs_Repos s <> [] -> rs_Repos s' = rs_Repos s) /\
  (rs_ModelTier s <> "" -> rs_ModelTier s' = rs_ModelTier s) /\
  (rs_ManageModelTier s <> "" -> rs_ManageModelTier s' = rs_ManageModelTier s) /\
  (rs_ImplementModelTier s <> "" -> rs_ImplementModelTier s' = rs_ImplementModelTier s) /\
  (rs_TTLSeconds s <> 0 -> rs_TTLSeconds s' = rs_TTLSeconds s) /\
  (rs_OrchestrationMode s <> "" -> rs_OrchestrationMode s' = rs_OrchestrationMode s) /\
  (rs_AutoPush s = true -> rs_AutoPush s' = true) /\
  (rs_AutoPR s = true -> rs_AutoPR s' = true) /\
  (rs_PRBaseBranch s <> "" -> rs_PRBaseBranch s' = rs_PRBaseBranch s) /\
  (rs_SpecContent s <> "" -> rs_SpecContent s' = rs_SpecContent s /\ rs_SpecSource s' = rs_SpecSource s) /\
  (rs_Project s <> "" -> rs_Project s' = rs_Project s) /\
  rs_Prompt s' = rs_Prompt s /\ rs_ApprovalMode s' = rs_ApprovalMode s /\
  rs_EnvVars s' = rs_EnvVars s /\ rs_Image s' = rs_Image s /\
  rs_PipelineConfig s' = rs_PipelineConfig s /\ rs_Orchestration s' = rs_Orchestration s /\
  rs_MaxBudget s' = rs_MaxBudget s /\ rs_ParentRunID s' = rs_ParentRunID s.

Lemma defaults_keep p s : own_fields_kept s (with_project p (inherit_defaults p s)).
Proof.
  unfold own_fields_kept, inherit_defaults, with_project. simpl.
  split_and!; try done; try by apply inherit_own.
  - by destruct (rs_Repos s).
  - intros H. apply Z.eqb_neq in H. by rewrite H.
  - intros H. by rewrite H.
  - intros H. by rewrite H.
  - intros H. apply String.eqb_neq in H. by rewrite H.
Qed.

Lemma content_keep s content : rs_SpecContent s = "" -> own_fields_kept s (with_spec_content content s).
Proof. intros H. unfold own_fields_kept. simpl. split_and!; try done. Qed.

Lemma kept_trans s1 s2 s3 : own_fields_kept s1 s2 -> own_fields_kept s2 s3 -> own_fields_kept s1 s3.
Proof.
  unfold own_fields_kept. intros H1 H2. destruct_and!. split_and!; intros;
    repeat match goal with
    | H : ?P -> _, H' : ?P |- _ => specialize (H H')
    | H : _ /\ _ |- _ => destruct H
    end; try congruence;
    try match goal with
    | H : ?x <> _ -> _ = _, E : ?x = ?y |- _ => rewrite E in H; specialize (H ltac:(done)); congruence
    end.
  all: try (split; congruence).
  all: try match goal with H : ?x <> ?z -> _ /\ _, E : ?x = ?y, N : ?y <> ?z |- _ =>
    rewrite E in H; destruct (H N); split; congruence end.
Qed.

Lemma resolved_idem p s :
  inherit_defaults p (with_project p (inherit_defaults p s)) = with_project p (inherit_defaults p s).
Proof.
  change (inherit_defaults p (with_project p (inherit_defaults p s)))
    with (with_project p (inherit_defaults p (inherit_defaults p s))).
  by rewrite inherit_defaults_idem.
Qed.

(** A run inherits from its project what it does not state itself.  When the project's
    defaults resolve, every field that the run states is kept, and resolving the result
    again, as a retried start does with the spec that was persisted, changes nothing. *)
Theorem resolve_idempotent (reads : project_reads) (s s' : AgentRunSpec) (u : string)
    (Hres : ResolveProjectDefaults reads s = (s', Ok u)) :
  own_fields_kept s s' /\ ResolveProjectDefaults reads s' = (s', Ok u).
Proof.
  unfold ResolveProjectDefaults in Hres.
  destruct (String.eqb (rs_ProjectRef s) "") eqn:Href.
  { injection Hres as <- <-. split; [by unfold own_fields_kept; split_and!|].
    unfold ResolveProjectDefaults. by rewrite Href. }
  destruct (pr_get reads (rs_ProjectRef s)) as [p| |e] eqn:Hp; [|done|done].
  set (s1 := inherit_defaults p s) in Hres.
  assert (forall s2, rs_ProjectRef s2 = rs_ProjectRef s -> inherit_defaults p s2 = s2 ->
    with_project p s2 = s2 -> (forall f, pr_file reads = Some f -> rs_SpecRef s2 <> "" ->
      rs_SpecContent s2 = "" -> exists content,
      f (rs_ProjectRef s) ("openspec/specs/" +:+ rs_SpecRef s2 +:+ "/spec.md") = Ok content /\
      with_spec_content content s2 = s2) -> pj_ConfigRepoURL p = u ->
    ResolveProjectDefaults reads s2 = (s2, Ok u)) as Hstable.
  { intros s2 Hr Hi Hw Hc Hu. unfold ResolveProjectDefaults. rewrite Hr, Href, Hp, Hi.
    destruct (pr_file reads) as [f|]; [|by rewrite Hw, Hu].
    destruct (negb (String.eqb (rs_SpecRef s2) "") && String.eqb (rs_SpecContent s2) "") eqn:E;
      [|by rewrite Hw, Hu].
    breflect. destruct E as [E1 E2]. destruct (Hc f eq_refl E1 E2) as (content & Hread & Hcc).
    rewrite Hr, Hread.
    by rewrite Hcc, Hw, Hu. }
  assert (own_fields_kept s (with_project p s1) /\
    ((forall f, pr_file reads = Some f -> rs_SpecRef s <> "" -> rs_SpecContent s = "" -> False) ->
     pj_ConfigRepoURL p = u ->
     ResolveProjectDefaults reads (with_project p s1) = (with_project p s1, Ok u))) as [Hkeep Hplain].
  { split; [apply defaults_keep|]. intros Hno Hu. apply Hstable; try done.
    - apply resolved_idem.
    - apply with_project_idem.
    - intros f Hf H1 H2. by destruct (Hno f). }
  destruct (pr_file reads) as [f|] eqn:Hf.
  2: { injection Hres as <- <-. split; [done|]. by apply Hplain. }
  destruct (negb (String.eqb (rs_SpecRef s1) "") && String.eqb (rs_SpecContent s1) "") eqn:E.
  2: { injection Hres as <- <-. split; [done|]. apply Hplain; [|done].
       intros f' [= <-] H1 H2. apply andb_false_iff in E as [E|E]; simpl in E.
       - apply negb_false_iff, String.eqb_eq in E. done.
       - apply String.eqb_neq in E. done. }
  breflect. destruct E as [E1 E2].
  destruct (f (rs_ProjectRef s1) _) as [content|e] eqn:Hread; [|done].
  injection Hres as <- <-.
  change (with_project p (with_spec_content content s1))
    with (with_spec_content content (with_project p s1)).
  split; [eapply kept_trans; [apply Hkeep|by apply content_keep]|].
  apply Hstable; try done.
  - change (inherit_defaults p (with_spec_content content (with_project p s1)))
      with (with_spec_content content (inherit_defaults p (with_project p s1))).
    unfold s1. by rewrite resolved_idem.
  - change (with_project p (with_spec_content content (with_project p s1)))
      with (with_spec_content content (with_project p (with_project p s1))).
    by rewrite with_project_idem.
  - intros f' [= <-] _ _. exists content. by split.
Qed.

(** ** The archive cleanup *)

Section cleanup.
Variables (cf : config) (sv : services).

(** The retention in days. *)
Definition retention_days : Z :=
  if cf_RetentionDays cf <=? 0 then DefaultRetentionDays else cf_RetentionDays cf.

Lemma wrap64_small z : - 2 ^ 63 <= z < 2 ^ 63 -> wrap64 z = z.
Proof. intros H. unfold wrap64. rewrite Z.mod_small; lia. Qed.

Lemma retention_days_pos : 0 < retention_days.
Proof. unfold retention_days, DefaultRetentionDays. case_match; lia. Qed.

Lemma retentionPeriod_exact :
  cf_RetentionDays cf <= 106751 -> retentionPeriod cf = retention_days * nanosecond_of_day.
Proof.
  intros H. pose proof retention_days_pos as Hpos. unfold retentionPeriod, nanosecond_of_day.
  fold retention_days.
  assert (retention_days <= 106751) by (unfold retention_days, DefaultRetentionDays; case_match; lia).
  rewrite (wrap64_small (retention_days * 24)) by lia. rewrite wrap64_small by lia. lia.
Qed.

(** A run that has been over for the retention period, and is not archived. *)
Definition overdue (r : Run) : Prop :=
  terminal r /\ st_Archived (run_Status r) = false /\
  exists t, st_CompletedAt (run_Status r) = Some t /\ retention_days * 86400 <= sv_now sv - t.

Lemma expired_overdue r :
  cf_RetentionDays cf <= 106751 -> expired cf sv r = true -> overdue r.
Proof.
  intros Hd H. unfold expired in H. breflect. destruct H as [[Ht [Ha _]] Hc].
  split_and!; [done|done|]. destruct (st_CompletedAt _) as [t|]; [|done]. exists t.
  split; [done|]. rewrite retentionPeriod_exact in Hc by done. pose proof retention_days_pos.
  apply negb_true_iff, Z.ltb_ge in Hc. unfold since, nanosecond_of_day in Hc. lia.
Qed.

(** The calls that the cleanup of a run is made of. *)
Definition cleanup_call (r : Run) (e : call) : Prop :=
  e = CDelete "Deployment" (st_DeploymentName (run_Status r)) \/
  e = CDelete "PersistentVolumeClaim" (pvcName r) \/
  (deleted sv "PersistentVolumeClaim" (pvcName r) = true /\
   exists a, e = CUpdate (annotate r annotationArchived "true") a).

(** The archive cleanup touches only runs that are over.  With a retention of at most
    106751 days, which is what a duration can hold, every call is made for a listed run that
    has ended, is not archived, and completed at least the retention ago; and the run is
    marked as archived only when its volume is gone. *)
Theorem cleanup_only_overdue (items : list Run) (e : call)
    (Hdays : cf_RetentionDays cf <= 106751)
    (Hcall : e ∈ (cleanupExpiredRuns cf sv (Ok items)).1) :
  exists r, r ∈ items /\ overdue r /\ cleanup_call r e.
Proof.
  unfold cleanupExpiredRuns in Hcall. cbn [fst] in Hcall.
  apply list_elem_of_In, in_concat in Hcall as (l & Hl & He).
  apply list_elem_of_In, list_elem_of_lookup in Hl as (i & Hi). rewrite list_lookup_imap in Hi.
  destruct (items !! i) as [r|] eqn:Hr; [|done]. simpl in Hi. injection Hi as <-.
  exists r. split; [by eapply list_elem_of_lookup_2|]. unfold cleanup_run in He.
  destruct (expired cf sv r) eqn:Hx; [|done]. simpl in He.
  split; [by apply expired_overdue|]. unfold cleanup_call.
  destruct (String.eqb (st_DeploymentName (run_Status r)) ""); simpl in He.
  - destruct (deleted sv "PersistentVolumeClaim" (pvcName r)) eqn:E; simpl in He;
      naive_solver.
  - destruct (deleted sv "Deployment" _); simpl in He; [|naive_solver].
    destruct (deleted sv "PersistentVolumeClaim" (pvcName r)) eqn:E; simpl in He; naive_solver.
Qed.

(** One day more, and the period is negative: every run that has ended is overdue. *)
Lemma retention_overflow : cf_RetentionDays cf = 106752 -> retentionPeriod cf < 0.
Proof. intros H. unfold retentionPeriod. rewrite H. vm_compute. done. Qed.
End cleanup.

(** ** What a start hands to the workflow *)

Section start.
Context {U : ControllerUtil} {L : ControllerUtilLaws U}.
Variables (cf : config) (sv : services).

(** An update of the run's own part stores the metadata and the spec it is given. *)
Hypothesis update_stores : forall i r r',
  sv_update sv i r = Ok r' -> run_Meta r' = run_Meta r /\ run_Spec r' = run_Spec r.

(** The run with what it inherits. *)
Definition resolved (r : Run) : Run :=
  with_spec r (ResolveProjectDefaults (sv_project sv) (run_Spec r)).1.

(** A call that starts a workflow starts the workflow of [r]. *)
Definition starts_run (r : Run) (e : call) : Prop :=
  match e with
  | CStart id q i a =>
      startable r /\ id = workflow_id r /\
      i = BuildWorkflowInput (resolved r) (cf_LiteLLMBaseURL cf) (cf_GitHubTokenSecretName cf)
  | _ => True
  end.

Lemma update_call (P : call -> Prop) i r :
  (forall a, P (CUpdate r a)) -> calls P (Update sv i r).
Proof. intros H. unfold Update. by walk_calls. Qed.

Lemma status_call (P : call -> Prop) i r :
  (forall a, P (CStatus r a)) -> calls P (UpdateStatus sv i r).
Proof. intros H. unfold UpdateStatus. by walk_calls. Qed.

Lemma or_return_calls (P : call -> Prop) prefix a : calls P (or_return prefix a).
Proof. unfold or_return. walk_calls. Qed.

Lemma event_calls (P : call -> Prop) r ty : (forall n t p, P (CPublish n t p)) -> calls P (emitPhaseEvent cf r ty).
Proof. intros H. unfold emitPhaseEvent. walk_calls. apply H. Qed.

Ltac quiet := repeat first
  [ by apply update_call | by apply status_call | apply or_return_calls | by apply event_calls
  | apply calls_ret | apply calls_return | by apply calls_emit
  | apply calls_bind; [|intros ?]
  | match goal with
    | |- calls _ (match ?x with _ => _ end) => destruct x eqn:?
    | |- calls _ (if ?x then _ else _) => destruct x eqn:?
    | |- calls _ (let '(_, _) := ?x in _) => destruct x eqn:?
    end ].

Lemma resolve_project_result r r1 :
  (resolve_project sv r).2 = inl r1 ->
  run_Meta r1 = run_Meta r /\ run_Spec r1 = run_Spec (resolved r).
Proof.
  unfold resolve_project, resolved, with_spec at 1. cbn [run_Spec].
  destruct (String.eqb _ "") eqn:E.
  { intros [= <-]. split; [done|]. unfold ResolveProjectDefaults. by rewrite E. }
  destruct (ResolveProjectDefaults _ _) as [spec [u|e]]; cbn [fst]; [|done].
  unfold Update. simpl. destruct (sv_update sv 0 _) as [r'|] eqn:Hu; [|done].
  intros [= <-]. by apply update_stores in Hu as [-> ->].
Qed.

(** What a start hands to the workflow.  A reconcile asks Temporal to start a workflow
    only for a startable run, under the identifier that its name determines, and with the
    input built from the stored run and what it inherits from its project; so the prompt
    and the approval mode are the run's own. *)
Theorem workflow_gets_run (r : Run) (id q : string) (i : WorkflowInput) (a : start_answer)
    (Hcall : CStart id q i a ∈ (Reconcile cf sv (Found r)).1) :
  startable r /\ id = workflow_id r /\
  i = BuildWorkflowInput (resolved r) (cf_LiteLLMBaseURL cf) (cf_GitHubTokenSecretName cf) /\
  wi_AgentRunName i = run_name r /\ wi_Prompt i = rs_Prompt (run_Spec r) /\
  wi_ApprovalMode i = rs_ApprovalMode (run_Spec r).
Proof.
  assert (calls (starts_run r) (Reconcile cf sv (Found r))) as Hc.
  { simpl. unfold reconcile_run.
    destruct (m_Deleted (run_Meta r)) eqn:Hd; [unfold reconcile_deletion, cancelWorkflow; quiet|].
    destruct (ContainsFinalizer (run_Meta r) finalizerName) eqn:Hf; simpl;
      [|unfold reconcile_finalizer; quiet].
    destruct (st_Archived (run_Status r)) eqn:Ha; [unfold reconcile_archived; quiet|].
    destruct (String.eqb _ "") eqn:Hw.
    2: { unfold syncWorkflowState, syncFromDescription, sync_state. quiet. }
    assert (startable r) as Hst.
    { split_and!; try done; [by apply contains_spec|]. unfold recorded. breflect. by intros []. }
    unfold startWorkflow. apply calls_bind_known; [unfold resolve_project; quiet|].
    intros r1 (Hm & Hs)%resolve_project_result. apply calls_bind.
    - unfold start. apply calls_bind; [|intros; apply calls_ret]. apply calls_emit. split; [done|].
      destruct (labels_keep r1) as (Hn & _). unfold workflow_id. rewrite Hn. unfold run_name.
      rewrite Hm. split; [done|]. unfold BuildWorkflowInput, run_name. by rewrite Hm, Hs.
    - intros b. unfold start_failed, record_start. quiet. }
  eapply Forall_forall in Hc; [|exact Hcall]. destruct Hc as (Hst & -> & ->). split_and!; try done.
  all: simpl; unfold ResolveProjectDefaults; repeat case_match; done.
Qed.
End start.
