(* ===== verification/RunSample.v ===== *)
(** * A run from its creation to its end, for the examples.

    A run in a cluster in which every call succeeds: three reconciles add the finalizer,
    start the workflow and see it succeed.  While the cache is behind, the workflow may be
    started again once it is over. *)

From S2P Require Import Prelude GoStrings ApiTypes Kube TemporalTypes RunController RunCluster RunClusterProps RunSync.

Local Open Scope Z_scope.

Definition sample_spec (ref : string) : AgentRunSpec :=
  {| rs_Backend := BackendPod; rs_Repos := []; rs_Prompt := "fix it"; rs_DevboxConfig := "";
     rs_TTLSeconds := 0; rs_EnvVars := []; rs_Image := ""; rs_ModelTier := "default";
     rs_ManageModelTier := ""; rs_ImplementModelTier := ""; rs_SpecContent := "";
     rs_SpecSource := ""; rs_ProjectRef := ref; rs_SpecRef := "login"; rs_WorkspaceName := "";
     rs_ParentRunID := ""; rs_OrchestrationMode := "single"; rs_Orchestration := None;
     rs_SpecRunID := ""; rs_DisplayName := ""; rs_PipelineConfig := None; rs_MaxBudget := 0;
     rs_AutoPush := true; rs_AutoPR := false; rs_PRBaseBranch := ""; rs_Project := "";
     rs_Feature := ""; rs_Tags := []; rs_ApprovalMode := "none"; rs_OpenspecChange := "" |}.

Definition sample_status : RunStatus :=
  {| st_Phase := AgentRunPhaseOther ""; st_Message := ""; st_PodName := "";
     st_StartedAt := None; st_CompletedAt := None; st_Conditions := []; st_DeploymentName := "";
     st_VerificationResult := ""; st_PRUrl := ""; st_Archived := false;
     st_Reports :=
       {| rp_TraceID := ""; rp_WorktreePath := ""; rp_LogOutput := ""; rp_AgentJSONL := "";
          rp_RetainUntil := None; rp_DebugActive := false; rp_Stage := ""; rp_RetryCount := 0;
          rp_TotalCost := ""; rp_TotalAdditions := 0; rp_TotalDeletions := 0;
          rp_CIFixAttempts := 0; rp_LastCIStatus := ""; rp_ParentPRUrl := "" |} |}.

Definition sample_meta (fs : list string) (notes : gmap string string) : ObjectMeta :=
  {| m_Name := "ar-1"; m_Namespace := "aot"; m_Labels := ∅; m_Annotations := notes;
     m_Finalizers := fs; m_Deleted := false; m_Created := 0 |}.

Definition run0 : Run :=
  {| run_Meta := sample_meta [] ∅; run_Spec := sample_spec ""; run_Status := sample_status |}.
Definition run1 : Run := with_meta run0 (sample_meta [finalizerName] ∅).
Definition noted : gmap string string := <[annotationWorkflowID := "agentrun-ar-1"]> ∅.

Definition sample_config : config :=
  {| cf_TaskQueue := ""; cf_LiteLLMBaseURL := "http://llm"; cf_GitHubTokenSecretName := "gh";
     cf_RetentionDays := 7; cf_EventBus := true |}.

Definition workflow_state (phase : string) : WorkflowState :=
  {| ws_Phase := phase; ws_Message := "working"; ws_PodName := "pod-1"; ws_DeploymentName := "";
     ws_PRUrl := ""; ws_VerificationResult := "" |}.

Definition sample_project : Project :=
  {| pj_Meta := sample_meta [] ∅; pj_DisplayName := "Shop"; pj_Repos := [];
     pj_Packages := None;
     pj_Defaults := Some {| pd_ModelTier := "large"; pd_ManageModelTier := "small";
                            pd_ImplementModelTier := ""; pd_TTLSeconds := 600;
                            pd_OrchestrationMode := "auto"; pd_AutoPush := false;
                            pd_AutoPR := true; pd_PRBaseBranch := "main" |};
     pj_ConfigRepoReady := true; pj_ConfigRepoURL := "ssh://soft/shop"; pj_Conditions := [] |}.

Definition sample_reads : project_reads :=
  {| pr_get n := if String.eqb n "shop" then Found sample_project else NotFound;
     pr_file := Some (fun _ _ => Ok "# Login") |}.

(** Services in which every call succeeds, for the stored run [r]. *)
Definition working (r : Run) (a : start_answer) (phase : string) : services :=
  {| sv_now := 100; sv_update _ r' := Ok r';
     sv_status _ r' := Ok (with_status r (run_Status r'));
     sv_refetch := Ok r; sv_delete _ _ := NotFound; sv_project := sample_reads;
     sv_execute _ _ := a; sv_query _ := Answers (workflow_state phase);
     sv_describe _ := Err "gone" |}.

Definition run2 : Run := with_meta run0 (sample_meta [finalizerName] noted).
Definition run3 : Run :=
  with_status run2 (started_status (working run2 Started "Running") "agentrun-ar-1" run2).
Definition run4 (phase : string) : Run :=
  with_status run3 (sync_status (working run3 Started phase) (workflow_state phase) (run_Status run3)).1.

Definition cluster_of (r : Run) (open : bool) (n : nat) : cluster :=
  {| c_run := Some r; c_open := open; c_starts := n; c_cancels := []; c_behind := []; c_fresh := true |}.

(** The versions that were stored before are left behind until the cache has seen them. *)
Definition leaving (rs : list Run) (c : cluster) : cluster :=
  {| c_run := c_run c; c_open := c_open c; c_starts := c_starts c; c_cancels := c_cancels c; c_behind := rs;
     c_fresh := c_fresh c |}.

Lemma cache_follows rs c : c_behind c = [] -> rtc (step sample_config) (leaving rs c) c.
Proof.
  intros Hb. induction rs as [|r rs IH].
  - destruct c. simpl in Hb. subst. apply rtc_refl.
  - eapply rtc_l; [apply step_watch|exact IH].
Qed.

Lemma run0_fresh : fresh run0.
Proof. split_and!; [by intros []|done|done]. Qed.

(** The three reconciles, each with the cache up to date. *)
Lemma finalizer_steps : rtc (step sample_config) (created run0) (cluster_of run1 false 0).
Proof.
  eapply rtc_l; [|exact (cache_follows [run0] (cluster_of run1 false 0) eq_refl)].
  eapply (step_reconcile _ _ _ run0 (working run0 Started "Running")); [reflexivity|].
  eapply serves_cons; [|apply serves_nil].
  exact (serve_update (created run0) run0 run1 eq_refl eq_refl).
Qed.

Lemma start_serves (open : bool) (n : nat) :
  serves (cluster_of run1 open n)
    (Reconcile sample_config
       (working run2 (if open then AlreadyStarted else Started) "Running") (Found run1)).1
    (leaving [run1; run2] (cluster_of run3 true (if open then n else S n))).
Proof.
  destruct open.
  - eapply serves_cons; [by apply serve_started|].
    eapply serves_cons; [exact (serve_update (cluster_of run1 true n) run1 run2 eq_refl eq_refl)|].
    eapply serves_cons; [by apply serve_refetch|].
    eapply serves_cons; [exact (serve_status (leaving [run1] (cluster_of run2 true n)) run2 run3 eq_refl eq_refl)|].
    eapply serves_cons; [apply serve_publish|]. apply serves_nil.
  - eapply serves_cons; [by apply serve_start|].
    eapply serves_cons; [exact (serve_update (cluster_of run1 true (S n)) run1 run2 eq_refl eq_refl)|].
    eapply serves_cons; [by apply serve_refetch|].
    eapply serves_cons; [exact (serve_status (leaving [run1] (cluster_of run2 true (S n))) run2 run3 eq_refl eq_refl)|].
    eapply serves_cons; [apply serve_publish|]. apply serves_nil.
Qed.

Lemma start_step : step sample_config (cluster_of run1 false 0) (leaving [run1; run2] (cluster_of run3 true 1)).
Proof. by eapply step_reconcile, (start_serves false 0). Qed.

Lemma sync_serves (phase : string) :
  phase = "Succeeded" \/ phase = "WaitingForInput" ->
  serves (cluster_of run3 true 1)
    (Reconcile sample_config (working run3 Started phase) (Found run3)).1
    (leaving [run3] (cluster_of (run4 phase) true 1)).
Proof.
  intros Hp.
  assert ((Reconcile sample_config (working run3 Started phase) (Found run3)).1 =
    [CStatus (run4 phase) (Ok (run4 phase));
     CPublish "ar-1" (if String.eqb phase "Succeeded" then RunCompleted else PhaseChanged) phase]) as ->
    by (destruct Hp as [-> | ->]; by vm_compute).
  eapply serves_cons; [exact (serve_status (cluster_of run3 true 1) run3 (run4 phase) eq_refl eq_refl)|].
  eapply serves_cons; [apply serve_publish|]. apply serves_nil.
Qed.

Lemma sync_step : step sample_config (cluster_of run3 true 1) (leaving [run3] (cluster_of (run4 "Succeeded") true 1)).
Proof. eapply step_reconcile; [reflexivity|]. apply sync_serves. by left. Qed.

Lemma sync_steps : rtc (step sample_config) (cluster_of run3 true 1) (cluster_of (run4 "Succeeded") true 1).
Proof. eapply rtc_l; [apply sync_step|]. by apply cache_follows. Qed.

Lemma started_reach : rtc (step sample_config) (created run0) (cluster_of run3 true 1).
Proof.
  etrans; [apply finalizer_steps|]. eapply rtc_l; [apply start_step|]. by apply cache_follows.
Qed.

Lemma ended_reach : rtc (step sample_config) (created run0) (cluster_of (run4 "Succeeded") true 1).
Proof. etrans; [apply started_reach|]. apply sync_steps. Qed.

Lemma run3_recorded : recorded run3.
Proof. by vm_compute. Qed.

Lemma run1_startable : startable run1.
Proof. split_and!; [by left|done|done|by intros []]. Qed.

Lemma run3_followed : followed run3.
Proof. split_and!; [by left|done|done|apply run3_recorded|done]. Qed.

(** ** Witnesses *)

Lemma run_started_once_witness :
  exists c', rtc (step sample_config) (cluster_of run3 true 1) c' /\ c_starts c' = 1%nat.
Proof.
  exists (cluster_of (run4 "Succeeded") true 1). split; [apply sync_steps|].
  exact (proj1 (run_started_once sample_config (cluster_of run3 true 1) _ run3 eq_refl
    run3_recorded (Forall_nil_2 _) sync_steps)).
Defined.

Lemma run_starts_guarded_witness :
  exists r, c_run (cluster_of run1 false 0) = Some r /\ startable r.
Proof.
  destruct (run_starts_guarded sample_config (cluster_of run1 false 0) (leaving [run1; run2] (cluster_of run3 true 1))
    start_step ltac:(done)) as (r & Hr & Hs & _).
  destruct Hr as [Hr|[_ Hr]]; [by apply elem_of_nil in Hr|]. exists r. by split.
Defined.

Lemma run_course_invariant_witness : is_Some (st_CompletedAt (run_Status (run4 "Succeeded"))).
Proof.
  apply (proj1 (run_course_invariant sample_config run0 (run4 "Succeeded") _ run0_fresh
    ended_reach eq_refl)). done.
Defined.

Lemma terminal_absorbing_witness :
  same_course (run_Status (run4 "Succeeded")) (run_Status (run4 "Succeeded")).
Proof.
  exact (terminal_absorbing sample_config run0 (run4 "Succeeded") (cluster_of (run4 "Succeeded") true 1)
    (closed (cluster_of (run4 "Succeeded") true 1)) run0_fresh ended_reach eq_refl eq_refl
    (rtc_once _ _ (step_close _ _)) (run4 "Succeeded") eq_refl).
Defined.

(** The deletion of the started run. *)
Definition run3_deleted : Run := with_meta run3 (marked_deleted (run_Meta run3)).
Definition cluster_deleted : cluster := cluster_of run3_deleted true 1.
Definition cluster_gone : cluster :=
  {| c_run := None; c_open := true; c_starts := 1; c_cancels := ["agentrun-ar-1"]; c_behind := [run3_deleted]; c_fresh := true |}.

Lemma gone_reach : rtc (step sample_config) (cluster_of run3 true 1) cluster_gone.
Proof.
  eapply rtc_l; [exact (step_delete _ (cluster_of run3 true 1) run3 eq_refl)|].
  change (with_run _ _) with (leaving [run3] cluster_deleted).
  etrans; [by apply cache_follows|]. apply rtc_once.
  eapply (step_reconcile _ _ _ run3_deleted (working run3_deleted Started "Running")); [reflexivity|].
  eapply serves_cons; [apply serve_cancel|].
  eapply serves_cons; [|apply serves_nil].
  exact (serve_update (cancelled cluster_deleted "agentrun-ar-1") run3_deleted
    (with_meta run3_deleted (with_finalizers (run_Meta run3_deleted) [])) eq_refl eq_refl).
Qed.

Lemma recorded_cancelled_witness : asked_since (cluster_of run3 true 1) cluster_gone "agentrun-ar-1".
Proof.
  exact (recorded_cancelled sample_config (cluster_of run3 true 1) cluster_gone run3 eq_refl
    run3_recorded (list_elem_of_here _ _) gone_reach eq_refl).
Defined.

(** While the cache is behind, a run may be started again: the workflow is recorded and over, and the controller reads the version before;
    the API server refuses to store what it makes of that. *)
Example old_version_starts_again :
  let over := leaving [run1; run2] (cluster_of run3 false 1) in
  exists c', rtc (step sample_config) (created run0) over /\ step sample_config over c' /\ c_run c' = Some run3 /\ c_starts c' = 2%nat.
Proof.
  cbv zeta. eexists. split; [|split].
  - etrans; [apply finalizer_steps|]. eapply rtc_l; [apply start_step|]. apply rtc_once.
    exact (step_close _ (leaving [run1; run2] (cluster_of run3 true 1))).
  - eapply (step_reconcile _ _ _ run1 {| sv_now := 100; sv_update _ _ := Err "conflict"; sv_status _ _ := Err "conflict";
      sv_refetch := Ok run1; sv_delete _ _ := NotFound; sv_project := sample_reads; sv_execute _ _ := Started;
      sv_query _ := QueryFails; sv_describe _ := Err "gone" |}); [reflexivity|].
    eapply serves_cons; [by apply serve_start|]. eapply serves_cons; [apply serve_update_fails|]. apply serves_nil.
  - by split.
Qed.

Lemma resumed_ok :
  Forall succeeded (Reconcile sample_config (working run2 AlreadyStarted "Running") (Found run1)).1.
Proof. vm_compute. by repeat constructor. Qed.

Lemma synced_ok :
  Forall succeeded (Reconcile sample_config (working run3 Started "WaitingForInput") (Found run3)).1.
Proof. vm_compute. by repeat constructor. Qed.

Lemma interrupted_start_recovers_witness :
  exists r', c_run (cluster_of run3 true 1) = Some r' /\ running_as run1 r'.
Proof.
  exact (proj2 (proj2 (interrupted_start_recovers sample_config (working run2 AlreadyStarted "Running")
    (cluster_of run1 true 1) (leaving [run1; run2] (cluster_of run3 true 1)) run1 eq_refl run1_startable eq_refl
    resumed_ok (start_serves true 1)))).
Defined.

Lemma sync_follows_workflow_witness :
  Reconcile sample_config (working run3 Started "WaitingForInput")
    (Found (with_status run3 (mirrored (working run3 Started "WaitingForInput")
       (workflow_state "WaitingForInput") (run_Status run3)))) =
  mret (requeue_after reconcileInterval).
Proof.
  exact (proj2 (proj2 (sync_follows_workflow sample_config
    (working run3 Started "WaitingForInput") (working run3 Started "WaitingForInput")
    (workflow_state "WaitingForInput") (cluster_of run3 true 1) (leaving [run3] (cluster_of (run4 "WaitingForInput") true 1))
    run3 eq_refl run3_followed eq_refl eq_refl eq_refl synced_ok
    (sync_serves "WaitingForInput" (or_intror eq_refl))))).
Defined.

Lemma resolve_idempotent_witness :
  let s := sample_spec "shop" in
  let s' := (ResolveProjectDefaults sample_reads s).1 in
  own_fields_kept s s' /\ rs_SpecContent s' = "# Login" /\ rs_TTLSeconds s' = 600 /\
  ResolveProjectDefaults sample_reads s' = (s', Ok "ssh://soft/shop").
Proof.
  cbn zeta.
  destruct (resolve_idempotent sample_reads (sample_spec "shop")
    (ResolveProjectDefaults sample_reads (sample_spec "shop")).1 "ssh://soft/shop" eq_refl) as [H1 H2].
  by split_and!.
Defined.

Definition a_week_later : services :=
  {| sv_now := 700000; sv_update _ r' := Ok r'; sv_status _ r' := Ok r'; sv_refetch := Ok run3;
     sv_delete _ _ := NotFound; sv_project := sample_reads; sv_execute _ _ := Started;
     sv_query _ := QueryFails; sv_describe _ := Err "gone" |}.

Definition ended : Run :=
  with_status run2 (set_CompletedAt (Some 100) (set_Phase AgentRunPhaseSucceeded sample_status)).

Lemma cleanup_calls :
  (cleanupExpiredRuns sample_config a_week_later (Ok [run2; ended])).1 =
  [CDelete "PersistentVolumeClaim" "aot-ws-ar-1";
   CUpdate (annotate ended annotationArchived "true") (Ok (annotate ended annotationArchived "true"))].
Proof. by vm_compute. Qed.

Lemma cleanup_only_overdue_witness :
  exists r, r ∈ [run2; ended] /\ overdue sample_config a_week_later r.
Proof.
  assert (CDelete "PersistentVolumeClaim" "aot-ws-ar-1" ∈
    (cleanupExpiredRuns sample_config a_week_later (Ok [run2; ended])).1) as Hin
    by (rewrite cleanup_calls; by left).
  destruct (cleanup_only_overdue sample_config a_week_later [run2; ended] _ ltac:(by vm_compute) Hin)
    as (r & Hr & Ho & _).
  by exists r.
Defined.

Lemma workflow_gets_run_witness :
  startable run1 /\
  wi_Prompt (BuildWorkflowInput run1 "http://llm" "gh") = "fix it".
Proof.
  destruct (workflow_gets_run sample_config (working run2 Started "Running") ltac:(by intros ? ? ? [= <-])
    run1 "agentrun-ar-1" "aot-agent-runs" (BuildWorkflowInput run1 "http://llm" "gh") Started
    (list_elem_of_here _ _)) as (H & _ & _ & _ & Hp & _).
  by split.
Defined.
