(* ===== verification/ProjectController.v ===== *)
(** * The Project controller: [internal/controller/project_controller.go].

    A project gets a config repository on the soft-serve server, with scaffolded files.
    The reconciler is a handler over the answers of the API server and of soft-serve,
    which may not be configured: then the interface is [nil], and a call through it
    panics. *)

From S2P Require Import Prelude GoStrings ApiTypes Kube RunController.

(** ** Calls and results *)

(** What a reconcile ends with: a result, or a panic. *)
Inductive presult := Returns (r : ctrl_result) | Panics.

Inductive pcall :=
| PUpdate (p : Project) (a : result unit)
| PStatus (p : Project) (a : result unit)
| PExists (name : string) (a : result bool)
| PCreate (name : string) (a : result unit)
| PScaffold (name : string) (packages : list string) (a : result unit)
| PDelete (name : string) (a : result unit).

(** [internal/softserve/interface.go:5-22] RepoManager: the methods the controller calls *)
Record RepoManager := {
  rm_DeleteRepo : string -> result unit;
  rm_RepoExists : string -> result bool;
  rm_CreateRepo : string -> result unit;
  rm_ScaffoldAndPush : string -> list string -> result unit;
  rm_CloneURL : string -> string;
}.

Record pservices := {
  ps_now : time;
  ps_update : Project -> result unit;
  ps_status : Project -> result unit;
  ps_softserve : option RepoManager;
}.

(** [internal/controller/project_controller.go:166-166] projectFinalizerName *)
Definition projectFinalizerName : string := "aot.uncworks.io/project-finalizer".

(** [internal/controller/project_controller.go:168-175] containsFinalizer *)
Definition containsFinalizer (finalizers : list string) (name : string) : bool :=
  existsb (fun f => String.eqb f name) finalizers.

(** [internal/controller/project_controller.go:177-185] removeFinalizer *)
Definition removeFinalizer (finalizers : list string) (name : string) : list string :=
  foldl (fun result f => if negb (String.eqb f name) then result ++ [f] else result) [] finalizers.

Definition project_name (p : Project) : string := m_Name (pj_Meta p).

(** Assignments to the project. *)
Definition set_finalizers (p : Project) (fs : list string) : Project :=
  {| pj_Meta := with_finalizers (pj_Meta p) fs; pj_DisplayName := pj_DisplayName p;
     pj_Repos := pj_Repos p; pj_Packages := pj_Packages p; pj_Defaults := pj_Defaults p;
     pj_ConfigRepoReady := pj_ConfigRepoReady p; pj_ConfigRepoURL := pj_ConfigRepoURL p;
     pj_Conditions := pj_Conditions p |}.
Definition set_ready (p : Project) (url : string) : Project :=
  {| pj_Meta := pj_Meta p; pj_DisplayName := pj_DisplayName p;
     pj_Repos := pj_Repos p; pj_Packages := pj_Packages p; pj_Defaults := pj_Defaults p;
     pj_ConfigRepoReady := true; pj_ConfigRepoURL := url; pj_Conditions := pj_Conditions p |}.
Definition set_conditions (p : Project) (cs : list Condition) : Project :=
  {| pj_Meta := pj_Meta p; pj_DisplayName := pj_DisplayName p;
     pj_Repos := pj_Repos p; pj_Packages := pj_Packages p; pj_Defaults := pj_Defaults p;
     pj_ConfigRepoReady := pj_ConfigRepoReady p; pj_ConfigRepoURL := pj_ConfigRepoURL p;
     pj_Conditions := cs |}.

Section project.
Context {U : ControllerUtil}.
Variable sv : pservices.

Notation H := (handler pcall presult).

Definition done_ : presult := Returns no_requeue.

(** A write, and the write whose error ends the reconcile. *)
Definition write_project (p : Project) : H unit :=
  let a := ps_update sv p in
  emit (PUpdate p a);;
  match a with Ok _ => mret tt | Err e => return_ (Returns (Err ("reconcile: " +:+ e))) end.
Definition write_status (p : Project) : H (result unit) :=
  emit (PStatus p (ps_status sv p));; mret (ps_status sv p).

(** The condition of the config repository, set now. *)
Definition repo_condition (status : bool) (reason message : string) (p : Project) : Project :=
  set_conditions p (SetStatusCondition (pj_Conditions p)
    {| cd_Type := "ConfigRepoReady"; cd_Status := status; cd_Reason := reason;
       cd_Message := message; cd_LastTransitionTime := ps_now sv |}).

(** [internal/controller/project_controller.go:72-89] Reconcile: a failure is recorded in the
    status and returned; the same for the three failures of the creation *)
Definition repo_failed {A} (reason e : string) (p : Project) : H A :=
  _ ← write_status (repo_condition false reason e p);
  return_ (Returns (Err ("reconcile: " +:+ e))).

(** [internal/controller/project_controller.go:40-54] Reconcile: deletion *)
Definition project_deletion (p : Project) : H presult :=
  if containsFinalizer (m_Finalizers (pj_Meta p)) projectFinalizerName then
    match ps_softserve sv with
    | None => return_ Panics
    | Some ss =>
        emit (PDelete (project_name p) (rm_DeleteRepo ss (project_name p)));;
        write_project (set_finalizers p
          (removeFinalizer (m_Finalizers (pj_Meta p)) projectFinalizerName));;
        mret done_
    end
  else mret done_.

(** [internal/controller/project_controller.go:71-134] Reconcile: the repository is created and
    scaffolded unless it exists *)
Definition ensure_repo (ss : RepoManager) (p : Project) : H unit :=
  let name := project_name p in
  emit (PExists name (rm_RepoExists ss name));;
  match rm_RepoExists ss name with
  | Err e => repo_failed "RepoExistenceCheckFailed" e p
  | Ok true => mret tt
  | Ok false =>
      emit (PCreate name (rm_CreateRepo ss name));;
      match rm_CreateRepo ss name with
      | Err e => repo_failed "CreateFailed" e p
      | Ok _ =>
          let packages := default [] (pj_Packages p) in
          emit (PScaffold name packages (rm_ScaffoldAndPush ss name packages));;
          match rm_ScaffoldAndPush ss name packages with
          | Err e => repo_failed "ScaffoldFailed" e p
          | Ok _ => mret tt
          end
      end
  end.

(** [internal/controller/project_controller.go:67-151] Reconcile: the repository *)
Definition project_repo (p : Project) : H presult :=
  match ps_softserve sv with
  | None => mret done_
  | Some ss =>
      if pj_ConfigRepoReady p then mret done_
      else
        ensure_repo ss p;;
        let p := set_ready p (rm_CloneURL ss (project_name p)) in
        let p := repo_condition true "RepoCreated"
                   ("Config repo created at " +:+ pj_ConfigRepoURL p) p in
        a ← write_status p;
        match a with
        | Ok _ => mret done_
        | Err e => return_ (Returns (Err ("reconcile: " +:+ e)))
        end
  end.

(** [internal/controller/project_controller.go:40-153] Reconcile: the project that was read *)
Definition reconcile_project (p : Project) : H presult :=
  if m_Deleted (pj_Meta p) then project_deletion p
  else if negb (containsFinalizer (m_Finalizers (pj_Meta p)) projectFinalizerName) then
    write_project (set_finalizers p (m_Finalizers (pj_Meta p) ++ [projectFinalizerName]));;
    mret done_
  else project_repo p.

(** [internal/controller/project_controller.go:26-154] Reconcile *)
Definition ReconcileProject (got : get_result Project) : H presult :=
  match got with
  | NotFound => mret done_
  | GetError e => mret (Returns (Err ("reconcile: " +:+ e)))
  | Found p => reconcile_project p
  end.
End project.

(** ** What readiness says *)

Section ready.
Context {U : ControllerUtil}.
Variables (sv : pservices) (p : Project).

(** The repository was found, or created and scaffolded. *)
Definition repo_evidence (es : list pcall) : Prop :=
  PExists (project_name p) (Ok true) ∈ es \/
  exists packages, PCreate (project_name p) (Ok tt) ∈ es /\
                   PScaffold (project_name p) packages (Ok tt) ∈ es.

Definition readies (e : pcall) : Prop :=
  match e with PStatus q _ => pj_ConfigRepoReady q = true | _ => False end.

Ltac unready :=
  repeat (apply Forall_cons; split; [simpl; try congruence; by intros []|]); by apply Forall_nil_2.

Lemma ensure_repo_evidence ss :
  pj_ConfigRepoReady p = false ->
  match ensure_repo sv ss p with
  | (es, inl _) => repo_evidence es /\ Forall (fun e => ~ readies e) es
  | (es, inr _) => Forall (fun e => ~ readies e) es
  end.
Proof.
  intros Hr. unfold ensure_repo, repo_failed, write_status. simpl.
  destruct (rm_RepoExists ss (project_name p)) as [[]|e]; simpl.
  - split; [left; by left|]. unready.
  - destruct (rm_CreateRepo ss _) as [[]|e]; simpl; [|unready].
    destruct (rm_ScaffoldAndPush ss _ _) as [[]|e] eqn:Es; simpl; [|unready].
    split; [|unready]. right. exists (default [] (pj_Packages p)). split; set_solver.
  - unready.
Qed.

Lemma bind_calls {A B} (m : handler pcall presult A) (k : A -> handler pcall presult B) es a :
  m = (es, inl a) -> (m ≫= k).1 = es ++ (k a).1.
Proof. by intros ->. Qed.

(** A project is marked ready with a reason.  A reconcile writes a ready status for a
    project that was not ready only after soft-serve reported the repository as existing,
    or after it created and scaffolded the repository; and no project is marked ready while
    it is being deleted or lacks the finalizer. *)
Theorem project_ready_evidence (e : pcall)
    (Hold : pj_ConfigRepoReady p = false)
    (Hcall : e ∈ (ReconcileProject sv (Found p)).1) (Hready : readies e) :
  m_Deleted (pj_Meta p) = false /\
  containsFinalizer (m_Finalizers (pj_Meta p)) projectFinalizerName = true /\
  repo_evidence (ReconcileProject sv (Found p)).1.
Proof.
  revert Hcall. simpl. unfold reconcile_project.
  destruct (m_Deleted (pj_Meta p)) eqn:Hd.
  { unfold project_deletion, write_project. intros Hin. exfalso.
    destruct (containsFinalizer _ _); [|by apply elem_of_nil in Hin].
    destruct (ps_softserve sv); [|by apply elem_of_nil in Hin]. simpl in Hin.
    destruct (ps_update sv _); simpl in Hin;
      repeat (apply elem_of_cons in Hin as [->|Hin]; [done|]); by apply elem_of_nil in Hin. }
  destruct (containsFinalizer _ _) eqn:Hf; simpl.
  2: { unfold write_project. intros Hin. exfalso. simpl in Hin.
       destruct (ps_update sv _); simpl in Hin; apply list_elem_of_singleton in Hin; by subst. }
  intros Hin. split_and!; [done|done|]. unfold project_repo in *.
  destruct (ps_softserve sv) as [ss|]; [|by apply elem_of_nil in Hin]. rewrite Hold in *.
  pose proof (ensure_repo_evidence ss Hold) as Hev.
  destruct (ensure_repo sv ss p) as [es [[]|r]] eqn:Ee.
  - rewrite (bind_calls _ _ es tt) by done. destruct Hev as [[Hx|(pk & Hc & Hs)] _].
    + left. apply elem_of_app. by left.
    + right. exists pk. split; apply elem_of_app; by left.
  - exfalso. simpl in Hin. rewrite Forall_forall in Hev. by apply (Hev e Hin).
Qed.
End ready.

(** ** A failed scaffold is not seen again

    The first reconcile creates the repository and fails to scaffold it; the second finds
    the repository and marks the project ready, without files in it. *)

Definition bare_project (fs : list string) (deleted : bool) : Project :=
  {| pj_Meta := {| m_Name := "shop"; m_Namespace := "aot"; m_Labels := ∅; m_Annotations := ∅;
                   m_Finalizers := fs; m_Deleted := deleted; m_Created := 0%Z |};
     pj_DisplayName := "Shop"; pj_Repos := []; pj_Packages := Some ["go"]; pj_Defaults := None;
     pj_ConfigRepoReady := false; pj_ConfigRepoURL := ""; pj_Conditions := [] |}.

Definition soft_serve (exists_ : bool) (scaffold : result unit) : RepoManager :=
  {| rm_DeleteRepo _ := Ok tt; rm_RepoExists _ := Ok exists_; rm_CreateRepo _ := Ok tt;
     rm_ScaffoldAndPush _ _ := scaffold; rm_CloneURL n := "ssh://soft/" +:+ n |}.

Definition psample (ss : option RepoManager) : pservices :=
  {| ps_now := 5%Z; ps_update _ := Ok tt; ps_status _ := Ok tt; ps_softserve := ss |}.

Lemma project_ready_evidence_witness :
  repo_evidence (bare_project [projectFinalizerName] false)
    (ReconcileProject (psample (Some (soft_serve true (Ok tt))))
       (Found (bare_project [projectFinalizerName] false))).1.
Proof.
  refine (proj2 (proj2 (project_ready_evidence (psample (Some (soft_serve true (Ok tt))))
    (bare_project [projectFinalizerName] false) _ eq_refl _ _))).
  - right. left.
  - done.
Defined.

Lemma scaffold_failure_masked :
  let p := bare_project [projectFinalizerName] false in
  (ReconcileProject (psample (Some (soft_serve false (Err "push rejected")))) (Found p)).2 =
    inr (Returns (Err "reconcile: push rejected")) /\
  exists q, (ReconcileProject (psample (Some (soft_serve true (Err "push rejected")))) (Found p)).1 =
    [PExists "shop" (Ok true); PStatus q (Ok tt)] /\ pj_ConfigRepoReady q = true.
Proof. split; [done|]. eexists. by split. Qed.

(** Without soft-serve a project that holds the finalizer cannot be deleted: the
    reconciler panics. *)
Lemma deletion_without_softserve_panics `{ControllerUtil} sv p :
  ps_softserve sv = None -> m_Deleted (pj_Meta p) = true ->
  containsFinalizer (m_Finalizers (pj_Meta p)) projectFinalizerName = true ->
  outcome (ReconcileProject sv (Found p)) = Panics.
Proof.
  intros Hs Hd Hf. unfold outcome. simpl. unfold reconcile_project, project_deletion.
  by rewrite Hd, Hf, Hs.
Qed.
