(* ===== verification/ScheduleController.v ===== *)
(** * The Schedule controller: [internal/controller/schedule_controller.go].

    A schedule creates a chain run or an agent run when its cron expression says so.  The
    cron library is a parameter: what it makes of an expression is a function from a time to
    the next one, the zero time when there is none.  Times are in seconds. *)

From S2P Require Import Prelude GoStrings ApiTypes Kube RunController.

Local Open Scope Z_scope.

(** ** The schedule *)

(** [api/v1alpha1/schedule_types.go:9-49] ScheduleSpec *)
Record ScheduleSpec := {
  sp_DisplayName : string; sp_Cron : string; sp_Timezone : string; sp_Suspend : bool;
  sp_ConcurrencyPolicy : string; sp_ChainRef : string; sp_TemplateRef : string;
  sp_SuccessfulRunsHistoryLimit : Z; sp_FailedRunsHistoryLimit : Z;
}.

(** [api/v1alpha1/schedule_types.go:52-72] ScheduleStatus *)
Record ScheduleStatus := {
  sx_LastScheduledTime : option time; sx_LastRunID : string; sx_LastResult : string;
  sx_NextScheduleTime : option time; sx_Active : list string;
}.

(** [api/v1alpha1/schedule_types.go:82-87] Schedule *)
Record Schedule := { sd_Meta : ObjectMeta; sd_Spec : ScheduleSpec; sd_Status : ScheduleStatus }.

Definition with_sched_status (s : Schedule) (st : ScheduleStatus) : Schedule :=
  {| sd_Meta := sd_Meta s; sd_Spec := sd_Spec s; sd_Status := st |}.

Definition set_Active (ids : list string) (st : ScheduleStatus) : ScheduleStatus :=
  {| sx_LastScheduledTime := sx_LastScheduledTime st; sx_LastRunID := sx_LastRunID st;
     sx_LastResult := sx_LastResult st; sx_NextScheduleTime := sx_NextScheduleTime st;
     sx_Active := ids |}.
Definition set_Next (t : time) (st : ScheduleStatus) : ScheduleStatus :=
  {| sx_LastScheduledTime := sx_LastScheduledTime st; sx_LastRunID := sx_LastRunID st;
     sx_LastResult := sx_LastResult st; sx_NextScheduleTime := Some t;
     sx_Active := sx_Active st |}.

(** A chain run as the controller submits it. *)
Record NewChainRun := {
  nc_GenerateName : string; nc_Namespace : string; nc_ChainRef : string;
  nc_TriggeredBy : string; nc_Owner : option string;
}.

Inductive scall :=
| SStatus (s : Schedule) (a : result unit)
| SDelete (kind name : string)
| SCreateChainRun (r : NewChainRun) (a : result string)
| SCreateRun (r : NewAgentRun) (a : result string)
| STemplateStatus (template : string) (st : RunTemplateStatus).

Record sservices := {
  ss_now : time;
  (** the expression's next time after a given one *)
  ss_parse : string -> result (time -> time);
  (** the phase of a chain run and of an agent run *)
  ss_chainrun : string -> get_result string;
  ss_agentrun : string -> get_result AgentRunPhase;
  ss_template : string -> get_result RunTemplate;
  ss_set_owner : bool;
  ss_create_chainrun : NewChainRun -> result string;
  ss_create_run : NewAgentRun -> result string;
  (** the answers to the writes of the status, the prune's and the last *)
  ss_status_pruned : result unit;
  ss_status : result unit;
}.

(** The year 1: the zero [time.Time]. *)
Definition zero_time : time := -62135596800.

Section schedule.
Variable sv : sservices.

Notation H := (handler scall ctrl_result).

(** [internal/controller/schedule_controller.go:222-244] pruneActiveList: whether a run stays
    in the list *)
Definition still_active (id : string) : bool :=
  match ss_chainrun sv id with
  | Found phase =>
      negb (String.eqb phase ChainRunPhaseSucceeded || String.eqb phase ChainRunPhaseFailed ||
            String.eqb phase ChainRunPhaseCancelled)
  | _ =>
      match ss_agentrun sv id with
      | Found phase => negb (isTerminal phase)
      | NotFound => false
      | GetError _ => true
      end
  end.

(** [internal/controller/schedule_controller.go:214-251] pruneActiveList *)
Definition pruneActiveList (active : list string) : list string * bool :=
  foldl (fun acc id => if still_active id then (acc.1 ++ [id], acc.2) else (acc.1, true))
    ([], false) active.

(** [internal/controller/schedule_controller.go:50-63] Reconcile: the active list is pruned *)
Definition prune (s : Schedule) : H Schedule :=
  if Nat.eqb (length (sx_Active (sd_Status s))) 0 then mret s
  else
    let '(active, changed) := pruneActiveList (sx_Active (sd_Status s)) in
    if (changed : bool) then
      let s := with_sched_status s (set_Active active (sd_Status s)) in
      emit (SStatus s (ss_status_pruned sv));;
      match ss_status_pruned sv with
      | Ok _ => mret s
      | Err e => return_ (Err ("updating schedule status: " +:+ e))
      end
    else mret s.

(** [internal/controller/schedule_controller.go:107-127] Reconcile: the active runs are
    replaced; the objects that are found are deleted *)
Definition replace_active (active : list string) : H unit :=
  (omap (fun id =>
    match ss_chainrun sv id with
    | Found _ => Some (SDelete "ChainRun" id)
    | _ => match ss_agentrun sv id with
           | Found _ => Some (SDelete "AgentRun" id)
           | _ => None
           end
    end) active, inl tt).

Definition owner (s : Schedule) : option string :=
  if ss_set_owner sv then Some (m_Name (sd_Meta s)) else None.

(** [internal/controller/schedule_controller.go:134-150] Reconcile: a chain run is created *)
Definition fire_chain (s : Schedule) : H string :=
  let r := {| nc_GenerateName := "cr-"; nc_Namespace := m_Namespace (sd_Meta s);
              nc_ChainRef := sp_ChainRef (sd_Spec s);
              nc_TriggeredBy := "schedule:" +:+ m_Name (sd_Meta s); nc_Owner := owner s |} in
  emit (SCreateChainRun r (ss_create_chainrun sv r));;
  match ss_create_chainrun sv r with
  | Ok name => mret name
  | Err e => return_ (Err ("create chain run: " +:+ e))
  end.

(** [internal/controller/schedule_controller.go:157-179] Reconcile: the agent run of a template *)
Definition template_run (s : Schedule) (tmpl : RunTemplate) : NewAgentRun :=
  let t := tmpl_Spec tmpl in
  {| nr_GenerateName := "ar-"; nr_Namespace := m_Namespace (sd_Meta s);
     nr_Spec :=
       {| rs_Backend := BackendPod; rs_Repos := ts_Repos t; rs_Prompt := ts_Prompt t;
          rs_DevboxConfig := ""; rs_TTLSeconds := ts_TTLSeconds t; rs_EnvVars := [];
          rs_Image := ""; rs_ModelTier := ts_ModelTier t;
          rs_ManageModelTier := ts_ManageModelTier t;
          rs_ImplementModelTier := ts_ImplementModelTier t;
          rs_SpecContent := ""; rs_SpecSource := ""; rs_ProjectRef := ts_ProjectRef t;
          rs_SpecRef := ts_SpecRef t; rs_WorkspaceName := ""; rs_ParentRunID := "";
          rs_OrchestrationMode := ts_OrchestrationMode t; rs_Orchestration := None;
          rs_SpecRunID := ""; rs_DisplayName := ""; rs_PipelineConfig := None;
          rs_MaxBudget := 0; rs_AutoPush := ts_AutoPush t; rs_AutoPR := ts_AutoPR t;
          rs_PRBaseBranch := ts_PRBaseBranch t; rs_Project := ""; rs_Feature := "";
          rs_Tags := []; rs_ApprovalMode := ""; rs_OpenspecChange := "" |};
     nr_Labels := [("aot.uncworks.io/template", tmpl_Name tmpl);
                   ("aot.uncworks.io/schedule", m_Name (sd_Meta s))];
     nr_Owner := owner s |}.

(** [internal/controller/schedule_controller.go:151-196] Reconcile: an agent run is created,
    and the template's status counts it *)
Definition fire_template (s : Schedule) : H string :=
  let ref := sp_TemplateRef (sd_Spec s) in
  match ss_template sv ref with
  | NotFound => return_ (Err ("get template " +:+ ref +:+ ": not found"))
  | GetError e => return_ (Err ("get template " +:+ ref +:+ ": " +:+ e))
  | Found tmpl =>
      let r := template_run s tmpl in
      emit (SCreateRun r (ss_create_run sv r));;
      match ss_create_run sv r with
      | Err e => return_ (Err ("create agent run: " +:+ e))
      | Ok name =>
          emit (STemplateStatus (tmpl_Name tmpl)
            {| tt_LastTriggeredAt := Some (ss_now sv);
               tt_RunCount := int32_incr (tt_RunCount (tmpl_Status tmpl)) |});;
          mret name
      end
  end.

(** [internal/controller/schedule_controller.go:198-203] Reconcile: the status of a schedule
    that has fired *)
Definition fired_status (runID : string) (st : ScheduleStatus) : ScheduleStatus :=
  {| sx_LastScheduledTime := Some (ss_now sv); sx_LastRunID := runID;
     sx_LastResult := ScheduleLastResultRunning; sx_NextScheduleTime := sx_NextScheduleTime st;
     sx_Active := sx_Active st ++ [runID] |}.

(** The delay until the next time, and a second. *)
Definition until_next (next : time) : ctrl_result := requeue_after (next - ss_now sv + 1).

(** A write of the status whose error ends the reconcile. *)
Definition write_schedule (s : Schedule) (r : ctrl_result) : H ctrl_result :=
  emit (SStatus s (ss_status sv));;
  match ss_status sv with
  | Ok _ => mret r
  | Err e => return_ (Err ("reconcile: " +:+ e))
  end.

(** [internal/controller/schedule_controller.go:129-209] Reconcile: the schedule fires *)
Definition fire (s : Schedule) (next : time) : H ctrl_result :=
  runID ← (if negb (String.eqb (sp_ChainRef (sd_Spec s)) "") then fire_chain s
           else if negb (String.eqb (sp_TemplateRef (sd_Spec s)) "") then fire_template s
           else mret "");
  write_schedule (with_sched_status s (fired_status runID (sd_Status s))) (until_next next).

(** [internal/controller/schedule_controller.go:99-209] Reconcile: a time was missed *)
Definition missed (s : Schedule) (next : time) : H ctrl_result :=
  let policy := sp_ConcurrencyPolicy (sd_Spec s) in
  let active := sx_Active (sd_Status s) in
  if String.eqb policy "Forbid" && (0 <? length active)%nat then mret (until_next next)
  else if String.eqb policy "Replace" && (0 <? length active)%nat then
    replace_active active;;
    fire (with_sched_status s (set_Active [] (sd_Status s))) next
  else fire s next.

(** The time the schedule last fired, or was created. *)
Definition last_scheduled (s : Schedule) : time :=
  default (m_Created (sd_Meta s)) (sx_LastScheduledTime (sd_Status s)).

(** [internal/controller/schedule_controller.go:65-209] Reconcile: the expression *)
Definition due (s : Schedule) : H ctrl_result :=
  match ss_parse sv (sp_Cron (sd_Spec s)) with
  | Err _ => mret no_requeue
  | Ok next =>
      let nextTime := next (ss_now sv) in
      let missedRun := next (last_scheduled s) in
      let s := with_sched_status s (set_Next nextTime (sd_Status s)) in
      if ss_now sv <? missedRun then write_schedule s (until_next nextTime)
      else missed s nextTime
  end.

(** [internal/controller/schedule_controller.go:27-210] Reconcile *)
Definition ReconcileSchedule (got : get_result Schedule) : H ctrl_result :=
  match got with
  | NotFound => mret no_requeue
  | GetError e => mret (Err ("reconcile: " +:+ e))
  | Found s =>
      if sp_Suspend (sd_Spec s) then mret no_requeue
      else if String.eqb (sp_ChainRef (sd_Spec s)) "" && String.eqb (sp_TemplateRef (sd_Spec s)) ""
      then mret no_requeue
      else s ← prune s; due s
  end.
End schedule.

(** ** When a schedule fires *)

Definition creates (e : scall) : bool :=
  match e with SCreateChainRun _ _ | SCreateRun _ _ => true | _ => false end.

(** The runs that a reconcile creates. *)
Definition creations (m : handler scall ctrl_result ctrl_result) : list scall :=
  List.filter creates m.1.

Section firing.
Variable sv : sservices.

Lemma pruneActiveList_eq active :
  pruneActiveList sv active =
  (List.filter (still_active sv) active, existsb (fun id => negb (still_active sv id)) active).
Proof.
  unfold pruneActiveList.
  assert (forall acc u, foldl (fun acc id => if still_active sv id then (acc.1 ++ [id], acc.2)
    else (acc.1, true)) (acc, u) active = (acc ++ List.filter (still_active sv) active,
    u || existsb (fun id => negb (still_active sv id)) active)) as H.
  { induction active as [|id active IH]; intros acc u; simpl.
    - by rewrite app_nil_r, orb_false_r.
    - destruct (still_active sv id); simpl; rewrite IH.
      + by rewrite <- app_assoc.
      + by rewrite orb_true_r. }
  apply H.
Qed.

(** The schedule as it is in memory after the prune. *)
Definition pruned (s : Schedule) : Schedule :=
  with_sched_status s (set_Active (List.filter (still_active sv) (sx_Active (sd_Status s)))
    (sd_Status s)).

Lemma filter_all {A} (f : A -> bool) l : existsb (fun x => negb (f x)) l = false -> List.filter f l = l.
Proof.
  induction l as [|x l IH]; [done|]. simpl. destruct (f x); simpl; [|done].
  intros H. by rewrite IH.
Qed.

Lemma with_active_id s : with_sched_status s (set_Active (sx_Active (sd_Status s)) (sd_Status s)) = s.
Proof. destruct s as [? ? []]. done. Qed.

(** The prune creates nothing, and goes on with the runs that are still active. *)
Lemma prune_result s :
  List.filter creates (prune sv s).1 = [] /\
  match (prune sv s).2 with inl s' => s' = pruned s | inr r => exists e, r = Err e end.
Proof.
  unfold prune, pruned. destruct (Nat.eqb (length (sx_Active (sd_Status s))) 0) eqn:E.
  - apply Nat.eqb_eq, nil_length_inv in E. split; [done|]. cbn.
    pose proof (with_active_id s) as He. by rewrite E in *.
  - rewrite pruneActiveList_eq. destruct (existsb _ _) eqn:Ex.
    + simpl. destruct (ss_status_pruned sv); simpl; split; try done. by eexists.
    + split; [done|]. cbn. by rewrite filter_all, with_active_id.
Qed.

Lemma filter_bind {A B} (m : handler scall ctrl_result A) (k : A -> handler scall ctrl_result B) :
  List.filter creates (m ≫= k).1 =
  List.filter creates m.1 ++ match m.2 with inl a => List.filter creates (k a).1 | inr _ => [] end.
Proof.
  unfold mbind, handler_bind. destruct m as [es [a|r]]; simpl; [|by rewrite app_nil_r].
  apply List.filter_app.
Qed.

Lemma write_creates s r : List.filter creates (write_schedule sv s r).1 = [].
Proof. unfold write_schedule. simpl. by destruct (ss_status sv). Qed.

Lemma fire_creates s next : (length (List.filter creates (fire sv s next).1) <= 1)%nat.
Proof.
  unfold fire. rewrite filter_bind.
  replace (match _ with inl a => List.filter creates (write_schedule _ _ _).1 | inr _ => [] end)
    with (@nil scall) by (case_match; [by rewrite write_creates|done]).
  rewrite app_nil_r. repeat case_match; unfold fire_chain, fire_template; simpl; try lia.
  - destruct (ss_create_chainrun sv _); simpl; lia.
  - destruct (ss_template sv _); simpl; try lia. destruct (ss_create_run sv _); simpl; lia.
Qed.

Lemma replace_creates active : List.filter creates (replace_active sv active).1 = [].
Proof.
  unfold replace_active. simpl. induction active as [|id l IH]; [done|]. simpl.
  repeat case_match; simplify_eq/=; apply IH.
Qed.

Lemma missed_creates s next : (length (List.filter creates (missed sv s next).1) <= 1)%nat.
Proof.
  unfold missed. case_match; [simpl; lia|]. case_match; [|apply fire_creates].
  rewrite filter_bind, replace_creates. simpl. apply fire_creates.
Qed.

Lemma schedule_due (s : Schedule) :
  let made := creations (ReconcileSchedule sv (Found s)) in
  (length made <= 1)%nat /\
  (made <> [] ->
   sp_Suspend (sd_Spec s) = false /\
   (sp_ChainRef (sd_Spec s) <> "" \/ sp_TemplateRef (sd_Spec s) <> "") /\
   exists next, ss_parse sv (sp_Cron (sd_Spec s)) = Ok next /\
     next (last_scheduled s) <= ss_now sv /\
     (sp_ConcurrencyPolicy (sd_Spec s) = "Forbid" ->
      forall id, id ∈ sx_Active (sd_Status s) -> still_active sv id = false)).
Proof.
  cbn zeta. unfold creations. simpl.
  destruct (sp_Suspend (sd_Spec s)) eqn:Hs; [simpl; split; [lia|done]|].
  destruct (String.eqb (sp_ChainRef _) "" && _) eqn:Hr; [simpl; split; [lia|done]|].
  rewrite filter_bind. destruct (prune_result s) as [-> Hp].
  destruct (prune sv s).2 as [s'|r]; [|simpl; split; [lia|done]]. subst s'. simpl.
  unfold due. simpl. destruct (ss_parse sv _) as [next|e]; [|simpl; split; [lia|done]].
  change (last_scheduled (pruned s)) with (last_scheduled s).
  destruct (ss_now sv <? next (last_scheduled s)) eqn:Hn.
  { rewrite write_creates. simpl. split; [lia|done]. }
  split; [apply missed_creates|]. intros Hne. split; [done|]. split.
  { apply andb_false_iff in Hr as [E|E]; apply String.eqb_neq in E; auto. }
  exists next. apply Z.ltb_ge in Hn. split_and!; [done|done|]. intros Hf id Hid.
  unfold missed in Hne. simpl in Hne. rewrite Hf in Hne. simpl in Hne.
  destruct (still_active sv id) eqn:E; [|done]. exfalso.
  assert (id ∈ List.filter (still_active sv) (sx_Active (sd_Status s))) as Hin.
  { apply list_elem_of_In, filter_In. split; [by apply list_elem_of_In|done]. }
  by destruct (List.filter (still_active sv) (sx_Active (sd_Status s))); [apply elem_of_nil in Hin|].
Qed.

(** A schedule fires when it should.  A reconcile creates at most one run.  When it
    creates one, the schedule is not suspended and names something to run, its expression
    parses, and the first time after the last firing (or the creation) has been reached;
    and under the policy Forbid no run of the active list is still active. *)
Theorem schedule_fires_when_due (s : Schedule) :
  let made := creations (ReconcileSchedule sv (Found s)) in
  (length made <= 1)%nat /\
  (made <> [] ->
   sp_Suspend (sd_Spec s) = false /\
   (sp_ChainRef (sd_Spec s) <> "" \/ sp_TemplateRef (sd_Spec s) <> "") /\
   exists next, ss_parse sv (sp_Cron (sd_Spec s)) = Ok next /\
     next (last_scheduled s) <= ss_now sv /\
     (sp_ConcurrencyPolicy (sd_Spec s) = "Forbid" ->
      forall id, id ∈ sx_Active (sd_Status s) -> still_active sv id = false)).
Proof. apply schedule_due. Qed.

End firing.

(** A schedule does not fire twice for one time.  After a firing at a time [t] has been
    stored, no reconcile before the expression's next time after [t] creates anything. *)
Theorem schedule_no_refire (sv : sservices) (s : Schedule) (next : time -> time) (t : time)
    (Hparse : ss_parse sv (sp_Cron (sd_Spec s)) = Ok next)
    (Hfired : sx_LastScheduledTime (sd_Status s) = Some t)
    (Hbefore : ss_now sv < next t) :
  creations (ReconcileSchedule sv (Found s)) = [].
Proof.
  destruct (schedule_due sv s) as [_ Hdue].
  destruct (creations _) as [|e l] eqn:E; [done|]. exfalso.
  destruct (Hdue ltac:(done)) as (_ & _ & next' & Hp & Hle & _).
  unfold last_scheduled in Hle. rewrite Hfired in Hle. simpl in Hle.
  rewrite Hparse in Hp. injection Hp as <-. lia.
Qed.

(** A schedule whose expression never holds fires without end.  The cron library
    answers the zero time for a date that does not exist; that time is never after now, so
    every reconcile of the schedule creates a run as soon as the policy lets it. *)
Theorem impossible_date_fires (sv : sservices) (s : Schedule)
    (Hsusp : sp_Suspend (sd_Spec s) = false) (Hchain : sp_ChainRef (sd_Spec s) <> "")
    (Hparse : ss_parse sv (sp_Cron (sd_Spec s)) = Ok (fun _ => zero_time))
    (Hnow : 0 <= ss_now sv) (Hactive : sx_Active (sd_Status s) = []) :
  exists r a, creations (ReconcileSchedule sv (Found s)) = [SCreateChainRun r a].
Proof.
  unfold creations. simpl. rewrite Hsusp. apply String.eqb_neq in Hchain as Hc. rewrite Hc. simpl.
  unfold prune. rewrite Hactive. cbn [length Nat.eqb]. rewrite bind_ret. unfold due. rewrite Hparse.
  destruct (ss_now sv <? zero_time) eqn:Hz.
  { apply Z.ltb_lt in Hz. unfold zero_time in Hz. lia. }
  unfold missed. simpl. rewrite Hactive. simpl. rewrite !andb_false_r. unfold fire. simpl.
  rewrite Hc. simpl. unfold fire_chain. simpl.
  destruct (ss_create_chainrun sv _) as [name|e]; simpl; [|by eexists _, _].
  unfold write_schedule. simpl. destruct (ss_status sv); simpl; by eexists _, _.
Qed.

(** Replacing: the runs that were active are deleted, and the new run is the active one. *)
Lemma replace_fires (sv : sservices) (s : Schedule) (next : time) :
  sp_ConcurrencyPolicy (sd_Spec s) = "Replace" -> sx_Active (sd_Status s) <> [] ->
  (missed sv s next).1 =
  (replace_active sv (sx_Active (sd_Status s))).1 ++
  (fire sv (with_sched_status s (set_Active [] (sd_Status s))) next).1.
Proof.
  intros Hp Ha. unfold missed. rewrite Hp. simpl.
  destruct (sx_Active (sd_Status s)) eqn:E; [done|]. simpl. done.
Qed.

(** ** Witnesses: a schedule every ten minutes *)

Definition ten_minutes (t : time) : time := t - t mod 600 + 600.

Definition sample_schedule (policy : string) (last : option time) (active : list string) : Schedule :=
  {| sd_Meta := {| m_Name := "nightly"; m_Namespace := "aot"; m_Labels := ∅; m_Annotations := ∅;
                   m_Finalizers := []; m_Deleted := false; m_Created := 0 |};
     sd_Spec := {| sp_DisplayName := ""; sp_Cron := "*/10 * * * *"; sp_Timezone := "UTC";
                   sp_Suspend := false; sp_ConcurrencyPolicy := policy; sp_ChainRef := "build";
                   sp_TemplateRef := ""; sp_SuccessfulRunsHistoryLimit := 5;
                   sp_FailedRunsHistoryLimit := 3 |};
     sd_Status := {| sx_LastScheduledTime := last; sx_LastRunID := ""; sx_LastResult := "";
                     sx_NextScheduleTime := None; sx_Active := active |} |}.

Definition schedule_services (now : time) (next : time -> time) : sservices :=
  {| ss_now := now; ss_parse _ := Ok next; ss_chainrun _ := Found ChainRunPhaseSucceeded;
     ss_agentrun _ := NotFound; ss_template _ := NotFound; ss_set_owner := true;
     ss_create_chainrun _ := Ok "cr-1"; ss_create_run _ := Ok "ar-1";
     ss_status_pruned := Ok tt; ss_status := Ok tt |}.

Lemma schedule_fires_when_due_witness :
  300 + 300 <= ss_now (schedule_services 1000 ten_minutes).
Proof.
  destruct (schedule_fires_when_due (schedule_services 1000 ten_minutes)
    (sample_schedule "Forbid" (Some 300) ["cr-0"])) as [_ H].
  destruct (H ltac:(done)) as (_ & _ & next & [= <-] & Hle & _). exact Hle.
Defined.

Lemma schedule_no_refire_witness :
  length (creations (ReconcileSchedule (schedule_services 1000 ten_minutes)
    (Found (sample_schedule "Forbid" (Some 300) ["cr-0"])))) = 1%nat /\
  creations (ReconcileSchedule (schedule_services 1100 ten_minutes)
    (Found (sample_schedule "Forbid" (Some 1000) ["cr-0"]))) = [].
Proof.
  split; [done|].
  by apply (schedule_no_refire _ _ ten_minutes 1000).
Defined.

Lemma impossible_date_fires_witness :
  exists r a, creations (ReconcileSchedule (schedule_services 1000 (fun _ => zero_time))
    (Found (sample_schedule "Allow" (Some 999) []))) = [SCreateChainRun r a].
Proof. by apply impossible_date_fires. Defined.
