(* ===== verification/Cache.v ===== *)
(** * The response cache of the web backend: [internal/bff/cache.go].

    The cache is a map of entries with expiry times, pruned in the background.  Its
    abstract specification has no entries: what is read is determined by the history of the
    operations.  The cache refines it, whenever the background loop runs. *)

From S2P Require Import Prelude GoStrings.

Local Open Scope Z_scope.

(** ** The implementation *)

(** [internal/bff/cache.go:8-11] cacheEntry: times in nanoseconds *)
Record cacheEntry := { ce_data : string; ce_expiresAt : Z }.

(** The entries, behind the lock. *)
Notation Cache := (gmap string cacheEntry).

(** [internal/bff/cache.go:21-25] NewCache *)
Definition NewCache : Cache := ∅.

(** [internal/bff/cache.go:28-36] Get, at the time [now] *)
Definition Get (c : Cache) (now : Z) (key : string) : option string :=
  match c !! key with
  | None => None
  | Some entry => if ce_expiresAt entry <? now then None else Some (ce_data entry)
  end.

(** [internal/bff/cache.go:39-43] Set *)
Definition Set_ (c : Cache) (now : Z) (key data : string) (ttl : Z) : Cache :=
  <[key := {| ce_data := data; ce_expiresAt := now + ttl |}]> c.

(** [internal/bff/cache.go:46-54] Invalidate: the entries whose key starts with the prefix are
    deleted, in whatever order the map is ranged over *)
Definition Invalidate (c : Cache) (pre : string) : Cache :=
  filter (fun kv => HasPrefix kv.1 pre = false) c.

(** [internal/bff/cache.go:57-70] cleanup: one tick *)
Definition cleanup_tick (c : Cache) (now : Z) : Cache :=
  filter (fun kv => (ce_expiresAt kv.2 <? now) = false) c.

(** ** Runs

    The operations of all goroutines, in the order in which they take the lock, with the
    time that each reads from the clock. *)

Inductive op :=
| OGet (key : string)
| OSet (key data : string) (ttl : Z)
| OInvalidate (pre : string)
| OCleanup.

Definition perform (c : Cache) (now : Z) (o : op) : Cache * option (option string) :=
  match o with
  | OGet k => (c, Some (Get c now k))
  | OSet k d ttl => (Set_ c now k d ttl, None)
  | OInvalidate p => (Invalidate c p, None)
  | OCleanup => (cleanup_tick c now, None)
  end.

(** What the reads of a run answer. *)
Fixpoint answers (c : Cache) (ops : list (Z * op)) : list (option string) :=
  match ops with
  | [] => []
  | (now, o) :: ops =>
      let '(c', a) := perform c now o in
      match a with Some r => r :: answers c' ops | None => answers c' ops end
  end.

(** ** The specification *)

(** The write of a key that counts, in a history whose newest operation comes first: the
    last one, unless it was invalidated since. *)
Fixpoint latest (key : string) (history : list (Z * op)) : option cacheEntry :=
  match history with
  | [] => None
  | (now, o) :: history =>
      match o with
      | OSet k d ttl => if String.eqb k key then Some {| ce_data := d; ce_expiresAt := now + ttl |}
                        else latest key history
      | OInvalidate p => if HasPrefix key p then None else latest key history
      | OGet _ | OCleanup => latest key history
      end
  end.

(** A read answers the last write until its time is over. *)
Definition read_spec (history : list (Z * op)) (now : Z) (key : string) : option string :=
  match latest key history with
  | Some e => if ce_expiresAt e <? now then None else Some (ce_data e)
  | None => None
  end.

Fixpoint answers_spec (history ops : list (Z * op)) : list (option string) :=
  match ops with
  | [] => []
  | (now, o) :: ops =>
      let rest := answers_spec ((now, o) :: history) ops in
      match o with OGet k => read_spec history now k :: rest | _ => rest end
  end.

(** The clock does not go back. *)
Fixpoint clock_forward (t : Z) (ops : list (Z * op)) : Prop :=
  match ops with [] => True | (now, _) :: ops => t <= now /\ clock_forward now ops end.

(** ** Refinement *)

(** The cache holds the write that counts, or nothing when that has expired. *)
Definition represents (t : Z) (history : list (Z * op)) (c : Cache) : Prop :=
  forall key, c !! key = latest key history \/
    (c !! key = None /\ exists e, latest key history = Some e /\ ce_expiresAt e < t).

Lemma represents_later t t' history c :
  t <= t' -> represents t history c -> represents t' history c.
Proof.
  intros Ht H key. destruct (H key) as [?|(? & e & ? & ?)]; [by left|].
  right. split; [done|]. exists e. split; [done|lia].
Qed.

Lemma represents_read t history c key : represents t history c -> Get c t key = read_spec history t key.
Proof.
  intros H. unfold Get, read_spec. destruct (H key) as [->|(-> & e & -> & He)]; [done|].
  apply Z.ltb_lt in He. by rewrite He.
Qed.

Lemma perform_represents t history c o :
  represents t history c -> represents t ((t, o) :: history) (perform c t o).1.
Proof.
  intros H key. destruct o as [k|k d ttl|p|]; simpl.
  - apply H.
  - unfold Set_. destruct (String.eqb k key) eqn:E.
    + apply String.eqb_eq in E as ->. left. by rewrite lookup_insert_eq.
    + apply String.eqb_neq in E. rewrite lookup_insert_ne by done. apply H.
  - unfold Invalidate. rewrite map_lookup_filter. destruct (HasPrefix key p) eqn:E.
    + left. destruct (c !! key); simpl; [|done]. case_guard; [congruence|done].
    + destruct (H key) as [Hl|(Hn & e & Hl & He)]; [left|right].
      * rewrite <- Hl. destruct (c !! key); simpl; [|done]. case_guard; [done|congruence].
      * rewrite Hn. split; [done|]. by exists e.
  - unfold cleanup_tick. rewrite map_lookup_filter.
    destruct (H key) as [Hl|(Hn & e & Hl & He)].
    + destruct (c !! key) as [e|] eqn:Hc; simpl; [|by left].
      case_guard as Hg; simpl in *; [by left|]. right. split; [done|]. exists e.
      split; [done|]. apply not_false_iff_true, Z.ltb_lt in Hg. done.
    + right. rewrite Hn. split; [done|]. by exists e.
Qed.

Lemma answers_represent t history c ops :
  represents t history c -> clock_forward t ops -> answers c ops = answers_spec history ops.
Proof.
  revert t history c. induction ops as [|[now o] ops IH]; intros t history c H Hck; [done|].
  destruct Hck as [Hle Hck]. apply (represents_later _ now) in H; [|done].
  pose proof (perform_represents _ _ _ o H) as H'. simpl.
  destruct o; simpl in *; rewrite (IH now _ _ H' Hck); [|done..].
  by rewrite (represents_read now history c).
Qed.

(** C30. The cache refines its specification.  Every read of a run answers the last write
    of its key that was not invalidated since, until its time to live is over; where in the
    run the background loop removes entries cannot be observed. *)
Theorem cache_refines (ops : list (Z * op)) (t : Z) (Hclock : clock_forward t ops) :
  answers NewCache ops = answers_spec [] ops.
Proof. apply (answers_represent t); [|done]. intros key. by left. Qed.

Lemma cache_refines_witness :
  answers NewCache
    [(1, OSet "GET /runs" "a" 10); (5, OGet "GET /runs"); (6, OSet "GET /x" "b" 100);
     (20, OGet "GET /runs"); (20, OCleanup); (21, OGet "GET /x"); (22, OInvalidate "GET ");
     (23, OGet "GET /x")] =
  [Some "a"; None; Some "b"; None].
Proof.
  erewrite (cache_refines _ 0); [by vm_compute|]. simpl. lia.
Defined.
