(* ===== verification/RateLimit.v ===== *)
(** * The rate limiter of the API server: [internal/server/ratelimit.go].

    A token bucket per client address, with idle buckets evicted in the background.  The
    bucket of [golang.org/x/time/rate] is an interface; its law is that a bucket left alone
    for long enough is full, and then answers like a new one.  The abstract specification
    has one bucket per address that lives for ever: the limiter refines it when its
    retention, as the 64-bit duration it is computed to, covers the time to refill and what
    can pass between the two clock readings of a request. *)

From S2P Require Import Prelude GoStrings.
Local Open Scope Z_scope.

(** ** Token buckets *)

Class TokenBucket := {
  Rate : Type;
  rate_le0 : Rate -> bool;
  default_rate : Rate;
  Limiter : Type;
  NewLimiter : Rate -> Z -> Limiter;
  (** whether an event may happen now, and the bucket afterwards *)
  AllowAt : Limiter -> Z -> bool * Limiter;
  Tokens : Limiter -> Z -> Z;
}.

Section buckets.
Context {B : TokenBucket}.

(** The answers of a bucket to a sequence of events. *)
Fixpoint bucket_answers (l : Limiter) (times : list Z) : list bool :=
  match times with
  | [] => []
  | t :: times => let '(a, l') := AllowAt l t in a :: bucket_answers l' times
  end.

(** The bucket after them. *)
Definition bucket_after (l : Limiter) (times : list Z) : Limiter :=
  foldl (fun l t => (AllowAt l t).2) l times.

(** The times do not go back, from [t] on. *)
Fixpoint forward (t : Z) (times : list Z) : Prop :=
  match times with [] => True | t' :: times => t <= t' /\ forward t' times end.

(** From [t] on the two buckets answer alike. *)
Definition alike (t : Z) (l l' : Limiter) : Prop :=
  forall times, forward t times -> bucket_answers l times = bucket_answers l' times.
End buckets.

(** [refill r b] is long enough for a bucket to be full again: a bucket whose last event was
    that long ago answers like a new one. *)
Class TokenBucketLaws (B : TokenBucket) (refill : Rate -> Z -> Z) : Prop := {
  bucket_refills r b times last t :
    forward last times -> refill r b <= t - List.last times last ->
    alike t (NewLimiter r b) (bucket_after (NewLimiter r b) times);
}.

(** ** The limiter *)

(** [internal/server/ratelimit.go:18-24] RateLimiterConfig *)
Record RateLimiterConfig `{TokenBucket} := {
  Enabled : bool; RPS : Rate; Burst : Z; TTLMinutes : Z; TrustProxy : bool;
}.

Section limiter.
Context {B : TokenBucket}.

(** [internal/server/ratelimit.go:26-29] ipEntry *)
Record ipEntry := { ie_limiter : Limiter; ie_lastSeen : Z }.

(** The entries, behind the lock. *)
Notation entries := (gmap string ipEntry).

(** [internal/server/ratelimit.go:12-15] defaultBurst *)
Definition defaultBurst : Z := 20.

(** [internal/server/ratelimit.go:43-60] NewRateLimiter: the configuration it works with *)
Definition NewRateLimiter (cfg : RateLimiterConfig) : RateLimiterConfig :=
  {| Enabled := Enabled cfg;
     RPS := if rate_le0 (RPS cfg) then default_rate else RPS cfg;
     Burst := if Burst cfg <=? 0 then defaultBurst else Burst cfg;
     TTLMinutes := TTLMinutes cfg; TrustProxy := TrustProxy cfg |}.

Variable cfg : RateLimiterConfig.

Definition minute : Z := 60 * 1000000000.

(** A 64-bit integer after an operation that may leave its range. *)
Definition wrap_int (z : Z) : Z := (z + 2 ^ 63) mod 2 ^ 64 - 2 ^ 63.

(** [internal/server/ratelimit.go:72-72] sweep: the retention, a product of 64 bits *)
Definition ttl : Z := wrap_int (TTLMinutes cfg * minute).

(** The difference of two times, which stops at the ends of a 64-bit duration. *)
Definition time_sub (t u : Z) : Z := Z.max (- 2 ^ 63) (Z.min (2 ^ 63 - 1) (t - u)).

(** [internal/server/ratelimit.go:71-81] sweep: times in nanoseconds *)
Definition sweep (rl : entries) (now : Z) : entries :=
  filter (fun kv => (ttl <? time_sub now (ie_lastSeen kv.2)) = false) rl.

(** [internal/server/ratelimit.go:85-97] Allow: the clock is read twice, for the entry
    ([seen]) and by the bucket ([now]) *)
Definition Allow (rl : entries) (seen now : Z) (ip : string) : bool * entries :=
  let limiter := match rl !! ip with
                 | Some entry => ie_limiter entry
                 | None => NewLimiter (RPS cfg) (Burst cfg)
                 end in
  let '(a, limiter') := AllowAt limiter now in
  (a, <[ip := {| ie_limiter := limiter'; ie_lastSeen := seen |}]> rl).

(** [internal/server/ratelimit.go:101-109] Remaining *)
Definition Remaining (rl : entries) (now : Z) (ip : string) : Z :=
  match rl !! ip with
  | None => Burst cfg
  | Some entry => Tokens (ie_limiter entry) now
  end.

(** ** Runs and their specification *)

(** A request of an address, whose bucket reads the clock [pause] after the entry, or a
    sweep. *)
Inductive rop := RAllow (pause : Z) (ip : string) | RSweep.

(** What the requests of a run are answered. *)
Fixpoint allowed (rl : entries) (ops : list (Z * rop)) : list bool :=
  match ops with
  | [] => []
  | (now, RAllow pause ip) :: ops =>
      let '(a, rl') := Allow rl now (now + pause) ip in a :: allowed rl' ops
  | (now, RSweep) :: ops => allowed (sweep rl now) ops
  end.

(** When the bucket of one address was asked, oldest first, in a history whose newest
    operation comes first. *)
Fixpoint requests (ip : string) (history : list (Z * rop)) : list Z :=
  match history with
  | [] => []
  | (now, RAllow pause ip') :: history =>
      if String.eqb ip' ip then requests ip history ++ [now + pause] else requests ip history
  | (_, RSweep) :: history => requests ip history
  end.

(** A bucket per address: a request is answered by the bucket that has seen the requests of
    that address, and nothing else. *)
Definition allow_spec (history : list (Z * rop)) (now : Z) (ip : string) : bool :=
  (AllowAt (bucket_after (NewLimiter (RPS cfg) (Burst cfg)) (requests ip history)) now).1.

Fixpoint allowed_spec (history ops : list (Z * rop)) : list bool :=
  match ops with
  | [] => []
  | (now, o) :: ops =>
      let rest := allowed_spec ((now, o) :: history) ops in
      match o with RAllow pause ip => allow_spec history (now + pause) ip :: rest | RSweep => rest end
  end.

(** When the lock is free again. *)
Definition over_at (now : Z) (o : rop) : Z :=
  match o with RAllow pause _ => now + pause | RSweep => now end.

(** The clock does not go back, and no request takes longer than [slack] between its two
    readings. *)
Fixpoint clock_forward (slack t : Z) (ops : list (Z * rop)) : Prop :=
  match ops with
  | [] => True
  | (now, o) :: ops => t <= now <= over_at now o /\ over_at now o <= now + slack /\ clock_forward slack (over_at now o) ops
  end.
End limiter.

(** ** Refinement *)

Section refinement.
Context {B : TokenBucket} {refill : Rate -> Z -> Z} {L : TokenBucketLaws B refill}.
Variable cfg : RateLimiterConfig.

Variable slack : Z.

(** The retention of an idle entry, as computed, covers the time in which its bucket fills
    up, and the time between the two readings of the clock. *)
Hypothesis ttl_covers : refill (RPS cfg) (Burst cfg) + slack <= ttl cfg.

Lemma ttl_low c : - 2 ^ 63 <= ttl c.
Proof.
  unfold ttl, wrap_int. pose proof (Z.mod_pos_bound (TTLMinutes c * minute + 2 ^ 63) (2 ^ 64)). lia.
Qed.

Lemma alike_refl t l : alike t l l.
Proof. done. Qed.

Lemma alike_later t t' l l' : t <= t' -> alike t l l' -> alike t' l l'.
Proof.
  intros Ht H times Hf. apply H. destruct times as [|x times]; [done|]. simpl in *.
  destruct Hf. split; [lia|done].
Qed.

Lemma alike_allow t l l' :
  alike t l l' -> (AllowAt l t).1 = (AllowAt l' t).1 /\ alike t (AllowAt l t).2 (AllowAt l' t).2.
Proof.
  intros H. split.
  - specialize (H [t] ltac:(simpl; split; [lia|done])). simpl in H.
    destruct (AllowAt l t), (AllowAt l' t). by injection H.
  - intros times Hf. specialize (H (t :: times) ltac:(simpl; split; [lia|done])). simpl in H.
    destruct (AllowAt l t), (AllowAt l' t). by injection H.
Qed.

Notation new := (NewLimiter (RPS cfg) (Burst cfg)).

(** The bucket that answers for an address. *)
Definition bucket_of (rl : gmap string ipEntry) (ip : string) : Limiter :=
  match rl !! ip with Some e => ie_limiter e | None => new end.

(** Every address is answered like by the bucket that has seen all its requests, and an
    entry knows when the last of them was, up to the time between two readings. *)
Definition limits (t0 t : Z) (history : list (Z * rop)) (rl : gmap string ipEntry) : Prop :=
  forall ip,
    alike t (bucket_of rl ip) (bucket_after new (requests ip history)) /\
    forward t0 (requests ip history) /\ List.last (requests ip history) t0 <= t /\
    forall e, rl !! ip = Some e -> List.last (requests ip history) t0 <= ie_lastSeen e + slack.

Lemma forward_snoc t0 l t : forward t0 l -> List.last l t0 <= t -> forward t0 (l ++ [t]).
Proof.
  revert t0. induction l as [|x l IH]; intros t0 Hf Hl; simpl in *; [by split|].
  destruct Hf as [Hx Hf]. split; [done|]. apply IH; [done|].
  destruct l as [|y l]; [done|]. replace (List.last (y :: l) x) with (List.last (y :: l) t0); [done|].
  clear. revert y. induction l as [|z l IH]; intros y; [done|]. apply (IH z).
Qed.

Lemma limits_later t0 t t' history rl :
  t <= t' -> limits t0 t history rl -> limits t0 t' history rl.
Proof.
  intros Ht H ip. destruct (H ip) as (Ha & Hf & Hl & He).
  split_and!; [by eapply alike_later|done|lia|done].
Qed.

Lemma allow_limits t0 seen pause history rl ip :
  let t := seen + pause in
  t <= seen + slack -> limits t0 t history rl ->
  (Allow cfg rl seen t ip).1 = allow_spec cfg history t ip /\
  limits t0 t ((seen, RAllow pause ip) :: history) (Allow cfg rl seen t ip).2.
Proof.
  intros t Hslack H. unfold Allow, allow_spec. fold (bucket_of rl ip).
  destruct (H ip) as (Ha & Hf & Hl & He). apply alike_allow in Ha as [Ha1 Ha2].
  destruct (AllowAt (bucket_of rl ip) t) as [a l'] eqn:E. simpl in *. split; [done|].
  intros ip'. simpl. unfold bucket_of. destruct (String.eqb ip ip') eqn:Eip.
  - apply String.eqb_eq in Eip as <-. rewrite lookup_insert_eq. simpl.
    split_and!.
    + unfold bucket_after in *. by rewrite foldl_app.
    + by apply forward_snoc.
    + rewrite last_last. lia.
    + intros e [= <-]. rewrite last_last. done.
  - apply String.eqb_neq in Eip. rewrite lookup_insert_ne by done. apply H.
Qed.

Lemma sweep_limits t0 t history rl :
  limits t0 t history rl -> limits t0 t ((t, RSweep) :: history) (sweep cfg rl t).
Proof.
  intros H ip. simpl. destruct (H ip) as (Ha & Hf & Hl & He). unfold bucket_of, sweep in *.
  rewrite map_lookup_filter. destruct (rl !! ip) as [e|]; simpl; [|by split_and!].
  case_guard as Hg; simpl in Hg; [by split_and!|]. split_and!; [|done|done|done].
  apply not_false_iff_true, Z.ltb_lt in Hg. simpl.
  apply (bucket_refills (refill := refill) _ _ _ t0); [done|].
  specialize (He e eq_refl). pose proof (ttl_low cfg). unfold time_sub in Hg. lia.
Qed.

Lemma allowed_limits t0 t history rl ops :
  limits t0 t history rl -> clock_forward slack t ops ->
  allowed cfg rl ops = allowed_spec cfg history ops.
Proof.
  revert t history rl. induction ops as [|[now [pause ip|]] ops IH]; intros t history rl H Hck; [done|..];
    destruct Hck as (Hle & Hslack & Hck); simpl in Hle, Hslack, Hck.
  - apply (limits_later _ _ (now + pause)) in H; [|lia]. simpl.
    destruct (allow_limits t0 now pause _ _ ip ltac:(lia) H) as [Ha H'].
    destruct (Allow cfg rl now (now + pause) ip) as [a rl'].
    simpl in *. rewrite Ha. f_equal. by apply (IH (now + pause)).
  - apply (limits_later _ _ now) in H; [|lia]. simpl.
    apply (IH now); [by apply sweep_limits|done].
Qed.

(** C31. The rate limiter refines its specification.  With a retention that, computed in 64
    bits, covers the time in which a bucket fills up and the time between the two clock
    readings of a request, every request of a run is answered as by a bucket of its own
    address that was never evicted: wherever the sweeps fall, and whatever other addresses
    do.  A setting whose retention wraps below that is not covered, and there it fails
    (Example [ttl_wraps]). *)
Theorem limiter_refines (ops : list (Z * rop)) (t : Z) (Hclock : clock_forward slack t ops) :
  allowed cfg ∅ ops = allowed_spec cfg [] ops.
Proof.
  apply (allowed_limits t t); [|done]. intros ip. unfold bucket_of. rewrite lookup_empty.
  split_and!; simpl; [apply alike_refl|done|lia|done].
Qed.
End refinement.

(** ** A bucket that satisfies the law

    Whole tokens per second; the level in billionths of a token. *)

Record bucket := { bk_rate : positive; bk_size : Z; bk_level : Z; bk_last : Z }.

Definition bucket_allow (b : bucket) (t : Z) : bool * bucket :=
  let level := Z.min (bk_size b) (bk_level b + Z.max 0 (t - bk_last b) * Z.pos (bk_rate b)) in
  let allowed := 1000000000 <=? level in
  (allowed, {| bk_rate := bk_rate b; bk_size := bk_size b;
               bk_level := if allowed then level - 1000000000 else level; bk_last := t |}).

#[export] Instance whole_bucket : TokenBucket := {
  Rate := positive;
  rate_le0 _ := false;
  default_rate := 10%positive;
  Limiter := bucket;
  NewLimiter r b := {| bk_rate := r; bk_size := Z.max 0 b * 1000000000;
                       bk_level := Z.max 0 b * 1000000000; bk_last := 0 |};
  AllowAt := bucket_allow;
  Tokens b t :=
    Z.min (bk_size b) (bk_level b + Z.max 0 (t - bk_last b) * Z.pos (bk_rate b)) / 1000000000;
}.

Definition whole_refill (r : positive) (b : Z) : Z := Z.max 0 b * 1000000000.

Lemma bucket_after_state r b times last :
  times <> [] ->
  let s := bucket_after (B := whole_bucket) (NewLimiter (TokenBucket := whole_bucket) r b) times in
  bk_rate s = r /\ bk_size s = Z.max 0 b * 1000000000 /\ 0 <= bk_level s /\
  bk_last s = List.last times last.
Proof.
  cbn zeta. induction times as [|t times IH] using rev_ind; [done|]. intros _.
  unfold bucket_after in *. rewrite foldl_app, last_last. cbn [foldl].
  set (s0 := foldl _ _ times) in *.
  assert (bk_rate s0 = r /\ bk_size s0 = Z.max 0 b * 1000000000 /\ 0 <= bk_level s0) as (Hr & Hs & Hl).
  { destruct times; [simpl; split_and!; try done; lia|]. by destruct (IH ltac:(done)) as (? & ? & ? & _). }
  clearbody s0. unfold AllowAt, whole_bucket, bucket_allow. cbn [snd bk_rate bk_size bk_level bk_last].
  split_and!; try done. rewrite Hs. case_match; [|lia]. apply Z.leb_le in H. lia.
Qed.

#[export] Instance whole_bucket_laws : TokenBucketLaws whole_bucket whole_refill.
Proof.
  split. intros r b times last t _ Hr ts Hf. destruct times as [|t0 times]; [done|].
  destruct (bucket_after_state r b (t0 :: times) last ltac:(done)) as (Hrate & Hsize & Hlev & Hlast).
  destruct ts as [|t1 ts]; [done|]. destruct Hf as [Ht1 _].
  set (s := bucket_after _ _) in *. clearbody s.
  assert (bucket_allow (NewLimiter (TokenBucket := whole_bucket) r b) t1 = bucket_allow s t1) as Heq.
  2: { cbn [bucket_answers]. change (AllowAt s t1) with (bucket_allow s t1). rewrite <- Heq. done. }
  unfold bucket_allow. rewrite Hrate, Hsize, Hlast.
  cbn [NewLimiter whole_bucket bk_rate bk_size bk_level bk_last].
  unfold whole_refill in Hr. set (size := Z.max 0 b * 1000000000) in *.
  replace (Z.min size (bk_level _ + _)) with size.
  - replace (Z.min size (size + _)) with size by lia. done.
  - match goal with |- context [Z.max 0 (t1 - ?x)] => set (lst := x) in * end.
    assert (size <= Z.max 0 (t1 - lst) * Z.pos r) by nia. lia.
Qed.

Definition sample_limits : RateLimiterConfig :=
  {| Enabled := true; RPS := 5%positive; Burst := 2; TTLMinutes := 10; TrustProxy := false |}.

(** Two requests of one address are let through, the third is not; after the sweep of the
    idle entry the bucket is full. *)
Lemma limiter_refines_witness :
  let s := 1000000000 in
  let ops := [(0, RAllow 0 "a"); (0, RAllow 1 "a"); (1, RAllow 1 "a"); (2, RAllow 0 "b");
              (700 * s, RSweep); (700 * s, RAllow 0 "a"); (700 * s, RAllow 90 "a")] in
  allowed sample_limits ∅ ops = [true; true; false; true; true; true] /\
  allowed sample_limits ∅ ops = allowed_spec sample_limits [] ops.
Proof.
  cbn zeta. split; [by vm_compute|].
  apply (limiter_refines (B := whole_bucket) (refill := whole_refill) sample_limits 1000000000
           ltac:(by vm_compute) _ 0).
  simpl. lia.
Defined.

(** A retention of two hundred million minutes wraps to a negative one: every sweep removes
    every entry, and an address that has used up its bucket has a full one again. *)
Example ttl_wraps :
  let cfg := {| Enabled := true; RPS := 5%positive; Burst := 2; TTLMinutes := 200000000; TrustProxy := false |} in
  let ops := [(0, RAllow 0 "a"); (0, RAllow 0 "a"); (1, RSweep); (1, RAllow 0 "a")] in
  ttl cfg = -6446744073709551616 /\
  allowed cfg ∅ ops = [true; true; true] /\ allowed_spec cfg [] ops = [true; true; false].
Proof. by vm_compute. Qed.

(** * The limiter of requests: [internal/server/ratelimit.go], [middleware] *)

(** ** Addresses *)

(** What the scan from the end of the string has found so far. *)
Inductive scan := NotYet | Bracket | Colon (host port : string).

(** [internal/server/ratelimit.go:183-195] splitHostPort: the loop *)
Fixpoint scan_back (s : string) : scan :=
  match s with
  | "" => NotYet
  | String c rest =>
      match scan_back rest with
      | NotYet => if Ascii.eqb c ":" then Colon "" rest
                  else if Ascii.eqb c "]" then Bracket else NotYet
      | Bracket => Bracket
      | Colon host port => Colon (String c host) port
      end
  end.

(** [internal/server/ratelimit.go:183-195] splitHostPort *)
Definition splitHostPort (addr : string) : result (string * string) :=
  match scan_back addr with
  | Colon host port => Ok (host, port)
  | _ => Err ("no port in address: " +:+ addr)
  end.

(** [internal/server/ratelimit.go:176-181] stripPort *)
Definition stripPort (addr : string) : string :=
  match splitHostPort addr with Ok (host, _) => host | Err _ => addr end.

Definition blank (c : Ascii.ascii) : bool := Ascii.eqb c " " || Ascii.eqb c "009".

(** [internal/server/ratelimit.go:164-173] trimSpace *)
Definition trimSpace (s : string) : string := TrimRightFunc blank (TrimLeftFunc blank s).

(** The part of a header value before its first comma. *)
Fixpoint before_comma (s : string) : string :=
  match s with
  | "" => ""
  | String c rest => if Ascii.eqb c "," then "" else String c (before_comma rest)
  end.

(** The parts of a request that the middleware reads. *)
Record request := { rq_path : string; rq_forwarded : string; rq_remote : string }.

(** [internal/server/ratelimit.go:149-162] clientIP *)
Definition clientIP (trustProxy : bool) (r : request) : string :=
  if trustProxy && negb (String.eqb (rq_forwarded r) "")
  then stripPort (trimSpace (before_comma (rq_forwarded r)))
  else stripPort (rq_remote r).

(** ** Decimal numbers *)

(** [internal/server/ratelimit.go:211-215] itoa: the digits, filled in from the end of the
    buffer of 20 bytes *)
Fixpoint fill_digits (room : nat) (n : Z) (buf : string) : option string :=
  if n <=? 0 then Some buf
  else match room with
       | O => None
       | S room => fill_digits room (n / 10) (String (Ascii.ascii_of_N (Z.to_N (48 + n mod 10))) buf)
       end.

(** [internal/server/ratelimit.go:201-221] itoa: [None] when the buffer is too small *)
Definition itoa (n : Z) : option string :=
  if n =? 0 then Some "0"
  else
    let neg := n <? 0 in
    match fill_digits 20 (if neg then wrap_int (- n) else n) "" with
    | None => None
    | Some buf =>
        if neg then
          if (String.length buf <? 20)%nat then Some (String "-" buf) else None
        else Some buf
    end.

(** ** The middleware *)

(** What becomes of a request: it is passed on, with headers set on the response, or
    rejected with the status 429. *)
Inductive verdict :=
| Passed (headers : list (string * option string))
| TooMany (headers : list (string * option string)).

Section middleware.
Context {B : TokenBucket}.

(** [internal/server/ratelimit.go:115-144] RateLimitMiddleware, with its readings of the clock,
    the last in seconds *)
Definition RateLimitMiddleware (rl : option RateLimiterConfig) (entries : gmap string ipEntry)
    (seen now later seconds : Z) (r : request) : verdict * gmap string ipEntry :=
  match rl with
  | None => (Passed [], entries)
  | Some cfg =>
      if negb (Enabled cfg) then (Passed [], entries)
      else if String.eqb (rq_path r) "/healthz" || String.eqb (rq_path r) "/readyz"
      then (Passed [], entries)
      else
        let ip := clientIP (TrustProxy cfg) r in
        let '(ok, entries) := Allow cfg entries seen now ip in
        if negb (ok : bool) then
          (TooMany [("Retry-After", Some "1"); ("X-RateLimit-Limit", itoa (Burst cfg));
                    ("X-RateLimit-Remaining", Some "0");
                    ("X-RateLimit-Reset", itoa (seconds + 1))], entries)
        else
          (Passed [("X-RateLimit-Limit", itoa (Burst cfg));
                   ("X-RateLimit-Remaining", itoa (Remaining cfg entries later ip))], entries)
  end.
End middleware.

(** * Theorems *)

(** ** Addresses *)

Definition no_mark (c : Ascii.ascii) : bool := negb (Ascii.eqb c ":") && negb (Ascii.eqb c "]").

Fixpoint str_forall (P : Ascii.ascii -> bool) (s : string) : bool :=
  match s with "" => true | String c s => P c && str_forall P s end.

Lemma scan_back_NotYet s : scan_back s = NotYet <-> str_forall no_mark s = true.
Proof.
  induction s as [|c s IH]; simpl; [done|]. unfold no_mark at 1.
  destruct (scan_back s); [|split; [done|]; intros H; breflect; destruct H as [_ H]; by apply IH in H..].
  rewrite (proj1 IH) by done. destruct (Ascii.eqb c ":"), (Ascii.eqb c "]"); simpl; split; done.
Qed.

Lemma scan_back_Colon s host port :
  scan_back s = Colon host port <-> s = host +:+ ":" +:+ port /\ str_forall no_mark port = true.
Proof.
  revert host. induction s as [|c s IH]; intros host; simpl.
  - split; [done|]. intros [H _]. by destruct host.
  - split.
    + destruct (scan_back s) as [| |h p] eqn:E.
      * destruct (Ascii.eqb c ":") eqn:Ec; [|by destruct (Ascii.eqb c "]")].
        intros [= <- <-]. apply Ascii.eqb_eq in Ec as ->. split; [done|]. by apply scan_back_NotYet.
      * done.
      * intros [= <- <-]. destruct (proj1 (IH h) eq_refl) as [-> ?]. done.
    + intros [H Hp]. destruct host as [|c' host]; simpl in H; injection H as -> ->.
      * apply scan_back_NotYet in Hp as ->. done.
      * rewrite (proj2 (IH host)); done.
Qed.

(** The port is what follows the last colon, unless a bracket closes after it. *)
Lemma splitHostPort_spec addr host port :
  splitHostPort addr = Ok (host, port) <->
  addr = host +:+ ":" +:+ port /\ str_forall no_mark port = true.
Proof.
  unfold splitHostPort. rewrite <- scan_back_Colon.
  destruct (scan_back addr) as [| |h p]; split; intros H; try done; congruence.
Qed.

(** The address that is limited.  Without a trusted proxy it is the remote address
    without its port, and no header changes it.  With one, any address without commas,
    colons, brackets and surrounding blanks that a client writes into the header is taken
    for its own. *)
Theorem client_address (r : request) (host port : string)
    (Hremote : rq_remote r = host +:+ ":" +:+ port) (Hport : str_forall no_mark port = true) :
  clientIP false r = host /\
  forall ip, ip <> "" -> str_forall (fun c => no_mark c && negb (blank c) && negb (Ascii.eqb c ",")) ip = true ->
    clientIP true {| rq_path := rq_path r; rq_forwarded := ip; rq_remote := rq_remote r |} = ip.
Proof.
  split.
  - unfold clientIP, stripPort. simpl. rewrite (proj2 (splitHostPort_spec _ host port)); done.
  - intros ip Hne Hip. unfold clientIP. simpl. apply String.eqb_neq in Hne as ->. simpl.
    assert (before_comma ip = ip) as ->.
    { induction ip as [|c ip IH]; [done|]. simpl in *. breflect. destruct Hip as [[_ Hc] Hip].
      rewrite Hc. by rewrite IH. }
    assert (TrimLeftFunc blank ip = ip) as Hl.
    { destruct ip as [|c ip]; [done|]. simpl in *. breflect. destruct Hip as [[[_ Hb] _] _].
      by rewrite Hb. }
    unfold trimSpace. rewrite Hl.
    assert (TrimRightFunc blank ip = ip) as ->.
    { clear Hl. induction ip as [|c ip IH]; [done|]. simpl in *. breflect.
      destruct Hip as [[[_ Hb] _] Hip]. rewrite IH by done. destruct ip; [by rewrite Hb|done]. }
    unfold stripPort, splitHostPort.
    assert (str_forall no_mark ip = true) as Hm.
    { clear Hl. induction ip as [|c ip IH]; [done|]. simpl in *. breflect.
      destruct Hip as [[[Hc _] _] Hip]. by rewrite Hc, IH. }
    apply scan_back_NotYet in Hm as ->. done.
Qed.

(** ** Decimal numbers *)

Lemma digit_char (d : N) : (d < 10)%N -> Ascii.ascii_of_N (48 + d) = pretty_N_char d.
Proof.
  intros H.
  assert (d = 0 \/ d = 1 \/ d = 2 \/ d = 3 \/ d = 4 \/ d = 5 \/ d = 6 \/ d = 7 \/ d = 8 \/ d = 9)%N
    as Hd by lia.
  by destruct_or! Hd; subst d.
Qed.

Lemma fill_digits_pretty room n buf :
  0 <= n < 10 ^ Z.of_nat room -> fill_digits room n buf = Some (pretty_N_go (Z.to_N n) buf).
Proof.
  revert n buf. induction room as [|room IH]; intros n buf Hn.
  - replace n with 0 by (simpl in Hn; lia). simpl. by rewrite pretty_N_go_0.
  - simpl. destruct (n <=? 0) eqn:E.
    + apply Z.leb_le in E. replace n with 0 by lia. by rewrite pretty_N_go_0.
    + apply Z.leb_gt in E. rewrite IH.
      * rewrite (pretty_N_go_step (Z.to_N n)) by lia.
        rewrite Z2N.inj_div, Z2N.inj_add by (try apply Z.mod_pos_bound; lia).
        rewrite Z2N.inj_mod by lia. change (Z.to_N 10) with 10%N. change (Z.to_N 48) with 48%N.
        rewrite digit_char by (apply N.mod_lt; lia). done.
      * split; [apply Z.div_pos; lia|]. apply Z.div_lt_upper_bound; [lia|].
        rewrite Nat2Z.inj_succ, Z.pow_succ_r in Hn by lia. lia.
Qed.

Lemma fill_digits_length room n buf s :
  fill_digits room n buf = Some s -> (String.length s <= room + String.length buf)%nat.
Proof.
  revert n buf. induction room as [|room IH]; intros n buf; simpl;
    (destruct (n <=? 0); [intros [= <-]; lia|]); [done|].
  intros H%IH. simpl in H. lia.
Qed.

Lemma fill_digits_more room k n buf s :
  fill_digits room n buf = Some s -> fill_digits (room + k) n buf = Some s.
Proof.
  revert n buf. induction room as [|room IH]; intros n buf; simpl.
  - destruct (n <=? 0) eqn:E; [|done]. intros [= <-]. destruct k; simpl; by rewrite E.
  - destruct (n <=? 0); [done|]. apply IH.
Qed.

(** The decimal conversion is right and never leaves its buffer, for every 64-bit
    integer but the smallest, for which it prints a lone minus sign. *)
Theorem itoa_correct (n : Z) (Hn : - 2 ^ 63 <= n < 2 ^ 63) :
  itoa n = Some (if n =? - 2 ^ 63 then "-" else Itoa n).
Proof.
  unfold itoa, Itoa. destruct (n =? 0) eqn:E0; [apply Z.eqb_eq in E0; by subst|].
  apply Z.eqb_neq in E0.
  assert (forall m, 0 < m < 2 ^ 63 -> fill_digits 20 m "" = Some (pretty (Z.to_N m)) /\
    (String.length (pretty (Z.to_N m)) <= 19)%nat) as Hfill.
  { intros m Hm. assert (fill_digits 19 m "" = Some (pretty (Z.to_N m))) as H19.
    { rewrite fill_digits_pretty by (change (10 ^ Z.of_nat 19) with 10000000000000000000; lia).
      unfold pretty, pretty_N. rewrite decide_False by lia. done. }
    split; [by apply (fill_digits_more 19 1)|]. apply fill_digits_length in H19. simpl in H19. lia. }
  destruct (n =? - 2 ^ 63) eqn:Emin.
  { apply Z.eqb_eq in Emin. subst n. by vm_compute. }
  apply Z.eqb_neq in Emin. destruct (n <? 0) eqn:Es.
  - apply Z.ltb_lt in Es. unfold wrap_int. rewrite Z.mod_small by lia.
    replace (- n + 2 ^ 63 - 2 ^ 63) with (- n) by lia.
    destruct (Hfill (- n) ltac:(lia)) as [-> Hlen].
    assert (String.length (pretty (Z.to_N (- n))) <? 20 = true)%nat as -> by (apply Nat.ltb_lt; lia).
    destruct n as [|p|p]; [done|done|]. simpl. done.
  - apply Z.ltb_ge in Es. destruct (Hfill n ltac:(lia)) as [-> _]. by destruct n as [|p|p].
Qed.

(** ** The middleware *)

Section middleware_spec.
Context {B : TokenBucket}.

(** Health checks are never limited. *)
Lemma health_passes rl entries seen now later seconds r :
  rq_path r = "/healthz" \/ rq_path r = "/readyz" ->
  RateLimitMiddleware rl entries seen now later seconds r = (Passed [], entries).
Proof.
  intros H. unfold RateLimitMiddleware. destruct rl as [cfg|]; [|done].
  destruct (Enabled cfg); [|done]. by destruct H as [-> | ->].
Qed.

(** Another request is rejected exactly when the bucket of its address is empty. *)
Lemma middleware_limits cfg entries seen now later seconds r :
  Enabled cfg = true -> rq_path r <> "/healthz" -> rq_path r <> "/readyz" ->
  (exists h, (RateLimitMiddleware (Some cfg) entries seen now later seconds r).1 = TooMany h) <->
  (Allow cfg entries seen now (clientIP (TrustProxy cfg) r)).1 = false.
Proof.
  intros He H1 H2. unfold RateLimitMiddleware. rewrite He. simpl.
  apply String.eqb_neq in H1 as ->. apply String.eqb_neq in H2 as ->. simpl.
  destruct (Allow _ _ _ _ _) as [[] e]; simpl; split; try done; [by intros [? ?]|by eexists].
Qed.
End middleware_spec.

(** ** Witnesses *)

Definition from (remote : string) : request :=
  {| rq_path := "/x"; rq_forwarded := ""; rq_remote := remote |}.

Lemma client_address_witness : clientIP false (from "10.0.0.7:5123") = "10.0.0.7".
Proof. by apply (client_address (from "10.0.0.7:5123") "10.0.0.7" "5123"). Defined.

Lemma itoa_correct_witness : itoa (-42) = Some "-42" /\ itoa (- 2 ^ 63) = Some "-".
Proof. split; [rewrite (itoa_correct (-42)) by lia; done|by vm_compute]. Defined.

(** An IPv6 address without a port loses its last group, and one with a port keeps its
    brackets. *)
Example stripPort_ipv6 :
  stripPort "2001:db8::1" = "2001:db8:" /\ stripPort "[2001:db8::1]:443" = "[2001:db8::1]".
Proof. by vm_compute. Qed.
