(* ===== verification/RegexLang.v ===== *)
(** * The language of an expression without assertions inside.

    An expression that only consumes runes denotes a set of lists of runes; an expression
    anchored at both ends matches a string exactly when the string's runes are in it. *)

From S2P Require Import Prelude Regex.

Lemma den_cls_inv p st st' : den (Cls p) st st' ->
  exists c rest, ms_rest st = c :: rest /\ p c.1 = true /\ st' = step c rest st.
Proof. inversion 1; subst; eauto. Qed.

Lemma den_cat_inv r s st st' : den (Cat r s) st st' -> exists st1, den r st st1 /\ den s st1 st'.
Proof. inversion 1; subst; eauto. Qed.

Lemma den_bot_inv st st' : den Bot st st' -> ms_prev st = None /\ st' = st.
Proof. inversion 1; subst. split; [|done]. simpl in *. by destruct (ms_prev st'). Qed.

Lemma den_eot_inv st st' : den Eot st st' -> ms_rest st = [] /\ st' = st.
Proof. inversion 1; subst. split; [|done]. simpl in *. by destruct (ms_rest st'). Qed.

(** The runes [l] lead from one state to another. *)
Record eaten (l : list rune) (st st' : mstate) : Prop := {
  eat_rest : ms_rest st = l ++ ms_rest st';
  eat_prev : ms_prev st' = match last l with Some r => Some r.1 | None => ms_prev st end;
  eat_groups : ms_groups st' = ms_groups st;
}.

(** [r] consumes exactly the lists of runes with [P], and nothing else happens. *)
Definition denotes (r : regex) (P : list Z -> Prop) : Prop :=
  forall st st', den r st st' <-> exists l, P (fst <$> l) /\ eaten l st st'.

Lemma eaten_nil st st' : eaten [] st st' <-> st' = st.
Proof.
  split; [|by intros ->]. intros [Hr Hp Hg]. destruct st, st'; simpl in *. by subst.
Qed.

Lemma eaten_app l1 l2 st st2 :
  eaten (l1 ++ l2) st st2 <-> exists st1, eaten l1 st st1 /\ eaten l2 st1 st2.
Proof.
  split.
  - intros [Hr Hp Hg].
    exists {| ms_prev := match last l1 with Some r => Some r.1 | None => ms_prev st end;
              ms_rest := l2 ++ ms_rest st2; ms_groups := ms_groups st |}.
    split; split; simpl; [by rewrite Hr, <- app_assoc|done..| |done].
    rewrite Hp, last_app. by destruct (last l2).
  - intros (st1 & [Hr1 Hp1 Hg1] & [Hr2 Hp2 Hg2]). split.
    + by rewrite Hr1, Hr2, app_assoc.
    + rewrite Hp2, last_app. destruct (last l2); [done|]. by rewrite Hp1.
    + by rewrite Hg2, Hg1.
Qed.

Lemma denotes_ext r P Q : denotes r P -> (forall l, P l <-> Q l) -> denotes r Q.
Proof. intros H HPQ st st'. rewrite (H st st'). by setoid_rewrite HPQ. Qed.

Lemma denotes_eps : denotes Eps (fun l => l = []).
Proof.
  intros st st'. split.
  - intros H. inversion H; subst. exists []. split; [done|]. by apply eaten_nil.
  - intros (l & Hl & He). apply fmap_nil_inv in Hl as ->. apply eaten_nil in He as ->. constructor.
Qed.

Lemma denotes_cls p : denotes (Cls p) (fun l => exists c, l = [c] /\ p c = true).
Proof.
  intros st st'. split.
  - intros (c & rest & Hr & Hp & ->)%den_cls_inv.
    exists [c]. split; [by exists c.1|]. by split.
  - intros (l & (c & Hl & Hc) & [Hr Hp Hg]). destruct l as [|x [|? ?]]; simplify_eq/=.
    destruct st as [pv rs gs], st' as [pv' rs' gs']; simplify_eq/=.
    by apply (den_cls p {| ms_prev := pv; ms_rest := x :: rs'; ms_groups := gs |} x rs').
Qed.

Lemma denotes_cat r s P Q : denotes r P -> denotes s Q ->
  denotes (Cat r s) (fun l => exists l1 l2, l = l1 ++ l2 /\ P l1 /\ Q l2).
Proof.
  intros Hr Hs st st'. split.
  - intros (st1 & H1 & H2)%den_cat_inv.
    apply Hr in H1 as (l1 & HP & He1). apply Hs in H2 as (l2 & HQ & He2).
    exists (l1 ++ l2). split; [|by apply eaten_app; eauto].
    exists (fst <$> l1), (fst <$> l2). by rewrite fmap_app.
  - intros (l & (k1 & k2 & Hl & HP & HQ) & He).
    apply fmap_app_inv in Hl as (l1 & l2 & -> & -> & ->).
    apply eaten_app in He as (st1 & He1 & He2).
    econstructor; [apply Hr; by exists l1|apply Hs; by exists l2].
Qed.

Lemma denotes_alt r s P Q : denotes r P -> denotes s Q ->
  denotes (Alt r s) (fun l => P l \/ Q l).
Proof.
  intros Hr Hs st st'. split.
  - intros H. inversion H; subst.
    + match goal with H : den r _ _ |- _ => apply Hr in H as (l & ? & ?) end. eauto.
    + match goal with H : den s _ _ |- _ => apply Hs in H as (l & ? & ?) end. eauto.
  - intros (l & [HP|HQ] & He); [apply den_alt_l, Hr|apply den_alt_r, Hs]; eauto.
Qed.

Lemma denotes_lit s : denotes (lit s) (fun l => l = byte_of <$> String.list_ascii_of_string s).
Proof.
  induction s as [|a s IH]; [apply denotes_eps|]. destruct s as [|b s].
  - eapply denotes_ext; [apply denotes_cls|]. intros l. simpl. unfold is_char. split.
    + intros (c & -> & Hc%Z.eqb_eq). by subst.
    + intros ->. exists (byte_of a). by rewrite Z.eqb_refl.
  - eapply denotes_ext; [apply denotes_cat; [apply denotes_cls|exact IH]|].
    intros l. unfold is_char. split.
    + intros (? & ? & -> & (c & -> & Hc%Z.eqb_eq) & ->). by subst.
    + intros ->. exists [byte_of a]. eexists. split_and!; [|eexists; split; [done|]|done]; [done|].
      by rewrite Z.eqb_refl.
Qed.

Lemma denotes_upto n p :
  denotes (upto n (Cls p)) (fun l => length l <= n /\ Forall (fun c => p c = true) l).
Proof.
  induction n as [|n IH].
  - eapply denotes_ext; [apply denotes_eps|]. intros l. split.
    + intros ->. split; [done|constructor].
    + intros [Hl _]. by apply nil_length_inv, Nat.le_0_r.
  - eapply denotes_ext.
    + apply denotes_alt; [apply denotes_cat; [apply denotes_cls|exact IH]|apply denotes_eps].
    + intros l. split.
      * intros [(? & k & -> & (c & -> & Hc) & Hk & Hp)| ->]; simpl; split; try lia; try by constructor.
      * intros [Hl Hp]. destruct l as [|c l]; [by right|]. left. simpl in Hl.
        apply Forall_cons in Hp as [Hc Hp]. exists [c], l. split_and!; [done|eauto|lia|done].
Qed.

Lemma denotes_times_then n p r Q : denotes r Q ->
  denotes (cats (replicate n (Cls p) ++ [r]))
    (fun l => exists l1 l2, l = l1 ++ l2 /\ length l1 = n /\ Forall (fun c => p c = true) l1 /\ Q l2).
Proof.
  intros Hr. induction n as [|n IH].
  - eapply denotes_ext; [exact Hr|]. intros l. split.
    + intros HQ. exists [], l. by split_and!.
    + intros (l1 & l2 & -> & ->%nil_length_inv & _ & HQ). done.
  - assert (cats (replicate (S n) (Cls p) ++ [r]) = Cat (Cls p) (cats (replicate n (Cls p) ++ [r]))) as ->
      by (by destruct n).
    eapply denotes_ext; [apply denotes_cat; [apply denotes_cls|exact IH]|].
    intros l. split.
    + intros (? & ? & -> & (c & -> & Hc) & l1 & l2 & -> & <- & Hp & HQ).
      exists (c :: l1), l2. split_and!; [done..|by constructor|done].
    + intros (l1 & l2 & -> & Hl & Hp & HQ). destruct l1 as [|c l1]; simplify_eq/=.
      apply Forall_cons in Hp as [Hc Hp]. exists [c], (l1 ++ l2). split_and!; [done|eauto|].
      exists l1, l2. by split_and!.
Qed.

Lemma denotes_repeat_range lo hi p : lo <= hi ->
  denotes (repeat_range lo hi (Cls p))
    (fun l => lo <= length l <= hi /\ Forall (fun c => p c = true) l).
Proof.
  intros Hle. unfold repeat_range.
  eapply denotes_ext; [apply denotes_times_then, denotes_upto|]. intros l. split.
  - intros (l1 & l2 & -> & <- & H1 & H2 & H3). rewrite length_app. split; [lia|]. by apply Forall_app.
  - intros [Hl Hp]. exists (take lo l), (drop lo l).
    rewrite take_drop, length_take, length_drop. split_and!; [done|lia|by apply Forall_take|lia|by apply Forall_drop].
Qed.

(** ** Anchored expressions *)

(** [r] consumes a list with [P] that is all the rest. *)
Definition closes (r : regex) (P : list Z -> Prop) : Prop :=
  forall st st', den r st st' <-> exists l, P (fst <$> l) /\ eaten l st st' /\ ms_rest st' = [].

Lemma closes_eot : closes Eot (fun l => l = []).
Proof.
  intros st st'. split.
  - intros [He ->]%den_eot_inv. exists []. split_and!; [done|by apply eaten_nil|done].
  - intros (l & ->%fmap_nil_inv & ->%eaten_nil & He). constructor. simpl. by rewrite He.
Qed.

Lemma closes_cat r s P Q : denotes r P -> closes s Q ->
  closes (Cat r s) (fun l => exists l1 l2, l = l1 ++ l2 /\ P l1 /\ Q l2).
Proof.
  intros Hr Hs st st'. split.
  - intros (st1 & H1 & H2)%den_cat_inv.
    apply Hr in H1 as (l1 & HP & He1). apply Hs in H2 as (l2 & HQ & He2 & Hend).
    exists (l1 ++ l2). split_and!; [|by apply eaten_app; eauto|done].
    exists (fst <$> l1), (fst <$> l2). by rewrite fmap_app.
  - intros (l & (k1 & k2 & Hl & HP & HQ) & He & Hend).
    apply fmap_app_inv in Hl as (l1 & l2 & -> & -> & ->).
    apply eaten_app in He as (st1 & He1 & He2).
    econstructor; [apply Hr; by exists l1|apply Hs; by exists l2].
Qed.

(** [^r$] *)
Lemma match_anchored r P s : closes r P ->
  MatchString (Cat Bot r) s = true <-> P (fst <$> runes s).
Proof.
  intros Hr. unfold MatchString, find.
  set (whole := Cat Bot r).
  assert (forall rest, is_Some (match_at whole None rest) <-> P (fst <$> rest)) as Hat.
  { intros rest. rewrite match_at_spec. split.
    - intros [st' (st1 & [_ ->]%den_bot_inv & H3)%den_cat_inv].
      apply Hr in H3 as (l & HP & [Hrest _ _] & He). simpl in Hrest.
      rewrite He, app_nil_r in Hrest. by subst.
    - intros HP.
      exists {| ms_prev := match last rest with Some r => Some r.1 | None => None end;
                ms_rest := []; ms_groups := [] |}.
      econstructor; [by constructor|].
      apply Hr. exists rest. split_and!; [done| |done]. split; simpl; [by rewrite app_nil_r|done..]. }
  assert (forall rest c, search whole (Some c) rest = None) as Hlate.
  { induction rest as [|x rest IH]; intros c; [done|]. simpl.
    destruct (match_at whole (Some c) (x :: rest)) eqn:E; [|apply IH].
    assert (is_Some (match_at whole (Some c) (x :: rest))) as H by (by rewrite E).
    by apply match_at_spec in H as [st' (st1 & [? _]%den_bot_inv & _)%den_cat_inv]. }
  rewrite <- Hat. destruct (runes s) as [|x rest].
  - simpl. destruct (match_at whole None []); split; try done; by intros [].
  - cbn [search]. destruct (match_at whole None (x :: rest)); [split; by eauto|].
    rewrite Hlate. split; [done|by intros []].
Qed.

(** ** Runes of ASCII strings *)

Lemma runes_cons c s : (byte_of c <? 128)%Z = true ->
  runes (String c s) = (byte_of c, String c "") :: runes s.
Proof. intros H. unfold runes. simpl. by rewrite H. Qed.

Lemma runes_ascii s :
  Forall (fun c => (byte_of c <? 128)%Z = true) (String.list_ascii_of_string s) ->
  fst <$> runes s = byte_of <$> String.list_ascii_of_string s.
Proof.
  induction s as [|c s IH]; [done|]. simpl. intros [Hc Hs]%Forall_cons.
  rewrite runes_cons by done. rewrite !fmap_cons. f_equal. by apply IH.
Qed.

Lemma length_list_ascii s : length (String.list_ascii_of_string s) = String.length s.
Proof. induction s as [|c s IH]; [done|]. simpl. by rewrite IH. Qed.

(** A sequence of several bytes never decodes to an ASCII rune. *)
Lemma lor_ge a b : (0 <= a -> 0 <= b -> a <= Z.lor a b)%Z.
Proof.
  intros Ha Hb. assert (Z.lor a b - a = Z.ldiff (Z.lor a b) a)%Z as H.
  { apply Z.sub_nocarry_ldiff, Z.bits_inj'. intros n Hn.
    rewrite Z.ldiff_spec, Z.lor_spec, Z.bits_0. by destruct (Z.testbit a n), (Z.testbit b n). }
  assert (0 <= Z.ldiff (Z.lor a b) a)%Z; [|lia].
  apply Z.ldiff_nonneg. left. by apply Z.lor_nonneg.
Qed.

Lemma low_bits (k b : Z) : (0 <= k -> Z.land b (Z.ones k) = b mod 2 ^ k)%Z.
Proof. intros. by apply Z.land_ones. Qed.

Lemma low6_bounds c : (0 <= low6 c < 64)%Z.
Proof. unfold low6. change 63%Z with (Z.ones 6). rewrite low_bits by done. by apply Z.mod_pos_bound. Qed.

(** Arithmetic with division by constants. *)
Ltac euclid := cbn [Z.pow Z.pow_pos Pos.iter] in *; Z.to_euclidean_division_equations; lia.

Lemma decode_ascii s r s' : decode_rune s = Some (r, s') -> (r.1 < 128)%Z ->
  exists c, r.2 = String c "" /\ byte_of c = r.1.
Proof.
  destruct s as [|c s1]; [done|]. unfold decode_rune. cbv zeta.
  destruct (byte_of c <? 128)%Z eqn:Hc; [intros; simplify_eq/=; eauto|].
  assert (forall x : Z, (128 <= x)%Z -> forall t t', Some ((x, t), t') = Some (r, s') ->
    (r.1 < 128)%Z -> exists c, r.2 = String c "" /\ byte_of c = r.1) as Hbig.
  { intros x Hx t t' ?. simplify_eq. simpl. lia. }
  destruct s1 as [|c1 s2]; [by apply Hbig|].
  pose proof (low6_bounds c1) as H1.
  destruct ((194 <=? byte_of c) && (byte_of c <=? 223))%Z eqn:E2.
  { destruct (cont 128 191 c1); [|by apply Hbig]. apply Hbig. breflect. rewrite !Z.leb_le in E2.
    change 31%Z with (Z.ones 5). rewrite low_bits, Z.shiftl_mul_pow2 by done.
    etrans; [|apply lor_ge; euclid]. euclid. }
  destruct s2 as [|c2 s3]; [by apply Hbig|].
  pose proof (low6_bounds c2) as H2.
  assert (forall a b : Z, (0 <= a)%Z -> (0 <= b)%Z -> (0 <= Z.lor a b)%Z) as Hnn.
  { intros a b Ha Hb. by apply Z.lor_nonneg. }
  destruct ((224 <=? byte_of c) && (byte_of c <=? 239))%Z eqn:E3.
  { destruct (cont _ _ c1 && _) eqn:Ec; [|by apply Hbig]. apply Hbig. breflect.
    destruct Ec as [Ec _]. unfold cont in Ec. breflect. rewrite !Z.leb_le in E3, Ec.
    change 15%Z with (Z.ones 4). rewrite low_bits, !Z.shiftl_mul_pow2 by done.
    destruct (byte_of c =? 224)%Z eqn:E224.
    - apply Z.eqb_eq in E224. rewrite E224. rewrite Z.lor_0_l.
      etrans; [|apply lor_ge; euclid]. unfold low6. change 63%Z with (Z.ones 6).
      rewrite low_bits by done. assert (byte_of c1 < 192)%Z by (destruct Ec; case_match; lia). euclid.
    - apply Z.eqb_neq in E224. etrans; [|apply lor_ge; [euclid|apply Hnn; euclid]]. euclid. }
  destruct s3 as [|c3 s4]; [by apply Hbig|].
  pose proof (low6_bounds c3) as H3.
  destruct (_ && cont 128 191 c3) eqn:E4; [|by apply Hbig]. apply Hbig. breflect.
  destruct E4 as [[[E4 Ec] _] _]. unfold cont in Ec. breflect. rewrite !Z.leb_le in E4, Ec.
  change 7%Z with (Z.ones 3). rewrite low_bits, !Z.shiftl_mul_pow2 by done.
  destruct (byte_of c =? 240)%Z eqn:E240.
  - apply Z.eqb_eq in E240. rewrite E240. rewrite Z.lor_0_l.
    etrans; [|apply lor_ge; [euclid|apply Hnn; euclid]]. unfold low6. change 63%Z with (Z.ones 6).
    rewrite low_bits by done. assert (byte_of c1 < 192)%Z by (destruct Ec; case_match; lia). euclid.
  - apply Z.eqb_neq in E240. etrans; [|apply lor_ge; [euclid|apply Hnn; [euclid|apply Hnn; euclid]]]. euclid.
Qed.

(** An ASCII rune of a string is one byte of it. *)
Lemma runes_byte s : Forall (fun r => (r.1 < 128)%Z -> exists c, r.2 = String c "" /\ byte_of c = r.1) (runes s).
Proof.
  unfold runes. generalize (String.length s) as n. intros n. revert s.
  induction n as [|n IH]; intros s; [constructor|]. simpl.
  destruct (decode_rune s) as [[r s']|] eqn:E; [|constructor].
  constructor; [|apply IH]. by apply (decode_ascii s r s').
Qed.

Lemma decode_splits s r s' : decode_rune s = Some (r, s') ->
  s = r.2 +:+ s' /\ String.length s' < String.length s.
Proof.
  destruct s as [|c s1]; [done|]. unfold decode_rune. cbv zeta.
  repeat case_match; intros; simplify_eq/=; split; try done; lia.
Qed.

Lemma unrunes_runes s : unrunes (runes s) = s.
Proof.
  unfold runes. assert (forall n s, String.length s <= n -> unrunes (runes_fuel n s) = s) as H; [|by apply H].
  clear s. induction n as [|n IH]; intros s Hl; [by destruct s; simpl in Hl; [|lia]|].
  simpl. destruct (decode_rune s) as [[r s']|] eqn:E.
  - apply decode_splits in E as [-> Hlt]. simpl. rewrite IH; [done|]. lia.
  - destruct s; [done|]. simpl in E. repeat case_match; done.
Qed.

(** A string whose runes are all of ASCII is the list of its bytes. *)
Lemma runes_all_ascii s : Forall (fun c => (c < 128)%Z) (fst <$> runes s) ->
  byte_of <$> String.list_ascii_of_string s = fst <$> runes s.
Proof.
  intros H. rewrite <- (unrunes_runes s) at 1. revert H.
  induction (runes_byte s) as [|r l Hr Hl IH]; [done|]. rewrite fmap_cons.
  intros [H1 H2]%Forall_cons. destruct (Hr H1) as (c & Hc & Hb). simpl. rewrite Hc. cbn [String.append String.list_ascii_of_string].
  rewrite fmap_cons, Hb. f_equal. by apply IH.
Qed.

#[export] Hint Resolve denotes_eps denotes_cls denotes_cat denotes_alt denotes_lit denotes_upto
  closes_eot closes_cat : unc.
