(* ===== verification/ApiNames.v ===== *)
(** * Names, labels and identifiers of runs: [internal/server/grpc.go], [internal/repoutil].

    What is made of user input before it names something: the identifier of a new run, the
    label values, the display name.  Matching is by rune, as in the source; lower case and
    white space are those of ASCII. *)

From S2P Require Import Prelude GoStrings GoUrl Regex RegexLang.

Local Open Scope Z_scope.

(** [internal/repoutil/repoutil.go:13-25] NameFromURL *)
Definition NameFromURL (repoURL : string) : string :=
  if String.eqb repoURL "" then ""
  else
    let plain := TrimSuffix (Base repoURL) ".git" in
    match url_Parse repoURL with
    | Err _ => plain
    | Ok u =>
        if String.eqb (u_Path u) "" || String.eqb (u_Path u) "/" then plain
        else
          let base := Base (u_Path u) in
          if String.eqb base "." || String.eqb base "/" then plain
          else TrimSuffix base ".git"
    end.

Example NameFromURL_examples :
  NameFromURL <$> ["https://github.com/org/repo.git"; "git@github.com:org/repo.git";
                   "https://github.com/example/repo/"; "repo-name"; ""]
  = ["repo"; "repo"; "repo"; "repo-name"; ""].
Proof. vm_compute. reflexivity. Qed.

(** ** Identifiers *)

(** A lower-case letter or a digit. *)
Definition id_class (c : Z) : bool := range "a" "z" c || range "0" "9" c.

(** [internal/server/grpc.go:62-62] runIDPattern *)
Definition runIDPattern : regex :=
  cats [Bot; lit "ar-"; repeat_range 4 10 (Cls id_class); Eot].

(** [internal/server/grpc.go:64-69] validateRunID: whether there is no error *)
Definition validateRunID (id : string) : bool := MatchString runIDPattern id.

Definition run_name_chars : string := "abcdefghijklmnopqrstuvwxyz0123456789".

(** [internal/server/grpc.go:851-857] generateRunName: the suffix.  [rand] answers the calls of
    [rand.Int], in order. *)
Fixpoint run_suffix (k : nat) (rand : nat -> result Z) : result string :=
  match k with
  | O => Ok ""
  | S k' =>
      match rand O with
      | Err e => Err ("generate run name: " +:+ e)
      | Ok n =>
          match run_suffix k' (fun i => rand (S i)) with
          | Ok s => Ok (String (default "000"%char (String.get (Z.to_nat n) run_name_chars)) s)
          | Err e => Err e
          end
      end
  end.

(** [internal/server/grpc.go:849-860] generateRunName *)
Definition generateRunName (rand : nat -> result Z) : result string :=
  match run_suffix 6 rand with Ok s => Ok ("ar-" +:+ s) | Err e => Err e end.

(** ** Labels *)

(** [re.ReplaceAllString] for an expression that matches one rune outside a class. *)
Definition replace_runes (keep : Z -> bool) (by_ : string) (s : string) : string :=
  foldr (fun r acc => (if keep r.1 then r.2 else by_) +:+ acc) "" (runes s).

Definition label_class (c : Z) : bool :=
  range "a" "z" c || range "A" "Z" c || range "0" "9" c || one_of "._-" c.

(** [internal/server/grpc.go:811-819] sanitizeLabelValue *)
Definition sanitizeLabelValue (v : string) : string :=
  let v := replace_runes label_class "-" v in
  let v := TrimLeftFunc (fun c => negb (is_alnum c)) v in
  let v := TrimRightFunc (fun c => negb (is_alnum c)) v in
  if (63 <? String.length v)%nat then str_take 63 v else v.

(** ** Display names *)

(** [re.ReplaceAllString] of a run of hyphens by one hyphen. *)
Fixpoint squeeze (s : string) : string :=
  match s with
  | String "-" ((String "-" _) as s') => squeeze s'
  | String c s' => String c (squeeze s')
  | EmptyString => EmptyString
  end.

(** [internal/server/grpc.go:956-974] deriveNameFromPrompt *)
Definition deriveNameFromPrompt (prompt : string) : string :=
  let name := ToLower (Join (take 5 (Fields prompt)) "-") in
  let name := replace_runes (fun c => id_class c || is_char "-" c) "" name in
  let name := Trim (squeeze name) "-" in
  if (50 <? String.length name)%nat then str_take 50 name else name.

(** [internal/server/grpc.go:864-864] displayNameRegex *)
Definition displayNameRegex : regex :=
  cats [Bot; Cls id_class; repeat_range 2 48 (Cls (fun c => id_class c || is_char "-" c));
        Cls id_class; Eot].

(** What the completion request comes to: it could not be made or read, the status was not
    OK, or the texts of the choices. *)
Inductive llm_reply := LLMFailed | LLMStatus (code_ : Z) | LLMChoices (texts : list string).

(** [internal/server/grpc.go:868-952] generateDisplayName: [ask] posts to a URL with a message *)
Definition generateDisplayName (baseURL : string) (ask : string -> string -> llm_reply)
    (prompt : string) : string :=
  if String.eqb baseURL "" || String.eqb prompt "" then ""
  else
    let truncated := if (200 <? String.length prompt)%nat then str_take 200 prompt else prompt in
    let llmBase := TrimSuffix (TrimRight baseURL "/") "/v1" in
    match ask (llmBase +:+ "/v1/chat/completions") truncated with
    | LLMFailed | LLMStatus _ | LLMChoices [] => deriveNameFromPrompt prompt
    | LLMChoices (text :: _) =>
        let name := TrimSpace (ToLower text) in
        if MatchString displayNameRegex name then name else deriveNameFromPrompt prompt
    end.

Example display_names :
  (deriveNameFromPrompt "Fix the -- Login bug, please now!",
   generateDisplayName "http://llm/" (fun _ _ => LLMChoices [" Fix-login-bug "]) "Fix it",
   generateDisplayName "http://llm/" (fun _ _ => LLMChoices ["Sure! Here"]) "Fix it")
  = ("fix-the-login-bug", "fix-login-bug", "fix-it").
Proof. vm_compute. reflexivity. Qed.

Example label_examples :
  sanitizeLabelValue <$> ["My App"; "--x--"; "café/1"] = ["My-App"; "x"; "caf--1"].
Proof. vm_compute. reflexivity. Qed.

(** ** Every generated identifier is valid *)

Lemma id_class_ascii a : id_class (byte_of a) = true -> (byte_of a <? 128) = true.
Proof.
  unfold id_class, range. intros H. apply Z.ltb_lt.
  assert (byte_of "z" = 122 /\ byte_of "9" = 57) as [Hz H9] by done. breflect.
  rewrite !Z.leb_le in H. lia.
Qed.

Lemma run_name_chars_class n : 0 <= n < 36 ->
  id_class (byte_of (default "000"%char (String.get (Z.to_nat n) run_name_chars))) = true.
Proof.
  intros Hn.
  assert (forallb (fun i => id_class (byte_of (default "000"%char (String.get i run_name_chars))))
    (seq 0 36) = true) as H by done.
  rewrite forallb_elem in H. apply H, elem_of_seq. lia.
Qed.

Lemma run_suffix_spec k rand s (Hrand : forall i n, rand i = Ok n -> 0 <= n < 36) :
  run_suffix k rand = Ok s ->
  String.length s = k /\
  Forall (fun c => id_class (byte_of c) = true) (String.list_ascii_of_string s).
Proof.
  revert rand s Hrand. induction k as [|k IH]; intros rand s Hrand Hs; simpl in Hs.
  - by simplify_eq.
  - destruct (rand O) as [n|] eqn:Hn; [|done].
    destruct (run_suffix k _) as [t|] eqn:Ht; [|done]. simplify_eq. apply IH in Ht as [<- Hall].
    + split; [done|]. constructor; [|done]. by apply run_name_chars_class, (Hrand O).
    + intros i. apply Hrand.
Qed.

(** What an identifier of a run is, by its runes. *)
Lemma validateRunID_spec id :
  validateRunID id = true <->
  exists l, fst <$> runes id = (byte_of <$> ["a"; "r"; "-"]%char) ++ l /\
    (4 <= length l <= 10)%nat /\ Forall (fun c => id_class c = true) l.
Proof.
  unfold validateRunID, runIDPattern. cbn [cats].
  rewrite match_anchored by (eauto using denotes_repeat_range with unc lia).
  split.
  - intros (? & ? & -> & -> & l & ? & -> & [Hl Hc] & ->). exists l. by rewrite app_nil_r.
  - intros (l & -> & Hl & Hc). eexists _, l. split_and!; [done..|]. exists l, []. by rewrite app_nil_r.
Qed.

Lemma generated_name_ok rand name :
  (forall i n, rand i = Ok n -> 0 <= n < 36) -> generateRunName rand = Ok name ->
  validateRunID name = true /\ String.length name = 9%nat.
Proof.
  intros Hrand Hname. unfold generateRunName in Hname. destruct (run_suffix 6 rand) as [s|] eqn:Hs; [|done].
  simplify_eq. apply run_suffix_spec in Hs as [Hl Hall]; [|done].
  split; [|simpl; by rewrite Hl].
  apply validateRunID_spec. exists (byte_of <$> String.list_ascii_of_string s). split_and!.
  - rewrite runes_ascii; [done|]. cbn. repeat (constructor; [done|]).
    eapply Forall_impl; [exact Hall|]. apply id_class_ascii.
  - rewrite length_fmap, length_list_ascii, Hl. lia.
  - rewrite length_fmap, length_list_ascii, Hl. lia.
  - by apply Forall_fmap.
Qed.

(** C39. Every run is addressable.  Whatever the random numbers are, within the range that was
    asked for, the generated name is a valid run identifier: every method of the service that
    takes one accepts it. *)
Theorem generated_name_valid (rand : nat -> result Z) (name : string)
    (Hrand : forall i n, rand i = Ok n -> 0 <= n < 36) (Hname : generateRunName rand = Ok name) :
  validateRunID name = true /\ String.length name = 9%nat.
Proof. by apply (generated_name_ok rand). Qed.

Lemma generated_name_valid_witness :
  validateRunID "ar-ahov29" = true /\ String.length "ar-ahov29" = 9%nat.
Proof.
  apply (generated_name_valid (fun i => if decide (i < 6)%nat then Ok (Z.of_nat i * 7) else Err "")).
  - intros i n H. case_decide; [|done]. simplify_eq. lia.
  - by vm_compute.
Defined.

(** ** What sanitizing guarantees *)

Notation chars := String.list_ascii_of_string.

Definition all_chars (P : Ascii.ascii -> bool) (s : string) : Prop :=
  Forall (fun c => P c = true) (chars s).

Lemma chars_app a b : chars (a +:+ b) = chars a ++ chars b.
Proof. induction a as [|c a IH]; [done|]. simpl. by f_equal. Qed.

Lemma chars_take n s : chars (str_take n s) = take n (chars s).
Proof. revert s. induction n as [|n IH]; intros [|c s]; try done. simpl. by f_equal. Qed.

Lemma chars_trim_left P s : exists l, chars s = l ++ chars (TrimLeftFunc P s).
Proof.
  induction s as [|c s [l IH]]; [by exists []|]. simpl. destruct (P c); [|by exists []].
  exists (c :: l). simpl. by rewrite <- IH.
Qed.

Lemma chars_trim_right P s : exists l, chars s = chars (TrimRightFunc P s) ++ l.
Proof.
  induction s as [|c s [l IH]]; [by exists []|]. simpl.
  destruct (TrimRightFunc P s) as [|d t]; [destruct (P c)|]; simpl in *.
  - by exists (c :: l); rewrite IH.
  - exists l. by rewrite IH.
  - exists l. by rewrite IH.
Qed.

Lemma trim_right_last P s c : last (chars (TrimRightFunc P s)) = Some c -> P c = false.
Proof.
  induction s as [|d s IH]; [done|]. simpl.
  destruct (TrimRightFunc P s) as [|e t]; [destruct (P d) eqn:Hd|]; simpl in *; [done| |done].
  intros ?. by simplify_eq.
Qed.

Lemma trim_right_head P s c l : chars (TrimRightFunc P s) = c :: l -> exists l', chars s = c :: l'.
Proof. intros H. destruct (chars_trim_right P s) as [k ->]. rewrite H. by eexists. Qed.

Lemma replace_runes_all keep rep Q s :
  (forall c, keep c = true -> c < 128) -> (forall c, keep (byte_of c) = true -> Q c = true) ->
  all_chars Q rep -> all_chars Q (replace_runes keep rep s).
Proof.
  intros Hkeep HQ Hrep. unfold replace_runes. induction (runes_byte s) as [|r l Hr Hl IH]; [constructor|].
  simpl. unfold all_chars. rewrite chars_app. apply Forall_app. split; [|done].
  destruct (keep r.1) eqn:Hk; [|done].
  destruct (Hr (Hkeep _ Hk)) as (c & -> & Hc). constructor; [|constructor]. apply HQ. by rewrite Hc.
Qed.

(** A valid value of a label, as Kubernetes has it. *)
Definition label_char (c : Ascii.ascii) : bool := is_alnum c || char_in "._-" c.
Definition valid_label (v : string) : Prop :=
  (String.length v <= 63)%nat /\ all_chars label_char v /\
  (forall c, head (chars v) = Some c -> is_alnum c = true) /\
  (forall c, last (chars v) = Some c -> is_alnum c = true).

(** The text before it is cut. *)
Definition trimmed_label (v : string) : string :=
  TrimRightFunc (fun c => negb (is_alnum c))
    (TrimLeftFunc (fun c => negb (is_alnum c)) (replace_runes label_class "-" v)).

Lemma label_class_char c : label_class (byte_of c) = true -> label_char c = true.
Proof. destruct c as [[] [] [] [] [] [] [] []]; done. Qed.

Lemma label_class_ascii z : label_class z = true -> z < 128.
Proof.
  unfold label_class, range, one_of, is_char. intros H.
  assert (byte_of "z" = 122 /\ byte_of "Z" = 90 /\ byte_of "9" = 57) as (? & ? & ?) by done.
  breflect. rewrite !Z.leb_le in H. rewrite existsb_elem in H.
  destruct H as [[[H|H]|H]|(a & Ha & ->%Z.eqb_eq)]; [lia..|].
  cbn in Ha. rewrite !elem_of_cons in Ha. destruct Ha as [-> | [-> | [-> | Ha]]]; by try (by apply elem_of_nil in Ha).
Qed.

Lemma head_take {A} n (l : list A) : (0 < n)%nat -> head (take n l) = head l.
Proof. destruct n; [lia|]. by destruct l. Qed.

Lemma str_length_take n s : String.length (str_take n s) = Nat.min n (String.length s).
Proof. by rewrite <- !length_list_ascii, chars_take, length_take. Qed.

Lemma trimmed_label_shape v :
  all_chars label_char (trimmed_label v) /\
  (forall c, head (chars (trimmed_label v)) = Some c -> is_alnum c = true) /\
  (forall c, last (chars (trimmed_label v)) = Some c -> is_alnum c = true).
Proof.
  unfold trimmed_label. set (w := TrimLeftFunc _ _). split_and!.
  - assert (all_chars label_char (replace_runes label_class "-" v)) as H.
    { apply replace_runes_all; [apply label_class_ascii|apply label_class_char|by repeat constructor]. }
    destruct (chars_trim_left (fun c => negb (is_alnum c)) (replace_runes label_class "-" v)) as [l1 H1].
    destruct (chars_trim_right (fun c => negb (is_alnum c)) w) as [l2 H2]. fold w in H1.
    unfold all_chars in *. rewrite H1, H2 in H. apply Forall_app in H as [_ H].
    by apply Forall_app in H as [H _].
  - intros c. destruct (TrimRightFunc _ w) as [|d t] eqn:Hd; [done|]. intros [= <-].
    apply TrimRightFunc_nonempty in Hd as [u Hu]. unfold w in Hu.
    apply TrimLeftFunc_head in Hu. by apply negb_false_iff.
  - intros c Hc%trim_right_last. by apply negb_false_iff.
Qed.

(** What sanitizing a label guarantees.  The result has at most 63 bytes, all of them legal
    in a label, and starts with a letter or a digit; and it is a valid label value exactly if
    the text was not cut, or the cut did not fall behind a punctuation mark: the ends are
    trimmed before the text is cut, not after. *)
Theorem sanitized_label (v : string) :
  let l := sanitizeLabelValue v in
  (String.length l <= 63)%nat /\ all_chars label_char l /\
  (forall c, head (chars l) = Some c -> is_alnum c = true) /\
  (valid_label l <->
   ((63 < String.length (trimmed_label v))%nat ->
    forall c, chars (trimmed_label v) !! 62%nat = Some c -> is_alnum c = true)).
Proof.
  destruct (trimmed_label_shape v) as (Hall & Hhead & Hlast).
  unfold sanitizeLabelValue. fold (trimmed_label v). cbv zeta.
  destruct (63 <? String.length (trimmed_label v))%nat eqn:Hlen.
  - apply Nat.ltb_lt in Hlen. rewrite str_length_take.
    assert (all_chars label_char (str_take 63 (trimmed_label v))) as Hall'.
    { unfold all_chars. rewrite chars_take. by apply Forall_take. }
    assert (forall c, head (chars (str_take 63 (trimmed_label v))) = Some c -> is_alnum c = true) as Hhead'.
    { intros c. rewrite chars_take, head_take by lia. apply Hhead. }
    split_and!; [lia|done|done|]. unfold valid_label.
    rewrite str_length_take, chars_take. rewrite chars_take in Hhead'.
    assert (forall l : list Ascii.ascii, (63 < length l)%nat -> last (take 63 l) = l !! 62%nat) as Hl.
    { intros l Hl. rewrite last_lookup, length_take, lookup_take_lt; f_equal; lia. }
    rewrite Hl by (by rewrite length_list_ascii). split; [by intros (_ & _ & _ & H)|].
    intros H. split_and!; [lia|unfold all_chars; by rewrite chars_take; apply Forall_take|done|by apply H].
  - apply Nat.ltb_ge in Hlen. split_and!; [done..|]. unfold valid_label.
    split; [intros _ ?; lia|]. intros _. split; [done|]. by split_and!.
Qed.

(** A project name of 64 characters whose label is not valid. *)
Example cut_label :
  let v := String.concat "" (replicate 62 "a") +:+ "-b" in
  sanitizeLabelValue v = String.concat "" (replicate 62 "a") +:+ "-".
Proof. by vm_compute. Qed.

(** A byte of a display name. *)
Definition name_char (c : Ascii.ascii) : bool := id_class (byte_of c) || Ascii.eqb c "-".

Lemma all_chars_trim P Q s : all_chars Q s -> all_chars Q (TrimFunc P s).
Proof.
  unfold all_chars, TrimFunc. intros H. destruct (chars_trim_left P s) as [l1 H1].
  destruct (chars_trim_right P (TrimLeftFunc P s)) as [l2 H2]. rewrite H1, H2 in H.
  apply Forall_app in H as [_ H]. by apply Forall_app in H as [H _].
Qed.

Lemma all_chars_squeeze Q s : all_chars Q s -> all_chars Q (squeeze s).
Proof.
  unfold all_chars. induction s as [|c s IH]; [done|]. intros [Hc Hs]%Forall_cons.
  assert (squeeze (String c s) = squeeze s \/ squeeze (String c s) = String c (squeeze s)) as [-> | ->].
  - simpl. destruct c as [[] [] [] [] [] [] [] []]; try (by right).
    destruct s as [|[[] [] [] [] [] [] [] []] s]; auto.
  - by apply IH.
  - constructor; [done|by apply IH].
Qed.

(** The shape of a display name.  Whatever the model answers and whatever the prompt is, the
    display name has at most 50 bytes, each a lower-case letter, a digit or a hyphen, and does
    not start with a hyphen. *)
Theorem display_name_shape (base prompt : string) (ask : string -> string -> llm_reply) :
  let name := generateDisplayName base ask prompt in
  (String.length name <= 50)%nat /\ all_chars name_char name /\ head (chars name) <> Some "-"%char.
Proof.
  assert (let d := deriveNameFromPrompt prompt in
    (String.length d <= 50)%nat /\ all_chars name_char d /\ head (chars d) <> Some "-"%char) as Hd.
  { unfold deriveNameFromPrompt. cbv zeta.
    set (raw := replace_runes _ _ _). set (name := Trim _ _).
    assert (all_chars name_char name) as Hall.
    { apply all_chars_trim, all_chars_squeeze, replace_runes_all; [| |constructor].
      - unfold id_class, range, is_char. intros c H.
        assert (byte_of "z" = 122 /\ byte_of "9" = 57 /\ byte_of "-" = 45) as (? & ? & ?) by done.
        breflect. rewrite !Z.leb_le, Z.eqb_eq in H. lia.
      - intros c. destruct c as [[] [] [] [] [] [] [] []]; done. }
    assert (head (chars name) <> Some "-"%char) as Hhead.
    { unfold name, Trim. destruct (TrimFunc _ _) as [|c t] eqn:E; [done|].
      apply TrimFunc_head in E. intros [= ->]. done. }
    destruct (50 <? String.length name)%nat eqn:Hlen.
    - rewrite str_length_take. unfold all_chars. rewrite chars_take, head_take by lia.
      split_and!; [lia|by apply Forall_take|done].
    - apply Nat.ltb_ge in Hlen. by split_and!. }
  unfold generateDisplayName. cbv zeta.
  destruct (String.eqb base "" || String.eqb prompt ""); [by split_and!; [simpl; lia|constructor|]|].
  destruct (ask _ _) as [| |[|text texts]]; [done..|].
  destruct (MatchString displayNameRegex _) eqn:Hm; [|done].
  revert Hm. generalize (TrimSpace (ToLower text)). intros name Hm.
  unfold displayNameRegex in Hm. cbn [cats] in Hm.
  rewrite match_anchored in Hm by (eauto using denotes_repeat_range with unc lia).
  destruct Hm as (? & ? & Hr & (c & -> & Hc) & mid & ? & -> & [Hl Hmid] & ? & ? & -> & (d & -> & Hd') & ->).
  assert (Forall (fun z => id_class z || is_char "-" z = true) (fst <$> runes name)) as Hall.
  { rewrite Hr. simpl. constructor; [by rewrite Hc|]. apply Forall_app. split; [done|].
    constructor; [by rewrite Hd'|constructor]. }
  assert (forall z, id_class z || is_char "-" z = true -> z < 128) as Hsmall.
  { unfold id_class, range, is_char. intros z H.
    assert (byte_of "z" = 122 /\ byte_of "9" = 57 /\ byte_of "-" = 45) as (? & ? & ?) by done.
    breflect. rewrite !Z.leb_le, Z.eqb_eq in H. lia. }
  assert (byte_of <$> chars name = fst <$> runes name) as Hbytes.
  { apply runes_all_ascii. eapply Forall_impl; [exact Hall|done]. }
  split_and!.
  - rewrite <- length_list_ascii, <- (length_fmap byte_of), Hbytes, Hr. simpl.
    rewrite length_app. simpl. lia.
  - unfold all_chars. rewrite <- Hbytes in Hall. apply Forall_fmap in Hall.
    eapply Forall_impl; [exact Hall|]. intros a. destruct a as [[] [] [] [] [] [] [] []]; done.
  - rewrite Hr in Hbytes. destruct (chars name) as [|a l]; [done|]. simpl in Hbytes.
    intros [= ->]. injection Hbytes as <- _. done.
Qed.
