(* ===== verification/ApiProto.v ===== *)
(** * The messages of the API and the stored runs: [internal/server/grpc.go].

    The conversions between the messages of the service and the AgentRun resource, in both
    directions, with the names and labels that are derived from user input.  A message of
    the generated package that has the fields of a resource struct is that struct. *)

From S2P Require Import Prelude GoStrings Regex ApiTypes Kube TemporalTypes RunController.

Local Open Scope Z_scope.

(** ** Messages *)

(** The phases of a message. *)
Inductive PPhase :=
| PHASE_UNSPECIFIED | PHASE_PENDING | PHASE_RUNNING | PHASE_WAITING_FOR_INPUT
| PHASE_SUCCEEDED | PHASE_FAILED | PHASE_CANCELLED.

#[export] Instance PPhase_eq_dec : EqDecision PPhase.
Proof. solve_decision. Defined.

(** The orchestration modes of a message. *)
Inductive PMode := MODE_UNSPECIFIED | MODE_SINGLE | MODE_AUTO | MODE_MANUAL | MODE_SPEC_DRIVEN.

(** The pipeline stages of a message are pointers. *)
Record PPipeline := {
  pp_Plan : option StageConfig; pp_Execute : option StageConfig; pp_Verify : option StageConfig;
}.

(** The specification of a run, as a message. *)
Record PSpec := {
  ps_Repos : list ApiTypes.Repository; ps_Prompt : string; ps_DevboxConfig : string;
  ps_TtlSeconds : Z; ps_EnvVars : list (string * string); ps_ModelTier : string;
  ps_Image : string; ps_MaxBudget : float64; ps_SpecContent : string; ps_SpecSource : string;
  ps_WorkspaceName : string; ps_ParentRunId : string; ps_OrchestrationMode : PMode;
  ps_Orchestration : option (list ApiTypes.OrchestrationTask); ps_SpecRunId : string;
  ps_DisplayName : string; ps_PipelineConfig : option PPipeline; ps_AutoPush : bool;
  ps_AutoPr : bool; ps_PrBaseBranch : string; ps_Project : string; ps_Feature : string;
  ps_Tags : list string; ps_ProjectRef : string; ps_SpecRef : string; ps_ApprovalMode : string;
}.

(** The status of a run, as a message. *)
Record PStatus := {
  px_Phase : PPhase; px_Message : string; px_PodName : string; px_TraceId : string;
  px_StartedAt : option time; px_CompletedAt : option time; px_WorktreePath : string;
  px_LogOutput : string; px_RetainUntil : option time; px_DeploymentName : string;
  px_DebugActive : bool; px_Stage : string; px_RetryCount : Z; px_VerificationResult : string;
  px_PrUrl : string; px_TotalCost : string; px_TotalAdditions : Z; px_TotalDeletions : Z;
}.

Record PRun := {
  pn_Id : string; pn_Name : string; pn_Spec : PSpec; pn_Status : PStatus;
  pn_CreatedAt : time; pn_Children : list string;
}.

(** ** Phases *)

(** [internal/server/grpc.go:1185-1202] crdPhaseToProto *)
Definition crdPhaseToProto (phase : AgentRunPhase) : PPhase :=
  match phase with
  | AgentRunPhasePending => PHASE_PENDING
  | AgentRunPhaseRunning => PHASE_RUNNING
  | AgentRunPhaseWaitingForInput => PHASE_WAITING_FOR_INPUT
  | AgentRunPhaseSucceeded => PHASE_SUCCEEDED
  | AgentRunPhaseFailed => PHASE_FAILED
  | AgentRunPhaseCancelled => PHASE_CANCELLED
  | AgentRunPhaseOther _ => PHASE_UNSPECIFIED
  end.

(** [internal/server/grpc.go:822-830] isTerminalPhase *)
Definition isTerminalPhase (phase : PPhase) : bool :=
  match phase with PHASE_SUCCEEDED | PHASE_FAILED | PHASE_CANCELLED => true | _ => false end.

(** [internal/server/grpc.go:1206-1222] mapWorkflowStateToProto: the phase *)
Definition workflowPhase (phase : string) : PPhase :=
  if String.eqb phase "Creating" then PHASE_PENDING
  else if String.eqb phase "Hydrating" then PHASE_RUNNING
  else if String.eqb phase "Running" then PHASE_RUNNING
  else if String.eqb phase "WaitingForInput" then PHASE_WAITING_FOR_INPUT
  else if String.eqb phase "Succeeded" then PHASE_SUCCEEDED
  else if String.eqb phase "Failed" then PHASE_FAILED
  else if String.eqb phase "Cancelled" || String.eqb phase "Cancelling" then PHASE_CANCELLED
  else PHASE_PENDING.

(** [internal/server/grpc.go:290-318] GetAgentRun: the fields that the workflow's state
    overwrites *)
Definition enrich (state : WorkflowState) (s : PStatus) : PStatus :=
  {| px_Phase := workflowPhase (ws_Phase state); px_Message := ws_Message state;
     px_PodName := if String.eqb (ws_PodName state) "" then px_PodName s else ws_PodName state;
     px_TraceId := px_TraceId s; px_StartedAt := px_StartedAt s;
     px_CompletedAt := px_CompletedAt s; px_WorktreePath := px_WorktreePath s;
     px_LogOutput := px_LogOutput s; px_RetainUntil := px_RetainUntil s;
     px_DeploymentName := px_DeploymentName s; px_DebugActive := px_DebugActive s;
     px_Stage := px_Stage s; px_RetryCount := px_RetryCount s;
     px_VerificationResult := px_VerificationResult s;
     px_PrUrl := if String.eqb (ws_PRUrl state) "" then px_PrUrl s else ws_PRUrl state;
     px_TotalCost := px_TotalCost s; px_TotalAdditions := px_TotalAdditions s;
     px_TotalDeletions := px_TotalDeletions s |}.

(** ** Specifications *)

(** [internal/server/grpc.go:1065-1076] protoOrchModeToCRD *)
Definition protoOrchModeToCRD (m : PMode) : string :=
  match m with
  | MODE_AUTO => OrchestrationModeAuto
  | MODE_MANUAL => OrchestrationModeManual
  | MODE_SPEC_DRIVEN => OrchestrationModeSpecDriven
  | MODE_SINGLE | MODE_UNSPECIFIED => OrchestrationModeSingle
  end.

(** [internal/server/grpc.go:1078-1091] crdOrchModeToProto *)
Definition crdOrchModeToProto (m : string) : PMode :=
  if String.eqb m OrchestrationModeAuto then MODE_AUTO
  else if String.eqb m OrchestrationModeManual then MODE_MANUAL
  else if String.eqb m OrchestrationModeSingle then MODE_SINGLE
  else if String.eqb m OrchestrationModeSpecDriven then MODE_SPEC_DRIVEN
  else MODE_UNSPECIFIED.

Definition zero_stage : StageConfig :=
  {| sc_Model := ""; sc_TimeoutSeconds := 0; sc_MaxRetries := 0; sc_OnFailure := "" |}.

(** [internal/server/grpc.go:1044-1054] protoStageConfigToCRD *)
Definition protoStageConfigToCRD (sc : option StageConfig) : StageConfig :=
  match sc with
  | None => zero_stage
  | Some sc => {| sc_Model := sc_Model sc; sc_TimeoutSeconds := sc_TimeoutSeconds sc;
                  sc_MaxRetries := sc_MaxRetries sc; sc_OnFailure := sc_OnFailure sc |}
  end.

(** [internal/server/grpc.go:1056-1063] crdStageConfigToProto *)
Definition crdStageConfigToProto (sc : StageConfig) : option StageConfig :=
  Some {| sc_Model := sc_Model sc; sc_TimeoutSeconds := sc_TimeoutSeconds sc;
          sc_MaxRetries := sc_MaxRetries sc; sc_OnFailure := sc_OnFailure sc |}.

(** [internal/server/grpc.go:987-1042] specProtoToCRD *)
Definition specProtoToCRD (spec : PSpec) : AgentRunSpec :=
  {| rs_Backend := BackendPod;
     rs_Repos := (fun r => {| repo_URL := repo_URL r; repo_Branch := repo_Branch r;
                              repo_Path := repo_Path r |}) <$> ps_Repos spec;
     rs_Prompt := ps_Prompt spec; rs_DevboxConfig := ps_DevboxConfig spec;
     rs_TTLSeconds := ps_TtlSeconds spec; rs_EnvVars := ps_EnvVars spec;
     rs_Image := ps_Image spec; rs_ModelTier := ps_ModelTier spec; rs_ManageModelTier := "";
     rs_ImplementModelTier := ""; rs_SpecContent := ps_SpecContent spec;
     rs_SpecSource := ps_SpecSource spec; rs_ProjectRef := ps_ProjectRef spec;
     rs_SpecRef := ps_SpecRef spec; rs_WorkspaceName := ps_WorkspaceName spec;
     rs_ParentRunID := ps_ParentRunId spec;
     rs_OrchestrationMode := protoOrchModeToCRD (ps_OrchestrationMode spec);
     rs_Orchestration :=
       match ps_Orchestration spec with
       | Some (t :: ts) => Some ((fun t => {| ot_Name := ot_Name t; ot_Prompt := ot_Prompt t;
                                              ot_RepoURLs := ot_RepoURLs t |}) <$> t :: ts)
       | _ => None
       end;
     rs_SpecRunID := ps_SpecRunId spec; rs_DisplayName := ps_DisplayName spec;
     rs_PipelineConfig :=
       (fun c => {| pc_Plan := protoStageConfigToCRD (pp_Plan c);
                    pc_Execute := protoStageConfigToCRD (pp_Execute c);
                    pc_Verify := protoStageConfigToCRD (pp_Verify c) |}) <$> ps_PipelineConfig spec;
     rs_MaxBudget := ps_MaxBudget spec; rs_AutoPush := ps_AutoPush spec;
     rs_AutoPR := ps_AutoPr spec; rs_PRBaseBranch := ps_PrBaseBranch spec;
     rs_Project := ps_Project spec; rs_Feature := ps_Feature spec; rs_Tags := ps_Tags spec;
     rs_ApprovalMode := ps_ApprovalMode spec; rs_OpenspecChange := "" |}.

(** [internal/server/grpc.go:778-786] crdFieldOrLabel *)
Definition crdFieldOrLabel (crd : Run) (field_ labelKey : string) : string :=
  if String.eqb field_ "" then entry (m_Labels (run_Meta crd)) labelKey else field_.

Definition tagsKey : string := "aot.uncworks.io/tags".

(** [internal/server/grpc.go:789-806] crdTagsOrLabel *)
Definition crdTagsOrLabel (crd : Run) : list string :=
  match rs_Tags (run_Spec crd) with
  | [] =>
      let note := entry (m_Annotations (run_Meta crd)) tagsKey in
      if negb (String.eqb note "") then Split note ","%char
      else
        let old := entry (m_Labels (run_Meta crd)) tagsKey in
        if negb (String.eqb old "") then Split old ","%char else []
  | tags => tags
  end.

(** The copy of the tasks of an orchestration. *)
Definition crdTaskToProto_all (ts : list ApiTypes.OrchestrationTask) :
  list ApiTypes.OrchestrationTask :=
  map (fun t => {| ot_Name := ot_Name t; ot_Prompt := ot_Prompt t;
                   ot_RepoURLs := ot_RepoURLs t |}) ts.

(** [internal/server/grpc.go:1103-1144] crdToProto: the specification *)
Definition crdSpecToProto (crd : Run) : PSpec :=
  let s := run_Spec crd in
  {| ps_Repos := (fun r => {| repo_URL := repo_URL r; repo_Branch := repo_Branch r;
                              repo_Path := repo_Path r |}) <$> rs_Repos s;
     ps_Prompt := rs_Prompt s; ps_DevboxConfig := rs_DevboxConfig s;
     ps_TtlSeconds := rs_TTLSeconds s; ps_EnvVars := rs_EnvVars s;
     ps_ModelTier := rs_ModelTier s; ps_Image := rs_Image s; ps_MaxBudget := rs_MaxBudget s;
     ps_SpecContent := rs_SpecContent s; ps_SpecSource := rs_SpecSource s;
     ps_WorkspaceName := rs_WorkspaceName s; ps_ParentRunId := rs_ParentRunID s;
     ps_OrchestrationMode := crdOrchModeToProto (rs_OrchestrationMode s);
     ps_Orchestration :=
       crdTaskToProto_all <$> rs_Orchestration s;
     ps_SpecRunId := rs_SpecRunID s; ps_DisplayName := rs_DisplayName s;
     ps_PipelineConfig :=
       (fun c => {| pp_Plan := crdStageConfigToProto (pc_Plan c);
                    pp_Execute := crdStageConfigToProto (pc_Execute c);
                    pp_Verify := crdStageConfigToProto (pc_Verify c) |}) <$> rs_PipelineConfig s;
     ps_AutoPush := rs_AutoPush s; ps_AutoPr := rs_AutoPR s;
     ps_PrBaseBranch := rs_PRBaseBranch s;
     ps_Project := crdFieldOrLabel crd (rs_Project s) "aot.uncworks.io/project";
     ps_Feature := crdFieldOrLabel crd (rs_Feature s) "aot.uncworks.io/feature";
     ps_Tags := crdTagsOrLabel crd; ps_ProjectRef := ""; ps_SpecRef := "";
     ps_ApprovalMode := rs_ApprovalMode s |}.

(** [internal/server/grpc.go:1094-1182] crdToProto *)
Definition crdToProto (crd : Run) : PRun :=
  let st := run_Status crd in
  let rp := st_Reports st in
  {| pn_Id := run_name crd; pn_Name := run_name crd; pn_Spec := crdSpecToProto crd;
     pn_Status :=
       {| px_Phase := crdPhaseToProto (st_Phase st); px_Message := st_Message st;
          px_PodName := st_PodName st; px_TraceId := rp_TraceID rp;
          px_StartedAt := st_StartedAt st; px_CompletedAt := st_CompletedAt st;
          px_WorktreePath := rp_WorktreePath rp; px_LogOutput := rp_LogOutput rp;
          px_RetainUntil := rp_RetainUntil rp; px_DeploymentName := st_DeploymentName st;
          px_DebugActive := rp_DebugActive rp; px_Stage := rp_Stage rp;
          px_RetryCount := rp_RetryCount rp; px_VerificationResult := st_VerificationResult st;
          px_PrUrl := st_PRUrl st; px_TotalCost := rp_TotalCost rp;
          px_TotalAdditions := rp_TotalAdditions rp; px_TotalDeletions := rp_TotalDeletions rp |};
     pn_CreatedAt := m_Created (run_Meta crd); pn_Children := [] |}.


(** ** Round trips *)

Definition normal_mode (m : PMode) : PMode :=
  match m with MODE_UNSPECIFIED => MODE_SINGLE | m => m end.

Definition normal_pipeline (c : PPipeline) : PPipeline :=
  {| pp_Plan := Some (default zero_stage (pp_Plan c));
     pp_Execute := Some (default zero_stage (pp_Execute c));
     pp_Verify := Some (default zero_stage (pp_Verify c)) |}.

(** What is left of a specification that is stored and read back under a display name: an
    unspecified mode is the single one, missing stages are zero, an orchestration without
    tasks is none, and the references to a project and a spec are lost. *)
Definition normal (displayName : string) (s : PSpec) : PSpec :=
  {| ps_Repos := ps_Repos s; ps_Prompt := ps_Prompt s; ps_DevboxConfig := ps_DevboxConfig s;
     ps_TtlSeconds := ps_TtlSeconds s; ps_EnvVars := ps_EnvVars s;
     ps_ModelTier := ps_ModelTier s; ps_Image := ps_Image s; ps_MaxBudget := ps_MaxBudget s;
     ps_SpecContent := ps_SpecContent s; ps_SpecSource := ps_SpecSource s;
     ps_WorkspaceName := ps_WorkspaceName s; ps_ParentRunId := ps_ParentRunId s;
     ps_OrchestrationMode := normal_mode (ps_OrchestrationMode s);
     ps_Orchestration := match ps_Orchestration s with Some [] => None | o => o end;
     ps_SpecRunId := ps_SpecRunId s; ps_DisplayName := displayName;
     ps_PipelineConfig := normal_pipeline <$> ps_PipelineConfig s;
     ps_AutoPush := ps_AutoPush s; ps_AutoPr := ps_AutoPr s;
     ps_PrBaseBranch := ps_PrBaseBranch s; ps_Project := ps_Project s;
     ps_Feature := ps_Feature s; ps_Tags := ps_Tags s; ps_ProjectRef := ""; ps_SpecRef := "";
     ps_ApprovalMode := ps_ApprovalMode s |}.

Lemma mode_round_trip m : crdOrchModeToProto (protoOrchModeToCRD m) = normal_mode m.
Proof. by destruct m. Qed.

Lemma stage_round_trip c :
  crdStageConfigToProto (protoStageConfigToCRD c) = Some (default zero_stage c).
Proof. by destruct c as [[]|]. Qed.

Lemma repos_copy (l : list ApiTypes.Repository) :
  (fun r => {| repo_URL := repo_URL r; repo_Branch := repo_Branch r; repo_Path := repo_Path r |}) <$> l = l.
Proof. induction l as [|[] l IH]; [done|]. by rewrite fmap_cons, IH. Qed.

Lemma tasks_copy (l : list ApiTypes.OrchestrationTask) :
  map (fun t => {| ot_Name := ot_Name t; ot_Prompt := ot_Prompt t; ot_RepoURLs := ot_RepoURLs t |}) l = l.
Proof. induction l as [|[] l IH]; [done|]. simpl. by rewrite IH. Qed.

(** ** Phases *)

(** The phase that is shown of a run that is followed, whichever way it is read: the state of
    the workflow, and the phase that the controller stores for it, agree for every state but
    Hydrating, which one shows as running and the other as pending. *)
Lemma phase_views (s : string) :
  crdPhaseToProto (mapPhase s) = workflowPhase s <-> s <> "Hydrating".
Proof.
  unfold mapPhase, workflowPhase.
  destruct (String.eqb_spec s "Hydrating") as [->|]; [done|].
  split; [done|intros _].
  repeat match goal with
  | |- context [String.eqb s ?x] => destruct (String.eqb_spec s x); [by subst|]
  end. done.
Qed.
