(* ===== verification/ApiServer.v ===== *)
(** * The methods of the service: [internal/server/grpc.go].

    Each method is a handler over the answers of the API server, of Temporal and of the
    limiters; what it did is the list of its calls.  A client of Temporal may be missing. *)

From S2P Require Import Prelude GoStrings ApiTypes Kube TemporalTypes RunController RateLimit ApiNames ApiProto.

Local Open Scope Z_scope.

(** ** Calls, answers and replies *)

Inductive rpc_code :=
| InvalidArgument | ResourceExhausted | CodeNotFound | FailedPrecondition | Unavailable
| Unimplemented | Internal | Unknown.

Inductive reply (A : Type) := Reply (a : A) | Fault (c : rpc_code) (msg : string).
Arguments Reply {A} a.
Arguments Fault {A} c msg.

Inductive acall :=
| AAllow (ip : string) (allowed : bool)
| ACreate (r : Run) (a : result Run)
| AGet (name : string) (a : get_result Run)
| AList (labels : list (string * string)) (a : result (list Run))
| AQuery (id : string) (a : query_answer)
| ACancel (id : string) (a : result unit)
| ASignal (id input : string) (a : result unit).

Record temporal := {
  tc_query : string -> query_answer;
  tc_cancel : string -> result unit;
  tc_signal : string -> string -> result unit;
}.

(** [internal/server/grpc.go:39-60] AOTServiceHandler: the configuration, and the answers of
    what it calls; a run may be read twice by one request *)
Record AOTServiceHandler := {
  h_Namespace : string;
  h_LiteLLMBaseURL : string;
  h_ask : string -> string -> llm_reply;
  h_rand : nat -> result Z;
  h_createLimiter : option (string -> bool);
  h_cancelLimiter : option (string -> bool);
  h_maxConcurrentRuns : Z;
  h_create : Run -> result Run;
  h_get : nat -> string -> get_result Run;
  h_list : list (string * string) -> result (list Run);
  h_Temporal : option temporal;
}.

(** ** Creating a run *)

(** The assignment to the display name. *)
Definition set_DisplayName (name : string) (s : AgentRunSpec) : AgentRunSpec :=
  {| rs_Backend := rs_Backend s; rs_Repos := rs_Repos s; rs_Prompt := rs_Prompt s;
     rs_DevboxConfig := rs_DevboxConfig s; rs_TTLSeconds := rs_TTLSeconds s;
     rs_EnvVars := rs_EnvVars s; rs_Image := rs_Image s; rs_ModelTier := rs_ModelTier s;
     rs_ManageModelTier := rs_ManageModelTier s;
     rs_ImplementModelTier := rs_ImplementModelTier s; rs_SpecContent := rs_SpecContent s;
     rs_SpecSource := rs_SpecSource s; rs_ProjectRef := rs_ProjectRef s;
     rs_SpecRef := rs_SpecRef s; rs_WorkspaceName := rs_WorkspaceName s;
     rs_ParentRunID := rs_ParentRunID s; rs_OrchestrationMode := rs_OrchestrationMode s;
     rs_Orchestration := rs_Orchestration s; rs_SpecRunID := rs_SpecRunID s;
     rs_DisplayName := name; rs_PipelineConfig := rs_PipelineConfig s;
     rs_MaxBudget := rs_MaxBudget s; rs_AutoPush := rs_AutoPush s; rs_AutoPR := rs_AutoPR s;
     rs_PRBaseBranch := rs_PRBaseBranch s; rs_Project := rs_Project s;
     rs_Feature := rs_Feature s; rs_Tags := rs_Tags s; rs_ApprovalMode := rs_ApprovalMode s;
     rs_OpenspecChange := rs_OpenspecChange s |}.

Definition no_reports : RunReports :=
  {| rp_TraceID := ""; rp_WorktreePath := ""; rp_LogOutput := ""; rp_AgentJSONL := "";
     rp_RetainUntil := None; rp_DebugActive := false; rp_Stage := ""; rp_RetryCount := 0;
     rp_TotalCost := ""; rp_TotalAdditions := 0; rp_TotalDeletions := 0;
     rp_CIFixAttempts := 0; rp_LastCIStatus := ""; rp_ParentPRUrl := "" |}.

Definition queued_status (message : string) : RunStatus :=
  {| st_Phase := AgentRunPhasePending; st_Message := message; st_PodName := "";
     st_StartedAt := None; st_CompletedAt := None; st_Conditions := [];
     st_DeploymentName := ""; st_VerificationResult := ""; st_PRUrl := ""; st_Archived := false;
     st_Reports := no_reports |}.

(** The metadata of an object that was only named. *)
Definition named (namespace name : string) (labels annotations : gmap string string) : ObjectMeta :=
  {| m_Name := name; m_Namespace := namespace; m_Labels := labels; m_Annotations := annotations;
     m_Finalizers := []; m_Deleted := false; m_Created := -62135596800 |}.

Definition projectKey : string := "aot.uncworks.io/project".
Definition featureKey : string := "aot.uncworks.io/feature".
Definition repoKey : string := "aot.uncworks.io/repo".
Definition specRunKey : string := "aot.uncworks.io/spec-run-id".
Definition roleKey : string := "aot.uncworks.io/run-role".

(** An entry that is only set when its sanitized value is not empty. *)
Definition set_sanitized (key value : string) (m : gmap string string) : gmap string string :=
  let v := sanitizeLabelValue value in if String.eqb v "" then m else <[key := v]> m.

(** [internal/server/grpc.go:228-263] CreateAgentRun: the object that is submitted *)
Definition new_run (namespace name displayName : string) (spec : PSpec) : Run :=
  let s := set_DisplayName displayName (specProtoToCRD spec) in
  let labels := set_sanitized featureKey (rs_Feature s) (set_sanitized projectKey (rs_Project s) ∅) in
  let labels := match rs_Repos s with
                | [] => labels
                | r :: _ => set_sanitized repoKey (NameFromURL (repo_URL r)) labels
                end in
  let annotations := match rs_Tags s with [] => ∅ | tags => {[ tagsKey := Join tags "," ]} end in
  {| run_Meta := named namespace name labels annotations; run_Spec := s;
     run_Status := queued_status "Queued" |}.

(** [internal/server/grpc.go:189-211] CreateAgentRun: the known tiers *)
Definition validTiers : list string :=
  [""; "default"; "default-cloud"; "premium"; "ci"; "deepseek-v3.1"; "deepseek-v3.2"; "qwen3:8b";
   "llama3.1:8b"; "qwen2.5:0.5b"; "qwen3-coder"; "qwen3-235b"; "mistral-medium";
   "claude-sonnet-4"; "claude-haiku"; "claude-sonnet-4.6"; "gpt-4.1-mini"; "gemini-flash";
   "gemini-3-flash"; "gpt-oss-120b-free"; "qwen3-coder-free"].

Definition len (s : string) : Z := Z.of_nat (String.length s).

Section methods.
Variable h : AOTServiceHandler.

Notation H A := (handler acall (reply A)).

Definition fault {A B} (c : rpc_code) (msg : string) : H A B := return_ (Fault c msg).

Definition List_ {A} (labels : list (string * string)) : H A (result (list Run)) :=
  emit (AList labels (h_list h labels));; mret (h_list h labels).

(** [internal/server/grpc.go:833-846] countActiveRuns *)
Definition countActiveRuns {A} : H A (result Z) :=
  a ← List_ [];
  mret (match a with
        | Err e => Err ("list agentruns: " +:+ e)
        | Ok items =>
            Ok (Z.of_nat (length (filter
              (fun r => isTerminalPhase (crdPhaseToProto (st_Phase (run_Status r))) = false) items)))
        end).

(** A limiter, asked only for an address that is known. *)
Definition limited {A} (limiter : option (string -> bool)) (ip message : string) : H A unit :=
  match limiter with
  | Some allow =>
      if String.eqb ip "" then mret tt
      else emit (AAllow ip (allow ip));; if allow ip then mret tt else fault ResourceExhausted message
  | None => mret tt
  end.

(** [internal/server/grpc.go:170-180] CreateAgentRun: the limit of concurrent runs *)
Definition below_limit {A} : H A unit :=
  if 0 <? h_maxConcurrentRuns h then
    active ← countActiveRuns;
    match active with
    | Err _ => mret tt
    | Ok n =>
        if h_maxConcurrentRuns h <=? n then
          fault ResourceExhausted ("unavailable: concurrent run limit reached (" +:+ Itoa n +:+ "/" +:+
            Itoa (h_maxConcurrentRuns h) +:+ " active), try again later")
        else mret tt
    end
  else mret tt.

(** [internal/server/grpc.go:182-214] CreateAgentRun: the validation *)
Definition invalid_spec (spec : PSpec) : option string :=
  if String.eqb (ps_Prompt spec) "" && String.eqb (ps_SpecContent spec) "" then
    Some "invalid input: prompt is required"
  else if 32 * 1024 <? len (ps_Prompt spec) then Some "invalid input: prompt exceeds 32KB limit"
  else if bool_decide (ps_ModelTier spec ∈ validTiers) then None
  else Some ("invalid input: unknown model_tier " +:+ Quote (ps_ModelTier spec)).

(** [internal/server/grpc.go:150-277] CreateAgentRun *)
Definition CreateAgentRun (peer : string) (spec : option PSpec) : H PRun (reply PRun) :=
  limited (h_createLimiter h) (if String.eqb peer "" then "" else stripPort peer)
    "unavailable: rate limit exceeded for CreateAgentRun";;
  below_limit;;
  match spec with
  | None => fault InvalidArgument "invalid input: spec is required"
  | Some spec =>
      match invalid_spec spec with
      | Some e => fault InvalidArgument e
      | None =>
          match generateRunName (h_rand h) with
          | Err e => fault Internal ("generate name: " +:+ e)
          | Ok name =>
              let displayName := generateDisplayName (h_LiteLLMBaseURL h) (h_ask h) (ps_Prompt spec) in
              let crd := new_run (h_Namespace h) name displayName spec in
              emit (ACreate crd (h_create h crd));;
              match h_create h crd with
              | Err e => fault Internal ("create agentrun CRD: " +:+ e)
              | Ok stored => mret (Reply (crdToProto stored))
              end
          end
      end
  end.

(** ** Reading and steering a run *)

Definition workflowID (id : string) : string := "agentrun-" +:+ id.

(** [internal/server/grpc.go:64-69] validateRunID: the error *)
Definition checked {A} (id : string) : H A unit :=
  if validateRunID id then mret tt
  else fault InvalidArgument ("invalid input: invalid run ID format: " +:+ Quote id).

(** The run that a request names, at the [i]-th reading. *)
Definition read_run {A} (i : nat) (id : string) (c : rpc_code) (missing : string -> string) : H A Run :=
  emit (AGet id (h_get h i id));;
  match h_get h i id with
  | Found crd => mret crd
  | NotFound => fault c (missing "not found")
  | GetError e => fault c (missing e)
  end.

Definition named_run {A} (id : string) : H A Run :=
  checked id;;
  read_run 0 id CodeNotFound (fun _ => "not found: agent run " +:+ Quote id +:+ " not found").

Definition with_pstatus (st : PStatus) (r : PRun) : PRun :=
  {| pn_Id := pn_Id r; pn_Name := pn_Name r; pn_Spec := pn_Spec r; pn_Status := st;
     pn_CreatedAt := pn_CreatedAt r; pn_Children := pn_Children r |}.
Definition with_children (l : list string) (r : PRun) : PRun :=
  {| pn_Id := pn_Id r; pn_Name := pn_Name r; pn_Spec := pn_Spec r; pn_Status := pn_Status r;
     pn_CreatedAt := pn_CreatedAt r; pn_Children := l |}.

(** [internal/server/grpc.go:299-318] GetAgentRun: the state of the workflow *)
Definition enriched_run {A} (id : string) (run : PRun) : H A PRun :=
  match h_Temporal h with
  | None => mret run
  | Some t =>
      emit (AQuery (workflowID id) (tc_query t (workflowID id)));;
      mret (match tc_query t (workflowID id) with
            | Answers state => with_pstatus (enrich state (pn_Status run)) run
            | _ => run
            end)
  end.

(** [internal/server/grpc.go:279-333] GetAgentRun *)
Definition GetAgentRun (id : string) : H PRun (reply PRun) :=
  crd ← named_run id;
  run ← enriched_run id (crdToProto crd);
  children ← List_ [(specRunKey, id)];
  mret (Reply (match children with
               | Err _ => run
               | Ok items => with_children
                   (run_name <$> filter (fun c => rs_ParentRunID (run_Spec c) = id) items) run
               end)).

(** [internal/server/grpc.go:525-563] CancelAgentRun *)
Definition CancelAgentRun (peer id : string) : H PRun (reply PRun) :=
  limited (h_cancelLimiter h) (stripPort peer) "failed: rate limit exceeded";;
  _ ← named_run id;
  (match h_Temporal h with
   | None => mret tt
   | Some t =>
       emit (ACancel (workflowID id) (tc_cancel t (workflowID id)));;
       match tc_cancel t (workflowID id) with
       | Ok _ => mret tt
       | Err e => fault Internal ("cancel workflow: " +:+ e)
       end
   end);;
  crd ← read_run 1 id Internal (fun e => "re-read agentrun: " +:+ e);
  mret (Reply (crdToProto crd)).

(** [internal/server/grpc.go:632-659] SendHumanInput *)
Definition SendHumanInput (id input : string) : H bool (reply bool) :=
  crd ← named_run id;
  if bool_decide (st_Phase (run_Status crd) = AgentRunPhaseWaitingForInput) then
    match h_Temporal h with
    | None => fault Unavailable "not found: temporal not configured"
    | Some t =>
        emit (ASignal (workflowID id) input (tc_signal t (workflowID id) input));;
        match tc_signal t (workflowID id) input with
        | Ok _ => mret (Reply true)
        | Err e => fault Internal ("signal workflow: " +:+ e)
        end
    end
  else fault FailedPrecondition "failed: agent is not waiting for input".

(** ** The graph of a run *)

Record RunGraphNode := {
  gn_Name : string; gn_Phase : PPhase; gn_Role : string; gn_StartedAt : option time;
  gn_CompletedAt : option time;
}.
Record RunGraphEdge := { ge_Parent : string; ge_Child : string }.
Record RunGraph := { rg_Nodes : list RunGraphNode; rg_Edges : list RunGraphEdge }.

(** [internal/server/grpc.go:600-616] GetRunGraph: a node *)
Definition graph_node (item : Run) : RunGraphNode :=
  {| gn_Name := run_name item; gn_Phase := crdPhaseToProto (st_Phase (run_Status item));
     gn_Role := default "single" (m_Labels (run_Meta item) !! roleKey);
     gn_StartedAt := st_StartedAt (run_Status item);
     gn_CompletedAt := st_CompletedAt (run_Status item) |}.

(** [internal/server/grpc.go:617-622] GetRunGraph: the edge to a node *)
Definition graph_edges (item : Run) : list RunGraphEdge :=
  if String.eqb (rs_ParentRunID (run_Spec item)) "" then []
  else [{| ge_Parent := rs_ParentRunID (run_Spec item); ge_Child := run_name item |}].

(** [internal/server/grpc.go:565-630] GetRunGraph *)
Definition GetRunGraph (id : string) : H RunGraph (reply RunGraph) :=
  root ← named_run id;
  let sid := entry (m_Labels (run_Meta root)) specRunKey in
  let specRunID := if String.eqb sid "" then id else sid in
  listed ← List_ [(specRunKey, specRunID)];
  let items := match listed with Ok (i :: items) => i :: items | _ => [root] end in
  mret (Reply {| rg_Nodes := graph_node <$> items; rg_Edges := items ≫= graph_edges |}).
End methods.

(** ** Creating: what is promised *)

(** The runs that count against the limit. *)
Definition active (items : list Run) : Z :=
  Z.of_nat (length (filter (fun r => isTerminalPhase (crdPhaseToProto (st_Phase (run_Status r))) = false) items)).

(** A request that may create a run. *)
Definition admissible (h : AOTServiceHandler) (peer : string) (s : PSpec) : Prop :=
  (forall allow, h_createLimiter h = Some allow -> peer <> "" -> stripPort peer <> "" ->
     allow (stripPort peer) = true) /\
  (forall items, 0 < h_maxConcurrentRuns h -> h_list h [] = Ok items ->
     active items < h_maxConcurrentRuns h) /\
  (ps_Prompt s <> "" \/ ps_SpecContent s <> "") /\ len (ps_Prompt s) <= 32768 /\
  ps_ModelTier s ∈ validTiers.

Lemma invalid_spec_None s :
  invalid_spec s = None <->
  (ps_Prompt s <> "" \/ ps_SpecContent s <> "") /\ len (ps_Prompt s) <= 32768 /\
  ps_ModelTier s ∈ validTiers.
Proof.
  unfold invalid_spec. destruct (String.eqb (ps_Prompt s) "" && _) eqn:E1.
  - breflect. split; [done|]. intros ([?|?] & _); naive_solver.
  - destruct (32 * 1024 <? len (ps_Prompt s)) eqn:E2.
    + apply Z.ltb_lt in E2. split; [done|]. lia.
    + apply Z.ltb_ge in E2. case_bool_decide; [|split; [done|by intros (_ & _ & ?)]].
      breflect. split; [intros _|done]. split_and!; [tauto|lia|done].
Qed.

(** What passes the limits makes no creation itself. *)
Definition no_create (e : acall) : Prop := match e with ACreate _ _ => False | _ => True end.

Lemma limited_spec {A} limiter ip m :
  calls no_create (limited (A := A) limiter ip m) /\
  ((limited (A := A) limiter ip m).2 = inl tt <->
   (forall allow, limiter = Some allow -> ip <> "" -> allow ip = true)) /\
  ends (fun r => exists c t, r = Fault c t) (fun _ => True) (limited (A := A) limiter ip m).
Proof.
  unfold limited, calls, ends, fault. destruct limiter as [allow|]; [|by split_and!; [constructor| |]].
  destruct (String.eqb ip "") eqn:E; breflect.
  { by split_and!; [constructor|split; [|done]; intros _ ? ? ?|]. }
  destruct (allow ip) eqn:Ha; simpl; split_and!; eauto; try (by repeat constructor).
  - split; [|done]. intros _ ? [= <-]. done.
  - split; [done|]. intros H. by rewrite (H allow) in Ha.
Qed.

Lemma below_limit_spec {A} h :
  calls no_create (below_limit (A := A) h) /\
  ((below_limit (A := A) h).2 = inl tt <->
   (forall items, 0 < h_maxConcurrentRuns h -> h_list h [] = Ok items ->
      active items < h_maxConcurrentRuns h)) /\
  ends (fun r => exists c t, r = Fault c t) (fun _ => True) (below_limit (A := A) h).
Proof.
  unfold below_limit, countActiveRuns, List_, calls, ends, fault.
  destruct (0 <? h_maxConcurrentRuns h) eqn:Hpos;
    [apply Z.ltb_lt in Hpos|apply Z.ltb_ge in Hpos].
  2:{ split_and!; [constructor| |done]. split; [intros; lia|done]. }
  destruct (h_list h []) as [items|e] eqn:Hl; simpl.
  - fold (active items). destruct (h_maxConcurrentRuns h <=? active items) eqn:Hle;
      [apply Z.leb_le in Hle|apply Z.leb_gt in Hle]; simpl; split_and!; eauto; try (by repeat constructor).
    + split; [done|]. intros H. specialize (H items Hpos eq_refl). lia.
    + split; [|done]. intros _ ? _ [= <-]. done.
  - split_and!; eauto; [by repeat constructor|]. done.
Qed.

Definition creations (es : list acall) : list acall :=
  es ≫= (fun e => match e with ACreate _ _ => [e] | _ => [] end).

Lemma creations_none es : Forall no_create es -> creations es = [].
Proof. induction 1 as [|e es He _ IH]; [done|]. destruct e; simpl in *; done. Qed.

(** A check that creates nothing, and passes exactly if [P]. *)
Definition gate {B} (m : handler acall (reply B) unit) (P : Prop) : Prop :=
  calls no_create m /\ (m.2 = inl tt <-> P) /\
  ends (fun r => exists c t, r = Fault c t) (fun _ => True) m.

Lemma gate_cases {A B} (m : handler acall (reply B) unit) (k : unit -> handler acall (reply B) A) P :
  gate m P ->
  (P /\ creations (m ≫= k).1 = creations (k tt).1 /\ (m ≫= k).2 = (k tt).2) \/
  (~ P /\ creations (m ≫= k).1 = [] /\ exists c t, (m ≫= k).2 = inr (Fault c t)).
Proof.
  intros (Hc & Hi & He). unfold mbind, handler_bind, ends in *. destruct m as [es [[]|r]]; cbn [fst snd] in *.
  - left. split; [by apply Hi|]. split; [|done].
    unfold creations. rewrite bind_app. fold (creations es). by rewrite (creations_none es).
  - right. destruct He as (c & t & ->). split_and!; [by intros ?%Hi|by apply creations_none|eauto].
Qed.

Lemma limiter_gate h peer m :
  gate (limited (A := PRun) (h_createLimiter h) (if String.eqb peer "" then "" else stripPort peer) m)
    (forall allow, h_createLimiter h = Some allow -> peer <> "" -> stripPort peer <> "" ->
       allow (stripPort peer) = true).
Proof.
  destruct (limited_spec (A := PRun) (h_createLimiter h) (if String.eqb peer "" then "" else stripPort peer) m)
    as (Hc & Hi & He).
  split_and!; [done| |done]. rewrite Hi. destruct (String.eqb peer "") eqn:E; breflect; naive_solver.
Qed.

Lemma create_cases (h : AOTServiceHandler) (peer : string) (req : option PSpec) :
  let run := CreateAgentRun h peer req in
  (exists s name, req = Some s /\ admissible h peer s /\ generateRunName (h_rand h) = Ok name /\
     let r := new_run (h_Namespace h) name
                (generateDisplayName (h_LiteLLMBaseURL h) (h_ask h) (ps_Prompt s)) s in
     creations run.1 = [ACreate r (h_create h r)] /\
     match h_create h r with
     | Ok stored => outcome run = Reply (crdToProto stored)
     | Err e => outcome run = Fault Internal ("create agentrun CRD: " +:+ e)
     end) \/
  (creations run.1 = [] /\ (exists c t, outcome run = Fault c t) /\
   forall s, req = Some s -> admissible h peer s -> exists e, generateRunName (h_rand h) = Err e).
Proof.
  cbv zeta. unfold CreateAgentRun, outcome.
  edestruct (gate_cases (A := reply PRun) (B := PRun)) as [(H1 & -> & ->)|(H1 & -> & c & t & ->)];
    [apply limiter_gate| |].
  2:{ right. split_and!; [done|eauto|]. by intros s _ [Ha _]. }
  edestruct (gate_cases (A := reply PRun) (B := PRun)) as [(H2 & -> & ->)|(H2 & -> & c & t & ->)];
    [apply below_limit_spec| |].
  2:{ right. split_and!; [done|eauto|]. by intros s _ (_ & Ha & _). }
  destruct req as [s|]; [|by right; split_and!; [|eexists _, _|]].
  destruct (invalid_spec s) as [e|] eqn:Hinv.
  { right. split_and!; [done|by eexists _, _|]. intros ? [= <-] (_ & _ & Ha).
    apply invalid_spec_None in Ha. congruence. }
  apply invalid_spec_None in Hinv.
  destruct (generateRunName (h_rand h)) as [name|e] eqn:Hname.
  - left. exists s, name. split_and!; [done|exact (conj H1 (conj H2 Hinv))|done| |]; simpl; by destruct (h_create h _).
  - right. split_and!; [done|by eexists _, _|]. eauto.
Qed.

(** C12. What creates a run.  A request creates a run exactly if it passes the limiter and the limit
    of concurrent runs, and has a prompt or a spec, a prompt of at most 32768 bytes and a known
    tier.  Then one run is submitted, the one made of the request, and the answer is what the
    API server stored, or its error; otherwise nothing is submitted and the answer is a fault. *)
Theorem create_guarded (h : AOTServiceHandler) (peer : string) (req : option PSpec) :
  let run := CreateAgentRun h peer req in
  (exists s name, req = Some s /\ admissible h peer s /\ generateRunName (h_rand h) = Ok name /\
     let r := new_run (h_Namespace h) name
                (generateDisplayName (h_LiteLLMBaseURL h) (h_ask h) (ps_Prompt s)) s in
     creations run.1 = [ACreate r (h_create h r)] /\
     match h_create h r with
     | Ok stored => outcome run = Reply (crdToProto stored)
     | Err e => outcome run = Fault Internal ("create agentrun CRD: " +:+ e)
     end) \/
  (creations run.1 = [] /\ (exists c t, outcome run = Fault c t) /\
   forall s, req = Some s -> admissible h peer s -> exists e, generateRunName (h_rand h) = Err e).
Proof. apply create_cases. Qed.

(** ** Reading back what was created *)

Lemma sanitize_empty : sanitizeLabelValue "" = "".
Proof. by vm_compute. Qed.

Lemma set_sanitized_other key key' v m : key <> key' -> set_sanitized key v m !! key' = m !! key'.
Proof. intros H. unfold set_sanitized. case_match; [done|]. by rewrite lookup_insert_ne. Qed.

Lemma set_sanitized_empty key m : set_sanitized key "" m = m.
Proof. unfold set_sanitized. by rewrite sanitize_empty. Qed.

Definition labels_of (spec : PSpec) : gmap string string :=
  let m := set_sanitized featureKey (ps_Feature spec) (set_sanitized projectKey (ps_Project spec) ∅) in
  match ps_Repos spec with
  | [] => m
  | r :: _ => set_sanitized repoKey (NameFromURL (repo_URL r)) m
  end.

Lemma labels_of_lookup spec key : key <> repoKey ->
  labels_of spec !! key =
  set_sanitized featureKey (ps_Feature spec) (set_sanitized projectKey (ps_Project spec) ∅) !! key.
Proof. intros H. unfold labels_of. destruct (ps_Repos spec); [done|]. by rewrite set_sanitized_other. Qed.

Lemma new_run_meta ns name d spec :
  run_Meta (new_run ns name d spec) =
  named ns name (labels_of spec)
    (match ps_Tags spec with [] => ∅ | tags => {[ tagsKey := Join tags "," ]} end).
Proof. unfold new_run, labels_of. simpl. by destruct (ps_Repos spec). Qed.

(** [deploy/crds/agentrun-crd.yaml:36-216] spec: what the API server stores of a specification.  A field
    that is left out of the submitted JSON, since it is zero, gets the default of the schema; a field
    that the schema does not know is dropped, and [approvalMode] is such a field. *)
Definition stored_spec (s : AgentRunSpec) : AgentRunSpec :=
  {| rs_Backend := rs_Backend s; rs_Repos := rs_Repos s; rs_Prompt := rs_Prompt s;
     rs_DevboxConfig := rs_DevboxConfig s;
     rs_TTLSeconds := if rs_TTLSeconds s =? 0 then 3600 else rs_TTLSeconds s;
     rs_EnvVars := rs_EnvVars s; rs_Image := rs_Image s;
     rs_ModelTier := if String.eqb (rs_ModelTier s) "" then "default" else rs_ModelTier s;
     rs_ManageModelTier := rs_ManageModelTier s;
     rs_ImplementModelTier := rs_ImplementModelTier s; rs_SpecContent := rs_SpecContent s;
     rs_SpecSource := rs_SpecSource s; rs_ProjectRef := rs_ProjectRef s;
     rs_SpecRef := rs_SpecRef s; rs_WorkspaceName := rs_WorkspaceName s;
     rs_ParentRunID := rs_ParentRunID s;
     rs_OrchestrationMode :=
       if String.eqb (rs_OrchestrationMode s) "" then OrchestrationModeSingle else rs_OrchestrationMode s;
     rs_Orchestration := rs_Orchestration s; rs_SpecRunID := rs_SpecRunID s;
     rs_DisplayName := rs_DisplayName s; rs_PipelineConfig := rs_PipelineConfig s;
     rs_MaxBudget := rs_MaxBudget s; rs_AutoPush := rs_AutoPush s; rs_AutoPR := rs_AutoPR s;
     rs_PRBaseBranch := rs_PRBaseBranch s; rs_Project := rs_Project s;
     rs_Feature := rs_Feature s; rs_Tags := rs_Tags s; rs_ApprovalMode := "";
     rs_OpenspecChange := rs_OpenspecChange s |}.

(** The API server stores a run: with the names, labels and annotations that are submitted, its own
    time of creation, and what the schema makes of the specification. *)
Definition stored_as (r stored : Run) : Prop :=
  m_Name (run_Meta stored) = m_Name (run_Meta r) /\ m_Namespace (run_Meta stored) = m_Namespace (run_Meta r) /\
  m_Labels (run_Meta stored) = m_Labels (run_Meta r) /\ m_Annotations (run_Meta stored) = m_Annotations (run_Meta r) /\
  run_Spec stored = stored_spec (run_Spec r).

(** A request with the defaults of the schema, and without the approval mode. *)
Definition completed (s : PSpec) : PSpec :=
  {| ps_Repos := ps_Repos s; ps_Prompt := ps_Prompt s; ps_DevboxConfig := ps_DevboxConfig s;
     ps_TtlSeconds := if ps_TtlSeconds s =? 0 then 3600 else ps_TtlSeconds s; ps_EnvVars := ps_EnvVars s;
     ps_ModelTier := if String.eqb (ps_ModelTier s) "" then "default" else ps_ModelTier s;
     ps_Image := ps_Image s; ps_MaxBudget := ps_MaxBudget s; ps_SpecContent := ps_SpecContent s;
     ps_SpecSource := ps_SpecSource s; ps_WorkspaceName := ps_WorkspaceName s;
     ps_ParentRunId := ps_ParentRunId s; ps_OrchestrationMode := ps_OrchestrationMode s;
     ps_Orchestration := ps_Orchestration s; ps_SpecRunId := ps_SpecRunId s;
     ps_DisplayName := ps_DisplayName s; ps_PipelineConfig := ps_PipelineConfig s;
     ps_AutoPush := ps_AutoPush s; ps_AutoPr := ps_AutoPr s; ps_PrBaseBranch := ps_PrBaseBranch s;
     ps_Project := ps_Project s; ps_Feature := ps_Feature s; ps_Tags := ps_Tags s;
     ps_ProjectRef := ps_ProjectRef s; ps_SpecRef := ps_SpecRef s; ps_ApprovalMode := "" |}.

Lemma stored_completed d s :
  stored_spec (set_DisplayName d (specProtoToCRD s)) = set_DisplayName d (specProtoToCRD (completed s)).
Proof. destruct s as [? ? ? ? ? ? ? ? ? ? ? ? mode]. unfold stored_spec. cbn. by destruct mode. Qed.

(** The labels and annotations of a new run. *)
Definition labelled (ns name d : string) (spec : PSpec) (r : Run) : Prop :=
  m_Labels (run_Meta r) = m_Labels (run_Meta (new_run ns name d spec)) /\
  m_Annotations (run_Meta r) = m_Annotations (run_Meta (new_run ns name d spec)).

(** The field or the label: the label of a new run is never needed. *)
Lemma field_read_back ns name d spec (r : Run) key value :
  labelled ns name d spec r ->
  key = projectKey /\ value = ps_Project spec \/ key = featureKey /\ value = ps_Feature spec ->
  crdFieldOrLabel r value key = value.
Proof.
  intros [Hm _] Hk. unfold crdFieldOrLabel. destruct (String.eqb value "") eqn:E; [|done].
  breflect. subst value. unfold entry. rewrite Hm, new_run_meta. cbn [named m_Labels].
  destruct Hk as [[-> H]|[-> H]]; rewrite labels_of_lookup by done; rewrite <- H.
  - rewrite set_sanitized_other by done. by rewrite set_sanitized_empty.
  - by rewrite set_sanitized_empty, set_sanitized_other by done.
Qed.

Lemma spec_read_back ns name d spec (r : Run) :
  labelled ns name d spec r -> run_Spec r = run_Spec (new_run ns name d spec) ->
  crdSpecToProto r = normal d spec.
Proof.
  intros Hm Hs. unfold crdSpecToProto. rewrite Hs.
  change (run_Spec (new_run ns name d spec)) with (set_DisplayName d (specProtoToCRD spec)).
  cbn [set_DisplayName specProtoToCRD rs_Repos rs_Prompt rs_DevboxConfig rs_TTLSeconds rs_EnvVars
    rs_ModelTier rs_Image rs_MaxBudget rs_SpecContent rs_SpecSource rs_WorkspaceName rs_ParentRunID
    rs_OrchestrationMode rs_Orchestration rs_SpecRunID rs_DisplayName rs_PipelineConfig rs_AutoPush
    rs_AutoPR rs_PRBaseBranch rs_Project rs_Feature rs_Tags rs_ApprovalMode].
  rewrite (field_read_back ns name d spec r projectKey) by auto.
  rewrite (field_read_back ns name d spec r featureKey) by auto.
  rewrite !repos_copy, mode_round_trip.
  assert (crdTagsOrLabel r = ps_Tags spec) as ->.
  { unfold crdTagsOrLabel. rewrite Hs. cbn. destruct (ps_Tags spec) as [|t ts] eqn:Ht; [|done].
    unfold entry. destruct Hm as [-> ->]. rewrite new_run_meta. cbn [named m_Annotations m_Labels].
    rewrite Ht, lookup_empty. cbn. rewrite labels_of_lookup by done.
    by rewrite !set_sanitized_other, lookup_empty by done. }
  unfold normal. f_equal.
  - destruct (ps_Orchestration spec) as [[|t ts]|]; [done| |done]. cbn [option_fmap fmap option_map].
    f_equal. unfold crdTaskToProto_all. by rewrite !tasks_copy.
  - destruct (ps_PipelineConfig spec) as [c|]; [|done]. cbn [option_fmap fmap option_map pc_Plan pc_Execute pc_Verify].
    unfold normal_pipeline. by rewrite !stage_round_trip.
Qed.


(** ** Steering a run *)

(** The requests to a workflow that a method makes. *)
Definition steers (w : string) (e : acall) : Prop :=
  match e with ASignal w' _ _ | ACancel w' _ | AQuery w' _ => w' = w | _ => True end.

Lemma calls_limited {A} limiter ip m (P : acall -> Prop) (Hallow : forall i a, P (AAllow i a)) :
  calls P (limited (A := A) limiter ip m).
Proof. unfold limited, fault. walk_calls; done. Qed.

(** Every method that names a run talks to the workflow of that run, and to no other. *)
Lemma own_workflow h id peer input :
  calls (steers (workflowID id)) (GetAgentRun h id) /\
  calls (steers (workflowID id)) (CancelAgentRun h peer id) /\
  calls (steers (workflowID id)) (SendHumanInput h id input).
Proof.
  unfold GetAgentRun, CancelAgentRun, SendHumanInput, enriched_run, List_, read_run, fault.
  split_and!; walk_calls; try done; try (by apply calls_limited);
    unfold checked, fault; by walk_calls.
Qed.

(** Only a waiting run is given input.  A signal is sent only for a valid identifier of a run
    that the API server knows and that waits for input, to the workflow of that run, with the
    input as it was given; and the request is accepted exactly if such a signal was. *)
Theorem human_input_guarded (h : AOTServiceHandler) (id input : string) :
  (forall w i a, ASignal w i a ∈ (SendHumanInput h id input).1 ->
     validateRunID id = true /\ w = workflowID id /\ i = input /\
     exists crd, h_get h 0 id = Found crd /\
       st_Phase (run_Status crd) = AgentRunPhaseWaitingForInput) /\
  (outcome (SendHumanInput h id input) = Reply true <->
   exists u, ASignal (workflowID id) input (Ok u) ∈ (SendHumanInput h id input).1).
Proof.
  unfold SendHumanInput, named_run, checked, outcome, read_run, fault.
  destruct (validateRunID id); [|split; [intros w i a Hin; set_solver|]; split; [done|intros [u Hu]; set_solver]].
  rewrite bind_ret. destruct (h_get h 0 id) as [crd| |e] eqn:Hg; simpl.
  2,3: split; [intros w i a Hin; set_solver|split; [done|intros [u Hu]; set_solver]].
  case_bool_decide as Hp; simpl.
  2: split; [intros w i a Hin; set_solver|split; [done|intros [u Hu]; set_solver]].
  destruct (h_Temporal h) as [t|]; simpl.
  2: split; [intros w i a Hin; set_solver|split; [done|intros [u Hu]; set_solver]].
  destruct (tc_signal t (workflowID id) input) as [u|e] eqn:Hs; simpl; rewrite ?Hs.
  - split; [intros w i a Hin; set_solver|]. split; [intros _; exists u; set_solver|done].
  - split; [intros w i a Hin; set_solver|]. split; [done|intros [u Hu]; set_solver].
Qed.

(** ** A concrete request *)

Definition sample_spec : PSpec :=
  {| ps_Repos := [{| repo_URL := "https://github.com/acme/shop.git"; repo_Branch := "main"; repo_Path := "" |}];
     ps_Prompt := "Fix the login page"; ps_DevboxConfig := ""; ps_TtlSeconds := 0; ps_EnvVars := [];
     ps_ModelTier := ""; ps_Image := ""; ps_MaxBudget := 0; ps_SpecContent := "";
     ps_SpecSource := ""; ps_WorkspaceName := ""; ps_ParentRunId := "";
     ps_OrchestrationMode := MODE_UNSPECIFIED; ps_Orchestration := Some []; ps_SpecRunId := "";
     ps_DisplayName := ""; ps_PipelineConfig := None; ps_AutoPush := true; ps_AutoPr := false;
     ps_PrBaseBranch := ""; ps_Project := "My Shop"; ps_Feature := ""; ps_Tags := ["ui"; "auth"];
     ps_ProjectRef := "shop"; ps_SpecRef := ""; ps_ApprovalMode := "hitl" |}.

(** What the API server makes of a run. *)
Definition sample_stored (r : Run) : Run :=
  {| run_Meta := {| m_Name := m_Name (run_Meta r); m_Namespace := m_Namespace (run_Meta r);
                    m_Labels := m_Labels (run_Meta r); m_Annotations := m_Annotations (run_Meta r);
                    m_Finalizers := []; m_Deleted := false; m_Created := 1700000000 |};
     run_Spec := stored_spec (run_Spec r); run_Status := run_Status r |}.

Definition sample_server : AOTServiceHandler :=
  {| h_Namespace := "aot"; h_LiteLLMBaseURL := "http://llm";
     h_ask := fun _ _ => LLMChoices ["fix-login-page"];
     h_rand := fun i => if decide (i < 6)%nat then Ok (Z.of_nat i * 7) else Err "";
     h_createLimiter := Some (fun _ => true); h_cancelLimiter := None; h_maxConcurrentRuns := 10;
     h_create := fun r => Ok (sample_stored r); h_get := fun _ _ => NotFound; h_list := fun _ => Ok []; h_Temporal := None |}.


(** A run that is to be approved by a person is stored without that, and runs unapproved. *)
Example approval_is_dropped :
  ps_ApprovalMode sample_spec = "hitl" /\
  match outcome (CreateAgentRun sample_server "" (Some sample_spec)) with
  | Reply p => ps_ApprovalMode (pn_Spec p) = "" /\ ps_TtlSeconds (pn_Spec p) = 3600 /\ ps_ModelTier (pn_Spec p) = "default"
  | Fault _ _ => False
  end.
Proof. split; [done|]. vm_compute. done. Qed.
