(* ===== verification/ApiList.v ===== *)
(** * Listing runs page by page, and watching one: [internal/server/grpc.go], [ListAgentRuns] and [WatchAgentRun].

    The runs are read as a whole, sorted by [sort.Slice], which puts equal elements in any
    order, and filtered; a page is what follows the run that the cursor names. *)

From S2P Require Import Prelude GoStrings ApiTypes TemporalTypes EventBus Kube RunController ApiNames ApiProto ApiServer.
Local Open Scope Z_scope.

Record ListAgentRunsRequest := {
  lq_Limit : Z; lq_Cursor : string; lq_PhaseFilter : PPhase; lq_ParentRunId : string;
  lq_StageFilter : string; lq_TagFilter : string; lq_SpecRunId : string;
  lq_ProjectFilter : string; lq_FeatureFilter : string;
  (** the header [X-Include-Archived] *)
  lq_IncludeArchived : string;
}.

Definition with_cursor (q : ListAgentRunsRequest) (c : string) : ListAgentRunsRequest :=
  {| lq_Limit := lq_Limit q; lq_Cursor := c; lq_PhaseFilter := lq_PhaseFilter q;
     lq_ParentRunId := lq_ParentRunId q; lq_StageFilter := lq_StageFilter q;
     lq_TagFilter := lq_TagFilter q; lq_SpecRunId := lq_SpecRunId q;
     lq_ProjectFilter := lq_ProjectFilter q; lq_FeatureFilter := lq_FeatureFilter q;
     lq_IncludeArchived := lq_IncludeArchived q |}.

(** [internal/server/grpc.go:336-358] ListAgentRuns: the validation *)
Definition invalid_list (q : ListAgentRunsRequest) : option string :=
  if 100 <? lq_Limit q then
    Some ("invalid input: limit must be between 0 and 100, got " +:+ Itoa (lq_Limit q))
  else if 64 <? len (lq_TagFilter q) then
    Some ("invalid input: tag_filter must be at most 64 characters, got " +:+ Itoa (len (lq_TagFilter q)))
  else if 128 <? len (lq_FeatureFilter q) then
    Some ("invalid input: feature_filter must be at most 128 characters, got " +:+ Itoa (len (lq_FeatureFilter q)))
  else if 128 <? len (lq_ProjectFilter q) then
    Some ("invalid input: project_filter must be at most 128 characters, got " +:+ Itoa (len (lq_ProjectFilter q)))
  else if String.eqb (lq_ParentRunId q) "" || validateRunID (lq_ParentRunId q) then None
  else Some ("invalid parent_run_id: invalid input: invalid run ID format: " +:+ Quote (lq_ParentRunId q)).

(** [internal/server/grpc.go:360-381] ListAgentRuns: the label filters, which all apply *)
Definition label_filters (q : ListAgentRunsRequest) : list (string * string) :=
  filter (fun kv => kv.2 <> "")
    [(specRunKey, lq_SpecRunId q); (projectKey, lq_ProjectFilter q); (featureKey, lq_FeatureFilter q)].

(** [internal/server/grpc.go:384-387] ListAgentRuns: the size of a page *)
Definition page_size (q : ListAgentRunsRequest) : Z :=
  if (lq_Limit q <=? 0) || (100 <? lq_Limit q) then 50 else lq_Limit q.

(** [internal/server/grpc.go:404-440] ListAgentRuns: the runs that are not skipped *)
Definition selected (q : ListAgentRunsRequest) (crd : Run) : bool :=
  negb (st_Archived (run_Status crd) && negb (String.eqb (lq_IncludeArchived q) "true")) &&
  (bool_decide (lq_PhaseFilter q = PHASE_UNSPECIFIED) ||
   bool_decide (px_Phase (pn_Status (crdToProto crd)) = lq_PhaseFilter q)) &&
  (String.eqb (lq_ParentRunId q) "" || String.eqb (rs_ParentRunID (run_Spec crd)) (lq_ParentRunId q)) &&
  (String.eqb (lq_StageFilter q) "" || String.eqb (rp_Stage (st_Reports (run_Status crd))) (lq_StageFilter q)) &&
  (String.eqb (lq_TagFilter q) "" || bool_decide (lq_TagFilter q ∈ rs_Tags (run_Spec crd))).

(** [internal/server/grpc.go:445-456] ListAgentRuns: what the cursor leaves *)
Fixpoint after_cursor (cursor : string) (all : list PRun) : option (list PRun) :=
  match all with
  | [] => None
  | r :: rest => if String.eqb (pn_Id r) cursor then Some rest else after_cursor cursor rest
  end.

(** [internal/server/grpc.go:445-463] ListAgentRuns: the page and the next cursor *)
Definition page (size : Z) (cursor : string) (all : list PRun) : list PRun * string :=
  let rest := if String.eqb cursor "" then all else default all (after_cursor cursor all) in
  if size <? Z.of_nat (length rest) then
    (take (Z.to_nat size) rest,
     match rest !! Z.to_nat (size - 1) with Some r => pn_Id r | None => "" end)
  else (rest, "").

Section listing.
Context (sort : list Run -> list Run).

(** [internal/server/grpc.go:398-443] ListAgentRuns: the matching runs, newest first *)
Definition matching (q : ListAgentRunsRequest) (items : list Run) : list PRun :=
  crdToProto <$> filter (fun crd => selected q crd = true) (sort items).

(** [internal/server/grpc.go:335-469] ListAgentRuns *)
Definition ListAgentRuns (h : AOTServiceHandler) (q : ListAgentRunsRequest) :
  handler acall (reply (list PRun * string)) (reply (list PRun * string)) :=
  match invalid_list q with
  | Some e => fault InvalidArgument e
  | None =>
      listed ← List_ h (label_filters q);
      match listed with
      | Err e => fault Internal ("list agentruns: " +:+ e)
      | Ok items => mret (Reply (page (page_size q) (lq_Cursor q) (matching q items)))
      end
  end.
End listing.

(** ** Following the cursors

    A client asks for the first page, and then for the page behind each cursor it is given,
    until there is none; the [i]-th request is answered by a server of its own. *)

Fixpoint follow (fuel : nat) (ask : nat -> string -> reply (list PRun * string)) (i : nat)
    (cursor : string) : option (list (list PRun)) :=
  match fuel with
  | O => None
  | S fuel =>
      match ask i cursor with
      | Fault _ _ => None
      | Reply (p, next) =>
          if String.eqb next "" then Some [p] else (fun ps => p :: ps) <$> follow fuel ask (S i) next
      end
  end.

(** The order that [sort.Slice] is asked for: a permutation, and no run before a newer one. *)
Definition newer (a b : Run) : Prop := m_Created (run_Meta b) <= m_Created (run_Meta a).
#[export] Instance newer_dec : RelDecision newer.
Proof. intros a b. unfold newer. apply _. Defined.

Definition sorts (sort : list Run -> list Run) : Prop :=
  forall l, sort l ≡ₚ l /\ StronglySorted newer (sort l).

Lemma after_cursor_at pre r rest :
  NoDup (pn_Id <$> pre ++ r :: rest) -> after_cursor (pn_Id r) (pre ++ r :: rest) = Some rest.
Proof.
  induction pre as [|x pre IH]; simpl; [by rewrite String.eqb_refl|].
  intros [Hx Hnd]%NoDup_cons. destruct (String.eqb_spec (pn_Id x) (pn_Id r)) as [E|_]; [|by apply IH].
  exfalso. apply Hx. rewrite E, fmap_app. set_solver.
Qed.

(** One page, at a position of the list. *)
Lemma page_at size pre rest cursor :
  0 < size -> NoDup (pn_Id <$> pre ++ rest) -> (forall r, r ∈ pre -> pn_Id r <> "") ->
  cursor = match last pre with Some r => pn_Id r | None => "" end ->
  page size cursor (pre ++ rest) =
  if size <? Z.of_nat (length rest) then
    (take (Z.to_nat size) rest,
     match last (take (Z.to_nat size) rest) with Some r => pn_Id r | None => "" end)
  else (rest, "").
Proof.
  intros Hsize Hnd Hne ->. unfold page.
  assert ((if String.eqb (match last pre with Some r => pn_Id r | None => "" end) "" then pre ++ rest
    else default (pre ++ rest) (after_cursor (match last pre with Some r => pn_Id r | None => "" end) (pre ++ rest)))
    = rest) as ->.
  { destruct pre as [|x pre _] using rev_ind; [done|]. rewrite last_snoc.
    destruct (String.eqb_spec (pn_Id x) "") as [E|_]; [exfalso; apply (Hne x); [set_solver|done]|].
    rewrite <- app_assoc in *. simpl in *. by rewrite after_cursor_at. }
  destruct (size <? Z.of_nat (length rest)) eqn:Hlt; [|done]. apply Z.ltb_lt in Hlt. f_equal.
  rewrite last_lookup, length_take, lookup_take_lt by lia.
  by replace (Nat.pred (Z.to_nat size `min` length rest)) with (Z.to_nat (size - 1)) by lia.
Qed.

(** Following the cursors over a list that does not change tiles it. *)
Lemma follow_tiles size (all : list PRun) ask :
  0 < size -> NoDup (pn_Id <$> all) -> (forall r, r ∈ all -> pn_Id r <> "") ->
  (forall i cursor, ask i cursor = Reply (page size cursor all)) ->
  forall fuel pre rest i, all = pre ++ rest -> (length rest < fuel)%nat ->
  exists ps, follow fuel ask i (match last pre with Some r => pn_Id r | None => "" end) = Some ps /\
    concat ps = rest /\ Forall (fun p => Z.of_nat (length p) <= size) ps.
Proof.
  intros Hsize Hnd Hne Hask fuel. induction fuel as [|fuel IH]; intros pre rest i -> Hf; [lia|].
  simpl. rewrite Hask, (page_at size pre rest _) by (done || set_solver).
  destruct (size <? Z.of_nat (length rest)) eqn:Hlt.
  - apply Z.ltb_lt in Hlt.
    assert (exists r, last (take (Z.to_nat size) rest) = Some r) as [r Hr].
    { destruct (last (take (Z.to_nat size) rest)) eqn:E; [eauto|]. apply last_None in E.
      apply (f_equal length) in E. rewrite length_take in E. simpl in E. lia. }
    rewrite Hr. destruct (String.eqb_spec (pn_Id r) "") as [E|_].
    { exfalso. apply (Hne r); [|done]. apply elem_of_app. right.
      apply last_Some_elem_of in Hr. by apply elem_of_take in Hr as (? & ?%list_elem_of_lookup_2 & _). }
    destruct (IH (pre ++ take (Z.to_nat size) rest) (drop (Z.to_nat size) rest) (S i)) as (ps & Hps & Hc & Hl).
    { by rewrite <- app_assoc, take_drop. }
    { rewrite length_drop. lia. }
    rewrite last_app, Hr in Hps. rewrite Hps. eexists. split; [done|]. split.
    + simpl. by rewrite Hc, take_drop.
    + constructor; [|done]. rewrite length_take. lia.
  - apply Z.ltb_ge in Hlt. simpl. exists [rest]. split; [done|]. split; [simpl; by rewrite app_nil_r|].
    by repeat constructor.
Qed.

(** With distinct times of creation there is one such order. *)
Lemma sorts_unique sort l k : sorts sort -> l ≡ₚ k -> NoDup (m_Created ∘ run_Meta <$> l) -> sort l = sort k.
Proof.
  intros Hsort Hp Hnd. destruct (Hsort l) as [Hl Hsl], (Hsort k) as [Hk Hsk].
  apply (StronglySorted_unique_strong newer); [|done|done|by rewrite Hl, Hk].
  intros a b Ha Hb H1 H2. unfold newer in *.
  apply list_elem_of_lookup in Ha as [i Hi]. rewrite Hk, <- Hp, <- Hl in Hb.
  apply list_elem_of_lookup in Hb as [j Hj].
  assert (NoDup (m_Created ∘ run_Meta <$> sort l)) as Hnd' by (by rewrite Hl).
  assert (i = j) as ->; [|by simplify_eq].
  eapply NoDup_lookup; [exact Hnd'| |]; rewrite list_lookup_fmap; [by rewrite Hi|].
  rewrite Hj. simpl. f_equal. lia.
Qed.

Lemma matching_ids sort q items : sorts sort -> NoDup (run_name <$> items) ->
  NoDup (pn_Id <$> matching sort q items).
Proof.
  intros Hsort Hnd. unfold matching. rewrite <- list_fmap_compose.
  change (pn_Id ∘ crdToProto) with run_name.
  eapply sublist_NoDup; [|apply fmap_sublist, sublist_filter].
  destruct (Hsort items) as [Hp _]. by rewrite Hp.
Qed.

(** C14. Paging covers the list.  When the matching runs do not change between the requests,
    except for the order in which the API server lists them, and no two of them were created
    at the same time, then following the cursors ends, and the pages one after the other are
    the list of the matching runs, newest first: nothing is skipped and nothing comes twice,
    and no page is larger than was asked for. *)
Theorem pages_cover (sort : list Run -> list Run) (q : ListAgentRunsRequest) (items : list Run)
    (server : nat -> AOTServiceHandler) (Hsort : sorts sort) (Hvalid : invalid_list q = None)
    (Hlist : forall i, exists l, h_list (server i) (label_filters q) = Ok l /\ l ≡ₚ items)
    (Hnames : NoDup (run_name <$> items)) (Hnamed : forall r, r ∈ items -> run_name r <> "")
    (Htimes : NoDup (m_Created ∘ run_Meta <$> items)) :
  let ask i cursor := outcome (ListAgentRuns sort (server i) (with_cursor q cursor)) in
  exists pages, follow (S (length items)) ask 0 "" = Some pages /\
    concat pages = matching sort q items /\
    Forall (fun p => Z.of_nat (length p) <= page_size q) pages.
Proof.
  intros ask. set (all := matching sort q items).
  assert (forall i cursor, ask i cursor = Reply (page (page_size q) cursor all)) as Hask.
  { intros i cursor. unfold ask, ListAgentRuns.
    change (invalid_list (with_cursor q cursor)) with (invalid_list q). rewrite Hvalid.
    change (label_filters (with_cursor q cursor)) with (label_filters q).
    destruct (Hlist i) as (l & Hl & Hp). unfold List_. rewrite Hl. simpl. unfold outcome. simpl.
    change (page_size (with_cursor q cursor)) with (page_size q). do 2 f_equal.
    unfold all, matching. change (selected (with_cursor q cursor)) with (selected q).
    rewrite (sorts_unique sort l items); [done|done|done|]. by rewrite Hp. }
  assert (0 < page_size q) as Hsize.
  { unfold page_size. destruct (lq_Limit q <=? 0) eqn:E1, (100 <? lq_Limit q); simpl; lia. }
  assert (forall r, r ∈ all -> pn_Id r <> "") as Hne.
  { intros r (c & -> & Hc)%list_elem_of_fmap. apply list_elem_of_filter in Hc as [_ Hc].
    apply Hnamed. destruct (Hsort items) as [Hp _]. by rewrite Hp in Hc. }
  destruct (follow_tiles (page_size q) all ask Hsize (matching_ids sort q items Hsort Hnames) Hne Hask
    (S (length items)) [] all 0) as (ps & Hps & Hc & Hl); [done| |eauto].
  unfold all, matching. rewrite length_fmap. pose proof (length_filter (fun crd => selected q crd = true) (sort items)).
  destruct (Hsort items) as [Hp _]. apply Permutation_length in Hp. lia.
Qed.

(** A cursor that names no run any more, such as one that was archived since, starts again at
    the first page. *)
Lemma vanished_cursor size cursor all :
  (forall r, r ∈ all -> pn_Id r <> cursor) -> page size cursor all = page size "" all.
Proof.
  intros H. unfold page. destruct (String.eqb cursor ""); [done|].
  assert (after_cursor cursor all = None) as ->; [|done].
  induction all as [|r all IH]; [done|]. simpl.
  destruct (String.eqb_spec (pn_Id r) cursor) as [E|_]; [by apply H in E; [|constructor]|].
  apply IH. intros x Hx. apply H. by constructor.
Qed.

(** ** A sorting function, and a concrete list *)

Definition sort_runs : list Run -> list Run := merge_sort newer.

Lemma sort_runs_sorts : sorts sort_runs.
Proof.
  intros l. split; [apply merge_sort_Permutation|]. apply StronglySorted_merge_sort.
  - intros a b c. unfold newer. lia.
  - intros a b. unfold newer. lia.
Qed.

Definition listed_run (name : string) (created : time) : Run :=
  {| run_Meta := {| m_Name := name; m_Namespace := "aot"; m_Labels := ∅; m_Annotations := ∅;
                    m_Finalizers := []; m_Deleted := false; m_Created := created |};
     run_Spec := set_DisplayName "" (specProtoToCRD sample_spec);
     run_Status := queued_status "Queued" |}.

Definition two_per_page : ListAgentRunsRequest :=
  {| lq_Limit := 2; lq_Cursor := ""; lq_PhaseFilter := PHASE_PENDING; lq_ParentRunId := "";
     lq_StageFilter := ""; lq_TagFilter := "ui"; lq_SpecRunId := ""; lq_ProjectFilter := "";
     lq_FeatureFilter := ""; lq_IncludeArchived := "" |}.

Definition listing_server (l : list Run) : AOTServiceHandler :=
  {| h_Namespace := "aot"; h_LiteLLMBaseURL := ""; h_ask := fun _ _ => LLMFailed;
     h_rand := fun _ => Err ""; h_createLimiter := None; h_cancelLimiter := None;
     h_maxConcurrentRuns := 0; h_create := Ok; h_get := fun _ _ => NotFound;
     h_list := fun _ => Ok l; h_Temporal := None |}.

Definition three_runs : list Run :=
  [listed_run "ar-aaaa" 10; listed_run "ar-bbbb" 30; listed_run "ar-cccc" 20].

Lemma pages_cover_witness :
  exists pages, follow 4 (fun i cursor => outcome (ListAgentRuns sort_runs
      (listing_server (if Nat.even i then three_runs else rev three_runs))
      (with_cursor two_per_page cursor))) 0 "" = Some pages /\
    (pn_Id <$> concat pages) = ["ar-bbbb"; "ar-cccc"; "ar-aaaa"] /\
    Forall (fun p => Z.of_nat (length p) <= 2) pages.
Proof.
  destruct (pages_cover sort_runs two_per_page three_runs
    (fun i => listing_server (if Nat.even i then three_runs else rev three_runs)))
    as (pages & Hp & Hc & Hl).
  - apply sort_runs_sorts.
  - vm_compute. reflexivity.
  - intros i. eexists. split; [reflexivity|]. destruct (Nat.even i); [done|symmetry; apply Permutation_rev].
  - vm_compute. apply (bool_decide_unpack _). vm_compute. exact I.
  - intros r Hr. unfold three_runs in Hr. rewrite !elem_of_cons, elem_of_nil in Hr.
    destruct Hr as [-> | [-> | [-> | []]]]; done.
  - vm_compute. apply (bool_decide_unpack _). vm_compute. exact I.
  - exists pages. split; [exact Hp|]. rewrite Hc. split; [vm_compute; reflexivity|exact Hl].
Defined.

(** Two runs of the same second, listed in another order the second time: the second one is on
    no page. *)
Example page_skips_a_run :
  let a := listed_run "ar-aaaa" 10 in
  let b := listed_run "ar-bbbb" 10 in
  let one_per_page := {| lq_Limit := 1; lq_Cursor := ""; lq_PhaseFilter := PHASE_UNSPECIFIED;
     lq_ParentRunId := ""; lq_StageFilter := ""; lq_TagFilter := ""; lq_SpecRunId := "";
     lq_ProjectFilter := ""; lq_FeatureFilter := ""; lq_IncludeArchived := "" |} in
  (fun pages => pn_Id <$> concat pages) <$>
    follow 3 (fun i cursor => outcome (ListAgentRuns sort_runs
      (listing_server (if Nat.even i then [a; b] else [b; a])) (with_cursor one_per_page cursor))) 0 ""
  = Some ["ar-aaaa"].
Proof. vm_compute. reflexivity. Qed.

(** The filter asks for the label as it was typed, and the label was sanitized. *)
Example filter_misses_the_label :
  labels_of sample_spec !! projectKey = Some "My-Shop" /\
  label_filters {| lq_Limit := 0; lq_Cursor := ""; lq_PhaseFilter := PHASE_UNSPECIFIED;
     lq_ParentRunId := ""; lq_StageFilter := ""; lq_TagFilter := ""; lq_SpecRunId := "";
     lq_ProjectFilter := ps_Project sample_spec; lq_FeatureFilter := "";
     lq_IncludeArchived := "" |} = [(projectKey, "My Shop")].
Proof. split; vm_compute; reflexivity. Qed.

(** * Watching a run: [internal/server/grpc.go], [WatchAgentRun]

    The method reads the run, sends its phase, and, unless the run is over, relays the events
    of the bus until the run completes, the subscription or the client is gone, or a send
    fails.  What the loop's [select] takes, in order, is a list; when the list is used up the
    method is still waiting. *)

Local Close Scope Z_scope.

Inductive PEventType :=
| EVENT_UNSPECIFIED | EVENT_PHASE_CHANGED | EVENT_LOG | EVENT_TOOL_CALL | EVENT_WAITING_FOR_INPUT
| EVENT_COMPLETED.

#[export] Instance PEventType_eq_dec : EqDecision PEventType.
Proof. solve_decision. Defined.

Record AgentRunEvent := { ae_AgentRunId : string; ae_Type : PEventType; ae_Payload : string }.

(** The generated [String] of a phase. *)
Definition PPhase_string (p : PPhase) : string :=
  match p with
  | PHASE_UNSPECIFIED => "AGENT_RUN_PHASE_UNSPECIFIED"
  | PHASE_PENDING => "AGENT_RUN_PHASE_PENDING"
  | PHASE_RUNNING => "AGENT_RUN_PHASE_RUNNING"
  | PHASE_WAITING_FOR_INPUT => "AGENT_RUN_PHASE_WAITING_FOR_INPUT"
  | PHASE_SUCCEEDED => "AGENT_RUN_PHASE_SUCCEEDED"
  | PHASE_FAILED => "AGENT_RUN_PHASE_FAILED"
  | PHASE_CANCELLED => "AGENT_RUN_PHASE_CANCELLED"
  end.

(** What the method does to the stream and the bus. *)
Inductive wcall :=
| WSend (e : AgentRunEvent) (a : option string)
| WSubscribe (run : string)
| WUnsubscribe (run : string).

(** What one [select] takes: the end of the context, the closed channel, or an event. *)
Inductive taken := TDone | TClosed | TEvent (e : AgentRunEvent).

Inductive watch_end := Returned (r : reply unit) | Waiting.

Section watch.
Context (get : string -> get_result Run) (bus_configured : bool).
(** the error of sending an event, if any *)
Context (send_error : AgentRunEvent -> option string).

(** [internal/server/grpc.go:505-522] WatchAgentRun: the loop *)
Fixpoint relay (input : list taken) : list wcall * watch_end :=
  match input with
  | [] => ([], Waiting)
  | TDone :: _ | TClosed :: _ => ([], Returned (Reply tt))
  | TEvent e :: rest =>
      match send_error e with
      | Some m => ([WSend e (Some m)], Returned (Fault Unknown ("watch agent run: " +:+ m)))
      | None =>
          if bool_decide (ae_Type e = EVENT_COMPLETED) then ([WSend e None], Returned (Reply tt))
          else let '(cs, r) := relay rest in (WSend e None :: cs, r)
      end
  end.

(** The deferred release of the subscription, when the method returns. *)
Definition deferred (id : string) (m : list wcall * watch_end) : list wcall * watch_end :=
  match m.2 with
  | Returned _ => (m.1 ++ [WUnsubscribe id], m.2)
  | Waiting => m
  end.

(** [internal/server/grpc.go:484-491] WatchAgentRun: the first event *)
Definition initial_event (run : PRun) : AgentRunEvent :=
  {| ae_AgentRunId := pn_Id run; ae_Type := EVENT_PHASE_CHANGED;
     ae_Payload := PPhase_string (px_Phase (pn_Status run)) |}.

(** [internal/server/grpc.go:471-523] WatchAgentRun *)
Definition WatchAgentRun (id : string) (input : list taken) : list wcall * watch_end :=
  if negb (validateRunID id) then
    ([], Returned (Fault InvalidArgument ("invalid input: invalid run ID format: " +:+ Quote id)))
  else
    match get id with
    | NotFound | GetError _ =>
        ([], Returned (Fault CodeNotFound ("not found: agent run " +:+ Quote id +:+ " not found")))
    | Found crd =>
        let run := crdToProto crd in
        let first := initial_event run in
        match send_error first with
        | Some m => ([WSend first (Some m)], Returned (Fault Unknown ("watch agent run: " +:+ m)))
        | None =>
            if isTerminalPhase (px_Phase (pn_Status run)) then ([WSend first None], Returned (Reply tt))
            else if negb bus_configured then
              ([WSend first None], Returned (Fault Unimplemented "not found: event streaming not configured"))
            else
              let '(cs, r) := deferred id (relay input) in
              (WSend first None :: WSubscribe id :: cs, r)
        end
    end.

(** ** What a watcher sees *)

(** The events of the input that are to be relayed: all up to the first completion, before the
    context or the channel ends. *)
Fixpoint relevant (input : list taken) : list AgentRunEvent :=
  match input with
  | TEvent e :: rest => e :: if bool_decide (ae_Type e = EVENT_COMPLETED) then [] else relevant rest
  | _ => []
  end.

(** The sends of a list of events, up to the first that fails. *)
Fixpoint sends (es : list AgentRunEvent) : list wcall :=
  match es with
  | [] => []
  | e :: es => WSend e (send_error e) :: match send_error e with Some _ => [] | None => sends es end
  end.

(** Whether the loop ends: with a failed send, a completion, or the end of its input. *)
Fixpoint over (input : list taken) : bool :=
  match input with
  | [] => false
  | TDone :: _ | TClosed :: _ => true
  | TEvent e :: rest => bool_decide (is_Some (send_error e)) || bool_decide (ae_Type e = EVENT_COMPLETED) || over rest
  end.

Lemma relay_spec input :
  (relay input).1 = sends (relevant input) /\
  ((exists r, (relay input).2 = Returned r) <-> over input = true).
Proof.
  induction input as [|[| |e] input [IH1 IH2]]; simpl.
  - split; [done|]. split; [by intros [? ?]|done].
  - split; [done|]. split; eauto.
  - split; [done|]. split; eauto.
  - destruct (send_error e) as [m|]; simpl; [by split; [|split; eauto]|].
    case_bool_decide; simpl; [by split; [|split; eauto]|].
    destruct (relay input) as [cs r]. simpl in *. by rewrite IH1.
Qed.

(** The run that is watched: it exists, is not over, and its phase can be sent. *)
Definition watchable (id : string) (crd : Run) : Prop :=
  validateRunID id = true /\ get id = Found crd /\ bus_configured = true /\
  isTerminalPhase (px_Phase (pn_Status (crdToProto crd))) = false /\
  send_error (initial_event (crdToProto crd)) = None.

(** C38. What a watcher sees.  A watcher of a run that is not over is sent the phase of the run,
    then the events of the bus in order, up to the completion and none behind it; the
    subscription is made once, before any of them, and released exactly when the method
    returns, whether the run completed, the client left, or a send failed. *)
Theorem watch_relays (id : string) (crd : Run) (input : list taken) (Hw : watchable id crd) :
  let first := initial_event (crdToProto crd) in
  (WatchAgentRun id input).1 =
    WSend first None :: WSubscribe id :: sends (relevant input) ++
      (if over input then [WUnsubscribe id] else []) /\
  ((exists r, (WatchAgentRun id input).2 = Returned r) <-> over input = true).
Proof.
  destruct Hw as (Hv & Hg & Hb & Ht & Hs). unfold WatchAgentRun.
  rewrite Hv, Hg, Hs, Ht, Hb. cbv zeta. cbn [negb].
  destruct (relay_spec input) as [H1 H2]. unfold deferred.
  destruct (relay input) as [cs [r|]] eqn:E; cbn [fst snd] in *.
  - rewrite (proj1 H2) by eauto. rewrite H1. split; [done|]. split; eauto.
  - destruct (over input) eqn:Eo; [by destruct (proj2 H2 eq_refl)|].
    rewrite H1, app_nil_r. split; [done|]. split; [by intros [? ?]|done].
Qed.

(** A watcher of a run that is over, or that cannot be watched, does not subscribe. *)
Lemma no_idle_subscription id input :
  (forall crd, ~ watchable id crd) -> forall run, ~ WSubscribe run ∈ (WatchAgentRun id input).1.
Proof.
  intros Hn run. unfold WatchAgentRun.
  destruct (validateRunID id) eqn:Hv; simpl; [|set_solver].
  destruct (get id) as [crd| |e] eqn:Hg; [|set_solver..].
  destruct (send_error _) as [m|] eqn:Hs; [set_solver|].
  destruct (isTerminalPhase _) eqn:Ht; [set_solver|].
  destruct bus_configured eqn:Hb; simpl; [|set_solver].
  exfalso. apply (Hn crd). by repeat split.
Qed.
End watch.

(** ** The gap between reading and subscribing *)

Lemma append_sub_channels {event} (g : nat -> nat) (b : bus (event := event)) run sub :
  channels (append_sub g b run sub) = channels b.
Proof.
  unfold append_sub, append_in_place, append_grown, with_topic, with_cells.
  destruct (_ <? _); simpl; by repeat case_match.
Qed.

(** Whatever was published before it, a new subscription is empty: a completion that falls
    between the read of the run and the subscription is never seen, and the watcher of a run
    that publishes nothing more waits until its client leaves. *)
Lemma completion_lost (g : nat -> nat) (b b1 b2 : bus (event := AgentRunEvent)) (id : string)
    (e : AgentRunEvent) (ch sub : nat) get send_error crd :
  Publish b id e = Some b1 -> Subscribe g b1 id = (b2, (ch, sub)) ->
  watchable get true send_error id crd ->
  channels b2 !! ch = Some {| cn_buffer := []; cn_closed := false |} /\
  (WatchAgentRun get true send_error id []).2 = Waiting.
Proof.
  intros _ Hsub (Hv & Hg & _ & Ht & Hs). split.
  - unfold Subscribe in Hsub. injection Hsub as <- <- _. rewrite append_sub_channels. simpl.
    rewrite lookup_app_r, Nat.sub_diag by done. done.
  - unfold WatchAgentRun. by rewrite Hv, Hg, Hs, Ht.
Qed.

(** ** A concrete watch *)

Definition watched : Run := listed_run "ar-bbbb" 30%Z.

Lemma watch_relays_witness :
  let ev ty := {| ae_AgentRunId := "ar-bbbb"; ae_Type := ty; ae_Payload := "" |} in
  (WatchAgentRun (fun _ => Found watched) true (fun _ => None) "ar-bbbb"
     [TEvent (ev EVENT_LOG); TEvent (ev EVENT_COMPLETED); TEvent (ev EVENT_LOG)]).1 =
  [WSend {| ae_AgentRunId := "ar-bbbb"; ae_Type := EVENT_PHASE_CHANGED;
            ae_Payload := "AGENT_RUN_PHASE_PENDING" |} None;
   WSubscribe "ar-bbbb"; WSend (ev EVENT_LOG) None; WSend (ev EVENT_COMPLETED) None;
   WUnsubscribe "ar-bbbb"].
Proof.
  intros ev. rewrite (proj1 (watch_relays (fun _ => Found watched) true (fun _ => None) "ar-bbbb" watched _
    ltac:(repeat split; vm_compute; reflexivity))).
  vm_compute. reflexivity.
Defined.
