(* ===== verification/JsonDecode.v ===== *)
(** * Decoding JSON into Go structs, and HMAC: what the webhook uses of the standard library.

    A decoder takes the value that a field has and the document, and gives the new value and
    whether every type was right: a value of the wrong type is skipped, the rest is decoded,
    and [Unmarshal] reports the error at the end.  The elements of an array are decoded into
    fresh values. *)

From S2P Require Import Prelude GoStrings Regex Json Sha256.

Local Open Scope Z_scope.

Definition dec (A : Type) : Type := A -> json -> A * bool.

Definition dec_string : dec string := fun cur v => decode_into (cur, true) v.

Definition dec_int : dec Z := fun cur v =>
  match v with
  | JNull => (cur, true)
  | JNum lit => match Atoi lit with Some z => (z, true) | None => (cur, false) end
  | _ => (cur, false)
  end.

Definition dec_list {A} (zero : A) (d : dec A) : dec (list A) := fun cur v =>
  match v with
  | JNull => ([], true)
  | JArr l => let rs := d zero <$> l in (fst <$> rs, forallb snd rs)
  | _ => (cur, false)
  end.

(** A struct: the fields with their decoders; a member goes to the field of its name, exact or
    up to case, and to none when there is none. *)
Definition dec_struct {A} (fields : list (string * dec A)) : dec A := fun cur v =>
  match v with
  | JNull => (cur, true)
  | JObj l =>
      foldl (fun acc m =>
        match List.find (fun f => String.eqb f.1 (unquote m.1)) fields with
        | Some f => let r := f.2 acc.1 m.2 in (r.1, acc.2 && r.2)
        | None =>
            match List.find (fun f => EqualFold f.1 (unquote m.1)) fields with
            | Some f => let r := f.2 acc.1 m.2 in (r.1, acc.2 && r.2)
            | None => acc
            end
        end) (cur, true) l
  | _ => (cur, false)
  end.

(** The decoder of a field, from that of its type. *)
Definition at_field {A B} (get : A -> B) (set : B -> A -> A) (d : dec B) : dec A := fun a v =>
  let r := d (get a) v in (set r.1 a, r.2).

(** [json.Unmarshal] into a fresh value: [None] is an error. *)
Definition Unmarshal {A} (zero : A) (d : dec A) (body : string) : option A :=
  match parse_json body with
  | None => None
  | Some v => let r := d zero v in if r.2 then Some r.1 else None
  end.

(** ** HMAC *)

Definition word_bytes (w : Z) : list Z := (fun s => Z.land (Z.shiftr w s) 255) <$> [24; 16; 8; 0].

Definition sha256_bytes (msg : list Z) : list Z := sha256 msg ≫= word_bytes.

Definition bytes_of (s : string) : list Z := byte_of <$> String.list_ascii_of_string s.

(** [hmac.New(sha256.New, key)], [Write(msg)], [Sum(nil)] *)
Definition hmac_sha256 (key msg : string) : list Z :=
  let k := bytes_of key in
  let k := if (64 <? length k)%nat then sha256_bytes k else k in
  let k := k ++ replicate (64 - length k) 0 in
  sha256_bytes ((Z.lxor 92 <$> k) ++ sha256_bytes ((Z.lxor 54 <$> k) ++ bytes_of msg)).

(** [hex.DecodeString]: [None] is an error. *)
Fixpoint hex_decode (s : string) : option (list Z) :=
  match s with
  | "" => Some []
  | String a (String b s) =>
      if is_hex a && is_hex b then cons (16 * hex_val a + hex_val b) <$> hex_decode s else None
  | _ => None
  end.

Definition hex_encode (bs : list Z) : string :=
  foldr (fun b acc => String (hex_digit (Z.to_N (Z.shiftr b 4))) (String (hex_digit (Z.to_N (Z.land b 15))) acc)) "" bs.

(** The second test case of RFC 4231. *)
Example hmac_rfc4231 :
  hex_encode (hmac_sha256 "Jefe" "what do ya want for nothing?") =
  "5bdcc146bf60754e6a042426089575c75a003f089d2739839dec58b964ec3843".
Proof. vm_compute. reflexivity. Qed.

Lemma hex_round_trip bs : Forall (fun b => 0 <= b < 256) bs -> hex_decode (hex_encode bs) = Some bs.
Proof.
  induction 1 as [|b bs Hb _ IH]; [done|]. cbn [hex_encode foldr hex_decode].
  assert (forallb (fun b => let h := hex_digit (Z.to_N (Z.shiftr b 4)) in
      let l := hex_digit (Z.to_N (Z.land b 15)) in
      is_hex h && is_hex l && (16 * hex_val h + hex_val l =? b)) (Z.of_nat <$> seq 0 256) = true) as H by (by vm_compute).
  rewrite forallb_elem in H. specialize (H b). cbv zeta in H.
  rewrite !andb_true_iff, Z.eqb_eq in H. destruct H as [[H1 H2] H3].
  { apply list_elem_of_fmap. exists (Z.to_nat b). rewrite elem_of_seq. lia. }
  fold (hex_encode bs). by rewrite H1, H2, IH, H3.
Qed.
