(* ===== verification/Bff.v ===== *)
(** * The web backend: [internal/bff/middleware.go], and what is behind it.

    A handler is a program whose steps are the accesses to shared state; between two of them other requests, the sweeps and
    the clock make theirs.  A middleware is a function on handlers.  What a request was answered, and what was drawn
    from the random numbers for it, is a log. *)

From Stdlib Require Import SpecFloat.
From S2P Require Import Prelude GoStrings GoTime Sha256 JsonDecode.

Local Open Scope Z_scope.

(** ** Requests *)

(** What the middlewares read of a request: [rq_Cookie] is the value of its first cookie [aot_session]. *)
Record request := {
  rq_Method : string; rq_Path : string; rq_Authorization : string; rq_RequestID : string; rq_CSRFToken : string;
  rq_ForwardedFor : string; rq_RemoteAddr : string; rq_Cookie : option string;
}.

Definition with_request_id (id : string) (r : request) : request :=
  {| rq_Method := rq_Method r; rq_Path := rq_Path r; rq_Authorization := rq_Authorization r; rq_RequestID := id;
     rq_CSRFToken := rq_CSRFToken r; rq_ForwardedFor := rq_ForwardedFor r; rq_RemoteAddr := rq_RemoteAddr r;
     rq_Cookie := rq_Cookie r |}.

(** What is written to a response, and that the request has reached the handler behind the middlewares. *)
Inductive write :=
| Header (name value : string)
| SetCookie (value : string)
| WriteStatus (code : Z)
| HTTPError (msg : string) (code : Z)
| Served (r : request).

(** What is drawn from the random numbers. *)
Inductive secret := SessionID | CSRFToken | RequestID.

(** ** Shared state *)

(** [internal/bff/middleware.go:82-86] ipBucket *)
Record ipBucket := { tokens : float; lastCheck : Z }.

(** [internal/bff/middleware.go:304-307] csrfEntry *)
Record csrfEntry := { ce_token : string; ce_createdAt : Z }.

(** The variables of the middlewares: sessions with the times that they were made at, the CSRF entries by the value of the
    cookie, the buckets by address, as pointers into [b_heap]; and the clock in nanoseconds. *)
Record shared := {
  b_sessions : gmap string Z; b_csrf : gmap string csrfEntry; b_buckets : gmap string nat; b_heap : list ipBucket;
  b_now : Z;
}.

Definition with_sessions (f : Z -> gmap string Z -> gmap string Z) (s : shared) : shared :=
  {| b_sessions := f (b_now s) (b_sessions s); b_csrf := b_csrf s; b_buckets := b_buckets s; b_heap := b_heap s; b_now := b_now s |}.
Definition with_csrf (f : Z -> gmap string csrfEntry -> gmap string csrfEntry) (s : shared) : shared :=
  {| b_sessions := b_sessions s; b_csrf := f (b_now s) (b_csrf s); b_buckets := b_buckets s; b_heap := b_heap s; b_now := b_now s |}.
Definition with_buckets (bs : gmap string nat) (h : list ipBucket) (s : shared) : shared :=
  {| b_sessions := b_sessions s; b_csrf := b_csrf s; b_buckets := bs; b_heap := h; b_now := b_now s |}.
Definition with_now (t : Z) (s : shared) : shared :=
  {| b_sessions := b_sessions s; b_csrf := b_csrf s; b_buckets := b_buckets s; b_heap := b_heap s; b_now := t |}.

(** ** Handlers *)

(** A program: it ends, writes, draws a random text, or reads and changes the shared state in one step. *)
Inductive prog :=
| Stop
| Write (w : write) (p : prog)
| Draw (what : secret) (k : string -> prog)
| Atomic (upd : shared -> shared) (k : shared -> prog).

Notation handler := (request -> prog).

(** [internal/bff/middleware.go:21-21] Middleware *)
Definition Middleware : Type := handler -> handler.

(** [internal/bff/middleware.go:25-32] Chain *)
Definition Chain (mws : list Middleware) : Middleware := fun next => foldr (fun mw next => mw next) next mws.

(** [internal/bff/middleware.go:40-52] RequestIDMiddleware *)
Definition RequestIDMiddleware : Middleware := fun next r =>
  let go id := Write (Header "X-Request-ID" id) (next (with_request_id id r)) in
  if String.eqb (rq_RequestID r) "" then Draw RequestID go else go (rq_RequestID r).

(** [internal/bff/middleware.go:60-76] CORSMiddleware *)
Definition CORSMiddleware (allowedOrigin : string) : Middleware := fun next r =>
  Write (Header "Access-Control-Allow-Origin" allowedOrigin)
  (Write (Header "Access-Control-Allow-Methods" "GET, POST, PUT, DELETE, OPTIONS")
  (Write (Header "Access-Control-Allow-Headers" "Content-Type, Authorization, X-Request-ID, X-CSRF-Token")
  (Write (Header "Access-Control-Expose-Headers" "X-Request-ID, X-CSRF-Token")
  (Write (Header "Access-Control-Allow-Credentials" "true")
  (if String.eqb (rq_Method r) "OPTIONS" then Write (WriteStatus 204) Stop else next r))))).

(** *** Limiting the rate *)

(** [net.SplitHostPort]: the host, when there is no error. *)
Definition SplitHost (hostport : string) : option string :=
  match LastIndex hostport ":" with
  | None => None
  | Some i =>
      if HasPrefix hostport "[" then
        match Index hostport "]" with
        | Some end_ =>
            if (S end_ =? i)%nat then
              if Contains (str_drop 1 hostport) "[" || Contains (str_drop (S end_) hostport) "]" then None
              else Some (str_take (end_ - 1) (str_drop 1 hostport))
            else None
        | None => None
        end
      else
        let host := str_take i hostport in
        if Contains host ":" || Contains hostport "[" || Contains hostport "]" then None else Some host
  end.

(** [internal/bff/middleware.go:154-169] extractIP *)
Definition extractIP (trustProxy : bool) (r : request) : string :=
  if trustProxy && negb (String.eqb (rq_ForwardedFor r) "") then
    match Index (rq_ForwardedFor r) "," with
    | Some i => TrimSpace (str_take i (rq_ForwardedFor r))
    | None => TrimSpace (rq_ForwardedFor r)
    end
  else default (rq_RemoteAddr r) (SplitHost (rq_RemoteAddr r)).

(** [internal/bff/middleware.go:127-134] RateLimitMiddleware: the bucket filled up to a time *)
Definition refilled (rate : float) (now : Z) (b : ipBucket) : float :=
  let t := fadd (tokens b) (fmul (Seconds (now - lastCheck b)) rate) in
  if fltb rate t then rate else t.

(** [internal/bff/middleware.go:126-144] RateLimitMiddleware: what happens under the bucket's lock, and whether the request passes *)
Definition take_token (rate : float) (now : Z) (b : ipBucket) : bool * ipBucket :=
  let t := refilled rate now b in
  if fltb t (float_of_Z 1) then (false, {| tokens := t; lastCheck := now |})
  else (true, {| tokens := fsub t (float_of_Z 1); lastCheck := now |}).

Definition bucket_at (s : shared) (l : nat) : ipBucket := default {| tokens := S754_nan; lastCheck := 0 |} (b_heap s !! l).

(** [buckets.LoadOrStore] *)
Definition load_or_store (ip : string) (b : ipBucket) (s : shared) : shared :=
  match b_buckets s !! ip with
  | Some _ => s
  | None => with_buckets (<[ip := length (b_heap s)]> (b_buckets s)) (b_heap s ++ [b]) s
  end.

(** [internal/bff/middleware.go:91-149] RateLimitMiddleware *)
Definition RateLimitMiddleware (trustProxy : bool) (reqPerSec : Z) : Middleware := fun next r =>
  let rate := float_of_Z reqPerSec in
  let ip := extractIP trustProxy r in
  Atomic id (fun s =>
  let new := {| tokens := rate; lastCheck := b_now s |} in
  Atomic (load_or_store ip new) (fun s =>
  let l := default (length (b_heap s)) (b_buckets s !! ip) in
  Atomic (fun s => with_buckets (b_buckets s) (<[l := (take_token rate (b_now s) (bucket_at s l)).2]> (b_heap s)) s) (fun s =>
  if (take_token rate (b_now s) (bucket_at s l)).1 then next r
  else Write (HTTPError "rate limit exceeded" 429) Stop))).

(** [internal/bff/middleware.go:100-112] RateLimitMiddleware: one tick of the sweep over the addresses that it finds *)
Fixpoint sweep_buckets (now : Z) (ips : list string) : prog :=
  match ips with
  | [] => Stop
  | ip :: ips =>
      Atomic id (fun s =>
      match b_buckets s !! ip with
      | None => sweep_buckets now ips
      | Some l =>
          Atomic id (fun s =>
          if 600 * 1000000000 <? now - lastCheck (bucket_at s l) then
            Atomic (fun s => with_buckets (delete ip (b_buckets s)) (b_heap s) s) (fun _ => sweep_buckets now ips)
          else sweep_buckets now ips)
      end)
  end.

(** *** Sessions *)

(** [internal/bff/middleware.go:180-184] signSession *)
Definition signSession (secret sid : string) : string := sid +:+ "." +:+ hex_encode (hmac_sha256 secret sid).

(** [internal/bff/middleware.go:189-209] verifySession *)
Definition verifySession (secret cookieValue : string) : option string :=
  match LastIndex cookieValue "." with
  | None => None
  | Some dot =>
      let sid := str_take dot cookieValue in
      match hex_decode (str_drop (S dot) cookieValue) with
      | None => None
      | Some gotMAC => if bool_decide (gotMAC = hmac_sha256 secret sid) then Some sid else None
      end
  end.

Definition day_ns : Z := 24 * 3600 * 1000000000.

(** [internal/bff/middleware.go:225-234] SessionMiddleware: the sweep, under the lock *)
Definition sweep_sessions (now : Z) (s : shared) : shared :=
  with_sessions (fun _ => filter (fun kv => (day_ns <? now - kv.2) = false)) s.

(** [internal/bff/middleware.go:237-251] SessionMiddleware: issueSession *)
Definition issueSession (secret : string) (p : prog) : prog :=
  Draw SessionID (fun sid =>
  Atomic (with_sessions (fun now => <[sid := now]>)) (fun _ =>
  Write (SetCookie (signSession secret sid)) p)).

(** [internal/bff/middleware.go:216-287] SessionMiddleware *)
Definition SessionMiddleware (secret : string) : Middleware := fun next r =>
  let cookie := default "" (rq_Cookie r) in
  if String.eqb cookie "" then issueSession secret (next r)
  else match verifySession secret cookie with
       | None => issueSession secret (next r)
       | Some sid =>
           Atomic id (fun s =>
           match b_sessions s !! sid with
           | None => issueSession secret (next r)
           | Some _ => next r
           end)
       end.

(** *** Forged requests *)

(** [internal/bff/middleware.go:324-333] CSRFMiddleware: the sweep, under the lock *)
Definition sweep_csrf (now : Z) (s : shared) : shared :=
  with_csrf (fun _ => filter (fun kv => (day_ns <? now - ce_createdAt kv.2) = false)) s.

(** [internal/bff/middleware.go:372-372] CSRFMiddleware: the methods that are verified *)
Definition state_changing (r : request) : bool :=
  String.eqb (rq_Method r) "POST" || String.eqb (rq_Method r) "PUT" || String.eqb (rq_Method r) "DELETE".

(** [internal/bff/middleware.go:369-381] CSRFMiddleware: the token is shown, and that of the request compared with it *)
Definition verify_token (next : handler) (r : request) (token : string) : prog :=
  Write (Header "X-CSRF-Token" token)
    (if state_changing r && (String.eqb (rq_CSRFToken r) "" || negb (String.eqb (rq_CSRFToken r) token))
     then Write (HTTPError "invalid or missing CSRF token" 403) Stop
     else next r).

(** [internal/bff/middleware.go:314-384] CSRFMiddleware *)
Definition CSRFMiddleware : Middleware := fun next r =>
  if negb (String.eqb (rq_Authorization r) "") then next r
  else
    let sessionID := default "" (rq_Cookie r) in
    Atomic id (fun s =>
    let new :=
      Draw CSRFToken (fun token =>
      if String.eqb sessionID "" then verify_token next r token
      else Atomic (with_csrf (fun now => <[sessionID := {| ce_token := token; ce_createdAt := now |}]>))
             (fun _ => verify_token next r token)) in
    match b_csrf s !! sessionID with
    | Some entry => if String.eqb sessionID "" then new else verify_token next r (ce_token entry)
    | None => new
    end).

(** *** The server *)

Record settings := { st_Secret : string; st_AuthMode : string; st_AllowedOrigin : string; st_TrustProxy : bool }.

(** [cmd/bff/main.go:77-91] run: the handler in front of the routes *)
Definition bff_handler (cfg : settings) (mux : handler) : handler :=
  let handler := Chain [RequestIDMiddleware; CORSMiddleware (st_AllowedOrigin cfg); RateLimitMiddleware (st_TrustProxy cfg) 100] mux in
  if String.eqb (st_AuthMode cfg) "open" then handler
  else Chain [SessionMiddleware (st_Secret cfg); CSRFMiddleware] handler.

(** A request that has come through to the routes. *)
Definition routes : handler := fun r => Write (Served r) Stop.

(** *** What is behind the middlewares *)

(** How the server of files is asked: what [staticFS.Open] and [Stat] say of a path, [Some true] of a directory. *)
Inductive page := ServeFile (path : string) | ServeIndex | NotFound.

(** [internal/bff/spa.go:10-43] SPAHandler *)
Definition SPAHandler (stat : string -> option bool) (path : string) : page :=
  match stat path with
  | Some isDir =>
      if isDir && bool_decide (stat (path +:+ "/index.html") = None) then ServeIndex else ServeFile path
  | None =>
      if HasPrefix path "/api/" || HasPrefix path "/aot.api.v1." then NotFound else ServeIndex
  end.

(** [internal/bff/proxy.go:82-84] isWebSocketUpgrade *)
Definition isWebSocketUpgrade (upgrade : string) : bool := EqualFold upgrade "websocket".

(** [internal/bff/proxy.go:89-97] proxyWebSocket: the address of the backend *)
Definition backend_host (scheme host : string) : string :=
  if Contains host ":" then host else if String.eqb scheme "https" then host +:+ ":443" else host +:+ ":80".

(** ** Requests, side by side *)

Inductive entry := Arrived (r : request) | Wrote (w : write) | Drew (what : secret) (n : nat).

Notation history := (list (nat * entry)).

(** How many texts have been drawn. *)
Definition is_draw (e : nat * entry) : bool := match e.2 with Drew _ _ => true | _ => false end.
Definition draws (log : history) : nat := length (filter (fun e => is_draw e = true) log).

(** What is running: the programs of the requests, by their number, and those of the sweeps. *)
Record system := { sy_shared : shared; sy_running : gmap nat prog; sy_next : nat; sy_log : history }.

Section system.
(** the random texts, in the order in which they are drawn *)
Context (rand : nat -> string).
Variable h : handler.

(** A client does not know a token that was not drawn yet. *)
Definition knowable (log : history) (r : request) : Prop := forall n, (draws log <= n)%nat -> rq_CSRFToken r <> rand n.

Inductive step : system -> system -> Prop :=
| step_arrive s rn nx log r (Hr : knowable log r) :
    step {| sy_shared := s; sy_running := rn; sy_next := nx; sy_log := log |}
         {| sy_shared := s; sy_running := <[nx := h r]> rn; sy_next := S nx; sy_log := log ++ [(nx, Arrived r)] |}
| step_write s rn nx log i w p (Hi : rn !! i = Some (Write w p)) :
    step {| sy_shared := s; sy_running := rn; sy_next := nx; sy_log := log |}
         {| sy_shared := s; sy_running := <[i := p]> rn; sy_next := nx; sy_log := log ++ [(i, Wrote w)] |}
| step_draw s rn nx log i what k (Hi : rn !! i = Some (Draw what k)) :
    step {| sy_shared := s; sy_running := rn; sy_next := nx; sy_log := log |}
         {| sy_shared := s; sy_running := <[i := k (rand (draws log))]> rn; sy_next := nx;
            sy_log := log ++ [(i, Drew what (draws log))] |}
| step_atomic s rn nx log i upd k (Hi : rn !! i = Some (Atomic upd k)) :
    step {| sy_shared := s; sy_running := rn; sy_next := nx; sy_log := log |}
         {| sy_shared := upd s; sy_running := <[i := k s]> rn; sy_next := nx; sy_log := log |}
| step_sweep_sessions s rn nx log now (Hnow : now <= b_now s) :
    step {| sy_shared := s; sy_running := rn; sy_next := nx; sy_log := log |}
         {| sy_shared := sweep_sessions now s; sy_running := rn; sy_next := nx; sy_log := log |}
| step_sweep_csrf s rn nx log now (Hnow : now <= b_now s) :
    step {| sy_shared := s; sy_running := rn; sy_next := nx; sy_log := log |}
         {| sy_shared := sweep_csrf now s; sy_running := rn; sy_next := nx; sy_log := log |}
| step_sweep_buckets s rn nx log ips now (Hnow : now <= b_now s) :
    step {| sy_shared := s; sy_running := rn; sy_next := nx; sy_log := log |}
         {| sy_shared := s; sy_running := <[nx := sweep_buckets now ips]> rn; sy_next := S nx; sy_log := log |}
| step_clock s rn nx log t (Ht : b_now s <= t) :
    step {| sy_shared := s; sy_running := rn; sy_next := nx; sy_log := log |}
         {| sy_shared := with_now t s; sy_running := rn; sy_next := nx; sy_log := log |}.

Definition initial (now : Z) : system :=
  {| sy_shared := {| b_sessions := ∅; b_csrf := ∅; b_buckets := ∅; b_heap := []; b_now := now |};
     sy_running := ∅; sy_next := 0%nat; sy_log := [] |}.

(** ** What a token was made for *)

(** The token was drawn while a request with this cookie, which is not empty, was served. *)
Definition issued (log : history) (cookie token : string) : Prop :=
  cookie <> "" /\ exists j r n, (j, Arrived r) ∈ log /\ rq_Cookie r = Some cookie /\
    (j, Drew CSRFToken n) ∈ log /\ token = rand n.

(** A request without an [Authorization] that changes something has a token that was made for its cookie. *)
Definition enforced (log : history) (r : request) : Prop :=
  rq_Authorization r = "" -> state_changing r = true ->
  exists c, rq_Cookie r = Some c /\ issued log c (rq_CSRFToken r).

(** A response shows a token of the cookie of its request, or one that was drawn for this request. *)
Definition shown (log : history) (i : nat) (r : request) (token : string) : Prop :=
  (exists c, rq_Cookie r = Some c /\ issued log c token) \/
  (exists n, (i, Drew CSRFToken n) ∈ log /\ token = rand n).

Definition permitted (log : history) (i : nat) (r : request) (w : write) : Prop :=
  match w with
  | Served _ => enforced log r
  | Header name value => name = "X-CSRF-Token" -> shown log i r value
  | _ => True
  end.

Definition csrf_ok (log : history) (s : shared) : Prop :=
  forall c e, b_csrf s !! c = Some e -> issued log c (ce_token e).

(** A program that writes what is permitted only, whatever the others do meanwhile. *)
Fixpoint safe (i : nat) (r : request) (log : history) (p : prog) : Prop :=
  match p with
  | Stop => True
  | Write w p => permitted log i r w /\ safe i r log p
  | Draw what k => forall log', log `prefix_of` log' ->
      safe i r (log' ++ [(i, Drew what (draws log'))]) (k (rand (draws log')))
  | Atomic upd k => forall log' s, log `prefix_of` log' -> csrf_ok log' s -> csrf_ok log' (upd s) /\ safe i r log' (k s)
  end.

Lemma elem_of_extended {A} (l l' : list A) x : l `prefix_of` l' -> x ∈ l -> x ∈ l'.
Proof. intros [k ->] H. apply elem_of_app. by left. Qed.

Lemma issued_mono log log' c t : log `prefix_of` log' -> issued log c t -> issued log' c t.
Proof. intros Hp (Hc & j & r & n & H1 & H2 & H3 & H4). split; [done|]. exists j, r, n. split_and!; eauto using elem_of_extended. Qed.

Lemma permitted_mono log log' i r w : log `prefix_of` log' -> permitted log i r w -> permitted log' i r w.
Proof.
  intros Hp. destruct w as [name value| | | |r']; cbn; try done.
  - intros H Hn. destruct (H Hn) as [(c & ? & ?)|(n & ? & ?)]; [left; exists c|right; exists n]; eauto using issued_mono, elem_of_extended.
  - intros H Ha Hs. destruct (H Ha Hs) as (c & ? & ?). eauto using issued_mono.
Qed.

Lemma safe_mono i r p : forall log log', log `prefix_of` log' -> safe i r log p -> safe i r log' p.
Proof.
  induction p as [|w p IH|what k IH|upd k IH]; intros log log' Hp; cbn [safe]; [done|..].
  - intros [Hw Hs]. eauto using permitted_mono.
  - intros H log'' Hp'. apply H. by etrans.
  - intros H log'' s Hp'. apply H. by etrans.
Qed.

Lemma csrf_ok_mono log log' s : log `prefix_of` log' -> csrf_ok log s -> csrf_ok log' s.
Proof. intros Hp H c e Hc. eapply issued_mono; eauto. Qed.

(** ** The middlewares keep it *)

Section middlewares.
Context (i : nat) (r : request) (base : history).
(** the request has arrived, and did not know the tokens of the future *)
Hypothesis arrived : (i, Arrived r) ∈ base.
Hypothesis unguessed : knowable base r.

Definition same (r' : request) : Prop := with_request_id "" r' = with_request_id "" r.

(** A handler that is safe for the requests that may come through. *)
Definition passes (next : handler) : Prop :=
  forall log r', base `prefix_of` log -> same r' -> enforced log r -> safe i r log (next r').

Lemma routes_passes : passes routes.
Proof. intros log r' _ _ H. by cbn. Qed.

Lemma enforced_mono log log' : log `prefix_of` log' -> enforced log r -> enforced log' r.
Proof. apply (permitted_mono log log' i r (Served r)). Qed.

Lemma request_id_passes next : passes next -> passes (RequestIDMiddleware next).
Proof.
  intros H log r' Hb Hs He. unfold RequestIDMiddleware. case_match.
  - cbn [safe]. intros log' Hp. split; [done|].
    assert (log `prefix_of` log' ++ [(i, Drew RequestID (draws log'))]) as Hp' by (etrans; [done|by apply prefix_app_r]).
    apply H; [by etrans|done|by eapply enforced_mono].
  - split; [done|]. by apply H.
Qed.

Lemma cors_passes origin next : passes next -> passes (CORSMiddleware origin next).
Proof. intros H log r' Hb Hs He. unfold CORSMiddleware. cbn [safe permitted]. split_and!; try done. case_match; [by cbn|by apply H]. Qed.

Lemma rate_limit_passes trust n next : passes next -> passes (RateLimitMiddleware trust n next).
Proof.
  intros H log r' Hb Hs He log1 s1 Hp1 Hok1. split; [done|]. intros log2 s2 Hp2 Hok2. split.
  { unfold load_or_store. case_match; [done|]. intros c e. apply Hok2. }
  intros log3 s3 Hp3 Hok3. split; [intros c e; apply Hok3|].
  assert (log `prefix_of` log3) by (etrans; [exact Hp1|]; by etrans).
  case_match; [|by cbn]. apply H; [by etrans|done|by eapply enforced_mono].
Qed.

Lemma issue_session_safe secret log p :
  base `prefix_of` log -> (forall log', base `prefix_of` log' -> safe i r log' p) -> safe i r log (issueSession secret p).
Proof.
  intros Hb H log1 Hp1 log2 s2 Hp2 Hok. split; [intros c e; apply Hok|]. split; [done|]. apply H.
  etrans; [exact Hb|]. etrans; [exact Hp1|]. etrans; [by apply prefix_app_r|done].
Qed.

Lemma session_safe secret next log :
  base `prefix_of` log -> (forall log', base `prefix_of` log' -> safe i r log' (next r)) ->
  safe i r log (SessionMiddleware secret next r).
Proof.
  intros Hb H. unfold SessionMiddleware. case_match; [by apply issue_session_safe|].
  case_match; [|by apply issue_session_safe]. intros log' t Hp Hok. split; [done|].
  assert (base `prefix_of` log') by by etrans. case_match; [by apply H|by apply issue_session_safe].
Qed.

(** A token that is shown is one that the request may have, when it has it. *)
Lemma verify_token_safe next log token :
  passes next -> base `prefix_of` log -> shown log i r token -> (token = rq_CSRFToken r -> enforced log r) ->
  safe i r log (verify_token next r token).
Proof.
  intros H Hb Ht He. unfold verify_token. cbn [safe permitted]. split; [done|]. case_match eqn:Hc; [by cbn|].
  apply H; [done|done|]. intros Ha Hs. rewrite Hs in Hc. cbn in Hc. apply orb_false_iff in Hc as [_ Hc].
  apply negb_false_iff, String.eqb_eq in Hc. by apply He.
Qed.

Lemma drawn_later log : base `prefix_of` log -> (draws base <= draws log)%nat.
Proof. intros [k ->]. unfold draws. rewrite filter_app, length_app. lia. Qed.

Lemma csrf_safe next log : passes next -> base `prefix_of` log -> safe i r log (CSRFMiddleware next r).
Proof.
  intros H Hb. unfold CSRFMiddleware. case_match eqn:Ha.
  { apply H; [done|done|]. intros Hn. by rewrite Hn in Ha. }
  intros log1 s1 Hp1 Hok1. split; [done|].
  set (new := Draw CSRFToken _).
  assert (safe i r log1 new) as Hnew.
  { intros log2 Hp2. assert (base `prefix_of` log2) as Hb2 by (etrans; [exact Hb|]; by etrans).
    set (log3 := log2 ++ _). assert (base `prefix_of` log3) as Hb3 by (etrans; [exact Hb2|]; by apply prefix_app_r).
    assert (Hdrew : (i, Drew CSRFToken (draws log2)) ∈ log3) by (apply elem_of_app; right; by apply list_elem_of_singleton).
    assert (Hv : forall log4, log3 `prefix_of` log4 -> safe i r log4 (verify_token next r (rand (draws log2)))).
    { intros log4 Hp4. apply verify_token_safe; [done|by etrans|right; eexists; eauto using elem_of_extended|].
      intros Heq. by destruct (unguessed _ (drawn_later _ Hb2)). }
    case_match eqn:Hcookie; [by apply Hv|]. intros log4 s4 Hp4 Hok4. split; [|by apply Hv].
    intros c e. cbn. destruct (decide (default "" (rq_Cookie r) = c)) as [<-|Hne].
    - rewrite lookup_insert_eq. intros [= <-]. cbn. apply String.eqb_neq in Hcookie. split; [done|].
      exists i, r, (draws log2). split_and!; [|by destruct (rq_Cookie r)| |done];
        (eapply elem_of_extended; [exact Hp4|]); [by eapply elem_of_extended|done].
    - rewrite lookup_insert_ne by done. apply Hok4. }
  destruct (b_csrf s1 !! _) as [e|] eqn:He; [|done]. case_match eqn:Hcookie; [done|].
  pose proof (Hok1 _ _ He) as Hi. assert (rq_Cookie r = Some (default "" (rq_Cookie r))) as Hc by by destruct (rq_Cookie r).
  apply verify_token_safe; [done|by etrans|left; by eexists|]. intros Heq _ _. exists (default "" (rq_Cookie r)).
  split; [done|]. by rewrite <- Heq.
Qed.

Lemma handler_safe cfg : st_AuthMode cfg <> "open" -> safe i r base (bff_handler cfg routes r).
Proof.
  intros Hm. unfold bff_handler. apply String.eqb_neq in Hm as ->. apply session_safe; [done|]. intros log Hb.
  apply csrf_safe; [|done]. apply request_id_passes, cors_passes, rate_limit_passes, routes_passes.
Qed.
End middlewares.

Lemma sweep_safe i r log now ips : safe i r log (sweep_buckets now ips).
Proof.
  revert log. induction ips as [|ip ips IH]; intros log; [done|]. intros log1 s1 _ Hok1. split; [done|].
  case_match; [|apply IH]. intros log2 s2 _ Hok2. split; [done|]. case_match; [|apply IH].
  intros log3 s3 _ Hok3. split; [intros c e; apply Hok3|apply IH].
Qed.
End system.

(** ** Every run of the server *)

Section runs.
Context (rand : nat -> string) (cfg : settings).
Hypothesis auth : st_AuthMode cfg <> "open".
Notation h := (bff_handler cfg routes).
Notation issued := (issued rand).
Notation shown := (shown rand).
Notation safe := (safe rand).
Notation step := (step rand h).

(** The draws are numbered in their order, and no arrival knew a token that was drawn later. *)
Definition ordered (log : history) : Prop :=
  forall l1 e l2, log = l1 ++ e :: l2 ->
  match e.2 with
  | Drew _ n => n = draws l1
  | Arrived r => knowable rand l1 r
  | Wrote _ => True
  end.

Record inv (y : system) : Prop := {
  inv_ids : Forall (fun e => (e.1 < sy_next y)%nat) (sy_log y) /\ forall i, is_Some (sy_running y !! i) -> (i < sy_next y)%nat;
  inv_ordered : ordered (sy_log y);
  inv_csrf : csrf_ok rand (sy_log y) (sy_shared y);
  inv_arrived : forall i r r', (i, Arrived r) ∈ sy_log y -> (i, Arrived r') ∈ sy_log y -> r' = r;
  inv_wrote : forall i r w, (i, Arrived r) ∈ sy_log y -> (i, Wrote w) ∈ sy_log y -> permitted rand (sy_log y) i r w;
  inv_running : forall i p, sy_running y !! i = Some p ->
    exists r, safe i r (sy_log y) p /\ forall r', (i, Arrived r') ∈ sy_log y -> r' = r;
}.

Lemma ordered_snoc log e :
  ordered log ->
  match e.2 with Drew _ n => n = draws log | Arrived r => knowable rand log r | Wrote _ => True end ->
  ordered (log ++ [e]).
Proof.
  intros Ho He l1 e' l2 Heq. destruct l2 as [|e2 l2 _] using rev_ind.
  - apply app_inj_tail in Heq as [-> ->]. done.
  - rewrite app_comm_cons, app_assoc in Heq. apply app_inj_tail in Heq as [-> _]. by eapply Ho.
Qed.

(** What the log of a running program may be extended by. *)
Lemma inv_progress s rn nx log i p q (e : entry) s' :
  inv {| sy_shared := s; sy_running := rn; sy_next := nx; sy_log := log |} -> rn !! i = Some p ->
  (forall r, (i, e) <> (i, Arrived r)) ->
  match e with Drew _ n => n = draws log | _ => True end ->
  csrf_ok rand (log ++ [(i, e)]) s' ->
  (forall r, safe i r log p -> safe i r (log ++ [(i, e)]) q /\ forall w, e = Wrote w -> permitted rand (log ++ [(i, e)]) i r w) ->
  inv {| sy_shared := s'; sy_running := <[i := q]> rn; sy_next := nx; sy_log := log ++ [(i, e)] |}.
Proof.
  intros [[Hids Hrn] Ho Hok Harr Hwr Hrun] Hi Hne Hd Hs' Hq. cbn in *.
  assert (Hmem : forall j r, (j, Arrived r) ∈ log ++ [(i, e)] -> (j, Arrived r) ∈ log).
  { intros j r [?|Heq%list_elem_of_singleton]%elem_of_app; [done|]. injection Heq as -> Hr. by destruct (Hne r); rewrite <- Hr. }
  assert (log `prefix_of` log ++ [(i, e)]) as Hp by by apply prefix_app_r.
  destruct (Hrun i p Hi) as (r & Hsafe & Hr). destruct (Hq r Hsafe) as [Hsafe' Hw].
  split; cbn.
  - split; [apply Forall_app; split; [done|]; constructor; [by apply Hrn; eexists|done]|].
    intros j. destruct (decide (j = i)) as [->|?]; [intros _; by apply Hrn; eexists|]. rewrite lookup_insert_ne by done. apply Hrn.
  - apply ordered_snoc; [done|]. cbn. destruct e as [r0|w0|w0 n0]; cbn in *; [by destruct (Hne r0)|done|done].
  - done.
  - intros j r1 r2 H1%Hmem H2%Hmem. by eapply Harr.
  - intros j r1 w H1%Hmem [H2|[= -> <-]%list_elem_of_singleton]%elem_of_app.
    + eapply permitted_mono; [exact Hp|by apply Hwr].
    + pose proof (Hr _ H1) as ->. by apply Hw.
  - intros j p'. destruct (decide (j = i)) as [->|?].
    + rewrite lookup_insert_eq. intros [= <-]. exists r. split; [done|]. intros r' ?%Hmem. by apply Hr.
    + rewrite lookup_insert_ne by done. intros (r' & H1 & H2)%Hrun. exists r'. split; [by eapply safe_mono|]. intros ? ?%Hmem. by apply H2.
Qed.

(** Steps that leave the log as it is. *)
Lemma inv_quiet s rn nx log s' rn' nx' :
  inv {| sy_shared := s; sy_running := rn; sy_next := nx; sy_log := log |} -> (nx <= nx')%nat ->
  csrf_ok rand log s' ->
  (forall i p, rn' !! i = Some p -> (i < nx')%nat /\
     (rn !! i = Some p \/ exists r, safe i r log p /\ forall r', (i, Arrived r') ∈ log -> r' = r)) ->
  inv {| sy_shared := s'; sy_running := rn'; sy_next := nx'; sy_log := log |}.
Proof.
  intros [[Hids Hrn] Ho Hok Harr Hwr Hrun] Hle Hs' Hrn'. cbn in *. split; cbn; try done.
  - split; [eapply Forall_impl; [exact Hids|]; cbn; lia|]. intros i [p Hp]. by destruct (Hrn' i p Hp).
  - intros i p Hp. destruct (Hrn' i p Hp) as [_ [?|?]]; [by apply Hrun|done].
Qed.

Lemma inv_fresh s rn nx log r : inv {| sy_shared := s; sy_running := rn; sy_next := nx; sy_log := log |} -> (nx, Arrived r) ∈ log -> False.
Proof. intros [[Hids _] _ _ _ _ _] H. cbn in *. rewrite Forall_forall in Hids. specialize (Hids _ H). cbn in Hids. lia. Qed.

Lemma inv_arrive s rn nx log r :
  inv {| sy_shared := s; sy_running := rn; sy_next := nx; sy_log := log |} -> knowable rand log r ->
  inv {| sy_shared := s; sy_running := <[nx := h r]> rn; sy_next := S nx; sy_log := log ++ [(nx, Arrived r)] |}.
Proof.
  intros Hinv Hkn. pose proof Hinv as [[Hids Hrn] Ho Hok Harr Hwr Hrun]. cbn in *.
  assert (log `prefix_of` log ++ [(nx, Arrived r)]) as Hp by by apply prefix_app_r.
  assert (Hkn' : knowable rand (log ++ [(nx, Arrived r)]) r).
  { intros n Hn. apply Hkn. unfold draws in *. rewrite filter_app, length_app in Hn. cbn in Hn. lia. }
  assert (Hlt : forall j e, (j, e) ∈ log -> (j < nx)%nat) by (intros j e He; rewrite Forall_forall in Hids; apply (Hids _ He)).
  assert (Hmem : forall j r', (j, Arrived r') ∈ log ++ [(nx, Arrived r)] -> (j, Arrived r') ∈ log \/ (j = nx /\ r' = r)).
  { intros j r' [?|Heq%list_elem_of_singleton]%elem_of_app; [by left|]. right. by injection Heq as -> ->. }
  split; cbn.
  - split; [apply Forall_app; split; [eapply Forall_impl; [exact Hids|]; cbn; lia|by repeat constructor; cbn; lia]|].
    intros j. destruct (decide (j = nx)) as [->|?]; [lia|]. rewrite lookup_insert_ne by done. intros ?%Hrn. lia.
  - by apply ordered_snoc.
  - by eapply csrf_ok_mono.
  - intros j r1 r2 [H1|[-> ->]]%Hmem [H2|[Hj ->]]%Hmem; subst; try done;
      [by eapply Harr|by destruct (inv_fresh _ _ _ _ _ Hinv H1)|by destruct (inv_fresh _ _ _ _ _ Hinv H2)].
  - intros j r1 w H1 [H2|[=]%list_elem_of_singleton]%elem_of_app. eapply permitted_mono; [exact Hp|].
    apply Hmem in H1 as [?|[-> _]]; [by apply Hwr|]. apply Hlt in H2. lia.
  - intros j p. destruct (decide (j = nx)) as [->|?].
    + rewrite lookup_insert_eq. intros [= <-]. exists r. split.
      * apply (handler_safe rand); [by apply elem_of_app; right; apply list_elem_of_singleton|done|done].
      * intros r' [H|[_ ->]]%Hmem; [|done]. by destruct (inv_fresh _ _ _ _ r' Hinv).
    + rewrite lookup_insert_ne by done. intros Hj. destruct (Hrun _ _ Hj) as (r' & H1 & H2). exists r'. split; [by eapply safe_mono|].
      intros r'' [H|[-> _]]%Hmem; [by apply H2|done].
Qed.

Lemma inv_step y y' : inv y -> step y y' -> inv y'.
Proof.
  intros Hinv Hstep. destruct Hstep.
  - by apply inv_arrive.
  - eapply inv_progress; [done|done|done|done|eapply csrf_ok_mono; [by apply prefix_app_r|apply Hinv]|].
    intros r [Hw Hs]. split; [eapply safe_mono; [by apply prefix_app_r|done]|]. intros w' [= <-].
    eapply permitted_mono; [by apply prefix_app_r|done].
  - eapply inv_progress; [done|done|done|done|eapply csrf_ok_mono; [by apply prefix_app_r|apply Hinv]|].
    intros r Hs. split; [by apply (Hs log)|done].
  - destruct (inv_running _ Hinv i _ Hi) as (r & Hs & Hr). destruct (Hs log s ltac:(done) (inv_csrf _ Hinv)) as [Hok Hk].
    eapply inv_quiet; [done|done|done|]. intros j p. destruct (decide (j = i)) as [->|?].
    + rewrite lookup_insert_eq. intros [= <-]. split; [by apply (proj2 (inv_ids _ Hinv)); eexists|]. right. by exists r.
    + rewrite lookup_insert_ne by done. intros Hj. split; [by apply (proj2 (inv_ids _ Hinv)); eexists|by left].
  - eapply inv_quiet; [done|done|apply Hinv|]. intros j p Hj. split; [by apply (proj2 (inv_ids _ Hinv)); eexists|by left].
  - eapply inv_quiet; [done|done| |intros j p Hj; split; [by apply (proj2 (inv_ids _ Hinv)); eexists|by left]].
    intros c e. cbn. rewrite map_lookup_filter_Some. intros [He _]. by apply Hinv.
  - eapply inv_quiet; [done|lia|apply Hinv|]. intros j p. destruct (decide (j = nx)) as [->|?].
    + rewrite lookup_insert_eq. intros [= <-]. split; [lia|]. right.
      exists {| rq_Method := ""; rq_Path := ""; rq_Authorization := ""; rq_RequestID := ""; rq_CSRFToken := "";
                rq_ForwardedFor := ""; rq_RemoteAddr := ""; rq_Cookie := None |}.
      split; [apply sweep_safe|]. intros r' H. by destruct (inv_fresh _ _ _ _ r' Hinv).
    + rewrite lookup_insert_ne by done. intros Hj. pose proof (proj2 (inv_ids _ Hinv) j ltac:(by eexists)). cbn in *. split; [lia|by left].
  - eapply inv_quiet; [done|done|apply Hinv|]. intros j p Hj. split; [by apply (proj2 (inv_ids _ Hinv)); eexists|by left].
Qed.

Lemma inv_initial now : inv (initial now).
Proof.
  assert (forall i, sy_running (initial now) !! i = None) as Hr by (intros; apply lookup_empty).
  assert (forall e, e ∉ sy_log (initial now)) as Hl by apply not_elem_of_nil.
  split.
  - split; [by constructor|]. intros i [p Hp]. congruence.
  - intros l1 e l2 H. by destruct l1.
  - intros c e H. cbn in H. by rewrite lookup_empty in H.
  - intros i r r' H. by destruct (Hl _ H).
  - intros i r w H. by destruct (Hl _ H).
  - intros i p Hp. congruence.
Qed.

Lemma inv_reachable now y : rtc step (initial now) y -> inv y.
Proof.
  cut (forall y0, inv y0 -> rtc step y0 y -> inv y); [intros H; apply H, inv_initial|].
  intros y0 H0 Hr. induction Hr as [|y0 y1 y2 Hs _ IH]; [done|]. by apply IH, (inv_step y0).
Qed.

(** A token that a request had was drawn before it arrived. *)
Lemma drawn_before log l1 i r l2 j n w :
  ordered log -> log = l1 ++ (i, Arrived r) :: l2 -> (j, Drew w n) ∈ log -> rq_CSRFToken r = rand n -> (j, Drew w n) ∈ l1.
Proof.
  intros Ho Hlog Hd Heq. pose proof (Ho _ _ _ Hlog) as Hkn. cbn in Hkn.
  destruct (decide (n < draws l1)%nat) as [Hlt|Hge]; [|by destruct (Hkn n ltac:(lia))].
  apply list_elem_of_split in Hd as (k1 & k2 & Hk). pose proof (Ho _ _ _ Hk) as Hn. cbn in Hn.
  rewrite Hlog in Hk. apply app_eq_inv in Hk as [(m & -> & Hm)|(m & -> & Hm)].
  - destruct m as [|x m]; [done|]. injection Hm as <- _. apply elem_of_app. right. left.
  - exfalso. rewrite Hn in Hlt. unfold draws in Hlt. rewrite filter_app, length_app in Hlt. lia.
Qed.

(** C28. Requests cannot be forged.  With authentication on, in whatever order requests, sweeps and the clock make their steps: a request without
    an [Authorization] that posts, puts or deletes, and that has come through to the routes, has a session cookie, which is not
    empty, and a token that had been drawn, before it arrived, while a request with the same cookie was served; and every
    token that a response shows was drawn while a request with the same cookie was served, or for this very request. *)
Theorem csrf_enforced (now : Z) (y : system) (i : nat) (r : request)
    (Hreach : rtc step (initial now) y) (Harr : (i, Arrived r) ∈ sy_log y) :
  (forall r', (i, Wrote (Served r')) ∈ sy_log y -> rq_Authorization r = "" -> state_changing r = true ->
     exists c before after j rj n, rq_Cookie r = Some c /\ c <> "" /\
       sy_log y = before ++ (i, Arrived r) :: after /\ (j, Drew CSRFToken n) ∈ before /\ rq_CSRFToken r = rand n /\
       (j, Arrived rj) ∈ sy_log y /\ rq_Cookie rj = Some c) /\
  (forall t, (i, Wrote (Header "X-CSRF-Token" t)) ∈ sy_log y -> shown (sy_log y) i r t).
Proof.
  pose proof (inv_reachable _ _ Hreach) as Hinv. split.
  - intros r' Hs Ha Hc. destruct (inv_wrote _ Hinv _ _ _ Harr Hs Ha Hc) as (c & Hck & Hne & j & rj & n & Hj & Hcj & Hd & Heq).
    apply list_elem_of_split in Harr as (l1 & l2 & Hl). exists c, l1, l2, j, rj, n. split_and!; try done.
    eapply drawn_before; [apply Hinv|done|done|done].
  - intros t Ht. by apply (inv_wrote _ Hinv _ _ _ Harr Ht).
Qed.
End runs.

(** ** Session cookies *)

Lemma LastIndex_dot s : str_exists (Ascii.eqb ".") s = false -> LastIndex s "." = None.
Proof.
  induction s as [|c s IH]; [done|]. cbn [str_exists]. intros [Hc Hs]%orb_false_iff. cbn [LastIndex]. rewrite IH by done.
  case_match eqn:Hp; [|done]. apply HasPrefix_spec in Hp as [t [= -> _]]. discriminate.
Qed.

Lemma LastIndex_after sid s sub n : LastIndex s sub = Some n -> LastIndex (sid +:+ s) sub = Some (String.length sid + n)%nat.
Proof. intros H. induction sid as [|c sid IH]; [done|]. change (String c sid +:+ s) with (String c (sid +:+ s)). cbn [LastIndex]. by rewrite IH. Qed.

Lemma LastIndex_app sid t : str_exists (Ascii.eqb ".") t = false -> LastIndex (sid +:+ "." +:+ t) "." = Some (String.length sid).
Proof.
  intros Ht. rewrite (LastIndex_after _ _ _ 0); [by rewrite Nat.add_0_r|].
  change ("." +:+ t) with (String "." t). cbn [LastIndex]. rewrite LastIndex_dot by done. cbn. by destruct t.
Qed.

Lemma hex_decode_no_dot : forall s bs, hex_decode s = Some bs -> str_exists (Ascii.eqb ".") s = false.
Proof.
  fix IH 1. intros [|a [|b s]] bs; cbn [hex_decode]; [done|done|]. case_match eqn:Hab; [|done].
  destruct (hex_decode s) as [bs'|] eqn:Hs; [|done]. intros _. cbn [str_exists]. rewrite (IH _ _ Hs), orb_false_r.
  apply andb_true_iff in Hab as [Ha Hb]. apply orb_false_iff.
  split; apply Ascii.eqb_neq; intros <-; discriminate.
Qed.

(** A cookie is accepted exactly when it is a session with its code under the secret. *)
Lemma verifySession_spec secret cookie sid :
  verifySession secret cookie = Some sid <->
  exists hex, cookie = sid +:+ "." +:+ hex /\ hex_decode hex = Some (hmac_sha256 secret sid).
Proof.
  unfold verifySession. split.
  - destruct (LastIndex cookie ".") as [dot|] eqn:Hd; [|done]. destruct (hex_decode _) as [mac|] eqn:Hm; [|done].
    case_bool_decide as He; [|done]. intros [= <-]. exists (str_drop (S dot) cookie). split; [|by rewrite <- He].
    clear Hm He. revert dot Hd. induction cookie as [|c cookie IH]; intros dot; [done|]. cbn [LastIndex].
    destruct (LastIndex cookie ".") as [i|] eqn:Hi.
    + intros [= <-]. cbn. f_equal. by apply IH.
    + case_match eqn:Hp; [|done]. intros [= <-]. apply HasPrefix_spec in Hp as [t [= -> ->]]. done.
  - intros (hex & -> & Hd). rewrite LastIndex_app by (by eapply hex_decode_no_dot).
    rewrite str_take_app, <- str_app_assoc. replace (S (String.length sid)) with (String.length (sid +:+ ".")) by (rewrite str_length_app; cbn; lia).
    by rewrite str_drop_app, Hd, bool_decide_true.
Qed.

Lemma hmac_bytes key msg : Forall (fun b => 0 <= b < 256) (hmac_sha256 key msg).
Proof.
  unfold hmac_sha256. cbv zeta. match goal with |- context [sha256_bytes (?a ++ sha256_bytes ?b)] => generalize (a ++ sha256_bytes b) end.
  intros m. apply Forall_bind, Forall_true. intros w. unfold word_bytes. apply Forall_fmap, Forall_true. intros s. cbn.
  change 255 with (Z.ones 8). rewrite Z.land_ones by lia. by apply Z.mod_pos_bound.
Qed.

(** A cookie that the server makes is accepted, and gives the session back. *)
Lemma session_round_trip secret sid : verifySession secret (signSession secret sid) = Some sid.
Proof. apply verifySession_spec. exists (hex_encode (hmac_sha256 secret sid)). split; [done|]. apply hex_round_trip, hmac_bytes. Qed.

(** ** Examples *)

(** A random number generator, and the next step of a program. *)
Definition xs (n : nat) : string := Nat.iter n (String "x") "k".

Lemma xs_length n : String.length (xs n) = S n.
Proof. induction n as [|n IH]; [done|]. cbn. by f_equal. Qed.

Lemma xs_inj n m : xs n = xs m -> n = m.
Proof. intros H%(f_equal String.length). rewrite !xs_length in H. by injection H. Qed.

Definition advance (i : nat) (y : system) : system :=
  match sy_running y !! i with
  | None | Some Stop => y
  | Some (Write w p) =>
      {| sy_shared := sy_shared y; sy_running := <[i := p]> (sy_running y); sy_next := sy_next y; sy_log := sy_log y ++ [(i, Wrote w)] |}
  | Some (Draw what k) =>
      {| sy_shared := sy_shared y; sy_running := <[i := k (xs (draws (sy_log y)))]> (sy_running y); sy_next := sy_next y;
         sy_log := sy_log y ++ [(i, Drew what (draws (sy_log y)))] |}
  | Some (Atomic upd k) =>
      {| sy_shared := upd (sy_shared y); sy_running := <[i := k (sy_shared y)]> (sy_running y); sy_next := sy_next y; sy_log := sy_log y |}
  end.

Lemma advance_steps h i y : rtc (step xs h) y (advance i y).
Proof.
  destruct y as [s rn nx log]. unfold advance. cbn. destruct (rn !! i) as [[|w p|what k|upd k]|] eqn:Hi; [done|..|done];
    apply rtc_once; by constructor.
Qed.

Definition arrive (h : handler) (r : request) (y : system) : system :=
  {| sy_shared := sy_shared y; sy_running := <[sy_next y := h r]> (sy_running y); sy_next := S (sy_next y);
     sy_log := sy_log y ++ [(sy_next y, Arrived r)] |}.

(** A request that is served without any other step between its own. *)
Definition serve (h : handler) (y : system) (r : request) : system := Nat.iter 40 (advance (sy_next y)) (arrive h r y).

Lemma serve_steps h y r : knowable xs (sy_log y) r -> rtc (step xs h) y (serve h y r).
Proof.
  intros Hr. apply (rtc_l _ _ (arrive h r y)); [by destruct y; constructor|].
  unfold serve. generalize 40%nat. intros n. induction n as [|n IH]; [done|]. etrans; [exact IH|apply advance_steps].
Qed.

Definition closed_server : settings :=
  {| st_Secret := "s"; st_AuthMode := "session"; st_AllowedOrigin := "http://localhost:5173"; st_TrustProxy := false |}.
Definition closed : handler := bff_handler closed_server routes.

Definition a_request (method : string) (cookie : option string) (token auth : string) : request :=
  {| rq_Method := method; rq_Path := "/api/v1/runs"; rq_Authorization := auth; rq_RequestID := "q"; rq_CSRFToken := token;
     rq_ForwardedFor := ""; rq_RemoteAddr := "10.0.0.1:999"; rq_Cookie := cookie |}.

(** What became of a request: the tokens that it was shown, and whether it came through. *)
Definition tokens_of (y : system) (i : nat) : list string :=
  omap (fun e => match e with (j, Wrote (Header name t)) => if (j =? i)%nat && String.eqb name "X-CSRF-Token" then Some t else None | _ => None end) (sy_log y).
Definition came_through (y : system) (i : nat) : bool :=
  existsb (fun e => match e with (j, Wrote (Served _)) => (j =? i)%nat | _ => false end) (sy_log y).

(** A client asks for a page with its cookie, and posts with the token that it was shown. *)
Definition visit : list request := [a_request "GET" (Some "c") "" ""; a_request "POST" (Some "c") (xs 1) ""].

Lemma csrf_enforced_witness :
  let y := foldl (serve closed) (initial 0) visit in
  came_through y 1 = true /\
  exists c before after j rj n, Some "c" = Some c /\ c <> "" /\
    sy_log y = before ++ (1%nat, Arrived (a_request "POST" (Some "c") (xs 1) "")) :: after /\
    (j, Drew CSRFToken n) ∈ before /\ xs 1 = xs n /\ (j, Arrived rj) ∈ sy_log y /\ rq_Cookie rj = Some c.
Proof.
  cbv zeta. split; [by vm_compute|].
  set (y := foldl (serve closed) (initial 0) visit).
  assert (Hreach : rtc (step xs closed) (initial 0) y).
  { unfold y, visit. cbn [foldl]. etrans; [apply serve_steps|apply serve_steps]; intros n Hn; [by destruct n|].
    intros <-%xs_inj. revert Hn. by vm_compute; lia. }
  destruct (csrf_enforced xs closed_server ltac:(done) 0 y 1 (a_request "POST" (Some "c") (xs 1) "") Hreach) as [H _].
  - vm_compute. repeat (first [left; reflexivity|right]).
  - eapply H; [|reflexivity|reflexivity]. vm_compute. repeat (first [left; reflexivity|right]).
Defined.

(** *** What the code does *)

Definition visits (rs : list request) : system := foldl (serve closed) (initial 0) rs.

Definition cookies_of (y : system) (i : nat) : list string :=
  omap (fun e => match e with (j, Wrote (SetCookie v)) => if (j =? i)%nat then Some v else None | _ => None end) (sy_log y).

(** "Session must wrap CSRF so the session cookie exists by the time CSRFMiddleware reads it": the cookie is set in the response and read in
    the request, so the token that is shown with a new session is not that of the session, and is refused. *)
Example first_token_is_refused :
  let first := a_request "GET" None "" "" in
  cookies_of (visits [first]) 0 = [signSession "s" (xs 0)] /\ tokens_of (visits [first]) 0 = [xs 1] /\
  came_through (visits [first; a_request "POST" (Some (signSession "s" (xs 0))) (xs 1) ""]) 1 = false.
Proof. by vm_compute. Qed.

(** With authentication on nobody is refused: a request without anything gets a session and comes through, and any [Authorization] is enough
    to post. *)
Example nobody_is_refused :
  came_through (visits [a_request "GET" None "" ""]) 0 = true /\
  came_through (visits [a_request "POST" None "" "Bearer nonsense"]) 0 = true.
Proof. by vm_compute. Qed.

(** The cookie that a token is kept for need not be a session: the text "c" has one. *)
Example any_cookie_has_a_token : came_through (visits visit) 1 = true /\ verifySession "s" "c" = None.
Proof. by vm_compute. Qed.

(** Two first requests with one cookie, side by side: both draw a token, and the one that is shown to the first is refused. *)
Definition side_by_side : system :=
  let get := a_request "GET" (Some "c") "" "" in
  let y := Nat.iter 4 (advance 1) (arrive closed get (Nat.iter 4 (advance 0) (arrive closed get (initial 0)))) in
  Nat.iter 40 (advance 1) (Nat.iter 40 (advance 0) y).

Example first_token_is_overwritten :
  tokens_of side_by_side 0 = [xs 2] /\ tokens_of side_by_side 1 = [xs 3] /\
  came_through (serve closed side_by_side (a_request "POST" (Some "c") (xs 2) "")) 2 = false /\
  came_through (serve closed side_by_side (a_request "POST" (Some "c") (xs 3) "")) 2 = true.
Proof. by vm_compute. Qed.

(** A hundred requests of one address come through at once, the next one does not, and made its session before that; ten milliseconds
    later one more does. *)
Definition later (t : Z) (y : system) : system :=
  {| sy_shared := with_now t (sy_shared y); sy_running := sy_running y; sy_next := sy_next y; sy_log := sy_log y |}.

Example a_hundred_at_once :
  let get := a_request "GET" None "" "" in
  let y := visits (replicate 101 get) in
  forallb (came_through y) (seq 0 100) = true /\ came_through y 100 = false /\ size (b_sessions (sy_shared y)) = 101%nat /\
  came_through (serve closed (later 10000000 y) get) 101 = true /\
  came_through (serve closed (later 9000000 y) get) 101 = false.
Proof. by vm_compute. Qed.

Example addresses :
  SplitHost "10.0.0.1:80" = Some "10.0.0.1" /\ SplitHost "[::1]:80" = Some "::1" /\ SplitHost "::1" = None /\ SplitHost "host" = None /\
  SplitHost "[::1]" = None.
Proof. by vm_compute. Qed.

(** A directory without an index, and a path that no file has, show the application; an unknown path of the API does not. *)
Example pages :
  let stat p := if String.eqb p "/assets" then Some true else if String.eqb p "/a.css" then Some false else None in
  SPAHandler stat "/a.css" = ServeFile "/a.css" /\ SPAHandler stat "/assets" = ServeIndex /\ SPAHandler stat "/run/ar-1" = ServeIndex /\
  SPAHandler stat "/api/v2" = NotFound.
Proof. by vm_compute. Qed.
