(* ===== verification/CIAutofix.v ===== *)
(** * Fixing failed checks: [internal/server/ci_autofix.go].

    A failed check on a branch of the system schedules the creation of a run that fixes it,
    thirty seconds later; further failures of the same commit move that time.  The state is the
    map of pending timers; times are in seconds.  GitHub's answers are a record; a provider of
    tokens may be missing. *)

From S2P Require Import Prelude GoStrings ApiTypes Kube TemporalTypes RunController Json JsonDecode ApiServer.

Local Open Scope Z_scope.

(** ** The event *)

(** [internal/server/ci_autofix.go:55-58] checkSuite *)
Record checkSuite := { cs_ID : Z; cs_HeadBranch : string }.

(** [internal/server/ci_autofix.go:46-53] checkRun *)
Record checkRun := {
  ck_ID : Z; ck_Name : string; ck_Conclusion : string; ck_HeadSHA : string;
  ck_CheckSuite : checkSuite; ck_HTMLURL : string;
}.

(** [internal/server/ci_autofix.go:38-44] checkRunPayload *)
Record checkRunPayload := { cp_Action : string; cp_CheckRun : checkRun; cp_FullName : string }.

Definition zero_checkRun : checkRun :=
  {| ck_ID := 0; ck_Name := ""; ck_Conclusion := ""; ck_HeadSHA := "";
     ck_CheckSuite := {| cs_ID := 0; cs_HeadBranch := "" |}; ck_HTMLURL := "" |}.

Definition dec_checkSuite : dec checkSuite := dec_struct
  [("id", at_field cs_ID (fun z s => {| cs_ID := z; cs_HeadBranch := cs_HeadBranch s |}) dec_int);
   ("head_branch", at_field cs_HeadBranch (fun b s => {| cs_ID := cs_ID s; cs_HeadBranch := b |}) dec_string)].

Definition with_ck (id : Z) (name conclusion sha : string) (suite : checkSuite) (url : string) : checkRun :=
  {| ck_ID := id; ck_Name := name; ck_Conclusion := conclusion; ck_HeadSHA := sha;
     ck_CheckSuite := suite; ck_HTMLURL := url |}.

Definition dec_checkRun : dec checkRun := dec_struct
  [("id", at_field ck_ID (fun x c => with_ck x (ck_Name c) (ck_Conclusion c) (ck_HeadSHA c) (ck_CheckSuite c) (ck_HTMLURL c)) dec_int);
   ("name", at_field ck_Name (fun x c => with_ck (ck_ID c) x (ck_Conclusion c) (ck_HeadSHA c) (ck_CheckSuite c) (ck_HTMLURL c)) dec_string);
   ("conclusion", at_field ck_Conclusion (fun x c => with_ck (ck_ID c) (ck_Name c) x (ck_HeadSHA c) (ck_CheckSuite c) (ck_HTMLURL c)) dec_string);
   ("head_sha", at_field ck_HeadSHA (fun x c => with_ck (ck_ID c) (ck_Name c) (ck_Conclusion c) x (ck_CheckSuite c) (ck_HTMLURL c)) dec_string);
   ("check_suite", at_field ck_CheckSuite (fun x c => with_ck (ck_ID c) (ck_Name c) (ck_Conclusion c) (ck_HeadSHA c) x (ck_HTMLURL c)) dec_checkSuite);
   ("html_url", at_field ck_HTMLURL (fun x c => with_ck (ck_ID c) (ck_Name c) (ck_Conclusion c) (ck_HeadSHA c) (ck_CheckSuite c) x) dec_string)].

(** The decoder of a repository, which is its full name. *)
Definition dec_repository : dec string := dec_struct [("full_name", dec_string)].

Definition dec_checkRunPayload : dec checkRunPayload := dec_struct
  [("action", at_field cp_Action (fun x p => {| cp_Action := x; cp_CheckRun := cp_CheckRun p; cp_FullName := cp_FullName p |}) dec_string);
   ("check_run", at_field cp_CheckRun (fun x p => {| cp_Action := cp_Action p; cp_CheckRun := x; cp_FullName := cp_FullName p |}) dec_checkRun);
   ("repository", at_field cp_FullName (fun x p => {| cp_Action := cp_Action p; cp_CheckRun := cp_CheckRun p; cp_FullName := x |}) dec_repository)].

(** ** What is called *)

Record github := {
  gh_token : result string;
  gh_run_ids : string -> result (list Z);
  (** the files of the archive at a URL that can be read, each capped at one megabyte *)
  gh_logs : string -> result (list (string * string));
  gh_prs : string -> result (list Z);
}.

(** [internal/server/ci_autofix.go:61-71] CIAutofix: the configuration, whether the server is
    shutting down, and the answers *)
Record CIAutofix := {
  ci_stopped : bool;
  ci_Namespace : string;
  ci_MaxRetries : Z;
  ci_GitHub : option github;
  ci_list : result (list Run);
  ci_status : Run -> result unit;
  ci_create : Run -> result unit;
}.

Inductive ccall :=
| CStatusUpdate (r : Run)
| CComment (url text : string)
| CCreateRun (r : Run) (a : result unit).

(** A fix whose timer runs. *)
Record pending_fix := {
  fx_repo : string; fx_branch : string; fx_sha : string; fx_suite : Z; fx_attempt : Z; fx_due : Z;
}.

Definition timers := gmap string pending_fix.

Definition branchKey : string := "aot.uncworks.io/pr-branch".
Definition shaKey : string := "aot.uncworks.io/ci-fix-sha".
Definition attemptKey : string := "aot.uncworks.io/ci-fix-attempt".

Definition on_branch (branch : string) (r : Run) : bool :=
  bool_decide (m_Annotations (run_Meta r) !! branchKey = Some branch) ||
  String.eqb branch "" && negb (bool_decide (m_Annotations (run_Meta r) = ∅)) &&
  bool_decide (m_Annotations (run_Meta r) !! branchKey = None).

Definition set_LastCIStatus (s : string) (st : RunStatus) : RunStatus :=
  let r := st_Reports st in
  {| st_Phase := st_Phase st; st_Message := st_Message st; st_PodName := st_PodName st;
     st_StartedAt := st_StartedAt st; st_CompletedAt := st_CompletedAt st;
     st_Conditions := st_Conditions st; st_DeploymentName := st_DeploymentName st;
     st_VerificationResult := st_VerificationResult st; st_PRUrl := st_PRUrl st;
     st_Archived := st_Archived st;
     st_Reports :=
       {| rp_TraceID := rp_TraceID r; rp_WorktreePath := rp_WorktreePath r;
          rp_LogOutput := rp_LogOutput r; rp_AgentJSONL := rp_AgentJSONL r;
          rp_RetainUntil := rp_RetainUntil r; rp_DebugActive := rp_DebugActive r;
          rp_Stage := rp_Stage r; rp_RetryCount := rp_RetryCount r; rp_TotalCost := rp_TotalCost r;
          rp_TotalAdditions := rp_TotalAdditions r; rp_TotalDeletions := rp_TotalDeletions r;
          rp_CIFixAttempts := rp_CIFixAttempts r; rp_LastCIStatus := s;
          rp_ParentPRUrl := rp_ParentPRUrl r |} |}.

Section autofix.
Variable ci : CIAutofix.

(** [internal/server/ci_autofix.go:368-383] getFixAttemptCount *)
Definition getFixAttemptCount (branch : string) : result Z :=
  match ci_list ci with
  | Err e => Err ("get fix attempt count: " +:+ e)
  | Ok items => Ok (Z.of_nat (length (filter
      (fun r => on_branch branch r && HasPrefix (rs_SpecSource (run_Spec r)) "ci-autofix:" = true) items)))
  end.

(** [internal/server/ci_autofix.go:386-407] updateCIStatus *)
Definition updateCIStatus (branch status : string) : list ccall :=
  if negb (HasPrefix branch "aot/") then []
  else
    match ci_list ci with
    | Err _ => []
    | Ok items =>
        match List.find (on_branch branch) (rev items) with
        | Some r => [CStatusUpdate (with_status r (set_LastCIStatus status (run_Status r)))]
        | None => []
        end
    end.

(** [internal/server/ci_autofix.go:463-488] resolvePRNumber *)
Definition resolvePRNumber (g : github) (owner repo branch : string) : result Z :=
  match gh_prs g ("https://api.github.com/repos/" +:+ owner +:+ "/" +:+ repo +:+ "/pulls?head=" +:+
                  owner +:+ ":" +:+ branch +:+ "&state=open") with
  | Err e => Err ("resolve pr number: " +:+ e)
  | Ok [] => Err ("failed: no open PR found for branch " +:+ branch)
  | Ok (n :: _) => Ok n
  end.

(** [internal/server/ci_autofix.go:410-460] postCircuitBreakerComment *)
Definition postCircuitBreakerComment (repoFullName branch : string) (attempts : Z) : list ccall :=
  match ci_GitHub ci with
  | None => []
  | Some g =>
      match gh_token g, SplitN repoFullName "/"%char 2 with
      | Ok _, [owner; repo] =>
          match resolvePRNumber g owner repo branch with
          | Err _ => []
          | Ok n =>
              [CComment ("https://api.github.com/repos/" +:+ owner +:+ "/" +:+ repo +:+ "/issues/" +:+
                         Itoa n +:+ "/comments")
                 ("UNCWORKS CI Autofix has exhausted " +:+ Itoa attempts +:+ " fix attempts for this PR. " +:+
                  "The CI checks are still failing. Manual intervention is required." +:+ newline +:+ newline +:+
                  "The autofix agent attempted to resolve the failures but was unable to " +:+
                  "produce changes that pass all CI checks within the retry limit.")]
          end
      | _, _ => []
      end
  end.

(** [internal/server/ci_autofix.go:92-152] HandleCheckRunEvent, at the time [now]: the calls, the
    timers, and whether a fix was scheduled *)
Definition HandleCheckRunEvent (now : Z) (pending : timers) (body : string)
  : list ccall * timers * (bool * option string) :=
  match Unmarshal {| cp_Action := ""; cp_CheckRun := zero_checkRun; cp_FullName := "" |}
          dec_checkRunPayload body with
  | None => ([], pending, (false, Some "unmarshal check_run"))
  | Some payload =>
      let check := cp_CheckRun payload in
      let branch := cs_HeadBranch (ck_CheckSuite check) in
      if negb (String.eqb (cp_Action payload) "completed") then ([], pending, (false, None))
      else if negb (String.eqb (ck_Conclusion check) "failure") then
        ((if String.eqb (ck_Conclusion check) "success" then updateCIStatus branch "success" else []),
         pending, (false, None))
      else if negb (HasPrefix branch "aot/") then ([], pending, (false, None))
      else
        let attempts := match getFixAttemptCount branch with Ok n => n | Err _ => 0 end in
        if ci_MaxRetries ci <=? attempts then
          (postCircuitBreakerComment (cp_FullName payload) branch attempts, pending, (false, None))
        else
          let sha := ck_HeadSHA check in
          ([], <[sha := {| fx_repo := cp_FullName payload; fx_branch := branch; fx_sha := sha;
                           fx_suite := cs_ID (ck_CheckSuite check); fx_attempt := attempts + 1;
                           fx_due := now + 30 |}]> pending, (true, None))
  end.

(** ** The logs *)

Definition maxLen : nat := 8 * 1000.

Definition errorIndicators : list string :=
  ["error"; "Error"; "ERROR"; "FAIL"; "fail"; "Failed"; "panic"; "Panic"; "undefined"; "not found";
   "cannot"; "Cannot"; "expected"; "unexpected"; "warning"; "Warning"].

Definition indicates (line : string) : bool := existsb (Contains line) errorIndicators.

(** [internal/server/ci_autofix.go:336-348] condenseCIErrors: the lines that are kept *)
Definition relevant_lines (raw : string) : list string :=
  filter (fun l => l <> "" /\ indicates l = true) (TrimSpace <$> Split raw "010"%char).

(** The last bytes of a string. *)
Definition str_last (n : nat) (s : string) : string := str_drop (String.length s - n) s.

Definition truncated_mark : string :=
  newline +:+ newline +:+ "... (truncated) ..." +:+ newline +:+ newline.

(** [internal/server/ci_autofix.go:324-365] condenseCIErrors *)
Definition condenseCIErrors (raw : string) : string :=
  let result := Join (relevant_lines raw) newline in
  let result :=
    if (maxLen <? String.length result)%nat then
      str_take (maxLen / 2) result +:+ truncated_mark +:+ str_last (maxLen / 2) result
    else result in
  if String.eqb result "" then
    if (4 * 1000 <? String.length raw)%nat then
      "... (showing last 4000 chars)" +:+ newline +:+ str_last (4 * 1000) raw
    else raw
  else result.

(** [internal/server/ci_autofix.go:296-321] extractTextFromZip: the files that could be read *)
Definition extractTextFromZip (files : list (string * string)) : string :=
  foldr (fun f acc => "=== " +:+ f.1 +:+ " ===" +:+ newline +:+ f.2 +:+ newline +:+ acc) "" files.

(** [internal/server/ci_autofix.go:266-293] resolveActionsRunID *)
Definition resolveActionsRunID (g : github) (owner repo : string) (suite : Z) : result Z :=
  match gh_run_ids g ("https://api.github.com/repos/" +:+ owner +:+ "/" +:+ repo +:+
                      "/actions/runs?check_suite_id=" +:+ Itoa suite) with
  | Err e => Err ("resolve actions run id: " +:+ e)
  | Ok [] => Err ("failed: no workflow runs found for check_suite " +:+ Itoa suite)
  | Ok (id :: _) => Ok id
  end.

(** [internal/server/ci_autofix.go:216-263] fetchAndCondenseCILogs *)
Definition fetchAndCondenseCILogs (owner repo : string) (suite : Z) : result string :=
  match ci_GitHub ci with
  | None => Err "failed: no GitHub token provider"
  | Some g =>
      match gh_token g with
      | Err e => Err ("get token: " +:+ e)
      | Ok _ =>
          match resolveActionsRunID g owner repo suite with
          | Err e => Err ("resolve run ID: " +:+ e)
          | Ok id =>
              match gh_logs g ("https://api.github.com/repos/" +:+ owner +:+ "/" +:+ repo +:+
                               "/actions/runs/" +:+ Itoa id +:+ "/logs") with
              | Err e => Err ("fetch logs: " +:+ e)
              | Ok files => Ok (condenseCIErrors (extractTextFromZip files))
              end
          end
      end
  end.

(** ** The run that fixes *)

(** The status of an object that was not given one. *)
Definition zero_status : RunStatus :=
  {| st_Phase := AgentRunPhaseOther ""; st_Message := ""; st_PodName := ""; st_StartedAt := None;
     st_CompletedAt := None; st_Conditions := []; st_DeploymentName := "";
     st_VerificationResult := ""; st_PRUrl := ""; st_Archived := false; st_Reports := no_reports |}.

(** [internal/server/ci_autofix.go:170-179] createFixRun: the prompt *)
Definition fix_prompt (branch ciLogs : string) : string :=
  Join ["The CI checks failed on branch " +:+ branch +:+ ". Fix the failing checks."; "";
        "## CI Error Output"; ciLogs; ""; "## Instructions"; "- Read the error messages carefully";
        "- Fix only the issues identified in the CI output"; "- Do not make unrelated changes";
        "- Run any test commands locally to verify before completing"] newline.

(** [internal/server/ci_autofix.go:184-205] createFixRun: the object that is submitted, whose name
    the API server generates *)
Definition fix_run (owner repo prompt : string) (f : pending_fix) : Run :=
  {| run_Meta := named (ci_Namespace ci) "" ∅
       (<[branchKey := fx_branch f]> (<[shaKey := fx_sha f]> {[attemptKey := Itoa (fx_attempt f)]}));
     run_Spec :=
       {| rs_Backend := BackendPod;
          rs_Repos := [{| repo_URL := "https://github.com/" +:+ owner +:+ "/" +:+ repo +:+ ".git";
                          repo_Branch := fx_branch f; repo_Path := "" |}];
          rs_Prompt := prompt; rs_DevboxConfig := ""; rs_TTLSeconds := 1800; rs_EnvVars := [];
          rs_Image := ""; rs_ModelTier := "deepseek-v3.1"; rs_ManageModelTier := "";
          rs_ImplementModelTier := ""; rs_SpecContent := "";
          rs_SpecSource := "ci-autofix:" +:+ owner +:+ "/" +:+ repo +:+ "#" +:+ str_take 8 (fx_sha f);
          rs_ProjectRef := ""; rs_SpecRef := ""; rs_WorkspaceName := ""; rs_ParentRunID := "";
          rs_OrchestrationMode := OrchestrationModeSpecDriven; rs_Orchestration := None;
          rs_SpecRunID := ""; rs_DisplayName := ""; rs_PipelineConfig := None; rs_MaxBudget := 0;
          rs_AutoPush := true; rs_AutoPR := false; rs_PRBaseBranch := ""; rs_Project := "";
          rs_Feature := "ci-autofix"; rs_Tags := []; rs_ApprovalMode := ""; rs_OpenspecChange := "" |};
     run_Status := zero_status |}.

(** [internal/server/ci_autofix.go:155-213] createFixRun *)
Definition createFixRun (f : pending_fix) : list ccall :=
  match SplitN (fx_repo f) "/"%char 2 with
  | [owner; repo] =>
      let ciLogs := match fetchAndCondenseCILogs owner repo (fx_suite f) with
                    | Ok logs => logs
                    | Err _ => "(CI logs unavailable)"
                    end in
      let r := fix_run owner repo (fix_prompt (fx_branch f) ciLogs) f in
      [CCreateRun r (ci_create ci r)]
  | _ => []
  end.

(** [internal/server/ci_autofix.go:137-149] HandleCheckRunEvent: the function of a timer, which runs
    once; it does nothing while the server shuts down *)
Definition fire (now : Z) (pending : timers) (sha : string) : option (list ccall * timers) :=
  match pending !! sha with
  | Some f => if fx_due f <=? now then Some (if ci_stopped ci then [] else createFixRun f, delete sha pending) else None
  | None => None
  end.
End autofix.

(** ** The logs are cut *)

Lemma str_length_drop n s : String.length (str_drop n s) = (String.length s - n)%nat.
Proof. revert s. induction n as [|n IH]; intros [|c s]; try done. simpl. by rewrite IH. Qed.

Lemma str_length_take_le n s : (String.length (str_take n s) <= n)%nat.
Proof. revert s. induction n as [|n IH]; intros [|c s]; simpl; try lia. specialize (IH s). lia. Qed.

Lemma str_length_last n s : (String.length (str_last n s) <= n)%nat.
Proof. unfold str_last. rewrite str_length_drop. lia. Qed.

(** What is put into the prompt is bounded.  However long the logs of a failed check are, at
    most 8023 bytes of them reach the prompt; and when lines of the log point to an error and
    are no longer than 8000 bytes together, they are what reaches it, in order, trimmed. *)
Theorem condensed_logs (raw : string) :
  (String.length (condenseCIErrors raw) <= 8023)%nat /\
  (relevant_lines raw <> [] -> (String.length (Join (relevant_lines raw) newline) <= maxLen)%nat ->
   condenseCIErrors raw = Join (relevant_lines raw) newline /\
   Forall (fun l => indicates l = true) (relevant_lines raw)).
Proof.
  unfold condenseCIErrors. set (kept := Join (relevant_lines raw) newline).
  assert (forall n m, (String.length (str_take n kept +:+ truncated_mark +:+ str_last m kept) <= n + 23 + m)%nat) as Hcut.
  { intros n m. rewrite !str_length_app. change (String.length truncated_mark) with 23%nat.
    pose proof (str_length_take_le n kept). pose proof (str_length_last m kept). lia. }
  split.
  - destruct (maxLen <? String.length kept)%nat eqn:Hlen.
    + destruct (String.eqb _ "") eqn:E.
      { exfalso. breflect. apply (f_equal String.length) in E. rewrite !str_length_app in E.
        change (String.length truncated_mark) with 23%nat in E. cbn [String.length] in E. lia. }
      specialize (Hcut (maxLen / 2)%nat (maxLen / 2)%nat). etrans; [exact Hcut|].
      apply Nat.leb_le. by vm_compute.
    + apply Nat.ltb_ge in Hlen. assert ((maxLen <= 8023)%nat) by (apply Nat.leb_le; by vm_compute).
      destruct (String.eqb kept "") eqn:E; [|lia].
      destruct (4 * 1000 <? String.length raw)%nat eqn:Hraw.
      * rewrite !str_length_app. pose proof (str_length_last (4 * 1000) raw) as Hl.
        change (String.length "... (showing last 4000 chars)") with 29%nat.
        change (String.length newline) with 1%nat.
        assert ((29 + (1 + 4 * 1000) <= 8023)%nat) by (apply Nat.leb_le; by vm_compute). lia.
      * apply Nat.ltb_ge in Hraw. assert ((4 * 1000 <= 8023)%nat) by (apply Nat.leb_le; by vm_compute). lia.
  - intros Hne Hlen. apply Nat.ltb_ge in Hlen. rewrite Hlen.
    assert (String.eqb kept "" = false) as ->.
    { apply String.eqb_neq. unfold kept. unfold relevant_lines in *.
      destruct (filter _ _) as [|l ls] eqn:E; [done|].
      assert (l <> "") as Hl.
      { assert (l ∈ l :: ls) as Hin by constructor. rewrite <- E in Hin.
        by apply list_elem_of_filter in Hin as [[? _] _]. }
      simpl. destruct ls as [|k ls]; [done|]. by destruct l. }
    split; [done|]. apply Forall_forall. intros l Hl. unfold relevant_lines in Hl.
    by apply list_elem_of_filter in Hl as [[_ ?] _].
Qed.

(** ** The retries are bounded *)

(** The timers, the events that have arrived, with the configuration and the answers of their time,
    and the runs that were submitted. *)
Record ci_world := {
  cw_pending : timers; cw_heard : list (CIAutofix * string); cw_submitted : list Run;
}.

(** A step: an event arrives, or a timer fires; every answer may differ from step to step, only
    the configured number of retries is fixed. *)
Inductive ci_step (max : Z) (w : ci_world) : ci_world -> Prop :=
| ci_event ci now body cs pending r :
    ci_MaxRetries ci = max ->
    HandleCheckRunEvent ci now (cw_pending w) body = (cs, pending, r) ->
    ci_step max w {| cw_pending := pending; cw_heard := (ci, body) :: cw_heard w; cw_submitted := cw_submitted w |}
| ci_fire ci now sha cs pending :
    ci_MaxRetries ci = max ->
    fire ci now (cw_pending w) sha = Some (cs, pending) ->
    ci_step max w {| cw_pending := pending; cw_heard := cw_heard w;
                     cw_submitted := cw_submitted w ++ omap (fun c => match c with CCreateRun r _ => Some r | _ => None end) cs |}.

Definition ci_start : ci_world := {| cw_pending := ∅; cw_heard := []; cw_submitted := [] |}.

(** The runs that fix a branch, among those that are listed; none when they cannot be. *)
Definition fixes_of (ci : CIAutofix) (branch : string) : Z :=
  match ci_list ci with
  | Err _ => 0
  | Ok items => Z.of_nat (length (filter
      (fun r => on_branch branch r && HasPrefix (rs_SpecSource (run_Spec r)) "ci-autofix:" = true) items))
  end.

(** An event tells of a failed check on a branch of the system that has been fixed less often than
    is allowed. *)
Definition failure_of (max : Z) (e : CIAutofix * string) (p : checkRunPayload) : Prop :=
  let branch := cs_HeadBranch (ck_CheckSuite (cp_CheckRun p)) in
  Unmarshal {| cp_Action := ""; cp_CheckRun := zero_checkRun; cp_FullName := "" |} dec_checkRunPayload e.2 = Some p /\
  cp_Action p = "completed" /\ ck_Conclusion (cp_CheckRun p) = "failure" /\
  (exists name, branch = "aot/" +:+ name) /\ fixes_of e.1 branch < max.

(** A fix that may be submitted, and a run that was: it is for the branch, the commit and the
    repository of a failed check that was heard of, and its attempt is one more than the fixes
    that this branch had then. *)
Definition sound_fix (max : Z) (heard : list (CIAutofix * string)) (f : pending_fix) : Prop :=
  exists e p, e ∈ heard /\ failure_of max e p /\
    fx_repo f = cp_FullName p /\ fx_branch f = cs_HeadBranch (ck_CheckSuite (cp_CheckRun p)) /\
    fx_sha f = ck_HeadSHA (cp_CheckRun p) /\ fx_attempt f = fixes_of e.1 (fx_branch f) + 1.

Definition sound_run (max : Z) (heard : list (CIAutofix * string)) (r : Run) : Prop :=
  exists e p n, e ∈ heard /\ failure_of max e p /\
    let branch := cs_HeadBranch (ck_CheckSuite (cp_CheckRun p)) in
    let sha := ck_HeadSHA (cp_CheckRun p) in
    n = fixes_of e.1 branch + 1 /\ 1 <= n <= max /\
    m_Annotations (run_Meta r) !! attemptKey = Some (Itoa n) /\
    m_Annotations (run_Meta r) !! branchKey = Some branch /\
    m_Annotations (run_Meta r) !! shaKey = Some sha /\
    rs_Repos (run_Spec r) =
      [{| repo_URL := "https://github.com/" +:+ cp_FullName p +:+ ".git"; repo_Branch := branch; repo_Path := "" |}] /\
    rs_SpecSource (run_Spec r) = "ci-autofix:" +:+ cp_FullName p +:+ "#" +:+ str_take 8 sha /\
    rs_AutoPR (run_Spec r) = false.

Definition ci_sound (max : Z) (w : ci_world) : Prop :=
  map_Forall (fun _ => sound_fix max (cw_heard w)) (cw_pending w) /\
  Forall (sound_run max (cw_heard w)) (cw_submitted w).

Lemma sound_fix_more max e heard f : sound_fix max heard f -> sound_fix max (e :: heard) f.
Proof. intros (e' & p & He & H). exists e', p. split; [by right|done]. Qed.

Lemma sound_run_more max e heard r : sound_run max heard r -> sound_run max (e :: heard) r.
Proof. intros (e' & p & n & He & H). exists e', p, n. split; [by right|done]. Qed.

Lemma fixes_of_nonneg ci branch : 0 <= fixes_of ci branch.
Proof. unfold fixes_of. destruct (ci_list ci); lia. Qed.

Lemma event_sound ci now pending body heard :
  map_Forall (fun _ => sound_fix (ci_MaxRetries ci) heard) pending ->
  map_Forall (fun _ => sound_fix (ci_MaxRetries ci) ((ci, body) :: heard)) (HandleCheckRunEvent ci now pending body).1.2.
Proof.
  intros Hp. assert (map_Forall (fun _ => sound_fix (ci_MaxRetries ci) ((ci, body) :: heard)) pending) as Hp'.
  { eapply map_Forall_impl; [exact Hp|]. intros ? ?. apply sound_fix_more. }
  unfold HandleCheckRunEvent. destruct (Unmarshal _ _ _) as [p|] eqn:Hu; [|done].
  cbv zeta. destruct (String.eqb_spec (cp_Action p) "completed") as [Ha|]; [|done]. cbn [negb].
  destruct (String.eqb_spec (ck_Conclusion (cp_CheckRun p)) "failure") as [Hc|]; [|done]. cbn [negb].
  destruct (HasPrefix _ "aot/") eqn:Hb; [|done]. cbn [negb].
  set (n := match getFixAttemptCount ci _ with Ok n => n | Err _ => 0 end).
  assert (n = fixes_of ci (cs_HeadBranch (ck_CheckSuite (cp_CheckRun p)))) as Hn.
  { unfold n, getFixAttemptCount, fixes_of. by destruct (ci_list ci). }
  destruct (ci_MaxRetries ci <=? n) eqn:Hle; [done|]. apply Z.leb_gt in Hle.
  cbn [fst snd]. apply map_Forall_insert_2; [|done]. exists (ci, body), p.
  split_and!; [by left| |done..|simpl; lia]. unfold failure_of. split_and!; [done..| |simpl; lia].
  by apply HasPrefix_spec in Hb.
Qed.

Lemma created_sound ci f heard : sound_fix (ci_MaxRetries ci) heard f ->
  Forall (sound_run (ci_MaxRetries ci) heard)
    (omap (fun c => match c with CCreateRun r _ => Some r | _ => None end) (createFixRun ci f)).
Proof.
  intros (e & p & He & Hf & Hrepo & Hbranch & Hsha & Hn). unfold createFixRun.
  destruct (SplitN _ _ _) as [|o [|q [|? ?]]] eqn:Hs; try constructor; [|constructor].
  apply SplitN_two in Hs. rewrite Hrepo in Hs. exists e, p, (fx_attempt f).
  pose proof (fixes_of_nonneg e.1 (fx_branch f)). pose proof Hf as (_ & _ & _ & _ & Hlt).
  rewrite <- Hbranch in Hlt. cbv zeta. rewrite <- Hbranch, <- Hsha, Hs.
  split_and!; try done; try lia; cbn [fix_run run_Meta run_Spec named m_Annotations rs_Repos rs_SpecSource];
    first [by rewrite lookup_insert_eq | by rewrite !lookup_insert_ne, lookup_singleton_eq by done
          | by rewrite lookup_insert_ne, lookup_insert_eq by done | by rewrite !str_app_assoc].
Qed.


(** ** A burst of failures *)

Definition event_body (sha : string) : string :=
  let q s := dquote +:+ s +:+ dquote in
  "{" +:+ q "action" +:+ ":" +:+ q "completed" +:+ "," +:+ q "check_run" +:+ ":{" +:+
  q "conclusion" +:+ ":" +:+ q "failure" +:+ "," +:+ q "head_sha" +:+ ":" +:+ q sha +:+ "," +:+
  q "check_suite" +:+ ":{" +:+ q "id" +:+ ":7," +:+ q "head_branch" +:+ ":" +:+ q "aot/login" +:+ "}}," +:+
  q "repository" +:+ ":{" +:+ q "full_name" +:+ ":" +:+ q "acme/shop" +:+ "}}".

(** A system that allows one attempt, with the runs it has so far. *)
Definition one_attempt (runs : list Run) : CIAutofix :=
  {| ci_stopped := false; ci_Namespace := "aot"; ci_MaxRetries := 1; ci_GitHub := None; ci_list := Ok runs;
     ci_status := fun _ => Ok tt; ci_create := fun _ => Ok tt |}.

Definition pending_after (events : list (Z * string)) : timers :=
  foldl (fun p e => (HandleCheckRunEvent (one_attempt []) e.1 p (event_body e.2)).1.2) ∅ events.

Definition submitted_by (f : list ccall * timers) : list Run :=
  omap (fun c => match c with CCreateRun r _ => Some r | _ => None end) f.1.

(** Two failures of one commit are one fix, thirty seconds after the second. *)
Example burst_is_one_fix :
  fx_due <$> pending_after [(0, "c1"); (10, "c1")] = {[ "c1" := 40 ]} /\
  fire (one_attempt []) 30 (pending_after [(0, "c1"); (10, "c1")]) "c1" = None.
Proof. split; vm_compute; reflexivity. Qed.

(** Failures of two commits within the thirty seconds are counted before either fix exists: both
    are submitted, where one attempt is allowed. *)
Lemma attempts_exceeded :
  exists w, rtc (ci_step 1) ci_start w /\
    length (cw_submitted w) = 2%nat /\
    (fun r => m_Annotations (run_Meta r) !! attemptKey) <$> cw_submitted w = [Some "1"; Some "1"].
Proof.
  eexists. split.
  - eapply rtc_l; [eapply (ci_event 1 _ (one_attempt []) 0 (event_body "c1")); [done|vm_compute; reflexivity]|].
    eapply rtc_l; [eapply (ci_event 1 _ (one_attempt []) 5 (event_body "c2")); [done|vm_compute; reflexivity]|].
    eapply rtc_l; [eapply (ci_fire 1 _ (one_attempt []) 40 "c1"); [done|vm_compute; reflexivity]|].
    eapply rtc_l; [eapply (ci_fire 1 _ (one_attempt []) 40 "c2"); [done|vm_compute; reflexivity]|].
    apply rtc_refl.
  - split; vm_compute; reflexivity.
Qed.

