(* ===== verification/Webhook.v ===== *)
(** * The GitHub webhook: [internal/server/webhook.go].

    A signed event creates runs: a push, one for each specification file that its commits add
    or modify, and a failed check, a fix.  The bodies of the answers are the values they are
    the JSON of. *)

From S2P Require Import Prelude GoStrings ApiTypes Kube RunController Json JsonDecode ApiNames ApiServer CIAutofix.

Local Open Scope Z_scope.

(** ** The push event *)

(** [internal/server/webhook.go:307-311] commitInfo *)
Record commitInfo := { ci_Added : list string; ci_Modified : list string; ci_Removed : list string }.

(** [internal/server/webhook.go:296-301] pushPayload *)
Record pushPayload := {
  pl_Ref : string; pl_After : string; pl_FullName : string; pl_Commits : list commitInfo;
}.

Definition dec_commit : dec commitInfo := dec_struct
  [("added", at_field ci_Added (fun x c => {| ci_Added := x; ci_Modified := ci_Modified c; ci_Removed := ci_Removed c |}) (dec_list "" dec_string));
   ("modified", at_field ci_Modified (fun x c => {| ci_Added := ci_Added c; ci_Modified := x; ci_Removed := ci_Removed c |}) (dec_list "" dec_string));
   ("removed", at_field ci_Removed (fun x c => {| ci_Added := ci_Added c; ci_Modified := ci_Modified c; ci_Removed := x |}) (dec_list "" dec_string))].

Definition with_pl (ref after name : string) (commits : list commitInfo) : pushPayload :=
  {| pl_Ref := ref; pl_After := after; pl_FullName := name; pl_Commits := commits |}.

Definition dec_push : dec pushPayload := dec_struct
  [("ref", at_field pl_Ref (fun x p => with_pl x (pl_After p) (pl_FullName p) (pl_Commits p)) dec_string);
   ("after", at_field pl_After (fun x p => with_pl (pl_Ref p) x (pl_FullName p) (pl_Commits p)) dec_string);
   ("repository", at_field pl_FullName (fun x p => with_pl (pl_Ref p) (pl_After p) x (pl_Commits p)) dec_repository);
   ("commits", at_field pl_Commits (fun x p => with_pl (pl_Ref p) (pl_After p) (pl_FullName p) x)
      (dec_list {| ci_Added := []; ci_Modified := []; ci_Removed := [] |} dec_commit))].

(** ** The handler *)

(** A request: its method, headers and body, or the error of reading it. *)
Record hook_request := {
  hr_Method : string; hr_Signature : string; hr_Event : string; hr_Body : result string;
}.

Inductive hook_reply :=
| HttpError (status : Z) (message : string)
| HttpOK (message : string)
| HttpTriggered (ci_autofix_triggered : bool)
| HttpCreated (created : Z).

Inductive hcall :=
| HFetch (url : string) (a : result (Z * string))
| HCreate (r : Run) (a : result unit)
| HCheck (c : ccall)
| HPending (p : timers).

(** [internal/server/webhook.go:24-35] WebhookHandler: the configuration, and the answers *)
Record WebhookHandler := {
  wh_secret : string;
  wh_allowedRepos : list string;
  wh_namespace : string;
  wh_ciAutofix : option CIAutofix;
  (** the status and the body that a URL answers with *)
  wh_fetch : string -> result (Z * string);
  (** the random numbers for the name of the [i]-th run *)
  wh_rand : nat -> nat -> result Z;
  wh_create : Run -> result unit;
}.

(** [internal/server/webhook.go:46-54] NewWebhookHandler: the repositories *)
Definition repos_of (raw : string) : list string :=
  if String.eqb raw "" then []
  else filter (fun r => r <> "") (TrimSpace <$> Split raw ","%char).

(** [internal/server/webhook.go:61-66] NewWebhookHandler: the retries *)
Definition retries_of (v : string) : Z :=
  match (if String.eqb v "" then None else Atoi v) with
  | Some n => if 0 <? n then n else 3
  | None => 3
  end.

(** [internal/server/webhook.go:180-199] validateSignature *)
Definition validateSignature (body signature secret : string) : bool :=
  if String.eqb signature "" then false
  else if negb (HasPrefix signature "sha256=") then false
  else match hex_decode (TrimPrefix signature "sha256=") with
       | None => false
       | Some bytes => bool_decide (bytes = hmac_sha256 secret body)
       end.

(** [internal/server/webhook.go:203-213] isRepoAllowed *)
Definition isRepoAllowed (allowed : list string) (repo : string) : bool :=
  match allowed with [] => true | _ => existsb (fun a => EqualFold a repo) allowed end.

(** [internal/server/webhook.go:216-230] collectSpecFiles: the files that were not seen yet *)
Fixpoint unseen (seen : gset string) (files : list string) : list string :=
  match files with
  | [] => []
  | f :: files =>
      if HasSuffix f ".cs.md" && negb (bool_decide (f ∈ seen)) then f :: unseen ({[f]} ∪ seen) files
      else unseen seen files
  end.

(** [internal/server/webhook.go:216-230] collectSpecFiles *)
Definition collectSpecFiles (commits : list commitInfo) : list string :=
  unseen ∅ (commits ≫= (fun c => ci_Added c ++ ci_Modified c)).

(** [internal/server/webhook.go:98-103] ServeHTTP: the part of the body that is read *)
Definition limit_read (n : Z) (s : string) : string :=
  if len s <=? n then s else str_take (Z.to_nat n) s.

Section serve.
Variable wh : WebhookHandler.

(** [internal/server/webhook.go:234-234] fetchFileContent: the URL *)
Definition content_url (repo path sha : string) : string :=
  "https://api.github.com/repos/" +:+ repo +:+ "/contents/" +:+ path +:+ "?ref=" +:+ sha.

(** [internal/server/webhook.go:233-261] fetchFileContent *)
Definition fetchFileContent (repo path sha : string) : result string :=
  match wh_fetch wh (content_url repo path sha) with
  | Err e => Err ("github api request: " +:+ e)
  | Ok (status, data) =>
      if status =? 200 then Ok data else Err ("failed: github api returned " +:+ Itoa status)
  end.

(** [internal/server/webhook.go:270-285] createAgentRun: the object that is submitted *)
Definition webhook_run (name repo path branch content : string) : Run :=
  {| run_Meta := named (wh_namespace wh) name ∅ ∅;
     run_Spec :=
       {| rs_Backend := "";
          rs_Repos := [{| repo_URL := "https://github.com/" +:+ repo +:+ ".git"; repo_Branch := branch;
                          repo_Path := "" |}];
          rs_Prompt := "Execute the CodeSpeak spec from " +:+ repo +:+ "/" +:+ path;
          rs_DevboxConfig := ""; rs_TTLSeconds := 0; rs_EnvVars := []; rs_Image := "";
          rs_ModelTier := ""; rs_ManageModelTier := ""; rs_ImplementModelTier := "";
          rs_SpecContent := content; rs_SpecSource := "webhook:github:" +:+ repo +:+ "/" +:+ path;
          rs_ProjectRef := ""; rs_SpecRef := ""; rs_WorkspaceName := ""; rs_ParentRunID := "";
          rs_OrchestrationMode := ""; rs_Orchestration := None; rs_SpecRunID := "";
          rs_DisplayName := ""; rs_PipelineConfig := None; rs_MaxBudget := 0; rs_AutoPush := false;
          rs_AutoPR := false; rs_PRBaseBranch := ""; rs_Project := ""; rs_Feature := "";
          rs_Tags := []; rs_ApprovalMode := ""; rs_OpenspecChange := "" |};
     run_Status := queued_status "Queued via GitHub webhook" |}.

(** [internal/server/webhook.go:264-292] createAgentRun, the [i]-th of the request: the calls, and
    whether there was no error *)
Definition createAgentRun (i : nat) (repo path branch content : string) : list hcall * bool :=
  match generateRunName (wh_rand wh i) with
  | Err _ => ([], false)
  | Ok name =>
      let r := webhook_run name repo path branch content in
      ([HCreate r (wh_create wh r)], is_ok (wh_create wh r))
  end.

(** [internal/server/webhook.go:159-171] ServeHTTP: one file *)
Definition spec_file (i : nat) (repo path branch after : string) : list hcall * bool :=
  let url := content_url repo path after in
  match fetchFileContent repo path after with
  | Err _ => ([HFetch url (wh_fetch wh url)], false)
  | Ok content =>
      let '(cs, ok) := createAgentRun i repo path branch content in
      (HFetch url (wh_fetch wh url) :: cs, ok)
  end.

(** [internal/server/webhook.go:136-176] ServeHTTP: a push *)
Definition push_event (body : string) : list hcall * hook_reply :=
  match Unmarshal (with_pl "" "" "" []) dec_push body with
  | None => ([], HttpError 400 "invalid payload")
  | Some payload =>
      let repo := pl_FullName payload in
      if negb (isRepoAllowed (wh_allowedRepos wh) repo) then ([], HttpOK "repo not in allowlist")
      else
        let branch := TrimPrefix (pl_Ref payload) "refs/heads/" in
        let results := imap (fun i path => spec_file i repo path branch (pl_After payload))
                         (collectSpecFiles (pl_Commits payload)) in
        (results ≫= fst, HttpCreated (Z.of_nat (length (filter (fun r => r.2 = true) results))))
  end.

(** [internal/server/webhook.go:92-177] ServeHTTP, at the time [now] with these timers *)
Definition ServeHTTP (now : Z) (pending : timers) (r : hook_request) : list hcall * hook_reply :=
  if negb (String.eqb (hr_Method r) "POST") then ([], HttpError 405 "method not allowed")
  else match hr_Body r with
  | Err _ => ([], HttpError 400 "failed to read body")
  | Ok sent =>
      let body := limit_read 10485760 sent in
      if String.eqb (wh_secret wh) "" then ([], HttpError 401 "webhook secret not configured")
      else if negb (validateSignature body (hr_Signature r) (wh_secret wh)) then
        ([], HttpError 401 "invalid signature")
      else
        match String.eqb (hr_Event r) "check_run", wh_ciAutofix wh with
        | true, Some ci =>
            let '(cs, pending', (triggered, _)) := HandleCheckRunEvent ci now pending body in
            ((HCheck <$> cs) ++ [HPending pending'], HttpTriggered triggered)
        | _, _ =>
            if negb (String.eqb (hr_Event r) "push") then ([], HttpOK "ignored event type")
            else push_event body
        end
  end.
End serve.

(** ** Only signed requests act *)

(** A request that carries the code of its own body under the secret. *)
Definition authentic (wh : WebhookHandler) (r : hook_request) (body : string) : Prop :=
  hr_Method r = "POST" /\ wh_secret wh <> "" /\
  (exists sent, hr_Body r = Ok sent /\ body = limit_read 10485760 sent) /\
  exists hex, hr_Signature r = "sha256=" +:+ hex /\ hex_decode hex = Some (hmac_sha256 (wh_secret wh) body).

Lemma validateSignature_spec body signature secret :
  validateSignature body signature secret = true <->
  exists hex, signature = "sha256=" +:+ hex /\ hex_decode hex = Some (hmac_sha256 secret body).
Proof.
  unfold validateSignature. destruct (String.eqb signature "") eqn:E.
  { breflect. split; [done|]. intros (hex & H & _). by rewrite E in H. }
  destruct (HasPrefix signature "sha256=") eqn:Hp; cbn [negb].
  - apply HasPrefix_spec in Hp as [hex ->]. rewrite TrimPrefix_app.
    destruct (hex_decode hex) as [bs|] eqn:Hd.
    + rewrite bool_decide_eq_true. split; [intros ->; by exists hex|].
      intros (hex' & H & Hd'). apply str_app_inj_l in H as <-. by simplify_eq.
    + split; [done|]. intros (hex' & H & Hd'). apply str_app_inj_l in H as <-. by simplify_eq.
  - split; [done|]. intros (hex & -> & _). by rewrite HasPrefix_app in Hp.
Qed.

(** C15. Only a signed request acts.  A request that calls anything, that schedules a fix, or
    that is answered with success is a POST whose signature header is the HMAC of the body
    under the secret, which is not empty; every other request is refused, with nothing done. *)
Theorem webhook_authenticated (wh : WebhookHandler) (now : Z) (pending : timers) (r : hook_request) :
  (exists body, authentic wh r body) \/
  ((ServeHTTP wh now pending r).1 = [] /\
   exists status message, (ServeHTTP wh now pending r).2 = HttpError status message /\
     (status = 400 \/ status = 401 \/ status = 405)).
Proof.
  unfold ServeHTTP. destruct (String.eqb (hr_Method r) "POST") eqn:Hm; cbn [negb].
  2: { right. split; [done|]. eexists _, _. by auto. }
  destruct (hr_Body r) as [sent|e] eqn:Hb.
  2: { right. split; [done|]. eexists _, _. by auto. }
  destruct (String.eqb (wh_secret wh) "") eqn:Hs.
  { right. split; [done|]. eexists _, _. by auto. }
  destruct (validateSignature _ _ _) eqn:Hv; cbn [negb].
  - left. exists (limit_read 10485760 sent). apply validateSignature_spec in Hv. breflect.
    unfold authentic. split_and!; eauto.
  - right. split; [done|]. eexists _, _. by auto.
Qed.

(** ** What a push creates *)

Lemma unseen_spec seen files :
  NoDup (unseen seen files) /\
  forall f, f ∈ unseen seen files <-> f ∈ files /\ HasSuffix f ".cs.md" = true /\ f ∉ seen.
Proof.
  revert seen. induction files as [|g files IH]; intros seen; simpl; [split; [constructor|set_solver]|].
  destruct (HasSuffix g ".cs.md" && negb (bool_decide (g ∈ seen))) eqn:E.
  - breflect. destruct E as [Hs Hn]. destruct (IH ({[g]} ∪ seen)) as [Hnd Hin]. split.
    + constructor; [|done]. rewrite Hin. set_solver.
    + intros f. rewrite elem_of_cons, Hin. destruct (decide (f = g)) as [->|]; set_solver.
  - destruct (IH seen) as [Hnd Hin]. split; [done|]. intros f. rewrite Hin, elem_of_cons.
    breflect. destruct (decide (f = g)) as [->|]; [|set_solver].
    destruct E as [E|E]; [rewrite E; naive_solver|naive_solver].
Qed.

(** The files that a push is about: each specification file that a commit adds or modifies,
    and each of them once. *)
Theorem spec_files_once (commits : list commitInfo) :
  NoDup (collectSpecFiles commits) /\
  forall f, f ∈ collectSpecFiles commits <->
    HasSuffix f ".cs.md" = true /\ exists c, c ∈ commits /\ (f ∈ ci_Added c \/ f ∈ ci_Modified c).
Proof.
  destruct (unseen_spec ∅ (commits ≫= (fun c => ci_Added c ++ ci_Modified c))) as [Hnd Hin].
  split; [done|]. intros f. unfold collectSpecFiles. rewrite Hin, list_elem_of_bind. set_solver.
Qed.

(** The submission of one file. *)
Definition made_for (wh : WebhookHandler) (repo branch path : string) (r : Run) : Prop :=
  exists name content, r = webhook_run wh name repo path branch content.

Lemma spec_file_creates wh i repo path branch after r a :
  HCreate r a ∈ (spec_file wh i repo path branch after).1 ->
  made_for wh repo branch path r /\ a = wh_create wh r.
Proof.
  unfold spec_file, createAgentRun. destruct (fetchFileContent _ _ _ _) as [content|e]; [|set_solver].
  destruct (generateRunName _) as [name|e]; cbn [fst]; [|set_solver].
  rewrite !elem_of_cons, elem_of_nil. intros [?|[?|[]]]; simplify_eq. split; [|done]. by eexists _, _.
Qed.

(** What a signed push creates.  Every run that it submits is made for a specification file
    of the push, in a repository of the allowlist, on the branch of the push; and the answer
    counts the runs that were stored. *)
Theorem push_creates (wh : WebhookHandler) (now : Z) (pending : timers) (r : hook_request)
    (run : Run) (a : result unit)
    (Hcall : HCreate run a ∈ (ServeHTTP wh now pending r).1) :
  exists body payload path, authentic wh r body /\ hr_Event r = "push" /\
    Unmarshal (with_pl "" "" "" []) dec_push body = Some payload /\
    isRepoAllowed (wh_allowedRepos wh) (pl_FullName payload) = true /\
    path ∈ collectSpecFiles (pl_Commits payload) /\
    made_for wh (pl_FullName payload) (TrimPrefix (pl_Ref payload) "refs/heads/") path run.
Proof.
  revert Hcall. unfold ServeHTTP. destruct (String.eqb (hr_Method r) "POST") eqn:Hm; cbn [negb]; [|set_solver].
  destruct (hr_Body r) as [sent|e] eqn:Hb; [|set_solver].
  destruct (String.eqb (wh_secret wh) "") eqn:Hs; [set_solver|].
  destruct (validateSignature _ _ _) eqn:Hv; cbn [negb]; [|set_solver].
  set (body := limit_read 10485760 sent).
  assert (authentic wh r body) as Hauth.
  { apply validateSignature_spec in Hv. breflect. unfold authentic. split_and!; eauto. }
  intros Hcall. assert (HCreate run a ∈ (push_event wh body).1 /\ hr_Event r = "push") as [Hpush Hev].
  { destruct (String.eqb (hr_Event r) "push") eqn:He.
    - breflect. rewrite He in Hcall. simpl in Hcall. destruct (wh_ciAutofix wh); by split.
    - exfalso. revert Hcall. destruct (String.eqb (hr_Event r) "check_run"), (wh_ciAutofix wh) as [ci|];
        cbn [negb fst]; try set_solver.
      destruct (HandleCheckRunEvent _ _ _ _) as [[cs p] [t o]]. cbn [fst].
      rewrite elem_of_app, list_elem_of_fmap, list_elem_of_singleton. naive_solver. }
  revert Hpush. unfold push_event. destruct (Unmarshal _ _ _) as [payload|] eqn:Hp; [|set_solver].
  destruct (isRepoAllowed _ _) eqn:Ha; cbn [negb]; [|set_solver]. cbn [fst].
  intros ((cs & ok) & Hin & Hres)%list_elem_of_bind.
  apply list_elem_of_lookup in Hres as [i Hi]. rewrite list_lookup_imap in Hi.
  destruct (collectSpecFiles _ !! i) as [path|] eqn:Hpath; [|done]. simpl in Hi. injection Hi as Hi.
  exists body, payload, path. split_and!; try done; [by eapply list_elem_of_lookup_2|].
  cbn [fst] in Hin. change cs with (cs, ok).1 in Hin. rewrite <- Hi in Hin.
  by apply spec_file_creates in Hin as [? _].
Qed.

(** ** A signed push *)

Definition push_body : string :=
  let q s := dquote +:+ s +:+ dquote in
  "{" +:+ q "ref" +:+ ":" +:+ q "refs/heads/main" +:+ "," +:+ q "after" +:+ ":" +:+ q "abc123" +:+ "," +:+
  q "repository" +:+ ":{" +:+ q "full_name" +:+ ":" +:+ q "Acme/Shop" +:+ "}," +:+
  q "commits" +:+ ":[{" +:+ q "added" +:+ ":[" +:+ q "login.cs.md" +:+ "," +:+ q "a.go" +:+ "]},{" +:+
  q "modified" +:+ ":[" +:+ q "login.cs.md" +:+ "]}]}".

Definition signed (event body : string) : hook_request :=
  {| hr_Method := "POST"; hr_Signature := "sha256=" +:+ hex_encode (hmac_sha256 "s3cret" body);
     hr_Event := event; hr_Body := Ok body |}.

Definition sample_hook : WebhookHandler :=
  {| wh_secret := "s3cret"; wh_allowedRepos := repos_of "acme/shop, acme/site"; wh_namespace := "aot";
     wh_ciAutofix := Some (one_attempt []); wh_fetch := fun _ => Ok (200, "# Login");
     wh_rand := fun _ i => Ok (Z.of_nat i); wh_create := fun _ => Ok tt |}.

Lemma push_creates_witness :
  (ServeHTTP sample_hook 0 ∅ (signed "push" push_body)).2 = HttpCreated 1 /\
  exists run, HCreate run (Ok tt) ∈ (ServeHTTP sample_hook 0 ∅ (signed "push" push_body)).1 /\
  exists body payload path, authentic sample_hook (signed "push" push_body) body /\
    hr_Event (signed "push" push_body) = "push" /\
    Unmarshal (with_pl "" "" "" []) dec_push body = Some payload /\
    isRepoAllowed (wh_allowedRepos sample_hook) (pl_FullName payload) = true /\
    path ∈ collectSpecFiles (pl_Commits payload) /\
    made_for sample_hook (pl_FullName payload) (TrimPrefix (pl_Ref payload) "refs/heads/") path run.
Proof.
  split; [vm_compute; reflexivity|].
  set (run := webhook_run sample_hook "ar-abcdef" "Acme/Shop" "login.cs.md" "main" "# Login").
  assert (HCreate run (Ok tt) ∈ (ServeHTTP sample_hook 0 ∅ (signed "push" push_body)).1) as H.
  { vm_compute. do 2 constructor. }
  exists run. split; [exact H|]. exact (push_creates sample_hook 0 ∅ (signed "push" push_body) run (Ok tt) H).
Defined.

(** The allowlist is not asked for a failed check: a fix is scheduled for any repository. *)
Example check_run_skips_the_allowlist :
  let wh := {| wh_secret := "s3cret"; wh_allowedRepos := ["other/repo"]; wh_namespace := "aot";
               wh_ciAutofix := Some (one_attempt []); wh_fetch := fun _ => Err "";
               wh_rand := fun _ _ => Err ""; wh_create := fun _ => Ok tt |} in
  (ServeHTTP wh 0 ∅ (signed "check_run" (event_body "c1"))).2 = HttpTriggered true /\
  isRepoAllowed (wh_allowedRepos wh) "acme/shop" = false.
Proof. split; vm_compute; reflexivity. Qed.
