(* ===== verification/OpenSpec.v ===== *)
(** * What the OpenSpec tool prints ([internal/temporal/openspec_parsers.go]), and what verification reads ([activities_spec_driven.go]).

    The output of the tool is text with a JSON document behind it; the parsers find the
    document and decode it. *)

From S2P Require Import Prelude GoStrings Regex TemporalTypes Files Json JsonDecode.
Local Open Scope Z_scope.

Definition dec_bool : dec bool := fun cur v =>
  match v with JBool b => (b, true) | JNull => (cur, true) | _ => (cur, false) end.

(** [internal/temporal/openspec_parsers.go:172-177] truncate *)
Definition truncate (s : string) (max : nat) : string :=
  if (String.length s <=? max)%nat then s else str_take max s +:+ "...".

(** [internal/temporal/openspec_parsers.go:12-24] parseOpenSpecJSON *)
Definition parseOpenSpecJSON (raw : string) : result json :=
  match Index raw "{" with
  | None => Err ("failed: no JSON found in output: " +:+ Quote (truncate raw 200))
  | Some idx =>
      let jsonStr := str_drop idx raw in
      match parse_json jsonStr with
      | None => Err ("invalid JSON in output (raw: " +:+ Quote (truncate jsonStr 200) +:+ ")")
      | Some v => Ok v
      end
  end.

(** A document decoded into a fresh value. *)
Definition decoded {A} (zero : A) (d : dec A) (v : json) : option A :=
  let r := d zero v in if r.2 then Some r.1 else None.

Definition parse_response {A} (name : string) (zero : A) (d : dec A) (raw : string) : result A :=
  match parseOpenSpecJSON raw with
  | Err e => Err ("parse " +:+ name +:+ " response: " +:+ e)
  | Ok v => match decoded zero d v with
            | Some a => Ok a
            | None => Err ("unmarshal " +:+ name +:+ " response")
            end
  end.

(** ** The list of changes *)

(** [internal/temporal/openspec_parsers.go:32-38] OpenSpecChangeInfo *)
Record OpenSpecChangeInfo := {
  oc_Name : string; oc_CompletedTasks : Z; oc_TotalTasks : Z; oc_Status : string;
  oc_LastModified : string;
}.

Definition zero_change : OpenSpecChangeInfo :=
  {| oc_Name := ""; oc_CompletedTasks := 0; oc_TotalTasks := 0; oc_Status := ""; oc_LastModified := "" |}.

Definition dec_change : dec OpenSpecChangeInfo := dec_struct
  [("name", at_field oc_Name (fun x c => {| oc_Name := x; oc_CompletedTasks := oc_CompletedTasks c;
      oc_TotalTasks := oc_TotalTasks c; oc_Status := oc_Status c; oc_LastModified := oc_LastModified c |}) dec_string);
   ("completedTasks", at_field oc_CompletedTasks (fun x c => {| oc_Name := oc_Name c; oc_CompletedTasks := x;
      oc_TotalTasks := oc_TotalTasks c; oc_Status := oc_Status c; oc_LastModified := oc_LastModified c |}) dec_int);
   ("totalTasks", at_field oc_TotalTasks (fun x c => {| oc_Name := oc_Name c; oc_CompletedTasks := oc_CompletedTasks c;
      oc_TotalTasks := x; oc_Status := oc_Status c; oc_LastModified := oc_LastModified c |}) dec_int);
   ("status", at_field oc_Status (fun x c => {| oc_Name := oc_Name c; oc_CompletedTasks := oc_CompletedTasks c;
      oc_TotalTasks := oc_TotalTasks c; oc_Status := x; oc_LastModified := oc_LastModified c |}) dec_string);
   ("lastModified", at_field oc_LastModified (fun x c => {| oc_Name := oc_Name c; oc_CompletedTasks := oc_CompletedTasks c;
      oc_TotalTasks := oc_TotalTasks c; oc_Status := oc_Status c; oc_LastModified := x |}) dec_string)].

(** [internal/temporal/openspec_parsers.go:27-29] OpenSpecListResponse *)
Definition OpenSpecListResponse : Type := list OpenSpecChangeInfo.

(** [internal/temporal/openspec_parsers.go:41-51] parseOpenSpecListResponse *)
Definition parseOpenSpecListResponse (raw : string) : result OpenSpecListResponse :=
  parse_response "list" [] (dec_struct [("changes", dec_list zero_change dec_change)]) raw.

(** [internal/temporal/openspec_parsers.go:54-61] FindChange *)
Definition FindChange (r : OpenSpecListResponse) (name : string) : option OpenSpecChangeInfo :=
  List.find (fun c => String.eqb (oc_Name c) name) r.

(** ** Validation *)

(** [internal/temporal/openspec_parsers.go:77-81] OpenSpecValidateIssue *)
Record OpenSpecValidateIssue := { oi_Level : string; oi_Path : string; oi_Message : string }.

(** [internal/temporal/openspec_parsers.go:69-74] OpenSpecValidateItem *)
Record OpenSpecValidateItem := {
  ov_ID : string; ov_Type : string; ov_Valid : bool; ov_Issues : list OpenSpecValidateIssue;
}.

Definition dec_issue : dec OpenSpecValidateIssue := dec_struct
  [("level", at_field oi_Level (fun x i => {| oi_Level := x; oi_Path := oi_Path i; oi_Message := oi_Message i |}) dec_string);
   ("path", at_field oi_Path (fun x i => {| oi_Level := oi_Level i; oi_Path := x; oi_Message := oi_Message i |}) dec_string);
   ("message", at_field oi_Message (fun x i => {| oi_Level := oi_Level i; oi_Path := oi_Path i; oi_Message := x |}) dec_string)].

Definition with_ov (id ty : string) (valid : bool) (issues : list OpenSpecValidateIssue) : OpenSpecValidateItem :=
  {| ov_ID := id; ov_Type := ty; ov_Valid := valid; ov_Issues := issues |}.

Definition dec_item : dec OpenSpecValidateItem := dec_struct
  [("id", at_field ov_ID (fun x i => with_ov x (ov_Type i) (ov_Valid i) (ov_Issues i)) dec_string);
   ("type", at_field ov_Type (fun x i => with_ov (ov_ID i) x (ov_Valid i) (ov_Issues i)) dec_string);
   ("valid", at_field ov_Valid (fun x i => with_ov (ov_ID i) (ov_Type i) x (ov_Issues i)) dec_bool);
   ("issues", at_field ov_Issues (fun x i => with_ov (ov_ID i) (ov_Type i) (ov_Valid i) x)
      (dec_list {| oi_Level := ""; oi_Path := ""; oi_Message := "" |} dec_issue))].

(** [internal/temporal/openspec_parsers.go:64-66] OpenSpecValidateResponse *)
Definition OpenSpecValidateResponse : Type := list OpenSpecValidateItem.

(** [internal/temporal/openspec_parsers.go:84-94] parseOpenSpecValidateResponse *)
Definition parseOpenSpecValidateResponse (raw : string) : result OpenSpecValidateResponse :=
  parse_response "validate" [] (dec_struct [("items", dec_list (with_ov "" "" false []) dec_item)]) raw.

(** ** The status of a change *)

(** [internal/temporal/openspec_parsers.go:106-109] OpenSpecStatusArtifact *)
Record OpenSpecStatusArtifact := { oa_ID : string; oa_Status : string }.

(** [internal/temporal/openspec_parsers.go:97-103] OpenSpecStatusResponse *)
Record OpenSpecStatusResponse := {
  os_ChangeName : string; os_SchemaName : string; os_IsComplete : bool;
  os_ApplyRequires : list string; os_Artifacts : list OpenSpecStatusArtifact;
}.

Definition dec_artifact : dec OpenSpecStatusArtifact := dec_struct
  [("id", at_field oa_ID (fun x a => {| oa_ID := x; oa_Status := oa_Status a |}) dec_string);
   ("status", at_field oa_Status (fun x a => {| oa_ID := oa_ID a; oa_Status := x |}) dec_string)].

Definition with_os (name schema : string) (complete : bool) (requires : list string)
    (artifacts : list OpenSpecStatusArtifact) : OpenSpecStatusResponse :=
  {| os_ChangeName := name; os_SchemaName := schema; os_IsComplete := complete;
     os_ApplyRequires := requires; os_Artifacts := artifacts |}.

Definition dec_status : dec OpenSpecStatusResponse := dec_struct
  [("changeName", at_field os_ChangeName (fun x s => with_os x (os_SchemaName s) (os_IsComplete s) (os_ApplyRequires s) (os_Artifacts s)) dec_string);
   ("schemaName", at_field os_SchemaName (fun x s => with_os (os_ChangeName s) x (os_IsComplete s) (os_ApplyRequires s) (os_Artifacts s)) dec_string);
   ("isComplete", at_field os_IsComplete (fun x s => with_os (os_ChangeName s) (os_SchemaName s) x (os_ApplyRequires s) (os_Artifacts s)) dec_bool);
   ("applyRequires", at_field os_ApplyRequires (fun x s => with_os (os_ChangeName s) (os_SchemaName s) (os_IsComplete s) x (os_Artifacts s)) (dec_list "" dec_string));
   ("artifacts", at_field os_Artifacts (fun x s => with_os (os_ChangeName s) (os_SchemaName s) (os_IsComplete s) (os_ApplyRequires s) x)
      (dec_list {| oa_ID := ""; oa_Status := "" |} dec_artifact))].

(** [internal/temporal/openspec_parsers.go:112-122] parseOpenSpecStatusResponse *)
Definition parseOpenSpecStatusResponse (raw : string) : result OpenSpecStatusResponse :=
  parse_response "status" (with_os "" "" false [] []) dec_status raw.

(** [internal/temporal/openspec_parsers.go:139-151] MissingArtifacts *)
Definition MissingArtifacts (r : OpenSpecStatusResponse) : list string :=
  oa_ID <$> filter (fun a => oa_ID a ∈ os_ApplyRequires r /\ oa_Status a <> "done") (os_Artifacts r).

(** [internal/temporal/openspec_parsers.go:125-136] AllArtifactsDone *)
Definition AllArtifactsDone (r : OpenSpecStatusResponse) : bool :=
  forallb (fun a => negb (bool_decide (oa_ID a ∈ os_ApplyRequires r) && negb (String.eqb (oa_Status a) "done")))
    (os_Artifacts r).

(** [internal/temporal/openspec_parsers.go:160-170] parseOpenSpecInstructionsResponse: the template *)
Definition parseOpenSpecInstructionsResponse (raw : string) : result string :=
  parse_response "instructions" "" (dec_struct [("template", dec_string)]) raw.

(** An artifact that is required and not done is what is missing; one that is required and not
    listed at all is not missed. *)
Lemma AllArtifactsDone_spec r : AllArtifactsDone r = true <-> MissingArtifacts r = [].
Proof.
  unfold AllArtifactsDone, MissingArtifacts. rewrite forallb_elem. split.
  - intros H. destruct (filter _ _) as [|a l] eqn:E; [done|]. exfalso.
    assert (a ∈ a :: l) as Ha by constructor. rewrite <- E in Ha.
    apply list_elem_of_filter in Ha as [[Hr Hs] Ha]. specialize (H a Ha).
    rewrite bool_decide_eq_true_2 in H by done. apply String.eqb_neq in Hs. by rewrite Hs in H.
  - intros H a Ha. apply fmap_nil_inv in H. destruct (bool_decide _) eqn:Hr; [|done].
    destruct (String.eqb (oa_Status a) "done") eqn:Hs; [done|]. exfalso. breflect.
    assert (a ∈ filter (fun a => oa_ID a ∈ os_ApplyRequires r /\ oa_Status a <> "done") (os_Artifacts r)) as Hin.
    { by apply list_elem_of_filter. }
    rewrite H in Hin. by apply elem_of_nil in Hin.
Qed.

Example unlisted_artifact_is_done :
  AllArtifactsDone (with_os "c" "" false ["tasks"] []) = true.
Proof. reflexivity. Qed.

Example tool_noise :
  (oc_Name <$> (match parseOpenSpecListResponse ("- Loading changes..." +:+ newline +:+
     "{" +:+ dquote +:+ "changes" +:+ dquote +:+ ":[{" +:+ dquote +:+ "name" +:+ dquote +:+ ":" +:+
     dquote +:+ "c1" +:+ dquote +:+ "}]}") with Ok l => l | Err _ => [] end)) = ["c1"].
Proof. vm_compute. reflexivity. Qed.

(** * What verification reads: [internal/temporal/activities_spec_driven.go] *)

(** ** The verdict *)

(** [internal/temporal/workflow_spec_driven.go:62-66] CriterionResult *)
Record CriterionResult := { cr_Scenario : string; cr_Pass : bool; cr_Explanation : string }.

(** [internal/temporal/workflow_spec_driven.go:52-59] LLMVerdict *)
Record LLMVerdict := {
  lv_Pass : bool; lv_Criteria : list CriterionResult; lv_Model : string; lv_Salvageable : bool;
  lv_SalvageGuidance : string; lv_ConfidenceScore : string;
}.

Definition dec_criterion : dec CriterionResult := dec_struct
  [("scenario", at_field cr_Scenario (fun x c => {| cr_Scenario := x; cr_Pass := cr_Pass c; cr_Explanation := cr_Explanation c |}) dec_string);
   ("pass", at_field cr_Pass (fun x c => {| cr_Scenario := cr_Scenario c; cr_Pass := x; cr_Explanation := cr_Explanation c |}) dec_bool);
   ("explanation", at_field cr_Explanation (fun x c => {| cr_Scenario := cr_Scenario c; cr_Pass := cr_Pass c; cr_Explanation := x |}) dec_string)].

Definition with_lv (pass : bool) (criteria : list CriterionResult) (model : string) (salvageable : bool)
    (guidance confidence : string) : LLMVerdict :=
  {| lv_Pass := pass; lv_Criteria := criteria; lv_Model := model; lv_Salvageable := salvageable;
     lv_SalvageGuidance := guidance; lv_ConfidenceScore := confidence |}.

Definition zero_verdict : LLMVerdict := with_lv false [] "" false "" "0".

Definition dec_float : dec string := fun cur v =>
  match v with JNum lit => (lit, true) | JNull => (cur, true) | _ => (cur, false) end.

Definition dec_verdict : dec LLMVerdict := dec_struct
  [("pass", at_field lv_Pass (fun x v => with_lv x (lv_Criteria v) (lv_Model v) (lv_Salvageable v) (lv_SalvageGuidance v) (lv_ConfidenceScore v)) dec_bool);
   ("criteria", at_field lv_Criteria (fun x v => with_lv (lv_Pass v) x (lv_Model v) (lv_Salvageable v) (lv_SalvageGuidance v) (lv_ConfidenceScore v))
      (dec_list {| cr_Scenario := ""; cr_Pass := false; cr_Explanation := "" |} dec_criterion));
   ("model", at_field lv_Model (fun x v => with_lv (lv_Pass v) (lv_Criteria v) x (lv_Salvageable v) (lv_SalvageGuidance v) (lv_ConfidenceScore v)) dec_string);
   ("salvageable", at_field lv_Salvageable (fun x v => with_lv (lv_Pass v) (lv_Criteria v) (lv_Model v) x (lv_SalvageGuidance v) (lv_ConfidenceScore v)) dec_bool);
   ("salvageGuidance", at_field lv_SalvageGuidance (fun x v => with_lv (lv_Pass v) (lv_Criteria v) (lv_Model v) (lv_Salvageable v) x (lv_ConfidenceScore v)) dec_string);
   ("confidenceScore", at_field lv_ConfidenceScore (fun x v => with_lv (lv_Pass v) (lv_Criteria v) (lv_Model v) (lv_Salvageable v) (lv_SalvageGuidance v) x) dec_float)].

(** A field that keeps the document, whatever its type: [json.RawMessage]. *)
Definition dec_raw : dec (option json) := fun _ v => (Some v, true).

(** A pointer to a struct. *)
Definition dec_pointer {A} (zero : A) (d : dec A) : dec (option A) := fun cur v =>
  match v with
  | JNull => (None, true)
  | _ => let r := d (default zero cur) v in (Some r.1, r.2)
  end.

(** An event of the log: its type, and the role and the content of its message. *)
Definition dec_event : dec (string * option (string * option json)) := dec_struct
  [("type", at_field fst (fun x e => (x, e.2)) dec_string);
   ("message", at_field snd (fun x e => (e.1, x))
      (dec_pointer ("", None) (dec_struct
         [("role", at_field fst (fun x m => (x, m.2)) dec_string);
          ("content", at_field snd (fun x m => (m.1, x)) dec_raw)])))].

(** A block of a message: its type and its text. *)
Definition dec_block : dec (string * string) := dec_struct
  [("type", at_field fst (fun x b => (x, b.2)) dec_string);
   ("text", at_field snd (fun x b => (b.1, x)) dec_string)].

(** [internal/temporal/activities_spec_driven.go:579-592] parseLLMVerdict: the verdict in a
    block *)
Definition block_verdict (b : string * string) : option LLMVerdict :=
  if String.eqb b.1 "text" then
    match parseOpenSpecJSON b.2 with
    | Err _ => None
    | Ok v => match decoded zero_verdict dec_verdict v with
              | Some verdict => match lv_Criteria verdict with [] => None | _ => Some verdict end
              | None => None
              end
    end
  else None.

(** The first value that a function finds. *)
Fixpoint first_some {A B} (f : A -> option B) (l : list A) : option B :=
  match l with [] => None | a :: l => match f a with Some b => Some b | None => first_some f l end end.

(** [internal/temporal/activities_spec_driven.go:552-592] parseLLMVerdict: the verdict in a
    line *)
Definition line_verdict (line : string) : option LLMVerdict :=
  let line := TrimSpace line in
  if String.eqb line "" then None
  else match Unmarshal ("", None) dec_event line with
  | Some (ty, Some (role, Some content)) =>
      if String.eqb ty "message_end" && String.eqb role "assistant" then
        match decoded [] (dec_list ("", "") dec_block) content with
        | Some blocks => first_some block_verdict blocks
        | None => None
        end
      else None
  | _ => None
  end.

(** [internal/temporal/activities_spec_driven.go:549-595] parseLLMVerdict *)
Definition parseLLMVerdict (jsonlContent : string) : option LLMVerdict :=
  first_some line_verdict (rev (Split jsonlContent "010"%char)).

(** ** What the scenarios name *)

(** [internal/temporal/activities_spec_driven.go:598-601] TestCommand *)
Record TestCommand := { tc_Name : string; tc_Command : string }.

(** [internal/temporal/activities_spec_driven.go:674-677] FileCheck *)
Record FileCheck := { fc_Path : string; fc_Scenario : string }.

(** [internal/temporal/activities_spec_driven.go:604-604] commandKeywords *)
Definition commandKeywords : list string :=
  ["run"; "execute"; "pass"; "exit"; "build"; "test"; "compile"; "lint"].

Definition not_backtick (c : Z) : bool := negb (is_char "`" c).

(** [internal/temporal/activities_spec_driven.go:607-607] backtickCommandRe *)
Definition backtickCommandRe : regex :=
  cats [chr "`"; Group 1 (cats [plus (Cls not_backtick); Cls space_class; plus (Cls not_backtick)]); chr "`"].

Definition path_class (c : Z) : bool :=
  range "a" "z" c || range "A" "Z" c || range "0" "9" c || one_of "_./-" c.

(** [internal/temporal/activities_spec_driven.go:679-679] backtickPathRe *)
Definition backtickPathRe : regex :=
  cats [chr "`"; Group 1 (cats [star (Cls path_class); Cls (one_of "./"); star (Cls path_class)]); chr "`"].

(** The order in which [filepath.Walk] visits: by the segments of the path. *)
Fixpoint segs_le (a b : list string) : bool :=
  match a, b with
  | [], _ => true
  | _ :: _, [] => false
  | x :: a, y :: b => if String.eqb x y then segs_le a b else bool_decide (strings.String.le x y)
  end.
Definition path_le (p q : string) : Prop := segs_le (Split p "/"%char) (Split q "/"%char) = true.
#[export] Instance path_le_dec : RelDecision path_le.
Proof. intros p q. unfold path_le. apply _. Defined.

(** The files that a walk of a directory visits, in order; none when there is no such
    directory. *)
Definition walk_files (t : tree) (dir : string) : list string :=
  let root := Abs t dir in
  merge_sort path_le
    (omap (fun e : string * node => match e.2 with
       | File _ => if String.eqb e.1 root || HasPrefix e.1 (root +:+ "/") then Some e.1 else None
       | Directory => None
       end) (map_to_list (tr_nodes t))).

(** [internal/temporal/activities_spec_driven.go:613-628] detectTestCommands: the lines of the
    spec files, a list for each file *)
Definition spec_lines (t : tree) (repoPath changeName : string) : list (list string) :=
  let dirs := [PathJoin "/workspace" ("openspec/changes/" +:+ changeName +:+ "/specs");
               PathJoin repoPath ("openspec/changes/" +:+ changeName +:+ "/specs")] in
  (fun data => Split data "010"%char) <$>
    omap (fun p => if HasSuffix p ".md" then ReadFile t p else None) (dirs ≫= walk_files t).

(** [internal/temporal/activities_spec_driven.go:628-664] detectTestCommands: the commands of a
    line *)
Definition line_commands (line : string) : list string :=
  let trimmed := TrimSpace line in
  let lower := ToLower trimmed in
  if negb (Contains lower "when") && negb (Contains lower "then") && negb (Contains lower "and") then []
  else if existsb (Contains lower) commandKeywords then
    (fun m => TrimSpace (group 1 m)) <$> find_all backtickCommandRe trimmed
  else [].

(** The elements that did not occur before. *)
Fixpoint distinct (seen : gset string) (l : list string) : list string :=
  match l with
  | [] => []
  | x :: l => if bool_decide (x ∈ seen) then distinct seen l else x :: distinct ({[x]} ∪ seen) l
  end.

(** [internal/temporal/activities_spec_driven.go:609-671] detectTestCommands *)
Definition detectTestCommands (t : tree) (repoPath changeName : string) : list TestCommand :=
  (fun cmd => {| tc_Name := "spec_command: " +:+ truncate cmd 40; tc_Command := cmd |}) <$>
    distinct ∅ (spec_lines t repoPath changeName ≫= (fun lines => lines ≫= line_commands)).

(** [internal/temporal/activities_spec_driven.go:701-718] extractFileChecks: the lines of a file,
    under the scenario they stand in *)
Fixpoint line_checks (scenario : string) (lines : list string) : list FileCheck :=
  match lines with
  | [] => []
  | line :: lines =>
      let trimmed := TrimSpace line in
      let scenario := if HasPrefix trimmed "#### Scenario:"
                      then TrimSpace (TrimPrefix trimmed "#### Scenario:") else scenario in
      let lower := ToLower trimmed in
      (if (Contains lower "then" || Contains lower "and") && Contains lower "exist"
       then (fun m => {| fc_Path := group 1 m; fc_Scenario := scenario |}) <$> find_all backtickPathRe trimmed
       else []) ++ line_checks scenario lines
  end.

(** [internal/temporal/activities_spec_driven.go:681-723] extractFileChecks *)
Definition extractFileChecks (t : tree) (repoPath changeName : string) : list FileCheck :=
  spec_lines t repoPath changeName ≫= line_checks "".

(** ** Prompts *)

(** [internal/temporal/activities_spec_driven.go:731-769] buildPlanAgentPrompt: the status and the
    templates are arguments that it does not use *)
Definition buildPlanAgentPrompt (userPrompt specContent changeName : string) : string :=
  (if String.eqb specContent "" then userPrompt else specContent) +:+
  Join ["";
        "";
        "---";
        "";
        "## OpenSpec Change: " +:+ changeName;
        "";
        "The change directory has been scaffolded at `/workspace/openspec/changes/" +:+ changeName +:+ "/`.";
        "All openspec commands MUST run from `/workspace` (NOT from the repo dir).";
        "";
        "### Steps";
        "";
        "1. Read the codebase to understand what needs to change";
        "2. Run `cd /workspace && openspec instructions proposal --change " +:+ Quote changeName +:+ "` to see the proposal template";
        "3. Write `/workspace/openspec/changes/" +:+ changeName +:+ "/proposal.md` following the template";
        "4. Run `cd /workspace && openspec instructions specs --change " +:+ Quote changeName +:+ "` to see the spec template";
        "5. Write specs to `/workspace/openspec/changes/" +:+ changeName +:+ "/specs/<capability>/spec.md`";
        "   - Each requirement MUST use SHALL or MUST (e.g., " +:+ dquote +:+ "The system SHALL..." +:+ dquote +:+ ")";
        "   - Each requirement MUST have at least one WHEN/THEN scenario";
        "6. Run `cd /workspace && openspec instructions tasks --change " +:+ Quote changeName +:+ "` to see the tasks template";
        "7. Write `/workspace/openspec/changes/" +:+ changeName +:+ "/tasks.md` with numbered checkbox groups";
        "8. Write `/workspace/openspec/changes/" +:+ changeName +:+ "/design.md` with architecture notes";
        "9. Run `cd /workspace && openspec validate " +:+ Quote changeName +:+ " --json` to verify your spec is valid";
        "   - Fix any validation errors and re-validate";
        "10. Run `cd /workspace && openspec status --change " +:+ Quote changeName +:+ " --json` to confirm all artifacts are complete";
        "";
        "### Rules";
        "- Only create spec artifacts, do NOT implement code";
        "- Keep tasks proportional — a simple task should have 3-8 tasks";
        "- Stop after all artifacts pass validation";
        ""] newline.

(** [internal/temporal/activities_spec_driven.go:938-988] buildManageReviewPrompt *)
Definition buildManageReviewPrompt (changeName gitDiff specContent implementLog previousFeedback : string) : string :=
  Join ["You are the manage agent reviewing the implementation of OpenSpec change '" +:+ changeName +:+ "'.";
        "";
        "Your job is to evaluate whether the implement agent correctly completed the work. You are a senior engineer reviewing a junior engineer's PR. Be thorough but fair.";
        "";
        ""] newline +:+
  Join ["## Git Diff"; ""; "```"; ""] newline +:+
  (if (8 * 1000 <? String.length gitDiff)%nat then
     str_take (4 * 1000) gitDiff +:+ Join [""; ""; "... (diff truncated) ..."; ""; ""] newline +:+
     str_drop (String.length gitDiff - 4 * 1000) gitDiff
   else gitDiff) +:+
  Join [""; "```"; ""; "## Spec Requirements"; ""; specContent; ""; "## Implement Agent Activity"; "";
        implementLog; ""; ""] newline +:+
  (if String.eqb previousFeedback "" then ""
   else Join ["## Previous Review Feedback (from last attempt)"; ""; previousFeedback; ""; ""] newline) +:+
  Join ["## Instructions";
        "";
        "1. Read each spec requirement and its WHEN/THEN scenarios.";
        "2. Check the git diff to verify each scenario is satisfied.";
        "3. If unclear, use the read tool to examine the modified files.";
        "4. If the implement agent left questions in its output, either answer them (if you can) or escalate to the human via ask_user.";
        "5. If the implementation fails, assess whether the work is **salvageable**: the core approach is correct and a targeted retry would likely fix the remaining gaps. Set salvageable=true if the gap is small and well-defined; set it false if the implementation is fundamentally wrong or incomplete in a large way.";
        "6. Output your verdict as JSON:";
        "";
        "{" +:+ dquote +:+ "pass" +:+ dquote +:+ ": true/false, " +:+ dquote +:+ "feedback" +:+ dquote +:+ ": " +:+ dquote +:+ "detailed review comments" +:+ dquote +:+ ", " +:+ dquote +:+ "criteria" +:+ dquote +:+ ": [{" +:+ dquote +:+ "scenario" +:+ dquote +:+ ": " +:+ dquote +:+ "..." +:+ dquote +:+ ", " +:+ dquote +:+ "pass" +:+ dquote +:+ ": true/false, " +:+ dquote +:+ "explanation" +:+ dquote +:+ ": " +:+ dquote +:+ "..." +:+ dquote +:+ "}], " +:+ dquote +:+ "salvageable" +:+ dquote +:+ ": true/false, " +:+ dquote +:+ "salvageGuidance" +:+ dquote +:+ ": " +:+ dquote +:+ "specific instructions for the retry attempt" +:+ dquote +:+ ", " +:+ dquote +:+ "confidenceScore" +:+ dquote +:+ ": 0.0-1.0}";
        "";
        "When pass=true, salvageable and confidenceScore can be omitted.";
        "When pass=false, always include salvageable and confidenceScore. Set confidenceScore to your estimate (0=no chance, 1=certain) that a single targeted retry will succeed.";
        ""] newline.

(** ** The log of the implementing agent *)

(** A member of an object decoded into a map: the last one of the name. *)
Definition member (name : string) (v : json) : option json :=
  match v with
  | JObj l => snd <$> List.find (fun m => String.eqb (unquote m.1) name) (rev l)
  | _ => None
  end.
Definition string_member (name : string) (v : json) : option string :=
  match member name v with Some (JStr raw) => Some (unquote raw) | _ => None end.

(** [internal/temporal/activities_spec_driven.go:903-922] ReadImplementAgentLog: the texts of a
    message *)
Definition assistant_lines (evt : json) : list string :=
  match member "message" evt with
  | Some msg =>
      if bool_decide (string_member "role" msg = Some "assistant") then
        match member "content" msg with
        | Some (JArr contents) =>
            omap (fun c => match string_member "text" c with
              | Some text =>
                  if String.eqb text "" then None
                  else Some ("[assistant] " +:+
                    (if (500 <? String.length text)%nat then str_take 500 text +:+ "..." else text) +:+ newline)
              | None => None
              end) contents
        | _ => []
        end
      else []
  | None => []
  end.

(** [internal/temporal/activities_spec_driven.go:894-927] ReadImplementAgentLog: the lines of the
    summary that a line of the log gives *)
Definition summary_lines (line : string) : list string :=
  match parse_json line with
  | Some evt =>
      match default "" (string_member "type" evt) with
      | "message_end" => assistant_lines evt
      | "tool_execution_end" =>
          match string_member "toolName" evt with
          | None | Some "" => []
          | Some name => ["[tool:" +:+ name +:+ "] completed" +:+ newline]
          end
      | _ => []
      end
  | None => []
  end.

(** [internal/temporal/activities_spec_driven.go:887-929] ReadImplementAgentLog: the loop, which
    ends behind the line that reaches fifty *)
Fixpoint summarize (count : nat) (lines : list string) : string :=
  match lines with
  | [] => ""
  | line :: lines =>
      let line := TrimSpace line in
      if String.eqb line "" then summarize count lines
      else
        let evt := parse_json line in
        match evt with
        | None => summarize count lines
        | Some _ =>
            let out := summary_lines line in
            let count := (count + length out)%nat in
            if (50 <=? count)%nat then Join out "" +:+ "... (truncated)" +:+ newline
            else Join out "" +:+ summarize count lines
        end
  end.

(** [internal/temporal/activities_spec_driven.go:880-934] ReadImplementAgentLog: from what the
    command printed, if it did not fail *)
Definition implement_summary (out : option string) : string :=
  match out with
  | None => "(implement agent log not available)"
  | Some out =>
      if String.eqb (TrimSpace out) "" then "(implement agent log not available)"
      else
        let summary := summarize 0 (Split out "010"%char) in
        if String.eqb summary "" then "(no implement agent activity found)" else summary
  end.
