(* ===== verification/VerifyRun.v ===== *)
(** * Planning and verifying a change: [PlanRun] and [VerifyRun] of
    [internal/temporal/activities_spec_driven.go].

    Both activities run commands in the sidecar of the agent's pod and start an agent there.
    They are handlers over the answers of the sidecar; a command that is run more than once is
    told apart by the place in the code.  An agent is polled until it is done: when the polls
    that are given are used up, the activity is still running. *)

From S2P Require Import Prelude GoStrings Files Kube TemporalTypes OpenSpec.

Local Open Scope Z_scope.

(** ** The sidecar *)

(** Where a command is run. *)
Inductive place :=
| AtInit | AtTest | AtNew | AtStatus | AtProposal | AtSpecs | AtTasks | AtValidate | AtFinalStatus
| AtList | AtFile (i : nat) | AtCommand (i : nat) | AtDiff | AtSpecText | AtImplementLog
| AtVerdict | AtVerdictLog | AtFinalLog | AtArchive.

(** The answer to [ExecCommand]: an error of the call, or the exit code and both outputs. *)
Inductive exec_answer := ExecFails (e : string) | Exits (code_ : Z) (stdout stderr : string).

Inductive process_state := StUnspecified | StRunning | StWaiting | StCompleted | StFailed | StOther.

(** One round of polling: the context is done, the call fails, or the state with its error. *)
Inductive poll_answer := PollCancelled (e : string) | PollFails (e : string) | PollState (s : process_state) (error_ : string).

Inductive vcall :=
| VExec (at_ : place) (dir command : string)
| VStart (run prompt repo stage model : string).

Record sidecar := {
  sc_exec : place -> string -> string -> exec_answer;
  sc_start : string -> result unit;
  sc_polls : string -> list poll_answer;
}.

(** How an activity ends, if it does. *)
Inductive act_end (A : Type) := Ended (a : A) | Fails (e : string) | Polling.
Arguments Ended {A} a.
Arguments Fails {A} e.
Arguments Polling {A}.

(** [internal/temporal/activities_spec_driven.go:823-871] pollUntilAgentDone: [Some None] is
    success *)
Fixpoint pollUntilAgentDone (unspecified : Z) (polls : list poll_answer) : option (option string) :=
  match polls with
  | [] => None
  | PollCancelled e :: _ => Some (Some ("poll until agent done: " +:+ e))
  | PollFails e :: _ => Some (Some ("get status: " +:+ e))
  | PollState StCompleted _ :: _ => Some None
  | PollState StFailed e :: _ => Some (Some ("failed: agent failed: " +:+ e))
  | PollState (StRunning | StWaiting) _ :: polls => pollUntilAgentDone 0 polls
  | PollState (StUnspecified | StOther) _ :: polls =>
      if 10 <=? unspecified + 1 then
        Some (Some ("failed: agent never started (UNSPECIFIED state after " +:+ Itoa (unspecified + 1) +:+ " polls)"))
      else pollUntilAgentDone (unspecified + 1) polls
  end.

Section activities.
Variable sc : sidecar.

Notation H A := (handler vcall (act_end A)).

(** [internal/temporal/activities_spec_driven.go:803-818] execInSidecar: what was printed, and the
    error *)
Definition exec_result (a : exec_answer) : string * option string :=
  match a with
  | ExecFails e => ("", Some ("exec command: " +:+ e))
  | Exits c stdout stderr =>
      if c =? 0 then (stdout, None)
      else (stdout, Some ("failed: command exited with code " +:+ Itoa c +:+ ": " +:+ stderr))
  end.

(** [internal/temporal/activities_spec_driven.go:803-818] execInSidecar *)
Definition execInSidecar {A} (p : place) (dir command : string) : H A (string * option string) :=
  emit (VExec p dir command);; mret (exec_result (sc_exec sc p dir command)).

(** The agent of an activity: it is started, and polled until it is done. *)
Definition run_agent {A} (run prompt repo stage model : string) : H A (option string * bool) :=
  emit (VStart run prompt repo stage model);;
  match sc_start sc run with
  | Err e => mret (Some e, false)
  | Ok _ =>
      match pollUntilAgentDone 0 (sc_polls sc run) with
      | None => return_ Polling
      | Some e => mret (e, true)
      end
  end.

Definition specDir : string := "/workspace".

(** ** Planning *)

(** The result of a plan that is not valid. *)
Definition plan_output (input : PlanRunInput) (errors : list string) : PlanRunOutput :=
  {| pl_ChangeName := pl_AgentRunName input; pl_TaskCount := 0; pl_SpecsValid := false;
     pl_ValidationErrors := errors |}.

(** [internal/temporal/activities_spec_driven.go:145-192] PlanRun: the validation *)
Definition plan_validation (input : PlanRunInput) : H PlanRunOutput (act_end PlanRunOutput) :=
  let run := pl_AgentRunName input in
  '(validateOut, err) ← execInSidecar AtValidate specDir ("openspec validate " +:+ Quote run +:+ " --json");
  match err with
  | Some e => mret (Ended (plan_output input
      ["openspec validate failed: " +:+ e +:+ " (stderr: " +:+ validateOut +:+ ")"]))
  | None =>
  match parseOpenSpecValidateResponse validateOut with
  | Err e => mret (Ended (plan_output input ["failed to parse validate response: " +:+ e]))
  | Ok items =>
  match items with
  | {| ov_Valid := false; ov_Issues := issues |} :: _ =>
      mret (Ended (plan_output input (oi_Message <$> issues)))
  | _ =>
      '(statusOut, err) ← execInSidecar AtFinalStatus specDir ("openspec status --change " +:+ Quote run +:+ " --json");
      match err with
      | Some e => mret (Ended (plan_output input ["openspec status failed: " +:+ e]))
      | None =>
      match parseOpenSpecStatusResponse statusOut with
      | Err e => mret (Ended (plan_output input ["failed to parse status response: " +:+ e]))
      | Ok statusResp =>
          if AllArtifactsDone statusResp then
            mret (Ended {| pl_ChangeName := run; pl_TaskCount := Z.of_nat (length (os_Artifacts statusResp));
                           pl_SpecsValid := true; pl_ValidationErrors := [] |})
          else mret (Ended (plan_output input
            ["incomplete artifacts: [" +:+ Join (MissingArtifacts statusResp) " " +:+ "]"]))
      end end
  end end end.

(** [internal/temporal/activities_spec_driven.go:37-72] PlanRun: the change is scaffolded *)
Definition scaffold (run : string) : H PlanRunOutput unit :=
  _ ← execInSidecar AtInit specDir "test -f openspec/config.yaml || openspec init --tools pi --force";
  '(checkOut, _) ← execInSidecar AtTest specDir
    ("test -d openspec/changes/" +:+ Quote run +:+ " && echo exists || echo missing");
  (if String.eqb (TrimSpace checkOut) "exists" then mret tt
   else
     '(newOut, err) ← execInSidecar AtNew specDir ("openspec new change " +:+ Quote run);
     match err with
     | Some e => return_ (Fails ("scaffold openspec change: " +:+ e +:+ " (output: " +:+ newOut +:+ ")"))
     | None => mret tt
     end);;
  '(statusOut, err) ← execInSidecar AtStatus specDir ("openspec status --change " +:+ Quote run +:+ " --json");
  match err with
  | Some e => return_ (Fails ("verify scaffolded change: " +:+ e +:+ " (output: " +:+ statusOut +:+ ")"))
  | None => match parseOpenSpecStatusResponse statusOut with
            | Err e => return_ (Fails ("parse scaffolded change status: " +:+ e))
            | Ok _ => mret tt
            end
  end.

(** [internal/temporal/activities_spec_driven.go:24-192] PlanRun: the templates are fetched, and
    the prompt does not use them *)
Definition PlanRun (input : PlanRunInput) : H PlanRunOutput (act_end PlanRunOutput) :=
  let run := pl_AgentRunName input in
  scaffold run;;
  _ ← execInSidecar AtProposal specDir ("openspec instructions proposal --change " +:+ Quote run +:+ " --json");
  _ ← execInSidecar AtSpecs specDir ("openspec instructions specs --change " +:+ Quote run +:+ " --json");
  _ ← execInSidecar AtTasks specDir ("openspec instructions tasks --change " +:+ Quote run +:+ " --json");
  '(err, started) ← run_agent run (buildPlanAgentPrompt (pl_Prompt input) (pl_SpecContent input) run)
    (pl_RepoPath input) "plan" (pl_Model input);
  match err, started with
  | Some e, false => mret (Fails ("start plan agent: " +:+ e))
  | Some e, true => mret (Fails ("plan agent: " +:+ e))
  | None, _ => plan_validation input
  end.

(** ** Verifying *)

(** [internal/temporal/workflow_spec_driven.go:44-49] AutomatedCheck *)
Record AutomatedCheck := { ac_Name : string; ac_Pass : bool; ac_Output : string; ac_Command : string }.

(** [internal/temporal/workflow_spec_driven.go:27-41] VerificationResult: with what the workflow
    does not read, but for the time *)
Record Verification := {
  vf_Result : VerificationResult; vf_ValidationValid : bool; vf_Checks : list AutomatedCheck;
  vf_Verdict : option LLMVerdict; vf_ConfidenceScore : string;
}.

(** What has been found so far, when every check has passed. *)
Record progress := {
  pg_Completed : Z; pg_Total : Z; pg_Valid : bool; pg_Checks : list AutomatedCheck;
}.

Definition with_checks (p : progress) (cs : list AutomatedCheck) : progress :=
  {| pg_Completed := pg_Completed p; pg_Total := pg_Total p; pg_Valid := pg_Valid p;
     pg_Checks := pg_Checks p ++ cs |}.

Definition check (name : string) (pass : bool) (output : string) : AutomatedCheck :=
  {| ac_Name := name; ac_Pass := pass; ac_Output := output; ac_Command := "" |}.

(** The result of a failed check. *)
Definition failed (p : progress) (c : AutomatedCheck) (report : string) : Verification :=
  {| vf_Result := {| vr_Pass := false; vr_TasksCompleted := pg_Completed p; vr_TasksTotal := pg_Total p;
                     vr_FailureReport := report; vr_ReviewFeedback := ""; vr_Salvageable := false;
                     vr_SalvageGuidance := "" |};
     vf_ValidationValid := pg_Valid p; vf_Checks := pg_Checks p ++ [c]; vf_Verdict := None;
     vf_ConfidenceScore := "0" |}.

(** A check fails: the activity ends with the result that says so. *)
Definition fail_check {A} (p : progress) (name report : string) : H Verification A :=
  return_ (Ended (failed p (check name false report) report)).

Definition no_progress : progress := {| pg_Completed := 0; pg_Total := 0; pg_Valid := false; pg_Checks := [] |}.

(** [internal/temporal/activities_spec_driven.go:217-278] VerifyRun: the tasks are complete *)
Definition check_tasks (input : VerifyRunInput) : H Verification progress :=
  '(listOut, err) ← execInSidecar AtList specDir "openspec list --json";
  match err with
  | Some e => fail_check no_progress "task_completion"
                ("openspec list failed: " +:+ e +:+ " (output: " +:+ listOut +:+ ")")
  | None =>
  match parseOpenSpecListResponse listOut with
  | Err e => fail_check no_progress "task_completion" ("failed to parse openspec list: " +:+ e)
  | Ok listResp =>
  match FindChange listResp (vr_ChangeName input) with
  | None => fail_check no_progress "task_completion"
              ("change " +:+ Quote (vr_ChangeName input) +:+ " not found in openspec list output")
  | Some info =>
      let p := {| pg_Completed := oc_CompletedTasks info; pg_Total := oc_TotalTasks info;
                  pg_Valid := false; pg_Checks := [] |} in
      if oc_TotalTasks info =? 0 then
        fail_check p "task_completion" "no tasks found in change — planning agent may not have created tasks.md"
      else if oc_CompletedTasks info <? oc_TotalTasks info then
        fail_check p "task_completion" ("task completion: " +:+ Itoa (oc_CompletedTasks info) +:+ "/" +:+
          Itoa (oc_TotalTasks info) +:+ " tasks complete")
      else mret (with_checks p [check "task_completion" true
             (Itoa (oc_CompletedTasks info) +:+ "/" +:+ Itoa (oc_TotalTasks info) +:+ " tasks complete")])
  end end end.

(** [internal/temporal/activities_spec_driven.go:280-321] VerifyRun: the specs are valid *)
Definition check_validation (input : VerifyRunInput) (p : progress) : H Verification progress :=
  '(valOut, err) ← execInSidecar AtValidate specDir
    ("openspec validate " +:+ Quote (vr_ChangeName input) +:+ " --json");
  match err with
  | Some e => fail_check p "spec_validation"
                ("openspec validate failed: " +:+ e +:+ " (output: " +:+ valOut +:+ ")")
  | None =>
  match parseOpenSpecValidateResponse valOut with
  | Err e => fail_check p "spec_validation" ("failed to parse validate response: " +:+ e)
  | Ok ({| ov_Valid := false; ov_Issues := issues |} :: _) =>
      fail_check p "spec_validation" ("spec validation failed: " +:+ Join (oi_Message <$> issues) "; ")
  | Ok _ =>
      mret {| pg_Completed := pg_Completed p; pg_Total := pg_Total p; pg_Valid := true;
              pg_Checks := pg_Checks p ++ [check "spec_validation" true ""] |}
  end end.

(** [internal/temporal/activities_spec_driven.go:326-344] VerifyRun: the files exist *)
Fixpoint check_files (workDir : string) (i : nat) (fcs : list FileCheck) (p : progress) : H Verification progress :=
  match fcs with
  | [] => mret p
  | fc :: fcs =>
      '(checkOut, err) ← execInSidecar (AtFile i) workDir
        ("test -f " +:+ Quote (fc_Path fc) +:+ " && echo exists || echo missing");
      let name := "file_exists: " +:+ fc_Path fc in
      match err, String.eqb (TrimSpace checkOut) "exists" with
      | None, true => check_files workDir (S i) fcs (with_checks p [check name true "exists"])
      | _, _ => fail_check p name
          ("file not found: " +:+ fc_Path fc +:+ " (spec scenario: " +:+ fc_Scenario fc +:+ ")")
      end
  end.

(** [internal/temporal/activities_spec_driven.go:349-367] VerifyRun: the commands succeed *)
Fixpoint check_commands (workDir : string) (i : nat) (tcs : list TestCommand) (p : progress) : H Verification progress :=
  match tcs with
  | [] => mret p
  | tc :: tcs =>
      '(output, err) ← execInSidecar (AtCommand i) workDir (tc_Command tc);
      match err with
      | Some e =>
          let out := "command failed: " +:+ e +:+ newline +:+ output in
          return_ (Ended (failed p {| ac_Name := tc_Name tc; ac_Pass := false; ac_Output := out; ac_Command := tc_Command tc |}
            ("automated check '" +:+ tc_Name tc +:+ "' failed: " +:+ out)))
      | None =>
          check_commands workDir (S i) tcs (with_checks p
            [{| ac_Name := tc_Name tc; ac_Pass := true; ac_Output := truncate output 500; ac_Command := tc_Command tc |}])
      end
  end.

(** [internal/temporal/activities_spec_driven.go:369-453] VerifyRun: the review, up to its
    verdict *)
Definition review (input : VerifyRunInput) (p : progress) : H Verification LLMVerdict :=
  let run := vr_AgentRunName input in
  let workDir := vr_RepoPath input in
  '(gitDiff, _) ← execInSidecar AtDiff workDir "git diff HEAD~1 2>/dev/null || echo 'no git diff available'";
  '(specContent, _) ← execInSidecar AtSpecText specDir
    ("find openspec/changes/" +:+ vr_ChangeName input +:+ "/specs -name 'spec.md' -exec cat {} + 2>/dev/null || echo 'no specs'");
  '(log, logErr) ← execInSidecar AtImplementLog workDir
    "tail -200 /workspace/.aot/logs/agent.jsonl 2>/dev/null || echo ''";
  let implementLog := implement_summary (match logErr with Some _ => None | None => Some log end) in
  '(err, started) ← run_agent (run +:+ "-verify")
    (buildManageReviewPrompt (vr_ChangeName input) gitDiff specContent implementLog (vr_PreviousReviewFeedback input))
    workDir "verify" (vr_ManageModel input);
  match err, started with
  | Some e, false => fail_check p "llm_judge" ("manage agent review failed to start: " +:+ e)
  | Some e, true => fail_check p "llm_judge" ("manage agent review failed: " +:+ e)
  | None, _ =>
      '(verdictJSON, readErr) ← execInSidecar AtVerdict workDir "cat .aot/logs/agent.jsonl 2>/dev/null | tail -50";
      match readErr with
      | Some e => fail_check p "llm_judge" ("failed to read manage agent log: " +:+ e)
      | None => match parseLLMVerdict verdictJSON with
                | None => fail_check p "llm_judge" "manage agent produced no parseable verdict"
                | Some verdict => mret verdict
                end
      end
  end.

(** How a boolean, and a number with two decimals, are printed. *)
Definition bool_text (b : bool) : string := if b then "true" else "false".
Variable two_decimals : string -> string.

(** [internal/temporal/activities_spec_driven.go:457-469] VerifyRun: the lines that are logged *)
Definition verdict_log (v : LLMVerdict) : string :=
  Join (("[verification.llm-judge] verdict: pass=" +:+ bool_text (lv_Pass v) +:+ " salvageable=" +:+
         bool_text (lv_Salvageable v) +:+ " confidence=" +:+ two_decimals (lv_ConfidenceScore v)) ::
        ((fun c => "  [" +:+ (if cr_Pass c then "PASS" else "FAIL") +:+ "] " +:+ cr_Scenario c +:+ ": " +:+
                   cr_Explanation c) <$> lv_Criteria v)) newline.

Definition append_log (line : string) : string :=
  "echo " +:+ Quote line +:+ " >> /workspace/.aot/logs/verification.log 2>/dev/null || true".

(** [internal/temporal/activities_spec_driven.go:494-515] VerifyRun: the result of a failed review *)
Definition review_failed (p : progress) (v : LLMVerdict) : Verification :=
  let criteria := (fun c => cr_Scenario c +:+ ": " +:+ cr_Explanation c) <$>
                    filter (fun c => cr_Pass c = false) (lv_Criteria v) in
  let report := "Manage agent review failed: " +:+ Join criteria "; " in
  {| vf_Result := {| vr_Pass := false; vr_TasksCompleted := pg_Completed p; vr_TasksTotal := pg_Total p;
                     vr_FailureReport := report; vr_ReviewFeedback := Join criteria newline;
                     vr_Salvageable := lv_Salvageable v; vr_SalvageGuidance := lv_SalvageGuidance v |};
     vf_ValidationValid := pg_Valid p; vf_Checks := pg_Checks p ++ [check "llm_judge" false report];
     vf_Verdict := Some v; vf_ConfidenceScore := lv_ConfidenceScore v |}.

(** [internal/temporal/activities_spec_driven.go:516-543] VerifyRun: the result of a success *)
Definition verified (p : progress) (v : LLMVerdict) (archive : AutomatedCheck) : Verification :=
  {| vf_Result := {| vr_Pass := true; vr_TasksCompleted := pg_Completed p; vr_TasksTotal := pg_Total p;
                     vr_FailureReport := ""; vr_ReviewFeedback := ""; vr_Salvageable := false;
                     vr_SalvageGuidance := "" |};
     vf_ValidationValid := pg_Valid p;
     vf_Checks := pg_Checks p ++ [check "llm_judge" true "manage agent review passed"; archive];
     vf_Verdict := Some v; vf_ConfidenceScore := "0" |}.

(** [internal/temporal/activities_spec_driven.go:455-544] VerifyRun: what follows the verdict, but
    for the trace *)
Definition conclude (input : VerifyRunInput) (p : progress) (v : LLMVerdict) : H Verification (act_end Verification) :=
  let workDir := vr_RepoPath input in
  _ ← execInSidecar AtVerdictLog workDir (append_log (verdict_log v));
  if lv_Pass v then
    _ ← execInSidecar AtFinalLog workDir
      "echo '[verification.llm-judge] PASSED' >> /workspace/.aot/logs/verification.log 2>/dev/null || true";
    '(_, err) ← execInSidecar AtArchive specDir ("openspec archive " +:+ Quote (vr_ChangeName input) +:+ " --yes");
    mret (Ended (verified p v (match err with
      | Some e => check "archive" false ("archive failed: " +:+ e)
      | None => check "archive" true "change archived successfully"
      end)))
  else
    let r := review_failed p v in
    _ ← execInSidecar AtFinalLog workDir
      (append_log ("[verification.llm-judge] FAILED — " +:+ vr_FailureReport (vf_Result r)));
    mret (Ended r).

(** [internal/temporal/activities_spec_driven.go:196-544] VerifyRun, on a machine with these files *)
Definition VerifyRun (t : tree) (input : VerifyRunInput) : H Verification (act_end Verification) :=
  let workDir := vr_RepoPath input in
  p ← check_tasks input;
  p ← check_validation input p;
  p ← check_files workDir 0 (extractFileChecks t workDir (vr_ChangeName input)) p;
  p ← check_commands workDir 0 (detectTestCommands t workDir (vr_ChangeName input)) p;
  v ← review input p;
  conclude input p v.
End activities.
