(* ===== verification/VerifyProps.v ===== *)
(** * What a passed verification means: the theorems on [VerifyRun] and [PlanRun].

    Each check of [VerifyRun] goes on exactly when its gate is open, and otherwise the activity
    ends with a refusal that gives a reason ([settles]); the checks compose ([settles_bind]). *)

From S2P Require Import Prelude GoStrings Files Kube TemporalTypes OpenSpec VerifyRun.

Local Open Scope Z_scope.

(** A command succeeds and prints [out]. *)
Definition prints (sc : sidecar) (p : place) (dir command out : string) : Prop :=
  exec_result (sc_exec sc p dir command) = (out, None).

(** What was printed is what was printed. *)
Ltac printed :=
  unfold prints in *;
  repeat match goal with
  | H : exec_result ?a = _, H' : exec_result ?a = _ |- _ => rewrite H in H'; simplify_eq
  | H : parseOpenSpecListResponse ?a = _, H' : parseOpenSpecListResponse ?a = _ |- _ => rewrite H in H'; simplify_eq
  | H : parseOpenSpecValidateResponse ?a = _, H' : parseOpenSpecValidateResponse ?a = _ |- _ => rewrite H in H'; simplify_eq
  | H : FindChange ?c ?n = _, H' : FindChange ?c ?n = _ |- _ => rewrite H in H'; simplify_eq
  end.

Section gates.
Variables (sc : sidecar) (two_decimals : string -> string).
#[local] Notation prints := (prints sc).

(** ** The gates *)

Definition tasks_complete (name : string) : Prop :=
  exists out changes info, prints AtList specDir "openspec list --json" out /\
    parseOpenSpecListResponse out = Ok changes /\ FindChange changes name = Some info /\
    oc_TotalTasks info <> 0 /\ oc_TotalTasks info <= oc_CompletedTasks info.

(** The tool finds nothing wrong with the first item that it lists, if it lists any. *)
Definition structure_valid (name : string) : Prop :=
  exists out items, prints AtValidate specDir ("openspec validate " +:+ Quote name +:+ " --json") out /\
    parseOpenSpecValidateResponse out = Ok items /\
    forall item, head items = Some item -> ov_Valid item = true.

Definition file_exists (dir : string) (i : nat) (fc : FileCheck) : Prop :=
  exists out, prints (AtFile i) dir ("test -f " +:+ Quote (fc_Path fc) +:+ " && echo exists || echo missing") out /\
    TrimSpace out = "exists".

Definition command_succeeds (dir : string) (i : nat) (tc : TestCommand) : Prop :=
  exists out, prints (AtCommand i) dir (tc_Command tc) out.

(** The reviewing agent ran to its end, and this is the verdict in its log. *)
Definition reviewed (input : VerifyRunInput) (v : LLMVerdict) : Prop :=
  let run := vr_AgentRunName input +:+ "-verify" in
  sc_start sc run = Ok tt /\ pollUntilAgentDone 0 (sc_polls sc run) = Some None /\
  exists log, prints AtVerdict (vr_RepoPath input) "cat .aot/logs/agent.jsonl 2>/dev/null | tail -50" log /\
    parseLLMVerdict log = Some v.

Definition all_gates (t : tree) (input : VerifyRunInput) : Prop :=
  let dir := vr_RepoPath input in
  let name := vr_ChangeName input in
  tasks_complete name /\ structure_valid name /\
  (forall i fc, extractFileChecks t dir name !! i = Some fc -> file_exists dir i fc) /\
  (forall i tc, detectTestCommands t dir name !! i = Some tc -> command_succeeds dir i tc) /\
  exists v, reviewed input v /\ lv_Pass v = true.

(** ** The checks settle the gates *)

Definition refuses (r : act_end Verification) : Prop :=
  match r with
  | Ended r => vr_Pass (vf_Result r) = false /\ vr_FailureReport (vf_Result r) <> ""
  | Fails _ => False
  | Polling => exists run, pollUntilAgentDone 0 (sc_polls sc run) = None
  end.

(** The code goes on with a value for which the gate holds, or it holds for none and the result
    refuses. *)
Definition settles {A} (G : A -> Prop) (m : handler vcall (act_end Verification) A) : Prop :=
  match m.2 with inl a => G a | inr r => ~ (exists a, G a) /\ refuses r end.

#[local] Instance progress_inhabited : Inhabited progress := populate no_progress.

Lemma settles_bind {A B} `{Inhabited A} (P : Prop) (Q : B -> Prop) (m : handler vcall (act_end Verification) A) k :
  settles (fun _ => P) m -> (forall a, P -> settles Q (k a)) -> settles (fun b => P /\ Q b) (m ≫= k).
Proof.
  unfold settles, mbind, handler_bind. destruct m as [es [a|r]]; simpl.
  - intros HP Hk. specialize (Hk a HP). destruct (k a) as [es' [b|r]]; simpl in *; naive_solver.
  - intros [HP Hr] _. split; [|done]. intros (b & HP' & _). apply HP. by exists inhabitant.
Qed.

(** A command is run, and the code goes on with its result. *)
Lemma settles_exec {A} (G : A -> Prop) p dir command k :
  settles G (k (exec_result (sc_exec sc p dir command))) -> settles G (execInSidecar sc p dir command ≫= k).
Proof. unfold settles, execInSidecar, mbind, handler_bind. simpl. destruct (k _) as [es [b|r]]; done. Qed.

Lemma settles_ret {A} (G : A -> Prop) a : G a -> settles G (mret a).
Proof. done. Qed.

Lemma settles_fail {A} (G : A -> Prop) p name report :
  report <> "" -> ~ (exists a, G a) -> settles G (fail_check p name report).
Proof. done. Qed.

(** A weaker claim, and a stronger one, about the same value. *)
Lemma settles_iff {A} (G G' : A -> Prop) m : (forall a, G a <-> G' a) -> settles G m -> settles G' m.
Proof.
  unfold settles. intros H. destruct m.2 as [b|r]; [by apply H|].
  intros [Hn ?]. split; [|done]. intros [a' Ha]. apply Hn. exists a'. by apply H.
Qed.

Lemma check_tasks_settles input :
  settles (fun _ => tasks_complete (vr_ChangeName input)) (check_tasks sc input).
Proof.
  unfold check_tasks. apply settles_exec.
  destruct (exec_result _) as [out [e|]] eqn:Eout; [apply settles_fail; [done|]|].
  { intros [_ (? & ? & ? & ? & ?)]. printed. }
  destruct (parseOpenSpecListResponse out) as [changes|e] eqn:El; [|apply settles_fail; [done|]].
  2:{ intros [_ (? & ? & ? & ? & ? & ?)]. printed; done. }
  destruct (FindChange changes _) as [info|] eqn:Ef; [|apply settles_fail; [done|]].
  2:{ intros [_ (? & ? & ? & ? & ? & ? & ?)]. printed; done. }
  destruct (Z.eqb_spec (oc_TotalTasks info) 0) as [Et|Et]; [apply settles_fail; [done|]|].
  { intros [_ (? & ? & ? & ? & ? & ? & ? & ?)]. printed; done. }
  destruct (Z.ltb_spec (oc_CompletedTasks info) (oc_TotalTasks info)) as [Hl|Hl]; [apply settles_fail; [done|]|].
  { intros [_ (? & ? & ? & ? & ? & ? & ? & ?)]. printed. lia. }
  apply settles_ret. by exists out, changes, info.
Qed.

Lemma check_validation_settles input p :
  settles (fun _ => structure_valid (vr_ChangeName input)) (check_validation sc input p).
Proof.
  unfold check_validation. apply settles_exec.
  destruct (exec_result _) as [out [e|]] eqn:Eout; [apply settles_fail; [done|]|].
  { intros [_ (? & ? & ? & ?)]. printed. }
  destruct (parseOpenSpecValidateResponse out) as [items|e] eqn:El; [|apply settles_fail; [done|]].
  2:{ intros [_ (? & ? & ? & ? & ?)]. printed; congruence. }
  destruct items as [|[id ty [] issues] items].
  - apply settles_ret. by exists out, [].
  - apply settles_ret. eexists out, _. repeat split; [done..|]. simpl. by intros ? [= <-].
  - apply settles_fail; [done|]. intros [_ (? & items' & ? & ? & Hv)]. printed. by specialize (Hv _ eq_refl).
Qed.

(** The elements of a list from a position on. *)
Definition from (i : nat) {A} (P : nat -> A -> Prop) (l : list A) : Prop :=
  forall j x, l !! j = Some x -> P (i + j)%nat x.

Lemma from_cons i {A} (P : nat -> A -> Prop) x l : from i P (x :: l) <-> P i x /\ from (S i) P l.
Proof.
  split.
  - intros H. split; [specialize (H O x eq_refl); by rewrite Nat.add_0_r in H|].
    intros j y Hj. rewrite Nat.add_succ_comm. by apply H.
  - intros [Hx H] [|j] y Hj; [simplify_eq/=; by rewrite Nat.add_0_r|].
    rewrite <- Nat.add_succ_comm. by apply H.
Qed.

Lemma check_files_settles dir fcs p i :
  settles (fun _ => from i (file_exists dir) fcs) (check_files sc dir i fcs p).
Proof.
  revert p i. induction fcs as [|fc fcs IH]; intros p i; [by apply settles_ret|].
  cbn [check_files]. apply settles_exec.
  apply (settles_iff (fun _ => file_exists dir i fc /\ from (S i) (file_exists dir) fcs)).
  { intros ?. by rewrite from_cons. }
  destruct (exec_result _) as [out [e|]] eqn:Eout; [apply settles_fail; [done|]|].
  { intros [_ [(? & ? & ?) _]]. printed. }
  destruct (String.eqb_spec (TrimSpace out) "exists") as [Ht|Ht]; [|apply settles_fail; [done|]].
  2:{ intros [_ [(? & ? & ?) _]]. printed; done. }
  eapply settles_iff; [|apply IH]. intros ?. split; [|tauto]. split; [by exists out|done].
Qed.

Lemma check_commands_settles dir tcs p i :
  settles (fun _ => from i (command_succeeds dir) tcs) (check_commands sc dir i tcs p).
Proof.
  revert p i. induction tcs as [|tc tcs IH]; intros p i; [by apply settles_ret|].
  cbn [check_commands]. apply settles_exec.
  apply (settles_iff (fun _ => command_succeeds dir i tc /\ from (S i) (command_succeeds dir) tcs)).
  { intros ?. by rewrite from_cons. }
  destruct (exec_result _) as [out [e|]] eqn:Eout.
  { split; [|done]. intros [_ [(? & ?) _]]. printed. }
  eapply settles_iff; [|apply IH]. intros ?. split; [|tauto]. split; [by exists out|done].
Qed.

Lemma review_settles input p : settles (reviewed input) (review sc input p).
Proof.
  unfold review. do 3 (apply settles_exec; destruct (exec_result _) as [? ?]).
  unfold settles, reviewed, run_agent, mbind, handler_bind. simpl.
  destruct (sc_start sc _) as [[]|e] eqn:Es; simpl; [|split; [by intros (? & ? & _)|done]].
  destruct (pollUntilAgentDone 0 _) as [[e|]|] eqn:Ep; simpl;
    [split; [naive_solver|done]| |split; [naive_solver|by eexists]].
  destruct (exec_result _) as [log [e|]] eqn:Elog; simpl.
  { split; [|done]. intros (? & _ & _ & ? & ? & _). printed. }
  destruct (parseLLMVerdict log) as [v|] eqn:Ev; simpl.
  { do 2 (split; [done|]). by exists log. }
  split; [|done]. intros (? & _ & _ & ? & ? & ?). by printed; congruence.
Qed.

(** The activity passes exactly when the gate holds, and a result that does not pass says why. *)
Definition decides (G : Prop) (m : handler vcall (act_end Verification) (act_end Verification)) : Prop :=
  match outcome m with
  | Ended r => (vr_Pass (vf_Result r) = true <-> G) /\
               (vr_Pass (vf_Result r) = false -> vr_FailureReport (vf_Result r) <> "")
  | Fails _ => False
  | Polling => ~ G /\ exists run, pollUntilAgentDone 0 (sc_polls sc run) = None
  end.

Lemma decides_iff (P Q : Prop) m : P <-> Q -> decides P m -> decides Q m.
Proof. intros HPQ. unfold decides. destruct (outcome m); tauto. Qed.

(** A result that refuses, of a gate that does not hold. *)
Lemma refuses_decides (G : Prop) es r : ~ G -> refuses r -> decides G (es, inr r).
Proof.
  intros HG Hr. unfold decides, outcome. simpl. destruct r as [r|e|]; simpl in *; [|done..].
  destruct Hr as [Hp Hr]. rewrite Hp. by repeat split.
Qed.

Lemma decides_bind {A} (G : A -> Prop) (Q : A -> Prop) (m : handler vcall (act_end Verification) A) k :
  settles G m -> (forall a b, G a -> G b -> Q a -> Q b) -> (forall a, G a -> decides (Q a) (k a)) ->
  decides (exists a, G a /\ Q a) (m ≫= k).
Proof.
  unfold settles, mbind, handler_bind. destruct m as [es [a|r]]; simpl.
  - intros Ha Hu Hk. apply (decides_iff (Q a)).
    { split; [intros; by exists a|]. intros (b & Hb & HQ). by apply (Hu b a). }
    specialize (Hk a Ha). unfold decides, outcome in *. by destruct (k a) as [? [[]|[]]].
  - intros [Hn Hr] _ _. apply refuses_decides; [|done]. intros (a & Ha & _). apply Hn. by exists a.
Qed.

(** The gate of a check does not depend on the value that the check goes on with. *)
Lemma decides_check (P Q : Prop) (m : handler vcall (act_end Verification) progress) k :
  settles (fun _ => P) m -> (forall p, P -> decides Q (k p)) -> decides (P /\ Q) (m ≫= k).
Proof.
  intros Hm Hk. apply (decides_iff (exists _ : progress, P /\ Q)).
  - split; [by intros [_ ?]|intros; by exists no_progress].
  - by apply (decides_bind (fun _ => P) (fun _ => Q)).
Qed.

(** The verdict decides what is left: the change is archived, or the result refuses. *)
Lemma conclude_decides input p v : decides (lv_Pass v = true) (conclude sc two_decimals input p v).
Proof.
  unfold conclude, decides, outcome, execInSidecar, mbind, handler_bind. simpl.
  destruct (lv_Pass v); simpl; [destruct (exec_result _) as [? [e|]]|]; by simpl.
Qed.

Lemma reviewed_functional input v v' : reviewed input v -> reviewed input v' -> v = v'.
Proof. intros (_ & _ & log & Hl & Hv) (_ & _ & log' & Hl' & Hv'). printed. congruence. Qed.

Lemma VerifyRun_decides t input : decides (all_gates t input) (VerifyRun sc two_decimals t input).
Proof.
  unfold VerifyRun, all_gates.
  apply decides_check; [apply check_tasks_settles|intros p1 _].
  apply decides_check; [apply check_validation_settles|intros p2 _].
  apply decides_check; [apply (check_files_settles _ _ _ 0)|intros p3 _].
  apply decides_check; [apply (check_commands_settles _ _ _ 0)|intros p4 _].
  apply decides_bind; [apply review_settles| |].
  - intros v v' Hv Hv'. by rewrite (reviewed_functional _ _ _ Hv Hv').
  - intros v _. apply conclude_decides.
Qed.

(** ** What is called *)

Definition archives (c : vcall) : bool := match c with VExec AtArchive _ _ => true | _ => false end.

(** No check archives the change. *)
Definition quiet {A} (m : handler vcall (act_end Verification) A) : Prop := calls (fun c => archives c = false) m.

Lemma quiet_exec {A} p dir command (k : string * option string -> handler vcall (act_end Verification) A) :
  archives (VExec p dir command) = false -> (forall r, quiet (k r)) -> quiet (execInSidecar sc p dir command ≫= k).
Proof. intros Hp Hk. apply calls_bind; [|done]. by unfold execInSidecar; walk_calls. Qed.

Ltac quietly :=
  repeat first
    [ apply quiet_exec; [reflexivity|intros [? ?]] | apply calls_bind; [|intros] | apply calls_ret
    | apply calls_return | apply calls_emit; [reflexivity] | progress unfold quiet, fail_check | case_match ].

Lemma check_files_quiet dir fcs i p : quiet (check_files sc dir i fcs p).
Proof. revert i p. induction fcs as [|fc fcs IH]; intros i p; cbn [check_files]; quietly; apply IH. Qed.

Lemma check_commands_quiet dir tcs i p : quiet (check_commands sc dir i tcs p).
Proof. revert i p. induction tcs as [|tc tcs IH]; intros i p; cbn [check_commands]; quietly; apply IH. Qed.

Lemma checks_quiet input p :
  quiet (check_tasks sc input) /\ quiet (check_validation sc input p) /\ quiet (review sc input p).
Proof. unfold check_tasks, check_validation, review, run_agent. repeat split; quietly. Qed.

(** When the change is archived, the activity passes. *)
Definition archived_passes (m : handler vcall (act_end Verification) (act_end Verification)) : Prop :=
  Exists (fun c => archives c = true) m.1 -> exists r, outcome m = Ended r /\ vr_Pass (vf_Result r) = true.

Lemma archived_passes_bind {A} (m : handler vcall (act_end Verification) A) k :
  quiet m -> (forall a, archived_passes (k a)) -> archived_passes (m ≫= k).
Proof.
  unfold archived_passes, quiet, calls, outcome, mbind, handler_bind.
  intros Hq Hk. destruct m as [es [a|r]]; simpl in *.
  - rewrite Exists_app. intros [He|He]; [|by specialize (Hk a); destruct (k a) as [? []]; apply Hk].
    apply Exists_exists in He as (c & Hc & Hac). rewrite Forall_forall in Hq. by rewrite Hq in Hac.
  - intros He. apply Exists_exists in He as (c & Hc & Hac). rewrite Forall_forall in Hq. by rewrite Hq in Hac.
Qed.

Lemma conclude_archived input p v : archived_passes (conclude sc two_decimals input p v).
Proof.
  unfold conclude, archived_passes, outcome, execInSidecar, mbind, handler_bind. simpl.
  destruct (lv_Pass v); simpl; [destruct (exec_result _) as [? [e|]]; by eexists|].
  rewrite !Exists_cons. simpl. intros [|[|H]]; [done..|]. by apply Exists_nil in H.
Qed.

Lemma VerifyRun_archived t input : archived_passes (VerifyRun sc two_decimals t input).
Proof.
  unfold VerifyRun. apply archived_passes_bind; [apply (checks_quiet input no_progress)|intros p1].
  apply archived_passes_bind; [apply checks_quiet|intros p2].
  apply archived_passes_bind; [apply check_files_quiet|intros p3].
  apply archived_passes_bind; [apply check_commands_quiet|intros p4].
  apply archived_passes_bind; [apply checks_quiet|intros v]. apply conclude_archived.
Qed.
End gates.

(** C9. [VerifyRun] passes a change exactly when every gate is open: the tool lists the change
    with tasks and all of them complete, the first item of its validation is valid, every file
    that a scenario names exists and every command succeeds in the agent's pod, and the reviewing
    agent ran to its end with a passing verdict in its log.  A result that does not pass gives a
    reason; the activity has no error of its own, and it does not end only when an agent is
    polled for ever.  The change is archived only when every gate is open. *)
Theorem verification_gated sc two_decimals t input :
  let m := VerifyRun sc two_decimals t input in
  match outcome m with
  | Ended r => (vr_Pass (vf_Result r) = true <-> all_gates sc t input) /\
               (vr_Pass (vf_Result r) = false -> vr_FailureReport (vf_Result r) <> "")
  | Fails _ => False
  | Polling => exists run, pollUntilAgentDone 0 (sc_polls sc run) = None
  end /\
  (Exists (fun c => archives c = true) m.1 -> all_gates sc t input).
Proof.
  pose proof (VerifyRun_decides sc two_decimals t input) as H.
  pose proof (VerifyRun_archived sc two_decimals t input) as Ha.
  unfold decides in H. split.
  - destruct (outcome _); naive_solver.
  - intros He. destruct (Ha He) as (r & Hr & Hp). rewrite Hr in H. by apply H.
Qed.

(** ** An example *)

Definition quoted (s : string) : string := dquote +:+ s +:+ dquote.

Definition demo_verdict : string :=
  "{" +:+ quoted "pass" +:+ ":true," +:+ quoted "criteria" +:+ ":[{" +:+ quoted "scenario" +:+ ":" +:+ quoted "a" +:+ "," +:+
  quoted "pass" +:+ ":true}]}".

Definition demo_log : string :=
  "{" +:+ quoted "type" +:+ ":" +:+ quoted "message_end" +:+ "," +:+ quoted "message" +:+ ":{" +:+
  quoted "role" +:+ ":" +:+ quoted "assistant" +:+ "," +:+ quoted "content" +:+ ":[{" +:+ quoted "type" +:+ ":" +:+
  quoted "text" +:+ "," +:+ quoted "text" +:+ ":" +:+ Quote demo_verdict +:+ "}]}}".

Definition demo_sidecar : sidecar := {|
  sc_exec := fun p _ _ => Exits 0 match p with
    | AtList => "{" +:+ quoted "changes" +:+ ":[{" +:+ quoted "name" +:+ ":" +:+ quoted "c1" +:+ "," +:+
                quoted "completedTasks" +:+ ":2," +:+ quoted "totalTasks" +:+ ":2}]}"
    | AtValidate => "{" +:+ quoted "items" +:+ ":[{" +:+ quoted "valid" +:+ ":true}]}"
    | AtVerdict => demo_log
    | AtFile _ => "exists" +:+ newline
    | _ => ""
    end "";
  sc_start := fun _ => Ok tt;
  sc_polls := fun _ => [PollState StUnspecified ""; PollState StRunning ""; PollState StCompleted ""];
|}.

Definition demo_input : VerifyRunInput :=
  {| vr_AgentRunName := "r"; vr_Namespace := ""; vr_PodName := ""; vr_PodIP := ""; vr_ChangeName := "c1";
     vr_RepoPath := "/workspace/repo"; vr_ParentSpanID := ""; vr_TraceID := ""; vr_ManageModel := "m";
     vr_PreviousReviewFeedback := "" |}.

Definition demo_tree : tree := {|
  tr_nodes := {[ "/workspace/openspec/changes/c1/specs/a/spec.md" :=
    File ("#### Scenario: a" +:+ newline +:+ "- WHEN the command `go test ./...` is run" +:+ newline +:+
          "- THEN `out.txt` exists") ]};
  tr_cwd := "/" |}.

Example demo_checks :
  extractFileChecks demo_tree "/workspace/repo" "c1" = [{| fc_Path := "out.txt"; fc_Scenario := "a" |}] /\
  (tc_Command <$> detectTestCommands demo_tree "/workspace/repo" "c1") = ["go test ./..."].
Proof. vm_compute. by split. Qed.

(** A change with a file, a command and a passing review passes every gate. *)
Lemma verification_gated_witness :
  let m := VerifyRun demo_sidecar (fun s => s) demo_tree demo_input in
  (exists r, outcome m = Ended r /\ vr_Pass (vf_Result r) = true) /\
  all_gates demo_sidecar demo_tree demo_input.
Proof.
  split; [by eexists; split; [vm_compute; reflexivity|]|].
  apply (verification_gated demo_sidecar (fun s => s) demo_tree demo_input).
  vm_compute. repeat first [by constructor 1 | constructor 2].
Defined.

(** On a machine without the directories of the specs no scenario is checked: the gates of the
    files and of the commands are open. *)
Lemma no_specs_no_checks t repo name :
  tr_nodes t = ∅ -> extractFileChecks t repo name = [] /\ detectTestCommands t repo name = [].
Proof.
  intros Ht. assert (spec_lines t repo name = []) as E.
  { unfold spec_lines, walk_files. rewrite Ht. by rewrite map_to_list_empty. }
  unfold extractFileChecks, detectTestCommands. by rewrite E.
Qed.

(** ** Planning *)

(** What [PlanRun] calls a valid plan: the first item of the validation is valid, and no artifact
    that is required and listed is unfinished. *)
Definition plan_complete (sc : sidecar) (name : string) : Prop :=
  structure_valid sc name /\
  exists out status, prints sc AtFinalStatus specDir ("openspec status --change " +:+ Quote name +:+ " --json") out /\
    parseOpenSpecStatusResponse out = Ok status /\ MissingArtifacts status = [].

Lemma outcome_exec sc {R} p dir command (k : string * option string -> handler vcall (act_end R) (act_end R)) :
  outcome (execInSidecar sc p dir command ≫= k) = outcome (k (exec_result (sc_exec sc p dir command))).
Proof. unfold outcome, execInSidecar, mbind, handler_bind. simpl. by destruct (k _) as [? []]. Qed.

(** The validation of a plan ends, and its specs are valid exactly when the plan is complete. *)
Lemma plan_validation_spec sc input :
  exists out, outcome (plan_validation sc input) = Ended out /\
    (pl_SpecsValid out = true <-> plan_complete sc (pl_AgentRunName input)).
Proof.
  assert (forall P : Prop, ~ P -> false = true <-> P) as Hno by naive_solver.
  unfold plan_validation, plan_complete. rewrite outcome_exec. set (name := pl_AgentRunName input).
  destruct (exec_result _) as [out [e|]] eqn:Ev.
  { eexists; split; [done|]. apply Hno. intros [(? & ? & ? & _) _]. printed. }
  destruct (parseOpenSpecValidateResponse out) as [items|e] eqn:Ei.
  2:{ eexists; split; [done|]. apply Hno. intros [(? & ? & ? & ? & _) _]. printed; done. }
  assert (match items with [] => true | item :: _ => ov_Valid item end = true <->
          structure_valid sc name) as Hs.
  { unfold structure_valid. split; [intros H|intros (? & items' & ? & ? & H)].
    - exists out, items. do 2 (split; [done|]). intros item Hi. destruct items; by simplify_eq/=.
    - assert (items' = items) as -> by (by printed). destruct items; [done|]. by apply H. }
  destruct items as [|[id ty [] issues] items].
  3:{ eexists; split; [done|]. apply Hno. by intros [H%Hs _]. }
  all: rewrite outcome_exec; destruct (exec_result (sc_exec sc AtFinalStatus _ _)) as [out' [e|]] eqn:Es;
    [eexists; split; [done|]; apply Hno; intros [_ (? & ? & ? & _)]; printed|].
  all: destruct (parseOpenSpecStatusResponse out') as [status|e] eqn:Est;
    [|eexists; split; [done|]; apply Hno; intros [_ (? & ? & ? & ? & _)]; printed; congruence].
  all: pose proof (AllArtifactsDone_spec status) as Ha; destruct (AllArtifactsDone status).
  all: eexists; split; [done|].
  1, 3: split; [intros _; split; [by apply Hs|exists out', status; by rewrite <- Ha]|done].
  all: apply Hno; intros [_ (? & status' & ? & ? & Hm)]; printed.
  all: assert (status' = status) as -> by congruence; by apply Ha in Hm.
Qed.
