(* ===== verification/JsonRaw.v ===== *)
(** * JSON whose text is kept, and values without a type.

    A [json.RawMessage] is the text of a value as it stands in the document; a
    [map[string]interface{}] has the last value of each key, and is marshalled with its keys in
    order.  How [encoding/json] prints the [float64] of a number literal is a parameter. *)

From S2P Require Import Prelude GoStrings Regex Json JsonDecode OpenSpec.

(** ** The text of a value *)

(** The text of the value at the front of a string, and what follows it. *)
Definition raw_value (s : string) : option (string * string) :=
  let s := skip_ws s in
  '(_, rest) ← parse_value (S (2 * String.length s)) s;
  Some (str_take (String.length s - String.length rest) s, rest).

Fixpoint raw_elems (fuel : nat) (s : string) : list string :=
  match fuel with
  | 0 => []
  | S fuel =>
      match raw_value s with
      | Some (v, rest) =>
          match skip_ws rest with
          | String ","%char rest => v :: raw_elems fuel rest
          | _ => [v]
          end
      | None => []
      end
  end.

Fixpoint raw_pairs (fuel : nat) (s : string) : list (string * string) :=
  match fuel with
  | 0 => []
  | S fuel =>
      match skip_ws s with
      | String "034"%char t =>
          match scan_string t with
          | Some (k, rest) =>
              match skip_ws rest with
              | String ":"%char rest =>
                  match raw_value rest with
                  | Some (v, rest) =>
                      (unquote k, v) ::
                      match skip_ws rest with String ","%char rest => raw_pairs fuel rest | _ => [] end
                  | None => []
                  end
              | _ => []
              end
          | None => []
          end
      | _ => []
      end
  end.

(** The elements of an array, and the members of an object, of a valid document: their texts. *)
Definition raw_array (s : string) : list string :=
  match skip_ws s with
  | String "["%char t => raw_elems (String.length t) t
  | _ => []
  end.
Definition raw_object (s : string) : list (string * string) :=
  match skip_ws s with
  | String "{"%char t => raw_pairs (String.length t) t
  | _ => []
  end.

(** The texts of the members that a field of a struct gets, the last one counts. *)
Definition raw_field (name : string) (members : list (string * string)) : option string :=
  last (snd <$> filter (fun m => EqualFold m.1 name = true) members).

(** ** Values without a type *)

Section marshal.
Variable float : string -> string.

(** The last value of each key, in the order of the keys. *)
Definition last_values {A} (members : list (string * A)) : list (string * A) :=
  omap (fun k => (fun v => (k, v)) <$> last (snd <$> filter (fun m => m.1 = k) members))
    (sort_strings (remove_dups (fst <$> members))).

(** [json.Marshal] of a value that was decoded into an [interface{}]. *)
Fixpoint Marshal (v : json) : string :=
  match v with
  | JNull => "null"
  | JBool b => if b then "true" else "false"
  | JNum lit => float lit
  | JStr raw => dquote +:+ quote_json (unquote raw) +:+ dquote
  | JArr l => "[" +:+ Join (map Marshal l) "," +:+ "]"
  | JObj l =>
      "{" +:+ Join ((fun m : string * string => dquote +:+ quote_json m.1 +:+ dquote +:+ ":" +:+ m.2) <$>
                      last_values (map (fun m => (unquote m.1, Marshal m.2)) l)) "," +:+ "}"
  end.
End marshal.

Definition q (s : string) : string := dquote +:+ s +:+ dquote.

Example raw_ex :
  raw_object ("{" +:+ q "a" +:+ " : [1, 2] , " +:+ q "b" +:+ ":{" +:+ q "x" +:+ ": 3 }}") =
    [("a", "[1, 2]"); ("b", "{" +:+ q "x" +:+ ": 3 }")] /\
  raw_array "[ 1 ,[2, 3], null]" = ["1"; "[2, 3]"; "null"] /\
  Marshal (fun s => s) (JObj [("b", JNum "1"); ("a", JStr "<"); ("b", JArr [])]) =
    "{" +:+ q "a" +:+ ":" +:+ q "\u003c" +:+ "," +:+ q "b" +:+ ":[]}".
Proof. vm_compute. done. Qed.
