(* ===== verification/PiEvents.v ===== *)
(** * The events of the agent, and the loop that reads them: [internal/sidecar/gateway.go].

    The agent writes a JSON document on each line of its output.  The sidecar copies the lines
    into a log, writes a readable log next to it, finds errors of the model, and stops an agent
    that repeats a tool call.  The time of day that a line of the log begins with is an argument,
    and so is the way in which [encoding/json] prints a number. *)

From S2P Require Import Prelude GoStrings Regex Json JsonDecode OpenSpec JsonRaw.
(** ** Decoding *)

(** [internal/sidecar/gateway.go:1400-1405] piEvent *)
Record piEvent := {
  pe_Type : string; pe_Message : option json; pe_AssistantMsgEvent : option json;
  pe_ToolResults : option json;
}.

(** [internal/sidecar/gateway.go:1408-1415] piAssistantEvent *)
Record piAssistantEvent := {
  pa_Type : string; pa_Delta : string; pa_Content : string; pa_Tool : option json;
  pa_Partial : option json;
}.

(** An object decoded into a map: none for [null], an error for anything else. *)
Definition dec_map : dec (option (list (string * json))) := fun cur v =>
  match v with
  | JObj l => (Some (default [] cur ++ ((fun m => (unquote m.1, m.2)) <$> l)), true)
  | JNull => (None, true)
  | _ => (cur, false)
  end.

(** [internal/sidecar/gateway.go:1418-1423] piToolCallBlock *)
Record piToolCallBlock := { pb_Type : string; pb_Name : string; pb_Arguments : option (list (string * json)) }.

(** [internal/sidecar/gateway.go:1426-1429] piToolInfo *)
Record piToolInfo := { pt_Name : string; pt_Input : option (list (string * json)) }.

Definition dec_piEvent : dec piEvent := dec_struct
  [("type", at_field pe_Type (fun x e => {| pe_Type := x; pe_Message := pe_Message e;
      pe_AssistantMsgEvent := pe_AssistantMsgEvent e; pe_ToolResults := pe_ToolResults e |}) dec_string);
   ("message", at_field pe_Message (fun x e => {| pe_Type := pe_Type e; pe_Message := x;
      pe_AssistantMsgEvent := pe_AssistantMsgEvent e; pe_ToolResults := pe_ToolResults e |}) dec_raw);
   ("assistantMessageEvent", at_field pe_AssistantMsgEvent (fun x e => {| pe_Type := pe_Type e;
      pe_Message := pe_Message e; pe_AssistantMsgEvent := x; pe_ToolResults := pe_ToolResults e |}) dec_raw);
   ("toolResults", at_field pe_ToolResults (fun x e => {| pe_Type := pe_Type e; pe_Message := pe_Message e;
      pe_AssistantMsgEvent := pe_AssistantMsgEvent e; pe_ToolResults := x |}) dec_raw)].

Definition with_pa (ty delta content : string) (tool partial : option json) : piAssistantEvent :=
  {| pa_Type := ty; pa_Delta := delta; pa_Content := content; pa_Tool := tool; pa_Partial := partial |}.

Definition dec_assistant : dec piAssistantEvent := dec_struct
  [("type", at_field pa_Type (fun x a => with_pa x (pa_Delta a) (pa_Content a) (pa_Tool a) (pa_Partial a)) dec_string);
   ("delta", at_field pa_Delta (fun x a => with_pa (pa_Type a) x (pa_Content a) (pa_Tool a) (pa_Partial a)) dec_string);
   ("content", at_field pa_Content (fun x a => with_pa (pa_Type a) (pa_Delta a) x (pa_Tool a) (pa_Partial a)) dec_string);
   ("tool", at_field pa_Tool (fun x a => with_pa (pa_Type a) (pa_Delta a) (pa_Content a) x (pa_Partial a)) dec_raw);
   ("partial", at_field pa_Partial (fun x a => with_pa (pa_Type a) (pa_Delta a) (pa_Content a) (pa_Tool a) x) dec_raw)].

Definition dec_tool : dec piToolInfo := dec_struct
  [("name", at_field pt_Name (fun x t => {| pt_Name := x; pt_Input := pt_Input t |}) dec_string);
   ("input", at_field pt_Input (fun x t => {| pt_Name := pt_Name t; pt_Input := x |}) dec_map)].

Definition dec_call_block : dec piToolCallBlock := dec_struct
  [("type", at_field pb_Type (fun x b => {| pb_Type := x; pb_Name := pb_Name b; pb_Arguments := pb_Arguments b |}) dec_string);
   ("name", at_field pb_Name (fun x b => {| pb_Type := pb_Type b; pb_Name := x; pb_Arguments := pb_Arguments b |}) dec_string);
   ("id", fun b v => (b, (dec_string "" v).2));
   ("arguments", at_field pb_Arguments (fun x b => {| pb_Type := pb_Type b; pb_Name := pb_Name b; pb_Arguments := x |}) dec_map)].

Definition zero_event : piEvent :=
  {| pe_Type := ""; pe_Message := None; pe_AssistantMsgEvent := None; pe_ToolResults := None |}.
Definition zero_assistant : piAssistantEvent := with_pa "" "" "" None None.
Definition zero_tool : piToolInfo := {| pt_Name := ""; pt_Input := None |}.
Definition zero_block : piToolCallBlock := {| pb_Type := ""; pb_Name := ""; pb_Arguments := None |}.

(** The value of a key that is a string. *)
Definition text_at (k : string) (m : list (string * json)) : option string :=
  match last (snd <$> filter (fun kv => kv.1 = k) m) with
  | Some (JStr raw) => Some (unquote raw)
  | _ => None
  end.

Section float.
Variable float : string -> string.

Definition marshal_map (m : list (string * json)) : string :=
  "{" +:+ Join ((fun kv : string * string => dquote +:+ quote_json kv.1 +:+ dquote +:+ ":" +:+ kv.2) <$>
                  last_values ((fun kv => (kv.1, Marshal float kv.2)) <$> m)) "," +:+ "}".

(** ** The readable log *)

Definition cut_at (n : nat) (s : string) : string :=
  if (n <? String.length s)%nat then str_take n s +:+ "..." else s.

(** [internal/sidecar/gateway.go:1544-1569] summarizeToolInput *)
Definition summarizeToolInput (input : option (list (string * json))) : string :=
  match input with
  | None => ""
  | Some m =>
      match text_at "command" m with
      | Some cmd => cut_at 120 cmd
      | None =>
          match text_at "file_path" m with
          | Some fp => fp
          | None => cut_at 120 (marshal_map m)
          end
      end
  end.

Definition stamp (ts text : string) : string := "[" +:+ ts +:+ "] " +:+ text +:+ newline.
Definition rule_line : string := Join (replicate 20 "─") "".

(** [internal/sidecar/gateway.go:1501-1525] formatPiEvent: the end of a turn *)
Definition format_turn_end (ts : string) (results : option json) : string :=
  match results with
  | Some (JArr l) =>
      if forallb (fun r => match r with JObj _ | JNull => true | _ => false end) l then
        Join ((fun r => match r with
          | JObj m =>
              match text_at "output" ((fun kv => (unquote kv.1, kv.2)) <$> m) with
              | None | Some "" => ""
              | Some output => Join ((fun ol => "  │ " +:+ ol +:+ newline) <$> Split output "010"%char) ""
              end
          | _ => ""
          end) <$> l) "" +:+ stamp ts rule_line
      else stamp ts rule_line
  | _ => stamp ts rule_line
  end.

(** [internal/sidecar/gateway.go:1462-1498] formatPiEvent: an update of a message, with the text
    that has been collected *)
Definition format_update (ts buf : string) (ame : piAssistantEvent) : string * string :=
  match pa_Type ame with
  | "text_delta" => (buf +:+ pa_Delta ame, "")
  | "text_end" =>
      let text := if String.eqb buf "" then pa_Content ame else buf in
      ("", if String.eqb text "" then "" else stamp ts ("🤖 " +:+ text))
  | "tool_use" =>
      (buf, match pa_Tool ame with
            | None => stamp ts "🔧 tool_use"
            | Some v => match decoded zero_tool dec_tool v with
                        | None => stamp ts "🔧 tool_use"
                        | Some tool => stamp ts ("🔧 " +:+ pt_Name tool +:+ ": " +:+ summarizeToolInput (pt_Input tool))
                        end
            end)
  | _ => (buf, "")
  end.

(** [internal/sidecar/gateway.go:1452-1540] formatPiEvent: an event *)
Definition format_event (ts buf : string) (evt : piEvent) : string * string :=
  match pe_Type evt with
  | "message_start" => ("", "")
  | "message_update" =>
      match pe_AssistantMsgEvent evt with
      | None => (buf, "")
      | Some v => match decoded zero_assistant dec_assistant v with
                  | None => (buf, "")
                  | Some ame => format_update ts buf ame
                  end
      end
  | "message_end" => ("", if String.eqb buf "" then "" else stamp ts ("🤖 " +:+ buf))
  | "turn_end" => (buf, format_turn_end ts (pe_ToolResults evt))
  | "agent_end" => (buf, stamp ts "Agent finished")
  | _ => (buf, "")
  end.

(** [internal/sidecar/gateway.go:1433-1541] formatPiEvent: the collected text, and what is
    written *)
Definition formatPiEvent (ts buf line : string) : string * string :=
  let trimmed := TrimSpace line in
  if String.eqb trimmed "" then (buf, "")
  else if negb (HasPrefix trimmed "{") then (buf, stamp ts trimmed)
  else match Unmarshal zero_event dec_piEvent trimmed with
       | None => (buf, stamp ts trimmed)
       | Some evt => format_event ts buf evt
       end.

(** ** Tool calls *)

Definition no_input (m : option (list (string * json))) : string :=
  match m with None => "" | Some m => marshal_map m end.

(** [internal/sidecar/gateway.go:2034-2068] extractToolFromEvent *)
Definition extractToolFromEvent (ame : piAssistantEvent) : string * string :=
  let from_partial :=
    v ← pa_Partial ame;
    blocks ← decoded [] (dec_struct [("content", dec_list zero_block dec_call_block)]) v;
    first_some (fun b => if String.eqb (pb_Type b) "toolCall" && negb (String.eqb (pb_Name b) "")
                         then Some (pb_Name b, no_input (pb_Arguments b)) else None) blocks in
  match from_partial with
  | Some r => r
  | None =>
      match pa_Tool ame ≫= decoded zero_tool dec_tool with
      | Some tool => if String.eqb (pt_Name tool) "" then ("", "") else (pt_Name tool, no_input (pt_Input tool))
      | None => ("", "")
      end
  end.
End float.

Definition dec_sig_event : dec (string * option (option json)) := dec_struct
  [("type", at_field fst (fun x e => (x, e.2)) dec_string);
   ("message", at_field snd (fun x e => (e.1, x)) (dec_pointer None (dec_struct [("content", dec_raw)])))].

Definition dec_sig_block : dec (string * string) := dec_struct
  [("type", at_field fst (fun x b => (x, b.2)) dec_string);
   ("name", at_field snd (fun x b => (b.1, x)) dec_string);
   ("input", fun b _ => (b, true))].

(** The text of the content of the message of an event. *)
Definition content_text (line : string) : string :=
  default "" (raw_field "content"
    (concat ((fun m => raw_object m.2) <$> filter (fun m => EqualFold m.1 "message" = true) (raw_object line)))).

(** [internal/sidecar/gateway.go:2283-2311] extractToolCallSignature: the name of the tool and the
    length of its input *)
Definition extractToolCallSignature (line : string) : string :=
  match Unmarshal ("", None) dec_sig_event line with
  | Some (ty, Some (Some content)) =>
      if String.eqb ty "message_end" then
        match decoded [] (dec_list ("", "") dec_sig_block) content with
        | Some blocks =>
            default "" (first_some (fun b : (string * string) * string =>
              if String.eqb b.1.1 "tool_use" then
                Some (b.1.2 +:+ ":" +:+ Itoa (Z.of_nat (String.length (default "" (raw_field "input" (raw_object b.2))))))
              else None) (zip blocks (raw_array (content_text line))))
        | None => ""
        end
      else ""
  | _ => ""
  end.

(** [internal/sidecar/gateway.go:594-618] detectLLMError: the error that a line reports *)
Definition detectLLMError (line : string) : option string :=
  match Unmarshal ("", None) (dec_struct
          [("type", at_field fst (fun x e => (x, e.2)) dec_string);
           ("message", at_field snd (fun x e => (e.1, x)) (dec_pointer ("", "") (dec_struct
              [("stopReason", at_field fst (fun x m => (x, m.2)) dec_string);
               ("errorMessage", at_field snd (fun x m => (m.1, x)) dec_string)])))]) line with
  | Some (ty, Some (reason, msg)) =>
      if String.eqb ty "message_end" && String.eqb reason "error" then
        Some (if String.eqb msg "" then "LLM returned stopReason:error with no message" else msg)
      else None
  | _ => None
  end.

(** * Reading the agent's output: the loop of [startReaders] in [internal/sidecar/gateway.go] *)

(** [internal/sidecar/gateway.go:622-622] maxRepeatedToolCalls *)
Definition maxRepeatedToolCalls : nat := 5.

(** [internal/sidecar/gateway.go:639-641] startReaders: the state of the loop detection *)
Record loop_state := { ls_lastToolSig : string; ls_repeatCount : nat }.

Definition no_calls : loop_state := {| ls_lastToolSig := ""; ls_repeatCount := 0 |}.

(** [internal/sidecar/gateway.go:649-663] startReaders: a signature; [None] is the end of the
    agent *)
Definition loop_step (st : loop_state) (sig : string) : option loop_state :=
  if String.eqb sig "" then Some st
  else if String.eqb sig (ls_lastToolSig st) then
    let n := S (ls_repeatCount st) in
    if (maxRepeatedToolCalls <=? n)%nat then None
    else Some {| ls_lastToolSig := sig; ls_repeatCount := n |}
  else Some {| ls_lastToolSig := sig; ls_repeatCount := 1 |}.

(** What the reader of the standard output has done: the lines in [agent.jsonl], the text in
    [agent.log], the text it collects, and the error of the model that the process keeps. *)
Record reader := {
  rd_loop : loop_state; rd_jsonl : list string; rd_log : string; rd_textBuf : string;
  rd_llmError : string;
}.

Definition fresh_reader : reader :=
  {| rd_loop := no_calls; rd_jsonl := []; rd_log := ""; rd_textBuf := ""; rd_llmError := "" |}.

Section stream.
Variable float : string -> string.

(** [internal/sidecar/gateway.go:643-690] startReaders: a line of the standard output, read at a
    time of day *)
Definition read_line (r : reader) (tl : string * string) : option reader :=
  let '(ts, line) := tl in
  loop ← loop_step (rd_loop r) (extractToolCallSignature line);
  let '(buf, formatted) := formatPiEvent float ts (rd_textBuf r) line in
  Some {| rd_loop := loop; rd_jsonl := rd_jsonl r ++ [line]; rd_log := rd_log r +:+ formatted;
          rd_textBuf := buf;
          rd_llmError := if String.eqb (rd_llmError r) ""
                         then default "" (detectLLMError line) else rd_llmError r |}.

(** [internal/sidecar/gateway.go:643-711] startReaders: the standard output; whether the agent was
    killed *)
Fixpoint read_stdout (r : reader) (lines : list (string * string)) : reader * bool :=
  match lines with
  | [] => (r, false)
  | l :: lines => match read_line r l with
                  | None => (r, true)
                  | Some r => read_stdout r lines
                  end
  end.

(** [internal/sidecar/gateway.go:691-698] startReaders: a line of the standard error *)
Definition stderr_entry (ts line : string) : string := "[" +:+ ts +:+ "] STDERR: " +:+ line +:+ newline.
End stream.

(** ** The loop detection *)

Fixpoint loop_run (st : loop_state) (sigs : list string) : option loop_state :=
  match sigs with
  | [] => Some st
  | sig :: sigs => st ← loop_step st sig; loop_run st sigs
  end.

(** The signatures that count. *)
Definition tool_calls (sigs : list string) : list string := filter (fun s => s <> "") sigs.

(** The calls that a state remembers. *)
Definition remembered (st : loop_state) : list string := replicate (ls_repeatCount st) (ls_lastToolSig st).

(** Some call stands five times in a row. *)
Definition repeats (l : list string) : Prop :=
  exists pre s post, l = pre ++ replicate maxRepeatedToolCalls s ++ post.

Definition loop_ok (st : loop_state) : Prop :=
  (ls_repeatCount st < maxRepeatedToolCalls)%nat /\
  (ls_lastToolSig st = "" <-> ls_repeatCount st = 0%nat).

Lemma loop_step_ok st sig st' : loop_ok st -> loop_step st sig = Some st' -> loop_ok st'.
Proof.
  unfold loop_ok, loop_step, maxRepeatedToolCalls. intros [Hlt Hz].
  destruct (String.eqb_spec sig "") as [->|Hs]; [by intros [= <-]|].
  destruct (String.eqb_spec sig (ls_lastToolSig st)) as [Hl|Hl].
  - destruct (Nat.leb_spec 5 (S (ls_repeatCount st))); [done|]. intros [= <-]. simpl. split; [lia|naive_solver].
  - intros [= <-]. simpl. split; [lia|naive_solver].
Qed.

Lemma repeats_short n s : (n < maxRepeatedToolCalls)%nat -> ~ repeats (replicate n s).
Proof.
  intros Hn (pre & x & post & H). apply (f_equal length) in H.
  rewrite !length_app, !length_replicate in H. lia.
Qed.

Lemma repeats_app l k : repeats k -> repeats (l ++ k).
Proof. intros (pre & s & post & ->). exists (l ++ pre), s, post. by rewrite <- app_assoc. Qed.

(** A short run of one call does not matter before another call. *)
Lemma repeats_other n x y l :
  (n < maxRepeatedToolCalls)%nat -> x <> y -> repeats (replicate n x ++ y :: l) <-> repeats (y :: l).
Proof.
  intros Hn Hxy. split; [|apply repeats_app]. intros (pre & s & post & H).
  destruct (decide (length pre < n)%nat) as [Hlt|Hge].
  - exfalso.
    assert (forall i, (length pre <= i < length pre + maxRepeatedToolCalls)%nat ->
              (replicate n x ++ y :: l) !! i = Some s) as Hs.
    { intros i Hi. rewrite H, lookup_app_r by lia. rewrite lookup_app_l by (rewrite length_replicate; lia).
      apply lookup_replicate. split; [done|lia]. }
    pose proof (Hs (length pre) ltac:(unfold maxRepeatedToolCalls; lia)) as Hx.
    pose proof (Hs n ltac:(lia)) as Hy.
    rewrite lookup_app_l in Hx by (rewrite length_replicate; lia).
    rewrite lookup_app_r in Hy by (rewrite length_replicate; lia).
    rewrite length_replicate, Nat.sub_diag in Hy. apply lookup_replicate in Hx as [-> _]. by simplify_eq/=.
  - exists (drop n pre), s, post.
    apply (f_equal (drop n)) in H. rewrite drop_app_length' in H by (by rewrite length_replicate).
    by rewrite H, drop_app_le by lia.
Qed.

Lemma loop_run_repeats st sigs :
  loop_ok st -> loop_run st sigs = None <-> repeats (remembered st ++ tool_calls sigs).
Proof.
  revert st. induction sigs as [|sig sigs IH]; intros st Hok; simpl.
  { rewrite app_nil_r. split; [done|]. intros H. exfalso. by apply (repeats_short _ _ (proj1 Hok)) in H. }
  unfold tool_calls. rewrite filter_cons.
  destruct (loop_step st sig) as [st'|] eqn:E; simpl.
  - rewrite (IH st') by (by eapply loop_step_ok). unfold loop_step in E.
    destruct (String.eqb_spec sig "") as [->|Hs].
    { simplify_eq. by rewrite decide_False by tauto. }
    rewrite decide_True by done. destruct (String.eqb_spec sig (ls_lastToolSig st)) as [->|Hl].
    + destruct (_ <=? _)%nat; [done|]. simplify_eq. unfold remembered. simpl ls_repeatCount. simpl ls_lastToolSig.
      by rewrite replicate_S_end, <- app_assoc.
    + simplify_eq. unfold remembered. simpl. symmetry. apply repeats_other; [apply Hok|done].
  - unfold loop_step in E. destruct (String.eqb_spec sig "") as [->|Hs]; [done|].
    rewrite decide_True by done. destruct (String.eqb_spec sig (ls_lastToolSig st)) as [->|Hl]; [|done].
    destruct (Nat.leb_spec maxRepeatedToolCalls (S (ls_repeatCount st))) as [Hn|]; [|done].
    split; [intros _|done]. destruct Hok as [Hlt _].
    exists [], (ls_lastToolSig st), (filter (fun s => s <> "") sigs). unfold remembered.
    assert (maxRepeatedToolCalls = S (ls_repeatCount st)) as -> by lia.
    by rewrite replicate_S_end, <- app_assoc.
Qed.

Section reading.
Variable float : string -> string.

Lemma read_line_loop r tl r' :
  read_line float r tl = Some r' -> loop_step (rd_loop r) (extractToolCallSignature tl.2) = Some (rd_loop r').
Proof.
  unfold read_line. destruct tl as [ts line]. destruct (loop_step _ _); simpl; [|done].
  destruct (formatPiEvent _ _ _ _). by intros [= <-].
Qed.

Lemma read_line_None r tl :
  read_line float r tl = None <-> loop_step (rd_loop r) (extractToolCallSignature tl.2) = None.
Proof.
  unfold read_line. destruct tl as [ts line]. destruct (loop_step _ _); simpl; [|done].
  by destruct (formatPiEvent _ _ _ _).
Qed.

Lemma read_stdout_killed r lines :
  (read_stdout float r lines).2 = true <->
  loop_run (rd_loop r) (extractToolCallSignature <$> lines.*2) = None.
Proof.
  revert r. induction lines as [|l lines IH]; intros r; simpl; [done|].
  destruct (read_line float r l) as [r'|] eqn:E.
  - rewrite IH. by rewrite (read_line_loop _ _ _ E).
  - apply read_line_None in E. by rewrite E.
Qed.

(** The reader kills the agent exactly when its output has the same tool call five times in a
    row, lines without a tool call not counting; the calls are compared by the name of the tool
    and the length of the input. *)
Theorem loop_killed lines :
  (read_stdout float fresh_reader lines).2 = true <->
  repeats (tool_calls (extractToolCallSignature <$> lines.*2)).
Proof. rewrite read_stdout_killed. apply loop_run_repeats. split; [vm_compute; lia|done]. Qed.

(** Until then every line is copied. *)
Lemma read_stdout_copies r lines :
  exists n, rd_jsonl (read_stdout float r lines).1 = rd_jsonl r ++ take n lines.*2 /\
    ((read_stdout float r lines).2 = false -> n = length lines).
Proof.
  revert r. induction lines as [|[ts l] lines IH]; intros r; simpl; [exists 0%nat; by rewrite app_nil_r|].
  destruct (loop_step _ _); simpl; [|exists 0%nat; by rewrite app_nil_r].
  destruct (formatPiEvent _ _ _ _). edestruct IH as (n & Hn & Hl). rewrite Hn. simpl.
  exists (S n). rewrite <- app_assoc. split; [done|]. intros H. f_equal. by apply Hl.
Qed.

(** ** The readable log *)

(** The text that events write, one after the other. *)
Fixpoint write_events (ts buf : string) (evts : list piEvent) : string * string :=
  match evts with
  | [] => (buf, "")
  | e :: evts =>
      let r := format_event float ts buf e in
      let r' := write_events ts r.1 evts in (r'.1, r.2 +:+ r'.2)
  end.

Definition update (ame : json) : piEvent :=
  {| pe_Type := "message_update"; pe_Message := None; pe_AssistantMsgEvent := Some ame; pe_ToolResults := None |}.
Definition event (ty : string) : piEvent :=
  {| pe_Type := ty; pe_Message := None; pe_AssistantMsgEvent := None; pe_ToolResults := None |}.

(** The event of a fragment of text. *)
Definition is_delta (v : json) (d : string) : Prop :=
  exists ame, decoded zero_assistant dec_assistant v = Some ame /\ pa_Type ame = "text_delta" /\ pa_Delta ame = d.

Lemma Join_cons_empty d ds : Join (d :: ds) "" = d +:+ Join ds "".
Proof. destruct ds; simpl; [by rewrite str_app_nil_r|done]. Qed.

Lemma write_deltas ts buf vs ds rest :
  Forall2 is_delta vs ds ->
  write_events ts buf ((update <$> vs) ++ rest) = write_events ts (buf +:+ Join ds "") rest.
Proof.
  intros H. revert buf. induction H as [|v d vs ds (ame & Hv & Ht & Hd) _ IH]; intros buf.
  { simpl. by rewrite str_app_nil_r. }
  rewrite Join_cons_empty, <- str_app_assoc, <- IH. simpl.
  unfold format_event at 1 2 3. simpl. rewrite Hv. unfold format_update. rewrite Ht, Hd. simpl.
  by destruct (write_events _ _ _).
Qed.

(** A message is written once, as one line, when it ends, whatever fragments it came in. *)
Theorem message_written_once ts buf vs ds :
  Forall2 is_delta vs ds -> Join ds "" <> "" ->
  write_events ts buf (event "message_start" :: (update <$> vs) ++ [event "message_end"]) =
    ("", stamp ts ("🤖 " +:+ Join ds "")).
Proof.
  intros H Hne. simpl. rewrite write_deltas with (ds := ds) by done. simpl.
  destruct (String.eqb_spec (Join ds "") "") as [?|_]; [done|].
  by rewrite str_app_nil_r.
Qed.
End reading.

(** The line in which a message ends with a tool call. *)
Definition call_line (name input : string) : string :=
  "{" +:+ q "type" +:+ ":" +:+ q "message_end" +:+ "," +:+ q "message" +:+ ":{" +:+ q "content" +:+ ":[{" +:+
  q "type" +:+ ":" +:+ q "tool_use" +:+ "," +:+ q "name" +:+ ":" +:+ q name +:+ "," +:+ q "input" +:+ ":" +:+ input +:+ "}]}}".

(** Different inputs of one length are one call to the loop detection. *)
Example signature_is_the_length :
  extractToolCallSignature (call_line "read" "[1]") = "read:3" /\
  extractToolCallSignature (call_line "read" "[2]") = "read:3" /\
  extractToolCallSignature (call_line "read" "[2, 3]") = "read:6".
Proof. vm_compute. done. Qed.

Example five_files_are_a_loop :
  (read_stdout (fun s => s) fresh_reader ((fun n => ("", call_line "read" n)) <$> ["1"; "2"; "3"; "4"; "5"])).2 = true.
Proof. vm_compute. done. Qed.
