(* ===== verification/AgentLaunch.v ===== *)
(** * Starting the agent: the command line, the environment, the working directory and the limits
    of [internal/sidecar/gateway.go].

    The environment of the sidecar is a list of its variables, its files are a tree; durations
    are in seconds. *)

From S2P Require Import Prelude GoStrings Regex Files.

Local Open Scope Z_scope.
Local Open Scope unc_scope.

(** [internal/sidecar/gateway.go:439-450] stageSystemPrompt: the text *)
Definition plan_prompt : string :=
  Join ["You are a manage agent (unc). Create an OpenSpec change following the instructions in your prompt.";
        "";
        "Key rules:";
        "- The OpenSpec workspace is at /workspace — run ALL openspec commands from /workspace (cd /workspace && openspec ...)";
        "- The repo source code is in /workspace/<reponame>/ — read code there to understand the codebase";
        "- Use openspec CLI to get templates: openspec instructions proposal/specs/tasks --change <name>";
        "- Write spec files to the paths specified in your prompt (under /workspace/openspec/changes/)";
        "- After writing, run openspec validate to check your work and fix any errors";
        "- Each requirement MUST use SHALL or MUST. Each MUST have WHEN/THEN scenarios.";
        "- Do NOT implement any code. Only create spec artifacts.";
        "- Keep task count proportional to scope. A simple change: 3-8 tasks. Complex: 10-20.";
        "- Be thorough in acceptance criteria — they will be used to verify the implementation."] newline.

(** [internal/sidecar/gateway.go:453-476] stageSystemPrompt: the text *)
Definition execute_prompt : string :=
  Join ["You are an implement agent (neph). Implement a spec-driven change.";
        "";
        "Use the openspec CLI to understand your work:";
        "  cd /workspace && openspec instructions tasks --change <change-name>   # see your task checklist";
        "  cd /workspace && openspec show <change-name>                          # see full change details";
        "  cd /workspace && openspec list --json                                 # check task completion status";
        "";
        "Steps:";
        "1. Run: ls /workspace/ to find the repo and the openspec change name";
        "2. Run: cd /workspace && openspec show <change-name> to understand the full spec";
        "3. Read the specs at /workspace/openspec/changes/<change-name>/specs/*/spec.md for WHEN/THEN acceptance criteria";
        "4. Read /workspace/openspec/changes/<change-name>/tasks.md for your implementation checklist";
        "5. Implement each task in the repo code";
        "6. After completing each task, mark it [x] in tasks.md (openspec tracks completion via these checkboxes)";
        "7. Run: cd /workspace && openspec list --json to verify all tasks show as complete";
        "8. Run any test/build commands referenced in the specs";
        "";
        "The repo is at /workspace/<reponame>/. OpenSpec artifacts are at /workspace/openspec/.";
        "Verification checks openspec list for task completion — tasks not marked [x] will fail verification.";
        "";
        "When all tasks are complete, write your commit message to /workspace/.aot/commit_message.txt:";
        "  echo " +:+ dquote +:+ "type(scope): short description" +:+ dquote +:+ " > /workspace/.aot/commit_message.txt";
        "";
        "Use conventional commits format (feat/fix/refactor/docs/test/chore/perf). Max 72 chars."] newline.

(** [internal/sidecar/gateway.go:479-488] stageSystemPrompt: the text *)
Definition verify_prompt : string :=
  Join ["You are a manage agent (unc) performing verification.";
        "";
        "1. Read specs at /workspace/openspec/changes/*/specs/*/spec.md";
        "2. For each WHEN/THEN scenario, check the implementation";
        "3. Run any test/build commands referenced in scenarios";
        "4. Check /workspace/openspec/changes/*/tasks.md — all tasks must be [x]";
        "5. Run: cd /workspace && openspec validate --json";
        "6. Run: cd /workspace && openspec list --json";
        "";
        "Output JSON: {" +:+ dquote +:+ "pass" +:+ dquote +:+ ": true/false, " +:+ dquote +:+ "criteria" +:+ dquote +:+ ": [{" +:+ dquote +:+ "scenario" +:+ dquote +:+ ": " +:+ dquote +:+ "..." +:+ dquote +:+ ", " +:+ dquote +:+ "pass" +:+ dquote +:+ ": true/false, " +:+ dquote +:+ "explanation" +:+ dquote +:+ ": " +:+ dquote +:+ "..." +:+ dquote +:+ "}]}"] newline.

(** [internal/sidecar/gateway.go:495-509] stageSystemPrompt: the text *)
Definition single_prompt : string :=
  Join ["You are a coding agent. Your current working directory is the root of the git repository.";
        "";
        "Key rules:";
        "- Use RELATIVE paths (e.g. " +:+ dquote +:+ "src/foo.go" +:+ dquote +:+ ", " +:+ dquote +:+ "README.md" +:+ dquote +:+ ") for ALL file operations. Never write to /workspace directly.";
        "- DO NOT run git add, git commit, or git push — the system handles all git operations automatically after you finish.";
        "- To verify Go code, run: devbox run go build ./... (Go is available via devbox, not in PATH directly).";
        "- If a build or test command fails or is slow, skip it and finish — CI will catch errors. Never get stuck waiting.";
        "";
        "When your changes are complete, write your commit message to /workspace/.aot/commit_message.txt:";
        "  echo " +:+ dquote +:+ "type(scope): short description" +:+ dquote +:+ " > /workspace/.aot/commit_message.txt";
        "";
        "Use conventional commits format. Valid types: feat, fix, refactor, docs, test, chore, perf";
        "The description must be 72 characters or fewer on the first line.";
        "Example: feat(ratelimit): add per-endpoint rate limiting for AgentRun creation";
        "The system reads this file to produce the final commit — do not skip this step."] newline.

(** [internal/sidecar/gateway.go:436-511] stageSystemPrompt *)
Definition stageSystemPrompt (stage : string) : string :=
  match stage with
  | "plan" => plan_prompt
  | "execute" => execute_prompt
  | "verify" => verify_prompt
  | _ => single_prompt
  end.

(** [internal/sidecar/gateway.go:514-523] stageToRole *)
Definition stageToRole (stage : string) : string :=
  match stage with
  | "plan" | "verify" => "manage"
  | "execute" => "implement"
  | _ => "implement"
  end.

(** ** The environment *)

(** [os.Getenv], in a list of [KEY=value] without duplicates. *)
Definition Getenv (environ : list string) (key : string) : string :=
  default "" (head (omap (fun kv => let '(k, v, ok) := Cut kv "=" in
    if ok && String.eqb k key then Some v else None) environ)).

(** [internal/sidecar/gateway.go:527-527] defaultMaxOutputTokens *)
Definition defaultMaxOutputTokens : Z := 32000.
(** [internal/sidecar/gateway.go:531-531] defaultMaxContextTokens *)
Definition defaultMaxContextTokens : Z := 180000.

Definition positive_or (d : Z) (v : string) : Z :=
  match Atoi v with Some n => if 0 <? n then n else d | None => d end.

(** [internal/sidecar/gateway.go:538-545] maxOutputTokens *)
Definition maxOutputTokens (environ : list string) : Z :=
  positive_or defaultMaxOutputTokens (Getenv environ "AGENT_MAX_OUTPUT_TOKENS").

(** [internal/sidecar/gateway.go:548-555] maxContextTokens *)
Definition maxContextTokens (environ : list string) : Z :=
  positive_or defaultMaxContextTokens (Getenv environ "AGENT_MAX_CONTEXT_TOKENS").

(** [internal/sidecar/gateway.go:559-568] checkOutputTokenBudget: the error *)
Definition checkOutputTokenBudget (environ : list string) (runOutputTokens : Z) : option string :=
  let budget := maxOutputTokens environ in
  if budget <=? runOutputTokens then
    Some ("failed: agent run exceeded output token budget (" +:+ Itoa runOutputTokens +:+ " >= " +:+ Itoa budget +:+ ")")
  else None.

Definition agentJSONLPath : string := "/workspace/.aot/logs/agent.jsonl".

(** [internal/sidecar/gateway.go:573-579] estimateContextTokens *)
Definition estimateContextTokens (t : tree) : Z :=
  match Stat t agentJSONLPath with
  | Some (File data) => Z.of_nat (String.length data) / 3
  | _ => 0
  end.

(** [internal/sidecar/gateway.go:2322-2333] execSafeEnv: the names that are taken out *)
Definition sensitive : list string :=
  ["OPENAI_API_KEY"; "ANTHROPIC_API_KEY"; "LITELLM_MASTER_KEY"; "LITELLM_API_KEY"; "GITHUB_TOKEN";
   "GITHUB_PAT"; "AOT_API_KEY"; "AWS_ACCESS_KEY_ID"; "AWS_SECRET_ACCESS_KEY"; "GOOGLE_API_KEY"].

Definition env_key (kv : string) : string :=
  match Index kv "=" with Some idx => str_take idx kv | None => kv end.

(** [internal/sidecar/gateway.go:2321-2345] execSafeEnv *)
Definition execSafeEnv (environ : list string) : list string :=
  filter (fun kv => env_key kv ∉ sensitive) environ.

(** ** Errors that are retried *)

(** [internal/sidecar/gateway.go:583-589] isOverloadedError *)
Definition isOverloadedError (s : string) : bool :=
  let lower := ToLower s in
  Contains lower "503" || Contains lower "overloaded" || Contains lower "service unavailable" ||
  Contains lower "overload".

(** [internal/sidecar/gateway.go:730-736] isRateLimitError *)
Definition isRateLimitError (stderrOutput : string) : bool :=
  let lower := ToLower stderrOutput in
  Contains lower "429" || Contains lower "ratelimiterror" || Contains lower "rate limit" ||
  Contains lower "rate_limit".

(** [internal/sidecar/gateway.go:720-720] maxRateLimitRetries *)
Definition maxRateLimitRetries : nat := 3.
(** [internal/sidecar/gateway.go:724-724] rateLimitBaseDelay *)
Definition rateLimitBaseDelay : Z := 10.
(** [internal/sidecar/gateway.go:727-727] rateLimitMaxDelay *)
Definition rateLimitMaxDelay : Z := 300.

(** [internal/sidecar/gateway.go:741-747] rateLimitDelay: the loop *)
Fixpoint double_delay (n : nat) (delay : Z) : Z :=
  match n with
  | O => delay
  | S n => let delay := delay * 2 in
           if rateLimitMaxDelay <? delay then rateLimitMaxDelay else double_delay n delay
  end.

(** [internal/sidecar/gateway.go:739-749] rateLimitDelay *)
Definition rateLimitDelay (attempt : Z) : Z := double_delay (Z.to_nat (attempt - 1)) rateLimitBaseDelay.

(** ** The working directory *)

(** [internal/sidecar/gateway.go:2267-2275] ResolveWorkDirAt: the directories that are passed
    over *)
Definition skipped_dirs : list string := [".bare"; ".aot"; ".devcontainer"; "openspec"; "spec"].

(** [internal/sidecar/gateway.go:2255-2279] ResolveWorkDirAt *)
Definition ResolveWorkDirAt (t : tree) (repoPath defaultBase : string) : string :=
  if negb (String.eqb repoPath defaultBase) then repoPath
  else if exists_ t (PathJoin defaultBase ".git") then defaultBase
  else match ReadDir t defaultBase with
       | None => repoPath
       | Some entries =>
           default defaultBase (head (omap (fun name =>
             let dir := PathJoin defaultBase name in
             if IsDir t dir && negb (bool_decide (name ∈ skipped_dirs)) && exists_ t (PathJoin dir ".git")
             then Some dir else None) entries))
       end.

(** [internal/sidecar/gateway.go:2243-2248] resolveWorkDir *)
Definition resolveWorkDir (t : tree) (repoPath : string) : string :=
  ResolveWorkDirAt t (if String.eqb repoPath "" then "/workspace" else repoPath) "/workspace".

(** [internal/sidecar/gateway.go:1285-1313] ExecCommand: the directory that a command is run in *)
Definition exec_dir (t : tree) (workingDir : string) : result string :=
  let workDir := if String.eqb workingDir "" then "/workspace" else workingDir in
  let cleanDir := Clean workDir in
  if negb (String.eqb cleanDir "/workspace") && negb (HasPrefix cleanDir "/workspace/") then
    Err ("invalid input: working directory " +:+ Quote workDir +:+ " is outside /workspace")
  else if exists_ t cleanDir then Ok cleanDir
  else if exists_ t "/workspace" then Ok "/workspace"
  else Ok ".".

(** [internal/sidecar/gateway.go:1315-1318] ExecCommand: the timeout *)
Definition exec_timeout (timeoutSeconds : Z) : Z := if timeoutSeconds <=? 0 then 30 else timeoutSeconds.

(** How [bash] ended: with an exit code, or it could not be run. *)
Inductive bash_end := BashExits (code_ : Z) | BashFails.

(** [internal/sidecar/gateway.go:1281-1349] ExecCommand: the code and the outputs, from what running
    the command in a directory and an environment with a timeout gives *)
Definition ExecCommand (t : tree) (environ : list string)
    (bash : string -> list string -> Z -> string -> bash_end * string * string)
    (workingDir command_ : string) (timeoutSeconds : Z) : result (Z * string * string) :=
  try dir := exec_dir t workingDir in
  let '(ended, stdout, stderr) := bash dir (execSafeEnv environ) (exec_timeout timeoutSeconds) command_ in
  Ok (match ended with BashExits c => c | BashFails => -1 end, stdout, stderr).

(** [internal/sidecar/gateway.go:1356-1392] SemanticSearch: the service, when there is one, is asked
    with a limit between one and fifty; its failure is an empty answer *)
Definition SemanticSearch {symbol} (environ : list string) (search : string -> string -> Z -> result (list symbol))
    (query : string) (limit : Z) : result (list symbol) :=
  if String.eqb query "" then Err "invalid input: query must not be empty"
  else
    let limit := if limit <=? 0 then 10 else limit in
    let limit := if 50 <? limit then 50 else limit in
    let endpoint := Getenv environ "CUDGEL_ENDPOINT" in
    if String.eqb endpoint "" then Ok []
    else match search endpoint query limit with Ok l => Ok l | Err _ => Ok [] end.

(** ** The command *)

(** A command: what is run, where and in which environment. *)
Record command := { cmd_Args : list string; cmd_Dir : string; cmd_Env : list string }.

Record start_request := {
  sr_AgentRunId : string; sr_Prompt : string; sr_RepoPath : string; sr_Stage : string;
  sr_EnvVars : list (string * string); sr_ParentSpanId : string; sr_TraceId : string;
}.

Definition aotExtensionPath : string := "/opt/aot/extensions/aot-determinism.ts".

(** [internal/sidecar/gateway.go:332-379] startAgentProcess: the command; the variables of the
    request come in some order *)
Definition agent_command (t : tree) (environ : list string) (req : start_request) : command :=
  let sp := stageSystemPrompt (sr_Stage req) in
  let model := Getenv environ "PI_MODEL" in
  {| cmd_Args :=
       ["-p"; "--mode"; "json"; "--no-session"] ++
       (if exists_ t aotExtensionPath then ["--extension"; aotExtensionPath] else []) ++
       (if String.eqb sp "" then [] else ["--system-prompt"; sp]) ++
       [sr_Prompt req] ++
       (if String.eqb model "" then [] else ["--model"; model]);
     cmd_Dir := resolveWorkDir t (sr_RepoPath req);
     cmd_Env :=
       environ ++ ["PI_LOG_LEVEL=debug"; "PI_ACCEPT_TOS=1"] ++
       (if String.eqb (sr_Stage req) "" then [] else ["PI_STAGE=" +:+ sr_Stage req]) ++
       ["PI_ROLE=" +:+ stageToRole (sr_Stage req)] ++
       ((fun kv : string * string => kv.1 +:+ "=" +:+ kv.2) <$> sr_EnvVars req) |}.

(** [internal/sidecar/gateway.go:997-1007] restartAgentProcessWithModel: the loop; whether a model
    was replaced *)
Fixpoint replace_model (model : string) (args : list string) : list string * bool :=
  match args with
  | [] => ([], false)
  | [a] => ([a], false)
  | a :: (old :: rest) as tail =>
      if String.eqb a "--model" then let r := replace_model model rest in ("--model" :: model :: r.1, true)
      else let r := replace_model model tail in (a :: r.1, r.2)
  end.

(** [internal/sidecar/gateway.go:992-1010] restartAgentProcessWithModel: the command *)
Definition with_model (c : command) (model : string) : command :=
  let r := replace_model model (cmd_Args c) in
  {| cmd_Args := if r.2 then r.1 else r.1 ++ ["--model"; model]; cmd_Dir := cmd_Dir c; cmd_Env := cmd_Env c |}.

(** The steps in which a start can fail. *)
Inductive launch_step := OpenNull | StdoutPipe | StderrPipe | MakeLogDir | OpenLog | OpenJSONL | StartCmd.

(** [internal/sidecar/gateway.go:383-421] startAgentProcess: the steps; the last message depends on
    the caller *)
Definition launch (fails : launch_step -> option string) (start_msg : string) : option string :=
  head (omap (fun sm : launch_step * string => (fun e => sm.2 +:+ ": " +:+ e) <$> fails sm.1)
    [(OpenNull, "open /dev/null"); (StdoutPipe, "stdout pipe"); (StderrPipe, "stderr pipe");
     (MakeLogDir, "create log dir"); (OpenLog, "open agent log"); (OpenJSONL, "open agent jsonl");
     (StartCmd, start_msg)]).

(** ** Properties *)

(** The delays double up to the limit. *)
Lemma double_delay_closed n d :
  0 <= d <= rateLimitMaxDelay -> double_delay n d = Z.min (d * 2 ^ Z.of_nat n) rateLimitMaxDelay.
Proof.
  unfold rateLimitMaxDelay. revert d. induction n as [|n IH]; intros d Hd; [simpl; lia|].
  cbn [double_delay]. unfold rateLimitMaxDelay. rewrite Nat2Z.inj_succ, Z.pow_succ_r by lia.
  pose proof (Z.pow_pos_nonneg 2 (Z.of_nat n) ltac:(lia) ltac:(lia)) as Hp.
  destruct (Z.ltb_spec 300 (d * 2)) as [Hl|Hl]; [rewrite Z.min_r; nia|].
  rewrite IH by lia. f_equal. lia.
Qed.

Lemma rateLimitDelay_closed attempt :
  1 <= attempt -> rateLimitDelay attempt = Z.min (10 * 2 ^ (attempt - 1)) 300.
Proof.
  intros H. unfold rateLimitDelay. rewrite double_delay_closed by (unfold rateLimitBaseDelay, rateLimitMaxDelay; lia).
  rewrite Z2Nat.id by lia. done.
Qed.

(** No variable that is taken out is left, and no other one is lost. *)
Lemma execSafeEnv_safe environ kv :
  kv ∈ execSafeEnv environ <-> kv ∈ environ /\ env_key kv ∉ sensitive.
Proof. unfold execSafeEnv. rewrite list_elem_of_filter. tauto. Qed.

(** A command is run in the workspace or below it, or, when there is no workspace, where the
    sidecar is. *)
Lemma exec_dir_confined t workingDir d :
  exec_dir t workingDir = Ok d ->
  d = "/workspace" \/ (d = "." /\ exists_ t "/workspace" = false) \/
  ((exists below, d = "/workspace/" +:+ below) /\ exists segs, d = "/" +:+ Join segs "/" /\ Forall (.≠ "..") segs).
Proof.
  unfold exec_dir. set (w := if String.eqb workingDir "" then _ else _).
  destruct (_ && _) eqn:E; [done|].
  destruct (exists_ t (Clean w)); [|destruct (exists_ t "/workspace") eqn:Ew; intros [= <-]; auto].
  intros [= <-]. apply andb_false_iff in E as [E|E]; breflect; [by left|right; right].
  apply HasPrefix_spec in E as [below Hb]. split; [by exists below|].
  destruct (IsAbs w) eqn:Ha.
  - apply HasPrefix_spec in Ha as [q ->]. apply Clean_segs.
  - exfalso. revert Hb. unfold Clean. rewrite Ha. set (segs := rev _).
    destruct (Clean_relative w Ha) as (c & rest & Hc & Hne). unfold Clean in Hc. rewrite Ha in Hc.
    fold segs in Hc. rewrite Hc. by intros [= ->].
Qed.

(** The agent works in the path that was asked for, or in a git repository at or right below the
    workspace; in the workspace itself when there is none. *)
Lemma resolveWorkDir_repo t repoPath :
  let d := resolveWorkDir t repoPath in
  (repoPath <> "" /\ repoPath <> "/workspace" /\ d = repoPath) \/ d = "/workspace" \/
  exists name, name ∉ skipped_dirs /\ d = PathJoin "/workspace" name /\ exists_ t (PathJoin d ".git") = true.
Proof.
  unfold resolveWorkDir, ResolveWorkDirAt. cbv zeta.
  destruct (String.eqb_spec repoPath "") as [->|Hr]; simpl negb.
  2: destruct (String.eqb_spec repoPath "/workspace") as [->|Hw]; simpl negb; cbv iota; [|by left].
  all: right; rewrite ?String.eqb_refl; simpl negb; cbv iota.
  all: destruct (exists_ t _); [by left|]; destruct (ReadDir t "/workspace") as [entries|]; [|by left].
  all: match goal with |- context [head ?l] => destruct l as [|d l'] eqn:E; [by left|right] end.
  all: simpl; assert (d ∈ d :: l') as Hd by constructor; rewrite <- E in Hd.
  all: apply list_elem_of_omap in Hd as (name & _ & Hn); exists name; cbv zeta in Hn.
  all: destruct (_ && _) eqn:Hc in Hn; [|done]; breflect; destruct Hc as [[_ Hc] Hg].
  all: injection Hn as <-; done.
Qed.

(** ** The model of an agent *)

Lemma replace_model_none model args : "--model" ∉ args -> replace_model model args = (args, false).
Proof.
  induction args as [|a args IH]; [done|]. intros Ha. apply not_elem_of_cons in Ha as [Hne Ha].
  destruct args as [|b args]; [done|]. cbn [replace_model]. apply String.eqb_neq in Hne.
  rewrite String.eqb_sym in Hne. rewrite Hne. cbn [replace_model] in IH. by rewrite (IH Ha).
Qed.

Lemma replace_model_last model old args :
  "--model" ∉ args -> replace_model model (args ++ ["--model"; old]) = (args ++ ["--model"; model], true).
Proof.
  induction args as [|a args IH]; [done|]. intros Ha. apply not_elem_of_cons in Ha as [Hne Ha].
  apply String.eqb_neq in Hne. rewrite String.eqb_sym in Hne. specialize (IH Ha).
  simpl app. remember (args ++ ["--model"; old]) as tail eqn:Et.
  destruct tail as [|b tail]; [by destruct args|]. cbn [replace_model]. rewrite Hne.
  cbn [replace_model] in IH. by rewrite IH.
Qed.

(** A start says which model to use in its last arguments, and only there, when its prompt is not
    the name of that option. *)
Lemma agent_args t environ req :
  sr_Prompt req <> "--model" ->
  exists base, "--model" ∉ base /\
    cmd_Args (agent_command t environ req) =
      base ++ (if String.eqb (Getenv environ "PI_MODEL") "" then [] else ["--model"; Getenv environ "PI_MODEL"]).
Proof.
  intros Hp. unfold agent_command. cbn [cmd_Args].
  assert (stageSystemPrompt (sr_Stage req) <> "--model") as Hs.
  { unfold stageSystemPrompt. by repeat case_match. }
  revert Hs. generalize (stageSystemPrompt (sr_Stage req)) as sp. intros sp Hs.
  exists (["-p"; "--mode"; "json"; "--no-session"] ++
          (if exists_ t aotExtensionPath then ["--extension"; aotExtensionPath] else []) ++
          (if String.eqb sp "" then [] else ["--system-prompt"; sp]) ++ [sr_Prompt req]).
  split; [|by rewrite <- !app_assoc].
  rewrite !elem_of_app. destruct (exists_ t _), (String.eqb sp _).
  all: rewrite ?elem_of_cons, ?elem_of_nil; unfold aotExtensionPath; intuition congruence.
Qed.

(** The command of the fallback is the command with the other model. *)
Lemma with_model_args t environ req model :
  sr_Prompt req <> "--model" ->
  exists base, "--model" ∉ base /\
    cmd_Args (with_model (agent_command t environ req) model) = base ++ ["--model"; model].
Proof.
  intros Hp. destruct (agent_args t environ req Hp) as (base & Hb & Ha). exists base. split; [done|].
  unfold with_model. rewrite Ha. destruct (String.eqb _ _); simpl.
  - rewrite app_nil_r. by rewrite replace_model_none.
  - by rewrite replace_model_last.
Qed.

(** The model that the request's variables name is not the one that the arguments name. *)
Lemma model_of_the_request_is_not_an_argument t environ req vars :
  cmd_Args (agent_command t environ {| sr_AgentRunId := sr_AgentRunId req; sr_Prompt := sr_Prompt req;
    sr_RepoPath := sr_RepoPath req; sr_Stage := sr_Stage req; sr_EnvVars := vars;
    sr_ParentSpanId := sr_ParentSpanId req; sr_TraceId := sr_TraceId req |}) =
  cmd_Args (agent_command t environ req).
Proof. reflexivity. Qed.
