(* ===== verification/SidecarSpans.v ===== *)
(** * Tracing in the sidecar: [internal/sidecar/gateway.go].

    The package's variables are a state, in groups as the locks protect them; the spans that have
    been appended to the file are its last part.  Identifiers come from a supply; a clock is read
    where the code reads it, once for a line and once when a block of thoughts is closed, in
    nanoseconds; git is
    a record of the answers to the commands of one checkpoint. *)

From S2P Require Import Prelude GoStrings Regex Json JsonDecode OpenSpec JsonRaw PiEvents.

Local Open Scope Z_scope.

(** ** Spans *)

(** [internal/sidecar/gateway.go:100-103] FileDiff *)
Record FileDiff := { fd_Path : string; fd_Patch : string }.

(** [internal/sidecar/gateway.go:95-97] SpanDiff *)
Definition SpanDiff : Type := list FileDiff.

(** A value of the metadata. *)
Inductive meta := MText (s : string) | MInt (z : Z) | MJson (v : json).

(** [internal/sidecar/gateway.go:80-92] TraceSpan *)
Record TraceSpan := {
  sp_ID : string; sp_TraceID : string; sp_ParentID : string; sp_Name : string; sp_Type : string;
  sp_StartTime : Z; sp_EndTime : Z; sp_Metadata : gmap string meta; sp_Diff : option SpanDiff;
}.

(** ** The state *)

(** [internal/sidecar/gateway.go:1676-1679] the block of thoughts: its identifier and its start, while
    it is open *)
Definition thinking : Type := option (string * Z).

(** [internal/sidecar/gateway.go:1775-1779] the tool call: an empty identifier when none is open *)
Record tool_span := { tl_ID : string; tl_Start : Z; tl_Name : string; tl_Input : string }.

(** [internal/sidecar/gateway.go:1781-1783] the turn of the model, with the text that is collected
    for it *)
Record llm_span := { ll_ID : string; ll_Start : Z; ll_Thought : string }.

(** [internal/sidecar/gateway.go:1705-1708] the tokens of a run *)
Record usage := { us_Input : Z; us_Output : Z; us_CacheRead : Z }.

(** [internal/sidecar/gateway.go:1682-1698] what [StartAgent] sets *)
Record agent_context := {
  cx_Stage : string; cx_WorkDir : string; cx_Parent : string; cx_TraceID : string; cx_Model : string;
}.

Record tracing := {
  tr_thinking : thinking; tr_tool : tool_span; tr_llm : llm_span; tr_usage : usage;
  tr_context : agent_context; tr_checkpoint : string; tr_next : nat; tr_spans : list TraceSpan;
}.

Definition no_usage : usage := {| us_Input := 0; us_Output := 0; us_CacheRead := 0 |}.

Definition no_tracing : tracing :=
  {| tr_thinking := None; tr_tool := {| tl_ID := ""; tl_Start := 0; tl_Name := ""; tl_Input := "" |};
     tr_llm := {| ll_ID := ""; ll_Start := 0; ll_Thought := "" |}; tr_usage := no_usage;
     tr_context := {| cx_Stage := ""; cx_WorkDir := ""; cx_Parent := ""; cx_TraceID := ""; cx_Model := "" |};
     tr_checkpoint := ""; tr_next := 0; tr_spans := [] |}.

Definition with_thinking (t : tracing) (x : thinking) : tracing :=
  {| tr_thinking := x; tr_tool := tr_tool t; tr_llm := tr_llm t; tr_usage := tr_usage t; tr_context := tr_context t;
     tr_checkpoint := tr_checkpoint t; tr_next := tr_next t; tr_spans := tr_spans t |}.
Definition with_tool (t : tracing) (x : tool_span) : tracing :=
  {| tr_thinking := tr_thinking t; tr_tool := x; tr_llm := tr_llm t; tr_usage := tr_usage t; tr_context := tr_context t;
     tr_checkpoint := tr_checkpoint t; tr_next := tr_next t; tr_spans := tr_spans t |}.
Definition with_llm (t : tracing) (x : llm_span) : tracing :=
  {| tr_thinking := tr_thinking t; tr_tool := tr_tool t; tr_llm := x; tr_usage := tr_usage t; tr_context := tr_context t;
     tr_checkpoint := tr_checkpoint t; tr_next := tr_next t; tr_spans := tr_spans t |}.
Definition with_usage (t : tracing) (x : usage) : tracing :=
  {| tr_thinking := tr_thinking t; tr_tool := tr_tool t; tr_llm := tr_llm t; tr_usage := x; tr_context := tr_context t;
     tr_checkpoint := tr_checkpoint t; tr_next := tr_next t; tr_spans := tr_spans t |}.
Definition with_context (t : tracing) (x : agent_context) : tracing :=
  {| tr_thinking := tr_thinking t; tr_tool := tr_tool t; tr_llm := tr_llm t; tr_usage := tr_usage t; tr_context := x;
     tr_checkpoint := tr_checkpoint t; tr_next := tr_next t; tr_spans := tr_spans t |}.
Definition with_checkpoint (t : tracing) (x : string) : tracing :=
  {| tr_thinking := tr_thinking t; tr_tool := tr_tool t; tr_llm := tr_llm t; tr_usage := tr_usage t;
     tr_context := tr_context t; tr_checkpoint := x; tr_next := tr_next t; tr_spans := tr_spans t |}.

(** [internal/sidecar/gateway.go:2221-2238] appendTraceSpan *)
Definition appendTraceSpan (t : tracing) (s : TraceSpan) : tracing :=
  {| tr_thinking := tr_thinking t; tr_tool := tr_tool t; tr_llm := tr_llm t; tr_usage := tr_usage t;
     tr_context := tr_context t; tr_checkpoint := tr_checkpoint t; tr_next := tr_next t; tr_spans := tr_spans t ++ [s] |}.

(** [internal/sidecar/gateway.go:1746-1751] setCurrentStage *)
Definition setCurrentStage (t : tracing) (stage workDir : string) : tracing :=
  with_context t {| cx_Stage := stage; cx_WorkDir := workDir; cx_Parent := cx_Parent (tr_context t);
                    cx_TraceID := cx_TraceID (tr_context t); cx_Model := cx_Model (tr_context t) |}.

(** [internal/sidecar/gateway.go:1720-1725] setCurrentParentSpan *)
Definition setCurrentParentSpan (t : tracing) (parentID traceID : string) : tracing :=
  with_context t {| cx_Stage := cx_Stage (tr_context t); cx_WorkDir := cx_WorkDir (tr_context t);
                    cx_Parent := parentID; cx_TraceID := traceID; cx_Model := cx_Model (tr_context t) |}.

Definition setCurrentModel (t : tracing) (model : string) : tracing :=
  with_context t {| cx_Stage := cx_Stage (tr_context t); cx_WorkDir := cx_WorkDir (tr_context t);
                    cx_Parent := cx_Parent (tr_context t); cx_TraceID := cx_TraceID (tr_context t); cx_Model := model |}.

(** [internal/sidecar/gateway.go:1754-1761] spanPrefix *)
Definition spanPrefix (t : tracing) : string :=
  if String.eqb (cx_Stage (tr_context t)) "plan" || String.eqb (cx_Stage (tr_context t)) "verify"
  then "manage" else "implement".

(** [internal/sidecar/gateway.go:1764-1771] resolvedWorkDir *)
Definition resolvedWorkDir (t : tracing) : string :=
  if String.eqb (cx_WorkDir (tr_context t)) "" then "/workspace" else cx_WorkDir (tr_context t).

(** [internal/sidecar/gateway.go:1712-1718] modelContextWindows: zero for other models *)
Definition modelContextWindows (model : string) : Z :=
  match model with
  | "deepseek-v3.1" => 32768
  | "deepseek-v3.2" => 163840
  | "qwen3-coder" => 262144
  | "qwen3:8b" => 32768
  | "default" => 32768
  | _ => 0
  end.

(** ** Diffs and checkpoints *)

(** [strings.Split] for a separator of several bytes. *)
Fixpoint split_on_fuel (fuel : nat) (s sep : string) : list string :=
  match fuel with
  | O => [s]
  | S fuel => match Index s sep with
              | None => [s]
              | Some i => str_take i s :: split_on_fuel fuel (str_drop (i + String.length sep) s) sep
              end
  end.
Definition SplitOn (s sep : string) : list string := split_on_fuel (String.length s) s sep.

Definition diff_mark : string := "diff --git ".

(** [internal/sidecar/gateway.go:2193-2212] parseDiffOutput: a section *)
Definition section_diff (section : string) : option FileDiff :=
  let section := TrimSpace section in
  if String.eqb section "" then None
  else
    let header := default "" (head (Split section "010"%char)) in
    Some {| fd_Path := match Fields header with _ :: b :: _ => TrimPrefix b "b/" | _ => "" end;
            fd_Patch := diff_mark +:+ section |}.

(** [internal/sidecar/gateway.go:2189-2218] parseDiffOutput: [None] for no section *)
Definition parseDiffOutput (output : string) : option SpanDiff :=
  match omap section_diff (SplitOn output diff_mark) with [] => None | files => Some files end.

(** The answers of git to the commands of a checkpoint: whether adding succeeds, the status, whether
    the commit succeeds, the commit, and the diff of a range. *)
Record git_run := {
  gr_add : bool; gr_status : string; gr_commit : bool; gr_sha : option string;
  gr_diff : string -> option string;
}.

(** [internal/sidecar/gateway.go:2116-2186] createGitCheckpoint: the commit and the diff *)
Definition createGitCheckpoint (t : tracing) (g : git_run) : tracing * (string * option SpanDiff) :=
  if negb (gr_add g) then (t, ("", None))
  else if String.eqb (TrimSpace (gr_status g)) "" then (t, ("", None))
  else if negb (gr_commit g) then (t, ("", None))
  else match gr_sha g with
  | None => (t, ("", None))
  | Some out =>
      let currentSHA := TrimSpace out in
      let prevSHA := tr_checkpoint t in
      let t := with_checkpoint t currentSHA in
      match gr_diff g (if String.eqb prevSHA "" then "HEAD~1..HEAD" else prevSHA +:+ ".." +:+ currentSHA) with
      | None => (t, (currentSHA, None))
      | Some diffText =>
          if String.eqb (TrimSpace diffText) "" then (t, (currentSHA, None))
          else (t, (currentSHA, parseDiffOutput diffText))
      end
  end.

(** ** Events *)

Section events.
Variables (float : string -> string) (uuid : nat -> string) (percent : Z -> Z -> Z).

(** The next identifier. *)
Definition new_id (t : tracing) : string * tracing :=
  (uuid (tr_next t),
   {| tr_thinking := tr_thinking t; tr_tool := tr_tool t; tr_llm := tr_llm t; tr_usage := tr_usage t;
      tr_context := tr_context t; tr_checkpoint := tr_checkpoint t; tr_next := S (tr_next t); tr_spans := tr_spans t |}).

(** A span of the current run. *)
Definition run_span (t : tracing) (id name ty : string) (start end_ : Z) (m : gmap string meta)
    (diff : option SpanDiff) : TraceSpan :=
  {| sp_ID := id; sp_TraceID := cx_TraceID (tr_context t); sp_ParentID := cx_Parent (tr_context t);
     sp_Name := name; sp_Type := ty; sp_StartTime := start; sp_EndTime := end_; sp_Metadata := m; sp_Diff := diff |}.

(** A span without a trace. *)
Definition loose_span (id name ty : string) (now : Z) (m : gmap string meta) (diff : option SpanDiff) : TraceSpan :=
  {| sp_ID := id; sp_TraceID := ""; sp_ParentID := ""; sp_Name := name; sp_Type := ty;
     sp_StartTime := now; sp_EndTime := now; sp_Metadata := m; sp_Diff := diff |}.

(** [internal/sidecar/gateway.go:2071-2088] closeThinkingSpan *)
Definition closeThinkingSpan (t : tracing) (later : Z) : tracing :=
  match tr_thinking t with
  | None => t
  | Some (id, start) =>
      with_thinking (appendTraceSpan t (run_span t id "thinking" "thought" start later ∅ None)) None
  end.

(** A diff that has files. *)
Definition some_diff (d : option SpanDiff) : option SpanDiff := match d with Some [] => None | _ => d end.

(** [internal/sidecar/gateway.go:1830-1839] maybeCaptureStreamEvent: the added and the removed
    lines *)
Definition diff_lines (plus triple : string) (d : SpanDiff) : Z :=
  Z.of_nat (length (filter (fun line => HasPrefix line plus = true /\ HasPrefix line triple = false)
    (d ≫= (fun f => Split (fd_Patch f) "010"%char)))).

(** [internal/sidecar/gateway.go:1803-1858] maybeCaptureStreamEvent: the end of a tool call *)
Definition tool_end (t : tracing) (g : git_run) (now : Z) : tracing :=
  let tool := tr_tool t in
  if String.eqb (tl_ID tool) "" then t
  else
    let prefix := spanPrefix t in
    let '(t', (sha, diff)) := createGitCheckpoint t g in
    let diff := some_diff diff in
    let m : gmap string meta :=
      {[ "tool" := MText (tl_Name tool); "toolInput" := MText (tl_Input tool);
         "stage" := MText (cx_Stage (tr_context t)); "role" := MText prefix ]} in
    let m := match diff with
             | None => m
             | Some d => <["diff.files" := MInt (Z.of_nat (length d))]>
                         (<["diff.deletions" := MInt (diff_lines "-" "---" d)]>
                         (<["diff.additions" := MInt (diff_lines "+" "+++" d)]> m))
             end in
    let m := if String.eqb sha "" then m
             else let m := <["checkpointSHA" := MText sha]> m in
                  if String.eqb (tr_checkpoint t') sha then m
                  else <["prevCheckpointSHA" := MText (tr_checkpoint t')]> m in
    let t' := appendTraceSpan t' (run_span t' (tl_ID tool) (prefix +:+ "." +:+ tl_Name tool) "tool"
                                    (tl_Start tool) now m diff) in
    with_tool t' {| tl_ID := ""; tl_Start := tl_Start tool; tl_Name := tl_Name tool; tl_Input := "" |}.

(** [internal/sidecar/gateway.go:1792-1801] maybeCaptureStreamEvent: the start of a tool call *)
Definition tool_start (t : tracing) (now : Z) : tracing :=
  let '(id, t) := new_id t in
  let tool := tr_tool t in
  with_tool t {| tl_ID := id; tl_Start := now;
                 tl_Name := if String.eqb (tl_Name tool) "" then "tool" else tl_Name tool; tl_Input := tl_Input tool |}.

(** [internal/sidecar/gateway.go:1860-1872] maybeCaptureStreamEvent: the start of a message *)
Definition message_start (t : tracing) (msg : option json) (now : Z) : tracing :=
  match msg ≫= decoded "" (dec_struct [("role", dec_string)]) with
  | Some "assistant" =>
      let '(id, t) := new_id t in with_llm t {| ll_ID := id; ll_Start := now; ll_Thought := ll_Thought (tr_llm t) |}
  | _ => t
  end.

(** [internal/sidecar/gateway.go:1883-1935] maybeCaptureStreamEvent: an update of a message *)
Definition message_update (t : tracing) (ame : piAssistantEvent) (now later : Z) : tracing :=
  match pa_Type ame with
  | "thinking_delta" =>
      match tr_thinking t with
      | Some _ => t
      | None => let '(id, t) := new_id t in with_thinking t (Some (id, now))
      end
  | "text_delta" =>
      let t := closeThinkingSpan t later in
      with_llm t {| ll_ID := ll_ID (tr_llm t); ll_Start := ll_Start (tr_llm t);
                    ll_Thought := ll_Thought (tr_llm t) +:+ pa_Delta ame |}
  | "text_end" => closeThinkingSpan t later
  | "tool_use" | "toolcall_start" | "toolcall_end" =>
      let t := closeThinkingSpan t later in
      let '(name, input) := extractToolFromEvent float ame in
      if String.eqb name "" then t
      else with_tool t {| tl_ID := tl_ID (tr_tool t); tl_Start := tl_Start (tr_tool t); tl_Name := name;
                          tl_Input := cut_at 200 input |}
  | _ => t
  end.

Record compaction := { cp_Before : Z; cp_After : Z; cp_Summarized : Z }.

Definition dec_compaction : dec compaction := dec_struct
  [("tokensBefore", at_field cp_Before (fun x c => {| cp_Before := x; cp_After := cp_After c; cp_Summarized := cp_Summarized c |}) dec_int);
   ("tokensAfter", at_field cp_After (fun x c => {| cp_Before := cp_Before c; cp_After := x; cp_Summarized := cp_Summarized c |}) dec_int);
   ("messagesToSummarize", at_field cp_Summarized (fun x c => {| cp_Before := cp_Before c; cp_After := cp_After c; cp_Summarized := x |}) dec_int)].

(** [internal/sidecar/gateway.go:1937-1970] maybeCaptureStreamEvent: a compaction; the payload is
    read as far as its types are right *)
Definition compaction_span (t : tracing) (msg : option json) (now : Z) : tracing :=
  let zero := {| cp_Before := 0; cp_After := 0; cp_Summarized := 0 |} in
  let p := match msg with Some v => (dec_compaction zero v).1 | None => zero end in
  let prefix := spanPrefix t in
  let m : gmap string meta :=
    {[ "compaction.tokens_before" := MInt (cp_Before p); "compaction.tokens_after" := MInt (cp_After p);
       "stage" := MText (cx_Stage (tr_context t)); "role" := MText prefix ]} in
  let m := if (0 <? cp_Before p) && (0 <? cp_After p) then
             let saved := cp_Before p - cp_After p in
             <["compaction.reduction_pct" := MInt (percent saved (cp_Before p))]>
             (<["compaction.tokens_saved" := MInt saved]> m)
           else m in
  let m := if 0 <? cp_Summarized p then <["compaction.messages_summarized" := MInt (cp_Summarized p)]> m else m in
  let '(id, t) := new_id t in
  appendTraceSpan t (run_span t id (prefix +:+ ".compaction") "compaction" now now m None).

Record message_usage := { mu_Input : Z; mu_Output : Z; mu_CacheRead : Z; mu_TotalTokens : Z }.

Definition with_mu (i o c t : Z) : message_usage := {| mu_Input := i; mu_Output := o; mu_CacheRead := c; mu_TotalTokens := t |}.

Definition dec_usage : dec message_usage := dec_struct
  [("input", at_field mu_Input (fun x u => with_mu x (mu_Output u) (mu_CacheRead u) (mu_TotalTokens u)) dec_int);
   ("output", at_field mu_Output (fun x u => with_mu (mu_Input u) x (mu_CacheRead u) (mu_TotalTokens u)) dec_int);
   ("cacheRead", at_field mu_CacheRead (fun x u => with_mu (mu_Input u) (mu_Output u) x (mu_TotalTokens u)) dec_int);
   ("cacheWrite", fun u v => (u, (dec_int 0 v).2));
   ("totalTokens", at_field mu_TotalTokens (fun x u => with_mu (mu_Input u) (mu_Output u) (mu_CacheRead u) x) dec_int)].

(** The usage that a message reports. *)
Definition message_usage_of (msg : option json) : option message_usage :=
  v ← msg; u ← decoded None (dec_struct [("usage", dec_pointer (with_mu 0 0 0 0) dec_usage)]) v; u.

(** [internal/sidecar/gateway.go:2002-2019] maybeCaptureStreamEvent: what a message says of its
    tokens *)
Definition usage_meta (t : tracing) (u : message_usage) (m : gmap string meta) : gmap string meta :=
  let m := <["gen_ai.usage.total_tokens" := MInt (mu_TotalTokens u)]>
           (<["gen_ai.usage.output_tokens" := MInt (mu_Output u)]>
           (<["gen_ai.usage.input_tokens" := MInt (mu_Input u)]> m)) in
  let m := if 0 <? mu_CacheRead u then <["gen_ai.usage.cache_read_tokens" := MInt (mu_CacheRead u)]> m else m in
  if 0 <? mu_Input u then
    let w := modelContextWindows (cx_Model (tr_context t)) in
    let w := if w =? 0 then 32768 else w in
    <["gen_ai.context.utilization_pct" := MInt (percent (mu_Input u) w)]> (<["gen_ai.context.window_size" := MInt w]> m)
  else m.

(** [internal/sidecar/gateway.go:2020-2025] maybeCaptureStreamEvent: the tokens of the run *)
Definition add_usage (s : usage) (u : message_usage) : usage :=
  {| us_Input := us_Input s + mu_Input u; us_Output := us_Output s + mu_Output u;
     us_CacheRead := us_CacheRead s + mu_CacheRead u |}.

(** [internal/sidecar/gateway.go:1972-2028] maybeCaptureStreamEvent: the end of a message *)
Definition message_end (t : tracing) (msg : option json) (now later : Z) : tracing :=
  let t := closeThinkingSpan t later in
  let llm := tr_llm t in
  if String.eqb (ll_ID llm) "" then t
  else
    let prefix := spanPrefix t in
    let m : gmap string meta :=
      {[ "durationMs" := MInt (Z.quot (now - ll_Start llm) 1000000); "stage" := MText (cx_Stage (tr_context t));
         "role" := MText prefix; "gen_ai.request.model" := MText (cx_Model (tr_context t)) ]} in
    let m := if (2000 <? String.length (ll_Thought llm))%nat
             then <["content" := MText (str_take 2000 (ll_Thought llm) +:+ "...")]> m
             else if String.eqb (ll_Thought llm) "" then m else <["content" := MText (ll_Thought llm)]> m in
    let u := message_usage_of msg in
    let m := match u with Some u => usage_meta t u m | None => m end in
    let t := match u with Some u => with_usage t (add_usage (tr_usage t) u) | None => t end in
    with_llm (appendTraceSpan t (run_span t (ll_ID llm) (prefix +:+ ".thought") "llm" (ll_Start llm) now m None))
      {| ll_ID := ""; ll_Start := ll_Start llm; ll_Thought := "" |}.

(** [internal/sidecar/gateway.go:1788-2029] maybeCaptureStreamEvent *)
Definition maybeCaptureStreamEvent (t : tracing) (g : git_run) (evt : piEvent) (now later : Z) : tracing :=
  match pe_Type evt with
  | "tool_execution_start" => tool_start t now
  | "tool_execution_end" => tool_end t g now
  | "message_start" => message_start t (pe_Message evt) now
  | "message_update" =>
      match pe_AssistantMsgEvent evt ≫= decoded zero_assistant dec_assistant with
      | Some ame => message_update t ame now later
      | None => t
      end
  | "context_compaction" | "compaction" => compaction_span t (pe_Message evt) now
  | "message_end" => message_end t (pe_Message evt) now later
  | _ => t
  end.

(** ** Lines *)

(** [internal/sidecar/gateway.go:1661-1661] piDcpPrunedRe *)
Definition piDcpPrunedRe : regex :=
  cats [lit "[pi-dcp] Pruned "; Group 1 (plus (Cls (range "0" "9"))); star (Cls space_class); chr "/";
        star (Cls space_class); Group 2 (plus (Cls (range "0" "9")))].

(** [strconv.Atoi] of digits with its error ignored: too large a number is the largest one. *)
Definition atoi_digits (s : string) : Z := default int64_max (Atoi s).

(** [internal/sidecar/gateway.go:1664-1672] parsePiDcpPruned *)
Definition parsePiDcpPruned (line : string) : Z * Z :=
  match find piDcpPrunedRe line with
  | None => (0, 0)
  | Some f => (atoi_digits (group 1 f), atoi_digits (group 2 f))
  end.

(** [internal/sidecar/gateway.go:1576-1582] stdoutToolCallPrefixes *)
Definition stdoutToolCallPrefixes : list string :=
  ["⚡ Running tool:"; "> Running tool:"; "Tool call:"; "[tool_call]"; "Running command:"].

(** The metadata of a span that a line of text gives. *)
Definition from_stdout (trimmed : string) : gmap string meta :=
  {[ "source" := MText "stdout"; "raw" := MText trimmed ]}.

(** [internal/sidecar/gateway.go:1602-1656] maybeCaptureStdoutSpan: a line of text *)
Definition text_line (t : tracing) (trimmed : string) (now : Z) : tracing :=
  match List.find (HasPrefix trimmed) stdoutToolCallPrefixes with
  | Some prefix =>
      let '(id, t) := new_id t in
      appendTraceSpan t (loose_span id (TrimSpace (TrimPrefix trimmed prefix)) "tool" now (from_stdout trimmed) None)
  | None =>
      if Contains trimmed "[pi-dcp] Pruned" then
        let '(pruned, total) := parsePiDcpPruned trimmed in
        let prefix := spanPrefix t in
        let '(id, t) := new_id t in
        appendTraceSpan t (run_span t id (prefix +:+ ".compaction") "compaction" now now
          {[ "compaction.tokens_before" := MInt total; "compaction.tokens_after" := MInt (total - pruned);
             "compaction.tokens_saved" := MInt pruned; "source" := MText "pi-dcp";
             "stage" := MText (cx_Stage (tr_context t)); "role" := MText prefix; "raw" := MText trimmed ]} None)
      else
        let lower := ToLower trimmed in
        if HasPrefix lower "[llm]" || HasPrefix lower "llm response:" then
          let '(id, t) := new_id t in
          appendTraceSpan t (loose_span id "llm_response" "llm" now (from_stdout trimmed) None)
        else t
  end.

(** [internal/sidecar/gateway.go:1586-1658] maybeCaptureStdoutSpan *)
Definition maybeCaptureStdoutSpan (t : tracing) (g : git_run) (line : string) (now later : Z) : tracing :=
  let trimmed := TrimSpace line in
  if String.eqb trimmed "" then t
  else
    let evt := if HasPrefix trimmed "{" then Unmarshal zero_event dec_piEvent trimmed else None in
    match evt with
    | Some evt => if String.eqb (pe_Type evt) "" then text_line t trimmed now
                  else maybeCaptureStreamEvent t g evt now later
    | None => text_line t trimmed now
    end.

(** ** Notifications *)

(** [internal/sidecar/gateway.go:2094-2100] parsePayloadMetadata: [None] is a nil map *)
Definition parsePayloadMetadata (payload : string) : option (gmap string meta) :=
  match Unmarshal None dec_map payload with
  | None => Some {[ "raw" := MText payload ]}
  | Some None => None
  | Some (Some m) => Some (list_to_map (rev ((fun kv : string * json => (kv.1, MJson kv.2)) <$> m)))
  end.

(** [internal/sidecar/gateway.go:2103-2112] isLLMResponseLog *)
Definition isLLMResponseLog (payload : string) : bool :=
  existsb (Contains (ToLower payload)) ["llm_response"; "model"; "completion"; "tokens"; "usage"].

(** The name that a tool call is notified with. *)
Definition call_name (m : option (gmap string meta)) : string :=
  match m ≫= (fun m => m !! "name") with
  | Some (MJson (JStr raw)) => if String.eqb (unquote raw) "" then "tool_call" else unquote raw
  | _ => "tool_call"
  end.

(** [internal/sidecar/gateway.go:1206-1236] NotifyEvent: a tool call; [None] is the panic of an
    assignment to a nil map *)
Definition notify_tool_call (t : tracing) (g : git_run) (payload : string) (now : Z) : option tracing :=
  let metadata := parsePayloadMetadata payload in
  let spanName := call_name metadata in
  let '(id, t) := new_id t in
  let '(t, (sha, diff)) := createGitCheckpoint t g in
  m ← match metadata with
      | None => if String.eqb sha "" then Some ∅ else None
      | Some m => Some (if String.eqb sha "" then m else <["checkpointSHA" := MText sha]> m)
      end;
  Some (appendTraceSpan t (loose_span id spanName "tool" now m (some_diff diff))).

(** [internal/sidecar/gateway.go:1238-1251] NotifyEvent: a line of a log *)
Definition notify_log (t : tracing) (payload : string) (now : Z) : tracing :=
  if isLLMResponseLog payload then
    let '(id, t) := new_id t in
    appendTraceSpan t (loose_span id "llm_response" "llm" now (default ∅ (parsePayloadMetadata payload)) None)
  else t.

(** [internal/sidecar/gateway.go:1195-1204] NotifyEvent: the agent has been resumed *)
Definition notify_started (t : tracing) (now : Z) : tracing :=
  let '(id, t) := new_id t in appendTraceSpan t (loose_span id "agent_resumed" "input" now ∅ None).

(** [internal/sidecar/gateway.go:271-310] StartAgent: the state of a new run; the initial span *)
Definition start_tracing (t : tracing) (stage workDir parent trace_ model runID : string) (now now' : Z) : tracing :=
  let t := setCurrentStage t stage workDir in
  let t := setCurrentParentSpan t parent trace_ in
  let t := setCurrentModel t (if String.eqb model "" then "default" else model) in
  let t := with_usage (with_checkpoint t "") no_usage in
  let '(id, t) := new_id t in
  appendTraceSpan t (run_span t id (spanPrefix t +:+ ".started") "input" now now'
    {[ "stage" := MText stage; "agentRunId" := MText runID ]} None).
End events.
