(* ===== verification/SpanProps.v ===== *)
(** * Properties of the tracing in the sidecar.

    No two spans share an identifier, whatever the agent writes; tokens are counted for a message
    that was started; a checkpoint never records the one before it. *)

From S2P Require Import Prelude GoStrings Regex Json JsonDecode OpenSpec JsonRaw PiEvents SidecarSpans.

Local Open Scope Z_scope.

Section props.
Variables (float : string -> string) (uuid : nat -> string) (percent : Z -> Z -> Z).
Hypothesis uuid_distinct : forall i j, uuid i = uuid j -> i = j.
Hypothesis uuid_not_empty : forall i, uuid i <> "".

(** ** Identifiers *)

Definition nonempty (s : string) : list string := if String.eqb s "" then [] else [s].

(** The identifiers of the spans that are open, and of all spans. *)
Definition open_ids (t : tracing) : list string :=
  match tr_thinking t with Some (id, _) => [id] | None => [] end ++
  nonempty (tl_ID (tr_tool t)) ++ nonempty (ll_ID (tr_llm t)).
Definition ids (t : tracing) : list string := (sp_ID <$> tr_spans t) ++ open_ids t.

Definition ids_ok (t : tracing) : Prop :=
  NoDup (ids t) /\ Forall (fun id => exists i, (i < tr_next t)%nat /\ id = uuid i) (ids t).

(** A step takes at most the next identifier. *)
Definition takes (t t' : tracing) : Prop :=
  (tr_next t' = tr_next t /\ ids t' ⊆+ ids t) \/
  (tr_next t' = S (tr_next t) /\ ids t' ⊆+ uuid (tr_next t) :: ids t).

Lemma takes_ok t t' : ids_ok t -> takes t t' -> ids_ok t'.
Proof.
  intros [Hnd Hall] [[Hn Hs]|[Hn Hs]]; unfold ids_ok; rewrite Hn.
  - split; [by eapply NoDup_sub|by eapply Forall_sub].
  - assert (uuid (tr_next t) ∉ ids t) as Hf.
    { rewrite Forall_forall in Hall. intros (i & Hi & He%uuid_distinct)%Hall. lia. }
    split; [eapply NoDup_sub; [done|by constructor]|].
    eapply Forall_sub; [done|]. constructor; [exists (tr_next t); auto|].
    eapply Forall_impl; [done|]. intros id (i & Hi & ->). exists i. auto.
Qed.

Lemma takes_refl t : takes t t.
Proof. by left. Qed.

(** Nothing but the open spans and the file matter. *)
Lemma takes_l t u t' :
  tr_next u = tr_next t -> ids u ⊆+ ids t -> takes u t' -> takes t t'.
Proof.
  intros Hn Hi [[Hn' Hs]|[Hn' Hs]]; [left|right]; rewrite Hn', Hn; (split; [done|]).
  - by trans (ids u).
  - rewrite Hn in Hs. trans (uuid (tr_next t) :: ids u); [done|]. by apply submseteq_skip.
Qed.

Lemma closeThinkingSpan_ids t later :
  tr_next (closeThinkingSpan t later) = tr_next t /\ ids (closeThinkingSpan t later) ⊆+ ids t /\
  tr_tool (closeThinkingSpan t later) = tr_tool t /\ tr_llm (closeThinkingSpan t later) = tr_llm t.
Proof.
  unfold closeThinkingSpan. destruct (tr_thinking t) as [[id start]|] eqn:E; [|done].
  repeat split. unfold ids, open_ids. simpl. rewrite E, fmap_app. simpl. rewrite <- !app_assoc. done.
Qed.

Lemma createGitCheckpoint_ids t g :
  tr_next (createGitCheckpoint t g).1 = tr_next t /\ ids (createGitCheckpoint t g).1 = ids t /\
  tr_tool (createGitCheckpoint t g).1 = tr_tool t /\ tr_llm (createGitCheckpoint t g).1 = tr_llm t /\
  tr_thinking (createGitCheckpoint t g).1 = tr_thinking t /\ tr_spans (createGitCheckpoint t g).1 = tr_spans t.
Proof. unfold createGitCheckpoint. by repeat case_match. Qed.

(** Open spans are kept, dropped or written: what is left is part of what there was. *)
Ltac count_ids :=
  unfold ids, open_ids, nonempty in *; simpl; rewrite ?fmap_app; simpl;
  repeat case_match; simplify_eq/=; rewrite ?app_nil_r, <- ?app_assoc; simpl; solve_submseteq.

Lemma tool_start_takes t now : takes t (tool_start uuid t now).
Proof. right. split; [done|]. unfold tool_start. simpl. count_ids. Qed.

Lemma tool_end_takes t g now : takes t (tool_end t g now).
Proof.
  unfold tool_end. destruct (String.eqb_spec (tl_ID (tr_tool t)) "") as [_|Hid]; [apply takes_refl|].
  pose proof (createGitCheckpoint_ids t g) as (Hn & _ & Ht & Hl & Hth & Hs).
  destruct (createGitCheckpoint t g) as [u [sha diff]]. simpl in *. left. split; [done|].
  unfold ids, open_ids. simpl. rewrite Hth, Hl, Hs. apply String.eqb_neq in Hid.
  assert (nonempty (tl_ID (tr_tool t)) = [tl_ID (tr_tool t)]) as -> by (unfold nonempty; by rewrite Hid).
  rewrite fmap_app. simpl. rewrite <- !app_assoc. simpl. solve_submseteq.
Qed.

Lemma message_start_takes t msg now : takes t (message_start uuid t msg now).
Proof.
  unfold message_start. destruct (msg ≫= _) as [s|]; [|apply takes_refl].
  unfold new_id. repeat (case_match; try apply takes_refl). right. split; [done|]. count_ids.
Qed.

Lemma compaction_span_takes t msg now : takes t (compaction_span uuid percent t msg now).
Proof. right. split; [done|]. unfold compaction_span. simpl. count_ids. Qed.

Lemma message_update_takes t ame now later : takes t (message_update float uuid t ame now later).
Proof.
  pose proof (closeThinkingSpan_ids t later) as (Hn & Hi & Ht & Hl).
  assert (takes t (closeThinkingSpan t later)) as Hc by (left; done).
  assert (forall input name, takes t (with_tool (closeThinkingSpan t later)
    {| tl_ID := tl_ID (tr_tool (closeThinkingSpan t later)); tl_Start := tl_Start (tr_tool (closeThinkingSpan t later));
       tl_Name := name; tl_Input := input |})) as Htool.
  { intros input name. left. split; [done|]. by rewrite <- Hi. }
  assert (tr_thinking t = None -> takes t (let '(id, u) := new_id uuid t in with_thinking u (Some (id, now)))) as Hopen.
  { intros E. right. split; [done|]. unfold ids, open_ids. simpl. rewrite E. simpl. solve_submseteq. }
  unfold message_update.
  generalize dependent (pa_Type ame). intros ty. repeat (case_match; try first [apply takes_refl | exact Hc | apply Htool | by apply Hopen]).
Qed.

Lemma message_end_takes t msg now later : takes t (message_end percent t msg now later).
Proof.
  pose proof (closeThinkingSpan_ids t later) as (Hn & Hi & _ & Hl).
  unfold message_end. apply (takes_l t (closeThinkingSpan t later)); [done|by rewrite Hi|].
  generalize (closeThinkingSpan t later) as u. intros u.
  destruct (String.eqb_spec (ll_ID (tr_llm u)) "") as [_|Hid]; [apply takes_refl|]. left.
  assert (nonempty (ll_ID (tr_llm u)) = [ll_ID (tr_llm u)]) as He.
  { unfold nonempty. apply String.eqb_neq in Hid. by rewrite Hid. }
  destruct (message_usage_of msg); (split; [done|]); unfold ids, open_ids; simpl; rewrite He, fmap_app; simpl;
    rewrite <- !app_assoc; simpl; solve_submseteq.
Qed.

Lemma maybeCaptureStreamEvent_takes t g evt now later :
  takes t (maybeCaptureStreamEvent float uuid percent t g evt now later).
Proof.
  unfold maybeCaptureStreamEvent.
  pose proof (tool_start_takes t now) as H1. pose proof (tool_end_takes t g now) as H2.
  pose proof (message_start_takes t (pe_Message evt) now) as H3.
  pose proof (compaction_span_takes t (pe_Message evt) now) as H4.
  pose proof (message_end_takes t (pe_Message evt) now later) as H5.
  set (m := match _ ≫= _ with Some _ => _ | None => _ end).
  assert (takes t m) as H6 by (unfold m; case_match; [apply message_update_takes|apply takes_refl]).
  pose proof (takes_refl t) as H7. revert H1 H2 H3 H4 H5 H6 H7. clearbody m.
  generalize (tool_start uuid t now) (tool_end t g now) (message_start uuid t (pe_Message evt) now)
    (compaction_span uuid percent t (pe_Message evt) now) (message_end percent t (pe_Message evt) now later).
  generalize (pe_Type evt). intros. repeat (case_match; try assumption).
Qed.

(** A span that stands alone takes an identifier. *)
Lemma append_takes t f : (forall id u, sp_ID (f id u) = id) ->
  takes t (let '(id, u) := new_id uuid t in appendTraceSpan u (f id u)).
Proof. intros Hf. right. split; [done|]. simpl. unfold ids. simpl. rewrite fmap_app. simpl. rewrite Hf.
  unfold open_ids. simpl. rewrite <- !app_assoc. simpl. solve_submseteq. Qed.

Lemma text_line_takes t trimmed now : takes t (text_line uuid t trimmed now).
Proof.
  unfold text_line. destruct (List.find _ _) as [prefix|].
  { by apply (append_takes t (fun id _ => loose_span id _ _ now _ None)). }
  destruct (Contains _ _).
  { destruct (parsePiDcpPruned trimmed) as [pruned total].
    by apply (append_takes t (fun id u => run_span u id _ _ now now _ None)). }
  destruct (_ || _); [|apply takes_refl]. by apply (append_takes t (fun id _ => loose_span id _ _ now _ None)).
Qed.

Lemma maybeCaptureStdoutSpan_takes t g line now later :
  takes t (maybeCaptureStdoutSpan float uuid percent t g line now later).
Proof.
  unfold maybeCaptureStdoutSpan.
  repeat first [case_match | apply takes_refl | apply text_line_takes | apply maybeCaptureStreamEvent_takes].
Qed.

(** What the sidecar traces: a line of the agent, a notification, the start of an agent. *)
Inductive traced (t : tracing) : tracing -> Prop :=
| traced_line g line now later :
    traced t (maybeCaptureStdoutSpan float uuid percent t g line now later)
| traced_call g payload now t' :
    notify_tool_call uuid t g payload now = Some t' -> traced t t'
| traced_log payload now : traced t (notify_log uuid t payload now)
| traced_started now : traced t (notify_started uuid t now)
| traced_start stage workDir parent trace_ model run now now' :
    traced t (start_tracing uuid t stage workDir parent trace_ model run now now').

Lemma traced_takes t t' : traced t t' -> takes t t'.
Proof.
  intros [g line now later|g payload now u Hu|payload now|now|stage workDir parent trace_ model run now now'].
  - apply maybeCaptureStdoutSpan_takes.
  - unfold notify_tool_call in Hu. simpl in Hu.
    set (v := {| tr_thinking := tr_thinking t; tr_tool := _; tr_llm := _; tr_usage := _; tr_context := _;
                 tr_checkpoint := _; tr_next := _; tr_spans := _ |}) in Hu.
    pose proof (createGitCheckpoint_ids v g) as (Hn & Hi & Ht & Hl & Hth & Hs).
    destruct (createGitCheckpoint v g) as [w [sha diff]]. simpl in *.
    match type of Hu with ?m ≫= _ = _ => destruct m as [md|] end; [|done]. simplify_eq/=.
    right. split; [done|]. unfold ids, open_ids. simpl. rewrite Hth, Ht, Hl, Hs. simpl.
    rewrite fmap_app. simpl. rewrite <- !app_assoc. simpl. solve_submseteq.
  - unfold notify_log. destruct (isLLMResponseLog _); [|apply takes_refl].
    by apply (append_takes t (fun id _ => loose_span id _ _ now _ None)).
  - by apply (append_takes t (fun id _ => loose_span id _ _ now _ None)).
  - right. split; [done|]. unfold start_tracing. simpl. count_ids.
Qed.

(** However the lines of the agent, its notifications and the starts of agents follow each
    other, no two spans in the file have the same identifier. *)
Theorem span_ids_distinct t : rtc traced no_tracing t -> NoDup (sp_ID <$> tr_spans t).
Proof.
  intros H. enough (ids_ok t) as [Hnd _] by (by apply NoDup_app in Hnd as [? _]).
  assert (ids_ok no_tracing) as H0 by (split; [apply NoDup_nil_2|apply Forall_nil_2]).
  revert H0. induction H as [|x y z Hxy _ IH]; [done|]. intros Hx. apply IH.
  eapply takes_ok; [done|]. by apply traced_takes.
Qed.
End props.

Section notes.
Variables (float : string -> string) (uuid : nat -> string) (percent : Z -> Z -> Z).

(** ** Checkpoints *)

(** A checkpoint that is returned has just become the last one. *)
Lemma createGitCheckpoint_last t g :
  let r := createGitCheckpoint t g in
  (r.2.1 = "" /\ r.1 = t) \/ r.2.1 = tr_checkpoint r.1.
Proof. unfold createGitCheckpoint. repeat case_match; simpl; auto. Qed.

(** The diff of a checkpoint is asked for from the checkpoint before it. *)
Lemma createGitCheckpoint_range t g out :
  gr_add g = true -> TrimSpace (gr_status g) <> "" -> gr_commit g = true -> gr_sha g = Some out ->
  tr_checkpoint t <> "" ->
  (createGitCheckpoint t g).2.2 =
    match gr_diff g (tr_checkpoint t +:+ ".." +:+ TrimSpace out) with
    | Some d => if String.eqb (TrimSpace d) "" then None else parseDiffOutput d
    | None => None
    end.
Proof.
  intros Ha Hs Hc Hsha Hp. unfold createGitCheckpoint. rewrite Ha, Hc, Hsha. simpl.
  apply String.eqb_neq in Hs as ->, Hp as ->. by repeat case_match.
Qed.

(** The span of a tool call never says which checkpoint came before its own: the last checkpoint is
    compared with the new one after it has been replaced by it. *)
Lemma no_previous_checkpoint t g now s :
  tr_spans (tool_end t g now) = tr_spans t ++ [s] -> sp_Metadata s !! "prevCheckpointSHA" = None.
Proof.
  unfold tool_end. destruct (String.eqb _ _).
  { intros H. apply (f_equal length) in H. rewrite length_app in H. simpl in H. lia. }
  pose proof (createGitCheckpoint_last t g) as Hlast.
  assert (tr_spans (createGitCheckpoint t g).1 = tr_spans t) as Hs.
  { unfold createGitCheckpoint. by repeat case_match. }
  destruct (createGitCheckpoint t g) as [u [sha diff]]. simpl in Hlast, Hs.
  cbn -[diff_lines lookup insert singletonM map_insert]. rewrite Hs. intros H.
  apply app_inj_tail in H as [_ <-]. cbn [sp_Metadata run_span].
  assert (forall m : gmap string meta, m !! "prevCheckpointSHA" = None ->
    (if String.eqb sha "" then m
     else if String.eqb (tr_checkpoint u) sha then <["checkpointSHA" := MText sha]> m
          else <["prevCheckpointSHA" := MText (tr_checkpoint u)]> (<["checkpointSHA" := MText sha]> m))
      !! "prevCheckpointSHA" = None) as Hm.
  { intros m Hm. destruct (String.eqb_spec sha "") as [_|Hne]; [done|].
    destruct Hlast as [[? _]|<-]; [done|]. rewrite String.eqb_refl. by rewrite lookup_insert_ne. }
  apply Hm. destruct (some_diff diff); repeat (rewrite lookup_insert_ne; [|done]); done.
Qed.

(** The name of a tool is not forgotten when its call ends: a call that is not announced is traced
    under the name of the one before. *)
Lemma stale_tool_name t g now now' :
  tl_ID (tr_tool t) <> "" -> tl_Name (tr_tool t) <> "" ->
  tl_Name (tr_tool (tool_start uuid (tool_end t g now) now')) = tl_Name (tr_tool t).
Proof.
  intros Hid Hn. unfold tool_end. apply String.eqb_neq in Hid as ->.
  destruct (createGitCheckpoint t g) as [u [sha diff]]. simpl. apply String.eqb_neq in Hn. by rewrite Hn.
Qed.

(** ** Tokens *)

Lemma tokens_unchanged_close t later : tr_usage (closeThinkingSpan t later) = tr_usage t.
Proof. unfold closeThinkingSpan. by repeat case_match. Qed.

(** The end of a message counts its tokens when its start was seen, and the end that follows it does
    not. *)
Lemma tokens_counted_once t v u now later now' later' :
  message_usage_of (Some v) = Some u -> ll_ID (tr_llm t) <> "" ->
  let t' := message_end percent t (Some v) now later in
  tr_usage t' = add_usage (tr_usage t) u /\ tr_usage (message_end percent t' (Some v) now' later') = tr_usage t'.
Proof.
  intros Hu Hid. cbv zeta.
  assert (tr_llm (closeThinkingSpan t later) = tr_llm t) as Hl by (unfold closeThinkingSpan; by repeat case_match).
  assert (forall x, ll_ID (tr_llm x) = "" -> tr_usage (message_end percent x (Some v) now' later') = tr_usage x) as Hnone.
  { intros x Hx. unfold message_end.
    assert (tr_llm (closeThinkingSpan x later') = tr_llm x) as -> by (unfold closeThinkingSpan; by repeat case_match).
    rewrite Hx. apply tokens_unchanged_close. }
  assert (exists w, message_end percent t (Some v) now later = with_llm w {| ll_ID := ""; ll_Start := ll_Start (tr_llm t); ll_Thought := "" |} /\
                    tr_usage w = add_usage (tr_usage t) u) as (w & -> & Hw).
  { unfold message_end. rewrite Hl, Hu. apply String.eqb_neq in Hid as ->. eexists. split; [reflexivity|].
    simpl. by rewrite tokens_unchanged_close. }
  split; [done|]. by apply Hnone.
Qed.
End notes.

(** A notification of a tool call whose payload is [null] panics when there is something to
    commit. *)
Example null_payload_panics :
  notify_tool_call (fun _ => "id") no_tracing
    {| gr_add := true; gr_status := "M a"; gr_commit := true; gr_sha := Some "abc"; gr_diff := fun _ => None |}
    "null" 0 = None.
Proof. vm_compute. reflexivity. Qed.

(** A file that mentions the header of a diff is split there. *)
Example diff_in_a_diff :
  option_map (map fd_Path) (parseDiffOutput ("diff --git a/x b/x" +:+ newline +:+ "+see diff --git a/y b/y")) =
    Some ["x"; "y"].
Proof. vm_compute. reflexivity. Qed.

(** The file of a path with a blank is not its path. *)
Example path_with_a_blank :
  option_map (map fd_Path) (parseDiffOutput ("diff --git a/my file b/my file" +:+ newline +:+ "+x")) = Some ["file"].
Proof. vm_compute. reflexivity. Qed.
