(* ===== verification/SidecarGateway.v ===== *)
(** * The sidecar: [internal/sidecar/gateway.go].

    The gateway holds the current process of the agent; every process has a reader and, as a rule,
    a goroutine that waits for it, tries again when the model is limited or overloaded, and says
    how the agent ended.  The state has all processes that were started, since a goroutine or a
    call keeps the one that it has read.  A step is what happens between two accesses to shared
    state; what the operating system answers, and what the agent writes, is part of the label. *)

From S2P Require Import Prelude GoStrings Files Json PiEvents AgentLaunch SidecarSpans VerifyRun.

Local Open Scope Z_scope.

#[export] Instance process_state_eq : EqDecision process_state.
Proof. solve_decision. Defined.

(** A channel of [StreamOutput]. *)
Record out_channel := { oc_Buffer : list string; oc_Closed : bool }.

(** [internal/sidecar/gateway.go:1076-1076] StreamOutput: the capacity *)
Definition outputCapacity : nat := 100.

(** How the reader of the standard output has ended: not yet; at the end of the output; at a line that the scanner has no room for;
    at a tool call too many, where it kills the agent; or since [Wait] has closed the pipe under it. *)
Inductive read_end := Reading | AtEof | TooLong | Looped | Closed.

#[export] Instance read_end_eq : EqDecision read_end.
Proof. solve_decision. Defined.

(** The pipes of a process: the lines that were written to its standard output, by the agent or by what it has started, and how the
    readers of the two outputs have ended.  The lines that were read are those in the reader's [agent.jsonl]. *)
Record pipes := { pi_written : list string; pi_stdout : read_end; pi_stderr : bool }.

(** [internal/sidecar/gateway.go:106-126] AgentProcess: its reader has the error of the model; with its pipes, how the operating
    system process ended, if it did, whether it was killed, and whether it has been waited for *)
Record AgentProcess := {
  ap_cmd : command; ap_state : process_state; ap_exitError : string; ap_pendingQuestion : string;
  ap_reader : reader; ap_outputs : list nat;
  ap_exit : option (option string); ap_pipes : pipes; ap_killed : bool; ap_waited : bool;
}.

(** Where a goroutine of [waitForProcess] is: before it reads the process, waiting for its process,
    sleeping before an attempt with the error of the last one, waiting for the process of an
    attempt or of the fallback, done. *)
Inductive wait_pc :=
| WBegin | WFirst (pid : nat) | WBackoff (pid attempt : nat) (err : string)
| WRetry (pid attempt : nat) | WFallback (pid : nat) | WEnd.

(** A call that reads the current process, and then acts on it. *)
Inductive call :=
| CStream | CSend | CStop (force : bool)
| CWaiting (payload : string) | CStarted | CToolCall (payload : string) | CLog (payload : string) | COther.

(** [internal/sidecar/gateway.go:42-56] Gateway: with the goroutines, the calls that have read a
    process, the channels, the package's tracing state, and a start that holds the lock: its request
    and whether it found an agent running *)
Record Gateway := {
  g_environ : list string; g_debug : bool;
  g_process : option nat; g_procs : list AgentProcess; g_waiters : list wait_pc;
  g_calls : list (call * nat); g_channels : list out_channel; g_tracing : tracing;
  g_starting : option (start_request * bool); g_stopped : bool;
}.

(** What a step does: a label that is not possible now is blocked. *)
Inductive gresult := Next (g : Gateway) | Blocked | Panics.

(** ** Updates *)

Definition with_procs (g : Gateway) (ps : list AgentProcess) : Gateway :=
  {| g_environ := g_environ g; g_debug := g_debug g; g_process := g_process g; g_procs := ps;
     g_waiters := g_waiters g; g_calls := g_calls g; g_channels := g_channels g; g_tracing := g_tracing g;
     g_starting := g_starting g; g_stopped := g_stopped g |}.
Definition with_process (g : Gateway) (p : option nat) : Gateway :=
  {| g_environ := g_environ g; g_debug := g_debug g; g_process := p; g_procs := g_procs g;
     g_waiters := g_waiters g; g_calls := g_calls g; g_channels := g_channels g; g_tracing := g_tracing g;
     g_starting := g_starting g; g_stopped := g_stopped g |}.
Definition with_waiters (g : Gateway) (ws : list wait_pc) : Gateway :=
  {| g_environ := g_environ g; g_debug := g_debug g; g_process := g_process g; g_procs := g_procs g;
     g_waiters := ws; g_calls := g_calls g; g_channels := g_channels g; g_tracing := g_tracing g;
     g_starting := g_starting g; g_stopped := g_stopped g |}.
Definition with_calls (g : Gateway) (cs : list (call * nat)) : Gateway :=
  {| g_environ := g_environ g; g_debug := g_debug g; g_process := g_process g; g_procs := g_procs g;
     g_waiters := g_waiters g; g_calls := cs; g_channels := g_channels g; g_tracing := g_tracing g;
     g_starting := g_starting g; g_stopped := g_stopped g |}.
Definition with_channels (g : Gateway) (cs : list out_channel) : Gateway :=
  {| g_environ := g_environ g; g_debug := g_debug g; g_process := g_process g; g_procs := g_procs g;
     g_waiters := g_waiters g; g_calls := g_calls g; g_channels := cs; g_tracing := g_tracing g;
     g_starting := g_starting g; g_stopped := g_stopped g |}.
Definition with_tracing (g : Gateway) (t : tracing) : Gateway :=
  {| g_environ := g_environ g; g_debug := g_debug g; g_process := g_process g; g_procs := g_procs g;
     g_waiters := g_waiters g; g_calls := g_calls g; g_channels := g_channels g; g_tracing := t;
     g_starting := g_starting g; g_stopped := g_stopped g |}.
Definition with_starting (g : Gateway) (s : option (start_request * bool)) : Gateway :=
  {| g_environ := g_environ g; g_debug := g_debug g; g_process := g_process g; g_procs := g_procs g;
     g_waiters := g_waiters g; g_calls := g_calls g; g_channels := g_channels g; g_tracing := g_tracing g;
     g_starting := s; g_stopped := g_stopped g |}.

Definition on_proc (g : Gateway) (pid : nat) (f : AgentProcess -> AgentProcess) : Gateway :=
  with_procs g (alter f pid (g_procs g)).
Definition at_waiter (g : Gateway) (i : nat) (pc : wait_pc) : Gateway := with_waiters g (<[i := pc]> (g_waiters g)).

Definition with_state (p : AgentProcess) (s : process_state) (question : string) : AgentProcess :=
  {| ap_cmd := ap_cmd p; ap_state := s; ap_exitError := ap_exitError p; ap_pendingQuestion := question;
     ap_reader := ap_reader p; ap_outputs := ap_outputs p; ap_exit := ap_exit p; ap_pipes := ap_pipes p;
     ap_killed := ap_killed p; ap_waited := ap_waited p |}.
Definition with_exitError (p : AgentProcess) (e : string) : AgentProcess :=
  {| ap_cmd := ap_cmd p; ap_state := ap_state p; ap_exitError := e; ap_pendingQuestion := ap_pendingQuestion p;
     ap_reader := ap_reader p; ap_outputs := ap_outputs p; ap_exit := ap_exit p; ap_pipes := ap_pipes p;
     ap_killed := ap_killed p; ap_waited := ap_waited p |}.
Definition with_reader (p : AgentProcess) (r : reader) : AgentProcess :=
  {| ap_cmd := ap_cmd p; ap_state := ap_state p; ap_exitError := ap_exitError p;
     ap_pendingQuestion := ap_pendingQuestion p; ap_reader := r; ap_outputs := ap_outputs p; ap_exit := ap_exit p;
     ap_pipes := ap_pipes p; ap_killed := ap_killed p; ap_waited := ap_waited p |}.
Definition with_outputs (p : AgentProcess) (o : list nat) : AgentProcess :=
  {| ap_cmd := ap_cmd p; ap_state := ap_state p; ap_exitError := ap_exitError p;
     ap_pendingQuestion := ap_pendingQuestion p; ap_reader := ap_reader p; ap_outputs := o; ap_exit := ap_exit p;
     ap_pipes := ap_pipes p; ap_killed := ap_killed p; ap_waited := ap_waited p |}.
Definition with_os (p : AgentProcess) (ex : option (option string)) (killed waited : bool) : AgentProcess :=
  {| ap_cmd := ap_cmd p; ap_state := ap_state p; ap_exitError := ap_exitError p;
     ap_pendingQuestion := ap_pendingQuestion p; ap_reader := ap_reader p; ap_outputs := ap_outputs p; ap_exit := ex;
     ap_pipes := ap_pipes p; ap_killed := killed; ap_waited := waited |}.
Definition with_pipes (p : AgentProcess) (pi : pipes) : AgentProcess :=
  {| ap_cmd := ap_cmd p; ap_state := ap_state p; ap_exitError := ap_exitError p;
     ap_pendingQuestion := ap_pendingQuestion p; ap_reader := ap_reader p; ap_outputs := ap_outputs p; ap_exit := ap_exit p;
     ap_pipes := pi; ap_killed := ap_killed p; ap_waited := ap_waited p |}.
Definition kill (p : AgentProcess) : AgentProcess := with_os p (ap_exit p) true (ap_waited p).

Definition write_line (p : AgentProcess) (line : string) : AgentProcess :=
  let pi := ap_pipes p in
  with_pipes p {| pi_written := pi_written pi ++ [line]; pi_stdout := pi_stdout pi; pi_stderr := pi_stderr pi |}.
Definition end_stdout (p : AgentProcess) (e : read_end) : AgentProcess :=
  let pi := ap_pipes p in with_pipes p {| pi_written := pi_written pi; pi_stdout := e; pi_stderr := pi_stderr pi |}.
Definition end_stderr (p : AgentProcess) : AgentProcess :=
  let pi := ap_pipes p in with_pipes p {| pi_written := pi_written pi; pi_stdout := pi_stdout pi; pi_stderr := true |}.

(** The line that the scanner of the standard output is at. *)
Definition next_line (p : AgentProcess) : option string := pi_written (ap_pipes p) !! length (rd_jsonl (ap_reader p)).

(** [proc.readerWg.Wait]: both readers have ended. *)
Definition drained (p : AgentProcess) : bool := negb (bool_decide (pi_stdout (ap_pipes p) = Reading)) && pi_stderr (ap_pipes p).

(** [internal/sidecar/gateway.go:423-431] startAgentProcess: the process of a command *)
Definition new_process (c : command) : AgentProcess :=
  {| ap_cmd := c; ap_state := StRunning; ap_exitError := ""; ap_pendingQuestion := ""; ap_reader := fresh_reader;
     ap_outputs := []; ap_exit := None;
     ap_pipes := {| pi_written := []; pi_stdout := Reading; pi_stderr := false |}; ap_killed := false; ap_waited := false |}.

Definition add_process (g : Gateway) (c : command) : Gateway :=
  with_process (with_procs g (g_procs g ++ [new_process c])) (Some (length (g_procs g))).

(** [internal/sidecar/gateway.go:143-160] NewGateway *)
Definition NewGateway (environ : list string) : Gateway :=
  {| g_environ := environ; g_debug := String.eqb (Getenv environ "AOT_DEBUG_MODE") "true"; g_process := None;
     g_procs := []; g_waiters := []; g_calls := []; g_channels := []; g_tracing := no_tracing;
     g_starting := None; g_stopped := false |}.

(** ** Starting an agent *)

Definition running (g : Gateway) (pid : nat) : bool :=
  match g_procs g !! pid with Some p => bool_decide (ap_state p = StRunning) | None => false end.

(** [internal/sidecar/gateway.go:200-257] StartAgent: up to the wait for the agent that is running,
    which the lock is held for *)
Definition start_begin (g : Gateway) (req : start_request) : gresult :=
  match g_starting g with
  | Some _ => Blocked
  | None =>
      if g_debug g then Next g
      else match checkOutputTokenBudget (g_environ g) (us_Output (tr_usage (g_tracing g))) with
           | Some _ => Next g
           | None => Next (with_starting g (Some (req, match g_process g with Some pid => running g pid | None => false end)))
           end
  end.

(** [internal/sidecar/gateway.go:258-264] StartAgent: the agent that was running is given up *)
Definition abandon (g : Gateway) : Gateway :=
  match g_process g with
  | None => g
  | Some pid => with_process (if running g pid then on_proc g pid kill else g) None
  end.

Section gateway.
Variables (float : string -> string) (uuid : nat -> string) (percent : Z -> Z -> Z).

(** [internal/sidecar/gateway.go:258-328] StartAgent: the rest, with the files as they are, the
    failures of the operating system and two readings of the clock *)
Definition start_end (g : Gateway) (t : tree) (fails : launch_step -> option string) (now now' : Z) : gresult :=
  match g_starting g with
  | None => Blocked
  | Some (req, was_running) =>
      let g := with_starting (if was_running then abandon g else g) None in
      match launch fails "start agent" with
      | Some _ => Next g
      | None =>
          let g := add_process g (agent_command t (g_environ g) req) in
          let g := with_tracing g (start_tracing uuid (g_tracing g) (sr_Stage req) (resolveWorkDir t (sr_RepoPath req))
                     (sr_ParentSpanId req) (sr_TraceId req) (Getenv (g_environ g) "PI_MODEL") (sr_AgentRunId req) now now') in
          Next (with_waiters g (g_waiters g ++ [WBegin]))
      end
  end.

(** ** Output *)

(** [internal/sidecar/gateway.go:700-708] startReaders: a send to a subscriber that does not block;
    [None] is the panic of a send on a closed channel *)
Definition send_output (cs : list out_channel) (line : string) (ch : nat) : option (list out_channel) :=
  match cs !! ch with
  | Some c =>
      if oc_Closed c then None
      else if (length (oc_Buffer c) <? outputCapacity)%nat
           then Some (<[ch := {| oc_Buffer := oc_Buffer c ++ [line]; oc_Closed := false |}]> cs)
           else Some cs
  | None => None
  end.

(** [internal/sidecar/gateway.go:834-837] waitForProcess: a subscriber is closed; [None] is the panic
    of closing twice *)
Definition close_output (cs : list out_channel) (ch : nat) : option (list out_channel) :=
  match cs !! ch with
  | Some c => if oc_Closed c then None
              else Some (<[ch := {| oc_Buffer := oc_Buffer c; oc_Closed := true |}]> cs)
  | None => None
  end.

Definition for_all_outputs (f : list out_channel -> nat -> option (list out_channel)) (cs : list out_channel)
    (chs : list nat) : option (list out_channel) := foldl (fun cs ch => cs ← cs; f cs ch) (Some cs) chs.

Definition send_all (g : Gateway) (p : AgentProcess) (line : string) : gresult :=
  match for_all_outputs (fun cs => send_output cs line) (g_channels g) (ap_outputs p) with
  | None => Panics
  | Some cs => Next (with_channels g cs)
  end.

(** [internal/sidecar/gateway.go:636-636] startReaders: the room for a line with its end *)
Definition maxLine : Z := 256 * 1024.

(** The line as the scanner gives it: without a carriage return at its end. *)
Definition scanned (line : string) : string := TrimSuffix line (String "013" "").

(** [internal/sidecar/gateway.go:643-714] startReaders: the next line of the standard output *)
Definition stdout_line (g : Gateway) (pid : nat) (ts : string) (gr : git_run) (now later : Z) : gresult :=
  match g_procs g !! pid with
  | Some p =>
      match pi_stdout (ap_pipes p), next_line p with
      | Reading, Some raw =>
          if maxLine <=? Z.of_nat (String.length raw) then Next (on_proc g pid (fun p => end_stdout p TooLong))
          else
            let line := scanned raw in
            match read_line float (ap_reader p) (ts, line) with
            | None => Next (on_proc g pid (fun p => end_stdout (kill p) Looped))
            | Some r =>
                let g := on_proc g pid (fun p => with_reader p r) in
                let g := with_tracing g (maybeCaptureStdoutSpan float uuid percent (g_tracing g) gr line now later) in
                send_all g p line
            end
      | _, _ => Blocked
      end
  | None => Blocked
  end.

(** A line is written while the pipe has an end that can be written to. *)
Definition written (g : Gateway) (pid : nat) (line : string) : gresult :=
  match g_procs g !! pid with
  | Some p => if bool_decide (pi_stdout (ap_pipes p) = AtEof) then Blocked else Next (on_proc g pid (fun p => write_line p line))
  | None => Blocked
  end.

(** [internal/sidecar/gateway.go:643-643] startReaders: the standard output is at its end when every line was read *)
Definition stdout_eof (g : Gateway) (pid : nat) : gresult :=
  match g_procs g !! pid with
  | Some p => match pi_stdout (ap_pipes p), next_line p with
              | Reading, None => Next (on_proc g pid (fun p => end_stdout p AtEof))
              | _, _ => Blocked
              end
  | None => Blocked
  end.

(** A goroutine has called [Wait] for a process. *)
Definition waits_for (pid : nat) (pc : wait_pc) : bool :=
  match pc with WFirst p | WRetry p _ | WFallback p => Nat.eqb p pid | _ => false end.

(** [internal/sidecar/gateway.go:857-859] waitForSingleProcess: [Wait] closes the pipe when the process has ended, whether it was read
    or not *)
Definition stdout_closed (g : Gateway) (pid : nat) : gresult :=
  match g_procs g !! pid with
  | Some p => match pi_stdout (ap_pipes p), ap_exit p with
              | Reading, Some _ => if existsb (waits_for pid) (g_waiters g)
                                   then Next (on_proc g pid (fun p => end_stdout p Closed)) else Blocked
              | _, _ => Blocked
              end
  | None => Blocked
  end.

(** [internal/sidecar/gateway.go:691-711] startReaders: a line of the standard error *)
Definition stderr_line (g : Gateway) (pid : nat) (line : string) : gresult :=
  match g_procs g !! pid with
  | Some p => if pi_stderr (ap_pipes p) then Blocked else send_all g p line
  | None => Blocked
  end.

(** ** Waiting *)

(** [internal/sidecar/gateway.go:855-928] waitForSingleProcess: the process and the error, once it has
    ended and its readers have; to wait a second time is an error *)
Definition wait_single (p : AgentProcess) (dup : string) : option (AgentProcess * option string) :=
  match ap_exit p with
  | Some ex =>
      if drained p then
        let err := if ap_waited p then Some dup else ex in
        let p := with_os p (ap_exit p) (ap_killed p) true in
        match err with
        | Some e => Some (with_exitError p e, Some e)
        | None =>
            let llmErr := rd_llmError (ap_reader p) in
            if String.eqb llmErr "" then Some (p, None)
            else Some (with_exitError p llmErr, Some ("failed: LLM error: " +:+ llmErr))
        end
      else None
  | None => None
  end.

(** The error that a process keeps, with the error of the wait. *)
Definition error_text (g : Gateway) (pid : nat) (e : string) : string :=
  match g_procs g !! pid with Some p => ap_exitError p +:+ e | None => e end.

(** [internal/sidecar/gateway.go:822-842] waitForProcess: the end *)
Definition finish_wait (g : Gateway) (i pid : nat) (err : option string) : gresult :=
  match g_procs g !! pid with
  | None => Blocked
  | Some p =>
      match for_all_outputs close_output (g_channels g) (ap_outputs p) with
      | None => Panics
      | Some cs =>
          let p' := match err with
                    | Some e => with_exitError (with_state p StFailed (ap_pendingQuestion p))
                                  (if String.eqb (ap_exitError p) "" then e else ap_exitError p)
                    | None => with_state p StCompleted (ap_pendingQuestion p)
                    end in
          Next (at_waiter (with_channels (on_proc g pid (fun _ => with_outputs p' [])) cs) i WEnd)
      end
  end.

(** [internal/sidecar/gateway.go:800-820] waitForProcess: the model that is tried when the first one
    is overloaded; [fb] is the error of starting it *)
Definition try_fallback (g : Gateway) (i pid : nat) (err fb : option string) : gresult :=
  let fallbackModel := Getenv (g_environ g) "AGENT_FALLBACK_MODEL" in
  match err, g_procs g !! pid with
  | Some e, Some p =>
      if isOverloadedError (error_text g pid e) && negb (String.eqb fallbackModel "") then
        match fb with
        | Some _ => finish_wait g i pid err
        | None => match g_starting g with
                  | Some _ => Blocked
                  | None => Next (at_waiter (add_process g (with_model (ap_cmd p) fallbackModel)) i
                                    (WFallback (length (g_procs g))))
                  end
        end
      else finish_wait g i pid err
  | _, _ => finish_wait g i pid err
  end.

(** [internal/sidecar/gateway.go:791-797] waitForProcess: behind the loop *)
Definition after_retries (g : Gateway) (i pid : nat) (err fb : option string) : gresult :=
  match err with
  | Some _ => try_fallback (on_proc g pid (fun p => with_exitError p
                ("Rate limited after " +:+ Itoa (Z.of_nat maxRateLimitRetries) +:+ " retries: " +:+ ap_exitError p))) i pid err fb
  | None => try_fallback g i pid err fb
  end.

(** The result of a wait is put into the state. *)
Definition collect (g : Gateway) (pid : nat) (dup : string) : option (Gateway * option string) :=
  p ← g_procs g !! pid; '(p, err) ← wait_single p dup; Some (on_proc g pid (fun _ => p), err).

(** [internal/sidecar/gateway.go:751-845] waitForProcess: the next step of a goroutine; [abort] is the
    choice between the timer and a gateway that stops, [retry] the error of starting again *)
Definition wait_step (g : Gateway) (i : nat) (dup : string) (abort : bool) (retry fb : option string) : gresult :=
  match g_waiters g !! i with
  | Some WBegin =>
      match g_starting g, g_process g with
      | Some _, _ => Blocked
      | None, None => Next (at_waiter g i WEnd)
      | None, Some pid => Next (at_waiter g i (WFirst pid))
      end
  | Some (WFirst pid) =>
      match collect g pid dup with
      | None => Blocked
      | Some (g, Some e) =>
          if isRateLimitError (error_text g pid e) then Next (at_waiter g i (WBackoff pid 1 e))
          else try_fallback g i pid (Some e) fb
      | Some (g, None) => try_fallback g i pid None fb
      end
  | Some (WBackoff pid n e) =>
      if g_stopped g && abort then Next (at_waiter g i WEnd)
      else match retry, g_procs g !! pid with
      | Some _, _ => if (n <? maxRateLimitRetries)%nat then Next (at_waiter g i (WBackoff pid (S n) e))
                     else after_retries g i pid (Some e) fb
      | None, Some p => match g_starting g with
                        | Some _ => Blocked
                        | None => Next (at_waiter (add_process g (ap_cmd p)) i (WRetry (length (g_procs g)) n))
                        end
      | None, None => Blocked
      end
  | Some (WRetry pid n) =>
      match collect g pid dup with
      | None => Blocked
      | Some (g, Some e) =>
          if isRateLimitError (error_text g pid e) && (n <? maxRateLimitRetries)%nat
          then Next (at_waiter g i (WBackoff pid (S n) e))
          else after_retries g i pid (Some e) fb
      | Some (g, None) => after_retries g i pid None fb
      end
  | Some (WFallback pid) =>
      match collect g pid dup with
      | None => Blocked
      | Some (g, err) => finish_wait g i pid err
      end
  | Some WEnd | None => Blocked
  end.

(** ** Calls *)

(** A call reads the current process; without one it answers at once. *)
Definition call_begin (g : Gateway) (c : call) : gresult :=
  match g_starting g, g_process g with
  | Some _, _ => Blocked
  | None, None => Next g
  | None, Some pid => Next (with_calls g (g_calls g ++ [(c, pid)]))
  end.

(** [internal/sidecar/gateway.go:1076-1079] StreamOutput: a subscriber *)
Definition subscribe (g : Gateway) (pid : nat) : Gateway :=
  with_channels (on_proc g pid (fun p => with_outputs p (ap_outputs p ++ [length (g_channels g)])))
    (g_channels g ++ [{| oc_Buffer := []; oc_Closed := false |}]).

(** [internal/sidecar/gateway.go:1083-1092] StreamOutput: the subscriber is removed *)
Definition unsubscribe (g : Gateway) (pid ch : nat) : Gateway :=
  on_proc g pid (fun p => with_outputs p (filter (fun c => c <> ch) (ap_outputs p))).

(** [internal/sidecar/gateway.go:1123-1138] SendInput: behind the check of the process; [io] is an error
    of writing the answer *)
Definition send_input (g : Gateway) (pid : nat) (io : bool) : Gateway :=
  if io then g else on_proc g pid (fun p => with_state p StRunning "").

(** [internal/sidecar/gateway.go:1186-1257] NotifyEvent: behind the check of the process *)
Definition notify (g : Gateway) (pid : nat) (c : call) (gr : git_run) (now : Z) : Gateway :=
  match c with
  | CWaiting payload => on_proc g pid (fun p => with_state p StWaiting payload)
  | CStarted => with_tracing (on_proc g pid (fun p => with_state p StRunning (ap_pendingQuestion p)))
                  (notify_started uuid (g_tracing g) now)
  | CToolCall payload =>
      with_tracing g (default (createGitCheckpoint (new_id uuid (g_tracing g)).2 gr).1
                        (notify_tool_call uuid (g_tracing g) gr payload now))
  | CLog payload => with_tracing g (notify_log uuid (g_tracing g) payload now)
  | _ => g
  end.

(** [internal/sidecar/gateway.go:1269-1273] StopAgent: behind the check of the process *)
Definition stop_agent (g : Gateway) (pid : nat) (force : bool) : Gateway := if force then on_proc g pid kill else g.

Definition call_act (g : Gateway) (i : nat) (io : bool) (gr : git_run) (now : Z) : gresult :=
  match g_calls g !! i with
  | None => Blocked
  | Some (c, pid) =>
      let g := with_calls g (delete i (g_calls g)) in
      Next match c with
           | CStream => subscribe g pid
           | CSend => send_input g pid io
           | CStop force => stop_agent g pid force
           | _ => notify g pid c gr now
           end
  end.

(** [internal/sidecar/gateway.go:1141-1172] GetStatus: the state, and the error *)
Definition GetStatus (g : Gateway) : process_state * string :=
  match pid ← g_process g; g_procs g !! pid with
  | None => (StUnspecified, "")
  | Some p => (ap_state p,
               if bool_decide (ap_state p = StWaiting) && negb (String.eqb (ap_pendingQuestion p) "")
               then ap_pendingQuestion p else ap_exitError p)
  end.

(** [internal/sidecar/gateway.go:192-198] Stop *)
Definition Stop (g : Gateway) : Gateway :=
  {| g_environ := g_environ g; g_debug := g_debug g; g_process := g_process g; g_procs := g_procs g;
     g_waiters := g_waiters g; g_calls := g_calls g; g_channels := g_channels g; g_tracing := g_tracing g;
     g_starting := g_starting g; g_stopped := true |}.

(** ** Steps *)

Inductive label :=
| LStartBegin (req : start_request)
| LStartEnd (t : tree) (fails : launch_step -> option string) (now now' : Z)
| LWrite (pid : nat) (line : string)
| LStdout (pid : nat) (ts : string) (gr : git_run) (now later : Z)
| LEof (pid : nat)
| LClosed (pid : nat)
| LStderr (pid : nat) (line : string)
| LStderrEnd (pid : nat)
| LExit (pid : nat) (err : option string)
| LWait (i : nat) (dup : string) (abort : bool) (retry fb : option string)
| LCall (c : call)
| LAct (i : nat) (io : bool) (gr : git_run) (now : Z)
| LReceive (ch : nat)
| LLeave (pid ch : nat)
| LStop.

Definition step (g : Gateway) (l : label) : gresult :=
  match l with
  | LStartBegin req => start_begin g req
  | LStartEnd t fails now now' => start_end g t fails now now'
  | LWrite pid line => written g pid line
  | LStdout pid ts gr now later => stdout_line g pid ts gr now later
  | LEof pid => stdout_eof g pid
  | LClosed pid => stdout_closed g pid
  | LStderr pid line => stderr_line g pid line
  | LStderrEnd pid => Next (on_proc g pid end_stderr)
  | LExit pid err =>
      Next (on_proc g pid (fun p => match ap_exit p with
        | None => with_os p (Some err) (ap_killed p) (ap_waited p)
        | Some _ => p
        end))
  | LWait i dup abort retry fb => wait_step g i dup abort retry fb
  | LCall c => call_begin g c
  | LAct i io gr now => call_act g i io gr now
  | LReceive ch =>
      Next (with_channels g (alter (fun c => {| oc_Buffer := tail (oc_Buffer c); oc_Closed := oc_Closed c |}) ch (g_channels g)))
  | LLeave pid ch => Next (unsubscribe g pid ch)
  | LStop => Next (Stop g)
  end.

(** What a run of labels leads to. *)
Fixpoint run (g : Gateway) (ls : list label) : gresult :=
  match ls with
  | [] => Next g
  | l :: ls => match step g l with Next g => run g ls | r => r end
  end.
End gateway.
