(* ===== verification/SidecarProps.v ===== *)
(** * Properties of the sidecar.

    Whatever steps the gateway takes, it never sends on a closed channel, says that an agent
    completed only when its process ended well, its output was read as far as the readers read it, and no line of that
    reported an error of the model, gives a reason for every failure, and starts at most five processes for a request.  The examples are runs in
    which its bookkeeping goes wrong. *)

From S2P Require Import Prelude GoStrings Files Json VerifyRun JsonRaw PiEvents AgentLaunch SidecarSpans SidecarGateway.
Local Open Scope Z_scope.

(** ** The processes *)

(** What the state of a process promises. *)
Definition proc_ok (p : AgentProcess) : Prop :=
  (ap_state p = StCompleted -> ap_exit p = Some None /\ drained p = true /\ rd_llmError (ap_reader p) = "") /\
  (ap_state p = StFailed -> ap_exitError p <> "").

(** The operating system gives a text with every error. *)
Definition label_ok (l : label) : Prop :=
  match l with
  | LExit _ (Some e) => e <> ""
  | LWait _ dup _ _ _ => dup <> ""
  | _ => True
  end.

(** The lines that a reader of the standard output has read are the first that were written.  It has read them all; or it has not
    since the next one is longer than the scanner allows, since it makes the same tool call five times in a row, or since the pipe
    was closed, of a process that has ended. *)
Definition heard (ex : option (option string)) (pi : pipes) (read : list string) : Prop :=
  let lines := scanned <$> pi_written pi in
  read `prefix_of` lines /\
  match pi_stdout pi with
  | Reading => True
  | Closed => is_Some ex
  | AtEof => read = lines
  | TooLong => exists l, pi_written pi !! length read = Some l /\ maxLine <= Z.of_nat (String.length l)
  | Looped => exists l, lines !! length read = Some l /\ repeats (tool_calls (extractToolCallSignature <$> (read ++ [l])))
  end.

(** What a reader has made of the lines that it has read. *)
Definition reader_ok (r : reader) : Prop :=
  loop_run no_calls (extractToolCallSignature <$> rd_jsonl r) = Some (rd_loop r) /\
  (rd_llmError r = "" -> Forall (fun l => detectLLMError l = None) (rd_jsonl r)).

Definition exit_ok (p : AgentProcess) : Prop :=
  ap_exit p <> Some (Some "") /\ heard (ap_exit p) (ap_pipes p) (rd_jsonl (ap_reader p)) /\ reader_ok (ap_reader p).

Definition procs_ok (g : Gateway) : Prop := Forall (fun p => proc_ok p /\ exit_ok p) (g_procs g).

Lemma on_proc_ok g pid f :
  procs_ok g -> (forall p, g_procs g !! pid = Some p -> proc_ok p /\ exit_ok p -> proc_ok (f p) /\ exit_ok (f p)) ->
  procs_ok (on_proc g pid f).
Proof.
  unfold procs_ok, on_proc. simpl. intros Hg Hf. apply Forall_lookup. intros j p Hj.
  rewrite list_lookup_alter in Hj. destruct (decide (pid = j)) as [->|Hne].
  - destruct (g_procs g !! j) as [q|] eqn:E; [|done]. simplify_eq/=. apply Hf; [done|].
    by eapply Forall_lookup_1 in Hg.
  - by eapply Forall_lookup_1 in Hg.
Qed.

(** ** The channels *)

Definition outs (ps : list AgentProcess) : list nat := concat (ap_outputs <$> ps).

Definition is_open (cs : list out_channel) (ch : nat) : Prop :=
  exists c, cs !! ch = Some c /\ oc_Closed c = false.

Definition channels_ok (g : Gateway) : Prop :=
  NoDup (outs (g_procs g)) /\ Forall (is_open (g_channels g)) (outs (g_procs g)).

Lemma outs_middle l p r : outs (l ++ p :: r) = outs l ++ ap_outputs p ++ outs r.
Proof. unfold outs. by rewrite fmap_app, concat_app. Qed.

(** One process among the others. *)
Lemma alter_middle {A} (f : A -> A) l i x :
  l !! i = Some x -> exists l1 l2, l = l1 ++ x :: l2 /\ alter f i l = l1 ++ f x :: l2.
Proof.
  intros Hx. destruct (list_elem_of_split_length l i x Hx) as (l1 & l2 & -> & ->). exists l1, l2. split; [done|].
  by rewrite alter_app_r_alt, Nat.sub_diag by done.
Qed.

Lemma outs_on_proc ps pid f :
  (forall p, ap_outputs (f p) = ap_outputs p) -> outs (alter f pid ps) = outs ps.
Proof.
  intros Hf. destruct (ps !! pid) as [p|] eqn:E; [|].
  2:{ f_equal. apply list_eq. intros j. rewrite list_lookup_alter. case_decide; [subst; by rewrite E|done]. }
  destruct (alter_middle f ps pid p E) as (l1 & l2 & -> & ->). by rewrite !outs_middle, Hf.
Qed.

Lemma sends_ok cs chs line :
  Forall (is_open cs) chs ->
  exists cs', for_all_outputs (fun cs => send_output cs line) cs chs = Some cs' /\
    forall ch, is_open cs ch -> is_open cs' ch.
Proof.
  unfold for_all_outputs. intros H. revert cs H. induction chs as [|ch chs IH]; intros cs H; [by exists cs|].
  apply Forall_cons in H as [(c & Hc & Ho) H]. simpl. unfold send_output at 2. rewrite Hc, Ho.
  destruct (_ <? _)%nat; [|by apply IH].
  set (cs1 := <[ch := _]> cs). assert (forall j, is_open cs j -> is_open cs1 j) as H1.
  { intros j (d & Hd & Hdo). destruct (decide (j = ch)) as [->|Hne].
    - eexists. split; [apply list_lookup_insert_eq; by eapply lookup_lt_Some|done].
    - exists d. split; [|done]. unfold cs1. by rewrite list_lookup_insert_ne by done. }
  destruct (IH cs1) as (cs' & He & Hcs'); [eapply Forall_impl; [done|]; auto|]. exists cs'. auto.
Qed.

Lemma closes_ok cs chs :
  NoDup chs -> Forall (is_open cs) chs ->
  exists cs', for_all_outputs close_output cs chs = Some cs' /\
    forall ch, ch ∉ chs -> is_open cs ch -> is_open cs' ch.
Proof.
  unfold for_all_outputs. intros Hnd H. revert cs Hnd H.
  induction chs as [|ch chs IH]; intros cs Hnd H; [by exists cs|].
  apply Forall_cons in H as [(c & Hc & Ho) H]. apply NoDup_cons in Hnd as [Hch Hnd]. simpl.
  unfold close_output at 2. rewrite Hc, Ho. set (cs1 := <[ch := _]> cs).
  assert (forall j, j <> ch -> is_open cs j -> is_open cs1 j) as H1.
  { intros j Hne (d & Hd & Hdo). exists d. split; [|done]. unfold cs1. by rewrite list_lookup_insert_ne by done. }
  destruct (IH cs1) as (cs' & He & Hcs'); [done| |].
  - apply Forall_forall. intros j Hj. rewrite Forall_forall in H. apply H1; [by intros ->|by apply H].
  - exists cs'. split; [done|]. intros j [Hj1 Hj2]%not_elem_of_cons Hop. apply Hcs'; [done|]. by apply H1.
Qed.

(** ** The invariant *)

Definition inv (g : Gateway) : Prop := procs_ok g /\ channels_ok g.

Definition safe (r : gresult) : Prop := match r with Next g => inv g | Blocked => True | Panics => False end.

(** Only the processes and the channels matter. *)
Lemma inv_ext g g' : g_procs g' = g_procs g -> g_channels g' = g_channels g -> inv g -> inv g'.
Proof. unfold inv, procs_ok, channels_ok. by intros -> ->. Qed.

Lemma inv_on_proc g pid f :
  inv g -> (forall p, ap_outputs (f p) = ap_outputs p) ->
  (forall p, g_procs g !! pid = Some p -> proc_ok p /\ exit_ok p -> proc_ok (f p) /\ exit_ok (f p)) ->
  inv (on_proc g pid f).
Proof.
  intros [Hp Hc] Ho Hf. split; [by apply on_proc_ok|].
  unfold channels_ok, on_proc in *. simpl. by rewrite outs_on_proc.
Qed.

Lemma inv_add_process g c : inv g -> inv (add_process g c).
Proof.
  intros [Hp Hc]. split.
  - apply Forall_app. split; [done|]. by repeat constructor.
  - unfold channels_ok, outs in *. simpl. by rewrite fmap_app, concat_app, !app_nil_r.
Qed.

(** A process that ended well, with its readers, and no error of the model in what they read. *)
Definition clean (p : AgentProcess) : Prop :=
  ap_exit p = Some None /\ drained p = true /\ rd_llmError (ap_reader p) = "".

(** What is known of a process when its wait ends with an error or without. *)
Definition waited_for (err : option string) (p : AgentProcess) : Prop :=
  match err with Some e => e <> "" \/ ap_exitError p <> "" | None => clean p end.

Lemma finish_wait_safe g i pid err :
  inv g -> (forall p, g_procs g !! pid = Some p -> waited_for err p) -> safe (finish_wait g i pid err).
Proof.
  intros [Hp [Hnd Ho]] Herr. unfold finish_wait. destruct (g_procs g !! pid) as [p|] eqn:E; [|done].
  destruct (alter_middle (fun _ => with_outputs match err with
    | Some e => with_exitError (with_state p StFailed (ap_pendingQuestion p))
                  (if String.eqb (ap_exitError p) "" then e else ap_exitError p)
    | None => with_state p StCompleted (ap_pendingQuestion p) end []) _ _ _ E) as (l1 & l2 & Hl & Ha).
  rewrite Hl, outs_middle in Hnd, Ho. apply NoDup_app in Hnd as (Hn1 & Hd1 & Hn2).
  apply NoDup_app in Hn2 as (Hn2 & Hd2 & Hn3). rewrite !Forall_app in Ho. destruct Ho as (Ho1 & Ho2 & Ho3).
  destruct (closes_ok (g_channels g) (ap_outputs p) Hn2 Ho2) as (cs & -> & Hcs).
  assert (forall l, Forall (is_open (g_channels g)) l -> (forall x, x ∈ l -> x ∉ ap_outputs p) -> Forall (is_open cs) l) as Hkeep.
  { intros l Hop Hdis. rewrite Forall_forall in Hop |- *. intros x Hx. apply Hcs; auto. }
  split.
  - apply on_proc_ok; [done|]. intros ? Hq [[_ _] Hx]. assert (p = p) as _ by done.
    rewrite E in Hq. injection Hq as <-. destruct err as [e|]; simpl; (split; [|done]); split; try done.
    + intros _. simpl. destruct (String.eqb_spec (ap_exitError p) "") as [He|]; [|done].
      destruct (Herr p eq_refl) as [?|?]; [done|by rewrite He in *].
    + intros _. by apply (Herr p eq_refl).
  - unfold channels_ok. simpl. unfold on_proc in Ha. rewrite Ha, outs_middle. simpl. split.
    + apply NoDup_app. split; [done|]. split; [|done]. intros x Hx. specialize (Hd1 x Hx).
      rewrite elem_of_app in Hd1. tauto.
    + rewrite Forall_app. split; apply Hkeep; try done.
      * intros x Hx Hx'. apply (Hd1 x Hx). rewrite elem_of_app. by left.
      * intros x Hx Hx'. by apply (Hd2 x Hx').
Qed.

Lemma collect_ok g pid dup g' err :
  inv g -> dup <> "" -> collect g pid dup = Some (g', err) ->
  inv g' /\ forall q, g_procs g' !! pid = Some q -> waited_for err q.
Proof.
  intros Hg Hdup. unfold collect. destruct (g_procs g !! pid) as [p|] eqn:E; simpl; [|done].
  unfold wait_single. destruct (ap_exit p) as [ex|] eqn:Eex; simpl; [|done].
  destruct (drained p) eqn:Ed; simpl; [|done].
  set (err' := if ap_waited p then Some dup else ex).
  assert (exit_ok p) as Hex. { destruct Hg as [Hp _]. by eapply Forall_lookup_1 in Hp as [_ ?]. }
  assert (err' <> Some "") as Herr'.
  { unfold err'. destruct Hex as [Hex _]. rewrite Eex in Hex. destruct (ap_waited p); congruence. }
  assert (forall q, g_procs g !! pid = Some q -> q = p) as Hq by (intros; congruence).
  assert (forall q, ap_outputs q = ap_outputs p -> (proc_ok p /\ exit_ok p -> proc_ok q /\ exit_ok q) ->
          inv (on_proc g pid (fun _ => q))) as Hon.
  { intros q Ho Hk. destruct Hg as [Hp Hc]. split; [apply on_proc_ok; [done|]; intros r ->%Hq; done|].
    unfold channels_ok in *. simpl.
    destruct (alter_middle (fun _ => q) _ _ _ E) as (l1 & l2 & Hl & ->). rewrite Hl in Hc. rewrite outs_middle in *.
    by rewrite Ho. }
  destruct err' as [e|] eqn:Ee'; simpl.
  - intros [= <- <-]. split; [|left; congruence]. apply Hon; [done|]. unfold proc_ok, exit_ok. simpl. rewrite Eex.
    intuition congruence.
  - destruct (String.eqb_spec (rd_llmError (ap_reader p)) "") as [Hl|Hl]; simpl; intros [= <- <-].
    + split; [apply Hon; [done|]; unfold proc_ok, exit_ok; simpl; rewrite Eex; intuition congruence|].
      intros q. simpl. rewrite list_lookup_alter. rewrite decide_True by done. rewrite E. intros [= <-].
      unfold waited_for, clean. simpl. unfold err' in Ee'. destruct (ap_waited p); [done|]. by subst ex.
    + split; [|by left]. apply Hon; [done|]. unfold proc_ok, exit_ok. simpl. rewrite Eex. intuition congruence.
Qed.

Lemma try_fallback_safe g i pid err fb :
  inv g -> (forall p, g_procs g !! pid = Some p -> waited_for err p) -> safe (try_fallback g i pid err fb).
Proof.
  intros Hg Herr. pose proof (finish_wait_safe g i pid err Hg Herr) as Hfin. unfold try_fallback.
  destruct err as [e|]; [|done]. destruct (g_procs g !! pid) as [p|]; [|done].
  destruct (_ && _); [|done]. destruct fb; [done|].
  destruct (g_starting g); [done|]. by apply (inv_ext (add_process g (with_model (ap_cmd p) (Getenv (g_environ g) "AGENT_FALLBACK_MODEL")))), inv_add_process.
Qed.

Lemma after_failure_safe g i pid e fb : inv g -> safe (after_retries g i pid (Some e) fb).
Proof.
  intros Hg. unfold after_retries. apply try_fallback_safe.
  - apply inv_on_proc; [done|done|]. intros p _ [Hk Hx]. split; [|done]. destruct Hk as [Hc _]. by split.
  - intros p. simpl. rewrite list_lookup_alter, decide_True by done.
    destruct (g_procs g !! pid); intros [= <-]. by right.
Qed.

Lemma after_retries_safe g i pid err fb :
  inv g -> (forall p, g_procs g !! pid = Some p -> waited_for err p) -> safe (after_retries g i pid err fb).
Proof. intros Hg Herr. destruct err; [by apply after_failure_safe|by apply try_fallback_safe]. Qed.

Lemma wait_step_safe g i dup abort retry fb : inv g -> dup <> "" -> safe (wait_step g i dup abort retry fb).
Proof.
  intros Hg Hdup. unfold wait_step.
  destruct (g_waiters g !! i) as [[|pid|pid n e|pid n|pid|]|]; try done.
  - destruct (g_starting g); [done|]. by destruct (g_process g).
  - destruct (collect g pid dup) as [[g' err]|] eqn:E; [|done].
    apply collect_ok in E as [Hg' Herr]; [|done..]. destruct err as [e|]; [|by apply try_fallback_safe].
    destruct (isRateLimitError _); [done|]. by apply try_fallback_safe.
  - destruct (_ && _); [done|]. destruct retry.
    + destruct (_ <? _)%nat; [done|]. by apply after_failure_safe.
    + destruct (g_procs g !! pid) as [p|]; [|done]. destruct (g_starting g); [done|].
      by apply (inv_ext (add_process g (ap_cmd p))), inv_add_process.
  - destruct (collect g pid dup) as [[g' err]|] eqn:E; [|done].
    apply collect_ok in E as [Hg' Herr]; [|done..]. destruct err as [e|]; [|by apply after_retries_safe].
    destruct (_ && _); [done|]. by apply after_failure_safe.
  - destruct (collect g pid dup) as [[g' err]|] eqn:E; [|done].
    apply collect_ok in E as [Hg' Herr]; [|done..]. by apply finish_wait_safe.
Qed.

Lemma send_all_safe g p q pid line :
  inv g -> g_procs g !! pid = Some q -> ap_outputs q = ap_outputs p -> safe (send_all g p line).
Proof.
  intros [Hp [Hnd Ho]] Hq Hpq. unfold send_all.
  assert (Forall (is_open (g_channels g)) (ap_outputs p)) as Hop.
  { destruct (alter_middle (fun x => x) _ _ _ Hq) as (l1 & l2 & Hl & _). rewrite Hl, outs_middle in Ho.
    rewrite !Forall_app in Ho. rewrite <- Hpq. tauto. }
  destruct (sends_ok _ _ line Hop) as (cs & -> & Hcs). split; [done|]. split; [done|].
  eapply Forall_impl; [done|]. exact Hcs.
Qed.

Lemma with_state_ok g pid s question :
  inv g -> s <> StCompleted -> s <> StFailed -> inv (on_proc g pid (fun p => with_state p s question)).
Proof. intros Hg H1 H2. apply inv_on_proc; [done..|]. intros p _ [_ Hx]. split; [split; simpl; congruence|done]. Qed.

Lemma with_os_ok g pid f :
  inv g ->
  (forall p, g_procs g !! pid = Some p -> exit_ok p ->
     (ap_exit (f p) = ap_exit p \/ ap_exit p = None) /\ (drained p = true -> drained (f p) = true) /\
     exit_ok (f p) /\ ap_state (f p) = ap_state p /\ ap_exitError (f p) = ap_exitError p /\
     ap_reader (f p) = ap_reader p) ->
  (forall p, ap_outputs (f p) = ap_outputs p) -> inv (on_proc g pid f).
Proof.
  intros Hg Hf Ho. apply inv_on_proc; [done..|]. intros p E [[Hc Hfl] Hx].
  destruct (Hf p E Hx) as (He & Hd & Hx' & Hs & Hee & Hr). split; [|done]. unfold proc_ok.
  rewrite Hs, Hee, Hr. split; [|done]. intros (He' & Hd' & Hl')%Hc. destruct He as [->|Hn]; [auto|congruence].
Qed.

Lemma heard_exit ex ex' pi read : (is_Some ex -> is_Some ex') -> heard ex pi read -> heard ex' pi read.
Proof. unfold heard. intros He [Hp H]. split; [done|]. destruct (pi_stdout pi); auto. Qed.

(** A line that is read: the reader has one more, and knows of its error. *)
Lemma loop_run_snoc st sigs sig : loop_run st (sigs ++ [sig]) = st ← loop_run st sigs; loop_step st sig.
Proof.
  revert st. induction sigs as [|s sigs IH]; intros st; simpl; [by destruct (loop_step st sig)|].
  destruct (loop_step st s); simpl; [apply IH|done].
Qed.

Lemma detectLLMError_text l : detectLLMError l <> Some "".
Proof.
  unfold detectLLMError. destruct (JsonDecode.Unmarshal _ _ _) as [[ty [[reason msg]|]]|]; try done.
  destruct (_ && _); [|done]. by destruct (String.eqb_spec msg ""); [|intros [=]].
Qed.

Lemma read_line_ok float r ts l r' :
  reader_ok r -> read_line float r (ts, l) = Some r' -> reader_ok r' /\ rd_jsonl r' = rd_jsonl r ++ [l].
Proof.
  intros [Hl He]. unfold read_line. destruct (loop_step _ _) as [st|] eqn:Es; simpl; [|done].
  destruct (formatPiEvent _ _ _ _) as [buf formatted]. intros [= <-]. split; [|done]. split; simpl.
  - rewrite fmap_app. change (_ <$> [l]) with [extractToolCallSignature l]. by rewrite loop_run_snoc, Hl.
  - rewrite Forall_app, Forall_singleton. destruct (String.eqb_spec (rd_llmError r) "") as [Hn|]; [|done].
    pose proof (detectLLMError_text l). destruct (detectLLMError l); naive_solver.
Qed.

Lemma read_line_repeats float r ts l :
  reader_ok r -> read_line float r (ts, l) = None ->
  repeats (tool_calls (extractToolCallSignature <$> (rd_jsonl r ++ [l]))).
Proof.
  intros [Hl _] Hn%read_line_None. apply (loop_run_repeats no_calls); [split; [vm_compute; lia|done]|].
  rewrite fmap_app. change (_ <$> [l]) with [extractToolCallSignature l]. by rewrite loop_run_snoc, Hl.
Qed.

Lemma subscribe_ok g pid : inv g -> inv (subscribe g pid).
Proof.
  intros [Hp [Hnd Ho]]. split.
  - apply (on_proc_ok g); [done|]. by intros p _ [[? ?] ?].
  - assert (Forall (is_open (g_channels g ++ [{| oc_Buffer := []; oc_Closed := false |}])) (outs (g_procs g))) as Ho'.
    { eapply Forall_impl; [done|]. intros ch (c & Hc & Hcl). exists c. split; [|done]. by apply lookup_app_l_Some. }
    unfold channels_ok, subscribe. simpl. destruct (g_procs g !! pid) as [p|] eqn:E.
    + destruct (alter_middle (fun p => with_outputs p (ap_outputs p ++ [length (g_channels g)])) _ _ _ E)
        as (l1 & l2 & Hl & ->).
      rewrite Hl, outs_middle in Hnd, Ho, Ho'. rewrite outs_middle. simpl. split.
      * rewrite <- (app_assoc (ap_outputs p)), (app_assoc (outs l1)).
        assert (outs l1 ++ ap_outputs p ++ [length (g_channels g)] ++ outs l2 ≡ₚ
                length (g_channels g) :: outs l1 ++ ap_outputs p ++ outs l2) as Hperm by solve_Permutation.
        rewrite <- app_assoc, Hperm. constructor; [|done]. intros Hin. rewrite Forall_forall in Ho.
        destruct (Ho _ Hin) as (c & Hc & _). apply lookup_lt_Some in Hc. lia.
      * rewrite !Forall_app in Ho' |- *. destruct Ho' as (? & ? & ?). rewrite !Forall_app, Forall_singleton.
        repeat split; try done. eexists. split; [by rewrite lookup_app_r, Nat.sub_diag by lia|done].
    + assert (alter (fun p => with_outputs p (ap_outputs p ++ [length (g_channels g)])) pid (g_procs g) = g_procs g) as ->.
      { apply list_eq. intros j. rewrite list_lookup_alter. case_decide; [subst; by rewrite E|done]. }
      done.
Qed.

Lemma unsubscribe_ok g pid ch : inv g -> inv (unsubscribe g pid ch).
Proof.
  intros [Hp [Hnd Ho]]. split.
  - apply (on_proc_ok g); [done|]. by intros p _ [[? ?] ?].
  - unfold channels_ok, unsubscribe. simpl. destruct (g_procs g !! pid) as [p|] eqn:E.
    + destruct (alter_middle (fun p => with_outputs p (filter (fun c => c <> ch) (ap_outputs p))) _ _ _ E)
        as (l1 & l2 & Hl & ->).
      rewrite Hl, outs_middle in Hnd, Ho. rewrite outs_middle. simpl.
      assert (outs l1 ++ filter (fun c => c <> ch) (ap_outputs p) ++ outs l2 `sublist_of`
              outs l1 ++ ap_outputs p ++ outs l2) as Hsub.
      { apply sublist_app; [done|]. apply sublist_app; [|done]. apply sublist_filter. }
      split; [by eapply sublist_NoDup|eapply Forall_sub; [by apply sublist_submseteq|done]].
    + match goal with |- context [alter ?f pid (g_procs g)] => assert (alter f pid (g_procs g) = g_procs g) as -> end; [|done].
      apply list_eq. intros j. rewrite list_lookup_alter. case_decide; [subst; by rewrite E|done].
Qed.

Section steps.
Variables (float : string -> string) (uuid : nat -> string) (percent : Z -> Z -> Z).
Notation step := (step float uuid percent).
Notation run := (run float uuid percent).

Lemma kill_ok g pid : inv g -> inv (on_proc g pid kill).
Proof. intros Hg. apply with_os_ok; [done| |done]. intros p _ Hx. simpl. tauto. Qed.

Lemma abandon_ok g : inv g -> inv (abandon g).
Proof.
  intros Hg. unfold abandon. destruct (g_process g) as [pid|]; [|done].
  destruct (running g pid); [|done]. by apply (inv_ext (on_proc g pid kill)), kill_ok.
Qed.

Lemma start_end_safe g t fails now now' : inv g -> safe (start_end uuid g t fails now now').
Proof.
  intros Hg. unfold start_end. destruct (g_starting g) as [[req was]|]; [|done]. cbv zeta.
  set (g1 := if was then abandon g else g).
  assert (inv g1) as H1 by (unfold g1; destruct was; [by apply abandon_ok|done]).
  destruct (launch fails _); [by apply (inv_ext g1)|].
  apply (inv_ext (add_process (with_starting g1 None) (agent_command t (g_environ (with_starting g1 None)) req))); [done..|].
  apply inv_add_process. by apply (inv_ext g1).
Qed.

(** A change of a process to which nothing is promised but what its pipes and its reader are. *)
Lemma reading_ok g pid p f :
  inv g -> g_procs g !! pid = Some p -> drained p = false ->
  (forall p, ap_outputs (f p) = ap_outputs p) -> ap_exit (f p) = ap_exit p -> ap_state (f p) = ap_state p ->
  ap_exitError (f p) = ap_exitError p ->
  (exit_ok p -> heard (ap_exit (f p)) (ap_pipes (f p)) (rd_jsonl (ap_reader (f p))) /\ reader_ok (ap_reader (f p))) ->
  inv (on_proc g pid f).
Proof.
  intros Hg E Hd Ho Hex Hs Hee Hf. apply inv_on_proc; [done..|]. intros q Hq [[Hc Hfl] Hx]. rewrite E in Hq. injection Hq as <-.
  split; [|by split; [rewrite Hex; apply Hx|auto]]. unfold proc_ok. rewrite Hs, Hee. split; [|done].
  intros (_ & ? & _)%Hc. congruence.
Qed.

Lemma reading_not_drained p : pi_stdout (ap_pipes p) = Reading -> drained p = false.
Proof. unfold drained. by intros ->. Qed.

(** The next line is read. *)
Lemma heard_next p l :
  pi_stdout (ap_pipes p) = Reading -> next_line p = Some l -> heard (ap_exit p) (ap_pipes p) (rd_jsonl (ap_reader p)) ->
  heard (ap_exit p) (ap_pipes p) (rd_jsonl (ap_reader p) ++ [scanned l]).
Proof.
  unfold heard, next_line. intros -> Hl [[k Hk] _]. split; [|done].
  assert ((scanned <$> pi_written (ap_pipes p)) !! length (rd_jsonl (ap_reader p)) = Some (scanned l)) as Hn
    by (by rewrite list_lookup_fmap, Hl).
  rewrite Hk, lookup_app_r, Nat.sub_diag in Hn by done. destruct k as [|x k]; [done|]. injection Hn as ->.
  exists k. by rewrite Hk, <- app_assoc.
Qed.

Lemma heard_end p e :
  pi_stdout (ap_pipes p) = Reading -> heard (ap_exit p) (ap_pipes p) (rd_jsonl (ap_reader p)) ->
  match e with
  | Reading => True
  | Closed => is_Some (ap_exit p)
  | AtEof => next_line p = None
  | TooLong => exists l, next_line p = Some l /\ maxLine <= Z.of_nat (String.length l)
  | Looped => exists l, next_line p = Some l /\
                repeats (tool_calls (extractToolCallSignature <$> (rd_jsonl (ap_reader p) ++ [scanned l])))
  end -> heard (ap_exit p) (ap_pipes (end_stdout p e)) (rd_jsonl (ap_reader (end_stdout p e))).
Proof.
  unfold heard, next_line. intros -> [Hp _] He. split; [done|]. simpl. destruct e; [done| |done| |done].
  - destruct Hp as [k Hk]. apply lookup_ge_None in He. apply (f_equal length) in Hk as Hlen.
    rewrite length_fmap, length_app in Hlen. destruct k; [|simpl in Hlen; lia]. by rewrite Hk, app_nil_r.
  - destruct He as (l & Hl & He). exists (scanned l). by rewrite list_lookup_fmap, Hl.
Qed.

(** More is written behind what there is. *)
Lemma heard_write p line :
  pi_stdout (ap_pipes p) <> AtEof -> heard (ap_exit p) (ap_pipes p) (rd_jsonl (ap_reader p)) ->
  heard (ap_exit p) (ap_pipes (write_line p line)) (rd_jsonl (ap_reader p)).
Proof.
  unfold heard. simpl. rewrite fmap_app. intros Hne [Hp He]. split; [by apply prefix_app_r|].
  destruct (pi_stdout (ap_pipes p)); [done..| | |done].
  - destruct He as (l & Hl & He). exists l. split; [by apply lookup_app_l_Some|done].
  - destruct He as (l & Hl & He). exists l. split; [by apply lookup_app_l_Some|done].
Qed.

Lemma stdout_line_safe g pid ts gr now later :
  inv g -> safe (stdout_line float uuid percent g pid ts gr now later).
Proof.
  intros Hg. unfold stdout_line. destruct (g_procs g !! pid) as [p|] eqn:E; [|done].
  destruct (pi_stdout (ap_pipes p)) eqn:Er; [|done..]. destruct (next_line p) as [l|] eqn:El; [|done].
  pose proof (reading_not_drained p Er) as Hd.
  destruct (Z.leb_spec maxLine (Z.of_nat (String.length l))).
  { apply (reading_ok g pid p); [done..|]. intros (_ & Hh & Hr). split; [|done]. apply (heard_end p TooLong); [done..|by exists l]. }
  destruct (read_line _ _ _) as [r|] eqn:Erl.
  - apply (send_all_safe _ _ (with_reader p r) pid); [|simpl; rewrite list_lookup_alter, decide_True by done; by rewrite E|done].
    apply (inv_ext (on_proc g pid (fun p => with_reader p r))); [done..|].
    apply (reading_ok g pid p); [done..|]. intros (_ & Hh & Hr). destruct (read_line_ok _ _ _ _ _ Hr Erl) as [Hr' Hj].
    split; [|done]. simpl. rewrite Hj. by apply heard_next.
  - apply (reading_ok g pid p); [done..|]. intros (_ & Hh & Hr). split; [|done].
    apply (heard_end (kill p) Looped); [done..|]. exists l. split; [done|]. by eapply read_line_repeats.
Qed.

Lemma pipe_step_safe g pid :
  inv g -> (forall line, safe (written g pid line)) /\ safe (stdout_eof g pid) /\ safe (stdout_closed g pid) /\
           inv (on_proc g pid end_stderr).
Proof.
  intros Hg. unfold written, stdout_eof, stdout_closed. split_and!.
  - intros line. destruct (g_procs g !! pid) as [p|] eqn:E; [|done]. case_bool_decide as Hne; [done|].
    apply inv_on_proc; [done..|]. intros q Hq [Hk (Hx & Hh & Hr)]. rewrite E in Hq. injection Hq as <-.
    split; [exact Hk|]. split; [exact Hx|]. split; [|exact Hr]. exact (heard_write p line Hne Hh).
  - destruct (g_procs g !! pid) as [p|] eqn:E; [|done]. destruct (pi_stdout (ap_pipes p)) eqn:Er; [|done..].
    destruct (next_line p) eqn:El; [done|]. apply (reading_ok g pid p); [done|done|by apply reading_not_drained|done..|].
    intros (_ & Hh & Hr). split; [|done]. by apply (heard_end p AtEof).
  - destruct (g_procs g !! pid) as [p|] eqn:E; [|done]. destruct (pi_stdout (ap_pipes p)) eqn:Er; [|done..].
    destruct (ap_exit p) eqn:Ex; [|done]. destruct (existsb _ _); [|done].
    apply (reading_ok g pid p); [done|done|by apply reading_not_drained|done..|].
    intros (_ & Hh & Hr). split; [|done]. apply (heard_end p Closed); [done..|]. simpl. by rewrite Ex.
  - apply inv_on_proc; [done..|]. intros p _ [[Hc Hf] Hx]. split; [|done]. split; [|done]. intros Hs.
    destruct (Hc Hs) as (? & Hd & ?). split; [done|]. split; [|done]. unfold drained in *. simpl.
    apply andb_prop in Hd as [-> _]. done.
Qed.

Lemma stderr_line_safe g pid line : inv g -> safe (stderr_line g pid line).
Proof.
  intros Hg. unfold stderr_line. destruct (g_procs g !! pid) as [p|] eqn:E; [|done].
  destruct (pi_stderr _); [done|]. by apply (send_all_safe _ _ p pid).
Qed.

Lemma call_act_safe g i io gr now : inv g -> safe (call_act uuid g i io gr now).
Proof.
  intros Hg. unfold call_act. destruct (g_calls g !! i) as [[c pid]|]; [|done]. cbv zeta.
  assert (inv (with_calls g (delete i (g_calls g)))) as H1 by (by apply (inv_ext g)).
  set (g1 := with_calls _ _) in *. clearbody g1. simpl. destruct c; simpl.
  - by apply subscribe_ok.
  - unfold send_input. destruct io; [done|]. by apply with_state_ok.
  - unfold stop_agent. destruct force; [by apply kill_ok|done].
  - by apply with_state_ok.
  - apply (inv_ext (on_proc g1 pid (fun p => with_state p StRunning (ap_pendingQuestion p)))); [done..|].
    apply inv_on_proc; [done..|]. intros p _ [_ Hx]. split; [split; simpl; congruence|done].
  - by apply (inv_ext g1).
  - by apply (inv_ext g1).
  - done.
Qed.

Lemma step_safe g l : inv g -> label_ok l -> safe (step g l).
Proof.
  intros Hg Hl. destruct l; simpl in Hl |- *.
  - unfold start_begin. repeat (case_match; try done). 
  - by apply start_end_safe.
  - by apply pipe_step_safe.
  - by apply stdout_line_safe.
  - by apply pipe_step_safe.
  - by apply pipe_step_safe.
  - by apply stderr_line_safe.
  - by apply pipe_step_safe.
  - apply with_os_ok; [done| |]; [|intros p; by destruct (ap_exit p)].
    intros p _ Hx. destruct (ap_exit p) eqn:Ex; [tauto|]. simpl. destruct Hx as [_ Hx].
    split_and!; [by right|done| |done..]. split; [destruct err; simpl; congruence|]. split; [|apply Hx]. by eapply heard_exit; [|apply Hx].
  - by apply wait_step_safe.
  - unfold call_begin. by repeat (case_match; try done).
  - by apply call_act_safe.
  - destruct Hg as [Hp [Hnd Ho]]. split; [done|]. split; [done|]. simpl.
    eapply Forall_impl; [done|]. intros j (c & Hc & Hcl). unfold is_open. rewrite list_lookup_alter.
    case_decide; [subst|by exists c]. rewrite Hc. by eexists.
  - by apply unsubscribe_ok.
  - by apply (inv_ext g).
Qed.

Lemma NewGateway_inv environ : inv (NewGateway environ).
Proof. split; [apply Forall_nil_2|]. split; [apply NoDup_nil_2|apply Forall_nil_2]. Qed.

Lemma run_safe ls g : inv g -> Forall label_ok ls -> safe (run g ls).
Proof.
  revert g. induction ls as [|l ls IH]; intros g Hg Hls; [done|]. apply Forall_cons in Hls as [Hl Hls].
  pose proof (step_safe g l Hg Hl) as Hs. simpl. destruct (step g l); [by apply IH|done..].
Qed.

End steps.

(** ** How many processes *)

(** The processes that a goroutine may still start. *)
Definition restarts (pc : wait_pc) : nat :=
  match pc with
  | WBegin | WFirst _ => 4
  | WBackoff _ n _ => S (S (maxRateLimitRetries - n))
  | WRetry _ n => S (maxRateLimitRetries - n)
  | WFallback _ | WEnd => 0
  end.

Definition may_start (g : Gateway) : nat := sum_list_with restarts (g_waiters g).

(** Every start accounts for five processes. *)
Definition bounded (g : Gateway) : Prop := (length (g_procs g) + may_start g <= 5 * length (g_waiters g))%nat.

Lemma sum_insert (f : wait_pc -> nat) l i x y :
  l !! i = Some x -> (sum_list_with f (<[i := y]> l) + f x = sum_list_with f l + f y)%nat.
Proof.
  intros Hx. destruct (list_elem_of_split_length l i x Hx) as (l1 & l2 & -> & ->).
  rewrite insert_app_r_alt, Nat.sub_diag by done. simpl. rewrite !sum_list_with_app. simpl. lia.
Qed.

(** What a step of one goroutine does to the count. *)
Definition pays (g : Gateway) (r : gresult) : Prop :=
  match r with
  | Next g' => (length (g_procs g') + may_start g' <= length (g_procs g) + may_start g)%nat /\
               length (g_waiters g') = length (g_waiters g)
  | _ => True
  end.

Lemma pays_at g g' i pc pc' :
  g_waiters g !! i = Some pc -> g_waiters g' = g_waiters g ->
  (length (g_procs g') + restarts pc' <= length (g_procs g) + restarts pc)%nat -> pays g (Next (at_waiter g' i pc')).
Proof.
  intros Hpc Hw Hle. unfold pays, may_start, at_waiter. simpl. rewrite Hw, length_insert. split; [|done].
  pose proof (sum_insert restarts _ _ _ pc' Hpc). lia.
Qed.

Lemma length_on_proc g pid f : length (g_procs (on_proc g pid f)) = length (g_procs g).
Proof. apply length_alter. Qed.

Lemma finish_wait_pays g g0 i pid err pc :
  g_waiters g0 !! i = Some pc -> g_waiters g = g_waiters g0 -> length (g_procs g) = length (g_procs g0) ->
  pays g0 (finish_wait g i pid err).
Proof.
  intros Hpc Hw Hl. unfold finish_wait. destruct (g_procs g !! pid); [|done].
  destruct (for_all_outputs _ _ _); [|done]. eapply pays_at; [done|done|].
  simpl. rewrite length_alter, Hl. lia.
Qed.

Lemma try_fallback_pays g g0 i pid err fb pc :
  g_waiters g0 !! i = Some pc -> g_waiters g = g_waiters g0 -> length (g_procs g) = length (g_procs g0) ->
  (1 <= restarts pc)%nat -> pays g0 (try_fallback g i pid err fb).
Proof.
  intros Hpc Hw Hl Hr. pose proof (finish_wait_pays g g0 i pid err pc Hpc Hw Hl) as Hfin. unfold try_fallback.
  destruct err as [e|]; [|done]. destruct (g_procs g !! pid) as [p|]; [|done].
  destruct (_ && _); [|done]. destruct fb; [done|]. destruct (g_starting g); [done|].
  eapply pays_at; [done|done|]. simpl. rewrite length_app, Hl. simpl. lia.
Qed.

Lemma after_retries_pays g g0 i pid err fb pc :
  g_waiters g0 !! i = Some pc -> g_waiters g = g_waiters g0 -> length (g_procs g) = length (g_procs g0) ->
  (1 <= restarts pc)%nat -> pays g0 (after_retries g i pid err fb).
Proof.
  intros Hpc Hw Hl Hr. unfold after_retries. destruct err; apply (try_fallback_pays _ _ _ _ _ _ pc); try done.
  by rewrite length_on_proc.
Qed.

Lemma collect_same g pid dup g' err :
  collect g pid dup = Some (g', err) ->
  g_waiters g' = g_waiters g /\ length (g_procs g') = length (g_procs g).
Proof.
  unfold collect. destruct (g_procs g !! pid); simpl; [|done]. destruct (wait_single _ _) as [[p err']|]; simpl; [|done].
  intros [= <- <-]. split; [done|]. apply length_alter.
Qed.

Lemma wait_step_pays g i dup abort retry fb pc :
  g_waiters g !! i = Some pc -> pays g (wait_step g i dup abort retry fb).
Proof.
  intros Hpc. unfold wait_step. rewrite Hpc.
  assert (forall pc', (restarts pc' <= restarts pc)%nat -> pays g (Next (at_waiter g i pc'))) as Hsame.
  { intros pc' Hle. eapply pays_at; [done|done|lia]. }
  destruct pc as [|pid|pid n e|pid n|pid|].
  - destruct (g_starting g); [done|]. destruct (g_process g); apply Hsame; cbn [restarts]; unfold maxRateLimitRetries in *; lia.
  - destruct (collect g pid dup) as [[g' err]|] eqn:E; [|done]. apply collect_same in E as [Hw Hl].
    destruct err as [e|]; [|eapply try_fallback_pays; [done|done|done|cbn; lia]].
    destruct (isRateLimitError _); [|eapply try_fallback_pays; [done|done|done|cbn; lia]].
    eapply pays_at; [done|done|]. cbn [restarts]. unfold maxRateLimitRetries in *. lia.
  - destruct (_ && _); [apply Hsame; cbn [restarts]; unfold maxRateLimitRetries in *; lia|]. destruct retry.
    + destruct (Nat.ltb_spec n maxRateLimitRetries); [apply Hsame; cbn [restarts]; unfold maxRateLimitRetries in *; lia|].
      eapply after_retries_pays; [done|done|done|cbn; lia].
    + destruct (g_procs g !! pid) as [p|]; [|done]. destruct (g_starting g); [done|].
      eapply pays_at; [done|done|]. cbn [restarts]. simpl g_procs. rewrite length_app. simpl length. unfold maxRateLimitRetries in *. lia.
  - destruct (collect g pid dup) as [[g' err]|] eqn:E; [|done]. apply collect_same in E as [Hw Hl].
    destruct err as [e|]; [|eapply after_retries_pays; [done|done|done|cbn; lia]].
    destruct (isRateLimitError _); simpl andb; [|eapply after_retries_pays; [done|done|done|cbn; lia]].
    destruct (Nat.ltb_spec n maxRateLimitRetries); [|eapply after_retries_pays; [done|done|done|cbn; lia]].
    eapply pays_at; [done|done|]. cbn [restarts]. unfold maxRateLimitRetries in *. lia.
  - destruct (collect g pid dup) as [[g' err]|] eqn:E; [|done]. apply collect_same in E as [Hw Hl].
    by eapply finish_wait_pays.
  - done.
Qed.

Lemma step_bounded float uuid percent g l : bounded g ->
  match step float uuid percent g l with Next g' => bounded g' | _ => True end.
Proof.
  unfold bounded. intros Hb.
  assert (forall g', length (g_procs g') = length (g_procs g) -> g_waiters g' = g_waiters g -> bounded g') as Hsame.
  { unfold bounded, may_start. intros g' -> ->. done. }
  destruct l; cbn [step].
  - unfold start_begin. repeat case_match; simplify_eq/=; first [done | by apply Hsame].
  - unfold start_end. destruct (g_starting g) as [[req was]|]; [|done]. cbv zeta.
    assert (length (g_procs (if was then abandon g else g)) = length (g_procs g) /\
            g_waiters (if was then abandon g else g) = g_waiters g) as [Hl Hw].
    { destruct was; [|done]. unfold abandon. destruct (g_process g) as [pid|]; [|done].
      destruct (running g pid); [|done]. by rewrite <- (length_on_proc g pid kill). }
    destruct (launch fails _); [by apply Hsame|]. unfold may_start in *. simpl. rewrite Hw.
    rewrite !length_app, sum_list_with_app, Hl. simpl. lia.
  - unfold written. destruct (g_procs g !! pid) as [p|]; [|done]. case_bool_decide; [done|]. apply Hsame; [apply length_on_proc|done].
  - unfold stdout_line. destruct (g_procs g !! pid) as [p|]; [|done]. destruct (pi_stdout _); [|done..].
    destruct (next_line p) as [raw|]; [|done]. destruct (maxLine <=? _); [apply Hsame; [apply length_on_proc|done]|]. cbv zeta.
    destruct (read_line _ _ _); [|apply Hsame; [apply length_on_proc|done]].
    unfold send_all. destruct (for_all_outputs _ _ _); [|done]. apply Hsame; [simpl; apply length_alter|done].
  - unfold stdout_eof. destruct (g_procs g !! pid) as [p|]; [|done]. destruct (pi_stdout _); [|done..]. destruct (next_line p); [done|]. apply Hsame; [apply length_on_proc|done].
  - unfold stdout_closed. destruct (g_procs g !! pid) as [p|]; [|done]. destruct (pi_stdout _); [|done..]. destruct (ap_exit p); [|done]. destruct (existsb _ _); [|done]. apply Hsame; [apply length_on_proc|done].
  - unfold stderr_line. destruct (g_procs g !! pid) as [p|]; [|done]. destruct (pi_stderr _); [done|].
    unfold send_all. by destruct (for_all_outputs _ _ _).
  - apply Hsame; [apply length_on_proc|done].
  - apply Hsame; [apply length_on_proc|done].
  - destruct (g_waiters g !! i) as [pc|] eqn:E; [|unfold wait_step; by rewrite E].
    pose proof (wait_step_pays g i dup abort retry fb pc E) as H. unfold pays in H.
    destruct (wait_step _ _ _ _ _ _); [|done..]. destruct H as [H ->]. lia.
  - unfold call_begin. repeat case_match; simplify_eq/=; first [done | by apply Hsame].
  - unfold call_act. destruct (g_calls g !! i) as [[c pid]|]; [|done]. cbv zeta.
    apply Hsame; destruct c; simpl; try done; unfold send_input, stop_agent; repeat case_match; try done; apply length_alter.
  - done.
  - apply Hsame; [apply length_on_proc|done].
  - done.
Qed.

(** The sidecar starts at most five processes for each request: the first, three when the model is
    rate limited, and one of the fallback. *)
Theorem restarts_bounded float uuid percent environ ls g :
  run float uuid percent (NewGateway environ) ls = Next g ->
  (length (g_procs g) <= 5 * length (g_waiters g))%nat.
Proof.
  assert (forall ls g0, bounded g0 -> run float uuid percent g0 ls = Next g -> bounded g) as H.
  { clear ls. induction ls as [|l ls IH]; intros g0 Hg0; cbn [run]; [by intros [= <-]|].
    pose proof (step_bounded float uuid percent g0 l Hg0) as Hs.
    destruct (step _ _ _ g0 l); [|done..]. by apply IH. }
  intros Hr. pose proof (H ls (NewGateway environ) ltac:(unfold bounded, may_start; simpl; lia) Hr) as Hb.
  unfold bounded in Hb. lia.
Qed.

(** ** How a wait ends *)

Lemma finish_wait_ends g i pid err p :
  inv g -> g_procs g !! pid = Some p -> is_Some (g_waiters g !! i) ->
  exists g', finish_wait g i pid err = Next g' /\ g_waiters g' !! i = Some WEnd /\
    option_map ap_state (g_procs g' !! pid) = Some (match err with Some _ => StFailed | None => StCompleted end).
Proof.
  intros [_ [Hnd Ho]] Hp Hi. unfold finish_wait. rewrite Hp.
  destruct (alter_middle (fun x => x) _ _ _ Hp) as (l1 & l2 & Hl & _). rewrite Hl, outs_middle in Hnd, Ho.
  apply NoDup_app in Hnd as (_ & _ & [Hnd _]%NoDup_app). rewrite !Forall_app in Ho. destruct Ho as (_ & Ho & _).
  destruct (closes_ok _ _ Hnd Ho) as (cs & -> & _). eexists. split; [reflexivity|].
  split; [by apply list_lookup_insert_eq, lookup_lt_is_Some|].
  simpl. rewrite list_lookup_alter, decide_True, Hp by done. by destruct err.
Qed.

(** What a process keeps of its end, and the error of its wait. *)
Definition end_of (p : AgentProcess) (ex : option string) : option (string * string) :=
  match ex with
  | Some e => Some (e, e)
  | None => let llmErr := rd_llmError (ap_reader p) in
            if String.eqb llmErr "" then None else Some (llmErr, "failed: LLM error: " +:+ llmErr)
  end.

Lemma collect_end g pid p ex dup :
  g_procs g !! pid = Some p -> ap_exit p = Some ex -> drained p = true -> ap_waited p = false ->
  exists p', collect g pid dup = Some (on_proc g pid (fun _ => p'), snd <$> end_of p ex) /\
    ap_exitError p' = match end_of p ex with Some (kept, _) => kept | None => ap_exitError p end.
Proof.
  intros Hp Hex Hd Hw. unfold collect, wait_single, end_of. rewrite Hp. simpl. rewrite Hex, Hd, Hw. simpl.
  destruct ex as [e|]; simpl; [by eexists|]. by destruct (String.eqb _ ""); eexists.
Qed.

(** The first wait for an agent, on every branch: the agent is completed, it is tried again after a
    delay when the model is limited, or with the other model when it is overloaded, and otherwise
    it has failed. *)
Theorem first_wait_ends g i pid p ex dup abort retry :
  inv g -> g_waiters g !! i = Some (WFirst pid) -> g_procs g !! pid = Some p ->
  ap_exit p = Some ex -> drained p = true -> ap_waited p = false -> g_starting g = None -> dup <> "" ->
  let model := Getenv (g_environ g) "AGENT_FALLBACK_MODEL" in
  exists g', wait_step g i dup abort retry None = Next g' /\
  match end_of p ex with
  | None => option_map ap_state (g_procs g' !! pid) = Some StCompleted /\ g_waiters g' !! i = Some WEnd
  | Some (kept, e) =>
      if isRateLimitError (kept +:+ e) then g_waiters g' !! i = Some (WBackoff pid 1 e) /\ g_process g' = g_process g
      else if isOverloadedError (kept +:+ e) && negb (String.eqb model "") then
        g_waiters g' !! i = Some (WFallback (length (g_procs g))) /\ g_process g' = Some (length (g_procs g))
      else option_map ap_state (g_procs g' !! pid) = Some StFailed /\ g_waiters g' !! i = Some WEnd
  end.
Proof.
  intros Hg Hw Hp Hex Hd Hwt Hst Hdup. cbv zeta. unfold wait_step. rewrite Hw.
  destruct (collect_end g pid p ex dup Hp Hex Hd Hwt) as (p' & Hc & Hkept). rewrite Hc.
  apply collect_ok in Hc as [Hg' _]; [|done..].
  set (g1 := on_proc g pid (fun _ => p')) in *.
  assert (g_procs g1 !! pid = Some p') as Hp1 by (simpl; by rewrite list_lookup_alter, decide_True, Hp by done).
  assert (is_Some (g_waiters g1 !! i)) as Hi by (exists (WFirst pid); exact Hw).
  assert (length (g_procs g1) = length (g_procs g)) as Hlen by apply length_alter.
  destruct (end_of p ex) as [[kept e]|]; simpl fmap; cbn match.
  - assert (error_text g1 pid e = kept +:+ e) as Ht by (unfold error_text; by rewrite Hp1, Hkept).
    rewrite Ht. destruct (isRateLimitError _).
    { eexists. split; [reflexivity|]. split; [|done]. by apply list_lookup_insert_eq, lookup_lt_is_Some. }
    destruct (finish_wait_ends g1 i pid (Some e) p' Hg' Hp1 Hi) as (g' & Hf & Hwe & Hs).
    unfold try_fallback. rewrite Hp1, Ht. change (g_environ g1) with (g_environ g).
    destruct (_ && _); [|by exists g']. change (g_starting g1) with (g_starting g). rewrite Hst.
    eexists. split; [reflexivity|]. rewrite <- Hlen. split; [|done].
    by apply list_lookup_insert_eq, lookup_lt_is_Some.
  - destruct (finish_wait_ends g1 i pid None p' Hg' Hp1 Hi) as (g' & Hf & Hwe & Hs). by exists g'.
Qed.

(** * Runs of the gateway *)

Definition demo_req (run : string) : start_request :=
  {| sr_AgentRunId := run; sr_Prompt := "do"; sr_RepoPath := ""; sr_Stage := "execute"; sr_EnvVars := [];
     sr_ParentSpanId := ""; sr_TraceId := "" |}.
Definition no_git : git_run :=
  {| gr_add := false; gr_status := ""; gr_commit := false; gr_sha := None; gr_diff := fun _ => None |}.
Definition no_files : tree := {| tr_nodes := ∅; tr_cwd := "/" |}.
Definition uuid (i : nat) : string := "span-" +:+ Itoa (Z.of_nat i).

Definition go : Gateway -> list label -> gresult := run (fun s => s) uuid (fun a b => Z.quot (a * 100) b).

(** The labels of an agent that is started, of its end, and of a step of the [i]th goroutine. *)
Definition begin_ (run : string) : label := LStartBegin (demo_req run).
Definition launched : label := LStartEnd no_files (fun _ => None) 0 0.
Definition reads (pid : nat) : label := LStdout pid "12:00:00" no_git 0 0.
Definition line (pid : nat) (l : string) : list label := [LWrite pid l; reads pid].
Definition waits (i : nat) : label := LWait i "wait: no child processes" false None None.
Definition ends (pid : nat) (err : option string) : list label := [LExit pid err; LEof pid; LStderrEnd pid].

Definition started (run : string) : list label := [begin_ run; launched].

(** A message that ends with an error of the model. *)
Definition error_line (msg : string) : string :=
  "{" +:+ q "type" +:+ ":" +:+ q "message_end" +:+ "," +:+ q "message" +:+ ":{" +:+ q "stopReason" +:+ ":" +:+ q "error" +:+
  "," +:+ q "errorMessage" +:+ ":" +:+ q msg +:+ "}}".

(** What a run shows: the answer to [GetStatus], the current process, the state of every process
    with whether its operating system process still runs, and the goroutines. *)
Definition shows (r : gresult) :
    option ((process_state * string) * option nat * list (process_state * bool) * list wait_pc) :=
  match r with
  | Next g => Some (GetStatus g, g_process g,
                    (fun p => (ap_state p, bool_decide (ap_exit p = None))) <$> g_procs g, g_waiters g)
  | _ => None
  end.

(** An agent runs and ends. *)
Example ordinary_run :
  shows (go (NewGateway []) (started "a" ++ [waits 0] ++ ends 0 None ++ [waits 0])) =
    Some ((StCompleted, ""), Some 0%nat, [(StCompleted, false)], [WEnd]).
Proof. vm_compute. reflexivity. Qed.

(** The error of the model makes a process that ended well fail. *)
Example model_error_fails :
  shows (go (NewGateway []) (started "a" ++ [waits 0] ++ line 0 (error_line "bad request") ++ ends 0 None ++ [waits 0])) =
    Some ((StFailed, "bad request"), Some 0%nat, [(StFailed, false)], [WEnd]).
Proof. vm_compute. reflexivity. Qed.

(** A limited model is tried again, and the second process counts. *)
Example limited_then_well :
  shows (go (NewGateway []) (started "a" ++ [waits 0] ++ line 0 (error_line "429") ++ ends 0 None ++
    [waits 0; waits 0] ++ ends 1 None ++ [waits 0])) =
    Some ((StCompleted, ""), Some 1%nat, [(StRunning, false); (StCompleted, false)], [WEnd]).
Proof. vm_compute. reflexivity. Qed.

(** An overloaded model is replaced once. *)
Example overloaded_then_fallback :
  match go (NewGateway ["PI_MODEL=m1"; "AGENT_FALLBACK_MODEL=m2"])
    (started "a" ++ [waits 0] ++ line 0 (error_line "503") ++ ends 0 None ++ [waits 0]) with
  | Next g => (fun p => List.rev (take 2 (List.rev (cmd_Args (ap_cmd p))))) <$> g_procs g
  | _ => []
  end = [["--model"; "m1"]; ["--model"; "m2"]].
Proof. vm_compute. reflexivity. Qed.

(** An input that arrives after the end makes the agent running again, and nobody waits for it:
    whoever polls the status polls for ever. *)
Example input_after_the_end :
  shows (go (NewGateway []) (started "a" ++ [waits 0] ++ ends 0 None ++ [waits 0; LCall CSend; LAct 0 false no_git 0])) =
    Some ((StRunning, ""), Some 0%nat, [(StRunning, false)], [WEnd]).
Proof. vm_compute. reflexivity. Qed.

(** A stage is started while the goroutine of the last one sleeps before a retry: the retry puts its
    process in the place of the new stage's, and the status is that of the old stage. *)
Example retry_takes_the_place :
  shows (go (NewGateway []) (started "a" ++ [waits 0] ++ line 0 (error_line "429") ++ ends 0 None ++ [waits 0] ++
    started "b" ++ [waits 1; waits 0] ++ ends 2 None ++ [waits 0])) =
    Some ((StCompleted, ""), Some 2%nat, [(StRunning, false); (StRunning, true); (StCompleted, false)],
          [WEnd; WFirst 1]).
Proof. vm_compute. reflexivity. Qed.

(** Two starts before the first goroutine has read its process: both wait for the second one, and an
    agent that completed is shown as failed. *)
Example waits_for_the_wrong_process :
  shows (go (NewGateway []) (started "a" ++ started "b" ++ [waits 0; waits 1] ++ ends 1 None ++ [waits 0; waits 1])) =
    Some ((StFailed, "wait: no child processes"), Some 1%nat, [(StRunning, true); (StFailed, false)], [WEnd; WEnd]).
Proof. vm_compute. reflexivity. Qed.

(** An agent that waits for an answer is not stopped by the next start: two agents work in one
    directory. *)
Example waiting_agent_goes_on :
  match go (NewGateway []) (started "a" ++ [waits 0; LCall (CWaiting "?"); LAct 0 false no_git 0] ++ started "b") with
  | Next g => (fun p => (ap_state p, ap_killed p, bool_decide (ap_exit p = None))) <$> g_procs g
  | _ => []
  end = [(StWaiting, false, true); (StRunning, false, true)].
Proof. vm_compute. reflexivity. Qed.

(** Subscribers of a process that is tried again are never closed: they wait until their clients
    leave. *)
Example subscriber_of_a_retry :
  match go (NewGateway []) (started "a" ++ [waits 0; LCall CStream; LAct 0 false no_git 0] ++ line 0 (error_line "429") ++
    ends 0 None ++ [waits 0; waits 0] ++ ends 1 None ++ [waits 0]) with
  | Next g => Some (GetStatus g, oc_Closed <$> g_channels g)
  | _ => None
  end = Some ((StCompleted, ""), [false]).
Proof. vm_compute. reflexivity. Qed.

(** The messages that open and close a turn of the model. *)
Definition turn_start : string :=
  "{" +:+ q "type" +:+ ":" +:+ q "message_start" +:+ "," +:+ q "message" +:+ ":{" +:+ q "role" +:+ ":" +:+ q "assistant" +:+ "}}".
Definition turn_end (output : string) : string :=
  "{" +:+ q "type" +:+ ":" +:+ q "message_end" +:+ "," +:+ q "message" +:+ ":{" +:+ q "usage" +:+ ":{" +:+ q "output" +:+
  ":" +:+ output +:+ "}}}".

(** The tokens of a run are forgotten when a stage starts, so the budget is one of a stage; and a
    stage that exceeds it is followed by none. *)
Example budget_is_of_one_stage :
  let tokens r := match r with Next g => Some (us_Output (tr_usage (g_tracing g)), length (g_procs g)) | _ => None end in
  let stage pid n i := line pid turn_start ++ line pid (turn_end n) ++ [waits i] ++ ends pid None ++ [waits i] in
  tokens (go (NewGateway []) (started "a" ++ stage 0%nat "31000" 0%nat ++ started "b" ++ stage 1%nat "31000" 1%nat)) =
    Some (31000, 2%nat) /\
  tokens (go (NewGateway []) (started "a" ++ stage 0%nat "32000" 0%nat ++ [begin_ "b"])) = Some (32000, 1%nat) /\
  shows (go (NewGateway []) (started "a" ++ stage 0%nat "32000" 0%nat ++ started "b")) = None.
Proof. vm_compute. done. Qed.


(** What is known of the outputs: the states, the lines that were written and those that were read, and how the reading has ended. *)
Definition outputs_of (r : gresult) : list (process_state * nat * nat * read_end) :=
  match r with
  | Next g => (fun p => (ap_state p, length (pi_written (ap_pipes p)), length (rd_jsonl (ap_reader p)), pi_stdout (ap_pipes p))) <$> g_procs g
  | _ => []
  end.

(** The last line of an agent, an error of the model, is written before it ends with code zero; when the wait closes the pipe before the
    line is read, the agent has completed. *)
Example error_is_lost :
  outputs_of (go (NewGateway []) (started "a" ++ [waits 0; LWrite 0 (error_line "bad request"); LExit 0 None; LClosed 0; LStderrEnd 0; waits 0])) =
    [(StCompleted, 1%nat, 0%nat, Closed)].
Proof. vm_compute. reflexivity. Qed.

(** A line that is too long ends the reader, and the agent is not stopped: an error behind the line is not seen. *)
Example error_behind_a_long_line :
  outputs_of (go (NewGateway []) (started "a" ++ [waits 0] ++ line 0 (Nat.iter 18 (fun s => s +:+ s) "x") ++
    [LWrite 0 (error_line "bad request"); LExit 0 None; LStderrEnd 0; waits 0])) = [(StCompleted, 2%nat, 0%nat, TooLong)].
Proof. vm_compute. reflexivity. Qed.
