(* ===== verification/Shell.v ===== *)
(** * Code that runs commands: state that the commands change, the commands in order, an error.

    Used where a command is run again after others: its answer then depends on them, so the state
    behind the commands is passed along.  An early return is an error of the type [R]. *)

From S2P Require Import Prelude GoStrings.

(** The state that the commands read and change, and the commands that were run. *)
Record machine (S C : Type) := { m_state : S; m_log : list C }.
Arguments m_state {S C} m.
Arguments m_log {S C} m.

Section shell.
Context {S C : Type}.

Definition shell (R A : Type) : Type := machine S C -> machine S C * (A + R).

#[export] Instance shell_ret {R} : MRet (shell R) := fun A a s => (s, inl a).
#[export] Instance shell_bind {R} : MBind (shell R) := fun A B k m s =>
  match m s with (s, inl a) => k a s | (s, inr e) => (s, inr e) end.

(** An early return. *)
Definition return_ {R A} (r : R) : shell R A := fun s => (s, inr r).

Definition get_state {R} : shell R S := fun s => (s, inl (m_state s)).

(** An operation on the state itself, with what its error becomes. *)
Definition on_state {R} (err : string -> R) (op : S -> result S) : shell R unit := fun s =>
  match op (m_state s) with
  | Ok t => ({| m_state := t; m_log := m_log s |}, inl tt)
  | Err e => (s, inr (err e))
  end.

(** A command: what it does to the state, and its answer. *)
Definition command {R O} (run : S -> C -> S * O) (c : C) : shell R O := fun s =>
  let '(t, out) := run (m_state s) c in ({| m_state := t; m_log := m_log s ++ [c] |}, inl out).

(** What an early return becomes. *)
Definition wrap {R A} (f : R -> R) (m : shell R A) : shell R A := fun s =>
  match m s with (s, inr e) => (s, inr (f e)) | r => r end.

(** An error that is only logged. *)
Definition best_effort {R} (m : shell R unit) : shell R unit := fun s => match m s with (s, _) => (s, inl tt) end.

(** ** What is run *)

(** The commands of a step satisfy [P]. *)
Definition runs {R A} (P : C -> Prop) (m : shell R A) : Prop :=
  forall s, exists l, m_log (m s).1 = m_log s ++ l /\ Forall P l.

Lemma runs_nothing {R A} P (m : shell R A) : (forall s, m_log (m s).1 = m_log s) -> runs P m.
Proof. intros H s. exists []. by rewrite H, app_nil_r. Qed.

Lemma runs_bind {R A B} P (m : shell R A) (k : A -> shell R B) : runs P m -> (forall a, runs P (k a)) -> runs P (m ≫= k).
Proof.
  intros Hm Hk s. destruct (Hm s) as (l & Hl & HP). unfold mbind, shell_bind.
  destruct (m s) as [s' [a|e]]; cbn [fst] in Hl; [|by exists l].
  destruct (Hk a s') as (l' & Hl' & HP'). exists (l ++ l'). split; [by rewrite Hl', Hl, app_assoc|by apply Forall_app].
Qed.

Lemma runs_wrap {R A} P f (m : shell R A) : runs P m -> runs P (wrap f m).
Proof. intros Hm s. destruct (Hm s) as (l & Hl & HP). exists l. unfold wrap. by destruct (m s) as [s' []]. Qed.

Lemma runs_best_effort {R} P (m : shell R unit) : runs P m -> runs P (best_effort m).
Proof. intros Hm s. destruct (Hm s) as (l & Hl & HP). exists l. unfold best_effort. by destruct (m s) as [s' []]. Qed.

Lemma runs_command {R O} (P : C -> Prop) run c : P c -> runs P (command (R := R) (O := O) run c).
Proof. intros HP s. exists [c]. split; [|by apply Forall_singleton]. unfold command. by destruct (run _ _). Qed.

Lemma runs_on_state {R} P (err : string -> R) op : runs P (on_state err op).
Proof. apply runs_nothing. intros s. unfold on_state. by destruct (op _). Qed.

Lemma runs_ret {R A} P (a : A) : runs P (mret a : shell R A).
Proof. by apply runs_nothing. Qed.

Lemma runs_return {R A} P (r : R) : runs P (return_ (A := A) r).
Proof. by apply runs_nothing. Qed.

Lemma runs_get_state {R} P : runs P (get_state (R := R)).
Proof. by apply runs_nothing. Qed.

Lemma runs_weaken {R A} (P Q : C -> Prop) (m : shell R A) : (forall c, P c -> Q c) -> runs P m -> runs Q m.
Proof.
  intros HPQ Hm s. destruct (Hm s) as (l & Hl & HP). exists l. split; [done|]. by eapply Forall_impl.
Qed.

(** ** What becomes of the state *)

(** A step takes the state to one that [rel] relates to it. *)
Definition moves {R A} (rel : S -> S -> Prop) (m : shell R A) : Prop := forall s, rel (m_state s) (m_state (m s).1).

Lemma moves_same {R A} rel `{!Reflexive rel} (m : shell R A) : (forall s, m_state (m s).1 = m_state s) -> moves rel m.
Proof. intros H s. by rewrite H. Qed.

Lemma moves_ret {R A} rel `{!Reflexive rel} (a : A) : moves rel (mret a : shell R A).
Proof. by apply moves_same. Qed.

Lemma moves_return {R A} rel `{!Reflexive rel} (r : R) : moves rel (return_ (A := A) r).
Proof. by apply moves_same. Qed.

Lemma moves_bind {R A B} rel `{!Transitive rel} (m : shell R A) (k : A -> shell R B) :
  moves rel m -> (forall a, moves rel (k a)) -> moves rel (m ≫= k).
Proof.
  intros Hm Hk s. specialize (Hm s). unfold mbind, shell_bind.
  destruct (m s) as [s' [a|e]]; [|done]. etrans; [exact Hm|apply Hk].
Qed.

Lemma moves_command {R O} (rel : S -> S -> Prop) run c : (forall s, rel s (run s c).1) -> moves rel (command (R := R) (O := O) run c).
Proof. intros H s. specialize (H (m_state s)). unfold command. by destruct (run _ _). Qed.

(** ** The value it goes on with *)

(** What the step goes on with satisfies [Q], and what it returns early satisfies [QR]. *)
Definition ends {R A} (QR : R -> Prop) (Q : A -> Prop) (m : shell R A) : Prop :=
  forall s, match (m s).2 with inl a => Q a | inr r => QR r end.

Lemma ends_bind {R A B} QR Q Q' (m : shell R A) (k : A -> shell R B) :
  ends QR Q m -> (forall a, Q a -> ends QR Q' (k a)) -> ends QR Q' (m ≫= k).
Proof.
  intros Hm Hk s. unfold mbind, shell_bind. specialize (Hm s). destruct (m s) as [s' [a|e]]; [|done].
  by apply Hk.
Qed.
End shell.
Arguments shell : clear implicits.

Create HintDb shell discriminated.
#[export] Hint Resolve runs_ret runs_return runs_get_state runs_on_state : shell.

(** One step of an argument about what is run. *)
Ltac runs_step :=
  lazymatch goal with
  | |- runs _ (_ ≫= _) => apply runs_bind; [|intros ?]
  | |- runs _ (wrap _ _) => apply runs_wrap
  | |- runs _ (best_effort _) => apply runs_best_effort
  | |- runs _ (command _ _) => apply runs_command
  | |- runs _ (match ?x with _ => _ end) => destruct x eqn:?
  | |- runs _ (let _ := _ in _) => cbv zeta
  | |- runs _ _ => solve [auto with shell]
  end.
