(* ===== verification/RunTags.v ===== *)
(** * The judge and the tags of a run: [internal/temporal/activities_llm_judge.go] and
    [internal/temporal/activities_tags.go].

    The model's HTTP answer, the sidecar's answers and the stored run are parameters; so is the price
    of tokens, which is a floating-point number that is printed. *)

From S2P Require Import Prelude GoStrings Regex TemporalTypes Json Kube JsonDecode OpenSpec VerifyRun.
Local Open Scope unc_scope.

(** ** The judge *)

(** [internal/temporal/activities_llm_judge.go:89-92] llmJudgeVerdict *)
Record llmJudgeVerdict := { jv_Approved : bool; jv_Reason : string }.

(** [internal/temporal/activities_llm_judge.go:121-129] chatCompletionRequest, with one message of the
    user, where it is sent, and the key when there is one *)
Record chatCompletionRequest := { ch_url : string; ch_key : string; ch_Model : string; ch_Content : string }.

(** The answer: an error, or the status and what could be read of the body. *)
Definition chat_answer : Type := result (Z * string).

Definition dec_verdict : dec llmJudgeVerdict := dec_struct
  [("approved", at_field jv_Approved (fun x v => {| jv_Approved := x; jv_Reason := jv_Reason v |}) dec_bool);
   ("reason", at_field jv_Reason (fun x v => {| jv_Approved := jv_Approved v; jv_Reason := x |}) dec_string)].

(** [internal/temporal/activities_llm_judge.go:131-137] chatCompletionResponse: the contents of the
    messages of the choices *)
Definition dec_choices : dec (list string) := dec_struct
  [("choices", dec_list "" (dec_struct [("message", dec_struct [("content", dec_string)])]))].

Definition quoted (s : string) : string := dquote +:+ s +:+ dquote.

(** [internal/temporal/activities_llm_judge.go:95-114] buildLLMJudgePrompt *)
Definition buildLLMJudgePrompt (originalPrompt gitDiff : string) : string :=
  Join ["You are a code review judge. An AI coding agent was given the following task:"; "";
        "<task>"; originalPrompt; "</task>"; "";
        "The agent produced the following git diff:"; "";
        "<git_diff>"; gitDiff; "</git_diff>"; "";
        "Review the diff and decide whether it adequately addresses the task.";
        "Respond with ONLY a JSON object in this exact format (no other text):"; "";
        "{"; "  " +:+ quoted "approved" +:+ ": true,";
        "  " +:+ quoted "reason" +:+ ": " +:+ quoted "brief explanation of your decision"; "}"; "";
        "Set " +:+ quoted "approved" +:+ " to true if the changes reasonably address the task requirements.";
        "Set " +:+ quoted "approved" +:+ " to false if the changes are empty, clearly wrong, incomplete, or harmful.";
        "Keep " +:+ quoted "reason" +:+ " under 200 characters."] newline.

(** [internal/temporal/activities_llm_judge.go:188-192] callChatCompletion: the object in the answer *)
Definition object_in (content : string) : string :=
  match Index content "{", LastIndex content "}" with
  | Some i, Some j => if (i <? j)%nat then str_take (j + 1 - i) (str_drop i content) else content
  | _, _ => content
  end.

(** [internal/temporal/activities_llm_judge.go:185-204] callChatCompletion: what is made of the answer *)
Definition read_verdict (answer : string) : llmJudgeVerdict :=
  let content := object_in (TrimSpace answer) in
  match Unmarshal {| jv_Approved := false; jv_Reason := "" |} dec_verdict content with
  | Some v => v
  | None =>
      let lower := ToLower content in
      if Contains lower (quoted "approved" +:+ ": true") || Contains lower (quoted "approved" +:+ ":true") then
        {| jv_Approved := true; jv_Reason := "LLM approved (unparseable response)" |}
      else {| jv_Approved := false; jv_Reason := "LLM response not parseable: " +:+ truncate content 100 |}
  end.

(** [internal/temporal/activities_llm_judge.go:140-205] callChatCompletion *)
Definition callChatCompletion (chat : chatCompletionRequest -> chat_answer) (baseURL apiKey model prompt : string)
    : result llmJudgeVerdict :=
  if String.eqb baseURL "" then Err "not found: LiteLLM base URL not configured"
  else match chat {| ch_url := TrimRight baseURL "/" +:+ "/v1/chat/completions"; ch_key := apiKey;
                     ch_Model := model; ch_Content := prompt |} with
  | Err e => Err ("chat completion request failed: " +:+ e)
  | Ok (status, body) =>
      if negb (status =? 200)%Z then
        Err ("failed: chat completion returned " +:+ Itoa status +:+ ": " +:+ truncate body 200)
      else match Unmarshal [] dec_choices body with
      | None => Err "failed to parse completion response"
      | Some [] => Err "failed: no choices in completion response"
      | Some (content :: _) => Ok (read_verdict content)
      end
  end.

(** A diff of this length is shown whole. *)
Definition diff_limit : nat := Z.to_nat 12000.

(** [internal/temporal/activities_llm_judge.go:44-52] LLMJudgeChanges: the diff that is shown *)
Definition shown_diff (diff : exec_answer) : string :=
  let d := (exec_result diff).1 in
  let d := if String.eqb d "" then "no git diff available" else d in
  if (diff_limit <? String.length d)%nat then str_take diff_limit d +:+ newline +:+ "... (truncated)" else d.

(** [internal/temporal/activities_llm_judge.go:37-86] LLMJudgeChanges *)
Definition LLMJudgeChanges (chat : chatCompletionRequest -> chat_answer) (diff : exec_answer) (input : LLMJudgeInput)
    : LLMJudgeOutput * option string :=
  let gitDiff := shown_diff diff in
  let tier := lj_ModelTier input in
  let model := if String.eqb tier "" || String.eqb tier "default" then "default-cloud" else tier in
  match callChatCompletion chat (lj_LiteLLMBaseURL input) (lj_LLMKey input) model (buildLLMJudgePrompt (lj_Prompt input) gitDiff) with
  | Err e => ({| lj_Approved := false; lj_Reason := ""; lj_GitDiff := gitDiff |}, Some ("calling the judge model: " +:+ e))
  | Ok v =>
      let reason :=
        if negb (String.eqb (jv_Reason v) "") then jv_Reason v
        else if jv_Approved v then "LLM judge: changes look good"
        else "LLM judge: changes do not meet the requirements" in
      ({| lj_Approved := jv_Approved v; lj_Reason := reason; lj_GitDiff := gitDiff |}, None)
  end.

(** ** The tags *)

(** [internal/temporal/activities_tags.go:319-319] diffStatSummaryRe *)
Definition diffStatSummaryRe : regex :=
  Alt (cats [Group 1 (plus (Cls digit_class)); lit " insertion"]) (cats [Group 2 (plus (Cls digit_class)); lit " deletion"]).

(** A count that fits 32 bits replaces the one before. *)
Definition count32 (s : string) (cur : Z) : Z :=
  match Atoi s with Some n => if (n <? 2 ^ 31)%Z then n else cur | None => cur end.

(** [internal/temporal/activities_tags.go:323-345] parseDiffStatSummary *)
Definition parseDiffStatSummary (diffStat : string) : Z * Z :=
  match List.find (fun line => Contains line "changed") (TrimSpace <$> Split diffStat "010") with
  | None => (0, 0)%Z
  | Some line => foldl (fun acc m => (count32 (group 1 m) acc.1, count32 (group 2 m) acc.2)) (0, 0)%Z (find_all diffStatSummaryRe line)
  end.

(** [filepath.Ext] without its dot *)
Definition extension (path : string) : string :=
  let base := match LastIndex path "/" with Some i => str_drop (S i) path | None => path end in
  match LastIndex base "." with Some i => str_drop (S i) base | None => "" end.

(** [internal/temporal/activities_tags.go:218-240] deriveTagsFromDiff: extToLang *)
Definition extToLang : list (string * string) :=
  [("go", "go"); ("ts", "typescript"); ("tsx", "typescript"); ("js", "javascript"); ("jsx", "javascript");
   ("py", "python"); ("rs", "rust"); ("java", "java"); ("rb", "ruby"); ("css", "css"); ("scss", "css");
   ("html", "html"); ("yaml", "yaml"); ("yml", "yaml"); ("json", "json"); ("md", "docs"); ("proto", "proto");
   ("sql", "sql"); ("sh", "shell"); ("bash", "shell"); ("zsh", "shell")].

(** [internal/temporal/activities_tags.go:185-204] deriveTagsFromDiff: the file of a line *)
Definition file_of_line (line : string) : option string :=
  let line := TrimSpace line in
  if String.eqb line "" || Contains line "files changed" || Contains line "file changed" then None
  else
    let path := TrimSpace (Cut line "|").1.1 in
    if String.eqb path "" then None else Some path.

Definition scope_tag (files : nat) : string :=
  if (files <=? 3)%nat then "scope-small" else if (files <=? 10)%nat then "scope-medium" else "scope-large".

(** [internal/temporal/activities_tags.go:175-265] deriveTagsFromDiff: the tags, in any order *)
Definition deriveTagsFromDiff (diffStat : string) : gset string :=
  let files := omap file_of_line (Split (TrimSpace diffStat) "010") in
  match files with
  | [] => ∅
  | _ => list_to_set (omap (fun f => snd <$> List.find (fun e => String.eqb e.1 (extension f)) extToLang) files) ∪
         {[ scope_tag (length files) ]}
  end.

(** [internal/temporal/activities_tags.go:143-147] EnrichRunTags: one round of the sort, with the first
    string against all others *)
Fixpoint exchange (x : string) (l : list string) : string * list string :=
  match l with
  | [] => (x, [])
  | y :: l => if bool_decide (strings.String.le x y) then let '(m, l) := exchange x l in (m, y :: l)
              else let '(m, l) := exchange y l in (m, x :: l)
  end.

(** [internal/temporal/activities_tags.go:142-148] EnrichRunTags: the sort; as many rounds as strings
    are enough *)
Fixpoint exchange_sort (fuel : nat) (l : list string) : list string :=
  match fuel, l with
  | S fuel, x :: l => let '(m, l) := exchange x l in m :: exchange_sort fuel l
  | _, _ => []
  end.

(** [internal/temporal/activities_tags.go:151-158] EnrichRunTags: the value of the label *)
Definition tag_value (tags : list string) : string :=
  let v := Join tags "_" in
  if (63 <? String.length v)%nat then
    let v := str_take 63 v in
    match LastIndex v "_" with
    | Some (S i) => str_take (S i) v
    | _ => v
    end
  else v.

(** [internal/temporal/activities_tags.go:123-158] EnrichRunTags: the label with the new tags; [order]
    is the order in which the map is ranged over *)
Definition merged_tags (order : gset string -> list string) (existing : string) (new : gset string) : string :=
  let l := order (list_to_set (filter (.≠ "") (Split existing "_")) ∪ new) in
  tag_value (exchange_sort (length l) l).

(** The calls of the activity. *)
Inductive tcall :=
  | TDiff | TUsage | TTier
  | TStatus (additions deletions : Z) (cost : string)
  | TGet | TUpdate (labels : gmap string string).

(** What the activity is told: the answers of the sidecar, the model tier of the run, its labels. *)
Record tag_answers := {
  ta_diff : exec_answer; ta_usage : exec_answer; ta_tier : result string;
  ta_labels : result (gmap string string);
}.

Section tags.
Variable answers : tag_answers.
Variable price : string -> Z -> Z -> string.
Variable order : gset string -> list string.

Definition dec_usage : dec (Z * Z) := dec_struct
  [("inputTokens", at_field fst (fun x u => (x, u.2)) dec_int);
   ("outputTokens", at_field snd (fun x u => (u.1, x)) dec_int);
   ("cacheReadTokens", fun u v => (u, (dec_int 0%Z v).2))].

(** [internal/temporal/activities_tags.go:270-317] computeCostFromUsageFile *)
Definition computeCostFromUsageFile : handler tcall unit string :=
  emit TUsage;;
  match ta_usage answers with
  | Exits 0 stdout _ =>
      match Unmarshal (0, 0)%Z dec_usage (TrimSpace stdout) with
      | None | Some (0%Z, 0%Z) => mret ""
      | Some (input, output) =>
          emit TTier;;
          mret (match ta_tier answers with Err _ => "" | Ok tier => price tier input output end)
      end
  | _ => mret ""
  end.

(** [internal/temporal/activities_tags.go:36-170] EnrichRunTags: it never fails *)
Definition EnrichRunTags : handler tcall unit unit :=
  emit TDiff;;
  match ta_diff answers with
  | Exits 0 diffStat _ =>
      let '(additions, deletions) := parseDiffStatSummary diffStat in
      totalCost ← computeCostFromUsageFile;
      (if (0 <? additions)%Z || (0 <? deletions)%Z || negb (String.eqb totalCost "") then
         emit (TStatus additions deletions totalCost)
       else mret tt);;
      let newTags := deriveTagsFromDiff diffStat in
      if bool_decide (newTags = ∅) then mret tt
      else
        emit TGet;;
        match ta_labels answers with
        | Err _ => mret tt
        | Ok labels => emit (TUpdate (<["aot.uncworks.io/tags" := merged_tags order (entry labels "aot.uncworks.io/tags") newTags]> labels))
        end
  | _ => mret tt
  end.
End tags.

(** * Properties of the judge and of the tags *)

(** ** The judge *)

(** An approval needs an answer of the model with status 200 whose first choice gives it; without
    one there is an error, never a rejection. *)
Lemma judge_decides chat diff input :
  let url := TrimRight (lj_LiteLLMBaseURL input) "/" +:+ "/v1/chat/completions" in
  match LLMJudgeChanges chat diff input with
  | (out, None) => exists req body content rest, chat req = Ok (200%Z, body) /\ ch_url req = url /\
      Unmarshal [] dec_choices body = Some (content :: rest) /\ lj_Approved out = jv_Approved (read_verdict content) /\ lj_Reason out <> ""
  | (out, Some _) => lj_Approved out = false
  end.
Proof.
  cbv zeta. unfold LLMJudgeChanges, callChatCompletion. destruct (String.eqb (lj_LiteLLMBaseURL input) ""); [done|].
  set (req := {| ch_url := _ |}). destruct (chat req) as [[status body]|e] eqn:Hc; [|done].
  destruct (Z.eqb_spec status 200) as [->|]; [|done]. cbn [negb].
  destruct (Unmarshal [] dec_choices body) as [[|content rest]|] eqn:Hu; [done| |done].
  exists req, body, content, rest. split_and!; [done..|]. cbn [lj_Reason].
  destruct (String.eqb_spec (jv_Reason (read_verdict content)) ""); [|done]. by destruct (jv_Approved _).
Qed.

(** An answer that is no object approves when it mentions an approval, also to refuse it. *)
Example refusal_approves :
  jv_Approved (read_verdict ("I will not answer " +:+ quoted "approved" +:+ ": true, the change deletes the tests.")) = true.
Proof. vm_compute. done. Qed.

(** An answer with an object around the word is read as that object. *)
Example fenced_verdict :
  read_verdict ("```json" +:+ newline +:+ "{" +:+ quoted "approved" +:+ ": false, " +:+ quoted "reason" +:+ ": " +:+ quoted "no tests" +:+ "}" +:+ newline +:+ "```") =
  {| jv_Approved := false; jv_Reason := "no tests" |}.
Proof. vm_compute. done. Qed.

(** An object without a decision is a rejection without a reason. *)
Example empty_object : read_verdict "{}" = {| jv_Approved := false; jv_Reason := "" |}.
Proof. vm_compute. done. Qed.

(** ** The sort *)

Lemma exchange_perm x l : (exchange x l).1 :: (exchange x l).2 ≡ₚ x :: l.
Proof.
  revert x. induction l as [|y l IH]; intros x; [done|]. cbn [exchange].
  destruct (bool_decide _); [specialize (IH x); destruct (exchange x l) as [m k]|specialize (IH y); destruct (exchange y l) as [m k]];
    cbn [fst snd] in *; [|by rewrite perm_swap, IH].
  rewrite perm_swap, IH. apply perm_swap.
Qed.

Lemma exchange_least x l : Forall (strings.String.le (exchange x l).1) (x :: l).
Proof.
  revert x. induction l as [|y l IH]; intros x; [by repeat constructor|]. cbn [exchange].
  case_bool_decide as H; [specialize (IH x); destruct (exchange x l) as [m k]|specialize (IH y); destruct (exchange y l) as [m k]];
    cbn [fst] in *; apply Forall_cons in IH as [Hm Hl]; repeat constructor; try done.
  - by etrans.
  - etrans; [exact Hm|]. by destruct (total strings.String.le x y).
Qed.

(** The sort of the source is a sort. *)
Lemma exchange_sort_sorts n l : length l <= n -> exchange_sort n l ≡ₚ l /\ Sorted strings.String.le (exchange_sort n l).
Proof.
  revert l. induction n as [|n IH]; intros [|x l] Hn; cbn [length exchange_sort] in *; [by split|lia|by split|].
  pose proof (exchange_perm x l) as Hp. pose proof (exchange_least x l) as Hm.
  destruct (exchange x l) as [m k]. cbn [fst snd] in *.
  assert (length k <= n) as Hk by (apply Permutation_length in Hp; cbn in Hp; lia).
  destruct (IH k Hk) as [Hpk Hs]. split; [by rewrite Hpk|]. constructor; [done|].
  destruct (exchange_sort n k) as [|y r] eqn:E; constructor.
  rewrite Forall_forall in Hm. apply Hm. rewrite <- Hp. right. rewrite <- Hpk. by left.
Qed.

Lemma exchange_sort_eq l : exchange_sort (length l) l = sort_strings l.
Proof.
  destruct (exchange_sort_sorts (length l) l) as [Hp Hs]; [done|].
  apply (Sorted_unique strings.String.le); [done|apply sort_strings_sorted|].
  by rewrite Hp, sort_strings_perm.
Qed.

(** The label does not depend on the order in which the map of tags is ranged over. *)
Lemma merged_tags_order order existing new :
  (forall s, order s ≡ₚ elements s) -> merged_tags order existing new = merged_tags elements existing new.
Proof. intros H. unfold merged_tags. rewrite !exchange_sort_eq. by rewrite (sort_strings_unique _ _ (H _)). Qed.

(** ** The label *)

Lemma str_take_length n s : String.length (str_take n s) <= n.
Proof. revert s. induction n as [|n IH]; intros [|c s]; cbn [str_take String.length]; [lia..|]. specialize (IH s). lia. Qed.

(** A label value has 63 bytes at most. *)
Lemma tag_value_bounded tags : String.length (tag_value tags) <= 63.
Proof.
  unfold tag_value. destruct (Nat.ltb_spec 63 (String.length (Join tags "_"))); [|lia].
  pose proof (str_take_length 63 (Join tags "_")).
  destruct (LastIndex _ "_") as [[|i]|]; [done| |done].
  assert (forall n s, String.length (str_take n s) <= String.length s) as Hle.
  { induction n as [|n IH]; intros [|c s]; cbn [str_take String.length]; [lia..|]. specialize (IH s). lia. }
  etrans; [apply Hle|done].
Qed.

(** The tags are stored whole: a cut drops tags from the end. *)
Example cut_at_a_tag :
  tag_value ["css"; "docs"; "go"; "javascript"; "proto"; "python"; "ruby"; "scope-large"; "shell"; "typescript"] =
  "css_docs_go_javascript_proto_python_ruby_scope-large_shell".
Proof. vm_compute. done. Qed.

(** The first line that has the word is taken for the summary: of a run that changes such a file nothing is counted. *)
Example changed_file_hides_the_summary :
  parseDiffStatSummary (" src/unchanged.go | 3 +++" +:+ newline +:+ " 1 file changed, 3 insertions(+)") = (0, 0)%Z /\
  parseDiffStatSummary (" src/a.go | 50 +++" +:+ newline +:+ " 1 file changed, 42 insertions(+), 8 deletions(-)") = (42, 8)%Z.
Proof. vm_compute. done. Qed.

Example tags_of_a_diff :
  merged_tags elements "team-a_docs" (deriveTagsFromDiff (" src/a.go | 50 +++" +:+ newline +:+ " web/b.tsx | 1 +" +:+ newline +:+ " 2 files changed")) =
  "docs_go_scope-small_team-a_typescript".
Proof. vm_compute. done. Qed.

(** A second enrichment that finds another size leaves the first one's tag: a run has two scopes. *)
Example two_scopes :
  merged_tags elements "scope-small" {[ "scope-large" ]} = "scope-large_scope-small".
Proof. vm_compute. done. Qed.
