(* ===== verification/AgentLog.v ===== *)
(** * The conversation in the agent's log: [internal/server/files.go].

    The log is a document on each line.  Its events repeat what was said; the entries that are shown
    name each message and each call once.  How a number of JSON is printed and what integer it
    has are parameters, and so is how a time is written. *)

From S2P Require Import Prelude GoStrings Regex Json JsonDecode OpenSpec JsonRaw PiEvents.
Local Open Scope unc_scope.

(** [internal/server/files.go:543-551] AgentLogEntry *)
Record AgentLogEntry := {
  le_Timestamp : string; le_Type : string; le_Content : string; le_ToolName : string;
  le_ToolInput : string; le_Model : string;
}.

(** The value of a key of a map: the last one counts. *)
Definition value_at (k : string) (m : list (string * json)) : option json := last (snd <$> filter (fun kv => kv.1 = k) m).
Definition unquoted (l : list (string * json)) : list (string * json) := (fun m => (unquote m.1, m.2)) <$> l.

(** A type assertion with its zero value. *)
Definition str_at (k : string) (m : list (string * json)) : string := default "" (text_at k m).
Definition bool_at (k : string) (m : list (string * json)) : bool :=
  match value_at k m with Some (JBool b) => b | _ => false end.
Definition map_at (k : string) (m : list (string * json)) : option (list (string * json)) :=
  match value_at k m with Some (JObj l) => Some (unquoted l) | _ => None end.
Definition list_at (k : string) (m : list (string * json)) : option (list json) :=
  match value_at k m with Some (JArr l) => Some l | _ => None end.

Record log_state := {
  lg_entries : list AgentLogEntry; lg_session : string;
  lg_seenToolCalls : gset string; lg_seenTexts : gset string; lg_seenToolResults : gset string;
}.

Definition with_entry (e : AgentLogEntry) (s : log_state) : log_state :=
  {| lg_entries := lg_entries s ++ [e]; lg_session := lg_session s; lg_seenToolCalls := lg_seenToolCalls s;
     lg_seenTexts := lg_seenTexts s; lg_seenToolResults := lg_seenToolResults s |}.
Definition saw_call (k : string) (s : log_state) : log_state :=
  {| lg_entries := lg_entries s; lg_session := lg_session s; lg_seenToolCalls := {[ k ]} ∪ lg_seenToolCalls s;
     lg_seenTexts := lg_seenTexts s; lg_seenToolResults := lg_seenToolResults s |}.
Definition saw_text (k : string) (s : log_state) : log_state :=
  {| lg_entries := lg_entries s; lg_session := lg_session s; lg_seenToolCalls := lg_seenToolCalls s;
     lg_seenTexts := {[ k ]} ∪ lg_seenTexts s; lg_seenToolResults := lg_seenToolResults s |}.
Definition saw_result (k : string) (s : log_state) : log_state :=
  {| lg_entries := lg_entries s; lg_session := lg_session s; lg_seenToolCalls := lg_seenToolCalls s;
     lg_seenTexts := lg_seenTexts s; lg_seenToolResults := {[ k ]} ∪ lg_seenToolResults s |}.
Definition with_session (ts : string) (s : log_state) : log_state :=
  {| lg_entries := lg_entries s; lg_session := ts; lg_seenToolCalls := lg_seenToolCalls s;
     lg_seenTexts := lg_seenTexts s; lg_seenToolResults := lg_seenToolResults s |}.

Definition log_entry (ts ty content tool input model : string) : AgentLogEntry :=
  {| le_Timestamp := ts; le_Type := ty; le_Content := content; le_ToolName := tool; le_ToolInput := input; le_Model := model |}.

(** [internal/server/files.go:1038-1055] extractResultContent *)
Definition extractResultContent (content : option json) : string :=
  match content with
  | Some (JStr raw) => unquote raw
  | Some (JArr l) =>
      Join (omap (fun b => match b with JObj m => text_at "text" (unquoted m) | _ => None end) l) newline
  | _ => ""
  end.

Section log.
Variable float : string -> string.
Variable int_of : string -> Z.
Variable rfc3339 : Z -> string.

(** [internal/server/files.go:1058-1067] formatTimestamp: a number is milliseconds *)
Definition formatTimestamp (ts : option json) (fallback : string) : string :=
  match ts with
  | Some (JNum lit) => rfc3339 (int_of lit / 1000)
  | Some (JStr raw) => unquote raw
  | _ => fallback
  end.

(** [json.Marshal] of the arguments of a call, which may be no map. *)
Definition args_json (args : option (list (string * json))) : string :=
  match args with None => "null" | Some m => marshal_map float m end.

Definition call_type (name : string) : string := if String.eqb name "delegate_task" then "delegate" else "tool_call".

(** [internal/server/files.go:863-880] parseAgentJSONL: a call is shown once, when it has an id *)
Definition add_call (id : string) (e : AgentLogEntry) (s : log_state) : log_state :=
  if String.eqb id "" then with_entry e s
  else if bool_decide ("tc:" +:+ id ∈ lg_seenToolCalls s) then s
  else with_entry e (saw_call ("tc:" +:+ id) s).

(** [internal/server/files.go:978-1032] extractContentEntries: a block *)
Definition content_entry (role ts model : string) (s : log_state) (c : json) : log_state :=
  match c with
  | JObj l =>
      let m := unquoted l in
      let ctype := str_at "type" m in
      if String.eqb ctype "text" then
        let text := TrimSpace (str_at "text" m) in
        if String.eqb text "" then s
        else
          let key := role +:+ ":" +:+ text in
          if bool_decide (key ∈ lg_seenTexts s) then s
          else with_entry (log_entry ts role text "" "" model) (saw_text key s)
      else if String.eqb ctype "toolCall" then
        let name := str_at "name" m in
        add_call (str_at "id" m) (log_entry ts (call_type name) "" name (args_json (map_at "arguments" m)) model) s
      else s
  | _ => s
  end.

(** [internal/server/files.go:976-1034] extractContentEntries *)
Definition extractContentEntries (contents : list json) (role ts model : string) (s : log_state) : log_state :=
  foldl (content_entry role ts model) s contents.

(** [internal/server/files.go:883-909] parseAgentJSONL: the end of a call *)
Definition tool_end (event : list (string * json)) (s : log_state) : log_state :=
  let toolName := str_at "toolName" event in
  let id := str_at "toolCallId" event in
  let resultText := match map_at "result" event with Some r => extractResultContent (value_at "content" r) | None => "" end in
  let s := saw_text (str_take 200 ("tool_result:" +:+ toolName +:+ ":" +:+ resultText)) s in
  let s := if String.eqb id "" then s else saw_result ("tr:" +:+ id) s in
  let resultText := if bool_at "isError" event then "[error] " +:+ resultText else resultText in
  if String.eqb resultText "" then s
  else with_entry (log_entry (lg_session s) "tool_result" resultText toolName "" "") s.

(** [internal/server/files.go:916-921] parseAgentJSONL: a message *)
Definition message_entries (role : string) (m : list (string * json)) (s : log_state) : log_state :=
  extractContentEntries (default [] (list_at "content" m)) role (formatTimestamp (value_at "timestamp" m) (lg_session s))
    (str_at "model" m) s.

(** [internal/server/files.go:941-954] parseAgentJSONL: a message of the final conversation *)
Definition final_message (s : log_state) (m : json) : log_state :=
  match m with
  | JObj l =>
      let m := unquoted l in
      let role := str_at "role" m in
      if String.eqb role "toolResult" then s else message_entries role m s
  | _ => s
  end.

(** [internal/server/files.go:850-969] parseAgentJSONL: an event *)
Definition log_event (event : list (string * json)) (s : log_state) : log_state :=
  let ty := str_at "type" event in
  if String.eqb ty "session" then
    match text_at "timestamp" event with Some ts => with_session ts s | None => s end
  else if String.eqb ty "tool_execution_start" then
    let name := str_at "toolName" event in
    add_call (str_at "toolCallId" event)
      (log_entry (lg_session s) (call_type name) "" name (args_json (map_at "args" event)) "") s
  else if String.eqb ty "tool_execution_end" then tool_end event s
  else if String.eqb ty "message_end" then
    match map_at "message" event with Some m => message_entries (str_at "role" m) m s | None => s end
  else if String.eqb ty "turn_end" then
    match map_at "message" event with Some m => message_entries "assistant" m s | None => s end
  else if String.eqb ty "agent_end" then
    let s := foldl final_message s (default [] (list_at "messages" event)) in
    with_entry (log_entry (lg_session s) "system" "Agent finished" "" "" "") s
  else if String.eqb ty "agent_start" then with_entry (log_entry (lg_session s) "system" "Agent started" "" "" "") s
  else s.

(** [internal/server/files.go:840-850] parseAgentJSONL: a line *)
Definition log_line (s : log_state) (line : string) : log_state :=
  let line := TrimSpace line in
  if String.eqb line "" then s
  else match parse_json line with
       | Some (JObj l) => log_event (unquoted l) s
       | _ => s
       end.

Definition empty_log : log_state :=
  {| lg_entries := []; lg_session := ""; lg_seenToolCalls := ∅; lg_seenTexts := ∅; lg_seenToolResults := ∅ |}.

(** [internal/server/files.go:832-973] parseAgentJSONL *)
Definition parseAgentJSONL (raw : string) : list AgentLogEntry :=
  lg_entries (foldl log_line empty_log (Split raw "010")).
End log.

(** ** What the agent is thinking *)

(** [internal/server/files.go:632-636] ThinkingResponse *)
Record ThinkingResponse := { th_Thinking : bool; th_Text : string; th_ToolName : string }.

Definition dec_type : dec string := dec_struct [("type", dec_string)].
Definition dec_update : dec (string * option json) := dec_struct
  [("type", at_field fst (fun x e => (x, e.2)) dec_string);
   ("assistantMessageEvent", at_field snd (fun x e => (e.1, x)) dec_raw)].
Definition dec_delta : dec (string * string * option json) := dec_struct
  [("type", at_field (fun e => e.1.1) (fun x e => (x, e.1.2, e.2)) dec_string);
   ("delta", at_field (fun e => e.1.2) (fun x e => (e.1.1, x, e.2)) dec_string);
   ("tool", at_field snd (fun x e => (e.1, x)) dec_raw)].
Definition dec_name : dec string := dec_struct [("name", dec_string)].

(** [internal/server/files.go:695-724] parseThinkingFromLines: the lines behind the last start of a
    message, unless a message has ended since; the lines come last first *)
Fixpoint open_message (behind : list string) (backwards : list string) : option (list string) :=
  match backwards with
  | [] => None
  | line :: rest =>
      let next := open_message (line :: behind) rest in
      if String.eqb (TrimSpace line) "" then next
      else match Unmarshal "" dec_type (TrimSpace line) with
           | None => next
           | Some ty =>
               if String.eqb ty "message_start" then Some behind
               else if String.eqb ty "message_end" then None
               else next
           end
  end.

(** [internal/server/files.go:731-769] parseThinkingFromLines: a line behind the start *)
Definition thinking_line (acc : string * string) (line : string) : string * string :=
  if String.eqb (TrimSpace line) "" then acc
  else match Unmarshal ("", None) dec_update (TrimSpace line) with
  | Some ("message_update", Some ame) =>
      match decoded ("", "", None) dec_delta ame with
      | Some ("text_delta", delta, _) => (acc.1 +:+ delta, acc.2)
      | Some ("tool_use", _, Some tool) =>
          match decoded "" dec_name tool with
          | Some "" | None => acc
          | Some name => (acc.1, name)
          end
      | _ => acc
      end
  | _ => acc
  end.

(** [internal/server/files.go:693-782] parseThinkingFromLines *)
Definition parseThinkingFromLines (lines : list string) : ThinkingResponse :=
  match open_message [] (rev lines) with
  | None => {| th_Thinking := false; th_Text := ""; th_ToolName := "" |}
  | Some behind =>
      let '(text, tool) := foldl thinking_line ("", "") behind in
      {| th_Thinking := true; th_Text := text; th_ToolName := tool |}
  end.

(** [internal/server/files.go:684-687] readLastNLines: the lines that are kept *)
Definition last_lines {A} (n : nat) (lines : list A) : list A := drop (length lines - n) lines.

(** ** Each message once *)

(** What someone has said, among the entries. *)
Definition said (who : string) (s : log_state) : list string :=
  le_Content <$> filter (fun e => le_Type e = who) (lg_entries s).

(** Nothing is said twice, and what was said is known. *)
Definition said_once (who : string) (s : log_state) : Prop :=
  NoDup (said who s) /\ forall t, t ∈ said who s -> who +:+ ":" +:+ t ∈ lg_seenTexts s.

Definition speaker (who : string) : Prop := who = "user" \/ who = "assistant".

Section once.
Variable float : string -> string.
Variable int_of : string -> Z.
Variable rfc3339 : Z -> string.
Context (who : string) (Hwho : speaker who).

Lemma said_with_entry e s : said who (with_entry e s) = said who s ++ (if decide (le_Type e = who) then [le_Content e] else []).
Proof. unfold said, with_entry. cbn [lg_entries]. rewrite filter_app, fmap_app, filter_cons, filter_nil. by destruct (decide _). Qed.

Lemma once_other_entry e s : le_Type e <> who -> said_once who s -> said_once who (with_entry e s).
Proof. intros He [Hn Hs]. unfold said_once. rewrite said_with_entry, decide_False, app_nil_r by done. by split. Qed.

Lemma once_saw_text k s : said_once who s -> said_once who (saw_text k s).
Proof. intros [Hn Hs]. split; [done|]. intros t Ht. apply elem_of_union_r. by apply Hs. Qed.

Lemma once_text k e s : le_Type e = who -> k = who +:+ ":" +:+ le_Content e -> k ∉ lg_seenTexts s ->
  said_once who s -> said_once who (with_entry e (saw_text k s)).
Proof.
  intros He -> Hk [Hn Hs]. unfold said_once. rewrite said_with_entry, decide_True by done. split.
  - apply NoDup_app. split_and!; [exact Hn| |by apply NoDup_singleton].
    intros t Ht ->%list_elem_of_singleton. by apply Hk, Hs.
  - intros t. rewrite elem_of_app, list_elem_of_singleton. cbn [with_entry saw_text lg_seenTexts].
    intros [Ht| ->]; [apply elem_of_union_r; by apply Hs|set_solver].
Qed.

Lemma call_type_other name : call_type name <> who.
Proof. unfold call_type. destruct Hwho as [-> | ->]; by case_match. Qed.

Lemma once_add_call id e s : le_Type e <> who -> said_once who s -> said_once who (add_call id e s).
Proof. intros He Hs. unfold add_call. case_match; [by apply once_other_entry|]. case_bool_decide; [done|by apply once_other_entry]. Qed.

Lemma once_content_entry role ts model s c : said_once who s -> said_once who (content_entry float role ts model s c).
Proof.
  intros Hs. unfold content_entry. destruct c as [|b|lit|raw|l|l]; try done. cbv zeta.
  destruct (String.eqb _ "text").
  - destruct (String.eqb _ ""); [done|]. case_bool_decide; [done|].
    destruct (decide (role = who)) as [->|Hr]; [by apply once_text|].
    apply once_other_entry; [done|by apply once_saw_text].
  - destruct (String.eqb _ "toolCall"); [|done]. apply once_add_call; [apply call_type_other|done].
Qed.

Lemma once_contents contents role ts model s :
  said_once who s -> said_once who (extractContentEntries float contents role ts model s).
Proof.
  unfold extractContentEntries. revert s. induction contents as [|c l IH]; intros s Hs; [done|].
  apply IH. by apply once_content_entry.
Qed.

Lemma once_final l s : said_once who s -> said_once who (foldl (final_message float int_of rfc3339) s l).
Proof.
  revert s. induction l as [|m l IH]; intros s Hs; [done|]. apply IH. unfold final_message.
  destruct m as [|b|lit|raw|k|k]; try done. cbv zeta. case_match; [done|by apply once_contents].
Qed.

Lemma once_event event s : said_once who s -> said_once who (log_event float int_of rfc3339 event s).
Proof.
  intros Hs. assert (forall ty, ty = "system" \/ ty = "tool_result" -> ty <> who) as Hty.
  { intros ty [-> | ->]; by destruct Hwho as [-> | ->]. }
  unfold log_event. repeat case_match; try done.
  - apply once_add_call; [apply call_type_other|done].
  - unfold tool_end. repeat case_match; repeat (apply once_other_entry; [by apply Hty; right|]);
      repeat first [done | apply once_saw_text].
  - by apply once_contents.
  - by apply once_contents.
  - apply once_other_entry; [by apply Hty; left|by apply once_final].
  - apply once_other_entry; [by apply Hty; left|done].
Qed.

(** What a person or the agent says is shown once, however often the events repeat it. *)
Lemma messages_shown_once raw :
  NoDup (le_Content <$> filter (fun e => le_Type e = who) (parseAgentJSONL float int_of rfc3339 raw)).
Proof.
  unfold parseAgentJSONL. cut (said_once who (foldl (log_line float int_of rfc3339) empty_log (Split raw "010"))); [by intros [Hn _]|].
  assert (said_once who empty_log) as H0 by (split; [constructor|intros t Ht; by apply elem_of_nil in Ht]).
  revert H0. generalize empty_log. induction (Split raw "010") as [|l ls IH]; intros s Hs; [done|].
  apply IH. unfold log_line. destruct (String.eqb _ ""); [done|]. repeat case_match; try done. by apply once_event.
Qed.
End once.

(** An entry is said with the same words twice, and shown once. *)
Example repeated_words_are_lost :
  let line text := "{" +:+ q "type" +:+ ":" +:+ q "message_end" +:+ "," +:+ q "message" +:+ ":{" +:+ q "role" +:+ ":" +:+ q "assistant" +:+ "," +:+
                   q "content" +:+ ":[{" +:+ q "type" +:+ ":" +:+ q "text" +:+ "," +:+ q "text" +:+ ":" +:+ q text +:+ "}]}}" in
  le_Content <$> parseAgentJSONL (fun s => s) (fun _ => 0%Z) (fun _ => "") (Join [line "Fixed."; line "Next."; line "Fixed."] newline) =
  ["Fixed."; "Next."].
Proof. vm_compute. done. Qed.

Example thinking_ex :
  let ev ty rest := "{" +:+ q "type" +:+ ":" +:+ q ty +:+ rest +:+ "}" in
  let delta text := ev "message_update" ("," +:+ q "assistantMessageEvent" +:+ ":{" +:+ q "type" +:+ ":" +:+ q "text_delta" +:+ "," +:+ q "delta" +:+ ":" +:+ q text +:+ "}") in
  parseThinkingFromLines [ev "message_end" ""; ev "message_start" ""; delta "Let me "; "junk"; delta "see"] =
    {| th_Thinking := true; th_Text := "Let me see"; th_ToolName := "" |} /\
  th_Thinking (parseThinkingFromLines [ev "message_start" ""; delta "x"; ev "message_end" ""]) = false.
Proof. vm_compute. done. Qed.
