(* ===== verification/RestFiles.v ===== *)
(** * The file explorer: [internal/server/files.go] and [internal/server/pod_lookup.go].

    The files of a run are asked of its pod, or read from the volume on the node when the pod is
    scaled to zero.  The stored objects, what a command in a pod answers, the logs of a container
    and the files of the node are parameters; the node's files are a tree without symbolic links. *)

From S2P Require Import Prelude GoStrings ApiTypes TemporalTypes Files Json Kube RunController ApiServer JsonRaw AgentLog.
Local Open Scope unc_scope.

(** [internal/server/files.go:59-64] FileEntry *)
Record FileEntry := { fe_Name : string; fe_Type : string; fe_Size : Z; fe_Modified : string }.

(** ** The output of [ls] *)

(** [internal/server/files.go:422-424] isHiddenDir *)
Definition isHiddenDir (name : string) : bool :=
  String.eqb name ".aot" || String.eqb name ".bare" || String.eqb name ".openspec" || String.eqb name ".pi".

(** [strconv.ParseInt] to base 10 with 64 bits, its error left aside: a number that does not fit is the
    nearest one that does. *)
Definition ParseInt64 (s : string) : Z :=
  let clamp z := Z.max int64_min (Z.min int64_max z) in
  let body sign t := match t with "" => 0%Z | _ => match digits_val 0 t with Some z => clamp (sign * z)%Z | None => 0%Z end end in
  match s with
  | String "-"%char t => body (-1)%Z t
  | String "+"%char t => body 1%Z t
  | _ => body 1%Z s
  end.

Definition type_of_perms (perms : string) : string :=
  match perms with
  | String "d"%char _ => "directory"
  | String "l"%char _ => "symlink"
  | _ => "file"
  end.

(** [internal/server/files.go:379-415] parseLsOutput: a line *)
Definition ls_line (line : string) : option FileEntry :=
  if HasPrefix line "total " || String.eqb line "" then None
  else match Fields line with
  | perms :: _ :: _ :: _ :: size :: date :: time :: ((_ :: _) as words) =>
      let name := Join words " " in
      if String.eqb name "." || String.eqb name ".." || isHiddenDir name then None
      else Some {| fe_Name := name; fe_Type := type_of_perms perms; fe_Size := ParseInt64 size; fe_Modified := date +:+ " " +:+ time |}
  | _ => None
  end.

(** [internal/server/files.go:374-419] parseLsOutput *)
Definition parseLsOutput (output : string) : list FileEntry := omap ls_line (Split (TrimSpace output) "010").

(** [internal/server/files.go:434-454] detectContentType: textTypes *)
Definition textTypes : list (string * string) :=
  let text := "text/plain; charset=utf-8" in
  [(".go", text); (".py", text); (".rs", text); (".ts", text); (".tsx", text); (".js", text); (".jsx", text);
   (".md", "text/markdown; charset=utf-8"); (".yaml", "text/yaml; charset=utf-8"); (".yml", "text/yaml; charset=utf-8");
   (".toml", text); (".sh", text); (".bash", text); (".zsh", text); (".txt", text); (".log", text);
   (".csv", "text/csv; charset=utf-8"); (".json", "application/json"); (".xml", "application/xml")].

(** [filepath.Ext] *)
Definition Ext (path : string) : string :=
  let base := match LastIndex path "/" with Some i => str_drop (S i) path | None => path end in
  match LastIndex base "." with Some i => str_drop i base | None => "" end.

(** ** What the handlers are told *)

Record PersistentVolume := { pv_HostPath : option string; pv_Local : option string }.

Record explorer := {
  ex_run : string -> get_result Run;
  (** the replicas of a deployment, when it names them *)
  ex_deployment : string -> get_result (option Z);
  (** the volume of a claim *)
  ex_claim : string -> get_result string;
  ex_volume : string -> get_result PersistentVolume;
  (** the pods with the label of a run, and whether each is running *)
  ex_pods : string -> result (list (string * bool));
  (** both outputs of a command in a pod, and its error *)
  ex_exec : string -> list string -> string * string * option string;
  (** the log of a container: a failure to open it, or what could be read *)
  ex_logs : string -> result string;
  ex_disk : tree;
  (** the size and the time of change of a file of the node *)
  ex_info : string -> option (Z * string);
  (** [mime.TypeByExtension] *)
  ex_mime : string -> string;
}.

(** The error of a [Get], or the object. *)
Definition got {A} (r : get_result A) : result A :=
  match r with Found a => Ok a | NotFound => Err "not found" | GetError e => Err e end.

(** What a handler answers: an error, a listing, or data of a type. *)
Inductive files_reply :=
  | FError (status : Z) (msg : string)
  | FListing (entries : list FileEntry)
  | FData (ctype data : string)
  | FEntries (entries : list AgentLogEntry)
  | FThinking (t : ThinkingResponse).

Section explorer.
Variable ex : explorer.

(** [internal/server/files.go:427-465] detectContentType *)
Definition detectContentType (path : string) : string :=
  let ext := Ext path in
  if String.eqb ext "" then "application/octet-stream"
  else match List.find (fun e => String.eqb e.1 ext) textTypes with
  | Some e => e.2
  | None => let ct := ex_mime ex ext in if String.eqb ct "" then "application/octet-stream" else ct
  end.

(** [internal/server/files.go:73-99] getDeploymentReplicas *)
Definition getDeploymentReplicas (runID : string) : result Z :=
  match got (ex_run ex runID) with
  | Err e => Err ("get AgentRun: " +:+ e)
  | Ok r =>
      let name := st_DeploymentName (run_Status r) in
      if String.eqb name "" then Err ("failed: no deployment name on AgentRun " +:+ Quote runID +:+ " status")
      else match got (ex_deployment ex name) with
      | Err e => Err ("get Deployment " +:+ Quote name +:+ ": " +:+ e)
      | Ok replicas => Ok (default 1%Z replicas)
      end
  end.

(** [internal/server/files.go:104-137] getPVCHostPath *)
Definition getPVCHostPath (runID : string) : result string :=
  let claim := "aot-ws-" +:+ runID in
  match got (ex_claim ex claim) with
  | Err e => Err ("PVC " +:+ Quote claim +:+ " not found: " +:+ e)
  | Ok "" => Err ("failed: PVC " +:+ Quote claim +:+ " has no bound PV")
  | Ok name =>
      match got (ex_volume ex name) with
      | Err e => Err ("PV " +:+ Quote name +:+ " not found: " +:+ e)
      | Ok {| pv_HostPath := Some p |} => Ok p
      | Ok {| pv_Local := Some p |} => Ok p
      | Ok _ => Err ("invalid input: PV " +:+ Quote name +:+ " uses an unsupported volume type (not hostPath or local)")
      end
  end.

(** [internal/server/pod_lookup.go:17-51] lookupRunningPod *)
Definition lookupRunningPod (runID : string) : result string :=
  match got (ex_run ex runID) with
  | Err e => Err ("lookup running pod: " +:+ e)
  | Ok r =>
      let name := if String.eqb (st_PodName (run_Status r)) "" then st_DeploymentName (run_Status r) else st_PodName (run_Status r) in
      if String.eqb name "" then Ok ""
      else match ex_pods ex runID with
      | Err e => Err ("list pods for run " +:+ runID +:+ ": " +:+ e)
      | Ok pods => Ok (match List.find snd pods with Some p => p.1 | None => name end)
      end
  end.

(** The pod answers when it is known to have replicas. *)
Definition pod_is_up (runID : string) : bool :=
  match getDeploymentReplicas runID with Ok n => (0 <? n)%Z | Err _ => false end.

(** The pod of a request, or the answer that there is none. *)
Definition with_pod (runID : string) (k : string -> files_reply) : files_reply :=
  match lookupRunningPod runID with
  | Err e => FError 404 ("agent run " +:+ Quote runID +:+ " not found: " +:+ e)
  | Ok "" => FError 404 "pod not available for this agent run"
  | Ok pod => k pod
  end.

(** The files of a run on the node, or the answer that there are none. *)
Definition with_volume (runID : string) (k : string -> files_reply) : files_reply :=
  match getPVCHostPath runID with
  | Err e => FError 404 ("workspace not found for run " +:+ Quote runID +:+ ": " +:+ e +:+ " (run may be archived or deleted)")
  | Ok p => k p
  end.

(** [internal/server/files.go:146-149] handleListFiles: a path that is let through *)
Definition in_workspace (path : string) : bool := HasPrefix (Clean path) "/workspace".

(** [internal/server/files.go:194-201] handleListFiles: the path on the node, when it is let through *)
Definition disk_path (hostPath relative : string) : option string :=
  let p := PathJoin hostPath relative in
  if HasPrefix (Abs (ex_disk ex) p) hostPath then Some p else None.

(** [internal/server/files.go:220-238] handleListFiles: the entry of a name *)
Definition disk_entry (dir name : string) : option FileEntry :=
  if isHiddenDir name then None
  else
    let info := ex_info ex (PathJoin dir name) in
    Some {| fe_Name := name; fe_Type := if IsDir (ex_disk ex) (PathJoin dir name) then "directory" else "file";
            fe_Size := default 0%Z (fst <$> info); fe_Modified := default "" (snd <$> info) |}.

(** [internal/server/files.go:139-243] handleListFiles *)
Definition handleListFiles (runID path : string) : files_reply :=
  let dirPath := if String.eqb path "" then "/workspace" else path in
  if negb (in_workspace dirPath) then FError 400 "path must be within /workspace"
  else if pod_is_up runID then
    with_pod runID (fun pod =>
      match ex_exec ex pod ["ls"; "-la"; "--time-style=long-iso"; dirPath] with
      | (_, _, Some _) => FError 500 "failed to list files"
      | (stdout, stderr, None) =>
          if Contains stderr "No such file or directory" then FError 404 ("path not found: " +:+ dirPath)
          else FListing (parseLsOutput stdout)
      end)
  else
    with_volume runID (fun hostPath =>
      match disk_path hostPath (TrimPrefix (TrimPrefix dirPath "/workspace") "/") with
      | None => FError 400 "invalid path"
      | Some p =>
          match Stat (ex_disk ex) p with
          | None => FError 404 ("path not found: " +:+ dirPath)
          | Some (File _) => FError 500 "failed to list files"
          | Some Directory => FListing (take 5000 (omap (disk_entry p) (children (ex_disk ex) p)))
          end
      end).

(** [internal/server/files.go:245-331] handleFileContent *)
Definition handleFileContent (runID filePath : string) : files_reply :=
  if String.eqb filePath "" then FError 400 "path query parameter is required"
  else if negb (in_workspace filePath) then FError 400 "path must be within /workspace"
  else if pod_is_up runID then
    with_pod runID (fun pod =>
      match ex_exec ex pod ["cat"; filePath] with
      | (_, stderr, Some _) =>
          if Contains stderr "No such file or directory" then FError 404 ("file not found: " +:+ filePath)
          else if Contains stderr "Permission denied" then FError 403 ("permission denied: " +:+ filePath)
          else FError 500 "failed to read file"
      | (stdout, _, None) => FData (detectContentType filePath) stdout
      end)
  else
    with_volume runID (fun hostPath =>
      match disk_path hostPath (TrimPrefix filePath "/workspace/") with
      | None => FError 400 "invalid path"
      | Some p =>
          match Stat (ex_disk ex) p with
          | None => FError 404 ("file not found: " +:+ filePath)
          | Some Directory => FError 500 "failed to read file"
          | Some (File data) => FData (detectContentType filePath) data
          end
      end).

(** [internal/server/files.go:469-540] handleLogs *)
Definition handleLogs (runID : string) : files_reply :=
  if String.eqb runID "" then FError 400 "missing run id"
  else if pod_is_up runID then
    match lookupRunningPod runID with
    | Err e => FError 404 e
    | Ok pod => match ex_logs ex pod with
                | Err _ => FError 500 "failed to get logs"
                | Ok text => FData "text/plain" text
                end
    end
  else
    with_volume runID (fun hostPath =>
      match Stat (ex_disk ex) (PathJoin hostPath ".aot/logs/agent.log") with
      | None => FData "text/plain" ""
      | Some Directory => FError 500 "failed to read logs"
      | Some (File data) => FData "text/plain" data
      end).

Section log.
Variable float : string -> string.
Variable int_of : string -> Z.
Variable rfc3339 : Z -> string.

(** [internal/server/files.go:607-622] handleStructuredLogs: what the run itself tells *)
Definition pipelineEvents (r : Run) : list AgentLogEntry :=
  let reports := st_Reports (run_Status r) in
  let event text := log_entry (rfc3339 (m_Created (run_Meta r))) "system" text "" "" "" in
  if String.eqb (rs_OrchestrationMode (run_Spec r)) OrchestrationModeSpecDriven then
    (if String.eqb (rp_Stage reports) "" then [] else [event ("Pipeline: " +:+ st_Message (run_Status r))]) ++
    (if (0 <? rp_RetryCount reports)%Z then [event ("Retry attempt " +:+ Itoa (rp_RetryCount reports))] else [])
  else [].

(** At most 32 MiB of the log are read. *)
Definition log_limit : nat := Z.to_nat (32 * 2 ^ 20).

(** [internal/server/files.go:556-629] handleStructuredLogs *)
Definition handleStructuredLogs (runID : string) : files_reply :=
  if String.eqb runID "" then FError 400 "missing run id"
  else match getPVCHostPath runID with
  | Err hostPathErr =>
      match got (ex_run ex runID) with
      | Err _ => FError 404 ("workspace not found for run " +:+ Quote runID +:+ ": " +:+ hostPathErr)
      | Ok r => FEntries (parseAgentJSONL float int_of rfc3339 (rp_AgentJSONL (st_Reports (run_Status r))))
      end
  | Ok hostPath =>
      match Stat (ex_disk ex) (PathJoin hostPath ".aot/logs/agent.jsonl") with
      | None => FEntries []
      | Some Directory => FError 500 "failed to read agent log"
      | Some (File data) =>
          let entries := parseAgentJSONL float int_of rfc3339 (str_take log_limit data) in
          FEntries (match got (ex_run ex runID) with Ok r => pipelineEvents r ++ entries | Err _ => entries end)
      end
  end.
End log.

(** A carriage return at the end of a line is dropped. *)
Definition TrimSuffix_cr (line : string) : string := TrimSuffix line (String "013" "").

(** [internal/server/files.go:672-682] readLastNLines: the lines of a file, as [bufio.Scanner] splits it: [None] when one is longer than its buffer. *)
Definition scan_lines (data : string) : option (list string) :=
  let lines := Split data "010" in
  let lines := match rev lines with "" :: l => rev l | _ => lines end in
  if existsb (fun l => (1024 * 1024 <=? Z.of_nat (String.length l))%Z) lines then None
  else Some (TrimSuffix_cr <$> lines).

(** [internal/server/files.go:640-662] handleThinking *)
Definition handleThinking (runID : string) : files_reply :=
  let no := FThinking {| th_Thinking := false; th_Text := ""; th_ToolName := "" |} in
  if String.eqb runID "" then FError 400 "missing run id"
  else match getPVCHostPath runID with
  | Err _ => no
  | Ok hostPath =>
      match Stat (ex_disk ex) (PathJoin hostPath ".aot/logs/agent.jsonl") with
      | Some (File data) =>
          match scan_lines data with
          | Some lines => FThinking (parseThinkingFromLines (last_lines 100 lines))
          | None => no
          end
      | _ => no
      end
  end.

(** [internal/server/files.go:785-827] handleVerificationResult *)
Definition handleVerificationResult (runID : string) : files_reply :=
  if String.eqb runID "" then FError 400 "missing run id"
  else match getPVCHostPath runID with
  | Err e => FError 404 ("workspace not found for run " +:+ Quote runID +:+ ": " +:+ e)
  | Ok hostPath =>
      let at_ base := ReadFile (ex_disk ex) (PathJoin (PathJoin (PathJoin (PathJoin hostPath base) "changes") runID) "verification-result.json") in
      match at_ ".openspec", at_ "openspec" with
      | Some data, _ => FData "application/json" data
      | None, Some data => FData "application/json" data
      | None, None =>
          let stored := match got (ex_run ex runID) with Ok r => st_VerificationResult (run_Status r) | Err _ => "" end in
          if String.eqb stored "" then FError 404 "no verification result available for this run"
          else FData "application/json" stored
      end
  end.
End explorer.

(** * Properties: what is read *)

(** A path without two dots in a row is joined below the base. *)
Lemma join_below base rel : IsAbs base = true -> Contains rel ".." = false ->
  exists below, PathJoin base rel = "/" +:+ Join (segments base ++ below) "/" /\ Forall (fun s => s <> "..") below.
Proof.
  intros Hb Hd. destruct (decide (rel = "")) as [->|Hn].
  - exists []. rewrite app_nil_r. split; [|done]. rewrite <- Clean_segments by done.
    unfold PathJoin. by destruct base.
  - exists (kept (Split rel "/")). split; [by apply PathJoin_below|].
    apply Forall_forall. intros s Hs ->. apply list_elem_of_filter in Hs as [_ (a & b & Hab)%Split_part].
    assert (Contains rel ".." = true) as H by (apply Contains_spec; eauto). congruence.
Qed.

Lemma TrimPrefix_no_dots p pre : Contains p ".." = false -> Contains (TrimPrefix p pre) ".." = false.
Proof.
  intros H. destruct (Contains (TrimPrefix p pre) "..") eqn:E; [|done]. exfalso. revert E H. unfold TrimPrefix.
  destruct (HasPrefix p pre) eqn:Hp; [|congruence]. apply HasPrefix_spec in Hp as [t ->]. rewrite str_drop_app.
  rewrite Contains_spec. intros (a & b & ->). rewrite <- str_app_assoc.
  intros H. assert (Contains ((pre +:+ a) +:+ ".." +:+ b) ".." = true) as H' by (apply Contains_spec; eauto). congruence.
Qed.

(** A path that leads, once its dots are resolved, to a directory of the root whose name begins with
    "workspace", or below it. *)
Definition leads_to_workspace (path : string) : Prop :=
  IsAbs path = true /\ exists w below, segments path = ("workspace" +:+ w) :: below /\ Forall (fun s => s <> "..") below.

Lemma in_workspace_leads path : in_workspace path = true -> leads_to_workspace path.
Proof.
  unfold in_workspace. intros H. destruct (IsAbs path) eqn:Ha.
  2: { destruct (Clean_relative path Ha) as (c & rest & Hc & Hne). rewrite Hc in H.
       apply HasPrefix_spec in H as [t [= -> _]]. done. }
  split; [done|]. rewrite Clean_segments in H by done.
  assert (Forall (fun s => s <> "..") (segments path)) as Hd by (apply Forall_rev, clean_segs_rooted; constructor).
  destruct (segments path) as [|s below] eqn:Hs; [done|]. apply Forall_cons in Hd as [_ Hd].
  assert (HasPrefix s "workspace" = true) as [w ->]%HasPrefix_spec; [|by exists w, below].
  apply HasPrefix_spec in H as [t Ht]. destruct below as [|s' below]; cbn [Join] in Ht.
  - injection Ht as ->. exact (HasPrefix_app "workspace" t).
  - injection Ht as Ht. clear -Ht. set (rest := Join _ _) in Ht. clearbody rest. cbn [String.append] in Ht.
    do 9 (destruct s as [|c s]; cbn [String.append] in Ht; [discriminate Ht|injection Ht as -> Ht]).
    by apply (HasPrefix_app "workspace" s).
Qed.

(** A pod of the run: a running one with its label, or the one in its status when none is running. *)
Definition pod_of (ex : explorer) (runID pod : string) : Prop :=
  exists r pods, ex_run ex runID = Found r /\ ex_pods ex runID = Ok pods /\
    ((pod, true) ∈ pods \/
     Forall (fun p => p.2 = false) pods /\
     pod = if String.eqb (st_PodName (run_Status r)) "" then st_DeploymentName (run_Status r) else st_PodName (run_Status r)).

Lemma lookupRunningPod_of ex runID pod : lookupRunningPod ex runID = Ok pod -> pod <> "" -> pod_of ex runID pod.
Proof.
  unfold lookupRunningPod, pod_of. destruct (ex_run ex runID) as [r| |e]; [|done..]. cbn [got]. cbv zeta.
  set (name := if String.eqb (st_PodName (run_Status r)) "" then _ else _).
  destruct (String.eqb_spec name ""); [by intros [= <-]|]. destruct (ex_pods ex runID) as [pods|e]; [|done].
  intros [= <-] _. exists r, pods. split_and!; [done..|]. destruct (List.find snd pods) as [[q up]|] eqn:Hf.
  - left. apply find_some in Hf as [Hin Hup]. cbn in *. subst. by apply list_elem_of_In.
  - right. split; [|done]. apply Forall_forall. intros q Hq. by apply (find_none _ _ Hf), list_elem_of_In.
Qed.

(** The volume of the claim of the run. *)
Definition volume_of (ex : explorer) (runID hostPath : string) : Prop :=
  exists name v, ex_claim ex ("aot-ws-" +:+ runID) = Found name /\ ex_volume ex name = Found v /\
    (pv_HostPath v = Some hostPath \/ pv_HostPath v = None /\ pv_Local v = Some hostPath).

Lemma getPVCHostPath_of ex runID hostPath : getPVCHostPath ex runID = Ok hostPath -> volume_of ex runID hostPath.
Proof.
  unfold getPVCHostPath, volume_of. destruct (ex_claim ex _) as [name| |e] eqn:Hc; cbn [got]; [|done..].
  destruct name as [|c name]; [done|]. destruct (ex_volume ex _) as [[hp lp]| |e] eqn:Hv; cbn [got]; [|done..].
  intros H. exists (String c name), {| pv_HostPath := hp; pv_Local := lp |}. split_and!; [done..|]. cbn.
  destruct hp as [hp|]; [left; congruence|]. destruct lp as [lp|]; [right; split; congruence|done].
Qed.

(** Where a file of the node is read from: a path with the volume's for a prefix; below the volume when the
    request has no two dots in a row. *)
Definition volume_path (ex : explorer) (runID request p : string) : Prop :=
  exists hostPath, volume_of ex runID hostPath /\ HasPrefix (Abs (ex_disk ex) p) hostPath = true /\
    (IsAbs hostPath = true -> Contains request ".." = false ->
       exists below, p = "/" +:+ Join (segments hostPath ++ below) "/" /\ Forall (fun s => s <> "..") below).

Lemma disk_path_volume ex runID hostPath request rel p :
  getPVCHostPath ex runID = Ok hostPath -> disk_path ex hostPath rel = Some p ->
  (Contains request ".." = false -> Contains rel ".." = false) -> volume_path ex runID request p.
Proof.
  unfold disk_path. intros Hh Hp Hr. destruct (HasPrefix _ hostPath) eqn:E; [|done]. injection Hp as <-.
  exists hostPath. split_and!; [by apply getPVCHostPath_of|done|]. intros Ha Hd. apply join_below; auto.
Qed.

(** C18. What the file explorer shows is of the run that was asked for.  While its deployment has
    replicas, it is what [cat] or [ls] prints in a pod of this run, for a path that leads to a
    directory of the root whose name begins with "workspace"; otherwise it is read from the volume of
    the run on the node: a file, or at most 5000 entries of a directory, at a path that begins with
    the volume's, and that is below the volume when the request has no two dots in a row.  Links
    are not followed in the model of the node.  Names that extend the workspace's or the
    volume's are let through (Examples [neighbour_in_the_pod] and [neighbour_is_read]). *)
Theorem files_confined ex runID path :
  match handleFileContent ex runID path with
  | FData _ data => leads_to_workspace path /\
      (if pod_is_up ex runID
       then exists pod stderr, pod_of ex runID pod /\ ex_exec ex pod ["cat"; path] = (data, stderr, None)
       else exists p, Stat (ex_disk ex) p = Some (File data) /\ volume_path ex runID path p)
  | FError status _ => status <> 200%Z
  | _ => False
  end /\
  match handleListFiles ex runID path with
  | FListing entries => let dir := if String.eqb path "" then "/workspace" else path in leads_to_workspace dir /\
      (if pod_is_up ex runID
       then exists pod stdout stderr, pod_of ex runID pod /\
         ex_exec ex pod ["ls"; "-la"; "--time-style=long-iso"; dir] = (stdout, stderr, None) /\ entries = parseLsOutput stdout
       else exists p, Stat (ex_disk ex) p = Some Directory /\ volume_path ex runID dir p /\
         entries = take 5000 (omap (disk_entry ex p) (children (ex_disk ex) p)))
  | FError status _ => status <> 200%Z
  | _ => False
  end.
Proof.
  split.
  - unfold handleFileContent, with_pod, with_volume. destruct (String.eqb path ""); [done|].
    destruct (in_workspace path) eqn:Hin; [|done]. apply in_workspace_leads in Hin. cbn [negb].
    destruct (pod_is_up ex runID).
    + destruct (lookupRunningPod ex runID) as [[|c pod]|] eqn:Hpod; [done| |done].
      destruct (ex_exec ex _ _) as [[stdout stderr] [e|]] eqn:He; [destruct (Contains stderr "No such file or directory"); [done|]; destruct (Contains stderr "Permission denied"); done|].
      split; [done|]. exists (String c pod), stderr. split; [by apply lookupRunningPod_of|done].
    + destruct (getPVCHostPath ex runID) as [hostPath|e] eqn:Hh; [|done].
      destruct (disk_path ex hostPath _) as [p|] eqn:Hp; [|done].
      destruct (Stat (ex_disk ex) p) as [[|data]|] eqn:Hs; [done| |done].
      split; [done|]. exists p. split; [done|]. eapply disk_path_volume; [done..|]. apply TrimPrefix_no_dots.
  - unfold handleListFiles. cbv zeta. set (dir := if String.eqb path "" then _ else _).
    unfold with_pod, with_volume. destruct (in_workspace dir) eqn:Hin; [|done]. apply in_workspace_leads in Hin. cbn [negb].
    destruct (pod_is_up ex runID).
    + destruct (lookupRunningPod ex runID) as [[|c pod]|] eqn:Hpod; [done| |done].
      destruct (ex_exec ex _ _) as [[stdout stderr] [e|]] eqn:He; [done|]. destruct (Contains stderr _); [done|].
      split; [done|]. exists (String c pod), stdout, stderr. split_and!; [by apply lookupRunningPod_of|done..].
    + destruct (getPVCHostPath ex runID) as [hostPath|e] eqn:Hh; [|done].
      destruct (disk_path ex hostPath _) as [p|] eqn:Hp; [|done].
      destruct (Stat (ex_disk ex) p) as [[|data]|] eqn:Hs; [|done..].
      split; [done|]. exists p. split_and!; [done| |done].
      eapply disk_path_volume; [done..|]. intros Hd. by do 2 apply TrimPrefix_no_dots.
Qed.

(** ** Examples *)

Definition sample_explorer (hostPath : string) (files : list (string * string)) : explorer :=
  {| ex_run := fun _ => NotFound; ex_deployment := fun _ => NotFound; ex_claim := fun _ => Found "pv-1";
     ex_volume := fun _ => Found {| pv_HostPath := Some hostPath; pv_Local := None |};
     ex_pods := fun _ => Ok []; ex_exec := fun _ _ => ("", "", None); ex_logs := fun _ => Err "gone";
     ex_disk := tree_of "/" files; ex_info := fun _ => None; ex_mime := fun _ => "" |}.

Example file_of_the_volume :
  handleFileContent (sample_explorer "/data/pvc-1" [("/data/pvc-1/app/main.go", "package main")]) "r1" "/workspace/app/main.go" =
    FData "text/plain; charset=utf-8" "package main" /\
  handleListFiles (sample_explorer "/data/pvc-1" [("/data/pvc-1/app/main.go", ""); ("/data/pvc-1/.aot/x", "")]) "r1" "" =
    FListing [{| fe_Name := "app"; fe_Type := "directory"; fe_Size := 0; fe_Modified := "" |}] /\
  handleFileContent (sample_explorer "/data/pvc-1" [("/data/pvc-2/key", "k")]) "r1" "/workspace/../pvc-2/key" =
    FError 400 "path must be within /workspace".
Proof. vm_compute. done. Qed.

(** The prefix is compared without the slash behind it: a neighbour with a longer name is read. *)
Example neighbour_is_read :
  handleFileContent (sample_explorer "/workspace-vol1" [("/workspace-vol10/key", "secret")]) "r1" "/workspace/../workspace-vol10/key" =
    FData "application/octet-stream" "secret".
Proof. vm_compute. done. Qed.

(** The same holds in the pod: a directory beside the workspace whose name extends it is shown. *)
Example neighbour_in_the_pod :
  in_workspace "/workspace-secrets/key" = true /\ in_workspace "/workspace/../workspaces/key" = true /\
  in_workspace "/workspace/../etc/passwd" = false /\ in_workspace "workspace" = false.
Proof. vm_compute. done. Qed.

(** A volume whose path is written with a slash at its end cannot be listed. *)
Example trailing_slash :
  handleListFiles (sample_explorer "/data/pvc-1/" [("/data/pvc-1/a", "")]) "r1" "" = FError 400 "invalid path".
Proof. vm_compute. done. Qed.

(** The output of [ls]: blanks in a name are one blank, the target of a link belongs to its name. *)
Example ls_ex :
  parseLsOutput (Join ["total 8"; "drwxr-xr-x 2 root root 4096 2024-01-01 12:00 ."; "drwxr-xr-x 2 root root 4096 2024-01-01 12:00 src";
                       "-rw-r--r-- 1 root root 12 2024-01-01 12:00 a  b"; "lrwxrwxrwx 1 root root 3 2024-01-01 12:00 l -> src"] newline) =
    [{| fe_Name := "src"; fe_Type := "directory"; fe_Size := 4096; fe_Modified := "2024-01-01 12:00" |};
     {| fe_Name := "a b"; fe_Type := "file"; fe_Size := 12; fe_Modified := "2024-01-01 12:00" |};
     {| fe_Name := "l -> src"; fe_Type := "symlink"; fe_Size := 3; fe_Modified := "2024-01-01 12:00" |}].
Proof. vm_compute. done. Qed.
