(* ===== verification/RestChains.v ===== *)
(** * Templates, chains, schedules and projects over REST: [internal/server/chains.go] and [projects.go], on stored objects.

    The API server keeps the objects of each kind by their names; a handler runs requests on it, in
    order.  Whether a request fails is a parameter, and so are the clock and the names that the server
    generates.  The kinds are instances of one interface, over which the requests are written.  The body of a
    request is its decoded value, [None] when it is no JSON of its type; the order of [sort.Slice] among
    objects of one time and the printing of a time are parameters. *)

From S2P Require Import Prelude GoStrings ApiTypes ChainDAG Kube RunController ScheduleController Shell.
(** An object: when it was created, and what it says. *)
Record stored (A : Type) := { so_created : time; so_value : A }.
Arguments so_created {A} s.
Arguments so_value {A} s.

(** [api/v1alpha1/chain_types.go:34-49] ChainSpec *)
Record ChainSpec := { cs_DisplayName : string; cs_Description : string; cs_ProjectRef : string; cs_Steps : list ChainStep }.

(** [api/v1alpha1/chain_types.go:98-105] ChainRunSpec *)
Record ChainRunSpec := { ns_ChainRef : string; ns_TriggeredBy : string }.

(** A run as the handlers create it: its spec and its labels. *)
Record RunObject := { ro_Spec : AgentRunSpec; ro_Labels : gmap string string }.

(** A project with the part of its status that is shown. *)
Record ProjectObject := {
  po_DisplayName : string; po_Description : string; po_Repos : list ApiTypes.Repository;
  po_Devbox : option (list string); po_Defaults : option ProjectDefaults;
  po_Ready : bool; po_URL : string; po_Conditions : list Kube.Condition;
  po_RunCount : Z; po_LastRunID : string; po_TotalCost : string;
}.

Record cluster := {
  cl_templates : gmap string (stored RunTemplateSpec);
  cl_chains : gmap string (stored ChainSpec);
  cl_chainruns : gmap string (stored ChainRunSpec);
  cl_schedules : gmap string (stored ScheduleSpec);
  cl_projects : gmap string (stored ProjectObject);
  cl_runs : gmap string (stored RunObject);
}.

(** What a kind of objects promises: where its objects are, and that putting them back changes nothing. *)
Class Kind (A : Type) := {
  kind_name : string;
  kind_items : cluster -> gmap string (stored A);
  kind_put : gmap string (stored A) -> cluster -> cluster;
  kind_put_items : forall m c, kind_items (kind_put m c) = m;
  kind_put_same : forall c, kind_put (kind_items c) c = c;
}.
Arguments kind_name A {_}.

#[export] Instance templates : Kind RunTemplateSpec := {|
  kind_name := "template"; kind_items := cl_templates;
  kind_put := fun m c => {| cl_templates := m; cl_chains := cl_chains c; cl_chainruns := cl_chainruns c;
    cl_schedules := cl_schedules c; cl_projects := cl_projects c; cl_runs := cl_runs c |};
  kind_put_items := fun m c => eq_refl; kind_put_same := ltac:(by intros []) |}.
#[export] Instance chains : Kind ChainSpec := {|
  kind_name := "chain"; kind_items := cl_chains;
  kind_put := fun m c => {| cl_templates := cl_templates c; cl_chains := m; cl_chainruns := cl_chainruns c;
    cl_schedules := cl_schedules c; cl_projects := cl_projects c; cl_runs := cl_runs c |};
  kind_put_items := fun m c => eq_refl; kind_put_same := ltac:(by intros []) |}.
#[export] Instance chainruns : Kind ChainRunSpec := {|
  kind_name := "chain run"; kind_items := cl_chainruns;
  kind_put := fun m c => {| cl_templates := cl_templates c; cl_chains := cl_chains c; cl_chainruns := m;
    cl_schedules := cl_schedules c; cl_projects := cl_projects c; cl_runs := cl_runs c |};
  kind_put_items := fun m c => eq_refl; kind_put_same := ltac:(by intros []) |}.
#[export] Instance schedules : Kind ScheduleSpec := {|
  kind_name := "schedule"; kind_items := cl_schedules;
  kind_put := fun m c => {| cl_templates := cl_templates c; cl_chains := cl_chains c; cl_chainruns := cl_chainruns c;
    cl_schedules := m; cl_projects := cl_projects c; cl_runs := cl_runs c |};
  kind_put_items := fun m c => eq_refl; kind_put_same := ltac:(by intros []) |}.
#[export] Instance projects : Kind ProjectObject := {|
  kind_name := "project"; kind_items := cl_projects;
  kind_put := fun m c => {| cl_templates := cl_templates c; cl_chains := cl_chains c; cl_chainruns := cl_chainruns c;
    cl_schedules := cl_schedules c; cl_projects := m; cl_runs := cl_runs c |};
  kind_put_items := fun m c => eq_refl; kind_put_same := ltac:(by intros []) |}.
#[export] Instance runs_ : Kind RunObject := {|
  kind_name := "run"; kind_items := cl_runs;
  kind_put := fun m c => {| cl_templates := cl_templates c; cl_chains := cl_chains c; cl_chainruns := cl_chainruns c;
    cl_schedules := cl_schedules c; cl_projects := cl_projects c; cl_runs := m |};
  kind_put_items := fun m c => eq_refl; kind_put_same := ltac:(by intros []) |}.

(** A request: its verb, the kind and the name. *)
Inductive verb := VList | VGet | VCreate | VUpdate | VDelete.
Record kcall := { kc_verb : verb; kc_kind : string; kc_name : string }.

Record api_server := {
  as_fails : kcall -> bool;
  as_now : time;
  (** the name that is made of a prefix *)
  as_generate : string -> string;
}.

Section store.
Variable api : api_server.
Context {R : Type}.

Notation K A := (shell cluster kcall R A).

(** A request about one kind: when it does not fail it changes the objects, and answers. *)
Definition request {A B} {kind : Kind A} (v : verb) (name : string)
    (op : gmap string (stored A) -> gmap string (stored A) * option B) : K (option B) :=
  command (fun c call =>
    if as_fails api call then (c, None)
    else let '(m, b) := op (kind_items c) in (kind_put m c, b))
    {| kc_verb := v; kc_kind := kind_name A; kc_name := name |}.

(** The objects, by name. *)
Definition k_list (A : Type) {kind : Kind A} : K (option (list (string * stored A))) :=
  request VList "" (fun m : gmap string (stored A) => (m, Some (map_to_list m))).

Definition k_get (A : Type) {kind : Kind A} (name : string) : K (get_result (stored A)) :=
  command (fun c call =>
    (c, if as_fails api call then GetError "failed"
        else match kind_items c !! name with Some o => Found o | None => NotFound end))
    {| kc_verb := VGet; kc_kind := kind_name A; kc_name := name |}.

(** An object is created unless there is one of its name. *)
Definition k_create {A} {kind : Kind A} (name : string) (a : A) : K (option (stored A)) :=
  request VCreate name (fun m =>
    match m !! name with
    | Some _ => (m, None)
    | None => let o := {| so_created := as_now api; so_value := a |} in (<[name := o]> m, Some o)
    end).

Definition k_update {A} {kind : Kind A} (name : string) (a : A) : K (option (stored A)) :=
  request VUpdate name (fun m =>
    match m !! name with
    | Some o => let o := {| so_created := so_created o; so_value := a |} in (<[name := o]> m, Some o)
    | None => (m, None)
    end).

Definition k_delete (A : Type) {kind : Kind A} (name : string) : K (option unit) :=
  request VDelete name (fun m : gmap string (stored A) => (delete name m, match m !! name with Some _ => Some tt | None => None end)).
End store.

(** * The handlers *)

Local Open Scope unc_scope.

(** What is answered. *)
Inductive rest_reply :=
  | RError (status : Z) (msg : string)
  | RTemplates (l : list (string * stored RunTemplateSpec)) | RTemplate (status : Z) (name : string) (t : stored RunTemplateSpec)
  | RChains (l : list (string * stored ChainSpec)) | RChain (status : Z) (name : string) (c : stored ChainSpec)
  | RChainRuns (l : list (string * stored ChainRunSpec)) | RChainRun (name : string) (c : stored ChainRunSpec)
  | RSchedules (l : list (string * stored ScheduleSpec)) | RSchedule (status : Z) (name : string) (s : stored ScheduleSpec)
  | RDeleted (name : string) | RTriggered (id source : string) | RSuspended (name : string) (suspended : bool)
  | RProjects (l : list (string * stored ProjectObject)) | RProject (status : Z) (name : string) (p : stored ProjectObject)
  | RFiles (l : list string) | RFile (path content : string) | RCommitted (path : string).

(** The objects, the newest first. *)
Class Sorter := newest_first : forall A, list (string * stored A) -> list (string * stored A).

(** [internal/server/chains.go:19-19] maxListItems *)
Definition maxListItems : nat := 500.

(** [internal/server/chains.go:22-30] capList *)
Definition capList {A} (items : list A) (max : nat) : list A := take max items.

(** A body of a schedule or a chain with its name. *)
Definition named_body (A : Type) : Type := option (string * A).

Section chains.
Variable api : api_server.
Context {sorter : Sorter}.

Notation K A := (shell cluster kcall rest_reply A).

(** The named object, or the answer that it is not there: an error of the server says so too. *)
Definition get_or_404 (A : Type) {kind : Kind A} (msg name : string) : K (stored A) :=
  r ← k_get api A name;
  match r with Found o => mret o | NotFound | GetError _ => return_ (RError 404 msg) end.

(** Deleting an object that was found. *)
Definition delete_found (A : Type) {kind : Kind A} (msg name : string) : K rest_reply :=
  r ← k_delete api A name;
  mret (match r with Some _ => RDeleted name | None => RError 500 msg end).

(** ** Templates *)

(** [internal/server/chains.go:69-80] handleListTemplates *)
Definition handleListTemplates : K rest_reply :=
  r ← k_list api RunTemplateSpec;
  mret (match r with
        | Some l => RTemplates (capList (newest_first _ l) maxListItems)
        | None => RError 500 "failed to list templates"
        end).

(** [internal/server/chains.go:82-109] handleCreateTemplate: the body's display name is that of the spec,
    which both fields of the body would be decoded into *)
Definition handleCreateTemplate (body : named_body RunTemplateSpec) : K rest_reply :=
  match body with
  | None => mret (RError 400 "invalid JSON")
  | Some ("", _) => mret (RError 400 "name required")
  | Some (name, spec) =>
      r ← k_create api name spec;
      mret (match r with Some o => RTemplate 201 name o | None => RError 409 "template already exists or could not be created" end)
  end.

(** [internal/server/chains.go:111-119] handleGetTemplate *)
Definition handleGetTemplate (name : string) : K rest_reply :=
  o ← get_or_404 RunTemplateSpec "template not found" name;
  mret (RTemplate 200 name o).

(** [internal/server/chains.go:131-140] handleDeleteTemplate: the first step of a chain that uses it *)
Fixpoint template_use (name : string) (l : list (string * stored ChainSpec)) : option (string * string) :=
  match l with
  | [] => None
  | (chain, c) :: l =>
      match List.find (fun s => String.eqb (TemplateRef s) name) (cs_Steps (so_value c)) with
      | Some s => Some (chain, Name s)
      | None => template_use name l
      end
  end.

(** [internal/server/chains.go:121-148] handleDeleteTemplate *)
Definition handleDeleteTemplate (name : string) : K rest_reply :=
  _ ← get_or_404 RunTemplateSpec "template not found" name;
  l ← k_list api ChainSpec;
  match template_use name (default [] l) with
  | Some (chain, step) =>
      mret (RError 409 ("template " +:+ Quote name +:+ " is referenced by chain " +:+ Quote chain +:+ " (step " +:+ Quote step +:+ ")"))
  | None => delete_found RunTemplateSpec "failed to delete template" name
  end.

(** [internal/server/chains.go:158-177] handleTriggerTemplate: the run of a template *)
Definition triggered_run (name : string) (t : RunTemplateSpec) : RunObject :=
  {| ro_Spec :=
       {| rs_Backend := BackendPod; rs_Repos := ts_Repos t; rs_Prompt := ts_Prompt t; rs_DevboxConfig := "";
          rs_TTLSeconds := ts_TTLSeconds t; rs_EnvVars := []; rs_Image := ""; rs_ModelTier := ts_ModelTier t;
          rs_ManageModelTier := ts_ManageModelTier t; rs_ImplementModelTier := ts_ImplementModelTier t;
          rs_SpecContent := ""; rs_SpecSource := ""; rs_ProjectRef := ts_ProjectRef t; rs_SpecRef := ts_SpecRef t;
          rs_WorkspaceName := ""; rs_ParentRunID := ""; rs_OrchestrationMode := ts_OrchestrationMode t;
          rs_Orchestration := None; rs_SpecRunID := ""; rs_DisplayName := ""; rs_PipelineConfig := None;
          rs_MaxBudget := 0%Z; rs_AutoPush := ts_AutoPush t; rs_AutoPR := ts_AutoPR t;
          rs_PRBaseBranch := ts_PRBaseBranch t; rs_Project := ""; rs_Feature := ""; rs_Tags := [];
          rs_ApprovalMode := ""; rs_OpenspecChange := "" |};
     ro_Labels := {[ "aot.uncworks.io/template" := name ]} |}.

(** [internal/server/chains.go:150-185] handleTriggerTemplate *)
Definition handleTriggerTemplate (name : string) : K rest_reply :=
  o ← get_or_404 RunTemplateSpec "template not found" name;
  let id := as_generate api "ar-" in
  r ← k_create api id (triggered_run name (so_value o));
  mret (match r with Some _ => RTriggered id name | None => RError 500 "failed to create run" end).

(** ** Chains *)

(** [internal/server/chains.go:189-197] handleListChains *)
Definition handleListChains : K rest_reply :=
  r ← k_list api ChainSpec;
  mret (match r with Some l => RChains (capList l maxListItems) | None => RError 500 "failed to list chains" end).

(** [internal/server/chains.go:199-226] handleCreateChain *)
Definition handleCreateChain (range : gmap string Z -> list (string * Z)) (body : named_body ChainSpec) : K rest_reply :=
  match body with
  | None => mret (RError 400 "invalid JSON")
  | Some (name, spec) =>
      if String.eqb name "" || bool_decide (cs_Steps spec = []) then mret (RError 400 "name and steps required")
      else match ValidateChainDAG range (cs_Steps spec) with
      | Err e => mret (RError 400 ("invalid chain DAG: " +:+ e))
      | Ok _ =>
          r ← k_create api name spec;
          mret (match r with Some o => RChain 201 name o | None => RError 409 "chain already exists or could not be created" end)
      end
  end.

(** [internal/server/chains.go:228-236] handleGetChain *)
Definition handleGetChain (name : string) : K rest_reply :=
  o ← get_or_404 ChainSpec "chain not found" name;
  mret (RChain 200 name o).

(** [internal/server/chains.go:238-263] handleDeleteChain *)
Definition handleDeleteChain (name : string) : K rest_reply :=
  _ ← get_or_404 ChainSpec "chain not found" name;
  l ← k_list api ScheduleSpec;
  match List.find (fun s => String.eqb (sp_ChainRef (so_value s.2)) name) (default [] l) with
  | Some s => mret (RError 409 ("chain " +:+ Quote name +:+ " is referenced by schedule " +:+ Quote s.1))
  | None => delete_found ChainSpec "failed to delete chain" name
  end.

(** [internal/server/chains.go:265-286] handleTriggerChain *)
Definition handleTriggerChain (name : string) : K rest_reply :=
  _ ← get_or_404 ChainSpec "chain not found" name;
  let id := as_generate api "cr-" in
  r ← k_create api id {| ns_ChainRef := name; ns_TriggeredBy := "manual" |};
  mret (match r with Some _ => RTriggered id name | None => RError 500 "failed to create chain run" end).

(** [internal/server/chains.go:290-301] handleListChainRuns *)
Definition handleListChainRuns : K rest_reply :=
  r ← k_list api ChainRunSpec;
  mret (match r with
        | Some l => RChainRuns (capList (newest_first _ l) maxListItems)
        | None => RError 500 "failed to list chain runs"
        end).

(** [internal/server/chains.go:303-311] handleGetChainRun *)
Definition handleGetChainRun (name : string) : K rest_reply :=
  o ← get_or_404 ChainRunSpec "chain run not found" name;
  mret (RChainRun name o).

(** ** Schedules *)

(** [internal/server/chains.go:315-323] handleListSchedules *)
Definition handleListSchedules : K rest_reply :=
  r ← k_list api ScheduleSpec;
  mret (match r with Some l => RSchedules (capList l maxListItems) | None => RError 500 "failed to list schedules" end).

(** [internal/server/chains.go:325-356] handleCreateSchedule *)
Definition handleCreateSchedule (body : named_body ScheduleSpec) : K rest_reply :=
  match body with
  | None => mret (RError 400 "invalid JSON")
  | Some (name, spec) =>
      let no s := String.eqb s "" in
      if no name || no (sp_Cron spec) then mret (RError 400 "name and cron required")
      else if no (sp_ChainRef spec) && no (sp_TemplateRef spec) then mret (RError 400 "chainRef or templateRef required")
      else if negb (no (sp_ChainRef spec)) && negb (no (sp_TemplateRef spec)) then
        mret (RError 400 "chainRef and templateRef are mutually exclusive")
      else
        r ← k_create api name spec;
        mret (match r with Some o => RSchedule 201 name o | None => RError 409 "schedule already exists or could not be created" end)
  end.

(** [internal/server/chains.go:358-366] handleGetSchedule *)
Definition handleGetSchedule (name : string) : K rest_reply :=
  o ← get_or_404 ScheduleSpec "schedule not found" name;
  mret (RSchedule 200 name o).

(** [internal/server/chains.go:368-381] handleDeleteSchedule *)
Definition handleDeleteSchedule (name : string) : K rest_reply :=
  _ ← get_or_404 ScheduleSpec "schedule not found" name;
  delete_found ScheduleSpec "failed to delete schedule" name.

Definition with_suspend (b : bool) (s : ScheduleSpec) : ScheduleSpec :=
  {| sp_DisplayName := sp_DisplayName s; sp_Cron := sp_Cron s; sp_Timezone := sp_Timezone s; sp_Suspend := b;
     sp_ConcurrencyPolicy := sp_ConcurrencyPolicy s; sp_ChainRef := sp_ChainRef s; sp_TemplateRef := sp_TemplateRef s;
     sp_SuccessfulRunsHistoryLimit := sp_SuccessfulRunsHistoryLimit s;
     sp_FailedRunsHistoryLimit := sp_FailedRunsHistoryLimit s |}.

(** [internal/server/chains.go:383-397] handleSuspendSchedule: [true], and handleResumeSchedule: [false] *)
Definition set_suspended (suspended : bool) (name : string) : K rest_reply :=
  o ← get_or_404 ScheduleSpec "schedule not found" name;
  r ← k_update api name (with_suspend suspended (so_value o));
  mret (match r with
        | Some _ => RSuspended name suspended
        | None => RError 500 (if suspended then "failed to suspend schedule" else "failed to resume schedule")
        end).

(** [internal/server/chains.go:399-413] handleResumeSchedule *)
Definition handleResumeSchedule : string -> K rest_reply := set_suspended false.
End chains.

(** * Projects over REST: [internal/server/projects.go] *)

(** The files of a repository of soft-serve. *)
Record repo_files := {
  rf_list : string -> result (list string);
  rf_read : string -> string -> result string;
  rf_write : string -> string -> string -> string -> result unit;
}.

(** [internal/server/projects.go:76-83] projectToResponse: why a repository is not ready *)
Definition repo_message (p : ProjectObject) : string :=
  if po_Ready p then ""
  else match List.find (fun c => String.eqb (cd_Type c) "ConfigRepoReady" && negb (cd_Status c) && negb (String.eqb (cd_Message c) ""))
               (po_Conditions p) with
       | Some c => cd_Message c
       | None => ""
       end.

(** The body of a new project. *)
Record new_project := {
  np_DisplayName : string; np_Description : string; np_Repos : list ApiTypes.Repository;
  np_Devbox : option (list string); np_Defaults : option ProjectDefaults;
}.

(** The body of a change: what is not given stays. *)
Record project_change := {
  pg_DisplayName : option string; pg_Description : option string; pg_Repos : option (list ApiTypes.Repository);
  pg_Devbox : option (list string); pg_Defaults : option ProjectDefaults;
}.

Definition fresh_project (b : new_project) : ProjectObject :=
  {| po_DisplayName := np_DisplayName b; po_Description := np_Description b; po_Repos := np_Repos b;
     po_Devbox := np_Devbox b; po_Defaults := np_Defaults b; po_Ready := false; po_URL := ""; po_Conditions := [];
     po_RunCount := 0; po_LastRunID := ""; po_TotalCost := "" |}.

(** [internal/server/projects.go:207-221] handleUpdateProject: the change *)
Definition changed_project (b : project_change) (p : ProjectObject) : ProjectObject :=
  {| po_DisplayName := default (po_DisplayName p) (pg_DisplayName b);
     po_Description := default (po_Description p) (pg_Description b);
     po_Repos := default (po_Repos p) (pg_Repos b);
     po_Devbox := match pg_Devbox b with Some d => Some d | None => po_Devbox p end;
     po_Defaults := match pg_Defaults b with Some d => Some d | None => po_Defaults p end;
     po_Ready := po_Ready p; po_URL := po_URL p; po_Conditions := po_Conditions p; po_RunCount := po_RunCount p;
     po_LastRunID := po_LastRunID p; po_TotalCost := po_TotalCost p |}.

Definition with_run_count (n : Z) (p : ProjectObject) : ProjectObject :=
  {| po_DisplayName := po_DisplayName p; po_Description := po_Description p; po_Repos := po_Repos p;
     po_Devbox := po_Devbox p; po_Defaults := po_Defaults p; po_Ready := po_Ready p; po_URL := po_URL p;
     po_Conditions := po_Conditions p; po_RunCount := n; po_LastRunID := po_LastRunID p; po_TotalCost := po_TotalCost p |}.

(** [internal/server/projects.go:313-332] isValidRepoPath *)
Definition isValidRepoPath (p : string) : bool :=
  if String.eqb p "" then false
  else if HasPrefix p "/" then false
  else
    let cleaned := Clean p in
    if HasPrefix cleaned ".." || Contains cleaned "/../" then false
    else match Split cleaned "/" with
         | first :: _ => negb (HasPrefix first "." && negb (String.eqb first ".devcontainer"))
         | [] => true
         end.

Section projects.
Variable api : api_server.
Context {sorter : Sorter}.
Variable softserve : option repo_files.

Notation K A := (shell cluster kcall rest_reply A).

(** The runs that refer to a project, as far as an [int32] counts. *)
Definition count_runs (runs : list (string * stored RunObject)) (name : string) : Z :=
  foldl (fun n r => if String.eqb (rs_ProjectRef (ro_Spec (so_value r.2))) name then int32_incr n else n) 0%Z runs.

(** [internal/server/projects.go:87-123] handleListProjects: the count of the status stays when no run refers
    to the project *)
Definition handleListProjects : K rest_reply :=
  r ← k_list api ProjectObject;
  match r with
  | None => mret (RError 500 "failed to list projects")
  | Some l =>
      runs ← k_list api RunObject;
      let counted (p : string * stored ProjectObject) :=
        let n := count_runs (default [] runs) p.1 in
        if (n =? 0)%Z || String.eqb p.1 "" then p
        else (p.1, {| so_created := so_created p.2; so_value := with_run_count n (so_value p.2) |}) in
      mret (RProjects (counted <$> capList (newest_first _ l) maxListItems))
  end.

(** [internal/server/projects.go:125-161] handleCreateProject *)
Definition handleCreateProject (body : named_body new_project) : K rest_reply :=
  match body with
  | None => mret (RError 400 "invalid JSON")
  | Some ("", _) => mret (RError 400 "name is required")
  | Some (name, b) =>
      r ← k_create api name (fresh_project b);
      mret (match r with Some o => RProject 201 name o | None => RError 409 "project already exists or could not be created" end)
  end.

(** The project of a request, or the answer that it is missing, or that it could not be read. *)
Definition named_project (name : string) : K (stored ProjectObject) :=
  r ← k_get api ProjectObject name;
  match r with
  | Found o => mret o
  | NotFound => return_ (RError 404 "project not found")
  | GetError _ => return_ (RError 500 "failed to get project")
  end.

(** [internal/server/projects.go:163-178] handleGetProject *)
Definition handleGetProject (name : string) : K rest_reply :=
  o ← named_project name;
  mret (RProject 200 name o).

(** [internal/server/projects.go:180-229] handleUpdateProject *)
Definition handleUpdateProject (name : string) (body : option project_change) : K rest_reply :=
  o ← named_project name;
  match body with
  | None => mret (RError 400 "invalid JSON")
  | Some b =>
      r ← k_update api name (changed_project b (so_value o));
      mret (match r with Some o => RProject 200 name o | None => RError 500 "failed to update project" end)
  end.

(** [internal/server/projects.go:231-246] handleDeleteProject *)
Definition handleDeleteProject (name : string) : K rest_reply :=
  _ ← get_or_404 api ProjectObject "project not found" name;
  delete_found api ProjectObject "failed to delete project" name.

(** [internal/server/projects.go:248-260] handleListFiles *)
Definition list_project_files (name : string) : rest_reply :=
  match softserve with
  | None => RError 503 "soft-serve not configured"
  | Some s => match rf_list s name with Ok l => RFiles l | Err e => RError 500 ("list files: " +:+ e) end
  end.

(** [internal/server/projects.go:262-279] handleReadFile *)
Definition handleReadFile (name path : string) : rest_reply :=
  if negb (isValidRepoPath path) then RError 400 "invalid file path"
  else match softserve with
  | None => RError 503 "soft-serve not configured"
  | Some s => match rf_read s name path with Ok content => RFile path content | Err e => RError 404 ("read file: " +:+ e) end
  end.

(** [internal/server/projects.go:281-305] handleWriteFile: what is written, and the answer *)
Definition handleWriteFile (name path : string) (body : option (string * string)) : list (string * string * string * string) * rest_reply :=
  if negb (isValidRepoPath path) then ([], RError 400 "invalid file path")
  else match softserve with
  | None => ([], RError 503 "soft-serve not configured")
  | Some s =>
      match body with
      | None => ([], RError 400 "invalid JSON")
      | Some (content, msg) =>
          let msg := if String.eqb msg "" then "update " +:+ path else msg in
          ([(name, path, content, msg)],
           match rf_write s name path content msg with Ok _ => RCommitted path | Err e => RError 500 ("write file: " +:+ e) end)
      end
  end.
End projects.

(** ** Paths stay in the repository *)

(** In what is left of a relative path, two dots are only at its front. *)
Lemma clean_segs_relative out segs : (".." ∈ out -> last out = Some "..") ->
  ".." ∈ clean_segs false out segs -> last (clean_segs false out segs) = Some "..".
Proof.
  revert out. induction segs as [|s segs IH]; intros out Ho; [exact Ho|]. cbn [clean_segs].
  destruct (String.eqb s "" || String.eqb s "."); [by apply IH|].
  destruct (String.eqb_spec s "..") as [->|Hs].
  - destruct out as [|top out]; [by apply IH|]. destruct (String.eqb_spec top "..") as [->|Ht].
    + apply IH. intros _. rewrite last_cons. rewrite Ho by (by left). done.
    + apply IH. intros Hin. assert (last (top :: out) = Some "..") as Hl by (apply Ho; by right).
      rewrite last_cons in Hl. destruct (last out) eqn:E; [done|]. apply last_None in E as ->. by apply elem_of_nil in Hin.
  - apply IH. intros [?|Hin]%elem_of_cons; [congruence|]. rewrite last_cons. by rewrite (Ho Hin).
Qed.

(** A path that is valid stays below the directory it is joined to. *)
Lemma isValidRepoPath_below p : isValidRepoPath p = true ->
  Clean p = "." \/ exists segs, Clean p = Join segs "/" /\ Forall (fun s => s <> "..") segs.
Proof.
  unfold isValidRepoPath. destruct (String.eqb p ""); [done|]. destruct (HasPrefix p "/") eqn:Hr; [done|].
  destruct (HasPrefix (Clean p) ".." || _) eqn:Hd; [done|]. intros _. apply orb_false_iff in Hd as [Hd _].
  assert (Clean p = match Join (rev (clean_segs false [] (Split p "/"))) "/" with "" => "." | body => body end) as Hc
    by (unfold Clean; replace (IsAbs p) with false by done; by destruct (Join _ _)).
  destruct (Join (rev (clean_segs false [] (Split p "/"))) "/") as [|c body] eqn:EJ; [by left|].
  right. exists (rev (clean_segs false [] (Split p "/"))). split; [by rewrite Hc, EJ|].
  apply Forall_forall. intros s Hs ->.
  assert (".." ∈ clean_segs false [] (Split p "/")) as Hin by (by apply list_elem_of_In, in_rev, list_elem_of_In).
  apply clean_segs_relative in Hin; [|by intros ?%elem_of_nil].
  rewrite Hc, <- EJ in Hd. apply last_Some in Hin as [l' E]. rewrite E, rev_app_distr in Hd. cbn [rev app] in Hd.
  revert Hd. destruct (rev l') as [|y k]; [done|]. cbn [Join]. by rewrite HasPrefix_app.
Qed.

Example valid_paths :
  isValidRepoPath "docs/a.md" = true /\ isValidRepoPath "docs/../../a" = false /\ isValidRepoPath ".git/config" = false /\
  isValidRepoPath "x/../.git/config" = false /\ isValidRepoPath "sub/.git/config" = true /\
  isValidRepoPath ".devcontainer/devcontainer.json" = true /\ isValidRepoPath "..a" = false.
Proof. vm_compute. done. Qed.

(** * The requests one after the other *)

Inductive rest_request :=
  | ListTemplates | CreateTemplate (body : named_body RunTemplateSpec) | GetTemplate (name : string)
  | DeleteTemplate (name : string) | TriggerTemplate (name : string)
  | ListChains | CreateChain (body : named_body ChainSpec) | GetChain (name : string)
  | DeleteChain (name : string) | TriggerChain (name : string)
  | ListChainRuns | GetChainRun (name : string)
  | ListSchedules | CreateSchedule (body : named_body ScheduleSpec) | GetSchedule (name : string)
  | DeleteSchedule (name : string) | SuspendSchedule (name : string) | ResumeSchedule (name : string)
  | ListProjects | CreateProject (body : named_body new_project) | GetProject (name : string)
  | UpdateProject (name : string) (body : option project_change) | DeleteProject (name : string).

Section serve.
Context {sorter : Sorter}.
Variable range : gmap string Z -> list (string * Z).

(** [internal/server/chains.go:39-65] RegisterChainHandlers: the handler of a request; the routes of projects are in
    [projects.go] *)
Definition serve (api : api_server) (req : rest_request) : shell cluster kcall rest_reply rest_reply :=
  match req with
  | ListTemplates => handleListTemplates api
  | CreateTemplate body => handleCreateTemplate api body
  | GetTemplate name => handleGetTemplate api name
  | DeleteTemplate name => handleDeleteTemplate api name
  | TriggerTemplate name => handleTriggerTemplate api name
  | ListChains => handleListChains api
  | CreateChain body => handleCreateChain api range body
  | GetChain name => handleGetChain api name
  | DeleteChain name => handleDeleteChain api name
  | TriggerChain name => handleTriggerChain api name
  | ListChainRuns => handleListChainRuns api
  | GetChainRun name => handleGetChainRun api name
  | ListSchedules => handleListSchedules api
  | CreateSchedule body => handleCreateSchedule api body
  | GetSchedule name => handleGetSchedule api name
  | DeleteSchedule name => handleDeleteSchedule api name
  | SuspendSchedule name => set_suspended api true name
  | ResumeSchedule name => handleResumeSchedule api name
  | ListProjects => handleListProjects api
  | CreateProject body => handleCreateProject api body
  | GetProject name => handleGetProject api name
  | UpdateProject name body => handleUpdateProject api name body
  | DeleteProject name => handleDeleteProject api name
  end.

(** What is stored after a request, and after several. *)
Definition served (c : cluster) (r : api_server * rest_request) : cluster :=
  m_state (serve r.1 r.2 {| m_state := c; m_log := [] |}).1.

Definition served_all (c : cluster) (l : list (api_server * rest_request)) : cluster := foldl served c l.

(** What is answered. *)
Definition answer (api : api_server) (req : rest_request) (c : cluster) : rest_reply :=
  match (serve api req {| m_state := c; m_log := [] |}).2 with inl r | inr r => r end.
End serve.
