(* ===== verification/RestProps.v ===== *)
(** * Properties of the REST interface: what is stored stays valid, and deleting leaves no reference behind. *)

From S2P Require Import Prelude GoStrings ApiTypes Kube ChainDAG RunController ScheduleController Shell RestChains.
Local Open Scope unc_scope.

(** A chain that may be stored. *)
Definition chain_valid (c : ChainSpec) : Prop := cs_Steps c <> [] /\ valid_chain (cs_Steps c).

(** A schedule that may be stored: when, and either a chain or a template. *)
Definition schedule_valid (s : ScheduleSpec) : Prop :=
  sp_Cron s <> "" /\ (sp_ChainRef s = "" <-> sp_TemplateRef s <> "").

Record well_formed (c : cluster) : Prop := {
  wf_chains : map_Forall (fun name o => name <> "" /\ chain_valid (so_value o)) (cl_chains c);
  wf_schedules : map_Forall (fun name o => name <> "" /\ schedule_valid (so_value o)) (cl_schedules c);
}.

(** A step of a chain whose template is not stored, and a schedule whose chain is not. *)
Definition step_dangles (c : cluster) (chain : string) (s : ChainStep) : Prop :=
  (exists o, cl_chains c !! chain = Some o /\ s ∈ cs_Steps (so_value o)) /\ cl_templates c !! TemplateRef s = None.

Definition schedule_dangles (c : cluster) (schedule chain : string) : Prop :=
  (exists o, cl_schedules c !! schedule = Some o /\ sp_ChainRef (so_value o) = chain /\ chain <> "") /\ cl_chains c !! chain = None.

(** Nothing dangles that did not. *)
Definition no_more_dangling (c c' : cluster) : Prop :=
  (forall chain s, step_dangles c' chain s -> step_dangles c chain s) /\
  (forall schedule chain, schedule_dangles c' schedule chain -> schedule_dangles c schedule chain).

Definition stays_formed (c c' : cluster) : Prop := well_formed c -> well_formed c'.

#[export] Instance stays_formed_refl : Reflexive stays_formed.
Proof. by intros c H. Qed.
#[export] Instance stays_formed_trans : Transitive stays_formed.
Proof. intros a b c Hab Hbc H. by apply Hbc, Hab. Qed.
#[export] Instance no_more_refl : Reflexive no_more_dangling.
Proof. intros c. split; auto. Qed.
#[export] Instance no_more_trans : Transitive no_more_dangling.
Proof. intros ??? [] []. split; eauto. Qed.

#[export] Instance stays_formed_order : PreOrder stays_formed := {}.
#[export] Instance no_more_order : PreOrder no_more_dangling := {}.

(** ** What the requests do to what is stored *)

Section requests.
Variable api : api_server.
Context {sorter : Sorter}.
Variable rel : cluster -> cluster -> Prop.
Context `{!Reflexive rel} `{!Transitive rel}.

Notation K A := (shell cluster kcall rest_reply A).

Lemma moves_request {A B} {kind : Kind A} v name op :
  (forall c m b, op (kind_items c) = (m, b) -> rel c (kind_put m c)) ->
  moves rel (request (R := rest_reply) (A := A) (B := B) api v name op).
Proof.
  intros H. apply moves_command. intros c. destruct (as_fails _ _); [done|].
  destruct (op (kind_items c)) as [m b] eqn:E. by eapply H.
Qed.

Lemma moves_k_get A {kind : Kind A} name : moves rel (k_get (R := rest_reply) api A name).
Proof. by apply moves_command. Qed.

Lemma moves_k_list A {kind : Kind A} : moves rel (k_list (R := rest_reply) api A).
Proof. apply moves_request. intros c m b [= <- _]. by rewrite kind_put_same. Qed.

Lemma moves_k_create {A} {kind : Kind A} name a :
  (forall c t, kind_items c !! name = None -> rel c (kind_put (<[name := {| so_created := t; so_value := a |}]> (kind_items c)) c)) ->
  moves rel (k_create (R := rest_reply) api name a).
Proof.
  intros H. apply moves_request. intros c m b. case_match eqn:E; intros [= <- _]; [by rewrite kind_put_same|by apply H].
Qed.

Lemma moves_k_update {A} {kind : Kind A} name a :
  (forall c o, kind_items c !! name = Some o ->
     rel c (kind_put (<[name := {| so_created := so_created o; so_value := a |}]> (kind_items c)) c)) ->
  moves rel (k_update (R := rest_reply) api name a).
Proof.
  intros H. apply moves_request. intros c m b. case_match eqn:E; intros [= <- _]; [by apply H|by rewrite kind_put_same].
Qed.

Lemma moves_k_delete A {kind : Kind A} name :
  (forall c, rel c (kind_put (delete name (kind_items c)) c)) -> moves rel (k_delete (R := rest_reply) api A name).
Proof. intros H. apply moves_request. by intros c m b [= <- _]. Qed.
End requests.

#[export] Hint Resolve moves_ret moves_return moves_k_get moves_k_list : shell.
#[export] Hint Extern 1 (Reflexive _) => tc_solve : shell.

(** One step of an argument about what becomes of the state. *)
Ltac moves_step :=
  lazymatch goal with
  | |- moves _ (_ ≫= _) => apply moves_bind; [tc_solve| |intros ?]
  | |- moves _ (match ?x with _ => _ end) => destruct x eqn:?
  | |- moves _ _ => solve [auto with shell]
  end.

(** ** What is stored stays valid *)

Section formed.
Variable api : api_server.
Context {sorter : Sorter}.
Variable range : gmap string Z -> list (string * Z).
Hypothesis range_perm : forall m, range m ≡ₚ map_to_list m.

(** Objects of the other kinds do not matter. *)
Lemma formed_as c c' : cl_chains c' = cl_chains c -> cl_schedules c' = cl_schedules c -> stays_formed c c'.
Proof. intros Hc Hs [? ?]. split; by rewrite ?Hc, ?Hs. Qed.


Lemma formed_create {A} {kind : Kind A} name (a : A) :
  (forall m c, cl_chains (kind_put m c) = cl_chains c) -> (forall m c, cl_schedules (kind_put m c) = cl_schedules c) ->
  moves stays_formed (k_create (R := rest_reply) api name a).
Proof. intros Hc Hs. apply moves_k_create; [tc_solve|]. intros. by apply formed_as. Qed.

Lemma formed_update {A} {kind : Kind A} name (a : A) :
  (forall m c, cl_chains (kind_put m c) = cl_chains c) -> (forall m c, cl_schedules (kind_put m c) = cl_schedules c) ->
  moves stays_formed (k_update (R := rest_reply) api name a).
Proof. intros Hc Hs. apply moves_k_update; [tc_solve|]. intros. by apply formed_as. Qed.

Lemma formed_create_chain name c : name <> "" -> chain_valid c -> moves stays_formed (k_create (R := rest_reply) api name c).
Proof.
  intros Hn Hc. apply moves_k_create; [tc_solve|]. intros cl t _ [Hcs Hss]. split; [|done].
  by apply map_Forall_insert_2.
Qed.

Lemma formed_create_schedule name s : name <> "" -> schedule_valid s -> moves stays_formed (k_create (R := rest_reply) api name s).
Proof.
  intros Hn Hs. apply moves_k_create; [tc_solve|]. intros cl t _ [Hcs Hss]. split; [done|].
  by apply map_Forall_insert_2.
Qed.

Lemma formed_delete A {kind : Kind A} name :
  (forall c, cl_chains (kind_put (delete name (kind_items c)) c) ⊆ cl_chains c) ->
  (forall c, cl_schedules (kind_put (delete name (kind_items c)) c) ⊆ cl_schedules c) ->
  moves stays_formed (k_delete (R := rest_reply) api A name).
Proof.
  intros Hc Hs. apply moves_k_delete; [tc_solve|]. intros c [Hcs Hss].
  split; intros n o Ho; [eapply Hcs|eapply Hss]; eapply lookup_weaken; eauto.
Qed.

(** Suspending and resuming change nothing else. *)
Lemma formed_suspend b name : moves stays_formed (set_suspended api b name).
Proof.
  intros [c l]. unfold set_suspended, get_or_404, k_get, k_update, request, command, mbind, shell_bind, mret, shell_ret. cbn.
  destruct (as_fails _ _); [done|]. destruct (cl_schedules c !! name) as [o|] eqn:Eo; [|done]. cbn.
  destruct (as_fails _ _); [done|]. rewrite Eo. cbn. intros [Hcs Hss]. split; [done|]. cbn.
  apply map_Forall_insert_2; [|done]. destruct (Hss _ _ Eo) as [Hn [? ?]]. by split.
Qed.

Hint Resolve formed_create_chain formed_create_schedule formed_suspend : shell.

Lemma serve_formed req : moves stays_formed (serve range api req).
Proof.
  destruct req; cbn [serve];
    unfold handleListTemplates, handleCreateTemplate, handleGetTemplate, handleDeleteTemplate, handleTriggerTemplate,
      handleListChains, handleCreateChain, handleGetChain, handleDeleteChain, handleTriggerChain, handleListChainRuns, handleGetChainRun,
      handleListSchedules, handleCreateSchedule, handleGetSchedule, handleDeleteSchedule, handleResumeSchedule,
      handleListProjects, handleCreateProject, handleGetProject, handleUpdateProject, handleDeleteProject,
      named_project, get_or_404, delete_found;
    repeat first [moves_step | by apply formed_create | by apply formed_update
                 | apply formed_delete; intros c; first [done | apply delete_subseteq]].
  - apply orb_false_iff in Heqb as [Hn%String.eqb_neq Hb%bool_decide_eq_false]. apply formed_create_chain; [done|].
    destruct a. split; [done|]. by eapply ValidateChainDAG_valid.
  - apply formed_create_schedule; [|split]; [intros ->; by cbn in *|intros E; rewrite E, orb_true_r in *; done|].
    destruct (String.eqb_spec (sp_ChainRef s0) ""), (String.eqb_spec (sp_TemplateRef s0) ""); cbn in *; try done; naive_solver.
Qed.
End formed.

(** ** Deleting leaves no reference behind *)

(** A request that stores a new reference. *)
Definition creates_reference (req : rest_request) : bool :=
  match req with CreateChain _ | CreateSchedule _ => true | _ => false end.

Section dangling.
Variable api : api_server.
Context {sorter : Sorter}.
Variable range : gmap string Z -> list (string * Z).
Hypothesis lists_chains : as_fails api {| kc_verb := VList; kc_kind := "chain"; kc_name := "" |} = false.
Hypothesis lists_schedules : as_fails api {| kc_verb := VList; kc_kind := "schedule"; kc_name := "" |} = false.

(** Nothing more dangles when no chain and no schedule is added and no template and no chain goes. *)
Lemma no_more_same c c' : cl_chains c' ⊆ cl_chains c -> cl_schedules c' ⊆ cl_schedules c ->
  cl_templates c ⊆ cl_templates c' -> cl_chains c ⊆ cl_chains c' -> no_more_dangling c c'.
Proof.
  intros Hc Hs Ht Hc'. split.
  - intros chain s [(o & Ho & Hin) Hn]. split; [exists o; split; [by eapply lookup_weaken|done]|].
    by eapply lookup_weaken_None.
  - intros n chain [(o & Ho & Hin) Hn]. split; [exists o; split; [by eapply lookup_weaken|done]|].
    by eapply lookup_weaken_None.
Qed.

Lemma dangling_create {A} {kind : Kind A} name (a : A) :
  (forall m c, cl_chains (kind_put m c) = cl_chains c) -> (forall m c, cl_schedules (kind_put m c) = cl_schedules c) ->
  (forall c o, kind_items c !! name = None -> cl_templates c ⊆ cl_templates (kind_put (<[name := o]> (kind_items c)) c)) ->
  moves no_more_dangling (k_create (R := rest_reply) api name a).
Proof.
  intros Hc Hs Ht. apply moves_k_create; [tc_solve|]. intros c t Hn.
  apply no_more_same; rewrite ?Hc, ?Hs; auto.
Qed.

Lemma dangling_update_project name p : moves no_more_dangling (k_update (R := rest_reply) (A := ProjectObject) api name p).
Proof. apply moves_k_update; [tc_solve|]. intros. by apply no_more_same. Qed.

Lemma dangling_delete_schedule name : moves no_more_dangling (k_delete (R := rest_reply) api ScheduleSpec name).
Proof. apply moves_k_delete; [tc_solve|]. intros. apply no_more_same; try done. apply delete_subseteq. Qed.

Lemma dangling_delete_project name : moves no_more_dangling (k_delete (R := rest_reply) api ProjectObject name).
Proof. apply moves_k_delete; [tc_solve|]. intros. by apply no_more_same. Qed.

Lemma template_use_None name l : template_use name l = None ->
  forall chain o s, (chain, o) ∈ l -> s ∈ cs_Steps (so_value o) -> TemplateRef s <> name.
Proof.
  induction l as [|[chain' o'] l IH]; cbn; intros H chain o s Hin Hs; [by apply elem_of_nil in Hin|].
  destruct (List.find _ _) eqn:E; [done|]. apply elem_of_cons in Hin as [[= -> ->]|Hin]; [|by eapply IH].
  apply list_elem_of_In in Hs. eapply List.find_none in E; [|exact Hs]. by apply String.eqb_neq.
Qed.

(** Unfolds the requests of a handler on a given state. *)
Ltac requests :=
  unfold get_or_404, delete_found, k_get, k_list, k_update, k_delete, request, command, return_, mbind, shell_bind, mret, shell_ret; cbn.

Lemma dangling_delete_template name : moves no_more_dangling (handleDeleteTemplate api name).
Proof.
  intros [[templates' chains' chainruns' schedules' projects' runs'] l]. unfold handleDeleteTemplate. requests. destruct (as_fails api (Build_kcall VGet "template" name)); [reflexivity|].
  destruct (templates' !! name) as [o|] eqn:Eo; [|reflexivity]. cbn. rewrite lists_chains. cbn.
  destruct (template_use _ _) as [[chain step]|] eqn:Eu; [reflexivity|]. cbn. destruct (as_fails api (Build_kcall VDelete "template" name)); [reflexivity|]. cbn.
  split; [|done]. intros chain s [(oc & Hoc & Hin) Hn]. cbn in *. split; [by exists oc|].
  rewrite lookup_delete_ne in Hn; [done|]. intros ->. eapply template_use_None in Eu; [by apply Eu| |exact Hin].
  by apply elem_of_map_to_list.
Qed.

Lemma dangling_delete_chain name : moves no_more_dangling (handleDeleteChain api name).
Proof.
  intros [[templates' chains' chainruns' schedules' projects' runs'] l]. unfold handleDeleteChain. requests. destruct (as_fails api (Build_kcall VGet "chain" name)); [reflexivity|].
  destruct (chains' !! name) as [o|] eqn:Eo; [|reflexivity]. cbn. rewrite lists_schedules. cbn.
  destruct (List.find _ _) as [[sn s]|] eqn:Ef; [reflexivity|]. cbn. destruct (as_fails api (Build_kcall VDelete "chain" name)); [reflexivity|]. cbn.
  split.
  - intros chain s [(oc & Hoc & Hin) Hn]. cbn in *. split; [|done]. exists oc. split; [|done].
    by apply lookup_delete_Some in Hoc as [_ ?].
  - intros sn chain [(os & Hos & Href & Hne) Hn]. cbn in *. split; [by exists os|].
    destruct (decide (name = chain)) as [->|]; [|by rewrite lookup_delete_ne in Hn].
    eapply List.find_none in Ef; [|by apply list_elem_of_In, elem_of_map_to_list]. cbn in Ef. by apply String.eqb_neq in Ef.
Qed.

Lemma dangling_suspend b name : moves no_more_dangling (set_suspended api b name).
Proof.
  intros [[templates' chains' chainruns' schedules' projects' runs'] l]. unfold set_suspended. requests. destruct (as_fails api (Build_kcall VGet "schedule" name)); [reflexivity|].
  destruct (schedules' !! name) as [o|] eqn:Eo; [|reflexivity]. cbn. destruct (as_fails api (Build_kcall VUpdate "schedule" name)); [reflexivity|]. cbn. rewrite Eo. cbn.
  split; [done|]. intros sn chain [(os & Hos & Href & Hne) Hn]. cbn in *. split; [|done].
  apply lookup_insert_Some in Hos as [[<- <-]|[? ?]]; [by exists o|by exists os].
Qed.

Hint Resolve dangling_delete_template dangling_delete_chain dangling_suspend dangling_delete_schedule dangling_delete_project
  dangling_update_project : shell.

Lemma serve_dangling req : creates_reference req = false -> moves no_more_dangling (serve range api req).
Proof.
  destruct req; cbn [serve creates_reference]; intros Hr; try done; auto with shell;
    unfold handleListTemplates, handleCreateTemplate, handleGetTemplate, handleTriggerTemplate,
      handleListChains, handleGetChain, handleTriggerChain, handleListChainRuns, handleGetChainRun,
      handleListSchedules, handleGetSchedule, handleDeleteSchedule, handleResumeSchedule,
      handleListProjects, handleCreateProject, handleGetProject, handleUpdateProject, handleDeleteProject,
      named_project, get_or_404, delete_found;
    repeat first [moves_step | apply dangling_create; [done..|]; intros c o' Hn; first [done | by apply insert_subseteq]].
Qed.
End dangling.

(** ** The requests one after the other *)

(** The listings that a deletion looks at do not fail. *)
Definition lists (api : api_server) : Prop :=
  as_fails api {| kc_verb := VList; kc_kind := "chain"; kc_name := "" |} = false /\
  as_fails api {| kc_verb := VList; kc_kind := "schedule"; kc_name := "" |} = false.

Lemma served_all_rel {sorter : Sorter} range (rel : cluster -> cluster -> Prop) `{!PreOrder rel} (ok : api_server * rest_request -> Prop) :
  (forall r, ok r -> moves rel (serve range r.1 r.2)) ->
  forall reqs c, Forall ok reqs -> rel c (served_all range c reqs).
Proof.
  intros H reqs. induction reqs as [|r reqs IH]; intros c Hok; [done|]. apply Forall_cons in Hok as [Hr Hok].
  etrans; [exact (H r Hr {| m_state := c; m_log := [] |})|by apply IH].
Qed.

(** When the server answers, a chain is created when it has a name of its own and is valid. *)
Lemma create_chain_decides {sorter : Sorter} range (range_perm : forall m, range m ≡ₚ map_to_list m) api c name spec :
  as_fails api {| kc_verb := VCreate; kc_kind := "chain"; kc_name := name |} = false ->
  let o := {| so_created := as_now api; so_value := spec |} in
  answer range api (CreateChain (Some (name, spec))) c = RChain 201 name o <->
  name <> "" /\ chain_valid spec /\ cl_chains c !! name = None.
Proof.
  intros Hf o. unfold answer, serve, handleCreateChain, chain_valid.
  destruct (String.eqb_spec name "") as [->|Hn]; [by split; [|intros [? _]]|].
  destruct (bool_decide (cs_Steps spec = [])) eqn:Es; cbn [orb].
  { apply bool_decide_eq_true in Es. split; [done|]. by intros (_ & [? _] & _). }
  apply bool_decide_eq_false in Es. pose proof (ValidateChainDAG_valid range range_perm (cs_Steps spec)) as Hv.
  destruct (ValidateChainDAG range (cs_Steps spec)) as [[]|e].
  - unfold k_create, request, command, mbind, shell_bind, mret, shell_ret. cbn. rewrite Hf.
    destruct (cl_chains c !! name) as [o'|]; cbn; [by split; [|intros (_ & _ & ?)]|].
    split; [|done]. intros _. split_and!; [done|done|by apply Hv|done].
  - split; [done|]. intros (_ & [_ Hc] & _). by apply Hv in Hc.
Qed.

(** C19. Whatever the requests and whichever of them fail, every stored chain has steps that the controller
    accepts, and every schedule has a time and exactly one target; a chain is created exactly when it is
    valid and new; and while the listings that are looked at answer, no request but the creation of a
    chain or a schedule makes a step without its template or a schedule without its chain. *)
Theorem rest_objects_kept {sorter : Sorter} range (range_perm : forall m, range m ≡ₚ map_to_list m) :
  (forall reqs c, well_formed c -> well_formed (served_all range c reqs)) /\
  (forall api c name spec, as_fails api {| kc_verb := VCreate; kc_kind := "chain"; kc_name := name |} = false ->
     answer range api (CreateChain (Some (name, spec))) c = RChain 201 name {| so_created := as_now api; so_value := spec |} <->
     name <> "" /\ chain_valid spec /\ cl_chains c !! name = None) /\
  (forall reqs c, Forall (fun r => creates_reference r.2 = false /\ lists r.1) reqs -> no_more_dangling c (served_all range c reqs)).
Proof.
  split_and!.
  - intros reqs c. refine (served_all_rel range stays_formed (fun _ => True) _ reqs c _); [|by apply Forall_true].
    intros [api req] _. by apply serve_formed.
  - intros. by apply create_chain_decides.
  - intros reqs c. refine (served_all_rel range no_more_dangling _ _ reqs c). intros [api req] [Hc [? ?]]. by apply serve_dangling.
Qed.

(** ** Examples *)

#[local] Instance as_listed : Sorter := fun A l => l.

Definition no_objects : cluster :=
  {| cl_templates := ∅; cl_chains := ∅; cl_chainruns := ∅; cl_schedules := ∅; cl_projects := ∅; cl_runs := ∅ |}.

Definition calm : api_server := {| as_fails := fun _ => false; as_now := 100%Z; as_generate := fun p => p +:+ "x1" |}.

Definition sample_template : RunTemplateSpec :=
  {| ts_DisplayName := ""; ts_Description := ""; ts_Repos := []; ts_Prompt := "go"; ts_ModelTier := ""; ts_ManageModelTier := ""; ts_ImplementModelTier := "";
     ts_OrchestrationMode := ""; ts_SpecRef := ""; ts_TTLSeconds := 0; ts_AutoPush := false; ts_AutoPR := false;
     ts_PRBaseBranch := ""; ts_ProjectRef := "" |}.

Definition sample_chain : ChainSpec :=
  {| cs_DisplayName := ""; cs_Description := ""; cs_ProjectRef := ""; cs_Steps := diamond |}.

Definition sample_schedule (chain template : string) : ScheduleSpec :=
  {| sp_DisplayName := ""; sp_Cron := "@daily"; sp_Timezone := ""; sp_Suspend := false; sp_ConcurrencyPolicy := "";
     sp_ChainRef := chain; sp_TemplateRef := template; sp_SuccessfulRunsHistoryLimit := 0; sp_FailedRunsHistoryLimit := 0 |}.

Definition sample_requests : list rest_request :=
  [CreateTemplate (Some ("t", sample_template)); CreateChain (Some ("c", sample_chain));
   CreateSchedule (Some ("s", sample_schedule "c" ""))].

Definition sample_cluster : cluster := served_all map_to_list no_objects ((fun r => (calm, r)) <$> sample_requests).

(** The chain keeps its template and the schedule its chain. *)
Example references_refused :
  answer map_to_list calm (DeleteTemplate "t") sample_cluster =
    RError 409 ("template " +:+ Quote "t" +:+ " is referenced by chain " +:+ Quote "c" +:+ " (step " +:+ Quote "d" +:+ ")") /\
  answer map_to_list calm (DeleteChain "c") sample_cluster =
    RError 409 ("chain " +:+ Quote "c" +:+ " is referenced by schedule " +:+ Quote "s") /\
  answer map_to_list calm (CreateChain (Some ("c2", {| cs_DisplayName := ""; cs_Description := ""; cs_ProjectRef := "";
    cs_Steps := [mk_step "a" ["b"]; mk_step "b" ["a"]] |}))) sample_cluster = RError 400 "invalid chain DAG: failed: chain contains a cycle".
Proof. vm_compute. done. Qed.

(** When the chains cannot be listed, their template is deleted. *)
Definition lists_fail : api_server :=
  {| as_fails := fun k => match kc_verb k with VList => true | _ => false end; as_now := 100%Z; as_generate := fun p => p |}.

Example deleted_unseen :
  answer map_to_list lists_fail (DeleteTemplate "t") sample_cluster = RDeleted "t" /\
  step_dangles (served map_to_list sample_cluster (lists_fail, DeleteTemplate "t")) "c" (mk_step "a" []).
Proof.
  split; [by vm_compute|]. split; [|by vm_compute].
  eexists. split; [by vm_compute|]. cbn. do 3 right. by left.
Qed.

(** A schedule may name a template, and this is not looked at. *)
Example scheduled_template_deleted :
  let c := served_all map_to_list no_objects ((fun r => (calm, r)) <$>
    [CreateTemplate (Some ("t", sample_template)); CreateSchedule (Some ("s", sample_schedule "" "t"))]) in
  answer map_to_list calm (DeleteTemplate "t") c = RDeleted "t".
Proof. vm_compute. done. Qed.

Lemma rest_objects_kept_witness :
  well_formed no_objects /\ well_formed sample_cluster /\
  no_more_dangling sample_cluster (served_all map_to_list sample_cluster [(calm, DeleteTemplate "t"); (calm, DeleteChain "c")]).
Proof.
  destruct (rest_objects_kept map_to_list (fun m => reflexivity _)) as (Hw & _ & Hd).
  assert (well_formed no_objects) as H0 by (split; apply map_Forall_empty).
  split_and!; [exact H0|by apply Hw|]. apply Hd. repeat constructor.
Defined.
