(* ===== verification/RestRuns.v ===== *)
(** * Smaller handlers of the API server: [archive.go], [counts.go], [sse.go], [classify.go],
    [traces.go], [exec.go] and [middleware.go] of [internal/server].

    A body is its first JSON value, or none.  The stored runs are a map; whether a request on them fails,
    the answers of the model, and the printing of times are parameters. *)

From S2P Require Import Prelude GoStrings ApiTypes Regex TemporalTypes Json Kube RunController ApiProto ApiList JsonDecode OpenSpec VerifyRun Shell GitActivities.
Local Open Scope unc_scope.

(** The value of a body decoded into a struct: [None] is an error. *)
Definition decode_body {A} (zero : A) (d : dec A) (body : option json) : option A := v ← body; decoded zero d v.

(** ** Archiving *)

(** A request on the stored runs. *)
Inductive run_call := RcGet (id : string) | RcStatus (id : string) (archived : bool).

Inductive archive_reply := ArError (status : Z) (msg : string) | ArArchived (b : bool) | ArBulk (archived : Z) (errors : list string).

Section archive.
Variable fails : run_call -> bool.

Notation K A := (shell (gmap string Run) run_call archive_reply A).

Definition set_archived (b : bool) (r : Run) : Run :=
  let s := run_Status r in
  with_status r
    {| st_Phase := st_Phase s; st_Message := st_Message s; st_PodName := st_PodName s; st_StartedAt := st_StartedAt s;
       st_CompletedAt := st_CompletedAt s; st_Conditions := st_Conditions s; st_DeploymentName := st_DeploymentName s;
       st_VerificationResult := st_VerificationResult s; st_PRUrl := st_PRUrl s; st_Archived := b; st_Reports := st_Reports s |}.

Definition get_run (id : string) : K (get_result Run) :=
  command (fun m c => (m, if fails c then GetError "failed" else match m !! id with Some r => Found r | None => NotFound end)) (RcGet id).

Definition update_archived (id : string) (b : bool) (r : Run) : K bool :=
  command (fun m c => if fails c then (m, false) else (<[id := set_archived b r]> m, true)) (RcStatus id b).

(** [internal/server/archive.go:37-42] handleArchive: without a readable body the run is archived *)
Definition archived_of (body : option json) : bool :=
  default true (decode_body false (dec_struct [("archived", dec_bool)]) body).

(** [internal/server/archive.go:30-64] handleArchive *)
Definition handleArchive (id : string) (body : option json) : K archive_reply :=
  if String.eqb id "" then mret (ArError 400 "missing run ID")
  else
    r ← get_run id;
    match r with
    | NotFound => mret (ArError 404 ("run not found: " +:+ id))
    | GetError e => mret (ArError 500 ("get run: " +:+ e))
    | Found run =>
        ok ← update_archived id (archived_of body) run;
        mret (if ok : bool then ArArchived (archived_of body) else ArError 500 "update failed")
    end.

Definition dec_bulk : dec (list string * option bool) := dec_struct
  [("runIds", at_field fst (fun x b => (x, b.2)) (dec_list "" dec_string));
   ("archived", at_field snd (fun x b => (b.1, x)) (fun cur v =>
      match v with JNull => (None, true) | _ => let r := dec_bool (default false cur) v in (Some r.1, r.2) end))].

(** [internal/server/archive.go:79-98] handleBulkArchive: the runs one after the other, with their errors *)
Fixpoint archive_all (b : bool) (ids : list string) (errors : list string) : K (list string) :=
  match ids with
  | [] => mret errors
  | id :: ids =>
      r ← get_run id;
      match r with
      | NotFound => archive_all b ids (errors ++ [id +:+ ": not found"])
      | GetError _ => archive_all b ids (errors ++ [id +:+ ": get failed"])
      | Found run =>
          ok ← update_archived id b run;
          archive_all b ids (if ok : bool then errors else errors ++ [id +:+ ": update failed"])
      end
  end.

(** [internal/server/archive.go:66-104] handleBulkArchive *)
Definition handleBulkArchive (body : option json) : K archive_reply :=
  match decode_body ([], None) dec_bulk body with
  | None => mret (ArError 400 "invalid request body")
  | Some (ids, b) =>
      errors ← archive_all (default true b) ids [];
      mret (ArBulk (Z.of_nat (length ids) - Z.of_nat (length errors)) errors)
  end.
End archive.

(** ** Counts *)

(** [internal/server/counts.go:24-32] CountsResponse *)
Record CountsResponse := {
  cn_Runs : Z; cn_ActiveRuns : Z; cn_Projects : Z; cn_Templates : Z; cn_Chains : Z; cn_ChainRuns : Z; cn_Schedules : Z;
}.

Definition active_phase (p : AgentRunPhase) : bool :=
  match p with AgentRunPhaseRunning | AgentRunPhasePending | AgentRunPhaseWaitingForInput => true | _ => false end.

(** [internal/server/counts.go:34-98] handleCounts: the phases of the runs, and how many there are of the other
    kinds; [None] is an error *)
Definition handleCounts (runs : option (list AgentRunPhase)) (projects templates chains chainruns schedules : option nat)
    : option CountsResponse :=
  runs ← runs; p ← projects; t ← templates; c ← chains; cr ← chainruns; s ← schedules;
  Some {| cn_Runs := Z.of_nat (length runs); cn_ActiveRuns := Z.of_nat (length (filter (fun p => active_phase p = true) runs));
          cn_Projects := Z.of_nat p; cn_Templates := Z.of_nat t; cn_Chains := Z.of_nat c; cn_ChainRuns := Z.of_nat cr;
          cn_Schedules := Z.of_nat s |}.

(** ** The graph of a spec *)

(** [internal/server/sse.go:327-344] phaseToString *)
Definition phaseToString (p : PPhase) : string :=
  match p with
  | PHASE_PENDING => "pending" | PHASE_RUNNING => "running" | PHASE_WAITING_FOR_INPUT => "waiting_for_input"
  | PHASE_SUCCEEDED => "succeeded" | PHASE_FAILED => "failed" | PHASE_CANCELLED => "cancelled"
  | PHASE_UNSPECIFIED => "unknown"
  end.

(** [internal/server/sse.go:46-53] graphNodeJSON *)
Record graphNodeJSON := {
  gn_RunID : string; gn_ParentRunID : string; gn_AgentType : string; gn_Phase : string; gn_StartedAt : string; gn_CompletedAt : string;
}.

Section graph.
Variable print_time : time -> string.

(** [internal/server/sse.go:100-124] handleGetGraph: a node *)
Definition graph_node (r : Run) : graphNodeJSON :=
  {| gn_RunID := run_name r; gn_ParentRunID := rs_ParentRunID (run_Spec r);
     gn_AgentType := default "single" (m_Labels (run_Meta r) !! "aot.uncworks.io/run-role");
     gn_Phase := phaseToString (crdPhaseToProto (st_Phase (run_Status r)));
     gn_StartedAt := default "" (print_time <$> st_StartedAt (run_Status r));
     gn_CompletedAt := default "" (print_time <$> st_CompletedAt (run_Status r)) |}.

(** [internal/server/sse.go:61-135] handleGetGraph: the runs with the label of the spec, or the run of its name;
    the nodes and the edges, from parent to child *)
Definition handleGetGraph (spec_runs : option (list Run)) (get : get_result Run) : option (list graphNodeJSON * list (string * string)) :=
  let items :=
    match spec_runs, get with
    | Some ((_ :: _) as l), _ => Some l
    | _, Found r => Some [r]
    | _, _ => None
    end in
  match items with
  | None => None
  | Some items =>
      Some (graph_node <$> items,
            omap (fun r => let p := rs_ParentRunID (run_Spec r) in if String.eqb p "" then None else Some (p, run_name r)) items)
  end.
End graph.

(** [internal/server/sse.go:138-146] graphSSEEvent *)
Record graphSSEEvent := { gx_Type : string; gx_RunID : string; gx_Phase : string; gx_Message : string; gx_CurrentActivity : string }.

(** [internal/server/sse.go:257-287] agentRunEventToGraphSSE *)
Definition agentRunEventToGraphSSE (e : AgentRunEvent) : graphSSEEvent :=
  let status phase := {| gx_Type := "NODE_STATUS_CHANGED"; gx_RunID := ae_AgentRunId e; gx_Phase := phase;
                         gx_Message := ae_Payload e; gx_CurrentActivity := "" |} in
  match ae_Type e with
  | EVENT_LOG => {| gx_Type := "NODE_PROGRESS"; gx_RunID := ae_AgentRunId e; gx_Phase := ""; gx_Message := "";
                    gx_CurrentActivity := ae_Payload e |}
  | EVENT_COMPLETED => status "succeeded"
  | _ => status (ae_Payload e)
  end.

(** [internal/server/sse.go:301-324] agentRunEventToTraceSSE: the id, the name and the type *)
Definition agentRunEventToTraceSSE (now : time) (e : AgentRunEvent) : option (string * string * string) :=
  match ae_Type e with
  | EVENT_PHASE_CHANGED => Some (ae_AgentRunId e +:+ "-phase-" +:+ ae_Payload e, "Phase: " +:+ ae_Payload e, "phase")
  | EVENT_LOG => Some (ae_AgentRunId e +:+ "-log-" +:+ Itoa now, ae_Payload e, "log")
  | _ => None
  end.

(** ** Asking the model *)

(** What is sent: where, with which key, and the messages with their roles. *)
Record model_request := { mq_url : string; mq_key : string; mq_messages : list (string * string); mq_max_tokens : Z }.

(** The answer: an error, the status and the body, or a body that cannot be read. *)
Definition model_answer : Type := result (Z * option string).

Definition dec_choices : dec (list string) := dec_struct
  [("choices", dec_list "" (dec_struct [("message", dec_struct [("content", dec_string)])]))].

(** [internal/server/classify.go:46-51] classifyResponse *)
Record classifyResponse := { cy_Project : string; cy_Feature : string; cy_FeatureIsNew : bool; cy_Tags : list string }.

Definition with_cy (p f : string) (n : bool) (t : list string) : classifyResponse :=
  {| cy_Project := p; cy_Feature := f; cy_FeatureIsNew := n; cy_Tags := t |}.

Definition dec_classify : dec classifyResponse := dec_struct
  [("project", at_field cy_Project (fun x c => with_cy x (cy_Feature c) (cy_FeatureIsNew c) (cy_Tags c)) dec_string);
   ("feature", at_field cy_Feature (fun x c => with_cy (cy_Project c) x (cy_FeatureIsNew c) (cy_Tags c)) dec_string);
   ("featureIsNew", at_field cy_FeatureIsNew (fun x c => with_cy (cy_Project c) (cy_Feature c) x (cy_Tags c)) dec_bool);
   ("tags", at_field cy_Tags (fun x c => with_cy (cy_Project c) (cy_Feature c) (cy_FeatureIsNew c) x) (dec_list "" dec_string))].

(** [internal/server/classify.go:101-129] extractExistingLabels: the values of a label, in any order *)
Definition label_values (label : string) (runs : list (gmap string string)) : gset string :=
  list_to_set (filter (.≠ "") (omap (fun m => m !! label) runs)).

Definition quoted_q (s : string) : string := dquote +:+ s +:+ dquote.

(** [internal/server/classify.go:132-146] buildClassificationPrompt *)
Definition buildClassificationPrompt (prompt : string) (repos projects features : list string) : string :=
  Join ["Given this agent run request, suggest classification.";
        "Prompt: " +:+ quoted_q prompt;
        "Repos: [" +:+ Join repos ", " +:+ "]";
        "Existing projects: [" +:+ Join projects ", " +:+ "]";
        "Existing features: [" +:+ Join features ", " +:+ "]"; "";
        "Return JSON only, no explanation:";
        "{" +:+ quoted_q "project" +:+ ": " +:+ quoted_q "suggested-project" +:+ ", " +:+ quoted_q "feature" +:+ ": " +:+
        quoted_q "feature-name-kebab-case" +:+ ", " +:+ quoted_q "featureIsNew" +:+ ": true/false, " +:+ quoted_q "tags" +:+ ": [" +:+
        quoted_q "tag1" +:+ ", " +:+ quoted_q "tag2" +:+ "]}"] newline.

(** The address of the completions below a base. *)
Definition completions (base : string) : string := TrimSuffix (TrimRight base "/") "/v1" +:+ "/v1/chat/completions".

Section model.
Variable ask : model_request -> model_answer.
(** the environment variable LITELLM_MASTER_KEY *)
Variable masterKey : string.
(** the address that is configured *)
Variable LiteLLMBaseURL : string.

(** [internal/server/classify.go:207-213] callLiteLLM: the fences are stripped *)
Definition strip_fences (content : string) : string :=
  TrimSpace (TrimSuffix (TrimPrefix (TrimPrefix (TrimSpace content) "```json") "```") "```").

(** [internal/server/classify.go:149-227] callLiteLLM *)
Definition callLiteLLM (prompt : string) : result classifyResponse :=
  if String.eqb LiteLLMBaseURL "" then Err "not found: LITELLM_BASE_URL not configured"
  else match ask {| mq_url := completions LiteLLMBaseURL; mq_key := masterKey; mq_messages := [("user", prompt)]; mq_max_tokens := 200 |} with
  | Err e => Err ("LLM request: " +:+ e)
  | Ok (status, body) =>
      if negb (status =? 200)%Z then
        Err ("failed: LLM returned status " +:+ Itoa status +:+ ": " +:+ str_take (Z.to_nat 1024) (default "" body))
      else match body with
      | None => Err "read response"
      | Some body =>
          match Unmarshal [] dec_choices (str_take (Z.to_nat 8192) body) with
          | None => Err "parse LLM response"
          | Some [] => Err "failed: LLM returned no choices"
          | Some (content :: _) =>
              let content := strip_fences content in
              match Unmarshal (with_cy "" "" false []) dec_classify content with
              | None => Err ("parse classification JSON " +:+ Quote content)
              | Some r => Ok r
              end
          end
      end
  end.

Inductive text_reply := TxError (status : Z) (msg : string) | TxImproved (text : string) | TxClassified (r : classifyResponse).

Definition dec_classify_request : dec (string * list string) := dec_struct
  [("prompt", at_field fst (fun x r => (x, r.2)) dec_string); ("repos", at_field snd (fun x r => (r.1, x)) (dec_list "" dec_string))].

(** [internal/server/classify.go:65-98] handleClassify: [runs] are the labels of the stored runs, none when they
    cannot be listed; [order] is the order of ranging over a set *)
Definition handleClassify (order : gset string -> list string) (runs : list (gmap string string)) (body : option json) : text_reply :=
  match decode_body ("", []) dec_classify_request body with
  | None => TxError 400 "invalid JSON body"
  | Some ("", _) => TxError 400 "prompt is required"
  | Some (prompt, repos) =>
      let values l := order (label_values l runs) in
      match callLiteLLM (buildClassificationPrompt prompt repos (values "aot.uncworks.io/project") (values "aot.uncworks.io/feature")) with
      | Err e => TxError 502 ("LLM classification failed: " +:+ e)
      | Ok r => TxClassified r
      end
  end.

(** [internal/server/classify.go:243-260] handleImproveText: the system prompt *)
Definition improve_prompt (kind : string) : string :=
  if String.eqb kind "spec" then
    Join ["You are a spec editor. Improve the given specification to be clearer, more structured, and more actionable for an AI coding agent. Keep the same intent but:";
          "- Add clear acceptance criteria"; "- Break vague requirements into specific, testable items";
          "- Use markdown formatting with headers and bullet points"; "- Add edge cases the author may have missed";
          "Return ONLY the improved spec text, no explanation."] newline
  else
    Join ["You are a prompt editor. Improve the given prompt to be clearer and more effective for an AI coding agent. Keep the same intent but:";
          "- Be more specific about what to do"; "- Clarify success criteria"; "- Add relevant constraints or context hints";
          "- Keep it concise"; "Return ONLY the improved prompt text, no explanation."] newline.

Definition dec_improve : dec (string * string) := dec_struct
  [("text", at_field fst (fun x r => (x, r.2)) dec_string); ("kind", at_field snd (fun x r => (r.1, x)) dec_string)].

(** A header that is given replaces what is configured. *)
Definition override (header configured : string) : string := if String.eqb header "" then configured else header.

(** [internal/server/classify.go:230-340] handleImproveText: the requests that are made, and the answer; two headers of
    the request name another model and another key *)
Definition handleImproveText (header_url header_key : string) (body : option json) : list model_request * text_reply :=
  match decode_body ("", "") dec_improve body with
  | None => ([], TxError 400 "invalid JSON body")
  | Some ("", _) => ([], TxError 400 "text is required")
  | Some (text, kind) =>
      if String.eqb LiteLLMBaseURL "" then ([], TxError 502 "LITELLM_BASE_URL not configured")
      else
        let req := {| mq_url := completions (override header_url LiteLLMBaseURL); mq_key := override header_key masterKey;
                      mq_messages := [("system", improve_prompt kind); ("user", text)]; mq_max_tokens := 2000 |} in
        ([req],
         match ask req with
         | Err e => TxError 502 ("LLM request failed: " +:+ e)
         | Ok (status, answer) =>
             if negb (status =? 200)%Z then TxError 502 ("LLM error " +:+ Itoa status +:+ ": " +:+ str_take (Z.to_nat 1024) (default "" answer))
             else match answer with
             | None => TxError 500 "read LLM response"
             | Some answer =>
                 match Unmarshal [] dec_choices (str_take (Z.to_nat 32768) answer) with
                 | Some (content :: _) => TxImproved (TrimSpace content)
                 | _ => TxError 502 "invalid LLM response"
                 end
             end
         end)
  end.
End model.

(** ** Requests that are let in *)

(** [internal/server/exec.go:46-57] checkOrigin *)
Definition checkOrigin (allowedOrigins : list string) (origin : string) : bool :=
  String.eqb origin "" || existsb (fun a => String.eqb a "*" || EqualFold a origin) allowedOrigins.

(** [internal/server/middleware.go:25-52] RequireJSONContentType: the error, when the request is not passed on *)
Definition RequireJSONContentType (method path contentType : string) : option string :=
  if existsb (String.eqb method) ["POST"; "PUT"; "PATCH"] then
    if HasPrefix path "/api/v1/webhooks/" then None
    else if String.eqb contentType "" then Some "Content-Type header is required"
    else
      let mediaType := match Index contentType ";" with Some i => TrimSpace (str_take i contentType) | None => contentType end in
      if EqualFold mediaType "application/json" then None else Some "Content-Type must be application/json"
  else None.

(** ** Traces *)

Section spans.
Context {span : Type} (id : span -> string).

(** [internal/server/traces.go:168-175] readSpansFile: a span replaces the one with its id, in its place *)
Definition add_span (acc : gmap string nat * list span) (s : span) : gmap string nat * list span :=
  match acc.1 !! id s with
  | Some idx => (acc.1, <[idx := s]> acc.2)
  | None => (<[id s := length acc.2]> acc.1, acc.2 ++ [s])
  end.

(** [internal/server/traces.go:145-186] readSpansFile: [decode] reads a line *)
Definition readSpans (decode : string -> option span) (lines : list string) : list span :=
  (foldl add_span (∅, []) (omap (fun l => if String.eqb l "" then None else decode l) lines)).2.
End spans.

(** * Properties of the handlers *)

(** ** Archiving *)

(** Nothing but the flag of some runs changes. *)
Definition only_archived (m m' : gmap string Run) : Prop :=
  forall id, m' !! id = m !! id \/ exists b, m' !! id = set_archived b <$> m !! id.

Lemma set_archived_twice b b' r : set_archived b (set_archived b' r) = set_archived b r.
Proof. by destruct r. Qed.

#[export] Instance only_archived_refl : Reflexive only_archived.
Proof. intros m id. by left. Qed.

#[export] Instance only_archived_trans : Transitive only_archived.
Proof.
  intros m1 m2 m3 H1 H2 id. destruct (H1 id) as [E1|[b1 E1]], (H2 id) as [E2|[b2 E2]]; rewrite E2, E1; eauto.
  right. exists b2. by destruct (m1 !! id).
Qed.

Section archive.
Variable fails : run_call -> bool.

(** The errors of several runs: none when every request is answered and every run is stored, and as many
    runs are changed as there are no errors. *)
Lemma archive_all_kept b ids : forall errors m l,
  let '(s, r) := archive_all fails b ids errors {| m_state := m; m_log := l |} in
  only_archived m (m_state s) /\ exists more, r = inl (errors ++ more) /\ (length more <= length ids)%nat /\
    ((forall c, fails c = false) -> (forall id, id ∈ ids -> is_Some (m !! id)) ->
       more = [] /\ forall id, m_state s !! id = if decide (id ∈ ids) then set_archived b <$> m !! id else m !! id).
Proof.
  induction ids as [|id ids IH]; intros errors m l; cbn [archive_all].
  - cbn. split; [done|]. exists []. rewrite app_nil_r. split_and!; [done|done|]. intros _ _. split; [done|].
    intros id. by rewrite decide_False by apply not_elem_of_nil.
  - unfold get_run, update_archived, command, mbind, shell_bind. cbn.
    destruct (fails (RcGet id)) eqn:Eg.
    { specialize (IH (errors ++ [id +:+ ": get failed"]) m (l ++ [RcGet id])). destruct (archive_all _ _ _ _ _) as [s r].
      destruct IH as (Hm & more & -> & Hl & _). split; [done|]. eexists (_ :: more). rewrite <- app_assoc. split_and!; [done|rewrite ?length_cons; lia|].
      intros Hf. by rewrite Hf in Eg. }
    destruct (m !! id) as [run|] eqn:Em.
    2:{ specialize (IH (errors ++ [id +:+ ": not found"]) m (l ++ [RcGet id])). destruct (archive_all _ _ _ _ _) as [s r].
      destruct IH as (Hm & more & -> & Hl & _). split; [done|]. eexists (_ :: more). rewrite <- app_assoc. split_and!; [done|rewrite ?length_cons; lia|].
      intros _ Hin. destruct (Hin id) as [? ?]; [by left|congruence]. }
    destruct (fails (RcStatus id b)) eqn:Eu; cbn.
    { specialize (IH (errors ++ [id +:+ ": update failed"]) m ((l ++ [RcGet id]) ++ [RcStatus id b])). destruct (archive_all _ _ _ _ _) as [s r].
      destruct IH as (Hm & more & -> & Hl & _). split; [done|]. eexists (_ :: more). rewrite <- app_assoc. split_and!; [done|rewrite ?length_cons; lia|].
      intros Hf. by rewrite Hf in Eu. }
    specialize (IH errors (<[id:=set_archived b run]> m) ((l ++ [RcGet id]) ++ [RcStatus id b])). destruct (archive_all _ _ _ _ _) as [s r].
    destruct IH as (Hm & more & -> & Hl & Hall). split.
    { etrans; [|exact Hm]. intros id'. destruct (decide (id = id')) as [<-|]; [right; exists b; by rewrite lookup_insert_eq, Em|].
      left. by rewrite lookup_insert_ne. }
    exists more. split_and!; [done|rewrite ?length_cons; lia|]. intros Hf Hin. destruct Hall as [-> Hs]; [done| |].
    { intros id' Hid. destruct (decide (id = id')) as [<-|]; [rewrite lookup_insert_eq; eauto|].
      rewrite lookup_insert_ne by done. apply Hin. by right. }
    split; [done|]. intros id'. rewrite Hs. destruct (decide (id = id')) as [<-|Hne].
    + rewrite lookup_insert_eq, Em, (decide_True (P := id ∈ id :: ids)) by by left. by destruct (decide _).
    + rewrite lookup_insert_ne by done. apply decide_ext. rewrite elem_of_cons. naive_solver.
Qed.
End archive.

(** A body that is an empty object brings a run back: the default of the flag counts only without a body. *)
Example empty_body_unarchives :
  archived_of None = true /\ archived_of (Some (JObj [])) = false /\
  decode_body ([], None) dec_bulk (Some (JObj [])) = Some ([], None).
Proof. vm_compute. done. Qed.

(** ** Spans *)

Section spans.
Context {span : Type} (id : span -> string).

(** The index finds the place of every id. *)
Record indexed (acc : gmap string nat * list span) : Prop := {
  ix_sound : forall k i, acc.1 !! k = Some i -> id <$> acc.2 !! i = Some k;
  ix_complete : forall i s, acc.2 !! i = Some s -> acc.1 !! id s = Some i;
}.

Lemma add_span_indexed acc s : indexed acc -> indexed (add_span id acc s).
Proof.
  intros [Hs Hc]. unfold add_span. destruct (acc.1 !! id s) as [idx|] eqn:E.
  - pose proof (Hs _ _ E) as Hi. split; cbn.
    + intros k i Hk. destruct (decide (i = idx)) as [->|Hne]; [|rewrite list_lookup_insert_ne by done; by apply Hs].
      specialize (Hs _ _ Hk). rewrite Hi in Hs. injection Hs as <-. rewrite list_lookup_insert_eq; [done|].
      apply lookup_lt_is_Some. destruct (acc.2 !! idx); [by eexists|done].
    + intros i t Ht. destruct (decide (i = idx)) as [->|Hne].
      * apply list_lookup_insert_Some in Ht as [(_ & <- & _)|[? _]]; [done|done].
      * rewrite list_lookup_insert_ne in Ht by done. by apply Hc.
  - split; cbn.
    + intros k i Hk. apply lookup_insert_Some in Hk as [[<- <-]|[Hne Hk]]; [by rewrite list_lookup_middle|].
      specialize (Hs _ _ Hk). destruct (acc.2 !! i) as [t|] eqn:Et; [|done]. by rewrite (lookup_app_l_Some _ _ _ _ Et).
    + intros i t Ht. apply lookup_app_Some in Ht as [Ht|[Hl Ht]].
      * pose proof (Hc _ _ Ht). rewrite lookup_insert_ne; [done|]. congruence.
      * apply list_lookup_singleton_Some in Ht as [Hi <-]. rewrite lookup_insert_eq. f_equal. lia.
Qed.

(** What is there after a span: it, and the spans of the other ids. *)
Lemma elem_of_add_span acc s t : indexed acc -> t ∈ (add_span id acc s).2 <-> t = s \/ (t ∈ acc.2 /\ id t <> id s).
Proof.
  intros H. pose proof (add_span_indexed acc s H) as H'. destruct H as [Hs Hc]. revert H'. unfold add_span.
  destruct (acc.1 !! id s) as [idx|] eqn:E; intros [Hs' Hc']; cbn in *.
  - pose proof (Hs _ _ E) as Hi. destruct (acc.2 !! idx) as [old|] eqn:Eo; [|done]. cbn in Hi. injection Hi as Hi.
    rewrite !list_elem_of_lookup. split.
    + intros [i [(<- & <- & _)|[Hne Ht]]%list_lookup_insert_Some]; [by left|right]. split; [eauto|].
      intros Heq. pose proof (Hc _ _ Ht) as Hx. rewrite Heq, E in Hx. by injection Hx.
    + intros [->|[[i Ht] Hne]].
      * exists idx. rewrite list_lookup_insert_eq; [done|]. by eapply lookup_lt_Some.
      * exists i. rewrite list_lookup_insert_ne; [done|]. intros <-. rewrite Eo in Ht. by injection Ht as <-.
  - rewrite elem_of_app, list_elem_of_singleton. split; [|naive_solver]. intros [Ht| ->]; [right|by left]. split; [done|].
    apply list_elem_of_lookup in Ht as [i Ht]. apply Hc in Ht. congruence.
Qed.

(** The spans of a file: of the spans with one id the last one, and each id once, in the order in which the
    ids appear. *)
Lemma readSpans_last decode lines :
  let decoded := omap (fun l => if String.eqb l "" then None else decode l) lines in
  NoDup (id <$> readSpans id decode lines) /\
  forall t, t ∈ readSpans id decode lines <-> exists a b, decoded = a ++ t :: b /\ Forall (fun s => id s <> id t) b.
Proof.
  cbv zeta. unfold readSpans. induction (omap _ lines) as [|s l IH] using rev_ind.
  - cbn. split; [constructor|]. intros t. split; [by intros ?%elem_of_nil|]. by intros ([] & b & ? & _).
  - assert (forall l, indexed (foldl (add_span id) (∅, []) l)) as Hix.
    { clear. intros l. induction l as [|s l IH] using rev_ind; [by split; intros ?? []%lookup_empty_Some + done|].
      rewrite foldl_snoc. by apply add_span_indexed. }
    split.
    + specialize (Hix (l ++ [s])). destruct Hix as [Hs Hc]. apply NoDup_alt. intros i j k Hi Hj.
      rewrite list_lookup_fmap in Hi, Hj. destruct (_ !! i) as [a|] eqn:Ea; [|done]. destruct (_ !! j) as [b|] eqn:Eb; [|done].
      cbn in Hi, Hj. injection Hi as Hi. injection Hj as Hj. apply Hc in Ea. apply Hc in Eb. congruence.
    + intros t. rewrite foldl_snoc, elem_of_add_span by done. destruct IH as [_ IH]. rewrite IH. split.
      * intros [->|[(a & b & -> & Hb) Hne]]; [exists l, []; by split|]. exists a, (b ++ [s]).
        rewrite <- app_assoc. split; [done|]. apply Forall_app. split; [done|]. apply Forall_singleton. congruence.
      * intros (a & b & Hab & Hb). destruct b as [|s' b _] using rev_ind.
        { apply app_inj_tail in Hab as [_ <-]. by left. }
        rewrite app_comm_cons, app_assoc in Hab. apply app_inj_tail in Hab as [-> <-].
        apply Forall_app in Hb as [Hb [Hs _]%Forall_cons]. right. split; [by exists a, b|by intros E; apply Hs].
Qed.
End spans.

(** ** Asking the model *)

(** Without the header of another address, the request goes to the address that is configured, with the
    configured key or the one that was given. *)
Lemma handleImproveText_confined ask masterKey url key body :
  Forall (fun r => mq_url r = completions url /\ (mq_key r = masterKey \/ mq_key r = key /\ key <> ""))
    (handleImproveText ask masterKey url "" key body).1.
Proof.
  unfold handleImproveText. destruct (decode_body _ _ body) as [[text kind]|]; [|by constructor].
  destruct text; [by constructor|]. destruct (String.eqb url ""); [by constructor|]. apply Forall_singleton. cbn.
  split; [done|]. unfold override. destruct (String.eqb_spec key ""); [by left|by right].
Qed.

(** With it, whoever may ask names the address, and the server's own key is sent there. *)
Example key_leaves :
  (handleImproveText (fun _ => Err "") "sk-master" "http://litellm:4000" "https://elsewhere.example" "" (Some (JObj [("text", JStr "hi")]))).1 =
    [{| mq_url := "https://elsewhere.example/v1/chat/completions"; mq_key := "sk-master";
        mq_messages := [("system", improve_prompt ""); ("user", "hi")]; mq_max_tokens := 2000 |}].
Proof. vm_compute. done. Qed.

(** Fences around the answer are taken off. *)
Example classified :
  let answer := "{" +:+ quoted_q "choices" +:+ ":[{" +:+ quoted_q "message" +:+ ":{" +:+ quoted_q "content" +:+ ":" +:+
    dquote +:+ "```json\n{\" +:+ dquote +:+ "project\" +:+ dquote +:+ ":\" +:+ dquote +:+ "web\" +:+ dquote +:+ "}\n```" +:+ dquote +:+ "}}]}" in
  callLiteLLM (fun r => if String.eqb (mq_url r) "http://l/v1/chat/completions" then Ok (200%Z, Some answer) else Err "") "k" "http://l/v1/" "p" =
    Ok (with_cy "web" "" false []).
Proof. vm_compute. done. Qed.

(** ** The graph *)

(** A run that has failed is completed as well, and shown as succeeded. *)
Example failed_is_shown_as_succeeded :
  gx_Phase (agentRunEventToGraphSSE {| ae_AgentRunId := "r1"; ae_Type := EVENT_COMPLETED; ae_Payload := "Failed" |}) = "succeeded".
Proof. done. Qed.
