(* ===== verification/Brain.v ===== *)
(** * The knowledge base: [internal/brain/store.go] and [internal/brain/search.go].

    The database is its tables, each row with what the statement gives and what the table's definition adds.
    A statement fails when the connection does, or when a constraint of the tables forbids it; then nothing
    is changed.  Parameters are the connection, the clock, the identifiers that the database makes, its reading
    of identifiers, the order of rows of one time, the approximate search of the nearest vectors, and numbers of
    32 and 64 bits with a point. *)

From S2P Require Import Prelude GoStrings ApiTypes.
Local Open Scope unc_scope.

(** ** Rows *)

(** [internal/brain/store.go:20-35] AgentState *)
Record AgentState := {
  as_ID : string; as_AgentRunID : string; as_Phase : string; as_Message : string; as_Prompt : string; as_RepoURL : string;
  as_Branch : string; as_TraceID : string; as_CreatedAt : time; as_UpdatedAt : time; as_CompletedAt : option time;
  as_Metadata : list (string * string);
}.

(** [internal/brain/store.go:38-45] RunDiff *)
Record RunDiff := {
  rd_ID : string; rd_AgentRunID : string; rd_SpanID : string; rd_FilePath : string; rd_Patch : string; rd_CreatedAt : time;
}.

(** [internal/brain/store.go:48-58] TraceSpan: [M] are the metadata *)
Record TraceSpan (M : Type) := {
  bs_ID : string; bs_AgentRunID : string; bs_ParentID : string; bs_Name : string; bs_Type : string;
  bs_StartTime : time; bs_EndTime : option time; bs_Metadata : M; bs_CreatedAt : time;
}.
Arguments bs_ID {M} t.
Arguments bs_AgentRunID {M} t.
Arguments bs_ParentID {M} t.
Arguments bs_Name {M} t.
Arguments bs_Type {M} t.
Arguments bs_StartTime {M} t.
Arguments bs_EndTime {M} t.
Arguments bs_Metadata {M} t.
Arguments bs_CreatedAt {M} t.

(** [internal/brain/store.go:61-71] CodeChunkRecord: [F] are numbers of 32 bits *)
Record CodeChunkRecord (F : Type) := {
  cc_AgentRunID : string; cc_DiffID : string; cc_ChunkText : string; cc_FilePath : string; cc_Language : string;
  cc_NodeType : string; cc_RepoURL : string; cc_Boost : F; cc_Embedding : list F;
}.
Arguments cc_AgentRunID {F} c.
Arguments cc_DiffID {F} c.
Arguments cc_ChunkText {F} c.
Arguments cc_FilePath {F} c.
Arguments cc_Language {F} c.
Arguments cc_NodeType {F} c.
Arguments cc_RepoURL {F} c.
Arguments cc_Boost {F} c.
Arguments cc_Embedding {F} c.

(** [internal/brain/store.go:74-82] TraceChunkRecord *)
Record TraceChunkRecord (F : Type) := {
  tc_AgentRunID : string; tc_SpanID : string; tc_ChunkText : string; tc_ChunkType : string; tc_Severity : string;
  tc_RepoURL : string; tc_Embedding : list F;
}.
Arguments tc_AgentRunID {F} t.
Arguments tc_SpanID {F} t.
Arguments tc_ChunkText {F} t.
Arguments tc_ChunkType {F} t.
Arguments tc_Severity {F} t.
Arguments tc_RepoURL {F} t.
Arguments tc_Embedding {F} t.

(** A row of a table with chunks: what was inserted, with the embedding as a literal, its identifier and time. *)
Record chunk_row (R : Type) := { ck_ID : string; ck_Record : R; ck_Literal : string; ck_CreatedAt : time }.
Arguments ck_ID {R} c.
Arguments ck_Record {R} c.
Arguments ck_Literal {R} c.
Arguments ck_CreatedAt {R} c.

Section store.
Context {F D M : Type}.
(** printing with the verb [%g] *)
Variable print_float : F -> string.

(** The tables that [Migrate] creates. *)
Record database := {
  db_states : list AgentState;
  db_logs : list (string * string * time);
  db_diffs : list RunDiff;
  db_spans : list (TraceSpan M);
  db_code : list (chunk_row (CodeChunkRecord F));
  db_trace : list (chunk_row (TraceChunkRecord F));
}.

Inductive statement :=
  | SaveState_ (run : string) | GetState_ (run : string) | UpdatePhase_ (run : string) | ListByPhase_ (phase : string)
  | SaveRunLog_ (run : string) | SaveRunDiff_ (run path : string) | SaveRunSpan_ (run : string) | SaveRunSpans_ (run : string)
  | GetRunLogs_ (run : string) | GetRunDiffs_ (run : string) | GetRunSpans_ (run : string)
  | Begin_ | InsertCode_ (i : nat) | InsertTrace_ (i : nat) | Commit_ | SearchCode_ | SearchTrace_.

(** What is outside: the error of the connection for a statement, the time, the identifier of the row that is
    the [n]th of its table, whether a text is a UUID, and the queries' orders. *)
Record postgres := {
  pg_error : statement -> option string;
  pg_now : time;
  pg_uuid : statement -> nat -> string;
  pg_is_uuid : string -> bool;
  pg_by_time : forall A, (A -> time) -> list A -> list A;
  (** the rows whose vectors are near to a literal, each with its distance from it *)
  pg_nearest : forall R, string -> nat -> list (chunk_row R) -> list (chunk_row R * D);
}.

Variable pg : postgres.

(** The tables but one. *)
Definition with_states l d := {| db_states := l; db_logs := db_logs d; db_diffs := db_diffs d; db_spans := db_spans d; db_code := db_code d; db_trace := db_trace d |}.
Definition with_logs l d := {| db_states := db_states d; db_logs := l; db_diffs := db_diffs d; db_spans := db_spans d; db_code := db_code d; db_trace := db_trace d |}.
Definition with_diffs l d := {| db_states := db_states d; db_logs := db_logs d; db_diffs := l; db_spans := db_spans d; db_code := db_code d; db_trace := db_trace d |}.
Definition with_spans l d := {| db_states := db_states d; db_logs := db_logs d; db_diffs := db_diffs d; db_spans := l; db_code := db_code d; db_trace := db_trace d |}.
Definition with_code l d := {| db_states := db_states d; db_logs := db_logs d; db_diffs := db_diffs d; db_spans := db_spans d; db_code := l; db_trace := db_trace d |}.
Definition with_trace l d := {| db_states := db_states d; db_logs := db_logs d; db_diffs := db_diffs d; db_spans := db_spans d; db_code := db_code d; db_trace := l |}.

(** A statement that changes the tables: its error, or the new tables. *)
Definition exec (what : string) (s : statement) (op : database -> result database) (d : database) : database * option string :=
  match pg_error pg s with
  | Some e => (d, Some (what +:+ ": " +:+ e))
  | None => match op d with Ok d' => (d', None) | Err e => (d, Some (what +:+ ": " +:+ e)) end
  end.

(** A query: its error, or the rows. *)
Definition query {A} (what : string) (s : statement) (rows : database -> A) (d : database) : result A :=
  match pg_error pg s with Some e => Err (what +:+ ": " +:+ e) | None => Ok (rows d) end.

(** The constraint that rows are about a run whose state is stored. *)
Definition known_run (d : database) (run : string) : bool := existsb (fun s => String.eqb (as_AgentRunID s) run) (db_states d).

Definition references (d : database) (table run : string) (k : result database) : result database :=
  if known_run d run then k
  else Err ("insert or update on table " +:+ Quote table +:+ " violates foreign key constraint").

(** ** Migration *)

(** [internal/brain/store.go:216-274] migrateVectorTables: the errors of its three statements *)
Definition migrateVectorTables (extension tables indexes : option string) : result unit :=
  match extension, tables, indexes with
  | Some e, _, _ => Err ("enable pgvector: " +:+ e)
  | None, Some e, _ => Err ("create vector tables: " +:+ e)
  | None, None, Some e => Err ("create HNSW indexes: " +:+ e)
  | None, None, None => Ok tt
  end.

(** [internal/brain/store.go:146-213] Migrate: its error, and whether vectors can be stored afterwards; what could
    be stored before stays so *)
Definition Migrate (ready : bool) (states artifacts extension tables indexes : option string) : option string * bool :=
  match states, artifacts with
  | Some e, _ | None, Some e => (Some ("migrate: " +:+ e), ready)
  | None, None => (None, match migrateVectorTables extension tables indexes with Ok _ => true | Err _ => ready end)
  end.

(** ** States *)

Definition updated_state (s old : AgentState) : AgentState :=
  {| as_ID := as_ID old; as_AgentRunID := as_AgentRunID old; as_Phase := as_Phase s; as_Message := as_Message s;
     as_Prompt := as_Prompt s; as_RepoURL := as_RepoURL s; as_Branch := as_Branch s; as_TraceID := as_TraceID s;
     as_CreatedAt := as_CreatedAt old; as_UpdatedAt := as_UpdatedAt s; as_CompletedAt := as_CompletedAt s; as_Metadata := [] |}.

Definition without_metadata (s : AgentState) : AgentState := updated_state s s.

(** [internal/brain/store.go:283-302] SaveState *)
Definition SaveState (s : AgentState) : database -> database * option string :=
  exec "save state" (SaveState_ (as_AgentRunID s)) (fun d =>
    if known_run d (as_AgentRunID s) then
      Ok (with_states ((fun old => if String.eqb (as_AgentRunID old) (as_AgentRunID s) then updated_state s old else old) <$> db_states d) d)
    else if existsb (fun old => String.eqb (as_ID old) (as_ID s)) (db_states d) then
      Err ("duplicate key value violates unique constraint " +:+ Quote "agent_states_pkey")
    else Ok (with_states (db_states d ++ [without_metadata s]) d)).

(** [internal/brain/store.go:305-322] GetState *)
Definition GetState (run : string) (d : database) : result AgentState :=
  match query "get state" (GetState_ run) (fun d => List.find (fun s => String.eqb (as_AgentRunID s) run) (db_states d)) d with
  | Err e => Err e
  | Ok None => Err ("not found: agent state not found: " +:+ run)
  | Ok (Some s) => Ok s
  end.

(** [internal/brain/store.go:325-336] UpdatePhase *)
Definition UpdatePhase (run phase message : string) (d : database) : database * option string :=
  match exec "update phase" (UpdatePhase_ run) (fun d =>
      Ok (with_states ((fun s => if String.eqb (as_AgentRunID s) run then
          {| as_ID := as_ID s; as_AgentRunID := as_AgentRunID s; as_Phase := phase; as_Message := message; as_Prompt := as_Prompt s;
             as_RepoURL := as_RepoURL s; as_Branch := as_Branch s; as_TraceID := as_TraceID s; as_CreatedAt := as_CreatedAt s;
             as_UpdatedAt := pg_now pg; as_CompletedAt := as_CompletedAt s; as_Metadata := as_Metadata s |}
        else s) <$> db_states d) d)) d with
  | (d', None) => (d', if known_run d run then None else Some ("not found: agent state not found: " +:+ run))
  | r => r
  end.

(** [internal/brain/store.go:340-340] defaultListByPhaseLimit *)
Definition defaultListByPhaseLimit : nat := 500.

(** [internal/brain/store.go:344-370] ListByPhase *)
Definition ListByPhase (phase : string) : database -> result (list AgentState) :=
  query "list by phase" (ListByPhase_ phase) (fun d =>
    take defaultListByPhaseLimit (pg_by_time pg _ as_CreatedAt (filter (fun s => as_Phase s = phase) (db_states d)))).

(** ** Logs, diffs and spans *)

(** [internal/brain/store.go:375-383] SaveRunLog *)
Definition SaveRunLog (run content : string) : database -> database * option string :=
  exec "save run log" (SaveRunLog_ run) (fun d =>
    references d "run_logs" run (Ok (with_logs (db_logs d ++ [(run, content, pg_now pg)]) d))).

(** [internal/brain/store.go:386-394] SaveRunDiff *)
Definition SaveRunDiff (run span path patch : string) : database -> database * option string :=
  exec "save run diff" (SaveRunDiff_ run path) (fun d =>
    references d "run_diffs" run
      (Ok (with_diffs (db_diffs d ++ [{| rd_ID := pg_uuid pg (SaveRunDiff_ run path) (length (db_diffs d)); rd_AgentRunID := run;
                                         rd_SpanID := span; rd_FilePath := path; rd_Patch := patch; rd_CreatedAt := pg_now pg |}]) d))).

(** The row of a span; the parent is null or a UUID. *)
Definition span_row (s : statement) (run : string) (n : nat) (sp : TraceSpan M) : TraceSpan M :=
  {| bs_ID := pg_uuid pg s n; bs_AgentRunID := run; bs_ParentID := bs_ParentID sp; bs_Name := bs_Name sp; bs_Type := bs_Type sp;
     bs_StartTime := bs_StartTime sp; bs_EndTime := bs_EndTime sp; bs_Metadata := bs_Metadata sp; bs_CreatedAt := pg_now pg |}.

Definition parent_ok (sp : TraceSpan M) : bool := String.eqb (bs_ParentID sp) "" || pg_is_uuid pg (bs_ParentID sp).

Definition insert_spans (s : statement) (run : string) (l : list (TraceSpan M)) (d : database) : result database :=
  match List.find (fun sp => negb (parent_ok sp)) l with
  | Some sp => Err ("invalid input syntax for type uuid: " +:+ Quote (bs_ParentID sp))
  | None =>
      references d "run_spans" run
        (Ok (with_spans (db_spans d ++ imap (fun i sp => span_row s run (length (db_spans d) + i)%nat sp) l) d))
  end.

(** [internal/brain/store.go:397-416] SaveRunSpan *)
Definition SaveRunSpan (run : string) (sp : TraceSpan M) : database -> database * option string :=
  exec "save run span" (SaveRunSpan_ run) (insert_spans (SaveRunSpan_ run) run [sp]).

(** [internal/brain/store.go:420-463] SaveRunSpans: all of them or none *)
Definition SaveRunSpans (run : string) (l : list (TraceSpan M)) (d : database) : database * option string :=
  match l with
  | [] => (d, None)
  | _ => exec "batch insert run spans" (SaveRunSpans_ run) (insert_spans (SaveRunSpans_ run) run l) d
  end.

(** [internal/brain/store.go:466-489] GetRunLogs *)
Definition GetRunLogs (run : string) : database -> result string :=
  query "get run logs" (GetRunLogs_ run) (fun d =>
    Join ((fun r => r.1.2) <$> pg_by_time pg _ snd (filter (fun r => r.1.1 = run) (db_logs d))) newline).

(** [internal/brain/store.go:492-518] GetRunDiffs *)
Definition GetRunDiffs (run : string) : database -> result (list RunDiff) :=
  query "get run diffs" (GetRunDiffs_ run) (fun d =>
    pg_by_time pg _ rd_CreatedAt (filter (fun r => rd_AgentRunID r = run) (db_diffs d))).

(** [internal/brain/store.go:521-558] GetRunSpans *)
Definition GetRunSpans (run : string) : database -> result (list (TraceSpan M)) :=
  query "get run spans" (GetRunSpans_ run) (fun d =>
    pg_by_time pg _ bs_StartTime (filter (fun r => bs_AgentRunID r = run) (db_spans d))).

(** ** Chunks *)

(** [internal/brain/store.go:747-760] float32SliceToVectorLiteral *)
Definition float32SliceToVectorLiteral (v : list F) : string := "[" +:+ Join (print_float <$> v) "," +:+ "]".

(** [internal/brain/store.go:763-768] nilIfEmpty *)
Definition nilIfEmpty (s : string) : option string := if String.eqb s "" then None else Some s.

(** [internal/brain/store.go:771-778] envInt: [v] is the variable's value, empty when it is not set *)
Definition envInt (v : string) (defaultVal : Z) : Z :=
  match Atoi v with Some n => if (0 <? n)%Z then n else defaultVal | None => defaultVal end.

(** The dimension of the column. *)
Definition vector_dim : nat := 384.

(** What the tables ask of a chunk: the run, the diff or span if it has one, and the dimension. *)
Definition chunk_error (d : database) (table run : string) (ref : option string) (known : string -> bool) (v : list F) : option string :=
  if negb (known_run d run) then Some ("insert or update on table " +:+ Quote table +:+ " violates foreign key constraint")
  else if match ref with Some id => negb (pg_is_uuid pg id) | None => false end then
    Some ("invalid input syntax for type uuid: " +:+ Quote (default "" ref))
  else if match ref with Some id => negb (known id) | None => false end then
    Some ("insert or update on table " +:+ Quote table +:+ " violates foreign key constraint")
  else if negb (Nat.eqb (length v) vector_dim) then Some ("expected 384 dimensions, not " +:+ Itoa (Z.of_nat (length v)))
  else None.

Section batch.
Context {R : Type}.
Variable what : string.
Variable statement_of : nat -> statement.
Variable error_of : database -> R -> option string.
Variable literal_of : R -> string.

(** [internal/brain/store.go:577-586] SaveCodeChunks: the rows one after the other, in a transaction *)
Fixpoint insert_chunks (d : database) (n i : nat) (l : list R) (acc : list (chunk_row R)) : result (list (chunk_row R)) :=
  match l with
  | [] => Ok acc
  | r :: l =>
      match pg_error pg (statement_of i), error_of d r with
      | Some e, _ | None, Some e => Err (what +:+ e)
      | None, None =>
          insert_chunks d n (S i) l
            (acc ++ [{| ck_ID := pg_uuid pg (statement_of i) (n + i)%nat; ck_Record := r; ck_Literal := literal_of r; ck_CreatedAt := pg_now pg |}])
      end
  end.
End batch.

(** A transaction: the tables are what they were unless it is committed. *)
Definition transaction {R} (saved insert : string) (statement_of : nat -> statement) (error_of : database -> R -> option string)
    (literal_of : R -> string) (rows : database -> list (chunk_row R)) (put : list (chunk_row R) -> database -> database)
    (ready : bool) (l : list R) (d : database) : database * option string :=
  if negb ready then (d, Some "failed: pgvector not available")
  else match l with
  | [] => (d, None)
  | _ =>
      match pg_error pg Begin_ with
      | Some e => (d, Some ("begin transaction: " +:+ e))
      | None =>
          match insert_chunks insert statement_of error_of literal_of d (length (rows d)) 0 l (rows d) with
          | Err e => (d, Some e)
          | Ok rows => match pg_error pg Commit_ with Some e => (d, Some (saved +:+ e)) | None => (put rows d, None) end
          end
      end
  end.

(** [internal/brain/store.go:563-591] SaveCodeChunks *)
Definition SaveCodeChunks : bool -> list (CodeChunkRecord F) -> database -> database * option string :=
  transaction "save code chunks: " "insert code chunk: " InsertCode_
    (fun d c => chunk_error d "code_chunks" (cc_AgentRunID c) (nilIfEmpty (cc_DiffID c)) (fun id => existsb (fun r => String.eqb (rd_ID r) id) (db_diffs d)) (cc_Embedding c))
    (fun c => float32SliceToVectorLiteral (cc_Embedding c)) db_code with_code.

(** [internal/brain/store.go:594-622] SaveTraceChunks *)
Definition SaveTraceChunks : bool -> list (TraceChunkRecord F) -> database -> database * option string :=
  transaction "save trace chunks: " "insert trace chunk: " InsertTrace_
    (fun d c => chunk_error d "trace_chunks" (tc_AgentRunID c) (nilIfEmpty (tc_SpanID c)) (fun id => existsb (fun r => String.eqb (bs_ID r) id) (db_spans d)) (tc_Embedding c))
    (fun c => float32SliceToVectorLiteral (tc_Embedding c)) db_trace with_trace.

(** ** Search *)

(** [internal/brain/store.go:645-659] SearchCodeChunks: the conditions, one for each argument that is given *)
Definition matching {R} (repo_of : R -> string) (repo : string) (after before : option time) (r : chunk_row R) : bool :=
  (String.eqb repo "" || String.eqb (repo_of (ck_Record r)) repo) &&
  match after with Some t => (t <=? ck_CreatedAt r)%Z | None => true end &&
  match before with Some t => (ck_CreatedAt r <=? t)%Z | None => true end.

Definition search {R} (what : string) (s : statement) (rows : database -> list (chunk_row R)) (repo_of : R -> string)
    (ready : bool) (v : list F) (repo : string) (limit : Z) (after before : option time) (d : database) : result (list (chunk_row R * D)) :=
  if negb ready then Err "failed: pgvector not available"
  else
    let limit := if (limit <=? 0)%Z then 10%Z else limit in
    query what s (fun d =>
      pg_nearest pg R (float32SliceToVectorLiteral v) (Z.to_nat limit) (filter (fun r => matching repo_of repo after before r = true) (rows d))) d.

(** [internal/brain/store.go:627-683] SearchCodeChunks *)
Definition SearchCodeChunks : bool -> list F -> string -> Z -> option time -> option time -> database ->
    result (list (chunk_row (CodeChunkRecord F) * D)) :=
  search "search code chunks" SearchCode_ db_code cc_RepoURL.

(** [internal/brain/store.go:686-742] SearchTraceChunks *)
Definition SearchTraceChunks : bool -> list F -> string -> Z -> option time -> option time -> database ->
    result (list (chunk_row (TraceChunkRecord F) * D)) :=
  search "search trace chunks" SearchTrace_ db_trace tc_RepoURL.

(** ** The searcher *)

(** [internal/brain/search.go:23-30] SearchQuery *)
Record SearchQuery := {
  sq_QueryVec : list F; sq_RepoURL : string; sq_SourceFilter : string; sq_CreatedAfter : option time; sq_CreatedBefore : option time; sq_Limit : Z;
}.

(** [internal/brain/search.go:33-46] SearchResult: [D] are numbers of 64 bits *)
Record SearchResult := {
  sr_ChunkText : string; sr_SourceType : string; sr_Similarity : D; sr_BoostedScore : D; sr_AgentRunID : string; sr_FilePath : string;
  sr_Language : string; sr_NodeType : string; sr_ChunkType : string; sr_Severity : string; sr_RepoURL : string; sr_CreatedAt : time;
}.

(** [s * float64(b)], and the sorting by a score, the largest first, in any order among equal ones. *)
Variable boosted : D -> F -> D.
Variable best_first : list SearchResult -> list SearchResult.

(** [internal/brain/search.go:80-91] Search: a result from code *)
Definition code_result (r : chunk_row (CodeChunkRecord F) * D) : SearchResult :=
  let c := ck_Record r.1 in
  {| sr_ChunkText := cc_ChunkText c; sr_SourceType := "code"; sr_Similarity := r.2; sr_BoostedScore := boosted r.2 (cc_Boost c);
     sr_AgentRunID := cc_AgentRunID c; sr_FilePath := cc_FilePath c; sr_Language := cc_Language c; sr_NodeType := cc_NodeType c;
     sr_ChunkType := ""; sr_Severity := ""; sr_RepoURL := cc_RepoURL c; sr_CreatedAt := ck_CreatedAt r.1 |}.

(** [internal/brain/search.go:102-112] Search: a result from a trace *)
Definition trace_result (r : chunk_row (TraceChunkRecord F) * D) : SearchResult :=
  let c := ck_Record r.1 in
  {| sr_ChunkText := tc_ChunkText c; sr_SourceType := "trace"; sr_Similarity := r.2; sr_BoostedScore := r.2;
     sr_AgentRunID := tc_AgentRunID c; sr_FilePath := ""; sr_Language := ""; sr_NodeType := "";
     sr_ChunkType := tc_ChunkType c; sr_Severity := tc_Severity c; sr_RepoURL := tc_RepoURL c; sr_CreatedAt := ck_CreatedAt r.1 |}.

(** [internal/brain/search.go:60-127] Search *)
Definition Search_ (ready : bool) (q : SearchQuery) (d : database) : result (list SearchResult) :=
  let limit := if (sq_Limit q <=? 0)%Z then 10%Z else Z.min (sq_Limit q) 100 in
  let wants source := String.eqb (sq_SourceFilter q) "" || String.eqb (sq_SourceFilter q) source in
  if negb (wants "code") && negb (wants "trace") then
    Err ("invalid input: invalid SourceFilter " +:+ Quote (sq_SourceFilter q) +:+ ": must be empty, " +:+ Quote "code" +:+ ", or " +:+ Quote "trace")
  else
    try code := if wants "code" then SearchCodeChunks ready (sq_QueryVec q) (sq_RepoURL q) limit (sq_CreatedAfter q) (sq_CreatedBefore q) d else Ok [] in
    try trace := if wants "trace" then SearchTraceChunks ready (sq_QueryVec q) (sq_RepoURL q) limit (sq_CreatedAfter q) (sq_CreatedBefore q) d else Ok [] in
    Ok (take (Z.to_nat limit) (best_first ((code_result <$> code) ++ (trace_result <$> trace)))).
End store.
