(* ===== verification/Knowledge.v ===== *)
(** * What runs leave for later runs: [internal/embeddings/embedder.go] and
    [internal/temporal/knowledge_activities.go].

    A text is cut into chunks, each chunk gets a vector from a service, and the vectors are stored; a later run
    asks for the chunks near to its prompt.  The sidecar's answers, the service, the database's surroundings and
    numbers with a point are parameters. *)

From S2P Require Import Prelude GoStrings ApiTypes TemporalTypes Json JsonDecode VerifyRun Shell Brain.
Local Open Scope unc_scope.

(** ** Chunks *)

(** A line break twice. *)
Definition blank_line : string := newline +:+ newline.

(** [strings.Split] at blank lines. *)
Fixpoint split_paragraphs (s : string) : list string :=
  match s with
  | "" => [""]
  | String c s' =>
      match s' with
      | String c' t =>
          if Ascii.eqb c "010" && Ascii.eqb c' "010" then "" :: split_paragraphs t
          else match split_paragraphs s' with p :: ps => String c p :: ps | [] => [s] end
      | "" => [s]
      end
  end.

(** [internal/embeddings/embedder.go:293-300] estimateTokens: the quotient by 0.75 is rounded, and so not moved
    over an integer *)
Definition estimateTokens (text : string) : Z := Z.max 1 (4 * Z.of_nat (length (Fields text)) / 3).

(** [internal/embeddings/embedder.go:303-310] getOverlapText *)
Definition getOverlapText (text : string) (overlapTokens : Z) : string :=
  let words := Fields text in
  let overlapWords := Z.to_nat (3 * overlapTokens / 4) in
  if (length words <=? overlapWords)%nat then text
  else Join (drop (length words - overlapWords) words) " ".

(** The text of the chunk so far, with another paragraph. *)
Definition append_paragraph (current para : string) : string :=
  (if String.eqb current "" then "" else current +:+ blank_line) +:+ para.

(** The chunks, the text of the next one, and its tokens. *)
Record chunking := { ch_chunks : list string; ch_current : string; ch_tokens : Z }.

Definition no_chunks : chunking := {| ch_chunks := []; ch_current := ""; ch_tokens := 0 |}.

(** [internal/embeddings/embedder.go:144-165] ChunkText: a paragraph *)
Definition add_paragraph (maxTokens overlapTokens : Z) (s : chunking) (para : string) : chunking :=
  let para := TrimSpace para in
  if String.eqb para "" then s
  else
    let paraTokens := estimateTokens para in
    let s :=
      if (maxTokens <? ch_tokens s + paraTokens)%Z && (0 <? ch_tokens s)%Z then
        let overlap := getOverlapText (ch_current s) overlapTokens in
        {| ch_chunks := ch_chunks s ++ [TrimSpace (ch_current s)]; ch_current := overlap; ch_tokens := estimateTokens overlap |}
      else s in
    {| ch_chunks := ch_chunks s; ch_current := append_paragraph (ch_current s) para; ch_tokens := ch_tokens s + paraTokens |}.

(** [internal/embeddings/embedder.go:131-172] ChunkText *)
Definition ChunkText (content : string) (maxTokens overlapTokens : Z) : list string :=
  let maxTokens := if (maxTokens <=? 0)%Z then 512%Z else maxTokens in
  let overlapTokens := if (overlapTokens <=? 0)%Z then 64%Z else overlapTokens in
  let s := foldl (add_paragraph maxTokens overlapTokens) no_chunks (split_paragraphs content) in
  ch_chunks s ++ (if String.eqb (ch_current s) "" then [] else [TrimSpace (ch_current s)]).

(** [internal/embeddings/embedder.go:241-290] detectNodeType *)
Definition detectNodeType (text language : string) : string :=
  let lower := ToLower text in
  let one_of l := existsb (String.eqb language) l in
  if String.eqb (TrimSpace text) "" then "whitespace"
  else if HasPrefix lower "import " || HasPrefix lower "from " || Contains lower "require(" || HasPrefix lower "use " then "import"
  else if one_of ["go"] then
    if Contains text "func " then "function"
    else if Contains text "type " && Contains text "struct" then "struct" else "block"
  else if one_of ["python"] then
    if HasPrefix (TrimSpace text) "def " then "function"
    else if HasPrefix (TrimSpace text) "class " then "class" else "block"
  else if one_of ["javascript"; "typescript"; "tsx"; "jsx"] then
    if Contains text "function " || Contains text "=> {" || Contains text "=> (" then "function"
    else if Contains text "class " then "class" else "block"
  else
    if Contains lower "func " || Contains lower "function " || Contains lower "def " then "function"
    else if Contains lower "class " then "class" else "block".

(** [internal/embeddings/embedder.go:176-179] CodeChunk *)
Record CodeChunk := { co_Text : string; co_NodeType : string }.

Definition code_chunk (language text : string) : CodeChunk :=
  let text := TrimSpace text in {| co_Text := text; co_NodeType := detectNodeType text language |}.

(** [internal/embeddings/embedder.go:189-211] ChunkCodeSimple: a block *)
Definition add_block (s : chunking) (block : string) : chunking :=
  let block := TrimSpace block in
  if String.eqb block "" then s
  else
    let blockTokens := estimateTokens block in
    let s :=
      if (512 <? ch_tokens s + blockTokens)%Z && (0 <? ch_tokens s)%Z then
        {| ch_chunks := ch_chunks s ++ [ch_current s]; ch_current := ""; ch_tokens := 0 |}
      else s in
    {| ch_chunks := ch_chunks s; ch_current := append_paragraph (ch_current s) block; ch_tokens := ch_tokens s + blockTokens |}.

(** [internal/embeddings/embedder.go:183-222] ChunkCodeSimple *)
Definition ChunkCodeSimple (content language : string) : list CodeChunk :=
  let s := foldl add_block no_chunks (split_paragraphs content) in
  code_chunk language <$> (ch_chunks s ++ (if String.eqb (ch_current s) "" then [] else [ch_current s])).

(** [internal/embeddings/embedder.go:225-238] BoostForNodeType: in tenths *)
Definition BoostForNodeType (nodeType : string) : Z :=
  let one_of l := existsb (String.eqb nodeType) l in
  if one_of ["function"; "method"] then 10
  else if one_of ["class"; "struct"] then 9
  else if one_of ["import"] then 3
  else if one_of ["whitespace"] then 1
  else 7.

(** [internal/temporal/knowledge_activities.go:404-435] detectLanguage *)
Definition detectLanguage (filePath : string) : string :=
  match List.find (fun e => HasSuffix filePath e.1)
    [(".go", "go"); (".py", "python"); (".ts", "typescript"); (".tsx", "tsx"); (".js", "javascript"); (".jsx", "jsx"); (".rs", "rust");
     (".java", "java"); (".rb", "ruby"); (".sh", "bash"); (".bash", "bash"); (".yaml", "yaml"); (".yml", "yaml"); (".json", "json");
     (".sql", "sql")] with
  | Some (_, language) => language
  | None => ""
  end.

(** A single quote ends the quoted part, is written behind a backslash, and begins another one. *)
Fixpoint escape_quotes (s : string) : string :=
  match s with
  | "" => ""
  | String c s => (if Ascii.eqb c "'" then "'\''" else String c "") +:+ escape_quotes s
  end.

(** [internal/temporal/knowledge_activities.go:361-363] shellescape *)
Definition shellescape (s : string) : string := "'" +:+ escape_quotes s +:+ "'".

(** ** The activities *)

(** [%.2f] of a similarity is a parameter; what is called outside the database is kept in order. *)
Inductive kcommand := KExec (command : string) (timeout : Z) | KEmbed (text : string).

(** What surrounds an activity. *)
Record surroundings (F D M : Type) := {
  su_store : bool;
  (** whether vectors can be stored *)
  su_ready : bool;
  su_embedder : bool;
  su_postgres : postgres (D := D);
  su_exec : string -> exec_answer;
  su_embed : string -> result (list F);
  su_print : F -> string;
  su_print_2 : D -> string;
  (** the boost in tenths as a number *)
  su_boost : Z -> F;
  su_now : time;
  su_time : string -> option time;
  su_metadata : dec M;
  su_no_metadata : M;
}.
Arguments su_store {F D M} s.
Arguments su_ready {F D M} s.
Arguments su_embedder {F D M} s.
Arguments su_postgres {F D M} s.
Arguments su_exec {F D M} s.
Arguments su_embed {F D M} s.
Arguments su_print {F D M} s.
Arguments su_print_2 {F D M} s.
Arguments su_boost {F D M} s.
Arguments su_now {F D M} s.
Arguments su_time {F D M} s.
Arguments su_metadata {F D M} s.
Arguments su_no_metadata {F D M} s.

Section activities.
Context {F D M : Type}.
Variable env : surroundings F D M.

Notation db := (database (F := F) (M := M)).
(** An activity; a panic ends it early. *)
Notation K A := (shell db kcommand string A).
Notation pg := (su_postgres env).

Definition ExecCommand (command : string) (timeout : Z) : K exec_answer :=
  Shell.command (fun d _ => (d, su_exec env command)) (KExec command timeout).

Definition Embed (text : string) : K (result (list F)) :=
  Shell.command (fun d _ => (d, su_embed env text)) (KEmbed text).

(** A statement, whose error is only logged. *)
Definition save (op : db -> db * option string) : K (option string) := fun s =>
  let '(d, e) := op (m_state s) in ({| m_state := d; m_log := m_log s |}, inl e).

Definition load {A} (op : db -> result A) : K (result A) := fun s => (s, inl (op (m_state s))).

(** The output of a command that ended well with some output. *)
Definition output (a : exec_answer) : option string :=
  match a with Exits 0 out _ => if String.eqb out "" then None else Some out | _ => None end.

(** [internal/temporal/knowledge_activities.go:85-92] PersistRunData: a line of the spans *)
Record raw_span := {
  rw_Name : string; rw_Type : string; rw_ParentID : string; rw_StartTime : string; rw_EndTime : string; rw_Metadata : M;
}.

Definition zero_span : raw_span :=
  {| rw_Name := ""; rw_Type := ""; rw_ParentID := ""; rw_StartTime := ""; rw_EndTime := ""; rw_Metadata := su_no_metadata env |}.

Definition with_rw n t p st e m : raw_span :=
  {| rw_Name := n; rw_Type := t; rw_ParentID := p; rw_StartTime := st; rw_EndTime := e; rw_Metadata := m |}.

Definition dec_span : dec raw_span := dec_struct
  [("name", at_field rw_Name (fun x r => with_rw x (rw_Type r) (rw_ParentID r) (rw_StartTime r) (rw_EndTime r) (rw_Metadata r)) dec_string);
   ("type", at_field rw_Type (fun x r => with_rw (rw_Name r) x (rw_ParentID r) (rw_StartTime r) (rw_EndTime r) (rw_Metadata r)) dec_string);
   ("parent_id", at_field rw_ParentID (fun x r => with_rw (rw_Name r) (rw_Type r) x (rw_StartTime r) (rw_EndTime r) (rw_Metadata r)) dec_string);
   ("start_time", at_field rw_StartTime (fun x r => with_rw (rw_Name r) (rw_Type r) (rw_ParentID r) x (rw_EndTime r) (rw_Metadata r)) dec_string);
   ("end_time", at_field rw_EndTime (fun x r => with_rw (rw_Name r) (rw_Type r) (rw_ParentID r) (rw_StartTime r) x (rw_Metadata r)) dec_string);
   ("metadata", at_field rw_Metadata (fun x r => with_rw (rw_Name r) (rw_Type r) (rw_ParentID r) (rw_StartTime r) (rw_EndTime r) x) (su_metadata env))].

(** [internal/temporal/knowledge_activities.go:98-112] PersistRunData: the span of a line *)
Definition span_of (raw : raw_span) : TraceSpan M :=
  {| bs_ID := ""; bs_AgentRunID := ""; bs_ParentID := rw_ParentID raw; bs_Name := rw_Name raw; bs_Type := rw_Type raw;
     bs_StartTime := default (su_now env) (su_time env (rw_StartTime raw));
     bs_EndTime := if String.eqb (rw_EndTime raw) "" then None else su_time env (rw_EndTime raw);
     bs_Metadata := rw_Metadata raw; bs_CreatedAt := 0%Z |}.

(** The lines of a text as [bufio.Scanner] reads them, up to one that is longer than its buffer. *)
Fixpoint scanned (lines : list string) : list string :=
  match lines with
  | [] | [""] => []
  | l :: lines => if (65536 <=? Z.of_nat (String.length l))%Z then [] else TrimSuffix l (String "013" "") :: scanned lines
  end.

(** [internal/temporal/knowledge_activities.go:78-114] PersistRunData: the spans of the file *)
Definition read_spans (text : string) : list (TraceSpan M) :=
  omap (fun line => if String.eqb line "" then None else span_of <$> Unmarshal zero_span dec_span line) (scanned (Split text "010")).

(** [internal/temporal/knowledge_activities.go:135-150] PersistRunData: the files of the directory one after the other *)
Fixpoint save_diffs (run dir : string) (names : list string) : K unit :=
  match names with
  | [] => mret ()
  | name :: names =>
      let name := TrimSpace name in
      if String.eqb name "" then save_diffs run dir names
      else
        a ← ExecCommand ("cat " +:+ dir +:+ "/" +:+ name) 15;
        match a with
        | Exits 0 patch _ => _ ← save (SaveRunDiff pg run "" name patch); save_diffs run dir names
        | _ => save_diffs run dir names
        end
  end.

(** [internal/temporal/knowledge_activities.go:39-159] PersistRunData *)
Definition PersistRunData (input : PersistRunDataInput) : K unit :=
  if negb (su_store env) then mret ()
  else if String.eqb (pr_PodIP input) "" then mret ()
  else
    let run := pr_AgentRunID input in
    log ← ExecCommand ("cat " +:+ pr_WorkspacePath input +:+ "/.aot/logs/agent.log") 30;
    _ ← match output log with Some content => save (SaveRunLog pg run content) | None => mret None end;
    spans ← ExecCommand ("cat " +:+ pr_WorkspacePath input +:+ "/.aot/traces/spans.jsonl") 30;
    _ ← match output spans with
        | Some text => match read_spans text with [] => mret None | l => save (SaveRunSpans pg run l) end
        | None => mret None
        end;
    let dir := pr_WorkspacePath input +:+ "/.aot/diffs" in
    ls ← ExecCommand ("ls -1 " +:+ dir +:+ " 2>/dev/null") 15;
    match output ls with Some names => save_diffs run dir (Split (TrimSpace names) "010") | None => mret () end.

(** [internal/temporal/knowledge_activities.go:191-207] EmbedRunData: the chunks of a diff *)
Fixpoint embed_code (run repo : string) (diff : RunDiff) (chunks : list CodeChunk) (acc : list (CodeChunkRecord F)) : K (result (list (CodeChunkRecord F))) :=
  match chunks with
  | [] => mret (Ok acc)
  | c :: chunks =>
      v ← Embed (co_Text c);
      match v with
      | Err e => mret (Err ("embed code chunk: " +:+ e))
      | Ok v =>
          embed_code run repo diff chunks (acc ++
            [{| cc_AgentRunID := run; cc_DiffID := rd_ID diff; cc_ChunkText := co_Text c; cc_FilePath := rd_FilePath diff;
                cc_Language := detectLanguage (rd_FilePath diff); cc_NodeType := co_NodeType c; cc_RepoURL := repo;
                cc_Boost := su_boost env (BoostForNodeType (co_NodeType c)); cc_Embedding := v |}])
      end
  end.

(** [internal/temporal/knowledge_activities.go:188-208] EmbedRunData: the diffs one after the other *)
Fixpoint embed_diffs (run repo : string) (diffs : list RunDiff) (acc : list (CodeChunkRecord F)) : K (result (list (CodeChunkRecord F))) :=
  match diffs with
  | [] => mret (Ok acc)
  | d :: diffs =>
      r ← embed_code run repo d (ChunkCodeSimple (rd_Patch d) (detectLanguage (rd_FilePath d))) acc;
      match r with Ok acc => embed_diffs run repo diffs acc | Err e => mret (Err e) end
  end.

(** [internal/temporal/knowledge_activities.go:225-240] EmbedRunData: the chunks of the log *)
Fixpoint embed_log (run repo : string) (chunks : list string) (acc : list (TraceChunkRecord F)) : K (result (list (TraceChunkRecord F))) :=
  match chunks with
  | [] => mret (Ok acc)
  | text :: chunks =>
      v ← Embed text;
      match v with
      | Err e => mret (Err ("embed trace chunk: " +:+ e))
      | Ok v =>
          embed_log run repo chunks (acc ++
            [{| tc_AgentRunID := run; tc_SpanID := ""; tc_ChunkText := text; tc_ChunkType := "log"; tc_Severity := "";
                tc_RepoURL := repo; tc_Embedding := v |}])
      end
  end.

(** [internal/temporal/knowledge_activities.go:169-249] EmbedRunData: the error of the activity *)
Definition EmbedRunData (input : EmbedRunDataInput) : K (result unit) :=
  if negb (su_store env && su_embedder env) then mret (Ok ())
  else if negb (su_ready env) then mret (Ok ())
  else
    let run := er_AgentRunID input in
    diffs ← load (GetRunDiffs pg run);
    code ← match diffs with
           | Err _ => mret (Ok ())
           | Ok diffs =>
               r ← embed_diffs run (er_RepoURL input) diffs [];
               match r with
               | Err e => mret (Err e)
               | Ok [] => mret (Ok ())
               | Ok chunks => _ ← save (SaveCodeChunks (su_print env) pg (su_ready env) chunks); mret (Ok ())
               end
           end;
    match code with
    | Err e => mret (Err e)
    | Ok _ =>
        log ← load (GetRunLogs pg run);
        match log with
        | Err _ | Ok "" => mret (Ok ())
        | Ok content =>
            r ← embed_log run (er_RepoURL input) (ChunkText content 512 64) [];
            match r with
            | Err e => mret (Err e)
            | Ok [] => mret (Ok ())
            | Ok chunks => _ ← save (SaveTraceChunks (su_print env) pg (su_ready env) chunks); mret (Ok ())
            end
        end
    end.

(** [internal/temporal/knowledge_activities.go:366-401] formatContextFile *)
Definition formatContextFile (code : list (chunk_row (CodeChunkRecord F) * D)) (traces : list (chunk_row (TraceChunkRecord F) * D)) : string :=
  let nl2 := blank_line in
  let fence := "```" in
  let code_part := match code with
    | [] => ""
    | _ => "## Relevant Code Changes" +:+ nl2 +:+ Join ((fun r : chunk_row (CodeChunkRecord F) * D => let c := ck_Record r.1 in
        "### " +:+ cc_FilePath c +:+ " (run: " +:+ cc_AgentRunID c +:+ ", similarity: " +:+ su_print_2 env r.2 +:+ ")" +:+ nl2 +:+
        fence +:+ cc_Language c +:+ newline +:+ cc_ChunkText c +:+ newline +:+ fence +:+ nl2) <$> code) ""
    end in
  let trace_part := match traces with
    | [] => ""
    | _ => "## Relevant Logs & Traces" +:+ nl2 +:+ Join ((fun r : chunk_row (TraceChunkRecord F) * D => let c := ck_Record r.1 in
        "### Run: " +:+ tc_AgentRunID c +:+ " (type: " +:+ tc_ChunkType c +:+ ", similarity: " +:+ su_print_2 env r.2 +:+ ")" +:+ nl2 +:+
        tc_ChunkText c +:+ nl2) <$> traces) ""
    end in
  let b := "# Past Work Context" +:+ nl2 +:+ "This file contains relevant past work from previous agent runs." +:+ newline +:+
    "Use this context to avoid repeating past mistakes and build on previous solutions." +:+ nl2 +:+ code_part +:+ trace_part in
  if (32000 <? Z.of_nat (String.length b))%Z then str_take (Z.to_nat 32000) b +:+ nl2 +:+ "... (truncated)" +:+ newline else b.

(** [internal/temporal/knowledge_activities.go:270-355] HydrateContext: an error of the call that writes the file is
    logged with the output of an answer that is not there *)
Definition HydrateContext (input : HydrateContextInput) : K (result HydrateContextOutput) :=
  let nothing := Ok {| hc_ContextWritten := false |} in
  if negb (su_store env && su_embedder env) then mret nothing
  else if negb (su_ready env) then mret nothing
  else if String.eqb (hc_PodIP input) "" then mret nothing
  else
    v ← Embed (hc_Prompt input);
    match v with
    | Err e => mret (Err ("embed prompt for context hydration: " +:+ e))
    | Ok v =>
        let topK := if String.eqb (hc_AgentType input) "senior" || String.eqb (hc_AgentType input) "orchestrator" then 25%Z else 10%Z in
        code ← load (SearchCodeChunks (su_print env) pg (su_ready env) v (hc_RepoURL input) topK None None);
        traces ← load (SearchTraceChunks (su_print env) pg (su_ready env) v (hc_RepoURL input) topK None None);
        let rows {A} (r : result (list A)) := match r with Ok l => l | Err _ => [] end in
        match rows code, rows traces with
        | [], [] => mret nothing
        | code, traces =>
            let dir := hc_WorkspacePath input +:+ "/.aot/context" in
            mkdir ← ExecCommand ("mkdir -p " +:+ dir) 10;
            match mkdir with
            | Exits 0 _ _ =>
                written ← ExecCommand ("printf '%s' " +:+ shellescape (formatContextFile code traces) +:+ " > " +:+ dir +:+ "/past-work.md") 15;
                match written with
                | Exits 0 _ _ => mret (Ok {| hc_ContextWritten := true |})
                | Exits _ _ _ => mret nothing
                | ExecFails _ => return_ "invalid memory address or nil pointer dereference"
                end
            | _ => mret nothing
            end
        end
    end.
End activities.

(** ** The service of the vectors *)

(** [internal/embeddings/embedder.go:28-34] DefaultOllamaURL, DefaultModel, EmbeddingDim *)
Definition DefaultOllamaURL : string := "http://ollama:11434".
Definition DefaultModel : string := "qwen2.5:0.5b".
Definition EmbeddingDim : nat := 384.

(** A service and its model. *)
Record Embedder := { eb_baseURL : string; eb_model : string }.

(** [internal/embeddings/embedder.go:48-63] NewEmbedder *)
Definition NewEmbedder (baseURL model : string) : Embedder :=
  {| eb_baseURL := TrimRight (if String.eqb baseURL "" then DefaultOllamaURL else baseURL) "/";
     eb_model := if String.eqb model "" then DefaultModel else model |}.

(** Numbers as they are written; one that is out of range is not told from the others. *)
Definition dec_number : dec string := fun cur v =>
  match v with JNull => (cur, true) | JNum lit => (lit, true) | _ => (cur, false) end.

Definition dec_embeddings : dec (list (list string)) := dec_struct [("embeddings", dec_list [] (dec_list "0" dec_number))].

Section embed.
Context {F : Type}.
Variable to_float32 : string -> F.
(** the answer to a request at an address, about a model and a text: its status and its body *)
Variable ask : string -> string -> string -> result (Z * result string).

(** [internal/embeddings/embedder.go:77-127] Embed *)
Definition embed (e : Embedder) (text : string) : result (list F) :=
  match ask (eb_baseURL e +:+ "/api/embed") (eb_model e) text with
  | Err err => Err ("embed request: " +:+ err)
  | Ok (_, Err err) => Err ("read embed response: " +:+ err)
  | Ok (status, Ok body) =>
      if negb (status =? 200)%Z then Err ("failed: embed request failed (status " +:+ Itoa status +:+ "): " +:+ body)
      else match Unmarshal [] dec_embeddings body with
      | None => Err "unmarshal embed response"
      | Some [] => Err "failed: no embeddings returned"
      | Some (raw :: _) =>
          if negb (Nat.eqb (length raw) EmbeddingDim) then
            Err ("invalid input: unexpected embedding dimension: got " +:+ Itoa (Z.of_nat (length raw)) +:+ ", want 384")
          else Ok (to_float32 <$> raw)
      end
  end.
End embed.

(** * Properties *)

(** ** Quoting *)

(** A word as a shell reads it that is only made of parts in single quotes and of single quotes behind a backslash:
    what it stands for. *)
Fixpoint shell_word (quoted : bool) (s : string) : option string :=
  match s with
  | "" => if quoted then None else Some ""
  | String c s' =>
      if Ascii.eqb c "'" then shell_word (negb quoted) s'
      else if quoted then String c <$> shell_word true s'
      else match s' with
           | String c' t => if Ascii.eqb c "\" && Ascii.eqb c' "'" then String "'" <$> shell_word false t else None
           | "" => None
           end
  end.

(** What is quoted is one word, and the shell reads the text again. *)
Lemma shellescape_reads_back s : shell_word false (shellescape s) = Some s.
Proof.
  change (shell_word true (escape_quotes s +:+ "'") = Some s).
  induction s as [|c s IH]; [done|]. cbn [escape_quotes]. destruct (Ascii.eqb_spec c "'") as [->|Hc].
  - cbn [shell_word String.append]. cbn. by rewrite IH.
  - apply Ascii.eqb_neq in Hc. cbn. by rewrite Hc, IH.
Qed.

(** ** Chunks *)

(** A text that begins and ends with a byte that is no space. *)
Definition firm (s : string) : Prop :=
  (exists c t, s = String c t /\ is_space c = false) /\ (exists t c, s = t +:+ String c "" /\ is_space c = false).

Lemma TrimRightFunc_snoc P s c : P c = false -> TrimRightFunc P (s +:+ String c "") = s +:+ String c "".
Proof. intros Hc. induction s as [|d s IH]; cbn; [by rewrite Hc|]. rewrite IH. by destruct s. Qed.

Lemma TrimRightFunc_last P s : TrimRightFunc P s = "" \/ exists t c, TrimRightFunc P s = t +:+ String c "" /\ P c = false.
Proof.
  induction s as [|d s IH]; cbn; [by left|]. destruct IH as [->|(t & c & -> & Hc)].
  - destruct (P d) eqn:E; [by left|]. right. by exists "", d.
  - right. exists (String d t), c. split; [|done]. by destruct t.
Qed.

Lemma TrimSpace_firm s : firm s -> TrimSpace s = s.
Proof.
  intros [(c & t & -> & Hc) (t' & c' & E & Hc')]. unfold TrimSpace, TrimFunc. cbn [TrimLeftFunc]. rewrite Hc, E.
  by apply TrimRightFunc_snoc.
Qed.

Lemma TrimSpace_makes_firm s : TrimSpace s <> "" -> firm (TrimSpace s).
Proof.
  intros Hn. split.
  - destruct (TrimSpace s) as [|c t] eqn:E; [done|]. exists c, t. split; [done|]. by eapply TrimFunc_head.
  - unfold TrimSpace, TrimFunc in *. by destruct (TrimRightFunc_last is_space (TrimLeftFunc is_space s)).
Qed.

Lemma firm_between a m b : firm a -> firm b -> firm (a +:+ m +:+ b).
Proof.
  intros [(c & t & -> & Hc) _] [_ (t' & c' & -> & Hc')]. split; [by eexists _, _|].
  exists (String c t +:+ m +:+ t'), c'. by rewrite !str_app_assoc.
Qed.

Lemma Join_snoc l x sep : l <> [] -> Join (l ++ [x]) sep = Join l sep +:+ sep +:+ x.
Proof.
  intros Hl. induction l as [|y [|z l] IH]; [done|done|]. cbn [app Join] in *. rewrite IH by done. by rewrite !str_app_assoc.
Qed.

Lemma Join_firm l : l <> [] -> Forall firm l -> firm (Join l blank_line).
Proof.
  intros Hn Hl. induction Hl as [|x [|y l] Hx Hl IH]; [done|done|]. cbn [Join] in *. apply firm_between; [done|]. by apply IH.
Qed.

(** The paragraphs of a text that are not blank. *)
Definition paragraphs (content : string) : list string :=
  filter (.≠ "") (TrimSpace <$> split_paragraphs content).

Definition tokens (group : list string) : Z := foldr Z.add 0%Z (estimateTokens <$> group).

Lemma estimateTokens_pos text : (1 <= estimateTokens text)%Z.
Proof. apply Z.le_max_l. Qed.

Lemma tokens_snoc g x : tokens (g ++ [x]) = (tokens g + estimateTokens x)%Z.
Proof. unfold tokens. rewrite fmap_app. induction g as [|y g IH]; cbn in *; lia. Qed.

Lemma tokens_pos g : (0 <? tokens g)%Z = negb (bool_decide (g = [])).
Proof.
  destruct g as [|x g]; [done|]. cbn. apply Z.ltb_lt. pose proof (estimateTokens_pos x).
  assert (forall l, 0 <= tokens l)%Z as Hl; [|specialize (Hl g); unfold tokens in Hl; lia].
  intros l. induction l as [|y l IH]; [done|]. unfold tokens in *. cbn. pose proof (estimateTokens_pos y). lia.
Qed.

(** A group of paragraphs that makes a chunk: of at most 512 tokens, unless it is one paragraph. *)
Definition chunk_group (g : list string) : Prop := g <> [] /\ ((tokens g <= 512)%Z \/ length g = 1).

(** What the loop over the blocks keeps. *)
Record grouped (s : chunking) (blocks : list string) (groups : list (list string)) (g : list string) : Prop := {
  gr_chunks : ch_chunks s = (fun g => Join g blank_line) <$> groups;
  gr_current : ch_current s = Join g blank_line;
  gr_tokens : ch_tokens s = tokens g;
  gr_blocks : concat groups ++ g = blocks;
  gr_firm : Forall firm blocks;
  gr_groups : Forall chunk_group groups;
  gr_group : g = [] \/ chunk_group g;
}.

Lemma append_group g b : Forall firm g -> append_paragraph (Join g blank_line) b = Join (g ++ [b]) blank_line.
Proof.
  intros Hg. unfold append_paragraph. destruct g as [|x g]; [done|].
  assert (firm (Join (x :: g) blank_line)) as [(c & t & E & _) _] by (by apply Join_firm).
  rewrite Join_snoc, E by done. cbn [String.eqb]. by rewrite str_app_assoc.
Qed.

Lemma add_block_grouped s blocks groups g block : grouped s blocks groups g ->
  exists groups' g', grouped (add_block s block) (blocks ++ filter (.≠ "") [TrimSpace block]) groups' g'.
Proof.
  intros [Hc Hcur Ht Hb Hf Hgs Hg]. unfold add_block. destruct (String.eqb_spec (TrimSpace block) "") as [E|E].
  { exists groups, g. rewrite filter_cons_False, filter_nil, app_nil_r by auto. by split. }
  rewrite filter_cons_True, filter_nil by done. pose proof (TrimSpace_makes_firm _ E) as Hfirm.
  set (b := TrimSpace block) in *. assert (Forall firm (blocks ++ [b])) as Hf' by (apply Forall_app; by rewrite Forall_singleton).
  rewrite Ht, tokens_pos. destruct (_ && _) eqn:Eb; cbn [ch_chunks ch_current ch_tokens].
  - apply andb_true_iff in Eb as [_ Hn%negb_true_iff%bool_decide_eq_false]. exists (groups ++ [g]), [b]. split; cbn [ch_chunks ch_current ch_tokens]; try done.
    + by rewrite fmap_app, Hc, Hcur.
    + unfold tokens. cbn. lia.
    + by rewrite concat_app, <- Hb; cbn; rewrite app_nil_r.
    + apply Forall_app. rewrite Forall_singleton. split; [done|]. by destruct Hg.
    + right. split; [done|]. by right.
  - exists groups, (g ++ [b]). rewrite <- Hb in Hf. apply Forall_app in Hf as [_ Hfg]. split; cbn [ch_chunks ch_current ch_tokens]; try done.
    + by rewrite Hcur, append_group.
    + by rewrite Ht, tokens_snoc.
    + by rewrite app_assoc, Hb.
    + right. split; [by destruct g|]. rewrite tokens_snoc. apply andb_false_iff in Eb as [Eb|Eb].
      * left. by apply Z.ltb_ge in Eb.
      * apply negb_false_iff, bool_decide_eq_true in Eb as ->. by right.
Qed.

Lemma add_blocks_grouped l : forall s blocks groups g, grouped s blocks groups g ->
  exists groups' g', grouped (foldl add_block s l) (blocks ++ filter (.≠ "") (TrimSpace <$> l)) groups' g'.
Proof.
  induction l as [|block l IH]; intros s blocks groups g H; [exists groups, g; by rewrite app_nil_r|].
  destruct (add_block_grouped _ _ _ _ block H) as (groups' & g' & H1). destruct (IH _ _ _ _ H1) as (groups'' & g'' & H2).
  exists groups'', g''. cbn [foldl]. by rewrite <- app_assoc, <- filter_app in H2.
Qed.

(** The chunks of code are the paragraphs in their order, put together in groups of at most 512 tokens; only a
    paragraph of its own may have more. *)
Lemma code_chunks_partition content language :
  exists groups, co_Text <$> ChunkCodeSimple content language = (fun g => Join g blank_line) <$> groups /\
    concat groups = paragraphs content /\ Forall chunk_group groups.
Proof.
  unfold ChunkCodeSimple. destruct (add_blocks_grouped (split_paragraphs content) no_chunks [] [] []) as (groups & g & [Hc Hcur _ Hb Hf Hgs Hg]).
  { split; try done. by left. }
  cbn [app] in *. fold (paragraphs content) in *. set (s := foldl _ _ _) in *.
  assert (forall l, Forall chunk_group l -> Forall firm (concat l) ->
    (co_Text <$> (code_chunk language <$> ((fun g => Join g blank_line) <$> l))) = (fun g => Join g blank_line) <$> l) as Htext.
  { induction 1 as [|x l [Hx _] _ IH]; [done|]. cbn. intros [Hfx Hfl]%Forall_app. f_equal; [|by apply IH].
    by apply TrimSpace_firm, Join_firm. }
  destruct Hg as [->|Hg].
  - exists groups. rewrite Hcur, Hc. cbn [String.eqb Join]. rewrite !app_nil_r in *. split_and!; [|done|done].
    apply Htext; [done|]. by rewrite Hb.
  - exists (groups ++ [g]). rewrite Hcur, Hc.
    assert (firm (Join g blank_line)) as [(c & t & E & _) _].
    { apply Join_firm; [apply Hg|]. rewrite <- Hb in Hf. by apply Forall_app in Hf as [_ ?]. }
    destruct (String.eqb_spec (Join g blank_line) "") as [E'|_]; [by rewrite E in E'|].
    change ([Join g blank_line]) with ((fun g => Join g blank_line) <$> [g]). rewrite <- fmap_app.
    assert (concat (groups ++ [g]) = paragraphs content) as Hcc by (rewrite concat_app; cbn; by rewrite app_nil_r, Hb).
    assert (Forall chunk_group (groups ++ [g])) as Hall by (apply Forall_app; by rewrite Forall_singleton).
    split_and!; [|done..]. apply Htext; [done|]. by rewrite Hcc.
Qed.

Lemma TrimLeftFunc_app P a p : exists a', TrimLeftFunc P (a +:+ p) = a' +:+ p \/ TrimLeftFunc P (a +:+ p) = TrimLeftFunc P p.
Proof.
  induction a as [|c a IH]; cbn; [exists ""; by right|]. destruct (P c); [done|]. exists (String c a). by left.
Qed.

Lemma TrimRightFunc_app P s c t : P c = false -> TrimRightFunc P (s +:+ String c t) = s +:+ String c (TrimRightFunc P t).
Proof.
  intros Hc. induction s as [|d s IH]; cbn.
  - destruct (TrimRightFunc P t); [by rewrite Hc|done].
  - rewrite IH. by destruct s.
Qed.

(** Trimming keeps what is firm. *)
Lemma TrimSpace_contains s p : firm p -> Contains s p = true -> Contains (TrimSpace s) p = true.
Proof.
  rewrite !Contains_spec. intros [(c & t & Ep & Hc) (t' & c' & Ep' & Hc')] (a & b & ->). unfold TrimSpace, TrimFunc.
  assert (TrimLeftFunc is_space (p +:+ b) = p +:+ b) as Hl by (rewrite Ep; cbn; by rewrite Hc).
  destruct (TrimLeftFunc_app is_space a (p +:+ b)) as [a' [-> | ->]]; [exists a'|exists ""]; rewrite ?Hl, Ep'.
  - exists (TrimRightFunc is_space b). rewrite <- !str_app_assoc. rewrite (str_app_assoc (a' +:+ t')). cbn.
    rewrite TrimRightFunc_app by done. by rewrite !str_app_assoc.
  - exists (TrimRightFunc is_space b). rewrite str_app_assoc. cbn. rewrite TrimRightFunc_app by done. by rewrite !str_app_assoc.
Qed.

Lemma Contains_append_l current para p : Contains current p = true -> Contains (append_paragraph current para) p = true.
Proof.
  unfold append_paragraph. destruct (String.eqb_spec current "") as [->|_].
  - rewrite !Contains_spec. intros (a & b & E). destruct a, p, b; try done. by exists "", para.
  - rewrite !Contains_spec. intros (a & b & ->). exists a, (b +:+ blank_line +:+ para). by rewrite !str_app_assoc.
Qed.

Lemma Contains_append_r current para : Contains (append_paragraph current para) para = true.
Proof. apply Contains_spec. eexists _, "". unfold append_paragraph. by rewrite str_app_nil_r. Qed.

(** Every paragraph is in a chunk, or in the text of the next one. *)
Definition chunked (s : chunking) (p : string) : Prop :=
  (exists c, c ∈ ch_chunks s /\ Contains c p = true) \/ Contains (ch_current s) p = true.

Lemma add_paragraph_keeps m o s para p : firm p -> chunked s p -> chunked (add_paragraph m o s para) p.
Proof.
  intros Hp Hs. unfold add_paragraph. destruct (String.eqb (TrimSpace para) ""); [done|].
  destruct (_ && _); cbn [ch_chunks ch_current]; destruct Hs as [(c & Hc & H)|H].
  - left. exists c. split; [by apply elem_of_app; left|done].
  - left. exists (TrimSpace (ch_current s)). split; [apply elem_of_app; right; by left|]. by apply TrimSpace_contains.
  - left. by exists c.
  - right. by apply Contains_append_l.
Qed.

Lemma add_paragraph_adds m o s para : TrimSpace para <> "" -> chunked (add_paragraph m o s para) (TrimSpace para).
Proof.
  intros Hn. unfold add_paragraph. apply String.eqb_neq in Hn. rewrite Hn. right. apply Contains_append_r.
Qed.

(** No paragraph of a text is lost: it is in a chunk as a whole. *)
Lemma text_chunks_cover content m o p : p ∈ paragraphs content -> exists c, c ∈ ChunkText content m o /\ Contains c p = true.
Proof.
  unfold paragraphs, ChunkText. cbv zeta. generalize (if (m <=? 0)%Z then 512%Z else m), (if (o <=? 0)%Z then 64%Z else o).
  intros m' o' [Hn Hp]%list_elem_of_filter. assert (firm p) as Hfirm.
  { apply list_elem_of_fmap in Hp as (x & -> & _). by apply TrimSpace_makes_firm. }
  assert (forall l s, (chunked s p \/ p ∈ TrimSpace <$> l) -> chunked (foldl (add_paragraph m' o') s l) p) as H.
  { induction l as [|x l IH]; intros s [Hs|Hin]; [done|by apply elem_of_nil in Hin| |]; cbn [foldl]; apply IH.
    - left. by apply add_paragraph_keeps.
    - cbn in Hin. apply elem_of_cons in Hin as [->|Hin]; [left; by apply add_paragraph_adds|by right]. }
  destruct (H (split_paragraphs content) no_chunks (or_intror Hp)) as [(c & Hc & Hcp)|Hcp].
  - exists c. split; [by apply elem_of_app; left|done].
  - exists (TrimSpace (ch_current (foldl (add_paragraph m' o') no_chunks (split_paragraphs content)))). split; [|by apply TrimSpace_contains].
    apply elem_of_app. right. destruct (String.eqb_spec (ch_current (foldl (add_paragraph m' o') no_chunks (split_paragraphs content))) "") as [E|_]; [|by left].
    exfalso. rewrite E, Contains_spec in Hcp. destruct Hcp as (a & b & E'). destruct Hfirm as [(c & t & -> & _) _]. by destruct a.
Qed.

(** A chunk may have more tokens than asked for: what is repeated of the one before is not taken off, and a short
    one is repeated as a whole. *)
Example chunk_exceeds :
  let three := Join (replicate 3 "w") " " in let six := Join (replicate 6 "w") " " in
  estimateTokens <$> ChunkText (three +:+ blank_line +:+ six) 8 64 = [4%Z; 12%Z].
Proof. vm_compute. done. Qed.

(** ** What is stored *)

Section stored.
Context {F D M : Type}.

Notation db := (database (F := F) (M := M)).

(** Every row is about a run whose state is stored, and a chunk's diff and span are stored. *)
Record integral (d : db) : Prop := {
  in_logs : Forall (fun r => known_run d r.1.1 = true) (db_logs d);
  in_diffs : Forall (fun r => known_run d (rd_AgentRunID r) = true) (db_diffs d);
  in_spans : Forall (fun r => known_run d (bs_AgentRunID r) = true) (db_spans d);
  in_code : Forall (fun r => known_run d (cc_AgentRunID (ck_Record r)) = true /\
    (cc_DiffID (ck_Record r) = "" \/ exists x, x ∈ db_diffs d /\ rd_ID x = cc_DiffID (ck_Record r))) (db_code d);
  in_trace : Forall (fun r => known_run d (tc_AgentRunID (ck_Record r)) = true /\
    (tc_SpanID (ck_Record r) = "" \/ exists x, x ∈ db_spans d /\ bs_ID x = tc_SpanID (ck_Record r))) (db_trace d);
}.

(** The runs whose states are stored stay the same, and the rows integral. *)
Definition keeps_runs (d d' : db) : Prop := as_AgentRunID <$> db_states d' = as_AgentRunID <$> db_states d /\ (integral d -> integral d').

#[export] Instance keeps_runs_refl : Reflexive keeps_runs.
Proof. intros d. by split. Qed.

#[export] Instance keeps_runs_trans : Transitive keeps_runs.
Proof. intros a b c [E1 H1] [E2 H2]. split; [by rewrite E2|auto]. Qed.

Lemma known_run_elem (d : db) run : known_run d run = bool_decide (run ∈ as_AgentRunID <$> db_states d).
Proof.
  unfold known_run. destruct (existsb _ _) eqn:E; symmetry.
  - apply bool_decide_eq_true. apply existsb_elem in E as (s & Hs & <-%String.eqb_eq). apply list_elem_of_fmap. by exists s.
  - apply bool_decide_eq_false. intros (s & -> & Hs)%list_elem_of_fmap.
    assert (existsb (fun t => String.eqb (as_AgentRunID t) (as_AgentRunID s)) (db_states d) = true) as E'; [|by rewrite E' in E].
    apply existsb_elem. exists s. by rewrite String.eqb_refl.
Qed.

Lemma known_run_same (d d' : db) run : as_AgentRunID <$> db_states d' = as_AgentRunID <$> db_states d -> known_run d' run = known_run d run.
Proof. intros E. by rewrite !known_run_elem, E. Qed.

(** Rows are only added, for known runs. *)
Lemma integral_extends (d d' : db) logs diffs spans code trace :
  as_AgentRunID <$> db_states d' = as_AgentRunID <$> db_states d ->
  db_logs d' = db_logs d ++ logs -> db_diffs d' = db_diffs d ++ diffs -> db_spans d' = db_spans d ++ spans ->
  db_code d' = db_code d ++ code -> db_trace d' = db_trace d ++ trace ->
  Forall (fun r => known_run d r.1.1 = true) logs ->
  Forall (fun r => known_run d (rd_AgentRunID r) = true) diffs ->
  Forall (fun r => known_run d (bs_AgentRunID r) = true) spans ->
  Forall (fun r => known_run d (cc_AgentRunID (ck_Record r)) = true /\
    (cc_DiffID (ck_Record r) = "" \/ exists x, x ∈ db_diffs d /\ rd_ID x = cc_DiffID (ck_Record r))) code ->
  Forall (fun r => known_run d (tc_AgentRunID (ck_Record r)) = true /\
    (tc_SpanID (ck_Record r) = "" \/ exists x, x ∈ db_spans d /\ bs_ID x = tc_SpanID (ck_Record r))) trace ->
  keeps_runs d d'.
Proof.
  intros Es El Ed Esp Ec Et Hl Hd Hs Hc Ht. split; [done|]. intros [Il Id Is Ic It].
  assert (forall run, known_run d run = true -> known_run d' run = true) as Hk by (intros run ?; by rewrite (known_run_same d)).
  split; rewrite ?El, ?Ed, ?Esp, ?Ec, ?Et; apply Forall_app; split.
  all: first [eapply Forall_impl; [eassumption|]; cbn; by eauto | idtac].
  all: eapply Forall_impl; [eassumption|]; cbn; intros r [Hr [Hn|(x & Hx & E)]]; split; eauto; right; exists x; split; [|done]; apply elem_of_app; by left.
Qed.

Variable pg : postgres (D := D).
Variable print : F -> string.

Notation K A := (shell db kcommand string A).

Lemma moves_exec what s (op : db -> result db) d : (forall d', op d = Ok d' -> keeps_runs d d') -> keeps_runs d (exec pg what s op d).1.
Proof. intros H. unfold exec. destruct (pg_error pg s); [done|]. destruct (op d) eqn:E; [by apply H|done]. Qed.

Lemma references_Ok (d : db) table run k d' : references d table run k = Ok d' -> known_run d run = true /\ k = Ok d'.
Proof. unfold references. by destruct (known_run d run). Qed.

Ltac extends := eapply integral_extends; cbn; try (by rewrite app_nil_r); try reflexivity; try (by constructor).

Lemma SaveRunLog_keeps run content d : keeps_runs d (SaveRunLog pg run content d).1.
Proof. apply moves_exec. intros d' [Hk [= <-]]%references_Ok. extends. Qed.

Lemma SaveRunDiff_keeps run span path patch d : keeps_runs d (SaveRunDiff pg run span path patch d).1.
Proof. apply moves_exec. intros d' [Hk [= <-]]%references_Ok. extends. Qed.

Lemma insert_spans_keeps s run l (d d' : db) : insert_spans pg s run l d = Ok d' -> keeps_runs d d'.
Proof.
  unfold insert_spans. destruct (List.find _ l); [done|]. intros [Hk [= <-]]%references_Ok. extends.
  apply Forall_lookup. intros i x Hx. rewrite list_lookup_imap in Hx. destruct (l !! i); [|done]. cbn in Hx. by injection Hx as <-.
Qed.

Lemma SaveRunSpans_keeps run l (d : db) : keeps_runs d (SaveRunSpans pg run l d).1.
Proof. unfold SaveRunSpans. destruct l as [|sp l]; [done|]. apply moves_exec. intros d'. apply insert_spans_keeps. Qed.

Lemma insert_chunks_Ok {R} what st (error_of : db -> R -> option string) lit d n l : forall i acc rows,
  insert_chunks pg what st error_of lit d n i l acc = Ok rows ->
  exists new, rows = acc ++ new /\ Forall (fun r => error_of d (ck_Record r) = None) new.
Proof.
  induction l as [|r l IH]; intros i acc rows; cbn; [intros [= <-]; exists []; by rewrite app_nil_r|].
  destruct (pg_error pg (st i)); [done|]. destruct (error_of d r) eqn:E; [done|]. intros H.
  apply IH in H as (new & -> & Hnew). eexists (_ :: new). rewrite <- app_assoc. split; [done|]. by apply Forall_cons.
Qed.

Lemma transaction_keeps {R} saved insert st (error_of : db -> R -> option string) lit rows put ready l d :
  (forall new, Forall (fun r => error_of d (ck_Record r) = None) new -> keeps_runs d (put (rows d ++ new) d)) ->
  keeps_runs d (transaction pg saved insert st error_of lit rows put ready l d).1.
Proof.
  intros H. unfold transaction. destruct (negb ready); [done|]. destruct l as [|r l]; [done|].
  destruct (pg_error pg Begin_); [done|]. destruct (insert_chunks _ _ _ _ _ _ _ _ _ _) as [new|] eqn:E; [|done].
  destruct (pg_error pg Commit_); [done|]. apply insert_chunks_Ok in E as (new' & -> & Hnew). by apply H.
Qed.

Lemma chunk_error_None (d : db) table run ref known (v : list F) : chunk_error pg d table run ref known v = None ->
  known_run d run = true /\ (ref = None \/ exists id, ref = Some id /\ known id = true).
Proof.
  unfold chunk_error. destruct (known_run d run); [|done]. destruct ref as [id|]; [|by split; [|left]].
  cbn. destruct (pg_is_uuid pg id); [|done]. cbn. destruct (known id) eqn:E; [|done]. split; [done|right; by exists id].
Qed.

Lemma nilIfEmpty_or s : nilIfEmpty s = None /\ s = "" \/ nilIfEmpty s = Some s.
Proof. unfold nilIfEmpty. destruct (String.eqb_spec s ""); [by left|by right]. Qed.

Lemma existsb_id {A} (f : A -> string) l id : existsb (fun r => String.eqb (f r) id) l = true -> exists x, x ∈ l /\ f x = id.
Proof. intros (x & Hx & E)%existsb_elem. exists x. split; [done|]. by apply String.eqb_eq. Qed.

Lemma SaveCodeChunks_keeps ready l (d : db) : keeps_runs d (SaveCodeChunks print pg ready l d).1.
Proof.
  apply transaction_keeps. intros new Hnew. extends. eapply Forall_impl; [exact Hnew|]. cbn. intros r [Hk Hr]%chunk_error_None.
  split; [done|]. destruct (nilIfEmpty_or (cc_DiffID (ck_Record r))) as [[_ ->]|E]; [by left|right].
  rewrite E in Hr. destruct Hr as [?|(id & [= <-] & Hid)]; [done|]. by apply existsb_id in Hid.
Qed.

Lemma SaveTraceChunks_keeps ready l (d : db) : keeps_runs d (SaveTraceChunks print pg ready l d).1.
Proof.
  apply transaction_keeps. intros new Hnew. extends. eapply Forall_impl; [exact Hnew|]. cbn. intros r [Hk Hr]%chunk_error_None.
  split; [done|]. destruct (nilIfEmpty_or (tc_SpanID (ck_Record r))) as [[_ ->]|E]; [by left|right].
  rewrite E in Hr. destruct Hr as [?|(id & [= <-] & Hid)]; [done|]. by apply existsb_id in Hid.
Qed.
End stored.

Section performed.
Context {F D M : Type}.

Notation db := (database (F := F) (M := M)).
Notation K A := (shell db kcommand string A).

Lemma UpdatePhase_keeps (pg : postgres (D := D)) run phase message (d : db) : keeps_runs d (UpdatePhase pg run phase message d).1.
Proof.
  unfold UpdatePhase. destruct (exec _ _ _ _ _) as [d' e] eqn:E.
  assert (keeps_runs d d') as H; [|by destruct e].
  replace d' with (exec pg "update phase" (UpdatePhase_ run) (fun d : db => Ok (with_states
    ((fun s => if String.eqb (as_AgentRunID s) run then
          {| as_ID := as_ID s; as_AgentRunID := as_AgentRunID s; as_Phase := phase; as_Message := message; as_Prompt := as_Prompt s;
             as_RepoURL := as_RepoURL s; as_Branch := as_Branch s; as_TraceID := as_TraceID s; as_CreatedAt := as_CreatedAt s;
             as_UpdatedAt := pg_now pg; as_CompletedAt := as_CompletedAt s; as_Metadata := as_Metadata s |}
        else s) <$> db_states d) d)) d).1 by (by rewrite E).
  apply moves_exec. intros d'' [= <-]. eapply integral_extends with (logs := []) (diffs := []) (spans := []) (code := []) (trace := []);
    cbn; rewrite ?app_nil_r; try done; try by constructor.
  rewrite <- list_fmap_compose. apply list_fmap_ext. intros i s _. cbn. by destruct (String.eqb _ _).
Qed.

(** Storing a state makes its run known, and no other one unknown. *)
Lemma SaveState_integral (pg : postgres (D := D)) s (d : db) : integral d -> integral (SaveState pg s d).1.
Proof.
  intros H. unfold SaveState, exec. destruct (pg_error pg _); [done|]. destruct (known_run d (as_AgentRunID s)) eqn:Ek; cbn [fst].
  - assert (keeps_runs d (with_states ((fun old => if String.eqb (as_AgentRunID old) (as_AgentRunID s) then updated_state s old else old) <$> db_states d) d)) as [_ Hk]; [|by apply Hk].
    eapply integral_extends with (logs := []) (diffs := []) (spans := []) (code := []) (trace := []); cbn; rewrite ?app_nil_r; try done; try by constructor.
    rewrite <- list_fmap_compose. apply list_fmap_ext. intros i old _. cbn. by destruct (String.eqb _ _).
  - destruct (existsb _ _); [done|]. cbn [fst]. destruct H as [Il Id Is Ic It].
    assert (forall run, known_run d run = true -> known_run (with_states (db_states d ++ [without_metadata s]) d) run = true) as Hk.
    { intros run. rewrite !known_run_elem. cbn. rewrite fmap_app, !bool_decide_eq_true. intros ?. apply elem_of_app. by left. }
    split; cbn; (eapply Forall_impl; [eassumption|]); cbn; naive_solver.
Qed.

(** ** The activities *)

Section activity.
Variable env : surroundings F D M.

Lemma moves_save op : (forall d, keeps_runs d (op d).1) -> moves keeps_runs (save op : K (option string)).
Proof. intros H s. unfold save. specialize (H (m_state s)). by destruct (op (m_state s)). Qed.

Lemma moves_load {A} (op : db -> result A) : moves keeps_runs (load op).
Proof. apply moves_same; [tc_solve|done]. Qed.

Lemma moves_exec_command c t : moves keeps_runs (ExecCommand env c t).
Proof. by apply moves_command. Qed.

Lemma moves_embed t : moves keeps_runs (Embed env t).
Proof. by apply moves_command. Qed.

Hint Resolve moves_ret moves_return moves_load moves_exec_command moves_embed : shell.
Hint Extern 1 (Reflexive _) => tc_solve : shell.

Ltac keeps :=
  repeat lazymatch goal with
  | |- moves _ (_ ≫= _) => apply moves_bind; [tc_solve| |intros ?]
  | |- moves _ (match ?x with _ => _ end) => destruct x eqn:?
  | |- moves _ (let _ := _ in _) => cbv zeta
  | |- moves _ _ => solve [auto with shell]
  end.

Lemma save_diffs_keeps run dir names : moves keeps_runs (save_diffs env run dir names).
Proof.
  induction names as [|name names IH]; cbn [save_diffs]; [auto with shell|].
  destruct (String.eqb _ _); [done|]. apply moves_bind; [tc_solve|auto with shell|]. intros a.
  destruct a as [|[] out err]; try done. apply moves_bind; [tc_solve| |done]. apply moves_save. intros d. apply SaveRunDiff_keeps.
Qed.

Lemma PersistRunData_keeps input : moves keeps_runs (PersistRunData env input).
Proof.
  assert (forall run c, moves keeps_runs (save (SaveRunLog (su_postgres env) run c) : K _)) as H1 by (intros; apply moves_save; intros; apply SaveRunLog_keeps).
  assert (forall run l, moves keeps_runs (save (SaveRunSpans (su_postgres env) run l) : K _)) as H2 by (intros; apply moves_save; intros; apply SaveRunSpans_keeps).
  pose proof save_diffs_keeps. unfold PersistRunData. keeps.
Qed.

Lemma embed_code_keeps run repo diff chunks : forall acc, moves keeps_runs (embed_code env run repo diff chunks acc).
Proof. induction chunks as [|c chunks IH]; intros acc; cbn [embed_code]; keeps. Qed.

Lemma embed_diffs_keeps run repo diffs : forall acc, moves keeps_runs (embed_diffs env run repo diffs acc).
Proof. pose proof embed_code_keeps. induction diffs as [|d diffs IH]; intros acc; cbn [embed_diffs]; keeps. Qed.

Lemma embed_log_keeps run repo chunks : forall acc, moves keeps_runs (embed_log env run repo chunks acc).
Proof. induction chunks as [|c chunks IH]; intros acc; cbn [embed_log]; keeps. Qed.

Lemma EmbedRunData_keeps input : moves keeps_runs (EmbedRunData env input).
Proof.
  assert (forall b l, moves keeps_runs (save (SaveCodeChunks (su_print env) (su_postgres env) b l) : K _)) as H1 by (intros; apply moves_save; intros; apply SaveCodeChunks_keeps).
  assert (forall b l, moves keeps_runs (save (SaveTraceChunks (su_print env) (su_postgres env) b l) : K _)) as H2 by (intros; apply moves_save; intros; apply SaveTraceChunks_keeps).
  pose proof embed_diffs_keeps. pose proof embed_log_keeps. unfold EmbedRunData. keeps.
Qed.

Lemma HydrateContext_keeps input : moves keeps_runs (HydrateContext env input).
Proof. unfold HydrateContext. keeps. Qed.

(** Without chunks nothing is found, and nothing is written. *)
Lemma HydrateContext_nothing input s :
  (forall R lit n, pg_nearest (su_postgres env) R lit n [] = []) -> db_code (m_state s) = [] -> db_trace (m_state s) = [] ->
  (HydrateContext env input s).2 <> inl (Ok {| hc_ContextWritten := true |}).
Proof.
  intros Hn Hc Ht. unfold HydrateContext. destruct (negb (_ && _)); [done|]. destruct (negb (su_ready env)) eqn:Er; [done|].
  destruct (String.eqb _ _); [done|]. unfold mbind, shell_bind, Embed, Shell.command. cbn. destruct (su_embed env _) as [v|]; [|done].
  unfold load, SearchCodeChunks, SearchTraceChunks, search, query. cbn. rewrite Er, Hc, Ht. cbn [filter list_filter].
  by destruct (pg_error _ SearchCode_), (pg_error _ SearchTrace_); rewrite ?Hn.
Qed.
End activity.

(** What is done to the database: by the activities, and by what no program calls. *)
Inductive kaction :=
  | Persist (i : PersistRunDataInput) | EmbedRun (i : EmbedRunDataInput) | Hydrate (i : HydrateContextInput)
  | Phase (run phase message : string) | State_ (s : AgentState).

Definition perform (env : surroundings F D M) (a : kaction) (d : db) : db :=
  let s := {| m_state := d; m_log := [] |} in
  match a with
  | Persist i => m_state (PersistRunData env i s).1
  | EmbedRun i => m_state (EmbedRunData env i s).1
  | Hydrate i => m_state (HydrateContext env i s).1
  | Phase run phase message => (UpdatePhase (su_postgres env) run phase message d).1
  | State_ st => (SaveState (su_postgres env) st d).1
  end.

Definition performed (l : list (surroundings F D M * kaction)) (d : db) : db := foldl (fun d a => perform a.1 a.2 d) d l.

Definition stores_state (a : kaction) : bool := match a with State_ _ => true | _ => false end.

Lemma perform_keeps env a d : stores_state a = false -> keeps_runs d (perform env a d).
Proof.
  destruct a; intros; cbn [perform]; try done.
  - exact (PersistRunData_keeps env i _).
  - exact (EmbedRunData_keeps env i _).
  - exact (HydrateContext_keeps env i _).
  - apply UpdatePhase_keeps.
Qed.

Lemma performed_integral l : forall d, integral d -> integral (performed l d).
Proof.
  induction l as [|[env a] l IH]; intros d Hd; [done|]. apply IH. cbn. destruct (stores_state a) eqn:E.
  - destruct a; try done. by apply SaveState_integral.
  - by apply perform_keeps.
Qed.

Lemma performed_keeps l : forall d, Forall (fun a => stores_state a.2 = false) l -> keeps_runs d (performed l d).
Proof.
  induction l as [|[env a] l IH]; intros d Hl; [done|]. apply Forall_cons in Hl as [Ha Hl].
  etrans; [by apply perform_keeps|by apply IH].
Qed.
End performed.

Definition no_rows {F M} : database (F := F) (M := M) :=
  {| db_states := []; db_logs := []; db_diffs := []; db_spans := []; db_code := []; db_trace := [] |}.

Lemma no_rows_integral {F M} : integral (@no_rows F M).
Proof. split; constructor. Qed.

Lemma integral_no_states {F M} (d : database (F := F) (M := M)) : integral d -> db_states d = [] -> d = no_rows.
Proof.
  destruct d as [st l di sp co tr]. cbn. intros [Hl Hd Hs Hc Ht] ->. cbn in *. unfold no_rows. f_equal.
  - destruct l; [done|]. by apply Forall_cons in Hl as [? _].
  - destruct di; [done|]. by apply Forall_cons in Hd as [? _].
  - destruct sp; [done|]. by apply Forall_cons in Hs as [? _].
  - destruct co; [done|]. by apply Forall_cons in Hc as [[? _] _].
  - destruct tr; [done|]. by apply Forall_cons in Ht as [[? _] _].
Qed.

(** C23. Whatever activities run, in whatever order and with whatever failures, every stored row is about a run whose
    state is stored, and the diff or the span of a chunk is stored.  The activities store no state of a run; so, in the
    database that the migration makes, nothing is ever stored and no context is ever written. *)
Theorem knowledge_of_known_runs {F D M} :
  (forall (l : list (surroundings F D M * kaction)) d, integral d -> integral (performed l d)) /\
  (forall l : list (surroundings F D M * kaction), Forall (fun a => stores_state a.2 = false) l -> performed l no_rows = no_rows) /\
  (forall (env : surroundings F D M) (l : list (surroundings F D M * kaction)) input, Forall (fun a => stores_state a.2 = false) l ->
     (forall R lit n, pg_nearest (su_postgres env) R lit n [] = []) ->
     (HydrateContext env input {| m_state := performed l no_rows; m_log := [] |}).2 <> inl (Ok {| hc_ContextWritten := true |})).
Proof.
  assert (forall l : list (surroundings F D M * kaction), Forall (fun a => stores_state a.2 = false) l -> performed l no_rows = no_rows) as H.
  { intros l Hl. destruct (performed_keeps l no_rows Hl) as [Hs Hi]. apply integral_no_states; [apply Hi, no_rows_integral|].
    by apply fmap_nil_inv in Hs. }
  split_and!; [intros; by apply performed_integral|done|]. intros env l input Hl Hn. rewrite H by done. by apply HydrateContext_nothing.
Qed.

(** ** Examples *)

Definition sample_postgres : postgres (D := nat) :=
  {| pg_error := fun _ => None; pg_now := 7%Z; pg_uuid := fun _ n => "id-" +:+ pretty n; pg_is_uuid := fun s => HasPrefix s "id-";
     pg_by_time := fun A _ l => l; pg_nearest := fun R _ n l => (fun r => (r, O)) <$> take n l |}.

Definition sample_surroundings (exec : string -> exec_answer) : surroundings nat nat unit :=
  {| su_store := true; su_ready := true; su_embedder := true; su_postgres := sample_postgres; su_exec := exec;
     su_embed := fun _ => Ok (replicate 384 O); su_print := fun _ => "0"; su_print_2 := fun _ => "1.00"; su_boost := fun _ => O;
     su_now := 9%Z; su_time := fun _ => None; su_metadata := fun m _ => (m, true); su_no_metadata := tt |}.

Definition sample_exec (c : string) : exec_answer :=
  if HasSuffix c "agent.log" then Exits 0 "fixed the build" "" else if HasPrefix c "cat" || HasPrefix c "ls" then Exits 1 "" "no such file" else Exits 0 "" "".

Definition sample_state : AgentState :=
  {| as_ID := "1"; as_AgentRunID := "r1"; as_Phase := "Running"; as_Message := ""; as_Prompt := ""; as_RepoURL := ""; as_Branch := "";
     as_TraceID := ""; as_CreatedAt := 1%Z; as_UpdatedAt := 1%Z; as_CompletedAt := None; as_Metadata := [("k", "v")] |}.

Definition sample_persist : kaction := Persist {| pr_AgentRunID := "r1"; pr_WorkspacePath := "/workspace"; pr_RepoURL := ""; pr_PodIP := "10.0.0.1" |}.
Definition sample_embed : kaction := EmbedRun {| er_AgentRunID := "r1"; er_RepoURL := "" |}.
Definition sample_hydrate : HydrateContextInput :=
  {| hc_AgentRunID := "r2"; hc_WorkspacePath := "/workspace"; hc_Prompt := "build"; hc_RepoURL := ""; hc_AgentType := ""; hc_PodIP := "10.0.0.2" |}.

Definition sample_performed (l : list kaction) : database (F := nat) (M := unit) :=
  performed ((fun a => (sample_surroundings sample_exec, a)) <$> l) no_rows.

(** With the state of its run, a log is stored, and found by a later run; a state loses its metadata. *)
Example knowledge_with_state :
  let d := sample_performed [State_ sample_state; sample_persist; sample_embed] in
  GetRunLogs sample_postgres "r1" d = Ok "fixed the build" /\
  GetState sample_postgres "r1" d = Ok (without_metadata sample_state) /\
  (HydrateContext (sample_surroundings sample_exec) sample_hydrate {| m_state := d; m_log := [] |}).2 = inl (Ok {| hc_ContextWritten := true |}).
Proof. vm_compute. done. Qed.

(** When the call that writes the context fails, the activity panics. *)
Example failed_write_panics :
  let d := sample_performed [State_ sample_state; sample_persist; sample_embed] in
  (HydrateContext (sample_surroundings (fun c => if HasPrefix c "printf" then ExecFails "gone" else sample_exec c)) sample_hydrate
     {| m_state := d; m_log := [] |}).2 = inr "invalid memory address or nil pointer dereference".
Proof. vm_compute. done. Qed.

(** The sidecar writes the times and the parents of its spans under other names than are read: a span gets the
    time of its reading, and no parent. *)
Example spans_lose_their_times :
  let line := "{" +:+ Quote "name" +:+ ":" +:+ Quote "bash" +:+ "," +:+ Quote "parentId" +:+ ":" +:+ Quote "s0" +:+ "," +:+
    Quote "startTime" +:+ ":" +:+ Quote "2024-01-01T00:00:00Z" +:+ "}" in
  let env := {| su_store := true; su_ready := true; su_embedder := true; su_postgres := sample_postgres; su_exec := sample_exec;
     su_embed := fun _ => Ok []; su_print := fun _ => "0"; su_print_2 := fun _ => ""; su_boost := fun _ => O;
     su_now := 9%Z; su_time := fun s => if String.eqb s "2024-01-01T00:00:00Z" then Some 1704067200%Z else None;
     su_metadata := fun m _ => (m, true); su_no_metadata := tt |} : surroundings nat nat unit in
  (fun sp => (bs_Name sp, bs_ParentID sp, bs_StartTime sp)) <$> read_spans env (line +:+ newline) = [("bash", "", 9%Z)].
Proof. vm_compute. done. Qed.

Lemma knowledge_of_known_runs_witness :
  sample_performed [sample_persist; sample_embed] = no_rows /\
  integral (sample_performed [State_ sample_state; sample_persist; sample_embed]) /\
  (HydrateContext (sample_surroundings sample_exec) sample_hydrate {| m_state := sample_performed [sample_persist; sample_embed]; m_log := [] |}).2
    <> inl (Ok {| hc_ContextWritten := true |}).
Proof.
  destruct (@knowledge_of_known_runs nat nat unit) as (Hi & Hn & Hc). split_and!.
  - apply Hn. repeat constructor.
  - apply Hi, no_rows_integral.
  - apply Hc; [repeat constructor|]. intros R lit n. by destruct n.
Defined.
