(* ===== verification/PodActivities.v ===== *)
(** * The pod of a run: [internal/temporal/activities.go], [activities_trace.go] and [internal/litellm/client.go].

    The claim and the deployment of a run, as they are assembled and changed; the key for the models; waiting for the
    workspace and starting the agent.  Kubernetes is the stored deployments and claims, with the failures of its
    requests as a parameter; the answers of the sidecar and of LiteLLM are parameters, and so are the numbers of a
    budget and how they are printed. *)

From S2P Require Import Prelude GoStrings ApiTypes TemporalTypes Json JsonDecode JsonRaw VerifyRun Shell Knowledge.
Local Open Scope unc_scope.

(** ** Pods *)

(** The value of a variable: a text, or a key of a Secret. *)
Inductive env_value := EnvText (value : string) | EnvSecret (secret key : string).

Definition env_var : Type := string * env_value.

Definition text_var (name value : string) : env_var := (name, EnvText value).

Inductive volume := EmptyDir | Claim (name : string) | HostPath (path : string).

Inductive pull_policy := PullNever | PullIfNotPresent.

Record container := {
  ct_Name : string; ct_Image : string; ct_Pull : pull_policy; ct_Command : list string; ct_Env : list env_var;
  ct_Mounts : list (string * string); ct_Port : option Z;
  (** processor and memory: asked for, and the limit *)
  ct_Requests : string * string; ct_Limits : string * string;
}.

Record pod := {
  pod_Name : string; pod_Namespace : string; pod_Labels : list (string * string); pod_RestartAlways : bool;
  pod_Init : list container; pod_Containers : list container; pod_Volumes : list (string * volume);
}.

(** The worker's own variables. *)
Definition getenv : Type := string -> string.

(** [internal/temporal/activities.go:60-65] envOrDefault *)
Definition envOrDefault (env : getenv) (key fallback : string) : string := if String.eqb (env key) "" then fallback else env key.

(** [internal/temporal/activities.go:51-58] agentImage, sidecarImage, initImage, cudgelEndpoint *)
Definition agentImage (env : getenv) : string := envOrDefault env "AOT_AGENT_IMAGE" "ghcr.io/uncworks/aot-agent:latest".
Definition sidecarImage (env : getenv) : string := envOrDefault env "AOT_SIDECAR_IMAGE" "ghcr.io/uncworks/aot-sidecar:latest".
Definition initImage (env : getenv) : string := envOrDefault env "AOT_INIT_IMAGE" "ghcr.io/uncworks/aot-init:latest".
Definition cudgelEndpoint (env : getenv) : string := env "CUDGEL_ENDPOINT".

(** [internal/temporal/activities.go:71-79] imagePullPolicy *)
Definition imagePullPolicy (image : string) : pull_policy :=
  if negb (Contains image "/") then PullNever
  else if HasSuffix image ":local" then PullNever
  else PullIfNotPresent.

Definition sidecarPort : Z := 50052.

(** A text as [encoding/json] writes it. *)
Definition json_text (s : string) : string := dquote +:+ quote_json s +:+ dquote.

(** A member of an object, left out when it is empty. *)
Definition omitempty (name value : string) : string :=
  if String.eqb value "" then "" else "," +:+ json_text name +:+ ":" +:+ json_text value.

Definition repo_json (r : Repository) : string :=
  "{" +:+ json_text "url" +:+ ":" +:+ json_text (r_URL r) +:+ omitempty "branch" (r_Branch r) +:+ omitempty "path" (r_Path r) +:+ "}".

(** The JSON of the repositories; a run without any has a nil slice. *)
Definition repos_json (l : list Repository) : string :=
  match l with [] => "null" | _ => "[" +:+ Join (repo_json <$> l) "," +:+ "]" end.

(** [internal/temporal/activities.go:368-388] BuildAgentPod: the variables that the run gives; the keys of the
    run's own ones are sorted *)
Definition base_env (input : CreateAgentDeploymentInput) : list env_var :=
  [text_var "AOT_AGENT_RUN_ID" (cd_AgentRunName input); text_var "AOT_REPOS" (repos_json (cd_Repos input)); text_var "AOT_PROMPT" (cd_Prompt input)] ++
  (if String.eqb (cd_DevboxConfig input) "" then [] else [text_var "AOT_DEVBOX_CONFIG" (cd_DevboxConfig input)]) ++
  (if String.eqb (cd_SpecContent input) "" then [] else [text_var "AOT_SPEC_CONTENT" (cd_SpecContent input)]) ++
  ((fun k => text_var k (default "" (list_to_map (M := gmap string string) (cd_EnvVars input) !! k))) <$> sort_strings (cd_EnvVars input).*1).

(** [internal/temporal/activities.go:390-408] BuildAgentPod: the gateway of the models *)
Definition llm_env (input : CreateAgentDeploymentInput) : list env_var :=
  (if String.eqb (cd_LiteLLMBaseURL input) "" then [] else [text_var "OPENAI_BASE_URL" (cd_LiteLLMBaseURL input +:+ "/v1")]) ++
  (if negb (String.eqb (cd_LLMKey input) "") then [text_var "OPENAI_API_KEY" (cd_LLMKey input)]
   else if negb (String.eqb (cd_LiteLLMBaseURL input) "") then [text_var "OPENAI_API_KEY" "not-required"] else []).

Definition cudgel_env (env : getenv) : list env_var :=
  if String.eqb (cudgelEndpoint env) "" then [] else [text_var "CUDGEL_ENDPOINT" (cudgelEndpoint env)].

(** [internal/temporal/activities.go:411-431] BuildAgentPod: the variables of the init container *)
Definition init_env (env : getenv) (input : CreateAgentDeploymentInput) : list env_var :=
  base_env input ++ cudgel_env env ++
  (if String.eqb (cd_GitHubTokenSecretName input) "" then [] else [("GITHUB_TOKEN", EnvSecret (cd_GitHubTokenSecretName input) "token")]).

Definition run_labels (name : string) : list (string * string) :=
  [("app.kubernetes.io/name", "aot-agent"); ("app.kubernetes.io/managed-by", "aot-controller"); ("aot.uncworks.io/agentrun", name)].

Definition workspace_mount : string * string := ("workspace", "/workspace").

Definition nix_volume : string * volume := ("nix-store", HostPath "/var/aot/nix").

(** [internal/temporal/activities.go:446-468] BuildAgentPod: the container that prepares the workspace *)
Definition hydration_container (env : getenv) (input : CreateAgentDeploymentInput) : container :=
  {| ct_Name := "hydration"; ct_Image := initImage env; ct_Pull := imagePullPolicy (initImage env); ct_Command := [];
     ct_Env := init_env env input; ct_Mounts := [workspace_mount; ("nix-store", "/nix")]; ct_Port := None;
     ct_Requests := ("250m", "512Mi"); ct_Limits := ("1000m", "2Gi") |}.

(** [internal/temporal/activities.go:471-490] BuildAgentPod: the container of the run's image *)
Definition agent_container (env : getenv) (input : CreateAgentDeploymentInput) : container :=
  let image := if String.eqb (cd_Image input) "" then agentImage env else cd_Image input in
  {| ct_Name := "agent"; ct_Image := image; ct_Pull := imagePullPolicy image; ct_Command := ["sleep"; "infinity"];
     ct_Env := base_env input ++ llm_env input ++ cudgel_env env; ct_Mounts := [workspace_mount]; ct_Port := None;
     ct_Requests := ("50m", "64Mi"); ct_Limits := ("200m", "256Mi") |}.

(** [internal/temporal/activities.go:491-517] BuildAgentPod: the sidecar, which runs the agent *)
Definition gateway_container (env : getenv) (input : CreateAgentDeploymentInput) : container :=
  {| ct_Name := "rpc-gateway"; ct_Image := sidecarImage env; ct_Pull := imagePullPolicy (sidecarImage env); ct_Command := [];
     ct_Env := [text_var "AOT_AGENT_RUN_ID" (cd_AgentRunName input); text_var "PI_MODEL" (cd_ModelID input)] ++ llm_env input ++
               [text_var "PI_ACCEPT_TOS" "1"];
     ct_Mounts := [workspace_mount]; ct_Port := Some sidecarPort;
     ct_Requests := ("200m", "256Mi"); ct_Limits := ("1000m", "1Gi") |}.

(** [internal/temporal/activities.go:361-538] BuildAgentPod *)
Definition BuildAgentPod (env : getenv) (input : CreateAgentDeploymentInput) : pod :=
  {| pod_Name := cd_Name input; pod_Namespace := cd_Namespace input; pod_Labels := run_labels (cd_AgentRunName input);
     pod_RestartAlways := false; pod_Init := [hydration_container env input];
     pod_Containers := [agent_container env input; gateway_container env input];
     pod_Volumes := [("workspace", EmptyDir); nix_volume] |}.

(** ** Deployments and claims *)

Record deployment := { dp_Labels : list (string * string); dp_Selector : list (string * string); dp_Replicas : Z; dp_Template : pod }.

Record claim := { pvc_Labels : list (string * string); pvc_Class : string; pvc_Size : string }.

(** What is stored in a namespace. *)
Record namespace := { ns_deployments : gmap string deployment; ns_claims : gmap string claim }.

Inductive pod_call :=
  | CreateClaim (name : string) | CreateDeployment (name : string) | GetDeployment (name : string) | UpdateDeployment (name : string)
  | DeleteDeployment (name : string) | DeleteClaim (name : string).

Section kubernetes.
Variable env : getenv.
(** the error of a request *)
Variable fails : pod_call -> option string.

Notation K A := (shell namespace pod_call string A).

Definition with_deployments m (n : namespace) : namespace := {| ns_deployments := m; ns_claims := ns_claims n |}.
Definition with_claims m (n : namespace) : namespace := {| ns_deployments := ns_deployments n; ns_claims := m |}.

(** A request that fails, or changes what is stored. *)
Definition pod_request {A} (c : pod_call) (op : namespace -> namespace * A) : K (result A) :=
  Shell.command (fun n c => match fails c with Some e => (n, Err e) | None => let '(n, a) := op n in (n, Ok a) end) c.

(** Creating an object; [true] is answered when it is there already. *)
Definition create_claim (name : string) (c : claim) : K (result bool) :=
  pod_request (CreateClaim name) (fun n =>
    match ns_claims n !! name with Some _ => (n, true) | None => (with_claims (<[name := c]> (ns_claims n)) n, false) end).

Definition create_deployment (name : string) (d : deployment) : K (result bool) :=
  pod_request (CreateDeployment name) (fun n =>
    match ns_deployments n !! name with Some _ => (n, true) | None => (with_deployments (<[name := d]> (ns_deployments n)) n, false) end).

(** Deleting an object; that it is not there is no error to the callers. *)
Definition delete_deployment (name : string) : K (result unit) :=
  pod_request (DeleteDeployment name) (fun n => (with_deployments (delete name (ns_deployments n)) n, ())).

Definition delete_claim (name : string) : K (result unit) :=
  pod_request (DeleteClaim name) (fun n => (with_claims (delete name (ns_claims n)) n, ())).

Definition claim_name (run : string) : string := "aot-ws-" +:+ run.

(** [internal/temporal/activities.go:709-729] CreateAgentDeployment: the claim *)
Definition workspace_claim (run : string) : claim :=
  {| pvc_Labels := run_labels run; pvc_Class := envOrDefault env "AOT_STORAGE_CLASS" "local-path"; pvc_Size := envOrDefault env "AOT_PVC_SIZE" "2Gi" |}.

(** [internal/temporal/activities.go:737-792] CreateAgentDeployment: the deployment, of the pod with the claim for a
    workspace *)
Definition agent_deployment (input : CreateAgentDeploymentInput) : deployment :=
  let p := BuildAgentPod env input in
  {| dp_Labels := run_labels (cd_AgentRunName input); dp_Selector := [("aot.uncworks.io/agentrun", cd_AgentRunName input)]; dp_Replicas := 1;
     dp_Template := {| pod_Name := ""; pod_Namespace := ""; pod_Labels := pod_Labels p; pod_RestartAlways := true;
                       pod_Init := pod_Init p; pod_Containers := pod_Containers p;
                       pod_Volumes := [("workspace", Claim (claim_name (cd_AgentRunName input))); nix_volume] |} |}.

(** [internal/temporal/activities.go:700-801] CreateAgentDeployment *)
Definition CreateAgentDeployment (input : CreateAgentDeploymentInput) : K CreateAgentDeploymentOutput :=
  let pvcName := claim_name (cd_AgentRunName input) in
  r ← create_claim pvcName (workspace_claim (cd_AgentRunName input));
  match r with
  | Err e => return_ ("create PVC: " +:+ e)
  | Ok _ =>
      r ← create_deployment (cd_Name input) (agent_deployment input);
      match r with
      | Err e => return_ ("create deployment: " +:+ e)
      | Ok _ => mret {| cd_DeploymentName := cd_Name input; cd_PVCName := pvcName |}
      end
  end.

Definition scaled_down (d : deployment) : deployment :=
  {| dp_Labels := dp_Labels d; dp_Selector := dp_Selector d; dp_Replicas := 0; dp_Template := dp_Template d |}.

(** The refusal of a name without the prefix of the system's own objects. *)
Definition not_ours (what name prefix : string) : string :=
  "failed: safety check: " +:+ what +:+ " " +:+ Quote name +:+ " does not have " +:+ prefix +:+ " prefix".

(** [internal/temporal/activities.go:811-835] ScaleDownDeployment *)
Definition ScaleDownDeployment (input : ScaleDownDeploymentInput) : K unit :=
  let name := sd_DeploymentName input in
  if negb (HasPrefix name "agentrun-") then return_ (not_ours "deployment" name "agentrun-")
  else
    r ← pod_request (GetDeployment name) (fun n => (n, ns_deployments n !! name));
    match r with
    | Err e => return_ ("get deployment: " +:+ e)
    | Ok None => mret ()
    | Ok (Some d) =>
        r ← pod_request (UpdateDeployment name) (fun n => (with_deployments (<[name := scaled_down d]> (ns_deployments n)) n, ()));
        match r with Err e => return_ ("scale down deployment: " +:+ e) | Ok _ => mret () end
    end.

(** [internal/temporal/activities.go:933-972] ArchiveAndCleanup *)
Definition ArchiveAndCleanup (input : ArchiveAndCleanupInput) : K unit :=
  let name := ac_DeploymentName input in
  let pvc := ac_PVCName input in
  if negb (HasPrefix name "agentrun-") then return_ (not_ours "deployment" name "agentrun-")
  else if negb (String.eqb pvc "") && negb (HasPrefix pvc "aot-ws-") then return_ (not_ours "PVC" pvc "aot-ws-")
  else
    r ← delete_deployment name;
    match r with
    | Err e => return_ ("delete deployment: " +:+ e)
    | Ok _ =>
        r ← delete_claim pvc;
        match r with Err e => return_ ("delete PVC: " +:+ e) | Ok _ => mret () end
    end.
End kubernetes.

(** ** Finding the pod and waiting for its workspace *)

(** How an init container ended. *)
Record terminated := { tm_ExitCode : Z; tm_Message : string }.

(** A running pod: its init containers with how they ended, if they did. *)
Record live_pod := {
  lp_Name : string; lp_Deleted : bool; lp_Phase : string; lp_Reason : string; lp_Message : string; lp_IP : string;
  lp_Init : list (string * option terminated);
}.

(** What is asked: the pods with the label of a run, and a pod by its name. *)
Record pod_answers := { pa_list : result (list live_pod); pa_get : result live_pod }.

(** [internal/temporal/activities.go:637-670] findPod *)
Definition findPod (answers : pod_answers) (agentRunName podName : string) : result live_pod :=
  if negb (String.eqb agentRunName "") then
    match pa_list answers with
    | Err e => Err ("list pods by label: " +:+ e)
    | Ok pods =>
        match List.find (fun p => negb (lp_Deleted p) && negb (String.eqb (lp_Phase p) "Succeeded") && negb (String.eqb (lp_Phase p) "Failed")) pods with
        | Some p => Ok p
        | None =>
            match pods with
            | p :: _ => Ok p
            | [] => Err ("failed: no pod found with label aot.uncworks.io/agentrun=" +:+ agentRunName)
            end
        end
    end
  else match pa_get answers with Err e => Err ("get pod " +:+ podName +:+ ": " +:+ e) | Ok p => Ok p end.

(** [internal/temporal/activities.go:296-307] CheckPodStatus *)
Definition CheckPodStatus (answers : pod_answers) (input : CheckPodStatusInput) : result CheckPodStatusOutput :=
  match findPod answers "" (cp_PodName input) with
  | Err e => Err ("find pod " +:+ cp_PodName input +:+ ": " +:+ e)
  | Ok p => Ok {| cp_Phase := lp_Phase p; cp_Reason := lp_Reason p; cp_Message := lp_Message p |}
  end.

Definition evicted (p : live_pod) : string := "pod was evicted before hydration completed: " +:+ lp_Message p.

(** [internal/temporal/activities.go:129-178] WaitForHydration: what a pod says, if it decides *)
Definition hydration_verdict (p : live_pod) : option (result WaitForHydrationOutput) :=
  let done := Ok {| wh_PodIP := lp_IP p; wh_OutPodName := lp_Name p; wh_WorkspacePath := "" |} in
  if String.eqb (lp_Reason p) "Evicted" then Some (Err (evicted p))
  else match List.find (fun c => String.eqb c.1 "hydration" && bool_decide (c.2 <> None)) (lp_Init p) with
  | Some (_, Some t) =>
      Some (if (tm_ExitCode t =? 0)%Z then done
            else Err ("failed: hydration failed with exit code " +:+ Itoa (tm_ExitCode t) +:+ ": " +:+ tm_Message t))
  | _ =>
      if String.eqb (lp_Phase p) "Running" then Some done
      else if String.eqb (lp_Phase p) "Failed" then Some (Err ("failed: pod failed before hydration completed: " +:+ lp_Message p))
      else None
  end.

(** A round of a loop: the answers, and the error of the context when it is done at the end of the round. *)
Definition poll_round (A : Type) : Type := A * option string.

(** [internal/temporal/activities.go:109-187] WaitForHydration: over the rounds that there are *)
Fixpoint WaitForHydration (input : WaitForHydrationInput) (rounds : list (poll_round pod_answers)) : act_end WaitForHydrationOutput :=
  match rounds with
  | [] => Polling
  | (answers, cancelled) :: rounds =>
      let next := match cancelled with Some e => Fails ("wait for hydration: " +:+ e) | None => WaitForHydration input rounds end in
      match findPod answers (wh_AgentRunName input) (wh_PodName input) with
      | Err _ => next
      | Ok p =>
          match hydration_verdict p with
          | Some (Ok out) => Ended out
          | Some (Err e) => Fails e
          | None => next
          end
      end
  end.

(** ** The sidecar *)

(** [internal/temporal/activities.go:220-229] StartAgent: the request *)
Record start_request := {
  sr_Prompt : string; sr_RepoPath : string; sr_Stage : string; sr_EnvVars : list (string * string); sr_ParentSpanId : string; sr_TraceId : string;
}.

Definition start_request_of (input : StartAgentInput) : start_request :=
  {| sr_Prompt := sa_Prompt input; sr_RepoPath := sa_RepoPath input; sr_Stage := sa_Stage input;
     sr_EnvVars := if String.eqb (sa_Model input) "" then [] else [("PI_MODEL", sa_Model input)];
     sr_ParentSpanId := sa_ParentSpanID input; sr_TraceId := sa_TraceID input |}.

(** The answer: an error of the call, or whether it started and why not. *)
Definition start_answer : Type := result (bool * string).

(** [internal/temporal/activities.go:209-250] StartAgent: the answers to the attempts, at most thirty, and the number
    of requests that are made *)
Fixpoint start_attempts (fuel : nat) (lastErr : string) (rounds : list (poll_round start_answer)) : nat * act_end unit :=
  match fuel with
  | O => (O, Fails ("start agent RPC (sidecar not ready after 60s): " +:+ lastErr))
  | S fuel =>
      match rounds with
      | [] => (O, Polling)
      | (Ok (true, _), _) :: _ => (1%nat, Ended ())
      | (Ok (false, e), _) :: _ => (1%nat, Fails ("failed: agent did not start: " +:+ e))
      | (Err e, Some c) :: _ => (1%nat, Fails ("start agent: " +:+ c))
      | (Err e, None) :: rounds => let '(n, r) := start_attempts fuel e rounds in (S n, r)
      end
  end.

(** [internal/temporal/activities.go:209-250] StartAgent: the requests, which are all the same, and the end *)
Definition StartAgent (input : StartAgentInput) (rounds : list (poll_round start_answer)) : list start_request * act_end unit :=
  let '(n, r) := start_attempts 30 "" rounds in (replicate n (start_request_of input), r).

(** [internal/temporal/activities.go:266-280] GetAgentStatus: the state is printed by its generated method *)
Definition GetAgentStatus (answer : result (string * string)) : result GetAgentStatusOutput :=
  match answer with Err e => Err ("get status RPC: " +:+ e) | Ok (state, e) => Ok {| gs_State := state; gs_Error := e |} end.

(** [internal/temporal/activities.go:319-330] ForwardHumanInput: what is sent, and the error *)
Definition ForwardHumanInput (send : string * string -> option string) (input : ForwardHumanInputInput) : (string * string) * option string :=
  let req := (fh_AgentRunID input, fh_Input input) in (req, (fun e => "send input RPC: " +:+ e) <$> send req).

(** [internal/temporal/activities.go:341-351] StopAgent *)
Definition StopAgent (send : bool -> option string) (input : StopAgentInput) : bool * option string :=
  (st_Force input, (fun e => "stop agent RPC: " +:+ e) <$> send (st_Force input)).

(** The value of a span's metadata, and the members that are left out when they are empty. *)
Section trace.
Variable span_json : TraceSpanData -> string.
Variable exec : string -> exec_answer.

(** [internal/temporal/activities_trace.go:52-54] WriteTraceSpan: the command *)
Definition trace_command (data : string) : string :=
  "mkdir -p /workspace/.aot/traces && echo " +:+ shellescape data +:+ " >> /workspace/.aot/traces/spans.jsonl".

(** [internal/temporal/activities_trace.go:39-69] WriteTraceSpan: the command, and the error *)
Definition WriteTraceSpan (input : WriteTraceSpanInput) : string * option string :=
  let cmd := trace_command (span_json (ts_Span input)) in
  (cmd, match exec cmd with
        | ExecFails e => Some ("write trace span RPC: " +:+ e)
        | Exits 0 _ _ => None
        | Exits n _ err => Some ("failed: write trace span exited " +:+ Itoa n +:+ ": " +:+ err)
        end).
End trace.

(** [internal/temporal/activities.go:893-903] CollectAgentLogs: the log and the lines in the output of the script *)
Definition collected_logs (stdout : string) : string * string :=
  let stdout := TrimRight stdout (String "000" "") in
  let d := dec_struct [("logOutput", at_field fst (fun x r => (x, r.2)) dec_string); ("agentJSONL", at_field snd (fun x r => (r.1, x)) dec_string)] in
  match parse_json stdout with
  | None => (stdout, "")
  | Some v => let r := d ("", "") v in if r.2 then r.1 else (stdout, r.1.2)
  end.

(** [internal/temporal/activities.go:847-922] CollectAgentLogs: what the status is given, if it is; an error of the
    patch is only logged *)
Definition CollectAgentLogs (exec : result string) (input : CollectAgentLogsInput) : option (string * string) :=
  if String.eqb (cl_PodIP input) "" then None
  else match exec with Err _ => None | Ok stdout => Some (collected_logs stdout) end.

(** ** Keys for the models *)

(** [internal/litellm/client.go:70-74] safeBody: what follows a key up to a delimiter is left out *)
Fixpoint skip_token (s : string) : string :=
  match s with
  | "" => ""
  | String c t => if char_in (dquote +:+ " ,}") c then s else skip_token t
  end.

Fixpoint redact (fuel : nat) (s : string) : string :=
  match fuel with
  | O => ""
  | S fuel =>
      match Index s "sk-" with
      | None => s
      | Some i => str_take i s +:+ "sk-[REDACTED]" +:+ redact fuel (skip_token (str_drop (i + 3) s))
      end
  end.

(** [internal/litellm/client.go:54-77] safeBody *)
Definition safeBody (b : string) : string := let s := str_take (Z.to_nat 512) b in redact (S (String.length s)) s.

Section litellm.
(** budgets, with the default of a dollar and whether one is positive *)
Context {B : Type}.
Variable dollar : B.
Variable positive : B -> bool.

(** [internal/litellm/client.go:80-89] GenerateKeyRequest *)
Record GenerateKeyRequest := { gk_KeyAlias : string; gk_MaxBudget : B; gk_Models : list string; gk_Metadata : list (string * string) }.

Inductive litellm_call := GenerateKey_ (r : GenerateKeyRequest) | DeleteKey_ (keys : list string) | ListModels_.

(** [internal/litellm/client.go:29-33] Client: its requests, with the master key, and their answers *)
Record Client := { lc_masterKey : string; lc_do : string -> litellm_call -> result (Z * string) }.

(** A field that is decoded and not used. *)
Definition unused {A S} (zero : A) (d : dec A) : dec S := fun cur v => (cur, (d zero v).2).

Definition dec_key : dec string :=
  dec_struct [("key", dec_string); ("key_name", unused "" dec_string); ("expires", unused "" dec_string); ("spend", unused "" dec_number)].

Definition dec_models : dec (list string) :=
  dec_struct [("object", unused "" dec_string);
              ("data", dec_list "" (dec_struct [("id", dec_string); ("object", unused "" dec_string); ("owned_by", unused "" dec_string)]))].

(** [json.NewDecoder(r).Decode]: the first value of a body. *)
Definition first_value (body : string) : option json := fst <$> parse_value (S (2 * String.length body)) body.

(** A request of the client: an error, or the decoded answer. *)
Definition call {A} (what : string) (zero : A) (d : dec A) (client : Client) (c : litellm_call) : result A :=
  match lc_do client (lc_masterKey client) c with
  | Err e => Err ("send request: " +:+ e)
  | Ok (status, body) =>
      if negb (status =? 200)%Z then Err ("failed: " +:+ what +:+ " returned " +:+ Itoa status +:+ ": " +:+ safeBody body)
      else match first_value body with
      | None => Err "decode response"
      | Some v => let r := d zero v in if r.2 then Ok r.1 else Err "decode response"
      end
  end.

(** [internal/litellm/client.go:110-140] GenerateKey: the key *)
Definition GenerateKey (client : Client) (r : GenerateKeyRequest) : result string := call "key/generate" "" dec_key client (GenerateKey_ r).

(** [internal/litellm/client.go:143-172] DeleteKey *)
Definition DeleteKey (client : Client) (keys : list string) : result (list string) :=
  call "key/delete" [] (dec_struct [("deleted_keys", dec_list "" dec_string)]) client (DeleteKey_ keys).

(** [internal/litellm/client.go:188-211] ListModels: their identifiers *)
Definition ListModels (client : Client) : result (list string) := call "/v1/models" [] dec_models client ListModels_.

(** [internal/litellm/client.go:214-224] ModelIDs *)
Definition ModelIDs (client : Client) : result (list string) := ListModels client.

(** [internal/temporal/activities.go:555-564] modelsForTier *)
Definition modelsForTier (tier : string) : list string :=
  if String.eqb tier "premium" then ["default"; "default-cloud"; "premium"] else ["default"; "default-cloud"].

(** [internal/temporal/activities.go:592-601] ProvisionLLMKey: the request *)
Definition key_request (input : ProvisionLLMKeyInput) (budget : B) (models : list string) (tier : string) : GenerateKeyRequest :=
  {| gk_KeyAlias := "aot-" +:+ pk_Namespace input +:+ "-" +:+ pk_AgentRunName input; gk_MaxBudget := budget; gk_Models := models;
     gk_Metadata := [("agent_run", pk_AgentRunName input); ("namespace", pk_Namespace input); ("tier", tier)] |}.

(** [internal/temporal/activities.go:570-611] ProvisionLLMKey: [budget] is the input's *)
Definition ProvisionLLMKey (client : option Client) (budget : B) (input : ProvisionLLMKeyInput) : ProvisionLLMKeyOutput :=
  match client with
  | None => {| pk_Key := "" |}
  | Some client =>
      let tier := if String.eqb (pk_ModelTier input) "" then "default" else pk_ModelTier input in
      let budget := if positive budget then budget else dollar in
      let models := match ModelIDs client with Ok l => l | Err _ => modelsForTier tier end in
      match GenerateKey client (key_request input budget models tier) with
      | Ok key => {| pk_Key := key |}
      | Err _ => {| pk_Key := lc_masterKey client |}
      end
  end.

(** [internal/temporal/activities.go:619-634] RevokeLLMKey: the request, if one is made, and the error *)
Definition RevokeLLMKey (client : option Client) (input : RevokeLLMKeyInput) : option litellm_call * option string :=
  match client with
  | None => (None, None)
  | Some client =>
      let key := rk_Key input in
      if String.eqb key "" then (None, None)
      else if String.eqb key (lc_masterKey client) then (None, None)
      else (Some (DeleteKey_ [key]), match DeleteKey client [key] with Ok _ => None | Err e => Some ("revoke LLM key: " +:+ e) end)
  end.
End litellm.

(** * Properties *)

(** ** Secrets *)

Definition with_key (key : string) (i : CreateAgentDeploymentInput) : CreateAgentDeploymentInput :=
  {| cd_Name := cd_Name i; cd_Namespace := cd_Namespace i; cd_AgentRunName := cd_AgentRunName i; cd_Repos := cd_Repos i;
     cd_Prompt := cd_Prompt i; cd_DevboxConfig := cd_DevboxConfig i; cd_Image := cd_Image i; cd_EnvVars := cd_EnvVars i; cd_LLMKey := key;
     cd_LiteLLMBaseURL := cd_LiteLLMBaseURL i; cd_ModelID := cd_ModelID i; cd_SpecContent := cd_SpecContent i;
     cd_GitHubTokenSecretName := cd_GitHubTokenSecretName i |}.

(** The containers of a pod, the init container among them. *)
Definition all_containers (p : pod) : list container := pod_Init p ++ pod_Containers p.

(** Where a Secret is read. *)
Definition reads_secret (c : container) (secret key : string) : Prop := exists name, (name, EnvSecret secret key) ∈ ct_Env c.

Lemma base_env_texts input name v : (name, v) ∈ base_env input -> exists t, v = EnvText t.
Proof.
  unfold base_env, text_var. rewrite !elem_of_app, list_elem_of_fmap.
  intros [H|[H|[H|(k & [= -> ->] & _)]]]; [| | |by eauto].
  - rewrite !elem_of_cons, elem_of_nil in H. naive_solver.
  - destruct (String.eqb _ _); [by apply elem_of_nil in H|]. apply list_elem_of_singleton in H as [= -> ->]. by eauto.
  - destruct (String.eqb _ _); [by apply elem_of_nil in H|]. apply list_elem_of_singleton in H as [= -> ->]. by eauto.
Qed.

Lemma llm_env_texts input name v : (name, v) ∈ llm_env input -> exists t, v = EnvText t.
Proof.
  unfold llm_env, text_var. rewrite elem_of_app. intros [H|H]; revert H; repeat case_match;
    rewrite ?list_elem_of_singleton; try (by intros ?%elem_of_nil); intros [= -> ->]; by eauto.
Qed.

Lemma cudgel_env_texts env name v : (name, v) ∈ cudgel_env env -> exists t, v = EnvText t.
Proof. unfold cudgel_env, text_var. case_match; [by intros ?%elem_of_nil|]. intros [= -> ->]%list_elem_of_singleton. by eauto. Qed.

(** A Secret is read for one variable of the init container only. *)
Lemma secret_only_in_init env input c secret key :
  c ∈ all_containers (dp_Template (agent_deployment env input)) -> reads_secret c secret key ->
  ct_Name c = "hydration" /\ ("GITHUB_TOKEN", EnvSecret secret key) ∈ ct_Env c /\ secret = cd_GitHubTokenSecretName input /\ key = "token".
Proof.
  change (all_containers (dp_Template (agent_deployment env input))) with [hydration_container env input; agent_container env input; gateway_container env input].
  rewrite !elem_of_cons, elem_of_nil.
  intros [->|[->|[->|[]]]] [name Hin]; unfold hydration_container, agent_container, gateway_container in *; cbn [ct_Env ct_Name] in *.
  - unfold init_env in *. rewrite !elem_of_app in Hin. destruct Hin as [H|[H|H]].
    + by apply base_env_texts in H as [? ?].
    + by apply cudgel_env_texts in H as [? ?].
    + destruct (String.eqb _ _); [by apply elem_of_nil in H|]. apply list_elem_of_singleton in H as [= -> -> ->].
      split_and!; [done| |done..]. apply elem_of_app; right. apply elem_of_app; right. by apply list_elem_of_singleton.
  - exfalso. rewrite !elem_of_app in Hin. destruct Hin as [H|[H|H]].
    + by apply base_env_texts in H as [? ?].
    + by apply llm_env_texts in H as [? ?].
    + by apply cudgel_env_texts in H as [? ?].
  - exfalso. rewrite !elem_of_app in Hin. destruct Hin as [H|[H|H]].
    + unfold text_var in H. rewrite !elem_of_cons, elem_of_nil in H. naive_solver.
    + by apply llm_env_texts in H as [? ?].
    + by apply list_elem_of_singleton in H.
Qed.

(** What the sidecar's environment holds: its own variables and those of the models. *)
Definition gateway_variables : list string := ["AOT_AGENT_RUN_ID"; "PI_MODEL"; "OPENAI_BASE_URL"; "OPENAI_API_KEY"; "PI_ACCEPT_TOS"].

Lemma gateway_env env input v : v ∈ ct_Env (gateway_container env input) -> v.1 ∈ gateway_variables.
Proof.
  unfold gateway_container, gateway_variables, text_var. cbn [ct_Env]. rewrite !elem_of_app. intros [H|[H|H]].
  - rewrite !elem_of_cons, elem_of_nil in H. rewrite !elem_of_cons. naive_solver.
  - unfold llm_env, text_var in H. rewrite elem_of_app in H. rewrite !elem_of_cons. destruct H as [H|H]; revert H; repeat case_match;
      rewrite ?list_elem_of_singleton; try (by intros ?%elem_of_nil); intros ->; naive_solver.
  - apply list_elem_of_singleton in H as ->. rewrite !elem_of_cons. naive_solver.
Qed.

(** C22. In the pod of a run the GitHub token is read by the init container only, from the Secret that the run names;
    the init container is the same whatever the key for the models is; and the sidecar, which runs the agent, has its own
    variables and those of the models and none that the run gives. *)
Theorem pod_secrets_confined env input :
  (forall c secret key, c ∈ all_containers (dp_Template (agent_deployment env input)) -> reads_secret c secret key ->
     ct_Name c = "hydration" /\ ("GITHUB_TOKEN", EnvSecret secret key) ∈ ct_Env c /\ secret = cd_GitHubTokenSecretName input /\ key = "token") /\
  (forall key, pod_Init (dp_Template (agent_deployment env (with_key key input))) = pod_Init (dp_Template (agent_deployment env input))) /\
  (forall c v, c ∈ all_containers (dp_Template (agent_deployment env input)) -> ct_Name c = "rpc-gateway" -> v ∈ ct_Env c -> v.1 ∈ gateway_variables).
Proof.
  split_and!; [by apply secret_only_in_init|done|]. intros c v Hc Hn Hv.
  change (all_containers (dp_Template (agent_deployment env input))) with [hydration_container env input; agent_container env input; gateway_container env input] in Hc.
  rewrite !elem_of_cons, elem_of_nil in Hc. destruct Hc as [->|[->|[->|[]]]]; [done..|]. by eapply gateway_env.
Qed.

(** ** What is touched *)

(** Only the deployments and claims of agents differ. *)
Definition ours_only (n n' : namespace) : Prop :=
  (forall name, HasPrefix name "agentrun-" = false -> ns_deployments n' !! name = ns_deployments n !! name) /\
  (forall name, name <> "" -> HasPrefix name "aot-ws-" = false -> ns_claims n' !! name = ns_claims n !! name).

#[export] Instance ours_only_refl : Reflexive ours_only.
Proof. intros n. by split. Qed.

#[export] Instance ours_only_trans : Transitive ours_only.
Proof. intros a b c [D1 C1] [D2 C2]. split; intros; [rewrite D2|rewrite C2]; auto. Qed.

(** An activity that changes deployments or claims. *)
Inductive pod_activity := PCreate (i : CreateAgentDeploymentInput) | PScaleDown (i : ScaleDownDeploymentInput) | PArchive (i : ArchiveAndCleanupInput).

Definition run_activity (env : getenv) (fails : pod_call -> option string) (a : pod_activity) (n : namespace) : namespace :=
  let s := {| m_state := n; m_log := [] |} in
  match a with
  | PCreate i => m_state (CreateAgentDeployment env fails i s).1
  | PScaleDown i => m_state (ScaleDownDeployment fails i s).1
  | PArchive i => m_state (ArchiveAndCleanup fails i s).1
  end.

Definition run_activities (env : getenv) (l : list ((pod_call -> option string) * pod_activity)) (n : namespace) : namespace :=
  foldl (fun n a => run_activity env a.1 a.2 n) n l.

(** A workflow names its deployment with the prefix. *)
Definition named_ours (a : pod_activity) : bool := match a with PCreate i => HasPrefix (cd_Name i) "agentrun-" | _ => true end.

Section touched.
Variable env : getenv.
Variable fails : pod_call -> option string.

Lemma moves_pod_request {A} c (op : namespace -> namespace * A) :
  (forall n, ours_only n (op n).1) -> moves ours_only (R := string) (pod_request fails c op).
Proof.
  intros H. apply moves_command. intros n. destruct (fails c); [done|]. specialize (H n). by destruct (op n).
Qed.

Lemma ours_deployments m n : (forall name, HasPrefix name "agentrun-" = false -> m !! name = ns_deployments n !! name) -> ours_only n (with_deployments m n).
Proof. intros H. by split. Qed.

Lemma ours_claims m n : (forall name, name <> "" -> HasPrefix name "aot-ws-" = false -> m !! name = ns_claims n !! name) -> ours_only n (with_claims m n).
Proof. intros H. by split. Qed.

Lemma moves_create_claim run c : moves ours_only (R := string) (create_claim fails (claim_name run) c).
Proof.
  apply moves_pod_request. intros n. destruct (ns_claims n !! _); [done|]. apply ours_claims. intros name _ Hp.
  rewrite lookup_insert_ne; [done|]. intros <-. unfold claim_name in Hp. by rewrite HasPrefix_app in Hp.
Qed.

Lemma moves_create_deployment name d : HasPrefix name "agentrun-" = true -> moves ours_only (R := string) (create_deployment fails name d).
Proof.
  intros Hn. apply moves_pod_request. intros n. destruct (ns_deployments n !! _); [done|]. apply ours_deployments. intros name' Hp.
  rewrite lookup_insert_ne; [done|]. intros <-. by rewrite Hn in Hp.
Qed.

Lemma moves_update name d : HasPrefix name "agentrun-" = true ->
  moves ours_only (R := string) (pod_request fails (UpdateDeployment name) (fun n => (with_deployments (<[name := d]> (ns_deployments n)) n, ()))).
Proof.
  intros Hn. apply moves_pod_request. intros n. apply ours_deployments. intros name' Hp.
  rewrite lookup_insert_ne; [done|]. intros <-. by rewrite Hn in Hp.
Qed.

Lemma moves_delete_deployment name : HasPrefix name "agentrun-" = true -> moves ours_only (R := string) (delete_deployment fails name).
Proof.
  intros Hn. apply moves_pod_request. intros n. apply ours_deployments. intros name' Hp.
  rewrite lookup_delete_ne; [done|]. intros <-. by rewrite Hn in Hp.
Qed.

Lemma moves_delete_claim name : name = "" \/ HasPrefix name "aot-ws-" = true -> moves ours_only (R := string) (delete_claim fails name).
Proof.
  intros Hn. apply moves_pod_request. intros n. apply ours_claims. intros name' Hne Hp.
  rewrite lookup_delete_ne; [done|]. intros <-. destruct Hn as [->|Hn]; [done|]. by rewrite Hn in Hp.
Qed.

Hint Resolve moves_ret moves_return moves_create_claim moves_create_deployment moves_update moves_delete_deployment moves_delete_claim : shell.
Hint Extern 1 (Reflexive _) => tc_solve : shell.

Lemma run_activity_ours a n : named_ours a = true -> ours_only n (run_activity env fails a n).
Proof.
  destruct a as [i|i|i]; cbn [named_ours run_activity]; intros Hn.
  - refine ((_ : moves ours_only (CreateAgentDeployment env fails i)) {| m_state := n; m_log := [] |}).
    unfold CreateAgentDeployment. apply moves_bind; [tc_solve|auto with shell|]. intros [r|e]; [|auto with shell].
    apply moves_bind; [tc_solve|auto with shell|]. intros [r'|e]; auto with shell.
  - refine ((_ : moves ours_only (ScaleDownDeployment fails i)) {| m_state := n; m_log := [] |}).
    unfold ScaleDownDeployment. cbv zeta. destruct (HasPrefix _ _) eqn:E; cbn [negb]; [|auto with shell].
    apply moves_bind; [tc_solve|by apply moves_pod_request|]. intros [[d|]|e]; [|auto with shell..].
    apply moves_bind; [tc_solve|auto with shell|]. intros [r|e]; auto with shell.
  - refine ((_ : moves ours_only (ArchiveAndCleanup fails i)) {| m_state := n; m_log := [] |}).
    unfold ArchiveAndCleanup. cbv zeta. destruct (HasPrefix _ _) eqn:E; cbn [negb]; [|auto with shell].
    destruct (_ && _) eqn:Ep; [auto with shell|]. apply moves_bind; [tc_solve|auto with shell|]. intros [r|e]; [|auto with shell].
    assert (ac_PVCName i = "" \/ HasPrefix (ac_PVCName i) "aot-ws-" = true) as Hpvc.
    { destruct (String.eqb_spec (ac_PVCName i) ""); [by left|right]. by destruct (HasPrefix (ac_PVCName i) "aot-ws-"). }
    apply moves_bind; [tc_solve|auto with shell|]. intros [r'|e]; auto with shell.
Qed.
End touched.

(** The life of a run's objects, when no request fails. *)
Lemma objects_of_a_run env input n :
  HasPrefix (cd_Name input) "agentrun-" = true ->
  let quiet := fun _ => None in
  let pvc := claim_name (cd_AgentRunName input) in
  let n1 := run_activity env quiet (PCreate input) n in
  let n2 := run_activity env quiet (PScaleDown {| sd_DeploymentName := cd_Name input; sd_Namespace := cd_Namespace input |}) n1 in
  let n3 := run_activity env quiet (PArchive {| ac_DeploymentName := cd_Name input; ac_PVCName := pvc; ac_Namespace := cd_Namespace input |}) n2 in
  (exists d c, ns_deployments n1 !! cd_Name input = Some d /\ ns_claims n1 !! pvc = Some c /\
     ns_deployments n2 !! cd_Name input = Some (scaled_down d) /\ ns_claims n2 !! pvc = Some c) /\
  ns_deployments n3 !! cd_Name input = None /\ ns_claims n3 !! pvc = None.
Proof.
  intros Hp quiet pvc n1 n2 n3.
  assert (exists d c, ns_deployments n1 !! cd_Name input = Some d /\ ns_claims n1 !! pvc = Some c) as (d & c & Hd & Hc).
  { clear n3 n2. unfold n1, run_activity, CreateAgentDeployment. fold pvc. clearbody pvc. clear n1.
    unfold create_claim, create_deployment, pod_request, Shell.command, mbind, shell_bind, mret, shell_ret, return_.
    cbn. destruct (ns_claims n !! pvc) as [c|] eqn:Ec; cbn; destruct (ns_deployments n !! cd_Name input) as [d|] eqn:Ed; cbn;
      rewrite ?lookup_insert_eq, ?Ec, ?Ed; eauto. }
  assert (ns_deployments n2 !! cd_Name input = Some (scaled_down d) /\ ns_claims n2 !! pvc = Some c) as [Hd2 Hc2].
  { clear n3. unfold n2, run_activity, ScaleDownDeployment. clear n2. clearbody n1. cbn [sd_DeploymentName]. rewrite Hp. cbn [negb].
    unfold pod_request, Shell.command, mbind, shell_bind, mret, shell_ret, return_. cbn. rewrite Hd. cbn. by rewrite lookup_insert_eq. }
  split; [by exists d, c|]. clear Hd Hc Hd2 Hc2. unfold n3, run_activity, ArchiveAndCleanup. cbn [ac_DeploymentName ac_PVCName]. clearbody n2. rewrite Hp. cbn [negb].
  replace (HasPrefix pvc "aot-ws-") with true by (symmetry; apply HasPrefix_app). rewrite andb_false_r.
  unfold delete_deployment, delete_claim, pod_request, Shell.command, mbind, shell_bind, mret, shell_ret, return_. cbn. by rewrite !lookup_delete_eq.
Qed.

(** The activities touch the deployments and claims of agents only, whatever they are asked and whichever requests
    fail; and the objects of a run, once created, are scaled down with the workspace left in place, and removed when
    they are archived. *)
Theorem agent_objects_only env :
  (forall l n, Forall (fun a => named_ours a.2 = true) l -> ours_only n (run_activities env l n)) /\
  (forall input n, HasPrefix (cd_Name input) "agentrun-" = true ->
     let quiet := fun _ => None in
     let pvc := claim_name (cd_AgentRunName input) in
     let n1 := run_activity env quiet (PCreate input) n in
     let n2 := run_activity env quiet (PScaleDown {| sd_DeploymentName := cd_Name input; sd_Namespace := cd_Namespace input |}) n1 in
     let n3 := run_activity env quiet (PArchive {| ac_DeploymentName := cd_Name input; ac_PVCName := pvc; ac_Namespace := cd_Namespace input |}) n2 in
     (exists d c, ns_deployments n1 !! cd_Name input = Some d /\ ns_claims n1 !! pvc = Some c /\
        ns_deployments n2 !! cd_Name input = Some (scaled_down d) /\ ns_claims n2 !! pvc = Some c) /\
     ns_deployments n3 !! cd_Name input = None /\ ns_claims n3 !! pvc = None).
Proof.
  split; [|by apply objects_of_a_run]. intros l. induction l as [|[fails a] l IH]; intros n Hl; [done|].
  apply Forall_cons in Hl as [Ha Hl]. etrans; [by apply run_activity_ours|by apply IH].
Qed.

(** ** Waiting *)

(** The wait ends well only on a pod that has its workspace: its init container ended with 0, or it is running and no
    end of its init container says otherwise. *)
Lemma WaitForHydration_sound input rounds out : WaitForHydration input rounds = Ended out ->
  exists answers cancelled p, (answers, cancelled) ∈ rounds /\ findPod answers (wh_AgentRunName input) (wh_PodName input) = Ok p /\
    wh_PodIP out = lp_IP p /\ wh_OutPodName out = lp_Name p /\ lp_Reason p <> "Evicted" /\
    ((exists t, ("hydration", Some t) ∈ lp_Init p /\ tm_ExitCode t = 0%Z) \/ lp_Phase p = "Running").
Proof.
  induction rounds as [|[answers cancelled] rounds IH]; [done|]. cbn [WaitForHydration].
  assert (match cancelled with Some e => Fails ("wait for hydration: " +:+ e) | None => WaitForHydration input rounds end = Ended out ->
    exists answers' cancelled' p, (answers', cancelled') ∈ (answers, cancelled) :: rounds /\
    findPod answers' (wh_AgentRunName input) (wh_PodName input) = Ok p /\
    wh_PodIP out = lp_IP p /\ wh_OutPodName out = lp_Name p /\ lp_Reason p <> "Evicted" /\
    ((exists t, ("hydration", Some t) ∈ lp_Init p /\ tm_ExitCode t = 0%Z) \/ lp_Phase p = "Running")) as Hnext.
  { destruct cancelled; [done|]. intros (a & c & p & Hin & H)%IH. exists a, c, p. split; [by right|done]. }
  destruct (findPod _ _ _) as [p|] eqn:Ef; [|done]. destruct (hydration_verdict p) as [[out'|e]|] eqn:Ev; [|done|done].
  intros [= ->]. exists answers, cancelled, p. split; [by left|]. split; [done|]. revert Ev. unfold hydration_verdict. cbv zeta.
  destruct (String.eqb_spec (lp_Reason p) "Evicted"); [done|]. destruct (List.find _ _) as [[nm [t|]]|] eqn:El.
  - apply List.find_some in El as [Hin [Hnm%String.eqb_eq _]%andb_true_iff]. cbn in Hnm. subst nm.
    destruct (Z.eqb_spec (tm_ExitCode t) 0); [|done]. intros [= <-]. split_and!; [done..|]. left. exists t. split; [by apply list_elem_of_In|done].
  - destruct (String.eqb_spec (lp_Phase p) "Running"); [|by destruct (String.eqb _ _)]. intros [= <-]. split_and!; [done..|]. by right.
  - destruct (String.eqb_spec (lp_Phase p) "Running"); [|by destruct (String.eqb _ _)]. intros [= <-]. split_and!; [done..|]. by right.
Qed.

(** Thirty attempts to start the agent are made at most. *)
Lemma start_attempts_bounded fuel last rounds : (fst (start_attempts fuel last rounds) <= fuel)%nat.
Proof.
  revert last rounds. induction fuel as [|fuel IH]; intros last rounds; [done|]. cbn [start_attempts].
  destruct rounds as [|[[[[] e]|e] [c|]] rounds]; cbn; try lia. specialize (IH e rounds).
  destruct (start_attempts fuel e rounds). cbn in *. lia.
Qed.

(** ** Keys *)

(** The master key is never revoked. *)
Lemma master_key_kept {B} (client : Client (B := B)) key c :
  (RevokeLLMKey (Some client) {| rk_Key := key |}).1 = Some c -> key <> lc_masterKey client /\ c = DeleteKey_ [key].
Proof.
  unfold RevokeLLMKey. cbn. destruct (String.eqb key ""); [done|]. destruct (String.eqb_spec key (lc_masterKey client)); [done|].
  by intros [= <-].
Qed.

(** Every key in a text is redacted. *)
Fixpoint redacted (s : string) : bool :=
  (negb (HasPrefix s "sk-") || HasPrefix s "sk-[REDACTED]") && match s with "" => true | String _ t => redacted t end.

Lemma skip_token_shorter s : (String.length (skip_token s) <= String.length s)%nat.
Proof. induction s as [|c s IH]; [done|]. cbn [skip_token]. destruct (char_in _ c); cbn; lia. Qed.

(** A text in front of the first key of another one holds none itself. *)
Lemma redacted_app a r t : Index (a +:+ "sk-" +:+ r) "sk-" = Some (String.length a) -> redacted t = true ->
  redacted (a +:+ "sk-[REDACTED]" +:+ t) = true.
Proof.
  intros Hi Ht. induction a as [|c a IH]; [cbn; rewrite Ht; by destruct t|].
  assert (HasPrefix (String c (a +:+ "sk-" +:+ r)) "sk-" = false /\ Index (a +:+ "sk-" +:+ r) "sk-" = Some (String.length a)) as [Hp Hi'].
  { cbn [String.append Index] in Hi. unfold HasPrefix. destruct (String.prefix _ _); [done|].
    destruct (Index (a +:+ _) _); [|done]. cbn in Hi. injection Hi as ->. done. }
  specialize (IH Hi'). change ((negb (HasPrefix (String c (a +:+ "sk-[REDACTED]" +:+ t)) "sk-") || HasPrefix (String c (a +:+ "sk-[REDACTED]" +:+ t)) "sk-[REDACTED]")
    && redacted (a +:+ "sk-[REDACTED]" +:+ t) = true).
  rewrite IH, andb_true_r. apply orb_true_iff. left. apply negb_true_iff. revert Hp.
  assert (forall s, String.prefix "" s = true) as Hpre by (by intros []).
  destruct a as [|d [|e a]]; unfold HasPrefix; cbn -[String.prefix]; cbn [String.prefix]; rewrite ?Hpre; done.
Qed.

Lemma no_key_redacted s : Index s "sk-" = None -> redacted s = true.
Proof.
  induction s as [|c s IH]; [done|]. cbn [Index redacted]. unfold HasPrefix at 1. destruct (String.prefix _ _); [done|].
  intros H. cbn [negb orb andb]. apply IH. by destruct (Index s _).
Qed.

Lemma redact_redacted fuel s : (String.length s < fuel)%nat -> redacted (redact fuel s) = true.
Proof.
  revert s. induction fuel as [|fuel IH]; intros s Hf; [lia|]. cbn [redact]. destruct (Index s "sk-") as [i|] eqn:E; [|by apply no_key_redacted].
  pose proof E as E'. apply Index_Some in E' as (a & r & -> & <-).
  replace (str_take (String.length a) (a +:+ "sk-" +:+ r)) with a by (by rewrite str_take_app).
  replace (str_drop (String.length a + 3) (a +:+ "sk-" +:+ r)) with r by (clear; induction a; [done|]; done).
  eapply redacted_app; [exact E|]. apply IH. pose proof (skip_token_shorter r). rewrite !str_length_app in Hf. cbn in Hf. lia.
Qed.

(** The text of an error shows no key. *)
Lemma safeBody_redacted b : redacted (safeBody b) = true.
Proof. unfold safeBody. cbv zeta. apply redact_redacted. lia. Qed.

(** ** Examples *)

Definition sample_deployment : CreateAgentDeploymentInput :=
  {| cd_Name := "agentrun-r1"; cd_Namespace := "aot"; cd_AgentRunName := "r1";
     cd_Repos := [{| r_URL := "https://github.com/a/b"; r_Branch := "main"; r_Path := "" |}]; cd_Prompt := "go"; cd_DevboxConfig := "";
     cd_Image := ""; cd_EnvVars := [("B", "2"); ("A", "1")]; cd_LLMKey := "sk-1"; cd_LiteLLMBaseURL := "http://litellm:4000"; cd_ModelID := "default";
     cd_SpecContent := ""; cd_GitHubTokenSecretName := "github" |}.

Definition sample_env (key : string) : string := if String.eqb key "CUDGEL_ENDPOINT" then "http://cudgel" else "".

(** The variables of the run reach the container that sleeps, and the one that prepares the workspace; the agent is
    run by the sidecar, which asks for the address of the code search and is not given it. *)
Example variables_of_the_pod :
  (fun c => (ct_Name c, ct_Env c)) <$> all_containers (BuildAgentPod sample_env sample_deployment) =
    let base := [text_var "AOT_AGENT_RUN_ID" "r1";
      text_var "AOT_REPOS" ("[{" +:+ json_text "url" +:+ ":" +:+ json_text "https://github.com/a/b" +:+ "," +:+ json_text "branch" +:+ ":" +:+ json_text "main" +:+ "}]");
      text_var "AOT_PROMPT" "go"; text_var "A" "1"; text_var "B" "2"] in
    let llm := [text_var "OPENAI_BASE_URL" "http://litellm:4000/v1"; text_var "OPENAI_API_KEY" "sk-1"] in
    [("hydration", base ++ [text_var "CUDGEL_ENDPOINT" "http://cudgel"; ("GITHUB_TOKEN", EnvSecret "github" "token")]);
     ("agent", base ++ llm ++ [text_var "CUDGEL_ENDPOINT" "http://cudgel"]);
     ("rpc-gateway", [text_var "AOT_AGENT_RUN_ID" "r1"; text_var "PI_MODEL" "default"] ++ llm ++ [text_var "PI_ACCEPT_TOS" "1"])].
Proof. vm_compute. done. Qed.

(** A key that cannot be made is replaced by the master key, without a budget, which is then in the pod. *)
Example master_key_in_the_pod :
  ProvisionLLMKey 1%Z (fun b => (0 <? b)%Z) (Some {| lc_masterKey := "sk-master"; lc_do := fun _ _ => Ok (500%Z, "") |}) 0%Z
    {| pk_AgentRunName := "r1"; pk_Namespace := "aot"; pk_ModelTier := ""; pk_MaxBudget := 0 |} = {| pk_Key := "sk-master" |}.
Proof. done. Qed.

Example redacted_ex :
  safeBody ("{" +:+ json_text "key" +:+ ":" +:+ json_text "sk-abc" +:+ ", k: sk-d e}") =
    "{" +:+ json_text "key" +:+ ":" +:+ json_text "sk-[REDACTED]" +:+ ", k: sk-[REDACTED] e}".
Proof. vm_compute. done. Qed.

Example refused_names :
  (ArchiveAndCleanup (fun _ => None) {| ac_DeploymentName := "postgres"; ac_PVCName := ""; ac_Namespace := "aot" |}
     {| m_state := {| ns_deployments := ∅; ns_claims := ∅ |}; m_log := [] |}).2 = inr (not_ours "deployment" "postgres" "agentrun-").
Proof. vm_compute. done. Qed.

Lemma pod_secrets_confined_witness :
  exists c, c ∈ all_containers (dp_Template (agent_deployment sample_env sample_deployment)) /\ ct_Name c = "hydration" /\
    ("GITHUB_TOKEN", EnvSecret "github" "token") ∈ ct_Env c.
Proof.
  destruct (pod_secrets_confined sample_env sample_deployment) as (Hs & _ & _). exists (hydration_container sample_env sample_deployment).
  assert (hydration_container sample_env sample_deployment ∈ all_containers (dp_Template (agent_deployment sample_env sample_deployment))) as Hin by (by left).
  split; [exact Hin|]. destruct (Hs (hydration_container sample_env sample_deployment) "github" "token" Hin) as (H1 & H2 & _); [|by split].
  exists "GITHUB_TOKEN". vm_compute. do 6 right. by left.
Defined.

Lemma agent_objects_only_witness :
  let n := {| ns_deployments := ∅; ns_claims := ∅ |} in
  ours_only n (run_activities sample_env [(fun _ => None, PCreate sample_deployment)] n) /\
  is_Some (ns_deployments (run_activity sample_env (fun _ => None) (PCreate sample_deployment) n) !! "agentrun-r1").
Proof.
  cbv zeta. destruct (agent_objects_only sample_env) as [Ho Hl]. split; [apply Ho; by repeat constructor|].
  destruct (Hl sample_deployment {| ns_deployments := ∅; ns_claims := ∅ |} eq_refl) as [(d & c & Hd & _) _]. by exists d.
Defined.
