(* ===== verification/CliArgs.v ===== *)
(** * The arguments of the command line: [flag], durations, and [cmd/uncworks/runs.go]'s helpers.

    A set of flags is the list of their names and kinds.  What [Parse] has set is the list of the names with
    their values, as the arguments give them: the last one counts for a flag that is not repeated.  The text that
    [flag] prints for an error is not kept. *)

From S2P Require Import Prelude GoStrings GoTime.

Local Open Scope Z_scope.
Local Open Scope unc_scope.

(** ** Run IDs among the arguments *)

(** [cmd/uncworks/runs.go:341-351] isRunID *)
Definition isRunID (s : string) : bool :=
  Nat.eqb (String.length s) 9 && String.eqb (str_take 3 s) "ar-" &&
  negb (str_exists (fun c => negb (is_lower c || is_digit c)) (str_drop 3 s)).

(** [cmd/uncworks/runs.go:310-338] normalizeRunArgs: the loop, with the flags and the IDs it collects *)
Fixpoint normalize_loop (args : list string) : list string * list string :=
  match args with
  | [] => ([], [])
  | arg :: rest =>
      if isRunID arg then let '(flags, ids) := normalize_loop rest in (flags, arg :: ids)
      else if HasPrefix arg "-" then
        match rest with
        | next :: rest' =>
            if negb (Contains arg "=") && negb (HasPrefix next "-") && negb (isRunID next) then
              let '(flags, ids) := normalize_loop rest' in (arg :: next :: flags, ids)
            else let '(flags, ids) := normalize_loop rest in (arg :: flags, ids)
        | [] => ([arg], [])
        end
      else let '(flags, ids) := normalize_loop rest in (arg :: flags, ids)
  end.

(** [cmd/uncworks/runs.go:310-338] normalizeRunArgs *)
Definition normalizeRunArgs (args : list string) : list string :=
  let '(flags, ids) := normalize_loop args in flags ++ ids.

(** ** Numbers *)

(** The value of a digit in any base, as [strconv.ParseUint] reads it. *)
Definition base_digit (c : Ascii.ascii) : option Z :=
  if is_digit c then Some (digit_val c)
  else if is_lower (lower_char c) then Some (Z.of_N (code (lower_char c)) - 87) else None.

Fixpoint base_val (base acc : Z) (s : string) : option Z :=
  match s with
  | "" => Some acc
  | String c t =>
      if Ascii.eqb c "_" then base_val base acc t
      else d ← base_digit c; if base <=? d then None else base_val base (acc * base + d) t
  end.

(** [strconv]'s rule for underscores: one comes after a digit or the prefix and before a digit. *)
Fixpoint underscores_ok (hex : bool) (saw : Ascii.ascii) (s : string) : bool :=
  match s with
  | "" => negb (Ascii.eqb saw "_")
  | String c t =>
      if is_digit c || (hex && in_range 97 102 (lower_char c)) then underscores_ok hex "0" t
      else if Ascii.eqb c "_" then Ascii.eqb saw "0" && underscores_ok hex "_" t
      else negb (Ascii.eqb saw "_") && underscores_ok hex "!" t
  end.

(** The base that a literal's prefix gives, and what follows the prefix. *)
Definition int_base (s : string) : Z * string * bool :=
  match s with
  | String "0" (String c (String d t)) =>
      if Ascii.eqb (lower_char c) "b" then (2, String d t, true)
      else if Ascii.eqb (lower_char c) "o" then (8, String d t, true)
      else if Ascii.eqb (lower_char c) "x" then (16, String d t, true)
      else (8, String c (String d t), false)
  | String "0" t => (8, t, false)
  | _ => (10, s, false)
  end.

(** [strconv.ParseInt(s, 0, 64)]: [None] for every error. *)
Definition ParseInt0 (s : string) : option Z :=
  let '(neg, u) := match s with
                   | String "-" t => (true, t) | String "+" t => (false, t) | _ => (false, s) end in
  if String.eqb u "" then None
  else
    let '(base, t, prefixed) := int_base u in
    v ← base_val base 0 t;
    if Contains u "_" && negb (underscores_ok (base =? 16) (if prefixed then "0" else "^")
                                  (if prefixed then t else u)) then None
    else let v := if neg : bool then - v else v in if in_int64 v then Some v else None.

(** [strconv.ParseBool]. *)
Definition ParseBool (s : string) : option bool :=
  if bool_decide (s ∈ ["1"; "t"; "T"; "true"; "TRUE"; "True"]) then Some true
  else if bool_decide (s ∈ ["0"; "f"; "F"; "false"; "FALSE"; "False"]) then Some false
  else None.

(** ** Durations, in nanoseconds *)

Definition units : list (string * Z) :=
  [("ns", 1); ("us", 1000); ("µs", 1000); ("μs", 1000); ("ms", 1000000); ("s", 1000000000);
   ("m", 60000000000); ("h", 3600000000000)].

Definition unit_of (u : string) : option Z := snd <$> List.find (fun kv => String.eqb kv.1 u) units.

(** The digits in front of a string: how many there are, their value, and the rest. *)
Fixpoint leading_digits (n : nat) (acc : Z) (s : string) : nat * Z * string :=
  match s with
  | String c t => if is_digit c then leading_digits (S n) (acc * 10 + digit_val c) t else (n, acc, s)
  | "" => (n, acc, s)
  end.

(** A unit ends at a digit or a point. *)
Fixpoint leading_unit (s : string) : string * string :=
  match s with
  | String c t =>
      if is_digit c || Ascii.eqb c "." then ("", s)
      else let '(u, r) := leading_unit t in (String c u, r)
  | "" => ("", "")
  end.

Definition invalid_duration (s : string) : string := "time: invalid duration " +:+ Quote s.

Section durations.
(** A fraction is multiplied in floating point: its digits, how many they are, and the unit. *)
Context (fraction : Z -> nat -> Z -> Z).

Fixpoint duration_terms (fuel : nat) (orig : string) (d : Z) (s : string) : result Z :=
  match fuel with
  | O => Err (invalid_duration orig)
  | S fuel =>
      if String.eqb s "" then Ok d
      else
        let '(pre, v, s) := leading_digits 0 0 s in
        let '(post, f, s) := match s with
                             | String "." t => leading_digits 0 0 t
                             | _ => (0%nat, 0, s)
                             end in
        if bool_decide (pre = 0%nat /\ post = 0%nat) || (2 ^ 63 <? v) then Err (invalid_duration orig)
        else
          let '(u, s) := leading_unit s in
          if String.eqb u "" then Err ("time: missing unit in duration " +:+ Quote orig)
          else match unit_of u with
               | None => Err ("time: unknown unit " +:+ Quote u +:+ " in duration " +:+ Quote orig)
               | Some unit =>
                   let v := v * unit + (if 0 <? f then fraction f post unit else 0) in
                   let d := (d + v) mod 2 ^ 64 in
                   if (2 ^ 63 <? v) || (2 ^ 63 <? d) then Err (invalid_duration orig)
                   else duration_terms fuel orig d s
               end
  end.

(** [time.ParseDuration]. *)
Definition ParseDuration (s : string) : result Z :=
  let '(neg, t) := match s with
                   | String "-" t => (true, t) | String "+" t => (false, t) | _ => (false, s) end in
  if String.eqb t "0" then Ok 0
  else if String.eqb t "" then Err (invalid_duration s)
  else try d := duration_terms (S (String.length t)) s 0 t in
       if neg : bool then Ok (- d) else if 2 ^ 63 - 1 <? d then Err (invalid_duration s) else Ok d.
End durations.

(** The fraction of a number of seconds or smaller units, as [Duration.String] prints it. *)
Definition print_fraction (prec : nat) (u : Z) : string :=
  let trimmed := TrimRight (zero_padded prec (u mod 10 ^ Z.of_nat prec)) "0" in
  if String.eqb trimmed "" then "" else "." +:+ trimmed.

(** [time.Duration.String]. *)
Definition DurationString (d : Z) : string :=
  let u := Z.abs d in
  let body :=
    if u =? 0 then "0s"
    else if u <? 1000 then Itoa u +:+ "ns"
    else if u <? 1000000 then Itoa (u / 1000) +:+ print_fraction 3 u +:+ "µs"
    else if u <? 1000000000 then Itoa (u / 1000000) +:+ print_fraction 6 u +:+ "ms"
    else
      let secs := u / 1000000000 in
      let mins := secs / 60 in
      (if 0 <? mins / 60 then Itoa (mins / 60) +:+ "h" else "") +:+
      (if 0 <? mins then Itoa (mins mod 60) +:+ "m" else "") +:+
      Itoa (secs mod 60) +:+ print_fraction 9 u +:+ "s" in
  if d <? 0 then "-" +:+ body else body.

(** ** [flag] *)

Inductive fkind := KBool | KString | KInt | KDuration | KRepeated.

Definition flagset := list (string * fkind).

(** What the arguments set, and those that follow the flags. *)
Record parsed := { pa_set : list (string * string); pa_args : list string }.

Inductive parse_error := ErrHelp | BadFlag (msg : string).

Definition parse_text (e : parse_error) : string :=
  match e with ErrHelp => "flag: help requested" | BadFlag msg => msg end.

Definition kind_of (formal : flagset) (name : string) : option fkind :=
  snd <$> List.find (fun kv => String.eqb kv.1 name) formal.

(** The name in a flag and the value after [=], if there is one; the sign is not in front. *)
Definition split_flag (name : string) : string * option string :=
  match name with
  | String c t => match Cut t "=" with
                  | (n, v, true) => (String c n, Some v)
                  | _ => (name, None)
                  end
  | "" => ("", None)
  end.

Section flags.
Context (fraction : Z -> nat -> Z -> Z).

(** [Value.Set]: whether a flag of this kind takes the value. *)
Definition takes (k : fkind) (v : string) : bool :=
  match k with
  | KBool => bool_decide (is_Some (ParseBool v))
  | KInt => bool_decide (is_Some (ParseInt0 v))
  | KDuration => is_ok (ParseDuration fraction v)
  | KString | KRepeated => true
  end.

Definition add_setting (name v : string) (r : parse_error + parsed) : parse_error + parsed :=
  match r with
  | inl e => inl e
  | inr p => inr {| pa_set := (name, v) :: pa_set p; pa_args := pa_args p |}
  end.

Definition set_flag (k : fkind) (name v : string) (r : parse_error + parsed) : parse_error + parsed :=
  if takes k v then add_setting name v r
  else inl (BadFlag ("invalid value " +:+ Quote v +:+ " for flag -" +:+ name)).

(** [FlagSet.Parse]: flags up to the first argument that is not one, or to [--]. *)
Fixpoint Parse (formal : flagset) (args : list string) : parse_error + parsed :=
  match args with
  | [] => inr {| pa_set := []; pa_args := [] |}
  | s :: rest =>
      if String.eqb s "-" || negb (HasPrefix s "-") then inr {| pa_set := []; pa_args := args |}
      else if String.eqb s "--" then inr {| pa_set := []; pa_args := rest |}
      else
        let name := if HasPrefix s "--" then str_drop 2 s else str_drop 1 s in
        if HasPrefix name "-" || HasPrefix name "=" then inl (BadFlag ("bad flag syntax: " +:+ s))
        else
          let '(name, value) := split_flag name in
          match kind_of formal name with
          | None =>
              if String.eqb name "help" || String.eqb name "h" then inl ErrHelp
              else inl (BadFlag ("flag provided but not defined: -" +:+ name))
          | Some k =>
              match value, k, rest with
              | Some v, _, _ => set_flag k name v (Parse formal rest)
              | None, KBool, _ => add_setting name "true" (Parse formal rest)
              | None, _, v :: rest' => set_flag k name v (Parse formal rest')
              | None, _, [] => inl (BadFlag ("flag needs an argument: -" +:+ name))
              end
          end
  end.

(** ** What a flag is after parsing: the last value, or the default *)

Definition setting (p : parsed) (name : string) : option string :=
  last (snd <$> filter (fun kv => kv.1 = name) (pa_set p)).

Definition flag_string (p : parsed) (name : string) (d : string) : string := default d (setting p name).
Definition flag_bool (p : parsed) (name : string) : bool := default false (v ← setting p name; ParseBool v).
Definition flag_int (p : parsed) (name : string) (d : Z) : Z := default d (v ← setting p name; ParseInt0 v).

Definition flag_duration (p : parsed) (name : string) (d : Z) : Z :=
  match setting p name with
  | Some v => match ParseDuration fraction v with Ok t => t | Err _ => d end
  | None => d
  end.

(** [cmd/uncworks/run.go:19-25] multiFlag: the values of a repeated flag, in order *)
Definition multiFlag (p : parsed) (name : string) : list string :=
  snd <$> filter (fun kv => kv.1 = name) (pa_set p).

(** ** Windows of time *)

(** [fmt.Sscanf(s, "%d", &n)]: a number in front of the text, spaces apart. *)
Definition Sscanf_d (s : string) : option Z :=
  let s := TrimLeftFunc (fun c => is_space c && negb (Ascii.eqb c "010")) s in
  let '(neg, t) := match s with
                   | String "-" t => (true, t) | String "+" t => (false, t) | _ => (false, s) end in
  let '(n, v, _) := leading_digits 0 0 t in
  if bool_decide (n = 0%nat) then None
  else let v := if neg : bool then - v else v in if in_int64 v then Some v else None.

Definition wrap64 (z : Z) : Z := (z + 2 ^ 63) mod 2 ^ 64 - 2 ^ 63.

(** [cmd/uncworks/runs.go:5857-5871] parseSinceDuration *)
Definition parseSinceDuration (s : string) : result Z :=
  if HasSuffix s "d" then
    match Sscanf_d (TrimSuffix s "d") with
    | Some days =>
        if days <=? 0 then
          Err ("invalid input: invalid duration " +:+ Quote s +:+ ": days must be a positive integer")
        else Ok (wrap64 (wrap64 (days * 24) * 3600000000000))
    | None => Err ("invalid input: invalid duration " +:+ Quote s +:+ ": days must be a positive integer")
    end
  else match ParseDuration fraction s with
       | Ok d => Ok d
       | Err e => Err ("parse since duration: " +:+ e)
       end.
End flags.

(** [cmd/uncworks/runs.go:5850-5855] min *)
Definition min (a b : Z) : Z := if a <? b then a else b.

(** ** How times are shown: [cmd/uncworks/tui.go] *)

(** [time.Duration.Round] to a positive multiple [m]: halves go away from zero. *)
Definition Round (m d : Z) : Z :=
  let r := Z.rem d m in
  if d <? 0 then if - r + - r <? m then d - r else d - r - m
  else if r + r <? m then d - r else d - r + m.

Definition second : Z := 1000000000.
Definition minute : Z := 60 * second.
Definition hour : Z := 60 * minute.
Definition day : Z := 24 * hour.

Definition two_digits (z : Z) : string := zero_padded 2 z.

(** [cmd/uncworks/tui.go:126-141] formatDuration *)
Definition formatDuration (d : Z) : string :=
  if d <? second then "<1s"
  else
    let d := Round second d in
    if d <? minute then Itoa (d / second) +:+ "s"
    else if d <? hour then Itoa (d / minute) +:+ "m" +:+ two_digits (d mod minute / second) +:+ "s"
    else if d <? day then Itoa (d / hour) +:+ "h" +:+ two_digits (d mod hour / minute) +:+ "m"
    else Itoa (d / day) +:+ "d" +:+ two_digits (d mod day / hour) +:+ "h".

(** [cmd/uncworks/tui.go:143-158] relativeTime: of the time since then *)
Definition relativeTime (since : Z) : string :=
  let d := Round second since in
  if d <? 0 then "just now"
  else if d <? minute then Itoa (d / second) +:+ "s ago"
  else if d <? hour then Itoa (d / minute) +:+ "m ago"
  else if d <? day then Itoa (d / hour) +:+ "h ago"
  else Itoa (d / day) +:+ "d ago".

(** ** Which command is meant *)

Inductive subcommand :=
| CList | CGet | CDescribe | CLogs | CTail | CWatch | CArchive | CUnarchive | CArchiveDone | CArchiveFailed | CPrune
| CCancel | CCost | CVelocity | CPercentiles | CAnomalies | CStats | COpen | CRetry | CCancelAll | CGraph | CLatest
| CCount | CExport | CVerify | CDiff | CInspect | CWait | CRetryFailed | CSummary | CMultiTail | CTop | CBatch
| CHistogram | CGroup | CUI | CSearch | CTimeline | CCompare | CCredits | CAlias | CEnv | CSlow | CScore | CTally
| CCommits | CSetup | CTeardown | CStatus | COpenUI | CConnect | CTUI | CRun | CInput | CPing | CSearchPast | CConfig
| CCite | CSpec | CGate.

#[export] Instance subcommand_eq_dec : EqDecision subcommand.
Proof. solve_decision. Defined.

(** A command with its arguments, the help, an error, or a word that names no command. *)
Inductive routed := Call (c : subcommand) (args : list string) | Help | Misused (msg : string) | NoCommand.

(** The names of a command with the arguments that are put in front of the user's. *)
Definition routes := list (list string * subcommand * list string).

Definition route_of (table : routes) (name : string) (args : list string) : option routed :=
  (fun r => Call r.1.2 (r.2 ++ args)) <$> List.find (fun r => bool_decide (name ∈ r.1.1)) table.

(** [cmd/uncworks/runs.go:302-305] runRunsGetField *)
Definition get_field (field : string) : list string := ["--field"; field].

(** [cmd/uncworks/runs.go:121-299] runRuns: the table *)
Definition runs_routes : routes :=
  [(["list"], CList, []); (["get"; "show"], CGet, []); (["describe"], CDescribe, []); (["logs"], CLogs, []);
   (["tail"], CTail, []); (["watch"], CWatch, []); (["archive"], CArchive, []); (["unarchive"], CUnarchive, []);
   (["archive-done"], CArchiveDone, []); (["archive-failed"], CArchiveFailed, []); (["prune"], CPrune, []);
   (["cancel"; "kill"], CCancel, []); (["cost"], CCost, []); (["velocity"], CVelocity, []);
   (["percentiles"; "pct"], CPercentiles, []); (["anomalies"], CAnomalies, []); (["stats"], CStats, []);
   (["open"; "open-pr"; "pr"], COpen, []); (["retry"; "rerun"; "copy"; "duplicate"], CRetry, []);
   (["cancel-all"; "kill-all"], CCancelAll, []); (["graph"], CGraph, []); (["latest"], CLatest, []);
   (["count"], CCount, []); (["export"], CExport, []); (["verify"], CVerify, []); (["diff"], CDiff, []);
   (["inspect"], CInspect, []); (["wait"], CWait, []); (["retry-failed"], CRetryFailed, []);
   (["summary"], CSummary, []); (["multi-tail"; "multi-logs"], CMultiTail, []); (["top"], CTop, []);
   (["batch"], CBatch, []); (["histogram"], CHistogram, []); (["group"], CGroup, []); (["ui"], CUI, []);
   (["search"], CSearch, []); (["timeline"], CTimeline, []); (["compare"], CCompare, []);
   (["credits"], CCredits, []); (["alias"; "aliases"], CAlias, []); (["today"], CList, ["--since"; "24h"; "--all"]);
   (["week"], CList, ["--since"; "7d"; "--all"]); (["failed"], CList, ["--failed"]);
   (["done"; "succeeded"], CList, ["--done"]); (["pending"], CList, ["--pending"]);
   (["running"], CList, ["--running"]); (["waiting"], CList, ["--waiting"]);
   (["cancelled"], CList, ["--cancelled"]); (["recent"], CList, ["--since"; "24h"; "--all"]);
   (["by-project"], CGroup, ["--by"; "project"]); (["by-feature"], CGroup, ["--by"; "feature"]);
   (["by-model"], CGroup, ["--by"; "model"]); (["env"], CEnv, []); (["slow"], CSlow, []);
   (["score"; "rate"], CScore, []); (["tally"], CTally, []); (["queue"], CList, ["--pending"; "--all"]);
   (["retry-last"], CRetry, ["--last"]); (["tail-last"], CTail, ["--last"]); (["notify"], CWait, ["--notify"]);
   (["commits"; "log"], CCommits, []); (["question"], CGet, get_field "question");
   (["prompt"], CGet, get_field "prompt"); (["id"], CGet, get_field "id");
   (["phase"; "status"], CGet, get_field "phase"); (["message"; "msg"], CGet, get_field "message");
   (["pr-url"; "pr-link"], CGet, get_field "pr-url"); (["branch"], CGet, get_field "branch");
   (["model"], CGet, get_field "model"); (["duration"], CGet, get_field "duration"); (["age"], CGet, get_field "age");
   (["tags"], CGet, get_field "tags"); (["active"], CList, ["--active"; "--all"]);
   (["last-failed"], CList, ["--failed"; "--limit=1"]);
   (["zero-commits"], CList, ["--zero-commits"; "--done"; "--all"]);
   (["committed"], CList, ["--has-diff"; "--all"]);
   (["approvals"], CList, ["--phase"; "WAITING"; "--show-approval"; "--all"])].

(** [cmd/uncworks/runs.go:121-299] runRuns *)
Definition runRuns (args : list string) : routed :=
  match args with
  | [] => NoCommand
  | sub :: rest =>
      match route_of runs_routes sub rest with
      | Some r => r
      | None =>
          if String.eqb sub "children" then
            match rest with
            | [] => Misused "invalid input: parent run ID required"
            | id :: rest => Call CList (["--parent-run-id"; id; "--all"] ++ rest)
            end
          else if bool_decide (sub ∈ ["-h"; "--help"; "help"]) then Help
          else NoCommand
      end
  end.

(** [cmd/uncworks/main.go:71-145] main: the table *)
Definition main_routes : routes :=
  [(["setup"], CSetup, []); (["teardown"], CTeardown, []); (["status"], CStatus, []); (["open"], COpenUI, []);
   (["connect"], CConnect, []); (["tui"], CTUI, []); (["run"], CRun, []); (["jobs"], CList, ["--active"]);
   (["failed"], CList, ["--failed"]); (["top"], CTop, []); (["watch"], CWatch, []); (["last"], CGet, ["--last"]);
   (["tail"], CTail, ["--last"]); (["wait"], CWait, ["--last"]); (["cancel"; "kill"], CCancel, []);
   (["input"], CInput, []); (["graph"], CGraph, []); (["ping"], CPing, []); (["summary"], CSummary, []);
   (["score"], CScore, []); (["tally"], CTally, []); (["stats"], CStats, []); (["search"], CSearchPast, []);
   (["config"], CConfig, []); (["cite"], CCite, []); (["spec"], CSpec, []); (["gate"], CGate, [])].

(** [cmd/uncworks/main.go:106-123] main: approving and rejecting *)
Definition answer_routes (cmd : string) (args : list string) : option routed :=
  if String.eqb cmd "approve" then
    match args with
    | [] => Some (Misused "invalid input: usage: uncworks approve <run-id>")
    | id :: rest => Some (Call CInput ([id; "approve"] ++ rest))
    end
  else if String.eqb cmd "reject" then
    match args with
    | [] => Some (Misused "invalid input: usage: uncworks reject <run-id> [reason]")
    | id :: reasons =>
        Some (Call CInput [id; if bool_decide (reasons = []) then "rejected" else "reject: " +:+ Join reasons " "])
    end
  else None.

(** [cmd/uncworks/main.go:61-159] main: the arguments after the program's name *)
Definition main (argv : list string) : routed :=
  match argv with
  | [] => NoCommand
  | cmd :: args =>
      if String.eqb cmd "runs" then runRuns args
      else match answer_routes cmd args with
           | Some r => r
           | None =>
               match route_of main_routes cmd args with
               | Some r => r
               | None => if bool_decide (cmd ∈ ["-h"; "--help"; "help"; "-v"; "--version"; "version"]) then Help
                         else NoCommand
               end
           end
  end.
