(* ===== verification/CliRuns.v ===== *)
(** * The commands of the command line that act on runs: [cmd/uncworks].

    A command is run against a world: the server, the terminal, the files and the other programs, whose state is of
    any type.  What a command does is the list of its events, in order, with the answers that it got.  The times
    of messages are Unix seconds; the clock and the thresholds are in nanoseconds.  Messages come from
    [crdToProto], which sets the pointers that the getters here return.  Lines are printed without [fmt]'s newline, and
    the help of [flag] is not printed. *)

From S2P Require Import Prelude GoStrings ApiTypes ApiProto ApiServer ApiList Json JsonDecode OpenSpec Shell CliArgs.

Local Open Scope Z_scope.

(** ** The world *)

(** The codes of [connect] that the server answers with, and two that a proxy in front of it may answer with. *)
Inductive client_code := Served (c : rpc_code) | Unauthenticated | PermissionDenied.

(** An error of a call: of the protocol, or of anything else. *)
Inductive rpc_error := ConnectError (c : client_code) (msg : string) | OtherError (msg : string).

(** [cmd/uncworks/tui.go:528-560] humanizeErr *)
Definition humanizeErr (e : rpc_error) : string :=
  match e with
  | ConnectError (Served Unavailable) _ => "server unavailable — is UNCWORKS running?"
  | ConnectError Unauthenticated _ => "authentication required — check your credentials"
  | ConnectError PermissionDenied _ => "permission denied"
  | ConnectError (Served CodeNotFound) _ => "resource not found"
  | ConnectError (Served Unimplemented) _ => "feature not available in this server version"
  | ConnectError (Served ResourceExhausted) msg => "request rejected: " +:+ msg
  | ConnectError _ msg => msg
  | OtherError msg =>
      if Contains msg "connection refused" then "connection refused — is 'uncworks open' running?"
      else if Contains msg "no such host" then "host not found, check the 'uncworks connect' address"
      else msg
  end.

#[export] Instance rpc_code_eq_dec : EqDecision rpc_code.
Proof. solve_decision. Defined.
#[export] Instance client_code_eq_dec : EqDecision client_code.
Proof. solve_decision. Defined.

#[export] Instance rpc_error_eq_dec : EqDecision rpc_error.
Proof. solve_decision. Defined.

(** The answer to an HTTP request: it was not built, it was not answered, or its status with its body. *)
Inductive post_answer := NotBuilt (msg : string) | NotAnswered (msg : string) | Status (code : Z) (body : string).

(** How an editing session ends. *)
Inductive edit_answer := NoTempFile (msg : string) | EditorFailed (msg : string) | NotRead (msg : string) | Edited (text : string).

(** [cmd/uncworks/config.go:13-30] Config *)
Record Config := {
  cfg_Address : string; cfg_WebURL : string; cfg_DefaultModelTier : string; cfg_DefaultProject : string;
  cfg_DefaultFeature : string; cfg_DefaultAutoPush : bool;
}.

(** What a command shows of runs as a table or as JSON is the event [EShown] with the runs and the cursor after them. *)

(** A stream: it was not opened, or the events that come; whether it ends after them, or stays open for ever with nothing more to
    come; the error that it ends with; and whether the time was over then. *)
Record stream_answer := {
  sa_Events : rpc_error + list AgentRunEvent; sa_Ends : bool; sa_Err : option rpc_error; sa_TimedOut : bool }.

Inductive event :=
| EList (base : string) (q : ListAgentRunsRequest) (a : rpc_error + (list PRun * string))
| EGet (base id : string) (a : rpc_error + PRun)
| ECreate (base : string) (spec : PSpec) (a : rpc_error + PRun)
| ECancel (base id : string) (a : option rpc_error)
| EInput (base id text : string) (a : option rpc_error)
| EPost (url : string) (archived : bool) (a : post_answer)
| EWatch (base id : string) (timeout : Z) (a : stream_answer)
| EScan (a : string * bool)
| EStdin (a : result string)
| EReadFile (path : string) (a : result string)
| EWriteFile (path text : string) (a : option string)
| EEdit (a : edit_answer)
| EGit (args : list string) (a : option string)
| EHook (cmd : string) (env : list string) (a : option string)
| ENotify (title body : string)
| EShown (runs : list PRun) (next : string)
| EOut (line : string)
| EErr (line : string).

Record world (S : Type) := {
  w_List : string -> ListAgentRunsRequest -> S -> S * (rpc_error + (list PRun * string));
  w_Get : string -> string -> S -> S * (rpc_error + PRun);
  w_Create : string -> PSpec -> S -> S * (rpc_error + PRun);
  w_Cancel : string -> string -> S -> S * option rpc_error;
  w_Input : string -> string -> string -> S -> S * option rpc_error;
  w_Post : string -> bool -> S -> S * post_answer;
  w_Watch : string -> string -> Z -> S -> S * stream_answer;
  w_Scan : S -> S * (string * bool);
  w_Stdin : S -> S * result string;
  w_ReadFile : string -> S -> S * result string;
  w_WriteFile : string -> string -> S -> S * option string;
  w_Edit : S -> S * edit_answer;
  w_Git : list string -> S -> S * option string;
  w_Hook : string -> list string -> S -> S * option string;
  w_Now : S -> S * Z;
  w_Config : result Config;
}.
Arguments w_List {S}. Arguments w_Get {S}. Arguments w_Create {S}. Arguments w_Cancel {S}. Arguments w_Input {S}.
Arguments w_Post {S}. Arguments w_Watch {S}. Arguments w_Scan {S}. Arguments w_Stdin {S}. Arguments w_ReadFile {S}.
Arguments w_WriteFile {S}. Arguments w_Edit {S}. Arguments w_Git {S}. Arguments w_Hook {S}. Arguments w_Now {S}.
Arguments w_Config {S}.

(** How a command ends: [os.Exit], or a result; or it waits for ever for a stream that stays open; or a listing has more pages
    than there is fuel for. *)
Inductive ending := Exit (code : Z) | Returned (r : result unit) | Endless | Unfinished.

(** ** What the commands read of messages *)

Definition GetCreatedAt (r : PRun) : option time := Some (pn_CreatedAt r).
Definition GetSpec (r : PRun) : option PSpec := Some (pn_Spec r).
Definition AsTime (t : time) : Z := t * second.
Definition phase_of (r : PRun) : PPhase := px_Phase (pn_Status r).

(** [cmd/uncworks/tui.go:93-110] phaseLabel *)
Definition phaseLabel (p : PPhase) : string :=
  match p with
  | PHASE_PENDING => "PENDING"
  | PHASE_RUNNING => "RUNNING"
  | PHASE_WAITING_FOR_INPUT => "WAITING"
  | PHASE_SUCCEEDED => "DONE"
  | PHASE_FAILED => "FAILED"
  | PHASE_CANCELLED => "CANCELLED"
  | PHASE_UNSPECIFIED => "UNKNOWN"
  end.

(** The request that a command starts from. *)
Definition list_request (limit : Z) (phase : PPhase) (project feature tag cursor : string) : ListAgentRunsRequest :=
  {| lq_Limit := limit; lq_Cursor := cursor; lq_PhaseFilter := phase; lq_ParentRunId := ""; lq_StageFilter := "";
     lq_TagFilter := tag; lq_SpecRunId := ""; lq_ProjectFilter := project; lq_FeatureFilter := feature;
     lq_IncludeArchived := "" |}.

(** A conversion to [int32]. *)
Definition to_int32 (z : Z) : Z := (z + 2 ^ 31) mod 2 ^ 32 - 2 ^ 31.

(** What a title or a text is cut to. *)
Definition cut_at (n : nat) (s : string) : string :=
  if Nat.ltb n (String.length s) then str_take (n - 3) s +:+ "..." else s.

Section commands.
Context {S : Type} (w : world S).
Context (fraction : Z -> nat -> Z -> Z).
(** the pages that a listing is followed for *)
Context (fuel : nat).

Notation cli := (shell S event ending).

(** ** Calls *)

Definition ask {A} (op : S -> S * A) (ev : A -> event) : cli A := fun s =>
  let '(t, a) := op (m_state s) in ({| m_state := t; m_log := m_log s ++ [ev a] |}, inl a).

Definition tell (ev : event) : cli unit := ask (fun s => (s, tt)) (fun _ => ev).
Definition Println (line : string) : cli unit := tell (EOut line).
Definition Eprintln (line : string) : cli unit := tell (EErr line).

Definition ListAgentRuns_ base q : cli _ := ask (w_List w base q) (EList base q).
Definition GetAgentRun_ base id : cli _ := ask (w_Get w base id) (EGet base id).
Definition CreateAgentRun_ base spec : cli _ := ask (w_Create w base spec) (ECreate base spec).
Definition CancelAgentRun_ base id : cli _ := ask (w_Cancel w base id) (ECancel base id).
Definition SendHumanInput_ base id text : cli _ := ask (w_Input w base id text) (EInput base id text).
Definition WatchAgentRun_ base id timeout : cli _ := ask (w_Watch w base id timeout) (EWatch base id timeout).
Definition Scanln : cli _ := ask (w_Scan w) EScan.
Definition ReadStdin : cli _ := ask (w_Stdin w) EStdin.
Definition ReadFile path : cli _ := ask (w_ReadFile w path) (EReadFile path).
Definition git args : cli _ := ask (w_Git w args) (EGit args).

(** The clock; reading it is not an event. *)
Definition Now : cli Z := fun s =>
  let '(t, z) := w_Now w (m_state s) in ({| m_state := t; m_log := m_log s |}, inl z).

(** Returning an error, and [os.Exit(2)]. *)
Definition fail {A} (msg : string) : cli A := return_ (Returned (Err msg)).
Definition finish : cli ending := return_ (Returned (Ok tt)).

(** [fs.Parse], where an error ends the program. *)
Definition parse_or_exit (formal : flagset) (args : list string) : cli parsed :=
  match Parse fraction formal args with inl _ => return_ (Exit 2) | inr p => mret p end.

(** [fs.Parse], where an error is returned under the command's name. *)
Definition parse_or_fail (cmd : string) (formal : flagset) (args : list string) : cli parsed :=
  match Parse fraction formal args with inl e => fail (cmd +:+ ": " +:+ parse_text e) | inr p => mret p end.

(** A call that must succeed. *)
Definition must {A} (a : rpc_error + A) : cli A :=
  match a with inl e => fail ("failed: " +:+ humanizeErr e) | inr x => mret x end.

(** [cmd/uncworks/client.go:15-29] serverBaseURL *)
Definition serverBaseURL (serverAddr : string) : string :=
  let addr :=
    if String.eqb serverAddr "" then
      match w_Config w with
      | Ok cfg => if String.eqb (cfg_Address cfg) "" then "http://localhost:50055" else cfg_Address cfg
      | Err _ => "http://localhost:50055"
      end
    else serverAddr in
  if HasPrefix addr "http" then addr else "http://" +:+ addr.

(** The window of [--since]: the time that it starts at. *)
Definition since_time (since : string) : cli (option Z) :=
  if String.eqb since "" then mret None
  else match parseSinceDuration fraction since with
       | Err e => fail ("--since " +:+ Quote since +:+ ": " +:+ e)
       | Ok d => now ← Now; mret (Some (now - d))
       end.

(** Whether a run was created inside the window. *)
Definition in_window (since : option Z) (r : PRun) : bool :=
  match since with
  | None => true
  | Some t => match GetCreatedAt r with Some ts => t <? AsTime ts | None => false end
  end.

(** Whether a run was over before a time. *)
Definition completed_before (threshold : Z) (r : PRun) : bool :=
  match px_CompletedAt (pn_Status r) with Some c => AsTime c <? threshold | None => false end.

(** The pages of a listing, until the server names no next one: what [keep] keeps of them. *)
Fixpoint pages (n : nat) (base : string) (q : ListAgentRunsRequest) (keep : PRun -> bool) (acc : list PRun) : cli (list PRun) :=
  match n with
  | O => return_ Unfinished
  | Datatypes.S n =>
      resp ← ListAgentRuns_ base q;
      pg ← must resp;
      let acc := acc ++ filter (fun r => keep r = true) pg.1 in
      if String.eqb pg.2 "" then mret acc else pages n base (with_cursor q pg.2) keep acc
  end.

(** The most recent run of the server. *)
Definition latest (base : string) : cli string :=
  resp ← ListAgentRuns_ base (list_request 1 PHASE_UNSPECIFIED "" "" "" "");
  pg ← must resp;
  match pg.1 with r :: _ => mret (pn_Id r) | [] => fail "not found: no runs found" end.

(** ** Archiving and cancelling *)

(** Each command of a list, in order; the errors that they leave. *)
Fixpoint each {A B} (f : A -> cli (list B)) (l : list A) : cli (list B) :=
  match l with
  | [] => mret []
  | a :: l => b ← f a; bs ← each f l; mret (b ++ bs)
  end.

(** Lines to the error output. *)
Fixpoint print_errors (errs : list string) : cli unit :=
  match errs with [] => mret tt | e :: errs => Eprintln ("error: " +:+ e);; print_errors errs end.

Definition archive_url (base id : string) : string := base +:+ "/api/v1/runs/" +:+ id +:+ "/archive".
Definition archive_ base (archived : bool) id : cli _ :=
  ask (w_Post w (archive_url base id) archived) (EPost (archive_url base id) archived).

(** [cmd/uncworks/runs.go:1853-1878] runRunsArchive: one run, and its error *)
Definition archive_one (base : string) (archived : bool) (id : string) : cli (list string) :=
  a ← archive_ base archived id;
  match a with
  | NotBuilt e => mret [id +:+ ": build request: " +:+ e]
  | NotAnswered e => mret [id +:+ ": request failed: " +:+ e]
  | Status code body =>
      if code =? 200 then
        Println ("Run " +:+ id +:+ (if archived then " archived" else " unarchived"));; mret []
      else mret [id +:+ ": server returned " +:+ Itoa code +:+ ": " +:+ str_take 256 body]
  end.

Definition archive_flags : flagset := [("server", KString); ("last", KBool)].

(** [cmd/uncworks/runs.go:1814-1886] runRunsArchive *)
Definition runRunsArchive (args : list string) (archived : bool) : cli ending :=
  p ← parse_or_exit archive_flags (normalizeRunArgs args);
  let base := serverBaseURL (flag_string p "server" "") in
  ids ← (if flag_bool p "last" then id ← latest base; mret [id]
         else match pa_args p with
              | [] => fail "invalid input: run ID argument required"
              | ids => mret ids
              end);
  errs ← each (archive_one base archived) ids;
  match errs with
  | [] => finish
  | _ => print_errors errs;; fail ("failed: " +:+ Itoa (Z.of_nat (length errs)) +:+ " operation(s) failed")
  end.

(** [cmd/uncworks/runs.go:1957-1976] runRunsArchiveDone: one run, and whether it is archived *)
Definition bulk_archive_one (base : string) (id : string) : cli (list unit) :=
  a ← archive_ base true id;
  match a with
  | NotBuilt e => Eprintln ("  failed to build request for " +:+ id +:+ ": " +:+ e);; mret []
  | NotAnswered e => Eprintln ("  failed to archive " +:+ id +:+ ": " +:+ e);; mret []
  | Status code _ =>
      if code =? 200 then mret [tt]
      else Eprintln ("  failed to archive " +:+ id +:+ ": status " +:+ Itoa code);; mret []
  end.

(** [cmd/uncworks/runs.go:1955-1978] runRunsArchiveDone: archiving the runs that were found *)
Definition bulk_archive (base : string) (ids : list string) : cli ending :=
  archived ← each (bulk_archive_one base) ids;
  Println ("Archived " +:+ Itoa (Z.of_nat (length archived)) +:+ "/" +:+ Itoa (Z.of_nat (length ids)) +:+ " run(s).");;
  finish.

(** The lines with the IDs that a dry run prints. *)
Fixpoint print_ids (ids : list string) : cli unit :=
  match ids with [] => mret tt | id :: ids => Println ("  " +:+ id);; print_ids ids end.

Definition bulk_flags : flagset :=
  [("server", KString); ("project", KString); ("feature", KString); ("dry-run", KBool); ("min-age", KDuration)].

(** [cmd/uncworks/runs.go:1888-1979] runRunsArchiveDone; [runRunsArchiveFailed] is the same with the other phase *)
Definition archive_phase (phase : PPhase) (word : string) (args : list string) : cli ending :=
  p ← parse_or_exit bulk_flags args;
  let minAge := flag_duration fraction p "min-age" 0 in
  threshold ← (if 0 <? minAge then now ← Now; mret (Some (now - minAge)) else mret None);
  let base := serverBaseURL (flag_string p "server" "") in
  runs ← pages fuel base
    (list_request 100 phase (flag_string p "project" "") (flag_string p "feature" "") "" "")
    (fun r => match threshold with Some t => completed_before t r | None => true end) [];
  match pn_Id <$> runs with
  | [] => Println ("No " +:+ word +:+ " runs to archive.");; finish
  | ids =>
      if flag_bool p "dry-run" then
        Println ("Would archive " +:+ Itoa (Z.of_nat (length ids)) +:+ " run(s):");; print_ids ids;; finish
      else bulk_archive base ids
  end.

(** [cmd/uncworks/runs.go:1888-1979] runRunsArchiveDone *)
Definition runRunsArchiveDone : list string -> cli ending := archive_phase PHASE_SUCCEEDED "SUCCEEDED".

(** [cmd/uncworks/runs.go:1981-2072] runRunsArchiveFailed *)
Definition runRunsArchiveFailed : list string -> cli ending := archive_phase PHASE_FAILED "FAILED".

Definition prune_flags : flagset :=
  [("server", KString); ("older-than", KDuration); ("project", KString); ("feature", KString); ("tag", KString);
   ("dry-run", KBool); ("yes", KBool); ("failed", KBool); ("done", KBool)].

(** [cmd/uncworks/runs.go:2102-2111] runRunsPrune: the phases *)
Definition prune_phases (p : parsed) : list PPhase :=
  if flag_bool p "failed" then [PHASE_FAILED]
  else if flag_bool p "done" then [PHASE_SUCCEEDED]
  else [PHASE_SUCCEEDED; PHASE_FAILED; PHASE_CANCELLED].

(** [cmd/uncworks/runs.go:2113-2140] runRunsPrune: the runs of all phases that are old enough *)
Definition prune_runs (base : string) (p : parsed) (threshold : Z) : cli (list PRun) :=
  each (fun phase => pages fuel base
      (list_request 100 phase (flag_string p "project" "") (flag_string p "feature" "") (flag_string p "tag" "") "")
      (completed_before threshold) []) (prune_phases p).

(** [cmd/uncworks/runs.go:2159-2162] runRunsPrune: what counts as consent *)
Definition consents (answer : string) : bool :=
  String.eqb answer "y" || String.eqb answer "Y" || String.eqb answer "yes".

(** [cmd/uncworks/runs.go:2074-2189] runRunsPrune *)
Definition runRunsPrune (args : list string) : cli ending :=
  p ← parse_or_exit prune_flags args;
  if flag_bool p "failed" && flag_bool p "done" then fail "failed: --failed and --done are mutually exclusive"
  else
    now ← Now;
    let olderThan := flag_duration fraction p "older-than" (7 * day) in
    let base := serverBaseURL (flag_string p "server" "") in
    runs ← prune_runs base p (now - olderThan);
    match pn_Id <$> runs with
    | [] => Println ("No terminal runs older than " +:+ DurationString olderThan +:+ " to archive.");; finish
    | ids =>
        let n := Itoa (Z.of_nat (length ids)) in
        if flag_bool p "dry-run" then
          Println ("Would archive " +:+ n +:+ " run(s) older than " +:+ DurationString olderThan +:+ ":");;
          print_ids ids;; finish
        else if flag_bool p "yes" then bulk_archive base ids
        else
          Println ("Archive " +:+ n +:+ " terminal run(s) older than " +:+ DurationString olderThan +:+ "? [y/N] ");;
          answer ← Scanln;
          if consents answer.1 then bulk_archive base ids else Println "Aborted.";; finish
    end.

Definition cancel_flags : flagset := [("server", KString); ("last", KBool)].

(** [cmd/uncworks/cancel.go:47-66] runCancel: the run that [--last] stands for *)
Definition last_active (base : string) : cli string :=
  resp ← ListAgentRuns_ base (list_request 1 PHASE_RUNNING "" "" "" "");
  pg ← must resp;
  match pg.1 with
  | r :: _ => mret (pn_Id r)
  | [] =>
      resp2 ← ListAgentRuns_ base (list_request 1 PHASE_UNSPECIFIED "" "" "" "");
      match resp2 with
      | inr (r :: _, _) => mret (pn_Id r)
      | _ => fail "failed: no active runs found to cancel"
      end
  end.

(** [cmd/uncworks/cancel.go:74-82] runCancel: one run, and its error *)
Definition cancel_one (base id : string) : cli (list string) :=
  e ← CancelAgentRun_ base id;
  match e with
  | Some e => mret [id +:+ ": " +:+ humanizeErr e]
  | None => Println ("Run " +:+ id +:+ " cancellation requested");; mret []
  end.

(** [cmd/uncworks/cancel.go:29-90] runCancel *)
Definition runCancel (args : list string) : cli ending :=
  p ← parse_or_exit cancel_flags (normalizeRunArgs args);
  let base := serverBaseURL (flag_string p "server" "") in
  ids ← match pa_args p with
        | [] => if flag_bool p "last" then id ← last_active base; mret [id]
                else fail "invalid input: run ID argument required"
        | ids => mret ids
        end;
  errs ← each (cancel_one base) ids;
  match errs with
  | [] => finish
  | _ => print_errors errs;; fail ("failed: " +:+ Itoa (Z.of_nat (length errs)) +:+ " cancellation(s) failed")
  end.

Definition cancel_all_flags : flagset :=
  [("server", KString); ("dry-run", KBool); ("yes", KBool); ("limit", KInt); ("since", KString); ("phase", KString);
   ("project", KString); ("feature", KString); ("tag", KString); ("title-contains", KString)].

Definition active (phase : PPhase) : bool :=
  bool_decide (phase ∈ [PHASE_RUNNING; PHASE_PENDING; PHASE_WAITING_FOR_INPUT]).

(** [cmd/uncworks/runs.go:3723-3731] runRunsCancelAll: the phase that is asked for; another word is no phase *)
Definition cancel_phase (s : string) : PPhase :=
  let s := ToUpper s in
  if String.eqb s "RUNNING" then PHASE_RUNNING
  else if String.eqb s "PENDING" then PHASE_PENDING
  else if String.eqb s "WAITING" then PHASE_WAITING_FOR_INPUT
  else PHASE_UNSPECIFIED.

(** [cmd/uncworks/runs.go:3715-3748] runRunsCancelAll: the runs that are meant *)
Definition to_cancel (p : parsed) (since : option Z) (r : PRun) : bool :=
  let phaseFilter := flag_string p "phase" "" in
  let title := flag_string p "title-contains" "" in
  active (phase_of r) &&
  (String.eqb phaseFilter "" || bool_decide (phase_of r = cancel_phase phaseFilter)) &&
  (String.eqb title "" || Contains (ToLower (ps_DisplayName (pn_Spec r))) (ToLower title)) &&
  in_window since r.

(** At most so many, when a limit is given. *)
Definition limited {A} (limit : Z) (l : list A) : list A :=
  if (0 <? limit) && (limit <? Z.of_nat (length l)) then take (Z.to_nat limit) l else l.

(** [cmd/uncworks/runs.go:3780-3783] runRunsCancelAll: an answer that is not one word is none *)
Definition strict_answer (answer : string * bool) : string := if answer.2 then answer.1 else "".

(** [cmd/uncworks/runs.go:3790-3798] runRunsCancelAll: one run, and whether its cancellation is requested *)
Definition bulk_cancel_one (base id : string) : cli (list unit) :=
  e ← CancelAgentRun_ base id;
  match e with
  | Some e => Eprintln ("  failed to cancel " +:+ id +:+ ": " +:+ humanizeErr e);; mret []
  | None => Println ("  cancelled " +:+ id);; mret [tt]
  end.

Definition bulk_cancel (base : string) (ids : list string) : cli ending :=
  cancelled ← each (bulk_cancel_one base) ids;
  Println ("Cancelled " +:+ Itoa (Z.of_nat (length cancelled)) +:+ "/" +:+ Itoa (Z.of_nat (length ids)) +:+ " run(s).");;
  finish.

(** [cmd/uncworks/runs.go:3665-3801] runRunsCancelAll *)
Definition runRunsCancelAll (args : list string) : cli ending :=
  p ← parse_or_exit cancel_all_flags args;
  since ← since_time (flag_string p "since" "");
  let base := serverBaseURL (flag_string p "server" "") in
  runs ← pages fuel base
    (list_request 100 PHASE_UNSPECIFIED (flag_string p "project" "") (flag_string p "feature" "")
       (flag_string p "tag" "") "") (to_cancel p since) [];
  match limited (flag_int p "limit" 0) (pn_Id <$> runs) with
  | [] => Println "No active runs to cancel.";; finish
  | ids =>
      let n := Itoa (Z.of_nat (length ids)) in
      if flag_bool p "dry-run" then
        Println ("Would cancel " +:+ n +:+ " run(s):");; print_ids ids;; finish
      else if flag_bool p "yes" then bulk_cancel base ids
      else
        Println "Active runs to cancel:";; print_ids ids;;
        Println ("Cancel " +:+ n +:+ " run(s)? [y/N]: ");;
        answer ← Scanln;
        if consents (strict_answer answer) then bulk_cancel base ids else Println "Aborted.";; finish
  end.

(** ** Input for a waiting run *)

Definition input_flags : flagset := [("server", KString); ("follow", KBool); ("last", KBool)].

(** [cmd/uncworks/input.go:41-68] runInput: the run, and the arguments that are its text *)
Definition input_target (p : parsed) (base : string) : cli (string * list string) :=
  if flag_bool p "last" then
    resp ← ListAgentRuns_ base (list_request 1 PHASE_WAITING_FOR_INPUT "" "" "" "");
    pg ← must resp;
    match pg.1 with
    | [] => fail "not found: no runs in WAITING_FOR_INPUT phase found"
    | r :: _ => Println ("Sending input to waiting run: " +:+ pn_Id r);; mret (pn_Id r, pa_args p)
    end
  else match pa_args p with
       | [] => fail "invalid input: run ID argument required"
       | id :: words => mret (id, words)
       end.

(** [cmd/uncworks/input.go:70-82] runInput: the text, from the arguments or the standard input *)
Definition input_text (words : list string) : cli string :=
  match words with
  | [] =>
      raw ← ReadStdin;
      match raw with
      | Err e => fail ("reading stdin: " +:+ e)
      | Ok raw =>
          let text := TrimRight raw newline in
          if String.eqb text "" then fail "invalid input: input text is empty" else mret text
      end
  | _ => mret (Join words " ")
  end.

(** ** Watching a run *)

(** Times of day, for the prefix of log lines. *)
Context (clock_time : Z -> string).

Definition logs_flags : flagset :=
  [("server", KString); ("no-follow", KBool); ("lines", KInt); ("head", KInt); ("timestamps", KBool); ("grep", KString);
   ("save", KString); ("last", KBool)].

Definition isTerminal (phase : PPhase) : bool :=
  bool_decide (phase ∈ [PHASE_SUCCEEDED; PHASE_FAILED; PHASE_CANCELLED]).

Definition matches (needle line : string) : bool := Contains (ToLower line) (ToLower needle).

(** [cmd/uncworks/runs.go:1692-1707] runRunsLogs: the lines of the stored log that are shown *)
Definition stored_lines (p : parsed) (logOutput : string) : list string :=
  let grep := flag_string p "grep" "" in
  let head := flag_int p "head" 0 in
  let lines := flag_int p "lines" 0 in
  let all := filter (fun l => String.eqb grep "" || matches grep l = true) (Split logOutput "010") in
  let n := Z.of_nat (length all) in
  if (0 <? head) && (head <? n) then take (Z.to_nat head) all
  else if (0 <? lines) && (lines <? n) then drop (Z.to_nat (n - lines)) all
  else all.

(** [cmd/uncworks/runs.go:1687-1731] runRunsLogs: the stored log *)
Definition stored_log (p : parsed) (id : string) (run : PRun) : cli ending :=
  let logOutput := px_LogOutput (pn_Status run) in
  if String.eqb logOutput "" then Eprintln ("No stored log output for run " +:+ id);; finish
  else
    let all := stored_lines p logOutput in
    now ← Now;
    let outputLines :=
      if flag_bool p "timestamps" then
        (fun line => "[" +:+ clock_time now +:+ "] " +:+ line) <$> filter (fun l => l <> "") all
      else all in
    let output := Join outputLines newline in
    Println output;;
    let save := flag_string p "save" "" in
    (if String.eqb save "" then mret tt
     else
       e ← ask (w_WriteFile w save (output +:+ newline)) (EWriteFile save (output +:+ newline));
       match e with
       | Some e => Eprintln ("warning: failed to save log to " +:+ Quote save +:+ ": " +:+ e)
       | None => Eprintln ("log saved to " +:+ save)
       end);;
    finish.

(** Several lines, each after a prefix. *)
Fixpoint print_lines (prefix : string) (lines : list string) : cli unit :=
  match lines with [] => mret tt | l :: lines => Println (prefix +:+ l);; print_lines prefix lines end.

(** [cmd/uncworks/runs.go:1751-1782] runRunsLogs: one event; the times of events are not modelled *)
Definition show_event (grep : string) (ev : AgentRunEvent) : cli unit :=
  match ae_Type ev with
  | EVENT_LOG =>
      if String.eqb (ae_Payload ev) "" then mret tt
      else if String.eqb grep "" then Println (ae_Payload ev)
      else print_lines "" (filter (fun l => matches grep l = true) (Split (ae_Payload ev) "010"))
  | EVENT_PHASE_CHANGED => Println ("[phase: " +:+ ae_Payload ev +:+ "]")
  | EVENT_WAITING_FOR_INPUT =>
      Println ("[waiting for input: " +:+ ae_Payload ev +:+ "]");;
      Println "Use 'uncworks input <id> <text>' to respond."
  | EVENT_COMPLETED => Println ("[completed: " +:+ ae_Payload ev +:+ "]")
  | _ => mret tt
  end.

Fixpoint show_events (show : AgentRunEvent -> cli unit) (evs : list AgentRunEvent) : cli unit :=
  match evs with [] => mret tt | ev :: evs => show ev;; show_events show evs end.

(** The end of [stream.Receive], behind the last event. *)
Definition stream_over (stream : stream_answer) : cli unit := if sa_Ends stream then mret tt else return_ Endless.

(** [cmd/uncworks/runs.go:1734-1810] runRunsLogs: the log as it comes, and the end of the program for a run that failed *)
Definition live_log (p : parsed) (base id : string) (run : PRun) : cli ending :=
  (if bool_decide (phase_of run = PHASE_PENDING) then Println "waiting for run to start..." else mret tt);;
  stream ← WatchAgentRun_ base id 0;
  evs ← must (sa_Events stream);
  show_events (show_event (flag_string p "grep" "")) evs;;
  stream_over stream;;
  match sa_Err stream with
  | Some e => if bool_decide (e = OtherError "EOF") then mret tt else fail ("failed: stream error: " +:+ humanizeErr e)
  | None => mret tt
  end;;
  last ← GetAgentRun_ base id;
  match last with
  | inr r =>
      match phase_of r with
      | PHASE_SUCCEEDED =>
          Println "Run succeeded.";;
          (if String.eqb (px_PrUrl (pn_Status r)) "" then mret tt else Println ("PR: " +:+ px_PrUrl (pn_Status r)));;
          finish
      | PHASE_FAILED => Eprintln "Run failed.";; return_ (Exit 1)
      | PHASE_CANCELLED => Eprintln "Run cancelled.";; return_ (Exit 1)
      | _ => finish
      end
  | inl _ => finish
  end.

(** [cmd/uncworks/runs.go:1634-1656] runRunsLogs: the run whose log is asked for *)
Definition one_run (p : parsed) (base prefix : string) : cli string :=
  if flag_bool p "last" then
    id ← latest base;
    (if String.eqb prefix "" then mret tt else Println (prefix +:+ id));;
    mret id
  else match pa_args p with
       | [id] => mret id
       | _ => fail "invalid input: run ID argument required"
       end.

(** [cmd/uncworks/runs.go:1615-1810] runRunsLogs *)
Definition runRunsLogs (args : list string) : cli ending :=
  p ← parse_or_exit logs_flags (normalizeRunArgs args);
  let base := serverBaseURL (flag_string p "server" "") in
  id ← one_run p base "Latest run: ";
  (if negb (String.eqb (flag_string p "save" "") "") && negb (flag_bool p "no-follow") then
     Eprintln "note: --save only works with --no-follow; output will not be saved in streaming mode"
   else mret tt);;
  got ← GetAgentRun_ base id;
  run ← must got;
  if flag_bool p "no-follow" || isTerminal (phase_of run) then stored_log p id run else live_log p base id run.

Definition tail_flags : flagset := [("server", KString); ("last", KBool)].

(** [cmd/uncworks/runs.go:1570-1572] runRunsTail: going on after a command that has returned no error *)
Definition and_then (m k : cli ending) : cli ending := fun s =>
  match m s with
  | (s, inl (Returned (Ok _))) | (s, inr (Returned (Ok _))) => k s
  | r => r
  end.

(** [cmd/uncworks/runs.go:1599-1609] runRunsTail: what a run has cost and changed *)
Definition cost_lines (r : PRun) : cli unit :=
  let st := pn_Status r in
  let changed := (0 <? px_TotalAdditions st) || (0 <? px_TotalDeletions st) in
  let lines := "+" +:+ Itoa (px_TotalAdditions st) +:+ " -" +:+ Itoa (px_TotalDeletions st) +:+ " lines" in
  if negb (String.eqb (px_TotalCost st) "") then
    Println ("Cost:     " +:+ px_TotalCost st +:+ (if changed then "  (" +:+ lines +:+ ")" else ""))
  else if changed then Println ("Diff:     " +:+ lines) else mret tt.

(** A line with a text, unless the text is empty. *)
Definition line_of (label text : string) : cli unit :=
  if String.eqb text "" then mret tt else Println (label +:+ text).

(** [cmd/uncworks/runs.go:1578-1610] runRunsTail: the summary *)
Definition summary (base id : string) : cli ending :=
  got ← GetAgentRun_ base id;
  r ← must got;
  Println "─── summary ───────────────────────────────────────────────────────────────";;
  Println ("Run:      " +:+ pn_Id r);;
  Println ("Phase:    " +:+ phaseLabel (phase_of r));;
  line_of "Message:  " (px_Message (pn_Status r));;
  match px_StartedAt (pn_Status r), px_CompletedAt (pn_Status r) with
  | Some a, Some b => Println ("Duration: " +:+ DurationString (Round second (AsTime b - AsTime a)))
  | _, _ => mret tt
  end;;
  line_of "Model:    " (ps_ModelTier (pn_Spec r));;
  line_of "PR:       " (px_PrUrl (pn_Status r));;
  cost_lines r;;
  finish.

(** [cmd/uncworks/runs.go:1535-1611] runRunsTail *)
Definition runRunsTail (args : list string) : cli ending :=
  p ← parse_or_exit tail_flags (normalizeRunArgs args);
  let server := flag_string p "server" "" in
  let base := serverBaseURL server in
  id ← one_run p base "";
  and_then (runRunsLogs [id; "--server=" +:+ server]) (summary base id).

(** [cmd/uncworks/input.go:84-118] runInput: sending the text *)
Definition send_input (server : string) (follow : bool) (id text : string) : cli ending :=
  if 10000 <? len text then
    fail ("invalid input: input too long: " +:+ Itoa (len text) +:+ " chars (max 10000)")
  else
    let base := serverBaseURL server in
    got ← GetAgentRun_ base id;
    match got with
    | inl _ => mret tt
    | inr r =>
        if bool_decide (phase_of r = PHASE_WAITING_FOR_INPUT) then
          line_of "Agent is asking: " (px_Message (pn_Status r))
        else Eprintln ("warning: run " +:+ id +:+ " is in phase " +:+ phaseLabel (phase_of r) +:+
                       ", not WAITING — input may be ignored")
    end;;
    e ← SendHumanInput_ base id text;
    match e with
    | Some e => fail ("failed: " +:+ humanizeErr e)
    | None =>
        Println ("Input sent to run " +:+ id);;
        if follow then runRunsTail [id; "--server=" +:+ server] else finish
    end.

(** [cmd/uncworks/input.go:17-119] runInput *)
Definition runInput (args : list string) : cli ending :=
  p ← parse_or_exit input_flags args;
  let server := flag_string p "server" "" in
  target ← input_target p (serverBaseURL server);
  text ← input_text target.2;
  send_input server (flag_bool p "follow") target.1 text.

(** ** Waiting for runs *)

Definition wait_flags : flagset :=
  [("server", KString); ("timeout", KDuration); ("quiet", KBool); ("log", KBool); ("on-success", KString);
   ("on-failure", KString); ("notify", KBool); ("any", KBool); ("last", KBool)].

(** [cmd/uncworks/runs.go:4955-4973] runRunsWait: one event *)
Definition wait_event (p : parsed) (id : string) (ev : AgentRunEvent) : cli unit :=
  match ae_Type ev with
  | EVENT_LOG => if flag_bool p "log" then line_of "" (ae_Payload ev) else mret tt
  | EVENT_PHASE_CHANGED =>
      if flag_bool p "quiet" then mret tt else Println ("[" +:+ id +:+ "] phase: " +:+ ae_Payload ev)
  | EVENT_WAITING_FOR_INPUT =>
      if flag_bool p "quiet" then mret tt
      else Println ("[" +:+ id +:+ "] waiting for input: " +:+ ae_Payload ev);;
           Println ("Use 'uncworks input " +:+ id +:+ " <text>' to respond.")
  | _ => mret tt
  end.

(** [cmd/uncworks/runs.go:4952-4973] runRunsWait: the payload of the last completion *)
Definition final_payload (evs : list AgentRunEvent) : string :=
  default "" (last (ae_Payload <$> filter (fun ev => ae_Type ev = EVENT_COMPLETED) evs)).

(** [cmd/uncworks/runs.go:4994-5005] runRunsWait: runHook *)
Definition runHook (p : parsed) (id shellCmd : string) (extraEnv : list string) : cli unit :=
  if String.eqb shellCmd "" then mret tt
  else
    let env := ("RUN_ID=" +:+ id) :: extraEnv in
    e ← ask (w_Hook w shellCmd env) (EHook shellCmd env);
    match e with
    | Some e => if flag_bool p "quiet" then mret tt else Eprintln ("hook error: " +:+ e)
    | None => mret tt
    end.

(** [cmd/uncworks/runs.go:5007-5013] runRunsWait: sendNotify *)
Definition sendNotify (p : parsed) (title body : string) : cli unit :=
  if flag_bool p "notify" then tell (ENotify title body) else mret tt.

(** [cmd/uncworks/runs.go:4988-5039] runRunsWait: the end of the wait, by the phase of the run *)
Definition wait_end (p : parsed) (id payload : string) (r : PRun) : cli ending :=
  let msg := px_Message (pn_Status r) in
  let finalPayload := if String.eqb payload "" then msg else payload in
  match phase_of r with
  | PHASE_SUCCEEDED =>
      (if flag_bool p "quiet" then mret tt
       else Println ("[" +:+ id +:+ "] done");; line_of "PR: " (px_PrUrl (pn_Status r)));;
      sendNotify p "UNCWORKS: run succeeded" id;;
      runHook p id (flag_string p "on-success" "") [];;
      finish
  | PHASE_FAILED =>
      runHook p id (flag_string p "on-failure" "") ["RUN_MESSAGE=" +:+ msg];;
      sendNotify p "UNCWORKS: run failed" id;;
      fail ("failed: run " +:+ id +:+ " failed" +:+ (if String.eqb finalPayload "" then "" else ": " +:+ finalPayload))
  | PHASE_CANCELLED =>
      runHook p id (flag_string p "on-failure" "") ["RUN_MESSAGE=cancelled"];;
      sendNotify p "UNCWORKS: run cancelled" id;;
      fail ("failed: run " +:+ id +:+ " was cancelled")
  | phase => fail ("invalid input: run " +:+ id +:+ " ended in unexpected phase: " +:+ phaseLabel phase)
  end.

(** [cmd/uncworks/runs.go:4932-5040] runRunsWait: one run *)
Definition wait_one (p : parsed) (id : string) : cli ending :=
  let base := serverBaseURL (flag_string p "server" "") in
  let timeout := flag_duration fraction p "timeout" 0 in
  stream ← WatchAgentRun_ base id timeout;
  evs ← must (sa_Events stream);
  show_events (wait_event p id) evs;;
  stream_over stream;;
  match sa_Err stream with
  | Some e =>
      if sa_TimedOut stream then
        fail ("unavailable: timed out after " +:+ DurationString timeout +:+ " waiting for run " +:+ id)
      else fail ("failed: stream error: " +:+ humanizeErr e)
  | None => mret tt
  end;;
  got ← GetAgentRun_ base id;
  r ← must got;
  wait_end p id (final_payload evs) r.

(** The result of a command that another command calls; [os.Exit] ends both. *)
Definition attempt (m : cli ending) : cli (result unit) := fun s =>
  match m s with
  | (s, inl (Returned r)) | (s, inr (Returned r)) => (s, inl r)
  | (s, inl e) | (s, inr e) => (s, inr e)
  end.

(** The result that a wait of its own sends, if it ends. *)
Definition delivered (m : cli ending) : cli (option (result unit)) := fun s =>
  match m s with
  | (s, inl (Returned r)) | (s, inr (Returned r)) => (s, inl (Some r))
  | (s, inl Endless) | (s, inr Endless) => (s, inl None)
  | (s, inl e) | (s, inr e) => (s, inr e)
  end.

(** [cmd/uncworks/runs.go:4859-4877] runRunsWait: the flags that a wait for one run is called with *)
Definition wait_args (p : parsed) (id : string) : list string :=
  let timeout := flag_duration fraction p "timeout" 0 in
  let text name := if String.eqb (flag_string p name "") "" then []
                   else ["--" +:+ name +:+ "=" +:+ flag_string p name ""] in
  let switch name := if flag_bool p name then ["--" +:+ name] else [] in
  [id; "--server=" +:+ flag_string p "server" ""] ++
  (if 0 <? timeout then ["--timeout=" +:+ DurationString timeout] else []) ++
  switch "quiet" ++ switch "log" ++ text "on-success" ++ text "on-failure" ++ switch "notify".

(** the order in which several waits end *)
Context (finish_order : list string -> list string).

(** [cmd/uncworks/runs.go:4919-4929] runRunsWait: the first error; each wait is run as a whole, in the order of their ends.  A
    wait that never ends sends nothing, so that without [--any] the loop waits for ever for what is outstanding. *)
Fixpoint wait_all (wait : string -> cli ending) (any outstanding : bool) (ids : list string) (firstErr : result unit) : cli ending :=
  match ids with
  | [] => return_ (if outstanding then Endless else Returned firstErr)
  | id :: ids =>
      r ← delivered (wait id);
      match r with
      | None => wait_all wait any true ids firstErr
      | Some r =>
          let firstErr := match firstErr with Ok _ => r | Err _ => firstErr end in
          if any then return_ (Returned firstErr) else wait_all wait any outstanding ids firstErr
      end
  end.

(** [cmd/uncworks/runs.go:4826-5040] runRunsWait: calls itself for the latest run and for each of several *)
Fixpoint runRunsWait (depth : nat) (args : list string) : cli ending :=
  match depth with
  | O => return_ Unfinished
  | Datatypes.S depth =>
      p ← parse_or_fail "runs wait" wait_flags (normalizeRunArgs args);
      match pa_args p with
      | [] =>
          if flag_bool p "last" then
            id ← latest (serverBaseURL (flag_string p "server" ""));
            runRunsWait depth (wait_args p id)
          else fail "invalid input: run ID argument required"
      | [id] => wait_one p id
      | ids => wait_all (fun id => runRunsWait depth (wait_args p id)) (flag_bool p "any") false (finish_order ids) (Ok tt)
      end
  end.

(** ** Making runs *)

(** [m[k] = v] *)
Definition map_set (m : list (string * string)) (k v : string) : list (string * string) :=
  (k, v) :: filter (fun kv => kv.1 <> k) m.

(** [cmd/uncworks/runs.go:3421-3428] runRunsRetry: [KEY=VALUE] arguments put into a map *)
Fixpoint set_envs (flag : string) (m : list (string * string)) (kvs : list string) : result (list (string * string)) :=
  match kvs with
  | [] => Ok m
  | kv :: kvs =>
      match Cut kv "=" with
      | (k, v, true) => set_envs flag (map_set m k v) kvs
      | _ => Err ("invalid input: " +:+ flag +:+ " " +:+ Quote kv +:+ ": must be KEY=VALUE")
      end
  end.

(** A result that must be one. *)
Definition must_ok {A} (pre : string) (r : result A) : cli A :=
  match r with Ok a => mret a | Err e => fail (pre +:+ e) end.

(** [cmd/uncworks/run.go:88-94] runRun: the prompt of a file *)
Definition prompt_of_file (promptFile prompt : string) : cli string :=
  if String.eqb promptFile "" then mret prompt
  else
    raw ← ReadFile promptFile;
    text ← must_ok ("reading prompt file " +:+ Quote promptFile +:+ ": ") raw;
    mret (TrimRight text newline).

(** [cmd/uncworks/run.go:106-136] runRun: the prompt of an editor *)
Definition prompt_of_editor (edit : bool) (prompt : string) : cli string :=
  if edit && String.eqb prompt "" then
    a ← ask (w_Edit w) EEdit;
    match a with
    | NoTempFile e => fail ("creating temp file for editor: " +:+ e)
    | EditorFailed e => fail ("editor exited with error: " +:+ e)
    | NotRead e => fail ("reading editor output: " +:+ e)
    | Edited raw =>
        if String.eqb (TrimSpace raw) "" then fail "invalid input: prompt is empty (editor produced no content)"
        else mret (TrimSpace raw)
    end
  else mret prompt.

(** The specification with nothing in it. *)
Definition empty_spec : PSpec :=
  {| ps_Repos := []; ps_Prompt := ""; ps_DevboxConfig := ""; ps_TtlSeconds := 0; ps_EnvVars := []; ps_ModelTier := "";
     ps_Image := ""; ps_MaxBudget := 0; ps_SpecContent := ""; ps_SpecSource := ""; ps_WorkspaceName := "";
     ps_ParentRunId := ""; ps_OrchestrationMode := MODE_UNSPECIFIED; ps_Orchestration := None; ps_SpecRunId := "";
     ps_DisplayName := ""; ps_PipelineConfig := None; ps_AutoPush := false; ps_AutoPr := false; ps_PrBaseBranch := "";
     ps_Project := ""; ps_Feature := ""; ps_Tags := []; ps_ProjectRef := ""; ps_SpecRef := ""; ps_ApprovalMode := "" |}.

(** What the command line sets of a specification. *)
Definition cli_spec (repos : list ApiTypes.Repository) (prompt name project feature model : string) (push pr : bool)
  (tags : list string) (parent : string) (envs : list (string * string)) (approval : string) (ttl : Z) : PSpec :=
  {| ps_Repos := repos; ps_Prompt := prompt; ps_DevboxConfig := ""; ps_TtlSeconds := ttl; ps_EnvVars := envs;
     ps_ModelTier := model; ps_Image := ""; ps_MaxBudget := 0; ps_SpecContent := ""; ps_SpecSource := "";
     ps_WorkspaceName := ""; ps_ParentRunId := parent; ps_OrchestrationMode := MODE_UNSPECIFIED;
     ps_Orchestration := None; ps_SpecRunId := ""; ps_DisplayName := name; ps_PipelineConfig := None;
     ps_AutoPush := push; ps_AutoPr := pr; ps_PrBaseBranch := ""; ps_Project := project; ps_Feature := feature;
     ps_Tags := tags; ps_ProjectRef := ""; ps_SpecRef := ""; ps_ApprovalMode := approval |}.

Definition retry_flags : flagset :=
  [("server", KString); ("prompt", KString); ("prompt-file", KString); ("editor", KBool); ("append-prompt", KString);
   ("branch", KString); ("model-tier", KString); ("model", KString); ("name", KString); ("auto-push", KBool);
   ("auto-pr", KBool); ("output-id", KBool); ("wait", KBool); ("follow", KBool); ("diff", KBool); ("env", KRepeated);
   ("add-env", KRepeated); ("tag", KRepeated); ("last", KBool)].

(** The model tier, with its short flag. *)
Definition tier_flag (p : parsed) : string :=
  let long := flag_string p "model-tier" "" in if String.eqb long "" then flag_string p "model" "" else long.

(** A text after the original one. *)
Definition append_text (prompt more : string) : string :=
  if String.eqb more "" then prompt else TrimRight prompt newline +:+ newline +:+ newline +:+ more.

Definition or_else (s d : string) : string := if String.eqb s "" then d else s.

(** [cmd/uncworks/runs.go:3411-3413] runRunsRetry: the branch of the first repository, which is that of the original's message too *)
Definition with_branch (branch : string) (repos : list ApiTypes.Repository) : list ApiTypes.Repository :=
  match repos with
  | r :: rest =>
      if String.eqb branch "" then repos
      else {| repo_URL := repo_URL r; repo_Branch := branch; repo_Path := repo_Path r |} :: rest
  | [] => []
  end.

(** [cmd/uncworks/runs.go:3391-3449] runRunsRetry: the new specification *)
Definition retry_spec (p : parsed) (prompt : string) (spec : PSpec) : result PSpec :=
  let envs := multiFlag p "env" in
  let tags := multiFlag p "tag" in
  let push := flag_bool p "auto-push" in
  let pr := flag_bool p "auto-pr" in
  result_bind (match envs with [] => Ok (ps_EnvVars spec) | _ => set_envs "--env" [] envs end) (fun m =>
  result_bind (set_envs "--add-env" m (multiFlag p "add-env")) (fun m =>
  Ok (cli_spec (with_branch (flag_string p "branch" "") (ps_Repos spec))
        (append_text (or_else prompt (ps_Prompt spec)) (flag_string p "append-prompt" ""))
        (flag_string p "name" "") (ps_Project spec) (ps_Feature spec) (or_else (tier_flag p) (ps_ModelTier spec))
        (if push || pr then true else ps_AutoPush spec) (if push || pr then pr else ps_AutoPr spec)
        (match tags with [] => ps_Tags spec | _ => tags end) (ps_ParentRunId spec) m "" 0))).

(** [cmd/uncworks/runs.go:3466-3482] runRunsRetry: how to see what the original has changed *)
Definition retry_diff (p : parsed) (id : string) (orig : PRun) : cli unit :=
  match with_branch (flag_string p "branch" "") (ps_Repos (pn_Spec orig)) with
  | repo :: _ =>
      if flag_bool p "diff" && negb (flag_bool p "output-id") &&
         (ps_AutoPush (pn_Spec orig) || negb (String.eqb (px_PrUrl (pn_Status orig)) "")) then
        Println ("Original run diff (" +:+ id +:+ "):");;
        line_of "  PR: " (px_PrUrl (pn_Status orig));;
        Println ("  git fetch origin aot/" +:+ id);;
        Println ("  git diff origin/" +:+ or_else (repo_Branch repo) "main" +:+ "...origin/aot/" +:+ id)
      else mret tt
  | [] => mret tt
  end.

(** [cmd/uncworks/runs.go:3373-3491] runRunsRetry: one run *)
Definition retry_one (p : parsed) (prompt id : string) : cli ending :=
  let server := flag_string p "server" "" in
  let base := serverBaseURL server in
  got ← GetAgentRun_ base id;
  orig ← must got;
  match GetSpec orig with
  | None => fail ("failed: run " +:+ id +:+ " has no spec")
  | Some spec =>
      newSpec ← must_ok "" (retry_spec p prompt spec);
      created ← CreateAgentRun_ base newSpec;
      newRun ← must created;
      (if flag_bool p "output-id" then Println (pn_Id newRun)
       else
         Println ("Run created: " +:+ pn_Id newRun);;
         if flag_bool p "follow" || flag_bool p "wait" then mret tt
         else Println ("Follow progress: uncworks runs tail " +:+ pn_Id newRun));;
      retry_diff p id orig;;
      if flag_bool p "follow" then runRunsTail [pn_Id newRun; "--server=" +:+ server]
      else if flag_bool p "wait" then runRunsWait fuel [pn_Id newRun; "--server=" +:+ server]
      else finish
  end.

(** [cmd/uncworks/runs.go:3316-3355] runRunsRetry: the arguments for one of several runs *)
Definition retry_args (p : parsed) (prompt rid : string) : list string :=
  let text name v := if String.eqb v "" then [] else ["--" +:+ name +:+ "=" +:+ v] in
  let switch name := if flag_bool p name then ["--" +:+ name] else [] in
  let each name := (fun v => "--" +:+ name +:+ "=" +:+ v) <$> multiFlag p name in
  [rid] ++ text "server" (flag_string p "server" "") ++ text "prompt" prompt ++
  text "append-prompt" (flag_string p "append-prompt" "") ++ text "model-tier" (tier_flag p) ++
  text "branch" (flag_string p "branch" "") ++ text "name" (flag_string p "name" "") ++ switch "auto-push" ++
  switch "auto-pr" ++ switch "output-id" ++ switch "diff" ++ each "tag" ++ each "env" ++ each "add-env".

(** [cmd/uncworks/runs.go:3315-3361] runRunsRetry: several runs, and the IDs that are waited for *)
Definition retry_each (retry : list string -> cli ending) (p : parsed) (prompt rid : string) : cli (list string) :=
  r ← attempt (retry (retry_args p prompt rid));
  match r with
  | Err e => Eprintln ("  failed to retry " +:+ rid +:+ ": " +:+ e);; mret []
  | Ok _ => mret (if flag_bool p "output-id" then [rid] else [])
  end.

(** [cmd/uncworks/runs.go:3209-3491] runRunsRetry: calls itself for the latest run and for each of several *)
Fixpoint runRunsRetry (depth : nat) (args : list string) : cli ending :=
  match depth with
  | O => return_ Unfinished
  | Datatypes.S depth =>
      let args := normalizeRunArgs args in
      p ← parse_or_exit retry_flags args;
      prompt ← prompt_of_file (flag_string p "prompt-file" "") (flag_string p "prompt" "");
      prompt ← prompt_of_editor (flag_bool p "editor") prompt;
      let server := flag_string p "server" "" in
      match pa_args p with
      | [] =>
          if flag_bool p "last" then
            id ← latest (serverBaseURL server);
            runRunsRetry depth (filter (fun a => a <> "--last" /\ a <> "-last") args ++ [id])
          else fail "invalid input: run ID argument required"
      | [id] => retry_one p prompt id
      | ids =>
          newIDs ← each (retry_each (runRunsRetry depth) p prompt) ids;
          if flag_bool p "wait" && negb (bool_decide (newIDs = [])) then
            runRunsWait fuel (newIDs ++ ["--server=" +:+ server])
          else finish
      end
  end.

(** ** Retrying all failed runs *)

Definition retry_failed_flags : flagset :=
  [("server", KString); ("project", KString); ("feature", KString); ("tag", KString); ("since", KString);
   ("limit", KInt); ("list", KBool); ("dry-run", KBool); ("yes", KBool); ("verbose", KBool); ("model-tier", KString);
   ("append-prompt", KString)].

Definition title_of (r : PRun) : string := or_else (ps_DisplayName (pn_Spec r)) (ps_Project (pn_Spec r)).

(** [cmd/uncworks/runs.go:3633-3652] runRunsRetryFailed: the new specification of a run *)
Definition failed_spec (p : parsed) (spec : PSpec) : PSpec :=
  cli_spec (ps_Repos spec) (append_text (ps_Prompt spec) (flag_string p "append-prompt" "")) "" (ps_Project spec)
    (ps_Feature spec) (or_else (flag_string p "model-tier" "") (ps_ModelTier spec)) (ps_AutoPush spec) (ps_AutoPr spec)
    (ps_Tags spec) (ps_ParentRunId spec) (ps_EnvVars spec) "" 0.

(** [cmd/uncworks/runs.go:3632-3659] runRunsRetryFailed: one run *)
Definition retry_failed_one (p : parsed) (base : string) (r : PRun) : cli (list unit) :=
  created ← CreateAgentRun_ base (failed_spec p (pn_Spec r));
  match created with
  | inl e => Eprintln ("  " +:+ pn_Id r +:+ " → error: " +:+ humanizeErr e);; mret []
  | inr n => Println ("  " +:+ pn_Id r +:+ " → " +:+ pn_Id n);; mret [tt]
  end.

(** How long ago a run was created. *)
Definition age_of (r : PRun) : cli string :=
  match GetCreatedAt r with
  | Some ts => now ← Now; mret (relativeTime (now - AsTime ts))
  | None => mret ""
  end.

(** [cmd/uncworks/runs.go:3572-3588] runRunsRetryFailed: the table of the runs that were found *)
Fixpoint print_table (runs : list PRun) : cli unit :=
  match runs with
  | [] => mret tt
  | r :: runs =>
      started ← age_of r;
      Println (pn_Id r +:+ "  " +:+ started +:+ "  " +:+ cut_at 50 (title_of r));; print_table runs
  end.

(** [cmd/uncworks/runs.go:3593-3614] runRunsRetryFailed: the runs that were found *)
Fixpoint print_failed (p : parsed) (runs : list PRun) : cli unit :=
  match runs with
  | [] => mret tt
  | r :: runs =>
      age ← age_of r;
      Println ("  " +:+ pn_Id r +:+ "  " +:+ cut_at 40 (title_of r) +:+
               (if String.eqb age "" then "" else "  (" +:+ age +:+ ")"));;
      (if flag_bool p "verbose" then
         Println ("           prompt: " +:+
                  str_map (fun c => if Ascii.eqb c "010" then " "%char else c) (cut_at 120 (ps_Prompt (pn_Spec r))))
       else mret tt);;
      print_failed p runs
  end.

(** [cmd/uncworks/runs.go:3495-3661] runRunsRetryFailed *)
Definition runRunsRetryFailed (args : list string) : cli ending :=
  p ← parse_or_fail "runs retry failed" retry_failed_flags args;
  since ← since_time (flag_string p "since" "");
  let base := serverBaseURL (flag_string p "server" "") in
  runs ← pages fuel base
    (list_request 100 PHASE_FAILED (flag_string p "project" "") (flag_string p "feature" "") (flag_string p "tag" "") "")
    (in_window since) [];
  let runs := limited (flag_int p "limit" 0) runs in
  let n := Itoa (Z.of_nat (length runs)) in
  match runs with
  | [] => Println "No failed runs found matching the given filters.";; finish
  | _ =>
      if flag_bool p "list" then
        Println "ID  STARTED  TITLE";; print_table runs;; Println (n +:+ " run(s) would be retried.");; finish
      else
        Println ("Found " +:+ n +:+ " failed run(s) to retry:");;
        print_failed p runs;;
        if flag_bool p "dry-run" then Println "Dry run: no runs created.";; finish
        else if flag_bool p "yes" then each (retry_failed_one p base) runs;; finish
        else
          Println ("Retry " +:+ n +:+ " run(s)? [y/N] ");;
          answer ← Scanln;
          if String.eqb (ToLower (TrimSpace answer.1)) "y" then each (retry_failed_one p base) runs;; finish
          else Println "Aborted.";; finish
  end.

(** ** Submitting runs *)

Definition run_flags : flagset :=
  [("repo", KString); ("branch", KString); ("name", KString); ("prompt", KString); ("prompt-file", KString);
   ("editor", KBool); ("project", KString); ("feature", KString); ("model-tier", KString); ("model", KString);
   ("auto-push", KBool); ("auto-pr", KBool); ("approval-mode", KString); ("ttl", KDuration); ("wait", KBool);
   ("follow", KBool); ("timeout", KDuration); ("notify", KBool); ("server", KString); ("tag", KRepeated);
   ("parent-run-id", KString); ("env", KRepeated); ("env-file", KString); ("output-id", KBool); ("dry-run", KBool)].

(** [cmd/uncworks/run.go:72-85] runRun: a default of the configuration, when it can be read *)
Definition configured (get : Config -> string) : string :=
  match w_Config w with Ok cfg => get cfg | Err _ => "" end.

Definition configured_push : bool := match w_Config w with Ok cfg => cfg_DefaultAutoPush cfg | Err _ => false end.

(** [cmd/uncworks/run.go:97-103] runRun: the prompt of the standard input *)
Definition prompt_of_stdin (prompt : string) : cli string :=
  if String.eqb prompt "-" then
    raw ← ReadStdin;
    text ← must_ok "reading prompt from stdin: " raw;
    mret (TrimRight text newline)
  else mret prompt.

(** [cmd/uncworks/run.go:139-143] runRun: the repository, or that of the working directory *)
Definition detect_repo (repo : string) : cli string :=
  if String.eqb repo "" then
    out ← git ["remote"; "get-url"; "origin"];
    mret (match out with Some out => TrimSpace out | None => "" end)
  else mret repo.

(** [cmd/uncworks/run.go:146-156] runRun: the branch, or that of the working directory *)
Definition detect_branch (branch : string) : cli string :=
  if String.eqb branch "" then
    out ← git ["rev-parse"; "--abbrev-ref"; "HEAD"];
    let b := match out with Some out => TrimSpace out | None => "" end in
    mret (if String.eqb b "" || String.eqb b "HEAD" then "main" else b)
  else mret branch.

(** [cmd/uncworks/run.go:180-190] runRun: the lines of an environment file *)
Fixpoint file_envs (m : list (string * string)) (lines : list string) : result (list (string * string)) :=
  match lines with
  | [] => Ok m
  | line :: lines =>
      let line := TrimSpace line in
      if String.eqb line "" || HasPrefix line "#" then file_envs m lines
      else match Cut line "=" with
           | (k, v, true) => file_envs (map_set m (TrimSpace k) v) lines
           | _ => Err ("invalid input: --env-file line " +:+ Quote line +:+ ": must be KEY=VALUE")
           end
  end.

(** [cmd/uncworks/run.go:167-191] runRun: the variables of the agent *)
Definition run_envs (p : parsed) : cli (list (string * string)) :=
  m ← must_ok "" (set_envs "--env" [] (multiFlag p "env"));
  let path := flag_string p "env-file" "" in
  if String.eqb path "" then mret m
  else
    data ← ReadFile path;
    data ← must_ok ("--env-file " +:+ Quote path +:+ ": ") data;
    must_ok "" (file_envs m (Split data "010")).

(** [cmd/uncworks/run.go:69-191] runRun: the specification that the arguments and their defaults give *)
Definition run_spec (p : parsed) : cli PSpec :=
  let push := flag_bool p "auto-push" in
  let pr := flag_bool p "auto-pr" in
  prompt ← prompt_of_file (flag_string p "prompt-file" "") (flag_string p "prompt" "");
  prompt ← prompt_of_stdin prompt;
  prompt ← prompt_of_editor (flag_bool p "editor") prompt;
  repo ← detect_repo (flag_string p "repo" "");
  branch ← detect_branch (flag_string p "branch" "");
  if String.eqb prompt "" then fail "invalid input: --prompt is required"
  else if String.eqb repo "" then
    fail "invalid input: --repo is required (could not auto-detect git remote origin)"
  else
    envs ← run_envs p;
    mret (cli_spec [{| repo_URL := repo; repo_Branch := branch; repo_Path := "" |}] prompt (flag_string p "name" "")
            (or_else (flag_string p "project" "") (configured cfg_DefaultProject))
            (or_else (flag_string p "feature" "") (configured cfg_DefaultFeature))
            (or_else (tier_flag p) (configured cfg_DefaultModelTier))
            (push || pr || configured_push) pr (multiFlag p "tag") (flag_string p "parent-run-id" "") envs
            (flag_string p "approval-mode" "")
            (to_int32 (Z.quot (flag_duration fraction p "ttl" 0) second))).

(** [cmd/uncworks/run.go:193-226] runRun: the preview *)
Definition preview (spec : PSpec) : cli ending :=
  Println "Dry run — would create:";;
  match ps_Repos spec with
  | r :: _ => Println ("  repo:     " +:+ repo_URL r);; Println ("  branch:   " +:+ repo_Branch r)
  | [] => mret tt
  end;;
  line_of "  name:     " (ps_DisplayName spec);;
  line_of "  project:  " (ps_Project spec);;
  line_of "  feature:  " (ps_Feature spec);;
  line_of "  model:    " (ps_ModelTier spec);;
  (match ps_Tags spec with [] => mret tt | tags => Println ("  tags:     " +:+ Join tags ", ") end);;
  (if ps_AutoPr spec then Println "  auto-pr:  yes"
   else if ps_AutoPush spec then Println "  auto-push: yes" else mret tt);;
  line_of "  parent:   " (ps_ParentRunId spec);;
  Println ("  prompt:   " +:+ cut_at 200 (ps_Prompt spec));;
  finish.

(** [cmd/uncworks/run.go:263-281] runRun: what is printed of the new run *)
Definition print_created (p : parsed) (spec : PSpec) (id : string) : cli unit :=
  if flag_bool p "output-id" then Println id
  else
    Println ("Run created: " +:+ id);;
    match ps_Repos spec with
    | r :: _ => Println ("  repo:    " +:+ repo_URL r);; Println ("  branch:  " +:+ repo_Branch r)
    | [] => mret tt
    end;;
    line_of "  project: " (ps_Project spec);;
    line_of "  feature: " (ps_Feature spec);;
    line_of "  model:   " (ps_ModelTier spec);;
    if String.eqb (configured cfg_WebURL) "" then mret tt
    else Println ("  ui:      " +:+ TrimRight (configured cfg_WebURL) "/" +:+ "/runs/" +:+ id).

(** [cmd/uncworks/run.go:312-326] runRun: one event of the run that is waited for *)
Definition run_event (p : parsed) (id : string) (start : Z) (ev : AgentRunEvent) : cli unit :=
  now ← Now;
  let elapsed := Itoa (Z.quot (now - start) second) in
  if flag_bool p "output-id" then mret tt
  else match ae_Type ev with
       | EVENT_PHASE_CHANGED => Println ("  [" +:+ elapsed +:+ "s] phase: " +:+ ae_Payload ev)
       | EVENT_WAITING_FOR_INPUT =>
           Println ("  [" +:+ elapsed +:+ "s] waiting for input: " +:+ ae_Payload ev);;
           Println ("  Use 'uncworks input " +:+ id +:+ " <text>' to respond.")
       | _ => mret tt
       end.

(** [cmd/uncworks/run.go:339-371] runRun: the end of the wait, by the phase of the run *)
Definition run_end (p : parsed) (id : string) (r : PRun) : cli ending :=
  let msg := px_Message (pn_Status r) in
  match phase_of r with
  | PHASE_SUCCEEDED =>
      (if flag_bool p "output-id" then mret tt
       else Println ("run " +:+ id +:+ " done");; line_of "PR: " (px_PrUrl (pn_Status r)));;
      sendNotify p "UNCWORKS: run succeeded" id;;
      finish
  | PHASE_FAILED =>
      sendNotify p "UNCWORKS: run failed" (id +:+ " — " +:+ msg);;
      fail ("failed: run " +:+ id +:+ " failed" +:+ (if String.eqb msg "" then "" else ": " +:+ msg))
  | PHASE_CANCELLED =>
      sendNotify p "UNCWORKS: run cancelled" id;;
      fail ("failed: run " +:+ id +:+ " was cancelled")
  | phase => fail ("invalid input: run " +:+ id +:+ " ended in unexpected phase: " +:+ phaseLabel phase)
  end.

(** [cmd/uncworks/run.go:294-371] runRun: waiting for the new run *)
Definition run_wait (p : parsed) (base id : string) : cli ending :=
  let timeout := flag_duration fraction p "timeout" 0 in
  (if flag_bool p "output-id" then mret tt else Println ("Waiting for run " +:+ id));;
  stream ← WatchAgentRun_ base id timeout;
  evs ← must (sa_Events stream);
  start ← Now;
  show_events (run_event p id start) evs;;
  stream_over stream;;
  match sa_Err stream with
  | Some e =>
      if sa_TimedOut stream then
        fail ("unavailable: timed out after " +:+ DurationString timeout +:+ " waiting for run " +:+ id)
      else fail ("failed: stream error: " +:+ humanizeErr e)
  | None => mret tt
  end;;
  got ← GetAgentRun_ base id;
  r ← must got;
  run_end p id r.

(** [cmd/uncworks/run.go:28-372] runRun *)
Definition runRun (args : list string) : cli ending :=
  p ← parse_or_exit run_flags args;
  spec ← run_spec p;
  if flag_bool p "dry-run" then preview spec
  else
    let server := flag_string p "server" "" in
    let base := serverBaseURL server in
    created ← CreateAgentRun_ base spec;
    run ← must created;
    let id := pn_Id run in
    print_created p spec id;;
    if flag_bool p "follow" then runRunsTail [id; "--server=" +:+ server]
    else if flag_bool p "wait" then run_wait p base id
    else
      (if flag_bool p "output-id" then mret tt else Println ("Follow progress: uncworks runs tail " +:+ id));;
      finish.

(** *** A file with several runs *)

(** [cmd/uncworks/runs.go:5430-5443] runRunsBatch: batchSpec *)
Record batchSpec := {
  bs_Prompt : string; bs_Repo : string; bs_Branch : string; bs_Name : string; bs_Project : string; bs_Feature : string;
  bs_ModelTier : string; bs_AutoPush : bool; bs_AutoPR : bool; bs_ParentRunID : string; bs_Tags : list string;
  bs_EnvVars : list (string * string);
}.

Definition zero_batch : batchSpec :=
  {| bs_Prompt := ""; bs_Repo := ""; bs_Branch := ""; bs_Name := ""; bs_Project := ""; bs_Feature := "";
     bs_ModelTier := ""; bs_AutoPush := false; bs_AutoPR := false; bs_ParentRunID := ""; bs_Tags := [];
     bs_EnvVars := [] |}.

Definition with_text (name text : string) (s : batchSpec) : batchSpec :=
  let pick n cur := if String.eqb name n then text else cur in
  {| bs_Prompt := pick "prompt" (bs_Prompt s); bs_Repo := pick "repo" (bs_Repo s);
     bs_Branch := pick "branch" (bs_Branch s); bs_Name := pick "name" (bs_Name s);
     bs_Project := pick "project" (bs_Project s); bs_Feature := pick "feature" (bs_Feature s);
     bs_ModelTier := pick "model_tier" (bs_ModelTier s); bs_AutoPush := bs_AutoPush s; bs_AutoPR := bs_AutoPR s;
     bs_ParentRunID := pick "parent_run_id" (bs_ParentRunID s); bs_Tags := bs_Tags s; bs_EnvVars := bs_EnvVars s |}.

Definition with_rest (push pr : bool) (tags : list string) (envs : list (string * string)) (s : batchSpec) : batchSpec :=
  {| bs_Prompt := bs_Prompt s; bs_Repo := bs_Repo s; bs_Branch := bs_Branch s; bs_Name := bs_Name s;
     bs_Project := bs_Project s; bs_Feature := bs_Feature s; bs_ModelTier := bs_ModelTier s; bs_AutoPush := push;
     bs_AutoPR := pr; bs_ParentRunID := bs_ParentRunID s; bs_Tags := tags; bs_EnvVars := envs |}.

(** A map of strings. *)
Definition dec_strings : dec (list (string * string)) := fun cur v =>
  match v with
  | JNull => ([], true)
  | JObj l => foldl (fun acc m => let r := dec_string "" m.2 in (map_set acc.1 (unquote m.1) r.1, acc.2 && r.2)) (cur, true) l
  | _ => (cur, false)
  end.

Definition dec_batch : dec batchSpec :=
  let text name get := (name, at_field get (with_text name) dec_string) in
  dec_struct
    [text "prompt" bs_Prompt; text "repo" bs_Repo; text "branch" bs_Branch; text "name" bs_Name;
     text "project" bs_Project; text "feature" bs_Feature; text "model_tier" bs_ModelTier;
     text "parent_run_id" bs_ParentRunID;
     ("auto_push", at_field bs_AutoPush (fun x s => with_rest x (bs_AutoPR s) (bs_Tags s) (bs_EnvVars s) s) dec_bool);
     ("auto_pr", at_field bs_AutoPR (fun x s => with_rest (bs_AutoPush s) x (bs_Tags s) (bs_EnvVars s) s) dec_bool);
     ("tags", at_field bs_Tags (fun x s => with_rest (bs_AutoPush s) (bs_AutoPR s) x (bs_EnvVars s) s) (dec_list "" dec_string));
     ("env_vars", at_field bs_EnvVars (fun x s => with_rest (bs_AutoPush s) (bs_AutoPR s) (bs_Tags s) x s) dec_strings)].

Definition batch_flags : flagset := [("server", KString); ("dry-run", KBool); ("wait", KBool); ("output-ids", KBool)].

(** [cmd/uncworks/runs.go:5475-5490] runRunsBatch: the preview *)
Fixpoint preview_batch (repo branch : string) (i : Z) (specs : list batchSpec) : cli unit :=
  match specs with
  | [] => mret tt
  | s :: specs =>
      Println ("  " +:+ Itoa i +:+ ". [" +:+ or_else (bs_Repo s) repo +:+ "@" +:+ or_else (bs_Branch s) branch +:+ "] " +:+
               cut_at 80 (bs_Prompt s));;
      preview_batch repo branch (i + 1) specs
  end.

(** [cmd/uncworks/runs.go:5511-5541] runRunsBatch: the specification of a run *)
Definition batch_spec (repo branch : string) (s : batchSpec) : PSpec :=
  cli_spec [{| repo_URL := or_else (bs_Repo s) repo; repo_Branch := or_else (bs_Branch s) branch; repo_Path := "" |}]
    (bs_Prompt s) (bs_Name s) (or_else (bs_Project s) (configured cfg_DefaultProject))
    (or_else (bs_Feature s) (configured cfg_DefaultFeature)) (or_else (bs_ModelTier s) (configured cfg_DefaultModelTier))
    (bs_AutoPush s || bs_AutoPR s) (bs_AutoPR s) (bs_Tags s) (bs_ParentRunID s) (bs_EnvVars s) "" 0.

(** [cmd/uncworks/runs.go:5499-5555] runRunsBatch: submitting the runs, one after the other; the IDs of those that were created *)
Fixpoint submit_batch (p : parsed) (base repo branch : string) (i : Z) (specs : list batchSpec) : cli (list string) :=
  match specs with
  | [] => mret []
  | s :: specs =>
      if String.eqb (or_else (bs_Repo s) repo) "" then
        fail ("invalid input: spec " +:+ Itoa i +:+ ": repo is required (no git remote detected)")
      else if String.eqb (bs_Prompt s) "" then
        fail ("invalid input: spec " +:+ Itoa i +:+ ": prompt is required")
      else
        created ← CreateAgentRun_ base (batch_spec repo branch s);
        match created with
        | inl e =>
            Eprintln ("  spec " +:+ Itoa i +:+ ": " +:+ humanizeErr e);;
            submit_batch p base repo branch (i + 1) specs
        | inr run =>
            (if flag_bool p "output-ids" then Println (pn_Id run)
             else Println ("  created: " +:+ pn_Id run +:+ "  (" +:+
                           str_take (Z.to_nat (min (len (bs_Prompt s)) 60)) (bs_Prompt s) +:+ ")"));;
            ids ← submit_batch p base repo branch (i + 1) specs;
            mret (pn_Id run :: ids)
        end
  end.

(** [cmd/uncworks/runs.go:5563-5578] runRunsBatch: the waits that fail; each is run as a whole, and [wg.Wait] waits for ever for one
    that does not end *)
Fixpoint failed_waits (server : string) (outstanding : bool) (ids : list string) : cli Z :=
  match ids with
  | [] => if outstanding then return_ Endless else mret 0
  | id :: ids =>
      r ← delivered (runRunsWait fuel [id; "--quiet"; "--server=" +:+ server]);
      n ← failed_waits server (outstanding || negb (bool_decide (is_Some r))) ids;
      mret (match r with Some (Err _) => n + 1 | _ => n end)
  end.

(** [cmd/uncworks/runs.go:5557-5585] runRunsBatch: the end *)
Definition batch_end (p : parsed) (specs : list batchSpec) (ids : list string) : cli ending :=
  let n := Itoa (Z.of_nat (length ids)) in
  (if flag_bool p "output-ids" then mret tt
   else Println ("Submitted " +:+ n +:+ "/" +:+ Itoa (Z.of_nat (length specs)) +:+ " run(s)."));;
  if flag_bool p "wait" && negb (bool_decide (ids = [])) then
    Println ("Waiting for " +:+ n +:+ " run(s) to complete...");;
    failed ← failed_waits (flag_string p "server" "") false (finish_order ids);
    if 0 <? failed then fail ("failed: " +:+ Itoa failed +:+ "/" +:+ n +:+ " run(s) failed")
    else Println ("All " +:+ n +:+ " run(s) completed successfully.");; finish
  else finish.

(** [cmd/uncworks/runs.go:5385-5586] runRunsBatch: [json.Unmarshal]'s error has no text here *)
Definition runRunsBatch (args : list string) : cli ending :=
  p ← parse_or_exit batch_flags args;
  match pa_args p with
  | [file] =>
      raw ← (if String.eqb file "-" then
               raw ← ReadStdin; must_ok "reading stdin: " raw
             else raw ← ReadFile file; must_ok ("reading " +:+ file +:+ ": ") raw);
      match Unmarshal [] (dec_list zero_batch dec_batch) raw with
      | None => fail ("parsing " +:+ file +:+ ": ")
      | Some [] => fail ("not found: no run specs found in " +:+ file)
      | Some specs =>
          repo ← detect_repo "";
          branch ← detect_branch "";
          if flag_bool p "dry-run" then
            Println ("Dry run — would submit " +:+ Itoa (Z.of_nat (length specs)) +:+ " run(s):");;
            preview_batch repo branch 1 specs;; finish
          else
            ids ← submit_batch p (serverBaseURL (flag_string p "server" "")) repo branch 1 specs;
            batch_end p specs ids
      end
  | _ => fail "invalid input: JSON file argument required (use '-' to read from stdin)"
  end.

(** ** Listing runs *)

(** [sort.Slice] with a comparison *)
Context (sort_slice : (PRun -> PRun -> bool) -> list PRun -> list PRun).

Definition list_flags : flagset :=
  [("server", KString); ("limit", KInt); ("project", KString); ("feature", KString); ("include-archived", KBool);
   ("phase", KString); ("tag", KString); ("parent-run-id", KString); ("stage", KString); ("cursor", KString);
   ("json", KBool); ("since", KString); ("all", KBool); ("repo-url", KString); ("title-contains", KString);
   ("verbose", KBool); ("no-color", KBool); ("relative", KBool); ("sort", KString); ("ids-only", KBool);
   ("recent", KBool); ("running", KBool); ("failed", KBool); ("pending", KBool); ("waiting", KBool); ("active", KBool);
   ("done", KBool); ("cancelled", KBool); ("no-header", KBool); ("title-width", KInt); ("show-tags", KBool);
   ("show-pr", KBool); ("show-feature", KBool); ("show-message", KBool); ("show-diff", KBool); ("show-cost", KBool);
   ("no-model", KBool); ("title", KString); ("count", KBool); ("model", KString); ("zero-commits", KBool);
   ("has-diff", KBool); ("approval-mode", KString); ("show-approval", KBool); ("compact", KBool)].

(** [cmd/uncworks/runs.go:529-554] runRunsList: the flags that stand for a phase *)
Definition phase_switches : list (string * string) :=
  [("running", "RUNNING"); ("failed", "FAILED"); ("pending", "PENDING"); ("waiting", "WAITING"); ("done", "DONE");
   ("cancelled", "CANCELLED")].

Definition switched (p : parsed) : list string :=
  snd <$> filter (fun s => flag_bool p s.1 = true) phase_switches.

(** [cmd/uncworks/runs.go:537-554] runRunsList: the phase as a word *)
Definition phase_word (p : parsed) : string :=
  or_else (flag_string p "phase" "") (default "" (head (switched p))).

(** [cmd/uncworks/runs.go:576-594] runRunsList: the phase that a word names *)
Definition phase_named (word : string) : option PPhase :=
  let u := ToUpper word in
  if String.eqb u "RUNNING" then Some PHASE_RUNNING
  else if String.eqb u "DONE" then Some PHASE_SUCCEEDED
  else if String.eqb u "FAILED" then Some PHASE_FAILED
  else if String.eqb u "PENDING" then Some PHASE_PENDING
  else if String.eqb u "WAITING" then Some PHASE_WAITING_FOR_INPUT
  else if String.eqb u "CANCELLED" then Some PHASE_CANCELLED
  else None.

(** [cmd/uncworks/runs.go:570-622] runRunsList: the request *)
Definition list_query (p : parsed) (phase : PPhase) : ListAgentRunsRequest :=
  {| lq_Limit := to_int32 (flag_int p "limit" 20); lq_Cursor := flag_string p "cursor" ""; lq_PhaseFilter := phase;
     lq_ParentRunId := flag_string p "parent-run-id" ""; lq_StageFilter := ToLower (flag_string p "stage" "");
     lq_TagFilter := flag_string p "tag" ""; lq_SpecRunId := ""; lq_ProjectFilter := flag_string p "project" "";
     lq_FeatureFilter := flag_string p "feature" "";
     lq_IncludeArchived := if flag_bool p "include-archived" then "true" else "" |}.

(** [cmd/uncworks/runs.go:634-640] runRunsList: whether a page reaches behind the window *)
Definition passed_since (p : parsed) (since : option Z) (pg : list PRun) : bool :=
  match since, last pg with
  | Some t, Some r => negb (flag_bool p "include-archived") && negb (in_window (Some t) r)
  | _, _ => false
  end.

(** [cmd/uncworks/runs.go:641-643] runRunsList: whether no further page is asked for *)
Definition stop_listing (p : parsed) (since : option Z) (pg : list PRun) (next : string) : bool :=
  (negb (flag_bool p "all") && negb (flag_bool p "active") &&
   (bool_decide (since = None) || passed_since p since pg)) || String.eqb next "".

(** [cmd/uncworks/runs.go:614-645] runRunsList: the pages, and the cursor after them *)
Fixpoint list_pages (n : nat) (p : parsed) (since : option Z) (base : string) (q : ListAgentRunsRequest)
  (acc : list PRun) : cli (list PRun * string) :=
  match n with
  | O => return_ Unfinished
  | Datatypes.S n =>
      resp ← ListAgentRuns_ base q;
      pg ← must resp;
      if stop_listing p since pg.1 pg.2 then mret (acc ++ pg.1, pg.2)
      else list_pages n p since base (with_cursor q pg.2) (acc ++ pg.1)
  end.

Definition contains_fold (text needle : string) : bool := Contains (ToLower text) (ToLower needle).

(** [cmd/uncworks/runs.go:722-735] runRunsList: the approval modes *)
Definition approval_matches (wanted : string) (r : PRun) : bool :=
  let needle := ToLower wanted in
  let mode := ToLower (ps_ApprovalMode (pn_Spec r)) in
  if String.eqb needle "none" then String.eqb mode ""
  else String.eqb mode needle || (String.eqb needle "hybrid" && String.eqb mode "").

(** A filter for which the empty text stands for none. *)
Definition filter_by (text : string) (f : string -> PRun -> bool) (r : PRun) : bool := String.eqb text "" || f text r.

(** [cmd/uncworks/runs.go:647-736] runRunsList: the filters, of which each is applied to what the one before it leaves *)
Definition list_filters (p : parsed) (since : option Z) : list (PRun -> bool) :=
  let title := or_else (flag_string p "title-contains" "") (flag_string p "title" "") in
  [in_window since;
   filter_by (flag_string p "repo-url" "") (fun url r => existsb (fun repo => Contains (repo_URL repo) url) (ps_Repos (pn_Spec r)));
   filter_by title (fun t r => contains_fold (ps_DisplayName (pn_Spec r)) t);
   filter_by (flag_string p "model" "") (fun m r => contains_fold (ps_ModelTier (pn_Spec r)) m);
   (fun r => negb (flag_bool p "active") || active (phase_of r));
   (fun r => negb (flag_bool p "zero-commits") ||
             (bool_decide (phase_of r = PHASE_SUCCEEDED) && Contains (px_Message (pn_Status r)) "no changes committed"));
   (fun r => negb (flag_bool p "has-diff") ||
             (0 <? px_TotalAdditions (pn_Status r)) || (0 <? px_TotalDeletions (pn_Status r)));
   filter_by (flag_string p "approval-mode" "") approval_matches].

Definition apply_filters (fs : list (PRun -> bool)) (runs : list PRun) : list PRun :=
  foldl (fun runs f => filter (fun r => f r = true) runs) runs fs.

Definition phase_number (p : PPhase) : Z :=
  match p with
  | PHASE_UNSPECIFIED => 0 | PHASE_PENDING => 1 | PHASE_RUNNING => 2 | PHASE_WAITING_FOR_INPUT => 3
  | PHASE_SUCCEEDED => 4 | PHASE_FAILED => 5 | PHASE_CANCELLED => 6
  end.

Definition text_before (a b : string) : bool := bool_decide (String.compare (ToLower a) (ToLower b) = Lt).

(** A comparison of start times in which a run that has not started comes last. *)
Definition by_start (lt : Z -> Z -> bool) (a b : PRun) : bool :=
  match px_StartedAt (pn_Status a), px_StartedAt (pn_Status b) with
  | None, _ => false
  | Some _, None => true
  | Some x, Some y => lt x y
  end.

(** [cmd/uncworks/runs.go:737-785] runRunsList: the comparison that a word names *)
Definition sort_order (word : string) : option (PRun -> PRun -> bool) :=
  let w := ToLower word in
  if String.eqb w "started" then Some (by_start (fun x y => y <? x))
  else if String.eqb w "phase" then Some (fun a b => phase_number (phase_of a) <? phase_number (phase_of b))
  else if String.eqb w "elapsed" || String.eqb w "duration" then Some (by_start Z.ltb)
  else if String.eqb w "title" || String.eqb w "name" then
    Some (fun a b => text_before (ps_DisplayName (pn_Spec a)) (ps_DisplayName (pn_Spec b)))
  else if String.eqb w "model" then Some (fun a b => text_before (ps_ModelTier (pn_Spec a)) (ps_ModelTier (pn_Spec b)))
  else if String.eqb w "project" then Some (fun a b => text_before (ps_Project (pn_Spec a)) (ps_Project (pn_Spec b)))
  else None.

(** [cmd/uncworks/runs.go:737-785] runRunsList: the runs in the order that is asked for *)
Definition sorted_runs (sortBy : string) (runs : list PRun) : cli (list PRun) :=
  if String.eqb sortBy "" then mret runs
  else match sort_order sortBy with
       | Some lt => mret (sort_slice lt runs)
       | None => fail ("invalid input: --sort " +:+ Quote sortBy +:+
                       ": must be started, phase, elapsed, title, model, or project")
       end.

(** [cmd/uncworks/runs.go:786-801] runRunsList: what is printed; tables and JSON are events *)
Fixpoint print_run_ids (runs : list PRun) : cli unit :=
  match runs with [] => mret tt | r :: runs => Println (pn_Id r);; print_run_ids runs end.

Definition show_list (p : parsed) (runs : list PRun) (next : string) : cli ending :=
  if bool_decide (runs = []) && negb (flag_bool p "json") && negb (flag_bool p "ids-only") then
    Println "No runs found.";; finish
  else if flag_bool p "count" then Println (Itoa (Z.of_nat (length runs)));; finish
  else if flag_bool p "ids-only" then print_run_ids runs;; finish
  else tell (EShown runs next);; finish.

(** [cmd/uncworks/runs.go:463-801] runRunsList *)
Definition runRunsList (args : list string) : cli ending :=
  p ← parse_or_exit list_flags args;
  if (1 <? length (switched p))%nat then
    fail "failed: --running, --failed, --pending, --waiting, --done, and --cancelled are mutually exclusive"
  else
    let word := phase_word p in
    let window := or_else (flag_string p "since" "") (if flag_bool p "recent" then "24h" else "") in
    since ← since_time window;
    phase ← (if String.eqb word "" then mret PHASE_UNSPECIFIED
             else match phase_named word with
                  | Some phase => mret phase
                  | None => fail ("invalid input: invalid phase value " +:+ Quote word +:+
                                  ", must be one of: RUNNING, DONE, FAILED, PENDING, WAITING, CANCELLED")
                  end);
    fetched ← list_pages fuel p since (serverBaseURL (flag_string p "server" "")) (list_query p phase) [];
    runs ← sorted_runs (flag_string p "sort" "") (apply_filters (list_filters p since) fetched.1);
    show_list p runs fetched.2.
End commands.
