(* ===== verification/CliProps.v ===== *)
(** * What the command line promises.

    Where run IDs may stand among the arguments; what an approval or a rejection from the terminal becomes at the
    workflow's gate; which runs the commands on many runs touch; how a wait ends.  The examples at the end are the
    commands whose effect is another than their help says. *)

From S2P Require Import Prelude GoStrings ApiTypes ApiProto ApiServer ApiList ApiNames TemporalTypes Workflow ApprovalGate Shell CliArgs CliRuns.

Local Open Scope Z_scope.

(** ** Judgements on commands *)

Section judgement.
Context {S : Type}.
Notation cli := (shell S event ending).

(** From a state, a command adds events that [Q] relates to what it goes on with or returns. *)
Definition traces_at {A} (s : machine S event) (Q : list event -> A + ending -> Prop) (m : cli A) : Prop :=
  exists l, m_log (m s).1 = m_log s ++ l /\ Q l (m s).2.

Definition traces {A} (Q : list event -> A + ending -> Prop) (m : cli A) : Prop := forall s, traces_at s Q m.

Lemma traces_ret {A} (Q : list event -> A + ending -> Prop) a : Q [] (inl a) -> traces Q (mret a).
Proof. intros HQ s. exists []. by rewrite app_nil_r. Qed.

Lemma traces_return {A} (Q : list event -> A + ending -> Prop) e : Q [] (inr e) -> traces Q (return_ e).
Proof. intros HQ s. exists []. by rewrite app_nil_r. Qed.

Lemma traces_ask {A} (Q : list event -> A + ending -> Prop) (op : S -> S * A) ev :
  (forall a, Q [ev a] (inl a)) -> traces Q (ask op ev).
Proof. intros HQ s. unfold traces_at, ask. destruct (op (m_state s)) as [t a]. by exists [ev a]. Qed.

Lemma traces_bind {A B} (P : list event -> A + ending -> Prop) (Q : list event -> B + ending -> Prop) (m : cli A) k :
  traces P m -> (forall l e, P l (inr e) -> Q l (inr e)) ->
  (forall l a, P l (inl a) -> traces (fun l' r => Q (l ++ l') r) (k a)) -> traces Q (m ≫= k).
Proof.
  intros Hm He Hk s. destruct (Hm s) as (l & Hl & HP). unfold traces_at, mbind, shell_bind.
  destruct (m s) as [s' [a|e]]; cbn [fst snd] in *; [|exists l; auto].
  destruct (Hk l a HP s') as (l' & Hl' & HQ). exists (l ++ l'). by rewrite Hl', Hl, app_assoc.
Qed.

Lemma traces_weaken {A} (P Q : list event -> A + ending -> Prop) (m : cli A) :
  (forall l r, P l r -> Q l r) -> traces P m -> traces Q m.
Proof. intros HPQ Hm s. destruct (Hm s) as (l & Hl & HP). exists l. auto. Qed.

(** The events are looked at one by one. *)
Lemma runs_traces {A} (P : event -> Prop) (m : cli A) : runs P m -> traces (fun l _ => Forall P l) m.
Proof. intros Hm s. destruct (Hm s) as (l & Hl & HP). by exists l. Qed.

Lemma runs_ask {A} (P : event -> Prop) (op : S -> S * A) ev : (forall a, P (ev a)) -> runs (R := ending) P (ask op ev).
Proof.
  intros HP s. unfold ask. destruct (op (m_state s)) as [t a]. exists [ev a]. split; [done|]. by apply Forall_singleton.
Qed.

Lemma runs_each {A B} (P : event -> Prop) (f : A -> cli (list B)) l : (forall a, a ∈ l -> runs P (f a)) -> runs P (each f l).
Proof.
  induction l as [|a l IH]; intros Hf; cbn [each]; [apply runs_ret|].
  apply runs_bind; [apply Hf; constructor|intros b]. apply runs_bind; [|intros; apply runs_ret].
  apply IH. intros x Hx. apply Hf. by constructor.
Qed.
End judgement.

(** ** Run IDs among the arguments *)

Lemma isRunID_not_flag s : isRunID s = true -> HasPrefix s "-" = false.
Proof.
  unfold isRunID. rewrite !andb_true_iff, String.eqb_eq. intros [[_ H] _].
  destruct s as [|c s]; [done|]. cbn in H. injection H as -> _. done.
Qed.

Lemma normalize_loop_partition args :
  normalize_loop args = (filter (fun a => isRunID a = false) args, filter (fun a => isRunID a = true) args).
Proof.
  cut (forall n l, (length l <= n)%nat -> normalize_loop l =
    (filter (fun a => isRunID a = false) l, filter (fun a => isRunID a = true) l)).
  { intros H. by apply (H (length args)). }
  induction n as [|n IH]; intros [|arg rest] Hn; cbn [length] in Hn; try done; [lia|].
  rewrite !filter_cons. cbn [normalize_loop].
  destruct (isRunID arg) eqn:Harg; [rewrite IH by lia; repeat case_decide; first [done|congruence]|].
  assert (Hrest : normalize_loop rest =
    (filter (fun a => isRunID a = false) rest, filter (fun a => isRunID a = true) rest)) by (apply IH; lia).
  destruct (HasPrefix arg "-"); [|rewrite Hrest; repeat case_decide; first [done|congruence]].
  destruct rest as [|next rest]; [repeat case_decide; first [done|congruence]|].
  destruct (negb (Contains arg "=") && negb (HasPrefix next "-") && negb (isRunID next)) eqn:Hval;
    [|rewrite Hrest; repeat case_decide; first [done|congruence]].
  apply andb_true_iff in Hval as [_ Hval%negb_true_iff].
  cbn [length] in Hn. rewrite IH by lia. rewrite !filter_cons. repeat case_decide; first [done|congruence].
Qed.

(** The look at a flag's value changes nothing: the arguments that are run IDs go to the end. *)
Lemma normalizeRunArgs_partition args :
  normalizeRunArgs args = filter (fun a => isRunID a = false) args ++ filter (fun a => isRunID a = true) args.
Proof. unfold normalizeRunArgs. by rewrite normalize_loop_partition. Qed.

(** ** Parsing *)

Section parsing.
Context (fraction : Z -> nat -> Z -> Z) (formal : flagset).
Notation Parse := (Parse fraction formal).

(** Nothing after the first argument that is no flag is read as a flag. *)
Lemma Parse_stops s rest : HasPrefix s "-" = false -> Parse (s :: rest) = inr {| pa_set := []; pa_args := s :: rest |}.
Proof. intros H. cbn [CliArgs.Parse]. by rewrite H, orb_true_r. Qed.

Lemma Parse_ids ids : Forall (fun a => isRunID a = true) ids -> Parse ids = inr {| pa_set := []; pa_args := ids |}.
Proof. destruct 1 as [|a ids Ha _]; [done|]. by apply Parse_stops, isRunID_not_flag. Qed.

Lemma set_flag_inr k name v r p :
  set_flag fraction k name v r = inr p ->
  exists p', r = inr p' /\ takes fraction k v = true /\ p = {| pa_set := (name, v) :: pa_set p'; pa_args := pa_args p' |}.
Proof. unfold set_flag. destruct (takes fraction k v); [|done]. destruct r as [|p']; intros [=]; eauto. Qed.

Lemma add_setting_inr name v r p :
  add_setting name v r = inr p ->
  exists p', r = inr p' /\ p = {| pa_set := (name, v) :: pa_set p'; pa_args := pa_args p' |}.
Proof. destruct r as [|p']; intros [=]; eauto. Qed.

(** Flags that leave no argument are read in the same way in front of run IDs. *)
Lemma Parse_app_ids flags ids set :
  Parse flags = inr {| pa_set := set; pa_args := [] |} -> Forall (fun a => isRunID a = true) ids ->
  Parse (flags ++ ids) = inr {| pa_set := set; pa_args := ids |}.
Proof.
  intros H Hids. cut (forall n l set, (length l <= n)%nat -> Parse l = inr {| pa_set := set; pa_args := [] |} ->
    Parse (l ++ ids) = inr {| pa_set := set; pa_args := ids |}). { intros Hn. by apply (Hn (length flags)). }
  clear flags set H. induction n as [|n IH]; intros [|s rest] set Hn H; cbn [length] in Hn; try lia;
    try (injection H as Hs; subst set; by apply Parse_ids).
  cbn [CliArgs.Parse app] in *.
  destruct (String.eqb s "-" || negb (HasPrefix s "-")); [done|].
  destruct (String.eqb s "--"). { by injection H as <- ->. }
  destruct (_ || _); [done|]. destruct (split_flag _) as [name value].
  destruct (kind_of formal name) as [k|]; [|by destruct (_ || _)].
  assert (Hset : forall v rest', (length rest' <= n)%nat ->
    set_flag fraction k name v (Parse rest') = inr {| pa_set := set; pa_args := [] |} ->
    set_flag fraction k name v (Parse (rest' ++ ids)) = inr {| pa_set := set; pa_args := ids |}).
  { intros v rest' Hl ([set' args'] & Hp & Hv & [= -> Ha])%set_flag_inr. cbn [pa_args] in Ha. subst args'.
    unfold set_flag. by rewrite Hv, (IH rest' set') by done. }
  destruct value as [v|]; [by apply Hset; [lia|]|].
  destruct k; try (destruct rest as [|v rest']; [done|]; cbn [length app] in *; apply Hset; [lia|done]).
  apply add_setting_inr in H as ([set' args'] & Hp & [= -> Ha]). cbn [pa_args] in Ha. subst args'. by rewrite (IH rest set') by (lia || done).
Qed.

(** A flag that carries its value, or is a switch, or is none of the flags. *)
Definition whole (a : string) : Prop :=
  HasPrefix a "--" = true /\ a <> "--" /\
  let '(name, value) := split_flag (str_drop 2 a) in is_Some value \/ kind_of formal name = Some KBool.

Lemma Parse_whole flags ids p :
  Forall whole flags -> Forall (fun a => isRunID a = true) ids -> Parse (flags ++ ids) = inr p -> pa_args p = ids.
Proof.
  intros Hw Hids. revert p. induction Hw as [|a flags (Hp & Hne & Hval) _ IH]; intros p; cbn [app].
  { rewrite Parse_ids by done. by intros [= <-]. }
  cbn [CliArgs.Parse]. rewrite Hp.
  assert (HasPrefix a "-" = true) as -> by (eapply HasPrefix_trans; [exact Hp|done]).
  destruct (String.eqb_spec a "-") as [->|_]; [done|]. destruct (String.eqb_spec a "--") as [|_]; [done|].
  cbn [orb negb]. destruct (HasPrefix (str_drop 2 a) "-" || _); [done|].
  destruct (split_flag (str_drop 2 a)) as [name value].
  destruct (kind_of formal name) as [k|]; [|by destruct (String.eqb name "help" || _)].
  destruct value as [v|].
  - intros (p' & Hr & _ & ->)%set_flag_inr. exact (IH p' Hr).
  - destruct Hval as [[? [=]]|[= ->]]. intros (p' & Hr & ->)%add_setting_inr. exact (IH p' Hr).
Qed.
End parsing.

(** ** Reading flags wherever they stand *)

(** A command that puts its arguments in order reads its flags wherever the run IDs stand among them: when the flags
    alone can be parsed and leave nothing over, then the arguments give the same settings, and the run IDs, in their
    order, are what is left. *)
Theorem flags_read_anywhere (fraction : Z -> nat -> Z -> Z) (formal : flagset) (args : list string)
    (set : list (string * string))
    (Hflags : Parse fraction formal (filter (fun a => isRunID a = false) args) = inr {| pa_set := set; pa_args := [] |}) :
  Parse fraction formal (normalizeRunArgs args) =
  inr {| pa_set := set; pa_args := filter (fun a => isRunID a = true) args |}.
Proof.
  rewrite normalizeRunArgs_partition. apply Parse_app_ids; [done|].
  apply Forall_forall. by intros a [? _]%list_elem_of_filter.
Qed.

Lemma flags_read_anywhere_witness :
  Parse (fun _ _ _ => 0) retry_flags
    (normalizeRunArgs ["ar-aaaaaa"; "--branch"; "dev"; "ar-bbbbbb"; "--wait"; "--env=A=b"]) =
  inr {| pa_set := [("branch", "dev"); ("wait", "true"); ("env", "A=b")]; pa_args := ["ar-aaaaaa"; "ar-bbbbbb"] |}.
Proof. exact (flags_read_anywhere (fun _ _ _ => 0) retry_flags ["ar-aaaaaa"; "--branch"; "dev"; "ar-bbbbbb"; "--wait"; "--env=A=b"] _ eq_refl). Defined.

(** ** Commands that change nothing *)

(** The events that change something on the server. *)
Definition mutating (e : event) : bool :=
  match e with ECreate _ _ _ | ECancel _ _ _ | EInput _ _ _ _ | EPost _ _ _ => true | _ => false end.

(** One step of an argument about the events of a command, for a predicate [P] that [Hquiet] shows of all events that
    change nothing. *)
Ltac cli_step :=
  lazymatch goal with
  | |- runs _ (_ ≫= _) => apply runs_bind; [|intros ?]
  | |- runs _ (ask _ _) => apply runs_ask; intros ?; first [by auto|idtac]
  | |- runs _ (match ?x with _ => _ end) => destruct x eqn:?
  | |- runs _ (let _ := _ in _) => cbv zeta
  | |- runs _ (mret _) => apply runs_ret
  | |- runs _ (return_ _) => apply runs_return
  | |- runs _ _ => solve [auto with cli]
  end.
Ltac cli_runs := repeat cli_step.

Create HintDb cli discriminated.

Section quiet.
Context {S : Type} (w : world S) (fraction : Z -> nat -> Z -> Z) (fuel : nat) (clock_time : Z -> string).
Context (finish_order : list string -> list string).
Context (P : event -> Prop) (Hquiet : forall e, mutating e = false -> P e).
Notation cli := (shell S event ending).

Lemma runs_Now : runs P (Now w).
Proof. apply runs_nothing. intros s. unfold Now. by destruct (w_Now w (m_state s)). Qed.

Lemma runs_tell e : mutating e = false -> runs P (tell (S := S) e).
Proof. intros He. apply runs_ask. auto. Qed.

Lemma runs_Println l : runs P (Println (S := S) l).
Proof. by apply runs_tell. Qed.

Lemma runs_Eprintln l : runs P (Eprintln (S := S) l).
Proof. by apply runs_tell. Qed.

Lemma runs_fail {A} msg : runs P (fail (S := S) (A := A) msg).
Proof. apply runs_return. Qed.

Lemma runs_finish : runs P (finish (S := S)).
Proof. apply runs_return. Qed.

Lemma runs_must {A} (a : rpc_error + A) : runs P (must (S := S) a).
Proof. unfold must, fail. cli_runs. Qed.

Lemma runs_must_ok {A} pre (a : result A) : runs P (must_ok (S := S) pre a).
Proof. unfold must_ok, fail. cli_runs. Qed.

Lemma runs_parse_or_exit formal args : runs P (parse_or_exit (S := S) fraction formal args).
Proof. unfold parse_or_exit. cli_runs. Qed.

Lemma runs_parse_or_fail cmd formal args : runs P (parse_or_fail (S := S) fraction cmd formal args).
Proof. unfold parse_or_fail, fail. cli_runs. Qed.

Lemma runs_List base q : runs P (ListAgentRuns_ w base q).
Proof. apply runs_ask. auto. Qed.

Lemma runs_Get base id : runs P (GetAgentRun_ w base id).
Proof. apply runs_ask. auto. Qed.

Lemma runs_Watch base id timeout : runs P (WatchAgentRun_ w base id timeout).
Proof. apply runs_ask. auto. Qed.

Lemma runs_Scanln : runs P (Scanln w).
Proof. apply runs_ask. auto. Qed.

Lemma runs_ReadStdin : runs P (ReadStdin w).
Proof. apply runs_ask. auto. Qed.
End quiet.

#[export] Hint Resolve runs_Now runs_Println runs_Eprintln runs_fail runs_finish runs_must runs_must_ok runs_parse_or_exit
  runs_parse_or_fail runs_List runs_Get runs_Watch runs_Scanln runs_ReadStdin : cli.

Section quiet_commands.
Context {S : Type} (w : world S) (fraction : Z -> nat -> Z -> Z) (fuel : nat) (clock_time : Z -> string).
Context (finish_order : list string -> list string).
Context (P : event -> Prop) (Hquiet : forall e, mutating e = false -> P e).

Lemma runs_latest base : runs P (latest w base).
Proof. unfold latest. cli_runs. Qed.

Lemma runs_since_time since : runs P (since_time w fraction since).
Proof. unfold since_time. cli_runs. Qed.

Lemma runs_print_errors errs : runs P (print_errors (S := S) errs).
Proof. induction errs; cbn [print_errors]; cli_runs. Qed.

Lemma runs_print_ids ids : runs P (print_ids (S := S) ids).
Proof. induction ids; cbn [print_ids]; cli_runs. Qed.

Lemma runs_print_lines prefix lines : runs P (print_lines (S := S) prefix lines).
Proof. induction lines; cbn [print_lines]; cli_runs. Qed.

Lemma runs_line_of label text : runs P (line_of (S := S) label text).
Proof. unfold line_of. cli_runs. Qed.

Lemma runs_show_events (show : AgentRunEvent -> shell S event ending unit) evs :
  (forall ev, runs P (show ev)) -> runs P (show_events show evs).
Proof. intros Hs. induction evs; cbn [show_events]; cli_runs. Qed.

Lemma runs_stream_over stream : runs P (stream_over (S := S) stream).
Proof. unfold stream_over. cli_runs. Qed.

Lemma runs_one_run p base prefix : runs P (one_run w p base prefix).
Proof. pose proof runs_latest. unfold one_run. cli_runs. Qed.

Lemma runs_show_event grep ev : runs P (show_event (S := S) grep ev).
Proof. pose proof runs_print_lines. unfold show_event. cli_runs. Qed.

Lemma runs_stored_log p id run : runs P (stored_log w clock_time p id run).
Proof. unfold stored_log. cli_runs. Qed.

Lemma runs_live_log p base id run : runs P (live_log w p base id run).
Proof. pose proof runs_show_events. pose proof runs_show_event. pose proof runs_stream_over. unfold live_log. cli_runs. Qed.

Lemma runs_Logs args : runs P (runRunsLogs w fraction clock_time args).
Proof. pose proof runs_one_run. pose proof runs_stored_log. pose proof runs_live_log. unfold runRunsLogs. cli_runs. Qed.

Lemma runs_summary base id : runs P (summary w base id).
Proof. pose proof runs_line_of. unfold summary, cost_lines. cli_runs. Qed.

Lemma runs_and_then (m k : shell S event ending ending) : runs P m -> runs P k -> runs P (and_then m k).
Proof.
  intros Hm Hk s. unfold and_then. destruct (Hm s) as (l & Hl & Hf). destruct (m s) as [s' r]. cbn [fst] in Hl.
  assert (Hdone : exists l0, m_log s' = m_log s ++ l0 /\ Forall P l0) by eauto.
  assert (Hgo : exists l0, m_log (k s').1 = m_log s ++ l0 /\ Forall P l0).
  { destruct (Hk s') as (l' & Hl' & Hf'). exists (l ++ l'). split; [by rewrite Hl', Hl, app_assoc|by apply Forall_app]. }
  by destruct r as [[?|[[]|?]| |]|[?|[[]|?]| |]].
Qed.

(** Watching the end of a run changes nothing. *)
Lemma runs_Tail args : runs P (runRunsTail w fraction clock_time args).
Proof.
  pose proof runs_one_run. unfold runRunsTail. cli_runs. apply runs_and_then; [apply runs_Logs|apply runs_summary].
Qed.
End quiet_commands.

Lemma ret_bind {S A B} (a : A) (k : A -> shell S event ending B) : mret a ≫= k = k a.
Proof. reflexivity. Qed.

(** ** Answers to a workflow that waits *)

(** An argument in front that is no flag: all arguments are words. *)
Lemma input_words fraction id words :
  HasPrefix id "-" = false ->
  Parse fraction input_flags (id :: words) = inr {| pa_set := []; pa_args := id :: words |}.
Proof. apply Parse_stops. Qed.

(** The events of a command that change something satisfy [Q]. *)
Definition changes {S A} (Q : list event -> Prop) (m : shell S event ending A) : Prop :=
  forall s, exists l, m_log (m s).1 = m_log s ++ l /\ Q (filter (fun e => mutating e = true) l).

Definition quiet {S A} (m : shell S event ending A) : Prop := runs (fun e => mutating e = false) m.

(** Nothing is returned early. *)
Definition goes_on {S A} (m : shell S event ending A) : Prop := ends (fun _ => False) (fun _ => True) m.

Lemma quiet_changes {S A} (m : shell S event ending A) : quiet m -> changes (fun l => l = []) m.
Proof.
  intros Hm s. destruct (Hm s) as (l & Hl & Hf). exists l. split; [done|]. clear Hl. induction Hf as [|e l He _ IH]; [done|].
  rewrite filter_cons, IH, He. done.
Qed.

Lemma changes_after {S A B} Q (m : shell S event ending A) (k : A -> shell S event ending B) :
  quiet m -> goes_on m -> (forall a, changes Q (k a)) -> changes Q (m ≫= k).
Proof.
  intros Hm Hg Hk s. destruct (quiet_changes m Hm s) as (l & Hl & Hn). specialize (Hg s).
  unfold mbind, shell_bind. destruct (m s) as [s' [a|e]]; [|done]. cbn [fst snd] in *.
  destruct (Hk a s') as (l' & Hl' & HQ). exists (l ++ l'). split; [by rewrite Hl', Hl, app_assoc|].
  by rewrite filter_app, Hn.
Qed.

Lemma changes_ask {S A B} (Q : list event -> Prop) (op : S -> S * A) ev (k : A -> shell S event ending B) :
  (forall a, mutating (ev a) = true /\ Q [ev a]) -> (forall a, quiet (k a)) -> changes Q (ask op ev ≫= k).
Proof.
  intros HQ Hk s. unfold mbind, shell_bind, ask. destruct (op (m_state s)) as [t a].
  destruct (quiet_changes _ (Hk a) {| m_state := t; m_log := m_log s ++ [ev a] |}) as (l & Hl & Hn).
  exists (ev a :: l). split; [by rewrite Hl; cbn [m_log]; rewrite <- app_assoc|].
  destruct (HQ a) as [Hm HQa]. rewrite filter_cons, Hn, Hm. done.
Qed.

Lemma goes_on_ask {S A} (op : S -> S * A) ev : goes_on (ask op ev).
Proof. intros s. unfold ask. by destruct (op (m_state s)). Qed.

Lemma goes_on_line_of {S} label text : goes_on (line_of (S := S) label text).
Proof. unfold line_of. destruct (String.eqb text ""); [done|apply goes_on_ask]. Qed.

(** What is sent: the text, once, unless it is too long. *)
Definition sent (base id text : string) (l : list event) : Prop :=
  if 10000 <? len text then l = [] else exists x, l = [EInput base id text x].

Lemma send_input_changes {S} (w : world S) fraction clock_time server follow id text :
  changes (sent (serverBaseURL w server) id text) (send_input w fraction clock_time server follow id text).
Proof.
  unfold send_input, sent. destruct (10000 <? len text); [apply quiet_changes, runs_fail|]. cbv zeta.
  apply changes_after; [by apply runs_ask|apply goes_on_ask|intros got].
  apply changes_after; [..|intros _].
  - pose proof (runs_line_of (S := S) (fun e => mutating e = false) (fun e H => H)) as Hl. unfold quiet. cli_runs.
  - destruct got as [|r]; [done|]. destruct (bool_decide _); [apply goes_on_line_of|apply goes_on_ask].
  - apply changes_ask; [intros x; eauto|intros e]. unfold quiet.
    pose proof (fun p => runs_Tail w fraction clock_time _ (fun e (H : mutating e = false) => H) p) as Ht. cli_runs.
Qed.

(** The words after the run are the text. *)
Lemma input_sends {S} (w : world S) fraction clock_time id word words :
  HasPrefix id "-" = false ->
  changes (sent (serverBaseURL w "") id (Join (word :: words) " ")) (runInput w fraction clock_time (id :: word :: words)).
Proof.
  intros Hid. unfold runInput, parse_or_exit. rewrite input_words by done. rewrite ret_bind.
  apply (send_input_changes w fraction clock_time "" false).
Qed.

Lemma changes_weaken {S A} (P Q : list event -> Prop) (m : shell S event ending A) :
  (forall l, P l -> Q l) -> changes P m -> changes Q m.
Proof. intros HPQ Hm s. destruct (Hm s) as (l & Hl & HP). eauto. Qed.

Lemma TrimRightFunc_keeps P c t : P c = false -> TrimRightFunc P (String c t) = String c (TrimRightFunc P t).
Proof. intros H. cbn [TrimRightFunc]. destruct (TrimRightFunc P t); [by rewrite H|done]. Qed.

Lemma rejects_reject t : input_rejects ("reject" +:+ t) = true.
Proof.
  unfold input_rejects, TrimSpace, TrimFunc.
  assert (TrimLeftFunc is_space ("reject" +:+ t) = "reject" +:+ t) as -> by reflexivity.
  cbn [String.append]. rewrite !TrimRightFunc_keeps by reflexivity.
  change (ToLower _) with ("reject" +:+ ToLower (TrimRightFunc is_space t)). by rewrite HasPrefix_app.
Qed.

Definition reject_text (reasons : list string) : string :=
  if bool_decide (reasons = []) then "rejected" else "reject: " +:+ Join reasons " ".

Lemma reject_text_rejects reasons : (decision (InHuman (reject_text reasons))).1 = false.
Proof.
  cbn [decision]. assert (input_rejects (reject_text reasons) = true) as ->; [|done].
  unfold reject_text. destruct (bool_decide (reasons = [])); [reflexivity|].
  exact (rejects_reject (": " +:+ Join reasons " ")).
Qed.

(** C24. What [uncworks reject] and [uncworks approve] do at the workflow's gate.  For a run that is named as the first
    argument, [uncworks reject], with whatever reasons that are not too long for the server, sends exactly one text, to that run,
    and the gate takes it for a rejection; [uncworks approve] alone sends exactly one text, and the gate takes it for an
    approval.  Neither makes, cancels or archives a run. *)
Theorem answers_reach_the_gate {S} (w : world S) (fraction : Z -> nat -> Z -> Z) (clock_time : Z -> string)
    (id : string) (reasons : list string) (Hid : HasPrefix id "-" = false) (Hlen : len (reject_text reasons) <= 10000) :
  (exists args, main ("reject" :: id :: reasons) = Call CInput args /\
     changes (fun l => exists text x, l = [EInput (serverBaseURL w "") id text x] /\ (decision (InHuman text)).1 = false)
       (runInput w fraction clock_time args)) /\
  (exists args, main ["approve"; id] = Call CInput args /\
     changes (fun l => exists text x, l = [EInput (serverBaseURL w "") id text x] /\ decision (InHuman text) = (true, ""))
       (runInput w fraction clock_time args)).
Proof.
  split; eexists; (split; [reflexivity|]); (eapply changes_weaken; [|by apply input_sends]); intros l Hl; unfold sent in Hl.
  - fold (reject_text reasons) in Hl. cbn [Join] in Hl. destruct (Z.ltb_spec 10000 (len (reject_text reasons))); [lia|].
    destruct Hl as [x ->]. exists (reject_text reasons), x. split; [done|apply reject_text_rejects].
  - destruct Hl as [x ->]. exists "approve", x. done.
Qed.

(** ** Commands on many runs *)

(** A run that the server has listed, in an answer to a request of the kind [Q]. *)
Definition listed (base : string) (l : list event) (Q : ListAgentRunsRequest -> Prop) (r : PRun) : Prop :=
  exists q pg next, Q q /\ EList base q (inr (pg, next)) ∈ l /\ r ∈ pg.

Lemma listed_mono base l l' Q Q' r :
  l ⊆ l' -> (forall q, Q q -> Q' q) -> listed base l Q r -> listed base l' Q' r.
Proof. intros Hl HQ (q & pg & next & Hq & He & Hr). exists q, pg, next. auto. Qed.

(** A request that differs from another in its cursor only. *)
Definition same_query (q q' : ListAgentRunsRequest) : Prop := exists c, q' = with_cursor q c.

Section bulk.
Context {S : Type} (w : world S) (fraction : Z -> nat -> Z -> Z) (fuel : nat).
Notation cli := (shell S event ending).

(** What a step that only reads leaves: events that change nothing, and a value that [V] relates to them. *)
Definition reads {A} (V : list event -> A -> Prop) (m : cli A) : Prop :=
  traces (fun l r => Forall (fun e => mutating e = false) l /\ match r with inl a => V l a | inr _ => True end) m.

Lemma reads_quiet {A} (m : cli A) : quiet m -> reads (fun _ _ => True) m.
Proof. intros Hm. eapply traces_weaken; [|by apply runs_traces]. intros l [a|e]; auto. Qed.

Lemma reads_bind {A B} (V : list event -> A -> Prop) (V' : list event -> B -> Prop) (m : cli A) k :
  reads V m -> (forall l a, V l a -> reads (fun l' b => V' (l ++ l') b) (k a)) -> reads V' (m ≫= k).
Proof.
  intros Hm Hk. eapply traces_bind; [exact Hm|by intros l e [? _]|]. intros l a [Hl HV].
  eapply traces_weaken; [|by apply Hk]. intros l' r [Hl' Hr]. split; [by apply Forall_app|done].
Qed.

Lemma reads_weaken {A} (V V' : list event -> A -> Prop) (m : cli A) :
  (forall l a, V l a -> V' l a) -> reads V m -> reads V' m.
Proof. intros HV. apply traces_weaken. intros l [a|e] [? ?]; split; auto. Qed.

(** A listing: every run that it finds is kept, and was on a page. *)
Lemma pages_reads base keep n q acc :
  reads (fun l rs => forall r, r ∈ rs -> r ∈ acc \/ (keep r = true /\ listed base l (same_query q) r)) (pages w n base q keep acc).
Proof.
  revert q acc. induction n as [|n IH]; intros q acc; cbn [pages]; [by apply traces_return|].
  eapply (reads_bind (fun l a => l = [EList base q a])).
  { apply traces_ask. intros a. split; [by apply Forall_singleton|done]. }
  intros l a ->. eapply (reads_bind (fun l' pg => l' = [] /\ a = inr pg)).
  { destruct a as [e|pg]; cbn [must]; [by apply traces_return|by apply traces_ret]. }
  intros l' [pg next] [-> ->]. cbv zeta. cbn [fst snd].
  assert (Hpg : forall r l2, r ∈ acc ++ filter (fun r => keep r = true) pg ->
    r ∈ acc \/ (keep r = true /\ listed base ([EList base q (inr (pg, next))] ++ l2) (same_query q) r)).
  { intros r l2 [?|[Hk Hr]%list_elem_of_filter]%elem_of_app; [by left|right]. split; [done|].
    exists q, pg, next. split_and!; [exists (lq_Cursor q); by destruct q|by constructor|done]. }
  destruct (String.eqb next ""). { apply traces_ret. split; [done|]. intros r Hr. by apply (Hpg r []). }
  eapply reads_weaken; [|apply IH]. intros l2 rs Hrs r Hr.
  destruct (Hrs r Hr) as [Ha|[Hk Hl]]; [by apply (Hpg r l2)|right]. split; [done|].
  eapply listed_mono; [..|exact Hl]; [set_solver|]. intros q' [c ->]. exists c. by destruct q.
Qed.

Lemma pages_listed base keep q :
  reads (fun l rs => forall r, r ∈ rs -> keep r = true /\ listed base l (same_query q) r) (pages w fuel base q keep []).
Proof. eapply reads_weaken; [|apply pages_reads]. intros l rs H r Hr. destruct (H r Hr) as [?%elem_of_nil|?]; done. Qed.

(** Several listings, one after the other. *)
Lemma each_reads {A B} (V : A -> list event -> B -> Prop) (f : A -> cli (list B)) xs :
  (forall a b l l', V a l b -> l ⊆ l' -> V a l' b) ->
  (forall a, reads (fun l bs => forall b, b ∈ bs -> V a l b) (f a)) ->
  reads (fun l bs => forall b, b ∈ bs -> exists a, a ∈ xs /\ V a l b) (each f xs).
Proof.
  intros Hmono Hf. induction xs as [|x xs IH]; cbn [each].
  { apply traces_ret. split; [done|]. by intros b ?%elem_of_nil. }
  eapply reads_bind; [apply Hf|]. intros l bs Hbs. eapply reads_bind; [apply IH|]. intros l' bs' Hbs'.
  apply traces_ret. split; [done|]. intros b [Hb|Hb]%elem_of_app.
  - exists x. split; [by constructor|]. eapply Hmono; [by apply Hbs|]. set_solver.
  - destruct (Hbs' b Hb) as (a & Ha & HV). exists a. split; [by constructor|]. eapply Hmono; [exact HV|]. set_solver.
Qed.

(** Archiving the runs that were found posts to their addresses only. *)
Lemma bulk_archive_posts base ids :
  runs (fun e => mutating e = true -> exists id a, id ∈ ids /\ e = EPost (archive_url base id) true a) (bulk_archive w base ids).
Proof.
  set (P := fun e => _). assert (Hquiet : forall e, mutating e = false -> P e) by (intros e He; unfold P; congruence).
  unfold bulk_archive. apply runs_bind; [|intros; cli_runs]. apply runs_each. intros id Hid.
  unfold bulk_archive_one. apply runs_bind; [|intros [| |]; cli_runs].
  apply runs_ask. intros a _. eauto.
Qed.

Lemma bulk_cancel_cancels base ids :
  runs (fun e => mutating e = true -> exists id a, id ∈ ids /\ e = ECancel base id a) (bulk_cancel w base ids).
Proof.
  set (P := fun e => _). assert (Hquiet : forall e, mutating e = false -> P e) by (intros e He; unfold P; congruence).
  unfold bulk_cancel. apply runs_bind; [|intros; cli_runs]. apply runs_each. intros id Hid.
  unfold bulk_cancel_one. apply runs_bind; [|intros [|]; cli_runs].
  apply runs_ask. intros a _. eauto.
Qed.

(** A confirmation: the command goes on to [m] only after an answer that consents. *)
Lemma confirmed_traces (Q : event -> Prop) (consent : string * bool -> bool) (m other : cli ending) :
  runs (fun e => mutating e = true -> Q e) m -> quiet other ->
  traces (fun l _ => forall e, e ∈ l -> mutating e = true -> Q e /\ exists a, EScan a ∈ l /\ consent a = true)
    (a ← Scanln w; if consent a then m else other).
Proof.
  intros Hm Ho. eapply (traces_bind (fun l a => match a with inl a => l = [EScan a] | inr _ => False end)).
  - by apply traces_ask.
  - done.
  - intros l a ->. destruct (consent a) eqn:Ha.
    + eapply traces_weaken; [|by apply runs_traces]. intros l' r Hl' e [->%list_elem_of_singleton|He]%elem_of_app; [done|].
      rewrite Forall_forall in Hl'. intros Hme. split; [by apply Hl'|]. exists a. split; [by constructor|done].
    + eapply traces_weaken; [|by apply runs_traces]. intros l' r Hl' e [->%list_elem_of_singleton|He]%elem_of_app; [done|].
      rewrite Forall_forall in Hl'. intros Hme. specialize (Hl' e He). congruence.
Qed.
End bulk.

(** The start of a window of time. *)
Definition window (fraction : Z -> nat -> Z -> Z) (since : string) (now : Z) (start : option Z) : Prop :=
  if String.eqb since "" then start = None
  else exists d, parseSinceDuration fraction since = Ok d /\ start = Some (now - d).

Lemma since_time_cases {S} (w : world S) fraction since (s : machine S event) :
  (exists e, since_time w fraction since s = (s, inr e)) \/
  (exists t start, since_time w fraction since s = ({| m_state := t; m_log := m_log s |}, inl start) /\
     window fraction since (w_Now w (m_state s)).2 start).
Proof.
  unfold since_time, window. destruct (String.eqb since "").
  { right. exists (m_state s), None. by destruct s. }
  destruct (parseSinceDuration fraction since) as [d|e]; [right|left; eauto].
  unfold mbind, shell_bind, Now. destruct (w_Now w (m_state s)) as [t now]. eexists t, _. split; [done|eauto].
Qed.

(** ** The commands *)

(** A request for the runs of a phase that the filters let through. *)
Definition asks_for (p : parsed) (phase : PPhase) (q : ListAgentRunsRequest) : Prop :=
  same_query (list_request 100 phase (flag_string p "project" "") (flag_string p "feature" "") (flag_string p "tag" "") "") q.

(** Either nobody has to be asked, or the answer was a consent. *)
Definition agreed (p : parsed) (consent : string * bool -> bool) (l : list event) : Prop :=
  flag_bool p "yes" = true \/ exists a, EScan a ∈ l /\ consent a = true.

Section commands.
Context {S : Type} (w : world S) (fraction : Z -> nat -> Z -> Z) (fuel : nat).

Lemma prune_runs_reads base p threshold :
  reads (fun l rs => forall r, r ∈ rs -> exists phase, phase ∈ prune_phases p /\ completed_before threshold r = true /\
           listed base l (asks_for p phase) r) (prune_runs w fuel base p threshold).
Proof.
  unfold prune_runs. eapply reads_weaken; [|apply (each_reads (fun phase l r =>
    completed_before threshold r = true /\ listed base l (asks_for p phase) r))].
  - intros l rs Hrs r Hr. destruct (Hrs r Hr) as (phase & ? & ? & ?). eauto.
  - intros phase r l l' [? ?] Hl. split; [done|]. by eapply listed_mono.
  - intros phase. apply pages_listed.
Qed.

(** What may be done to the runs that were found: nothing in a dry run, and nothing without consent. *)
Definition disciplined (p : parsed) (consent : string * bool -> bool) (did : event -> Prop) (l : list event) : Prop :=
  forall e, e ∈ l -> mutating e = true -> flag_bool p "dry-run" = false /\ agreed p consent l /\ did e.

Lemma disciplined_quiet p consent did l : Forall (fun e => mutating e = false) l -> disciplined p consent did l.
Proof. rewrite Forall_forall. intros Hl e He Hm. specialize (Hl e He). congruence. Qed.

Lemma disciplined_after p consent did l l' :
  Forall (fun e => mutating e = false) l -> disciplined p consent did l' -> disciplined p consent did (l ++ l').
Proof.
  rewrite Forall_forall. intros Hl Hl' e [He|He]%elem_of_app Hm; [specialize (Hl e He); congruence|].
  destruct (Hl' e He Hm) as (Hd & [Hy|(a & Ha & Hc)] & Hdid); (split_and!; [done| |done]); [by left|].
  right. exists a. split; [by apply elem_of_app; right|done].
Qed.

(** The common end of the commands: a dry run prints, [--yes] goes ahead, and otherwise a question is asked. *)
Lemma confirmation_disciplined (p : parsed) consent did (dry m question : shell S event ending ending) :
  quiet dry -> runs (fun e => mutating e = true -> did e) m ->
  (flag_bool p "dry-run" = false -> traces (fun l _ => forall e, e ∈ l -> mutating e = true ->
     did e /\ exists a, EScan a ∈ l /\ consent a = true) question) ->
  traces (fun l _ => disciplined p consent did l)
    (if flag_bool p "dry-run" then dry else if flag_bool p "yes" then m else question).
Proof.
  intros Hdry Hm Hq. destruct (flag_bool p "dry-run") eqn:Hd.
  { eapply traces_weaken; [|by apply runs_traces]. intros l r. apply disciplined_quiet. }
  destruct (flag_bool p "yes") eqn:Hy.
  - eapply traces_weaken; [|by apply runs_traces]. intros l r Hl e He Hme. rewrite Forall_forall in Hl.
    split_and!; [done|by left|by apply Hl].
  - eapply traces_weaken; [|by apply Hq]. intros l r Hl e He Hme. destruct (Hl e He Hme) as [? ?].
    split_and!; [done|by right|done].
Qed.

Lemma traces_quiet_before {A B} (Q : list event -> B + ending -> Prop) (m : shell S event ending A) k :
  quiet m -> (forall l, Forall (fun e => mutating e = false) l -> forall e, Q l (inr e)) ->
  (forall l a, Forall (fun e => mutating e = false) l -> traces (fun l' r => Q (l ++ l') r) (k a)) -> traces Q (m ≫= k).
Proof. intros Hm He Hk. eapply traces_bind; [by apply runs_traces|by intros; apply He|by intros; apply Hk]. Qed.

(** A command that finds runs, and goes on with what is disciplined about the runs that it found. *)
Lemma found_then {A} p consent (V : list event -> A -> Prop) (D : list event -> event -> Prop) (m : shell S event ending A) k :
  reads V m -> (forall l l' e, D l e -> l ⊆ l' -> D l' e) ->
  (forall l a, V l a -> traces (fun l' _ => disciplined p consent (D l) l') (k a)) ->
  traces (fun l (_ : ending + ending) => disciplined p consent (D l) l) (m ≫= k).
Proof.
  intros Hm Hmono Hk. eapply traces_bind; [exact Hm|by intros l e [Hl _]; apply disciplined_quiet|].
  intros l a [Hl HV]. eapply traces_weaken; [|by apply Hk]. intros l' r Hl'.
  apply disciplined_after; [done|]. intros e He Hme. destruct (Hl' e He Hme) as (? & ? & HD).
  split_and!; [done..|]. eapply Hmono; [exact HD|]. set_solver.
Qed.

Lemma quiet_printed {A} line (m : shell S event ending A) : quiet m -> quiet (Println line;; m).
Proof. intros Hm. unfold quiet. apply runs_bind; [by apply runs_Println|done]. Qed.

Lemma quiet_dry line ids : quiet (Println (S := S) line;; print_ids ids;; finish).
Proof.
  apply quiet_printed. pose proof (fun ids => runs_print_ids (S := S) _ (fun e (H : mutating e = false) => H) ids). unfold quiet. cli_runs.
Qed.

(** Something quiet in front of a question. *)
Lemma question_before {A} (Q : event -> Prop) consent (m : shell S event ending A) (k : shell S event ending ending) :
  quiet m ->
  traces (fun l _ => forall e, e ∈ l -> mutating e = true -> Q e /\ exists a, EScan a ∈ l /\ consent a = true) k ->
  traces (fun l _ => forall e, e ∈ l -> mutating e = true -> Q e /\ exists a : string * bool, EScan a ∈ l /\ consent a = true) (m;; k).
Proof.
  assert (Hno : forall l e, Forall (fun e => mutating e = false) l -> e ∈ l -> mutating e = true -> False).
  { intros l e Hl He Hm. rewrite Forall_forall in Hl. specialize (Hl e He). congruence. }
  intros Hm Hk. apply traces_quiet_before; [done|intros l Hl _ e He Hme; by destruct (Hno l e)|intros l _ Hl].
  eapply traces_weaken; [|exact Hk]. intros l' r Hl' e [He|He]%elem_of_app Hme; [by destruct (Hno l e)|].
  destruct (Hl' e He Hme) as (? & a & Ha & ?). split; [done|]. exists a. split; [by apply elem_of_app; right|done].
Qed.

(** What pruning may do, of the runs that are listed in [l]. *)
Definition prunes (p : parsed) (base : string) (threshold : Z) (l : list event) (e : event) : Prop :=
  exists r phase a, e = EPost (archive_url base (pn_Id r)) true a /\ phase ∈ prune_phases p /\
    completed_before threshold r = true /\ listed base l (asks_for p phase) r.

Lemma prune_found p base threshold (empty : shell S event ending ending) texts :
  quiet empty ->
  traces (fun l _ => disciplined p (fun a => consents a.1) (prunes p base threshold l) l)
    (runs ← prune_runs w fuel base p threshold;
     match pn_Id <$> runs with
     | [] => empty
     | ids =>
         if flag_bool p "dry-run" then Println (texts ids).1;; print_ids ids;; finish
         else if flag_bool p "yes" then bulk_archive w base ids
         else Println (texts ids).2;; answer ← Scanln w; if consents answer.1 then bulk_archive w base ids else Println "Aborted.";; finish
     end).
Proof.
  intros Hempty. eapply found_then; [apply prune_runs_reads|..].
  { intros l l' e (r & phase & a & ? & ? & ? & ?) Hl. exists r, phase, a. split_and!; [done..|]. by eapply listed_mono. }
  intros l rs Hrs. assert (Hids : forall id, id ∈ pn_Id <$> rs -> forall a, prunes p base threshold l (EPost (archive_url base id) true a)).
  { intros id (r & -> & Hr)%list_elem_of_fmap a. destruct (Hrs r Hr) as (phase & ? & ? & ?). exists r, phase, a. done. }
  destruct (pn_Id <$> rs) as [|id ids] eqn:E.
  { eapply traces_weaken; [|by apply runs_traces]. intros l' r. apply disciplined_quiet. }
  rewrite <- E in *. clear E id ids.
  assert (Hgo : runs (fun e => mutating e = true -> prunes p base threshold l e) (bulk_archive w base (pn_Id <$> rs))).
  { eapply runs_weaken; [|apply bulk_archive_posts]. intros e He Hm. destruct (He Hm) as (id & a & Hid & ->). by apply Hids. }
  apply confirmation_disciplined; [apply quiet_dry|done|intros _].
  apply question_before; [by apply runs_Println|].
  apply confirmed_traces; [done|apply quiet_printed, runs_finish].
Qed.

(** C25. Pruning archives only what it may: in a run of [uncworks runs prune], whatever the server and the user answer, everything
    that changes something archives a run that the server has listed, for one of the phases that the arguments name, and that was
    over before the time that they give; and nothing is changed in a dry run, or without [--yes] or an answer that consents. *)
Theorem prune_disciplined (args : list string) (s : machine S event) :
  exists l, m_log (runRunsPrune w fraction fuel args s).1 = m_log s ++ l /\
    forall e, e ∈ l -> mutating e = true -> exists p, Parse fraction prune_flags args = inr p /\
      flag_bool p "dry-run" = false /\ agreed p (fun a => consents a.1) l /\
      prunes p (serverBaseURL w (flag_string p "server" ""))
        ((w_Now w (m_state s)).2 - flag_duration fraction p "older-than" (7 * day)) l e.
Proof.
  unfold runRunsPrune, parse_or_exit. destruct (Parse fraction prune_flags args) as [err|p] eqn:Hp.
  { exists []. rewrite app_nil_r. by split; [|intros e ?%elem_of_nil]. }
  rewrite ret_bind. destruct (flag_bool p "failed" && flag_bool p "done").
  { exists []. rewrite app_nil_r. by split; [|intros e ?%elem_of_nil]. }
  unfold Now at 1. unfold mbind at 1, shell_bind at 1. destruct (w_Now w (m_state s)) as [t now]. cbv zeta.
  pose (older := flag_duration fraction p "older-than" (7 * day)).
  edestruct (prune_found p (serverBaseURL w (flag_string p "server" "")) (now - older)
    (Println ("No terminal runs older than " +:+ DurationString older +:+ " to archive.");; finish)
    (fun ids => ("Would archive " +:+ Itoa (Z.of_nat (length ids)) +:+ " run(s) older than " +:+ DurationString older +:+ ":",
       "Archive " +:+ Itoa (Z.of_nat (length ids)) +:+ " terminal run(s) older than " +:+ DurationString older +:+ "? [y/N] ")))
    as (l & Hl & Hd); [apply quiet_printed, runs_finish|].
  exists l. split; [exact Hl|]. intros e He Hm. destruct (Hd e He Hm) as (? & ? & ?). exists p. done.
Qed.

Lemma elem_of_limited {A} limit (l : list A) x : x ∈ limited limit l -> x ∈ l.
Proof. unfold limited. case_match; [|done]. intros (i & Hi & _)%elem_of_take. by eapply list_elem_of_lookup_2. Qed.

(** What cancelling all runs may do, of the runs that are listed in [l]. *)
Definition cancels (p : parsed) (base : string) (since : option Z) (l : list event) (e : event) : Prop :=
  exists r a, e = ECancel base (pn_Id r) a /\ to_cancel p since r = true /\
    listed base l (asks_for p PHASE_UNSPECIFIED) r.

Lemma cancel_found p base since texts :
  traces (fun l _ => disciplined p (fun a => consents (strict_answer a)) (cancels p base since l) l)
    (runs ← pages w fuel base (list_request 100 PHASE_UNSPECIFIED (flag_string p "project" "") (flag_string p "feature" "")
       (flag_string p "tag" "") "") (to_cancel p since) [];
     match limited (flag_int p "limit" 0) (pn_Id <$> runs) with
     | [] => Println "No active runs to cancel.";; finish
     | ids =>
         if flag_bool p "dry-run" then Println (texts ids).1;; print_ids ids;; finish
         else if flag_bool p "yes" then bulk_cancel w base ids
         else Println "Active runs to cancel:";; print_ids ids;; Println (texts ids).2;;
              answer ← Scanln w;
              if consents (strict_answer answer) then bulk_cancel w base ids else Println "Aborted.";; finish
     end).
Proof.
  eapply found_then; [apply pages_listed|..].
  { intros l l' e (r & a & ? & ? & ?) Hl. exists r, a. split_and!; [done..|]. by eapply listed_mono. }
  intros l rs Hrs. set (ids := limited (flag_int p "limit" 0) (pn_Id <$> rs)).
  assert (Hids : forall id, id ∈ ids -> forall a, cancels p base since l (ECancel base id a)).
  { intros id (r & -> & Hr)%elem_of_limited%list_elem_of_fmap a. destruct (Hrs r Hr). by exists r, a. }
  destruct ids as [|id ids']; [|set (ids := id :: ids') in *].
  { eapply traces_weaken; [|apply runs_traces, quiet_printed, runs_finish]. intros l' r. apply disciplined_quiet. }
  assert (Hgo : runs (fun e => mutating e = true -> cancels p base since l e) (bulk_cancel w base ids)).
  { eapply runs_weaken; [|apply bulk_cancel_cancels]. intros e He Hm. destruct (He Hm) as (id' & a & Hid & ->). by apply Hids. }
  apply confirmation_disciplined; [apply quiet_dry|done|intros _].
  pose proof (confirmed_traces w (cancels p base since l) (fun a => consents (strict_answer a)) _
    (Println "Aborted.";; finish) Hgo (quiet_printed _ _ (runs_finish _))) as Hask.
  do 3 (apply question_before; [first [by apply runs_Println|by apply runs_print_ids]|]). done.
Qed.

(** Cancelling all runs cancels only what it may: in a run of [uncworks runs cancel-all], whatever the server and the user answer,
    everything that changes something asks for the cancellation of a run that the server has listed, that was active there, in the
    phase that the arguments name, and with their title and inside their window of time; and nothing is changed in a dry run, or
    without [--yes] or an answer that consents. *)
Theorem cancel_all_disciplined (args : list string) (s : machine S event) :
  exists l, m_log (runRunsCancelAll w fraction fuel args s).1 = m_log s ++ l /\
    forall e, e ∈ l -> mutating e = true -> exists p since, Parse fraction cancel_all_flags args = inr p /\
      flag_bool p "dry-run" = false /\ agreed p (fun a => consents (strict_answer a)) l /\
      window fraction (flag_string p "since" "") (w_Now w (m_state s)).2 since /\
      cancels p (serverBaseURL w (flag_string p "server" "")) since l e.
Proof.
  unfold runRunsCancelAll, parse_or_exit. destruct (Parse fraction cancel_all_flags args) as [err|p] eqn:Hp.
  { exists []. rewrite app_nil_r. by split; [|intros e ?%elem_of_nil]. }
  rewrite ret_bind. destruct (since_time_cases w fraction (flag_string p "since" "") s) as [(e & Hs)|(t & since & Hs & Hw)].
  - exists []. rewrite app_nil_r. unfold mbind, shell_bind. rewrite Hs. by split; [|intros ? ?%elem_of_nil].
  - unfold mbind at 1, shell_bind at 1. rewrite Hs. cbv zeta.
    edestruct (cancel_found p (serverBaseURL w (flag_string p "server" "")) since
      (fun ids => ("Would cancel " +:+ Itoa (Z.of_nat (length ids)) +:+ " run(s):",
         "Cancel " +:+ Itoa (Z.of_nat (length ids)) +:+ " run(s)? [y/N]: "))) as (l & Hl & Hd).
    exists l. split; [exact Hl|]. intros e He Hm. destruct (Hd e He Hm) as (? & ? & ?). exists p, since. done.
Qed.
End commands.

(** ** Waiting *)

Section waiting.
Context {S : Type} (w : world S) (fraction : Z -> nat -> Z -> Z) (finish_order : list string -> list string).
Notation cli := (shell S event ending).

Definition ended (r : ending + ending) : ending := match r with inl e | inr e => e end.

(** A run that was seen to have succeeded. *)
Definition seen_done (l : list event) (id : string) : Prop :=
  exists base r, EGet base id (inr r) ∈ l /\ phase_of r = PHASE_SUCCEEDED.

(** A run whose events were asked for without a limit of time, in an answer that never ends. *)
Definition endless (l : list event) (t : Z) (id : string) : Prop :=
  exists base a, EWatch base id t a ∈ l /\ sa_Ends a = false /\ t <= 0.

(** A limit of time ends a stream. *)
Definition limits_end : Prop := forall base id t st, 0 < t -> sa_Ends (w_Watch w base id t st).2 = true.

(** The wait for one run has returned, without an error only when the run has succeeded; or it goes on for ever. *)
Definition waited (T : Z -> Prop) (id : string) (l : list event) (r : ending + ending) : Prop :=
  (exists x, ended r = Returned x /\ (x = Ok tt -> seen_done l id)) \/ (ended r = Endless /\ exists t, T t /\ endless l t id).

Lemma seen_done_mono l l' id : l ⊆ l' -> seen_done l id -> seen_done l' id.
Proof. intros Hl (base & r & He & Hr). exists base, r. auto. Qed.

Lemma endless_mono l l' t id : l ⊆ l' -> endless l t id -> endless l' t id.
Proof. intros Hl (base & a & He & Ha). exists base, a. auto. Qed.

Lemma waited_mono T id l l' r : l ⊆ l' -> waited T id l r -> waited T id l' r.
Proof.
  intros Hl [(x & Hx & Hd)|(He & t & HT & Ht)]; [left; exists x|right].
  - split; [done|]. intros Hok. by apply (seen_done_mono l), Hd.
  - split; [done|]. exists t. split; [done|]. by apply (endless_mono l).
Qed.

Lemma HasPrefix_nonempty v : HasPrefix v "" = true.
Proof. by destruct v. Qed.

Lemma wait_args_whole p id :
  exists flags, wait_args fraction p id = id :: flags /\ Forall (whole wait_flags) flags.
Proof.
  eexists. split; [reflexivity|]. unfold wait_args.
  assert (Hv : forall name v, name ∈ ["server"; "timeout"; "on-success"; "on-failure"] ->
    whole wait_flags ("--" +:+ name +:+ "=" +:+ v)).
  { intros name v Hn. repeat (apply elem_of_cons in Hn as [->|Hn]); [..|by apply elem_of_nil in Hn];
      (split; [by destruct v|split; [done|]]); destruct v; vm_compute; left; eexists; reflexivity. }
  assert (Hs : forall name, name ∈ ["quiet"; "log"; "notify"] -> whole wait_flags ("--" +:+ name)).
  { intros name Hn. repeat (apply elem_of_cons in Hn as [->|Hn]); [..|by apply elem_of_nil in Hn];
      (split; [done|split; [done|]]); vm_compute; by right. }
  assert (Hif : forall (b : bool) x, whole wait_flags x -> Forall (whole wait_flags) (if b then [x] else [])).
  { intros [] x Hx; [by apply Forall_singleton|done]. }
  assert (Hif' : forall (b : bool) x, whole wait_flags x -> Forall (whole wait_flags) (if b then [] else [x])).
  { intros [] x Hx; [done|by apply Forall_singleton]. }
  cbv zeta. apply Forall_cons_2; [apply (Hv "server"); by constructor|].
  apply Forall_app_2; [apply Hif, (Hv "timeout"); by repeat constructor|].
  apply Forall_app_2; [apply Hif, (Hs "quiet"); by repeat constructor|].
  apply Forall_app_2; [apply Hif, (Hs "log"); by repeat constructor|].
  apply Forall_app_2; [apply Hif', (Hv "on-success"); by repeat constructor|].
  apply Forall_app_2; [apply Hif', (Hv "on-failure"); by repeat constructor|].
  apply Hif, (Hs "notify"). by repeat constructor.
Qed.

Lemma whole_not_id formal flags : Forall (whole formal) flags ->
  filter (fun a => isRunID a = false) flags = flags /\ filter (fun a => isRunID a = true) flags = [].
Proof.
  induction 1 as [|a flags [Ha _] _ [IH1 IH2]]; [done|]. rewrite !filter_cons, IH1, IH2.
  assert (isRunID a = false) as ->; [|done]. destruct (isRunID a) eqn:E; [|done].
  apply isRunID_not_flag in E. by rewrite (HasPrefix_trans a "--" "-") in E.
Qed.

(** The arguments of a wait for one run name that run, as the command line recognises it. *)
Lemma wait_args_parse p id p' :
  isRunID id = true -> Parse fraction wait_flags (normalizeRunArgs (wait_args fraction p id)) = inr p' -> pa_args p' = [id].
Proof.
  intros Hid. destruct (wait_args_whole p id) as (flags & -> & Hw). rewrite normalizeRunArgs_partition.
  destruct (whole_not_id _ _ Hw) as [H1 H2]. rewrite !filter_cons, H1, H2, Hid. cbn.
  apply Parse_whole; [done|by apply Forall_singleton].
Qed.

(** *** How a wait ends *)

Definition with_error (e : ending) : Prop := exists msg, e = Returned (Err msg).

Lemma ends_ask {A} QR (op : S -> S * A) ev : ends QR (fun _ => True) (ask op ev).
Proof. intros s. unfold ask. by destruct (op (m_state s)). Qed.

Lemma ends_then {A B} (QR : ending -> Prop) (Q : B -> Prop) (m : cli A) k :
  ends QR (fun _ => True) m -> (forall a, ends QR Q (k a)) -> ends QR Q (m ≫= k).
Proof. intros Hm Hk. eapply ends_bind; [exact Hm|auto]. Qed.

Lemma ends_show_events QR (show : AgentRunEvent -> cli unit) evs :
  (forall ev, ends QR (fun _ => True) (show ev)) -> ends QR (fun _ => True) (show_events show evs).
Proof. intros Hs. induction evs; cbn [show_events]; [done|]. by apply ends_then. Qed.

Ltac ends_step :=
  lazymatch goal with
  | |- ends _ _ (_ ≫= _) => apply ends_then; [|intros ?]
  | |- ends _ _ (ask _ _) => apply ends_ask
  | |- ends _ _ (match ?x with _ => _ end) => destruct x eqn:?
  | |- ends _ _ (let _ := _ in _) => cbv zeta
  | |- ends _ _ (show_events _ _) => apply ends_show_events; intros ?
  | |- ends _ _ (mret _) => intros ?; try done
  | |- ends _ _ (return_ _) => intros ?; try done
  | |- ends _ _ _ => first [apply goes_on_line_of|progress (unfold Println, Eprintln, tell, fail, finish, line_of, must, sendNotify, runHook)]
  end.
Ltac ends_steps := repeat ends_step.

Lemma wait_end_ends p id payload r :
  let Q e := exists x, e = Returned x /\ (x = Ok tt -> phase_of r = PHASE_SUCCEEDED) in
  ends Q Q (wait_end w p id payload r).
Proof.
  cbv zeta. unfold wait_end. destruct (phase_of r); cbv zeta; ends_steps; try (cbn; eexists; split; [reflexivity|]; done).
Qed.

Lemma any_runs {A} (m : cli A) : quiet m -> runs (fun _ => True) m.
Proof. by apply runs_weaken. Qed.

(** Something that may only fail, in front. *)
Lemma waited_after {A} T id l0 (m : cli A) k :
  quiet m -> ends with_error (fun _ => True) m -> (forall a, traces (fun l => waited T id (l0 ++ l)) (k a)) ->
  traces (fun l => waited T id (l0 ++ l)) (m ≫= k).
Proof.
  intros Hm He Hk s. destruct (Hm s) as (l & Hl & _). specialize (He s). unfold traces_at, mbind, shell_bind.
  destruct (m s) as [s' [a|e]]; cbn [fst snd] in *.
  - destruct (Hk a s') as (l' & Hl' & Hw). exists (l ++ l'). split; [by rewrite Hl', Hl, app_assoc|].
    eapply waited_mono; [|exact Hw]. set_solver.
  - destruct He as [msg ->]. exists l. split; [done|]. left. by exists (Err msg).
Qed.

Lemma wait_event_quiet p id ev : quiet (wait_event (S := S) p id ev).
Proof.
  unfold quiet. pose proof (runs_line_of (S := S) _ (fun e (H : mutating e = false) => H)).
  pose proof (fun l => runs_Println (S := S) _ (fun e (H : mutating e = false) => H) l). unfold wait_event. cli_runs.
Qed.

Lemma wait_end_quiet p id payload r : quiet (wait_end w p id payload r).
Proof.
  unfold quiet. pose proof (runs_line_of (S := S) _ (fun e (H : mutating e = false) => H)).
  pose proof (fun l => runs_Println (S := S) _ (fun e (H : mutating e = false) => H) l).
  pose proof (fun l => runs_Eprintln (S := S) _ (fun e (H : mutating e = false) => H) l).
  unfold wait_end, runHook, sendNotify, tell, fail, finish. cli_runs.
Qed.

Lemma wait_one_waited p id :
  limits_end -> traces (waited (eq (flag_duration fraction p "timeout" 0)) id) (wait_one w fraction p id).
Proof.
  intros Hlim. unfold wait_one. cbv zeta. set (base := serverBaseURL w _). set (T := flag_duration fraction p "timeout" 0).
  eapply (traces_bind (fun l a => match a with inl a => l = [EWatch base id T a] /\ (0 < T -> sa_Ends a = true) | inr _ => False end));
    [|done|intros l0 stream [-> Hend]].
  { intros s. unfold traces_at, WatchAgentRun_, ask. specialize (Hlim base id T (m_state s)).
    destruct (w_Watch w base id T (m_state s)) as [t a]. by exists [EWatch base id T a]. }
  apply waited_after; [apply runs_must|destruct (sa_Events stream); intros ?; [by eexists|done]|intros evs].
  apply waited_after; [apply runs_show_events; intros; apply wait_event_quiet|..].
  { apply ends_show_events. intros ev. unfold wait_event. ends_steps. }
  intros _. unfold stream_over. destruct (sa_Ends stream) eqn:Hends; cycle 1.
  { apply traces_return. right. split; [done|]. exists T. split; [done|]. exists base, stream. split_and!; [by constructor|done|].
    apply Z.nlt_ge. intros HT. by specialize (Hend HT). }
  apply waited_after; [apply runs_ret|by intros ?|intros _]. apply waited_after; [..|intros _].
  { unfold quiet. destruct (sa_Err stream); [destruct (sa_TimedOut stream)|]; cli_runs. }
  { destruct (sa_Err stream); [destruct (sa_TimedOut stream)|]; intros ?; by try eexists. }
  eapply (traces_bind (fun l a => match a with inl a => l = [EGet base id a] | inr _ => False end));
    [by apply traces_ask|done|].
  intros l a ->. destruct a as [e|r]; cbn [must].
  { apply traces_return. left. by exists (Err ("failed: " +:+ humanizeErr e)). }
  rewrite ret_bind. intros s. destruct (wait_end_quiet p id (final_payload evs) r s) as (l & Hl & _). exists l. split; [done|].
  pose proof (wait_end_ends p id (final_payload evs) r s) as He. cbv zeta in He.
  assert (exists x, ended (wait_end w p id (final_payload evs) r s).2 = Returned x /\ (x = Ok tt -> phase_of r = PHASE_SUCCEEDED))
    as (x & Hx & Hd) by (by destruct (wait_end w p id (final_payload evs) r s).2).
  left. exists x. split; [done|]. intros Hok. exists base, r. split; [set_solver|auto].
Qed.

(** The wait that is started for one run, whatever the flags. *)
Lemma single_wait depth p id :
  limits_end -> isRunID id = true ->
  traces (waited (fun _ => True) id) (runRunsWait w fraction finish_order (Datatypes.S depth) (wait_args fraction p id)).
Proof.
  intros Hlim Hid. cbn [runRunsWait]. unfold parse_or_fail.
  destruct (Parse fraction wait_flags (normalizeRunArgs (wait_args fraction p id))) as [e|p'] eqn:Hp.
  { apply traces_return. left. by eexists. }
  rewrite ret_bind, (wait_args_parse p id p') by done.
  eapply traces_weaken; [|by apply wait_one_waited]. intros l r [?|(? & t & _ & ?)]; [by left|right; eauto].
Qed.

Lemma delivered_traces T id (m : cli ending) :
  traces (waited T id) m ->
  traces (fun l r => match r with
                     | inl (Some x) => x = Ok tt -> seen_done l id
                     | inl None => exists t, endless l t id
                     | inr _ => False
                     end) (delivered m).
Proof.
  intros Hm s. destruct (Hm s) as (l & Hl & Hw). unfold traces_at, delivered.
  destruct Hw as [(x & Hx & Hd)|(He & t & _ & Ht)]; destruct (m s) as [s' [e|e]]; cbn [fst snd ended] in *; subst e; exists l; (split; [done|]); first [exact Hd|by exists t].
Qed.

(** How several waits end: with an error, or when all of the runs have succeeded, or one if that is enough; or never. *)
Definition all_waited (any outstanding : bool) (ids : list string) (firstErr : result unit) (l : list event) (r : ending + ending) : Prop :=
  (exists x, ended r = Returned x /\ (x = Ok tt -> firstErr = Ok tt /\
     (outstanding = false /\ Forall (seen_done l) ids \/ any = true /\ Exists (seen_done l) ids))) \/
  (ended r = Endless /\ (outstanding = true \/ exists id t, id ∈ ids /\ endless l t id)).

(** After a wait whose result is not the last. *)
Lemma all_waited_mono any out out' id ids firstErr first l l' r :
  l ⊆ l' -> all_waited any out' ids first l r -> (first = Ok tt -> firstErr = Ok tt) ->
  (out' = false -> first = Ok tt -> out = false /\ seen_done l' id) ->
  (out' = true -> out = true \/ exists t, endless l' t id) ->
  all_waited any out (id :: ids) firstErr l' r.
Proof.
  intros Hl Hw Hf Hdone Hout. destruct Hw as [(x & Hx & Hd)|(He & Hend)]; [left|right]; (split; [|]) || exists x; try done.
  - split; [done|]. intros Hok. destruct (Hd Hok) as [Hfirst Hs]. split; [auto|].
    assert (forall i, seen_done l i -> seen_done l' i) as Hm by (intros i; by apply seen_done_mono).
    destruct Hs as [[Ho Hs]|[Ha Hs]]; [left|right]; (split; [|]); try done.
    + by apply Hdone.
    + constructor; [by apply Hdone|]. by eapply Forall_impl.
    + right. by eapply Exists_impl.
  - destruct Hend as [Ho|(i & t & Hi & Ht)].
    + destruct (Hout Ho) as [?|[t Ht]]; [by left|right]. exists id, t. split; [by constructor|done].
    + right. exists i, t. split; [by constructor|]. by eapply endless_mono.
Qed.

Lemma wait_all_waited (wait : string -> cli ending) any outstanding ids firstErr :
  (forall id, id ∈ ids -> traces (waited (fun _ => True) id) (wait id)) ->
  traces (all_waited any outstanding ids firstErr) (wait_all wait any outstanding ids firstErr).
Proof.
  revert outstanding firstErr. induction ids as [|id ids IH]; intros out firstErr Hw; cbn [wait_all].
  { apply traces_return. destruct out; [right|left]; cbn; [auto|]. exists firstErr. auto. }
  eapply traces_bind; [apply (delivered_traces (fun _ => True)), Hw; constructor|done|].
  assert (Hrest : forall i, i ∈ ids -> traces (waited (fun _ => True) i) (wait i)) by (intros; apply Hw; by constructor).
  intros l [x|] Hx; cycle 1.
  { eapply traces_weaken; [|by apply IH]. intros l' r Hr. destruct Hx as [t Ht].
    eapply all_waited_mono; [|exact Hr|auto|by intros|]; [set_solver|]. intros _. right. exists t. eapply endless_mono; [|done]. set_solver. }
  cbv zeta. set (first := match firstErr with Ok _ => x | Err _ => firstErr end).
  assert (Hfirst : first = Ok tt -> firstErr = Ok tt /\ x = Ok tt) by (unfold first; by destruct firstErr as [[]|]).
  destruct any.
  { apply traces_return. left. exists first. split; [done|]. intros H. destruct (Hfirst H) as [? Hxok]. split; [done|]. right.
    split; [done|]. left. rewrite app_nil_r. auto. }
  eapply traces_weaken; [|by apply IH]. intros l' r Hr. eapply all_waited_mono; [|exact Hr|..]; [set_solver|naive_solver| |by left].
  intros Ho H. split; [done|]. eapply seen_done_mono; [|apply Hx; naive_solver]. set_solver.
Qed.

(** What a wait does with the IDs that are left. *)
Definition wait_for (p : parsed) (wait : list string -> cli ending) (ids : list string) : cli ending :=
  match ids with
  | [] =>
      if flag_bool p "last" then
        id ← latest w (serverBaseURL w (flag_string p "server" "")); wait (wait_args fraction p id)
      else fail "invalid input: run ID argument required"
  | [id] => wait_one w fraction p id
  | ids => wait_all (fun id => wait (wait_args fraction p id)) (flag_bool p "any") false (finish_order ids) (Ok tt)
  end.

Lemma runRunsWait_eq depth args s :
  runRunsWait w fraction finish_order (Datatypes.S depth) args s =
  (p ← parse_or_fail fraction "runs wait" wait_flags (normalizeRunArgs args);
   wait_for p (runRunsWait w fraction finish_order depth) (pa_args p)) s.
Proof.
  cbn [runRunsWait]. unfold mbind, shell_bind. destruct (parse_or_fail _ _ _ _ s) as [s' [p|e]]; [|done].
  unfold wait_for. by destruct (pa_args p) as [|id [|id2 ids]].
Qed.

(** The server names runs as the command line expects. *)
Definition named_runs : Prop :=
  forall base q st rs next, (w_List w base q st).2 = inr (rs, next) -> Forall (fun r => isRunID (pn_Id r) = true) rs.

Lemma latest_named base :
  named_runs ->
  traces (fun l r => match r with
                     | inl id => isRunID id = true /\ exists r rs next, id = pn_Id r /\
                         l = [EList base (list_request 1 PHASE_UNSPECIFIED "" "" "" "") (inr (r :: rs, next))]
                     | inr e => with_error e
                     end) (latest w base).
Proof.
  intros Hn s. unfold latest, ListAgentRuns_, traces_at. cbv [mbind shell_bind ask].
  destruct (w_List w base _ (m_state s)) as [t a] eqn:Ha. eexists. split.
  - destruct a as [e|[[|r rs] next]]; cbn; reflexivity.
  - assert (Hl : forall rs next, a = inr (rs, next) -> Forall (fun r => isRunID (pn_Id r) = true) rs).
    { intros rs next ->. eapply Hn. by rewrite Ha. }
    destruct a as [e|[[|r rs] next]]; cbn; [by eexists|by eexists|]. pose proof (Hl _ _ eq_refl) as Hf.
    split; [by inversion Hf|]. by exists r, rs, next.
Qed.

(** The runs that a wait is for: those among its arguments; without any, the first one that the server lists, which it is asked
    for before anything else. *)
Definition run_meant (p : parsed) (l : list event) (id : string) : Prop :=
  match pa_args p with
  | [] => flag_bool p "last" = true /\ exists base r rs next, id = pn_Id r /\
            head l = Some (EList base (list_request 1 PHASE_UNSPECIFIED "" "" "" "") (inr (r :: rs, next)))
  | ids => id ∈ ids
  end.

(** How a wait with these flags has ended. *)
Definition wait_result (p : parsed) (l : list event) (r : ending + ending) : Prop :=
  match ended r with
  | Returned (Err _) => True
  | Returned (Ok _) => (exists id, run_meant p l id /\ seen_done l id) /\
      (flag_bool p "any" = false -> forall id, run_meant p l id -> seen_done l id)
  | Endless => exists id t, run_meant p l id /\ endless l t id /\
      (pa_args p = [id] -> t = flag_duration fraction p "timeout" 0)
  | Exit _ | Unfinished => False
  end.

(** The wait for one run that is meant. *)
Lemma waited_result (T : Z -> Prop) p id l r :
  run_meant p l id -> (forall id', run_meant p l id' -> id' = id) ->
  (pa_args p = [id] -> forall t, T t -> t = flag_duration fraction p "timeout" 0) ->
  waited T id l r -> wait_result p l r.
Proof.
  intros Hm Hone HT [(x & Hx & Hd)|(He & t & Ht & Hl)]; unfold wait_result.
  - rewrite Hx. destruct x as [[]|]; [|done]. specialize (Hd eq_refl). split; [eauto|]. by intros _ id' ->%Hone.
  - rewrite He. exists id, t. split_and!; [done..|]. intros Hp. by apply HT.
Qed.

(** What a wait does after its arguments were read. *)
Lemma wait_for_result depth p :
  Forall (fun a => isRunID a = true) (pa_args p) -> (forall l, finish_order l ≡ₚ l) -> named_runs -> limits_end ->
  traces (wait_result p) (wait_for p (runRunsWait w fraction finish_order (Datatypes.S depth)) (pa_args p)).
Proof.
  intros Hids Horder Hnamed Hlim. unfold wait_for. destruct (pa_args p) as [|id [|id2 ids]] eqn:Hp.
  - destruct (flag_bool p "last") eqn:Hlast; [|by apply traces_return].
    eapply traces_bind; [by apply latest_named|by intros l e [msg ->]|].
    intros l id (Hid & r & rs & next & -> & ->). eapply traces_weaken; [|by apply (single_wait depth)]. intros l' r' Hw.
    apply (waited_result (fun _ => True) p (pn_Id r)).
    + unfold run_meant. rewrite Hp. split; [done|]. by eexists _, r, rs, next.
    + unfold run_meant. rewrite Hp. by intros id' (_ & base' & r0 & rs0 & next0 & -> & [= _ <- _ _]).
    + by rewrite Hp.
    + eapply waited_mono; [|exact Hw]. set_solver.
  - eapply traces_weaken; [|by apply wait_one_waited]. intros l r Hw. eapply waited_result; [..|exact Hw].
    + unfold run_meant. rewrite Hp. by constructor.
    + unfold run_meant. rewrite Hp. by intros id' ->%list_elem_of_singleton.
    + by intros _ t <-.
  - eapply traces_weaken; [|apply (wait_all_waited (fun id => runRunsWait w fraction finish_order (Datatypes.S depth) (wait_args fraction p id)))].
    + assert (Hm : forall l i, run_meant p l i <-> i ∈ finish_order (id :: id2 :: ids)).
      { intros l i. unfold run_meant. by rewrite Hp, Horder. }
      intros l r [(x & Hx & Hd)|(He & [?|(i & t & Hi & Ht)])]; unfold wait_result; [|done|].
      * rewrite Hx. destruct x as [[]|]; [|done]. destruct (Hd eq_refl) as (_ & [[_ Hall]|[Hany Hsome]]).
        -- rewrite Forall_forall in Hall. split; [|intros _ i Hi; by apply Hall, (Hm l)].
           exists id. assert (id ∈ finish_order (id :: id2 :: ids)) by (rewrite Horder; constructor). split; [by apply Hm|auto].
        -- apply Exists_exists in Hsome as (i & Hi & Hd'). split; [exists i; split; [by apply Hm|done]|]. by rewrite Hany.
      * rewrite He. exists i, t. split_and!; [by apply Hm|done|]. by rewrite Hp.
    + intros i Hi. apply single_wait; [done|]. rewrite Horder in Hi. rewrite Forall_forall in Hids. by apply Hids.
Qed.

(** C27. A wait tells the truth, and ends unless a run goes on for ever.  When the run IDs among the arguments are such as the
    command line recognises, and so are those that the server lists, and a limit of time ends a stream, then
    [uncworks runs wait] calls itself at most once for each run, whatever the order in which the waits end.  It
    returns no error only when the server has answered for each run that is meant that it has succeeded, for one of them with
    [--any]; without an ID the run is the first that the server lists.  Otherwise it returns an error; and it goes on for ever only when
    the stream of a run that is meant does so, which was asked for without a limit of time. *)
Theorem wait_ends (args : list string) (depth : nat) (s : machine S event)
    (Horder : forall l, finish_order l ≡ₚ l) (Hnamed : named_runs) (Hlimits : limits_end)
    (Hids : forall p, Parse fraction wait_flags (normalizeRunArgs args) = inr p ->
            Forall (fun a => isRunID a = true) (pa_args p)) :
  exists l, let r := runRunsWait w fraction finish_order (2 + depth) args s in
    m_log r.1 = m_log s ++ l /\
    match Parse fraction wait_flags (normalizeRunArgs args) with
    | inl _ => l = [] /\ exists msg, ended r.2 = Returned (Err msg)
    | inr p => wait_result p l r.2
    end.
Proof.
  cbn [plus]. rewrite runRunsWait_eq. unfold parse_or_fail.
  destruct (Parse fraction wait_flags (normalizeRunArgs args)) as [e|p] eqn:Hp.
  { exists []. cbn. rewrite app_nil_r. eauto. }
  rewrite ret_bind. by apply (wait_for_result depth p (Hids p eq_refl)).
Qed.
End waiting.

(** ** What a listing shows *)

Section listing.
Context {S : Type} (w : world S) (fraction : Z -> nat -> Z -> Z) (fuel : nat).
Context (sort_slice : (PRun -> PRun -> bool) -> list PRun -> list PRun).
Notation cli := (shell S event ending).

(** The runs on the pages that the server has sent, in order. *)
Definition fetched (l : list event) : list PRun :=
  mjoin (omap (fun e => match e with EList _ _ (inr pg) => Some pg.1 | _ => None end) l).

Definition not_shown (l : list event) : Prop := Forall (fun e => match e with EShown _ _ => False | _ => True end) l.

Lemma fetched_app l l' : fetched (l ++ l') = fetched l ++ fetched l'.
Proof. unfold fetched. by rewrite omap_app, join_app. Qed.

Lemma apply_filters_all fs runs : apply_filters fs runs = filter (fun r => forallb (fun f => f r) fs = true) runs.
Proof.
  unfold apply_filters. revert runs. induction fs as [|f fs IH]; intros runs; cbn [foldl forallb].
  - induction runs as [|r runs IHr]; [done|]. by rewrite filter_cons, <- IHr.
  - rewrite IH, list_filter_filter. apply list_filter_iff. intros r. rewrite andb_true_iff. tauto.
Qed.

Lemma list_pages_fetches p since base n q acc :
  traces (fun l r => not_shown l /\ match r with inl (runs, _) => runs = acc ++ fetched l | inr _ => True end)
    (list_pages w n p since base q acc).
Proof.
  revert q acc. induction n as [|n IH]; intros q acc; cbn [list_pages]; [apply traces_return; split; [apply Forall_nil_2|done]|].
  eapply (traces_bind (fun l a => match a with inl a => l = [EList base q a] | inr _ => False end)); [by apply traces_ask|done|].
  intros l a ->. destruct a as [e|[pg next]]; cbn [must]; [apply traces_return; rewrite app_nil_r; split; [by apply Forall_singleton|done]|]. rewrite ret_bind. cbn [fst snd].
  assert (Hf : fetched [EList base q (inr (pg, next))] = pg) by (unfold fetched; cbn; by rewrite app_nil_r).
  destruct (stop_listing p since pg next).
  - apply traces_ret. rewrite app_nil_r. split; [by apply Forall_singleton|]. by rewrite Hf.
  - eapply traces_weaken; [|apply IH]. intros l [[runs c]|e] [Hl Hr]; (split; [by apply Forall_cons_2|]); [|done].
    subst runs.
    by rewrite fetched_app, Hf, app_assoc.
Qed.

(** Printed lines show and fetch nothing. *)
Definition plain (e : event) : Prop := match e with EShown _ _ | EList _ _ _ => False | _ => True end.

Lemma plain_nothing l runs_ (next : string) :
  Forall plain l -> (forall rs c, EShown rs c ∈ l -> rs = runs_ /\ c = next) /\ fetched l = [].
Proof.
  intros Hl. split.
  - intros rs c Hin. rewrite Forall_forall in Hl. by specialize (Hl _ Hin).
  - induction Hl as [|e l He _ IH]; [done|]. by destruct e.
Qed.

(** What is shown of a list of runs is the list. *)
Lemma show_list_shows p runs_ next :
  traces (fun l _ => (forall rs c, EShown rs c ∈ l -> rs = runs_ /\ c = next) /\ fetched l = []) (show_list (S := S) p runs_ next).
Proof.
  assert (Hids : forall rs, runs (R := ending) plain (print_run_ids (S := S) rs)).
  { induction rs as [|r rs IH]; cbn [print_run_ids]; [apply runs_ret|]. apply runs_bind; [by apply runs_ask|done]. }
  assert (Hquiet : forall m : cli ending, runs plain m ->
    traces (fun l _ => (forall rs c, EShown rs c ∈ l -> rs = runs_ /\ c = next) /\ fetched l = []) m).
  { intros m Hm. eapply traces_weaken; [|by apply runs_traces]. intros l r. apply plain_nothing. }
  unfold show_list. destruct (_ && _); [|destruct (flag_bool p "count"); [|destruct (flag_bool p "ids-only")]].
  - apply Hquiet, runs_bind; [by apply runs_ask|intros; apply runs_return].
  - apply Hquiet, runs_bind; [by apply runs_ask|intros; apply runs_return].
  - apply Hquiet, runs_bind; [done|intros; apply runs_return].
  - intros s. eexists [EShown runs_ next]. split; [reflexivity|]. split; [|done].
    by intros rs c [= -> ->]%list_elem_of_singleton.
Qed.

Lemma sorted_runs_perm sortBy runs :
  (forall lt l, sort_slice lt l ≡ₚ l) ->
  traces (fun l r => l = [] /\ match r with inl rs => rs ≡ₚ runs | inr _ => True end) (sorted_runs (S := S) sort_slice sortBy runs).
Proof.
  intros Hsort. unfold sorted_runs, fail. destruct (String.eqb sortBy ""); [by apply traces_ret|].
  destruct (sort_order sortBy); [by apply traces_ret|by apply traces_return].
Qed.

(** The listing, once the window of time is known. *)
Lemma listing_rest p since (Hsort : forall lt l, sort_slice lt l ≡ₚ l) s :
  traces_at s (fun l _ => forall shown next, EShown shown next ∈ l ->
      shown ≡ₚ filter (fun r => forallb (fun f => f r) (list_filters p since) = true) (fetched l))
    (phase ← (if String.eqb (phase_word p) "" then mret PHASE_UNSPECIFIED
              else match phase_named (phase_word p) with
                   | Some phase => mret phase
                   | None => fail ("invalid input: invalid phase value " +:+ Quote (phase_word p) +:+
                                   ", must be one of: RUNNING, DONE, FAILED, PENDING, WAITING, CANCELLED")
                   end);
     got ← list_pages w fuel p since (serverBaseURL w (flag_string p "server" "")) (list_query p phase) [];
     runs ← sorted_runs sort_slice (flag_string p "sort" "") (apply_filters (list_filters p since) got.1);
     show_list p runs got.2).
Proof.
  assert (Hno : forall l shown next, not_shown l -> EShown shown next ∈ l -> False).
  { intros l shown next Hl Hin. unfold not_shown in Hl. rewrite Forall_forall in Hl. by specialize (Hl _ Hin). }
  revert s. eapply (traces_bind (fun l _ => l = [])).
  { unfold fail. destruct (String.eqb _ _); [by apply traces_ret|]. destruct (phase_named _); [by apply traces_ret|by apply traces_return]. }
  { by intros l e -> shown next ?%elem_of_nil. }
  intros l0 phase ->. eapply traces_bind; [apply list_pages_fetches|intros l e [Hl _] shown next Hin; by destruct (Hno l shown next)|].
  intros l [runs c] [Hl ->]. cbn [fst snd]. rewrite apply_filters_all.
  eapply traces_bind; [by apply sorted_runs_perm| |].
  { intros l1 e [-> _] shown next Hin. rewrite app_nil_r in Hin. by destruct (Hno l shown next). }
  intros l1 rs [-> Hrs]. eapply traces_weaken; [|apply show_list_shows].
  intros l2 r Hshown shown next Hin. cbn [app] in *. apply elem_of_app in Hin as [Hin|Hin]; [by destruct (Hno l shown next)|].
  destruct Hshown as [Hshown Hf]. destruct (Hshown _ _ Hin) as [-> _]. by rewrite fetched_app, Hf, app_nil_r.
Qed.

(** A listing shows what was asked for: the runs that [uncworks runs list] shows are those on the pages that the server has sent
    that satisfy every filter among the arguments, each as often as it was sent, in the order that was asked for. *)
Theorem list_shows_matching (args : list string) (s : machine S event)
    (Hsort : forall lt l, sort_slice lt l ≡ₚ l) :
  exists l, m_log (runRunsList w fraction fuel sort_slice args s).1 = m_log s ++ l /\
    forall shown next, EShown shown next ∈ l -> exists p since, Parse fraction list_flags args = inr p /\
      window fraction (or_else (flag_string p "since" "") (if flag_bool p "recent" then "24h" else "")) (w_Now w (m_state s)).2 since /\
      shown ≡ₚ filter (fun r => forallb (fun f => f r) (list_filters p since) = true) (fetched l).
Proof.
  unfold runRunsList, parse_or_exit. destruct (Parse fraction list_flags args) as [err|p].
  { exists []. rewrite app_nil_r. by split; [|intros ? ? ?%elem_of_nil]. }
  rewrite ret_bind. destruct (1 <? length (switched p))%nat.
  { exists []. rewrite app_nil_r. by split; [|intros ? ? ?%elem_of_nil]. }
  cbv zeta. set (win := or_else _ _).
  destruct (since_time_cases w fraction win s) as [(e & Hs)|(t & since & Hs & Hw)].
  { exists []. rewrite app_nil_r. unfold mbind, shell_bind. rewrite Hs. split; [done|]. by intros ? ? ?%elem_of_nil. }
  unfold mbind at 1, shell_bind at 1. rewrite Hs. set (s' := {| m_state := t; m_log := m_log s |}).
  destruct (listing_rest p since Hsort s') as (l & Hl & Hd). exists l. split; [exact Hl|]. intros shown next Hin. exists p, since.
  split_and!; [done..|]. by eapply Hd.
Qed.
End listing.

(** ** Examples *)

Definition plain_status (phase : PPhase) (completed : option time) : PStatus :=
  {| px_Phase := phase; px_Message := ""; px_PodName := ""; px_TraceId := ""; px_StartedAt := None;
     px_CompletedAt := completed; px_WorktreePath := ""; px_LogOutput := ""; px_RetainUntil := None;
     px_DeploymentName := ""; px_DebugActive := false; px_Stage := ""; px_RetryCount := 0; px_VerificationResult := "";
     px_PrUrl := ""; px_TotalCost := ""; px_TotalAdditions := 0; px_TotalDeletions := 0 |}.

Definition a_run (id : string) (phase : PPhase) (completed : option time) (spec : PSpec) : PRun :=
  {| pn_Id := id; pn_Name := id; pn_Spec := spec; pn_Status := plain_status phase completed; pn_CreatedAt := 0;
     pn_Children := [] |}.

(** A specification with settings that the command line does not know. *)
Definition guarded_spec : PSpec :=
  {| ps_Repos := [{| repo_URL := "https://github.com/o/r"; repo_Branch := "main"; repo_Path := "" |}]; ps_Prompt := "fix it";
     ps_DevboxConfig := "{}"; ps_TtlSeconds := 60; ps_EnvVars := [("A", "1")]; ps_ModelTier := "m"; ps_Image := "";
     ps_MaxBudget := 5; ps_SpecContent := ""; ps_SpecSource := ""; ps_WorkspaceName := ""; ps_ParentRunId := "";
     ps_OrchestrationMode := MODE_SPEC_DRIVEN; ps_Orchestration := None; ps_SpecRunId := ""; ps_DisplayName := "Fix";
     ps_PipelineConfig := None; ps_AutoPush := true; ps_AutoPr := false; ps_PrBaseBranch := "release";
     ps_Project := "p"; ps_Feature := "f"; ps_Tags := ["t"]; ps_ProjectRef := ""; ps_SpecRef := "";
     ps_ApprovalMode := "hitl" |}.

Definition with_phase (q : ListAgentRunsRequest) (runs : list PRun) : list PRun :=
  filter (fun r => lq_PhaseFilter q = PHASE_UNSPECIFIED \/ phase_of r = lq_PhaseFilter q) runs.

(** A world in which nothing changes: a server with these runs, and a user who answers so. *)
Definition still (runs : list PRun) (answer : string) : world unit :=
  {| w_List := fun _ q s => (s, inr (with_phase q runs, ""));
     w_Get := fun _ id s => (s, match List.find (fun r => String.eqb (pn_Id r) id) runs with
                                | Some r => inr r | None => inl (ConnectError (Served CodeNotFound) "none") end);
     w_Create := fun _ spec s => (s, inr (a_run "ar-newrun" PHASE_PENDING None spec));
     w_Cancel := fun _ _ s => (s, None);
     w_Input := fun _ _ _ s => (s, None);
     w_Post := fun _ _ s => (s, Status 200 "");
     w_Watch := fun _ _ _ s => (s, {| sa_Events := inr []; sa_Ends := true; sa_Err := None; sa_TimedOut := false |});
     w_Scan := fun s => (s, (answer, true));
     w_Stdin := fun s => (s, Ok "reject, please");
     w_ReadFile := fun _ s => (s, Err "no file");
     w_WriteFile := fun _ _ s => (s, None);
     w_Edit := fun s => (s, NoTempFile "none");
     w_Git := fun _ s => (s, None);
     w_Hook := fun _ _ s => (s, None);
     w_Now := fun s => (s, 30 * day);
     w_Config := Err "none" |}.

Definition no_fraction : Z -> nat -> Z -> Z := fun _ _ _ => 0.
Definition no_clock : Z -> string := fun _ => "".
Definition start : machine unit event := {| m_state := tt; m_log := [] |}.

(** The events that change something. *)
Definition done_to (m : machine unit event * (ending + ending)) : list event :=
  filter (fun e => mutating e = true) (m_log m.1).

Definition some_runs : list PRun :=
  [a_run "ar-aaaaaa" PHASE_SUCCEEDED (Some 100) guarded_spec; a_run "ar-bbbbbb" PHASE_RUNNING None guarded_spec;
   a_run "ar-cccccc" PHASE_FAILED (Some (29 * 86400)) guarded_spec].

Definition archived (id : string) : event := EPost (archive_url "http://localhost:50055" id) true (Status 200 "").

(** Pruning takes the old run, after a consent. *)
Example prune_takes_the_old :
  done_to (runRunsPrune (still some_runs "yes") no_fraction 5 [] start) = [archived "ar-aaaaaa"] /\
  done_to (runRunsPrune (still some_runs "no") no_fraction 5 [] start) = [] /\
  done_to (runRunsPrune (still some_runs "no") no_fraction 5 ["--yes"; "--older-than=12h"] start) =
    [archived "ar-aaaaaa"; archived "ar-cccccc"] /\
  done_to (runRunsPrune (still some_runs "yes") no_fraction 5 ["--dry-run"; "--yes"] start) = [].
Proof. by vm_compute. Qed.

Example cancel_all_takes_the_active :
  done_to (runRunsCancelAll (still some_runs "y") no_fraction 5 [] start) =
  [ECancel "http://localhost:50055" "ar-bbbbbb" None].
Proof. by vm_compute. Qed.

Lemma answers_reach_the_gate_witness :
  exists args, main ["reject"; "ar-bbbbbb"; "not"; "yet"] = Call CInput args /\
    changes (fun l => exists text x, l = [EInput "http://localhost:50055" "ar-bbbbbb" text x] /\ (decision (InHuman text)).1 = false)
      (runInput (still some_runs "") no_fraction no_clock args).
Proof.
  exact (proj1 (answers_reach_the_gate (still some_runs "") no_fraction no_clock "ar-bbbbbb" ["not"; "yet"] eq_refl
    ltac:(vm_compute; congruence))).
Defined.

Lemma still_named runs answer : Forall (fun r => isRunID (pn_Id r) = true) runs -> named_runs (still runs answer).
Proof.
  intros Hr base q st rs next [= <- _]. unfold with_phase. rewrite Forall_forall in *. intros r [_ Hin]%list_elem_of_filter. auto.
Qed.

(** This world, where the streams of runs that are active stay open, unless their time is limited. *)
Definition patient (runs : list PRun) : world unit :=
  let w := still runs "" in
  {| w_List := w_List w; w_Get := w_Get w; w_Create := w_Create w; w_Cancel := w_Cancel w; w_Input := w_Input w;
     w_Post := w_Post w;
     w_Watch := fun _ id t s =>
       let over := negb (existsb (fun r => String.eqb (pn_Id r) id && active (phase_of r)) runs) in
       (s, {| sa_Events := inr []; sa_Ends := (0 <? t) || over;
              sa_Err := if over then None else Some (OtherError "deadline"); sa_TimedOut := negb over |});
     w_Scan := w_Scan w; w_Stdin := w_Stdin w; w_ReadFile := w_ReadFile w; w_WriteFile := w_WriteFile w; w_Edit := w_Edit w;
     w_Git := w_Git w; w_Hook := w_Hook w; w_Now := w_Now w; w_Config := w_Config w |}.

Lemma patient_named runs : Forall (fun r => isRunID (pn_Id r) = true) runs -> named_runs (patient runs).
Proof. intros Hr. exact (still_named runs "" Hr). Qed.

Lemma patient_limits runs : limits_end (patient runs).
Proof. intros base id t st Ht. cbn. by rewrite (proj2 (Z.ltb_lt 0 t) Ht). Qed.

Lemma wait_ends_witness :
  exists l p, let r := runRunsWait (patient some_runs) no_fraction (@rev string) 2 ["ar-aaaaaa"; "--any"; "ar-bbbbbb"] start in
    m_log r.1 = [] ++ l /\ ended r.2 = Returned (Ok tt) /\ wait_result no_fraction p l r.2.
Proof.
  destruct (wait_ends (patient some_runs) no_fraction (@rev string) ["ar-aaaaaa"; "--any"; "ar-bbbbbb"] 0 start) as (l & Hl & Hr).
  - intros l. by rewrite <- Permutation_rev.
  - apply patient_named. repeat constructor.
  - apply patient_limits.
  - intros p [= <-]. repeat constructor.
  - eexists l, _. split; [exact Hl|]. split; [by vm_compute|exact Hr].
Defined.

(** Without [--any] this wait goes on for ever; with a limit of time it does not, which is an error. *)
Example wait_goes_on :
  ended (runRunsWait (patient some_runs) no_fraction id 2 ["ar-bbbbbb"; "ar-aaaaaa"] start).2 = Endless /\
  ended (runRunsWait (patient some_runs) no_fraction id 2 ["ar-bbbbbb"] start).2 = Endless /\
  ended (runRunsWait (patient some_runs) no_fraction id 2 ["ar-bbbbbb"; "--timeout=10m"; "ar-aaaaaa"] start).2 =
    Returned (Err "unavailable: timed out after 10m0s waiting for run ar-bbbbbb") /\
  ended (runRunsWait (patient some_runs) no_fraction id 2 ["--last"] start).2 = Returned (Ok tt).
Proof. by vm_compute. Qed.

Lemma list_shows_matching_witness :
  exists l, m_log (runRunsList (still some_runs "") no_fraction 5 (fun _ l => l) ["--sort"; "title"; "--project=p"] start).1 = [] ++ l /\
    EShown some_runs "" ∈ l /\
    exists p since, Parse no_fraction list_flags ["--sort"; "title"; "--project=p"] = inr p /\
      some_runs ≡ₚ filter (fun r => forallb (fun f => f r) (list_filters p since) = true) (fetched l).
Proof.
  destruct (list_shows_matching (still some_runs "") no_fraction 5 (fun _ l => l) ["--sort"; "title"; "--project=p"] start
    ltac:(reflexivity)) as (l & Hl & Hs).
  assert (Hin : EShown some_runs "" ∈ l).
  { change (EShown some_runs "" ∈ m_log start ++ l). rewrite <- Hl. vm_compute. right. left. }
  exists l. split; [exact Hl|]. split; [exact Hin|]. destruct (Hs _ _ Hin) as (p & since & Hp & _ & Hf). eauto.
Defined.

(** *** Where the code does something else than its help says *)

(** The help of [uncworks input] shows [uncworks input abc123 --follow]; a flag after the run is a word of the text, and the gate takes
    this text for an approval, while the standard input, here a rejection, is not read. *)
Example follow_approves :
  done_to (runInput (still some_runs "") no_fraction no_clock ["ar-bbbbbb"; "--follow"] start) =
    [EInput "http://localhost:50055" "ar-bbbbbb" "--follow" None] /\
  decision (InHuman "--follow") = (true, "").
Proof. by vm_compute. Qed.

(** The API server takes the IDs that Kubernetes makes from [GenerateName: "ar-"], with five letters; the command line does
    not see an ID in them. *)
Example generated_ids_are_no_ids : validateRunID "ar-x7k2p" = true /\ isRunID "ar-x7k2p" = false.
Proof. by vm_compute. Qed.

(** So a flag after such an ID is an argument: here [uncworks cancel] asks the default server to cancel the run, and the flag. *)
Example flag_is_cancelled :
  done_to (runCancel (still some_runs "") no_fraction ["ar-x7k2p"; "--server=http://prod"] start) =
  [ECancel "http://localhost:50055" "ar-x7k2p" None; ECancel "http://localhost:50055" "--server=http://prod" None].
Proof. by vm_compute. Qed.

(** And [uncworks runs tail] of such a run fails, since it gives [--server=] to [runs logs] after the ID. *)
Example tail_fails :
  ended (runRunsTail (still some_runs "") no_fraction no_clock ["ar-x7k2p"] start).2 =
  Returned (Err "invalid input: run ID argument required").
Proof. by vm_compute. Qed.

(** A wait for such a run, with a flag after it, starts itself again and again. *)
Lemma wait_goes_on_for_ever depth s :
  ended (runRunsWait (still some_runs "") no_fraction (fun l => l) depth ["ar-x7k2p"; "--server="] s).2 = Unfinished.
Proof.
  revert s. induction depth as [|depth IH]; intros s; [done|]. rewrite runRunsWait_eq. unfold parse_or_fail.
  change (Parse no_fraction wait_flags (normalizeRunArgs ["ar-x7k2p"; "--server="])) with
    (inr {| pa_set := []; pa_args := ["ar-x7k2p"; "--server="] |} : parse_error + parsed).
  cbv iota beta. rewrite ret_bind. cbn [wait_for pa_args wait_all]. unfold mbind, shell_bind, delivered.
  change (wait_args no_fraction {| pa_set := []; pa_args := ["ar-x7k2p"; "--server="] |} "ar-x7k2p") with ["ar-x7k2p"; "--server="].
  specialize (IH s). destruct (runRunsWait _ _ _ depth _ s) as [s' [e|e]]; cbn [snd ended] in IH; by rewrite IH.
Qed.

(** [uncworks wait], which waits for the most recent run, does so when that is a run of a chain. *)
Example wait_for_the_latest :
  ended (runRunsWait (still [a_run "ar-x7k2p" PHASE_SUCCEEDED (Some 1) guarded_spec] "") no_fraction (fun l => l) 4 ["--last"] start).2 = Unfinished.
Proof. by vm_compute. Qed.

(** "Create a new run with the same spec": the approval, the mode, the budget, the base of the pull request, the name and the lifetime are lost. *)
Example retry_loses :
  exists spec, done_to (runRunsRetry (still some_runs "") no_fraction 5 no_clock (fun l => l) 2 ["ar-aaaaaa"] start) =
    [ECreate "http://localhost:50055" spec (inr (a_run "ar-newrun" PHASE_PENDING None spec))] /\
  (ps_ApprovalMode spec, ps_OrchestrationMode spec, ps_MaxBudget spec, ps_PrBaseBranch spec, ps_DisplayName spec, ps_TtlSeconds spec) =
    ("", MODE_UNSPECIFIED, 0, "", "", 0) /\
  (ps_Prompt spec, ps_Project spec, ps_Feature spec, ps_Tags spec, ps_ModelTier spec, ps_AutoPush spec) =
    ("fix it", "p", "f", ["t"], "m", true).
Proof. eexists. split; [by vm_compute|]. split; reflexivity. Qed.

Definition watched (m : machine unit event * (ending + ending)) : list string :=
  omap (fun e => match e with EWatch _ id _ _ => Some id | _ => None end) (m_log m.1).

(** [runs retry] of several runs with [--wait] waits for the runs that were retried, which are over, and not for the new ones;
    and without [--output-id] for none. *)
Example retry_waits_for_the_originals :
  watched (runRunsRetry (still some_runs "") no_fraction 5 no_clock (fun l => l) 2 ["ar-aaaaaa"; "ar-cccccc"; "--wait"; "--output-id"] start) =
    ["ar-aaaaaa"; "ar-cccccc"] /\
  watched (runRunsRetry (still some_runs "") no_fraction 5 no_clock (fun l => l) 2 ["ar-aaaaaa"; "ar-cccccc"; "--wait"] start) = [].
Proof. by vm_compute. Qed.

Definition printed (m : machine unit event * (ending + ending)) : list string :=
  omap (fun e => match e with EOut l => Some l | _ => None end) (m_log m.1).

(** The branch of the new run is written into the message of the original: [--diff] shows the new branch as the base of the original. *)
Example retry_diff_has_the_new_branch :
  "  git diff origin/dev...origin/aot/ar-aaaaaa" ∈
  printed (runRunsRetry (still some_runs "") no_fraction 5 no_clock (fun l => l) 2 ["ar-aaaaaa"; "--branch=dev"; "--diff"] start).
Proof. apply (bool_decide_unpack _). by vm_compute. Qed.

(** "Fall back to any active run": [uncworks cancel --last] takes the most recent run, also one that is over. *)
Example cancel_last_takes_a_run_that_is_over :
  done_to (runCancel (still [a_run "ar-aaaaaa" PHASE_SUCCEEDED (Some 1) guarded_spec] "") no_fraction ["--last"] start) =
  [ECancel "http://localhost:50055" "ar-aaaaaa" None].
Proof. by vm_compute. Qed.

(** The help of [--min-age] and [--older-than] gives [7d] as an example, which is no duration for [flag]. *)
Example days_are_no_duration :
  ended (runRunsArchiveDone (still some_runs "") no_fraction 5 ["--min-age=7d"] start).2 = Exit 2 /\
  ended (runRunsPrune (still some_runs "") no_fraction 5 ["--older-than=7d"] start).2 = Exit 2.
Proof. by vm_compute. Qed.

(** A window of days is the number in front, whatever follows it, and wraps around. *)
Example since_days :
  parseSinceDuration no_fraction "7d" = Ok (7 * day) /\ parseSinceDuration no_fraction "1h7d" = Ok day /\
  parseSinceDuration no_fraction "200000d" = Ok (-1166744073709551616).
Proof. by vm_compute. Qed.

(** [--count] of no runs is a sentence. *)
Example count_of_nothing :
  printed (runRunsList (still [] "") no_fraction 5 (fun _ l => l) ["--count"] start) = ["No runs found."].
Proof. by vm_compute. Qed.

Definition two_specs : world unit :=
  let w := still some_runs "" in
  {| w_List := w_List w; w_Get := w_Get w; w_Create := w_Create w; w_Cancel := w_Cancel w; w_Input := w_Input w;
     w_Post := w_Post w; w_Watch := w_Watch w; w_Scan := w_Scan w;
     w_Stdin := fun s => (s, Ok ("[{" +:+ dquote +:+ "prompt" +:+ dquote +:+ ": " +:+ dquote +:+ "one" +:+ dquote +:+ ", " +:+
       dquote +:+ "repo" +:+ dquote +:+ ": " +:+ dquote +:+ "u" +:+ dquote +:+ "}, {}]"));
     w_ReadFile := w_ReadFile w; w_WriteFile := w_WriteFile w; w_Edit := w_Edit w; w_Git := w_Git w; w_Hook := w_Hook w;
     w_Now := w_Now w; w_Config := w_Config w |}.

(** A batch whose second run is not complete makes the first run before it fails. *)
Example batch_is_not_checked_first :
  let r := runRunsBatch two_specs no_fraction 5 (fun l => l) ["-"] start in
  length (done_to r) = 1%nat /\
  ended r.2 = Returned (Err "invalid input: spec 2: repo is required (no git remote detected)").
Proof. by vm_compute. Qed.

(** The value of a flag that looks like a run ID goes to the end with the IDs. *)
Example value_is_moved :
  normalizeRunArgs ["--parent"; "ar-aaaaaa"; "--wait"] = ["--parent"; "--wait"; "ar-aaaaaa"].
Proof. by vm_compute. Qed.
