(* ===== verification/CliReports.v ===== *)
(** * The reports of the command line: [cmd/uncworks/runs.go].

    A report asks for the pages of a listing, keeps some of the runs, counts or orders them, and shows lines, tables and JSON: its value
    is what it shows.  JSON is the value that is encoded, with the keys of a map in any order; the widths of a table's columns, the
    colours of a terminal and the text of a [float64] ([%.nf]) and of a date are left out or parameters.  Floating-point numbers are
    executable. *)

From S2P Require Import Prelude GoStrings GoTime Regex ApiTypes ApiProto ApiServer ApiList Shell CliArgs CliRuns.

Local Open Scope Z_scope.

(** ** What is shown *)

Inductive jvalue :=
| VNull
| VInt (z : Z)
| VFloat (f : float)
| VText (s : string)
| VCounts (m : gmap string Z)
| VList (l : list jvalue)
| VFields (l : list (string * jvalue)).

Inductive shown := Line (s : string) | Table (header : list string) (rows : list (list string)) | VJSON (v : jvalue).

(** ** Counting *)

(** [m[k]++] for each key. *)
Definition counts_of (keys : list string) : gmap string Z := foldl (fun m k => <[k := default 0 (m !! k) + 1]> m) ∅ keys.

(** The larger count comes first, and of equal ones the key that is first. *)
Definition ranks_before (a b : string * Z) : Prop := b.2 < a.2 \/ (a.2 = b.2 /\ strings.String.le a.1 b.1).
#[export] Instance ranks_before_dec : RelDecision ranks_before.
Proof. intros a b. unfold ranks_before. apply _. Defined.

(** [cmd/uncworks/runs.go:4519-4524] runRunsCount: the counts in the order in which they are shown *)
Definition ranking (m : gmap string Z) : list (string * Z) := merge_sort ranks_before (map_to_list m).

(** The sum of a list. *)
Definition sum (l : list Z) : Z := foldr Z.add 0 l.

Definition len_of {A} (l : list A) : Z := Z.of_nat (length l).

(** How many runs are in a phase. *)
Definition in_phase (phase : PPhase) (runs : list PRun) : Z := len_of (filter (fun r => phase_of r = phase) runs).

(** The largest of a list of counts, and 0. *)
Definition largest (l : list Z) : Z := foldl (fun m n => if m <? n then n else m) 0 l.

(** [float64(part) / float64(whole) * 100] *)
Definition percent (part whole : Z) : float := fmul (fdiv (float_of_Z part) (float_of_Z whole)) (float_of_Z 100).

(** [int(float64(n) / float64(max) * width)], when there is anything to show *)
Definition bar_len (n max width : Z) : Z :=
  if 0 <? max then float_to_Z (fmul (fdiv (float_of_Z n) (float_of_Z max)) (float_of_Z width)) else 0.

Definition bar (n : Z) : string := Nat.iter (Z.to_nat n) (String.append "█") "".

(** ** Runs *)

Definition title_of (r : PRun) : string := or_else (ps_DisplayName (pn_Spec r)) (ps_Project (pn_Spec r)).
Definition label_of (r : PRun) : string := phaseLabel (phase_of r).

Definition started_ns (r : PRun) : option Z := AsTime <$> px_StartedAt (pn_Status r).
Definition completed_ns (r : PRun) : option Z := AsTime <$> px_CompletedAt (pn_Status r).
Definition created_ns (r : PRun) : Z := AsTime (pn_CreatedAt r).

(** The time that a run took. *)
Definition took (r : PRun) : option Z := a ← started_ns r; b ← completed_ns r; Some (b - a).

(** The keys that a run is counted under. *)
Definition project_key (none : string) (r : PRun) : list string := [or_else (ps_Project (pn_Spec r)) none].
Definition feature_key (none : string) (r : PRun) : list string := [or_else (ps_Feature (pn_Spec r)) none].
Definition model_key (none : string) (r : PRun) : list string := [or_else (ps_ModelTier (pn_Spec r)) none].
Definition tag_keys (r : PRun) : list string := match ps_Tags (pn_Spec r) with [] => ["(untagged)"] | tags => tags end.

Definition counted (keys : PRun -> list string) (runs : list PRun) : gmap string Z := counts_of (runs ≫= keys).

(** A filter by the model. *)
Definition model_matches (model : string) (r : PRun) : bool := filter_by model (fun m r => contains_fold (ps_ModelTier (pn_Spec r)) m) r.

(** ** Pages *)

(** The runs of a page in front of the first one that ends the loop, and whether there is one. *)
Fixpoint broken (old : PRun -> bool) (l : list PRun) : list PRun * bool :=
  match l with
  | [] => ([], false)
  | r :: l => if old r then ([], true) else let b := broken old l in (r :: b.1, b.2)
  end.

(** The runs of a page that are passed over one by one, and whether there is one that is too old. *)
Definition passed (old : PRun -> bool) (l : list PRun) : list PRun * bool :=
  (filter (fun r => old r = false) l, existsb old l).

Definition keep_if (keep : PRun -> bool) (l : list PRun) : list PRun := filter (fun r => keep r = true) l.

(** A run that was created at a time or before it; strictly before it. *)
Definition not_after (t : Z) (r : PRun) : bool := created_ns r <=? t.
Definition before (t : Z) (r : PRun) : bool := created_ns r <? t.

Section reports.
Context {S : Type} (w : world S).
Context (fraction : Z -> nat -> Z -> Z).
(** the pages that a listing is followed for *)
Context (fuel : nat).
(** [sort.Slice] with a comparison; [%.nf]; the dates of the local zone and of UTC by their layout *)
Context (sort_slice : forall A, (A -> A -> bool) -> list A -> list A).
Context (fixed : nat -> float -> string) (Format FormatUTC : string -> Z -> string).

Notation cli := (shell S event ending).
Notation now := (Now w).
Notation fails := (fail (S := S)).

Definition RFC3339 : string := "2006-01-02T15:04:05Z07:00".

(** A panic of the program. *)
Definition panics {A} : cli A := return_ (Exit 2).

(** [cmd/uncworks/tui.go:112-124] runDuration *)
Definition runDuration (r : PRun) : cli string :=
  match started_ns r with
  | None => mret "-"
  | Some a => match completed_ns r with
              | Some b => mret (formatDuration (b - a))
              | None => t ← now; mret (formatDuration (t - a))
              end
  end.

(** [relativeTime] of a time. *)
Definition age_of (t : Z) : cli string := n ← now; mret (relativeTime (n - t)).

(** The rows of a table. *)
Definition rows_of {A B} (f : A -> cli B) (l : list A) : cli (list B) := each (fun a => b ← f a; mret [b]) l.

(** The start of a window that must be one. *)
Definition window_start (since : string) : cli (Z * Z) :=
  match parseSinceDuration fraction since with
  | Err e => fails ("--since " +:+ Quote since +:+ ": " +:+ e)
  | Ok d => n ← now; mret (d, n - d)
  end.

(** The pages of a listing: [page] takes what was collected and a page, and says whether it is the last one; [failed] is what an error does. *)
Fixpoint scan {A} (n : nat) (base : string) (query : A -> string -> ListAgentRunsRequest) (failed : rpc_error -> A -> cli A)
    (page : A -> list PRun -> cli (A * bool)) (acc : A) (cursor : string) : cli A :=
  match n with
  | O => return_ Unfinished
  | Datatypes.S n =>
      resp ← ListAgentRuns_ w base (query acc cursor);
      match resp with
      | inl e => failed e acc
      | inr pg =>
          a ← page acc pg.1;
          if String.eqb pg.2 "" || a.2 then mret a.1 else scan n base query failed page a.1 pg.2
      end
  end.

(** An error ends the command; it ends the listing, with the runs that have been collected. *)
Definition strictly {A} (e : rpc_error) (_ : A) : cli A := fails ("failed: " +:+ humanizeErr e).
Definition leniently {A} (_ : rpc_error) (acc : A) : cli A := mret acc.

(** A page of which runs are kept. *)
Definition kept_page (f : list PRun -> list PRun * bool) (acc : list PRun) (l : list PRun) : cli (list PRun * bool) :=
  mret (acc ++ (f l).1, (f l).2).

(** The request of a report: a hundred runs behind a cursor. *)
Definition hundred (phase : PPhase) (archived : bool) (p : parsed) (cursor : string) : ListAgentRunsRequest :=
  {| lq_Limit := 100; lq_Cursor := cursor; lq_PhaseFilter := phase; lq_ParentRunId := ""; lq_StageFilter := "";
     lq_TagFilter := flag_string p "tag" ""; lq_SpecRunId := ""; lq_ProjectFilter := flag_string p "project" "";
     lq_FeatureFilter := flag_string p "feature" ""; lq_IncludeArchived := if archived then "true" else "" |}.

Definition base_of (p : parsed) : string := serverBaseURL w (flag_string p "server" "").

(** The runs that a listing collects from its first page on. *)
Definition collected (p : parsed) (phase : PPhase) (archived : bool) (failed : rpc_error -> list PRun -> cli (list PRun))
    (f : list PRun -> list PRun * bool) : cli (list PRun) :=
  scan fuel (base_of p) (fun _ => hundred phase archived p) failed (kept_page f) [] "".

(** Whether a run was started inside the window. *)
Definition started_in (since : option Z) (r : PRun) : bool :=
  match since with
  | None => true
  | Some t => match started_ns r with Some s => t <? s | None => false end
  end.

Definition label_window (since project : string) : string :=
  (if String.eqb since "" then "all time" else "last " +:+ since) +:+ (if String.eqb project "" then "" else " · " +:+ project).

(** ** Counting runs *)

Definition phase_error (word more : string) : string := "invalid input: invalid phase " +:+ Quote word +:+ more.

(** The phase that a word names; no word is no phase. *)
Definition phase_or (unknown : string -> cli PPhase) (word : string) : cli PPhase :=
  if String.eqb word "" then mret PHASE_UNSPECIFIED
  else match phase_named word with Some phase => mret phase | None => unknown word end.

Definition count_flags : flagset :=
  [("server", KString); ("phase", KString); ("project", KString); ("feature", KString); ("tag", KString); ("since", KString);
   ("by-phase", KBool); ("by-feature", KBool); ("by-tag", KBool); ("by-project", KBool); ("json", KBool); ("model", KString)].

(** A table of counts, and the total below it. *)
Definition counts_table (header : string) (rows : list (string * Z)) (total : Z) : list shown :=
  [Table [header; "COUNT"] ((fun kv => [kv.1; Itoa kv.2]) <$> rows); Line ("Total: " +:+ Itoa total)].

(** [cmd/uncworks/runs.go:4503-4507] runRunsCount: the phases in their order *)
Definition phase_rows (order : list string) (m : gmap string Z) : list (string * Z) := omap (fun ph => pair ph <$> m !! ph) order.

(** [cmd/uncworks/runs.go:4477-4579] runRunsCount: what is shown *)
Definition show_count (p : parsed) (runs : list PRun) : list shown :=
  let count := len_of runs in
  let phases := counted (fun r => [label_of r]) runs in
  let features := counted (feature_key "(none)") runs in
  let tags := counted tag_keys runs in
  let projects := counted (project_key "(none)") runs in
  if flag_bool p "json" then
    let split name key m := if flag_bool p name then [(key, VCounts m)] else [] in
    [VJSON (VFields ([("count", VInt count)] ++ split "by-phase" "by_phase" phases ++ split "by-feature" "by_feature" features ++
      split "by-tag" "by_tag" tags ++ split "by-project" "by_project" projects ++
      (if flag_bool p "by-phase" || flag_bool p "by-feature" || flag_bool p "by-tag" || flag_bool p "by-project"
       then [("total", VInt count)] else [])))]
  else if flag_bool p "by-phase" then
    counts_table "PHASE" (phase_rows ["RUNNING"; "PENDING"; "WAITING"; "DONE"; "FAILED"; "CANCELLED"; "UNKNOWN"] phases) count
  else if flag_bool p "by-feature" then counts_table "FEATURE" (ranking features) count
  else if flag_bool p "by-tag" then counts_table "TAG" (ranking tags) count
  else if flag_bool p "by-project" then counts_table "PROJECT" (ranking projects) count
  else [Line (Itoa count)].

(** [cmd/uncworks/runs.go:4352-4580] runRunsCount *)
Definition runRunsCount (args : list string) : cli (list shown) :=
  p ← parse_or_fail fraction "runs count" count_flags args;
  since ← since_time w fraction (flag_string p "since" "");
  phase ← phase_or (fun word => fails (phase_error word ": must be RUNNING, DONE, FAILED, PENDING, WAITING, CANCELLED")) (flag_string p "phase" "");
  runs ← collected p phase false leniently (fun l => (keep_if (fun r => started_in since r && model_matches (flag_string p "model" "") r) l, false));
  mret (show_count p runs).

(** ** Success over windows of time *)

Definition score_windows : list (string * Z) := [("1h", hour); ("24h", day); ("7d", 7 * day); ("30d", 30 * day)].

Definition score_flags : flagset :=
  [("server", KString); ("project", KString); ("feature", KString); ("tag", KString); ("include-archived", KBool); ("json", KBool)].

(** [cmd/uncworks/runs.go:6659-6665] runRunsScore: a window *)
Record windowResult := { wr_Window : string; wr_Total : Z; wr_Done : Z; wr_Failed : Z; wr_Rate : float }.

(** The share of the runs that succeeded. *)
Definition success_rate (done_ failed : Z) : float := if 0 <? done_ + failed then percent done_ (done_ + failed) else float_of_Z 0.

(** [cmd/uncworks/runs.go:6724-6744] runRunsScore: the counts of a window *)
Definition score_window (t : Z) (runs : list PRun) (win : string * Z) : windowResult :=
  let inside := filter (fun r => not_after (t - win.2) r = false) runs in
  let done_ := in_phase PHASE_SUCCEEDED inside in
  let failed := in_phase PHASE_FAILED inside in
  {| wr_Window := win.1; wr_Total := len_of inside; wr_Done := done_; wr_Failed := failed; wr_Rate := success_rate done_ failed |}.

(** [cmd/uncworks/runs.go:6677-6744] runRunsScore: the runs of the largest window, and the counts of every window *)
Definition score (p : parsed) : cli (list windowResult) :=
  let archived := flag_bool p "include-archived" in
  t ← now;
  runs ← collected p PHASE_UNSPECIFIED archived leniently
           (fun l => let k := passed (not_after (t - 30 * day)) l in (k.1, negb archived && k.2));
  t ← now;
  mret (score_window t runs <$> score_windows).

(** [cmd/uncworks/runs.go:6638-6776] runRunsScore *)
Definition runRunsScore (args : list string) : cli (list shown) :=
  p ← parse_or_fail fraction "runs score" score_flags args;
  results ← score p;
  mret (if flag_bool p "json" then
          [VJSON (VList ((fun r => VFields [("window", VText (wr_Window r)); ("total", VInt (wr_Total r)); ("done", VInt (wr_Done r));
             ("failed", VInt (wr_Failed r)); ("success_rate", VFloat (wr_Rate r))]) <$> results))]
        else
          [Table ["WINDOW"; "TOTAL"; "DONE"; "FAILED"; "SUCCESS RATE"]
             ((fun r => [wr_Window r; Itoa (wr_Total r); Itoa (wr_Done r); Itoa (wr_Failed r);
                         if 0 <? wr_Done r + wr_Failed r then fixed 1 (wr_Rate r) +:+ "%" else "—"]) <$> results)]).

(** ** Runs per day and per hour *)

Definition tally_flags : flagset :=
  [("server", KString); ("days", KInt); ("project", KString); ("feature", KString); ("tag", KString); ("include-archived", KBool);
   ("no-color", KBool); ("json", KBool)].

(** the day of a time in the local zone, and [AddDate] of days *)
Context (local_day : Z -> Z) (AddDays : Z -> Z -> Z).

Record dayBucket := { db_Day : Z; db_Total : Z; db_Done : Z; db_Failed : Z }.

(** [cmd/uncworks/runs.go:6814-6820] runRunsTally: the days that are shown, the latest first *)
Definition tally_days (t days : Z) : list Z := (fun i => local_day (AddDays t (- Z.of_nat i))) <$> seq 0 (Z.to_nat days).

(** [cmd/uncworks/runs.go:6849-6860] runRunsTally: the counts of a day *)
Definition tally_day (runs : list PRun) (day : Z) : dayBucket :=
  let inside := filter (fun r => local_day (created_ns r) = day) runs in
  {| db_Day := day; db_Total := len_of inside; db_Done := in_phase PHASE_SUCCEEDED inside; db_Failed := in_phase PHASE_FAILED inside |}.

(** [cmd/uncworks/runs.go:6806-6876] runRunsTally: the buckets; the keys of a map are without repetition *)
Definition tally (p : parsed) : cli (list dayBucket) :=
  let archived := flag_bool p "include-archived" in
  let days := flag_int p "days" 14 in
  t ← now;
  let cutoff := AddDays t (- days) in
  t ← now;
  runs ← collected p PHASE_UNSPECIFIED archived leniently (fun l => let k := passed (before cutoff) l in (k.1, negb archived && k.2));
  mret (tally_day runs <$> merge_sort Z.ge (remove_dups (tally_days t days))).

(** [cmd/uncworks/runs.go:6780-6921] runRunsTally *)
Definition runRunsTally (args : list string) : cli (list shown) :=
  p ← parse_or_fail fraction "runs tally" tally_flags args;
  if flag_int p "days" 14 <? 1 then fails "invalid input: --days must be >= 1"
  else
    buckets ← tally p;
    let max := largest (db_Total <$> buckets) in
    mret (if flag_bool p "json" then
            [VJSON (VList ((fun b => VFields [("date", VText (format_date (db_Day b))); ("total", VInt (db_Total b)); ("done", VInt (db_Done b));
               ("failed", VInt (db_Failed b))]) <$> buckets))]
          else
            [Table ["DATE"; "TOTAL"; "DONE"; "FAILED"; "BAR"]
               ((fun b => [format_date (db_Day b); Itoa (db_Total b); Itoa (db_Done b); Itoa (db_Failed b); bar (bar_len (db_Total b) max 20)]) <$> buckets)]).

Definition velocity_flags : flagset := [("server", KString); ("project", KString); ("buckets", KInt)].

(** [cmd/uncworks/runs.go:7082-7090] runRunsVelocity: how many whole hours ago a run was made *)
Definition hours_ago (t : Z) (r : PRun) : Z := Z.quot (t - created_ns r) hour.

(** [cmd/uncworks/runs.go:7098-7120] runRunsVelocity: what is shown *)
Definition show_velocity (bucketCount : Z) (counts : list Z) : list shown :=
  let max := largest counts in
  let total := sum counts in
  [Line ("Runs per hour — last " +:+ Itoa bucketCount +:+ "h"); Line ""] ++
  imap (fun i count =>
    Line ("  " +:+ pad 8 (Itoa (bucketCount - Z.of_nat i) +:+ "h ago") +:+ "  " +:+ bar (if 0 <? max then count * 20 / max else 0) +:+ " " +:+ Itoa count)) counts ++
  [Line ""; Line ("  Total: " +:+ Itoa total +:+ " runs in last " +:+ Itoa bucketCount +:+ "h (avg " +:+
     fixed 1 (fdiv (float_of_Z total) (float_of_Z bucketCount)) +:+ "/h)")].

(** [cmd/uncworks/runs.go:7040-7121] runRunsVelocity *)
Definition runRunsVelocity (args : list string) : cli (list shown) :=
  p ← parse_or_exit fraction velocity_flags args;
  t ← now;
  let buckets := flag_int p "buckets" 24 in
  let bucketCount := if buckets <? 1 then 24 else buckets in
  runs ← collected p PHASE_UNSPECIFIED false strictly (broken (before (t - wrap64 (bucketCount * hour))));
  let counts := (fun i => len_of (filter (fun r => hours_ago t r = bucketCount - 1 - Z.of_nat i) runs)) <$> seq 0 (Z.to_nat bucketCount) in
  mret (show_velocity bucketCount counts).

(** ** Durations *)

Definition slow_flags : flagset :=
  [("server", KString); ("limit", KInt); ("since", KString); ("project", KString); ("feature", KString); ("tag", KString); ("no-color", KBool);
   ("json", KBool)].

(** The first runs, when there is a limit. *)
Definition limited (limit : Z) (runs : list PRun) : list PRun :=
  if (0 <? limit) && (limit <? len_of runs) then take (Z.to_nat limit) runs else runs.

Definition duration_of (r : PRun) : Z := default 0 (took r).

(** [cmd/uncworks/runs.go:6530-6574] runRunsSlow: the runs that are over, the slowest first; [Seconds] is monotone *)
Definition slowest (p : parsed) (since : Z) : cli (list PRun) :=
  runs ← collected p PHASE_UNSPECIFIED false leniently
    (fun l => let k := passed (not_after since) l in (keep_if (fun r => bool_decide (is_Some (took r))) k.1, k.2));
  mret (limited (flag_int p "limit" 10) (sort_slice PRun (fun a b => duration_of b <? duration_of a) runs)).

(** [cmd/uncworks/runs.go:6501-6634] runRunsSlow *)
Definition runRunsSlow (args : list string) : cli (list shown) :=
  p ← parse_or_fail fraction "runs slow" slow_flags args;
  let since := flag_string p "since" "7d" in
  win ← window_start since;
  runs ← slowest p win.2;
  match runs with
  | [] => mret [if flag_bool p "json" then VJSON (VList []) else Line "No completed runs found."]
  | _ =>
      if flag_bool p "json" then
        rows ← rows_of (fun r =>
          dur ← runDuration r;
          mret (VFields [("id", VText (pn_Id r)); ("phase", VText (label_of r)); ("duration", VText dur);
            ("duration_seconds", VFloat (Seconds (duration_of r))); ("project", VText (ps_Project (pn_Spec r)));
            ("feature", VText (ps_Feature (pn_Spec r))); ("title", VText (title_of r))])) runs;
        mret [VJSON (VList rows)]
      else
        rows ← rows_of (fun r =>
          dur ← runDuration r; mret [dur; pn_Id r; label_of r; ps_Project (pn_Spec r); cut_at 40 (title_of r)]) runs;
        mret [Line ("Slowest " +:+ Itoa (len_of runs) +:+ " run(s) in the last " +:+ since +:+ ":"); Line "";
              Table ["DURATION"; "ID"; "PHASE"; "PROJECT"; "TITLE"] rows]
  end.

Definition percentiles_flags : flagset := [("server", KString); ("project", KString); ("since", KString)].

(** The runs of a page that succeeded, up to the first of them that is too old. *)
(** [cmd/uncworks/runs.go:7163-7181] runRunsPercentiles: a page *)
Definition succeeded_page (since : option Z) (l : list PRun) : list PRun * bool :=
  broken (fun r => match since with Some t => before t r | None => false end) (filter (fun r => phase_of r = PHASE_SUCCEEDED) l).

(** [cmd/uncworks/runs.go:7182-7190] runRunsPercentiles: the durations that are positive *)
Definition positive_durations (runs : list PRun) : list Z := filter (fun d => 0 < d) (omap took runs).

Definition sorted_durations : list Z -> list Z := merge_sort Z.le.

(** [cmd/uncworks/runs.go:7199-7202] runRunsPercentiles: the entry at [int(float64(n-1) * p / 100)] *)
Definition percentile (p : Z) (durations : list Z) : Z :=
  nth (Z.to_nat (float_to_Z (fdiv (fmul (float_of_Z (len_of durations - 1)) (float_of_Z p)) (float_of_Z 100)))) durations 0.

(** [cmd/uncworks/runs.go:7123-7219] runRunsPercentiles *)
Definition runRunsPercentiles (args : list string) : cli (list shown) :=
  p ← parse_or_exit fraction percentiles_flags args;
  since ← since_time w fraction (flag_string p "since" "");
  runs ← collected p PHASE_UNSPECIFIED false strictly (succeeded_page since);
  mret match sorted_durations (positive_durations runs) with
       | [] => [Line "No completed runs with duration data."]
       | (d :: _) as durations =>
           let row name value := Line ("  " +:+ name +:+ "  " +:+ formatDuration value) in
           [Line ("Duration percentiles (" +:+ label_window (flag_string p "since" "") (flag_string p "project" "") +:+ ") — " +:+
                  Itoa (len_of durations) +:+ " completed runs"); Line "";
            row "p50" (percentile 50 durations); row "p75" (percentile 75 durations); row "p95" (percentile 95 durations);
            row "p99" (percentile 99 durations); row "min" d; row "max" (default 0 (last durations))]
       end.

(** [strconv.ParseFloat] *)
Context (ParseFloat : string -> option float).

Definition anomalies_flags : flagset := [("server", KString); ("project", KString); ("since", KString); ("threshold", KString)].

(** [cmd/uncworks/runs.go:7249-7254] runRunsAnomalies: a run with a duration *)
Record runEntry := { re_id : string; re_title : string; re_duration : Z; re_started : Z }.

(** [cmd/uncworks/runs.go:7282-7303] runRunsAnomalies: the entry of a run; runs that did not succeed are passed over before *)
Definition entry_of (r : PRun) : option runEntry :=
  a ← started_ns r; d ← took r;
  if 0 <? d then Some {| re_id := pn_Id r; re_title := cut_at 40 (ps_DisplayName (pn_Spec r)); re_duration := d; re_started := a |} else None.

(** [cmd/uncworks/runs.go:7316-7326] runRunsAnomalies: the third quartile, the bound, and the entries above it, the longest first *)
Definition anomalies_of (threshold : float) (entries : list runEntry) : Z * Z * list runEntry :=
  let durations := sorted_durations (re_duration <$> entries) in
  let p75 := nth (Z.to_nat (float_to_Z (fmul (float_of_Z (len_of durations - 1)) (fdiv (float_of_Z 3) (float_of_Z 4))))) durations 0 in
  let cutoff := float_to_Z (fmul (float_of_Z p75) threshold) in
  (p75, cutoff, sort_slice runEntry (fun a b => re_duration b <? re_duration a) (filter (fun e => cutoff < re_duration e) entries)).

(** [cmd/uncworks/runs.go:7311-7345] runRunsAnomalies: what is shown *)
Definition show_anomalies (threshold : float) (entries : list runEntry) : cli (list shown) :=
  if len_of entries <? 4 then mret [Line ("Not enough data (" +:+ Itoa (len_of entries) +:+ " runs) to detect anomalies.")]
  else
    let '(p75, cutoff, anomalies) := anomalies_of threshold entries in
    match anomalies with
    | [] => mret [Line ("No anomalies detected (p75=" +:+ formatDuration p75 +:+ ", cutoff=" +:+ formatDuration cutoff +:+ ")")]
    | _ =>
        rows ← rows_of (fun a => age ← age_of (re_started a); mret [formatDuration (re_duration a); re_id a; age; re_title a]) anomalies;
        mret [Table ["DURATION"; "ID"; "STARTED"; "TITLE"] rows; Line "";
              Line (Itoa (len_of anomalies) +:+ " anomal" +:+ (if len_of anomalies =? 1 then "y" else "ies") +:+ " (>" +:+ fixed 1 threshold +:+
                    "x p75=" +:+ formatDuration p75 +:+ ", cutoff=" +:+ formatDuration cutoff +:+ ")")]
    end.

(** [cmd/uncworks/runs.go:7221-7346] runRunsAnomalies: a threshold that is no number ends the program, like any other error among the flags *)
Definition runRunsAnomalies (args : list string) : cli (list shown) :=
  p ← parse_or_exit fraction anomalies_flags args;
  match mapM ParseFloat (multiFlag p "threshold") with
  | None => return_ (Exit 2)
  | Some thresholds =>
      since ← since_time w fraction (flag_string p "since" "7d");
      runs ← collected p PHASE_UNSPECIFIED false strictly (succeeded_page since);
      show_anomalies (default (float_of_Z 2) (last thresholds)) (omap entry_of runs)
  end.

Definition cost_flags : flagset := [("server", KString); ("project", KString); ("since", KString); ("model", KString)].

Definition tier_of (r : PRun) : string := or_else (ps_ModelTier (pn_Spec r)) "default".

(** A sum of [int32] numbers, which wraps around. *)
Definition sum_int32 (l : list Z) : Z := foldl (fun a b => to_int32 (a + b)) 0 l.
Definition additions (runs : list PRun) : Z := sum_int32 ((fun r => px_TotalAdditions (pn_Status r)) <$> runs).
Definition deletions (runs : list PRun) : Z := sum_int32 ((fun r => px_TotalDeletions (pn_Status r)) <$> runs).
Definition diff_text (runs : list PRun) : string := "+" +:+ Itoa (additions runs) +:+ " -" +:+ Itoa (deletions runs) +:+ " lines".

(** [cmd/uncworks/runs.go:7013-7036] runRunsCost: what is shown *)
Definition show_cost (p : parsed) (runs : list PRun) : list shown :=
  let n := Itoa (len_of runs) in
  let with_cost := len_of (filter (fun r => px_TotalCost (pn_Status r) <> "") runs) in
  let tiers := sort_strings (remove_dups (tier_of <$> runs)) in
  [Line ("Cost summary (" +:+ label_window (flag_string p "since" "") (flag_string p "project" "") +:+ ") — " +:+ n +:+ " runs"); Line "";
   Line ("  Total diff:  " +:+ diff_text runs)] ++
  (if 0 <? with_cost then [Line ("  Cost data:   " +:+ Itoa with_cost +:+ "/" +:+ n +:+ " runs have cost estimates")] else []) ++
  (if 1 <? len_of tiers then
     [Line ""; Line "  By model tier:"] ++
     ((fun tier => let mine := filter (fun r => tier_of r = tier) runs in
        Line ("    " +:+ pad 22 tier +:+ "  " +:+ Itoa (len_of mine) +:+ " runs  " +:+ diff_text mine)) <$> tiers)
   else []).

(** [cmd/uncworks/runs.go:6923-7038] runRunsCost *)
Definition runRunsCost (args : list string) : cli (list shown) :=
  p ← parse_or_exit fraction cost_flags args;
  since ← since_time w fraction (flag_string p "since" "");
  runs ← collected p PHASE_UNSPECIFIED false strictly (fun l =>
    let b := broken (fun r => match since with Some t => before t r | None => false end) l in
    (keep_if (fun r => filter_by (flag_string p "model" "") (fun m r => contains_fold (tier_of r) m) r) b.1, b.2));
  mret (show_cost p runs).

(** ** Runs over time *)

Definition histogram_flags : flagset :=
  [("server", KString); ("since", KString); ("project", KString); ("feature", KString); ("tag", KString); ("buckets", KInt);
   ("no-color", KBool); ("json", KBool); ("sparkline", KBool)].

(** [cmd/uncworks/runs.go:4157-4167] runRunsHistogram: the number of buckets *)
Definition num_buckets (buckets d : Z) : Z :=
  if 0 <? buckets then buckets else if d <=? day then 24 else if d <=? 7 * day then 7 else 30.

(** When a run was started, or else made. *)
Definition activity_ns (r : PRun) : Z := default (created_ns r) (started_ns r).

(** [cmd/uncworks/runs.go:4195-4222] runRunsHistogram: the runs of a page with their buckets; a bucket of no length divides by zero *)
Fixpoint bucket_page (since size : Z) (n : Z) (acc : list (Z * PRun)) (l : list PRun) : cli (list (Z * PRun) * bool) :=
  match l with
  | [] => mret (acc, false)
  | r :: l =>
      if activity_ns r <? since then mret (acc, true)
      else
        t1 ← now; t2 ← now;
        if size =? 0 then panics
        else
          let idx := Z.quot ((t1 - since) - (t2 - activity_ns r)) size in
          let idx := if idx <? 0 then 0 else idx in
          bucket_page since size n (acc ++ [(if n <=? idx then n - 1 else idx, r)]) l
  end.

Definition in_bucket (i : Z) (rs : list (Z * PRun)) : list PRun := snd <$> filter (fun ir => ir.1 = i) rs.

Definition sparks : list string := ["▁"; "▂"; "▃"; "▄"; "▅"; "▆"; "▇"; "█"].

(** [cmd/uncworks/runs.go:4270-4283] runRunsHistogram: a character of the line *)
Definition spark (max n : Z) : string :=
  if n =? 0 then " "
  else if max =? 0 then "▁"
  else
    let idx := float_to_Z (fadd (fmul (fdiv (float_of_Z n) (float_of_Z max)) (float_of_Z 7)) (fdiv (float_of_Z 1) (float_of_Z 2))) in
    nth (Z.to_nat (if 8 <=? idx then 7 else idx)) sparks "".

(** [cmd/uncworks/runs.go:4297-4340] runRunsHistogram: a line of the chart *)
Definition chart_line (since size max i : Z) (runs : list PRun) : shown :=
  let start := since + i * size in
  let label := Format (if day <=? size then "01/02" else if hour <=? size then "15:04" else "01/02 15:04") start in
  let n := len_of runs in
  let mark count sign := if 0 <? count then [Itoa count +:+ sign] else [] in
  let extras := mark (in_phase PHASE_SUCCEEDED runs) "✓" ++ mark (in_phase PHASE_FAILED runs) "✗" in
  Line ("  " +:+ label +:+ " │" +:+ pad 30 (bar (bar_len n max 30)) +:+ " " +:+ Itoa n +:+
        match extras with [] => "" | _ => " (" +:+ Join extras " " +:+ ")" end).

(** [cmd/uncworks/runs.go:4229-4347] runRunsHistogram: what is shown *)
Definition show_histogram (p : parsed) (since size n : Z) (rs : list (Z * PRun)) : cli (list shown) :=
  let buckets := (fun i => in_bucket i rs) <$> (Z.of_nat <$> seq 0 (Z.to_nat n)) in
  let counts := len_of <$> buckets in
  let max := largest counts in
  let total := Itoa (sum counts) in
  if flag_bool p "json" then
    mret [VJSON (VList (imap (fun i runs =>
      let start := since + Z.of_nat i * size in
      VFields [("start", VText (FormatUTC RFC3339 start)); ("end", VText (FormatUTC RFC3339 (start + size))); ("count", VInt (len_of runs));
        ("done", VInt (in_phase PHASE_SUCCEEDED runs)); ("failed", VInt (in_phase PHASE_FAILED runs));
        ("running", VInt (in_phase PHASE_RUNNING runs))]) buckets))]
  else if flag_bool p "sparkline" then
    t ← now;
    mret [Line (Join (spark max <$> counts) "" +:+ "  (" +:+ Format "01/02 15:04" since +:+ " to " +:+ Format "01/02 15:04" t +:+ ", " +:+
                total +:+ " runs)")]
  else
    mret ([Line ("Run activity — last " +:+ flag_string p "since" "24h" +:+ "  (bucket size: " +:+ DurationString (Round minute size) +:+ ")"); Line ""] ++
          imap (fun i runs => chart_line since size max (Z.of_nat i) runs) buckets ++ [Line ""; Line ("Total: " +:+ total +:+ " runs")]).

(** [cmd/uncworks/runs.go:4132-4348] runRunsHistogram *)
Definition runRunsHistogram (args : list string) : cli (list shown) :=
  p ← parse_or_fail fraction "runs histogram" histogram_flags args;
  win ← window_start (flag_string p "since" "24h");
  let n := num_buckets (flag_int p "buckets" 0) win.1 in
  let size := Z.quot win.1 n in
  rs ← scan fuel (base_of p) (fun _ => hundred PHASE_UNSPECIFIED false p) leniently (bucket_page win.2 size n) [] "";
  show_histogram p win.2 size n rs.

Definition timeline_flags : flagset :=
  [("server", KString); ("since", KString); ("project", KString); ("feature", KString); ("tag", KString); ("limit", KInt); ("phase", KString);
   ("no-color", KBool); ("json", KBool)].

(** [cmd/uncworks/runs.go:6075-6089] runRunsTimeline: the phase; without one every final phase is shown *)
Definition timeline_phase (word : string) : cli PPhase :=
  let u := ToUpper word in
  if String.eqb word "" then mret PHASE_UNSPECIFIED
  else if String.eqb u "DONE" || String.eqb u "SUCCEEDED" then mret PHASE_SUCCEEDED
  else if String.eqb u "FAILED" then mret PHASE_FAILED
  else if String.eqb u "CANCELLED" then mret PHASE_CANCELLED
  else fails "invalid input: --phase must be DONE, FAILED, or CANCELLED".

(** A page behind which there are enough runs; a limit below zero is out of range. *)
Definition limited_page (limit : Z) (f : list PRun -> list PRun * bool) (acc : list PRun) (l : list PRun) : cli (list PRun * bool) :=
  let acc := acc ++ (f l).1 in
  if limit <=? len_of acc then (if limit <? 0 then panics else mret (take (Z.to_nat limit) acc, true)) else mret (acc, (f l).2).

(** [cmd/uncworks/runs.go:6107-6118] runRunsTimeline: the runs that are shown *)
Definition on_timeline (since : Z) (anyPhase : bool) (r : PRun) : bool :=
  match completed_ns r with Some c => since <? c | None => false end && (negb anyPhase || isTerminal (phase_of r)).

(** [cmd/uncworks/runs.go:6132-6142] runRunsTimeline: the comparison *)
Definition completed_before_other (a b : PRun) : bool :=
  match completed_ns a, completed_ns b with None, _ => true | Some _, None => false | Some x, Some y => x <? y end.

(** [cmd/uncworks/runs.go:6144-6224] runRunsTimeline: what is shown *)
Definition show_timeline (p : parsed) (runs : list PRun) : cli (list shown) :=
  let since := flag_string p "since" "24h" in
  match runs with
  | [] => mret [if flag_bool p "json" then VJSON (VList []) else Line ("No completed runs in the last " +:+ since +:+ ".")]
  | _ =>
      if flag_bool p "json" then
        rows ← rows_of (fun r =>
          dur ← runDuration r;
          mret (VFields ([("id", VText (pn_Id r)); ("phase", VText (label_of r)); ("duration", VText dur); ("project", VText (ps_Project (pn_Spec r)));
            ("feature", VText (ps_Feature (pn_Spec r))); ("title", VText (title_of r))] ++
            match completed_ns r with Some c => [("completed_at", VText (FormatUTC RFC3339 c))] | None => [] end))) runs;
        mret [VJSON (VList rows)]
      else
        rows ← rows_of (fun r =>
          at_ ← match completed_ns r with Some c => age_of c | None => mret "—" end;
          dur ← runDuration r;
          mret [at_; pn_Id r; label_of r; dur; ps_Project (pn_Spec r); cut_at 40 (title_of r)]) runs;
        mret [Line ("Timeline: " +:+ Itoa (len_of runs) +:+ " completed run(s) in the last " +:+ since); Line "";
              Table ["COMPLETED"; "ID"; "PHASE"; "DURATION"; "PROJECT"; "TITLE"] rows]
  end.

(** [cmd/uncworks/runs.go:6043-6225] runRunsTimeline *)
Definition runRunsTimeline (args : list string) : cli (list shown) :=
  p ← parse_or_fail fraction "runs timeline" timeline_flags args;
  win ← window_start (flag_string p "since" "24h");
  phase ← timeline_phase (flag_string p "phase" "");
  let keep := on_timeline win.2 (String.eqb (flag_string p "phase" "") "") in
  runs ← scan fuel (base_of p) (fun _ => hundred phase false p) leniently
           (limited_page (flag_int p "limit" 100) (fun l => (keep_if keep l, false))) [] "";
  show_timeline p (sort_slice PRun completed_before_other runs).

(** ** Finding runs *)

Definition search_flags : flagset :=
  [("server", KString); ("phase", KString); ("project", KString); ("feature", KString); ("tag", KString); ("since", KString); ("limit", KInt);
   ("no-color", KBool); ("json", KBool)].

(** [cmd/uncworks/runs.go:5912-5926] runRunsSearch: the phase; another word is no phase *)
Definition search_phase (word : string) : PPhase :=
  let u := ToUpper word in
  if String.eqb u "RUNNING" then PHASE_RUNNING
  else if String.eqb u "DONE" || String.eqb u "SUCCEEDED" then PHASE_SUCCEEDED
  else if String.eqb u "FAILED" then PHASE_FAILED
  else if String.eqb u "PENDING" then PHASE_PENDING
  else if String.eqb u "CANCELLED" then PHASE_CANCELLED
  else PHASE_UNSPECIFIED.

(** [cmd/uncworks/runs.go:5950-5955] runRunsSearch: whether a run has the text, which is in lower case *)
Definition mentions (query : string) (r : PRun) : bool :=
  Contains (ToLower (ps_Prompt (pn_Spec r))) query || Contains (ToLower (ps_DisplayName (pn_Spec r))) query ||
  Contains (ToLower (ps_Project (pn_Spec r))) query.

(** [cmd/uncworks/runs.go:5967-6038] runRunsSearch: what is shown *)
Definition show_search (p : parsed) (query : string) (runs : list PRun) : cli (list shown) :=
  if flag_bool p "json" then
    mret [VJSON match runs with
                | [] => VNull
                | _ => VList ((fun r => VFields [("id", VText (pn_Id r)); ("title", VText (title_of r)); ("project", VText (ps_Project (pn_Spec r)));
                         ("phase", VText (label_of r)); ("created_at", VText (FormatUTC RFC3339 (created_ns r)))]) <$> runs)
                end]
  else match runs with
       | [] => mret [Line ("No runs found matching " +:+ Quote query +:+ " in the last " +:+ flag_string p "since" "7d" +:+ ".")]
       | _ =>
           rows ← rows_of (fun r =>
             age ← age_of (created_ns r); mret [pn_Id r; label_of r; ps_Project (pn_Spec r); age; cut_at 45 (title_of r)]) runs;
           mret [Line ("Found " +:+ Itoa (len_of runs) +:+ " run(s) matching " +:+ Quote query +:+ ":"); Line "";
                 Table ["ID"; "PHASE"; "PROJECT"; "AGE"; "TITLE"] rows]
       end.

(** [cmd/uncworks/runs.go:5875-6039] runRunsSearch *)
Definition runRunsSearch (args : list string) : cli (list shown) :=
  p ← parse_or_fail fraction "runs search" search_flags args;
  match pa_args p with
  | [] => fails "invalid input: search term required"
  | words =>
      let query := ToLower (Join words " ") in
      win ← window_start (flag_string p "since" "7d");
      runs ← scan fuel (base_of p) (fun _ => hundred (search_phase (flag_string p "phase" "")) false p) leniently
               (limited_page (flag_int p "limit" 50)
                  (fun l => let k := passed (not_after win.2) l in (keep_if (mentions query) k.1, k.2))) [] "";
      show_search p query runs
  end.

Definition group_flags : flagset :=
  [("server", KString); ("by", KString); ("since", KString); ("phase", KString); ("project", KString); ("feature", KString); ("tag", KString);
   ("limit", KInt); ("no-color", KBool); ("title-width", KInt); ("json", KBool); ("count-only", KBool)].

(** [cmd/uncworks/runs.go:5679-5706] runRunsGroup: the groups that a run is in, by the dimension *)
Definition group_keys (by_ : string) (r : PRun) : list string :=
  if String.eqb by_ "project" then project_key "(no project)" r
  else if String.eqb by_ "feature" then feature_key "(no feature)" r
  else if String.eqb by_ "tag" then tag_keys r
  else model_key "(no model)" r.

(** [cmd/uncworks/runs.go:5666-5678] runRunsGroup: the runs of a page, up to one that is too old or too many *)
Fixpoint group_page (since : option Z) (limit : Z) (acc l : list PRun) : list PRun * bool :=
  match l with
  | [] => (acc, false)
  | r :: l =>
      if match since with Some t => not_after t r | None => false end then (acc, true)
      else if (0 <? limit) && (limit <=? len_of acc) then (acc, true)
      else group_page since limit (acc ++ [r]) l
  end.

(** [cmd/uncworks/runs.go:5707-5712] runRunsGroup: the groups in the order in which they are met, with the runs of each *)
Definition groups_of (keys : PRun -> list string) (runs : list PRun) : list (string * list PRun) :=
  let pairs := runs ≫= (fun r => (fun k => (k, r)) <$> keys r) in
  (fun k => (k, snd <$> filter (fun kr => kr.1 = k) pairs)) <$> rev (remove_dups (rev pairs.*1)).

(** [cmd/uncworks/runs.go:5721-5847] runRunsGroup: what is shown *)
Definition show_groups (p : parsed) (total : Z) (groups : list (string * list PRun)) : cli (list shown) :=
  let summary := Line ("Total: " +:+ Itoa total +:+ " run(s) in " +:+ Itoa (len_of groups) +:+ " group(s)") in
  match groups with
  | [] => mret [if flag_bool p "json" then VJSON (VFields [("groups", VList [])]) else Line "No runs found."]
  | _ =>
      if flag_bool p "json" then
        gs ← rows_of (fun g =>
          rows ← rows_of (fun r =>
            age ← age_of (created_ns r);
            dur ← runDuration r;
            mret (VFields [("id", VText (pn_Id r)); ("title", VText (title_of r)); ("phase", VText (label_of r)); ("duration", VText dur);
              ("age", VText age)])) g.2;
          mret (VFields [("key", VText g.1); ("runs", VList rows)])) groups;
        mret [VJSON (VFields [("groups", VList gs); ("total", VInt total)])]
      else if flag_bool p "count-only" then
        mret [Table ["GROUP"; "COUNT"] ((fun g => [g.1; Itoa (len_of g.2)]) <$> groups); Line ""; summary]
      else
        let width := flag_int p "title-width" 36 in
        let tw := Z.to_nat (if width <? 10 then 10 else width) in
        parts ← rows_of (fun g =>
          rows ← rows_of (fun r =>
            dur ← runDuration r;
            age ← age_of (created_ns r);
            mret ["  " +:+ pn_Id r; pad tw (cut_at tw (title_of r)); label_of r; dur; age]) g.2;
          let header := "── " +:+ g.1 +:+ " (" +:+ Itoa (len_of g.2) +:+ " run" +:+ (if len_of g.2 =? 1 then "" else "s") +:+ ")" in
          mret [Line header; Table [] rows]) groups;
        mret (List.concat (imap (fun i part => match i with O => part | _ => Line "" :: part end) parts) ++ [Line ""; summary])
  end.

(** [cmd/uncworks/runs.go:5590-5848] runRunsGroup *)
Definition runRunsGroup (args : list string) : cli (list shown) :=
  p ← parse_or_fail fraction "runs group" group_flags args;
  let by_ := flag_string p "by" "project" in
  if negb (bool_decide (by_ ∈ ["project"; "feature"; "tag"; "model"])) then
    fails "invalid input: --by must be one of: project, feature, tag, model"
  else
    since ← since_time w fraction (flag_string p "since" "");
    let phase := default PHASE_UNSPECIFIED (phase_named (flag_string p "phase" "")) in
    runs ← scan fuel (base_of p) (fun _ => hundred phase false p) leniently
             (fun acc l => mret (group_page since (flag_int p "limit" 200) acc l)) [] "";
    show_groups p (len_of runs) (groups_of (group_keys by_) runs).

(** ** What is going on *)

Definition top_flags : flagset :=
  [("server", KString); ("interval", KInt); ("project", KString); ("feature", KString); ("tag", KString); ("title-contains", KString);
   ("phase", KString); ("limit", KInt); ("no-color", KBool); ("one-shot", KBool); ("json", KBool)].

(** [cmd/uncworks/runs.go:5120-5136] runRunsTop: the runs that are shown *)
Definition on_top (p : parsed) (r : PRun) : bool :=
  let wanted := ToUpper (flag_string p "phase" "") in
  active (phase_of r) &&
  (String.eqb wanted "" || EqualFold (label_of r) wanted || HasPrefix (ToUpper (label_of r)) wanted) &&
  filter_by (flag_string p "title-contains" "") (fun t r => contains_fold (ps_DisplayName (pn_Spec r)) t) r.

(** An error is printed, and ends the listing. *)
Definition noisily {A} (e : rpc_error) (acc : A) : cli A := Println ("error: " +:+ humanizeErr e);; mret acc.

(** [cmd/uncworks/runs.go:5103-5155] runRunsTop: the active runs, the longest running first *)
Definition top_runs (p : parsed) : cli (list PRun) :=
  runs ← collected p PHASE_UNSPECIFIED false noisily (fun l => (keep_if (on_top p) l, false));
  mret (sort_slice PRun (by_start Z.ltb) runs).

(** [cmd/uncworks/runs.go:5157-5231] runRunsTop: what is shown *)
Definition show_top (p : parsed) (runs : list PRun) : cli (list shown) :=
  let shown_ := limited (flag_int p "limit" 30) runs in
  if flag_bool p "json" then
    rows ← rows_of (fun r =>
      dur ← runDuration r;
      mret (VFields [("id", VText (pn_Id r)); ("phase", VText (label_of r)); ("elapsed", VText dur); ("stage", VText (px_Stage (pn_Status r)));
        ("title", VText (title_of r)); ("project", VText (ps_Project (pn_Spec r))); ("feature", VText (ps_Feature (pn_Spec r)));
        ("model_tier", VText (ps_ModelTier (pn_Spec r)))])) shown_;
    mret [VJSON (VList rows)]
  else match runs with
       | [] => mret [Line "No active runs."]
       | _ =>
           rows ← rows_of (fun r =>
             dur ← runDuration r; mret [pn_Id r; dur; label_of r; px_Stage (pn_Status r); cut_at 40 (title_of r)]) shown_;
           mret [Table ["ID"; "ELAPSED"; "PHASE"; "STAGE"; "TITLE"] rows; Line ""; Line ("Total active: " +:+ Itoa (len_of runs))]
       end.

(** [cmd/uncworks/runs.go:5044-5238] runRunsTop: one refresh *)
Definition runRunsTop (args : list string) : cli (list shown) :=
  p ← parse_or_fail fraction "runs top" top_flags args;
  header ← (if flag_bool p "json" then mret []
            else
              t ← now;
              let wanted := ToUpper (flag_string p "phase" "") in
              mret [Line ("uncworks runs top — " +:+ Format "15:04:05" t +:+ "  (Ctrl+C to stop)" +:+
                          (if String.eqb wanted "" then "" else "  [phase:" +:+ wanted +:+ "]")); Line ""]);
  runs ← top_runs p;
  shown_ ← show_top p runs;
  mret (header ++ shown_).

Definition summary_flags : flagset :=
  [("server", KString); ("since", KString); ("project", KString); ("watch", KBool); ("interval", KInt)].

(** A run in a list of a summary. *)
Definition summary_line (at_ : option Z) (r : PRun) : cli shown :=
  age ← match at_ with Some t => a ← age_of t; mret ("  " +:+ a) | None => mret "" end;
  mret (Line ("  " +:+ pn_Id r +:+ "  " +:+ pad 40 (cut_at 40 (title_of r)) +:+ "  " +:+ label_of r +:+ age)).

(** A list under a heading, unless it is empty. *)
Definition under (heading : string) (rows : list shown) : list shown := match rows with [] => [] | _ => Line "" :: Line heading :: rows end.

(** [cmd/uncworks/runs.go:4703-4713] runRunsSummary: the phases, with whole percents *)
Definition summary_phases (runs : list PRun) : list (list string) :=
  let total := len_of runs in
  (fun kv : string * Z => let pct := kv.2 * 100 / total in ["  " +:+ kv.1; Itoa kv.2; "(" +:+ Itoa pct +:+ "%)"; bar (pct / 5)]) <$>
    phase_rows ["RUNNING"; "PENDING"; "WAITING"; "DONE"; "FAILED"; "CANCELLED"] (counted (fun r => [label_of r]) runs).

(** [cmd/uncworks/runs.go:4715-4741] runRunsSummary: the projects with the most runs *)
Definition summary_projects (runs : list PRun) : list shown :=
  let named := counted (fun r => if String.eqb (ps_Project (pn_Spec r)) "" then [] else [ps_Project (pn_Spec r)]) runs in
  match take 5 (ranking named) with
  | [] => []
  | top => [Line ""; Line "Top projects:";
            Table [] ((fun kv : string * Z => ["  " +:+ kv.1; Itoa kv.2; "(" +:+ Itoa (kv.2 * 100 / len_of runs) +:+ "%)"]) <$> top)]
  end.

(** [cmd/uncworks/runs.go:4782-4799] runRunsSummary: the runs that failed *)
Definition failure_row (r : PRun) : cli (list string) :=
  age ← match completed_ns r with Some t => age_of t | None => mret "" end;
  mret ["  " +:+ pn_Id r; pad 30 (cut_at 30 (title_of r)); age; cut_at 60 (px_Message (pn_Status r))].

(** [cmd/uncworks/runs.go:4611-4804] runRunsSummary: doSummary *)
Definition doSummary (p : parsed) (d : Z) : cli (list shown) :=
  t ← now;
  let project := flag_string p "project" "" in
  runs ← collected p PHASE_UNSPECIFIED false leniently (fun l => (keep_if (fun r => negb (not_after (t - d) r)) l, false));
  let heading := [Line ("Runs in the last " +:+ flag_string p "since" "24h" +:+
                        (if String.eqb project "" then "" else " (project: " +:+ project +:+ ")") +:+ ":"); Line ""] in
  match runs with
  | [] => mret (heading ++ [Line "  No runs found."])
  | _ =>
      let over := filter (fun r => isTerminal (phase_of r) = true) runs in
      let activeRuns := filter (fun r => active (phase_of r) = true) runs in
      rows_a ← rows_of (fun r => summary_line (Some (created_ns r)) r) activeRuns;
      rows_c ← rows_of (fun r => summary_line (completed_ns r) r) (take 5 over);
      rows_f ← rows_of failure_row (take 5 (filter (fun r => phase_of r = PHASE_FAILED) runs));
      mret (heading ++ [Table [] (summary_phases runs ++ [["  ─────────────"; ""; ""; ""]; ["  TOTAL"; Itoa (len_of runs); ""; ""]])] ++
            (if String.eqb project "" then summary_projects runs else []) ++
            under ("Active runs (" +:+ Itoa (len_of activeRuns) +:+ "):") rows_a ++ under "Recent completions:" rows_c ++
            match rows_f with [] => [] | _ => [Line ""; Line "Recent failures:"; Table [] rows_f] end)
  end.

(** [cmd/uncworks/runs.go:4584-4820] runRunsSummary: one refresh *)
Definition runRunsSummary (args : list string) : cli (list shown) :=
  p ← parse_or_fail fraction "runs summary" summary_flags args;
  match parseSinceDuration fraction (flag_string p "since" "24h") with
  | Err e => fails ("--since " +:+ Quote (flag_string p "since" "24h") +:+ ": " +:+ e)
  | Ok d =>
      header ← (if flag_bool p "watch" then
                  t ← now;
                  mret [Line ("runs summary — " +:+ Format "15:04:05" t +:+ "  (every " +:+ Itoa (flag_int p "interval" 10) +:+ "s, Ctrl+C to stop)");
                        Line ""]
                else mret []);
      shown_ ← doSummary p d;
      mret (header ++ shown_)
  end.

(** ** Statistics *)

Definition stats_flags : flagset :=
  [("server", KString); ("project", KString); ("feature", KString); ("tag", KString); ("format", KString); ("limit", KInt); ("since", KString);
   ("reason-length", KInt); ("by-project", KBool); ("by-model", KBool); ("by-feature", KBool); ("by-tag", KBool); ("trend", KBool);
   ("model", KString)].

(** [cmd/uncworks/runs.go:2253-2263] runRunsStats: the request, for as many runs as the limit leaves *)
Definition stats_query (p : parsed) (acc : list PRun) (cursor : string) : ListAgentRunsRequest :=
  let limit := flag_int p "limit" 0 in
  let left := limit - len_of acc in
  let q := hundred PHASE_UNSPECIFIED false p cursor in
  {| lq_Limit := if (0 <? limit) && (left <? 100) then to_int32 left else 100; lq_Cursor := cursor; lq_PhaseFilter := lq_PhaseFilter q;
     lq_ParentRunId := lq_ParentRunId q; lq_StageFilter := lq_StageFilter q; lq_TagFilter := lq_TagFilter q; lq_SpecRunId := lq_SpecRunId q;
     lq_ProjectFilter := lq_ProjectFilter q; lq_FeatureFilter := lq_FeatureFilter q; lq_IncludeArchived := lq_IncludeArchived q |}.

(** [cmd/uncworks/runs.go:2252-2334] runRunsStats: the runs that are counted *)
Definition stats_runs (p : parsed) (since : option Z) : cli (list PRun) :=
  let limit := flag_int p "limit" 0 in
  scan fuel (base_of p) (stats_query p) strictly (fun acc l =>
    let k := match since with Some t => passed (not_after t) l | None => (l, false) end in
    let acc := acc ++ keep_if (model_matches (flag_string p "model" "")) k.1 in
    mret (acc, ((0 <? limit) && (limit <=? len_of acc)) || k.2)) [] "".

(** [cmd/uncworks/runs.go:2340-2349] runRunsStats: the median *)
Definition median (ds : list Z) : Z :=
  let mid := Nat.div (length ds) 2 in
  if Nat.even (length ds) then Z.quot (nth (Nat.pred mid) ds 0 + nth mid ds 0) 2 else nth mid ds 0.
(** [cmd/uncworks/runs.go:2351-2360] runRunsStats: the average *)
Definition average (ds : list Z) : Z := Z.quot (sum ds) (len_of ds).
(** [cmd/uncworks/runs.go:2362-2371] runRunsStats: the ninetieth percentile *)
Definition p90 (ds : list Z) : Z :=
  let idx := float_to_Z (fmul (float_of_Z (len_of ds)) (fdiv (float_of_Z 9) (float_of_Z 10))) in
  nth (Z.to_nat (if len_of ds <=? idx then len_of ds - 1 else idx)) ds 0.

(** [cmd/uncworks/runs.go:2386-2411] runRunsStats: the most frequent reasons *)
Definition top_reasons (p : parsed) (runs : list PRun) : list (string * Z) :=
  let n := flag_int p "reason-length" 120 in
  (fun rc : string * Z => (if (0 <? n) && (n <? len rc.1) then str_take (Z.to_nat n) rc.1 +:+ "..." else rc.1, rc.2)) <$>
    take 5 (ranking (counted (fun r => [or_else (px_Message (pn_Status r)) "(no message)"]) (filter (fun r => phase_of r = PHASE_FAILED) runs))).

(** The breakdowns that are asked for: the flag, the key in JSON, the label, and the counts. *)
Definition breakdowns (p : parsed) (runs : list PRun) : list (string * string * gmap string Z) :=
  (if flag_bool p "by-project" then [("by_project", "Project", counted (project_key "(none)") runs)] else []) ++
  (if flag_bool p "by-model" then [("by_model", "Model", counted (model_key "default") runs)] else []) ++
  (if flag_bool p "by-feature" then [("by_feature", "Feature", counted (feature_key "(none)") runs)] else []) ++
  (if flag_bool p "by-tag" then [("by_tag", "Tag", counted tag_keys runs)] else []).

(** Every label with its count; those of the six phases are there from the start. *)
Definition stats_order : list string := ["RUNNING"; "PENDING"; "WAITING"; "DONE"; "FAILED"; "CANCELLED"].
Definition stats_counts (runs : list PRun) : gmap string Z := counted (fun r => [label_of r]) runs ∪ list_to_map ((fun l => (l, 0)) <$> stats_order).

(** [cmd/uncworks/runs.go:2376-2441] runRunsStats: JSON *)
Definition stats_json (p : parsed) (runs : list PRun) (ds : list Z) : jvalue :=
  let reasons := (fun rc : string * Z => VFields [("reason", VText rc.1); ("count", VInt rc.2)]) <$> top_reasons p runs in
  VFields ([("total", VInt (len_of runs)); ("phases", VCounts (stats_counts runs));
            ("success_rate", VFloat (success_rate (in_phase PHASE_SUCCEEDED runs) (in_phase PHASE_FAILED runs)));
            ("top_failure_reasons", match reasons with [] => VNull | _ => VList reasons end)] ++
    (if match ds with [] => false | _ => 0 <=? median ds end then
       [("median_duration_seconds", VFloat (Seconds (median ds))); ("avg_duration_seconds", VFloat (Seconds (average ds)));
        ("p90_duration_seconds", VFloat (Seconds (p90 ds)))]
     else []) ++
    (if String.eqb (flag_string p "since" "") "" then [] else [("window", VText (flag_string p "since" ""))]) ++
    ((fun b => (b.1.1, VCounts b.2)) <$> breakdowns p runs)).

(** [cmd/uncworks/runs.go:2443-2567] runRunsStats: the tables *)
Definition stats_tables (p : parsed) (runs : list PRun) (ds : list Z) : list shown :=
  let total := len_of runs in
  let since := flag_string p "since" "" in
  let count ph := default 0 (stats_counts runs !! ph) in
  let max := largest (count <$> stats_order) in
  let done_ := in_phase PHASE_SUCCEEDED runs in
  let failed := in_phase PHASE_FAILED runs in
  let pct n := if 0 <? total then percent n total else float_of_Z 0 in
  let row name d := Line (name +:+ DurationString (Round second d)) in
  [Line ((if String.eqb since "" then "Stats (all time)" else "Stats (last " +:+ since +:+ ")") +:+ " — Total: " +:+ Itoa total); Line "";
   Table ["PHASE"; "COUNT"; "PCT"; "BAR"]
     ((fun ph => [ph; Itoa (count ph); fixed 1 (pct (count ph)) +:+ "%"; bar (bar_len (count ph) max 20)]) <$> stats_order)] ++
  (if 0 <? done_ + failed then
     [Line ""; Line ("Success rate: " +:+ fixed 1 (percent done_ (done_ + failed)) +:+ "% (" +:+ Itoa done_ +:+ "/" +:+ Itoa (done_ + failed) +:+
                     " completed runs)")]
   else []) ++
  (if match ds with [] => false | _ => 0 <=? median ds end then
     [row "Avg duration:    " (average ds); row "Median duration: " (median ds); row "P90 duration:    " (p90 ds)]
   else if 0 <? done_ then [Line "Duration: —"] else []) ++
  under "Top failure reasons:"
    (imap (fun i (rc : string * Z) => Line ("  " +:+ Itoa (Z.of_nat (Datatypes.S i)) +:+ ". " +:+ rc.1 +:+ " (" +:+ Itoa rc.2 +:+ " run" +:+
                           (if rc.2 =? 1 then "" else "s") +:+ ")")) (top_reasons p runs)) ++
  (breakdowns p runs ≫= (fun b =>
     match ranking b.2 with
     | [] => []
     | rows => [Line ""; Line (b.1.2 +:+ " breakdown:");
                Table [] ((fun kv : string * Z => ["  " +:+ kv.1; Itoa kv.2; "(" +:+ fixed 1 (pct kv.2) +:+ "%)"]) <$> rows)]
     end)).

Definition trend_arrow (cur prev : Z) : string := if prev <? cur then "↑" else if cur <? prev then "↓" else "→".

(** [cmd/uncworks/runs.go:2569-2627] runRunsStats: the trend *)
Definition stats_trend (p : parsed) (since : Z) (runs : list PRun) : cli (list shown) :=
  let window := flag_string p "since" "" in
  let d := match parseSinceDuration fraction window with Ok d => d | Err _ => 0 end in
  prev ← collected p PHASE_UNSPECIFIED false leniently
           (fun l => (keep_if (fun r => (since - d <? created_ns r) && (created_ns r <? since)) l, false));
  let done_ := in_phase PHASE_SUCCEEDED in
  let failed := in_phase PHASE_FAILED in
  let row name cur old := Line ("  " +:+ name +:+ Itoa cur +:+ " " +:+ trend_arrow cur old +:+ " " +:+ Itoa old) in
  mret ([Line ""; Line ("Trend vs previous " +:+ window +:+ ":"); row "Total:   " (len_of runs) (len_of prev);
         row "Done:    " (done_ runs) (done_ prev); row "Failed:  " (failed runs) (failed prev)] ++
        (if (0 <? done_ runs + failed runs) && (0 <? done_ prev + failed prev) then
           let cur := percent (done_ runs) (done_ runs + failed runs) in
           let old := percent (done_ prev) (done_ prev + failed prev) in
           [Line ("  Success: " +:+ fixed 1 cur +:+ "% " +:+ trend_arrow (float_to_Z cur) (float_to_Z old) +:+ " " +:+ fixed 1 old +:+ "%")]
         else [])).

(** [cmd/uncworks/runs.go:2193-2630] runRunsStats *)
Definition runRunsStats (args : list string) : cli (list shown) :=
  p ← parse_or_exit fraction stats_flags args;
  let format := flag_string p "format" "table" in
  if negb (bool_decide (format ∈ ["table"; "json"])) then
    fails ("invalid input: invalid format " +:+ Quote format +:+ ": must be table or json")
  else
    since ← since_time w fraction (flag_string p "since" "");
    runs ← stats_runs p since;
    let ds := sorted_durations (omap took (filter (fun r => phase_of r = PHASE_SUCCEEDED) runs)) in
    if String.eqb format "json" then mret [VJSON (stats_json p runs ds)]
    else
      trend ← match since with
              | Some t => if flag_bool p "trend" then stats_trend p t runs else mret []
              | None => mret []
              end;
      mret (stats_tables p runs ds ++ trend).

(** ** Runs one by one *)

(** A time in words, when there is one. *)
Definition maybe {A} (f : A -> cli string) (o : option A) : cli string := match o with Some a => f a | None => mret "" end.

Definition repo_of (r : PRun) : string := match ps_Repos (pn_Spec r) with repo :: _ => repo_URL repo | [] => "" end.
Definition branch_of (r : PRun) : string := match ps_Repos (pn_Spec r) with repo :: _ => repo_Branch repo | [] => "" end.

Definition iso (t : Z) : cli string := mret (FormatUTC RFC3339 t).

(** [cmd/uncworks/runs.go:1265-1338] runRunsGet: the value of a field *)
Definition field_value (r : PRun) (field : string) : option (cli string) :=
  let f := ToLower field in
  let one_of names := bool_decide (f ∈ names) in
  let st := pn_Status r in
  let sp := pn_Spec r in
  if one_of ["id"] then Some (mret (pn_Id r))
  else if one_of ["phase"] then Some (mret (label_of r))
  else if one_of ["title"; "name"] then Some (mret (ps_DisplayName sp))
  else if one_of ["model"; "model-tier"] then Some (mret (ps_ModelTier sp))
  else if one_of ["project"] then Some (mret (ps_Project sp))
  else if one_of ["feature"] then Some (mret (ps_Feature sp))
  else if one_of ["branch"] then Some (mret (branch_of r))
  else if one_of ["repo"] then Some (mret (repo_of r))
  else if one_of ["pr-url"; "pr"] then Some (mret (px_PrUrl st))
  else if one_of ["pod"] then Some (mret (px_PodName st))
  else if one_of ["prompt"] then Some (mret (ps_Prompt sp))
  else if one_of ["duration"] then Some (runDuration r)
  else if one_of ["message"; "status-message"] then Some (mret (px_Message st))
  else if one_of ["stage"] then Some (mret (px_Stage st))
  else if one_of ["age"; "created-at"] then Some (age_of (created_ns r))
  else if one_of ["created-at-iso"] then Some (iso (created_ns r))
  else if one_of ["completed-at"] then Some (maybe age_of (completed_ns r))
  else if one_of ["tags"] then Some (mret (Join (ps_Tags sp) ","))
  else if one_of ["parent"; "parent-run-id"; "parent-id"] then Some (mret (ps_ParentRunId sp))
  else if one_of ["started-at"] then Some (maybe age_of (started_ns r))
  else if one_of ["started-at-iso"] then Some (maybe iso (started_ns r))
  else if one_of ["completed-at-iso"] then Some (maybe iso (completed_ns r))
  else if one_of ["question"; "pending-question"] then
    Some (mret (if bool_decide (phase_of r = PHASE_WAITING_FOR_INPUT) then px_Message st else ""))
  else None.

Definition get_flags : flagset :=
  [("server", KString); ("log", KBool); ("logs", KBool); ("json", KBool); ("no-color", KBool); ("short", KBool); ("wait", KBool); ("poll", KInt);
   ("prompt-only", KBool); ("field", KString); ("last", KBool)].

(** The keys of a map, in order, with their values. *)
Definition sorted_env (m : list (string * string)) : list (string * string) :=
  (fun k => (k, default "" (snd <$> List.find (fun kv => String.eqb kv.1 k) m))) <$> sort_strings (remove_dups m.*1).

(** Each of several lines. *)
Fixpoint print_all (lines : list string) : cli unit := match lines with [] => mret tt | l :: lines => Println l;; print_all lines end.

(** [cmd/uncworks/runs.go:1417-1527] runRunsGet: the details of a run *)
Definition get_details (showLog : bool) (r : PRun) : cli unit :=
  let st := pn_Status r in
  let sp := pn_Spec r in
  Println ("ID:       " +:+ pn_Id r);;
  line_of "Title:    " (ps_DisplayName sp);;
  Println ("Phase:    " +:+ label_of r);;
  line_of (if bool_decide (phase_of r = PHASE_FAILED) then "ERROR:    " else "Message:  ") (px_Message st);;
  line_of "Project:  " (ps_Project sp);;
  line_of "Feature:  " (ps_Feature sp);;
  (match ps_Tags sp with [] => mret tt | tags => Println ("Tags:     " +:+ Join tags ", ") end);;
  line_of "Prompt:   " (ps_Prompt sp);;
  print_all ((fun repo => "Repo:     " +:+ repo_URL repo +:+ " @ " +:+ repo_Branch repo) <$> ps_Repos sp);;
  line_of "Model:    " (ps_ModelTier sp);;
  print_all ((fun kv : string * string => "Env:      " +:+ kv.1 +:+ "=" +:+ kv.2) <$> sorted_env (ps_EnvVars sp));;
  (match started_ns r with
   | Some t => n ← now; Println ("Started:  " +:+ FormatUTC RFC3339 t +:+ " (" +:+ DurationString (Round second (n - t)) +:+ " ago)")
   | None => mret tt
   end);;
  (match completed_ns r with Some t => Println ("Completed: " +:+ FormatUTC RFC3339 t) | None => mret tt end);;
  (match took r with Some d => Println ("Duration: " +:+ formatDuration d) | None => mret tt end);;
  line_of "Pod:      " (px_PodName st);;
  line_of "Stage:    " (px_Stage st);;
  (if 0 <? px_RetryCount st then Println ("Retries:  " +:+ Itoa (px_RetryCount st)) else mret tt);;
  line_of "Verify:   " (px_VerificationResult st);;
  line_of "PR:       " (px_PrUrl st);;
  cost_lines r;;
  line_of "Parent:   " (ps_ParentRunId sp);;
  (match pn_Children r with [] => mret tt | l => Println ("Children: " +:+ Join l ", ") end);;
  (if showLog && negb (String.eqb (px_LogOutput st) "") then print_all [""; "--- agent log ---"; px_LogOutput st] else mret tt).

Definition field_error (field : string) : string :=
  "invalid input: unknown field " +:+ Quote field +:+
  ": must be id, phase, title, model, project, feature, branch, repo, pr-url, pod, duration, prompt, message, stage, age, created-at, created-at-iso, started-at, started-at-iso, completed-at, completed-at-iso, parent, tags, or question".

(** [cmd/uncworks/runs.go:1260-1528] runRunsGet: what is shown of a run; JSON is an event *)
Definition show_run (p : parsed) (r : PRun) : cli ending :=
  let field := flag_string p "field" "" in
  if flag_bool p "prompt-only" then Println (ps_Prompt (pn_Spec r));; finish
  else if negb (String.eqb field "") then
    match field_value r field with
    | Some value => v ← value; Println v;; finish
    | None => fails (field_error field)
    end
  else if flag_bool p "json" then tell (EShown [r] "");; finish
  else if flag_bool p "short" then Println (pn_Id r +:+ "  " +:+ label_of r +:+ "  " +:+ title_of r);; finish
  else get_details (flag_bool p "log" || flag_bool p "logs") r;; finish.

(** [cmd/uncworks/runs.go:1160-1175] runRunsGet: the arguments that a run of several is shown with; [runs get] with [--poll] gives no [--json] *)
Definition get_args (p : parsed) (json : bool) (id : string) : list string :=
  let server := flag_string p "server" "" in
  let switch b name := if b : bool then [name] else [] in
  [id] ++ (if String.eqb server "" then [] else ["--server=" +:+ server]) ++ switch (flag_bool p "log" || flag_bool p "logs") "--log" ++
  switch (json && flag_bool p "json") "--json" ++ switch (flag_bool p "no-color") "--no-color" ++ switch (flag_bool p "short") "--short".

(** [cmd/uncworks/runs.go:1154-1181] runRunsGet: several runs, a blank line apart; the first error *)
Fixpoint get_all (get : string -> cli ending) (first : bool) (ids : list string) (firstErr : result unit) : cli ending :=
  match ids with
  | [] => return_ (Returned firstErr)
  | id :: ids =>
      (if first then mret tt else Println "");;
      r ← attempt (get id);
      get_all get false ids (match firstErr with Ok _ => r | Err _ => firstErr end)
  end.

(** [cmd/uncworks/runs.go:1186-1224] runRunsGet: showing a run again and again, until it is over *)
Fixpoint get_poll (rounds : nat) (get : cli ending) (base id : string) (poll : Z) : cli ending :=
  match rounds with
  | O => return_ Unfinished
  | Datatypes.S rounds =>
      _ ← attempt get;
      resp ← GetAgentRun_ w base id;
      if match resp with inr r => isTerminal (phase_of r) | inl _ => false end then finish
      else
        print_all [""; "(refreshing every " +:+ Itoa poll +:+ "s — Ctrl+C to stop)"];;
        get_poll rounds get base id poll
  end.

(** [cmd/uncworks/runs.go:1226-1256] runRunsGet: the run, and the wait for it *)
Definition get_run (wait : list string -> cli ending) (p : parsed) (id : string) : cli PRun :=
  let base := base_of p in
  let server := flag_string p "server" "" in
  resp ← GetAgentRun_ w base id;
  r ← must resp;
  if flag_bool p "wait" && active (phase_of r) then
    _ ← attempt (wait ([id] ++ (if String.eqb server "" then [] else ["--server=" +:+ server]) ++ ["--quiet"]));
    resp ← GetAgentRun_ w base id;
    must resp
  else mret r.

(** [cmd/uncworks/runs.go:1102-1529] runRunsGet: calls itself for the latest run and for each of several *)
Fixpoint runRunsGet (wait : list string -> cli ending) (depth : nat) (args : list string) : cli ending :=
  match depth with
  | O => return_ Unfinished
  | Datatypes.S depth =>
      let args := normalizeRunArgs args in
      p ← parse_or_exit fraction get_flags args;
      match pa_args p with
      | [] =>
          if flag_bool p "last" then
            id ← latest w (base_of p);
            runRunsGet wait depth (filter (fun a => a <> "--last" /\ a <> "-last") args ++ [id])
          else fails "invalid input: run ID argument required"
      | [id] =>
          let poll := flag_int p "poll" 0 in
          if 0 <? poll then get_poll fuel (runRunsGet wait depth (get_args p false id)) (base_of p) id poll
          else r ← get_run wait p id; show_run p r
      | ids => get_all (fun id => runRunsGet wait depth (get_args p true id)) true ids (Ok tt)
      end
  end.

Definition latest_flags : flagset :=
  [("server", KString); ("phase", KString); ("project", KString); ("feature", KString); ("tag", KString); ("n", KInt); ("json", KBool);
   ("log", KBool); ("ids-only", KBool)].

(** [cmd/uncworks/runs.go:3843-3856] runRunsLatest: the phase; another word is no phase *)
Definition latest_phase (word : string) : PPhase :=
  if String.eqb (ToUpper word) "WAITING" then PHASE_UNSPECIFIED else default PHASE_UNSPECIFIED (phase_named word).

(** [cmd/uncworks/runs.go:3875-3893] runRunsLatest: each run is shown, up to the first error *)
Fixpoint show_latest (get : list string -> cli ending) (p : parsed) (first : bool) (runs : list PRun) : cli ending :=
  match runs with
  | [] => finish
  | r :: runs =>
      let server := flag_string p "server" "" in
      (if first then mret tt else Println "");;
      and_then
        (get ([pn_Id r] ++ (if String.eqb server "" then [] else ["--server=" +:+ server]) ++
              (if flag_bool p "json" then ["--json"] else []) ++ (if flag_bool p "log" then ["--log"] else [])))
        (show_latest get p false runs)
  end.

(** [cmd/uncworks/runs.go:3810-3894] runRunsLatest *)
Definition runRunsLatest (get : list string -> cli ending) (args : list string) : cli ending :=
  p ← parse_or_exit fraction latest_flags args;
  let n := flag_int p "n" 1 in
  if n <? 1 then fails "invalid input: --n must be >= 1"
  else
    resp ← ListAgentRuns_ w (base_of p)
             (list_request (to_int32 n) (latest_phase (flag_string p "phase" "")) (flag_string p "project" "") (flag_string p "feature" "")
                (flag_string p "tag" "") "");
    pg ← must resp;
    match pg.1 with
    | [] => Println "No runs found.";; finish
    | runs => if flag_bool p "ids-only" then print_run_ids runs;; finish else show_latest get p true runs
    end.

Definition compare_flags : flagset := [("server", KString); ("json", KBool)].

(** [cmd/uncworks/runs.go:6276-6281] runRunsCompare: the branch that is shown *)
Definition branch_or_dash (r : PRun) : string := match ps_Repos (pn_Spec r) with repo :: _ => repo_Branch repo | [] => "—" end.

(** [cmd/uncworks/runs.go:6283-6343] runRunsCompare: the fields of a run, by their names in JSON and in the table *)
Definition compared (dur age : string) (r : PRun) : list (string * string * string) :=
  [("id", "ID", pn_Id r); ("title", "Title", title_of r); ("phase", "Phase", label_of r); ("duration", "Duration", dur); ("age", "Age", age);
   ("model", "Model", ps_ModelTier (pn_Spec r)); ("project", "Project", ps_Project (pn_Spec r));
   ("feature", "Feature", ps_Feature (pn_Spec r)); ("branch", "Branch", branch_or_dash r); ("pr_url", "PR URL", px_PrUrl (pn_Status r))].

Definition fetch_named (base id : string) : cli PRun :=
  resp ← GetAgentRun_ w base id;
  match resp with inl e => fails ("failed: fetching " +:+ id +:+ ": " +:+ humanizeErr e) | inr r => mret r end.

(** [cmd/uncworks/runs.go:6229-6363] runRunsCompare *)
Definition runRunsCompare (args : list string) : cli (list shown) :=
  p ← parse_or_fail fraction "runs compare" compare_flags (normalizeRunArgs args);
  match pa_args p with
  | [id1; id2] =>
      r1 ← fetch_named (base_of p) id1;
      r2 ← fetch_named (base_of p) id2;
      if flag_bool p "json" then
        dur1 ← runDuration r1; age1 ← age_of (created_ns r1);
        dur2 ← runDuration r2; age2 ← age_of (created_ns r2);
        let fields l := VFields ((fun x : string * string * string => (x.1.1, VText x.2)) <$>
                          filter (fun x => x.1.1 <> "pr_url" \/ x.2 <> "") l) in
        mret [VJSON (VFields [("a", fields (compared dur1 age1 r1)); ("b", fields (compared dur2 age2 r2))])]
      else
        dur1 ← runDuration r1; dur2 ← runDuration r2;
        age1 ← age_of (created_ns r1); age2 ← age_of (created_ns r2);
        let rows := zip_with (fun x y => (x.1.2, x.2, y.2)) (compared dur1 age1 r1) (compared dur2 age2 r2) ++
                    [("Message", px_Message (pn_Status r1), px_Message (pn_Status r2))] in
        mret [Table ["FIELD"; pad 22 id1; pad 22 id2]
                ((fun x => [x.1.1; cut_at 40 x.1.2; cut_at 40 x.2]) <$> filter (fun x => x.1.2 <> "" \/ x.2 <> "") rows)]
  | _ => fails "invalid input: exactly two run IDs required"
  end.

Definition env_flags : flagset := [("server", KString); ("export", KBool); ("last", KBool); ("json", KBool)].

(** [cmd/uncworks/runs.go:6426-6497] runRunsEnv *)
Definition runRunsEnv (args : list string) : cli (list shown) :=
  p ← parse_or_fail fraction "runs env" env_flags (normalizeRunArgs args);
  id ← (if flag_bool p "last" then latest w (base_of p)
        else match pa_args p with [id] => mret id | _ => fails "invalid input: run ID argument required" end);
  resp ← GetAgentRun_ w (base_of p) id;
  r ← must resp;
  let envVars := sorted_env (ps_EnvVars (pn_Spec r)) in
  mret (if flag_bool p "json" then [VJSON (VFields ((fun kv : string * string => (kv.1, VText kv.2)) <$> envVars))]
        else match envVars with
             | [] => [Line "(no env vars set)"]
             | _ => (fun kv : string * string =>
                       Line (if flag_bool p "export" then "export " +:+ kv.1 +:+ "=" +:+ Quote kv.2 else kv.1 +:+ "=" +:+ kv.2)) <$> envVars
             end).

Definition export_flags : flagset :=
  [("server", KString); ("project", KString); ("feature", KString); ("tag", KString); ("phase", KString); ("since", KString); ("out", KString);
   ("format", KString)].

(** A field that is left out when it is empty. *)
Definition omitempty (key value : string) : list (string * jvalue) := if String.eqb value "" then [] else [(key, VText value)].
Definition date_or_empty (t : option Z) : string := match t with Some t => FormatUTC RFC3339 t | None => "" end.

(** [cmd/uncworks/runs.go:4010-4039] runRunsExport: a run as JSON *)
Definition export_json (r : PRun) : jvalue :=
  let sp := pn_Spec r in
  VFields ([("id", VText (pn_Id r))] ++ omitempty "title" (ps_DisplayName sp) ++ [("phase", VText (label_of r))] ++
    omitempty "message" (px_Message (pn_Status r)) ++ omitempty "project" (ps_Project sp) ++ omitempty "feature" (ps_Feature sp) ++
    omitempty "model" (ps_ModelTier sp) ++ [("created_at", VText (FormatUTC RFC3339 (created_ns r)))] ++
    omitempty "started_at" (date_or_empty (started_ns r)) ++ omitempty "completed_at" (date_or_empty (completed_ns r)) ++
    match took r with Some d => if d =? 0 then [] else [("duration_s", VFloat (Seconds d))] | None => [] end ++
    omitempty "pr_url" (px_PrUrl (pn_Status r)) ++
    match ps_Tags sp with [] => [] | tags => [("tags", VList (VText <$> tags))] end ++
    omitempty "parent_run_id" (ps_ParentRunId sp) ++ omitempty "repo" (repo_of r) ++ omitempty "branch" (branch_of r)).

(** [cmd/uncworks/runs.go:4055-4071] runRunsExport: a run as a row of Markdown *)
Definition export_markdown (r : PRun) : cli string :=
  let sp := pn_Spec r in
  dur ← runDuration r;
  let pr := px_PrUrl (pn_Status r) in
  mret ("| " +:+ Join [pn_Id r; ps_DisplayName sp; label_of r; ps_Project sp; ps_Feature sp; ps_ModelTier sp; dur;
          match started_ns r with Some t => FormatUTC "2006-01-02 15:04" t | None => "" end;
          if String.eqb pr "" then "" else "[PR](" +:+ pr +:+ ")"] " | " +:+ " |").

(** [cmd/uncworks/runs.go:4083-4118] runRunsExport: a run as a record of CSV *)
Definition export_record (r : PRun) : list string :=
  let sp := pn_Spec r in
  [pn_Id r; ps_DisplayName sp; label_of r; ps_Project sp; ps_Feature sp; ps_ModelTier sp; repo_of r; branch_of r;
   date_or_empty (started_ns r); date_or_empty (completed_ns r);
   match took r with Some d => fixed 0 (Seconds d) | None => "" end; px_PrUrl (pn_Status r); Join (ps_Tags sp) ";"; ps_ParentRunId sp].

Definition export_header : list string :=
  ["id"; "title"; "phase"; "project"; "feature"; "model"; "repo"; "branch"; "started"; "completed"; "duration_s"; "pr_url"; "tags"; "parent_run_id"].

(** [cmd/uncworks/runs.go:3955-3976] runRunsExport: the runs that are written *)
Definition export_runs (p : parsed) (phase : PPhase) (since : option Z) : cli (list PRun) :=
  collected p phase false strictly (fun l => (keep_if (started_in since) l, false)).

(** [cmd/uncworks/runs.go:3898-4128] runRunsExport: what is written, to the standard output or a file; a table is CSV, with tabs for commas in [tsv] *)
Definition runRunsExport (args : list string) : cli (list shown) :=
  p ← parse_or_exit fraction export_flags args;
  since ← since_time w fraction (flag_string p "since" "");
  phase ← phase_or (fun word => fails (phase_error word "")) (flag_string p "phase" "");
  runs ← export_runs p phase since;
  let format := flag_string p "format" "csv" in
  if String.eqb format "json" then mret [VJSON match runs with [] => VNull | _ => VList (export_json <$> runs) end]
  else if String.eqb format "markdown" then
    rows ← rows_of export_markdown runs;
    mret (Line <$> ["| ID | Title | Phase | Project | Feature | Model | Duration | Started | PR |"; "|---|---|---|---|---|---|---|---|---|"] ++ rows)
  else mret [Table export_header (export_record <$> runs)].
End reports.
