(* ===== verification/CliReportProps.v ===== *)
(** * What the reports of the command line count.

    A report follows the pages of a listing and may stop early, once a page reaches behind its window.  Against the server's own
    listing it counts exactly the runs that a listing of everything would count.  The examples at the end are the reports whose
    result is another than their help says. *)

From S2P Require Import Prelude GoStrings GoTime ApiTypes ApiProto ApiServer ApiList TemporalTypes Kube RunController Shell CliArgs CliRuns CliProps CliReports.

Local Open Scope Z_scope.

Lemma keep_if_app keep l k : keep_if keep (l ++ k) = keep_if keep l ++ keep_if keep k.
Proof. apply filter_app. Qed.

Lemma keep_if_nothing keep l : (forall r, r ∈ l -> keep r = false) -> keep_if keep l = [].
Proof.
  induction l as [|r l IH]; intros H; [done|]. unfold keep_if in *. rewrite filter_cons, H by constructor.
  rewrite decide_False by done. apply IH. intros x Hx. apply H. by constructor.
Qed.

(** ** Listings that are newest first *)

Definition newest_first (l : list PRun) : Prop := StronglySorted (fun a b => created_ns b <= created_ns a) l.

Lemma newest_first_app pre l : newest_first (pre ++ l) -> forall a b, a ∈ pre -> b ∈ l -> created_ns b <= created_ns a.
Proof.
  induction pre as [|x pre IH]; intros Hs a b Ha Hb; [by apply elem_of_nil in Ha|].
  apply StronglySorted_inv in Hs as [Hs Hx]. rewrite Forall_forall in Hx.
  apply elem_of_cons in Ha as [->|Ha]; [apply Hx, elem_of_app; by right|by apply IH].
Qed.

Lemma newest_first_suffix pre l : newest_first (pre ++ l) -> newest_first l.
Proof. induction pre as [|x pre IH]; [done|]. intros Hs. apply IH. by apply StronglySorted_inv in Hs as [? _]. Qed.

(** Being too old is kept from a run to the older ones. *)
Definition ageing (old : PRun -> bool) : Prop := forall a b, created_ns b <= created_ns a -> old a = true -> old b = true.

Lemma not_after_ageing t : ageing (not_after t).
Proof. intros a b Hab. unfold not_after. rewrite !Z.leb_le. lia. Qed.

Lemma before_ageing t : ageing (before t).
Proof. intros a b Hab. unfold before. rewrite !Z.ltb_lt. lia. Qed.

(** What a page gives, for a report that keeps some of the runs: they are among the young ones, and a page after which the report
    stops has nothing to keep behind it. *)
Definition gives (f : list PRun -> list PRun * bool) (keep : PRun -> bool) (pg rest : list PRun) : Prop :=
  (f pg).1 = keep_if keep pg /\ ((f pg).2 = true -> keep_if keep rest = []).

Lemma broken_true old l : (broken old l).2 = true -> exists a, a ∈ l /\ old a = true.
Proof.
  induction l as [|r l IH]; cbn [broken]; [done|]. destruct (old r) eqn:E; cbn [fst snd].
  - intros _. exists r. split; [by constructor|done].
  - intros (a & ? & ?)%IH. exists a. split; [by constructor|done].
Qed.

(** In a list that is newest first, ending the loop at the first old run is passing over the old ones. *)
Lemma broken_keeps old l : ageing old -> newest_first l -> (broken old l).1 = keep_if (fun r => negb (old r)) l.
Proof.
  intros Hold. induction l as [|r l IH]; intros Hs; cbn [broken]; [done|]. apply StronglySorted_inv in Hs as [Hs Hr].
  rewrite Forall_forall in Hr. unfold keep_if. rewrite filter_cons. destruct (old r) eqn:E; cbn [fst snd negb].
  - rewrite decide_False by done. symmetry. apply keep_if_nothing. intros x Hx. by rewrite (Hold r x (Hr x Hx) E).
  - rewrite decide_True by done. f_equal. by apply IH.
Qed.

Lemma old_behind old pre l : ageing old -> newest_first (pre ++ l) -> (exists a, a ∈ pre /\ old a = true) ->
  keep_if (fun r => negb (old r)) l = [].
Proof.
  intros Hold Hs (a & Ha & Ho). apply keep_if_nothing. intros x Hx.
  by rewrite (Hold a x (newest_first_app _ _ Hs a x Ha Hx) Ho).
Qed.

Lemma broken_gives old pg rest : ageing old -> newest_first (pg ++ rest) -> gives (broken old) (fun r => negb (old r)) pg rest.
Proof.
  intros Hold Hs. split.
  - apply broken_keeps; [done|]. clear -Hs. induction pg as [|x pg IH]; [constructor|].
    apply StronglySorted_inv in Hs as [Hs Hx]. constructor; [by apply IH|]. by apply Forall_app in Hx as [? _].
  - intros Hb%broken_true. by eapply old_behind.
Qed.

Lemma passed_gives old stop pg rest : ageing old -> newest_first (pg ++ rest) ->
  gives (fun l => let k := passed old l in (k.1, stop && k.2)) (fun r => negb (old r)) pg rest.
Proof.
  intros Hold Hs. split; cbn [passed fst snd].
  - apply list_filter_iff. intros r. apply negb_true_iff || (by destruct (old r)).
  - intros [_ (a & Ha & Ho)%existsb_exists]%andb_true_iff. eapply old_behind; [done..|]. exists a. split; [by apply list_elem_of_In|done].
Qed.

(** ** Following the pages of a listing *)

(** What a client makes of an answer. *)
Definition answered {A} (r : reply A) : rpc_error + A :=
  match r with Reply a => inr a | Fault c msg => inl (ConnectError (Served c) msg) end.

Section pages.
Context {S : Type} (w : world S) (fuel : nat).
Notation cli := (shell S event ending).

(** A clock that the listing reads, and that does not go back. *)
Record clocked (clock : S -> Z) : Prop := {
  clock_now : forall s, (w_Now w s).2 = clock s;
  clock_on : forall s, clock s <= clock (w_Now w s).1;
  clock_list : forall base q s, clock s <= clock (w_List w base q s).1;
}.

(** The server is the one that is modelled, with the runs that it has. *)
Definition served_by (sort : list Run -> list Run) (h : AOTServiceHandler) : Prop :=
  forall base q s, (w_List w base q s).2 = answered (outcome (ListAgentRuns sort h q)).

Context (clock : S -> Z) (Hclock : clocked clock).

(** From a state, a command goes on with a value, at a time that is no earlier. *)
Definition gets {A} (m : cli A) (s : machine S event) (a : A) : Prop :=
  (m s).2 = inl a /\ clock (m_state s) <= clock (m_state (m s).1).

Lemma gets_bind {A B} (m : cli A) (k : A -> cli B) s a b : gets m s a -> gets (k a) (m s).1 b -> gets (m ≫= k) s b.
Proof.
  intros [Ha Ht] [Hb Ht']. unfold gets, mbind, shell_bind in *. destruct (m s) as [s' r]. cbn [fst snd] in *. subst r.
  split; [done|lia].
Qed.

Lemma gets_ret {A} (a : A) s : gets (mret a) s a.
Proof. split; [done|cbn; lia]. Qed.

Lemma gets_Now s : gets (Now w) s (clock (m_state s)).
Proof.
  unfold gets, Now. pose proof (clock_now _ Hclock (m_state s)). pose proof (clock_on _ Hclock (m_state s)).
  destruct (w_Now w (m_state s)) as [t z]. cbn in *. split; [congruence|done].
Qed.

(** A page is a stretch of the listing, and the cursor names its last run. *)
Lemma scan_keeps base (query : string -> ListAgentRunsRequest) failed f keep size (all : list PRun) :
  0 < size -> NoDup (pn_Id <$> all) -> (forall r, r ∈ all -> pn_Id r <> "") ->
  (forall cursor s, (w_List w base (query cursor) s).2 = inr (page size cursor all)) ->
  (forall pre pg rest, all = pre ++ pg ++ rest -> gives f keep pg rest) ->
  forall n pre rest acc s, all = pre ++ rest -> (length rest < n)%nat ->
  gets (scan w n base (fun _ => query) failed (kept_page f) acc (match last pre with Some r => pn_Id r | None => "" end)) s
    (acc ++ keep_if keep rest).
Proof.
  intros Hsize Hnd Hne Hask Hf n. induction n as [|n IH]; intros pre rest acc s -> Hn; [lia|]. cbn [scan].
  set (cursor := match last pre with Some r => pn_Id r | None => "" end).
  assert (Hpg := page_at size pre rest cursor Hsize Hnd (fun r Hr => Hne r ltac:(set_solver)) eq_refl).
  eapply gets_bind.
  { unfold gets, ListAgentRuns_, ask. pose proof (Hask cursor (m_state s)) as Ha.
    pose proof (clock_list _ Hclock base (query cursor) (m_state s)).
    destruct (w_List w base (query cursor) (m_state s)) as [t r]. cbn [fst snd m_state] in *. subst r. split; [reflexivity|done]. }
  rewrite Hpg. unfold kept_page.
  destruct (Z.ltb_spec size (Z.of_nat (length rest))) as [Hlt|Hge]; cbn [fst snd]; rewrite ret_bind; cbn [fst snd].
  2:{ cbn. destruct (Hf pre rest []) as [-> _]; [by rewrite app_nil_r|]. apply gets_ret. }
  set (pg := take (Z.to_nat size) rest) in *. set (behind := drop (Z.to_nat size) rest).
  assert (Hrest : rest = pg ++ behind) by (unfold pg, behind; by rewrite take_drop).
  assert (exists r, last pg = Some r) as [r Hr].
  { destruct (last pg) eqn:E; [eauto|]. apply last_None in E.
    apply (f_equal length) in E. unfold pg in E. rewrite length_take in E. cbn in E. lia. }
  destruct (Hf pre pg behind) as [Hkeep Hstop]; [by rewrite <- Hrest|].
  assert (Hkeeps : keep_if keep rest = keep_if keep pg ++ keep_if keep behind) by (by rewrite Hrest, keep_if_app).
  rewrite Hr. destruct (String.eqb_spec (pn_Id r) "") as [E|_]; cbn [orb].
  { exfalso. apply (Hne r); [|done]. rewrite Hrest. apply last_Some_elem_of in Hr. set_solver. }
  rewrite Hkeeps, app_assoc, <- Hkeep.
  destruct (f pg).2; [rewrite Hstop, app_nil_r by done; apply gets_ret|].
  pose proof (IH (pre ++ pg) behind (acc ++ (f pg).1)) as IH'. rewrite last_app, Hr in IH'.
  apply IH'; [by rewrite <- app_assoc, <- Hrest|]. unfold behind. rewrite length_drop. lia.
Qed.
End pages.

(** ** Against the server *)

Section against.
Context {S : Type} (w : world S) (clock : S -> Z) (Hclock : clocked w clock).
Context (sort : list Run -> list Run) (Hsort : sorts sort) (h : AOTServiceHandler) (Hserved : served_by w sort h).

Lemma matching_newest q items : newest_first (matching sort q items).
Proof.
  destruct (Hsort items) as [_ Hs]. unfold matching, newest_first.
  assert (H : forall l, StronglySorted newer l -> StronglySorted (fun a b => created_ns b <= created_ns a)
    (crdToProto <$> filter (fun crd => selected q crd = true) l)).
  { clear. induction l as [|r l IH]; intros Hs; [constructor|]. apply StronglySorted_inv in Hs as [Hs Hr].
    rewrite filter_cons. case_decide; [|by apply IH]. rewrite fmap_cons. constructor; [by apply IH|].
    apply Forall_forall. intros x (y & -> & [_ Hy]%list_elem_of_filter)%list_elem_of_fmap.
    rewrite Forall_forall in Hr. specialize (Hr y Hy). unfold newer in Hr. unfold created_ns, AsTime, second. cbn. lia. }
  by apply H.
Qed.

(** What a report collects from the server's listing, page by page, is what it keeps of all of the matching runs. *)
Lemma collected_against fuel p phase archived failed f keep items s :
  let q := hundred phase archived p "" in
  invalid_list q = None -> h_list h (label_filters q) = Ok items ->
  NoDup (run_name <$> items) -> (forall r, r ∈ items -> run_name r <> "") -> (length items < fuel)%nat ->
  (forall pg rest, newest_first (pg ++ rest) -> gives f keep pg rest) ->
  gets clock (collected w fuel p phase archived failed f) s (keep_if keep (matching sort q items)).
Proof.
  intros q Hvalid Hlist Hnd Hne Hfuel Hf. unfold collected.
  set (all := matching sort q items).
  change (gets clock (scan w fuel (base_of w p) (fun _ => hundred phase archived p) failed (kept_page f) []
    (match last (@nil PRun) with Some r => pn_Id r | None => "" end)) s ([] ++ keep_if keep all)).
  apply (scan_keeps w clock Hclock (base_of w p) (hundred phase archived p) failed f keep 100 all); try done.
  - by apply matching_ids.
  - intros r (c & -> & Hc)%list_elem_of_fmap. apply list_elem_of_filter in Hc as [_ Hc].
    apply Hne. destruct (Hsort items) as [Hp _]. by rewrite Hp in Hc.
  - intros cursor st. rewrite Hserved. unfold ListAgentRuns.
    change (invalid_list (hundred phase archived p cursor)) with (invalid_list q). rewrite Hvalid.
    change (label_filters (hundred phase archived p cursor)) with (label_filters q).
    unfold List_. rewrite Hlist. reflexivity.
  - intros pre pg rest Hall. apply Hf. eapply (newest_first_suffix pre). rewrite <- Hall. apply matching_newest.
  - unfold all, matching. rewrite length_fmap. pose proof (length_filter (fun crd => selected q crd = true) (sort items)).
    destruct (Hsort items) as [Hp _]. apply Permutation_length in Hp. lia.
Qed.
End against.

(** ** Success over windows of time *)

Lemma in_window t t' win l : t <= t' -> win <= 30 * day ->
  filter (fun r => not_after (t' - win) r = false) (keep_if (fun r => negb (not_after (t - 30 * day) r)) l) =
  filter (fun r => not_after (t' - win) r = false) l.
Proof.
  intros Ht Hwin. unfold keep_if. rewrite list_filter_filter. apply list_filter_iff. intros r. unfold not_after.
  rewrite negb_true_iff, !Z.leb_gt. lia.
Qed.

(** The windows are counted over all of the runs, when those of the largest one are counted. *)
Lemma score_windows_young t t' l : t <= t' ->
  score_window t' (keep_if (fun r => negb (not_after (t - 30 * day) r)) l) <$> score_windows = score_window t' l <$> score_windows.
Proof.
  intros Ht. apply list_fmap_ext. intros i [name win] Hw%list_elem_of_lookup_2. unfold score_window. rewrite in_window; [done..|].
  cbn [snd]. unfold score_windows in Hw. rewrite !elem_of_cons, elem_of_nil in Hw.
  repeat destruct Hw as [[= -> ->]|Hw]; [..|done]; vm_compute; congruence.
Qed.

(** C26. The scores are those of all the runs.  Against the server, with whatever runs it has, [uncworks runs score], which asks for a hundred
    runs at a time and ends early, behind the first page that reaches back more than thirty days, shows for each of its windows
    exactly the numbers that counting over all of the matching runs gives, at a time after it was called; in particular it ends. *)
Theorem score_counts {S} (w : world S) (clock : S -> Z) (Hclock : clocked w clock) (sort : list Run -> list Run) (Hsort : sorts sort)
    (h : AOTServiceHandler) (Hserved : served_by w sort h) (fuel : nat) (p : parsed) (items : list Run) (s : machine S event)
    (Hvalid : invalid_list (hundred PHASE_UNSPECIFIED (flag_bool p "include-archived") p "") = None)
    (Hlist : h_list h (label_filters (hundred PHASE_UNSPECIFIED (flag_bool p "include-archived") p "")) = Ok items)
    (Hnames : NoDup (run_name <$> items)) (Hnamed : forall r, r ∈ items -> run_name r <> "") (Hfuel : (length items < fuel)%nat) :
  exists t, clock (m_state s) <= t /\
    (score w fuel p s).2 = inl (score_window t (matching sort (hundred PHASE_UNSPECIFIED (flag_bool p "include-archived") p "") items)
                                  <$> score_windows).
Proof.
  set (all := matching sort _ items). set (t := clock (m_state s)). set (s1 := (Now w s).1).
  pose proof (gets_Now w clock Hclock s) as H1.
  set (m := collected w fuel p PHASE_UNSPECIFIED (flag_bool p "include-archived") leniently
    (fun l => let k := passed (not_after (t - 30 * day)) l in (k.1, negb (flag_bool p "include-archived") && k.2))).
  assert (H2 : gets clock m s1 (keep_if (fun r => negb (not_after (t - 30 * day) r)) all)).
  { apply (collected_against w clock Hclock sort Hsort h Hserved); try done. intros pg rest Hs.
    by apply passed_gives; [apply not_after_ageing|]. }
  set (s2 := (m s1).1). pose proof (gets_Now w clock Hclock s2) as H3.
  assert (Ht : t <= clock (m_state s2)) by (etrans; [apply H1|apply H2]).
  exists (clock (m_state s2)). split; [done|].
  apply (gets_bind clock _ _ _ _ _ H1), (gets_bind clock _ _ _ _ _ H2), (gets_bind clock _ _ _ _ _ H3).
  rewrite (score_windows_young t) by done. apply gets_ret.
Qed.

(** ** Tables of counts *)

Lemma sum_app l k : sum (l ++ k) = sum l + sum k.
Proof. unfold sum. induction l as [|x l IH]; cbn [app foldr]; lia. Qed.

Lemma sum_perm l k : l ≡ₚ k -> sum l = sum k.
Proof. unfold sum. induction 1; cbn [foldr]; lia. Qed.

(** Counting a key adds one to the sum. *)
Lemma counts_total keys : sum (map_to_list (counts_of keys)).*2 = len_of keys.
Proof.
  unfold len_of. induction keys as [|k keys IH] using rev_ind; [by vm_compute|]. unfold counts_of in *.
  rewrite foldl_app, length_app. cbn [foldl length]. set (m := foldl _ ∅ keys) in *.
  transitivity (sum (map_to_list m).*2 + 1); [|rewrite IH; lia]. destruct (m !! k) as [x|] eqn:E; cbn [default].
  - rewrite <- insert_delete_eq, (sum_perm _ _ (fmap_Permutation snd _ _ (map_to_list_insert _ _ _ (lookup_delete_eq m k)))).
    rewrite <- (sum_perm _ _ (fmap_Permutation snd _ _ (map_to_list_delete m k x E))). unfold sum. cbn. lia.
  - rewrite (sum_perm _ _ (fmap_Permutation snd _ _ (map_to_list_insert m k _ E))). unfold sum. cbn. lia.
Qed.

Lemma ranking_total m : sum (ranking m).*2 = sum (map_to_list m).*2.
Proof. apply sum_perm, fmap_Permutation, merge_sort_Permutation. Qed.

Lemma counts_key keys k : is_Some (counts_of keys !! k) -> k ∈ keys.
Proof.
  induction keys as [|x keys IH] using rev_ind; [by intros [x [=]]|]. unfold counts_of in *.
  rewrite foldl_app. cbn [foldl]. intros [?|[_ H]]%lookup_insert_is_Some; apply elem_of_app; [right; by apply list_elem_of_singleton|left; auto].
Qed.

(** Rows for each key of a map are the map. *)
Lemma phase_rows_perm order m : NoDup order -> (forall k, is_Some (m !! k) -> k ∈ order) -> phase_rows order m ≡ₚ map_to_list m.
Proof.
  intros Hnd Hall. unfold phase_rows. apply NoDup_Permutation; [|apply NoDup_map_to_list|].
  - apply NoDup_fmap_1 with fst. assert (H : sublist (omap (fun ph => pair ph <$> m !! ph) order).*1 order).
    { clear. induction order as [|k order IH]; [done|]. cbn. destruct (m !! k); cbn; by constructor. }
    by eapply sublist_NoDup.
  - intros [k n]. rewrite list_elem_of_omap, elem_of_map_to_list. split.
    + intros (k' & _ & (n' & ? & [= <- <-])%fmap_Some). done.
    + intros Hk. exists k. split; [apply Hall; eauto|by rewrite Hk].
Qed.

(** The phases that [runs count] shows add up to the total below them. *)
Lemma count_by_phase_adds_up runs :
  sum (phase_rows ["RUNNING"; "PENDING"; "WAITING"; "DONE"; "FAILED"; "CANCELLED"; "UNKNOWN"] (counted (fun r => [label_of r]) runs)).*2
  = len_of runs.
Proof.
  rewrite (sum_perm _ (map_to_list (counted (fun r => [label_of r]) runs)).*2).
  - unfold counted. rewrite counts_total. unfold len_of. induction runs as [|r runs IH]; [done|]. cbn. cbn in IH. lia.
  - apply fmap_Permutation, phase_rows_perm; [by apply (bool_decide_unpack _); vm_compute|].
    intros k (r & Hk & _)%counts_key%list_elem_of_bind. apply list_elem_of_singleton in Hk as ->. unfold label_of. destruct (phase_of r); set_solver.
Qed.

(** So do features and projects, of which every run has one; a run is counted under each of its tags. *)
Lemma count_by_one_adds_up keys runs : (forall r, length (keys r) = 1%nat) -> sum (ranking (counted keys runs)).*2 = len_of runs.
Proof.
  intros H. rewrite ranking_total. unfold counted. rewrite counts_total. unfold len_of. f_equal.
  induction runs as [|r runs IH]; [done|]. rewrite bind_cons, length_app, H, IH. done.
Qed.

(** ** Examples *)

(** A world with a server of these runs, and a clock that goes on by a nanosecond whenever it is read. *)
Definition served (l : list Run) : world Z :=
  {| w_List := fun _ q s => (s, answered (outcome (ListAgentRuns sort_runs (listing_server l) q)));
     w_Get := fun _ _ s => (s, inl (OtherError "none"));
     w_Create := fun _ _ s => (s, inl (OtherError "none"));
     w_Cancel := fun _ _ s => (s, None);
     w_Input := fun _ _ _ s => (s, None);
     w_Post := fun _ _ s => (s, Status 200 "");
     w_Watch := fun _ _ _ s => (s, {| sa_Events := inr []; sa_Ends := true; sa_Err := None; sa_TimedOut := false |});
     w_Scan := fun s => (s, ("", false));
     w_Stdin := fun s => (s, Ok "");
     w_ReadFile := fun _ s => (s, Err "no file");
     w_WriteFile := fun _ _ s => (s, None);
     w_Edit := fun s => (s, NoTempFile "none");
     w_Git := fun _ s => (s, None);
     w_Hook := fun _ _ s => (s, None);
     w_Now := fun s => (s + 1, s);
     w_Config := Err "none" |}.

Lemma served_clocked l : clocked (served l) id.
Proof. split; intros; cbn; lia. Qed.

(** A run of a phase, made so many hours before the fortieth day. *)
Definition made (name : string) (phase : AgentRunPhase) (hours : Z) : Run :=
  let r := listed_run name (40 * 86400 - hours * 3600) in
  {| run_Meta := run_Meta r; run_Spec := run_Spec r; run_Status := set_Phase phase (run_Status r) |}.

(** Two hundred and thirty runs, three hours and a half apart: the largest window ends on the third page. *)
Definition many_runs : list Run :=
  (fun i => made ("ar-run" +:+ Itoa (Z.of_nat i)) (if Nat.even i then AgentRunPhaseSucceeded else AgentRunPhaseFailed) (Z.of_nat i * 7 / 2)) <$> seq 0 230.

Definition no_flags : parsed := {| pa_set := []; pa_args := [] |}.
Definition at_day_40 : machine Z event := {| m_state := 40 * day; m_log := [] |}.

Lemma score_counts_witness :
  exists t, 40 * day <= t /\
    (score (served many_runs) 231 no_flags at_day_40).2 =
    inl (score_window t (matching sort_runs (hundred PHASE_UNSPECIFIED false no_flags "") many_runs) <$> score_windows).
Proof.
  apply (score_counts (served many_runs) id (served_clocked many_runs) sort_runs sort_runs_sorts (listing_server many_runs)
    (fun _ _ _ => eq_refl) 231 no_flags many_runs at_day_40).
  - reflexivity.
  - reflexivity.
  - apply (bool_decide_unpack _). vm_compute. exact I.
  - intros r (i & -> & _)%list_elem_of_fmap. done.
  - vm_compute. lia.
Defined.

Definition counts_shown (r : machine Z event * (list windowResult + ending)) : list (string * Z * Z * Z) :=
  match r.2 with inl rs => (fun x => (wr_Window x, wr_Total x, wr_Done x, wr_Failed x)) <$> rs | inr _ => [] end.

Definition lists_asked {A} (r : machine Z event * A) : nat :=
  length (filter (fun e => match e with EList _ _ _ => true | _ => false end = true) (m_log r.1)).

Example score_of_many :
  counts_shown (score (served many_runs) 231 no_flags at_day_40) =
    [("1h", 1, 1, 0); ("24h", 7, 4, 3); ("7d", 48, 24, 24); ("30d", 206, 103, 103)] /\
  lists_asked (score (served many_runs) 231 no_flags at_day_40) = 3%nat /\
  lists_asked (score (served (many_runs ++ [made "ar-old1" AgentRunPhaseFailed 5000])) 231 no_flags at_day_40) = 3%nat.
Proof. by vm_compute. Qed.

(** *** Where a report does something else than its help says *)

Definition id_sort : forall A, (A -> A -> bool) -> list A -> list A := fun _ _ l => l.
Definition no_text : nat -> float -> string := fun _ _ => "".
Definition no_date : string -> Z -> string := fun _ _ => "".

(** A server that cannot be reached. *)
Definition unreachable : world unit :=
  let w := still [] "" in
  {| w_List := fun _ _ s => (s, inl (ConnectError (Served Unavailable) "refused")); w_Get := w_Get w; w_Create := w_Create w;
     w_Cancel := w_Cancel w; w_Input := w_Input w; w_Post := w_Post w; w_Watch := w_Watch w; w_Scan := w_Scan w; w_Stdin := w_Stdin w;
     w_ReadFile := w_ReadFile w; w_WriteFile := w_WriteFile w; w_Edit := w_Edit w; w_Git := w_Git w; w_Hook := w_Hook w; w_Now := w_Now w;
     w_Config := w_Config w |}.

(** [uncworks runs count] then succeeds, and prints [0]; the command that exports them fails. *)
Example count_of_the_unreachable :
  (runRunsCount unreachable no_fraction 5 [] start).2 = inl [Line "0"] /\
  (runRunsExport unreachable no_fraction 5 no_text no_date [] start).2 =
    inr (Returned (Err "failed: server unavailable — is UNCWORKS running?")).
Proof. by vm_compute. Qed.

(** A limit below zero is no error of [uncworks runs search] and [uncworks runs timeline], and out of range. *)
Example negative_limits_panic :
  (runRunsSearch (still [] "") no_fraction 5 no_date ["--limit=-1"; "fix"] start).2 = inr (Exit 2) /\
  (runRunsTimeline (still [] "") no_fraction 5 id_sort no_date ["--limit=-1"] start).2 = inr (Exit 2).
Proof. by vm_compute. Qed.

(** A histogram of a window that is shorter than its buckets are many divides by zero. *)
Example short_histograms_panic :
  (runRunsHistogram (served [listed_run "ar-aaaaaa" (40 * 86400)]) no_fraction 5 no_date no_date ["--since=10ns"] at_day_40).2 = inr (Exit 2).
Proof. by vm_compute. Qed.

(** A run that was made and started at these times. *)
Definition began (id : string) (created started : time) : PRun :=
  let st := plain_status PHASE_RUNNING None in
  {| pn_Id := id; pn_Name := id; pn_Spec := guarded_spec;
     pn_Status := {| px_Phase := PHASE_RUNNING; px_Message := ""; px_PodName := ""; px_TraceId := ""; px_StartedAt := Some started;
       px_CompletedAt := None; px_WorktreePath := ""; px_LogOutput := ""; px_RetainUntil := None; px_DeploymentName := "";
       px_DebugActive := false; px_Stage := ""; px_RetryCount := 0; px_VerificationResult := ""; px_PrUrl := ""; px_TotalCost := "";
       px_TotalAdditions := 0; px_TotalDeletions := 0 |};
     pn_CreatedAt := created; pn_Children := [] |}.

Definition bucketed (r : machine unit event * (list (Z * PRun) * bool + ending)) : list string :=
  match r.2 with inl b => (fun x => pn_Id x.2) <$> b.1 | inr _ => [] end.

(** A histogram ends at the first run that was started before its window, also when one that was made earlier, and comes later, was
    started inside it. *)
Example histogram_stops_early :
  let old := began "ar-aaaaaa" (29 * 86400 - 1) (29 * 86400 - 1) in
  let waited := began "ar-bbbbbb" (29 * 86400 - 2) (29 * 86400 + 60) in
  bucketed (bucket_page (still [] "") (29 * day) hour 24 [] [waited; old] start) = ["ar-bbbbbb"] /\
  bucketed (bucket_page (still [] "") (29 * day) hour 24 [] [old; waited] start) = [].
Proof. by vm_compute. Qed.

(** [uncworks runs latest --phase WAITING] asks for the runs of every phase, like a phase that does not exist. *)
Example waiting_is_no_latest_phase :
  latest_phase "WAITING" = PHASE_UNSPECIFIED /\ latest_phase "DONNE" = PHASE_UNSPECIFIED /\ latest_phase "done" = PHASE_SUCCEEDED /\
  search_phase "WAITING" = PHASE_UNSPECIFIED.
Proof. by vm_compute. Qed.

(** What [uncworks runs env --export] prints is quoted for Go: a shell that reads it expands the dollar sign. *)
Example exported_variables_are_quoted_for_go :
  (runRunsEnv (still [a_run "ar-aaaaaa" PHASE_RUNNING None
     {| ps_Repos := []; ps_Prompt := ""; ps_DevboxConfig := ""; ps_TtlSeconds := 0; ps_EnvVars := [("KEY", "a$HOME")]; ps_ModelTier := "";
        ps_Image := ""; ps_MaxBudget := 0; ps_SpecContent := ""; ps_SpecSource := ""; ps_WorkspaceName := ""; ps_ParentRunId := "";
        ps_OrchestrationMode := MODE_SPEC_DRIVEN; ps_Orchestration := None; ps_SpecRunId := ""; ps_DisplayName := "";
        ps_PipelineConfig := None; ps_AutoPush := false; ps_AutoPr := false; ps_PrBaseBranch := ""; ps_Project := ""; ps_Feature := "";
        ps_Tags := []; ps_ProjectRef := ""; ps_SpecRef := ""; ps_ApprovalMode := "" |}] "") no_fraction
     ["--export"; "ar-aaaaaa"] start).2
  = inl [Line ("export KEY=" +:+ Quote "a$HOME")] /\
  Quote "a$HOME" = String (Ascii.ascii_of_nat 34) ("a$HOME" +:+ String (Ascii.ascii_of_nat 34) "").
Proof. by vm_compute. Qed.

Example percentiles_of_ten :
  percentile 50 [1; 2; 3; 4; 5; 6; 7; 8; 9; 10] = 5 /\ percentile 75 [1; 2; 3; 4; 5; 6; 7; 8; 9; 10] = 7 /\
  percentile 95 [1; 2; 3; 4; 5; 6; 7; 8; 9; 10] = 9 /\ percentile 99 [7] = 7 /\ median [1; 2; 3; 10] = 2 /\ p90 [1; 2; 3; 10] = 10.
Proof. by vm_compute. Qed.
