(* ===== verification/CliTools.v ===== *)
(** * The tools of a pull request on the command line: [cmd/uncworks/spec.go], [gate.go] and [cite.go].

    A command reads the checkout and prints; [None] is a panic.  What is printed as JSON is the value that is encoded; text is a
    list of lines. *)

From S2P Require Import Prelude GoStrings GoTime Regex Files Json Citelock CiteCapture SpecParse SpecGraph SpecCheck SpecRubric Gate GateProps.

Local Open Scope nat_scope.

(** ** Output *)

Inductive line :=
| Out (text : string)
| ErrOut (text : string)
| Usage (tool : string)
| JSONReports (reports : list Report)
| JSONReady (ready : Ready)
| JSONProgress (all : list Progress)
| JSONResult (r : GateResult).

(** What a command has printed, and the error that it returns. *)
Notation output := (list line * result unit)%type.

(** [cmd/uncworks/main.go:155-158] main: the status of the program *)
Definition exit_status (o : output) : Z := match o.2 with Ok _ => 0%Z | Err _ => 1%Z end.

(** ** Specifications *)

Record specFlags := { sf_asJSON : bool; sf_dir : string; sf_names : list string }.

(** [cmd/uncworks/spec.go:44-61] parseSpecFlags: the loop *)
Fixpoint spec_flags (args : list string) (flags : specFlags) : result specFlags :=
  match args with
  | [] => Ok flags
  | arg :: rest =>
      if String.eqb arg "--json" then spec_flags rest {| sf_asJSON := true; sf_dir := sf_dir flags; sf_names := sf_names flags |}
      else if String.eqb arg "--dir" then
        match rest with
        | [] => Err "spec usage: --dir needs a value"
        | v :: rest => spec_flags rest {| sf_asJSON := sf_asJSON flags; sf_dir := v; sf_names := sf_names flags |}
        end
      else if HasPrefix arg "-" then Err ("spec usage: unknown flag " +:+ Quote arg)
      else spec_flags rest {| sf_asJSON := sf_asJSON flags; sf_dir := sf_dir flags; sf_names := sf_names flags ++ [arg] |}
  end.

(** [cmd/uncworks/spec.go:42-62] parseSpecFlags *)
Definition parseSpecFlags (args : list string) : result specFlags :=
  spec_flags args {| sf_asJSON := false; sf_dir := "openspec/changes"; sf_names := [] |}.

(** The results of a list, or the first error. *)
Fixpoint collect {A B} (f : A -> result B) (l : list A) : result (list B) :=
  match l with
  | [] => Ok []
  | a :: l => match f a with
              | Err e => Err e
              | Ok b => match collect f l with Ok bs => Ok (b :: bs) | Err e => Err e end
              end
  end.

Section tools.
(** the checkout, and how Go ranges over the artifacts of a change *)
Context (t : tree) (range_ : gmap string Artifact -> list Artifact).

(** [cmd/uncworks/spec.go:74-84] load: one change *)
Definition load_named (dir name : string) : result Change :=
  match Load t (if exists_ t name then name else PathJoin dir name) with
  | Ok c => Ok c
  | Err e => Err ("loading " +:+ name +:+ ": " +:+ e)
  end.

(** [cmd/uncworks/spec.go:65-86] load *)
Definition load_changes (f : specFlags) : result (list Change) :=
  match sf_names f with
  | [] => match LoadAll t (sf_dir f) with Ok cs => Ok cs | Err e => Err ("loading changes: " +:+ e) end
  | names => collect (load_named (sf_dir f)) names
  end.

Definition severity_text (s : Severity) : string := match s with SeverityError => "error" | SeverityWarn => "warn" end.

(** [cmd/uncworks/spec.go:153-159] specCheck: the lines of a finding *)
Definition finding_lines (f : Finding) : list line :=
  let location := if 0 <? fi_Line f then fi_File f +:+ ":" +:+ Itoa (Z.of_nat (fi_Line f)) else fi_File f in
  [Out ("  " +:+ pad 5 (severity_text (fi_Severity f)) +:+ " " +:+ pad 26 (fi_Rule f) +:+ " " +:+ location);
   Out ("           " +:+ fi_Message f)].

(** [cmd/uncworks/spec.go:147-160] specCheck: the lines of a report *)
Definition report_lines (r : Report) : list line :=
  match rp_Findings r with
  | [] => [Out (rp_Change r +:+ ": 0 findings")]
  | fs => Out (rp_Change r +:+ ":") :: (fs ≫= finding_lines)
  end.

(** [cmd/uncworks/spec.go:131-166] specCheck *)
Definition specCheck (changes : list Change) (flags : specFlags) : option output :=
  reports ← mapM (Check_ range_ t) changes;
  Some (if sf_asJSON flags then [JSONReports reports] else reports ≫= report_lines,
        if existsb Failed reports then Err "spec check: rubric check failed" else Ok tt).

(** [cmd/uncworks/spec.go:200-210] specNext: the conflicts *)
Definition conflict_lines (ready : Ready) : list line :=
  let conflicts := WriteConflicts ready in
  match sort_strings (map_to_list conflicts).*1 with
  | [] => []
  | paths =>
      Out "  but these write sets intersect, so run them in one context:" ::
      ((fun path => Out ("    " +:+ path +:+ ": " +:+ Join (default [] (conflicts !! path)) ", ")) <$> paths)
  end.

(** [cmd/uncworks/spec.go:184-214] specNext: the lines of a change with unfinished work *)
Definition ready_lines (name : string) (ready : Ready) : list line :=
  [Out (name +:+ ": phase " +:+ Itoa (rd_Phase ready) +:+ " " +:+ Quote (rd_Name ready) +:+ " (shape " +:+ rd_Shape ready +:+ ")")] ++
  (if String.eqb (rd_Stop ready) "" then [] else [Out ("  stop: " +:+ rd_Stop ready)]) ++
  (if String.eqb (rd_Merge ready) "" then [] else [Out ("  merge: " +:+ rd_Merge ready)]) ++
  [Out "  ready:"] ++
  ((fun task => Out ("    " +:+ tk_ID task +:+ " " +:+ tk_Text task)) <$> rd_Tasks ready) ++
  (if rd_Concurrent ready then Out "  runnable concurrently" :: conflict_lines ready else []) ++
  ((fun b => Out ("  blocked: " +:+ bl_ID b +:+ " waits on " +:+ Join (bl_Waiting b) ", ")) <$> rd_Blocked ready).

(** [cmd/uncworks/spec.go:168-220] specNext *)
Fixpoint specNext (changes : list Change) (flags : specFlags) : output :=
  match changes with
  | [] => ([], Ok tt)
  | change :: changes =>
      let and_next lines := let rest := specNext changes flags in (lines ++ rest.1, rest.2) in
      match Next change with
      | (_, Some e) => ([], Err ("spec next: " +:+ e))
      | (ready, None) =>
          if sf_asJSON flags then and_next [JSONReady ready]
          else if rd_Done ready then and_next [Out (ch_Name change +:+ ": every task is done")]
          else match rd_Tasks ready with
               | [] => (ready_lines (ch_Name change) ready, Err "spec next: task dependencies form a cycle")
               | _ => and_next (ready_lines (ch_Name change) ready)
               end
      end
  end.

(** [cmd/uncworks/spec.go:222-235] specStatus *)
Definition specStatus (changes : list Change) (flags : specFlags) : output :=
  let all := Status <$> changes in
  (if sf_asJSON flags then [JSONProgress all]
   else (fun p => Out (pad 40 (pg_Change p) +:+ " " +:+ Itoa (Z.of_nat (pg_Done p)) +:+ "/" +:+ Itoa (Z.of_nat (pg_Total p)))) <$> all,
   Ok tt).

(** [internal/specutil/check.go:66-88] Rules: what they say *)
Definition Rules_what : list string :=
  ["proposal.md has Why, What Changes, Behavior, and Impact"; "a change spanning capabilities declares Non-goals";
   "the Behavior section states at least one criterion"; "design.md has Context, Decisions, Rollout & Gating, and Risks";
   "every Decision names a rejected alternative"; "review.md exists and records a rubric and an owner decision";
   "the owner decision is not pending"; "every non-rollout phase declares SHAPE loop or graph";
   "every loop phase declares STOP, MAX-ITERS, and TERMINAL"; "a loop's STOP opens a backtick span with a command";
   "a graph phase with more than one task declares MERGE"; "every non-rollout phase ends with an adversarial-review task";
   "every task carries an N.M identifier"; "a task's identifier belongs to its own phase";
   "every deps reference names a task in the same phase"; "the declared dependencies form no cycle";
   "every requirement has a declared-negative scenario"; "every scenario declares POLARITY positive or negative";
   "the change carries a citations.lock, even an empty one"; "every citations.lock record is cited in prose";
   "every [cite: id] names a record that exists"; "prose uses no em-dash"; "no list item opens with a bolded label"].

(** [cmd/uncworks/spec.go:88-129] runSpec *)
Definition runSpec (args : list string) : option output :=
  let '(sub, args) := match args with [] => ("check", []) | sub :: args => (sub, args) end in
  if bool_decide (sub ∈ ["-h"; "--help"; "help"]) then Some ([Usage "spec"], Ok tt)
  else if String.eqb sub "rules" then Some ((fun r => Out (pad 26 r.1 +:+ " " +:+ r.2)) <$> zip Rules Rules_what, Ok tt)
  else match parseSpecFlags args with
  | Err e => Some ([], Err e)
  | Ok flags =>
      match load_changes flags with
      | Err e => Some ([], Err e)
      | Ok changes =>
          if String.eqb sub "check" then specCheck changes flags
          else if String.eqb sub "next" then Some (specNext changes flags)
          else if String.eqb sub "status" then Some (specStatus changes flags)
          else if String.eqb sub "graph" then
            Some ((fun c => Out ("%% " +:+ ch_Name c +:+ newline +:+ Mermaid c)) <$> changes, Ok tt)
          else Some ([], Err ("spec usage: unknown subcommand " +:+ Quote sub))
      end
  end.

(** ** The gate *)

(** The characters of a change's name. *)
Definition id_chars : regex :=
  plus (Cls (fun c => range "A" "Z" c || range "a" "z" c || range "0" "9" c || one_of "._-" c)).

(** [cmd/uncworks/gate.go:46-46] changeFromBranch *)
Definition changeFromBranch : regex := cats [Bot; alts (lit <$> ["change"; "aot"; "spec"]); chr "/"; Group 1 id_chars].

(** [cmd/uncworks/gate.go:54-54] changeFromTrailer *)
Definition changeFromTrailer : regex :=
  cats [Bol; star (Cls space_class); lit "Change-Id:"; star (Cls space_class); Group 1 id_chars; star (Cls space_class); Eol].

(** [cmd/uncworks/gate.go:71-75] runGate: what the flags set *)
Record gateFlags := { gf_opts : Options; gf_asJSON : bool; gf_branch : string; gf_message : string; gf_only : string }.

Definition with_opts (f : Options -> Options) (g : gateFlags) : gateFlags :=
  {| gf_opts := f (gf_opts g); gf_asJSON := gf_asJSON g; gf_branch := gf_branch g; gf_message := gf_message g; gf_only := gf_only g |}.

(** [cmd/uncworks/gate.go:85-101] runGate: a flag with its value *)
Definition gate_flag (flag v : string) (g : gateFlags) : result gateFlags :=
  let o := gf_opts g in
  if String.eqb flag "--change" then
    Ok (with_opts (fun o => {| op_ChangeID := v; op_Base := op_Base o; op_Head := op_Head o; op_Root := op_Root o |}) g)
  else if String.eqb flag "--base" then
    Ok (with_opts (fun o => {| op_ChangeID := op_ChangeID o; op_Base := v; op_Head := op_Head o; op_Root := op_Root o |}) g)
  else if String.eqb flag "--head" then
    Ok (with_opts (fun o => {| op_ChangeID := op_ChangeID o; op_Base := op_Base o; op_Head := v; op_Root := op_Root o |}) g)
  else if String.eqb flag "--root" then
    Ok (with_opts (fun o => {| op_ChangeID := op_ChangeID o; op_Base := op_Base o; op_Head := op_Head o; op_Root := v |}) g)
  else if String.eqb flag "--branch" then
    Ok {| gf_opts := o; gf_asJSON := gf_asJSON g; gf_branch := v; gf_message := gf_message g; gf_only := gf_only g |}
  else if String.eqb flag "--message" then
    Ok {| gf_opts := o; gf_asJSON := gf_asJSON g; gf_branch := gf_branch g; gf_message := v; gf_only := gf_only g |}
  else if String.eqb flag "--only" then
    Ok {| gf_opts := o; gf_asJSON := gf_asJSON g; gf_branch := gf_branch g; gf_message := gf_message g; gf_only := v |}
  else Err ("gate usage: unknown flag " +:+ Quote flag).

(** [cmd/uncworks/gate.go:76-103] runGate: the loop over the flags *)
Fixpoint gate_flags (args : list string) (g : gateFlags) : result gateFlags :=
  match args with
  | [] => Ok g
  | arg :: rest =>
      if String.eqb arg "--json" then
        gate_flags rest {| gf_opts := gf_opts g; gf_asJSON := true; gf_branch := gf_branch g; gf_message := gf_message g; gf_only := gf_only g |}
      else match rest with
           | [] => Err ("gate usage: " +:+ arg +:+ " needs a value")
           | v :: rest => match gate_flag arg v g with Ok g => gate_flags rest g | Err e => Err e end
           end
  end.

(** A change that an expression finds in a text, unless one is known. *)
Definition change_from (r : regex) (text : string) (o : Options) : Options :=
  if String.eqb (op_ChangeID o) "" && negb (String.eqb text "") then
    match find r text with
    | Some m => {| op_ChangeID := group 1 m; op_Base := op_Base o; op_Head := op_Head o; op_Root := op_Root o |}
    | None => o
    end
  else o.

(** [cmd/uncworks/gate.go:104-113] runGate: the options, with the change of the message or the branch *)
Definition gate_options (g : gateFlags) : Options :=
  change_from changeFromBranch (gf_branch g) (change_from changeFromTrailer (gf_message g) (gf_opts g)).

(** [cmd/uncworks/gate.go:143-166] printGateResult *)
Definition printGateResult (r : GateResult) : list line :=
  let change := if String.eqb (gr_Change r) "" then "(no change named)" else gr_Change r in
  [Out ("change: " +:+ change); Out ("tier:   " +:+ gr_Tier r +:+ ", because " +:+ gr_Reason r); Out ""] ++
  (gr_Verdicts r ≫= (fun v =>
     Out (pad 4 (if vd_Pass v then "PASS" else "FAIL") +:+ " " +:+ pad 8 (if vd_Required v then "required" else "advisory") +:+ " " +:+
          pad 26 (vd_Name v) +:+ " " +:+ vd_Summary v) ::
     ((fun l => Out ("              " +:+ l)) <$> vd_Detail v))) ++
  (if GateFailed r then [ErrOut ""; ErrOut "a required verdict failed"] else []).

(** [cmd/uncworks/gate.go:71-75] runGate: the defaults *)
Definition gate_defaults : gateFlags :=
  {| gf_opts := {| op_ChangeID := ""; op_Base := "origin/main"; op_Head := "HEAD"; op_Root := "." |};
     gf_asJSON := false; gf_branch := ""; gf_message := ""; gf_only := "" |}.

(** what git answers for the repository in a directory, and the clock *)
Context (repo_at : string -> git) (ck : clock).

(** [cmd/uncworks/gate.go:115-140] runGate: the verdicts *)
Definition gate_verdict (o : Options) (g : gateFlags) : output :=
  match CheckGate (GitRepo (repo_at (op_Root o))) t ck o with
  | (result, err) =>
      match ChangedPaths (GitRepo (repo_at (op_Root o))) (op_Base o) (op_Head o) with
      | Err _ => ([], Err ("gate check: " +:+ default "" err))
      | Ok _ =>
          let print r := if gf_asJSON g then [JSONResult r] else printGateResult r in
          let finish r := (print r, if GateFailed r then Err "gate check: required gate verdict failed" else Ok tt) in
          if String.eqb (gf_only g) "" then finish result
          else
            let only := Only result (gf_only g) in
            match gr_Verdicts only with
            | [] => ([], Err ("gate usage: no verdict named " +:+ Quote (gf_only g)))
            | _ => finish only
            end
      end
  end.

(** [cmd/uncworks/gate.go:56-141] runGate *)
Definition runGate (args : list string) : output :=
  let '(sub, args) := match args with
                      | a :: rest => if HasPrefix a "-" then ("check", args) else (a, rest)
                      | [] => ("check", [])
                      end in
  if bool_decide (sub ∈ ["-h"; "--help"; "help"]) then ([Usage "gate"], Ok tt)
  else if negb (String.eqb sub "check") then ([], Err ("gate usage: unknown subcommand " +:+ Quote sub))
  else match gate_flags args gate_defaults with
       | Err e => ([], Err e)
       | Ok g => gate_verdict (gate_options g) g
       end.

(** ** Citations *)

(** [cmd/uncworks/cite.go:19-21] report *)
Definition report (lines : list string) : list line := (fun l => ErrOut ("cite: " +:+ l)) <$> lines.

(** [cmd/uncworks/cite.go:83-88] firstOr *)
Definition firstOr (args : list string) (fallback : string) : string :=
  match args with a :: _ => if String.eqb a "" then fallback else a | [] => fallback end.

(** An error under the name of a command. *)
Definition wrap (name : string) (r : result unit) : result unit := match r with Ok _ => Ok tt | Err e => Err (name +:+ ": " +:+ e) end.

(** [cmd/uncworks/cite.go:56-75] runCiteCapture: the flags *)
Fixpoint capture_flags (rest : list string) (o : CaptureOptions) : result CaptureOptions :=
  match rest with
  | [] => Ok o
  | [flag] => Err ("cite usage: " +:+ flag +:+ " needs a value")
  | flag :: v :: rest =>
      let set id quote class doi lock :=
        capture_flags rest {| co_URL := co_URL o; co_ID := id; co_Quote := quote; co_ClaimClass := class; co_DOI := doi; co_LockDir := lock |} in
      if String.eqb flag "--id" then set v (co_Quote o) (co_ClaimClass o) (co_DOI o) (co_LockDir o)
      else if String.eqb flag "--quote" then set (co_ID o) v (co_ClaimClass o) (co_DOI o) (co_LockDir o)
      else if String.eqb flag "--class" then set (co_ID o) (co_Quote o) v (co_DOI o) (co_LockDir o)
      else if String.eqb flag "--doi" then set (co_ID o) (co_Quote o) (co_ClaimClass o) v (co_LockDir o)
      else if String.eqb flag "--lockdir" then set (co_ID o) (co_Quote o) (co_ClaimClass o) (co_DOI o) v
      else Err ("cite usage: unknown capture flag " +:+ Quote flag)
  end.

(** the network and the services, for capturing and rechecking *)
Context (ev : environment).

(** [cmd/uncworks/cite.go:50-81] runCiteCapture: the lines that [Capture] reports are left out *)
Definition runCiteCapture (args : list string) : tree * output :=
  match args with
  | [] => (t, ([], Err "cite usage: uncworks cite capture <url> --id <id> --quote <text> --class <class>"))
  | url :: rest =>
      match capture_flags rest {| co_URL := url; co_ID := ""; co_Quote := ""; co_ClaimClass := ""; co_DOI := ""; co_LockDir := "." |} with
      | Err e => (t, ([], Err e))
      | Ok o => let '(t', r) := Capture ev t o in (t', ([], wrap "cite capture" r))
      end
  end.

(** [cmd/uncworks/cite.go:23-48] runCite *)
Definition runCite (args : list string) : tree * output :=
  let '(sub, args) := match args with [] => ("verify", []) | sub :: args => (sub, args) end in
  if bool_decide (sub ∈ ["-h"; "--help"; "help"]) then (t, ([Usage "cite"], Ok tt))
  else if String.eqb sub "verify" then
    let '(r, lines) := Verify t ck (firstOr args ".") in (t, (report lines, wrap "cite verify" r))
  else if String.eqb sub "capture" then runCiteCapture args
  else if String.eqb sub "recheck" then
    let '(r, lines) := Recheck ev t (firstOr args ".") in (t, (report lines, wrap "cite recheck" r))
  else (t, ([], Err ("cite usage: unknown subcommand " +:+ Quote sub +:+ ", use verify, capture, or recheck"))).
End tools.

(** ** What the status of a tool says *)

Lemma exit_status_0 o : exit_status o = 0%Z <-> o.2 = Ok tt.
Proof. unfold exit_status. destruct o.2 as [[]|e]; by split. Qed.

Lemma collect_length {A B} (f : A -> result B) l bs : collect f l = Ok bs -> Forall2 (fun a b => f a = Ok b) l bs.
Proof.
  revert bs. induction l as [|a l IH]; intros bs; cbn; [by intros [= <-]|].
  destruct (f a) as [b|e] eqn:Hf; [|done]. destruct (collect f l) as [bs'|e]; [|done]. intros [= <-]. constructor; auto.
Qed.

(** A change that is loaded is checked without a panic. *)
Lemma loaded_checks t range_ f cs :
  load_changes t f = Ok cs -> Forall (fun c => is_Some (Check_ range_ t c)) cs.
Proof.
  assert (Hload : forall dir c, Load t dir = Ok c -> is_Some (Check_ range_ t c)).
  { intros dir c Hl. destruct (Check_total range_ t dir c Hl) as (r & Hr & _). by exists r. }
  unfold load_changes. destruct (sf_names f) as [|name names].
  - unfold LoadAll. destruct (ReadDir t (sf_dir f)) as [entries|]; [|done]. revert cs.
    induction entries as [|e entries IH]; intros cs; cbn [foldr].
    { intros [= <-]. constructor. }
    destruct (negb _ || _); [apply IH|]. destruct (Load t _) as [c|] eqn:Hl; [|done].
    destruct (foldr _ _ entries) as [cs'|]; [|done]. intros [= <-]. constructor; [by eapply Hload|by apply IH].
  - intros Hc%collect_length. apply Forall_forall. intros c Hin. apply list_elem_of_lookup in Hin as [i Hi].
    destruct (Forall2_lookup_r _ _ _ _ _ Hc Hi) as (n & _ & Hn). unfold load_named in Hn.
    destruct (Load t _) as [c'|] eqn:Hl; [|done]. injection Hn as <-. by eapply Hload.
Qed.

Lemma specCheck_passes t range_ cs flags (Hrange : forall m, range_ m ≡ₚ (map_to_list m).*2) :
  (exists o, specCheck t range_ cs flags = Some o /\ exit_status o = 0%Z) <-> Forall (clean t) cs.
Proof.
  transitivity (exists rs, mapM (Check_ range_ t) cs = Some rs /\ existsb Failed rs = false).
  { unfold specCheck. destruct (mapM _ cs) as [rs|]; cbn; [|naive_solver]. split.
    - intros (o & [= <-] & H). exists rs. split; [done|]. rewrite exit_status_0 in H. cbn in H. by destruct (existsb Failed rs).
    - intros (rs' & [= <-] & ->). eexists. split; [done|]. by rewrite exit_status_0. }
  induction cs as [|c cs IH]; cbn.
  - split; [by constructor|]. intros _. by exists [].
  - rewrite Forall_cons, <- IH, <- (Check_clean range_) by done. split.
    + intros (rs & Hm & Hf). apply bind_Some in Hm as (r & Hr & Hm). apply bind_Some in Hm as (rs' & Hrs & [= <-]).
      cbn in Hf. apply orb_false_iff in Hf as [? ?]. split; [by exists r|by exists rs'].
    + intros [(r & -> & Hf) (rs & -> & Hfs)]. cbn. eexists. split; [done|]. cbn. by rewrite Hf, Hfs.
Qed.

Lemma runSpec_check (t : tree) (range_ : gmap string Artifact -> list Artifact) (args : list string)
    (Hrange : forall m, range_ m ≡ₚ (map_to_list m).*2) :
  exists o, runSpec t range_ ("check" :: args) = Some o /\
    (exit_status o = 0%Z <->
     exists flags changes, parseSpecFlags args = Ok flags /\ load_changes t flags = Ok changes /\ Forall (clean t) changes).
Proof.
  cbn. destruct (parseSpecFlags args) as [flags|e]; [|eexists; split; [done|]; split; [done|by intros (? & ? & ? & _)]].
  destruct (load_changes t flags) as [cs|e] eqn:Hl; [|eexists; split; [done|]; split; [done|intros (? & ? & [= <-] & ? & _); congruence]].
  pose proof (loaded_checks _ range_ _ _ Hl) as Hc. pose proof (specCheck_passes t range_ cs flags Hrange) as Hp.
  assert (is_Some (specCheck t range_ cs flags)) as [o Ho].
  { unfold specCheck. assert (is_Some (mapM (Check_ range_ t) cs)) as [rs ->] by (by apply mapM_is_Some). by eexists. }
  exists o. split; [done|]. split.
  - intros H0. exists flags, cs. split_and!; [done..|]. apply Hp. eauto.
  - intros (? & ? & [= <-] & Hl' & Hcl). assert (x0 = cs) as -> by congruence. apply Hp in Hcl as (o' & Ho' & ?). congruence.
Qed.

(** ** What the arguments of [uncworks spec] say *)

(** The arguments, one by one; a name begins with no dash. *)
Inductive specArg := SJson | SDir (dir : string) | SName (name : string).

Definition spec_words (a : specArg) : list string :=
  match a with SJson => ["--json"] | SDir dir => ["--dir"; dir] | SName name => [name] end.

Definition spec_arg_ok (a : specArg) : Prop := match a with SName name => HasPrefix name "-" = false | _ => True end.

(** The directory that was given last, and all the names. *)
Definition asked_dir (items : list specArg) : string :=
  default "openspec/changes" (last (omap (fun a => match a with SDir dir => Some dir | _ => None end) items)).
Definition asked_names (items : list specArg) : list string :=
  omap (fun a => match a with SName name => Some name | _ => None end) items.

(** The changes that are asked for: one for each name, a directory or one of [dir]; without a name,
    one for each directory of [dir] but the archive. *)
Definition asked_changes (t : tree) (dir : string) (names : list string) (changes : list Change) : Prop :=
  match names with
  | [] => exists entries, ReadDir t dir = Some entries /\
      Forall2 (fun e c => Load t (PathJoin dir e) = Ok c)
        (List.filter (fun e => IsDir t (PathJoin dir e) && negb (String.eqb e "archive")) entries) changes
  | _ => Forall2 (fun name c => Load t (if exists_ t name then name else PathJoin dir name) = Ok c) names changes
  end.

Lemma spec_flags_items args flags flags' : spec_flags args flags = Ok flags' ->
  exists items, Forall spec_arg_ok items /\ args = items ≫= spec_words.
Proof.
  remember (length args) as n eqn:Hn. revert args flags Hn. induction (lt_wf n) as [n _ IH].
  intros [|arg args] flags ->; [intros _; by exists []|]. cbn [spec_flags].
  destruct (String.eqb_spec arg "--json") as [->|_].
  { intros H. apply (IH (length args)) in H as (items & Hi & ->); [|cbn; lia|done]. exists (SJson :: items). by repeat constructor. }
  destruct (String.eqb_spec arg "--dir") as [->|_].
  { destruct args as [|v args]; [done|]. intros H.
    apply (IH (length args)) in H as (items & Hi & ->); [|cbn; lia|done]. exists (SDir v :: items). by repeat constructor. }
  destruct (HasPrefix arg "-") eqn:Ha; [done|]. intros H.
  apply (IH (length args)) in H as (items & Hi & ->); [|cbn; lia|done]. exists (SName arg :: items). by repeat constructor.
Qed.

Lemma spec_flags_read items flags : Forall spec_arg_ok items ->
  exists json, spec_flags (items ≫= spec_words) flags =
    Ok {| sf_asJSON := json;
          sf_dir := default (sf_dir flags) (last (omap (fun a => match a with SDir dir => Some dir | _ => None end) items));
          sf_names := sf_names flags ++ asked_names items |}.
Proof.
  intros Hi. revert flags. induction Hi as [|a items Ha _ IH]; intros [json dir names].
  { exists json. cbn. by rewrite app_nil_r. }
  destruct a as [|v|name]; cbn [mbind list_bind spec_words app spec_flags].
  - rewrite String.eqb_refl. exact (IH {| sf_asJSON := true; sf_dir := dir; sf_names := names |}).
  - destruct (IH {| sf_asJSON := json; sf_dir := v; sf_names := names |}) as (j & Hj). exists j.
    change (String.eqb "--dir" "--json") with false. rewrite String.eqb_refl. cbn [sf_asJSON sf_dir sf_names] in *.
    rewrite Hj. cbn [omap list_omap]. rewrite last_cons. by destruct (last _).
  - cbn in Ha. destruct (String.eqb_spec name "--json") as [->|_]; [done|].
    destruct (String.eqb_spec name "--dir") as [->|_]; [done|]. rewrite Ha.
    destruct (IH {| sf_asJSON := json; sf_dir := dir; sf_names := names ++ [name] |}) as (j & Hj). exists j.
    cbn [sf_asJSON sf_dir sf_names] in *. rewrite Hj. cbn. by rewrite <- app_assoc.
Qed.

Lemma collect_Forall2 {A B} (f : A -> result B) l bs : collect f l = Ok bs <-> Forall2 (fun a b => f a = Ok b) l bs.
Proof.
  split; [apply collect_length|]. induction 1 as [|a b l bs Hab _ IH]; [done|]. cbn. by rewrite Hab, IH.
Qed.

Lemma LoadAll_changes t dir changes : LoadAll t dir = Ok changes <-> asked_changes t dir [] changes.
Proof.
  unfold LoadAll, asked_changes. destruct (ReadDir t dir) as [entries|]; [|split; [done|by intros (? & ? & _)]].
  transitivity (Forall2 (fun e c => Load t (PathJoin dir e) = Ok c)
    (List.filter (fun e => IsDir t (PathJoin dir e) && negb (String.eqb e "archive")) entries) changes); [|naive_solver].
  revert changes. induction entries as [|e entries IH]; intros changes; cbn [foldr List.filter].
  { split; [by intros [= <-]|]. by intros ->%Forall2_nil_inv_l. }
  destruct (IsDir _ _), (String.eqb e "archive"); cbn [negb andb orb]; try apply IH.
  split.
  - destruct (Load t _) as [c|] eqn:Hl; [|done]. destruct (foldr _ _ entries) as [cs|] eqn:Hr; [|done].
    intros [= <-]. constructor; [done|]. by apply IH.
  - intros (c & cs & Hl & Hr & ->)%Forall2_cons_inv_l. apply IH in Hr. by rewrite Hl, Hr.
Qed.

Lemma load_changes_asked t flags changes :
  load_changes t flags = Ok changes <-> asked_changes t (sf_dir flags) (sf_names flags) changes.
Proof.
  unfold load_changes. destruct (sf_names flags) as [|name names].
  - rewrite <- LoadAll_changes. destruct (LoadAll t (sf_dir flags)); [done|]. by split.
  - unfold asked_changes. rewrite collect_Forall2.
    assert (forall n c, load_named t (sf_dir flags) n = Ok c <-> Load t (if exists_ t n then n else PathJoin (sf_dir flags) n) = Ok c) as H.
    { intros n c. unfold load_named. destruct (Load t _); [done|]. by split. }
    split; intros Hf; (eapply Forall2_impl; [exact Hf|]); intros ? ?; by apply H.
Qed.

(** C35. [uncworks spec check] ends with status 0 exactly when its arguments can be read, every change
    that they name can be loaded, or without a name every directory of changes but the archive, and
    every one of them is clean by the rubric's description ([SpecRubric.clean], where the review of a
    phase may stand at any place); in whatever order the artifacts are ranged over, and it never
    panics. *)
Theorem spec_check_status (t : tree) (range_ : gmap string Artifact -> list Artifact) (args : list string)
    (Hrange : forall m, range_ m ≡ₚ (map_to_list m).*2) :
  exists o, runSpec t range_ ("check" :: args) = Some o /\
    (exit_status o = 0%Z <->
     exists items changes, Forall spec_arg_ok items /\ args = items ≫= spec_words /\
       asked_changes t (asked_dir items) (asked_names items) changes /\ Forall (clean t) changes).
Proof.
  assert (exists o, runSpec t range_ ("check" :: args) = Some o /\
    (exit_status o = 0%Z <-> exists flags changes, parseSpecFlags args = Ok flags /\ load_changes t flags = Ok changes /\ Forall (clean t) changes))
    as (o & Ho & Hs) by by apply runSpec_check.
  exists o. split; [done|]. rewrite Hs. unfold parseSpecFlags. split.
  - intros (flags & changes & Hf & Hl & Hc). destruct (spec_flags_items _ _ _ Hf) as (items & Hi & ->). exists items, changes.
    destruct (spec_flags_read items {| sf_asJSON := false; sf_dir := "openspec/changes"; sf_names := [] |} Hi) as (j & Hj).
    rewrite Hj in Hf. injection Hf as <-. by apply load_changes_asked in Hl.
  - intros (items & changes & Hi & -> & Hl & Hc).
    destruct (spec_flags_read items {| sf_asJSON := false; sf_dir := "openspec/changes"; sf_names := [] |} Hi) as (j & Hj).
    eexists _, changes. split; [exact Hj|]. split; [|done]. by apply load_changes_asked.
Qed.

(** What one verdict of the gate, or all that are required, ask of a pull request. *)
Definition only_met (only : string) (repo : Repo) (t : tree) (ck : clock) (o : Options) (changed : list string) : Prop :=
  let tier := tier_met repo t o changed (ClassifyTier changed).1 in
  if String.eqb only "" then tier /\ citations_met t ck o
  else if String.eqb only "factory/tier" then tier
  else if String.eqb only "factory/citations" then citations_met t ck o
  else only = "factory/spec-conformance" \/ only = "factory/order".

(** The verdicts that a readable diff gets. *)
Lemma gate_verdicts repo t ck o changed :
  ChangedPaths repo (op_Base o) (op_Head o) = Ok changed ->
  exists v1 v2 v3 v4, gr_Verdicts (CheckGate repo t ck o).1 = [v1; v2; v3; v4] /\
    (vd_Name v1, vd_Name v2, vd_Name v3, vd_Name v4) =
      ("factory/tier", "factory/citations", "factory/spec-conformance", "factory/order") /\
    (vd_Required v1, vd_Required v2, vd_Required v3, vd_Required v4) = (true, true, false, false) /\
    (vd_Pass v1 = true <-> tier_met repo t o changed (ClassifyTier changed).1) /\ (vd_Pass v2 = true <-> citations_met t ck o).
Proof.
  intros Hd. unfold CheckGate. rewrite Hd. pose proof (ClassifyTier_means (sort_strings changed)) as Hm.
  pose proof (tier_met_perm repo t o _ _ (ClassifyTier changed).1 (sort_strings_perm changed)) as Hperm.
  rewrite <- ClassifyTier_sort in Hperm at 1. pose proof (ClassifyTier_sort changed) as Htier.
  destruct (ClassifyTier (sort_strings changed)) as [tier reason]. cbn [fst] in Hm, Hperm, Htier.
  do 4 eexists. cbn [fst gr_Verdicts]. split; [done|]. split_and!.
  - unfold citationsVerdict, conformanceVerdict, orderVerdict. cbv zeta. repeat (case_match; try done).
  - unfold citationsVerdict, conformanceVerdict, orderVerdict. cbv zeta. repeat (case_match; try done).
  - cbn. rewrite <- Hperm, <- (tier_problem_None repo t o _ _ Hm). by destruct (tier_problem _ _ _ _ _).
  - apply citationsVerdict_pass.
Qed.

Lemma Only_verdicts r name vs : gr_Verdicts r = vs -> gr_Verdicts (Only r name) = List.filter (fun v => String.eqb (vd_Name v) name) vs.
Proof. by intros <-. Qed.

Lemma gate_status_flags (t : tree) (repo_at : string -> git) (ck : clock) (args : list string) :
  exit_status (runGate t repo_at ck ("check" :: args)) = 0%Z <->
  exists g changed, gate_flags args gate_defaults = Ok g /\
    let o := gate_options g in
    let repo := GitRepo (repo_at (op_Root o)) in
    ChangedPaths repo (op_Base o) (op_Head o) = Ok changed /\ only_met (gf_only g) repo t ck o changed.
Proof.
  rewrite exit_status_0. change (runGate t repo_at ck ("check" :: args)) with
    (match gate_flags args gate_defaults with Err e => ([], Err e) | Ok g => gate_verdict t repo_at ck (gate_options g) g end).
  destruct (gate_flags args gate_defaults) as [g|e]; [|split; [done|by intros (? & ? & ? & _)]].
  transitivity (exists changed, ChangedPaths (GitRepo (repo_at (op_Root (gate_options g)))) (op_Base (gate_options g)) (op_Head (gate_options g)) = Ok changed /\
    only_met (gf_only g) (GitRepo (repo_at (op_Root (gate_options g)))) t ck (gate_options g) changed); [|naive_solver].
  set (o := gate_options g). set (repo := GitRepo (repo_at (op_Root o))). unfold gate_verdict. fold repo.
  destruct (ChangedPaths repo (op_Base o) (op_Head o)) as [changed|e] eqn:Hd;
    [|destruct (CheckGate _ _ _ _); split; [done|by intros (? & ? & _)]].
  transitivity (only_met (gf_only g) repo t ck o changed); [|naive_solver].
  destruct (gate_verdicts repo t ck o _ Hd) as (v1 & v2 & v3 & v4 & Hv & Hn & Hr & H1 & H2).
  injection Hn as N1 N2 N3 N4. injection Hr as R1 R2 R3 R4.
  destruct (CheckGate repo t ck o) as [res err]. cbn [fst] in Hv. unfold only_met. cbv zeta.
  destruct (String.eqb_spec (gf_only g) "") as [_|_].
  { unfold GateFailed. rewrite Hv. cbn. rewrite R1, R2, R3, R4. destruct (vd_Pass v1), (vd_Pass v2); cbn; intuition congruence. }
  rewrite (Only_verdicts _ _ _ Hv). cbn [List.filter]. rewrite N1, N2, N3, N4.
  unfold GateFailed. rewrite (Only_verdicts _ _ _ Hv). cbn [List.filter]. rewrite N1, N2, N3, N4.
  destruct (String.eqb_spec "factory/tier" (gf_only g)) as [<-|]; [cbn; rewrite R1; destruct (vd_Pass v1); cbn; intuition congruence|].
  destruct (String.eqb_spec "factory/citations" (gf_only g)) as [<-|]; [cbn; rewrite R2; destruct (vd_Pass v2); cbn; intuition congruence|].
  destruct (String.eqb_spec (gf_only g) "factory/tier"); [congruence|]. destruct (String.eqb_spec (gf_only g) "factory/citations"); [congruence|].
  destruct (String.eqb_spec "factory/spec-conformance" (gf_only g)) as [<-|]; [cbn; rewrite R3; naive_solver|].
  destruct (String.eqb_spec "factory/order" (gf_only g)) as [<-|]; [cbn; rewrite R4; naive_solver|]. naive_solver.
Qed.

(** ** What the arguments of [uncworks gate] say *)

Inductive gateField := FChange | FBase | FHead | FRoot | FBranch | FMessage | FOnly.

#[export] Instance gateField_eq_dec : EqDecision gateField.
Proof. solve_decision. Defined.

Definition field_flag (f : gateField) : string :=
  match f with
  | FChange => "--change" | FBase => "--base" | FHead => "--head" | FRoot => "--root"
  | FBranch => "--branch" | FMessage => "--message" | FOnly => "--only"
  end.

(** The arguments, one by one: a flag takes whatever follows it. *)
Inductive gateArg := GJson | GSet (f : gateField) (v : string).

Definition gate_words (a : gateArg) : list string :=
  match a with GJson => ["--json"] | GSet f v => [field_flag f; v] end.

(** The value that a flag was given last. *)
Definition asked (f : gateField) (items : list gateArg) : option string :=
  last (omap (fun a => match a with GSet f' v => if decide (f' = f) then Some v else None | GJson => None end) items).

(** The name that an expression finds in a text, if there is one. *)
Definition found_in (r : regex) (text : string) : string :=
  if String.eqb text "" then "" else match find r text with Some m => group 1 m | None => "" end.

(** The change is the one of the flag, or else of the trailer of the message, or else of the branch. *)
Definition asked_change (items : list gateArg) : string :=
  default "" (head (List.filter (fun id => negb (String.eqb id ""))
    [default "" (asked FChange items);
     found_in changeFromTrailer (default "" (asked FMessage items));
     found_in changeFromBranch (default "" (asked FBranch items))])).

Definition asked_options (items : list gateArg) : Options :=
  {| op_ChangeID := asked_change items;
     op_Base := default "origin/main" (asked FBase items);
     op_Head := default "HEAD" (asked FHead items);
     op_Root := default "." (asked FRoot items) |}.

(** What the flags have set of a field. *)
Definition field_of (f : gateField) (g : gateFlags) : string :=
  match f with
  | FChange => op_ChangeID (gf_opts g) | FBase => op_Base (gf_opts g) | FHead => op_Head (gf_opts g)
  | FRoot => op_Root (gf_opts g) | FBranch => gf_branch g | FMessage => gf_message g | FOnly => gf_only g
  end.

Lemma gate_flag_sets f v g : exists g', gate_flag (field_flag f) v g = Ok g' /\
  forall f', field_of f' g' = if decide (f = f') then v else field_of f' g.
Proof. destruct f; eexists; (split; [reflexivity|]); by intros []. Qed.

Lemma gate_flag_known arg v g g' : gate_flag arg v g = Ok g' -> exists f, arg = field_flag f.
Proof.
  unfold gate_flag.
  repeat match goal with |- context [String.eqb arg ?flag] =>
    destruct (String.eqb_spec arg flag) as [->|_]; [intros _|] end; [..|done];
    [by exists FChange|by exists FBase|by exists FHead|by exists FRoot|by exists FBranch|by exists FMessage|by exists FOnly].
Qed.

Lemma gate_flags_items args g g' : gate_flags args g = Ok g' -> exists items, args = items ≫= gate_words.
Proof.
  remember (length args) as n eqn:Hn. revert args g Hn. induction (lt_wf n) as [n _ IH].
  intros [|arg args] g ->; [intros _; by exists []|]. cbn [gate_flags].
  destruct (String.eqb_spec arg "--json") as [->|_].
  { intros H. apply (IH (length args)) in H as (items & ->); [|cbn; lia|done]. by exists (GJson :: items). }
  destruct args as [|v args]; [done|]. destruct (gate_flag arg v g) as [g1|e] eqn:Hg; [|done].
  apply gate_flag_known in Hg as [f ->]. intros H.
  apply (IH (length args)) in H as (items & ->); [|cbn; lia|done]. by exists (GSet f v :: items).
Qed.

Lemma gate_flags_read items g : exists g', gate_flags (items ≫= gate_words) g = Ok g' /\
  forall f, field_of f g' = default (field_of f g) (asked f items).
Proof.
  revert g. induction items as [|[|f v] items IH]; intros g; [by exists g|..]; cbn [mbind list_bind gate_words app gate_flags].
  - rewrite String.eqb_refl.
    destruct (IH {| gf_opts := gf_opts g; gf_asJSON := true; gf_branch := gf_branch g; gf_message := gf_message g; gf_only := gf_only g |})
      as (g' & Hg & Hf). exists g'. split; [exact Hg|]. intros f. rewrite Hf. by destruct f.
  - assert (String.eqb (field_flag f) "--json" = false) as -> by by destruct f.
    destruct (gate_flag_sets f v g) as (g1 & -> & H1). destruct (IH g1) as (g' & Hg & Hf).
    exists g'. split; [exact Hg|]. intros f'. rewrite Hf, H1. unfold asked. cbn [omap list_omap].
    destruct (decide (f = f')); [rewrite last_cons; by destruct (last _)|done].
Qed.

Lemma change_from_found r text o :
  change_from r text o =
    {| op_ChangeID := if String.eqb (op_ChangeID o) "" then found_in r text else op_ChangeID o;
       op_Base := op_Base o; op_Head := op_Head o; op_Root := op_Root o |}.
Proof.
  unfold change_from, found_in. destruct o as [id base head root]. cbn [op_ChangeID op_Base op_Head op_Root].
  destruct (String.eqb_spec id "") as [->|_]; [|done]. destruct (String.eqb text ""); [done|].
  by destruct (find r text).
Qed.

Lemma gate_options_asked items g : gate_flags (items ≫= gate_words) gate_defaults = Ok g ->
  gate_options g = asked_options items /\ gf_only g = default "" (asked FOnly items).
Proof.
  intros Hg. destruct (gate_flags_read items gate_defaults) as (g' & Hg' & Hf). rewrite Hg in Hg'. injection Hg' as <-.
  pose proof (Hf FChange) as H1. pose proof (Hf FBase) as H2. pose proof (Hf FHead) as H3. pose proof (Hf FRoot) as H4.
  pose proof (Hf FBranch) as H5. pose proof (Hf FMessage) as H6. pose proof (Hf FOnly) as H7. clear Hf Hg. cbn in *.
  split; [|done]. unfold gate_options, asked_options, asked_change. rewrite !change_from_found.
  cbn [op_ChangeID op_Base op_Head op_Root]. rewrite H1, H2, H3, H4, H5, H6. f_equal.
  generalize (default "" (asked FChange items)) (found_in changeFromTrailer (default "" (asked FMessage items)))
    (found_in changeFromBranch (default "" (asked FBranch items))).
  intros x y z. cbn [List.filter]. destruct (String.eqb_spec x "") as [->|Hx]; cbn [negb head default].
  - destruct (String.eqb_spec y "") as [->|Hy]; cbn [negb head default]; [by destruct (String.eqb_spec z "") as [->|]|done].
  - by destruct (String.eqb_spec x "").
Qed.

(** C34. [uncworks gate check] ends with status 0 exactly when its arguments are flags with their values, the diff between
    the base and the head that they give can be read, and what is gated on holds: the demands of the tier and the citations; the
    one of them that [--only] names; or nothing, when it names an advisory verdict.  The change that they are about is
    that of the flag, or else that of the trailer of the message, or else that of the branch. *)
Theorem gate_status (t : tree) (repo_at : string -> git) (ck : clock) (args : list string) :
  exit_status (runGate t repo_at ck ("check" :: args)) = 0%Z <->
  exists items changed, args = items ≫= gate_words /\
    let o := asked_options items in
    let repo := GitRepo (repo_at (op_Root o)) in
    ChangedPaths repo (op_Base o) (op_Head o) = Ok changed /\
    only_met (default "" (asked FOnly items)) repo t ck o changed.
Proof.
  rewrite gate_status_flags. split.
  - intros (g & changed & Hg & H). destruct (gate_flags_items _ _ _ Hg) as [items ->].
    destruct (gate_options_asked items g Hg) as [Ho Hw]. exists items, changed. by rewrite <- Ho, <- Hw.
  - intros (items & changed & -> & H). destruct (gate_flags_read items gate_defaults) as (g & Hg & _).
    destruct (gate_options_asked items g Hg) as [Ho Hw]. exists g, changed. split; [done|]. by rewrite Ho, Hw.
Qed.

(** ** Examples *)

(** A checkout with a clean change. *)
Lemma spec_check_status_witness :
  exists o, runSpec sampleTree in_order ["check"; "demo"] = Some o /\
    (exit_status o = 0%Z <->
     exists items changes, Forall spec_arg_ok items /\ ["demo"] = items ≫= spec_words /\
       asked_changes sampleTree (asked_dir items) (asked_names items) changes /\ Forall (clean sampleTree) changes).
Proof. exact (spec_check_status sampleTree in_order ["demo"] (fun _ => reflexivity _)). Defined.

Example check_passes :
  runSpec sampleTree in_order ["check"] = Some ([Out "demo: 0 findings"], Ok tt) /\
  runSpec sampleTree in_order ["check"; "--dir"] = Some ([], Err "spec usage: --dir needs a value") /\
  (exit_status <$> runSpec (tree_of "/repo" [("openspec/changes/demo/proposal.md", "")]) in_order []) = Some 1%Z.
Proof. by vm_compute. Qed.

Example next_tasks :
  (fst <$> runSpec sampleTree in_order ["next"]) =
  Some [Out ("demo: phase 1 " +:+ Quote "Build" +:+ " (shape loop)"); Out "  stop: `go test ./...`"; Out "  ready:";
        Out "    1.2 Fix it `deps: 1.1`"; Out "  blocked: 1.3 waits on 1.2"].
Proof. by vm_compute. Qed.

Definition texts (o : output) : list string := omap (fun l => match l with Out s => Some s | _ => None end) o.1.

(** A repository whose diff is these lines. *)
Definition git_with (diff : string) : git := {| git_diff_names _ := GitOut diff; git_cat_file _ := GitOut "" |}.

(** The help says that [next] "exits 2" when nothing is runnable; every error ends the program with 1. *)
Example cycle_exits_1 :
  let t := tree_of "/repo" [("openspec/changes/demo/tasks.md", text_of ["## 1. Build"; "- [ ] 1.1 A `deps:` 1.2"; "- [ ] 1.2 B `deps:` 1.1"])] in
  (exit_status <$> runSpec t in_order ["next"]) = Some 1%Z.
Proof. by vm_compute. Qed.

(** [uncworks spec] checks, and [uncworks spec --json] takes the flag for a subcommand. *)
Example json_is_no_subcommand :
  (snd <$> runSpec sampleTree in_order ["--json"]) = Some (Err ("spec usage: unknown subcommand " +:+ Quote "--json")).
Proof. by vm_compute. Qed.

(** [uncworks gate --help] is an error: a flag is never taken for a subcommand, and the help is one. *)
Example help_needs_a_value :
  runGate sampleTree (fun _ => git_with "") noon ["--help"] = ([], Err "gate usage: --help needs a value").
Proof. by vm_compute. Qed.

(** A merge queue: the change is that of the trailer. *)
Example change_of_the_trailer :
  op_ChangeID (change_from changeFromTrailer ("fix it" +:+ newline +:+ newline +:+ "Change-Id: demo" +:+ newline)
     (gf_opts gate_defaults)) = "demo" /\
  op_ChangeID (change_from changeFromBranch "change/demo/2" (gf_opts gate_defaults)) = "demo" /\
  op_ChangeID (change_from changeFromBranch "feature/demo" (gf_opts gate_defaults)) = "" /\
  op_ChangeID (change_from changeFromBranch "change/.." (gf_opts gate_defaults)) = "..".
Proof. by vm_compute. Qed.

(** Code that no change claims is refused; and the run for [factory/order] alone, which shows that it failed, ends with 0. *)
Example advisory_ends_with_0 :
  let g := {| git_diff_names _ := GitOut ("internal/x/y.go" +:+ newline); git_cat_file _ := GitExit "none" |} in
  let run args := runGate (sampleFiles "- internal/x") (fun _ => g) noon (["check"; "--change"; "demo"] ++ args) in
  exit_status (run []) = 1%Z /\ exit_status (run ["--only"; "factory/order"]) = 0%Z /\
  "FAIL advisory factory/order              the code changes but openspec/changes/demo/proposal.md is absent from origin/main, so the spec did not merge first"
    ∈ texts (run ["--only"; "factory/order"]).
Proof. split_and!; [by vm_compute|by vm_compute|]. apply (bool_decide_unpack _). by vm_compute. Qed.
