(* ===== verification/Services.v ===== *)
(** * Services behind the API server: files on GitHub ([internal/server/github.go]), the code search ([cmd/cudgel-shim], [internal/cudgel])
    and the repositories of projects ([internal/softserve]).

    What a service answers is a function of its state and the request; the bodies are given as what JSON decodes them to.  The
    token of GitHub is that of the provider.  Git and ssh change a file tree, below the directory that they are run in. *)

From S2P Require Import Prelude GoStrings GoUrl Files Json JsonDecode Shell GitActivities Hydrator ApiTypes RestChains.

Local Open Scope Z_scope.

(** ** Base64, and back *)

(** The value of a character of the alphabet. *)
Definition base64_value (c : Ascii.ascii) : option Z :=
  let n := Z.of_N (code c) in
  if is_upper c then Some (n - 65) else if is_lower c then Some (n - 71) else if is_digit c then Some (n + 4)
  else if Ascii.eqb c "+" then Some 62 else if Ascii.eqb c "/" then Some 63 else None.

(** [base64.StdEncoding.DecodeString], of a text without line ends; [None] is an error. *)
Fixpoint base64_decode (s : string) : option (list Z) :=
  match s with
  | "" => Some []
  | String a (String b (String c (String d s))) =>
      x ← base64_value a; y ← base64_value b;
      let first := Z.lor (Z.shiftl x 2) (Z.shiftr y 4) in
      if Ascii.eqb c "=" then if Ascii.eqb d "=" && String.eqb s "" then Some [first] else None
      else
        z ← base64_value c;
        let second := Z.lor (Z.shiftl (Z.land y 15) 4) (Z.shiftr z 2) in
        if Ascii.eqb d "=" then if String.eqb s "" then Some [first; second] else None
        else
          u ← base64_value d; rest ← base64_decode s;
          Some (first :: second :: Z.lor (Z.shiftl (Z.land z 3) 6) u :: rest)
  | _ => None
  end.

(** [strings.ReplaceAll(s, "\n", "")], and the line ends that the decoder ignores itself. *)
Fixpoint drop_chars (P : Ascii.ascii -> bool) (s : string) : string :=
  match s with "" => "" | String c s => if P c then drop_chars P s else String c (drop_chars P s) end.
Definition line_end (c : Ascii.ascii) : bool := Ascii.eqb c "010" || Ascii.eqb c "013".

Definition text_of_bytes (bs : list Z) : string := String.string_of_list_ascii ((fun b => Ascii.ascii_of_N (Z.to_N b)) <$> bs).

(** ** Files on GitHub *)

(** A request to GitHub: with the headers of [setAuthHeaders], the token that they carry; the body of a PUT. *)
Record gh_put := { gp_Message : string; gp_Content : string; gp_SHA : string }.
Record gh_request := { gq_Method : string; gq_URL : string; gq_Token : string; gq_Body : option gh_put }.

(** The answer: its status, whether the rate limit is used up, its body as a text, and what it decodes to: content and SHA of a GET, SHA
    of a PUT. *)
Record gh_answer := {
  ga_Status : Z; ga_Exhausted : bool; ga_Body : string; ga_Contents : result (string * string); ga_Written : result string;
}.

(** How a handler ends: an answer with a status, or a panic. *)
Inductive gh_reply :=
| GError (status : Z) (msg : string)
| GPushed (sha : string)
| GPulled (content sha : string)
| GPanics.

(** [internal/server/github.go:44-49] pushRequest *)
Record pushRequest := { pr_Repo : string; pr_Path : string; pr_Content : string; pr_Message : string }.

(** [internal/server/github.go:241-247] splitRepo *)
Definition splitRepo (fullRepo : string) : result (string * string) :=
  match SplitN fullRepo "/" 2 with
  | [owner; repo] =>
      if String.eqb owner "" || String.eqb repo "" then
        Err ("invalid input: repo must be in owner/repo format, got " +:+ Quote fullRepo)
      else Ok (owner, repo)
  | _ => Err ("invalid input: repo must be in owner/repo format, got " +:+ Quote fullRepo)
  end.

(** [internal/server/github.go:258-278] checkGitHubError *)
Definition checkGitHubError (a : gh_answer) : option (Z * string) :=
  let s := ga_Status a in
  if (200 <=? s) && (s <? 300) then None
  else if s =? 404 then Some (404, "repository or file not found")
  else if s =? 401 then Some (401, "GitHub authentication failed: invalid or expired token")
  else if s =? 403 then
    if ga_Exhausted a then Some (429, "GitHub API rate limit exceeded") else Some (403, "GitHub access forbidden: " +:+ ga_Body a)
  else Some (s, "GitHub API error (" +:+ Itoa s +:+ "): " +:+ ga_Body a).

(** [internal/server/github.go:113-113] handlePush: the URL, which [handlePull] makes too *)
Definition contents_url (owner repo path : string) : string :=
  "https://api.github.com/repos/" +:+ owner +:+ "/" +:+ repo +:+ "/contents/" +:+ path.

Section github.
Context {W : Type} (send : W -> gh_request -> W * result gh_answer) (token : result string).

Abbreviation gh := (shell W gh_request gh_reply).

(** A request: an URL that cannot be parsed leaves none, and its headers are set nevertheless. *)
Definition request_ (method url tok : string) (body : option gh_put) : gh (result gh_answer) :=
  match url_Parse url with
  | Err _ => return_ GPanics
  | Ok _ => command send {| gq_Method := method; gq_URL := url; gq_Token := tok; gq_Body := body |}
  end.

(** An answer that must have come. *)
Definition reached (a : result gh_answer) : gh gh_answer :=
  match a with Ok a => mret a | Err e => return_ (GError 502 ("failed to reach GitHub API: " +:+ e)) end.

(** An answer that must be a success. *)
Definition accepted (a : gh_answer) : gh unit :=
  match checkGitHubError a with None => mret tt | Some (s, msg) => return_ (GError s msg) end.

(** [internal/server/github.go:31-40] getToken: the handlers answer any error alike *)
Definition getToken : gh string :=
  match token with Ok t => mret t | Err _ => return_ (GError 500 "GitHub integration not configured") end.

Definition owner_of (full : string) : gh (string * string) :=
  match splitRepo full with Ok r => mret r | Err e => return_ (GError 400 e) end.

(** [internal/server/github.go:89-175] handlePush *)
Definition handlePush (body : result pushRequest) : gh gh_reply :=
  tok ← getToken;
  match body with
  | Err e => return_ (GError 400 ("invalid JSON body: " +:+ e))
  | Ok req =>
      if String.eqb (pr_Repo req) "" || String.eqb (pr_Path req) "" || String.eqb (pr_Content req) "" || String.eqb (pr_Message req) "" then
        return_ (GError 400 "repo, path, content, and message are required")
      else
        '(owner, repo) ← owner_of (pr_Repo req);
        let url := contents_url owner repo (pr_Path req) in
        got ← request_ "GET" url tok None;
        a ← reached got;
        let existing := if ga_Status a =? 200 then match ga_Contents a with Ok (_, sha) => sha | Err _ => "" end else "" in
        put ← request_ "PUT" url tok
                (Some {| gp_Message := pr_Message req; gp_Content := base64 (bytes_of (pr_Content req)); gp_SHA := existing |});
        a ← reached put;
        accepted a;;
        match ga_Written a with
        | Err e => return_ (GError 502 ("failed to decode GitHub response: " +:+ e))
        | Ok sha => mret (GPushed sha)
        end
  end.

(** [internal/server/github.go:177-230] handlePull *)
Definition handlePull (repo path : string) : gh gh_reply :=
  tok ← getToken;
  if String.eqb repo "" || String.eqb path "" then return_ (GError 400 "repo and path query params are required")
  else
    '(owner, name) ← owner_of repo;
    got ← request_ "GET" (contents_url owner name path) tok None;
    a ← reached got;
    accepted a;;
    match ga_Contents a with
    | Err e => return_ (GError 502 ("failed to decode GitHub response: " +:+ e))
    | Ok (content, sha) =>
        match base64_decode (drop_chars line_end content) with
        | None => return_ (GError 502 "failed to decode file content")
        | Some bs => mret (GPulled (text_of_bytes bs) sha)
        end
    end.

(** What a handler answered. *)
Definition reply (r : gh_reply + gh_reply) : gh_reply := match r with inl x | inr x => x end.
End github.

(** ** The code search *)

(** The answers of the shim: symbols, where [None] is [null], or edges, which it passes on as they are. *)
Inductive shim_reply (symbol edge : Type) :=
| SError (status : Z) (msg : string)
| SSymbols (l : option (list symbol))
| SEdges (l : list edge)
| SAccepted.
Arguments SError {symbol edge}. Arguments SSymbols {symbol edge}. Arguments SEdges {symbol edge}. Arguments SAccepted {symbol edge}.

(** How a run of the program ends. *)
Inductive ran := Ran (stdout : string) | RanExit (code : Z) (stderr : string) | RanNot (e : string).

(** [cmd/cudgel-shim/main.go:70-70] allowedRepoPrefixes *)
Definition allowedRepoPrefixes : list string := ["/workspace"; "/repos"].

(** [cmd/cudgel-shim/main.go:262-270] isAllowedPath *)
Definition isAllowedPath (repoPath : string) : bool :=
  let clean := Clean repoPath in
  existsb (fun prefix => String.eqb clean prefix || HasPrefix clean (prefix +:+ "/")) allowedRepoPrefixes.

(** [cmd/cudgel-shim/main.go:275-289] runCudgel *)
Definition run_result (r : ran) : result string :=
  match r with
  | Ran out => Ok (TrimSpace out)
  | RanExit c err => Err ("failed: exit " +:+ Itoa c +:+ ": " +:+ TrimSpace err)
  | RanNot e => Err ("cudgel: " +:+ e)
  end.

(** [cmd/cudgel-shim/main.go:124-130] handleSearch: the limit *)
Definition search_limit (limit : Z) : Z := let l := if limit <=? 0 then 10 else limit in if 50 <? l then 50 else l.

(** [cmd/cudgel-shim/main.go:177-183] handleGraph: the depth *)
Definition graph_depth (depth : Z) : Z := let d := if depth <=? 0 then 2 else depth in if 5 <? d then 5 else d.

Section shim.
Context {symbol edge : Type}.
Abbreviation reply_ := (shim_reply symbol edge).
(** whether the program is there, what it answers, and how its output is decoded; [None] is an error, and [Some None] is [null] *)
Context (present : bool) (cudgel : list string -> ran).
Context (symbols_of : string -> option (option (list symbol))) (edges_of : string -> option (option (list edge))).

(** What every handler looks at first: the method, the body and the text that must not be blank. *)
Definition shim_checked {A} (isPost : bool) (body : option A) (text : A -> string) (blank : string)
    (k : A -> list (list string) * reply_) : list (list string) * reply_ :=
  if negb isPost then ([], SError 405 "method not allowed")
  else match body with
  | None => ([], SError 400 "invalid JSON body")
  | Some req => if String.eqb (TrimSpace (text req)) "" then ([], SError 400 (blank +:+ " must not be empty")) else k req
  end.

(** [cmd/cudgel-shim/main.go:107-157] handleSearch: the commands that are run, and the answer *)
Definition handleSearch (isPost : bool) (body : option (string * Z)) : list (list string) * reply_ :=
  shim_checked isPost body fst "query" (fun req =>
    if negb present then ([], SError 503 "cudgel binary not available")
    else
      let args := ["query"; req.1; "--limit"; Itoa (search_limit req.2); "--json"] in
      ([args],
       match run_result (cudgel args) with
       | Err e => SError 503 ("cudgel query failed: " +:+ e)
       | Ok out => match symbols_of out with
                   | None => SError 503 "failed to parse cudgel output"
                   | Some l => SSymbols l
                   end
       end)).

(** [cmd/cudgel-shim/main.go:160-214] handleGraph *)
Definition handleGraph (isPost : bool) (body : option (string * Z)) : list (list string) * reply_ :=
  shim_checked isPost body fst "symbol" (fun req =>
    if negb present then ([], SError 503 "cudgel binary not available")
    else
      let args := ["graph"; req.1; "--depth"; Itoa (graph_depth req.2); "--json"] in
      ([args],
       match run_result (cudgel args) with
       | Err e => SError 503 ("cudgel graph failed: " +:+ e)
       | Ok out => SEdges (default [] (default None (edges_of out)))
       end)).

(** [cmd/cudgel-shim/main.go:217-259] handleIndex: the command runs behind the answer *)
Definition handleIndex (isPost : bool) (body : option string) : list (list string) * reply_ :=
  shim_checked isPost body id "repo_path" (fun path =>
    if negb (isAllowedPath path) then ([], SError 400 "repo_path is not in an allowed directory")
    else if negb present then ([], SError 503 "cudgel binary not available")
    else ([["index"; path]], SAccepted)).

(** How the client asks: what a POST to the URL answers is its status and what the body decodes to. *)
Definition client_post {A} (endpoint path : string) (post : string -> string * Z -> result (Z * result (list A))) (body : string * Z) : result (list A) :=
  match url_Parse (endpoint +:+ path) with
  | Err e => Err ("build request: " +:+ e)
  | Ok _ =>
      match post (endpoint +:+ path) body with
      | Err e => Err ("do request: " +:+ e)
      | Ok (status, l) =>
          if negb (status =? 200) then Err ("failed: cudgel " +:+ path +:+ " returned " +:+ Itoa status)
          else match l with Ok l => Ok l | Err e => Err ("decode response: " +:+ e) end
      end
  end.

(** [internal/cudgel/client.go:67-97] SemanticSearch *)
Definition SemanticSearch (endpoint : string) (post : string -> string * Z -> result (Z * result (list symbol))) (query : string) (limit : Z) :
    result (list symbol) := client_post endpoint "/search" post (query, limit).

(** [internal/cudgel/client.go:100-133] GraphTraversal *)
Definition GraphTraversal (endpoint : string) (post : string -> string * Z -> result (Z * result (list edge))) (s : string) (depth : Z) :
    result (list edge) := client_post endpoint "/graph" post (s, depth).
End shim.

(** ** Repositories of projects *)

(** A command of ssh or git: where it is run, the ssh command that git is given, and its words. *)
Record scmd := { sc_Dir : string; sc_Ssh : string; sc_Argv : list string }.

(** [internal/softserve/client.go:16-21] Client *)
Record SoftClient := { so_SSHAddr : string; so_KeyPath : string }.

(** [internal/softserve/client.go:141-144] ScaffoldProject *)
Record ScaffoldProject := { sp_Name : string; sp_Packages : list string }.

Section softserve.
(** what a command does to the files and what it prints, the temporary file and directory that are given out; the files of the scaffold *)
Context (run : tree -> scmd -> tree * result string) (temp_file : tree -> option string) (temp_dir : tree -> result string).
Context (scaffold_files : list (string * string)).
Variable c : SoftClient.

Abbreviation soft := (shell tree scmd string).

(** [internal/softserve/client.go:67-91] ensureKeyOwnership: the key, and the file to remove *)
Definition ensureKeyOwnership (t : tree) : tree * string * option string :=
  match ReadFile t (so_KeyPath c) with
  | None => (t, so_KeyPath c, None)
  | Some data =>
      match temp_file t with
      | None => (t, so_KeyPath c, None)
      | Some tmp => match WriteFile t tmp data with
                    | Ok t => (t, tmp, Some tmp)
                    | Err _ => (RemoveAll t tmp, so_KeyPath c, None)
                    end
      end
  end.

(** A command with the key, which is removed behind it. *)
Definition with_key (argv : string -> string * string * list string) : soft (result string) := fun s =>
  let '(t, key, cleanup) := ensureKeyOwnership (m_state s) in
  let '(dir, ssh, words) := argv key in
  let cmd := {| sc_Dir := dir; sc_Ssh := ssh; sc_Argv := words |} in
  let '(t, out) := run t cmd in
  ({| m_state := match cleanup with Some tmp => RemoveAll t tmp | None => t end; m_log := m_log s ++ [cmd] |}, inl out).

Definition ssh_options (key : string) : list string :=
  ["-i"; key; "-o"; "StrictHostKeyChecking=no"; "-o"; "UserKnownHostsFile=/dev/null"; "-o"; "LogLevel=ERROR"].

(** [internal/softserve/client.go:24-61] sshCmd: a command is run in the directory of the server *)
Definition sshCmd (args : list string) : soft string :=
  let '(host, port) := match SplitN (so_SSHAddr c) ":" 2 with
                       | host :: port :: _ => (host, port)
                       | host :: _ => (host, "23231")
                       | [] => ("", "23231")
                       end in
  out ← with_key (fun key => ("", "", "ssh" :: ssh_options key ++ ["-p"; port; host] ++ args));
  match out with Ok out => mret (TrimSpace out) | Err e => return_ ("ssh command failed: " +:+ e) end.

(** An error of a step under a name. *)
Definition named_step {A} (name : string) (m : soft A) : soft A := wrap (fun e => name +:+ ": " +:+ e) m.

(** [internal/softserve/client.go:94-99] CreateRepo *)
Definition CreateRepo (name : string) : soft unit := named_step ("create repo " +:+ Quote name) (_ ← sshCmd ["repo"; "create"; name]; mret tt).

(** [internal/softserve/client.go:102-107] DeleteRepo *)
Definition DeleteRepo (name : string) : soft unit := named_step ("delete repo " +:+ Quote name) (_ ← sshCmd ["repo"; "delete"; name]; mret tt).

(** [internal/softserve/client.go:110-119] ListRepos *)
Definition ListRepos : soft (list string) :=
  named_step "list repos" (out ← sshCmd ["repo"; "list"]; mret (if String.eqb out "" then [] else Split out "010"%char)).

(** [internal/softserve/client.go:122-133] RepoExists *)
Definition RepoExists (name : string) : soft bool :=
  named_step ("check repo exists " +:+ Quote name) (repos ← ListRepos; mret (existsb (String.eqb name) repos)).

(** [internal/softserve/client.go:136-138] CloneURL *)
Definition CloneURL (name : string) : string := "ssh://" +:+ so_SSHAddr c +:+ "/" +:+ name +:+ ".git".

(** [internal/softserve/client.go:310-324] gitExec *)
Definition gitExec (dir name : string) (args : list string) : soft unit :=
  out ← with_key (fun key =>
    (dir, "ssh -i " +:+ key +:+ " -o StrictHostKeyChecking=no -o UserKnownHostsFile=/dev/null -o LogLevel=ERROR", "git" :: args));
  match out with Ok _ => mret tt | Err e => return_ (name +:+ ": " +:+ e) end.

(** An operation on files. *)
Definition files_op (name : string) (op : tree -> result tree) : soft unit := on_state (fun e => name +:+ ": " +:+ e) op.

(** A temporary directory around a step: it is removed however the step ends. *)
Definition in_temp_dir {A} (m : string -> soft A) : soft A := fun s =>
  match temp_dir (m_state s) with
  | Err e => (s, inr ("create temp dir: " +:+ e))
  | Ok dir =>
      let '(s', r) := m dir {| m_state := with_node (m_state s) dir Directory; m_log := m_log s |} in
      ({| m_state := RemoveAll (m_state s') dir; m_log := m_log s' |}, r)
  end.

(** [internal/softserve/client.go:225-242] ReadFile *)
Definition soft_ReadFile (repoName filePath : string) : soft string :=
  in_temp_dir (fun tmp =>
    gitExec tmp "clone" ["clone"; "--depth"; "1"; CloneURL repoName; "."];;
    t ← get_state;
    match ReadFile t (PathJoin tmp filePath) with
    | Some data => mret data
    | None => return_ ("read file " +:+ filePath +:+ ": no such file")
    end).

(** The name that commits are made under. *)
Definition configure (tmp : string) : soft unit :=
  gitExec tmp "git config user.email" ["config"; "user.email"; "aot@uncworks.io"];;
  gitExec tmp "git config user.name" ["config"; "user.name"; "AOT"].

(** [internal/softserve/client.go:245-281] WriteFile *)
Definition soft_WriteFile (repoName filePath content commitMsg : string) : soft unit :=
  in_temp_dir (fun tmp =>
    gitExec tmp "clone" ["clone"; CloneURL repoName; "."];;
    configure tmp;;
    let fullPath := PathJoin tmp filePath in
    files_op "mkdir parent dir" (fun t => MkdirAll t (Dir fullPath));;
    files_op ("write file " +:+ filePath) (fun t => WriteFile t fullPath content);;
    gitExec tmp "git add" ["add"; filePath];;
    gitExec tmp "git commit" ["commit"; "-m"; commitMsg];;
    gitExec tmp "push" ["push"]).

(** A JSON text as [json.MarshalIndent] with two blanks prints it. *)
Definition json_string (s : string) : string := dquote +:+ quote_json s +:+ dquote.
Definition devbox_json (packages : list string) : string :=
  "{" +:+ newline +:+ "  " +:+ json_string "packages" +:+ ": " +:+
  (match packages with
   | [] => "[]"
   | _ => "[" +:+ newline +:+ Join ((fun p => "    " +:+ json_string p) <$> packages) ("," +:+ newline) +:+ newline +:+ "  ]"
   end) +:+ newline +:+ "}".
Definition devcontainer_json (name : string) : string :=
  "{" +:+ newline +:+ "  " +:+ json_string "name" +:+ ": " +:+ json_string name +:+ "," +:+ newline +:+
  "  " +:+ json_string "postCreateCommand" +:+ ": " +:+ json_string "devbox install" +:+ newline +:+ "}".

(** Writing a file, with the directory that it is in. *)
Definition write_with_dir (dirErr fileErr dir path data : string) : soft unit :=
  files_op dirErr (fun t => MkdirAll t dir);; files_op fileErr (fun t => WriteFile t path data).

(** [internal/softserve/scaffold.go:15-38] writeScaffoldFiles *)
Fixpoint writeScaffoldFiles (tmp : string) (files : list (string * string)) : soft unit :=
  match files with
  | [] => mret tt
  | (path, data) :: files =>
      write_with_dir "write scaffold files" "write scaffold files" (Dir (PathJoin tmp path)) (PathJoin tmp path) data;;
      writeScaffoldFiles tmp files
  end.

(** [internal/softserve/client.go:147-222] ScaffoldAndPush *)
Definition ScaffoldAndPush (scaffold : ScaffoldProject) : soft unit :=
  in_temp_dir (fun tmp =>
    gitExec tmp "git init" ["init"; "-b"; "main"];;
    configure tmp;;
    files_op "write devbox.json" (fun t => WriteFile t (PathJoin tmp "devbox.json") (devbox_json (sp_Packages scaffold)));;
    write_with_dir "mkdir openspec/specs" "write openspec.yaml" (PathJoin tmp "openspec/specs") (PathJoin tmp "openspec/openspec.yaml")
      ("name: " +:+ sp_Name scaffold +:+ newline +:+ "schema: spec-driven" +:+ newline);;
    writeScaffoldFiles tmp scaffold_files;;
    write_with_dir "mkdir .devcontainer" "write devcontainer.json" (PathJoin tmp ".devcontainer") (PathJoin tmp ".devcontainer/devcontainer.json")
      (devcontainer_json (sp_Name scaffold));;
    gitExec tmp "git add" ["add"; "-A"];;
    gitExec tmp "git commit" ["commit"; "-m"; "scaffold project"];;
    gitExec tmp "git remote add" ["remote"; "add"; "origin"; CloneURL (sp_Name scaffold)];;
    gitExec tmp "git push" ["push"; "-u"; "origin"; "main"]).

(** [internal/softserve/client.go:284-308] ListFiles *)
Definition ListFiles (repoName : string) : soft (list string) :=
  in_temp_dir (fun tmp =>
    gitExec tmp "clone" ["clone"; "--depth"; "1"; CloneURL repoName; "."];;
    out ← command run {| sc_Dir := tmp; sc_Ssh := ""; sc_Argv := ["git"; "ls-files"] |};
    match out with
    | Err e => return_ ("git ls-files: " +:+ e)
    | Ok out => let lines := Split (TrimSpace out) "010"%char in mret (if bool_decide (lines = [""]) then [] else lines)
    end).
End softserve.

(** * Theorems *)

(** ** Base64 *)

Definition all_bytes : list Z := Z.of_nat <$> seq 0 256.

Lemma elem_of_all_bytes b : 0 <= b < 256 -> b ∈ all_bytes.
Proof. intros H. apply list_elem_of_fmap. exists (Z.to_nat b). rewrite elem_of_seq. lia. Qed.

Definition six (n : Z) : bool := bool_decide (base64_value (base64_char n) = Some n) && negb (Ascii.eqb (base64_char n) "=").

Lemma six_ok n : 0 <= n < 64 -> base64_value (base64_char n) = Some n /\ Ascii.eqb (base64_char n) "=" = false.
Proof.
  intros H. assert (forallb six (Z.of_nat <$> seq 0 64) = true) as Ha by (by vm_compute). rewrite forallb_elem in Ha.
  specialize (Ha n). unfold six in Ha. rewrite andb_true_iff, bool_decide_eq_true, negb_true_iff in Ha. apply Ha.
  apply list_elem_of_fmap. exists (Z.to_nat n). rewrite elem_of_seq. lia.
Qed.

(** What the six-bit pieces of two neighbours give back. *)
Definition second_piece (b c : Z) : Z := Z.lor (Z.shiftl (Z.land b 3) 4) (Z.shiftr c 4).
Definition third_piece (c d : Z) : Z := Z.lor (Z.shiftl (Z.land c 15) 2) (Z.shiftr d 6).

Definition pieces (b c : Z) : bool :=
  let y := second_piece b c in let z := third_piece b c in
  (0 <=? y) && (y <? 64) && (0 <=? z) && (z <? 64) && (0 <=? Z.shiftr b 2) && (Z.shiftr b 2 <? 64) && (0 <=? Z.land c 63) && (Z.land c 63 <? 64) &&
  (Z.lor (Z.shiftl (Z.shiftr b 2) 2) (Z.shiftr y 4) =? b) && (Z.land y 15 =? Z.shiftr c 4) &&
  (Z.lor (Z.shiftl (Z.shiftr b 4) 4) (Z.shiftr z 2) =? b) && (Z.lor (Z.shiftl (Z.land z 3) 6) (Z.land c 63) =? c).

Lemma pieces_ok b c : 0 <= b < 256 -> 0 <= c < 256 -> pieces b c = true.
Proof.
  intros Hb Hc. assert (forallb (fun b => forallb (pieces b) all_bytes) all_bytes = true) as H by (by vm_compute).
  rewrite forallb_elem in H. specialize (H b (elem_of_all_bytes b Hb)). rewrite forallb_elem in H. by apply H, elem_of_all_bytes.
Qed.

Lemma pieces_spec b c : 0 <= b < 256 -> 0 <= c < 256 ->
  let y := second_piece b c in let z := third_piece b c in
  0 <= y < 64 /\ 0 <= z < 64 /\ 0 <= Z.shiftr b 2 < 64 /\ 0 <= Z.land c 63 < 64 /\
  Z.lor (Z.shiftl (Z.shiftr b 2) 2) (Z.shiftr y 4) = b /\ Z.land y 15 = Z.shiftr c 4 /\
  Z.lor (Z.shiftl (Z.shiftr b 4) 4) (Z.shiftr z 2) = b /\ Z.lor (Z.shiftl (Z.land z 3) 6) (Z.land c 63) = c.
Proof.
  intros Hb Hc. pose proof (pieces_ok b c Hb Hc) as Hp. unfold pieces in Hp. cbv zeta in *.
  rewrite !andb_true_iff, !Z.leb_le, !Z.ltb_lt, !Z.eqb_eq in Hp. tauto.
Qed.

Lemma base64_round_trip : forall bs, Forall (fun b => 0 <= b < 256) bs -> base64_decode (base64 bs) = Some bs.
Proof.
  assert (0 <= 0 < 256) as H0 by lia.
  fix IH 1. intros [|b [|c [|d bs]]] H; [done|..]; inversion H as [|? ? Hb H1]; subst.
  - destruct (pieces_spec b 0 Hb H0) as (Hy & _ & Hx & _ & E & _). cbn [base64 base64_decode]. fold (second_piece b 0).
    destruct (six_ok _ Hx) as [-> _], (six_ok _ Hy) as [-> _]. cbn. by rewrite E.
  - inversion H1 as [|? ? Hc H2]; subst. destruct (pieces_spec b c Hb Hc) as (Hy & _ & Hx & _ & E & E2 & _).
    destruct (pieces_spec c 0 Hc H0) as (_ & Hz & _ & _ & _ & _ & E3 & _).
    cbn [base64 base64_decode]. fold (second_piece b c) (third_piece c 0).
    destruct (six_ok _ Hx) as [-> _], (six_ok _ Hy) as [-> _], (six_ok _ Hz) as [-> ->]. cbn. by rewrite E, E2, E3.
  - inversion H1 as [|? ? Hc H2]; subst. inversion H2 as [|? ? Hd H3]; subst.
    destruct (pieces_spec b c Hb Hc) as (Hy & _ & Hx & _ & E & E2 & _).
    destruct (pieces_spec c d Hc Hd) as (_ & Hz & _ & Hw & _ & _ & E3 & E4).
    cbn [base64]. fold (second_piece b c) (third_piece c d).
    destruct (six_ok _ Hx) as [Vx _], (six_ok _ Hy) as [Vy _], (six_ok _ Hz) as [Vz Nz], (six_ok _ Hw) as [Vw Nw].
    cbn [base64_decode]. rewrite Vx, Vy, Vz, Nz, Vw, Nw, (IH bs H3). cbn. by rewrite E, E2, E3, E4.
Qed.

Lemma base64_char_line n : line_end (base64_char n) = false.
Proof.
  unfold base64_char. generalize (Z.to_nat n). intros k.
  assert (forallb (fun c => negb (line_end c)) (String.list_ascii_of_string "ABCDEFGHIJKLMNOPQRSTUVWXYZabcdefghijklmnopqrstuvwxyz0123456789+/") = true) as Ha by done.
  revert k Ha. generalize "ABCDEFGHIJKLMNOPQRSTUVWXYZabcdefghijklmnopqrstuvwxyz0123456789+/". intros s.
  induction s as [|c s IH]; intros [|k]; cbn; try done; intros [Hc Hs]%andb_true_iff; [by apply negb_true_iff in Hc|by apply IH].
Qed.

Lemma base64_lines : forall bs, drop_chars line_end (base64 bs) = base64 bs.
Proof. fix IH 1. intros [|b [|c [|d bs]]]; cbn [base64 drop_chars]; rewrite ?base64_char_line; [done..|]. by rewrite IH. Qed.

Lemma bytes_of_range s : Forall (fun b => 0 <= b < 256) (bytes_of s).
Proof.
  unfold bytes_of. apply Forall_fmap, Forall_true. intros c. cbn. unfold Regex.byte_of. pose proof (Ascii.N_ascii_bounded c). lia.
Qed.

Lemma bytes_of_length s : length (bytes_of s) = String.length s.
Proof. unfold bytes_of. rewrite length_fmap. induction s as [|c s IH]; [done|]. cbn. by rewrite IH. Qed.

Lemma text_of_bytes_of s : text_of_bytes (bytes_of s) = s.
Proof.
  unfold text_of_bytes, bytes_of. rewrite <- list_fmap_compose. rewrite <- (String.string_of_list_ascii_of_string s) at 2. f_equal.
  rewrite <- (list_fmap_id (String.list_ascii_of_string s)) at 2. apply list_fmap_ext. intros _ c _. cbn. unfold Regex.byte_of.
  by rewrite N2Z.id, Ascii.ascii_N_embedding.
Qed.

(** ** Files on GitHub *)

Definition get_request (url tok : string) : gh_request :=
  {| gq_Method := "GET"; gq_URL := url; gq_Token := tok; gq_Body := None |}.
Definition put_request (url tok : string) (put : gh_put) : gh_request :=
  {| gq_Method := "PUT"; gq_URL := url; gq_Token := tok; gq_Body := Some put |}.

(** A name of an owner or a repository, or a part of a path, that stands for itself in an URL. *)
Definition plain_char (c : Ascii.ascii) : bool :=
  is_upper c || is_lower c || is_digit c || Ascii.eqb c "-" || Ascii.eqb c "_" || Ascii.eqb c ".".
Fixpoint plain_chars (s : string) : bool := match s with "" => true | String c s => plain_char c && plain_chars s end.
Definition plain_name (s : string) : bool :=
  plain_chars s && negb (String.eqb s "") && negb (String.eqb s ".") && negb (String.eqb s "..").

(** The URL of a file by such names: no query, no escapes and no dots in it. *)
Definition plain_file (owner repo path : string) : Prop :=
  plain_name owner = true /\ plain_name repo = true /\ forallb plain_name (Split path "/"%char) = true.

Definition success (a : gh_answer) : Prop := 200 <= ga_Status a < 300.

Lemma checkGitHubError_success a : checkGitHubError a = None <-> success a.
Proof.
  unfold checkGitHubError, success.
  destruct (Z.leb_spec 200 (ga_Status a)), (Z.ltb_spec (ga_Status a) 300); cbn [andb]; [by split|..];
    (split; [|lia]); destruct (ga_Status a =? 404), (ga_Status a =? 401), (ga_Status a =? 403), (ga_Exhausted a); done.
Qed.

(** What the contents API of GitHub documents, of the files with such names on the default branches:
    a GET changes no file; a PUT that succeeds leaves the file with the bytes that its content
    encodes; and when a GET of a file of at most a million bytes succeeds and gives a content, this is
    its bytes in base64, in lines.  Any request may fail. *)
Record github_files {W} (send : W -> gh_request -> W * result gh_answer) (file : W -> string -> option (list Z)) : Prop := {
  gf_safe : forall w url tok url', file (send w (get_request url tok)).1 url' = file w url';
  gf_write : forall w owner repo path tok put w' a, plain_file owner repo path ->
    send w (put_request (contents_url owner repo path) tok put) = (w', Ok a) -> success a ->
    exists bytes, base64_decode (gp_Content put) = Some bytes /\ file w' (contents_url owner repo path) = Some bytes;
  gf_read : forall w owner repo path tok bytes w' a content sha, plain_file owner repo path ->
    file w (contents_url owner repo path) = Some bytes -> (Z.of_nat (length bytes) <= 1000000) ->
    send w (get_request (contents_url owner repo path) tok) = (w', Ok a) -> success a -> ga_Contents a = Ok (content, sha) ->
    drop_chars line_end content = base64 bytes;
}.

Lemma plain_index owner rest : plain_chars owner = true -> Index (owner +:+ String "/" rest) "/" = Some (String.length owner).
Proof.
  induction owner as [|c owner IH]; [by destruct rest|]. cbn [plain_chars]. intros [Hc Ho]%andb_true_iff.
  cbn [String.append Index String.length]. rewrite IH by done.
  assert (String.prefix "/" (String c (owner +:+ String "/" rest)) = false) as ->; [|done].
  destruct (String.prefix _ _) eqn:E; [|done]. apply (HasPrefix_spec (String c _) "/") in E as [t E].
  injection E as -> _. by vm_compute in Hc.
Qed.

Lemma plain_split full owner repo :
  plain_name owner = true -> plain_name repo = true -> full = owner +:+ "/" +:+ repo -> splitRepo full = Ok (owner, repo).
Proof.
  unfold plain_name. rewrite !andb_true_iff, !negb_true_iff. intros [[[Ho Ho'] _] _] [[[_ Hr'] _] _] ->.
  unfold splitRepo, SplitN. change ("/" +:+ repo) with (String "/" repo). rewrite plain_index by done.
  rewrite str_take_app, str_drop_past. by rewrite Ho', Hr'.
Qed.

(** The pull of a file that GitHub has. *)
Lemma pull_gives {W} (send : W -> gh_request -> W * result gh_answer) file (Hgh : github_files send file) tok full owner repo path content
    (s : machine W gh_request) :
  splitRepo full = Ok (owner, repo) -> full <> "" -> path <> "" -> plain_file owner repo path ->
  (exists u, url_Parse (contents_url owner repo path) = Ok u) ->
  file (m_state s) (contents_url owner repo path) = Some (bytes_of content) -> Z.of_nat (length (bytes_of content)) <= 1000000 ->
  let get := get_request (contents_url owner repo path) tok in
  let given a body sha := (send (m_state s) get).2 = Ok a /\ success a /\ ga_Contents a = Ok (body, sha) in
  (exists a body sha, given a body sha /\ (handlePull send (Ok tok) full path s).2 = inl (GPulled content sha)) \/
  (exists st msg, (handlePull send (Ok tok) full path s).2 = inr (GError st msg) /\ ~ exists a body sha, given a body sha).
Proof.
  intros Hs Hf Hp Hplain [u Hu] Hfile Hlen. cbv zeta.
  unfold handlePull, getToken, owner_of, request_, reached, accepted, mbind, shell_bind, mret, shell_ret, return_, command.
  apply String.eqb_neq in Hf as ->. apply String.eqb_neq in Hp as ->. cbn [orb]. rewrite Hs, Hu.
  fold (get_request (contents_url owner repo path) tok).
  destruct (send (m_state s) _) as [w [a|e]] eqn:E; cbn [fst snd]; [|right; do 2 eexists; split; [done|by intros (? & ? & ? & ? & _)]].
  destruct (checkGitHubError a) as [[st msg]|] eqn:Hc.
  { right. do 2 eexists. split; [done|]. intros (a' & ? & ? & [= <-] & Hok%checkGitHubError_success & _). congruence. }
  apply checkGitHubError_success in Hc. destruct (ga_Contents a) as [[body sha]|e] eqn:Hbody.
  2: { right. do 2 eexists. split; [done|]. intros (a' & ? & ? & [= <-] & _ & ?). congruence. }
  left. exists a, body, sha. split; [done|].
  rewrite (gf_read send file Hgh _ _ _ _ _ _ _ _ _ _ Hplain Hfile Hlen E Hc Hbody).
  rewrite base64_round_trip by apply bytes_of_range. by rewrite text_of_bytes_of.
Qed.

(** C29. What is pushed is pulled.  A push that is answered with a SHA has made two requests with the
    token of the provider to the URL of the file: a GET, which changes no file, and a PUT with the
    content and the SHA that the GET gave, or none; the file has the pushed bytes then.  As long
    as it has them, a pull of the same repository and path answers with the content of the push whenever GitHub gives a
    content, and with an error otherwise: never with another content, and without a panic.  This is for
    names that stand for themselves in an URL and at most a million bytes; for others GitHub does not
    promise it, and the code does not check (Example [query_in_the_path]). *)
Theorem push_pull {W} (send : W -> gh_request -> W * result gh_answer) (file : W -> string -> option (list Z)) (token : result string)
    (req : pushRequest) (owner repo : string) (s s' : machine W gh_request) (sha : string)
    (Hgh : github_files send file) (Hrepo : pr_Repo req = owner +:+ "/" +:+ repo) (Hplain : plain_file owner repo (pr_Path req))
    (Hsize : Z.of_nat (String.length (pr_Content req)) <= 1000000)
    (Hpush : handlePush send token (Ok req) s = (s', inl (GPushed sha))) :
  let url := contents_url owner repo (pr_Path req) in
  exists tok put w1 a1 a2, token = Ok tok /\
    m_log s' = m_log s ++ [get_request url tok; put_request url tok put] /\
    send (m_state s) (get_request url tok) = (w1, Ok a1) /\ (forall url', file w1 url' = file (m_state s) url') /\
    send w1 (put_request url tok put) = (m_state s', Ok a2) /\ success a2 /\ ga_Written a2 = Ok sha /\
    gp_Message put = pr_Message req /\
    gp_SHA put = match ga_Contents a1 with Ok (_, old) => if ga_Status a1 =? 200 then old else "" | Err _ => "" end /\
    file (m_state s') url = Some (bytes_of (pr_Content req)) /\
    forall later, file (m_state later) url = Some (bytes_of (pr_Content req)) ->
      let given a body sha := (send (m_state later) (get_request url tok)).2 = Ok a /\ success a /\ ga_Contents a = Ok (body, sha) in
      (exists a body sha', given a body sha' /\
         (handlePull send token (pr_Repo req) (pr_Path req) later).2 = inl (GPulled (pr_Content req) sha')) \/
      (exists st msg, (handlePull send token (pr_Repo req) (pr_Path req) later).2 = inr (GError st msg) /\
         ~ exists a body sha', given a body sha').
Proof.
  intros url. revert Hpush. unfold handlePush at 1.
  unfold getToken, owner_of, request_, reached, accepted, mbind, shell_bind, mret, shell_ret, return_, command.
  destruct token as [tok|]; [|done].
  destruct (String.eqb_spec (pr_Repo req) "") as [|Hr]; [done|]. destruct (String.eqb_spec (pr_Path req) "") as [|Hp]; [done|].
  destruct (_ || _); [done|].
  assert (splitRepo (pr_Repo req) = Ok (owner, repo)) as Hs by by apply plain_split; [..|exact Hrepo]; apply Hplain.
  rewrite Hs. fold url. destruct (url_Parse url) as [u|] eqn:Hu; [|done].
  fold (get_request url tok).
  destruct (send (m_state s) _) as [w1 [a1|e1]] eqn:E1; [|done]. cbn [m_state m_log].
  match goal with |- context [send w1 ?q] => match q with {| gq_Body := Some ?put |} => set (p := put); change q with (put_request url tok p) end end.
  destruct (send w1 _) as [w2 [a2|e2]] eqn:E2; [|done]. destruct (checkGitHubError a2) as [[st msg]|] eqn:Hc; [done|].
  apply checkGitHubError_success in Hc.
  destruct (ga_Written a2) as [sha2|e] eqn:Hw; [|done]. intros [= <- <-]. cbn [m_state m_log].
  exists tok, p, w1, a1, a2. split_and!; try done.
  - by rewrite <- app_assoc.
  - intros url'. pose proof (gf_safe send file Hgh (m_state s) url tok url') as H. by rewrite E1 in H.
  - cbn. destruct (ga_Status a1 =? 200), (ga_Contents a1) as [[? ?]|]; done.
  - destruct (gf_write send file Hgh _ _ _ _ _ _ _ _ Hplain E2 Hc) as (bytes & Hb & Hf). cbn [p gp_Content] in Hb.
    rewrite base64_round_trip in Hb by apply bytes_of_range. by simplify_eq.
  - intros later Hl. apply (pull_gives send file Hgh tok); eauto.
    by rewrite bytes_of_length.
Qed.

(** A GitHub with one file per URL. *)
Definition small_github (w : gmap string (list Z)) (q : gh_request) : gmap string (list Z) * result gh_answer :=
  let answer st contents written := {| ga_Status := st; ga_Exhausted := false; ga_Body := ""; ga_Contents := contents; ga_Written := written |} in
  match gq_Body q with
  | Some put => match base64_decode (gp_Content put) with
                | Some bytes => (<[gq_URL q := bytes]> w, Ok (answer 201 (Err "none") (Ok "s2")))
                | None => (w, Ok (answer 422 (Err "none") (Err "none")))
                end
  | None => match w !! gq_URL q with
            | Some bytes => (w, Ok (answer 200 (Ok (base64 bytes, "s1")) (Err "none")))
            | None => (w, Ok (answer 404 (Err "none") (Err "none")))
            end
  end.

Definition a_push : pushRequest := {| pr_Repo := "o/r"; pr_Path := "specs/a.cs.md"; pr_Content := "hello"; pr_Message := "m" |}.
Definition no_requests : machine (gmap string (list Z)) gh_request := {| m_state := ∅; m_log := [] |}.

Lemma small_github_files : github_files small_github (fun w url => w !! url).
Proof.
  split.
  - intros w url tok url'. cbn. by destruct (w !! url).
  - intros w owner repo path tok put w' a _. unfold small_github. cbn [put_request gq_Body gq_URL].
    destruct (base64_decode (gp_Content put)) as [bytes|] eqn:Hb; intros [= <- <-] Hok; [|unfold success in Hok; cbn in Hok; lia].
    exists bytes. split; [done|]. by rewrite lookup_insert_eq.
  - intros w owner repo path tok bytes w' a content sha _ Hf _. unfold small_github. cbn [get_request gq_Body gq_URL].
    rewrite Hf. intros [= <- <-] _ [= <- <-]. apply base64_lines.
Qed.

Definition pushed : machine (gmap string (list Z)) gh_request := (handlePush small_github (Ok "t") (Ok a_push) no_requests).1.

Lemma push_pull_witness :
  exists sha', (handlePull small_github (Ok "t") "o/r" "specs/a.cs.md" pushed).2 = inl (GPulled "hello" sha').
Proof.
  destruct (push_pull small_github (fun w url => w !! url) (Ok "t") a_push "o" "r" no_requests pushed "s2" small_github_files)
    as (tok & put & w1 & a1 & a2 & _ & _ & _ & _ & _ & _ & _ & _ & _ & Hfile & Hpull).
  - reflexivity.
  - split_and!; by vm_compute.
  - by vm_compute.
  - apply injective_projections; [reflexivity|by vm_compute].
  - destruct (Hpull pushed Hfile) as [(_ & _ & sha' & _ & H)|(st & msg & H & _)]; [by exists sha'|].
    exfalso. revert H. by vm_compute.
Defined.

Example pushes :
  (handlePush small_github (Ok "t") (Ok a_push) no_requests).2 = inl (GPushed "s2") /\
  (handlePush small_github (Err "no token") (Ok a_push) no_requests).2 = inr (GError 500 "GitHub integration not configured") /\
  (handlePull small_github (Ok "t") "o/r" "b" no_requests).2 = inr (GError 404 "repository or file not found").
Proof. by vm_compute. Qed.

(** A path that is no part of an URL leaves no request, and setting its headers panics. *)
Example bad_escape_panics :
  (handlePull small_github (Ok "t") "o/r" "100%.md" no_requests).2 = inr GPanics.
Proof. by vm_compute. Qed.

(** A path is put into the URL as it is: what follows a question mark is the query. *)
Example query_in_the_path :
  contents_url "o" "r" "a.md?ref=other" = "https://api.github.com/repos/o/r/contents/a.md?ref=other".
Proof. done. Qed.

(** ** The code search *)

(** What the shim may run: a query with one to fifty answers, a graph of depth one to five, an index of an allowed directory; the text of
    the request is a word of its own. *)
Inductive shim_command : list string -> Prop :=
| shim_query q n : TrimSpace q <> "" -> 1 <= n <= 50 -> shim_command ["query"; q; "--limit"; Itoa n; "--json"]
| shim_graph s n : TrimSpace s <> "" -> 1 <= n <= 5 -> shim_command ["graph"; s; "--depth"; Itoa n; "--json"]
| shim_index p prefix : prefix ∈ allowedRepoPrefixes -> Clean p = prefix \/ HasPrefix (Clean p) (prefix +:+ "/") = true ->
    shim_command ["index"; p].

Lemma shim_disciplined {symbol edge} present cudgel symbols_of edges_of isPost body indexBody :
  Forall shim_command (handleSearch (symbol := symbol) (edge := edge) present cudgel symbols_of isPost body).1 /\
  Forall shim_command (handleGraph (symbol := symbol) (edge := edge) present cudgel edges_of isPost body).1 /\
  Forall shim_command (handleIndex (symbol := symbol) (edge := edge) present isPost indexBody).1.
Proof.
  unfold handleSearch, handleGraph, handleIndex, shim_checked. split_and!.
  - destruct isPost; [|constructor]. destruct body as [[q n]|]; [|constructor]. cbn [negb fst snd]. destruct (String.eqb_spec (TrimSpace q) ""); [constructor|].
    destruct present; constructor; [|constructor]. constructor; [done|]. unfold search_limit. cbv zeta.
    destruct (Z.leb_spec n 0); cbn; [lia|]. destruct (Z.ltb_spec 50 n); lia.
  - destruct isPost; [|constructor]. destruct body as [[q n]|]; [|constructor]. cbn [negb fst snd]. destruct (String.eqb_spec (TrimSpace q) ""); [constructor|].
    destruct present; constructor; [|constructor]. constructor; [done|]. unfold graph_depth. cbv zeta.
    destruct (Z.leb_spec n 0); cbn; [lia|]. destruct (Z.ltb_spec 5 n); lia.
  - destruct isPost; [|constructor]. destruct indexBody as [p|]; [|constructor]. cbn [negb id]. destruct (String.eqb (TrimSpace p) ""); [constructor|].
    destruct (isAllowedPath p) eqn:Ha; [|constructor]. destruct present; constructor; [|constructor].
    unfold isAllowedPath in Ha. apply existsb_elem in Ha as (prefix & Hin & Hp). apply (shim_index p prefix); [done|].
    apply orb_true_iff in Hp as [H%String.eqb_eq|H]; auto.
Qed.

Example indexed_paths :
  isAllowedPath "/workspace/../etc" = false /\ isAllowedPath "/workspaces" = false /\ isAllowedPath "/repos/./x/" = true /\
  isAllowedPath "workspace" = false.
Proof. by vm_compute. Qed.

(** A query that begins with a hyphen is given to the program as it is, which takes it for a flag. *)
Example query_is_a_flag :
  (handleSearch (symbol := unit) (edge := unit) true (fun _ => Ran "[]") (fun _ => Some None) true (Some ("--help", 99))).1 =
  [["query"; "--help"; "--limit"; "50"; "--json"]].
Proof. done. Qed.

(** ** Repositories of projects *)

(** The file at a path. *)
Definition file_at (t : tree) (q : string) : option string := match tr_nodes t !! q with Some (File data) => Some data | _ => None end.

Definition below (d q : string) : Prop := q = d \/ HasPrefix q (d +:+ "/") = true.

Lemma file_at_removed t p q : below (Abs t p) q -> file_at (RemoveAll t p) q = None.
Proof.
  intros H. unfold file_at, RemoveAll. cbn. rewrite map_lookup_filter. destruct (tr_nodes t !! q) as [n|]; [|done].
  cbn. rewrite option_guard_False; [done|]. rewrite negb_true_iff, orb_false_iff. intros [H1 H2].
  destruct H as [->|H]; [by rewrite String.eqb_refl in H1|]. unfold HasPrefix in H. congruence.
Qed.

(** However an operation on a repository ends, nothing is left in its temporary directory. *)
Lemma temp_dir_removed {A} temp_dir (m : string -> shell tree scmd string A) s dir q :
  temp_dir (m_state s) = Ok dir -> let t := m_state (in_temp_dir temp_dir m s).1 in below (Abs t dir) q -> file_at t q = None.
Proof.
  intros Hd. unfold in_temp_dir. rewrite Hd. destruct (m dir _) as [s' r]. intros H. by apply file_at_removed.
Qed.

Section small_git.
(** A git that does nothing but answer, and one new directory. *)
Let quiet : tree -> scmd -> tree * result string := fun t _ => (t, Ok "").
Let client : SoftClient := {| so_SSHAddr := "soft-serve.aot.svc:23231"; so_KeyPath := "/keys/id" |}.
Let start : machine tree scmd :=
  {| m_state := {| tr_cwd := "/"; tr_nodes := {[ "/" := Directory; "/tmp" := Directory; "/keys" := Directory; "/keys/id" := File "k" ]} |}; m_log := [] |}.
Let write (path : string) := soft_WriteFile quiet (fun _ => Some "/tmp/ss-key-1") (fun _ => Ok "/tmp/aot-write-1") client "p" path "x" "m" start.

(** A write is a clone, two settings and a commit that is pushed; the key is used as a copy, which is gone behind it. *)
Example writes :
  (sc_Argv <$> m_log (write "specs/a.cs.md").1) =
    [["git"; "clone"; "ssh://soft-serve.aot.svc:23231/p.git"; "."]; ["git"; "config"; "user.email"; "aot@uncworks.io"];
     ["git"; "config"; "user.name"; "AOT"]; ["git"; "add"; "specs/a.cs.md"]; ["git"; "commit"; "-m"; "m"]; ["git"; "push"]] /\
  (write "specs/a.cs.md").2 = inl tt /\
  map_to_list (tr_nodes (m_state (write "specs/a.cs.md").1)) = map_to_list (tr_nodes (m_state start)).
Proof. by vm_compute. Qed.

(** A path is joined as it is, so that one that climbs is written outside of the clone: who calls checks it. *)
Example writes_outside :
  file_at (m_state (write "../../keys/authorized").1) "/keys/authorized" = Some "x" /\ isValidRepoPath "../../keys/authorized" = false.
Proof. by vm_compute. Qed.
End small_git.
